(* ===== verification/_CoqProject ===== *)
-Q . S2P
Prelude.v
RustStd.v
Jid.v
Token.v
Node.v
Encoder.v
Decoder.v
Codec.v
Attrs.v
Crypto.v
LtHash.v
AppState.v
AppStateSync.v
Framing.v
Messages.v
Curve.v
XEdDSA.v
SenderKeys.v
GroupCipher.v
Session.v
SessionCipher.v
SessionRatchet.v
PreKeys.v
Noise.v
Connection.v
Device.v
Requests.v
Pairing.v
DeviceStore.v
KeyServer.v
Persistence.v
LidPn.v
Registry.v
Establish.v
Retry.v
Receive.v
ReportingToken.v
SendStores.v
Send.v
Usync.v
Groups.v
ClientSend.v
Delivery.v
Media.v
SqlStore.v
Backend.v
SqliteStore.v
PostgresStore.v
Lifecycle.v
Mailbox.v
Handlers.v
Json.v
Queue.v
MessageBuild.v
Webhooks.v
ChatApi.v
MessagesWorker.v
ServerAuth.v
ClientSync.v
Gcm.v
HistorySync.v
Contacts.v
Version.v
ServiceId.v
Inbound.v
Routes.v
