(* ===== verification/Prelude.v ===== *)
(** * chatwarp-api: verification development

    chatwarp-api is a WhatsApp Web client library with an HTTP server around
    it.  A connection carries length-prefixed, encrypted frames; a frame holds
    a binary stanza (a tree of tagged nodes with attributes); stanzas carry
    Signal-encrypted messages and the encrypted patches of the account's
    synchronised state.  This development models the parts with the program's
    own logic, from the bytes of a frame up, and leaves input and output,
    storage back ends and generated code outside.  Paths are relative to
    [src/].

    ** Files and what they model

    - [Prelude]: integers at their widths, byte strings, outcomes (a value, an
      error, a panic, missing fuel), stateful computations, list lemmas, the
      tactics and hint databases of the development.
    - [RustStd]: what the code uses of the Rust standard library: searching
      and splitting strings, integer parsing and printing, big-endian bytes,
      UTF-8 validation, insertion-ordered maps.
    - [Jid]: [warp_core/binary/src/jid.rs], addresses.
    - [Token]: [warp_core/binary/{src/token.rs,build.rs}], the dictionary, with
      the tables of [tokens.json].
    - [Node]: [node.rs], [builder.rs], [error.rs] of the same crate.
    - [Encoder], [Decoder]: [encoder.rs], [decoder.rs], [marshal.rs],
      [util.rs], each method a definition over the writer or the cursor,
      vector paths included.
    - [Codec]: the relation of the two, [wire_node] says what the wire keeps.
    - [Attrs]: [attrs.rs], the owned and the borrowed attribute parser.
    - [Crypto]: [warp_core/libsignal/src/crypto/{hash,aes_cbc,error}.rs].
    - [LtHash], [AppState]: [warp_core/appstate/src/{lthash,hash,keys,decode,
      processor,errors}.rs].
    - [AppStateSync]: [patch_decode.rs] of that crate and
      [src/appstate_sync.rs], over the storage interface [AppSyncStore].
    - [Framing]: [warp_core/src/framing.rs], [handshake/edge_routing.rs] and
      the feed-and-drain loop of [src/client.rs].
    - [Messages]: [warp_core/src/messages.rs].
    - [Curve], [XEdDSA]: [warp_core/libsignal/src/core/curve.rs] and
      [core/curve/{curve25519,utils}.rs].  [Curve] states the interface
      [Curve25519] the Signal code uses, [XEdDSA] implements it.
    - [SenderKeys], [GroupCipher]: [protocol/sender_keys.rs],
      [protocol/group_cipher.rs] and the group messages of
      [protocol/protocol.rs], over the storage interface [SenderKeyStore].
    - [Session]: [protocol/ratchet/keys.rs], [ratchet.rs], [ratchet/params.rs]
      and [state/session.rs]: chain and root keys, X3DH, session states and
      records.
    - [SessionCipher]: the pairwise messages of [protocol/protocol.rs] and
      [protocol/session_cipher.rs] over [SessionStore] and [IdentityKeyStore].
    - [SessionRatchet]: the theory of the two: the window of a receiving chain,
      two linked sides, conversations.
    - [PreKeys]: [state/{prekey,signed_prekey,bundle}.rs], [identity_key.rs],
      [protocol/session.rs] and the first message of a session.
    - [Noise]: [warp_core/src/handshake/{noise,state,utils}.rs].
    - [Connection]: [src/socket/{noise_socket,error}.rs],
      [src/auth/handshake.rs] and the stanza path of [src/client.rs], over the
      interface [Transport].
    - [Device]: [warp_core/src/store/{device,commands}.rs], the account's own
      keys and settings and the payload a connection announces.
    - [Requests]: [warp_core/src/request.rs], [src/request.rs]: request
      stanzas and the table of waiting requests as a step system.
    - [Pairing]: [warp_core/src/{pair_code,pair}.rs],
      [src/auth/{pair_code,pair}.rs].
    - [DeviceStore]: [libsignal/src/store/record_helpers.rs],
      [src/store/{signal,signal_adapter}.rs] over the interface [Table]; it
      gives the Signal code its identity, pre-key and signed pre-key stores.
    - [KeyServer]: [warp_core/src/prekeys.rs], [src/auth/prekeys.rs].
    - [Persistence]: [src/store/persistence_manager.rs] and the device row of
      [storages/sqlite-storage/src/sqlite_store.rs].
    - [LidPn]: [src/lid_pn_cache.rs], [warp_core/src/types/{lid_pn,jid}.rs],
      [src/client/lid_pn.rs] and the mapping table of the SQLite store.
    - [Registry]: [src/client/device_registry.rs] and the registry table.
    - [Establish]: [src/client/sessions.rs].
    - [Retry]: [src/retry.rs], [src/client/sender_keys.rs] and the source of a
      receipt in [src/receipt.rs].
    - [Receive]: [src/message.rs], [src/pdo.rs], [src/receipt.rs]: a message
      stanza up to the events it leads to.
    - [ReportingToken]: [warp_core/src/reporting_token.rs].
    - [SendStores], [Send]: [warp_core/src/send.rs]: the stores a message is
      encrypted with, their caches and the pipeline over a list of devices;
      the stanzas of direct, peer and group messages.  What the client answers
      to the pipeline is the interface [SendContextResolver] of
      [warp_core/src/client/context.rs].
    - [Usync]: [warp_core/src/usync.rs], [src/usync.rs].
    - [Groups]: [src/features/groups.rs].
    - [ClientSend]: [src/send.rs], [src/client/context_impl.rs], which is an
      instance of [SendContextResolver], and the table of sender key
      recipients of the SQLite store.
    - [Delivery]: the theorem that composes the sending and the receiving
      client.
    - [Media]: [warp_core/src/{download,upload}.rs], [src/{download,upload,
      mediaconn}.rs] and the HTTP types of [warp_core/src/net.rs].
    - [SqlStore]: the tables of [schema.rs] and what statements, transactions
      and retries do, with failures at any time; [Backend]: the traits of
      [warp_core/src/store/traits.rs] as calls with a specification over the
      data of one device; [SqliteStore], [PostgresStore]:
      [storages/sqlite-storage/src/sqlite_store.rs] and
      [storages/postgres-storage/src/postgres_store.rs], which implement it.
      [SqliteStore] is also an instance of [AppSyncStore] and, where nothing
      fails, of [Table].
    - [Lifecycle]: the flags of [src/client.rs] and the tasks that share them:
      [run], [connect], the message loop, [keepalive_loop] of
      [src/client/keepalive.rs], the post-login sequence of [handle_success],
      the stanzas that end a connection, as one step system.
    - [Mailbox]: [src/handlers/message.rs], the queue and the worker of each
      chat.
    - [Handlers]: [src/handlers/{router,basic,ib,notification,chatstate,
      receipt,iq,unimplemented}.rs], the acknowledgement and the small requests
      of [src/client.rs], [src/features/{presence,chatstate,blocking}.rs].
    - [Json]: serde_json's values and the lookups and edits the server makes;
      [Queue]: [src/server/queue.rs] and the tables behind it.
    - [MessageBuild]: [build_message] of [src/server/messages_worker.rs] and
      what it calls, over [Media]; [MessagesWorker]: the rest of that file, the
      worker and its tasks, as a step system.
    - [Webhooks]: [src/server/webhooks.rs] and the switches of events of
      [src/server/mod.rs].
    - [ChatApi]: the handlers of [src/server/routes/chat/{chat_manager,
      messaging}.rs] and [routes/sessions.rs] that write; [ServerAuth]: the
      check of requests and the login of [src/server/mod.rs]; [Routes]: the
      handlers of the other files of [src/server/routes] over their tables, the
      listings apart.
    - [Inbound]: the handler of the client's events of [src/main.rs], with
      [src/models/message_model.rs] and the accessors of messages of
      [warp_core/src/proto_helpers.rs].
    - [ClientSync]: the tasks of [src/client.rs] that keep the synchronised
      state, over [AppStateSync].
    - [HistorySync]: [warp_core/src/history_sync.rs], [src/history_sync.rs] and
      [LazyConversation] of [warp_core/src/types/events.rs].
    - [Contacts]: [src/features/{contacts,mex}.rs]; [Version]:
      [warp_core/src/version.rs], [src/version.rs].
    - [Gcm]: [warp_core/libsignal/src/crypto/{aes_ctr,aes_gcm}.rs];
      [ServiceId]: the identifiers of [warp_core/libsignal/src/core/address.rs].

    ** How the code is rendered

    A function that cannot fail is a Rocq function; one that returns [Result]
    or may panic returns an [outcome]; a method on [&mut self] is a [comp],
    which keeps the state it leaves behind on errors too.  Integers are [Z]
    with the wrap-around written where the code casts or wraps; [usize]
    lengths are [nat].  Randomness the code draws is an argument.  An [async]
    call is its body: the modelled functions await only storage and callbacks,
    which are interfaces.  Code of other crates (the RustCrypto primitives,
    the dalek group operations, prost, serde_json, base64, zlib) is a
    parameter with the laws the crate documents, given as classes ([Hkdf],
    [Hashes], [AesCbc], [AesGcm], [AesCtr], [Pbkdf2], [Base64], [Hex], [Dalek],
    [SenderKeyProto], [SignalProto], [HandshakeProto], [AdvProto], [PreKeyPb],
    [SessionPb], [DeviceJson], [WaMessage], [ReportMessage],
    [OutgoingMessage], [AesBlock], [Bincode], [RowText], [AppSyncKeys],
    [AesCtr32], [Ghash], [CodedInput], [UuidText]) or as arguments;
    each class has an instance in the development on which the witnesses
    evaluate.  An SQL statement's verdict is an argument, or in [SqlStore] a
    function of the number of statements before it, and a statement that
    fails changes nothing.  Where the order of concurrent tasks matters
    ([Requests], [Persistence], [LidPn], [Lifecycle], [Mailbox], [Webhooks],
    [MessagesWorker]) the parts between two suspension points are the steps of
    a transition system.

    ** What the theorems show

    - Codec: encoding never fails and decoding never panics, on any input;
      decoding inverts encoding up to the documented normalisation of
      JID-shaped strings, exactly for canonical nodes; trailing bytes are
      rejected; the vector paths equal the scalar ones; the borrowed encoder
      equals the owned one; the token maps are inverse to the tables.
    - Addresses and attributes: the optimised JID parser computes a reference
      parse and its failures are characterised; printing and parsing are
      inverse on well-formed addresses; both attribute parsers meet one
      contract.
    - App state: the vector arithmetic is lane-wise; the hash is a function of
      the multiset of values; snapshots establish, patches and whole patch
      lists preserve, that a collection's hash is the LTHash of its stored
      MACs; accepted patches are authenticated; processing never panics.
    - Framing and padding: any chunking of the byte stream delivers the
      payloads in order; unpadding inverts padding and accepts nothing else.
    - Group messaging: the ratchet refines an abstract window of iterations;
      no message key is used twice; the next 2,000 messages can arrive in any
      order; a record keeps at most five chains, one per id; a plaintext comes
      out only of a message signed by the chain's key and a failure stores
      nothing; distribution, encryption and decryption compose end to end.
    - Pairwise sessions: after X3DH every message of every conversation is
      decrypted to what was said; a receiving chain refines the same kind of
      window, without its limit for sessions of the account with itself; what is decrypted verifies under a state of the record; a
      processed bundle leads to a first message the recipient decrypts; a
      record archives at most forty states; an attempt that fails can still
      advance the state it was made with.
    - Connection: client and server end the handshake with the same keys,
      stanzas cross the encrypted socket in order however the stream is cut,
      two frames share a nonce only 2^32 apart, and the certificate check
      does not look at signatures.
    - Requests: in every interleaving of tasks, answers and timeouts a request
      ends with the answer to its own identifier or an error of its own, and
      the table holds exactly the waiting requests.
    - Pairing: a phone that knows the code and the companion agree on the
      secret; a code answers once; a countersigned identity was signed for this
      device, but its HMAC is not checked; QR texts read back.
    - Keys on the server: what an upload stores and sends, and that a bundle
      served from it starts sessions; a pre-key saved through the adapter is
      unreadable; identities are trusted on first use.
    - The account's data: a stored device reads back; whatever the order of
      modifications and saves, at rest the row is the device in memory unless
      a save failed, and a failed save is not repeated.
    - Contacts: the current LID of a number is that of its newest entry, the
      two resolutions of an address give one session, device lists are
      answered from the last list stored; concurrent additions and restarts
      can bring an older LID back; ensuring sessions gives every addressed
      device one.
    - Retries: the keys of a retry receipt make a bundle its sender can answer,
      which the asked side takes only if it already has a session; a request
      is honoured once while it is remembered, and in direct chats no session
      is left when the message is sent again.
    - Receiving: a first message, alone or with a group's sender key and text,
      arrives as the events of what was written; a message is asked for at
      most five times while its count is remembered, which is five minutes
      from the last time unless the cache is full, and then again; failures
      are reported twice in direct chats and confirmed in groups; answers of
      the phone are accepted from anyone.
    - Reporting tokens: the token of an encoded message is the truncated MAC of
      exactly the listed fields, at every depth; a length near 2^64 makes the
      extraction run forever.
    - Sending: the caches of the pipeline change nothing but the number of
      store operations, on success and on errors, except when an address shows
      two new identities in one call; a direct message, and a group message
      with its sender key, reaches every device whose bundle is served, as the
      message that was sent; the sending device writes to itself too.  A
      client's message to a contact is reported by the contact's client.  The
      sender key of a group goes to the devices that are not recorded or
      marked; devices can be recorded that never got it.
    - Users and groups: resolving devices returns what is cached or served,
      caches and records it; the information of a group is what the server
      said, under either id of a participant.
    - Media: a file is decrypted to the same bytes in pieces and at once,
      however the pieces are cut; what is uploaded is what is downloaded from
      the first host that serves it.
    - SQL stores: both implement the same plain maps for a device, under any
      failures; a failed call has done nothing, except for the four that write
      several rows without a transaction; no other device is touched; the two
      cannot be told apart while nothing fails, but for the LID of a number
      where several were stored in the same second; a write waits for a lock at
      most five times; a mark made while marks are consumed is lost.
    - Curve: every XEdDSA signature verifies under its public key, for any
      crate whose multiples of the base point obey the laws of the scalars; the
      constant-time comparison is the lexicographic order.
    - Client: in every interleaving of its tasks one attempt to connect is
      under way at a time, logins are numbered in order and a task of an older
      login begins nothing once a newer one began, while an operation it had
      begun still sends; which endings of a session are followed by a new
      attempt, after which delay, and that the others are final up to one
      attempt of every other call of [run] that was between two attempts.
    - Stanzas: messages of one chat are handled one at a time in the order
      they were queued, none is lost while a queue is in the cache; the
      handlers, a completed pairing included, act on the client as the steps of
      [Lifecycle] that are given for each stanza, and every stanza that asks for
      it is acknowledged once.
    - Synchronisation tasks: a run of the client's task keeps a collection
      consistent when the server answers for it with regular patches and a
      snapshot, if any, finds no MACs of before; which errors are waited for and
      how often; of a well-formed history every conversation is handed on, in
      order, and the push name is that of the account's own entry.
    - Ciphers and identifiers: AES-GCM over any cutting of a message is GCM at
      once and decryption accepts exactly its tag; the binary form of a service
      identifier is canonical and both forms read back; the version is found in
      the script that announces it.
    - Server: a request passes exactly with the password or its cookie, read
      from the text of its headers, unless its path is one of eleven; an
      accepted message is queued once, as it was posted; a text that is posted
      while nothing else of its session waits is sent as it was posted;
      in no order of tasks, failures and restarts is a message sent twice, at
      most 32 are on their way, of those of a chat that were claimed together
      one; while no statement fails what a run claimed is in the hands of a
      task until it is marked; an event goes out at
      most five times and not before its delay; what is lost or done out of
      order otherwise.  What is announced of a received message, up to the
      request; the answers to pings are no pings; refused requests change
      nothing, the others only their session, and rows belong to sessions that
      there are; codes and keys that are shown or hidden by mistake.

    ** Fuel and bounds

    The decoder recurses on the length of its input: a recursive call comes
    after a byte was consumed, and [unmarshal_ref_total] shows that the bound
    never runs out.  [write_string] and [write_jid] call each other; the
    strings passed on are shorter, and the fuel is the length of the string
    ([marshal_total]).  The chain
    of [get_sender_key] advances by the distance to the wanted iteration,
    which is the fuel it gets, and so does [skip_message_keys] of a session.
    The drain loop of the receiver is bounded by
    the buffer's length, as each frame takes its prefix out of it.
    [sync_collection] repeats as long as the server announces more patches and
    is given the number of rounds.  [fetch_app_state_with_retry] has six
    attempts, [history_loop] the length of its data, since each field takes its
    tag; [fetch_retry_bounded] and [history_returns] show that they are
    enough.  The scan for pre-key ids has the 16,777,215
    rounds of the code, counted in binary by [rounds] so that the witnesses
    evaluate.

    ** Not modelled

    Generated protobuf code, transports and HTTP clients: input, output and
    generated text, which are parameters here.  Of the SQL stores, opening and
    migrating the data base.  Of the server, the routes that list rows, the
    pages, the answers that are constants, and its start in [src/main.rs] and
    [src/bot.rs].  [src/spam_report.rs], [warp_core/src/xml.rs] (the printing of
    stanzas for logs) and [warp_core/src/send_parallel.rs], which is not part of
    the crate. *)

From stdpp Require Export prelude strings.
From Stdlib Require Export ZArith Lia.
#[global] Open Scope Z_scope.

(** ** Machine integers and byte strings

    Rust's [u8], [u16], [u32], [u64] values are kept as [Z]; the width shows
    where the code casts or wraps, through [wrap].  A [&str], [String],
    [&[u8]] or [Vec<u8>] is the list of its bytes. *)
Abbreviation u8 := Z (only parsing).
Abbreviation u16 := Z (only parsing).
Abbreviation u32 := Z (only parsing).
Abbreviation u64 := Z (only parsing).
Abbreviation i32 := Z (only parsing).
Abbreviation i64 := Z (only parsing).
Abbreviation usize := nat (only parsing).
Abbreviation bytes := (list Z) (only parsing).
Abbreviation str := (list Z) (only parsing).

Declare Scope rust_scope.
Delimit Scope rust_scope with rust.
#[global] Open Scope rust_scope.

#[global] Arguments Z.eqb : simpl never.
#[global] Arguments Z.leb : simpl never.
#[global] Arguments Z.ltb : simpl never.

(** Truncation of an integer to its [w] low bits ([as u8], [as u16], ...). *)
Definition wrap (w : Z) (z : Z) : Z := z mod 2 ^ w.

(** [lo..=hi] range tests on integers. *)
Definition in_range (lo hi z : Z) : bool := (lo <=? z) && (z <=? hi).

(** The bytes of an ASCII literal. *)
Fixpoint lit (s : string) : bytes :=
  match s with
  | EmptyString => []
  | String a s' => Z.of_N (Ascii.N_of_ascii a) :: lit s'
  end.

(** Equality tests of byte strings, as the code's [==] on [&str]. *)
Fixpoint bytes_eqb (a b : bytes) : bool :=
  match a, b with
  | [], [] => true
  | x :: a', y :: b' => (x =? y) && bytes_eqb a' b'
  | _, _ => false
  end.
Notation "a =s b" := (bytes_eqb a b) (at level 70) : rust_scope.

Lemma bytes_eqb_spec (a b : bytes) : reflect (a = b) (bytes_eqb a b).
Proof.
  revert b. induction a as [|x a IH]; intros [|y b]; simpl;
    try (constructor; congruence).
  destruct (Z.eqb_spec x y) as [->|]; simpl; [|constructor; congruence].
  destruct (IH b); constructor; congruence.
Qed.

Lemma bytes_eqb_refl a : bytes_eqb a a = true.
Proof. by destruct (bytes_eqb_spec a a). Qed.

Lemma bytes_eqb_eq a b : bytes_eqb a b = true <-> a = b.
Proof. by destruct (bytes_eqb_spec a b). Qed.

Lemma bytes_eqb_neq a b : bytes_eqb a b = false <-> a <> b.
Proof. by destruct (bytes_eqb_spec a b). Qed.

(** Case analysis on every boolean byte-string comparison of the goal. *)
Ltac case_streq :=
  match goal with
  | |- context [bytes_eqb ?a ?b] =>
      let E := fresh "E" in
      destruct (bytes_eqb_spec a b) as [E|E]
  end.

(** ** Outcomes

    A call returns a value ([Ok]), returns [Err], panics, or, for the
    definitions that recurse on a fuel, runs out of it.  The theorems about
    those definitions show that [NoFuel] is never the outcome at the fuel
    the entry points use. *)
Inductive outcome (E A : Type) : Type :=
| Ok (a : A)
| Err (e : E)
| Panic
| NoFuel.
Arguments Ok {E A} _.
Arguments Err {E A} _.
Arguments Panic {E A}.
Arguments NoFuel {E A}.

Definition obind {E A B} (m : outcome E A) (k : A -> outcome E B) : outcome E B :=
  match m with
  | Ok a => k a
  | Err e => Err e
  | Panic => Panic
  | NoFuel => NoFuel
  end.
Notation "'let?' x := m 'in' k" := (obind m (fun x => k))
  (at level 10, x pattern, m at level 100, k at level 200) : rust_scope.

Definition map_err {E F A} (f : E -> F) (m : outcome E A) : outcome F A :=
  match m with
  | Ok a => Ok a
  | Err e => Err (f e)
  | Panic => Panic
  | NoFuel => NoFuel
  end.

Definition omap_ok {E A B} (f : A -> B) (m : outcome E A) : outcome E B :=
  let? a := m in Ok (f a).

Definition ok_or {E A} (e : E) (o : option A) : outcome E A :=
  match o with Some a => Ok a | None => Err e end.

(** An outcome that is a value or an error: no panic, no missing fuel. *)
Definition returns {E A} (m : outcome E A) : Prop :=
  match m with Ok _ | Err _ => True | Panic | NoFuel => False end.

(** [.ok()] *)
Definition to_option {E A} (m : outcome E A) : option A :=
  match m with Ok a => Some a | _ => None end.

(** ** Stateful computations

    A [&mut self] method is a function from the state to an outcome and the
    state it leaves behind; the state survives an error, as in the code. *)
Definition comp (S E A : Type) : Type := S -> outcome E A * S.

Definition mret {S E A} (a : A) : comp S E A := fun s => (Ok a, s).
Definition mfail {S E A} (e : E) : comp S E A := fun s => (Err e, s).
Definition mpanic {S E A} : comp S E A := fun s => (Panic, s).
Definition mnofuel {S E A} : comp S E A := fun s => (NoFuel, s).
Definition mlift {S E A} (o : outcome E A) : comp S E A := fun s => (o, s).
Definition mbind' {S E A B} (m : comp S E A) (k : A -> comp S E B) : comp S E B :=
  fun s => match m s with
           | (Ok a, s') => k a s'
           | (Err e, s') => (Err e, s')
           | (Panic, s') => (Panic, s')
           | (NoFuel, s') => (NoFuel, s')
           end.
Notation "'let!' x := m 'in' k" := (mbind' m (fun x => k))
  (at level 10, x pattern, m at level 100, k at level 200) : rust_scope.
Notation "m ';;' k" := (mbind' m (fun _ => k))
  (at level 100, k at level 200, right associativity) : rust_scope.

(** [for x in l { f(x)? }] *)
Definition mfor {S E A} (f : A -> comp S E unit) : list A -> comp S E unit :=
  fix go (l : list A) : comp S E unit :=
    match l with
    | [] => mret tt
    | x :: l' => f x ;; go l'
    end.

(** [for _ in 0..n { v.push(m()?) }] *)
Fixpoint mrepeat {S E A} (n : nat) (m : comp S E A) : comp S E (list A) :=
  match n with
  | O => mret []
  | Datatypes.S n' => let! x := m in let! xs := mrepeat n' m in mret (x :: xs)
  end.

Lemma mbind'_Ok {S E A B} (m : comp S E A) (k : A -> comp S E B) s a s' :
  m s = (Ok a, s') -> mbind' m k s = k a s'.
Proof. unfold mbind'. by intros ->. Qed.

(** ** Lists *)

(** The elements [i..j] of a slice, [i <= j <= length l]. *)
Definition slice {A} (i j : nat) (l : list A) : list A := take (j - i) (drop i l).

(** [as_chunks::<n>()]: the full chunks of [n] elements and the remainder.
    The recursion is on a bound of the length. *)
Fixpoint chunks_fuel {A} (fuel n : nat) (l : list A) : list (list A) * list A :=
  match fuel with
  | O => ([], l)
  | Datatypes.S f =>
      if decide (n <= length l)%nat then
        let (cs, r) := chunks_fuel f n (drop n l) in (take n l :: cs, r)
      else ([], l)
  end.
Definition as_chunks {A} (n : nat) (l : list A) : list (list A) * list A :=
  chunks_fuel (length l) n l.

(** The index of the first element satisfying [p]. *)
Fixpoint find_pos {A} (p : A -> bool) (l : list A) : option nat :=
  match l with
  | [] => None
  | x :: l' => if p x then Some O else Datatypes.S <$> find_pos p l'
  end.

Lemma find_pos_Some {A} (p : A -> bool) l i :
  find_pos p l = Some i ->
  exists x, l !! i = Some x /\ p x = true /\
            forall j y, (j < i)%nat -> l !! j = Some y -> p y = false.
Proof.
  revert i. induction l as [|x l IH]; intros i; simpl; [done|].
  destruct (p x) eqn:Hp.
  - intros [= <-]. exists x. repeat split; auto. intros; lia.
  - intros (j & Hj & ->)%fmap_Some_1. destruct (IH _ Hj) as (y & ? & ? & Hlt).
    exists y. repeat split; auto. intros [|k] z Hk; simpl; [congruence|].
    apply Hlt. lia.
Qed.

Lemma find_pos_None {A} (p : A -> bool) l :
  find_pos p l = None <-> Forall (fun x => p x = false) l.
Proof.
  induction l as [|x l IH]; simpl; [by split|].
  destruct (p x) eqn:Hp.
  - split; [done|]. intros H. inversion H. congruence.
  - rewrite fmap_None, IH. split.
    + intros. by constructor.
    + by intros ?%Forall_inv_tail.
Qed.

Lemma find_pos_is_Some_lt {A} (p : A -> bool) l i :
  find_pos p l = Some i -> (i < length l)%nat.
Proof.
  intros (x & Hx & _)%find_pos_Some. by eapply lookup_lt_Some.
Qed.

(** The first match in [a ++ x :: b] when nothing in [a] matches. *)
Lemma find_pos_app_r {A} (p : A -> bool) a x b :
  Forall (fun y => p y = false) a -> p x = true ->
  find_pos p (a ++ x :: b) = Some (length a).
Proof.
  intros Ha Hx. induction Ha as [|y a Hy Ha IH]; simpl; [by rewrite Hx|].
  by rewrite Hy, IH.
Qed.

Lemma find_pos_split {A} (p : A -> bool) l i :
  find_pos p l = Some i ->
  exists x, l = take i l ++ x :: drop (Datatypes.S i) l /\ p x = true /\
            Forall (fun y => p y = false) (take i l).
Proof.
  intros (x & Hx & Hp & Hlt)%find_pos_Some. exists x.
  split; [by rewrite take_drop_middle|]. split; [done|].
  apply Forall_lookup. intros j y [Hj ?]%lookup_take_Some.
  by eapply Hlt.
Qed.

Lemma chunks_fuel_concat {A} fuel n (l : list A) :
  mjoin (chunks_fuel fuel n l).1 ++ (chunks_fuel fuel n l).2 = l.
Proof.
  revert l. induction fuel as [|f IH]; intros l; simpl; [done|].
  case_decide; [|done].
  specialize (IH (drop n l)). destruct (chunks_fuel f n (drop n l)) as [cs r].
  simpl in *. by rewrite <- app_assoc, IH, take_drop.
Qed.

Lemma as_chunks_concat {A} n (l : list A) :
  mjoin (as_chunks n l).1 ++ (as_chunks n l).2 = l.
Proof. apply chunks_fuel_concat. Qed.

Lemma chunks_fuel_length {A} fuel n (l : list A) :
  Forall (fun c => length c = n) (chunks_fuel fuel n l).1.
Proof.
  revert l. induction fuel as [|f IH]; intros l; simpl; [constructor|].
  case_decide; [|constructor].
  specialize (IH (drop n l)). destruct (chunks_fuel f n (drop n l)) as [cs r].
  simpl in *. constructor; [|done]. by apply length_take_le.
Qed.

Lemma as_chunks_length {A} n (l : list A) :
  Forall (fun c => length c = n) (as_chunks n l).1.
Proof. apply chunks_fuel_length. Qed.

Lemma forallb_ext {A} (p q : A -> bool) l :
  (forall x, p x = q x) -> forallb p l = forallb q l.
Proof. intros H. induction l as [|x l IH]; simpl; [done|]. by rewrite H, IH. Qed.

Lemma forallb_map_and {A B} (f g : A -> B) (p : B -> bool) l :
  forallb p (map f l) && forallb p (map g l) = forallb (fun x => p (f x) && p (g x)) l.
Proof.
  induction l as [|x l IH]; simpl; [done|]. rewrite <- IH.
  by destruct (p (f x)), (p (g x)), (forallb p (map f l)).
Qed.

(** ** Automation *)

(** Facts about list lengths and lookups, used by [rust_simpl]. *)
Create HintDb rust.
Create Rewrite HintDb rust.
#[export] Hint Rewrite @length_app @length_take @length_drop @length_cons
  @length_nil @length_replicate @length_fmap : rust.

(** Reflect boolean arithmetic tests in the context, then [lia]. *)
Ltac bool_lia :=
  repeat match goal with
  | H : (_ && _) = true |- _ => apply andb_true_iff in H; destruct H
  | H : (_ || _) = false |- _ => apply orb_false_iff in H; destruct H
  | H : negb _ = true |- _ => apply negb_true_iff in H
  | H : negb _ = false |- _ => apply negb_false_iff in H
  end; unfold in_range in *; lia.

Lemma in_range_spec lo hi z : in_range lo hi z = true <-> lo <= z <= hi.
Proof. unfold in_range. lia. Qed.

Lemma wrap_small w z : 0 <= z < 2 ^ w -> wrap w z = z.
Proof. apply Z.mod_small. Qed.

Lemma wrap_bound w z : 0 <= w -> 0 <= wrap w z < 2 ^ w.
Proof. intros. apply Z.mod_pos_bound. lia. Qed.

Lemma returns_bind {E A B} (m : outcome E A) (k : A -> outcome E B) :
  returns m -> (forall a, m = Ok a -> returns (k a)) -> returns (obind m k).
Proof. destruct m; simpl; auto. Qed.
