(* ===== verification/RustStd.v ===== *)
(** * The parts of Rust's standard library the code relies on

    [&str] searching and splitting, [str::parse] for integers and booleans,
    [Display] of unsigned integers, UTF-8 validation with its error value,
    big-endian byte conversions, and the insertion-ordered map ([IndexMap])
    that node attributes live in.  Strings are byte lists; every separator
    the code searches for is ASCII, so a byte search finds what [str::find]
    on the character finds. *)

From S2P Require Import Prelude.

(** ** Characters *)

Definition is_ascii_digit (c : u8) : bool := in_range 48 57 c.
Definition is_ascii_uppercase (c : u8) : bool := in_range 65 90 c.
Definition is_ascii_hexdigit (c : u8) : bool :=
  in_range 48 57 c || in_range 65 70 c || in_range 97 102 c.

Definition AT : u8 := 64.         (* '@' *)
Definition COLON : u8 := 58.      (* ':' *)
Definition DOT : u8 := 46.        (* '.' *)
Definition UNDERSCORE : u8 := 95. (* '_' *)
Definition DASH : u8 := 45.       (* '-' *)
Definition PLUS : u8 := 43.       (* '+' *)

(** ** Searching and splitting *)

(** [s.find(c)] for an ASCII character [c]. *)
Definition str_find (c : u8) (s : str) : option usize := find_pos (Z.eqb c) s.

(** [s.rfind(c)] *)
Fixpoint str_rfind (c : u8) (s : str) : option usize :=
  match s with
  | [] => None
  | x :: s' =>
      match str_rfind c s' with
      | Some i => Some (S i)
      | None => if c =? x then Some O else None
      end
  end.

(** [s.split_once(c)] and [s.rsplit_once(c)] *)
Definition split_at_sep (i : usize) (s : str) : str * str := (take i s, drop (S i) s).
Definition split_once (c : u8) (s : str) : option (str * str) :=
  (fun i => split_at_sep i s) <$> str_find c s.
Definition rsplit_once (c : u8) (s : str) : option (str * str) :=
  (fun i => split_at_sep i s) <$> str_rfind c s.

(** [s.starts_with(p)] *)
Fixpoint starts_with (p s : str) : bool :=
  match p, s with
  | [], _ => true
  | x :: p', y :: s' => (x =? y) && starts_with p' s'
  | _ :: _, [] => false
  end.

Lemma starts_with_app (p s : str) : starts_with p (p ++ s) = true.
Proof. induction p as [|c p IH]; cbn; [done|]. by rewrite Z.eqb_refl. Qed.

(** No occurrence of [c] in [s]. *)
Definition str_free (c : u8) (s : str) : bool := forallb (fun x => negb (c =? x)) s.

(** ** Integers as text *)

Inductive IntErrorKind := Empty | InvalidDigit | PosOverflow | NegOverflow.

(** The digit loop of [from_str_radix(10)]: each character is checked to be
    a digit before the overflow of the accumulator is. *)
Fixpoint parse_pos (hi acc : Z) (s : str) : outcome IntErrorKind Z :=
  match s with
  | [] => Ok acc
  | c :: s' =>
      if is_ascii_digit c then
        if hi <? acc * 10 + (c - 48) then Err PosOverflow
        else parse_pos hi (acc * 10 + (c - 48)) s'
      else Err InvalidDigit
  end.
Fixpoint parse_neg (lo acc : Z) (s : str) : outcome IntErrorKind Z :=
  match s with
  | [] => Ok acc
  | c :: s' =>
      if is_ascii_digit c then
        if acc * 10 - (c - 48) <? lo then Err NegOverflow
        else parse_neg lo (acc * 10 - (c - 48)) s'
      else Err InvalidDigit
  end.

(** [s.parse::<T>()] for an integer type with the range [lo..=hi]; only a
    signed type accepts a leading minus. *)
Definition parse_int (lo hi : Z) (s : str) : outcome IntErrorKind Z :=
  match s with
  | [] => Err Empty
  | [c] => if (c =? PLUS) || (c =? DASH) then Err InvalidDigit else parse_pos hi 0 s
  | c :: s' =>
      if c =? PLUS then parse_pos hi 0 s'
      else if (c =? DASH) && (lo <? 0) then parse_neg lo 0 s'
      else parse_pos hi 0 s
  end.
Definition parse_u16 : str -> outcome IntErrorKind u16 := parse_int 0 65535.
Definition parse_u32 : str -> outcome IntErrorKind u32 := parse_int 0 (2 ^ 32 - 1).
Definition parse_u64 : str -> outcome IntErrorKind u64 := parse_int 0 (2 ^ 64 - 1).
Definition parse_i64 : str -> outcome IntErrorKind i64 := parse_int (- 2 ^ 63) (2 ^ 63 - 1).

(** [s.parse::<bool>()] *)
Definition parse_bool (s : str) : option bool :=
  if s =s lit "true" then Some true
  else if s =s lit "false" then Some false
  else None.

(** [Display] of an unsigned integer. *)
Fixpoint show_fuel (fuel : nat) (n : Z) : str :=
  match fuel with
  | O => []
  | S f => if n <? 10 then [48 + n] else show_fuel f (n / 10) ++ [48 + n mod 10]
  end.
Definition show_uint (n : Z) : str := show_fuel (S (Z.to_nat (Z.log2 n))) n.

(** [as i32], [as u32] *)
Definition cast_i32 (z : Z) : i32 := (z + 2 ^ 31) mod 2 ^ 32 - 2 ^ 31.
Definition cast_u32 (z : Z) : u32 := wrap 32 z.
Definition is_i32 (z : Z) : Prop := - 2 ^ 31 <= z < 2 ^ 31.

Lemma cast_i32_id z : is_i32 z -> cast_i32 z = z.
Proof. unfold is_i32, cast_i32. intros ?. rewrite Z.mod_small; lia. Qed.

(** ** Big-endian bytes *)

Definition u16_to_be_bytes (v : u16) : bytes := [wrap 8 (Z.shiftr v 8); wrap 8 v].
Definition u32_to_be_bytes (v : u32) : bytes :=
  [wrap 8 (Z.shiftr v 24); wrap 8 (Z.shiftr v 16); wrap 8 (Z.shiftr v 8); wrap 8 v].
Definition u64_to_be_bytes (v : u64) : bytes :=
  u32_to_be_bytes (Z.shiftr v 32) ++ u32_to_be_bytes (wrap 32 v).
Definition u16_from_be_bytes (a b : u8) : u16 := Z.lor (Z.shiftl a 8) b.
Definition u32_from_be_bytes (a b c d : u8) : u32 :=
  Z.lor (Z.lor (Z.lor (Z.shiftl a 24) (Z.shiftl b 16)) (Z.shiftl c 8)) d.

(** ** UTF-8 *)

Record Utf8Error := mkUtf8Error { valid_up_to : usize; error_len : option nat }.

(** What the validator still expects of the sequence it is in. *)
Inductive utf8_state := U0 | U1 | U2 | U3 | UE0 | UED | UF0 | UF4.

Definition utf8_step (st : utf8_state) (b : u8) : option utf8_state :=
  match st with
  | U0 =>
      if in_range 0 127 b then Some U0
      else if in_range 194 223 b then Some U1
      else if b =? 224 then Some UE0
      else if b =? 237 then Some UED
      else if in_range 225 239 b then Some U2
      else if b =? 240 then Some UF0
      else if in_range 241 243 b then Some U3
      else if b =? 244 then Some UF4
      else None
  | U1 => if in_range 128 191 b then Some U0 else None
  | U2 => if in_range 128 191 b then Some U1 else None
  | U3 => if in_range 128 191 b then Some U2 else None
  | UE0 => if in_range 160 191 b then Some U1 else None
  | UED => if in_range 128 159 b then Some U1 else None
  | UF0 => if in_range 144 191 b then Some U2 else None
  | UF4 => if in_range 128 143 b then Some U2 else None
  end.

(** The validation loop of [core::str::from_utf8]: [start] is the offset of
    the sequence being read and [i] the offset of the next byte. *)
Fixpoint utf8_run (st : utf8_state) (start i : usize) (s : bytes) : outcome Utf8Error unit :=
  match s with
  | [] =>
      match st with
      | U0 => Ok tt
      | _ => Err (mkUtf8Error start None)
      end
  | b :: s' =>
      match utf8_step st b with
      | Some U0 => utf8_run U0 (S i) (S i) s'
      | Some st' => utf8_run st' start (S i) s'
      | None => Err (mkUtf8Error start (Some (Nat.max 1 (i - start))))
      end
  end.

(** [std::str::from_utf8(b)] *)
Definition from_utf8 (b : bytes) : outcome Utf8Error str :=
  let? _ := utf8_run U0 0 0 b in Ok b.

(** The bytes of a Rust [str] are always valid UTF-8. *)
Fixpoint utf8_ok (st : utf8_state) (s : bytes) : bool :=
  match s with
  | [] => match st with U0 => true | _ => false end
  | b :: s' => match utf8_step st b with Some st' => utf8_ok st' s' | None => false end
  end.
Definition utf8_valid (s : bytes) : bool := utf8_ok U0 s.

(** ** IndexMap

    An insertion-ordered map: inserting a present key replaces its value in
    place, inserting a new one appends. *)
Definition index_map (V : Type) := list (str * V).

Fixpoint im_insert {V} (k : str) (v : V) (m : index_map V) : index_map V :=
  match m with
  | [] => [(k, v)]
  | (k', v') :: m' => if k =s k' then (k', v) :: m' else (k', v') :: im_insert k v m'
  end.

Fixpoint im_get {V} (k : str) (m : index_map V) : option V :=
  match m with
  | [] => None
  | (k', v) :: m' => if k =s k' then Some v else im_get k m'
  end.

(** [iter.collect::<IndexMap<_, _>>()] *)
Definition im_collect {V} (l : list (str * V)) : index_map V :=
  fold_left (fun m kv => im_insert kv.1 kv.2 m) l [].

(** ** Lemmas: searching *)

Lemma str_free_Forall c s : str_free c s = true <-> Forall (fun x => (c =? x) = false) s.
Proof.
  unfold str_free. rewrite forallb_forall, Forall_forall.
  split; intros H x Hx.
  - apply negb_true_iff, H. by apply list_elem_of_In.
  - apply negb_true_iff, H. by apply list_elem_of_In.
Qed.

Lemma str_free_app c a b : str_free c (a ++ b) = str_free c a && str_free c b.
Proof. apply forallb_app. Qed.

Lemma str_free_find c s : str_free c s = true <-> str_find c s = None.
Proof. unfold str_find. by rewrite str_free_Forall, find_pos_None. Qed.

Lemma str_find_app c a b :
  str_free c a = true -> str_find c (a ++ c :: b) = Some (length a).
Proof.
  intros Ha. apply find_pos_app_r; [by apply str_free_Forall|apply Z.eqb_refl].
Qed.

Lemma str_find_split c s i :
  str_find c s = Some i ->
  s = take i s ++ c :: drop (S i) s /\ str_free c (take i s) = true.
Proof.
  intros (x & Hs & Hx & Hf)%find_pos_split. apply Z.eqb_eq in Hx as <-.
  split; [done|]. by apply str_free_Forall.
Qed.

Lemma split_once_app c a b :
  str_free c a = true -> split_once c (a ++ c :: b) = Some (a, b).
Proof.
  intros Ha. unfold split_once. rewrite str_find_app by done. simpl.
  unfold split_at_sep. rewrite take_app_length.
  by rewrite (drop_app_ge a), Nat.sub_succ_l, Nat.sub_diag by lia.
Qed.

Lemma split_once_None c s : str_free c s = true -> split_once c s = None.
Proof. intros H%str_free_find. unfold split_once. by rewrite H. Qed.

Lemma split_once_Some c s a b :
  split_once c s = Some (a, b) -> s = a ++ c :: b /\ str_free c a = true.
Proof.
  unfold split_once. intros (i & [Hs Hf]%str_find_split & Hab)%fmap_Some_1.
  unfold split_at_sep in Hab. simplify_eq. done.
Qed.

Lemma str_rfind_None c s : str_free c s = true -> str_rfind c s = None.
Proof.
  induction s as [|x s IH]; simpl; [done|].
  intros [Hx Hs]%andb_true_iff. apply negb_true_iff in Hx. by rewrite (IH Hs), Hx.
Qed.

Lemma str_rfind_app c a b :
  str_free c b = true -> str_rfind c (a ++ c :: b) = Some (length a).
Proof.
  intros Hb. induction a as [|x a IH]; simpl.
  - by rewrite (str_rfind_None _ _ Hb), Z.eqb_refl.
  - by rewrite IH.
Qed.

Lemma str_rfind_split c s i :
  str_rfind c s = Some i ->
  s = take i s ++ c :: drop (S i) s /\ str_free c (drop (S i) s) = true.
Proof.
  revert i. induction s as [|x s IH]; intros i; simpl; [done|].
  destruct (str_rfind c s) as [j|] eqn:Hj.
  - intros [= <-]. destruct (IH j eq_refl) as [Hs Hf]. simpl. by rewrite <- Hs.
  - destruct (Z.eqb_spec c x) as [->|]; [|done]. intros [= <-]. simpl.
    rewrite drop_0. split; [done|].
    clear IH. revert Hj. induction s as [|y s IH]; simpl; [done|].
    destruct (str_rfind x s); [done|]. destruct (Z.eqb_spec x y); [done|].
    intros _. by apply IH.
Qed.

(** ** Lemmas: integers as text *)

Lemma is_ascii_digit_spec c : is_ascii_digit c = true <-> 48 <= c <= 57.
Proof. apply in_range_spec. Qed.

Lemma parse_pos_app hi acc a b :
  parse_pos hi acc (a ++ b) = let? acc' := parse_pos hi acc a in parse_pos hi acc' b.
Proof.
  revert acc. induction a as [|c a IH]; intros acc; simpl; [done|].
  destruct (is_ascii_digit c); [|done].
  destruct (hi <? acc * 10 + (c - 48)); [done|]. apply IH.
Qed.

Lemma show_fuel_digits f n : 0 <= n -> Forall (fun c => is_ascii_digit c = true) (show_fuel f n).
Proof.
  revert n. induction f as [|f IH]; intros n Hn; simpl; [constructor|].
  assert (0 <= n mod 10 < 10) by (apply Z.mod_pos_bound; lia).
  destruct (Z.ltb_spec n 10).
  - constructor; [|constructor]. apply is_ascii_digit_spec. lia.
  - apply Forall_app. split; [apply IH, Z.div_pos; lia|].
    constructor; [|constructor]. apply is_ascii_digit_spec. lia.
Qed.

Lemma parse_show_fuel hi f n :
  0 <= n <= hi -> n < 10 ^ Z.of_nat f -> parse_pos hi 0 (show_fuel f n) = Ok n.
Proof.
  revert n. induction f as [|f IH]; intros n Hn Hf; simpl.
  { change (Z.of_nat 0) with 0 in Hf. f_equal. lia. }
  assert (0 <= n mod 10 < 10) by (apply Z.mod_pos_bound; lia).
  pose proof (Z.div_mod n 10 ltac:(lia)) as Hdm.
  destruct (Z.ltb_spec n 10).
  - simpl. replace (is_ascii_digit (48 + n)) with true
      by (symmetry; apply is_ascii_digit_spec; lia).
    destruct (Z.ltb_spec hi (0 * 10 + (48 + n - 48))); [lia|]. f_equal. lia.
  - rewrite parse_pos_app, IH; simpl; [|lia|].
    + replace (is_ascii_digit (48 + n mod 10)) with true
        by (symmetry; apply is_ascii_digit_spec; lia).
      destruct (Z.ltb_spec hi (n / 10 * 10 + (48 + n mod 10 - 48))); [lia|]. f_equal. lia.
    + rewrite Nat2Z.inj_succ, Z.pow_succ_r in Hf by lia.
      apply Z.div_lt_upper_bound; lia.
Qed.

Lemma show_uint_fuel_enough n : 0 <= n -> n < 10 ^ Z.of_nat (S (Z.to_nat (Z.log2 n))).
Proof.
  intros Hn. rewrite Nat2Z.inj_succ, Z2Nat.id by apply Z.log2_nonneg.
  destruct (Z.eq_dec n 0) as [->|]; [done|].
  pose proof (Z.log2_spec n ltac:(lia)) as [_ H].
  pose proof (Z.log2_nonneg n).
  assert (2 ^ Z.succ (Z.log2 n) <= 10 ^ Z.succ (Z.log2 n)) by (apply Z.pow_le_mono_l; lia).
  lia.
Qed.

Lemma show_uint_digits n : 0 <= n -> Forall (fun c => is_ascii_digit c = true) (show_uint n).
Proof. apply show_fuel_digits. Qed.

Lemma show_uint_nonempty n : show_uint n <> [].
Proof.
  unfold show_uint. simpl. destruct (n <? 10); [done|].
  intros [_ ?]%app_eq_nil. done.
Qed.

Lemma show_uint_free c n : 0 <= n -> is_ascii_digit c = false -> str_free c (show_uint n) = true.
Proof.
  intros Hn Hc. apply str_free_Forall. eapply Forall_impl; [by apply show_uint_digits|].
  intros x Hx. simpl in Hx. apply Z.eqb_neq. congruence.
Qed.

(** A non-empty digit string goes straight to the digit loop. *)
Lemma parse_int_digits lo hi s :
  s <> [] -> Forall (fun c => is_ascii_digit c = true) s ->
  parse_int lo hi s = parse_pos hi 0 s.
Proof.
  intros Hne Hs. destruct s as [|c s]; [done|].
  apply Forall_inv, is_ascii_digit_spec in Hs.
  unfold parse_int, PLUS, DASH.
  destruct (Z.eqb_spec c 43), (Z.eqb_spec c 45); try lia. by destruct s.
Qed.

(** Printing an unsigned integer and parsing it back is the identity. *)
Lemma parse_show_uint lo hi n : 0 <= n <= hi -> parse_int lo hi (show_uint n) = Ok n.
Proof.
  intros Hn. rewrite parse_int_digits;
    [|apply show_uint_nonempty|apply show_uint_digits; lia].
  apply parse_show_fuel; [done|]. apply show_uint_fuel_enough. lia.
Qed.

Lemma parse_pos_range hi acc s v :
  0 <= acc <= hi -> parse_pos hi acc s = Ok v -> 0 <= v <= hi.
Proof.
  revert acc. induction s as [|c s IH]; intros acc Hacc; simpl; [by intros [= <-]|].
  destruct (is_ascii_digit c) eqn:Hd; [|done]. apply is_ascii_digit_spec in Hd.
  destruct (Z.ltb_spec hi (acc * 10 + (c - 48))); [done|]. apply IH. lia.
Qed.

Lemma parse_uint_range hi s v : 0 <= hi -> parse_int 0 hi s = Ok v -> 0 <= v <= hi.
Proof.
  intros Hhi. unfold parse_int. destruct s as [|c [|d s]]; [done| |].
  - destruct (_ || _); [done|]. by apply parse_pos_range.
  - destruct (c =? PLUS); [by apply parse_pos_range|].
    rewrite andb_false_r. by apply parse_pos_range.
Qed.

Lemma parse_u16_range s v : parse_u16 s = Ok v -> 0 <= v <= 65535.
Proof. by apply parse_uint_range. Qed.

Lemma parse_int_returns lo hi s : returns (parse_int lo hi s).
Proof.
  assert (forall acc s, returns (parse_pos hi acc s)) as Hp.
  { intros acc s'. revert acc. induction s' as [|c s' IH]; intros acc; simpl; [done|].
    destruct (is_ascii_digit c); [|done]. destruct (_ <? _); [done|apply IH]. }
  assert (forall acc s, returns (parse_neg lo acc s)) as Hn.
  { intros acc s'. revert acc. induction s' as [|c s' IH]; intros acc; simpl; [done|].
    destruct (is_ascii_digit c); [|done]. destruct (_ <? _); [done|apply IH]. }
  unfold parse_int. destruct s as [|c [|d s]]; [done| |].
  - destruct (_ || _); [done|apply Hp].
  - destruct (c =? PLUS); [apply Hp|]. destruct (_ && _); [apply Hn|apply Hp].
Qed.

Lemma parse_u16_returns s : returns (parse_u16 s).
Proof. apply parse_int_returns. Qed.

(** ** Lemmas: UTF-8 *)

Lemma utf8_run_ok st start i s :
  utf8_run st start i s = Ok tt <-> utf8_ok st s = true.
Proof.
  revert st start i. induction s as [|b s IH]; intros st start i; simpl.
  - by destruct st.
  - by destruct (utf8_step st b) as [[]|]; rewrite ?IH.
Qed.

Lemma utf8_run_returns st start i s : returns (utf8_run st start i s).
Proof.
  revert st start i. induction s as [|b s IH]; intros st start i; simpl.
  - by destruct st.
  - by destruct (utf8_step st b) as [[]|].
Qed.

Lemma from_utf8_valid s : utf8_valid s = true -> from_utf8 s = Ok s.
Proof. unfold from_utf8. by intros ->%(utf8_run_ok U0 0 0). Qed.

Lemma from_utf8_Ok s s' : from_utf8 s = Ok s' -> s' = s /\ utf8_valid s = true.
Proof.
  unfold from_utf8. destruct (utf8_run U0 0 0 s) as [[]|e| |] eqn:E; simpl; try done.
  intros [= ->]. split; [done|]. by apply utf8_run_ok in E.
Qed.

Lemma from_utf8_returns s : returns (from_utf8 s).
Proof.
  unfold from_utf8. apply returns_bind; [apply utf8_run_returns|done].
Qed.

(** Inside a sequence only continuation bytes are accepted, and none starts one. *)
Lemma utf8_step_inside st b st' : utf8_step st b = Some st' -> st = U0 \/ 128 <= b <= 191.
Proof.
  destruct st; simpl; [by left|..]; unfold in_range; case_match; try done; right; lia.
Qed.

Lemma utf8_step_start b st' : utf8_step U0 b = Some st' -> ~ (128 <= b <= 191).
Proof. simpl. unfold in_range. repeat case_match; try done; lia. Qed.

Lemma utf8_ok_app st a b :
  utf8_valid b = true -> utf8_ok st (a ++ b) = utf8_ok st a.
Proof.
  intros Hb. revert st. induction a as [|x a IH]; intros st; cbn [utf8_ok app].
  - destruct st; [done|..]; destruct b as [|y b]; try done;
      unfold utf8_valid in Hb; cbn [utf8_ok] in *;
      destruct (utf8_step U0 y) eqn:E0; try done; apply utf8_step_start in E0;
      match goal with |- match ?m with _ => _ end = _ => destruct m eqn:E; [|done] end;
      apply utf8_step_inside in E as [?|?]; done.
  - destruct (utf8_step st x); [apply IH|done].
Qed.

Lemma utf8_valid_app a b :
  utf8_valid a = true -> utf8_valid b = true -> utf8_valid (a ++ b) = true.
Proof. intros Ha Hb. unfold utf8_valid. by rewrite utf8_ok_app. Qed.

(** An ASCII byte is only accepted between two sequences, so a valid string
    splits into valid strings around it. *)
Lemma utf8_ok_split st a c b :
  0 <= c <= 127 -> utf8_ok st (a ++ c :: b) = true ->
  utf8_ok st a = true /\ utf8_valid b = true.
Proof.
  intros Hc. revert st. induction a as [|x a IH]; intros st; cbn [utf8_ok app].
  - destruct (utf8_step st c) as [st'|] eqn:E; [|done].
    destruct (utf8_step_inside _ _ _ E) as [->|]; [|lia].
    simpl in E. rewrite (proj2 (in_range_spec 0 127 c)) in E by done. by simplify_eq.
  - destruct (utf8_step st x); [apply IH|done].
Qed.

Lemma utf8_valid_split a c b :
  0 <= c <= 127 -> utf8_valid (a ++ c :: b) = true ->
  utf8_valid a = true /\ utf8_valid b = true.
Proof. apply utf8_ok_split. Qed.

Lemma utf8_valid_ascii s : Forall (fun c => 0 <= c <= 127) s -> utf8_valid s = true.
Proof.
  induction 1 as [|c s Hc Hs IH]; [done|]. unfold utf8_valid. simpl.
  replace (in_range 0 127 c) with true by (symmetry; by apply in_range_spec). done.
Qed.

Lemma utf8_step_byte st b st' : utf8_step st b = Some st' -> 0 <= b <= 255.
Proof. destruct st; simpl; unfold in_range; repeat case_match; try done; lia. Qed.

Lemma utf8_valid_bytes_gen st s : utf8_ok st s = true -> Forall (fun c => 0 <= c <= 255) s.
Proof.
  revert st. induction s as [|b s IH]; intros st; cbn [utf8_ok]; [constructor|].
  destruct (utf8_step st b) as [st'|] eqn:E; [|done]. intros H.
  constructor; [by eapply utf8_step_byte|by eapply IH].
Qed.

Lemma utf8_valid_bytes s : utf8_valid s = true -> Forall (fun c => 0 <= c <= 255) s.
Proof. apply utf8_valid_bytes_gen. Qed.

Lemma show_uint_utf8 n : 0 <= n -> utf8_valid (show_uint n) = true.
Proof.
  intros Hn. apply utf8_valid_ascii. eapply Forall_impl; [by apply show_uint_digits|].
  intros c Hc. simpl in Hc. apply is_ascii_digit_spec in Hc. lia.
Qed.

(** ** Lemmas: big-endian bytes *)

Lemma lor_shiftl_add a b n : 0 <= n -> 0 <= b < 2 ^ n -> Z.lor (Z.shiftl a n) b = a * 2 ^ n + b.
Proof.
  intros Hn Hb. rewrite Z.shiftl_mul_pow2 by done.
  rewrite <- Z.lxor_lor, <- Z.add_nocarry_lxor; [done| |].
  all: apply Z.bits_inj'; intros k Hk; rewrite Z.land_spec, Z.bits_0.
  all: destruct (Z.lt_ge_cases k n).
  1,3: by rewrite Z.mul_pow2_bits_low.
  all: destruct (Z.eq_dec b 0) as [->|]; [by rewrite Z.bits_0, andb_false_r|].
  all: rewrite (Z.bits_above_log2 b k), andb_false_r; [done|lia|].
  all: apply Z.log2_lt_pow2; [lia|]; eapply Z.lt_le_trans; [apply Hb|];
       apply Z.pow_le_mono_r; lia.
Qed.

Lemma u16_be_roundtrip v :
  0 <= v < 2 ^ 16 ->
  u16_from_be_bytes (wrap 8 (Z.shiftr v 8)) (wrap 8 v) = v.
Proof.
  intros Hv. unfold u16_from_be_bytes, wrap. rewrite Z.shiftr_div_pow2 by lia.
  rewrite lor_shiftl_add by (lia || apply Z.mod_pos_bound; lia).
  rewrite (Z.mod_small (v / 2 ^ 8)) by (split; [apply Z.div_pos|apply Z.div_lt_upper_bound]; lia).
  pose proof (Z.div_mod v (2 ^ 8)). lia.
Qed.

Lemma u32_be_roundtrip v :
  0 <= v < 2 ^ 32 ->
  u32_from_be_bytes (wrap 8 (Z.shiftr v 24)) (wrap 8 (Z.shiftr v 16))
                    (wrap 8 (Z.shiftr v 8)) (wrap 8 v) = v.
Proof.
  intros Hv. unfold u32_from_be_bytes, wrap. rewrite !Z.shiftr_div_pow2 by lia.
  set (a := v / 2 ^ 24 mod 2 ^ 8). set (b := v / 2 ^ 16 mod 2 ^ 8).
  set (c := v / 2 ^ 8 mod 2 ^ 8). set (d := v mod 2 ^ 8).
  assert (0 <= b < 2 ^ 8 /\ 0 <= c < 2 ^ 8 /\ 0 <= d < 2 ^ 8) as (Hb & Hc & Hd)
    by (repeat split; apply Z.mod_pos_bound; lia).
  replace (Z.lor (Z.shiftl a 24) (Z.shiftl b 16)) with (Z.shiftl (Z.lor (Z.shiftl a 8) b) 16)
    by (rewrite Z.shiftl_lor, Z.shiftl_shiftl by lia; done).
  replace (Z.lor _ (Z.shiftl c 8))
    with (Z.shiftl (Z.lor (Z.shiftl (Z.lor (Z.shiftl a 8) b) 8) c) 8)
    by (rewrite !Z.shiftl_lor, !Z.shiftl_shiftl by lia; done).
  rewrite !lor_shiftl_add by lia. subst a b c d.
  change (2 ^ 24) with 16777216. change (2 ^ 16) with 65536. change (2 ^ 8) with 256.
  Z.div_mod_to_equations. lia.
Qed.

(** ** Lemmas: IndexMap *)

Lemma im_insert_fresh {V} k (v : V) m :
  ~ In k (map fst m) -> im_insert k v m = m ++ [(k, v)].
Proof.
  induction m as [|[k' v'] m IH]; simpl; [done|]. intros Hn.
  destruct (bytes_eqb_spec k k') as [->|]; [tauto|]. f_equal. apply IH. tauto.
Qed.

Lemma im_get_insert {V} k k' (v : V) m :
  im_get k (im_insert k' v m) = if k =s k' then Some v else im_get k m.
Proof.
  induction m as [|[k2 v2] m IH]; simpl.
  - done.
  - destruct (bytes_eqb_spec k' k2) as [->|Hne]; simpl.
    + by destruct (bytes_eqb_spec k k2).
    + rewrite IH. destruct (bytes_eqb_spec k k2) as [->|]; [|done].
      by destruct (bytes_eqb_spec k2 k').
Qed.

Lemma im_insert_keys {V} k (v : V) m :
  map fst (im_insert k v m) =
  if decide (k ∈ map fst m) then map fst m else map fst m ++ [k].
Proof.
  induction m as [|[k' v'] m IH]; simpl; [done|].
  destruct (bytes_eqb_spec k k') as [->|Hne]; simpl.
  - by rewrite decide_True by (apply list_elem_of_here).
  - rewrite IH. repeat case_decide; set_solver.
Qed.

Lemma im_insert_NoDup {V} k (v : V) m :
  List.NoDup (map fst m) -> List.NoDup (map fst (im_insert k v m)).
Proof.
  intros Hm. rewrite im_insert_keys. case_decide as Hin; [done|].
  apply NoDup_ListNoDup. apply NoDup_app. split; [by apply NoDup_ListNoDup|].
  split; [|apply NoDup_singleton].
  by intros x Hx ->%list_elem_of_singleton.
Qed.

(** Collecting pairs with pairwise distinct keys keeps them as they are. *)
Lemma im_collect_NoDup {V} (l : list (str * V)) :
  List.NoDup (map fst l) -> im_collect l = l.
Proof.
  unfold im_collect.
  enough (forall acc, List.NoDup (map fst (acc ++ l)) ->
    fold_left (fun m kv => im_insert kv.1 kv.2 m) l acc = acc ++ l) as H by apply (H []).
  induction l as [|[k v] l IH]; intros acc Hnd; simpl; [by rewrite app_nil_r|].
  rewrite im_insert_fresh.
  - rewrite IH; rewrite <- app_assoc; done.
  - rewrite map_app in Hnd. simpl in Hnd. apply List.NoDup_remove_2 in Hnd.
    rewrite in_app_iff in Hnd. tauto.
Qed.

Lemma im_collect_is_NoDup {V} (l : list (str * V)) : List.NoDup (map fst (im_collect l)).
Proof.
  unfold im_collect.
  enough (forall acc, List.NoDup (map fst acc) ->
    List.NoDup (map fst (fold_left (fun m kv => im_insert kv.1 kv.2 m) l acc))) as H
    by (apply H; constructor).
  induction l as [|[k v] l IH]; intros acc Hnd; simpl; [done|].
  by apply IH, im_insert_NoDup.
Qed.
