(* ===== verification/Jid.v ===== *)
(** * JIDs: [warp_core/binary/src/jid.rs]

    The address type of the protocol, its parser (a single-pass fast path
    with a validating fallback), its two printers and its classification
    methods.  The theorems characterise when parsing fails, show that the
    printer and the parser are inverse on well-formed JIDs, and that the
    fallback behind the fast path only ever sees server-only input. *)

From S2P Require Import Prelude RustStd.

(** ** Data *)

Definition DEFAULT_USER_SERVER : str := lit "s.whatsapp.net".
Definition SERVER_JID : str := lit "s.whatsapp.net".
Definition GROUP_SERVER : str := lit "g.us".
Definition LEGACY_USER_SERVER : str := lit "c.us".
Definition BROADCAST_SERVER : str := lit "broadcast".
Definition HIDDEN_USER_SERVER : str := lit "lid".
Definition NEWSLETTER_SERVER : str := lit "newsletter".
Definition HOSTED_SERVER : str := lit "hosted".
Definition HOSTED_LID_SERVER : str := lit "hosted.lid".
Definition MESSENGER_SERVER : str := lit "msgr".
Definition INTEROP_SERVER : str := lit "interop".
Definition BOT_SERVER : str := lit "bot".
Definition STATUS_BROADCAST_USER : str := lit "status".

(** [struct Jid] *)
Record Jid := mkJid {
  user : str;
  server : str;
  agent : u8;
  device : u16;
  integrator : u16
}.

(** [struct JidRef]: the borrowed form the binary decoder produces. *)
Record JidRef := mkJidRef {
  ref_user : str;
  ref_server : str;
  ref_agent : u8;
  ref_device : u16;
  ref_integrator : u16
}.

#[export] Instance Jid_eq_dec : EqDecision Jid.
Proof. solve_decision. Defined.
#[export] Instance JidRef_eq_dec : EqDecision JidRef.
Proof. solve_decision. Defined.

(** [enum JidError] *)
Inductive JidError :=
| InvalidFormat (msg : str)
| Parse (e : IntErrorKind).

(** [impl Default for Jid] *)
Definition default_jid : Jid := mkJid [] [] 0 0 0.

(** ** The [JidExt] trait: required accessors and provided methods *)

Class JidExt (T : Type) := {
  x_user : T -> str;
  x_server : T -> str;
  x_device : T -> u16;
  x_integrator : T -> u16
}.
#[export] Instance JidExt_Jid : JidExt Jid :=
  {| x_user := user; x_server := server; x_device := device; x_integrator := integrator |}.
#[export] Instance JidExt_JidRef : JidExt JidRef :=
  {| x_user := ref_user; x_server := ref_server;
     x_device := ref_device; x_integrator := ref_integrator |}.

Section JidExt.
Context {T : Type} `{!JidExt T}.
Implicit Types j : T.

Definition is_ad j : bool :=
  (0 <? x_device j)
  && ((x_server j =s DEFAULT_USER_SERVER)
      || (x_server j =s HIDDEN_USER_SERVER)
      || (x_server j =s HOSTED_SERVER)).

Definition is_interop j : bool :=
  (x_server j =s INTEROP_SERVER) && (0 <? x_integrator j).

Definition is_messenger j : bool :=
  (x_server j =s MESSENGER_SERVER) && (0 <? x_device j).

Definition is_group j : bool := x_server j =s GROUP_SERVER.

Definition is_broadcast_list j : bool :=
  (x_server j =s BROADCAST_SERVER) && negb (x_user j =s STATUS_BROADCAST_USER).

Definition is_status_broadcast j : bool :=
  (x_server j =s BROADCAST_SERVER) && (x_user j =s STATUS_BROADCAST_USER).

Definition is_bot j : bool :=
  ((x_server j =s DEFAULT_USER_SERVER)
   && (x_device j =? 0)
   && (starts_with (lit "1313555") (x_user j) || starts_with (lit "131655500") (x_user j)))
  || (x_server j =s BOT_SERVER).

Definition is_hosted j : bool :=
  (x_device j =? 99) || (x_server j =s HOSTED_SERVER) || (x_server j =s HOSTED_LID_SERVER).

Definition is_empty j : bool := x_server j =s [].
End JidExt.

Definition is_same_user_as {T U} `{!JidExt T, !JidExt U} (j : T) (other : U) : bool :=
  x_user j =s x_user other.

(** ** Constructors and accessors of [impl Jid] *)

Definition jid_new (u s : str) : Jid := mkJid u s 0 0 0.
Definition pn (u : str) : Jid := mkJid u DEFAULT_USER_SERVER 0 0 0.
Definition lid (u : str) : Jid := mkJid u HIDDEN_USER_SERVER 0 0 0.
Definition group (id : str) : Jid := mkJid id GROUP_SERVER 0 0 0.
Definition pn_device (u : str) (d : u16) : Jid := mkJid u DEFAULT_USER_SERVER 0 d 0.
Definition lid_device (u : str) (d : u16) : Jid := mkJid u HIDDEN_USER_SERVER 0 d 0.

Definition is_pn (j : Jid) : bool := server j =s DEFAULT_USER_SERVER.
Definition is_lid (j : Jid) : bool := server j =s HIDDEN_USER_SERVER.

Definition user_base (j : Jid) : str :=
  match split_once COLON (user j) with
  | Some (base, _) => base
  | None => user j
  end.

Definition with_device (j : Jid) (device_id : u16) : Jid :=
  mkJid (user j) (server j) (agent j) device_id (integrator j).

Definition actual_agent (j : Jid) : u8 :=
  if server j =s DEFAULT_USER_SERVER then 0
  else if server j =s HIDDEN_USER_SERVER then agent j
  else agent j.

Definition to_non_ad (j : Jid) : Jid := mkJid (user j) (server j) 0 0 (integrator j).

Definition matches_user_or_lid (j u : Jid) (l : option Jid) : bool :=
  is_same_user_as j u
  || match l with Some l => is_same_user_as j l | None => false end.

Definition to_ad_string (j : Jid) : str :=
  if user j =s [] then server j
  else user j ++ [DOT] ++ show_uint (agent j) ++ [COLON] ++ show_uint (device j)
       ++ [AT] ++ server j.

(** [JidRef::new] and [JidRef::to_owned] *)
Definition jidref_new (u s : str) : JidRef := mkJidRef u s 0 0 0.
Definition jidref_to_owned (j : JidRef) : Jid :=
  mkJid (ref_user j) (ref_server j) (ref_agent j) (ref_device j) (ref_integrator j).

(** ** Printing: [impl Display for Jid] and [impl Display for JidRef] *)

Definition jid_to_string (j : Jid) : str :=
  if user j =s [] then server j
  else
    user j
    ++ (if (0 <? agent j)
           && negb (server j =s DEFAULT_USER_SERVER)
           && negb (server j =s HIDDEN_USER_SERVER)
           && negb (server j =s HOSTED_SERVER)
        then [DOT] ++ show_uint (agent j) else [])
    ++ (if 0 <? device j then [COLON] ++ show_uint (device j) else [])
    ++ [AT] ++ server j.

Definition jidref_to_string (j : JidRef) : str :=
  if ref_user j =s [] then ref_server j
  else
    ref_user j
    ++ (if (0 <? ref_agent j)
           && negb (ref_server j =s DEFAULT_USER_SERVER)
           && negb (ref_server j =s HIDDEN_USER_SERVER)
           && negb (ref_server j =s HOSTED_SERVER)
        then [DOT] ++ show_uint (ref_agent j) else [])
    ++ (if 0 <? ref_device j then [COLON] ++ show_uint (ref_device j) else [])
    ++ [AT] ++ ref_server j.

(** ** Parsing: [parse_jid_fast] *)

(** [struct ParsedJidParts] *)
Record ParsedJidParts := mkParts {
  p_user : str;
  p_server : str;
  p_agent : u8;
  p_device : u16;
  p_integrator : u16
}.

(** The single pass that records the first [@], the last [:] before it and
    the last [.] before both. *)
Fixpoint scan_separators (i : usize) (at_pos colon_pos last_dot_pos : option usize)
    (bs : bytes) : option usize * option usize * option usize :=
  match bs with
  | [] => (at_pos, colon_pos, last_dot_pos)
  | b :: bs' =>
      if b =? AT then
        scan_separators (S i) (match at_pos with None => Some i | Some _ => at_pos end)
          colon_pos last_dot_pos bs'
      else if b =? COLON then
        scan_separators (S i) at_pos
          (match at_pos with None => Some i | Some _ => colon_pos end) last_dot_pos bs'
      else if b =? DOT then
        scan_separators (S i) at_pos colon_pos
          (match at_pos, colon_pos with None, None => Some i | _, _ => last_dot_pos end) bs'
      else scan_separators (S i) at_pos colon_pos last_dot_pos bs'
  end.

(** [x.parse::<u16>().unwrap_or(0)] *)
Definition parse_u16_or_0 (s : str) : u16 :=
  match parse_u16 s with Ok d => d | _ => 0 end.

Definition parse_jid_fast (s : str) : option ParsedJidParts :=
  if s =s [] then None else
  let '(at_pos, colon_pos, last_dot_pos) := scan_separators 0 None None None s in
  match at_pos with
  | None => None
  | Some at_ =>
      let user_part := take at_ s in
      let srv := drop (S at_) s in
      if user_part =s [] then None
      else if srv =s HIDDEN_USER_SERVER then
        let '(u, d) :=
          match colon_pos with
          | Some pos =>
              if (pos <? at_)%nat
              then (take pos s, parse_u16_or_0 (slice (S pos) at_ s))
              else (user_part, 0)
          | None => (user_part, 0)
          end in
        Some (mkParts u srv 0 d 0)
      else if srv =s DEFAULT_USER_SERVER then
        match colon_pos with
        | Some pos =>
            Some (mkParts (take pos s) srv 0 (parse_u16_or_0 (slice (S pos) at_ s)) 0)
        | None =>
            match last_dot_pos with
            | Some dot_pos =>
                match parse_u16 (slice (S dot_pos) at_ s) with
                | Ok device_val => Some (mkParts (take dot_pos s) srv 0 device_val 0)
                | _ => Some (mkParts user_part srv 0 0 0)
                end
            | None => Some (mkParts user_part srv 0 0 0)
            end
        end
      else
        let '(user_before_colon, d) :=
          match colon_pos with
          | Some pos => (take pos s, parse_u16_or_0 (slice (S pos) at_ s))
          | None => (user_part, 0)
          end in
        let '(final_user, a) :=
          match str_rfind DOT user_before_colon with
          | Some dot_pos =>
              match parse_u16 (drop (S dot_pos) user_before_colon) with
              | Ok agent_val =>
                  if agent_val <=? 255
                  then (take dot_pos user_before_colon, wrap 8 agent_val)
                  else (user_before_colon, 0)
              | _ => (user_before_colon, 0)
              end
          | None => (user_before_colon, 0)
          end in
        Some (mkParts final_user srv a d 0)
  end.

(** ** Parsing: [impl FromStr for Jid] *)

Definition known_servers : list str :=
  [DEFAULT_USER_SERVER; GROUP_SERVER; LEGACY_USER_SERVER; BROADCAST_SERVER;
   HIDDEN_USER_SERVER; NEWSLETTER_SERVER; HOSTED_SERVER; MESSENGER_SERVER;
   INTEROP_SERVER; BOT_SERVER; STATUS_BROADCAST_USER].

Definition is_known_server (srv : str) : bool := existsb (bytes_eqb srv) known_servers.

(** [s.rsplit_once('.')] whose tail parses as a [u16]. *)
Definition rsplit_dot_u16 (u : str) : option (str * u16) :=
  match rsplit_once DOT u with
  | Some (u', last_part) =>
      match parse_u16 last_part with Ok n => Some (u', n) | _ => None end
  | None => None
  end.

(** The validating parser behind the fast path. *)
Definition from_str_fallback (s : str) : outcome JidError Jid :=
  let '(user_part, srv) :=
    match split_once AT s with Some (u, sv) => (u, sv) | None => ([], s) end in
  if (user_part =s []) && negb (is_known_server srv) then
    Err (InvalidFormat (lit "Invalid JID format: unknown server '" ++ srv ++ lit "'"))
  else if srv =s HIDDEN_USER_SERVER then
    match rsplit_once COLON user_part with
    | Some (u, d_str) =>
        let? d := map_err Parse (parse_u16 d_str) in
        Ok (mkJid u srv 0 d 0)
    | None => Ok (mkJid user_part srv 0 0 0)
    end
  else
    let? (u0, d0) :=
      match rsplit_once COLON user_part with
      | Some (u, d_str) => let? d := map_err Parse (parse_u16 d_str) in Ok (u, d)
      | None => Ok (user_part, 0)
      end in
    let '(u1, a1) :=
      if negb (srv =s DEFAULT_USER_SERVER) && negb (srv =s HIDDEN_USER_SERVER) then
        match rsplit_dot_u16 u0 with
        | Some (u, num_val) => (u, wrap 8 num_val)
        | None => (u0, 0)
        end
      else (u0, 0) in
    match rsplit_dot_u16 user_part with
    | Some (u, num_val) =>
        if srv =s DEFAULT_USER_SERVER then Ok (mkJid u srv a1 num_val 0)
        else if 255 <? num_val then
          Err (InvalidFormat (lit "Agent component out of range: " ++ show_uint num_val))
        else Ok (mkJid u srv (wrap 8 num_val) d0 0)
    | None => Ok (mkJid u1 srv a1 d0 0)
    end.

Definition from_str (s : str) : outcome JidError Jid :=
  match parse_jid_fast s with
  | Some p => Ok (mkJid (p_user p) (p_server p) (p_agent p) (p_device p) (p_integrator p))
  | None => from_str_fallback s
  end.

(** [impl TryFrom<String> for Jid] *)
Definition jid_try_from (value : str) : outcome JidError Jid := from_str value.

(** ** Reference parser

    What [from_str] computes, read off the string's structure instead of the
    separator positions of a scan. *)

Definition jid_of_parts (u srv : str) : Jid :=
  let '(u', d) :=
    match rsplit_once COLON u with
    | Some (a, b) => (a, parse_u16_or_0 b)
    | None => (u, 0)
    end in
  if srv =s HIDDEN_USER_SERVER then mkJid u' srv 0 d 0
  else if srv =s DEFAULT_USER_SERVER then
    if str_free COLON u then
      match rsplit_dot_u16 u with
      | Some (v, n) => mkJid v srv 0 n 0
      | None => mkJid u srv 0 0 0
      end
    else mkJid u' srv 0 d 0
  else
    match rsplit_dot_u16 u' with
    | Some (v, n) => if n <=? 255 then mkJid v srv n d 0 else mkJid u' srv 0 d 0
    | None => mkJid u' srv 0 d 0
    end.

Definition server_only (srv : str) : outcome JidError Jid :=
  if is_known_server srv then Ok (mkJid [] srv 0 0 0)
  else Err (InvalidFormat (lit "Invalid JID format: unknown server '" ++ srv ++ lit "'")).

Definition from_str_ref (s : str) : outcome JidError Jid :=
  match split_once AT s with
  | Some ([], srv) => server_only srv
  | Some (u, srv) => Ok (jid_of_parts u srv)
  | None => server_only s
  end.

(** ** Lemmas: the scan *)

Lemma scan_server i a c d s : scan_separators i (Some a) c d s = (Some a, c, d).
Proof.
  revert i. induction s as [|b s IH]; intros i; simpl; [done|].
  repeat case_match; apply IH.
Qed.

Definition scan_colon (i : nat) (c : option nat) (u : str) : option nat :=
  match str_rfind COLON u with Some k => Some (i + k)%nat | None => c end.

Lemma scan_user i c d u r :
  str_free AT u = true ->
  exists d',
    scan_separators i None c d (u ++ r)
    = scan_separators (i + length u) None (scan_colon i c u) d' r
    /\ (c = None -> str_free COLON u = true ->
        d' = match str_rfind DOT u with Some k => Some (i + k)%nat | None => d end).
Proof.
  revert i c d. induction u as [|b u IH]; intros i c d; simpl.
  { intros _. exists d. split; [|done]. by rewrite Nat.add_0_r. }
  intros [Hb Hu]%andb_true_iff. apply negb_true_iff in Hb.
  unfold AT, COLON, DOT in *. rewrite (Z.eqb_sym b 64), Hb.
  unfold scan_colon. simpl. unfold COLON.
  destruct (Z.eqb_spec b 58) as [->|Hc].
  - destruct (IH (S i) (Some i) d Hu) as (d' & -> & _). exists d'.
    split; [|done]. rewrite Nat.add_succ_comm. f_equal.
    unfold scan_colon, COLON. destruct (str_rfind 58 u); simpl; f_equal; lia.
  - destruct (Z.eqb_spec b 46) as [->|Hd].
    + destruct (IH (S i) c (match c with None => Some i | _ => d end) Hu) as (d' & -> & Hd').
      exists d'. split.
      * rewrite Nat.add_succ_comm. f_equal. unfold scan_colon, COLON.
        destruct (str_rfind 58 u); simpl; f_equal; lia.
      * intros -> Hfree. rewrite (Hd' eq_refl Hfree). unfold DOT.
        destruct (str_rfind 46 u); simpl; f_equal; lia.
    + destruct (IH (S i) c d Hu) as (d' & -> & Hd'). exists d'. split.
      * rewrite Nat.add_succ_comm. f_equal. unfold scan_colon, COLON.
        destruct (str_rfind 58 u); simpl; [f_equal; lia|].
        by destruct (Z.eqb_spec 58 b).
      * intros -> Hfree. apply andb_true_iff in Hfree as [_ Hfree].
        rewrite (Hd' eq_refl Hfree). unfold DOT.
        destruct (str_rfind 46 u); simpl; [f_equal; lia|].
        by destruct (Z.eqb_spec 46 b).
Qed.

(** The positions the scan reports for [u@srv]. *)
Lemma scan_at u srv :
  str_free AT u = true ->
  exists d',
    scan_separators 0 None None None (u ++ AT :: srv)
    = (Some (length u), str_rfind COLON u, d')
    /\ (str_free COLON u = true -> d' = str_rfind DOT u).
Proof.
  intros Hu. destruct (scan_user 0 None None u (AT :: srv) Hu) as (d' & -> & Hd').
  exists d'. split.
  - cbn [scan_separators]. rewrite Z.eqb_refl, scan_server. unfold scan_colon.
    by destruct (str_rfind COLON u).
  - intros Hc. rewrite Hd' by done. by destruct (str_rfind DOT u).
Qed.

Lemma scan_no_at s :
  str_free AT s = true -> (scan_separators 0 None None None s).1.1 = None.
Proof.
  intros Hs. destruct (scan_user 0 None None s [] Hs) as (d' & H & _).
  rewrite app_nil_r in H. by rewrite H.
Qed.

(** ** Lemmas: the fast path *)

Lemma take_user {A} (u : list A) x r i : (i <= length u)%nat -> take i (u ++ x :: r) = take i u.
Proof. intros. by rewrite take_app_le. Qed.

Lemma slice_user {A} (u : list A) x r i :
  (i < length u)%nat -> slice (S i) (length u) (u ++ x :: r) = drop (S i) u.
Proof.
  intros Hi. unfold slice. rewrite drop_app_le by lia.
  rewrite take_app_le by (rewrite length_drop; lia).
  apply take_ge. rewrite length_drop. lia.
Qed.

Lemma drop_user {A} (u : list A) x r : drop (S (length u)) (u ++ x :: r) = r.
Proof.
  change (x :: r) with ([x] ++ r). rewrite app_assoc.
  replace (S (length u)) with (length (u ++ [x])) by (rewrite length_app; simpl; lia).
  apply drop_app_length.
Qed.

Lemma str_rfind_lt c s i : str_rfind c s = Some i -> (i < length s)%nat.
Proof.
  intros [Hs _]%str_rfind_split. apply (f_equal length) in Hs.
  rewrite length_app, length_take, length_cons in Hs. lia.
Qed.

Lemma str_rfind_free c s : str_rfind c s = None <-> str_free c s = true.
Proof.
  split; [|apply str_rfind_None]. intros H.
  destruct (str_free c s) eqn:E; [done|]. exfalso.
  destruct (str_find c s) as [i|] eqn:Ei; [|apply str_free_find in Ei; congruence].
  apply str_find_split in Ei as [Hs _]. revert H. rewrite Hs. clear.
  generalize (take i s) (drop (S i) s). intros a b.
  induction a as [|y a IH]; simpl.
  - destruct (str_rfind c b); [done|]. by rewrite Z.eqb_refl.
  - by destruct (str_rfind c (a ++ c :: b)).
Qed.

Lemma rsplit_once_rfind c s :
  rsplit_once c s = match str_rfind c s with Some i => Some (take i s, drop (S i) s) | None => None end.
Proof. unfold rsplit_once. by destruct (str_rfind c s). Qed.

Definition parts_jid (p : ParsedJidParts) : Jid :=
  mkJid (p_user p) (p_server p) (p_agent p) (p_device p) (p_integrator p).

Lemma parse_jid_fast_at u srv :
  u <> [] -> str_free AT u = true ->
  exists p, parse_jid_fast (u ++ AT :: srv) = Some p /\ parts_jid p = jid_of_parts u srv.
Proof.
  intros Hne Hu. unfold parse_jid_fast.
  replace (u ++ AT :: srv =s []) with false
    by (symmetry; apply bytes_eqb_neq; by destruct u).
  destruct (scan_at u srv Hu) as (d' & -> & Hdot).
  rewrite take_user, firstn_all, drop_user by lia.
  replace (u =s []) with false by (symmetry; by apply bytes_eqb_neq).
  unfold jid_of_parts, parts_jid. rewrite rsplit_once_rfind.
  destruct (str_rfind COLON u) as [pos|] eqn:Hcolon.
  - pose proof (str_rfind_lt _ _ _ Hcolon) as Hlt.
    rewrite (proj2 (Nat.ltb_lt pos (length u))) by done.
    rewrite take_user, slice_user by lia.
    replace (str_free COLON u) with false
      by (symmetry; destruct (str_free COLON u) eqn:E; [|done];
          apply str_rfind_free in E; congruence).
    case_streq; [by eexists|]. case_streq; [by eexists|].
    unfold rsplit_dot_u16. rewrite rsplit_once_rfind.
    destruct (str_rfind DOT (take pos u)) as [k|]; [|by eexists].
    destruct (parse_u16 (drop (S k) (take pos u))) as [n|e| |] eqn:En; try by eexists.
    destruct (Z.leb_spec n 255); [|by eexists].
    pose proof (parse_u16_range _ _ En). rewrite wrap_small by lia. by eexists.
  - assert (str_free COLON u = true) as Hfree by by apply str_rfind_free.
    rewrite (Hdot Hfree), Hfree. case_streq; [by eexists|].
    unfold rsplit_dot_u16. rewrite rsplit_once_rfind.
    destruct (str_rfind DOT u) as [k|] eqn:Hk; [|case_streq; by eexists].
    pose proof (str_rfind_lt _ _ _ Hk). rewrite take_user, slice_user by lia.
    destruct (parse_u16 (drop (S k) u)) as [n|e| |] eqn:En; [|case_streq; by eexists..].
    case_streq; [by eexists|].
    destruct (Z.leb_spec n 255); [|by eexists].
    pose proof (parse_u16_range _ _ En). rewrite wrap_small by lia. by eexists.
Qed.

(** The fast path gives up only on input without a user part. *)
Lemma parse_jid_fast_None s :
  split_once AT s = None \/ (exists srv, split_once AT s = Some ([], srv)) ->
  parse_jid_fast s = None.
Proof.
  intros H. unfold parse_jid_fast. case_streq; [done|].
  destruct H as [H|(srv & H)].
  - assert (str_free AT s = true) as Hs.
    { apply str_free_find. unfold split_once in H. by destruct (str_find AT s). }
    apply scan_no_at in Hs. destruct (scan_separators 0 None None None s) as [[a c] d].
    simpl in Hs. by subst.
  - apply split_once_Some in H as [-> _]. cbn [app scan_separators].
    by rewrite Z.eqb_refl, scan_server.
Qed.

Lemma from_str_fallback_server_only s srv :
  split_once AT s = Some ([], srv) \/ (split_once AT s = None /\ srv = s) ->
  from_str_fallback s = server_only srv.
Proof.
  intros H. unfold from_str_fallback, server_only.
  assert ((match split_once AT s with Some (u, sv) => (u, sv) | None => ([], s) end)
          = ([], srv)) as -> by by destruct H as [->|[-> ->]].
  rewrite bytes_eqb_refl. destruct (is_known_server srv); [|done]. simpl.
  by repeat case_streq.
Qed.

Lemma from_str_eq_ref s : from_str s = from_str_ref s.
Proof.
  unfold from_str, from_str_ref. destruct (split_once AT s) as [[u srv]|] eqn:Hs.
  - destruct u as [|x u].
    + rewrite parse_jid_fast_None by eauto. apply from_str_fallback_server_only. by left.
    + apply split_once_Some in Hs as [-> Hfree].
      destruct (parse_jid_fast_at (x :: u) srv) as (p & -> & Hp); [done..|].
      unfold parts_jid in Hp. by rewrite Hp.
  - rewrite parse_jid_fast_None by auto. apply from_str_fallback_server_only. by right.
Qed.

(** ** Theorems *)

(** C37: the single-pass parser with its validating fallback computes the
    reference parse on every input string: the part before the first [@] is
    the user, the last [:] of it starts the device, a numeric suffix after the
    last dot is the legacy device or the agent depending on the server, and
    input without a user part is accepted exactly when it names a known
    server. *)
Theorem from_str_reference (s : str) : from_str s = from_str_ref s.
Proof. apply from_str_eq_ref. Qed.

(** Parsing fails exactly on input that has no user part and does not
    name a known server, and then with the unknown-server message: a bad
    device or an agent out of range never makes [from_str] fail, so the
    [JidError::Parse] and agent-range errors of the fallback are never
    reported. *)
Theorem from_str_error (s : str) (e : JidError) :
  from_str s = Err e <->
  exists srv,
    ((s = srv /\ str_free AT s = true) \/ s = AT :: srv)
    /\ is_known_server srv = false
    /\ e = InvalidFormat (lit "Invalid JID format: unknown server '" ++ srv ++ lit "'").
Proof.
  rewrite from_str_eq_ref. unfold from_str_ref, server_only. split.
  - destruct (split_once AT s) as [[[|x u] srv]|] eqn:Hs.
    + destruct (is_known_server srv) eqn:Hk; [done|]. intros [= <-].
      apply split_once_Some in Hs as [-> _]. exists srv. auto.
    + done.
    + destruct (is_known_server s) eqn:Hk; [done|]. intros [= <-].
      exists s. repeat split; auto. left. split; [done|].
      apply str_free_find. unfold split_once in Hs. by destruct (str_find AT s).
  - intros (srv & [[-> Hf]| ->] & Hk & ->).
    + by rewrite split_once_None, Hk.
    + change (AT :: srv) with ([] ++ AT :: srv). by rewrite split_once_app, Hk.
Qed.

(** ** Well-formed JIDs

    The JIDs whose text determines them: the user has no separator of its
    own, and a dotted numeric suffix of the user that would be read back as a
    legacy device or as an agent is excluded where it would be. *)
Definition no_agent_suffix (u : str) : bool :=
  match rsplit_dot_u16 u with Some (_, n) => 255 <? n | None => true end.

(** The part that depends on the server. *)
Definition suffix_wf (j : Jid) : bool :=
  if server j =s HIDDEN_USER_SERVER then agent j =? 0
  else if server j =s DEFAULT_USER_SERVER then
    (agent j =? 0)
    && ((0 <? device j)
        || match rsplit_dot_u16 (user j) with None => true | Some _ => false end)
  else if server j =s HOSTED_SERVER then (agent j =? 0) && no_agent_suffix (user j)
  else (0 <? agent j) || no_agent_suffix (user j).

Definition jid_wf (j : Jid) : bool :=
  in_range 0 255 (agent j) && in_range 0 65535 (device j) && (integrator j =? 0)
  && (if user j =s [] then is_known_server (server j) && (agent j =? 0) && (device j =? 0)
      else str_free AT (user j) && str_free COLON (user j) && suffix_wf j).

(** ** Lemmas: printing and parsing back *)

Lemma rsplit_once_app c a b : str_free c b = true -> rsplit_once c (a ++ c :: b) = Some (a, b).
Proof.
  intros Hb. rewrite rsplit_once_rfind, (str_rfind_app _ _ _ Hb).
  by rewrite take_app_length, drop_user.
Qed.

Lemma rsplit_once_free c s : str_free c s = true -> rsplit_once c s = None.
Proof. intros H. by rewrite rsplit_once_rfind, (str_rfind_None _ _ H). Qed.

Lemma rsplit_dot_u16_show u n :
  0 <= n <= 65535 -> rsplit_dot_u16 (u ++ DOT :: show_uint n) = Some (u, n).
Proof.
  intros Hn. unfold rsplit_dot_u16.
  rewrite rsplit_once_app by (apply show_uint_free; [lia|done]).
  unfold parse_u16. by rewrite parse_show_uint.
Qed.

Lemma parse_u16_or_0_show n : 0 <= n <= 65535 -> parse_u16_or_0 (show_uint n) = n.
Proof. intros Hn. unfold parse_u16_or_0, parse_u16. by rewrite parse_show_uint. Qed.

Lemma known_server_free srv : is_known_server srv = true -> str_free AT srv = true.
Proof.
  intros (x & Hin & ->%bytes_eqb_eq)%existsb_exists.
  assert (forallb (str_free AT) known_servers = true) as H by reflexivity.
  rewrite forallb_forall in H. by apply H.
Qed.

(** The agent suffix and the device suffix the printer appends. *)
Definition agent_suffix (j : Jid) : str :=
  if (0 <? agent j) && negb (server j =s DEFAULT_USER_SERVER)
     && negb (server j =s HIDDEN_USER_SERVER) && negb (server j =s HOSTED_SERVER)
  then DOT :: show_uint (agent j) else [].
Definition device_suffix (j : Jid) : str :=
  if 0 <? device j then COLON :: show_uint (device j) else [].

Lemma jid_to_string_user j :
  user j <> [] ->
  jid_to_string j = (user j ++ agent_suffix j ++ device_suffix j) ++ AT :: server j.
Proof.
  intros Hu. unfold jid_to_string, agent_suffix, device_suffix.
  case_streq; [done|]. by rewrite <- !app_assoc.
Qed.

Lemma agent_suffix_free c j :
  0 <= agent j -> c <> DOT -> is_ascii_digit c = false -> str_free c (agent_suffix j) = true.
Proof.
  intros Ha Hc Hd. unfold agent_suffix. case_match; [|done].
  cbn [str_free forallb]. apply andb_true_iff. split; [by apply negb_true_iff, Z.eqb_neq|].
  by apply show_uint_free.
Qed.

Lemma device_suffix_free c j :
  0 <= device j -> c <> COLON -> is_ascii_digit c = false -> str_free c (device_suffix j) = true.
Proof.
  intros Ha Hc Hd. unfold device_suffix. case_match; [|done].
  cbn [str_free forallb]. apply andb_true_iff. split; [by apply negb_true_iff, Z.eqb_neq|].
  by apply show_uint_free.
Qed.

(** Reading the device back from the printed user part. *)
Lemma rsplit_device u j :
  0 <= device j <= 65535 -> str_free COLON u = true ->
  (match rsplit_once COLON (u ++ device_suffix j) with
   | Some (a, b) => (a, parse_u16_or_0 b)
   | None => (u ++ device_suffix j, 0)
   end) = (u, device j).
Proof.
  intros Hd Hu. unfold device_suffix. destruct (Z.ltb_spec 0 (device j)).
  - rewrite rsplit_once_app by (apply show_uint_free; [lia|done]).
    by rewrite parse_u16_or_0_show.
  - rewrite app_nil_r, rsplit_once_free by done. f_equal. lia.
Qed.

Lemma no_agent_suffix_parts u srv d :
  no_agent_suffix u = true ->
  match rsplit_dot_u16 u with
  | Some (v, n) => if n <=? 255 then mkJid v srv n d 0 else mkJid u srv 0 d 0
  | None => mkJid u srv 0 d 0
  end = mkJid u srv 0 d 0.
Proof.
  unfold no_agent_suffix. destruct (rsplit_dot_u16 u) as [[v n]|]; [|done].
  intros Hn. destruct (Z.leb_spec n 255); [lia|done].
Qed.

Lemma device_suffix_no_colon j :
  str_free COLON (device_suffix j) = true -> device j <= 0.
Proof.
  unfold device_suffix. destruct (Z.ltb_spec 0 (device j)); [|lia].
  cbn [str_free forallb]. by rewrite Z.eqb_refl.
Qed.

Lemma jid_wf_user j :
  jid_wf j = true -> user j <> [] ->
  0 <= agent j <= 255 /\ 0 <= device j <= 65535 /\ integrator j = 0
  /\ str_free AT (user j) = true /\ str_free COLON (user j) = true /\ suffix_wf j = true.
Proof.
  unfold jid_wf. intros Hwf Hu.
  destruct (bytes_eqb_spec (user j) []); [done|].
  repeat match goal with H : (_ && _) = true |- _ => apply andb_true_iff in H as [? ?] end.
  rewrite !in_range_spec in *. repeat split; (lia || done).
Qed.

Lemma jid_of_parts_wf j :
  jid_wf j = true -> user j <> [] ->
  jid_of_parts (user j ++ agent_suffix j ++ device_suffix j) (server j) = j.
Proof.
  intros Hwf Hu. apply jid_wf_user in Hwf as (Ha & Hd & Hi & Hat & Hc & Hs); [|done].
  unfold jid_of_parts. rewrite (app_assoc (user j)).
  rewrite (rsplit_device (user j ++ agent_suffix j) j); [|done|].
  2:{ rewrite str_free_app. apply andb_true_iff. split; [done|].
      by apply agent_suffix_free; [lia|..]. }
  destruct j as [u srv a d ig]. unfold suffix_wf, agent_suffix in *. simpl in *. subst ig.
  destruct (bytes_eqb_spec srv HIDDEN_USER_SERVER) as [->|Hh].
  { rewrite andb_false_r. simpl. rewrite app_nil_r. f_equal. lia. }
  destruct (bytes_eqb_spec srv DEFAULT_USER_SERVER) as [->|Hdef].
  { rewrite andb_false_r. simpl. rewrite app_nil_r. apply andb_true_iff in Hs as [Ha0 Hs].
    destruct (str_free COLON (u ++ _)) eqn:Hcol; [|f_equal; lia].
    rewrite str_free_app in Hcol. apply andb_true_iff in Hcol as [_ Hcol].
    apply device_suffix_no_colon in Hcol. simpl in Hcol. assert (d = 0) as -> by lia.
    change (device_suffix _) with (@nil Z). rewrite app_nil_r.
    destruct (rsplit_dot_u16 u) as [[]|]; [done|f_equal; lia]. }
  destruct (bytes_eqb_spec srv HOSTED_SERVER) as [->|Hho]; simpl.
  { apply andb_true_iff in Hs as [Ha0 Hs].
    rewrite andb_false_r, app_nil_r, no_agent_suffix_parts by done. f_equal. lia. }
  rewrite !andb_true_r. destruct (Z.ltb_spec 0 a).
  - rewrite rsplit_dot_u16_show by lia. destruct (Z.leb_spec a 255); [done|lia].
  - rewrite app_nil_r, no_agent_suffix_parts by done. f_equal. lia.
Qed.

Lemma jid_print_parse (j : Jid) : jid_wf j = true -> from_str (jid_to_string j) = Ok j.
Proof.
  intros Hwf. rewrite from_str_eq_ref. unfold from_str_ref.
  destruct (bytes_eqb_spec (user j) []) as [Hu|Hu].
  - unfold jid_to_string. rewrite Hu, bytes_eqb_refl.
    unfold jid_wf in Hwf. rewrite Hu, bytes_eqb_refl in Hwf.
    repeat match goal with H : (_ && _) = true |- _ => apply andb_true_iff in H as [? ?] end.
    rewrite split_once_None by by apply known_server_free. unfold server_only.
    destruct j as [u srv a d ig]; simpl in *. subst.
    match goal with H : is_known_server _ = true |- _ => rewrite H end.
    f_equal. f_equal; lia.
  - rewrite jid_to_string_user by done. rewrite split_once_app.
    + rewrite jid_of_parts_wf by done. by destruct (user j).
    + apply jid_wf_user in Hwf as (? & ? & ? & ? & ? & ?); [|done].
      rewrite !str_free_app, !andb_true_iff.
      repeat split; [done|apply agent_suffix_free|apply device_suffix_free]; (lia || done).
Qed.

(** Printing a well-formed JID and parsing the text gives the JID back. *)
Theorem jid_roundtrip (j : Jid) : jid_wf j = true -> from_str (jid_to_string j) = Ok j.
Proof. apply jid_print_parse. Qed.

Lemma jid_roundtrip_witness :
  from_str (jid_to_string (mkJid (lit "user") (lit "custom.net") 5 10 0))
  = Ok (mkJid (lit "user") (lit "custom.net") 5 10 0).
Proof. apply jid_roundtrip. reflexivity. Defined.

(** The borrowed and the owned form print alike. *)
Lemma jidref_to_string_owned r : jidref_to_string r = jid_to_string (jidref_to_owned r).
Proof. done. Qed.
