(* ===== verification/Token.v ===== *)
(** * Token dictionaries: [warp_core/binary/src/token.rs], [tokens.json], [build.rs]

    The tag bytes of the binary format, the token tables the build script
    reads from [tokens.json], the reverse maps it generates, and the four
    lookup functions.  The theorem shows the forward and reverse lookups are
    inverse of each other, which the codec's round trip rests on. *)

From S2P Require Import Prelude RustStd.

(** ** Tag bytes *)

Definition DICT_VERSION : u8 := 3.
Definition LIST_EMPTY : u8 := 0.
Definition DICTIONARY_0 : u8 := 236.
Definition DICTIONARY_1 : u8 := 237.
Definition DICTIONARY_2 : u8 := 238.
Definition DICTIONARY_3 : u8 := 239.
Definition JID_PAIR : u8 := 250.
Definition HEX_8 : u8 := 251.
Definition BINARY_8 : u8 := 252.
Definition BINARY_20 : u8 := 253.
Definition BINARY_32 : u8 := 254.
Definition NIBBLE_8 : u8 := 255.
Definition INTEROP_JID : u8 := 245.
Definition FB_JID : u8 := 246.
Definition AD_JID : u8 := 247.
Definition LIST_8 : u8 := 248.
Definition LIST_16 : u8 := 249.
Definition PACKED_MAX : u8 := 127.
Definition SINGLE_BYTE_MAX : u16 := 256.

(** ** The tables of [tokens.json] *)

Definition SINGLE_BYTE_TOKENS : list str := [] :: map lit [
  "xmlstreamstart"; "xmlstreamend"; "s.whatsapp.net"; "type"; "participant"; "from"; "receipt";
  "id"; "notification"; "disappearing_mode"; "status"; "jid"; "broadcast"; "user"; "devices";
  "device_hash"; "to"; "offline"; "message"; "result"; "class"; "xmlns"; "duration"; "notify";
  "iq"; "t"; "ack"; "g.us"; "enc"; "urn:xmpp:whatsapp:push"; "presence"; "config_value"; "picture";
  "verified_name"; "config_code"; "key-index-list"; "contact"; "mediatype"; "routing_info";
  "edge_routing"; "get"; "read"; "urn:xmpp:ping"; "fallback_hostname"; "0"; "chatstate";
  "business_hours_config"; "unavailable"; "download_buckets"; "skmsg"; "verified_level";
  "composing"; "handshake"; "device-list"; "media"; "text"; "fallback_ip4"; "media_conn"; "device";
  "creation"; "location"; "config"; "item"; "fallback_ip6"; "count"; "w:profile:picture"; "image";
  "business"; "2"; "hostname"; "call-creator"; "display_name"; "relaylatency"; "platform";
  "abprops"; "success"; "msg"; "offline_preview"; "prop"; "key-index"; "v"; "day_of_week"; "pkmsg";
  "version"; "1"; "ping"; "w:p"; "download"; "video"; "set"; "specific_hours"; "props"; "primary";
  "unknown"; "hash"; "commerce_experience"; "last"; "subscribe"; "max_buckets"; "call"; "profile";
  "member_since_text"; "close_time"; "call-id"; "sticker"; "mode"; "participants"; "value";
  "query"; "profile_options"; "open_time"; "code"; "list"; "host"; "ts"; "contacts"; "upload";
  "lid"; "preview"; "update"; "usync"; "w:stats"; "delivery"; "auth_ttl"; "context"; "fail";
  "cart_enabled"; "appdata"; "category"; "atn"; "direct_connection"; "decrypt-fail"; "relay_id";
  "mmg-fallback.whatsapp.net"; "target"; "available"; "name"; "last_id"; "mmg.whatsapp.net";
  "categories"; "401"; "is_new"; "index"; "tctoken"; "ip4"; "token_id"; "latency"; "recipient";
  "edit"; "ip6"; "add"; "thumbnail-document"; "26"; "paused"; "true"; "identity"; "stream:error";
  "key"; "sidelist"; "background"; "audio"; "3"; "thumbnail-image"; "biz-cover-photo"; "cat";
  "gcm"; "thumbnail-video"; "error"; "auth"; "deny"; "serial"; "in"; "registration";
  "thumbnail-link"; "remove"; "00"; "gif"; "thumbnail-gif"; "tag"; "capability"; "multicast";
  "item-not-found"; "description"; "business_hours"; "config_expo_key"; "md-app-state";
  "expiration"; "fallback"; "ttl"; "300"; "md-msg-hist"; "device_orientation"; "out"; "w:m";
  "open_24h"; "side_list"; "token"; "inactive"; "01"; "document"; "te2"; "played"; "encrypt";
  "msgr"; "hide"; "direct_path"; "12"; "state"; "not-authorized"; "url"; "terminate"; "signature";
  "status-revoke-delay"; "02"; "te"; "linked_accounts"; "trusted_contact"; "timezone"; "ptt";
  "kyc-id"; "privacy_token"; "readreceipts"; "appointment_only"; "address"; "expected_ts";
  "privacy"; "7"; "android"; "interactive"; "device-identity"; "enabled"; "attribute_padding";
  "1080"; "03"; "screen_height"
]%string.

Definition DOUBLE_BYTE_DICT_0 : list str := map lit [
  "read-self"; "active"; "fbns"; "protocol"; "reaction"; "screen_width"; "heartbeat"; "deviceid";
  "2:47DEQpj8"; "uploadfieldstat"; "voip_settings"; "retry"; "priority"; "longitude"; "conflict";
  "false"; "ig_professional"; "replaced"; "preaccept"; "cover_photo"; "uncompressed"; "encopt";
  "ppic"; "04"; "passive"; "status-revoke-drop"; "keygen"; "540"; "offer"; "rate"; "opus";
  "latitude"; "w:gp2"; "ver"; "4"; "business_profile"; "medium"; "sender"; "prev_v_id"; "email";
  "website"; "invited"; "sign_credential"; "05"; "transport"; "skey"; "reason";
  "peer_abtest_bucket"; "America/Sao_Paulo"; "appid"; "refresh"; "100"; "06"; "404"; "101"; "104";
  "107"; "102"; "109"; "103"; "member_add_mode"; "105"; "transaction-id"; "110"; "106"; "outgoing";
  "108"; "111"; "tokens"; "followers"; "ig_handle"; "self_pid"; "tue"; "dec"; "thu"; "joinable";
  "peer_pid"; "mon"; "features"; "wed"; "peer_device_presence"; "pn"; "delete"; "07"; "fri";
  "audio_duration"; "admin"; "connected"; "delta"; "rcat"; "disable"; "collection"; "08"; "480";
  "sat"; "phash"; "all"; "invite"; "accept"; "critical_unblock_low"; "group_update";
  "signed_credential"; "blinded_credential"; "eph_setting"; "net"; "09"; "background_location";
  "refresh_id"; "Asia/Kolkata"; "privacy_mode_ts"; "account_sync"; "voip_payload_type";
  "service_areas"; "acs_public_key"; "v_id"; "0a"; "fallback_class"; "relay"; "actual_actors";
  "metadata"; "w:biz"; "5"; "connected-limit"; "notice"; "0b"; "host_storage"; "fb_page";
  "subject"; "privatestats"; "invis"; "groupadd"; "010"; "note.m4r"; "uuid"; "0c"; "8000"; "sun";
  "372"; "1020"; "stage"; "1200"; "720"; "canonical"; "fb"; "011"; "video_duration"; "0d"; "1140";
  "superadmin"; "012"; "Opening.m4r"; "keystore_attestation"; "dleq_proof"; "013"; "timestamp";
  "ab_key"; "w:sync:app:state"; "0e"; "vertical"; "600"; "p_v_id"; "6"; "likes"; "014"; "500";
  "1260"; "creator"; "0f"; "rte"; "destination"; "group"; "group_info";
  "syncd_anti_tampering_fatal_exception_enabled"; "015"; "dl_bw"; "Asia/Jakarta"; "vp8/h.264";
  "online"; "1320"; "fb:multiway"; "10"; "timeout"; "016"; "nse_retry"; "urn:xmpp:whatsapp:dirty";
  "017"; "a_v_id"; "web_shops_chat_header_button_enabled"; "nse_call"; "inactive-upgrade"; "none";
  "web"; "groups"; "2250"; "mms_hot_content_timespan_in_seconds"; "contact_blacklist"; "nse_read";
  "suspended_group_deletion_notification"; "binary_version"; "018";
  "https://www.whatsapp.com/otp/copy/"; "reg_push"; "shops_hide_catalog_attachment_entrypoint";
  "server_sync"; "."; "ephemeral_messages_allowed_values"; "019"; "mms_vcache_aggregation_enabled";
  "iphone"; "America/Argentina/Buenos_Aires"; "01a"; "mms_vcard_autodownload_size_kb"; "nse_ver";
  "shops_header_dropdown_menu_item"; "dhash"; "catalog_status";
  "communities_mvp_new_iqs_serverprop"; "blocklist"; "default"; "11"; "ephemeral_messages_enabled";
  "01b"; "original_dimensions"; "8"; "mms4_media_retry_notification_encryption_enabled";
  "mms4_server_error_receipt_encryption_enabled"; "original_image_url"; "sync"; "multiway"; "420";
  "companion_enc_static"; "shops_profile_drawer_entrypoint"; "01c"; "vcard_as_document_size_kb";
  "status_video_max_duration"; "request_image_url"; "01d"; "regular_high"; "s_t"; "abt";
  "share_ext_min_preliminary_image_quality"; "01e"; "32"; "syncd_key_rotation_enabled";
  "data_namespace"; "md_downgrade_read_receipts2"; "patch"; "polltype";
  "ephemeral_messages_setting"; "userrate"; "15"; "partial_pjpeg_bw_threshold"; "played-self";
  "catalog_exists"; "01f"; "mute_v2"
]%string.

Definition DOUBLE_BYTE_DICT_1 : list str := map lit [
  "reject"; "dirty"; "announcement"; "020"; "13"; "9"; "status_video_max_bitrate"; "fb:thrift_iq";
  "offline_batch"; "022"; "full"; "ctwa_first_business_reply_logging"; "h.264"; "smax_id";
  "group_description_length"; "https://www.whatsapp.com/otp/code"; "status_image_max_edge";
  "smb_upsell_business_profile_enabled"; "021"; "web_upgrade_to_md_modal"; "14"; "023"; "s_o";
  "smaller_video_thumbs_status_enabled"; "media_max_autodownload"; "960"; "blocking_status";
  "peer_msg"; "joinable_group_call_client_version"; "group_call_video_maximization_enabled";
  "return_snapshot"; "high"; "America/Mexico_City"; "entry_point_block_logging_enabled"; "pop";
  "024"; "1050"; "16"; "1380"; "one_tap_calling_in_group_chat_size"; "regular_low";
  "inline_joinable_education_enabled"; "hq_image_max_edge"; "locked"; "America/Bogota";
  "smb_biztools_deeplink_enabled"; "status_image_quality"; "1088"; "025";
  "payments_upi_intent_transaction_limit"; "voip"; "w:g2"; "027"; "md_pin_chat_enabled"; "026";
  "multi_scan_pjpeg_download_enabled"; "shops_product_grid"; "transaction_id";
  "ctwa_context_enabled"; "20"; "fna"; "hq_image_quality"; "alt_jpeg_doc_detection_quality";
  "group_call_max_participants"; "pkey"; "America/Belem"; "image_max_kbytes";
  "web_cart_v1_1_order_message_changes_enabled"; "ctwa_context_enterprise_enabled";
  "urn:xmpp:whatsapp:account"; "840"; "Asia/Kuala_Lumpur"; "max_participants";
  "video_remux_after_repair_enabled"; "stella_addressbook_restriction_type"; "660"; "900"; "780";
  "context_menu_ios13_enabled"; "mute-state"; "ref"; "payments_request_messages"; "029"; "frskmsg";
  "vcard_max_size_kb"; "sample_buffer_gif_player_enabled"; "match_last_seen"; "510"; "4983";
  "video_max_bitrate"; "028"; "w:comms:chat"; "17"; "frequently_forwarded_max";
  "groups_privacy_blacklist"; "Asia/Karachi"; "02a"; "web_download_document_thumb_mms_enabled";
  "02b"; "hist_sync"; "biz_block_reasons_version"; "1024"; "18";
  "web_is_direct_connection_for_plm_transparent"; "view_once_write"; "file_max_size";
  "paid_convo_id"; "online_privacy_setting"; "video_max_edge"; "view_once_read";
  "enhanced_storage_management"; "multi_scan_pjpeg_encoding_enabled";
  "ctwa_context_forward_enabled"; "video_transcode_downgrade_enable"; "template_doc_mime_types";
  "hq_image_bw_threshold"; "30"; "body"; "u_aud_limit_sil_restarts_ctrl"; "other"; "participating";
  "w:biz:directory"; "1110"; "vp8"; "4018"; "meta"; "doc_detection_image_max_edge";
  "image_quality"; "1170"; "02c"; "smb_upsell_chat_banner_enabled"; "key_expiry_time_second";
  "pid"; "stella_interop_enabled"; "19"; "linked_device_max_count"; "md_device_sync_enabled";
  "02d"; "02e"; "360"; "enhanced_block_enabled"; "ephemeral_icon_in_forwarding";
  "paid_convo_status"; "gif_provider"; "project_name"; "server-error";
  "canonical_url_validation_enabled"; "wallpapers_v2"; "syncd_clear_chat_delete_chat_enabled";
  "medianotify"; "02f"; "shops_required_tos_version"; "vote"; "reset_skey_on_id_change"; "030";
  "image_max_edge"; "multicast_limit_global"; "ul_bw"; "21"; "25"; "5000"; "poll"; "570"; "22";
  "031"; "1280"; "WhatsApp"; "032"; "bloks_shops_enabled"; "50"; "upload_host_switching_enabled";
  "web_ctwa_context_compose_enabled"; "ptt_forwarded_features_enabled"; "unblocked";
  "partial_pjpeg_enabled"; "fbid:devices"; "height"; "ephemeral_group_query_ts";
  "group_join_permissions"; "order"; "033"; "alt_jpeg_status_quality"; "migrate"; "popular-bank";
  "win_uwp_deprecation_killswitch_enabled"; "web_download_status_thumb_mms_enabled"; "blocking";
  "url_text"; "035"; "web_forwarding_limit_to_groups"; "1600"; "val"; "1000";
  "syncd_msg_date_enabled"; "bank-ref-id"; "max_subject"; "payments_web_enabled";
  "web_upload_document_thumb_mms_enabled"; "size"; "request"; "ephemeral"; "24"; "receipt_agg";
  "ptt_remember_play_position"; "sampling_weight"; "enc_rekey"; "mute_always"; "037"; "034"; "23";
  "036"; "action"; "click_to_chat_qr_enabled"; "width"; "disabled"; "038"; "md_blocklist_v2";
  "played_self_enabled"; "web_buttons_message_enabled"; "flow_id"; "clear"; "450"; "fbid:thread";
  "bloks_session_state"; "America/Lima"; "attachment_picker_refresh";
  "download_host_switching_enabled"; "1792"; "u_aud_limit_sil_restarts_test2"; "custom_urls";
  "device_fanout"; "optimistic_upload"; "2000"; "key_cipher_suite";
  "web_smb_upsell_in_biz_profile_enabled"; "e"; "039"; "siri_post_status_shortcut"; "pair-device";
  "lg"; "lc"; "stream_attribution_url"; "model"; "mspjpeg_phash_gen"; "catalog_send_all";
  "new_multi_vcards_ui"; "share_biz_vcard_enabled"; "-"; "clean"; "200"; "md_blocklist_v2_server";
  "03b"; "03a"; "web_md_migration_experience"; "ptt_conversation_waveform";
  "u_aud_limit_sil_restarts_test1"
]%string.

Definition DOUBLE_BYTE_DICT_2 : list str := map lit [
  "64"; "ptt_playback_speed_enabled"; "web_product_list_message_enabled"; "paid_convo_ts"; "27";
  "manufacturer"; "psp-routing"; "grp_uii_cleanup"; "ptt_draft_enabled"; "03c";
  "business_initiated"; "web_catalog_products_onoff"; "web_upload_link_thumb_mms_enabled"; "03e";
  "mediaretry"; "35"; "hfm_string_changes"; "28"; "America/Fortaleza"; "max_keys"; "md_mhfs_days";
  "streaming_upload_chunk_size"; "5541"; "040"; "03d"; "2675"; "03f"; "..."; "512"; "mute"; "48";
  "041"; "alt_jpeg_quality"; "60"; "042"; "md_smb_quick_reply"; "5183"; "c"; "1343"; "40"; "1230";
  "043"; "044"; "mms_cat_v1_forward_hot_override_enabled"; "user_notice"; "ptt_waveform_send";
  "047"; "Asia/Calcutta"; "250"; "md_privacy_v2"; "31"; "29"; "128"; "md_messaging_enabled"; "046";
  "crypto"; "690"; "045"; "enc_iv"; "75"; "failure"; "ptt_oot_playback"; "REMOVED"; "w"; "048";
  "2201"; "web_large_files_ui"; "Asia/Makassar"; "812"; "status_collapse_muted"; "1334"; "257";
  "2HP4dm"; "049"; "patches"; "1290"; "43cY6T"; "America/Caracas"; "web_sticker_maker"; "campaign";
  "ptt_pausable_enabled"; "33"; "42"; "attestation"; "biz"; "04b"; "query_linked"; "s"; "125";
  "04a"; "810"; "availability"; "1411"; "responsiveness_v2_m1"; "catalog_not_created"; "34";
  "America/Santiago"; "1465"; "enc_p"; "04d"; "status_info"; "04f"; "key_version"; ".."; "04c";
  "04e"; "md_group_notification"; "1598"; "1215"; "web_cart_enabled"; "37"; "630"; "1920"; "2394";
  "-1"; "vcard"; "38"; "elapsed"; "36"; "828"; "peer"; "pricing_category"; "1245"; "invalid";
  "stella_ios_enabled"; "2687"; "45"; "1528"; "39"; "u_is_redial_audio_1104_ctrl"; "1025"; "1455";
  "58"; "2524"; "2603"; "054"; "bsp_system_message_enabled"; "web_pip_redesign"; "051";
  "verify_apps"; "1974"; "1272"; "1322"; "1755"; "052"; "70"; "050"; "1063"; "1135"; "1361"; "80";
  "1096"; "1828"; "1851"; "1251"; "1921"; "key_config_id"; "1254"; "1566"; "1252"; "2525";
  "critical_block"; "1669"; "max_available"; "w:auth:backup:token"; "product"; "2530"; "870";
  "1022"; "participant_uuid"; "web_cart_on_off"; "1255"; "1432"; "1867"; "41"; "1415"; "1440";
  "240"; "1204"; "1608"; "1690"; "1846"; "1483"; "1687"; "1749"; "69"; "url_number"; "053"; "1325";
  "1040"; "365"; "59"; "Asia/Riyadh"; "1177"; "test_recommended"; "057"; "1612"; "43"; "1061";
  "1518"; "1635"; "055"; "1034"; "1375"; "750"; "1430"; "event_code"; "1682"; "503"; "55"; "865";
  "78"; "1309"; "1365"; "44"; "America/Guayaquil"; "535"; "LIMITED"; "1377"; "1613"; "1420";
  "1599"; "1822"; "05a"; "1681"; "password"; "1111"; "1214"; "1376"; "1478"; "47"; "1082"; "4282";
  "Europe/Istanbul"; "1307"; "46"; "058"; "1124"; "256"; "rate-overlimit"; "retail";
  "u_a_socket_err_fix_succ_test"; "1292"; "1370"; "1388"; "520"; "861"; "psa"; "regular"; "1181";
  "1766"; "05b"; "1183"; "1213"; "1304"; "1537"
]%string.

Definition DOUBLE_BYTE_DICT_3 : list str := map lit [
  "1724"; "profile_picture"; "1071"; "1314"; "1605"; "407"; "990"; "1710"; "746"; "pricing_model";
  "056"; "059"; "061"; "1119"; "6027"; "65"; "877"; "1607"; "05d"; "917"; "seen"; "1516"; "49";
  "470"; "973"; "1037"; "1350"; "1394"; "1480"; "1796"; "keys"; "794"; "1536"; "1594"; "2378";
  "1333"; "1524"; "1825"; "116"; "309"; "52"; "808"; "827"; "909"; "495"; "1660"; "361"; "957";
  "google"; "1357"; "1565"; "1967"; "996"; "1775"; "586"; "736"; "1052"; "1670"; "bank"; "177";
  "1416"; "2194"; "2222"; "1454"; "1839"; "1275"; "53"; "997"; "1629"; "6028"; "smba"; "1378";
  "1410"; "05c"; "1849"; "727"; "create"; "1559"; "536"; "1106"; "1310"; "1944"; "670"; "1297";
  "1316"; "1762"; "en"; "1148"; "1295"; "1551"; "1853"; "1890"; "1208"; "1784"; "7200"; "05f";
  "178"; "1283"; "1332"; "381"; "643"; "1056"; "1238"; "2024"; "2387"; "179"; "981"; "1547";
  "1705"; "05e"; "290"; "903"; "1069"; "1285"; "2436"; "062"; "251"; "560"; "582"; "719"; "56";
  "1700"; "2321"; "325"; "448"; "613"; "777"; "791"; "51"; "488"; "902"; "Asia/Almaty";
  "is_hidden"; "1398"; "1527"; "1893"; "1999"; "2367"; "2642"; "237"; "busy"; "065"; "067"; "233";
  "590"; "993"; "1511"; "54"; "723"; "860"; "363"; "487"; "522"; "605"; "995"; "1321"; "1691";
  "1865"; "2447"; "2462"; "NON_TRANSACTIONAL"; "433"; "871"; "432"; "1004"; "1207"; "2032"; "2050";
  "2379"; "2446"; "279"; "636"; "703"; "904"; "248"; "370"; "691"; "700"; "1068"; "1655"; "2334";
  "060"; "063"; "364"; "533"; "534"; "567"; "1191"; "1210"; "1473"; "1827"; "069"; "701"; "2531";
  "514"; "prev_dhash"; "064"; "496"; "790"; "1046"; "1139"; "1505"; "1521"; "1108"; "207"; "544";
  "637"; "final"; "1173"; "1293"; "1694"; "1939"; "1951"; "1993"; "2353"; "2515"; "504"; "601";
  "857"; "modify"; "spam_request"; "p_121_aa_1101_test4"; "866"; "1427"; "1502"; "1638"; "1744";
  "2153"; "068"; "382"; "725"; "1704"; "1864"; "1990"; "2003"; "Asia/Dubai"; "508"; "531"; "1387";
  "1474"; "1632"; "2307"; "2386"; "819"; "2014"; "066"; "387"; "1468"; "1706"; "2186"; "2261";
  "471"; "728"; "1147"; "1372"; "1961"
]%string.

Definition DOUBLE_BYTE_TOKENS : list (list str) :=
  [DOUBLE_BYTE_DICT_0; DOUBLE_BYTE_DICT_1; DOUBLE_BYTE_DICT_2; DOUBLE_BYTE_DICT_3].

(** ** The maps the build script generates *)

(** The entries of a token list from index [i] on, as [iter().enumerate()]. *)
Fixpoint enumerate_from {A} (i : Z) (l : list A) : list (A * Z) :=
  match l with
  | [] => []
  | x :: l' => (x, i) :: enumerate_from (i + 1) l'
  end.

(** The empty token has no entry in the single-byte map. *)
Definition SINGLE_BYTE_MAP : list (str * u8) :=
  List.filter (fun e => negb (e.1 =s [])) (enumerate_from 0 SINGLE_BYTE_TOKENS).

Definition DOUBLE_BYTE_MAP : list (str * (u8 * u8)) :=
  flat_map (fun d => map (fun e => (e.1, (d.2, e.2))) (enumerate_from 0 d.1))
           (enumerate_from 0 DOUBLE_BYTE_TOKENS).

(** [phf::Map::get] *)
Fixpoint phf_get {V} (k : str) (m : list (str * V)) : option V :=
  match m with
  | [] => None
  | (k', v) :: m' => if k =s k' then Some v else phf_get k m'
  end.

(** ** Lookups *)

Definition index_of_single_token (token : str) : option u8 := phf_get token SINGLE_BYTE_MAP.
Definition index_of_double_byte_token (token : str) : option (u8 * u8) :=
  phf_get token DOUBLE_BYTE_MAP.
Definition get_single_token (index : u8) : option str :=
  SINGLE_BYTE_TOKENS !! Z.to_nat index.
Definition get_double_token (dict index : u8) : option str :=
  match DOUBLE_BYTE_TOKENS !! Z.to_nat dict with
  | Some d => d !! Z.to_nat index
  | None => None
  end.

(** ** Lemmas *)

Lemma enumerate_from_In {A} (l : list A) i x j :
  In (x, j) (enumerate_from i l) <-> exists n, j = i + Z.of_nat n /\ l !! n = Some x.
Proof.
  revert i. induction l as [|y l IH]; intros i; simpl.
  - split; [done|]. intros (n & _ & H). by rewrite lookup_nil in H.
  - rewrite IH. split.
    + intros [[= -> ->]|(n & -> & H)]; [exists O; split; [lia|done]|].
      exists (S n). split; [lia|done].
    + intros ([|n] & -> & H); simpl in H.
      * left. simplify_eq. f_equal. lia.
      * right. exists n. split; [lia|done].
Qed.

Lemma phf_get_In {V} k (v : V) m : phf_get k m = Some v -> In (k, v) m.
Proof.
  induction m as [|[k' v'] m IH]; simpl; [done|].
  destruct (bytes_eqb_spec k k') as [->|]; [intros [= ->]; by left|]. right. auto.
Qed.

Lemma phf_get_NoDup {V} k (v : V) m :
  List.NoDup (map fst m) -> In (k, v) m -> phf_get k m = Some v.
Proof.
  induction m as [|[k' v'] m IH]; simpl; [done|].
  intros Hnd [[= -> ->]|Hin]; [by rewrite bytes_eqb_refl|].
  inversion Hnd as [|? ? Hn Hnd']; subst.
  destruct (bytes_eqb_spec k k') as [->|]; [|by apply IH].
  exfalso. apply Hn. by apply (in_map fst) in Hin.
Qed.

(** No key occurs twice. *)
Fixpoint no_dup_keys (l : list str) : bool :=
  match l with
  | [] => true
  | x :: l' => negb (existsb (bytes_eqb x) l') && no_dup_keys l'
  end.

Lemma no_dup_keys_NoDup l : no_dup_keys l = true -> List.NoDup l.
Proof.
  induction l as [|x l IH]; simpl; [constructor|].
  intros [Hx%negb_true_iff Hl]%andb_true_iff. constructor; [|auto].
  intros Hin. enough (existsb (bytes_eqb x) l = true) by congruence.
  apply existsb_exists. exists x. split; [done|apply bytes_eqb_refl].
Qed.

Lemma single_byte_map_NoDup : List.NoDup (map fst SINGLE_BYTE_MAP).
Proof. apply no_dup_keys_NoDup. vm_compute. reflexivity. Qed.

Lemma double_byte_map_NoDup : List.NoDup (map fst DOUBLE_BYTE_MAP).
Proof. apply no_dup_keys_NoDup. vm_compute. reflexivity. Qed.

Lemma single_byte_map_In t i :
  In (t, i) SINGLE_BYTE_MAP <-> t <> [] /\ 0 <= i /\ get_single_token i = Some t.
Proof.
  unfold SINGLE_BYTE_MAP, get_single_token. rewrite filter_In, enumerate_from_In.
  simpl. rewrite negb_true_iff, bytes_eqb_neq. split.
  - intros [(n & -> & H) Ht]. repeat split; [done|lia|]. by rewrite Z.add_0_l, Nat2Z.id.
  - intros (Ht & Hi & H). split; [|done]. exists (Z.to_nat i). split; [lia|done].
Qed.

Lemma double_byte_map_In t d i :
  In (t, (d, i)) DOUBLE_BYTE_MAP <-> 0 <= d /\ 0 <= i /\ get_double_token d i = Some t.
Proof.
  unfold DOUBLE_BYTE_MAP, get_double_token. rewrite in_flat_map. split.
  - intros ([dict d'] & Hd & Hi). apply enumerate_from_In in Hd as (n & -> & Hn).
    apply in_map_iff in Hi as ([t' i'] & Heq & Hi). simpl in *. simplify_eq.
    apply enumerate_from_In in Hi as (m & -> & Hm).
    rewrite !Z.add_0_l, !Nat2Z.id, Hn. repeat split; [lia|lia|done].
  - intros (Hd & Hi & H). destruct (DOUBLE_BYTE_TOKENS !! Z.to_nat d) as [dict|] eqn:Hn; [|done].
    exists (dict, d). split.
    + apply enumerate_from_In. exists (Z.to_nat d). split; [lia|done].
    + apply in_map_iff. exists (t, i). split; [done|]. simpl.
      apply enumerate_from_In. exists (Z.to_nat i). split; [lia|done].
Qed.

Lemma index_of_single_token_iff t i :
  index_of_single_token t = Some i <-> t <> [] /\ 0 <= i /\ get_single_token i = Some t.
Proof.
  rewrite <- single_byte_map_In. split; [apply phf_get_In|].
  apply phf_get_NoDup, single_byte_map_NoDup.
Qed.

Lemma index_of_double_byte_token_iff t d i :
  index_of_double_byte_token t = Some (d, i) <->
  0 <= d /\ 0 <= i /\ get_double_token d i = Some t.
Proof.
  rewrite <- double_byte_map_In. split; [apply phf_get_In|].
  apply phf_get_NoDup, double_byte_map_NoDup.
Qed.

(** Single-byte tokens leave the tag bytes alone; dictionaries are 0 to 3 and
    their indices are bytes. *)
Lemma get_single_token_bound i t : 0 <= i -> get_single_token i = Some t -> i <= 235.
Proof.
  unfold get_single_token. intros Hi H%lookup_lt_Some.
  change (length SINGLE_BYTE_TOKENS) with 236%nat in H. lia.
Qed.

Lemma index_of_single_token_range t i : index_of_single_token t = Some i -> 1 <= i <= 235.
Proof.
  intros (Ht & Hi & H)%index_of_single_token_iff.
  pose proof (get_single_token_bound _ _ Hi H).
  destruct (Z.eq_dec i 0) as [->|]; [|lia].
  exfalso. apply Ht. unfold get_single_token in H. simpl in H. congruence.
Qed.

Lemma index_of_double_byte_token_range t d i :
  index_of_double_byte_token t = Some (d, i) -> 0 <= d <= 3 /\ 0 <= i <= 255.
Proof.
  intros (Hd & Hi & H)%index_of_double_byte_token_iff. unfold get_double_token in H.
  destruct (DOUBLE_BYTE_TOKENS !! Z.to_nat d) as [dict|] eqn:Hn; [|done].
  pose proof (lookup_lt_Some _ _ _ Hn) as Hd'. simpl in Hd'.
  assert (Forall (fun dict => length dict = 256%nat) DOUBLE_BYTE_TOKENS) as Hlen
    by (repeat constructor).
  rewrite Forall_forall in Hlen.
  specialize (Hlen dict (list_elem_of_lookup_2 _ _ _ Hn)).
  apply lookup_lt_Some in H. rewrite Hlen in H. lia.
Qed.

(** Every token is plain ASCII. *)
Lemma tokens_ascii :
  forallb (forallb (in_range 0 127)) SINGLE_BYTE_TOKENS
  && forallb (forallb (forallb (in_range 0 127))) DOUBLE_BYTE_TOKENS = true.
Proof. vm_compute. reflexivity. Qed.

#[global] Opaque SINGLE_BYTE_TOKENS DOUBLE_BYTE_TOKENS SINGLE_BYTE_MAP DOUBLE_BYTE_MAP.

(** The generated maps and the token tables are inverse: a string has
    single-byte index [i] exactly when it is the non-empty entry [i] of the
    single-byte table, and has dictionary position [(d, i)] exactly when it is
    entry [i] of dictionary [d]; so no two entries share a token. *)
Theorem token_maps_inverse (t : str) (d i : u8) :
  (index_of_single_token t = Some i <-> t <> [] /\ 0 <= i /\ get_single_token i = Some t)
  /\ (index_of_double_byte_token t = Some (d, i) <->
      0 <= d /\ 0 <= i /\ get_double_token d i = Some t).
Proof. split; [apply index_of_single_token_iff|apply index_of_double_byte_token_iff]. Qed.
