(* ===== verification/Node.v ===== *)
(** * Nodes: [warp_core/binary/src/node.rs], [builder.rs], [error.rs]

    The stanza tree in its owned form ([Node]) and in the borrowed form the
    decoder returns ([NodeRef]), the conversions between them, navigation,
    and the builder.  The module ends with the induction principles the codec
    proofs use. *)

From S2P Require Import Prelude RustStd Jid.

(** ** Errors of the binary layer: [enum BinaryError]

    [Io] carries a message; the in-memory writers of the model never raise it. *)
Inductive BinaryError :=
| Io (msg : str)
| InvalidToken (t : u8)
| InvalidNode
| NonStringKey
| AttrParse (msg : str)
| InvalidUtf8 (e : Utf8Error)
| Zlib (msg : str)
| BJid (e : JidError)
| UnexpectedEof
| EmptyData
| LeftoverData (n : usize)
| AttrList (es : list BinaryError).

(** ** Owned nodes *)

(** [type Attrs = IndexMap<String, String>] *)
Abbreviation Attrs := (index_map str) (only parsing).

Inductive Node :=
| mkNode (tag : str) (attrs : index_map str) (content : option NodeContent)
with NodeContent :=
| NC_Bytes (b : bytes)
| NC_String (s : str)
| NC_Nodes (nodes : list Node).

Definition tag (n : Node) : str := let 'mkNode t _ _ := n in t.
Definition attrs (n : Node) : index_map str := let 'mkNode _ a _ := n in a.
Definition content (n : Node) : option NodeContent := let 'mkNode _ _ c := n in c.

(** [impl Default for Node] *)
Definition default_node : Node := mkNode [] [] None.

(** [Node::new] *)
Definition node_new (t : str) (a : index_map str) (c : option NodeContent) : Node := mkNode t a c.

(** ** Borrowed nodes *)

(** [enum ValueRef] *)
Inductive ValueRef :=
| VR_String (s : str)
| VR_Jid (j : JidRef).

(** [type AttrsRef = Vec<(Cow<str>, ValueRef)>] *)
Abbreviation AttrsRef := (list (str * ValueRef)) (only parsing).

Inductive NodeRef :=
| mkNodeRef (rtag : str) (rattrs : list (str * ValueRef)) (rcontent : option NodeContentRef)
with NodeContentRef :=
| NR_Bytes (b : bytes)
| NR_String (s : str)
| NR_Nodes (nodes : list NodeRef).

Definition rtag (n : NodeRef) : str := let 'mkNodeRef t _ _ := n in t.
Definition rattrs (n : NodeRef) : list (str * ValueRef) := let 'mkNodeRef _ a _ := n in a.
Definition rcontent (n : NodeRef) : option NodeContentRef := let 'mkNodeRef _ _ c := n in c.

(** [NodeRef::new] *)
Definition noderef_new (t : str) (a : list (str * ValueRef)) (c : option NodeContentRef) : NodeRef :=
  mkNodeRef t a c.

(** ** [impl ValueRef] *)

Definition vr_as_str (v : ValueRef) : option str :=
  match v with VR_String s => Some s | VR_Jid _ => None end.
Definition vr_as_jid (v : ValueRef) : option JidRef :=
  match v with VR_Jid j => Some j | VR_String _ => None end.
Definition vr_to_jid (v : ValueRef) : option Jid :=
  match v with
  | VR_Jid j => Some (jidref_to_owned j)
  | VR_String s => to_option (from_str s)
  end.
Definition to_string_cow (v : ValueRef) : str :=
  match v with
  | VR_String s => s
  | VR_Jid j => jidref_to_string j
  end.

(** ** Conversions *)

Fixpoint as_node_ref (n : Node) : NodeRef :=
  match n with
  | mkNode t a c =>
      mkNodeRef t (map (fun kv => (kv.1, VR_String kv.2)) a)
        (match c with Some c => Some (as_content_ref c) | None => None end)
  end
with as_content_ref (c : NodeContent) : NodeContentRef :=
  match c with
  | NC_Bytes b => NR_Bytes b
  | NC_String s => NR_String s
  | NC_Nodes nodes => NR_Nodes (map as_node_ref nodes)
  end.

Fixpoint to_owned (n : NodeRef) : Node :=
  match n with
  | mkNodeRef t a c =>
      mkNode t (im_collect (map (fun kv => (kv.1, to_string_cow kv.2)) a))
        (match c with Some c => Some (content_to_owned c) | None => None end)
  end
with content_to_owned (c : NodeContentRef) : NodeContent :=
  match c with
  | NR_Bytes b => NC_Bytes b
  | NR_String s => NC_String s
  | NR_Nodes nodes => NC_Nodes (map to_owned nodes)
  end.

(** ** Navigation *)

Definition children (n : Node) : option (list Node) :=
  match content n with Some (NC_Nodes nodes) => Some nodes | _ => None end.

Fixpoint get_optional_child_by_tag (current : Node) (tags : list str) : option Node :=
  match tags with
  | [] => Some current
  | t :: tags' =>
      match children current with
      | Some cs =>
          match List.find (fun c => tag c =s t) cs with
          | Some found => get_optional_child_by_tag found tags'
          | None => None
          end
      | None => None
      end
  end.

Definition get_children_by_tag (n : Node) (t : str) : list Node :=
  match children n with
  | Some cs => List.filter (fun c => tag c =s t) cs
  | None => []
  end.

Definition get_optional_child (n : Node) (t : str) : option Node :=
  match children n with
  | Some cs => List.find (fun c => tag c =s t) cs
  | None => None
  end.

(** The same on borrowed nodes. *)
Definition ref_children (n : NodeRef) : option (list NodeRef) :=
  match rcontent n with Some (NR_Nodes nodes) => Some nodes | _ => None end.

Definition ref_get_attr (n : NodeRef) (key : str) : option ValueRef :=
  match List.find (fun kv => kv.1 =s key) (rattrs n) with
  | Some kv => Some kv.2
  | None => None
  end.

Fixpoint ref_get_optional_child_by_tag (current : NodeRef) (tags : list str) : option NodeRef :=
  match tags with
  | [] => Some current
  | t :: tags' =>
      match ref_children current with
      | Some cs =>
          match List.find (fun c => rtag c =s t) cs with
          | Some found => ref_get_optional_child_by_tag found tags'
          | None => None
          end
      | None => None
      end
  end.

Definition ref_get_children_by_tag (n : NodeRef) (t : str) : list NodeRef :=
  match ref_children n with
  | Some cs => List.filter (fun c => rtag c =s t) cs
  | None => []
  end.

Definition ref_get_optional_child (n : NodeRef) (t : str) : option NodeRef :=
  match ref_children n with
  | Some cs => List.find (fun c => rtag c =s t) cs
  | None => None
  end.

(** ** [NodeBuilder] *)

Record NodeBuilder := mkBuilder {
  b_tag : str;
  b_attrs : index_map str;
  b_content : option NodeContent
}.

Definition builder_new (t : str) : NodeBuilder := mkBuilder t [] None.
Definition b_attr (b : NodeBuilder) (key value : str) : NodeBuilder :=
  mkBuilder (b_tag b) (im_insert key value (b_attrs b)) (b_content b).
Definition b_attrs_all (b : NodeBuilder) (kvs : list (str * str)) : NodeBuilder :=
  mkBuilder (b_tag b)
    (fold_left (fun m kv => im_insert kv.1 kv.2 m) kvs (b_attrs b)) (b_content b).
Definition b_children (b : NodeBuilder) (cs : list Node) : NodeBuilder :=
  mkBuilder (b_tag b) (b_attrs b) (Some (NC_Nodes cs)).
Definition b_bytes (b : NodeBuilder) (bs : bytes) : NodeBuilder :=
  mkBuilder (b_tag b) (b_attrs b) (Some (NC_Bytes bs)).
Definition b_string_content (b : NodeBuilder) (s : str) : NodeBuilder :=
  mkBuilder (b_tag b) (b_attrs b) (Some (NC_String s)).
Definition b_apply_content (b : NodeBuilder) (c : option NodeContent) : NodeBuilder :=
  mkBuilder (b_tag b) (b_attrs b) c.
Definition build (b : NodeBuilder) : Node := mkNode (b_tag b) (b_attrs b) (b_content b).

(** ** Induction over trees *)

Section NodeInd.
Variable P : Node -> Prop.
Variable Q : NodeContent -> Prop.
Hypothesis HNode : forall t a c, (forall c', c = Some c' -> Q c') -> P (mkNode t a c).
Hypothesis HBytes : forall b, Q (NC_Bytes b).
Hypothesis HString : forall s, Q (NC_String s).
Hypothesis HNodes : forall ns, Forall P ns -> Q (NC_Nodes ns).

Fixpoint node_ind' (n : Node) : P n :=
  match n with
  | mkNode t a c =>
      HNode t a c
        (match c as c0 return forall c', c0 = Some c' -> Q c' with
         | Some c1 => fun c' E => match E in _ = o return match o with Some x => Q x | None => True end
                                  with eq_refl => content_ind' c1 end
         | None => fun c' E => match E with end
         end)
  end
with content_ind' (c : NodeContent) : Q c :=
  match c with
  | NC_Bytes b => HBytes b
  | NC_String s => HString s
  | NC_Nodes ns =>
      HNodes ns
        ((fix go (l : list Node) : Forall P l :=
            match l with
            | [] => Forall_nil_2 P
            | n :: l' => Forall_cons_2 P n l' (node_ind' n) (go l')
            end) ns)
  end.
End NodeInd.

Section NodeRefInd.
Variable P : NodeRef -> Prop.
Variable Q : NodeContentRef -> Prop.
Hypothesis HNode : forall t a c, (forall c', c = Some c' -> Q c') -> P (mkNodeRef t a c).
Hypothesis HBytes : forall b, Q (NR_Bytes b).
Hypothesis HString : forall s, Q (NR_String s).
Hypothesis HNodes : forall ns, Forall P ns -> Q (NR_Nodes ns).

Fixpoint noderef_ind' (n : NodeRef) : P n :=
  match n with
  | mkNodeRef t a c =>
      HNode t a c
        (match c as c0 return forall c', c0 = Some c' -> Q c' with
         | Some c1 => fun c' E => match E in _ = o return match o with Some x => Q x | None => True end
                                  with eq_refl => contentref_ind' c1 end
         | None => fun c' E => match E with end
         end)
  end
with contentref_ind' (c : NodeContentRef) : Q c :=
  match c with
  | NR_Bytes b => HBytes b
  | NR_String s => HString s
  | NR_Nodes ns =>
      HNodes ns
        ((fix go (l : list NodeRef) : Forall P l :=
            match l with
            | [] => Forall_nil_2 P
            | n :: l' => Forall_cons_2 P n l' (noderef_ind' n) (go l')
            end) ns)
  end.
End NodeRefInd.

(** ** Lemmas *)

(** Attributes have distinct keys everywhere in the tree: what [IndexMap]
    guarantees of an owned node. *)
Fixpoint node_keys_ok (n : Node) : Prop :=
  match n with
  | mkNode _ a c =>
      List.NoDup (map fst a) /\ match c with Some c => content_keys_ok c | None => True end
  end
with content_keys_ok (c : NodeContent) : Prop :=
  match c with
  | NC_Nodes nodes => fold_right (fun n acc => node_keys_ok n /\ acc) True nodes
  | _ => True
  end.

(** Borrowing an owned node and taking ownership again gives it back. *)
Lemma to_owned_as_node_ref n : node_keys_ok n -> to_owned (as_node_ref n) = n.
Proof.
  apply (node_ind' (fun n => node_keys_ok n -> to_owned (as_node_ref n) = n)
           (fun c => content_keys_ok c -> content_to_owned (as_content_ref c) = c)).
  - intros t a c IH [Hnd Hc]. simpl. rewrite map_map. simpl.
    replace (map _ a) with a by (induction a as [|[] a IHa]; simpl; [done|];
      inversion Hnd; subst; f_equal; auto).
    rewrite im_collect_NoDup by done. destruct c as [c|]; [|done].
    by rewrite IH.
  - done.
  - done.
  - intros ns Hns Hok. simpl. f_equal. rewrite map_map.
    induction Hns as [|n' ns Hn Hns IHns]; simpl in *; [done|].
    destruct Hok. rewrite Hn, IHns by done. done.
Qed.

Lemma to_owned_keys_ok r : node_keys_ok (to_owned r).
Proof.
  apply (noderef_ind' (fun r => node_keys_ok (to_owned r))
           (fun c => content_keys_ok (content_to_owned c))).
  - intros t a c IH. simpl. split; [apply im_collect_is_NoDup|].
    destruct c as [c|]; [|done]. by apply IH.
  - done.
  - done.
  - intros ns Hns. simpl. induction Hns; simpl; auto.
Qed.
