(* ===== verification/Encoder.v ===== *)
(** * The encoder: [warp_core/binary/src/encoder.rs]

    Every method of [Encoder] as a computation on the output buffer: the
    integer and byte writers, string compression (tokens, nibble and hex
    packing with its SIMD path, JIDs), lists and nodes, for owned and for
    borrowed nodes.  The theorem shows that the
    borrowed encoder computes what the owned one does. *)

From S2P Require Import Prelude RustStd Jid Token Node.

(** The state of an [Encoder] is what its writer has received. *)
Abbreviation enc A := (comp bytes BinaryError A).

(** ** [parse_jid] *)

(** [struct ParsedJid] *)
Record ParsedJid := mkParsedJid {
  pj_user : str;
  pj_server : str;
  pj_domain_type : u8;
  pj_device : option u16
}.

Definition parse_jid (input : str) : option ParsedJid :=
  match str_find AT input with
  | None => None
  | Some sep_idx =>
      let srv := drop (S sep_idx) input in
      let user_combined := take sep_idx input in
      let '(user_agent, dev) :=
        match split_once COLON user_combined with
        | Some (ua, device_part) =>
            (ua, if device_part =s [] then None else to_option (parse_u16 device_part))
        | None => (user_combined, None)
        end in
      let '(u, agent_override) :=
        match split_once UNDERSCORE user_agent with
        | Some (u, agent_part) => (u, to_option (parse_u16 agent_part))
        | None => (user_agent, None)
        end in
      let agent_byte := wrap 8 (match agent_override with Some a => a | None => 0 end) in
      let domain_type :=
        if srv =s HIDDEN_USER_SERVER then 1
        else if srv =s HOSTED_SERVER then 128
        else if srv =s lit "hosted.lid" then 129
        else agent_byte in
      Some (mkParsedJid u srv domain_type dev)
  end.

(** ** Writers *)

(** [self.writer.write_all(bytes)?] *)
Definition write_all (bs : bytes) : enc unit := fun w => (Ok tt, w ++ bs).

Definition write_u8 (val : u8) : enc unit := write_all [val].
Definition write_u16_be (val : u16) : enc unit := write_all (u16_to_be_bytes val).
Definition write_u32_be (val : u32) : enc unit := write_all (u32_to_be_bytes val).
Definition write_u20_be (value : u32) : enc unit :=
  write_all [wrap 8 (Z.land (Z.shiftr value 16) 15)] ;;
  write_all [wrap 8 (Z.land (Z.shiftr value 8) 255)] ;;
  write_all [wrap 8 (Z.land value 255)].
Definition write_raw_bytes (bs : bytes) : enc unit := write_all bs.

(** [Encoder::new] *)
Definition encoder_new : enc unit := write_u8 0.

Definition write_bytes_with_len (bs : bytes) : enc unit :=
  let len := Z.of_nat (length bs) in
  (if len <? 256 then
     write_u8 BINARY_8 ;; write_u8 (wrap 8 len)
   else if len <? Z.shiftl 1 20 then
     write_u8 BINARY_20 ;; write_u20_be (wrap 32 len)
   else
     write_u8 BINARY_32 ;; write_u32_be (wrap 32 len)) ;;
  write_raw_bytes bs.

Definition write_list_start (len : usize) : enc unit :=
  let len := Z.of_nat len in
  if len =? 0 then write_u8 LIST_EMPTY
  else if len <? 256 then write_u8 248 ;; write_u8 (wrap 8 len)
  else write_u8 249 ;; write_u16_be (wrap 16 len).

(** ** Packing *)

Definition validate_nibble (value : str) : bool :=
  if PACKED_MAX <? Z.of_nat (length value) then false
  else forallb (fun c => is_ascii_digit c || (c =? DASH) || (c =? DOT)) value.

Definition validate_hex (value : str) : bool :=
  if PACKED_MAX <? Z.of_nat (length value) then false
  else forallb (fun c => is_ascii_hexdigit c && (is_ascii_uppercase c || is_ascii_digit c)) value.

Definition pack_nibble (value : u8) : outcome BinaryError u8 :=
  if value =? DASH then Ok 10
  else if value =? DOT then Ok 11
  else if value =? 0 then Ok 15
  else if is_ascii_digit value then Ok (value - 48)
  else Panic.

Definition pack_hex (value : u8) : outcome BinaryError u8 :=
  if is_ascii_digit value then Ok (value - 48)
  else if in_range 65 70 value then Ok (10 + (value - 65))
  else if value =? 0 then Ok 15
  else Panic.

Definition pack_byte_pair (packer : u8 -> outcome BinaryError u8) (part1 part2 : u8)
    : outcome BinaryError u8 :=
  let? a := packer part1 in
  let? b := packer part2 in
  Ok (Z.lor (wrap 8 (Z.shiftl a 4)) b).

(** The lanes of a 16-byte vector. *)
Definition NIBBLE_PACK_LOOKUP : list u8 :=
  [10; 11; 255; 0; 1; 2; 3; 4; 5; 6; 7; 8; 9; 255; 255; 255].

(** [table.swizzle_dyn(indices)]: an index past the table selects 0. *)
Definition swizzle_dyn (table : list u8) (indices : list u8) : list u8 :=
  map (fun i => if i <? 16 then nth (Z.to_nat i) table 0 else 0) indices.

(** Lanes at even and at odd positions, and the rotation by one lane. *)
Fixpoint even_lanes (v : list u8) : list u8 :=
  match v with
  | x :: _ :: v' => x :: even_lanes v'
  | [x] => [x]
  | [] => []
  end.
Fixpoint odd_lanes (v : list u8) : list u8 :=
  match v with
  | _ :: y :: v' => y :: odd_lanes v'
  | _ => []
  end.
Definition rotate_left_1 (v : list u8) : list u8 :=
  match v with [] => [] | x :: v' => v' ++ [x] end.
Definition deinterleave (a b : list u8) : list u8 * list u8 :=
  (even_lanes (a ++ b), odd_lanes (a ++ b)).

(** One iteration of the vector loop: 16 characters to 8 bytes. *)
Definition pack_chunk_simd (data_type : u8) (input : list u8) : list u8 :=
  let nibbles :=
    if data_type =? NIBBLE_8 then
      swizzle_dyn NIBBLE_PACK_LOOKUP (map (fun x => Z.max 0 (x - 45)) input)
    else
      map (fun x => if 65 <=? x then wrap 8 (wrap 8 (x - 65) + 10) else wrap 8 (x - 48)) input in
  let nibbles :=
    if data_type =? NIBBLE_8 then
      zip_with (fun x n => if x =? 0 then 15 else n) input nibbles
    else nibbles in
  let '(evens, odds) := deinterleave nibbles (rotate_left_1 nibbles) in
  let packed := zip_with (fun e o => Z.lor (wrap 8 (Z.shiftl e 4)) o) evens odds in
  take 8 packed.

Fixpoint pack_chars (packer : u8 -> outcome BinaryError u8) (chars : str) : enc unit :=
  match chars with
  | [] => mret tt
  | [part1] =>
      let! b := mlift (pack_byte_pair packer part1 0) in write_u8 b
  | part1 :: part2 :: chars' =>
      let! b := mlift (pack_byte_pair packer part1 part2) in
      write_u8 b ;; pack_chars packer chars'
  end.

Definition write_packed_bytes (value : str) (data_type : u8) : enc unit :=
  if PACKED_MAX <? Z.of_nat (length value) then mpanic else
  write_u8 data_type ;;
  let n := Z.of_nat (length value) in
  let rounded_len := wrap 8 ((n + 1) / 2) in
  let rounded_len := if negb (n mod 2 =? 0) then Z.lor rounded_len 128 else rounded_len in
  write_u8 rounded_len ;;
  let '(chunks, rest) := as_chunks 16 value in
  mfor (fun chunk => write_raw_bytes (pack_chunk_simd data_type chunk)) chunks ;;
  let packer := if data_type =? NIBBLE_8 then pack_nibble else pack_hex in
  let! chars := mlift (map_err InvalidUtf8 (from_utf8 rest)) in
  pack_chars packer chars.

(** ** Strings and JIDs *)

(** [write_jid], with the string writer it calls back. *)
Definition write_jid_with (write_string : str -> enc unit) (jid : ParsedJid) : enc unit :=
  match pj_device jid with
  | Some device =>
      write_u8 AD_JID ;;
      write_u8 (pj_domain_type jid) ;;
      write_u8 (wrap 8 device) ;;
      write_string (pj_user jid)
  | None =>
      write_u8 JID_PAIR ;;
      (if pj_user jid =s [] then write_u8 LIST_EMPTY
       else write_string (pj_user jid)) ;;
      write_string (pj_server jid)
  end.

(** [write_string] and [write_jid] call each other on ever shorter strings. *)
Fixpoint write_string_fuel (fuel : nat) (s : str) : enc unit :=
  if s =s [] then write_u8 BINARY_8 ;; write_u8 0
  else
    match index_of_single_token s with
    | Some token => write_u8 token
    | None =>
        match index_of_double_byte_token s with
        | Some (dict, token) => write_u8 (DICTIONARY_0 + dict) ;; write_u8 token
        | None =>
            if validate_nibble s then write_packed_bytes s NIBBLE_8
            else if validate_hex s then write_packed_bytes s HEX_8
            else
              match parse_jid s with
              | Some jid =>
                  match fuel with
                  | O => mnofuel
                  | S f => write_jid_with (write_string_fuel f) jid
                  end
              | None => write_bytes_with_len s
              end
        end
    end.

Definition write_string (s : str) : enc unit := write_string_fuel (length s) s.
Definition write_jid (jid : ParsedJid) : enc unit := write_jid_with write_string jid.

(** ** Nodes *)

Definition write_attributes (a : index_map str) : enc unit :=
  mfor (fun kv => write_string kv.1 ;; write_string kv.2) a.

Fixpoint write_node (n : Node) : enc unit :=
  match n with
  | mkNode t a c =>
      let content_len := match c with Some _ => 1%nat | None => 0%nat end in
      let list_len := (1 + length a * 2 + content_len)%nat in
      write_list_start list_len ;;
      write_string t ;;
      write_attributes a ;;
      match c with
      | Some c => write_content c
      | None => mret tt
      end
  end
with write_content (c : NodeContent) : enc unit :=
  match c with
  | NC_String s => write_string s
  | NC_Bytes b => write_bytes_with_len b
  | NC_Nodes nodes => write_list_start (length nodes) ;; mfor write_node nodes
  end.

Definition write_attributes_ref (a : list (str * ValueRef)) : enc unit :=
  mfor (fun kv => write_string kv.1 ;; write_string (to_string_cow kv.2)) a.

Fixpoint write_node_ref (n : NodeRef) : enc unit :=
  match n with
  | mkNodeRef t a c =>
      let content_len := match c with Some _ => 1%nat | None => 0%nat end in
      let list_len := (1 + length a * 2 + content_len)%nat in
      write_list_start list_len ;;
      write_string t ;;
      write_attributes_ref a ;;
      match c with
      | Some c => write_content_ref c
      | None => mret tt
      end
  end
with write_content_ref (c : NodeContentRef) : enc unit :=
  match c with
  | NR_String s => write_string s
  | NR_Bytes b => write_bytes_with_len b
  | NR_Nodes nodes => write_list_start (length nodes) ;; mfor write_node_ref nodes
  end.

(** ** [marshal.rs]: the entry points that encode *)

Definition marshal_to (n : Node) : enc unit := encoder_new ;; write_node n.
Definition marshal (n : Node) : outcome BinaryError bytes :=
  match marshal_to n [] with
  | (Ok _, payload) => Ok payload
  | (Err e, _) => Err e
  | (Panic, _) => Panic
  | (NoFuel, _) => NoFuel
  end.
Definition marshal_ref_to (n : NodeRef) : enc unit := encoder_new ;; write_node_ref n.
Definition marshal_ref (n : NodeRef) : outcome BinaryError bytes :=
  match marshal_ref_to n [] with
  | (Ok _, payload) => Ok payload
  | (Err e, _) => Err e
  | (Panic, _) => Panic
  | (NoFuel, _) => NoFuel
  end.

(** ** Borrowed and owned nodes encode alike *)

Lemma mfor_map_eq {S E A B} (f : A -> comp S E unit) (g : B -> comp S E unit) (h : A -> B) l :
  Forall (fun x => g (h x) = f x) l -> mfor g (map h l) = mfor f l.
Proof.
  induction 1 as [|x l Hx Hl IH]; [done|].
  change (mfor g (map h (x :: l))) with (g (h x) ;; mfor g (map h l)).
  change (mfor f (x :: l)) with (f x ;; mfor f l). by rewrite Hx, IH.
Qed.

Lemma write_node_ref_as n : write_node_ref (as_node_ref n) = write_node n.
Proof.
  apply (node_ind' (fun n => write_node_ref (as_node_ref n) = write_node n)
           (fun c => write_content_ref (as_content_ref c) = write_content c)); [|done..|].
  - intros t a c IH. cbn [as_node_ref write_node_ref write_node].
    unfold write_attributes_ref, write_attributes. rewrite length_map.
    rewrite (mfor_map_eq (fun kv => write_string kv.1 ;; write_string kv.2))
      by (apply Forall_forall; by intros [k v] _).
    destruct c as [c|]; [|done]. by rewrite IH.
  - intros ns Hns. cbn [as_content_ref write_content_ref write_content].
    rewrite length_map. f_equal. by rewrite (mfor_map_eq write_node).
Qed.

(** The borrowed encoder is the owned one: encoding the borrowed view of
    a node has the same outcome, byte for byte, as encoding the node. *)
Theorem marshal_ref_equiv (n : Node) : marshal_ref (as_node_ref n) = marshal n.
Proof. unfold marshal_ref, marshal, marshal_ref_to, marshal_to. by rewrite write_node_ref_as. Qed.
