(* ===== verification/Decoder.v ===== *)
(** * The decoder: [warp_core/binary/src/decoder.rs], [marshal.rs], [util.rs]

    Every method of [Decoder] as a computation on the input slice and the
    read position.  The theorems show that decoding is total and panic-free
    on every byte string (the position never leaves the slice, the SIMD
    validation agrees with the scalar one so its [unreachable!] is
    unreachable, and the recursion is bounded by the input). *)

From S2P Require Import Prelude RustStd Jid Token Node.

(** [struct Decoder] *)
Record Decoder := mkDecoder { data : bytes; position : usize }.

Abbreviation dec A := (comp Decoder BinaryError A).

Definition decoder_new (bs : bytes) : Decoder := mkDecoder bs 0.
Definition is_finished (d : Decoder) : bool := (length (data d) <=? position d)%nat.
Definition bytes_left (d : Decoder) : usize := (length (data d) - position d)%nat.
Definition advance (n : nat) : dec unit :=
  fun d => (Ok tt, mkDecoder (data d) (position d + n)).

(** ** Primitive readers *)

Definition check_eos (len : usize) : dec unit :=
  fun d => if (len <=? bytes_left d)%nat then (Ok tt, d) else (Err UnexpectedEof, d).

(** [self.data[self.position + i]] *)
Definition byte_at (i : nat) : dec u8 :=
  fun d => match data d !! (position d + i)%nat with
           | Some b => (Ok b, d)
           | None => (Panic, d)
           end.

Definition read_u8 : dec u8 :=
  check_eos 1 ;;
  let! value := byte_at 0 in
  advance 1 ;;
  mret value.

Definition read_u16_be : dec u16 :=
  check_eos 2 ;;
  let! a := byte_at 0 in
  let! b := byte_at 1 in
  advance 2 ;;
  mret (u16_from_be_bytes a b).

Definition read_u20_be : dec u32 :=
  check_eos 3 ;;
  let! a := byte_at 0 in
  let! b := byte_at 1 in
  let! c := byte_at 2 in
  advance 3 ;;
  mret (Z.lor (Z.lor (Z.shiftl (Z.land a 15) 16) (Z.shiftl b 8)) c).

Definition read_u32_be : dec u32 :=
  check_eos 4 ;;
  let! a := byte_at 0 in
  let! b := byte_at 1 in
  let! c := byte_at 2 in
  let! e := byte_at 3 in
  advance 4 ;;
  mret (u32_from_be_bytes a b c e).

(** [&self.data[self.position..self.position + len]] panics past the end. *)
Definition read_bytes (len : usize) : dec bytes :=
  check_eos len ;;
  let! slice_ := (fun d =>
    if (position d + len <=? length (data d))%nat
    then (Ok (slice (position d) (position d + len) (data d)), d)
    else (Panic, d)) in
  advance len ;;
  mret slice_.

Definition read_string (len : usize) : dec str :=
  let! bs := read_bytes len in
  mlift (map_err InvalidUtf8 (from_utf8 bs)).

Definition read_list_size (t : u8) : dec usize :=
  if t =? LIST_EMPTY then mret 0%nat
  else if t =? 248 then let! v := read_u8 in mret (Z.to_nat v)
  else if t =? 249 then let! v := read_u16_be in mret (Z.to_nat v)
  else mfail (InvalidToken t).

(** ** Packed strings *)

Definition unpack_byte (t value : u8) : outcome BinaryError u8 :=
  if t =? NIBBLE_8 then
    if in_range 0 9 value then Ok (48 + value)
    else if value =? 10 then Ok DASH
    else if value =? 11 then Ok DOT
    else if value =? 15 then Ok 0
    else Err (InvalidToken value)
  else if t =? HEX_8 then
    if in_range 0 9 value then Ok (48 + value)
    else if in_range 10 15 value then Ok (65 + value - 10)
    else Err (InvalidToken value)
  else Err (InvalidToken t).

Definition NIBBLE_LOOKUP : list u8 := lit "0123456789-." ++ [0; 0; 0; 0].
Definition HEX_LOOKUP : list u8 := lit "0123456789ABCDEF".

Definition high_nibble (b : u8) : u8 := Z.shiftr (Z.land b 240) 4.
Definition low_nibble (b : u8) : u8 := Z.land b 15.

(** [for byte in bytes { push(unpack(high)?); push(unpack(low)?) }] *)
Fixpoint unpack_scalar (t : u8) (bs : bytes) : outcome BinaryError bytes :=
  match bs with
  | [] => Ok []
  | b :: bs' =>
      let? h := unpack_byte t (high_nibble b) in
      let? l := unpack_byte t (low_nibble b) in
      let? r := unpack_scalar t bs' in
      Ok (h :: l :: r)
  end.

(** The lane-wise validity test of the vector path. *)
Definition nibble_lane_valid (n : u8) : bool := (n <=? 11) || (n =? 15).

(** [Simd::interleave(high, low)], both halves concatenated. *)
Fixpoint interleave (h l : list u8) : list u8 :=
  match h, l with
  | a :: h', b :: l' => a :: b :: interleave h' l'
  | _, _ => []
  end.

(** [lookup_table.swizzle_dyn(nibbles)]: an index past the table selects 0. *)
Definition lookup_lane (table : list u8) (i : u8) : u8 :=
  if i <? 16 then nth (Z.to_nat i) table 0 else 0.

(** One 16-byte chunk of the vector path. *)
Definition unpack_chunk (t : u8) (chunk : list u8) : outcome BinaryError bytes :=
  let table := if t =? NIBBLE_8 then NIBBLE_LOOKUP else HEX_LOOKUP in
  let high_nibbles := map (fun b => Z.land (Z.shiftr b 4) 15) chunk in
  let low_nibbles := map (fun b => Z.land b 15) chunk in
  if (t =? NIBBLE_8)
     && negb (forallb nibble_lane_valid high_nibbles && forallb nibble_lane_valid low_nibbles)
  then
    let? _ := unpack_scalar t chunk in
    Panic
  else
    Ok (interleave (map (lookup_lane table) high_nibbles) (map (lookup_lane table) low_nibbles)).

Fixpoint unpack_chunks (t : u8) (chunks : list (list u8)) : outcome BinaryError bytes :=
  match chunks with
  | [] => Ok []
  | c :: cs =>
      let? a := unpack_chunk t c in
      let? b := unpack_chunks t cs in
      Ok (a ++ b)
  end.

Definition read_packed (t : u8) : dec str :=
  let! packed_len_byte := read_u8 in
  let is_half_byte := negb (Z.land packed_len_byte 128 =? 0) in
  let len := Z.to_nat (Z.land packed_len_byte 127) in
  if (len =? 0)%nat then mret [] else
  let! packed_data := read_bytes len in
  let '(chunks, remainder) := as_chunks 16 packed_data in
  let! a := mlift (unpack_chunks t chunks) in
  let! b := mlift (unpack_scalar t remainder) in
  let unpacked := a ++ b in
  let unpacked := if is_half_byte then take (length unpacked - 1) unpacked else unpacked in
  mlift (map_err InvalidUtf8 (from_utf8 unpacked)).

(** ** JIDs

    The four JID readers call back the string reader. *)
Section JidReaders.
Variable read_value_as_string : dec (option str).

(** [self.read_value_as_string()?.ok_or(e)?] *)
Definition read_required (e : BinaryError) : dec str :=
  let! v := read_value_as_string in
  match v with Some s => mret s | None => mfail e end.

(** [self.read_value_as_string()?.unwrap_or("")] *)
Definition read_or_empty : dec str :=
  let! v := read_value_as_string in
  mret (match v with Some s => s | None => [] end).

Definition read_jid_pair : dec JidRef :=
  let! user_val := read_value_as_string in
  let! srv := read_or_empty in
  let u := match user_val with Some s => s | None => [] end in
  mret (mkJidRef u srv 0 0 0).

Definition read_ad_jid : dec JidRef :=
  let! ag := read_u8 in
  let! dv := read_u8 in
  let! u := read_required InvalidNode in
  let srv :=
    if ag =? 0 then DEFAULT_USER_SERVER
    else if ag =? 1 then HIDDEN_USER_SERVER
    else HOSTED_SERVER in
  mret (mkJidRef u srv ag dv 0).

Definition read_interop_jid : dec JidRef :=
  let! u := read_required InvalidNode in
  let! dv := read_u16_be in
  let! ig := read_u16_be in
  let! srv := read_or_empty in
  if negb (srv =s INTEROP_SERVER) then mfail InvalidNode
  else mret (mkJidRef u srv 0 dv ig).

Definition read_fb_jid : dec JidRef :=
  let! u := read_required InvalidNode in
  let! dv := read_u16_be in
  let! srv := read_or_empty in
  if negb (srv =s MESSENGER_SERVER) then mfail InvalidNode
  else mret (mkJidRef u srv 0 dv 0).
End JidReaders.

(** ** Values *)

(** The match on the tag byte that [read_value_as_string] and [read_value]
    share, over the constructor each applies to strings and to JIDs. *)
Definition read_tagged {V} (on_str : str -> V) (on_jid : JidRef -> V)
    (rv : option (dec (option str))) (t : u8) : dec (option V) :=
  let jid (r : dec (option str) -> dec JidRef) : dec (option V) :=
    match rv with
    | None => mnofuel
    | Some rv => let! j := r rv in mret (Some (on_jid j))
    end in
  if t =? LIST_EMPTY then mret None
  else if t =? BINARY_8 then
    let! size := read_u8 in
    let! s := read_string (Z.to_nat size) in mret (Some (on_str s))
  else if t =? BINARY_20 then
    let! size := read_u20_be in
    let! s := read_string (Z.to_nat size) in mret (Some (on_str s))
  else if t =? BINARY_32 then
    let! size := read_u32_be in
    let! s := read_string (Z.to_nat size) in mret (Some (on_str s))
  else if t =? JID_PAIR then jid read_jid_pair
  else if t =? AD_JID then jid read_ad_jid
  else if t =? INTEROP_JID then jid read_interop_jid
  else if t =? FB_JID then jid read_fb_jid
  else if (t =? NIBBLE_8) || (t =? HEX_8) then
    let! s := read_packed t in mret (Some (on_str s))
  else if in_range DICTIONARY_0 DICTIONARY_3 t then
    let! index := read_u8 in
    match get_double_token (t - DICTIONARY_0) index with
    | Some s => mret (Some (on_str s))
    | None => mfail (InvalidToken t)
    end
  else
    match get_single_token t with
    | Some s => mret (Some (on_str s))
    | None => mfail (InvalidToken t)
    end.

(** [read_value_as_string] recurses through the JID readers; the fuel bounds
    the depth of that recursion. *)
Fixpoint read_value_as_string_fuel (fuel : nat) : dec (option str) :=
  let! t := read_u8 in
  read_tagged (fun s => s) jidref_to_string
    (match fuel with O => None | S f => Some (read_value_as_string_fuel f) end) t.

Definition read_value_as_string : dec (option str) :=
  fun d => read_value_as_string_fuel (length (data d)) d.

Definition read_value : dec (option ValueRef) :=
  fun d =>
    (let! t := read_u8 in
     read_tagged VR_String VR_Jid (Some (read_value_as_string_fuel (length (data d)))) t) d.

(** ** Nodes *)

Definition read_attribute : dec (str * ValueRef) :=
  let! key := read_required read_value_as_string NonStringKey in
  let! value := read_value in
  mret (key, match value with Some v => v | None => VR_String [] end).

Definition read_attributes (size : usize) : dec (list (str * ValueRef)) :=
  mrepeat size read_attribute.

(** [self.position -= 1] *)
Definition unread : dec unit := fun d => (Ok tt, mkDecoder (data d) (position d - 1)).

Definition read_content_with (read_node_ref : dec NodeRef) : dec (option NodeContentRef) :=
  let! t := read_u8 in
  if t =? LIST_EMPTY then mret None
  else if (t =? LIST_8) || (t =? LIST_16) then
    let! size := read_list_size t in
    let! nodes := mrepeat size read_node_ref in
    mret (Some (NR_Nodes nodes))
  else if t =? BINARY_8 then
    let! len := read_u8 in
    let! bs := read_bytes (Z.to_nat len) in
    mret (Some (NR_Bytes bs))
  else if t =? BINARY_20 then
    let! len := read_u20_be in
    let! bs := read_bytes (Z.to_nat len) in
    mret (Some (NR_Bytes bs))
  else if t =? BINARY_32 then
    let! len := read_u32_be in
    let! bs := read_bytes (Z.to_nat len) in
    mret (Some (NR_Bytes bs))
  else
    unread ;;
    let! string_content := read_value_as_string in
    match string_content with
    | Some s => mret (Some (NR_String s))
    | None => mret None
    end.

Fixpoint read_node_ref_fuel (fuel : nat) : dec NodeRef :=
  let! t := read_u8 in
  let! list_size := read_list_size t in
  if (list_size =? 0)%nat then mfail InvalidNode else
  let! t := read_required read_value_as_string InvalidNode in
  let attr_count := ((list_size - 1) / 2)%nat in
  let has_content := (list_size mod 2 =? 0)%nat in
  let! a := read_attributes attr_count in
  let! c :=
    if has_content then
      match fuel with
      | O => mnofuel
      | S f => read_content_with (read_node_ref_fuel f)
      end
    else mret None in
  mret (mkNodeRef t a c).

Definition read_node_ref : dec NodeRef := fun d => read_node_ref_fuel (length (data d)) d.
Definition read_content : dec (option NodeContentRef) := read_content_with read_node_ref.

(** ** Entry points *)

Definition unmarshal_ref (bs : bytes) : outcome BinaryError NodeRef :=
  let '(r, decoder) := read_node_ref (decoder_new bs) in
  let? node := r in
  if is_finished decoder then Ok node
  else Err (LeftoverData (bytes_left decoder)).

(** [unpack]: the flag byte and the optional zlib layer.  The inflater is the
    [flate2] crate's; [None] is its error. *)
Section Unpack.
Variable zlib_decompress : bytes -> option bytes.
Variable zlib_error : bytes -> str.

Definition unpack (bs : bytes) : outcome BinaryError bytes :=
  match bs with
  | [] => Err EmptyData
  | data_type :: rest =>
      if 0 <? Z.land data_type 2 then
        match zlib_decompress rest with
        | Some d => Ok d
        | None => Err (Zlib (zlib_error rest))
        end
      else Ok rest
  end.
End Unpack.

(** ** The vector path agrees with the scalar path *)

Lemma high_nibble_alt b : Z.land (Z.shiftr b 4) 15 = high_nibble b.
Proof. unfold high_nibble. by rewrite Z.shiftr_land. Qed.

Lemma low_nibble_range b : 0 <= low_nibble b <= 15.
Proof.
  unfold low_nibble. change 15 with (Z.ones 4) at 1 2. rewrite Z.land_ones by lia.
  pose proof (Z.mod_pos_bound b (2 ^ 4)). lia.
Qed.

Lemma high_nibble_range b : 0 <= high_nibble b <= 15.
Proof. rewrite <- high_nibble_alt. apply low_nibble_range. Qed.

(** The sixteen values a lane can have. *)
Lemma nibble_cases (P : Z -> Prop) n :
  0 <= n <= 15 -> Forall P (map Z.of_nat (List.seq 0 16)) -> P n.
Proof.
  intros Hn HP. rewrite Forall_forall in HP. apply HP.
  apply list_elem_of_In, in_map_iff. exists (Z.to_nat n). split; [lia|].
  apply in_seq. lia.
Qed.

Definition packed_tag (t : u8) : Prop := t = NIBBLE_8 \/ t = HEX_8.
Definition lane_table (t : u8) : list u8 := if t =? NIBBLE_8 then NIBBLE_LOOKUP else HEX_LOOKUP.

(** A valid lane unpacks to its table entry, an invalid one to an error. *)
Lemma unpack_byte_lane t n :
  packed_tag t -> 0 <= n <= 15 ->
  unpack_byte t n =
  if (t =? NIBBLE_8) && negb (nibble_lane_valid n) then Err (InvalidToken n)
  else Ok (lookup_lane (lane_table t) n).
Proof.
  intros [-> | ->] Hn; pattern n; apply nibble_cases; try done; repeat constructor.
Qed.

Lemma unpack_scalar_lanes t bs :
  packed_tag t ->
  forallb (fun b => negb (t =? NIBBLE_8)
                    || (nibble_lane_valid (high_nibble b) && nibble_lane_valid (low_nibble b))) bs
    = true ->
  unpack_scalar t bs =
  Ok (interleave (map (lookup_lane (lane_table t)) (map high_nibble bs))
                 (map (lookup_lane (lane_table t)) (map low_nibble bs))).
Proof.
  intros Ht. induction bs as [|b bs IH]; simpl; [done|].
  intros [Hb Hbs]%andb_true_iff.
  rewrite !unpack_byte_lane by (done || apply high_nibble_range || apply low_nibble_range).
  rewrite (IH Hbs). destruct (t =? NIBBLE_8); simpl in *; [|done].
  by apply andb_true_iff in Hb as [-> ->].
Qed.

Lemma unpack_scalar_invalid bs :
  forallb (fun b => nibble_lane_valid (high_nibble b) && nibble_lane_valid (low_nibble b)) bs
    = false ->
  exists e, unpack_scalar NIBBLE_8 bs = Err e.
Proof.
  induction bs as [|b bs IH]; simpl; [done|].
  rewrite !unpack_byte_lane
    by (by left || apply high_nibble_range || apply low_nibble_range).
  rewrite Z.eqb_refl. simpl.
  destruct (nibble_lane_valid (high_nibble b)); simpl; [|by eexists].
  destruct (nibble_lane_valid (low_nibble b)); simpl; [|by eexists].
  intros (e & ->)%IH. by exists e.
Qed.

Lemma unpack_chunk_eq t chunk : packed_tag t -> unpack_chunk t chunk = unpack_scalar t chunk.
Proof.
  intros Ht. unfold unpack_chunk. rewrite forallb_map_and.
  rewrite (map_ext (fun b => Z.land (Z.shiftr b 4) 15) high_nibble)
    by (intros; apply high_nibble_alt).
  change (fun b => Z.land b 15) with low_nibble.
  change (if t =? NIBBLE_8 then NIBBLE_LOOKUP else HEX_LOOKUP) with (lane_table t).
  destruct ((t =? NIBBLE_8) && negb _) eqn:Hv.
  - apply andb_true_iff in Hv as [->%Z.eqb_eq Hv%negb_true_iff].
    rewrite (forallb_ext _ (fun b => nibble_lane_valid (high_nibble b)
      && nibble_lane_valid (low_nibble b))) in Hv by (intros; by rewrite high_nibble_alt).
    apply unpack_scalar_invalid in Hv as (e & ->). done.
  - symmetry. apply unpack_scalar_lanes; [done|].
    destruct (t =? NIBBLE_8); simpl in *.
    + apply negb_false_iff in Hv. rewrite <- Hv. apply forallb_ext.
      intros b. by rewrite high_nibble_alt.
    + clear. induction chunk; simpl; auto.
Qed.

(** For both packed encodings the 16-lane vector path of the decoder
    returns exactly what the scalar loop returns on the same chunk, errors
    included; in particular the [unreachable!] behind the vector validation
    is never reached. *)
Theorem unpack_chunk_scalar (t : u8) (chunk : list u8) :
  packed_tag t -> unpack_chunk t chunk = unpack_scalar t chunk.
Proof. apply unpack_chunk_eq. Qed.

Lemma unpack_chunk_scalar_witness :
  unpack_chunk NIBBLE_8 [18; 52; 196] = unpack_scalar NIBBLE_8 [18; 52; 196].
Proof. apply unpack_chunk_scalar. by left. Defined.

Lemma unpack_scalar_app t a b :
  unpack_scalar t (a ++ b) =
  let? x := unpack_scalar t a in let? y := unpack_scalar t b in Ok (x ++ y).
Proof.
  induction a as [|c a IH]; simpl; [by destruct (unpack_scalar t b)|].
  destruct (unpack_byte t (high_nibble c)); simpl; try done.
  destruct (unpack_byte t (low_nibble c)); simpl; try done.
  rewrite IH. destruct (unpack_scalar t a); simpl; try done.
  by destruct (unpack_scalar t b).
Qed.

Lemma unpack_chunks_scalar t cs :
  packed_tag t -> unpack_chunks t cs = unpack_scalar t (mjoin cs).
Proof.
  intros Ht. induction cs as [|c cs IH]; simpl; [done|].
  rewrite unpack_scalar_app, <- IH.
  by rewrite unpack_chunk_eq.
Qed.

Lemma unpack_all_scalar t bs :
  packed_tag t ->
  (let? a := unpack_chunks t (as_chunks 16 bs).1 in
   let? b := unpack_scalar t (as_chunks 16 bs).2 in Ok (a ++ b)) = unpack_scalar t bs.
Proof.
  intros Ht. rewrite unpack_chunks_scalar by done.
  by rewrite <- unpack_scalar_app, as_chunks_concat.
Qed.

Lemma unpack_scalar_returns t bs : returns (unpack_scalar t bs).
Proof.
  assert (forall v, returns (unpack_byte t v)) as H
    by (intros v; unfold unpack_byte; repeat case_match; done).
  induction bs as [|b bs IH]; simpl; [done|].
  apply returns_bind; [apply H|intros h _]. apply returns_bind; [apply H|intros l _].
  by apply returns_bind.
Qed.

(** ** Decoding is total

    [safe n m]: started inside the slice with at most [n] bytes left, [m]
    returns a value or an error and leaves the position inside the slice and
    not before where it was. *)

Definition inside (d : Decoder) : Prop := (position d <= length (data d))%nat.

Definition safe_at {A} (m : dec A) (d : Decoder) : Prop :=
  returns (m d).1 /\ data (m d).2 = data d /\ (position d <= position (m d).2)%nat
  /\ inside (m d).2.

Definition safe {A} (n : nat) (m : dec A) : Prop :=
  forall d, inside d -> (bytes_left d <= n)%nat -> safe_at m d.

Lemma safe_ret {A} n (a : A) : safe n (mret a).
Proof. intros d Hd _. repeat split; simpl; auto. Qed.

Lemma safe_fail {A} n e : safe n (@mfail _ _ A e).
Proof. intros d Hd _. repeat split; simpl; auto. Qed.

Lemma safe_lift {A} n (o : outcome BinaryError A) : returns o -> safe n (mlift o).
Proof. intros Ho d Hd _. repeat split; simpl; auto. Qed.

Lemma safe_bind {A B} n (m : dec A) (k : A -> dec B) :
  safe n m -> (forall a, safe n (k a)) -> safe n (mbind' m k).
Proof.
  intros Hm Hk d Hd Hn. specialize (Hm d Hd Hn) as (Hr & Hdata & Hpos & Hin).
  unfold safe_at, mbind'. destruct (m d) as [[a|e| |] d'] eqn:E; simpl in *; try done.
  destruct (Hk a d' Hin) as (Hr' & Hdata' & Hpos' & Hin').
  { unfold bytes_left in *. rewrite Hdata. lia. }
  repeat split; [done|congruence|lia|done].
Qed.

Lemma safe_repeat {A} n k (m : dec A) : safe n m -> safe n (mrepeat k m).
Proof.
  intros Hm. induction k as [|k IH]; simpl; [apply safe_ret|].
  apply safe_bind; [done|intros a]. apply safe_bind; [done|intros l]. apply safe_ret.
Qed.

Lemma safe_check_eos n len : safe n (check_eos len).
Proof.
  intros d Hd _. unfold safe_at, check_eos. by destruct (len <=? bytes_left d)%nat.
Qed.

(** A reader of [len] bytes behind its bounds check. *)
Lemma safe_checked {A} n len (m : dec A) :
  (forall d, inside d -> (len <= bytes_left d)%nat -> safe_at m d) ->
  safe n (check_eos len ;; m).
Proof.
  intros Hm d Hd _. unfold safe_at, mbind', check_eos.
  destruct (Nat.leb_spec len (bytes_left d)); [by apply Hm|]. repeat split; simpl; auto.
Qed.

Lemma byte_at_ok i d :
  inside d -> (i < bytes_left d)%nat -> exists b, byte_at i d = (Ok b, d).
Proof.
  intros Hd Hi. unfold byte_at, inside, bytes_left in *.
  destruct (lookup_lt_is_Some_2 (data d) (position d + i)) as [b ->]; [lia|]. by exists b.
Qed.

Ltac safe_done := simpl; unfold inside, bytes_left in *; simpl in *; repeat split; lia.

Ltac read_byte i :=
  match goal with
  | Hd : inside ?d |- _ =>
      let b := fresh "b" in let Hb := fresh "Hb" in
      destruct (byte_at_ok i d Hd ltac:(lia)) as [b Hb]; rewrite (mbind'_Ok _ _ _ _ _ Hb)
  end.

Lemma safe_read_u8 n : safe n read_u8.
Proof.
  apply safe_checked. intros d Hd Hl. unfold safe_at. read_byte 0%nat.
  safe_done.
Qed.

Lemma safe_read_u16_be n : safe n read_u16_be.
Proof.
  apply safe_checked. intros d Hd Hl. unfold safe_at. read_byte 0%nat. read_byte 1%nat.
  safe_done.
Qed.

Lemma safe_read_u20_be n : safe n read_u20_be.
Proof.
  apply safe_checked. intros d Hd Hl. unfold safe_at. read_byte 0%nat. read_byte 1%nat.
  read_byte 2%nat. safe_done.
Qed.

Lemma safe_read_u32_be n : safe n read_u32_be.
Proof.
  apply safe_checked. intros d Hd Hl. unfold safe_at. read_byte 0%nat. read_byte 1%nat.
  read_byte 2%nat. read_byte 3%nat. safe_done.
Qed.

Lemma safe_read_bytes n len : safe n (read_bytes len).
Proof.
  apply safe_checked. intros d Hd Hl. unfold safe_at, mbind'.
  unfold inside, bytes_left in *.
  rewrite (proj2 (Nat.leb_le (position d + len) (length (data d)))) by lia.
  safe_done.
Qed.

#[export] Hint Resolve safe_ret safe_fail safe_lift safe_read_u8 safe_read_u16_be
  safe_read_u20_be safe_read_u32_be safe_read_bytes safe_repeat from_utf8_returns : rust.

(** Follow the binds and the tests of a reader. *)
Ltac safe_auto :=
  repeat first
    [ progress eauto with rust
    | apply safe_bind; [|intros ?]
    | apply safe_ret | apply safe_fail
    | match goal with
      | |- safe _ (if ?b then _ else _) => destruct b
      | |- safe _ (match ?o with Some _ => _ | None => _ end) => destruct o
      end ].

Lemma safe_utf8 n s : safe n (mlift (map_err InvalidUtf8 (from_utf8 s))).
Proof.
  apply safe_lift. pose proof (from_utf8_returns s). by destruct (from_utf8 s).
Qed.
#[export] Hint Resolve safe_utf8 : rust.

Lemma safe_read_string n len : safe n (read_string len).
Proof. unfold read_string. safe_auto. Qed.

Lemma safe_read_list_size n t : safe n (read_list_size t).
Proof. unfold read_list_size. safe_auto. Qed.

Lemma safe_read_packed n t : packed_tag t -> safe n (read_packed t).
Proof.
  intros Ht. unfold read_packed. apply safe_bind; [auto with rust|intros lb].
  destruct (_ =? 0)%nat; [auto with rust|]. apply safe_bind; [auto with rust|intros pd].
  destruct (as_chunks 16 pd) as [cs r].
  apply safe_bind; [|intros a; apply safe_bind; [|intros b; apply safe_utf8]].
  - apply safe_lift. rewrite unpack_chunks_scalar by done. apply unpack_scalar_returns.
  - apply safe_lift, unpack_scalar_returns.
Qed.
#[export] Hint Resolve safe_read_string safe_read_list_size safe_read_packed : rust.

Lemma safe_jid_readers n rv :
  safe n rv ->
  safe n (read_jid_pair rv) /\ safe n (read_ad_jid rv)
  /\ safe n (read_interop_jid rv) /\ safe n (read_fb_jid rv).
Proof.
  intros Hrv.
  assert (forall e, safe n (read_required rv e)) by (intros; unfold read_required; safe_auto).
  assert (safe n (read_or_empty rv)) by (unfold read_or_empty; safe_auto).
  unfold read_jid_pair, read_ad_jid, read_interop_jid, read_fb_jid.
  split_and!; safe_auto.
Qed.

Lemma safe_read_tagged {V} n (on_str : str -> V) on_jid rv t :
  safe n rv -> safe n (read_tagged on_str on_jid (Some rv) t).
Proof.
  intros (H1 & H2 & H3 & H4)%safe_jid_readers. unfold read_tagged.
  destruct ((t =? NIBBLE_8) || (t =? HEX_8)) eqn:Hp.
  - assert (packed_tag t) by (unfold packed_tag; bool_lia). safe_auto.
  - safe_auto.
Qed.

(** Reading a tag byte uses up one unit of the bound; with no byte left it
    fails before the continuation runs. *)
Lemma safe_after_u8 {B} n (k : u8 -> dec B) :
  (forall n' t, n = S n' -> safe n' (k t)) -> safe n (mbind' read_u8 k).
Proof.
  intros Hk d Hd Hn.
  destruct (Nat.leb_spec 1 (bytes_left d)) as [Hl|Hl].
  - destruct n as [|n']; [lia|].
    destruct (byte_at_ok 0 d Hd ltac:(lia)) as [b Hb].
    assert (read_u8 d = (Ok b, mkDecoder (data d) (position d + 1))) as Hr.
    { unfold read_u8, mbind', check_eos.
      rewrite (proj2 (Nat.leb_le _ _) Hl), Hb. done. }
    unfold safe_at. rewrite (mbind'_Ok _ _ _ _ _ Hr).
    destruct (Hk n' b eq_refl (mkDecoder (data d) (position d + 1))) as (? & ? & ? & ?).
    { safe_done. }
    { unfold bytes_left, inside in *; simpl; lia. }
    repeat split; simpl in *; auto; lia.
  - unfold safe_at, read_u8, mbind', check_eos.
    rewrite (proj2 (Nat.leb_gt _ _) Hl). repeat split; simpl; auto.
Qed.

Lemma safe_read_value_as_string_fuel fuel : safe fuel (read_value_as_string_fuel fuel).
Proof.
  induction fuel as [|f IH]; simpl; apply safe_after_u8; intros n' t [= <-].
  by apply safe_read_tagged.
Qed.

Lemma bytes_left_data d : (bytes_left d <= length (data d))%nat.
Proof. unfold bytes_left. lia. Qed.

Lemma safe_read_value_as_string n : safe n read_value_as_string.
Proof.
  intros d Hd _. apply (safe_read_value_as_string_fuel (length (data d)) d Hd), bytes_left_data.
Qed.

Lemma safe_mono {A} n n' (m : dec A) : safe n m -> (n' <= n)%nat -> safe n' m.
Proof. intros Hm Hn d Hd Hl. apply Hm; [done|lia]. Qed.

Lemma safe_read_value n : safe n read_value.
Proof.
  intros d Hd _. unfold read_value.
  refine (safe_after_u8 (length (data d)) _ _ d Hd (bytes_left_data d)).
  intros n' t Hn'. apply safe_read_tagged.
  eapply safe_mono; [apply safe_read_value_as_string_fuel|lia].
Qed.
#[export] Hint Resolve safe_read_value_as_string safe_read_value : rust.

Lemma safe_read_required n e : safe n (read_required read_value_as_string e).
Proof. unfold read_required. safe_auto. Qed.
#[export] Hint Resolve safe_read_required : rust.

Lemma safe_read_attributes n size : safe n (read_attributes size).
Proof. apply safe_repeat. unfold read_attribute. safe_auto. Qed.
#[export] Hint Resolve safe_read_attributes : rust.

Lemma read_u8_ok d b :
  data d !! position d = Some b ->
  read_u8 d = (Ok b, mkDecoder (data d) (position d + 1)).
Proof.
  intros Hb. pose proof (lookup_lt_Some _ _ _ Hb).
  unfold read_u8, mbind', check_eos, byte_at, bytes_left.
  rewrite (proj2 (Nat.leb_le 1 (length (data d) - position d))) by lia.
  rewrite Nat.add_0_r, Hb. done.
Qed.

Lemma read_u8_inv d b d' :
  read_u8 d = (Ok b, d') ->
  data d !! position d = Some b /\ d' = mkDecoder (data d) (position d + 1).
Proof.
  unfold read_u8, mbind', check_eos, byte_at.
  destruct (1 <=? bytes_left d)%nat; [|done]. rewrite Nat.add_0_r.
  destruct (data d !! position d); [|done]. by intros [= -> <-].
Qed.

(** The peeked tag is put back before a string is read. *)
Lemma unread_after_u8 {A} (m : dec A) d b d' :
  read_u8 d = (Ok b, d') -> (unread ;; m) d' = m d.
Proof.
  intros [_ ->]%read_u8_inv. unfold mbind', unread. simpl.
  rewrite Nat.add_sub. by destruct d.
Qed.

Lemma safe_read_content_with n (rn : dec NodeRef) : safe n rn -> safe n (read_content_with rn).
Proof.
  intros Hrn d Hd Hn. unfold safe_at, read_content_with.
  destruct (read_u8 d) as [o d'] eqn:Hr.
  pose proof (safe_read_u8 n d Hd Hn) as (Hret & Hdata & Hpos & Hin). rewrite Hr in *. simpl in *.
  destruct o as [b|e| |]; try done; [|unfold mbind'; rewrite Hr; done].
  rewrite (mbind'_Ok _ _ _ _ _ Hr).
  assert (forall B (m : dec B), safe n m ->
    returns (m d').1 /\ data (m d').2 = data d /\ (position d <= position (m d').2)%nat
    /\ inside (m d').2) as Hgo.
  { intros B m Hm. destruct (Hm d' Hin) as (? & ? & ? & ?).
    { unfold bytes_left in *. rewrite Hdata. lia. }
    repeat split; [done|congruence|lia|done]. }
  repeat match goal with |- context [if ?c then _ else _] => destruct c end;
    try solve [apply Hgo; safe_auto].
  erewrite unread_after_u8 by done.
  enough (safe n (let! string_content := read_value_as_string in
    match string_content with
    | Some s => mret (Some (NR_String s)) | None => mret None end)) as H by by apply H.
  safe_auto.
Qed.

Lemma safe_read_node_ref_fuel fuel : safe fuel (read_node_ref_fuel fuel).
Proof.
  induction fuel as [|f IH]; simpl; apply safe_after_u8; intros n' t [= <-].
  apply safe_read_content_with in IH. safe_auto.
Qed.

(** C34: decoding is total and memory safe on every byte string: it returns a
    node or an error, never panics and never runs out of the recursion bound,
    whatever the input. *)
Theorem unmarshal_ref_total (bs : bytes) : returns (unmarshal_ref bs).
Proof.
  unfold unmarshal_ref, read_node_ref.
  destruct (safe_read_node_ref_fuel (length bs) (decoder_new bs)) as (Hr & _).
  - unfold inside. simpl. lia.
  - apply bytes_left_data.
  - simpl. destruct (read_node_ref_fuel (length bs) (decoder_new bs)) as [o d].
    simpl in Hr. apply returns_bind; [done|]. intros n _. by destruct (is_finished d).
Qed.
