(* ===== verification/Codec.v ===== *)
(** * The codec: encoder and decoder together

    What the decoder reads back from what the encoder wrote.  [wire_value],
    [wire_node] say it for every string and every node; the round trip
    theorems show that decoding computes them, and the stability theorems name
    the strings and nodes the wire format preserves. *)

From S2P Require Import Prelude RustStd Jid Token Node Encoder Decoder.

(** ** Writing and reading a block of bytes *)

(** [m] succeeds and appends exactly [bs]. *)
Definition writes (m : enc unit) (bs : bytes) : Prop := forall w, m w = (Ok tt, w ++ bs).

(** [m], started where [bs] begins, returns [a] and stops where [bs] ends. *)
Definition reads {A} (m : dec A) (bs : bytes) (a : A) : Prop :=
  forall pre post,
    m (mkDecoder (pre ++ bs ++ post) (length pre))
    = (Ok a, mkDecoder (pre ++ bs ++ post) (length pre + length bs)).

Lemma writes_all bs : writes (write_all bs) bs.
Proof. done. Qed.

Lemma writes_u8 b : writes (write_u8 b) [b].
Proof. done. Qed.

Lemma writes_ret : writes (mret tt) [].
Proof. intros w. by rewrite app_nil_r. Qed.

Lemma writes_bind m k a b : writes m a -> writes k b -> writes (m ;; k) (a ++ b).
Proof. intros Hm Hk w. unfold mbind'. by rewrite Hm, Hk, app_assoc. Qed.

Lemma writes_bind_ok {A} (o : outcome BinaryError A) (k : A -> enc unit) a b :
  o = Ok a -> writes (k a) b -> writes (mbind' (mlift o) k) b.
Proof. intros -> Hk w. unfold mbind', mlift. apply Hk. Qed.

Lemma writes_for {A} (f : A -> enc unit) (g : A -> bytes) l :
  Forall (fun x => writes (f x) (g x)) l -> writes (mfor f l) (flat_map g l).
Proof.
  induction 1 as [|x l Hx Hl IH]; simpl; [apply writes_ret|]. by apply writes_bind.
Qed.

Lemma reads_ret {A} (a : A) : reads (mret a) [] a.
Proof. intros pre post. unfold mret. simpl. by rewrite Nat.add_0_r. Qed.

Lemma reads_bind {A B} (m : dec A) (k : A -> dec B) b1 b2 a c :
  reads m b1 a -> reads (k a) b2 c -> reads (mbind' m k) (b1 ++ b2) c.
Proof.
  intros Hm Hk pre post. unfold mbind'. rewrite <- app_assoc, Hm.
  specialize (Hk (pre ++ b1) post). rewrite <- app_assoc, length_app in Hk.
  rewrite Hk. by rewrite length_app, Nat.add_assoc.
Qed.

Lemma reads_bind_nil {A B} (m : dec A) (k : A -> dec B) b a c :
  reads m [] a -> reads (k a) b c -> reads (mbind' m k) b c.
Proof. intros Hm Hk. by apply (reads_bind m k [] b a c). Qed.

Lemma reads_lift {A} (o : outcome BinaryError A) a : o = Ok a -> reads (mlift o) [] a.
Proof. intros -> pre post. unfold mlift. simpl. by rewrite Nat.add_0_r. Qed.

Lemma reads_u8 b : reads read_u8 [b] b.
Proof.
  intros pre post. rewrite (read_u8_ok _ b); [done|]. simpl.
  by rewrite list_lookup_middle.
Qed.

(** A tag byte followed by what its branch reads. *)
Lemma reads_u8_bind {B} (k : u8 -> dec B) t b c :
  reads (k t) b c -> reads (mbind' read_u8 k) (t :: b) c.
Proof. intros Hk. apply (reads_bind read_u8 k [t] b t c (reads_u8 t) Hk). Qed.

Lemma reads_check {A} (m : dec A) len bs a :
  (len <= length bs)%nat -> reads m bs a -> reads (check_eos len ;; m) bs a.
Proof.
  intros Hl Hm pre post. unfold mbind', check_eos, bytes_left. simpl.
  rewrite (proj2 (Nat.leb_le len _)) by (rewrite !length_app; lia). apply Hm.
Qed.

Lemma byte_at_middle pre bs post i b :
  bs !! i = Some b ->
  byte_at i (mkDecoder (pre ++ bs ++ post) (length pre))
  = (Ok b, mkDecoder (pre ++ bs ++ post) (length pre)).
Proof.
  intros Hb. unfold byte_at. simpl.
  rewrite lookup_app_r by lia. rewrite Nat.add_comm, Nat.add_sub.
  by rewrite lookup_app_l, Hb by (by eapply lookup_lt_Some).
Qed.

Lemma reads_u16_be v : 0 <= v < 2 ^ 16 -> reads read_u16_be (u16_to_be_bytes v) v.
Proof.
  intros Hv. apply reads_check; [done|]. intros pre post.
  do 2 (erewrite mbind'_Ok by (by apply byte_at_middle)).
  rewrite u16_be_roundtrip by done. done.
Qed.

Lemma reads_u32_be v : 0 <= v < 2 ^ 32 -> reads read_u32_be (u32_to_be_bytes v) v.
Proof.
  intros Hv. apply reads_check; [done|]. intros pre post.
  do 4 (erewrite mbind'_Ok by (by apply byte_at_middle)).
  rewrite u32_be_roundtrip by done. done.
Qed.

Definition u20_to_be_bytes (v : u32) : bytes :=
  [wrap 8 (Z.land (Z.shiftr v 16) 15); wrap 8 (Z.land (Z.shiftr v 8) 255); wrap 8 (Z.land v 255)].

Lemma u20_be_roundtrip v :
  0 <= v < 2 ^ 20 ->
  Z.lor (Z.lor (Z.shiftl (Z.land (wrap 8 (Z.land (Z.shiftr v 16) 15)) 15) 16)
               (Z.shiftl (wrap 8 (Z.land (Z.shiftr v 8) 255)) 8))
        (wrap 8 (Z.land v 255)) = v.
Proof.
  intros Hv. unfold wrap. change 15 with (Z.ones 4). change 255 with (Z.ones 8).
  rewrite !Z.land_ones, !Z.shiftr_div_pow2 by lia.
  set (a := _ mod 2 ^ 4). set (b := _ mod 2 ^ 8). set (c := _ mod 2 ^ 8).
  assert (0 <= b < 2 ^ 8 /\ 0 <= c < 2 ^ 8) as (Hb & Hc)
    by (split; apply Z.mod_pos_bound; lia).
  replace (Z.shiftl a 16) with (Z.shiftl (Z.shiftl a 8) 8)
    by (by rewrite Z.shiftl_shiftl by lia).
  rewrite <- Z.shiftl_lor, !lor_shiftl_add by lia. subst a b c.
  change (2 ^ 20) with 1048576 in *. change (2 ^ 16) with 65536.
  change (2 ^ 8) with 256. change (2 ^ 4) with 16.
  Z.div_mod_to_equations. lia.
Qed.

Lemma writes_u20_be v : writes (write_u20_be v) (u20_to_be_bytes v).
Proof. intros w. unfold write_u20_be, mbind', write_all. by rewrite <- !app_assoc. Qed.

Lemma reads_u20_be v : 0 <= v < 2 ^ 20 -> reads read_u20_be (u20_to_be_bytes v) v.
Proof.
  intros Hv. apply reads_check; [done|]. intros pre post.
  do 3 (erewrite mbind'_Ok by (by apply byte_at_middle)).
  rewrite u20_be_roundtrip by done. done.
Qed.

Lemma reads_bytes bs : reads (read_bytes (length bs)) bs bs.
Proof.
  apply reads_check; [done|]. intros pre post. unfold mbind'. simpl.
  rewrite (proj2 (Nat.leb_le _ _)) by (rewrite !length_app; lia).
  simpl. unfold slice. rewrite Nat.add_comm, Nat.add_sub.
  rewrite drop_app_length, take_app_length. by rewrite Nat.add_comm.
Qed.

Lemma reads_string s : utf8_valid s = true -> reads (read_string (length s)) s s.
Proof.
  intros Hs. unfold read_string. rewrite <- (app_nil_r s) at 2.
  eapply reads_bind; [apply reads_bytes|]. apply reads_lift. by rewrite from_utf8_valid.
Qed.

(** ** Length-prefixed blocks *)

Definition len_header (n : Z) : bytes :=
  if n <? 256 then [BINARY_8; wrap 8 n]
  else if n <? Z.shiftl 1 20 then BINARY_20 :: u20_to_be_bytes (wrap 32 n)
  else BINARY_32 :: u32_to_be_bytes (wrap 32 n).

Lemma writes_bytes_with_len bs :
  writes (write_bytes_with_len bs) (len_header (Z.of_nat (length bs)) ++ bs).
Proof.
  unfold write_bytes_with_len, len_header. apply writes_bind; [|apply writes_all].
  destruct (_ <? 256); [apply (writes_bind _ _ [_] [_]); apply writes_u8|].
  destruct (_ <? _); apply (writes_bind _ _ [_]);
    (apply writes_u8 || apply writes_u20_be || apply writes_all).
Qed.

(** The header announces the block's length, on every branch of a reader that
    treats the three header tags alike. *)
Lemma reads_len_header {B} (k : u8 -> dec B) (r : usize -> dec B) n bs c :
  Z.of_nat n < 2 ^ 32 ->
  k BINARY_8 = (let! size := read_u8 in r (Z.to_nat size)) ->
  k BINARY_20 = (let! size := read_u20_be in r (Z.to_nat size)) ->
  k BINARY_32 = (let! size := read_u32_be in r (Z.to_nat size)) ->
  reads (r n) bs c ->
  reads (mbind' read_u8 k) (len_header (Z.of_nat n) ++ bs) c.
Proof.
  intros Hn H8 H20 H32 Hr. unfold len_header.
  assert (forall v, v = Z.of_nat n -> r (Z.to_nat v) = r n) as Hv
    by (intros v ->; by rewrite Nat2Z.id).
  destruct (Z.ltb_spec (Z.of_nat n) 256).
  - cbn [app]. apply reads_u8_bind. rewrite H8. apply reads_u8_bind.
    by rewrite Hv by (apply wrap_small; lia).
  - change (Z.shiftl 1 20) with (2 ^ 20).
    rewrite (wrap_small 32) by lia.
    destruct (Z.ltb_spec (Z.of_nat n) (2 ^ 20)); cbn [app].
    + apply reads_u8_bind. rewrite H20.
      apply (reads_bind _ _ (u20_to_be_bytes _) _ (Z.of_nat n)); [apply reads_u20_be; lia|].
      by rewrite Hv.
    + apply reads_u8_bind. rewrite H32.
      apply (reads_bind _ _ (u32_to_be_bytes _) _ (Z.of_nat n)); [apply reads_u32_be; lia|].
      by rewrite Hv.
Qed.

(** ** Packed strings *)

Definition packer_of (t : u8) : u8 -> outcome BinaryError u8 :=
  if t =? NIBBLE_8 then pack_nibble else pack_hex.

(** The characters each packed form accepts. *)
Definition packed_char (t : u8) (c : u8) : bool :=
  if t =? NIBBLE_8 then is_ascii_digit c || (c =? DASH) || (c =? DOT)
  else is_ascii_hexdigit c && (is_ascii_uppercase c || is_ascii_digit c).

(** The value the vector code computes for one lane. *)
Definition pack_lane (t : u8) (c : u8) : u8 :=
  if t =? NIBBLE_8 then
    if c =? 0 then 15
    else (if Z.max 0 (c - 45) <? 16 then nth (Z.to_nat (Z.max 0 (c - 45))) NIBBLE_PACK_LOOKUP 0 else 0)
  else if 65 <=? c then wrap 8 (wrap 8 (c - 65) + 10) else wrap 8 (c - 48).

Definition pack_pair (a b : u8) : u8 := Z.lor (wrap 8 (Z.shiftl a 4)) b.

(** Two lanes per byte; a missing second character is packed as 15. *)
Fixpoint pack_pairs (l : list u8) : list u8 :=
  match l with
  | [] => []
  | [a] => [pack_pair a 15]
  | a :: b :: l' => pack_pair a b :: pack_pairs l'
  end.

(** One character: the scalar packer, the vector lane and the unpacker. *)
Definition char_check (t c : u8) : bool :=
  negb (packed_char t c)
  || (match packer_of t c with Ok v => v =? pack_lane t c | _ => false end
      && in_range 0 15 (pack_lane t c)
      && match unpack_byte t (pack_lane t c) with Ok c' => c' =? c | _ => false end).

Lemma char_check_all :
  forallb (fun c => char_check NIBBLE_8 c && char_check HEX_8 c) (map Z.of_nat (List.seq 0 128)) = true.
Proof. vm_compute. reflexivity. Qed.

Lemma packed_char_ascii t c : packed_char t c = true -> 0 <= c <= 127.
Proof.
  unfold packed_char, is_ascii_digit, is_ascii_hexdigit, in_range, DASH, DOT.
  destruct (t =? NIBBLE_8); lia.
Qed.

Lemma packed_char_spec t c :
  packed_tag t -> packed_char t c = true ->
  packer_of t c = Ok (pack_lane t c) /\ 0 <= pack_lane t c <= 15
  /\ unpack_byte t (pack_lane t c) = Ok c.
Proof.
  intros Ht Hc. pose proof (packed_char_ascii _ _ Hc).
  pose proof char_check_all as Hall. rewrite forallb_forall in Hall.
  specialize (Hall c). rewrite andb_true_iff in Hall.
  destruct Hall as [Hn Hh].
  { apply in_map_iff. exists (Z.to_nat c). split; [lia|]. apply in_seq. lia. }
  assert (char_check t c = true) as H0 by by destruct Ht as [-> | ->].
  unfold char_check in H0. rewrite Hc in H0. cbn [negb orb] in H0.
  apply andb_true_iff in H0 as [H0 Hu]. apply andb_true_iff in H0 as [Hp Hr].
  apply in_range_spec in Hr. split_and!; try done; try lia.
  - destruct (packer_of t c); try done. f_equal. lia.
  - destruct (unpack_byte t (pack_lane t c)); try done. f_equal. lia.
Qed.

Lemma packer_pad t : packed_tag t -> packer_of t 0 = Ok 15.
Proof. by intros [-> | ->]. Qed.

Lemma unpack_pad t : packed_tag t -> exists c, unpack_byte t 15 = Ok c.
Proof. intros [-> | ->]; by eexists. Qed.

Lemma pack_pair_add a b : 0 <= a <= 15 -> 0 <= b <= 15 -> pack_pair a b = a * 16 + b.
Proof.
  intros Ha Hb. unfold pack_pair. rewrite wrap_small.
  - rewrite lor_shiftl_add by lia. lia.
  - rewrite Z.shiftl_mul_pow2 by lia. lia.
Qed.

Lemma pack_pair_nibbles a b :
  0 <= a <= 15 -> 0 <= b <= 15 ->
  high_nibble (pack_pair a b) = a /\ low_nibble (pack_pair a b) = b.
Proof.
  intros Ha Hb. rewrite pack_pair_add by done. rewrite <- high_nibble_alt.
  unfold low_nibble. change 15 with (Z.ones 4) in |- *.
  rewrite !Z.land_ones, Z.shiftr_div_pow2 by lia. change (2 ^ 4) with 16.
  Z.div_mod_to_equations. lia.
Qed.

Lemma pack_pairs_app a b :
  Nat.Even (length a) -> pack_pairs (a ++ b) = pack_pairs a ++ pack_pairs b.
Proof.
  intros [k Hk]. revert a Hk. induction k as [|k IH]; intros [|x [|y a]] Hk; simpl in *;
    try done; try lia.
  f_equal. apply IH. lia.
Qed.

Lemma pack_pairs_length l : length (pack_pairs l) = ((length l + 1) / 2)%nat.
Proof.
  induction l as [l IH] using (induction_ltof1 _ (@length _)). unfold ltof in IH.
  destruct l as [|a [|b l]]; [done..|]. cbn [pack_pairs length].
  rewrite IH by (simpl; lia).
  replace (S (S (length l)) + 1)%nat with (length l + 1 + 1 * 2)%nat by lia.
  rewrite Nat.div_add by lia. lia.
Qed.

Lemma pack_byte_pair_ok packer a b x y :
  packer a = Ok x -> packer b = Ok y -> pack_byte_pair packer a b = Ok (pack_pair x y).
Proof. intros Ha Hb. unfold pack_byte_pair. by rewrite Ha, Hb. Qed.

Lemma writes_pack_chars t cs :
  packed_tag t -> forallb (packed_char t) cs = true ->
  writes (pack_chars (packer_of t) cs) (pack_pairs (map (pack_lane t) cs)).
Proof.
  intros Ht. induction cs as [cs IH] using (induction_ltof1 _ (@length _)). unfold ltof in IH.
  destruct cs as [|a [|b cs]]; cbn [forallb pack_chars map pack_pairs].
  - intros _. apply writes_ret.
  - rewrite andb_true_r. intros Ha. apply packed_char_spec in Ha as (Ha & _); [|done].
    eapply writes_bind_ok; [|apply writes_u8].
    apply pack_byte_pair_ok; [done|by apply packer_pad].
  - intros (Ha & Hb & Hcs)%andb_true_iff%(fun p => conj (proj1 p)
      (proj1 (andb_true_iff _ _) (proj2 p))).
    apply packed_char_spec in Ha as (Ha & _); [|done].
    apply packed_char_spec in Hb as (Hb & _); [|done].
    eapply writes_bind_ok; [by apply pack_byte_pair_ok|].
    apply (writes_bind _ _ [_]); [apply writes_u8|]. apply IH; [simpl; lia|done].
Qed.

(** The lanes of one vector iteration. *)
Lemma simd_lanes t input :
  (let nibbles :=
     if t =? NIBBLE_8 then
       swizzle_dyn NIBBLE_PACK_LOOKUP (map (fun x => Z.max 0 (x - 45)) input)
     else
       map (fun x => if 65 <=? x then wrap 8 (wrap 8 (x - 65) + 10) else wrap 8 (x - 48)) input in
   if t =? NIBBLE_8 then zip_with (fun x n => if x =? 0 then 15 else n) input nibbles
   else nibbles) = map (pack_lane t) input.
Proof.
  unfold pack_lane, swizzle_dyn. cbv zeta. destruct (t =? NIBBLE_8); [|done].
  induction input as [|x input IH]; [done|]. cbn [map zip_with]. f_equal. apply IH.
Qed.

Lemma pack_chunk_lanes t input :
  length input = 16%nat ->
  pack_chunk_simd t input = pack_pairs (map (pack_lane t) input).
Proof.
  intros Hl. pose proof (simd_lanes t input) as Hn. cbv zeta in Hn.
  unfold pack_chunk_simd. cbv zeta. rewrite Hn. clear Hn.
  assert (length (map (pack_lane t) input) = 16%nat) as Hm by by rewrite length_map.
  revert Hm. generalize (map (pack_lane t) input). clear. intros v Hv.
  do 16 (destruct v as [|? v]; [simpl in Hv; lia|]).
  destruct v; [|simpl in Hv; lia]. reflexivity.
Qed.

Lemma forallb_app_true {A} (p : A -> bool) a b :
  forallb p (a ++ b) = true <-> forallb p a = true /\ forallb p b = true.
Proof. by rewrite forallb_app, andb_true_iff. Qed.

Lemma pack_chunks_lanes t cs rest :
  Forall (fun c => length c = 16%nat) cs ->
  flat_map (pack_chunk_simd t) cs ++ pack_pairs (map (pack_lane t) rest)
  = pack_pairs (map (pack_lane t) (mjoin cs ++ rest)).
Proof.
  induction 1 as [|c cs Hc Hcs IH]; [done|].
  change (mjoin (c :: cs)) with (c ++ mjoin cs). cbn [flat_map].
  rewrite <- !app_assoc, IH, pack_chunk_lanes by done.
  rewrite (map_app _ c), pack_pairs_app; [done|].
  rewrite length_map, Hc. by exists 8%nat.
Qed.

Lemma packed_utf8 t s : forallb (packed_char t) s = true -> utf8_valid s = true.
Proof.
  intros Hs. apply utf8_valid_ascii, Forall_forall. intros c Hc.
  apply (packed_char_ascii t). rewrite forallb_forall in Hs. by apply Hs, list_elem_of_In.
Qed.

Definition packed_len_byte (n : Z) : u8 :=
  let r := wrap 8 ((n + 1) / 2) in if negb (n mod 2 =? 0) then Z.lor r 128 else r.

(** The block of a packed string: tag, length byte, two characters a byte. *)
Definition packed_block (t : u8) (s : str) : bytes :=
  [t; packed_len_byte (Z.of_nat (length s))] ++ pack_pairs (map (pack_lane t) s).

Lemma writes_packed t s :
  packed_tag t -> forallb (packed_char t) s = true -> Z.of_nat (length s) <= 127 ->
  writes (write_packed_bytes s t) (packed_block t s).
Proof.
  intros Ht Hs Hl. unfold write_packed_bytes, PACKED_MAX.
  destruct (Z.ltb_spec 127 (Z.of_nat (length s))); [lia|].
  unfold packed_block. apply (writes_bind _ _ [_]); [apply writes_u8|].
  apply (writes_bind _ _ [_]); [apply writes_u8|].
  pose proof (as_chunks_concat 16 s) as Hcat. pose proof (as_chunks_length 16 s) as Hlen.
  destruct (as_chunks 16 s) as [cs r]. simpl in *. rewrite <- Hcat.
  rewrite <- pack_chunks_lanes by done.
  rewrite <- Hcat in Hs. apply forallb_app_true in Hs as [_ Hr].
  apply writes_bind.
  - apply writes_for, Forall_forall. intros c _. apply writes_all.
  - eapply writes_bind_ok; [by rewrite from_utf8_valid by (by eapply packed_utf8)|].
    by apply writes_pack_chars.
Qed.

(** Unpacking what was packed gives the characters, plus the pad. *)
Lemma unpack_pack t s :
  packed_tag t -> forallb (packed_char t) s = true ->
  exists pad, unpack_scalar t (pack_pairs (map (pack_lane t) s)) = Ok (s ++ pad)
              /\ length pad = (length s mod 2)%nat.
Proof.
  intros Ht. induction s as [s IH] using (induction_ltof1 _ (@length _)). unfold ltof in IH.
  destruct s as [|a [|b s]]; cbn [forallb map pack_pairs unpack_scalar].
  - intros _. by exists [].
  - rewrite andb_true_r. intros Ha. apply packed_char_spec in Ha as (_ & Ha & Hu); [|done].
    destruct (pack_pair_nibbles (pack_lane t a) 15 Ha) as [-> ->]; [lia|].
    destruct (unpack_pad t Ht) as [c Hc]. rewrite Hu, Hc. by exists [c].
  - intros (Ha & Hb & Hs)%andb_true_iff%(fun p => conj (proj1 p)
      (proj1 (andb_true_iff _ _) (proj2 p))).
    apply packed_char_spec in Ha as (_ & Ha & Hua); [|done].
    apply packed_char_spec in Hb as (_ & Hb & Hub); [|done].
    destruct (pack_pair_nibbles _ _ Ha Hb) as [-> ->]. rewrite Hua, Hub. cbn [obind].
    destruct (IH s) as (pad & -> & Hpad); [simpl; lia|done|].
    exists pad. split; [done|]. rewrite Hpad. cbn [length].
    rewrite <- (Nat.Div0.mod_add (length s) 1 2). f_equal. lia.
Qed.

Definition packed_len_check (n : Z) : bool :=
  (Z.land (packed_len_byte n) 127 =? (n + 1) / 2)
  && Bool.eqb (negb (Z.land (packed_len_byte n) 128 =? 0)) (negb (n mod 2 =? 0)).

Lemma packed_len_check_all : forallb packed_len_check (map Z.of_nat (List.seq 0 128)) = true.
Proof. vm_compute. reflexivity. Qed.

Lemma packed_len_spec n :
  (n <= 127)%nat ->
  Z.to_nat (Z.land (packed_len_byte (Z.of_nat n)) 127) = ((n + 1) / 2)%nat
  /\ negb (Z.land (packed_len_byte (Z.of_nat n)) 128 =? 0) = negb (n mod 2 =? 0)%nat.
Proof.
  intros Hn. pose proof packed_len_check_all as H. rewrite forallb_forall in H.
  specialize (H (Z.of_nat n)). unfold packed_len_check in H.
  rewrite andb_true_iff, Bool.eqb_true_iff in H. destruct H as [H1 ->].
  { apply in_map, in_seq. lia. }
  apply Z.eqb_eq in H1 as ->. split.
  - change 1 with (Z.of_nat 1). change 2 with (Z.of_nat 2).
    rewrite <- Nat2Z.inj_add, <- Nat2Z.inj_div. lia.
  - change 2 with (Z.of_nat 2). rewrite <- Nat2Z.inj_mod.
    destruct (Nat.eqb_spec (n mod 2) 0) as [->|]; [done|].
    destruct (Z.eqb_spec (Z.of_nat (n mod 2)) 0); [lia|done].
Qed.

Lemma reads_packed t s :
  packed_tag t -> forallb (packed_char t) s = true -> Z.of_nat (length s) <= 127 -> s <> [] ->
  reads (read_packed t)
    (packed_len_byte (Z.of_nat (length s)) :: pack_pairs (map (pack_lane t) s)) s.
Proof.
  intros Ht Hs Hl Hne. unfold read_packed. apply reads_u8_bind.
  destruct (packed_len_spec (length s)) as [-> ->]; [lia|].
  assert (length s <> 0)%nat by by destruct s.
  destruct (Nat.eqb_spec ((length s + 1) / 2) 0) as [E|_].
  { apply Nat.div_small_iff in E; lia. }
  set (packed := pack_pairs (map (pack_lane t) s)).
  assert (length packed = ((length s + 1) / 2)%nat) as <-
    by (subst packed; by rewrite pack_pairs_length, length_map).
  rewrite <- (app_nil_r packed) at 2. eapply reads_bind; [apply reads_bytes|].
  pose proof (unpack_all_scalar t packed Ht) as Hall.
  destruct (as_chunks 16 packed) as [cs r]. simpl in Hall.
  destruct (unpack_pack t s Ht Hs) as (pad & Hun & Hpad). fold packed in Hun. rewrite Hun in Hall.
  destruct (unpack_chunks t cs) as [a|e| |] eqn:Ha; try done. simpl in Hall.
  destruct (unpack_scalar t r) as [b|e| |] eqn:Hb; try done. simpl in Hall.
  injection Hall as Hab.
  eapply reads_bind_nil; [by apply reads_lift|]. eapply reads_bind_nil; [by apply reads_lift|].
  cbv zeta. rewrite Hab.
  replace (if negb (length s mod 2 =? 0)%nat then _ else _) with s.
  - apply reads_lift. by rewrite from_utf8_valid by (by eapply packed_utf8).
  - pose proof (Nat.mod_upper_bound (length s) 2 ltac:(lia)).
    destruct (Nat.eqb_spec (length s mod 2) 0) as [E|E]; simpl.
    + rewrite E in Hpad. apply nil_length_inv in Hpad as ->. by rewrite app_nil_r.
    + rewrite length_app, Hpad. replace (length s mod 2)%nat with 1%nat by lia.
      rewrite Nat.add_sub. by rewrite take_app_length.
Qed.

(** ** Strings on the wire *)

(** The strings with an encoding of their own: empty, token, packed. *)
Definition is_compressed (s : str) : bool :=
  (s =s [])
  || match index_of_single_token s with Some _ => true | None => false end
  || match index_of_double_byte_token s with Some _ => true | None => false end
  || validate_nibble s || validate_hex s.

(** What decoding makes of a string the encoder takes for a JID, over what it
    makes of the shorter strings inside. *)
Definition wire_jid_with (wire_str : str -> str) (j : ParsedJid) : JidRef :=
  match pj_device j with
  | Some d =>
      let dt := pj_domain_type j in
      mkJidRef (pj_user j)
        (if dt =? 0 then DEFAULT_USER_SERVER
         else if dt =? 1 then HIDDEN_USER_SERVER
         else HOSTED_SERVER) dt (wrap 8 d) 0
  | None => mkJidRef (pj_user j) (wire_str (pj_server j)) 0 0 0
  end.

Fixpoint wire_str_fuel (fuel : nat) (s : str) : str :=
  if is_compressed s then s
  else match parse_jid s, fuel with
       | Some j, S f => jidref_to_string (wire_jid_with (wire_str_fuel f) j)
       | _, _ => s
       end.

(** The string [read_value_as_string] returns for an encoded [s], and the
    value [read_value] returns. *)
Definition wire_str (s : str) : str := wire_str_fuel (length s) s.
Definition wire_value (s : str) : ValueRef :=
  if is_compressed s then VR_String s
  else match parse_jid s with
       | Some j => VR_Jid (wire_jid_with wire_str j)
       | None => VR_String s
       end.

(** The parts of a parsed JID are pieces of the string. *)
Lemma parse_jid_parts s j :
  parse_jid s = Some j ->
  (length (pj_user j) < length s)%nat /\ (length (pj_server j) < length s)%nat
  /\ str_free AT (pj_user j) = true /\ str_free COLON (pj_user j) = true
  /\ (utf8_valid s = true -> utf8_valid (pj_user j) = true /\ utf8_valid (pj_server j) = true)
  /\ 0 <= pj_domain_type j < 2 ^ 8.
Proof.
  unfold parse_jid. destruct (str_find AT s) as [i|] eqn:Hi; [|done].
  apply str_find_split in Hi as [Hs Hfree].
  set (uc := take i s) in *. set (srv := drop (S i) s) in *. clearbody uc srv. subst s.
  (* the part before a separator *)
  assert (forall c u, 0 <= c <= 127 -> c <> AT ->
    let u' := match split_once c u with Some (a, _) => a | None => u end in
    (length u' <= length u)%nat /\ (str_free AT u = true -> str_free AT u' = true)
    /\ (str_free COLON u = true -> str_free COLON u' = true)
    /\ (utf8_valid u = true -> utf8_valid u' = true)
    /\ str_free c u' = true) as Hpart.
  { intros c u Hc Hne. destruct (split_once c u) as [[a b]|] eqn:Hu; simpl.
    - apply split_once_Some in Hu as [-> Hf]. rewrite !str_free_app, length_app. split; [lia|].
      split; [by intros [? ?]%andb_true_iff|]. split; [by intros [? ?]%andb_true_iff|].
      split; [by intros [? ?]%utf8_valid_split|done].
    - repeat split; auto. destruct (str_free c u) eqn:Hf; [done|]. exfalso.
      unfold split_once in Hu. apply fmap_None in Hu. apply str_free_find in Hu. congruence. }
  pose proof (Hpart COLON uc ltac:(done) ltac:(done)) as (Hl1 & Ha1 & Hc1 & Hu1 & Hf1).
  set (ua := match split_once COLON uc with Some (a, _) => a | None => uc end) in *.
  pose proof (Hpart UNDERSCORE ua ltac:(done) ltac:(done)) as (Hl2 & Ha2 & Hc2 & Hu2 & Hf2).
  set (u := match split_once UNDERSCORE ua with Some (a, _) => a | None => ua end) in *.
  intros Hj.
  assert (pj_user j = u /\ pj_server j = srv /\ 0 <= pj_domain_type j < 2 ^ 8) as (-> & -> & Hdt).
  { subst ua u. destruct (split_once COLON uc) as [[? ?]|];
      destruct (split_once UNDERSCORE _) as [[? ?]|]; injection Hj as <-; simpl;
      (split; [done|split; [done|]]); repeat (case_match; [lia|]); apply wrap_bound; lia. }
  rewrite length_app. simpl. split_and!; try lia; auto.
  intros [? ?]%utf8_valid_split; [|done]. auto.
Qed.

Lemma parse_jid_None s : str_free AT s = true -> parse_jid s = None.
Proof. intros H%str_free_find. unfold parse_jid. by rewrite H. Qed.

Lemma wire_str_fuel_plain f s : parse_jid s = None -> wire_str_fuel f s = s.
Proof. intros H. destruct f; simpl; rewrite H; by destruct (is_compressed s). Qed.

(** Any fuel from the string's length on gives the same string. *)
Lemma wire_str_fuel_enough f g s :
  (length s <= f)%nat -> (length s <= g)%nat -> wire_str_fuel f s = wire_str_fuel g s.
Proof.
  revert g s. induction f as [|f IH]; intros [|g] s Hf Hg.
  1-3: (destruct s as [|c s]; [done|simpl in *; lia]).
  cbn [wire_str_fuel]. destruct (is_compressed s); [done|].
  destruct (parse_jid s) as [j|] eqn:Hj; [|done].
  apply parse_jid_parts in Hj as (Hu & Hs & _). f_equal.
  unfold wire_jid_with. destruct (pj_device j); [done|].
  f_equal. apply IH; lia.
Qed.

Lemma wire_str_unfold s :
  wire_str s =
  if is_compressed s then s
  else match parse_jid s with
       | Some j => jidref_to_string (wire_jid_with wire_str j)
       | None => s
       end.
Proof.
  unfold wire_str. destruct (length s) as [|n] eqn:Hn.
  { apply nil_length_inv in Hn as ->. done. }
  cbn [wire_str_fuel]. destruct (is_compressed s); [done|].
  destruct (parse_jid s) as [j|] eqn:Hj; [|done].
  apply parse_jid_parts in Hj as (Hu & Hs & _). f_equal.
  unfold wire_jid_with. destruct (pj_device j); [done|].
  f_equal. apply wire_str_fuel_enough; lia.
Qed.

Lemma wire_value_str s : to_string_cow (wire_value s) = wire_str s.
Proof.
  rewrite wire_str_unfold. unfold wire_value.
  destruct (is_compressed s); [done|]. by destruct (parse_jid s).
Qed.

(** What a reader returns for an encoded [s], over what it makes of a string
    and of a JID. *)
Definition wire_with {V} (on_str : str -> V) (on_jid : JidRef -> V) (s : str) : V :=
  if is_compressed s then on_str s
  else match parse_jid s with
       | Some j => on_jid (wire_jid_with wire_str j)
       | None => on_str s
       end.

(** A value reader with recursion bound [g] behind the tag byte. *)
Definition read_tag {V} (on_str : str -> V) (on_jid : JidRef -> V) (g : nat) : dec (option V) :=
  let! t := read_u8 in
  read_tagged on_str on_jid (Some (read_value_as_string_fuel g)) t.

(** Every value reader with a sufficient bound reads [bs] as the string [s]. *)
Definition reads_as (bs : bytes) (s : str) : Prop :=
  forall V (on_str : str -> V) on_jid g,
    (length bs <= S g)%nat ->
    reads (read_tag on_str on_jid g) bs (Some (wire_with on_str on_jid s)).

(** Strings sent as a length-prefixed block of bytes. *)
Definition is_raw (s : str) : bool :=
  (s =s []) || (negb (is_compressed s) && match parse_jid s with None => true | _ => false end).

(** Tags that [read_content] hands to the string reader. *)
Definition content_tag (t : u8) : bool :=
  negb ((t =? LIST_EMPTY) || (t =? LIST_8) || (t =? LIST_16)
        || (t =? BINARY_8) || (t =? BINARY_20) || (t =? BINARY_32)).

(** The block of an encoded string. *)
Definition string_block (s : str) (bs : bytes) : Prop :=
  reads_as bs s /\ bs <> []
  /\ (if is_raw s then bs = len_header (Z.of_nat (length s)) ++ s
      else exists t r, bs = t :: r /\ content_tag t = true).

Lemma is_compressed_cases s :
  is_compressed s = true ->
  s = [] \/ s <> [] /\
  ((exists t, index_of_single_token s = Some t)
   \/ index_of_single_token s = None /\ (exists d, index_of_double_byte_token s = Some d)
   \/ index_of_single_token s = None /\ index_of_double_byte_token s = None
      /\ (validate_nibble s = true \/ validate_nibble s = false /\ validate_hex s = true)).
Proof.
  unfold is_compressed. case_streq; [by left|]. simpl. intros H. right. split; [done|].
  destruct (index_of_single_token s); [by left; eexists|].
  destruct (index_of_double_byte_token s); [by right; left; split; [|eexists]|].
  right; right. simpl in H. repeat split; auto.
  destruct (validate_nibble s); [by left|right]. done.
Qed.

Lemma is_compressed_false s :
  is_compressed s = false ->
  s <> [] /\ index_of_single_token s = None /\ index_of_double_byte_token s = None
  /\ validate_nibble s = false /\ validate_hex s = false.
Proof.
  unfold is_compressed. case_streq; [done|]. simpl.
  destruct (index_of_single_token s); [done|].
  destruct (index_of_double_byte_token s); [done|]. simpl.
  by intros [? ?]%orb_false_iff.
Qed.

(** Decide the tag tests of a reader whose tag's range is known. *)
Ltac tag_tests :=
  unfold LIST_EMPTY, LIST_8, LIST_16, BINARY_8, BINARY_20, BINARY_32, JID_PAIR, AD_JID,
    INTEROP_JID, FB_JID, NIBBLE_8, HEX_8, DICTIONARY_0, DICTIONARY_3 in *;
  repeat match goal with
  | |- context [?a =? ?b] =>
      first [ rewrite (proj2 (Z.eqb_neq a b)) by lia | rewrite (proj2 (Z.eqb_eq a b)) by lia ]
  end; cbn [orb negb andb].

Lemma wire_with_compressed {V} (os : str -> V) oj s :
  is_compressed s = true -> wire_with os oj s = os s.
Proof. unfold wire_with. by intros ->. Qed.

Lemma is_raw_compressed s : is_compressed s = true -> s <> [] -> is_raw s = false.
Proof. unfold is_raw. intros -> H. by rewrite (proj2 (bytes_eqb_neq _ _) H). Qed.

Lemma single_token_block s t :
  s <> [] -> index_of_single_token s = Some t -> string_block s [t].
Proof.
  intros Hne Ht. pose proof (index_of_single_token_range _ _ Ht) as Hr.
  assert (is_compressed s = true) as Hc by (unfold is_compressed; rewrite Ht; by destruct (s =s [])).
  split; [|split; [done|]].
  - intros V os oj g _. rewrite wire_with_compressed by done.
    apply reads_u8_bind. unfold read_tagged. tag_tests.
    replace (in_range 236 239 t) with false by (unfold in_range; lia).
    apply index_of_single_token_iff in Ht as (_ & _ & ->). apply reads_ret.
  - rewrite is_raw_compressed by done. exists t, []. split; [done|]. unfold content_tag.
    by tag_tests.
Qed.

Lemma double_token_block s d i :
  s <> [] -> index_of_double_byte_token s = Some (d, i) ->
  string_block s [DICTIONARY_0 + d; i].
Proof.
  intros Hne Ht. pose proof (index_of_double_byte_token_range _ _ _ Ht) as [Hd Hi].
  assert (is_compressed s = true) as Hc
    by (unfold is_compressed; rewrite Ht; by destruct (s =s []), (index_of_single_token s)).
  split; [|split; [done|]].
  - intros V os oj g _. rewrite wire_with_compressed by done.
    apply reads_u8_bind. unfold read_tagged. tag_tests.
    replace (in_range 236 239 (236 + d)) with true by (unfold in_range; lia).
    apply reads_u8_bind. replace (236 + d - 236) with d by lia.
    apply index_of_double_byte_token_iff in Ht as (_ & _ & ->). apply reads_ret.
  - rewrite is_raw_compressed by done. eexists _, _. split; [done|]. unfold content_tag.
    by tag_tests.
Qed.

Lemma packed_string_block t s :
  packed_tag t -> forallb (packed_char t) s = true -> Z.of_nat (length s) <= 127 -> s <> [] ->
  is_compressed s = true -> string_block s (packed_block t s).
Proof.
  intros Ht Hs Hl Hne Hc. split; [|split; [done|]].
  - intros V os oj g _. rewrite wire_with_compressed by done.
    unfold packed_block. cbn [app]. apply reads_u8_bind.
    assert (read_tagged os oj (Some (read_value_as_string_fuel g)) t
      = (let! s := read_packed t in mret (Some (os s)))) as -> by (by destruct Ht as [-> | ->]).
    rewrite <- (app_nil_r (_ :: _)). eapply reads_bind; [by apply reads_packed|apply reads_ret].
  - rewrite is_raw_compressed by done. eexists _, _. split; [done|].
    by destruct Ht as [-> | ->].
Qed.

Lemma raw_block s :
  is_raw s = true -> utf8_valid s = true -> Z.of_nat (length s) < 2 ^ 32 ->
  string_block s (len_header (Z.of_nat (length s)) ++ s).
Proof.
  intros Hraw Hs Hl. split; [|split; [|by rewrite Hraw]].
  - intros V os oj g _.
    assert (wire_with os oj s = os s) as ->.
    { unfold is_raw in Hraw. unfold wire_with.
      destruct (is_compressed s) eqn:Hc; [done|]. destruct (parse_jid s); [|done].
      destruct (bytes_eqb_spec s []) as [->|]; done. }
    apply (reads_len_header _ (fun n => let! s := read_string n in mret (Some (os s)))); try done.
    rewrite <- (app_nil_r s) at 2. eapply reads_bind; [by apply reads_string|apply reads_ret].
  - unfold len_header. by repeat case_match.
Qed.

Lemma reads_as_string bs s g :
  reads_as bs s -> bs <> [] -> (length bs <= g)%nat ->
  reads (read_value_as_string_fuel g) bs (Some (wire_str s)).
Proof.
  intros Has Hne Hg. destruct g as [|g]; [by destruct bs; [|simpl in *; lia]|].
  replace (wire_str s) with (wire_with (fun s => s) jidref_to_string s)
    by (by rewrite wire_str_unfold).
  by apply Has.
Qed.

(** Any value reader reads what a JID writer wrote, given the blocks of the
    strings inside. *)
Lemma jid_block_device s j d ub :
  is_compressed s = false -> parse_jid s = Some j -> pj_device j = Some d ->
  string_block (pj_user j) ub ->
  string_block s (AD_JID :: pj_domain_type j :: wrap 8 d :: ub).
Proof.
  intros Hc Hj Hd (Has & Hne & _).
  pose proof (parse_jid_parts s j Hj) as (_ & _ & Hfree & _).
  split; [|split; [done|]].
  - intros V os oj g Hg. simpl in Hg. unfold wire_with. rewrite Hc, Hj.
    apply reads_u8_bind. unfold read_tagged. tag_tests.
    rewrite <- (app_nil_r (_ :: _)). eapply reads_bind; [|apply reads_ret].
    unfold read_ad_jid. apply reads_u8_bind, reads_u8_bind.
    unfold wire_jid_with. rewrite Hd. cbv zeta.
    rewrite <- (app_nil_r ub). eapply reads_bind; [|apply reads_ret].
    unfold read_required. rewrite <- (app_nil_r ub).
    eapply reads_bind; [apply (reads_as_string ub (pj_user j)); [done|done|lia]|].
    unfold wire_str. rewrite wire_str_fuel_plain by (by apply parse_jid_None). apply reads_ret.
  - unfold is_raw. rewrite Hc, Hj. destruct (bytes_eqb_spec s []) as [->|]; [done|].
    simpl. by eexists _, _.
Qed.

Lemma jid_block_pair s j ub sb :
  is_compressed s = false -> parse_jid s = Some j -> pj_device j = None ->
  (if pj_user j =s [] then ub = [LIST_EMPTY] else string_block (pj_user j) ub) ->
  string_block (pj_server j) sb ->
  string_block s (JID_PAIR :: ub ++ sb).
Proof.
  intros Hc Hj Hd Hub (Has & Hne & _).
  pose proof (parse_jid_parts s j Hj) as (_ & _ & Hfree & _).
  assert (length sb <> 0)%nat by (by destruct sb).
  split; [|split; [done|]].
  - intros V os oj g Hg. simpl in Hg. rewrite length_app in Hg.
    unfold wire_with. rewrite Hc, Hj.
    apply reads_u8_bind. unfold read_tagged. tag_tests.
    rewrite <- (app_nil_r (_ ++ _)). eapply reads_bind; [|apply reads_ret].
    assert (reads (read_value_as_string_fuel g) ub
      (if pj_user j =s [] then None else Some (pj_user j))) as Hu.
    { case_streq.
      - subst ub. destruct g as [|g]; apply reads_u8_bind; apply reads_ret.
      - destruct Hub as (Hub & Hubne & _).
        replace (pj_user j) with (wire_str (pj_user j)) at 1
          by (unfold wire_str; apply wire_str_fuel_plain; by apply parse_jid_None).
        apply reads_as_string; [done|done|lia]. }
    unfold wire_jid_with. rewrite Hd. unfold read_jid_pair.
    eapply reads_bind; [exact Hu|].
    rewrite <- (app_nil_r sb). eapply reads_bind.
    + unfold read_or_empty. rewrite <- (app_nil_r sb).
      eapply reads_bind; [|apply reads_ret]. apply reads_as_string; [done|done|].
      assert (length ub <> 0)%nat; [|lia].
      destruct ub; [|done].
      destruct (pj_user j =s []); [done|]. by destruct Hub as (_ & ? & _).
    + case_streq; [rewrite E|]; apply reads_ret.
  - unfold is_raw. rewrite Hc, Hj. destruct (bytes_eqb_spec s []) as [->|]; [done|].
    simpl. by eexists _, _.
Qed.

(** A string that encodes at all is written as one block. *)
Definition str_fits (s : str) : Prop :=
  utf8_valid s = true /\ Z.of_nat (length s) < 2 ^ 32.

Lemma write_string_fuel_step f s :
  write_string_fuel f s =
  if s =s [] then write_u8 BINARY_8 ;; write_u8 0
  else
    match index_of_single_token s with
    | Some token => write_u8 token
    | None =>
        match index_of_double_byte_token s with
        | Some (dict, token) => write_u8 (DICTIONARY_0 + dict) ;; write_u8 token
        | None =>
            if validate_nibble s then write_packed_bytes s NIBBLE_8
            else if validate_hex s then write_packed_bytes s HEX_8
            else
              match parse_jid s with
              | Some jid =>
                  match f with
                  | O => mnofuel
                  | S f => write_jid_with (write_string_fuel f) jid
                  end
              | None => write_bytes_with_len s
              end
        end
    end.
Proof. by destruct f. Qed.

Lemma validate_packed s :
  (validate_nibble s = true ->
     forallb (packed_char NIBBLE_8) s = true /\ Z.of_nat (length s) <= 127)
  /\ (validate_hex s = true ->
     forallb (packed_char HEX_8) s = true /\ Z.of_nat (length s) <= 127).
Proof.
  unfold validate_nibble, validate_hex, PACKED_MAX.
  destruct (Z.ltb_spec 127 (Z.of_nat (length s))); by split.
Qed.

(** Compressed strings need no recursion. *)
Lemma writes_compressed f s :
  is_compressed s = true -> exists bs, writes (write_string_fuel f s) bs /\ string_block s bs.
Proof.
  intros Hc. rewrite write_string_fuel_step.
  apply is_compressed_cases in Hc as Hcases.
  destruct Hcases as [-> | (Hne & Hcases)].
  { exists [BINARY_8; 0]. split; [by apply (writes_bind _ _ [_] [_]); apply writes_u8|].
    by apply (raw_block []). }
  rewrite (proj2 (bytes_eqb_neq _ _) Hne).
  destruct Hcases as [[t Ht] | [[Ht [[d i] Hd]] | (Ht & Hd & Hp)]]; rewrite Ht.
  - exists [t]. split; [apply writes_u8|by apply single_token_block].
  - rewrite Hd. exists [DICTIONARY_0 + d; i].
    split; [by apply (writes_bind _ _ [_] [_]); apply writes_u8|by apply double_token_block].
  - rewrite Hd. destruct (validate_packed s) as [Hvn Hvh].
    destruct Hp as [Hn | [Hn Hh]]; rewrite Hn.
    + destruct (Hvn Hn). eexists. split; [apply writes_packed; [by left|done..]|].
      apply packed_string_block; [by left|done..].
    + rewrite Hh. destruct (Hvh Hh). eexists. split; [apply writes_packed; [by right|done..]|].
      apply packed_string_block; [by right|done..].
Qed.

Lemma write_string_block f s :
  (length s <= f)%nat -> str_fits s ->
  exists bs, writes (write_string_fuel f s) bs /\ string_block s bs.
Proof.
  revert s. induction f as [|f IH]; intros s Hf [Hutf Hlen].
  { destruct s; [|simpl in Hf; lia]. by apply writes_compressed. }
  destruct (is_compressed s) eqn:Hc; [by apply writes_compressed|].
  rewrite write_string_fuel_step.
  apply is_compressed_false in Hc as Hcases. destruct Hcases as (Hne & -> & -> & -> & ->).
  rewrite (proj2 (bytes_eqb_neq _ _) Hne).
  destruct (parse_jid s) as [j|] eqn:Hj.
  - pose proof (parse_jid_parts s j Hj) as (Hlu & Hls & _ & _ & Hval & _).
    destruct (Hval Hutf) as [Hvu Hvs].
    destruct (IH (pj_user j)) as (ub & Hwu & Hbu); [lia|split; [done|lia]|].
    destruct (IH (pj_server j)) as (sb & Hws & Hbs); [lia|split; [done|lia]|].
    unfold write_jid_with. destruct (pj_device j) as [d|] eqn:Hd.
    + eexists. split; [|by apply (jid_block_device s j d ub)].
      do 3 (apply (writes_bind _ _ [_]); [apply writes_u8|]). done.
    + exists (JID_PAIR :: (if pj_user j =s [] then [LIST_EMPTY] else ub) ++ sb). split.
      * apply (writes_bind _ _ [_]); [apply writes_u8|].
        apply writes_bind; [|done]. by destruct (pj_user j =s []).
      * eapply jid_block_pair; try done. by destruct (pj_user j =s []).
  - eexists. split; [apply writes_bytes_with_len|]. apply raw_block; [|done..].
    unfold is_raw. by rewrite Hc, Hj, orb_true_r.
Qed.

Lemma reads_value_as_string s bs :
  string_block s bs -> reads read_value_as_string bs (Some (wire_str s)).
Proof.
  intros (Has & Hne & _) pre post. unfold read_value_as_string. cbn [data].
  apply reads_as_string; [done..|]. rewrite !length_app. lia.
Qed.

Lemma reads_value s bs : string_block s bs -> reads read_value bs (Some (wire_value s)).
Proof.
  intros (Has & _) pre post. unfold read_value. cbn [data].
  apply (Has _ VR_String VR_Jid). rewrite !length_app. lia.
Qed.

Lemma reads_required s bs e :
  string_block s bs -> reads (read_required read_value_as_string e) bs (wire_str s).
Proof.
  intros H. unfold read_required. rewrite <- (app_nil_r bs).
  eapply reads_bind; [by apply reads_value_as_string|apply reads_ret].
Qed.

Lemma writes_string s :
  str_fits s -> exists bs, writes (write_string s) bs /\ string_block s bs.
Proof. by apply write_string_block. Qed.

(** ** Nodes on the wire *)

Definition list_header (n : nat) : bytes :=
  if (n =? 0)%nat then [LIST_EMPTY]
  else if Z.of_nat n <? 256 then [LIST_8; Z.of_nat n]
  else LIST_16 :: u16_to_be_bytes (Z.of_nat n).

Lemma writes_list_start n : Z.of_nat n < 2 ^ 16 -> writes (write_list_start n) (list_header n).
Proof.
  intros Hn. unfold write_list_start, list_header. cbv zeta.
  destruct (Nat.eqb_spec n 0) as [->|Hz]; [apply writes_u8|].
  destruct (Z.eqb_spec (Z.of_nat n) 0); [lia|].
  destruct (Z.ltb_spec (Z.of_nat n) 256); rewrite wrap_small by lia;
    apply (writes_bind _ _ [_]); apply writes_u8 || apply writes_all.
Qed.

Lemma reads_list_size n t r :
  Z.of_nat n < 2 ^ 16 -> list_header n = t :: r -> reads (read_list_size t) r n.
Proof.
  intros Hn. unfold list_header, read_list_size.
  destruct (Nat.eqb_spec n 0) as [->|Hz]; [intros [= <- <-]; apply reads_ret|].
  destruct (Z.ltb_spec (Z.of_nat n) 256); intros [= <- <-]; tag_tests.
  - apply reads_u8_bind. rewrite Nat2Z.id. apply reads_ret.
  - rewrite <- (app_nil_r (u16_to_be_bytes _)).
    eapply reads_bind; [apply reads_u16_be; lia|]. rewrite Nat2Z.id. apply reads_ret.
Qed.

Lemma list_header_cons n : exists t r, list_header n = t :: r.
Proof. unfold list_header. repeat case_match; eauto. Qed.

Lemma reads_repeat {A} (m : dec A) bss l :
  Forall2 (reads m) bss l -> reads (mrepeat (length l) m) (mjoin bss) l.
Proof.
  induction 1 as [|bs a bss l Ha Hl IH]; [apply reads_ret|].
  change (mjoin (bs :: bss)) with (bs ++ mjoin bss). cbn [length mrepeat].
  eapply reads_bind; [done|]. rewrite <- (app_nil_r (mjoin bss)).
  eapply reads_bind; [done|apply reads_ret].
Qed.

(** Writers of a list, one block for each element. *)
Lemma writes_blocks {A B} (f : A -> enc unit) (R : bytes -> B -> Prop) (h : A -> B) l :
  Forall (fun x => exists bs, writes (f x) bs /\ R bs (h x)) l ->
  exists bss, writes (mfor f l) (mjoin bss) /\ Forall2 R bss (map h l).
Proof.
  induction 1 as [|x l (bs & Hx & HR) Hl (bss & Hw & HF)].
  - exists []. split; [apply writes_ret|constructor].
  - exists (bs :: bss). split; [by apply writes_bind|by constructor].
Qed.

Definition wire_attr (kv : str * str) : str * ValueRef := (wire_str kv.1, wire_value kv.2).

Fixpoint wire_node (n : Node) : NodeRef :=
  match n with
  | mkNode t a c =>
      mkNodeRef (wire_str t) (map wire_attr a)
        (match c with Some c => wire_content c | None => None end)
  end
with wire_content (c : NodeContent) : option NodeContentRef :=
  match c with
  | NC_Bytes b => Some (NR_Bytes b)
  | NC_String s => Some (if is_raw s then NR_Bytes s else NR_String (wire_str s))
  | NC_Nodes [] => None
  | NC_Nodes nodes => Some (NR_Nodes (map wire_node nodes))
  end.

(** The sizes the format has room for. *)
Definition node_list_len (a : index_map str) (c : option NodeContent) : nat :=
  (1 + length a * 2 + match c with Some _ => 1 | None => 0 end)%nat.

Fixpoint node_fits (n : Node) : Prop :=
  match n with
  | mkNode t a c =>
      str_fits t /\ Forall (fun kv => str_fits kv.1 /\ str_fits kv.2) a
      /\ Z.of_nat (node_list_len a c) < 2 ^ 16
      /\ match c with Some c => content_fits c | None => True end
  end
with content_fits (c : NodeContent) : Prop :=
  match c with
  | NC_Bytes b => Z.of_nat (length b) < 2 ^ 32
  | NC_String s => str_fits s
  | NC_Nodes nodes =>
      Z.of_nat (length nodes) < 2 ^ 16
      /\ fold_right (fun n acc => node_fits n /\ acc) True nodes
  end.

Lemma writes_attributes a :
  Forall (fun kv => str_fits kv.1 /\ str_fits kv.2) a ->
  exists bs, writes (write_attributes a) bs /\ reads (read_attributes (length a)) bs (map wire_attr a).
Proof.
  intros Ha.
  destruct (writes_blocks (fun kv => write_string kv.1 ;; write_string kv.2)
              (reads read_attribute) wire_attr a) as (bss & Hw & HR).
  - eapply Forall_impl; [exact Ha|]. intros [k v] [Hk Hv]. simpl in *.
    destruct (writes_string k Hk) as (kb & Hwk & Hkb).
    destruct (writes_string v Hv) as (vb & Hwv & Hvb).
    exists (kb ++ vb). split; [by apply writes_bind|]. unfold read_attribute.
    eapply reads_bind; [by apply reads_required|].
    rewrite <- (app_nil_r vb). eapply reads_bind; [by apply reads_value|apply reads_ret].
  - exists (mjoin bss). split; [done|]. unfold read_attributes.
    rewrite <- (length_map wire_attr a). by apply reads_repeat.
Qed.

(** A content whose tag is a string's is read by the string reader. *)
Lemma reads_content_string rn t r v :
  content_tag t = true -> reads read_value_as_string (t :: r) (Some v) ->
  reads (read_content_with rn) (t :: r) (Some (NR_String v)).
Proof.
  intros Ht Hr pre post. unfold read_content_with.
  assert (forall d', read_u8 (mkDecoder (pre ++ (t :: r) ++ post) (length pre)) = (Ok t, d') ->
    (unread ;; let! sc := read_value_as_string in
       match sc with Some s => mret (Some (NR_String s)) | None => mret None end) d'
    = (Ok (Some (NR_String v)),
       mkDecoder (pre ++ (t :: r) ++ post) (length pre + length (t :: r)))) as Hgo.
  { intros d' Hd'. erewrite unread_after_u8 by done. by rewrite (mbind'_Ok _ _ _ _ _ (Hr pre post)). }
  pose proof (reads_u8 t pre (r ++ post)) as Hu8. simpl in Hu8.
  rewrite (mbind'_Ok _ _ _ _ _ Hu8).
  unfold content_tag in Ht. apply negb_true_iff in Ht.
  repeat (apply orb_false_iff in Ht as [Ht ->]). rewrite Ht. cbn [orb].
  by apply Hgo.
Qed.

Lemma reads_content_bytes rn b :
  Z.of_nat (length b) < 2 ^ 32 ->
  reads (read_content_with rn) (len_header (Z.of_nat (length b)) ++ b) (Some (NR_Bytes b)).
Proof.
  intros Hb.
  apply (reads_len_header _ (fun n => let! bs := read_bytes n in mret (Some (NR_Bytes bs)))); try done.
  rewrite <- (app_nil_r b) at 2. eapply reads_bind; [apply reads_bytes|apply reads_ret].
Qed.

(** The block of an encoded node, read by any reader with a sufficient bound. *)
Definition node_block (bs : bytes) (r : NodeRef) : Prop :=
  bs <> [] /\ forall g, (length bs <= g)%nat -> reads (read_node_ref_fuel g) bs r.

Definition content_block (bs : bytes) (r : option NodeContentRef) : Prop :=
  bs <> [] /\
  forall g, (length bs <= g)%nat -> reads (read_content_with (read_node_ref_fuel g)) bs r.

Lemma Forall2_node_blocks bss rs g :
  Forall2 node_block bss rs -> (length (mjoin bss) <= g)%nat ->
  Forall2 (reads (read_node_ref_fuel g)) bss rs.
Proof.
  induction 1 as [|bs r bss rs [Hne Hb] Hl IH]; [constructor|].
  change (mjoin (bs :: bss)) with (bs ++ mjoin bss). rewrite length_app. intros Hg.
  constructor; [apply Hb; lia|apply IH; lia].
Qed.

Lemma nodes_content_block ns :
  Z.of_nat (length ns) < 2 ^ 16 ->
  Forall (fun n => exists bs, writes (write_node n) bs /\ node_block bs (wire_node n)) ns ->
  exists bs, writes (write_content (NC_Nodes ns)) bs
             /\ content_block bs (wire_content (NC_Nodes ns)).
Proof.
  intros Hlen Hns.
  destruct (writes_blocks write_node node_block wire_node ns Hns) as (bss & Hw & HF).
  exists (list_header (length ns) ++ mjoin bss). split; [|split].
  - cbn [write_content]. apply writes_bind; [by apply writes_list_start|done].
  - destruct (list_header_cons (length ns)) as (t & r & ->). done.
  - intros g Hg. rewrite length_app in Hg.
    destruct ns as [|n ns'].
    + inversion HF; subst. apply reads_u8_bind. apply reads_ret.
    + set (ns := n :: ns') in *. change (wire_content (NC_Nodes ns)) with
        (Some (NR_Nodes (map wire_node ns))).
      destruct (list_header_cons (length ns)) as (t & r & Hh). rewrite Hh.
      pose proof (reads_list_size _ _ _ Hlen Hh) as Hsize.
      assert (t = LIST_8 \/ t = LIST_16) as Ht.
      { revert Hh. unfold list_header. subst ns. cbn [length Nat.eqb].
        destruct (_ <? 256); intros [= <- _]; solve [by left | by right]. }
      cbn [app]. apply reads_u8_bind.
      assert ((t =? LIST_EMPTY) = false) as -> by (by destruct Ht as [-> | ->]).
      assert ((t =? LIST_8) || (t =? LIST_16) = true) as -> by (by destruct Ht as [-> | ->]).
      eapply reads_bind; [exact Hsize|]. rewrite <- (app_nil_r (mjoin bss)).
      eapply reads_bind; [|apply reads_ret]. rewrite <- (length_map wire_node ns).
      apply reads_repeat, Forall2_node_blocks; [done|lia].
Qed.

Lemma node_list_len_spec a c :
  ((node_list_len a c - 1) / 2)%nat = length a
  /\ (node_list_len a c mod 2 =? 0)%nat = match c with Some _ => true | None => false end
  /\ (node_list_len a c =? 0)%nat = false.
Proof.
  unfold node_list_len. destruct c as [c|].
  - replace (1 + length a * 2 + 1 - 1)%nat with (1 + length a * 2)%nat by lia.
    replace (1 + length a * 2 + 1)%nat with (0 + (1 + length a) * 2)%nat by lia.
    rewrite Nat.div_add, Nat.Div0.mod_add by lia. done.
  - replace (1 + length a * 2 + 0 - 1)%nat with (0 + length a * 2)%nat by lia.
    rewrite Nat.add_0_r, Nat.div_add, Nat.Div0.mod_add by lia. done.
Qed.

Lemma node_with_content_block t a c cb :
  str_fits t -> Forall (fun kv => str_fits kv.1 /\ str_fits kv.2) a ->
  Z.of_nat (node_list_len a c) < 2 ^ 16 ->
  match c with
  | Some c => writes (write_content c) cb /\ content_block cb (wire_content c)
  | None => cb = []
  end ->
  exists bs, writes (write_node (mkNode t a c)) bs /\ node_block bs (wire_node (mkNode t a c)).
Proof.
  intros Ht Ha Hlen Hc.
  destruct (writes_string t Ht) as (tb & Hwt & Htb).
  destruct (writes_attributes a Ha) as (ab & Hwa & Hra).
  exists (list_header (node_list_len a c) ++ tb ++ ab ++ cb).
  destruct (list_header_cons (node_list_len a c)) as (h & r & Hh).
  split; [|split; [by rewrite Hh|]].
  - cbn [write_node]. apply writes_bind; [by apply writes_list_start|].
    apply writes_bind; [done|]. apply writes_bind; [done|].
    destruct c; [by apply Hc|subst cb; apply writes_ret].
  - intros g Hg. pose proof (reads_list_size _ _ _ Hlen Hh) as Hsize.
    rewrite Hh in *. rewrite !length_app in Hg. simpl in Hg.
    destruct g as [|g]; [lia|]. cbn [read_node_ref_fuel app].
    apply reads_u8_bind. eapply reads_bind; [exact Hsize|].
    destruct (node_list_len_spec a c) as (-> & -> & ->).
    eapply reads_bind; [by apply reads_required|]. eapply reads_bind; [done|].
    rewrite <- (app_nil_r cb). eapply reads_bind; [|apply reads_ret].
    destruct c as [c|]; [|subst cb; apply reads_ret].
    apply Hc. lia.
Qed.

Lemma write_node_block n :
  node_fits n -> exists bs, writes (write_node n) bs /\ node_block bs (wire_node n).
Proof.
  apply (node_ind'
    (fun n => node_fits n -> exists bs, writes (write_node n) bs /\ node_block bs (wire_node n))
    (fun c => content_fits c ->
       exists bs, writes (write_content c) bs /\ content_block bs (wire_content c))).
  - intros t a c IH (Ht & Ha & Hlen & Hc). destruct c as [c|].
    + destruct (IH c eq_refl Hc) as (cb & Hw & Hb).
      by apply (node_with_content_block t a (Some c) cb).
    + by apply (node_with_content_block t a None []).
  - intros b Hb. eexists. split; [apply writes_bytes_with_len|]. split.
    + unfold len_header. by repeat case_match.
    + intros g _. by apply reads_content_bytes.
  - intros s Hs. destruct (writes_string s Hs) as (bs & Hw & Hblock).
    exists bs. split; [done|]. pose proof Hblock as (_ & Hne & Hform).
    split; [done|]. intros g _. cbn [wire_content]. destruct (is_raw s).
    + subst bs. apply reads_content_bytes. by destruct Hs.
    + destruct Hform as (t & r & -> & Ht).
      apply reads_content_string; [done|by apply reads_value_as_string].
  - intros ns Hns [Hlen Hfits]. apply nodes_content_block; [done|].
    clear Hlen. induction Hns as [|n' ns Hn Hns IH]; constructor.
    + apply Hn, Hfits.
    + apply IH, Hfits.
Qed.

(** ** Encoding is total *)

Lemma write_string_total f s : (length s <= f)%nat -> exists bs, writes (write_string_fuel f s) bs.
Proof.
  revert s. induction f as [|f IH]; intros s Hf.
  { destruct s; [|simpl in Hf; lia]. exists [BINARY_8; 0].
    apply (writes_bind _ _ [_] [_]); apply writes_u8. }
  destruct (is_compressed s) eqn:Hc.
  { destruct (writes_compressed (S f) s Hc) as (bs & H & _). by exists bs. }
  rewrite write_string_fuel_step.
  apply is_compressed_false in Hc as (Hne & -> & -> & -> & ->).
  rewrite (proj2 (bytes_eqb_neq _ _) Hne).
  destruct (parse_jid s) as [j|] eqn:Hj; [|eexists; apply writes_bytes_with_len].
  pose proof (parse_jid_parts s j Hj) as (Hlu & Hls & _).
  destruct (IH (pj_user j)) as (ub & Hwu); [lia|].
  destruct (IH (pj_server j)) as (sb & Hws); [lia|].
  unfold write_jid_with. destruct (pj_device j) as [d|]; eexists;
    repeat (apply writes_bind; [apply writes_u8|]); [done|].
  apply (writes_bind _ _ (if pj_user j =s [] then [LIST_EMPTY] else ub)); [|done].
  by destruct (pj_user j =s []).
Qed.

Lemma writes_list_start_any n : exists bs, writes (write_list_start n) bs.
Proof.
  unfold write_list_start. cbv zeta.
  repeat case_match; eexists; try apply writes_bind; apply writes_u8 || apply writes_all.
Qed.

Lemma writes_for_any {A} (f : A -> enc unit) l :
  Forall (fun x => exists bs, writes (f x) bs) l -> exists bs, writes (mfor f l) bs.
Proof.
  induction 1 as [|x l (a & Hx) Hl (b & IH)]; eexists; [apply writes_ret|by apply writes_bind].
Qed.

Lemma write_node_total n : exists bs, writes (write_node n) bs.
Proof.
  apply (node_ind' (fun n => exists bs, writes (write_node n) bs)
           (fun c => exists bs, writes (write_content c) bs)).
  - intros t a c IH.
    destruct (writes_list_start_any (node_list_len a c)) as (hb & Hh).
    destruct (write_string_total (length t) t) as (tb & Ht); [lia|].
    destruct (writes_for_any (fun kv => write_string kv.1 ;; write_string kv.2) a) as (ab & Ha).
    { apply Forall_forall. intros [k v] _.
      destruct (write_string_total (length k) k) as (kb & Hk); [lia|].
      destruct (write_string_total (length v) v) as (vb & Hv); [lia|].
      exists (kb ++ vb). by apply writes_bind. }
    destruct c as [c|].
    + destruct (IH c eq_refl) as (cb & Hc). exists (hb ++ tb ++ ab ++ cb).
      by repeat (apply writes_bind; [done|]).
    + exists (hb ++ tb ++ ab ++ []). repeat (apply writes_bind; [done|]). apply writes_ret.
  - intros b. eexists. apply writes_bytes_with_len.
  - intros s. by apply write_string_total.
  - intros ns Hns. destruct (writes_list_start_any (length ns)) as (hb & Hh).
    destruct (writes_for_any write_node ns Hns) as (nb & Hn).
    exists (hb ++ nb). by apply writes_bind.
Qed.

Lemma marshal_writes n bs : writes (write_node n) bs -> marshal n = Ok (0 :: bs).
Proof.
  intros H. unfold marshal, marshal_to.
  by rewrite (writes_bind encoder_new (write_node n) [0] bs (writes_u8 0) H []).
Qed.

(** Encoding never fails: for every node, whatever its strings and sizes,
    [marshal_to] appends one payload to whatever the writer holds and
    [marshal] returns that payload, which starts with the flag byte 0; no
    packing panics, no recursion is cut short and no error is returned. *)
Theorem marshal_total (n : Node) :
  exists body, writes (marshal_to n) (0 :: body) /\ marshal n = Ok (0 :: body).
Proof.
  destruct (write_node_total n) as (bs & H). exists bs. split; [|by apply marshal_writes].
  by apply (writes_bind encoder_new (write_node n) [0] bs (writes_u8 0)).
Qed.

(** ** Round trip *)

(** What [unmarshal_ref] makes of a node's block followed by [extra]. *)
Lemma unmarshal_block bs r extra :
  node_block bs r ->
  unmarshal_ref (bs ++ extra) =
  if (length extra =? 0)%nat then Ok r else Err (LeftoverData (length extra)).
Proof.
  intros [_ Hr]. unfold unmarshal_ref, read_node_ref. cbn [data decoder_new].
  specialize (Hr (length (bs ++ extra)) ltac:(rewrite length_app; lia) [] extra).
  cbn [app length] in Hr. unfold decoder_new. cbn [data]. rewrite Hr. cbn [obind].
  unfold is_finished, bytes_left. cbn [data position]. rewrite length_app.
  replace (length bs + length extra - (0 + length bs))%nat with (length extra) by lia.
  destruct (Nat.eqb_spec (length extra) 0); destruct (Nat.leb_spec (length bs + length extra) (0 + length bs));
    done || lia.
Qed.

Lemma codec_roundtrip_lem (zlib : bytes -> option bytes) (zerr : bytes -> str) (n : Node) :
  node_fits n ->
  exists payload, marshal n = Ok payload
    /\ (let? body := unpack zlib zerr payload in unmarshal_ref body) = Ok (wire_node n)
    /\ forall extra, extra <> [] ->
       (let? body := unpack zlib zerr (payload ++ extra) in unmarshal_ref body)
       = Err (LeftoverData (length extra)).
Proof.
  intros (bs & Hw & Hb)%write_node_block. exists (0 :: bs).
  split; [by apply marshal_writes|]. cbn [unpack app].
  change (0 <? Z.land 0 2) with false. cbn [obind].
  split; [by rewrite <- (app_nil_r bs), (unmarshal_block _ _ _ Hb)|].
  intros extra Hne. rewrite (unmarshal_block _ _ _ Hb). by destruct extra.
Qed.

(** C1: the codec round trip.  A node whose strings are UTF-8 and whose sizes
    the format can express is encoded to a payload; unpacking the payload and
    decoding it gives exactly [wire_node n]: the same tree, with JID-shaped
    strings normalised as [wire_str] says, raw string contents read as bytes
    and an empty child list read as no content.  The same payload with bytes
    appended is rejected as leftover data. *)
Theorem codec_roundtrip (zlib : bytes -> option bytes) (zerr : bytes -> str) (n : Node) :
  node_fits n ->
  exists payload, marshal n = Ok payload
    /\ (let? body := unpack zlib zerr payload in unmarshal_ref body) = Ok (wire_node n)
    /\ forall extra, extra <> [] ->
       (let? body := unpack zlib zerr (payload ++ extra) in unmarshal_ref body)
       = Err (LeftoverData (length extra)).
Proof. apply codec_roundtrip_lem. Qed.

Definition sample_node : Node :=
  mkNode (lit "message")
    [(lit "to", lit "5511999990000:3@s.whatsapp.net"); (lit "id", lit "3EB0A1");
     (lit "note", lit "hello world")]
    (Some (NC_Nodes [mkNode (lit "enc") [(lit "v", lit "2")] (Some (NC_Bytes [1; 2; 255]));
                     mkNode (lit "from") [] (Some (NC_String (lit "status@broadcast")))])).

Lemma codec_roundtrip_witness :
  exists payload, marshal sample_node = Ok payload
    /\ (let? body := unpack (fun _ => None) (fun b => b) payload in unmarshal_ref body)
       = Ok (wire_node sample_node)
    /\ forall extra, extra <> [] ->
       (let? body := unpack (fun _ => None) (fun b => b) (payload ++ extra) in unmarshal_ref body)
       = Err (LeftoverData (length extra)).
Proof.
  apply codec_roundtrip. cbn [node_fits sample_node content_fits fold_right].
  unfold str_fits. repeat (split || constructor); vm_compute; reflexivity.
Defined.

(** ** What the wire preserves *)

(** The strings that survive unchanged: those without an [@], and the printed
    form of a JID with no agent whose device fits a byte. *)
Definition device_server (srv : str) : Prop :=
  srv = DEFAULT_USER_SERVER \/ srv = HIDDEN_USER_SERVER \/ srv = HOSTED_SERVER.

Definition wire_jid_ok (j : Jid) : Prop :=
  user j <> [] /\ str_free AT (user j) = true /\ str_free COLON (user j) = true
  /\ str_free UNDERSCORE (user j) = true /\ agent j = 0
  /\ (device j = 0 /\ str_free AT (server j) = true
      \/ 1 <= device j <= 255 /\ device_server (server j)).

Definition canonical_str (s : str) : Prop :=
  str_free AT s = true \/ exists j, wire_jid_ok j /\ s = jid_to_string j.

Lemma parse_jid_pair u srv :
  str_free AT u = true -> str_free COLON u = true -> str_free UNDERSCORE u = true ->
  exists dt, parse_jid (u ++ AT :: srv) = Some (mkParsedJid u srv dt None).
Proof.
  intros Ha Hc Hu. unfold parse_jid.
  rewrite str_find_app, take_app_length, drop_app_ge by (done || lia).
  replace (S (length u) - length u)%nat with 1%nat by lia. cbn [drop].
  rewrite !split_once_None by done. by eexists.
Qed.

Lemma parse_jid_device u d srv :
  str_free AT u = true -> str_free COLON u = true -> str_free UNDERSCORE u = true ->
  0 <= d <= 65535 ->
  parse_jid ((u ++ COLON :: show_uint d) ++ AT :: srv) =
  Some (mkParsedJid u srv
    (if srv =s HIDDEN_USER_SERVER then 1
     else if srv =s HOSTED_SERVER then 128
     else if srv =s lit "hosted.lid" then 129 else 0) (Some d)).
Proof.
  intros Ha Hc Hu Hd. unfold parse_jid.
  rewrite str_find_app, take_app_length, drop_app_ge.
  2: lia.
  2: { rewrite str_free_app, Ha. simpl. apply show_uint_free; [lia|done]. }
  replace (S (length (u ++ COLON :: show_uint d)) - length (u ++ COLON :: show_uint d))%nat
    with 1%nat by lia. cbn [drop].
  rewrite split_once_app by done.
  rewrite (proj2 (bytes_eqb_neq (show_uint d) []) (show_uint_nonempty d)).
  rewrite split_once_None by done. unfold parse_u16. by rewrite parse_show_uint by lia.
Qed.

Lemma wire_str_canonical s : canonical_str s -> wire_str s = s.
Proof.
  intros [Hs | (j & (Hne & Ha & Hc & Hu & Hag & Hdev) & ->)].
  { by apply wire_str_fuel_plain, parse_jid_None. }
  rewrite wire_str_unfold. destruct (is_compressed _) eqn:Hcomp; [done|]. clear Hcomp.
  destruct j as [u srv a d i]. simpl in *. subst a.
  unfold jid_to_string. cbn [user server agent device].
  rewrite (proj2 (bytes_eqb_neq _ _) Hne). change (0 <? 0) with false. cbn [andb app].
  destruct Hdev as [[-> Hsrv] | [Hd Hsrv]].
  - change (0 <? 0) with false. cbn [app].
    destruct (parse_jid_pair u srv Ha Hc Hu) as (dt & ->).
    unfold wire_jid_with, jidref_to_string. cbn.
    rewrite (proj2 (bytes_eqb_neq _ _) Hne). change (0 <? 0) with false. cbn.
    unfold wire_str. by rewrite wire_str_fuel_plain by (by apply parse_jid_None).
  - rewrite (proj2 (Z.ltb_lt 0 d)) by lia.
    cbn [app].
    replace (u ++ COLON :: show_uint d ++ AT :: srv)
      with ((u ++ COLON :: show_uint d) ++ AT :: srv) by (by rewrite <- app_assoc).
    rewrite parse_jid_device by (done || lia).
    unfold wire_jid_with, jidref_to_string. cbn [pj_device pj_domain_type pj_user].
    cbn [ref_user ref_server ref_agent ref_device].
    rewrite (proj2 (bytes_eqb_neq _ _) Hne), wrap_small by lia.
    rewrite (proj2 (Z.ltb_lt 0 d)) by lia.
    rewrite <- (app_assoc u). by destruct Hsrv as [-> | [-> | ->]].
Qed.

(** Nodes that survive: canonical strings, string contents with an encoding
    of their own, child lists that are not empty. *)
Fixpoint node_canonical (n : Node) : Prop :=
  match n with
  | mkNode t a c =>
      canonical_str t /\ Forall (fun kv => canonical_str kv.1 /\ canonical_str kv.2) a
      /\ match c with Some c => content_canonical c | None => True end
  end
with content_canonical (c : NodeContent) : Prop :=
  match c with
  | NC_Bytes b => True
  | NC_String s => canonical_str s /\ is_raw s = false
  | NC_Nodes nodes =>
      nodes <> [] /\ fold_right (fun n acc => node_canonical n /\ acc) True nodes
  end.

Lemma wire_attrs_canonical (a : index_map str) :
  Forall (fun kv => canonical_str kv.1 /\ canonical_str kv.2) a ->
  map (fun kv => (kv.1, to_string_cow kv.2)) (map wire_attr a) = a.
Proof.
  induction 1 as [|[k v] a [Hk Hv] Ha IH]; simpl in *; [done|].
  by rewrite IH, wire_value_str, !wire_str_canonical.
Qed.

Lemma wire_node_canonical n :
  node_keys_ok n -> node_canonical n -> to_owned (wire_node n) = n.
Proof.
  apply (node_ind'
    (fun n => node_keys_ok n -> node_canonical n -> to_owned (wire_node n) = n)
    (fun c => content_keys_ok c -> content_canonical c ->
       option_map content_to_owned (wire_content c) = Some c)).
  - intros t a c IH [Hnd Hkc] (Ht & Ha & Hc). cbn [wire_node to_owned].
    rewrite (wire_attrs_canonical a Ha), im_collect_NoDup, wire_str_canonical by done.
    destruct c as [c|]; [|done]. specialize (IH c eq_refl Hkc Hc).
    destruct (wire_content c); simpl in *; congruence.
  - done.
  - intros s _ [Hs Hraw]. cbn [wire_content]. rewrite Hraw. simpl.
    by rewrite wire_str_canonical.
  - intros ns Hns Hk [Hne Hc].
    assert (map to_owned (map wire_node ns) = ns) as Hmap.
    { clear Hne. induction Hns as [|n' ns Hn Hns IH]; [done|].
      cbn [content_keys_ok fold_right] in Hk, Hc. destruct Hk as [Hk1 Hk2], Hc as [Hc1 Hc2].
      cbn [map]. rewrite Hn by done. f_equal. by apply IH. }
    destruct ns as [|n' ns]; [done|].
    change (wire_content (NC_Nodes (n' :: ns))) with (Some (NR_Nodes (map wire_node (n' :: ns)))).
    cbn [option_map content_to_owned]. by rewrite Hmap.
Qed.

(** Nodes in canonical form survive the wire unchanged: encoding,
    unpacking, decoding and taking ownership gives back the very same node,
    when its strings contain no [@] or are printed JIDs with no agent and a
    device below 256 on a device server. *)
Theorem codec_canonical_identity (zlib : bytes -> option bytes) (zerr : bytes -> str) (n : Node) :
  node_fits n -> node_keys_ok n -> node_canonical n ->
  (let? payload := marshal n in
   let? body := unpack zlib zerr payload in
   let? r := unmarshal_ref body in Ok (to_owned r)) = Ok n.
Proof.
  intros (bs & Hw & Hb)%write_node_block Hk Hc.
  rewrite (marshal_writes _ _ Hw). cbn [obind unpack].
  change (0 <? Z.land 0 2) with false. cbn [obind].
  rewrite <- (app_nil_r bs), (unmarshal_block _ _ _ Hb). cbn.
  by rewrite wire_node_canonical.
Qed.

Lemma codec_canonical_identity_witness :
  (let? payload := marshal sample_node in
   let? body := unpack (fun _ => None) (fun b => b) payload in
   let? r := unmarshal_ref body in Ok (to_owned r)) = Ok sample_node.
Proof.
  apply codec_canonical_identity.
  - cbn [node_fits sample_node content_fits fold_right].
    unfold str_fits. repeat (split || constructor); vm_compute; reflexivity.
  - cbn [node_keys_ok sample_node content_keys_ok fold_right].
    repeat split; apply no_dup_keys_NoDup; vm_compute; reflexivity.
  - cbn [node_canonical sample_node content_canonical fold_right].
    repeat match goal with
    | |- _ /\ _ => split
    | |- True => exact I
    | |- Forall _ [] => apply Forall_nil_2
    | |- Forall _ (_ :: _) => apply Forall_cons_2; cbn [fst snd]
    | |- canonical_str _ => left; vm_compute; reflexivity
    | |- is_raw _ = false => vm_compute; reflexivity
    | |- _ :: _ <> [] => discriminate
    end; right.
    + exists (mkJid (lit "5511999990000") DEFAULT_USER_SERVER 0 3 0). unfold wire_jid_ok.
      split_and!; [done..|right; split; [cbn; lia|by left]|vm_compute; reflexivity].
    + exists (mkJid (lit "status") BROADCAST_SERVER 0 0 0). unfold wire_jid_ok.
      split_and!; [done..|left; done|vm_compute; reflexivity].
Defined.

(** ** The vector packer computes what the scalar packer does *)

(** Packing without the vector loop. *)
Definition write_packed_scalar (value : str) (data_type : u8) : enc unit :=
  write_u8 data_type ;;
  write_u8 (packed_len_byte (Z.of_nat (length value))) ;;
  pack_chars (packer_of data_type) value.

(** On every string the encoder packs (at most 127 nibble or hex
    characters) the 16-lane vector path writes exactly the bytes of the
    character-by-character packing, and unpacking them gives the string
    back. *)
Theorem write_packed_simd_scalar (t : u8) (s : str) (w : bytes) :
  packed_tag t ->
  (if t =? NIBBLE_8 then validate_nibble s else validate_hex s) = true ->
  s <> [] ->
  write_packed_bytes s t w = write_packed_scalar s t w
  /\ exists block, write_packed_bytes s t w = (Ok tt, w ++ t :: block)
     /\ read_packed t (decoder_new block) = (Ok s, mkDecoder block (length block)).
Proof.
  intros Ht Hv Hne.
  assert (forallb (packed_char t) s = true /\ Z.of_nat (length s) <= 127) as [Hs Hl]
    by (destruct Ht as [-> | ->]; by apply validate_packed).
  pose proof (writes_packed t s Ht Hs Hl w) as Hw. split.
  - rewrite Hw. symmetry. unfold write_packed_scalar, packed_block.
    apply (writes_bind _ _ [t]); [apply writes_u8|].
    apply (writes_bind _ _ [_]); [apply writes_u8|]. by apply writes_pack_chars.
  - eexists. split; [exact Hw|].
    pose proof (reads_packed t s Ht Hs Hl Hne [] []) as Hr. cbn [app length] in Hr.
    rewrite app_nil_r in Hr. exact Hr.
Qed.

Lemma write_packed_simd_scalar_witness :
  write_packed_bytes (lit "0123456789-.01234567") NIBBLE_8 []
  = write_packed_scalar (lit "0123456789-.01234567") NIBBLE_8 []
  /\ exists block, write_packed_bytes (lit "0123456789-.01234567") NIBBLE_8 []
                   = (Ok tt, [] ++ NIBBLE_8 :: block)
     /\ read_packed NIBBLE_8 (decoder_new block)
        = (Ok (lit "0123456789-.01234567"), mkDecoder block (length block)).
Proof. apply write_packed_simd_scalar; [by left|vm_compute; reflexivity|done]. Defined.
