(* ===== verification/Attrs.v ===== *)
(** * Attribute parsers: [warp_core/binary/src/attrs.rs]

    [AttrParser] reads typed attributes off an owned node, [AttrParserRef] off
    a borrowed one; both collect errors and report them in [finish].  The
    methods that the two implementations share word for word are defined once
    over the interface [ErrorSink] and the raw getter.  The theorems show
    which requests make [finish] succeed, and that reading a decoded node and
    reading its owned copy agree. *)

From S2P Require Import Prelude RustStd Jid Node.

(** A [&mut self] method that cannot fail. *)
Definition meth (P A : Type) : Type := P -> A * P.
Definition meth_bind {P A B} (m : meth P A) (k : A -> meth P B) : meth P B :=
  fun p => let '(a, p') := m p in k a p'.
Definition meth_ret {P A} (a : A) : meth P A := fun p => (a, p).

(** [Display] of the two parse errors the messages quote. *)
Definition show_parse_int_error (e : IntErrorKind) : str :=
  match e with
  | Empty => lit "cannot parse integer from empty string"
  | InvalidDigit => lit "invalid digit found in string"
  | PosOverflow => lit "number too large to fit in target type"
  | NegOverflow => lit "number too small to fit in target type"
  end.
Definition show_parse_bool_error : str := lit "provided string was not `true` or `false`".

(** What the shared methods need of a parser: a list of collected errors. *)
Class ErrorSink (P : Type) := {
  errors : P -> list BinaryError;
  push : BinaryError -> P -> P;
  push_errors : forall e p, errors (push e p) = errors p ++ [e]
}.

Definition not_found (key : str) : BinaryError :=
  AttrParse (lit "Required attribute '" ++ key ++ lit "' not found").

Definition parse_failed (ty s key e : str) : BinaryError :=
  AttrParse (lit "Failed to parse " ++ ty ++ lit " from '" ++ s ++ lit "' for key '" ++ key
             ++ lit "': " ++ e).

Section Shared.
Context {P : Type} `{!ErrorSink P}.

Definition sink_ok (p : P) : bool := match errors p with [] => true | _ => false end.

Definition sink_finish (p : P) : outcome BinaryError unit :=
  if sink_ok p then Ok tt else Err (AttrList (errors p)).

(** The required-key check of [get_raw]. *)
Definition required {V} (key : str) (require : bool) (val : option V) : meth P (option V) :=
  fun p => (val, match val with None => if require then push (not_found key) p else p
                              | Some _ => p end).

Context (get_str : str -> bool -> meth P (option str)).

Definition get_bool (key : str) (require : bool) : meth P (option bool) :=
  meth_bind (get_str key require) (fun o =>
    match o with
    | None => meth_ret None
    | Some s =>
        match parse_bool s with
        | Some v => meth_ret (Some v)
        | None => fun p => (None, push (parse_failed (lit "bool") s key show_parse_bool_error) p)
        end
    end).

Definition get_int (ty : str) (parse : str -> outcome IntErrorKind Z) (key : str) (require : bool)
    : meth P (option Z) :=
  meth_bind (get_str key require) (fun o =>
    match o with
    | None => meth_ret None
    | Some s =>
        match parse s with
        | Ok v => meth_ret (Some v)
        | Err e => fun p => (None, push (parse_failed ty s key (show_parse_int_error e)) p)
        | Panic | NoFuel => meth_ret None
        end
    end).

Definition get_i64 : str -> bool -> meth P (option i64) := get_int (lit "i64") parse_i64.
Definition get_u64 : str -> bool -> meth P (option u64) := get_int (lit "u64") parse_u64.

Definition unwrap_or {A} (d : A) (m : meth P (option A)) : meth P A :=
  meth_bind m (fun o => meth_ret (match o with Some a => a | None => d end)).
End Shared.

(** ** [impl AttrParser] *)

Record AttrParser := mkAttrParser { ap_attrs : index_map str; ap_errors : list BinaryError }.

#[export, program] Instance AttrParser_sink : ErrorSink AttrParser := {|
  errors := ap_errors;
  push e p := mkAttrParser (ap_attrs p) (ap_errors p ++ [e])
|}.
Next Obligation. done. Qed.

Definition ap_new (n : Node) : AttrParser := mkAttrParser (attrs n) [].
Definition ap_ok : AttrParser -> bool := sink_ok.
Definition ap_finish : AttrParser -> outcome BinaryError unit := sink_finish.
Definition ap_get_raw (key : str) (require : bool) : meth AttrParser (option str) :=
  fun p => required key require (im_get key (ap_attrs p)) p.
Definition ap_optional_string (key : str) : meth AttrParser (option str) := ap_get_raw key false.
Definition ap_string (key : str) : meth AttrParser str := unwrap_or [] (ap_get_raw key true).
Definition ap_optional_jid (key : str) : meth AttrParser (option Jid) :=
  meth_bind (ap_get_raw key false) (fun o =>
    match o with
    | None => meth_ret None
    | Some s =>
        match from_str s with
        | Ok j => meth_ret (Some j)
        | Err e => fun p => (None, push (BJid e) p)
        | Panic | NoFuel => meth_ret None
        end
    end).
Definition ap_jid (key : str) : meth AttrParser Jid :=
  meth_bind (ap_get_raw key true) (fun _ => unwrap_or default_jid (ap_optional_jid key)).
Definition ap_non_ad_jid (key : str) : meth AttrParser Jid :=
  meth_bind (ap_jid key) (fun j => meth_ret (to_non_ad j)).
Definition ap_get_bool : str -> bool -> meth AttrParser (option bool) := get_bool ap_get_raw.
Definition ap_optional_bool (key : str) : meth AttrParser bool := unwrap_or false (ap_get_bool key false).
Definition ap_bool (key : str) : meth AttrParser bool := unwrap_or false (ap_get_bool key true).
Definition ap_optional_u64 (key : str) : meth AttrParser (option u64) := get_u64 ap_get_raw key false.
Definition ap_get_i64 : str -> bool -> meth AttrParser (option i64) := get_i64 ap_get_raw.
Definition ap_optional_unix_time (key : str) : meth AttrParser (option i64) := ap_get_i64 key false.
Definition ap_unix_time (key : str) : meth AttrParser i64 :=
  meth_bind (ap_get_raw key true) (fun _ => unwrap_or 0 (ap_optional_unix_time key)).
Definition ap_optional_unix_milli (key : str) : meth AttrParser (option i64) := ap_get_i64 key false.
Definition ap_unix_milli (key : str) : meth AttrParser i64 :=
  meth_bind (ap_get_raw key true) (fun _ => unwrap_or 0 (ap_optional_unix_milli key)).

(** ** [impl AttrParserRef] *)

Record AttrParserRef := mkAttrParserRef {
  apr_attrs : list (str * ValueRef);
  apr_errors : list BinaryError
}.

#[export, program] Instance AttrParserRef_sink : ErrorSink AttrParserRef := {|
  errors := apr_errors;
  push e p := mkAttrParserRef (apr_attrs p) (apr_errors p ++ [e])
|}.
Next Obligation. done. Qed.

Definition apr_new (n : NodeRef) : AttrParserRef := mkAttrParserRef (rattrs n) [].
Definition apr_ok : AttrParserRef -> bool := sink_ok.
Definition apr_finish : AttrParserRef -> outcome BinaryError unit := sink_finish.
Definition apr_lookup (key : str) (a : list (str * ValueRef)) : option ValueRef :=
  match List.find (fun kv => kv.1 =s key) a with Some kv => Some kv.2 | None => None end.
Definition apr_get_raw (key : str) (require : bool) : meth AttrParserRef (option ValueRef) :=
  fun p => required key require (apr_lookup key (apr_attrs p)) p.
Definition apr_optional_string (key : str) : meth AttrParserRef (option str) :=
  meth_bind (apr_get_raw key false) (fun o =>
    meth_ret (match o with Some v => vr_as_str v | None => None end)).
Definition apr_get_string_value (key : str) (require : bool) : meth AttrParserRef (option str) :=
  meth_bind (apr_get_raw key require) (fun o => meth_ret (option_map to_string_cow o)).
Definition apr_string (key : str) : meth AttrParserRef str :=
  unwrap_or [] (apr_get_string_value key true).
Definition apr_optional_jid (key : str) : meth AttrParserRef (option Jid) :=
  meth_bind (apr_get_raw key false) (fun o =>
    match o with
    | None => meth_ret None
    | Some v =>
        match vr_to_jid v with
        | Some j => meth_ret (Some j)
        | None =>
            match v with
            | VR_String s => fun p => (None, push (AttrParse (lit "Invalid JID: " ++ s)) p)
            | VR_Jid _ => meth_ret None
            end
        end
    end).
Definition apr_jid (key : str) : meth AttrParserRef Jid :=
  meth_bind (apr_get_raw key true) (fun _ => unwrap_or default_jid (apr_optional_jid key)).
Definition apr_non_ad_jid (key : str) : meth AttrParserRef Jid :=
  meth_bind (apr_jid key) (fun j => meth_ret (to_non_ad j)).
Definition apr_get_bool : str -> bool -> meth AttrParserRef (option bool) :=
  get_bool apr_get_string_value.
Definition apr_optional_bool (key : str) : meth AttrParserRef bool :=
  unwrap_or false (apr_get_bool key false).
Definition apr_bool (key : str) : meth AttrParserRef bool := unwrap_or false (apr_get_bool key true).
Definition apr_optional_u64 (key : str) : meth AttrParserRef (option u64) :=
  get_u64 apr_get_string_value key false.
Definition apr_get_i64 : str -> bool -> meth AttrParserRef (option i64) :=
  get_i64 apr_get_string_value.
Definition apr_optional_unix_time (key : str) : meth AttrParserRef (option i64) :=
  apr_get_i64 key false.
Definition apr_unix_time (key : str) : meth AttrParserRef i64 :=
  meth_bind (apr_get_raw key true) (fun _ => unwrap_or 0 (apr_optional_unix_time key)).
Definition apr_optional_unix_milli (key : str) : meth AttrParserRef (option i64) :=
  apr_get_i64 key false.
Definition apr_unix_milli (key : str) : meth AttrParserRef i64 :=
  meth_bind (apr_get_raw key true) (fun _ => unwrap_or 0 (apr_optional_unix_milli key)).

(** ** Requests: the public getters, their answers and when they succeed *)

Inductive attr_kind :=
| K_optional_string | K_string | K_optional_jid | K_jid | K_non_ad_jid
| K_optional_bool | K_bool | K_optional_u64
| K_optional_unix_time | K_unix_time | K_optional_unix_milli | K_unix_milli.

Record attr_req := mkReq { q_kind : attr_kind; q_key : str }.

Inductive attr_val :=
| V_ostr (o : option str) | V_str (s : str) | V_ojid (o : option Jid) | V_jid (j : Jid)
| V_bool (b : bool) | V_oint (o : option Z) | V_int (z : Z).

Definition meth_map {P A B} (f : A -> B) (m : meth P A) : meth P B :=
  meth_bind m (fun a => meth_ret (f a)).

Definition ask (q : attr_req) : meth AttrParser attr_val :=
  let k := q_key q in
  match q_kind q with
  | K_optional_string => meth_map V_ostr (ap_optional_string k)
  | K_string => meth_map V_str (ap_string k)
  | K_optional_jid => meth_map V_ojid (ap_optional_jid k)
  | K_jid => meth_map V_jid (ap_jid k)
  | K_non_ad_jid => meth_map V_jid (ap_non_ad_jid k)
  | K_optional_bool => meth_map V_bool (ap_optional_bool k)
  | K_bool => meth_map V_bool (ap_bool k)
  | K_optional_u64 => meth_map V_oint (ap_optional_u64 k)
  | K_optional_unix_time => meth_map V_oint (ap_optional_unix_time k)
  | K_unix_time => meth_map V_int (ap_unix_time k)
  | K_optional_unix_milli => meth_map V_oint (ap_optional_unix_milli k)
  | K_unix_milli => meth_map V_int (ap_unix_milli k)
  end.

Definition ask_ref (q : attr_req) : meth AttrParserRef attr_val :=
  let k := q_key q in
  match q_kind q with
  | K_optional_string => meth_map V_ostr (apr_optional_string k)
  | K_string => meth_map V_str (apr_string k)
  | K_optional_jid => meth_map V_ojid (apr_optional_jid k)
  | K_jid => meth_map V_jid (apr_jid k)
  | K_non_ad_jid => meth_map V_jid (apr_non_ad_jid k)
  | K_optional_bool => meth_map V_bool (apr_optional_bool k)
  | K_bool => meth_map V_bool (apr_bool k)
  | K_optional_u64 => meth_map V_oint (apr_optional_u64 k)
  | K_optional_unix_time => meth_map V_oint (apr_optional_unix_time k)
  | K_unix_time => meth_map V_int (apr_unix_time k)
  | K_optional_unix_milli => meth_map V_oint (apr_optional_unix_milli k)
  | K_unix_milli => meth_map V_int (apr_unix_milli k)
  end.

(** A client that asks for several attributes and then calls [finish]. *)
Fixpoint ask_all {P} (f : attr_req -> meth P attr_val) (qs : list attr_req) : meth P (list attr_val) :=
  match qs with
  | [] => meth_ret []
  | q :: qs' => meth_bind (f q) (fun v => meth_map (cons v) (ask_all f qs'))
  end.

(** The contract of one request, over the attribute's text. *)
Definition or_else {A} (d : A) (o : option A) : A := match o with Some a => a | None => d end.

Definition answer (k : attr_kind) (o : option str) : attr_val :=
  let jid := match o with Some s => to_option (from_str s) | None => None end in
  let int parse := match o with Some s => to_option (parse s : outcome IntErrorKind Z) | None => None end in
  let bool := match o with Some s => parse_bool s | None => None end in
  match k with
  | K_optional_string => V_ostr o
  | K_string => V_str (or_else [] o)
  | K_optional_jid => V_ojid jid
  | K_jid => V_jid (or_else default_jid jid)
  | K_non_ad_jid => V_jid (to_non_ad (or_else default_jid jid))
  | K_optional_bool | K_bool => V_bool (or_else false bool)
  | K_optional_u64 => V_oint (int parse_u64)
  | K_optional_unix_time | K_optional_unix_milli => V_oint (int parse_i64)
  | K_unix_time | K_unix_milli => V_int (or_else 0 (int parse_i64))
  end.

Definition is_required (k : attr_kind) : bool :=
  match k with
  | K_string | K_jid | K_non_ad_jid | K_bool | K_unix_time | K_unix_milli => true
  | _ => false
  end.

Definition parses (k : attr_kind) (s : str) : bool :=
  let some {A} (o : option A) := match o with Some _ => true | None => false end in
  match k with
  | K_optional_string | K_string => true
  | K_optional_jid | K_jid | K_non_ad_jid => some (to_option (from_str s))
  | K_optional_bool | K_bool => some (parse_bool s)
  | K_optional_u64 => some (to_option (parse_u64 s))
  | _ => some (to_option (parse_i64 s))
  end.

Definition satisfied (k : attr_kind) (o : option str) : bool :=
  match o with None => negb (is_required k) | Some s => parses k s end.

(** ** Lemmas *)

Lemma from_str_returns s : returns (from_str s).
Proof.
  rewrite from_str_eq_ref. unfold from_str_ref, server_only.
  destruct (split_once AT s) as [[[|c u] srv]|]; [|done|]; by case_match.
Qed.

(** The effect of one request: the answer, unchanged attributes, and errors
    appended exactly when the request is not satisfied. *)
Definition asks {P} `{!ErrorSink P} (m : meth P attr_val) (p : P) (v : attr_val) (ok : bool) : Prop :=
  (m p).1 = v /\ exists es, errors (m p).2 = errors p ++ es /\ (es = [] <-> ok = true).

Ltac asks_done :=
  split; [done|]; simpl;
  first [ exists []; split; [by rewrite app_nil_r|by split]
        | eexists [_]; split; [done|by split] ].

Ltac unfold_ask :=
  unfold ask, ask_ref, meth_map, ap_optional_string, ap_string, ap_non_ad_jid, ap_jid,
    ap_optional_jid, ap_optional_bool, ap_bool, ap_get_bool, ap_optional_u64,
    ap_optional_unix_time, ap_unix_time, ap_optional_unix_milli, ap_unix_milli, ap_get_i64,
    get_bool, get_u64, get_i64, get_int, unwrap_or, ap_get_raw, required, meth_bind, meth_ret,
    answer, satisfied, parses.

(** Case analysis on the parser a request calls. *)
Ltac case_parser s :=
  match goal with
  | |- context [from_str s] =>
      let H := fresh in pose proof (from_str_returns s) as H; destruct (from_str s)
  | |- context [parse_bool s] => destruct (parse_bool s)
  | |- context [parse_u64 s] =>
      let H := fresh in pose proof (parse_int_returns _ _ s : returns (parse_u64 s)) as H;
      destruct (parse_u64 s)
  | |- context [parse_i64 s] =>
      let H := fresh in pose proof (parse_int_returns _ _ s : returns (parse_i64 s)) as H;
      destruct (parse_i64 s)
  | _ => idtac
  end.

Lemma ask_spec q p :
  ap_attrs (ask q p).2 = ap_attrs p
  /\ asks (ask q) p (answer (q_kind q) (im_get (q_key q) (ap_attrs p)))
       (satisfied (q_kind q) (im_get (q_key q) (ap_attrs p))).
Proof.
  destruct q as [k key], p as [a es]. unfold asks. cbn [q_kind q_key ap_attrs].
  destruct (im_get key a) as [s|] eqn:Hs; destruct k; unfold_ask;
    repeat (cbn; rewrite ?Hs); try case_parser s;
    repeat (cbn; rewrite ?Hs); try done; (split; [done|asks_done]).
Qed.

(** The attribute values on which a borrowed request answers like an owned
    one: a JID value has no text for [optional_string], and is taken as it is
    where the owned parser parses its text. *)
Definition comparable (k : attr_kind) (v : ValueRef) : Prop :=
  match k, v with
  | K_optional_string, VR_Jid _ => False
  | (K_optional_jid | K_jid | K_non_ad_jid), VR_Jid j =>
      from_str (jidref_to_string j) = Ok (jidref_to_owned j)
  | _, _ => True
  end.

Lemma ask_ref_spec q p :
  (forall v, apr_lookup (q_key q) (apr_attrs p) = Some v -> comparable (q_kind q) v) ->
  let o := option_map to_string_cow (apr_lookup (q_key q) (apr_attrs p)) in
  apr_attrs (ask_ref q p).2 = apr_attrs p
  /\ asks (ask_ref q) p (answer (q_kind q) o) (satisfied (q_kind q) o).
Proof.
  destruct q as [k key], p as [a es]. unfold asks. cbn [q_kind q_key apr_attrs]. intros Hc.
  destruct (apr_lookup key a) as [v|] eqn:Hs; [specialize (Hc v eq_refl); destruct v as [s|j]|];
    destruct k; cbn [comparable] in Hc; try done;
    unfold_ask; unfold apr_optional_string, apr_string, apr_non_ad_jid, apr_jid,
      apr_optional_jid, apr_optional_bool, apr_bool, apr_get_bool, apr_optional_u64,
      apr_optional_unix_time, apr_unix_time, apr_optional_unix_milli, apr_unix_milli, apr_get_i64,
      get_bool, get_u64, get_i64, get_int, unwrap_or, apr_get_string_value, apr_get_raw, required,
      meth_bind, meth_ret, vr_to_jid;
    repeat (cbn; rewrite ?Hs); try rewrite Hc;
    try case_parser s; try case_parser (jidref_to_string j);
    repeat (cbn; rewrite ?Hs); try done; (split; [done|asks_done]).
Qed.

(** Several requests, over any parser whose single requests behave. *)
Section AskAll.
Context {P : Type} `{!ErrorSink P}.
Context (f : attr_req -> meth P attr_val) (lookup : P -> str -> option str).
Context (good : P -> attr_req -> Prop).
Hypothesis Hf : forall q p, good p q ->
  (forall k, lookup (f q p).2 k = lookup p k)
  /\ (forall q', good p q' -> good (f q p).2 q')
  /\ asks (f q) p (answer (q_kind q) (lookup p (q_key q)))
       (satisfied (q_kind q) (lookup p (q_key q))).

Lemma ask_all_spec qs p :
  Forall (good p) qs ->
  (ask_all f qs p).1 = map (fun q => answer (q_kind q) (lookup p (q_key q))) qs
  /\ exists es, errors (ask_all f qs p).2 = errors p ++ es
     /\ (es = [] <-> forallb (fun q => satisfied (q_kind q) (lookup p (q_key q))) qs = true).
Proof.
  revert p. induction qs as [|q qs IH]; intros p Hg.
  - split; [done|]. exists []. by rewrite app_nil_r.
  - apply Forall_cons in Hg as [Hq Hqs].
    destruct (Hf q p Hq) as (Hl & Hgood & Hv & es & Hes & Hiff).
    cbn [ask_all]. unfold meth_map, meth_bind, meth_ret.
    destruct (f q p) as [v p']. cbn [fst snd] in *.
    destruct (IH p') as (Hvs & es' & Hes' & Hiff').
    { eapply Forall_impl; [exact Hqs|]. auto. }
    destruct (ask_all f qs p') as [vs p'']. cbn [fst snd] in *. split.
    + subst v vs. cbn [map]. f_equal. apply map_ext. intros q'. by rewrite Hl.
    + exists (es ++ es'). split; [by rewrite Hes', Hes, app_assoc|].
      cbn [forallb]. rewrite andb_true_iff, <- Hiff.
      rewrite (forallb_ext _ (fun q => satisfied (q_kind q) (lookup p' (q_key q))))
        by (intros q'; by rewrite Hl).
      rewrite <- Hiff'. split; [by intros [-> ->]%app_eq_nil|by intros [-> ->]].
Qed.
End AskAll.

Lemma sink_finish_Ok {P} `{!ErrorSink P} (p : P) :
  sink_finish p = Ok tt <-> errors p = [].
Proof. unfold sink_finish, sink_ok. by destruct (errors p). Qed.

Lemma ask_all_owned qs p :
  (ask_all ask qs p).1 = map (fun q => answer (q_kind q) (im_get (q_key q) (ap_attrs p))) qs
  /\ exists es, errors (ask_all ask qs p).2 = errors p ++ es
     /\ (es = [] <->
         forallb (fun q => satisfied (q_kind q) (im_get (q_key q) (ap_attrs p))) qs = true).
Proof.
  apply (ask_all_spec ask (fun p k => im_get k (ap_attrs p)) (fun _ _ => True)).
  - intros q p' _. destruct (ask_spec q p') as [Ha Hq]. by rewrite Ha.
  - by apply Forall_forall.
Qed.

Lemma ask_all_ref qs p :
  Forall (fun q => forall v, apr_lookup (q_key q) (apr_attrs p) = Some v -> comparable (q_kind q) v) qs ->
  let get k := option_map to_string_cow (apr_lookup k (apr_attrs p)) in
  (ask_all ask_ref qs p).1 = map (fun q => answer (q_kind q) (get (q_key q))) qs
  /\ exists es, errors (ask_all ask_ref qs p).2 = errors p ++ es
     /\ (es = [] <-> forallb (fun q => satisfied (q_kind q) (get (q_key q))) qs = true).
Proof.
  intros Hq. apply (ask_all_spec ask_ref
    (fun p k => option_map to_string_cow (apr_lookup k (apr_attrs p)))
    (fun p q => forall v, apr_lookup (q_key q) (apr_attrs p) = Some v -> comparable (q_kind q) v)).
  - intros q p' Hg. destruct (ask_ref_spec q p' Hg) as [Ha Hr]. by rewrite Ha.
  - done.
Qed.

(** Looking a key up in the owned copy of a node's attributes. *)
Lemma im_get_owned key (a : list (str * ValueRef)) :
  List.NoDup (map fst a) ->
  im_get key (im_collect (map (fun kv => (kv.1, to_string_cow kv.2)) a))
  = option_map to_string_cow (apr_lookup key a).
Proof.
  intros Hnd. rewrite im_collect_NoDup by (by rewrite map_map).
  unfold apr_lookup. clear Hnd. induction a as [|[k v] a IH]; cbn; [done|].
  destruct (bytes_eqb_spec key k) as [->|Hne].
  - by rewrite bytes_eqb_refl.
  - rewrite IH. by rewrite (proj2 (bytes_eqb_neq k key)) by congruence.
Qed.

(** The contract of the attribute parser.  For any node and any sequence
    of getter calls, every call returns the value [answer] gives for the
    attribute's text (the default where it is missing or does not parse), and
    [finish] succeeds exactly when every required attribute was present and
    every attribute asked for parsed; errors of one call are never lost to
    the calls after it. *)
Theorem attr_parser_finish (n : Node) (qs : list attr_req) :
  let '(vs, p) := ask_all ask qs (ap_new n) in
  vs = map (fun q => answer (q_kind q) (im_get (q_key q) (attrs n))) qs
  /\ (ap_finish p = Ok tt
      <-> forallb (fun q => satisfied (q_kind q) (im_get (q_key q) (attrs n))) qs = true).
Proof.
  destruct (ask_all_owned qs (ap_new n)) as (Hv & es & Hes & Hiff).
  destruct (ask_all ask qs (ap_new n)) as [vs p]. cbn [fst snd] in *. split; [done|].
  unfold ap_finish. by rewrite sink_finish_Ok, Hes.
Qed.

(** Reading a decoded node and reading its owned copy agree.  When the
    node's attribute keys are distinct, a sequence of getter calls on the
    borrowed parser returns the same values as on the owned parser of
    [to_owned r], and the two report success alike. *)
Theorem attr_parser_ref_refines (r : NodeRef) (qs : list attr_req) :
  List.NoDup (map fst (rattrs r)) ->
  Forall (fun q => forall v, apr_lookup (q_key q) (rattrs r) = Some v -> comparable (q_kind q) v) qs ->
  let '(vs_ref, p_ref) := ask_all ask_ref qs (apr_new r) in
  let '(vs, p) := ask_all ask qs (ap_new (to_owned r)) in
  vs_ref = vs /\ apr_ok p_ref = ap_ok p.
Proof.
  intros Hnd Hq.
  destruct (ask_all_ref qs (apr_new r) Hq) as (Hv & es & Hes & Hiff).
  destruct (ask_all_owned qs (ap_new (to_owned r))) as (Hv' & es' & Hes' & Hiff').
  destruct (ask_all ask_ref qs (apr_new r)) as [vs p].
  destruct (ask_all ask qs (ap_new (to_owned r))) as [vs' p'].
  destruct r as [t a c]. cbn [fst snd apr_new ap_new apr_attrs ap_attrs rattrs to_owned attrs] in *.
  split.
  - rewrite Hv, Hv'. apply map_ext. intros q. by rewrite im_get_owned.
  - rewrite (forallb_ext _ (fun q => satisfied (q_kind q)
      (option_map to_string_cow (apr_lookup (q_key q) a)))) in Hiff'
      by (intros q; by rewrite im_get_owned).
    rewrite <- Hiff in Hiff'. unfold apr_ok, ap_ok, sink_ok. rewrite Hes, Hes'. cbn.
    destruct es, es'; try done; by destruct Hiff' as [H1 H2]; discriminate (H1 eq_refl) || discriminate (H2 eq_refl).
Qed.

Definition sample_ref : NodeRef :=
  mkNodeRef (lit "message")
    [(lit "from", VR_Jid (mkJidRef (lit "5511") DEFAULT_USER_SERVER 0 3 0));
     (lit "t", VR_String (lit "1700000000"))] None.

Lemma attr_parser_ref_refines_witness :
  let qs := [mkReq K_jid (lit "from"); mkReq K_unix_time (lit "t"); mkReq K_bool (lit "x")] in
  let '(vs_ref, p_ref) := ask_all ask_ref qs (apr_new sample_ref) in
  let '(vs, p) := ask_all ask qs (ap_new (to_owned sample_ref)) in
  vs_ref = vs /\ apr_ok p_ref = ap_ok p.
Proof.
  apply attr_parser_ref_refines.
  - repeat constructor; cbn; intuition discriminate.
  - repeat apply Forall_cons_2; [..|apply Forall_nil_2]; intros v [= <-]; vm_compute; reflexivity || exact I.
Defined.
