(* ===== verification/Crypto.v ===== *)
(** * Cryptographic wrappers: [libsignal/src/crypto/{hash,aes_cbc,error}.rs]

    The primitives (HMAC, SHA, AES-CBC, HKDF) come from the RustCrypto crates
    and are parameters with their documented laws; this file models what the
    repository builds on them: the MAC and digest objects with their
    incremental updates and their finalisation into buffers, and the
    AES-256-CBC calls with their buffer discipline. *)

From S2P Require Import Prelude RustStd.

Definition is_byte (b : Z) : Prop := 0 <= b < 256.

(** ** The primitives *)

Inductive HashAlgo := Sha1 | Sha256 | Sha512.

Definition digest_size (a : HashAlgo) : nat :=
  match a with Sha1 => 20 | Sha256 => 32 | Sha512 => 64 end%nat.

(** [hkdf salt key info len], from the [hkdf] crate over SHA-256. *)
Class Hkdf := {
  hkdf : option bytes -> bytes -> bytes -> nat -> bytes;
  hkdf_length : forall salt key info n, length (hkdf salt key info n) = n;
  hkdf_bytes : forall salt key info n, Forall is_byte (hkdf salt key info n)
}.

(** One-shot digests and HMACs, from the [sha1], [sha2] and [hmac] crates. *)
Class Hashes := {
  sha : HashAlgo -> bytes -> bytes;
  sha_length : forall a m, length (sha a m) = digest_size a;
  hmac : HashAlgo -> bytes -> bytes -> bytes;
  hmac_length : forall a k m, length (hmac a k m) = digest_size a
}.

(** AES-256-CBC with PKCS#7 padding, from the [aes] and [cbc] crates.
    Decryption works in place: it returns the buffer and, when the padding is
    right, the length of the plaintext at its start. *)
Class AesCbc := {
  cbc_encrypt_padded : bytes -> bytes -> bytes -> bytes;
  cbc_encrypt_length : forall key iv p,
    length (cbc_encrypt_padded key iv p) = (length p + (16 - length p mod 16))%nat;
  cbc_decrypt_padded : bytes -> bytes -> bytes -> bytes * option nat;
  cbc_decrypt_encrypt : forall key iv p,
    length key = 32%nat -> length iv = 16%nat ->
    exists tail, cbc_decrypt_padded key iv (cbc_encrypt_padded key iv p)
                 = (p ++ tail, Some (length p))
}.

(** ** [enum Error] *)

Inductive CryptoError :=
| UnknownAlgorithm (what algo : str)
| InvalidKeySize
| InvalidNonceSize
| InvalidInputSize
| InvalidTag
| OutputBufferTooSmall (required provided : usize).

(** ** [CryptographicMac] *)

(** The algorithm, the key and what has been fed since the last reset. *)
Record CryptographicMac := mkMac { mac_algo : HashAlgo; mac_key : bytes; mac_fed : bytes }.

Definition one_of (s : str) (l : list string) : bool := existsb (fun x => s =s lit x) l.

Definition mac_new (algo : str) (key : bytes) : outcome CryptoError CryptographicMac :=
  if one_of algo ["HMACSha1"; "HmacSha1"]%string then Ok (mkMac Sha1 key [])
  else if one_of algo ["HMACSha256"; "HmacSha256"]%string then Ok (mkMac Sha256 key [])
  else if one_of algo ["HMACSha512"; "HmacSha512"]%string then Ok (mkMac Sha512 key [])
  else Err (UnknownAlgorithm (lit "MAC") algo).

Definition mac_update (input : bytes) (m : CryptographicMac) : CryptographicMac :=
  mkMac (mac_algo m) (mac_key m) (mac_fed m ++ input).

Definition mac_reset (m : CryptographicMac) : CryptographicMac := mkMac (mac_algo m) (mac_key m) [].

Definition mac_output_size (m : CryptographicMac) : usize := digest_size (mac_algo m).

(** ** [CryptographicHash] *)

Record CryptographicHash := mkHash { hash_algo : HashAlgo; hash_fed : bytes }.

Definition hash_new (algo : str) : outcome CryptoError CryptographicHash :=
  if one_of algo ["SHA-1"; "SHA1"; "Sha1"]%string then Ok (mkHash Sha1 [])
  else if one_of algo ["SHA-256"; "SHA256"; "Sha256"]%string then Ok (mkHash Sha256 [])
  else if one_of algo ["SHA-512"; "SHA512"; "Sha512"]%string then Ok (mkHash Sha512 [])
  else Err (UnknownAlgorithm (lit "digest") algo).

Definition hash_update (input : bytes) (h : CryptographicHash) : CryptographicHash :=
  mkHash (hash_algo h) (hash_fed h ++ input).

Definition hash_output_size (h : CryptographicHash) : usize := digest_size (hash_algo h).

(** Writing a result at the start of an output slice, when it fits. *)
Definition write_into (size : nat) (result out : bytes) : outcome CryptoError (usize * bytes) :=
  if (length out <? size)%nat then Err (OutputBufferTooSmall size (length out))
  else Ok (size, result ++ drop size out).

Section Objects.
Context `{!Hashes}.

Definition mac_finalize (m : CryptographicMac) : bytes * CryptographicMac :=
  (hmac (mac_algo m) (mac_key m) (mac_fed m), mac_reset m).

(** The object is reset only when the result was written. *)
Definition mac_finalize_into (out : bytes) (m : CryptographicMac)
    : outcome CryptoError (usize * bytes) * CryptographicMac :=
  let '(result, m') := mac_finalize m in
  match write_into (mac_output_size m) result out with
  | Ok r => (Ok r, m')
  | e => (e, m)
  end.

Definition mac_finalize_sha256_array (m : CryptographicMac)
    : outcome CryptoError bytes * CryptographicMac :=
  match mac_algo m with
  | Sha256 => let '(result, m') := mac_finalize m in (Ok result, m')
  | _ => (Err (UnknownAlgorithm (lit "MAC") (lit "Expected HmacSha256 for finalize_sha256_array")), m)
  end.

Definition hash_finalize (h : CryptographicHash) : bytes * CryptographicHash :=
  (sha (hash_algo h) (hash_fed h), mkHash (hash_algo h) []).

Definition hash_finalize_into (out : bytes) (h : CryptographicHash)
    : outcome CryptoError (usize * bytes) * CryptographicHash :=
  let '(result, h') := hash_finalize h in
  match write_into (hash_output_size h) result out with
  | Ok r => (Ok r, h')
  | e => (e, h)
  end.

Definition hash_finalize_sha256_array (h : CryptographicHash)
    : outcome CryptoError bytes * CryptographicHash :=
  match hash_algo h with
  | Sha256 => let '(result, h') := hash_finalize h in (Ok result, h')
  | _ => (Err (UnknownAlgorithm (lit "digest") (lit "Expected Sha256 for finalize_sha256_array")), h)
  end.

(** The MAC of a sequence of updates under a named algorithm: what callers do
    with [new], [update]s and [finalize]. *)
Definition mac_of (algo : str) (key : bytes) (parts : list bytes) : outcome CryptoError bytes :=
  let? m := mac_new algo key in
  Ok (mac_finalize (fold_left (fun m p => mac_update p m) parts m)).1.
End Objects.

(** ** AES-256-CBC *)

Inductive EncryptionError := E_BadKeyOrIv | E_BadPadding.
Inductive DecryptionError := D_BadKeyOrIv | D_BadCiphertext (msg : str).

Section Aes.
Context `{!AesCbc}.

(** [new_from_slices] accepts a 32-byte key and a 16-byte IV. *)
Definition key_iv_ok (key iv : bytes) : bool := (length key =? 32)%nat && (length iv =? 16)%nat.

(** Appends to the output buffer. *)
Definition aes_256_cbc_encrypt_into (ptext key iv : bytes) : comp bytes EncryptionError unit :=
  fun output =>
    let padding_needed := (16 - length ptext mod 16)%nat in
    if key_iv_ok key iv then (Ok tt, output ++ cbc_encrypt_padded key iv ptext)
    else (Err E_BadKeyOrIv, output ++ ptext ++ replicate padding_needed 0).

(** Replaces the output buffer. *)
Definition aes_256_cbc_decrypt_into (ctext key iv : bytes) : comp bytes DecryptionError unit :=
  fun output =>
    if (length ctext =? 0)%nat || negb (length ctext mod 16 =? 0)%nat then
      (Err (D_BadCiphertext (lit "ciphertext length must be a non-zero multiple of 16")), output)
    else if key_iv_ok key iv then
      match cbc_decrypt_padded key iv ctext with
      | (buf, Some n) => (Ok tt, take n buf)
      | (buf, None) => (Err (D_BadCiphertext (lit "failed to decrypt")), buf)
      end
    else (Err D_BadKeyOrIv, ctext).

Lemma padded_length (p : bytes) :
  (length p + (16 - length p mod 16) <> 0)%nat
  /\ ((length p + (16 - length p mod 16)) mod 16 = 0)%nat.
Proof.
  pose proof (Nat.mod_upper_bound (length p) 16 ltac:(lia)) as Hm.
  split; [lia|]. pose proof (Nat.div_mod_eq (length p) 16) as Hd.
  replace (length p + (16 - length p mod 16))%nat with ((length p / 16 + 1) * 16)%nat by lia.
  apply Nat.Div0.mod_mul.
Qed.

Lemma aes_roundtrip ptext key iv out out' :
  length key = 32%nat -> length iv = 16%nat ->
  exists c, aes_256_cbc_encrypt_into ptext key iv out = (Ok tt, out ++ c)
            /\ aes_256_cbc_decrypt_into c key iv out' = (Ok tt, ptext).
Proof.
  intros Hk Hi. exists (cbc_encrypt_padded key iv ptext).
  unfold aes_256_cbc_encrypt_into, aes_256_cbc_decrypt_into, key_iv_ok.
  rewrite Hk, Hi. split; [done|]. cbn [Nat.eqb andb].
  rewrite cbc_encrypt_length. destruct (padded_length ptext) as [H0 ->].
  destruct (Nat.eqb_spec (length ptext + (16 - length ptext mod 16)) 0); [done|]. cbn [orb negb Nat.eqb].
  destruct (cbc_decrypt_encrypt key iv ptext Hk Hi) as (tail & ->). by rewrite take_app_length.
Qed.
End Aes.

(** ** The incremental MAC is the MAC of the concatenation *)

Section Laws.
Context `{!Hashes}.

Lemma mac_updates (parts : list bytes) m :
  fold_left (fun m p => mac_update p m) parts m
  = mkMac (mac_algo m) (mac_key m) (mac_fed m ++ concat parts).
Proof.
  revert m. induction parts as [|p parts IH]; intros [a k f]; simpl; [by rewrite app_nil_r|].
  rewrite IH. simpl. by rewrite app_assoc.
Qed.

Lemma mac_of_256 key parts : mac_of (lit "HmacSha256") key parts = Ok (hmac Sha256 key (concat parts)).
Proof. unfold mac_of. simpl. by rewrite mac_updates. Qed.

Lemma mac_of_512 key parts : mac_of (lit "HmacSha512") key parts = Ok (hmac Sha512 key (concat parts)).
Proof. unfold mac_of. simpl. by rewrite mac_updates. Qed.

(** The MAC object.  However the input is cut into updates, finalising
    gives the HMAC of the concatenation and leaves the object as [new] made
    it; finalising into a buffer writes those bytes at its start and keeps the
    rest when they fit, and otherwise reports the sizes and changes
    neither the buffer nor the object. *)
Theorem mac_incremental (algo : str) (key : bytes) (parts : list bytes) (out : bytes) (m : CryptographicMac) :
  mac_new algo key = Ok m ->
  let fed := fold_left (fun m p => mac_update p m) parts m in
  let mac := hmac (mac_algo m) key (concat parts) in
  mac_finalize fed = (mac, m)
  /\ length mac = mac_output_size m
  /\ mac_finalize_into out fed =
     if (length out <? mac_output_size m)%nat
     then (Err (OutputBufferTooSmall (mac_output_size m) (length out)), fed)
     else (Ok (mac_output_size m, mac ++ drop (mac_output_size m) out), m).
Proof.
  intros Hm.
  assert (m = mkMac (mac_algo m) key []) as Hm'
    by (unfold mac_new in Hm; repeat case_match; by simplify_eq).
  rewrite Hm', mac_updates. cbn [mac_algo mac_key mac_fed app]. cbv zeta.
  split; [done|]. split; [apply hmac_length|].
  unfold mac_finalize_into, write_into, mac_finalize, mac_output_size, mac_reset. simpl.
  by destruct (_ <? _)%nat.
Qed.
End Laws.

(** ** Stand-in primitives, to evaluate the models on *)

Definition toy_digest (l : bytes) : Z := fold_left (fun a b => (a * 31 + b + 1) mod 65521) l 7.
Definition toy_expand (salt : option bytes) (key info : bytes) (n : nat) : bytes :=
  let h := toy_digest (match salt with Some s => s | None => [] end ++ key ++ info) in
  map (fun i => wrap 8 (h * (Z.of_nat i + 3) / 16)) (List.seq 0 n).

Lemma toy_expand_length salt key info n : length (toy_expand salt key info n) = n.
Proof. unfold toy_expand. by rewrite length_map, length_seq. Qed.

Lemma toy_expand_bytes salt key info n : Forall is_byte (toy_expand salt key info n).
Proof.
  apply Forall_forall. intros b Hb%list_elem_of_In. apply in_map_iff in Hb as (i & <- & _).
  apply (wrap_bound 8). lia.
Qed.

Definition toy_hkdf : Hkdf :=
  {| hkdf := toy_expand; hkdf_length := toy_expand_length; hkdf_bytes := toy_expand_bytes |}.

Definition toy_sha (a : HashAlgo) (m : bytes) : bytes := toy_expand None m [] (digest_size a).
Definition toy_hmac (a : HashAlgo) (k m : bytes) : bytes := toy_expand None (k ++ m) [] (digest_size a).

Definition toy_hashes : Hashes :=
  {| sha := toy_sha; sha_length a m := toy_expand_length None m [] (digest_size a);
     hmac := toy_hmac; hmac_length a k m := toy_expand_length None (k ++ m) [] (digest_size a) |}.

(** A cipher that only pads. *)
Definition toy_encrypt (key iv p : bytes) : bytes :=
  p ++ replicate (16 - length p mod 16) (Z.of_nat (16 - length p mod 16)).
Definition toy_decrypt (key iv c : bytes) : bytes * option nat :=
  (c, match last c with
      | Some v => if in_range 1 16 v then Some (length c - Z.to_nat v)%nat else None
      | None => None
      end).

Lemma toy_encrypt_length key iv p :
  length (toy_encrypt key iv p) = (length p + (16 - length p mod 16))%nat.
Proof. unfold toy_encrypt. by rewrite length_app, length_replicate. Qed.

Lemma toy_decrypt_encrypt key iv p :
  length key = 32%nat -> length iv = 16%nat ->
  exists tail, toy_decrypt key iv (toy_encrypt key iv p) = (p ++ tail, Some (length p)).
Proof.
  intros _ _. unfold toy_decrypt, toy_encrypt.
  pose proof (Nat.mod_upper_bound (length p) 16 ltac:(lia)) as Hm.
  remember (16 - length p mod 16)%nat as k eqn:Hk.
  exists (replicate k (Z.of_nat k)). f_equal.
  destruct k as [|k]; [lia|].
  rewrite last_app. replace (last (replicate (S k) (Z.of_nat (S k)))) with (Some (Z.of_nat (S k))).
  2: { replace (S k) with (k + 1)%nat at 2 by lia. rewrite replicate_add. simpl. by rewrite last_snoc. }
  replace (in_range 1 16 (Z.of_nat (S k))) with true by (symmetry; apply in_range_spec; lia).
  f_equal. rewrite length_app, length_replicate. lia.
Qed.

Definition toy_aes : AesCbc :=
  {| cbc_encrypt_padded := toy_encrypt; cbc_encrypt_length := toy_encrypt_length;
     cbc_decrypt_padded := toy_decrypt; cbc_decrypt_encrypt := toy_decrypt_encrypt |}.

Lemma mac_incremental_witness :
  let fed := fold_left (fun m p => mac_update p m) [[1; 2]; [3]] (mkMac Sha256 [9] []) in
  let mac := @hmac toy_hashes Sha256 [9] (concat [[1; 2]; [3]]) in
  @mac_finalize toy_hashes fed = (mac, mkMac Sha256 [9] [])
  /\ length mac = 32%nat
  /\ @mac_finalize_into toy_hashes [0; 0] fed =
     if (length [0; 0] <? 32)%nat
     then (Err (OutputBufferTooSmall 32 2), fed)
     else (Ok (32%nat, mac ++ drop 32 [0; 0]), mkMac Sha256 [9] []).
Proof. apply (@mac_incremental toy_hashes (lit "HmacSha256") [9]). reflexivity. Defined.
