(* ===== verification/LtHash.v ===== *)
(** * LTHash: [warp_core/appstate/src/lthash.rs]

    The homomorphic hash of an app-state collection: vectors of 64 16-bit
    little-endian lanes, to which the HKDF expansion of every value MAC is
    added and from which it is subtracted, eight lanes at a time.  The
    theorems show that the vector code is lane-wise wrapping arithmetic and
    that the hash depends only on the multiset of values it covers, whatever
    the order in which they came and went. *)

From S2P Require Import Prelude RustStd Crypto.
From Stdlib Require Import Permutation.

(** ** Lanes *)

(** [u16::from_le_bytes] and [to_le_bytes] *)
Definition u16_from_le_bytes (a b : u8) : u16 := Z.lor a (Z.shiftl b 8).
Definition u16_to_le_bytes (v : u16) : bytes := [wrap 8 v; wrap 8 (Z.shiftr v 8)].

(** [transmute] between [[u8; 2n]] and [[u16; n]] on a little-endian machine. *)
Fixpoint lanes_of_bytes (bs : bytes) : list u16 :=
  match bs with
  | a :: b :: bs' => u16_from_le_bytes a b :: lanes_of_bytes bs'
  | _ => []
  end.
Definition bytes_of_lanes (v : list u16) : bytes := flat_map u16_to_le_bytes v.

(** One lane: [wrapping_sub] or [wrapping_add] on [u16]. *)
Definition lane_op (subtract : bool) (x y : u16) : u16 :=
  if subtract then wrap 16 (x - y) else wrap 16 (x + y).

(** ** [perform_pointwise_with_overflow] *)

(** One iteration of the vector loop, on a 16-byte chunk. *)
Definition simd_chunk (subtract : bool) (base_chunk input_chunk : bytes) : bytes :=
  let base_u16 := lanes_of_bytes base_chunk in
  let input_u16 := lanes_of_bytes input_chunk in
  bytes_of_lanes (zip_with (lane_op subtract) base_u16 input_u16).

(** The scalar loop over the remainders. *)
Fixpoint scalar_tail (subtract : bool) (base_rem input_rem : bytes) : bytes :=
  match base_rem, input_rem with
  | a :: b :: base', c :: d :: input' =>
      let x := u16_from_le_bytes a b in
      let y := u16_from_le_bytes c d in
      u16_to_le_bytes (lane_op subtract x y) ++ scalar_tail subtract base' input'
  | _, _ => base_rem
  end.

Definition perform_pointwise_with_overflow {E} (base input : bytes) (subtract : bool)
    : outcome E bytes :=
  if negb (length base =? length input)%nat then Panic
  else if negb (length base mod 2 =? 0)%nat then Panic
  else
    let '(base_chunks, base_remainder) := as_chunks 16 base in
    let '(input_chunks, input_remainder) := as_chunks 16 input in
    Ok (concat (zip_with (simd_chunk subtract) base_chunks input_chunks)
        ++ scalar_tail subtract base_remainder input_remainder).

(** ** [impl LTHash] *)

Record LTHash := mkLTHash { hkdf_info : bytes; hkdf_size : u8 }.

Definition WAPATCH_INTEGRITY : LTHash := mkLTHash (lit "WhatsApp Patch Integrity") 128.

Section LTHash.
Context `{!Hkdf}.

Definition hkdf_sha256 (key : bytes) (salt : option bytes) (info : bytes) (len : u8) : bytes :=
  hkdf salt key info (Z.to_nat len).

Fixpoint multiple_op {E} (h : LTHash) (base : bytes) (input : list bytes) (subtract : bool)
    : outcome E bytes :=
  match input with
  | [] => Ok base
  | item :: input' =>
      let derived := hkdf_sha256 item None (hkdf_info h) (hkdf_size h) in
      let? base' := perform_pointwise_with_overflow base derived subtract in
      multiple_op h base' input' subtract
  end.

Definition subtract_then_add_in_place {E} (h : LTHash) (base : bytes) (subtract add : list bytes)
    : outcome E bytes :=
  let? base' := multiple_op h base subtract true in
  multiple_op h base' add false.

Definition subtract_then_add {E} (h : LTHash) (base : bytes) (subtract add : list bytes)
    : outcome E bytes :=
  subtract_then_add_in_place h base subtract add.
End LTHash.

(** ** The reference: lane-wise wrapping arithmetic *)

(** All the lanes of a vector at once, no chunks. *)
Definition lanes_op (subtract : bool) (base input : bytes) : bytes :=
  bytes_of_lanes (zip_with (lane_op subtract) (lanes_of_bytes base) (lanes_of_bytes input)).

Lemma lanes_of_bytes_app a b :
  Nat.Even (length a) -> lanes_of_bytes (a ++ b) = lanes_of_bytes a ++ lanes_of_bytes b.
Proof.
  intros [k Hk]. revert a Hk. induction k as [|k IH]; intros [|x [|y a]] Hk; simpl in *;
    try done; try lia.
  f_equal. apply IH. lia.
Qed.

Lemma lanes_length bs k : length bs = (2 * k)%nat -> length (lanes_of_bytes bs) = k.
Proof.
  revert bs. induction k as [|k IH]; intros [|x [|y bs]] Hk; simpl in *; try done; try lia.
  rewrite IH; lia.
Qed.

Lemma zip_with_app' {A B C} (f : A -> B -> C) a1 a2 b1 b2 :
  length a1 = length b1 ->
  zip_with f (a1 ++ a2) (b1 ++ b2) = zip_with f a1 b1 ++ zip_with f a2 b2.
Proof.
  revert b1. induction a1 as [|x a1 IH]; intros [|y b1] Hl; simpl in *; try done.
  f_equal. apply IH. lia.
Qed.

(** The lane operation splits where the byte vectors are split evenly. *)
Lemma lanes_op_app s a1 a2 b1 b2 :
  length a1 = length b1 -> Nat.Even (length a1) ->
  lanes_op s (a1 ++ a2) (b1 ++ b2) = lanes_op s a1 b1 ++ lanes_op s a2 b2.
Proof.
  intros Hl He. pose proof He as [k Hk]. unfold lanes_op.
  rewrite !lanes_of_bytes_app by (by rewrite <- ?Hl).
  rewrite zip_with_app' by (rewrite !(lanes_length _ k); lia).
  unfold bytes_of_lanes. by rewrite flat_map_app.
Qed.

Lemma scalar_tail_lanes s a b :
  length a = length b -> Nat.Even (length a) -> scalar_tail s a b = lanes_op s a b.
Proof.
  intros Hl [k Hk]. revert a b Hl Hk.
  induction k as [|k IH]; intros [|x [|y a]] [|z [|w b]] Hl Hk; simpl in *; try done; try lia.
  change (lanes_op s (x :: y :: a) (z :: w :: b))
    with (u16_to_le_bytes (lane_op s (u16_from_le_bytes x y) (u16_from_le_bytes z w))
          ++ lanes_op s a b).
  cbn [u16_to_le_bytes app]. do 2 f_equal. apply IH; lia.
Qed.

(** Both vectors are cut at the same places. *)
Lemma chunks_fuel_same {A} f g n (a b : list A) :
  length a = length b ->
  (length a <= f)%nat -> (length b <= g)%nat -> (0 < n)%nat ->
  length (chunks_fuel f n a).1 = length (chunks_fuel g n b).1
  /\ length (chunks_fuel f n a).2 = length (chunks_fuel g n b).2.
Proof.
  revert g a b. induction f as [|f IH]; intros g a b Hl Hf Hg Hn.
  - destruct a, b; simpl in *; try lia. destruct g; simpl; [done|].
    case_decide; [lia|done].
  - destruct g as [|g].
    { destruct a, b; simpl in *; try lia. case_decide; [lia|done]. }
    simpl. rewrite Hl. case_decide as Hd; [|done].
    destruct (IH g (drop n a) (drop n b)) as [H1 H2]; rewrite ?length_drop; try lia.
    destruct (chunks_fuel f n (drop n a)), (chunks_fuel g n (drop n b)). simpl in *. lia.
Qed.

Lemma simd_chunks_lanes s bc ic br ir :
  length bc = length ic ->
  Forall (fun c => length c = 16%nat) bc -> Forall (fun c => length c = 16%nat) ic ->
  concat (zip_with (simd_chunk s) bc ic) ++ lanes_op s br ir
  = lanes_op s (mjoin bc ++ br) (mjoin ic ++ ir).
Proof.
  intros Hl Hb. revert ic Hl. induction Hb as [|b bc Hb Hbc IH]; intros [|i ic] Hl Hi; try done.
  apply Forall_cons in Hi as [Hi Hic].
  change (mjoin (b :: bc)) with (b ++ mjoin bc). change (mjoin (i :: ic)) with (i ++ mjoin ic).
  cbn [zip_with concat]. rewrite <- !app_assoc, IH; [|simpl in Hl; lia|done].
  rewrite (lanes_op_app s b _ i); [done|lia|]. rewrite Hb. by exists 8%nat.
Qed.

Lemma even_mod n : (n mod 2 =? 0)%nat = true <-> Nat.Even n.
Proof.
  rewrite Nat.eqb_eq. split.
  - intros H. exists (n / 2)%nat. pose proof (Nat.div_mod_eq n 2). lia.
  - intros [k ->]. rewrite Nat.mul_comm. apply Nat.Div0.mod_mul.
Qed.

Lemma perform_pointwise_eq {E} base input s :
  perform_pointwise_with_overflow (E := E) base input s =
  if (length base =? length input)%nat && (length base mod 2 =? 0)%nat
  then Ok (lanes_op s base input) else Panic.
Proof.
  unfold perform_pointwise_with_overflow.
  destruct (Nat.eqb_spec (length base) (length input)) as [Hl|]; [|done].
  destruct (length base mod 2 =? 0)%nat eqn:He; [|done]. cbn [negb andb].
  apply even_mod in He as [k Hk].
  pose proof (as_chunks_concat 16 base) as Hb. pose proof (as_chunks_length 16 base) as Hbl.
  pose proof (as_chunks_concat 16 input) as Hi. pose proof (as_chunks_length 16 input) as Hil.
  destruct (chunks_fuel_same (length base) (length input) 16 base input) as [H1 H2]; [lia..|].
  unfold as_chunks in *.
  destruct (chunks_fuel (length base) 16 base) as [bc br].
  destruct (chunks_fuel (length input) 16 input) as [ic ir]. cbn [fst snd] in *.
  assert (length base = length bc * 16 + length br)%nat as Hlen.
  { rewrite <- Hb, length_app. f_equal. clear - Hbl.
    induction Hbl as [|c cs Hc Hcs IH]; [done|].
    change (mjoin (c :: cs)) with (c ++ mjoin cs). rewrite length_app, IH. simpl. lia. }
  rewrite scalar_tail_lanes by (lia || (exists (k - length bc * 8)%nat; lia)).
  rewrite simd_chunks_lanes by done. by rewrite Hb, Hi.
Qed.

(** The vector code is wrapping 16-bit arithmetic on every lane.  For any
    two byte vectors, chunked addition or subtraction returns the lane-wise
    result with the scalar definition on all lanes at once, and panics exactly
    when the lengths differ or are odd. *)
Theorem pointwise_is_lanewise (base input : bytes) (subtract : bool) :
  perform_pointwise_with_overflow (E := Empty_set) base input subtract =
  if (length base =? length input)%nat && (length base mod 2 =? 0)%nat
  then Ok (bytes_of_lanes (zip_with (lane_op subtract) (lanes_of_bytes base) (lanes_of_bytes input)))
  else Panic.
Proof. apply perform_pointwise_eq. Qed.

(** ** The group of hash values

    Byte vectors of a fixed even length, each byte in range, correspond one to
    one to vectors of [u16] lanes, which form a commutative group under
    [lane_op]. *)

Definition is_u16 (v : Z) : Prop := 0 <= v < 2 ^ 16.

(** The vectors the hash works on. *)
Definition vec (k : nat) (bs : bytes) : Prop := length bs = (2 * k)%nat /\ Forall is_byte bs.

Lemma le_bytes_roundtrip v : is_u16 v -> u16_from_le_bytes (wrap 8 v) (wrap 8 (Z.shiftr v 8)) = v.
Proof.
  unfold is_u16, u16_from_le_bytes, wrap. intros Hv. rewrite Z.lor_comm, Z.shiftr_div_pow2 by lia.
  rewrite lor_shiftl_add by (lia || apply Z.mod_pos_bound; lia).
  change (2 ^ 8) with 256. change (2 ^ 16) with 65536 in *.
  Z.div_mod_to_equations. lia.
Qed.

Lemma le_lane_range a b : is_byte a -> is_byte b -> is_u16 (u16_from_le_bytes a b).
Proof.
  unfold is_byte, is_u16, u16_from_le_bytes. intros. rewrite Z.lor_comm, lor_shiftl_add by lia. lia.
Qed.

Lemma le_lane_roundtrip a b :
  is_byte a -> is_byte b -> u16_to_le_bytes (u16_from_le_bytes a b) = [a; b].
Proof.
  unfold is_byte, u16_to_le_bytes, u16_from_le_bytes, wrap. intros.
  rewrite Z.lor_comm, lor_shiftl_add, Z.shiftr_div_pow2 by lia. change (2 ^ 8) with 256.
  f_equal; [|f_equal]; Z.div_mod_to_equations; lia.
Qed.

Lemma lane_op_range s x y : is_u16 (lane_op s x y).
Proof. unfold lane_op, is_u16. destruct s; apply wrap_bound; lia. Qed.

Lemma lanes_range bs : Forall is_byte bs -> Forall is_u16 (lanes_of_bytes bs).
Proof.
  induction bs as [bs IH] using (induction_ltof1 _ (@length _)). unfold ltof in IH.
  destruct bs as [|a [|b bs]]; intros H; simpl; try constructor.
  - inversion H as [|? ? Ha H']. inversion H'. by apply le_lane_range.
  - apply IH; [simpl; lia|]. by apply Forall_inv_tail, Forall_inv_tail in H.
Qed.

Lemma lanes_of_bytes_of_lanes v : Forall is_u16 v -> lanes_of_bytes (bytes_of_lanes v) = v.
Proof.
  induction 1 as [|x v Hx Hv IH]; simpl; [done|]. by rewrite IH, le_bytes_roundtrip.
Qed.

Lemma bytes_of_lanes_of_bytes k bs : vec k bs -> bytes_of_lanes (lanes_of_bytes bs) = bs.
Proof.
  intros [Hl Hb]. revert bs Hl Hb.
  induction k as [|k IH]; intros [|a [|b bs]] Hl Hb; simpl in Hl; try done; try lia.
  apply Forall_cons in Hb as [Ha Hb]. apply Forall_cons in Hb as [Hb Hbs].
  change (bytes_of_lanes (lanes_of_bytes (a :: b :: bs)))
    with (u16_to_le_bytes (u16_from_le_bytes a b) ++ bytes_of_lanes (lanes_of_bytes bs)).
  rewrite le_lane_roundtrip, IH by (done || lia). done.
Qed.

Lemma bytes_of_lanes_vec v k : length v = k -> Forall is_u16 v -> vec k (bytes_of_lanes v).
Proof.
  intros <- H. split.
  - clear H. induction v as [|x v IH]; simpl; [done|]. rewrite IH. lia.
  - induction H as [|x v Hx Hv IH]; simpl; [constructor|].
    apply Forall_cons_2; [apply (wrap_bound 8); lia|].
    apply Forall_cons_2; [apply (wrap_bound 8); lia|done].
Qed.

Lemma zip_lane_range s a b : Forall is_u16 (zip_with (lane_op s) a b).
Proof.
  revert b. induction a as [|x a IH]; intros [|y b]; simpl; constructor; [apply lane_op_range|done].
Qed.

Lemma vec_lanes_length k bs : vec k bs -> length (lanes_of_bytes bs) = k.
Proof. intros [H _]. by apply lanes_length. Qed.

Lemma lanes_op_vec s k a b : vec k a -> vec k b -> vec k (lanes_op s a b).
Proof.
  intros Ha Hb. apply bytes_of_lanes_vec; [|apply zip_lane_range].
  rewrite length_zip_with, (vec_lanes_length k a), (vec_lanes_length k b) by done. lia.
Qed.

Lemma lanes_of_op s a b :
  lanes_of_bytes (lanes_op s a b) = zip_with (lane_op s) (lanes_of_bytes a) (lanes_of_bytes b).
Proof. apply lanes_of_bytes_of_lanes, zip_lane_range. Qed.

(** The hash values reached by adding to and subtracting from a vector; the
    order of any two operations can be exchanged. *)
Lemma lane_op_swap s t x y z : lane_op t (lane_op s x y) z = lane_op s (lane_op t x z) y.
Proof.
  unfold lane_op, wrap. destruct s, t;
    rewrite ?Zminus_mod_idemp_l, ?Zplus_mod_idemp_l; f_equal; lia.
Qed.

Lemma lanes_op_swap s t a b c : lanes_op t (lanes_op s a b) c = lanes_op s (lanes_op t a c) b.
Proof.
  unfold lanes_op at 1 3. rewrite !lanes_of_op. f_equal.
  generalize (lanes_of_bytes a) (lanes_of_bytes b) (lanes_of_bytes c). clear.
  intros a. induction a as [|x a IH]; intros [|y b] [|z c]; try done.
  cbn [zip_with]. by rewrite lane_op_swap, IH.
Qed.

Lemma lane_op_cancel x y : is_u16 x -> lane_op true (lane_op false x y) y = x.
Proof.
  unfold lane_op, wrap, is_u16. intros Hx. rewrite Zminus_mod_idemp_l.
  replace (x + y - y) with x by lia. by apply Z.mod_small.
Qed.

Lemma lanes_op_cancel k a b : vec k a -> vec k b -> lanes_op true (lanes_op false a b) b = a.
Proof.
  intros Ha Hb. unfold lanes_op at 1. rewrite lanes_of_op.
  rewrite <- (bytes_of_lanes_of_bytes k a) at 2 by done. f_equal.
  pose proof (lanes_range a (proj2 Ha)) as Hr.
  pose proof (vec_lanes_length k a Ha) as La. pose proof (vec_lanes_length k b Hb) as Lb.
  revert La Lb Hr. generalize (lanes_of_bytes a) (lanes_of_bytes b). clear.
  intros a b <- Hl Hr. revert b Hl.
  induction Hr as [|x a Hx Ha IH]; intros [|y b] Hl; try done.
  cbn [zip_with]. rewrite lane_op_cancel by done. f_equal. apply IH. by injection Hl.
Qed.

(** ** The hash of a multiset *)

Section Multiset.
Context `{!Hkdf}.

(** The vector a value contributes. *)
Definition lt_item (v : bytes) : bytes :=
  hkdf_sha256 v None (hkdf_info WAPATCH_INTEGRITY) (hkdf_size WAPATCH_INTEGRITY).

Definition lt_add (base v : bytes) : bytes := lanes_op false base (lt_item v).
Definition lt_sub (base v : bytes) : bytes := lanes_op true base (lt_item v).

Lemma lt_item_vec v : vec 64 (lt_item v).
Proof. split; [apply hkdf_length|apply hkdf_bytes]. Qed.

Lemma lt_add_vec h v : vec 64 h -> vec 64 (lt_add h v).
Proof. intros. apply lanes_op_vec; [done|apply lt_item_vec]. Qed.

Lemma lt_sub_vec h v : vec 64 h -> vec 64 (lt_sub h v).
Proof. intros. apply lanes_op_vec; [done|apply lt_item_vec]. Qed.

Lemma fold_lt_vec (f : bytes -> bytes -> bytes) h l :
  (forall h v, vec 64 h -> vec 64 (f h v)) -> vec 64 h -> vec 64 (fold_left f l h).
Proof. intros Hf. revert h. induction l as [|v l IH]; intros h Hh; simpl; auto. Qed.

Lemma lt_add_swap h v w : lt_add (lt_add h v) w = lt_add (lt_add h w) v.
Proof. apply lanes_op_swap. Qed.

Lemma lt_sub_swap h v w : lt_sub (lt_sub h v) w = lt_sub (lt_sub h w) v.
Proof. apply lanes_op_swap. Qed.

Lemma lt_add_sub_swap h v w : lt_sub (lt_add h v) w = lt_add (lt_sub h w) v.
Proof. apply lanes_op_swap. Qed.

Lemma lt_cancel h v : vec 64 h -> lt_sub (lt_add h v) v = h.
Proof. intros. apply (lanes_op_cancel 64); [done|apply lt_item_vec]. Qed.

(** [multiple_op] is a fold of lane operations; on a vector of the hash's size
    it never panics. *)
Lemma multiple_op_fold {E} h l (s : bool) :
  vec 64 h ->
  multiple_op (E := E) WAPATCH_INTEGRITY h l s = Ok (fold_left (if s then lt_sub else lt_add) l h).
Proof.
  revert h. induction l as [|v l IH]; intros h Hh; cbn [multiple_op fold_left]; [done|].
  change (hkdf_sha256 v None _ _) with (lt_item v). rewrite perform_pointwise_eq.
  destruct Hh as [Hl Hb]. destruct (lt_item_vec v) as [Hi _]. rewrite Hl, Hi. cbn [obind].
  change ((2 * 64 =? 2 * 64)%nat && (2 * 64 mod 2 =? 0)%nat) with true. cbn [obind].
  destruct s; cbn [obind].
  - apply IH. by apply lt_sub_vec.
  - apply IH. by apply lt_add_vec.
Qed.

Lemma subtract_then_add_fold {E} h sub add :
  vec 64 h ->
  subtract_then_add_in_place (E := E) WAPATCH_INTEGRITY h sub add
  = Ok (fold_left lt_add add (fold_left lt_sub sub h)).
Proof.
  intros Hh. unfold subtract_then_add_in_place. rewrite multiple_op_fold by done. cbn [obind].
  rewrite multiple_op_fold; [done|]. apply fold_lt_vec; [apply lt_sub_vec|done].
Qed.

Lemma fold_left_perm {A B} (f : A -> B -> A) l l' (a : A) :
  (forall a x y, f (f a x) y = f (f a y) x) ->
  Permutation l l' -> fold_left f l a = fold_left f l' a.
Proof.
  intros Hf Hp. revert a. induction Hp; intros a; simpl; auto.
  - by rewrite Hf.
  - by rewrite IHHp1.
Qed.

Lemma fold_left_push {A B} (f g : A -> B -> A) l (a : A) x :
  (forall a x y, f (g a x) y = g (f a y) x) ->
  fold_left f l (g a x) = g (fold_left f l a) x.
Proof.
  intros Hfg. revert a. induction l as [|y l IH]; intros a; simpl; [done|]. by rewrite Hfg, IH.
Qed.

Lemma fold_sub_add_comm l m h :
  fold_left lt_add m (fold_left lt_sub l h) = fold_left lt_sub l (fold_left lt_add m h).
Proof.
  revert h. induction m as [|v m IH]; intros h; simpl; [done|].
  rewrite <- IH. f_equal. symmetry. apply fold_left_push. intros. apply lt_add_sub_swap.
Qed.

Lemma fold_cancel l h : vec 64 h -> fold_left lt_sub l (fold_left lt_add l h) = h.
Proof.
  revert h. induction l as [|v l IH]; intros h Hh; simpl; [done|].
  rewrite (fold_left_push lt_add lt_add) by apply lt_add_swap.
  rewrite lt_cancel by (by apply fold_lt_vec; [apply lt_add_vec|]). by apply IH.
Qed.

(** The hash is a function of the multiset of values it covers.  From any
    128-byte hash, subtracting and adding values never panics, gives a
    128-byte hash that does not depend on the order of the subtracted or of
    the added values, and adding values and later subtracting them, in any
    order, gives back the hash from before. *)
Theorem lthash_multiset (h : bytes) (sub sub' add add' : list bytes) :
  vec 64 h -> Permutation sub sub' -> Permutation add add' ->
  exists h', vec 64 h'
    /\ subtract_then_add (E := Empty_set) WAPATCH_INTEGRITY h sub add = Ok h'
    /\ subtract_then_add (E := Empty_set) WAPATCH_INTEGRITY h sub' add' = Ok h'
    /\ (sub = [] -> subtract_then_add (E := Empty_set) WAPATCH_INTEGRITY h' add' [] = Ok h).
Proof.
  intros Hh Hs Ha. unfold subtract_then_add.
  set (h' := fold_left lt_add add (fold_left lt_sub sub h)).
  assert (vec 64 h') as Hv.
  { apply fold_lt_vec; [apply lt_add_vec|]. apply fold_lt_vec; [apply lt_sub_vec|done]. }
  exists h'. split; [done|]. rewrite !subtract_then_add_fold by done. split; [done|]. split.
  - f_equal. rewrite <- (fold_left_perm lt_add _ _ _ lt_add_swap Ha).
    by rewrite <- (fold_left_perm lt_sub _ _ _ lt_sub_swap Hs).
  - intros ->. cbn [fold_left] in *. f_equal. subst h'. cbn [fold_left].
    rewrite <- (fold_left_perm lt_sub _ _ _ lt_sub_swap Ha). by apply fold_cancel.
Qed.
End Multiset.

#[local] Existing Instance toy_hkdf.

Lemma lthash_multiset_witness :
  exists h', vec 64 h'
    /\ subtract_then_add (E := Empty_set) WAPATCH_INTEGRITY (replicate 128 0) [] [[1; 2]; [9]] = Ok h'
    /\ subtract_then_add (E := Empty_set) WAPATCH_INTEGRITY (replicate 128 0) [] [[9]; [1; 2]] = Ok h'
    /\ (@nil bytes = [] ->
        subtract_then_add (E := Empty_set) WAPATCH_INTEGRITY h' [[9]; [1; 2]] [] = Ok (replicate 128 0)).
Proof.
  apply lthash_multiset.
  - split; [done|]. apply Forall_replicate. unfold is_byte. lia.
  - constructor.
  - apply perm_swap.
Defined.
