(* ===== verification/AppState.v ===== *)
(** * App state: [warp_core/appstate/src/{hash,keys,decode,processor,errors}.rs]

    Snapshots and patches of an app-state collection: the hash state they
    update, the MACs that protect them, and the decoding of their records.
    Protobuf decoding and JSON parsing are parameters; HKDF, HMAC and AES come
    from [Crypto].  The theorems show that an accepted patch keeps the hash
    equal to the LTHash of the values the MAC store holds, and that with
    validation on nothing is accepted unless its MACs are right. *)

From stdpp Require Import gmap.
From S2P Require Import Prelude RustStd Crypto LtHash.
From Stdlib Require Import Permutation.

(** ** Errors: [enum AppStateError] *)

Inductive AppStateError :=
| MissingPreviousSetValueOperation
| MismatchingLTHash
| MismatchingPatchMAC
| MismatchingContentMAC
| MismatchingIndexMAC
| KeyNotFound
| MissingValueBlob
| ValueBlobTooShort
| DecryptionFailed
| DecodeFailed
| MissingIndexMAC
| MissingKeyId
| SnapshotMACMismatch
| PatchSnapshotMACMismatch
| PatchMACMismatch.

(** ** The protobuf messages, as far as the code reads them *)

Record KeyId := mkKeyId { kid_id : option bytes }.
Record SyncdIndex := mkSyncdIndex { idx_blob : option bytes }.
Record SyncdValue := mkSyncdValue { val_blob : option bytes }.
Record SyncdVersion := mkSyncdVersion { ver_version : option u64 }.
Record SyncdRecord := mkSyncdRecord {
  rec_index : option SyncdIndex;
  rec_value : option SyncdValue;
  rec_key_id : option KeyId
}.
Record SyncdMutation := mkSyncdMutation {
  mut_operation : option i32;
  mut_record : option SyncdRecord
}.
Record SyncdPatch := mkSyncdPatch {
  patch_version : option SyncdVersion;
  patch_mutations : list SyncdMutation;
  patch_snapshot_mac : option bytes;
  patch_mac : option bytes;
  patch_key_id : option KeyId
}.
Record SyncdSnapshot := mkSyncdSnapshot {
  snap_version : option SyncdVersion;
  snap_records : list SyncdRecord;
  snap_mac : option bytes;
  snap_key_id : option KeyId
}.

(** [enum SyncdOperation] and its conversions to and from [i32]. *)
Inductive SyncdOperation := OpSet | OpRemove.
Definition op_as_i32 (op : SyncdOperation) : i32 := match op with OpSet => 0 | OpRemove => 1 end.
Definition op_try_from (v : i32) : option SyncdOperation :=
  if v =? 0 then Some OpSet else if v =? 1 then Some OpRemove else None.

(** [x.as_ref().and_then(|x| x.field.as_ref())] *)
Definition key_id_of (k : option KeyId) : option bytes :=
  match k with Some k => kid_id k | None => None end.
Definition index_blob (r : SyncdRecord) : option bytes :=
  match rec_index r with Some i => idx_blob i | None => None end.
Definition value_blob (r : SyncdRecord) : option bytes :=
  match rec_value r with Some v => val_blob v | None => None end.
Definition version_of (v : option SyncdVersion) : u64 :=
  match v with Some v => match ver_version v with Some n => n | None => 0 end | None => 0 end.

(** [blob[blob.len() - 32..].to_vec()], of a blob of at least 32 bytes *)
Definition last32 (blob : bytes) : bytes := drop (length blob - 32) blob.

(** The value MAC a record ends with, if its blob is long enough. *)
Definition value_mac_of (r : SyncdRecord) : option bytes :=
  match value_blob r with
  | Some blob => if (32 <=? length blob)%nat then Some (last32 blob) else None
  | None => None
  end.

(** ** [HashState] *)

Record HashState := mkHashState {
  hs_version : u64;
  hs_hash : bytes;
  hs_index_value_map : gmap str bytes
}.

Definition hash_state_default : HashState := mkHashState 0 (replicate 128 0) ∅.

Definition set_version (v : u64) (s : HashState) : HashState :=
  mkHashState v (hs_hash s) (hs_index_value_map s).
Definition set_hash (h : bytes) (s : HashState) : HashState :=
  mkHashState (hs_version s) h (hs_index_value_map s).

(** [.expect(..)]: an error is a panic. *)
Definition expect {E F A} (m : outcome E A) : outcome F A :=
  match m with Ok a => Ok a | Err _ | Panic => Panic | NoFuel => NoFuel end.

(** What the loop of [update_hash] collects. *)
Record hash_scan := mkScan {
  sc_added : list bytes;
  sc_removed : list bytes;
  sc_warnings : list AppStateError
}.

Section UpdateHash.
Context `{!Hkdf}.
Context {E : Type} (get_prev_set_value_mac : bytes -> usize -> outcome E (option bytes)).

Definition scan_mutation (i : usize) (m : SyncdMutation) (acc : hash_scan)
    : outcome (list AppStateError * E) hash_scan :=
  let op := match mut_operation m with Some o => o | None => 0 end in
  let acc :=
    match (if op =? op_as_i32 OpSet then mut_record m else None) with
    | Some r =>
        match value_mac_of r with
        | Some v => mkScan (sc_added acc ++ [v]) (sc_removed acc) (sc_warnings acc)
        | None => acc
        end
    | None => acc
    end in
  let index_mac_opt := match mut_record m with Some r => index_blob r | None => None end in
  match index_mac_opt with
  | None => Ok acc
  | Some index_mac =>
      match get_prev_set_value_mac index_mac i with
      | Ok (Some prev) => Ok (mkScan (sc_added acc) (sc_removed acc ++ [prev]) (sc_warnings acc))
      | Ok None =>
          if op =? op_as_i32 OpRemove
          then Ok (mkScan (sc_added acc) (sc_removed acc)
                     (sc_warnings acc ++ [MissingPreviousSetValueOperation]))
          else Ok acc
      | Err e => Err (sc_warnings acc, e)
      | Panic => Panic
      | NoFuel => NoFuel
      end
  end.

Fixpoint scan_mutations (i : usize) (ms : list SyncdMutation) (acc : hash_scan)
    : outcome (list AppStateError * E) hash_scan :=
  match ms with
  | [] => Ok acc
  | m :: ms' =>
      let? acc' := scan_mutation i m acc in
      scan_mutations (S i) ms' acc'
  end.

(** Returns the warnings with the result; the hash changes only on success. *)
Definition update_hash (mutations : list SyncdMutation) (self : HashState)
    : outcome (list AppStateError * E) (list AppStateError) * HashState :=
  match scan_mutations 0 mutations (mkScan [] [] []) with
  | Ok sc =>
      match subtract_then_add_in_place WAPATCH_INTEGRITY (hs_hash self)
              (sc_removed sc) (sc_added sc) with
      | Ok h => (Ok (sc_warnings sc), set_hash h self)
      | Err e => (Err e, self)
      | Panic => (Panic, self)
      | NoFuel => (NoFuel, self)
      end
  | Err e => (Err e, self)
  | Panic => (Panic, self)
  | NoFuel => (NoFuel, self)
  end.
End UpdateHash.

(** [filter_map] over the records' value MACs. *)
Definition records_added (records : list SyncdRecord) : list bytes :=
  flat_map (fun r => match value_mac_of r with Some v => [v] | None => [] end) records.

Definition update_hash_from_records `{!Hkdf} {E} (records : list SyncdRecord) (self : HashState)
    : outcome E HashState :=
  let? h := subtract_then_add_in_place WAPATCH_INTEGRITY (hs_hash self) [] (records_added records) in
  Ok (set_hash h self).

(** ** MACs *)

Section Macs.
Context `{!Hashes}.

Definition u64_to_be (val : u64) : bytes := u64_to_be_bytes val.

Definition generate_snapshot_mac {E} (self : HashState) (name : str) (key : bytes) : outcome E bytes :=
  expect (mac_of (lit "HmacSha256") key [hs_hash self; u64_to_be (hs_version self); name]).

Definition patch_mac_parts (patch : SyncdPatch) (name : str) (version : u64) : list bytes :=
  (match patch_snapshot_mac patch with Some sm => [sm] | None => [] end)
  ++ flat_map (fun m => match mut_record m with
                        | Some r => match value_mac_of r with Some v => [v] | None => [] end
                        | None => []
                        end) (patch_mutations patch)
  ++ [u64_to_be version; name].

Definition generate_patch_mac {E} (patch : SyncdPatch) (name : str) (key : bytes) (version : u64)
    : outcome E bytes :=
  expect (mac_of (lit "HmacSha256") key (patch_mac_parts patch name version)).

(** [mac_full[..32]] *)
Definition generate_content_mac {E} (operation : SyncdOperation) (data key_id key : bytes)
    : outcome E bytes :=
  let op_byte := [wrap 8 (op_as_i32 operation + 1)] in
  let key_data_length := u64_to_be (Z.of_nat (length key_id + 1)) in
  let? mac_full := expect (mac_of (lit "HmacSha512") key [op_byte; key_id; data; key_data_length]) in
  if (32 <=? length mac_full)%nat then Ok (take 32 mac_full) else Panic.

Definition validate_index_mac (index_json_bytes expected_mac key : bytes) : outcome AppStateError unit :=
  let? computed := expect (mac_of (lit "HmacSha256") key [index_json_bytes]) in
  if negb (computed =s expected_mac) then Err MismatchingIndexMAC else Ok tt.
End Macs.

(** ** Keys *)

Record ExpandedAppStateKeys := mkKeys {
  k_index : bytes;
  k_value_encryption : bytes;
  k_value_mac : bytes;
  k_snapshot_mac : bytes;
  k_patch_mac : bytes
}.

Definition expand_app_state_keys `{!Hkdf} (key_data : bytes) : ExpandedAppStateKeys :=
  let okm := hkdf None key_data (lit "WhatsApp Mutation Keys") 160 in
  let take32 start := slice start (start + 32) okm in
  mkKeys (take32 0%nat) (take32 32%nat) (take32 64%nat) (take32 96%nat) (take32 128%nat).

(** ** Records *)

(** [SyncActionData], over the action values. *)
Record SyncActionData (V : Type) := mkActionData { act_index : option bytes; act_value : option V }.
Arguments mkActionData {V} _ _.
Arguments act_index {V} _.
Arguments act_value {V} _.

Record Mutation (V : Type) := mkMutation {
  mu_action_value : option V;
  mu_index_mac : bytes;
  mu_value_mac : bytes;
  mu_index : list str;
  mu_operation : SyncdOperation
}.
Arguments mkMutation {V} _ _ _ _ _.
Arguments mu_action_value {V} _.
Arguments mu_index_mac {V} _.
Arguments mu_value_mac {V} _.
Arguments mu_index {V} _.
Arguments mu_operation {V} _.

Record AppStateMutationMAC := mkMutationMAC { mm_index_mac : bytes; mm_value_mac : bytes }.

Record ProcessedSnapshot (V : Type) := mkProcessedSnapshot {
  ps_state : HashState;
  ps_mutations : list (Mutation V);
  ps_mutation_macs : list AppStateMutationMAC
}.
Arguments mkProcessedSnapshot {V} _ _ _.
Arguments ps_state {V} _.
Arguments ps_mutations {V} _.
Arguments ps_mutation_macs {V} _.

Record PatchProcessingResult (V : Type) := mkPatchResult {
  pr_state : HashState;
  pr_mutations : list (Mutation V);
  pr_added_macs : list AppStateMutationMAC;
  pr_removed_index_macs : list bytes
}.
Arguments mkPatchResult {V} _ _ _ _.
Arguments pr_state {V} _.
Arguments pr_mutations {V} _.
Arguments pr_added_macs {V} _.
Arguments pr_removed_index_macs {V} _.

Section Process.
Context `{!Hkdf, !Hashes, !AesCbc}.

(** [wa::SyncActionData::decode] and [serde_json::from_slice::<Vec<String>>] *)
Context {V : Type} (decode_action : bytes -> option (SyncActionData V)).
Context (json_strings : bytes -> option (list str)).

Definition decode_record (operation : SyncdOperation) (record : SyncdRecord)
    (keys : ExpandedAppStateKeys) (key_id : bytes) (validate_macs : bool)
    : outcome AppStateError (Mutation V) :=
  let? blob := ok_or MissingValueBlob (value_blob record) in
  if (length blob <? 16 + 32)%nat then Err ValueBlobTooShort else
  let iv := take 16 blob in
  let rest := drop 16 blob in
  let ciphertext := take (length rest - 32) rest in
  let value_mac := drop (length rest - 32) rest in
  let? _ :=
    if validate_macs then
      let? expected :=
        generate_content_mac operation (take (length blob - 32) blob) key_id (k_value_mac keys) in
      if negb (expected =s value_mac) then Err MismatchingContentMAC else Ok tt
    else Ok tt in
  let? plaintext :=
    match aes_256_cbc_decrypt_into ciphertext (k_value_encryption keys) iv [] with
    | (Ok _, plaintext) => Ok plaintext
    | (Err _, _) => Err DecryptionFailed
    | (Panic, _) => Panic
    | (NoFuel, _) => NoFuel
    end in
  let? action := ok_or DecodeFailed (decode_action plaintext) in
  let? index_list :=
    match act_index action with
    | Some idx_bytes =>
        let? _ :=
          if validate_macs then
            let? stored := ok_or MissingIndexMAC (index_blob record) in
            validate_index_mac idx_bytes stored (k_index keys)
          else Ok tt in
        Ok (match json_strings idx_bytes with Some parsed => parsed | None => [] end)
    | None => Ok []
    end in
  Ok (mkMutation (act_value action)
        (match index_blob record with Some b => b | None => [] end)
        value_mac index_list operation).

(** ** Snapshots *)

Section Snapshot.
Context (get_keys : bytes -> outcome AppStateError ExpandedAppStateKeys).

Fixpoint decode_snapshot_records (validate_macs : bool) (records : list SyncdRecord)
    : outcome AppStateError (list (Mutation V) * list AppStateMutationMAC) :=
  match records with
  | [] => Ok ([], [])
  | rec :: records' =>
      let? key_id := ok_or MissingKeyId (key_id_of (rec_key_id rec)) in
      let? keys := get_keys key_id in
      let? mutation := decode_record OpSet rec keys key_id validate_macs in
      let? (mutations, macs) := decode_snapshot_records validate_macs records' in
      Ok (mutation :: mutations,
          mkMutationMAC (mu_index_mac mutation) (mu_value_mac mutation) :: macs)
  end.

Definition process_snapshot (snapshot : SyncdSnapshot) (validate_macs : bool)
    (collection_name : str) : comp HashState AppStateError (ProcessedSnapshot V) :=
  fun state =>
    let state := set_version (version_of (snap_version snapshot)) state in
    match update_hash_from_records (snap_records snapshot) state with
    | Ok state =>
        ((let? _ :=
            match (if validate_macs then snap_mac snapshot else None),
                  key_id_of (snap_key_id snapshot) with
            | Some mac_expected, Some key_id =>
                let? keys := get_keys key_id in
                let? computed := generate_snapshot_mac state collection_name (k_snapshot_mac keys) in
                if negb (computed =s mac_expected) then Err SnapshotMACMismatch else Ok tt
            | _, _ => Ok tt
            end in
          let? (mutations, macs) := decode_snapshot_records validate_macs (snap_records snapshot) in
          Ok (mkProcessedSnapshot state mutations macs)), state)
    | Err e => (Err e, state)
    | Panic => (Panic, state)
    | NoFuel => (NoFuel, state)
    end.
End Snapshot.

Definition validate_snapshot_mac (snapshot : SyncdSnapshot) (state : HashState)
    (keys : ExpandedAppStateKeys) (collection_name : str) : outcome AppStateError unit :=
  match snap_mac snapshot with
  | Some mac_expected =>
      let? computed := generate_snapshot_mac state collection_name (k_snapshot_mac keys) in
      if negb (computed =s mac_expected) then Err SnapshotMACMismatch else Ok tt
  | None => Ok tt
  end.

(** ** Patches *)

Definition validate_patch_macs (patch : SyncdPatch) (state : HashState)
    (keys : ExpandedAppStateKeys) (collection_name : str) (had_no_prior_state : bool)
    : outcome AppStateError unit :=
  if had_no_prior_state then Ok tt else
  let? _ :=
    match patch_snapshot_mac patch with
    | Some snap_mac =>
        let? computed_snap := generate_snapshot_mac state collection_name (k_snapshot_mac keys) in
        if negb (computed_snap =s snap_mac) then Err PatchSnapshotMACMismatch else Ok tt
    | None => Ok tt
    end in
  match patch_mac patch with
  | Some mac =>
      let? computed_patch :=
        generate_patch_mac patch collection_name (k_patch_mac keys) (version_of (patch_version patch)) in
      if negb (computed_patch =s mac) then Err PatchMACMismatch else Ok tt
  | None => Ok tt
  end.

(** The value MAC of the latest earlier mutation of the patch with this index. *)
Definition matching_mac (index_mac : bytes) (m : SyncdMutation) : option bytes :=
  match mut_record m with
  | Some r =>
      match index_blob r with
      | Some b => if b =s index_mac then value_mac_of r else None
      | None => None
      end
  | None => None
  end.

Fixpoint first_some {A B} (f : A -> option B) (l : list A) : option B :=
  match l with
  | [] => None
  | x :: l' => match f x with Some b => Some b | None => first_some f l' end
  end.

Definition prev_in_patch (ms : list SyncdMutation) (idx : usize) (index_mac : bytes) : option bytes :=
  first_some (matching_mac index_mac) (reverse (take idx ms)).

Section Patch.
Context (get_keys : bytes -> outcome AppStateError ExpandedAppStateKeys).
Context (get_prev_value_mac : bytes -> outcome AppStateError (option bytes)).

Definition prev_value_mac (ms : list SyncdMutation) (index_mac : bytes) (idx : usize)
    : outcome AppStateError (option bytes) :=
  match prev_in_patch ms idx index_mac with
  | Some v => Ok (Some v)
  | None => get_prev_value_mac index_mac
  end.

(** [SyncdOperation::try_from(m.operation.unwrap_or(0)).unwrap_or(Set)] *)
Definition mutation_op (m : SyncdMutation) : SyncdOperation :=
  match op_try_from (match mut_operation m with Some o => o | None => 0 end) with
  | Some op => op
  | None => OpSet
  end.

Fixpoint decode_mutations (validate_macs : bool) (ms : list SyncdMutation)
    : outcome AppStateError (list (Mutation V) * list AppStateMutationMAC * list bytes) :=
  match ms with
  | [] => Ok ([], [], [])
  | m :: ms' =>
      match mut_record m with
      | None => decode_mutations validate_macs ms'
      | Some rec =>
          let op := mutation_op m in
          let? key_id := ok_or MissingKeyId (key_id_of (rec_key_id rec)) in
          let? keys := get_keys key_id in
          let? mutation := decode_record op rec keys key_id validate_macs in
          let? (mutations, added, removed) := decode_mutations validate_macs ms' in
          Ok (match op with
              | OpSet =>
                  (mutation :: mutations,
                   mkMutationMAC (mu_index_mac mutation) (mu_value_mac mutation) :: added, removed)
              | OpRemove => (mutation :: mutations, added, mu_index_mac mutation :: removed)
              end)
      end
  end.

Definition had_no_prior_state (state : HashState) : bool :=
  (hs_version state =? 0) && (hs_hash state =s replicate 128 0).

Definition process_patch (patch : SyncdPatch) (validate_macs : bool) (collection_name : str)
    : comp HashState AppStateError (PatchProcessingResult V) :=
  fun state =>
    let no_prior := had_no_prior_state state in
    let state := set_version (version_of (patch_version patch)) state in
    match update_hash (prev_value_mac (patch_mutations patch)) (patch_mutations patch) state with
    | (Ok _, state) =>
        ((let? _ :=
            match (if validate_macs then key_id_of (patch_key_id patch) else None) with
            | Some key_id =>
                let? keys := get_keys key_id in
                validate_patch_macs patch state keys collection_name no_prior
            | None => Ok tt
            end in
          let? (mutations, added_macs, removed_index_macs) :=
            decode_mutations validate_macs (patch_mutations patch) in
          Ok (mkPatchResult state mutations added_macs removed_index_macs)), state)
    | (Err _, state) => (Err MismatchingLTHash, state)
    | (Panic, state) => (Panic, state)
    | (NoFuel, state) => (NoFuel, state)
    end.
End Patch.
End Process.

(** ** [collect_key_ids_from_patch_list] *)

(** [check]: push the id unless it was seen. *)
Definition collect_id (acc : gset bytes * list bytes) (key_id : option bytes)
    : gset bytes * list bytes :=
  match key_id with
  | None => acc
  | Some k =>
      let '(seen, ids) := acc in
      if decide (k ∈ seen) then (seen, ids) else ({[k]} ∪ seen, ids ++ [k])
  end.

Definition collect_key_ids_from_patch_list (snapshot : option SyncdSnapshot) (patches : list SyncdPatch)
    : list bytes :=
  let acc := (∅, []) in
  let acc :=
    match snapshot with
    | Some s =>
        fold_left (fun acc r => collect_id acc (key_id_of (rec_key_id r))) (snap_records s)
          (collect_id acc (key_id_of (snap_key_id s)))
    | None => acc
    end in
  (fold_left (fun acc p => collect_id acc (key_id_of (patch_key_id p))) patches acc).2.

(** ** The abstract collection: index MACs to value MACs *)

Abbreviation mac_store := (gmap bytes bytes).

(** [put_mutation_macs] and [delete_mutation_macs] on one collection. *)
Definition put_macs (macs : list AppStateMutationMAC) (st : mac_store) : mac_store :=
  fold_left (fun st m => <[mm_index_mac m := mm_value_mac m]> st) macs st.
Definition delete_macs (index_macs : list bytes) (st : mac_store) : mac_store :=
  fold_left (fun st k => delete k st) index_macs st.

Lemma delete_macs_insert l k v st :
  k ∉ l -> <[k := v]> (delete_macs l st) = delete_macs l (<[k := v]> st).
Proof.
  revert st. induction l as [|x l IH]; intros st; [done|].
  intros [Hx Hl]%not_elem_of_cons. unfold delete_macs. cbn [fold_left].
  fold (delete_macs l). rewrite IH by done. by rewrite delete_insert_ne.
Qed.

(** What a mutation does to the collection. *)
Definition apply_mutation (st : mac_store) (m : SyncdMutation) : mac_store :=
  match mut_record m with
  | Some r =>
      match index_blob r, value_mac_of r with
      | Some k, Some v =>
          match mutation_op m with OpSet => <[k := v]> st | OpRemove => delete k st end
      | _, _ => st
      end
  | None => st
  end.

Section HashInvariant.
Context `{!Hkdf}.

(** The LTHash of a collection. *)
Definition lt_hash (st : mac_store) : bytes :=
  fold_left lt_add (map snd (map_to_list st)) (replicate 128 0).

Lemma zero_vec : vec 64 (replicate 128 0).
Proof. split; [done|]. apply Forall_replicate. unfold is_byte. lia. Qed.

Lemma lt_hash_vec st : vec 64 (lt_hash st).
Proof. apply fold_lt_vec; [apply lt_add_vec|apply zero_vec]. Qed.

Lemma lt_hash_insert st k v : st !! k = None -> lt_hash (<[k := v]> st) = lt_add (lt_hash st) v.
Proof.
  intros Hk. unfold lt_hash.
  rewrite (fold_left_perm lt_add _ (v :: map snd (map_to_list st)) _ lt_add_swap).
  - cbn [fold_left]. apply fold_left_push. apply lt_add_swap.
  - change (v :: map snd (map_to_list st)) with (map snd ((k, v) :: map_to_list st)).
    apply Permutation_map. by apply map_to_list_insert.
Qed.

Lemma lt_hash_delete st k v : st !! k = Some v -> lt_sub (lt_hash st) v = lt_hash (delete k st).
Proof.
  intros Hk. rewrite <- (insert_delete_id st k v Hk) at 1.
  rewrite lt_hash_insert by apply lookup_delete_eq. apply lt_cancel, lt_hash_vec.
Qed.

(** Replacing or adding a value. *)
Lemma lt_hash_set st k v :
  lt_hash (<[k := v]> st) =
  match st !! k with
  | Some prev => lt_sub (lt_add (lt_hash st) v) prev
  | None => lt_add (lt_hash st) v
  end.
Proof.
  destruct (st !! k) as [prev|] eqn:Hk; [|by apply lt_hash_insert].
  rewrite lt_add_sub_swap, (lt_hash_delete st k prev Hk).
  rewrite <- (lt_hash_insert (delete k st) k v) by apply lookup_delete_eq.
  by rewrite insert_delete_eq.
Qed.

Lemma lt_hash_remove st k :
  lt_hash (delete k st) =
  match st !! k with Some prev => lt_sub (lt_hash st) prev | None => lt_hash st end.
Proof.
  destruct (st !! k) as [prev|] eqn:Hk; [by rewrite (lt_hash_delete st k prev)|].
  by rewrite delete_id.
Qed.

(** ** Regular patches *)

(** The operation is one the protocol knows. *)
Definition known_op (m : SyncdMutation) : Prop :=
  mut_operation m = None \/ mut_operation m = Some 0 \/ mut_operation m = Some 1.

Definition mutation_index (m : SyncdMutation) : option bytes :=
  match mut_record m with Some r => index_blob r | None => None end.

(** Every record names its index and operation, and the mutations that share
    an index are all SETs. *)
Definition regular (ms : list SyncdMutation) : Prop :=
  Forall (fun m => known_op m /\ (mut_record m <> None -> mutation_index m <> None)) ms
  /\ forall i j m m' k, (i < j)%nat -> ms !! i = Some m -> ms !! j = Some m' ->
       mutation_index m = Some k -> mutation_index m' = Some k ->
       mutation_op m = OpSet /\ mutation_op m' = OpSet.

(** What decoding establishes of every record. *)
Definition has_value_mac (m : SyncdMutation) : Prop :=
  match mut_record m with Some r => value_mac_of r <> None | None => True end.

Lemma mutation_op_known m :
  known_op m ->
  (match mut_operation m with Some o => o | None => 0 end) = op_as_i32 (mutation_op m).
Proof. unfold known_op, mutation_op. by intros [-> | [-> | ->]]. Qed.

(** Looking a previous value up, in the patch and then in the store, gives
    the value of the collection as the earlier mutations left it. *)
Lemma prev_lookup (pre : list SyncdMutation) (st : mac_store) k :
  Forall has_value_mac pre ->
  Forall (fun m => mutation_index m = Some k -> mutation_op m = OpSet) pre ->
  fold_left apply_mutation pre st !! k =
  match first_some (matching_mac k) (reverse pre) with Some v => Some v | None => st !! k end.
Proof.
  induction pre as [|m pre IH] using rev_ind; [done|].
  intros [Hv Hvm]%Forall_app [Hs Hsm]%Forall_app.
  apply Forall_inv in Hvm. apply Forall_inv in Hsm.
  rewrite fold_left_app, reverse_snoc. cbn [fold_left first_some].
  unfold apply_mutation at 1, matching_mac at 1.
  unfold has_value_mac in Hvm. unfold mutation_index in Hsm.
  destruct (mut_record m) as [r|]; [|by apply IH].
  destruct (index_blob r) as [b|]; [|by apply IH].
  destruct (value_mac_of r) as [v|]; [|done].
  destruct (bytes_eqb_spec b k) as [->|Hne].
  - rewrite (Hsm eq_refl). by rewrite lookup_insert_eq.
  - destruct (mutation_op m); [rewrite lookup_insert_ne by done|rewrite lookup_delete_ne by done];
      by apply IH.
Qed.

(** The hash a scan stands for. *)
Definition scan_hash (h : bytes) (sc : hash_scan) : bytes :=
  fold_left lt_add (sc_added sc) (fold_left lt_sub (sc_removed sc) h).

Lemma scan_hash_add h a r w v : scan_hash h (mkScan (a ++ [v]) r w) = lt_add (scan_hash h (mkScan a r w)) v.
Proof. unfold scan_hash. simpl. by rewrite fold_left_app. Qed.

Lemma scan_hash_remove h a r w v :
  scan_hash h (mkScan a (r ++ [v]) w) = lt_sub (scan_hash h (mkScan a r w)) v.
Proof.
  unfold scan_hash. simpl. rewrite fold_left_app. cbn [fold_left].
  apply fold_left_push. intros. symmetry. apply lt_add_sub_swap.
Qed.

(** One step of the scan follows the collection. *)
Lemma scan_mutation_step {E} (prev : bytes -> nat -> outcome E (option bytes)) i m st h acc :
  known_op m -> (mut_record m <> None -> mutation_index m <> None) -> has_value_mac m ->
  (forall k, mutation_index m = Some k -> prev k i = Ok (st !! k)) ->
  scan_hash h acc = lt_hash st ->
  exists acc', scan_mutation prev i m acc = Ok acc'
               /\ scan_hash h acc' = lt_hash (apply_mutation st m).
Proof.
  intros Hop Hidx Hv Hprev Hh. destruct acc as [a r w].
  unfold scan_mutation, apply_mutation. rewrite (mutation_op_known m Hop).
  unfold mutation_index in *. unfold has_value_mac in Hv.
  destruct (mut_record m) as [rec|]; [|by destruct (mutation_op m); eexists].
  destruct (index_blob rec) as [k|]; [|by destruct Hidx].
  destruct (value_mac_of rec) as [v|] eqn:Hvm; [|done].
  rewrite (Hprev k eq_refl). destruct (mutation_op m); cbn [op_as_i32].
  - rewrite Z.eqb_refl. change (0 =? 1) with false. cbv zeta iota. rewrite Hvm, lt_hash_set.
    destruct (st !! k) as [p|]; eexists; (split; [done|]); cbn [sc_added sc_removed sc_warnings].
    + by rewrite scan_hash_remove, scan_hash_add, Hh.
    + by rewrite scan_hash_add, Hh.
  - change (1 =? 0) with false. rewrite Z.eqb_refl. cbv zeta iota. rewrite lt_hash_remove.
    destruct (st !! k) as [p|]; eexists; (split; [done|]); cbn [sc_added sc_removed sc_warnings].
    + by rewrite scan_hash_remove, Hh.
    + done.
Qed.

Lemma scan_mutations_hash {E} (prev : bytes -> nat -> outcome E (option bytes)) pre ms st0 h acc :
  Forall (fun m => known_op m /\ (mut_record m <> None -> mutation_index m <> None)) ms ->
  Forall has_value_mac ms ->
  (forall i m k, ms !! i = Some m -> mutation_index m = Some k ->
     prev k (length pre + i)%nat = Ok (fold_left apply_mutation (pre ++ take i ms) st0 !! k)) ->
  scan_hash h acc = lt_hash (fold_left apply_mutation pre st0) ->
  exists acc', scan_mutations prev (length pre) ms acc = Ok acc'
               /\ scan_hash h acc' = lt_hash (fold_left apply_mutation (pre ++ ms) st0).
Proof.
  revert pre acc. induction ms as [|m ms IH]; intros pre acc Hwf Hv Hprev Hh.
  { exists acc. by rewrite app_nil_r. }
  apply Forall_cons in Hwf as [[Hop Hidx] Hwf]. apply Forall_cons in Hv as [Hvm Hv].
  cbn [scan_mutations].
  destruct (scan_mutation_step prev (length pre) m (fold_left apply_mutation pre st0) h acc)
    as (acc1 & -> & Hacc1); [done..| |done|].
  { intros k Hk. specialize (Hprev 0%nat m k eq_refl Hk).
    rewrite Nat.add_0_r in Hprev. by rewrite app_nil_r in Hprev. }
  cbn [obind].
  destruct (IH (pre ++ [m]) acc1) as (acc2 & Hs & Hacc2); [done|done| | |].
  - intros i m' k Hi Hk. specialize (Hprev (S i) m' k Hi Hk). cbn [take] in Hprev.
    rewrite length_app, <- app_assoc. cbn [app length].
    by replace (length pre + 1 + i)%nat with (length pre + S i)%nat by lia.
  - by rewrite fold_left_app.
  - exists acc2. rewrite length_app in Hs. cbn [length] in Hs. rewrite Nat.add_1_r in Hs.
    split; [done|]. by rewrite <- app_assoc in Hacc2.
Qed.

(** Updating the hash for a regular patch follows the collection. *)
Lemma update_hash_regular {E} (get_prev : bytes -> outcome E (option bytes)) ms st state prev :
  regular ms -> Forall has_value_mac ms ->
  (forall m k, m ∈ ms -> mutation_index m = Some k -> get_prev k = Ok (st !! k)) ->
  (forall k i, prev k i = match prev_in_patch ms i k with Some v => Ok (Some v) | None => get_prev k end) ->
  hs_hash state = lt_hash st ->
  exists warnings,
    update_hash prev ms state
    = (Ok warnings, set_hash (lt_hash (fold_left apply_mutation ms st)) state).
Proof.
  intros [Hwf Hreg] Hv Hget Hprev Hh. unfold update_hash.
  destruct (scan_mutations_hash prev [] ms st (hs_hash state) (mkScan [] [] [])) as (acc & Hs & Hacc).
  - done.
  - done.
  - intros i m k Hi Hk. cbn [app length Nat.add].
    rewrite Hprev, (Hget m k) by (done || by eapply list_elem_of_lookup_2). unfold prev_in_patch.
    rewrite (prev_lookup (take i ms) st k).
    + by destruct (first_some _ _).
    + by apply Forall_take.
    + apply Forall_lookup. intros j m' [Hj Hlt]%lookup_take_Some Hk'.
      destruct (Hreg j i m' m k Hlt Hj Hi Hk' Hk). done.
  - done.
  - cbn [length] in Hs. rewrite Hs.
    rewrite subtract_then_add_fold by (rewrite Hh; apply lt_hash_vec).
    unfold scan_hash in Hacc. rewrite Hacc. by eexists.
Qed.
End HashInvariant.

(** ** What decoding records establishes *)

Section Decoded.
Context `{!Hkdf, !Hashes, !AesCbc}.
Context {V : Type} (decode_action : bytes -> option (SyncActionData V)).
Context (json_strings : bytes -> option (list str)).
Context (get_keys : bytes -> outcome AppStateError ExpandedAppStateKeys).

Lemma obind_Ok {E A B} (m : outcome E A) (k : A -> outcome E B) b :
  obind m k = Ok b -> exists a, m = Ok a /\ k a = Ok b.
Proof. destruct m; try done. by eexists. Qed.

(** A decoded mutation carries the record's index and the value MAC its blob
    ends with. *)
Lemma decode_record_macs op r keys kid vm mu :
  decode_record decode_action json_strings op r keys kid vm = Ok mu ->
  value_mac_of r = Some (mu_value_mac mu)
  /\ mu_index_mac mu = (match index_blob r with Some b => b | None => [] end)
  /\ mu_operation mu = op.
Proof.
  unfold decode_record, value_mac_of, ok_or.
  destruct (value_blob r) as [blob|]; [|done]. cbn [obind].
  destruct (Nat.ltb_spec (length blob) (16 + 32)); [done|].
  intros (_ & _ & (pt & _ & (act & _ & (il & _ & [= <-])%obind_Ok)%obind_Ok)%obind_Ok)%obind_Ok.
  cbn [mu_value_mac mu_index_mac mu_operation].
  destruct (Nat.leb_spec 32 (length blob)); [|lia]. split; [|done].
  unfold last32. rewrite length_drop, drop_drop. do 2 f_equal. lia.
Qed.

(** The MACs collected from a patch, and their effect on the store. *)
Lemma decode_mutations_macs vm ms mus added removed :
  decode_mutations decode_action json_strings get_keys vm ms = Ok (mus, added, removed) ->
  Forall has_value_mac ms
  /\ (regular ms -> forall st,
       put_macs added (delete_macs removed st) = fold_left apply_mutation ms st)
  /\ (forall k, k ∈ removed -> exists m, m ∈ ms /\ mutation_op m = OpRemove
       /\ (mutation_index m = Some k \/ mut_record m <> None /\ mutation_index m = None)).
Proof.
  revert mus added removed. induction ms as [|m ms IH]; intros mus added removed.
  { intros [= <- <- <-]. split; [done|]. split; [done|]. by intros k ?%elem_of_nil. }
  cbn [decode_mutations].
  assert (regular (m :: ms) -> regular ms) as Htail.
  { intros [Hwf Hreg]. split; [by apply Forall_inv_tail in Hwf|].
    intros i j m1 m2 k Hij Hi Hj. apply (Hreg (S i) (S j)); [lia|done|done]. }
  destruct (mut_record m) as [r|] eqn:Hr.
  - intros (kid & _ & (keys & _ & (mu & Hmu & ([[mus' added'] removed'] & Hrec & Hres)%obind_Ok)%obind_Ok)%obind_Ok)%obind_Ok.
    destruct (IH _ _ _ Hrec) as (Hv & Hst & Hrem).
    apply decode_record_macs in Hmu as (Hvm & Hidx & _).
    split; [apply Forall_cons; split; [unfold has_value_mac; rewrite Hr, Hvm; done|done]|].
    split.
    + intros Hreg st. pose proof Hreg as [Hwf Hpair]. apply Forall_cons in Hwf as [[_ Hi] _].
      assert (exists k, index_blob r = Some k) as [k Hk].
      { unfold mutation_index in Hi. rewrite Hr in Hi. destruct (index_blob r); [by eexists|].
        exfalso. by apply Hi. }
      rewrite Hk in Hidx. cbn [fold_left]. unfold apply_mutation at 2. rewrite Hr, Hk, Hvm.
      destruct (mutation_op m) eqn:Hop; injection Hres as <- <- <-.
      * rewrite <- (Hst (Htail Hreg)). unfold put_macs at 1. cbn [fold_left mm_index_mac mm_value_mac].
        fold (put_macs added'). f_equal. rewrite Hidx.
        assert (k ∉ removed') as Hnk.
        { intros Hin. destruct (Hrem k Hin) as (m' & (j & Hj)%list_elem_of_lookup & Hop' & Hi').
          destruct Hi' as [Hi'|[Hr' Hi']].
          - destruct (Hpair 0%nat (S j) m m' k); [lia|done|done| |done|congruence].
            unfold mutation_index. by rewrite Hr.
          - destruct Hreg as [Hwf _]. rewrite Forall_lookup in Hwf.
            by destruct (Hwf (S j) m' Hj) as [_ Hm']; apply Hm'. }
        by apply delete_macs_insert.
      * rewrite <- (Hst (Htail Hreg)). f_equal. unfold delete_macs at 1. cbn [fold_left].
        fold (delete_macs removed'). by rewrite Hidx.
    + intros k Hk. destruct (mutation_op m) eqn:Hop; injection Hres as <- <- <-.
      * destruct (Hrem k Hk) as (m' & Hin & H'). exists m'. split; [by right|done].
      * apply elem_of_cons in Hk as [->|Hk].
        -- exists m. split; [by left|]. split; [done|]. rewrite Hidx. unfold mutation_index.
           rewrite Hr. destruct (index_blob r); [by left|by right].
        -- destruct (Hrem k Hk) as (m' & Hin & H'). exists m'. split; [by right|done].
  - intros Hdec. destruct (IH _ _ _ Hdec) as (Hv & Hst & Hrem).
    split; [apply Forall_cons; split; [unfold has_value_mac; by rewrite Hr|done]|]. split.
    + intros Hreg st. cbn [fold_left]. unfold apply_mutation at 2. rewrite Hr.
      by apply Hst, Htail.
    + intros k Hk. destruct (Hrem k Hk) as (m' & Hin & H'). exists m'. split; [by right|done].
Qed.

(** ** The processor keeps the hash in step with the store *)

(** An accepted regular patch moves the hash and the store together. *)
Lemma process_patch_hash (get_prev : bytes -> outcome AppStateError (option bytes)) (st : mac_store) (patch : SyncdPatch) (validate_macs : bool)
    (name : str) (state state' : HashState) (res : PatchProcessingResult V) :
  regular (patch_mutations patch) ->
  (forall m k, m ∈ patch_mutations patch -> mutation_index m = Some k -> get_prev k = Ok (st !! k)) ->
  hs_hash state = lt_hash st ->
  process_patch decode_action json_strings get_keys get_prev
    patch validate_macs name state = (Ok res, state') ->
  let st' := put_macs (pr_added_macs res) (delete_macs (pr_removed_index_macs res) st) in
  hs_hash state' = lt_hash st'
  /\ st' = fold_left apply_mutation (patch_mutations patch) st
  /\ hs_version state' = version_of (patch_version patch)
  /\ pr_state res = state'.
Proof.
  intros Hreg Hget Hh Hp. unfold process_patch in Hp.
  set (s1 := set_version (version_of (patch_version patch)) state) in *.
  destruct (update_hash _ _ s1) as [o s2] eqn:Hu. destruct o; try done.
  injection Hp as Hp <-.
  apply obind_Ok in Hp as (_ & _ & ([[mus added] removed] & Hdec & [= <-])%obind_Ok).
  cbn [pr_added_macs pr_removed_index_macs pr_state].
  destruct (decode_mutations_macs _ _ _ _ _ Hdec) as (Hv & Hst & _).
  destruct (update_hash_regular (E := AppStateError) get_prev (patch_mutations patch) st s1
    (prev_value_mac get_prev (patch_mutations patch)) Hreg Hv) as (w & Hu'); [done..|].
  rewrite Hu in Hu'. injection Hu' as <- ->.
  rewrite (Hst Hreg st). done.
Qed.

(** C15: the app-state invariant.  Let the hash of a collection be the LTHash of
    the value MACs in the store.  When a regular patch is accepted, with the
    previous values looked up in that store, the new hash is the LTHash of the
    store after deleting the removed and writing the added MACs, which is the
    store the mutations describe in order; the version is the patch's and the
    result carries the new state. *)
Theorem process_patch_invariant (st : mac_store) (patch : SyncdPatch) (validate_macs : bool)
    (name : str) (state state' : HashState) (res : PatchProcessingResult V) :
  regular (patch_mutations patch) ->
  hs_hash state = lt_hash st ->
  process_patch decode_action json_strings get_keys (fun k => Ok (st !! k))
    patch validate_macs name state = (Ok res, state') ->
  let st' := put_macs (pr_added_macs res) (delete_macs (pr_removed_index_macs res) st) in
  hs_hash state' = lt_hash st'
  /\ st' = fold_left apply_mutation (patch_mutations patch) st
  /\ hs_version state' = version_of (patch_version patch)
  /\ pr_state res = state'.
Proof. intros Hreg. by apply process_patch_hash. Qed.

(** Decoding a snapshot collects the MACs of its records in order. *)
Lemma decode_snapshot_macs vm rs mus macs :
  decode_snapshot_records decode_action json_strings get_keys vm rs = Ok (mus, macs) ->
  map mm_value_mac macs = records_added rs
  /\ macs = map (fun m => mkMutationMAC (mu_index_mac m) (mu_value_mac m)) mus.
Proof.
  revert mus macs. induction rs as [|r rs IH]; intros mus macs; [by intros [= <- <-]|].
  cbn [decode_snapshot_records].
  intros (kid & _ & (keys & _ & (mu & Hmu & ([mus' macs'] & Hrec & [= <- <-])%obind_Ok)%obind_Ok)%obind_Ok)%obind_Ok.
  destruct (IH _ _ Hrec) as [Hv ->]. apply decode_record_macs in Hmu as (Hvm & _ & _).
  split; [|done]. unfold records_added. cbn [map flat_map mm_value_mac]. rewrite Hvm. cbn [app].
  f_equal. exact Hv.
Qed.

Lemma lt_hash_put macs st :
  List.NoDup (map mm_index_mac macs) ->
  (forall k, In k (map mm_index_mac macs) -> st !! k = None) ->
  lt_hash (put_macs macs st) = fold_left lt_add (map mm_value_mac macs) (lt_hash st).
Proof.
  revert st. induction macs as [|m macs IH]; intros st Hnd Hfresh; [done|].
  inversion Hnd as [|? ? Hm Hnd']; subst. unfold put_macs. cbn [fold_left map].
  fold (put_macs macs). rewrite IH; [|done|].
  - by rewrite lt_hash_insert by (apply Hfresh; by left).
  - intros k Hk. rewrite lookup_insert_ne by (intros <-; done). apply Hfresh. by right.
Qed.

Lemma lt_hash_empty : lt_hash ∅ = replicate 128 0.
Proof. unfold lt_hash. by rewrite map_to_list_empty. Qed.

(** An accepted snapshot hashes the MACs it reports. *)
Lemma process_snapshot_hash (snapshot : SyncdSnapshot) (validate_macs : bool) (name : str)
    (state' : HashState) (res : ProcessedSnapshot V) :
  process_snapshot decode_action json_strings get_keys snapshot validate_macs name
    hash_state_default = (Ok res, state') ->
  List.NoDup (map mm_index_mac (ps_mutation_macs res)) ->
  hs_hash state' = lt_hash (put_macs (ps_mutation_macs res) ∅)
  /\ hs_version state' = version_of (snap_version snapshot)
  /\ ps_state res = state'.
Proof.
  unfold process_snapshot, update_hash_from_records. cbn [hs_hash hash_state_default set_version].
  rewrite subtract_then_add_fold by apply zero_vec. cbn [obind fold_left].
  intros [= Hp <-] Hnd.
  apply obind_Ok in Hp as (_ & _ & ([mus macs] & Hdec & [= <-])%obind_Ok).
  cbn [ps_mutation_macs ps_state] in *. split; [|done].
  destruct (decode_snapshot_macs _ _ _ _ Hdec) as [Hv _].
  rewrite lt_hash_put, lt_hash_empty, Hv; [done|done|]. intros k _. apply lookup_empty.
Qed.

(** The indices it reports are the records'. *)
Lemma process_snapshot_indices (snapshot : SyncdSnapshot) (validate_macs : bool) (name : str)
    (state' : HashState) (res : ProcessedSnapshot V) :
  process_snapshot decode_action json_strings get_keys snapshot validate_macs name
    hash_state_default = (Ok res, state') ->
  map mm_index_mac (ps_mutation_macs res)
  = map (fun r => match index_blob r with Some b => b | None => [] end) (snap_records snapshot).
Proof.
  unfold process_snapshot. destruct (update_hash_from_records _ _); try done.
  intros [= Hp <-].
  apply obind_Ok in Hp as (_ & _ & ([mus macs] & Hdec & [= <-])%obind_Ok). cbn [ps_mutation_macs].
  revert mus macs Hdec. induction (snap_records snapshot) as [|r rs IH]; intros mus macs.
  { by intros [= <- <-]. }
  cbn [decode_snapshot_records].
  intros (kid & _ & (keys & _ & (mu & Hmu & ([mus' macs'] & Hrec & [= <- <-])%obind_Ok)%obind_Ok)%obind_Ok)%obind_Ok.
  apply decode_record_macs in Hmu as (_ & Hi & _). cbn [map mm_index_mac]. rewrite Hi. f_equal.
  by eapply IH.
Qed.

(** A snapshot establishes the invariant.  Processing a snapshot from the
    default state, when its records name distinct indices, leaves the hash
    equal to the LTHash of the MACs it reports for the store, with the
    snapshot's version. *)
Theorem process_snapshot_invariant (snapshot : SyncdSnapshot) (validate_macs : bool) (name : str)
    (state' : HashState) (res : ProcessedSnapshot V) :
  process_snapshot decode_action json_strings get_keys snapshot validate_macs name
    hash_state_default = (Ok res, state') ->
  List.NoDup (map mm_index_mac (ps_mutation_macs res)) ->
  hs_hash state' = lt_hash (put_macs (ps_mutation_macs res) ∅)
  /\ hs_version state' = version_of (snap_version snapshot)
  /\ ps_state res = state'.
Proof. apply process_snapshot_hash. Qed.

(** ** Nothing unauthenticated is accepted *)

Lemma content_mac_Ok {E} op data kid key :
  generate_content_mac (E := E) op data kid key
  = Ok (take 32 (hmac Sha512 key
         ([wrap 8 (op_as_i32 op + 1)] ++ kid ++ data ++ u64_to_be (Z.of_nat (length kid + 1))))).
Proof.
  unfold generate_content_mac. rewrite mac_of_512. cbn [expect obind].
  rewrite hmac_length. cbn [concat]. by rewrite app_nil_r.
Qed.

(** The record a validated mutation was decoded from is authenticated. *)
Definition record_authentic (op : SyncdOperation) (r : SyncdRecord) : Prop :=
  exists kid keys blob,
    key_id_of (rec_key_id r) = Some kid /\ get_keys kid = Ok keys
    /\ value_blob r = Some blob /\ (48 <= length blob)%nat
    /\ last32 blob = take 32 (hmac Sha512 (k_value_mac keys)
         ([wrap 8 (op_as_i32 op + 1)] ++ kid ++ take (length blob - 32) blob
          ++ u64_to_be (Z.of_nat (length kid + 1)))).

Lemma decode_record_authentic op r kid keys mu :
  key_id_of (rec_key_id r) = Some kid -> get_keys kid = Ok keys ->
  decode_record decode_action json_strings op r keys kid true = Ok mu ->
  record_authentic op r.
Proof.
  intros Hkid Hkeys. unfold decode_record, ok_or.
  destruct (value_blob r) as [blob|] eqn:Hb; [|done]. cbn [obind].
  destruct (Nat.ltb_spec (length blob) (16 + 32)); [done|].
  intros (u & Hmac & _)%obind_Ok. rewrite content_mac_Ok in Hmac. cbn [obind] in Hmac.
  match type of Hmac with context [bytes_eqb ?a ?b] =>
    destruct (bytes_eqb_spec a b) as [Heq|]; [|done] end.
  exists kid, keys, blob. split_and!; [done..|lia|].
  rewrite length_drop, drop_drop in Heq.
  replace (16 + (length blob - 16 - 32))%nat with (length blob - 32)%nat in Heq by lia.
  by rewrite Heq.
Qed.

Lemma decode_mutations_authentic ms out m r :
  decode_mutations decode_action json_strings get_keys true ms = Ok out ->
  m ∈ ms -> mut_record m = Some r -> record_authentic (mutation_op m) r.
Proof.
  revert out. induction ms as [|m' ms IH]; intros out; [by intros _ ?%elem_of_nil|].
  cbn [decode_mutations]. intros Hdec [->|Hin]%elem_of_cons Hr.
  - rewrite Hr in Hdec.
    apply obind_Ok in Hdec as (kid & Hkid & (keys & Hkeys & (mu & Hmu & _)%obind_Ok)%obind_Ok).
    apply (decode_record_authentic _ _ kid keys mu); [|done|done].
    unfold ok_or in Hkid. destruct (key_id_of (rec_key_id r)); [by injection Hkid as ->|done].
  - destruct (mut_record m') as [r'|]; [|by apply (IH _ Hdec)].
    apply obind_Ok in Hdec as (kid & _ & (keys & _ & (mu & _ & (out' & Hrec & _)%obind_Ok)%obind_Ok)%obind_Ok).
    by apply (IH _ Hrec).
Qed.

(** with validation on, an accepted patch is authenticated throughout.  For
    a collection with prior state and a patch that names a key: the snapshot
    MAC it carries is the HMAC of the updated hash, its version and the
    collection's name; its patch MAC is the HMAC over the snapshot MAC, every
    value MAC, the version and the name; and every record's value MAC is the
    HMAC of its operation, key id and ciphertext. *)
Theorem process_patch_authentic (get_prev : bytes -> outcome AppStateError (option bytes))
    (patch : SyncdPatch) (name : str) (state state' : HashState) (res : PatchProcessingResult V)
    (kid : bytes) (keys : ExpandedAppStateKeys) :
  process_patch decode_action json_strings get_keys get_prev patch true name state = (Ok res, state') ->
  had_no_prior_state state = false ->
  key_id_of (patch_key_id patch) = Some kid -> get_keys kid = Ok keys ->
  (forall sm, patch_snapshot_mac patch = Some sm ->
     sm = hmac Sha256 (k_snapshot_mac keys) (hs_hash state' ++ u64_to_be (hs_version state') ++ name))
  /\ (forall pm, patch_mac patch = Some pm ->
     pm = hmac Sha256 (k_patch_mac keys)
            (concat (patch_mac_parts patch name (version_of (patch_version patch)))))
  /\ (forall m r, m ∈ patch_mutations patch -> mut_record m = Some r ->
     record_authentic (mutation_op m) r).
Proof.
  intros Hp Hprior Hkid Hkeys. unfold process_patch in Hp. rewrite Hprior, Hkid in Hp.
  destruct (update_hash _ _ _) as [o s2]. destruct o; try done.
  apply pair_equal_spec in Hp as [Hp <-]. rewrite Hkeys in Hp. cbn [obind] in Hp.
  apply obind_Ok in Hp as (u & Hmacs & (out & Hdec & _)%obind_Ok).
  unfold validate_patch_macs in Hmacs.
  apply obind_Ok in Hmacs as (u' & Hsnap & Hpatch). split_and!.
  - intros sm Hsm. rewrite Hsm in Hsnap. unfold generate_snapshot_mac in Hsnap.
    rewrite mac_of_256 in Hsnap. cbn [expect obind] in Hsnap.
    destruct (bytes_eqb_spec (hmac Sha256 (k_snapshot_mac keys)
      (concat [hs_hash s2; u64_to_be (hs_version s2); name])) sm) as [Heq|]; [|done].
    rewrite <- Heq. cbn [concat]. by rewrite app_nil_r.
  - intros pm Hpm. rewrite Hpm in Hpatch. unfold generate_patch_mac in Hpatch.
    rewrite mac_of_256 in Hpatch. cbn [expect obind] in Hpatch.
    by destruct (bytes_eqb_spec (hmac Sha256 (k_patch_mac keys)
      (concat (patch_mac_parts patch name (version_of (patch_version patch))))) pm).
  - intros m r Hm Hr. by apply (decode_mutations_authentic _ _ _ _ Hdec).
Qed.
End Decoded.

(** ** Processing returns *)

Section Returns.
Context `{!Hkdf, !Hashes, !AesCbc}.
Context {V : Type} (decode_action : bytes -> option (SyncActionData V)).
Context (json_strings : bytes -> option (list str)).
Context (get_keys : bytes -> outcome AppStateError ExpandedAppStateKeys).
Context (get_prev : bytes -> outcome AppStateError (option bytes)).
Hypothesis keys_return : forall k, returns (get_keys k).
Hypothesis prev_returns : forall k, returns (get_prev k).

Lemma returns_ok_or {E A} (e : E) (o : option A) : returns (ok_or e o).
Proof. by destruct o. Qed.

Lemma decode_record_returns op r keys kid vm :
  returns (decode_record decode_action json_strings op r keys kid vm).
Proof.
  unfold decode_record. apply returns_bind; [apply returns_ok_or|intros blob _].
  destruct (_ <? _)%nat; [done|]. apply returns_bind.
  { destruct vm; [|done]. rewrite content_mac_Ok. cbn [obind]. by case_match. }
  intros _ _. apply returns_bind.
  { unfold aes_256_cbc_decrypt_into. repeat case_match; simplify_eq; done. }
  intros pt _. apply returns_bind; [apply returns_ok_or|intros act _]. apply returns_bind; [|done].
  destruct (act_index act); [|done]. apply returns_bind; [|done].
  destruct vm; [|done]. apply returns_bind; [apply returns_ok_or|intros st _].
  unfold validate_index_mac. rewrite mac_of_256. cbn [expect obind]. by case_match.
Qed.

Lemma decode_mutations_returns vm ms :
  returns (decode_mutations decode_action json_strings get_keys vm ms).
Proof.
  induction ms as [|m ms IH]; cbn [decode_mutations]; [done|].
  destruct (mut_record m); [|done].
  apply returns_bind; [apply returns_ok_or|intros kid _].
  apply returns_bind; [apply keys_return|intros keys _].
  apply returns_bind; [apply decode_record_returns|intros mu _].
  apply returns_bind; [done|]. intros [[? ?] ?] _. by destruct (mutation_op m).
Qed.

Lemma validate_patch_macs_returns patch state keys name b :
  returns (validate_patch_macs patch state keys name b).
Proof.
  unfold validate_patch_macs, generate_snapshot_mac, generate_patch_mac.
  rewrite !mac_of_256. cbn [expect obind].
  destruct b; [done|]. apply returns_bind; [|intros _ _]; repeat case_match; done.
Qed.

(** The scan fails only with an error of the lookup. *)
Lemma scan_mutations_returns prev i ms acc :
  (forall k j, returns (prev k j)) ->
  returns (scan_mutations (E := AppStateError) prev i ms acc).
Proof.
  intros Hprev. revert i acc. induction ms as [|m ms IH]; intros i acc; cbn [scan_mutations]; [done|].
  apply returns_bind; [|intros acc' _; apply IH].
  unfold scan_mutation. destruct (match mut_record m with Some r => index_blob r | None => None end)
    as [b|]; [|done].
  specialize (Hprev b i). destruct (prev b i) as [[p|]|e| |]; try done. by case_match.
Qed.

(** Processing a patch returns: from a 128-byte hash, with callbacks that
    return, the outcome is a result or an error, never a panic, whatever the
    patch; and the hash stays a 128-byte vector even when the patch is
    rejected. *)
Theorem process_patch_returns (patch : SyncdPatch) (validate_macs : bool) (name : str)
    (state : HashState) :
  vec 64 (hs_hash state) ->
  let '(out, state') :=
    process_patch decode_action json_strings get_keys get_prev patch validate_macs name state in
  returns out /\ vec 64 (hs_hash state').
Proof.
  intros Hv. unfold process_patch, update_hash.
  pose proof (scan_mutations_returns
    (prev_value_mac get_prev (patch_mutations patch)) 0 (patch_mutations patch) (mkScan [] [] [])) as Hs.
  destruct (scan_mutations _ _ _ _) as [sc|e| |]; cbn [fst snd] in *.
  - cbn [hs_hash set_version]. rewrite subtract_then_add_fold by done. split.
    + apply returns_bind.
      * destruct validate_macs; [|done]. destruct (key_id_of _); [|done].
        apply returns_bind; [apply keys_return|intros keys _]. apply validate_patch_macs_returns.
      * intros _ _. apply returns_bind; [apply decode_mutations_returns|]. by intros [[? ?] ?] _.
    + cbn [hs_hash set_hash]. apply fold_lt_vec; [apply lt_add_vec|].
      apply fold_lt_vec; [apply lt_sub_vec|done].
  - done.
  - exfalso. apply Hs. intros k j. unfold prev_value_mac. by case_match.
  - exfalso. apply Hs. intros k j. unfold prev_value_mac. by case_match.
Qed.
End Returns.

(** ** Key collection *)

Lemma collect_id_spec acc o :
  (forall k, k ∈ acc.1 <-> k ∈ acc.2) -> NoDup acc.2 ->
  (forall k, k ∈ (collect_id acc o).1 <-> k ∈ (collect_id acc o).2)
  /\ NoDup (collect_id acc o).2
  /\ (forall k, k ∈ (collect_id acc o).2 <-> k ∈ acc.2 \/ o = Some k).
Proof.
  destruct acc as [seen ids]. cbn [fst snd]. intros Hs Hnd. unfold collect_id.
  destruct o as [k|]; [|split_and!; [done|done|]; intros k'; split; [by left|by intros [?|?]]].
  case_decide as Hk; cbn [fst snd].
  - split_and!; [done|done|]. intros k'. split; [by left|]. intros [?|[= ->]]; [done|by apply Hs].
  - split_and!.
    + intros k'. rewrite elem_of_union, elem_of_singleton, elem_of_app, list_elem_of_singleton, Hs.
      tauto.
    + apply NoDup_app. split; [done|]. split; [|apply NoDup_singleton].
      intros x Hx ->%list_elem_of_singleton. by apply Hk, Hs.
    + intros k'. rewrite elem_of_app, list_elem_of_singleton. split; intros [?|?]; auto.
      * right. congruence.
      * right. congruence.
Qed.

Lemma collect_fold {A} (f : A -> option bytes) l acc :
  (forall k, k ∈ acc.1 <-> k ∈ acc.2) -> NoDup acc.2 ->
  let acc' := fold_left (fun acc x => collect_id acc (f x)) l acc in
  (forall k, k ∈ acc'.1 <-> k ∈ acc'.2) /\ NoDup acc'.2
  /\ (forall k, k ∈ acc'.2 <-> k ∈ acc.2 \/ exists x, x ∈ l /\ f x = Some k).
Proof.
  revert acc. induction l as [|x l IH]; intros acc Hs Hnd; cbn [fold_left].
  - split_and!; [done|done|]. intros k. split; [by left|].
    intros [?|(x & Hx%elem_of_nil & _)]; done.
  - destruct (collect_id_spec acc (f x) Hs Hnd) as (Hs' & Hnd' & Hin').
    destruct (IH _ Hs' Hnd') as (Hs'' & Hnd'' & Hin''). split_and!; [done|done|].
    intros k. rewrite Hin'', Hin'. split.
    + intros [[?|?]|(y & Hy & Hk)]; [by left|right; exists x; by split; [left|]|].
      right. exists y. by split; [right|].
    + intros [?|(y & [->|Hy]%elem_of_cons & Hk)]; [by left; left|by left; right|].
      right. by exists y.
Qed.

(** The key ids a patch list needs are collected once each: the list has no
    duplicates and contains exactly the ids named by the snapshot, by its
    records and by the patches (the ids named inside patch mutations are not
    among them). *)
Theorem collect_key_ids_spec (snapshot : option SyncdSnapshot) (patches : list SyncdPatch) :
  NoDup (collect_key_ids_from_patch_list snapshot patches)
  /\ forall k, k ∈ collect_key_ids_from_patch_list snapshot patches <->
     (exists s, snapshot = Some s
        /\ (key_id_of (snap_key_id s) = Some k
            \/ exists r, r ∈ snap_records s /\ key_id_of (rec_key_id r) = Some k))
     \/ exists p, p ∈ patches /\ key_id_of (patch_key_id p) = Some k.
Proof.
  unfold collect_key_ids_from_patch_list.
  set (acc := match snapshot with Some s => _ | None => _ end).
  assert ((forall k, k ∈ acc.1 <-> k ∈ acc.2) /\ NoDup acc.2
    /\ forall k, k ∈ acc.2 <-> exists s, snapshot = Some s
        /\ (key_id_of (snap_key_id s) = Some k
            \/ exists r, r ∈ snap_records s /\ key_id_of (rec_key_id r) = Some k))
    as (Hs & Hnd & Hin).
  { destruct snapshot as [s|]; subst acc; cbn [fst snd].
    - destruct (collect_id_spec (∅, []) (key_id_of (snap_key_id s))) as (H1 & H2 & H3);
        [intros k; set_solver|apply NoDup_nil_2|].
      destruct (collect_fold (fun r => key_id_of (rec_key_id r)) (snap_records s) _ H1 H2)
        as (H4 & H5 & H6). split_and!; [done|done|].
      intros k. rewrite H6, H3. cbn [snd]. split.
      + intros [[?%elem_of_nil|?]|?]; [done|exists s; auto|exists s; auto].
      + intros (s' & [= <-] & [?|?]); auto.
    - split_and!; [intros k; set_solver|apply NoDup_nil_2|].
      intros k. split; [by intros ?%elem_of_nil|by intros (s & ? & _)]. }
  destruct (collect_fold (fun p => key_id_of (patch_key_id p)) patches acc Hs Hnd) as (_ & Hnd' & Hin').
  split; [done|]. intros k. by rewrite Hin', Hin.
Qed.

(** ** A collection to evaluate the model on *)

Module Sample.
#[local] Existing Instances toy_hkdf toy_hashes toy_aes.

Definition keys : ExpandedAppStateKeys := expand_app_state_keys [1; 2; 3].
Definition get_keys (kid : bytes) : outcome AppStateError ExpandedAppStateKeys :=
  if kid =s [5] then Ok keys else Err KeyNotFound.
Definition action (pt : bytes) : option (SyncActionData unit) := Some (mkActionData None (Some tt)).
Definition json (b : bytes) : option (list str) := None.

(** A record whose value encrypts [pt], with its content MAC. *)
Definition record (op : SyncdOperation) (index pt : bytes) : SyncdRecord :=
  let body := replicate 16 0 ++ toy_encrypt [] [] pt in
  let mac := match generate_content_mac (E := unit) op body [5] (k_value_mac keys) with
             | Ok m => m | _ => [] end in
  mkSyncdRecord (Some (mkSyncdIndex (Some index))) (Some (mkSyncdValue (Some (body ++ mac))))
    (Some (mkKeyId (Some [5]))).

Definition set (index pt : bytes) : SyncdMutation :=
  mkSyncdMutation (Some 0) (Some (record OpSet index pt)).
Definition remove (index pt : bytes) : SyncdMutation :=
  mkSyncdMutation (Some 1) (Some (record OpRemove index pt)).

(** The store before: two entries.  The patch overwrites one, removes the
    other and adds a third. *)
Definition store : mac_store := <[[10] := [1; 1]]> (<[[11] := [2; 2]]> ∅).
Definition state : HashState := mkHashState 6 (lt_hash store) ∅.
Definition mutations : list SyncdMutation :=
  [set [10] [42]; set [12] [43]; set [10] [44]; remove [11] [45]].
Definition name : str := lit "regular".

Definition unsigned : SyncdPatch :=
  mkSyncdPatch (Some (mkSyncdVersion (Some 7))) mutations None None (Some (mkKeyId (Some [5]))).

(** The patch with the MACs a server would put on it. *)
Definition patch : SyncdPatch :=
  let state' := (process_patch action json get_keys (fun k => Ok (store !! k)) unsigned false name state).2 in
  let snap := match generate_snapshot_mac (E := unit) state' name (k_snapshot_mac keys) with
              | Ok m => m | _ => [] end in
  let with_snap := mkSyncdPatch (patch_version unsigned) mutations (Some snap) None (patch_key_id unsigned) in
  let pm := match generate_patch_mac (E := unit) with_snap name (k_patch_mac keys) 7 with
            | Ok m => m | _ => [] end in
  mkSyncdPatch (patch_version unsigned) mutations (Some snap) (Some pm) (patch_key_id unsigned).

Definition run := process_patch action json get_keys (fun k => Ok (store !! k)) patch true name state.
Definition result : PatchProcessingResult unit :=
  match run.1 with Ok r => r | _ => mkPatchResult state [] [] [] end.

Lemma run_ok : run = (Ok result, run.2).
Proof. vm_compute. reflexivity. Qed.

Lemma mutations_regular : regular mutations.
Proof.
  split.
  - unfold mutations. repeat apply Forall_cons_2; try apply Forall_nil_2;
      (split; [unfold known_op; cbn; auto|done]).
  - intros i j m m' k Hij Hi Hj Hk Hk'.
    do 4 (destruct i as [|i]; [
      do 4 (destruct j as [|j]; [
        try lia; cbn in *; simplify_eq; try done; cbn in *; simplify_eq; done|]);
        apply lookup_lt_Some in Hj; cbn in Hj; lia|]).
    apply lookup_lt_Some in Hi. cbn in Hi. lia.
Qed.

Definition snapshot : SyncdSnapshot :=
  mkSyncdSnapshot (Some (mkSyncdVersion (Some 4))) [record OpSet [10] [42]; record OpSet [11] [43]]
    None (Some (mkKeyId (Some [5]))).
Definition snapshot_run := process_snapshot action json get_keys snapshot true name hash_state_default.
Definition snapshot_result : ProcessedSnapshot unit :=
  match snapshot_run.1 with Ok r => r | _ => mkProcessedSnapshot state [] [] end.
End Sample.

#[local] Existing Instances toy_hkdf toy_hashes toy_aes.

Lemma process_patch_invariant_witness :
  let st' := put_macs (pr_added_macs Sample.result)
               (delete_macs (pr_removed_index_macs Sample.result) Sample.store) in
  hs_hash Sample.run.2 = lt_hash st'
  /\ st' = fold_left apply_mutation (patch_mutations Sample.patch) Sample.store
  /\ hs_version Sample.run.2 = version_of (patch_version Sample.patch)
  /\ pr_state Sample.result = Sample.run.2.
Proof.
  apply (process_patch_invariant Sample.action Sample.json Sample.get_keys Sample.store Sample.patch true
           Sample.name Sample.state).
  - exact Sample.mutations_regular.
  - vm_compute. reflexivity.
  - exact Sample.run_ok.
Defined.

Lemma process_snapshot_invariant_witness :
  hs_hash Sample.snapshot_run.2 = lt_hash (put_macs (ps_mutation_macs Sample.snapshot_result) ∅)
  /\ hs_version Sample.snapshot_run.2 = version_of (snap_version Sample.snapshot)
  /\ ps_state Sample.snapshot_result = Sample.snapshot_run.2.
Proof.
  apply (process_snapshot_invariant Sample.action Sample.json Sample.get_keys Sample.snapshot true Sample.name).
  - vm_compute. reflexivity.
  - apply NoDup_ListNoDup, (bool_decide_unpack (NoDup _)). vm_compute. exact I.
Defined.

Lemma process_patch_authentic_witness :
  (forall sm, patch_snapshot_mac Sample.patch = Some sm ->
     sm = hmac Sha256 (k_snapshot_mac Sample.keys)
            (hs_hash Sample.run.2 ++ u64_to_be (hs_version Sample.run.2) ++ Sample.name))
  /\ (forall pm, patch_mac Sample.patch = Some pm ->
     pm = hmac Sha256 (k_patch_mac Sample.keys)
            (concat (patch_mac_parts Sample.patch Sample.name (version_of (patch_version Sample.patch)))))
  /\ (forall m r, m ∈ patch_mutations Sample.patch -> mut_record m = Some r ->
     record_authentic Sample.get_keys (mutation_op m) r).
Proof.
  apply (process_patch_authentic Sample.action Sample.json Sample.get_keys
           (fun k => Ok (Sample.store !! k)) Sample.patch Sample.name Sample.state Sample.run.2
           Sample.result [5]).
  - exact Sample.run_ok.
  - vm_compute. reflexivity.
  - reflexivity.
  - reflexivity.
Defined.

Lemma process_patch_returns_witness :
  let '(out, state') :=
    process_patch Sample.action Sample.json Sample.get_keys (fun k => Ok (Sample.store !! k))
      Sample.patch true Sample.name Sample.state in
  returns out /\ vec 64 (hs_hash state').
Proof.
  apply (process_patch_returns Sample.action Sample.json Sample.get_keys (fun k => Ok (Sample.store !! k))).
  - intros k. unfold Sample.get_keys. by case_match.
  - done.
  - apply lt_hash_vec.
Defined.
