(* ===== verification/AppStateSync.v ===== *)
(** * App-state synchronisation: [src/src/appstate_sync.rs], [patch_decode.rs]

    The processor that drives a collection: parsing the patch list out of a
    stanza, fetching keys into a cache, processing the snapshot and the
    patches and persisting the state and the MACs after each.  The storage is
    the interface [AppSyncStore] with the laws its trait documents; the
    theorem is proved against it: a processed patch list leaves the persisted
    hash equal to the LTHash of the persisted MACs; a snapshot does so only
    where no MACs were stored before. *)

From stdpp Require Import gmap.
From S2P Require Import Prelude RustStd Jid Node Attrs Crypto LtHash AppState.

(** ** [patch_decode.rs] *)

Inductive WAPatchName :=
| CriticalBlock | CriticalUnblockLow | RegularLow | RegularHigh | Regular | Unknown.

Definition patch_name_as_str (n : WAPatchName) : str :=
  match n with
  | CriticalBlock => lit "critical_block"
  | CriticalUnblockLow => lit "critical_unblock_low"
  | RegularLow => lit "regular_low"
  | RegularHigh => lit "regular_high"
  | Regular => lit "regular"
  | Unknown => lit "unknown"
  end.

Definition patch_name_from_str (s : str) : WAPatchName :=
  if s =s lit "critical_block" then CriticalBlock
  else if s =s lit "critical_unblock_low" then CriticalUnblockLow
  else if s =s lit "regular_low" then RegularLow
  else if s =s lit "regular_high" then RegularHigh
  else if s =s lit "regular" then Regular
  else Unknown.

(** [ExternalBlobReference] is opaque to this code. *)
Record PatchList (X : Type) := mkPatchList {
  pl_name : WAPatchName;
  pl_has_more_patches : bool;
  pl_patches : list SyncdPatch;
  pl_snapshot : option SyncdSnapshot;
  pl_snapshot_ref : option X
}.
Arguments mkPatchList {X} _ _ _ _ _.
Arguments pl_name {X} _.
Arguments pl_has_more_patches {X} _.
Arguments pl_patches {X} _.
Arguments pl_snapshot {X} _.
Arguments pl_snapshot_ref {X} _.

Inductive StoreError := StoreFailed (msg : str).

Inductive SyncError :=
| SE_missing_collection
| SE_attrs (e : BinaryError)
| SE_bad_patch
| SE_store (e : StoreError)
| SE_key_not_found
| SE_app_state (e : AppStateError)
| SE_fetch.

Section ParsePatchList.
(** [ExternalBlobReference::decode] and [SyncdPatch::decode] *)
Context {X : Type} (decode_ref : bytes -> option X) (decode_patch : bytes -> option SyncdPatch).

Fixpoint decode_patches (children : list Node) : outcome SyncError (list SyncdPatch) :=
  match children with
  | [] => Ok []
  | child :: rest =>
      match (if tag child =s lit "patch" then content child else None) with
      | Some (NC_Bytes raw) =>
          match decode_patch raw with
          | Some p => let? ps := decode_patches rest in Ok (p :: ps)
          | None => Err SE_bad_patch
          end
      | _ => decode_patches rest
      end
  end.

Definition parse_patch_list (node : Node) : outcome SyncError (PatchList X) :=
  let? collection :=
    ok_or SE_missing_collection (get_optional_child_by_tag node [lit "sync"; lit "collection"]) in
  let ag := ap_new collection in
  let '(name_str, ag) := ap_string (lit "name") ag in
  let '(has_more, ag) := ap_optional_bool (lit "has_more_patches") ag in
  let? _ := map_err SE_attrs (ap_finish ag) in
  let snapshot_ref :=
    match get_optional_child collection (lit "snapshot") with
    | Some sn => match content sn with Some (NC_Bytes raw) => decode_ref raw | _ => None end
    | None => None
    end in
  let? patches :=
    match get_optional_child collection (lit "patches") with
    | Some pn => match children pn with Some cs => decode_patches cs | None => Ok [] end
    | None => Ok []
    end in
  Ok (mkPatchList (patch_name_from_str name_str) has_more patches None snapshot_ref).
End ParsePatchList.

(** ** The storage interface: [trait AppSyncStore]

    Reads do not change the store; a write that succeeds changes exactly the
    entry it names, as the views show.  A write that fails promises nothing. *)
Class AppSyncStore (B : Type) := {
  view_state : B -> str -> HashState;
  view_macs : B -> str -> mac_store;
  get_sync_key : bytes -> B -> outcome StoreError (option bytes);
  get_version : str -> B -> outcome StoreError HashState;
  get_version_ok : forall n b s, get_version n b = Ok s -> s = view_state b n;
  get_mutation_mac : str -> bytes -> B -> outcome StoreError (option bytes);
  get_mutation_mac_ok : forall n k b v,
    get_mutation_mac n k b = Ok v -> v = view_macs b n !! k;
  store_set_version : str -> HashState -> comp B StoreError unit;
  set_version_ok : forall n s b b', store_set_version n s b = (Ok tt, b') ->
    (forall n', view_state b' n' = if n =s n' then s else view_state b n')
    /\ (forall n', view_macs b' n' = view_macs b n');
  put_mutation_macs : str -> u64 -> list AppStateMutationMAC -> comp B StoreError unit;
  put_mutation_macs_ok : forall n v l b b', put_mutation_macs n v l b = (Ok tt, b') ->
    (forall n', view_state b' n' = view_state b n')
    /\ (forall n', view_macs b' n' = if n =s n' then put_macs l (view_macs b n) else view_macs b n');
  delete_mutation_macs : str -> list bytes -> comp B StoreError unit;
  delete_mutation_macs_ok : forall n l b b', delete_mutation_macs n l b = (Ok tt, b') ->
    (forall n', view_state b' n' = view_state b n')
    /\ (forall n', view_macs b' n' = if n =s n' then delete_macs l (view_macs b n) else view_macs b n')
}.

(** ** [AppStateProcessor] *)

Record AppStateProcessor (B : Type) := mkProcessor {
  backend : B;
  key_cache : gmap str ExpandedAppStateKeys
}.
Arguments mkProcessor {B} _ _.
Arguments backend {B} _.
Arguments key_cache {B} _.

Section Processor.
Context `{!Hkdf, !Hashes, !AesCbc}.
Context {B : Type} `{!AppSyncStore B}.
Context {V : Type} (decode_action : bytes -> option (SyncActionData V)).
Context (json_strings : bytes -> option (list str)).
(** [STANDARD_NO_PAD.encode] *)
Context (b64 : bytes -> str).
Context {X : Type}.

Abbreviation proc A := (comp (AppStateProcessor B) SyncError A).

(** A read of the backend, and a write to it. *)
Definition read_store {A} (r : B -> outcome StoreError A) : proc A :=
  fun p => (map_err SE_store (r (backend p)), p).
Definition write_store {A} (w : comp B StoreError A) : proc A :=
  fun p => let '(o, b) := w (backend p) in (map_err SE_store o, mkProcessor b (key_cache p)).

Definition processor_new (b : B) : AppStateProcessor B := mkProcessor b ∅.

Definition get_app_state_key (key_id : bytes) : proc ExpandedAppStateKeys :=
  fun p =>
    match key_cache p !! b64 key_id with
    | Some cached => (Ok cached, p)
    | None =>
        (let! key_opt := read_store (get_sync_key key_id) in
         match key_opt with
         | None => mfail SE_key_not_found
         | Some key_data =>
             let expanded := expand_app_state_keys key_data in
             fun p => (Ok expanded,
                       mkProcessor (backend p) (<[b64 key_id := expanded]> (key_cache p)))
         end) p
    end.

(** [let _ = ...]: errors are dropped. *)
Definition prefetch_keys (pl : PatchList X) : proc unit :=
  mfor (fun key_id => fun p => (Ok tt, (get_app_state_key key_id p).2))
    (collect_key_ids_from_patch_list (pl_snapshot pl) (pl_patches pl)).

(** The [get_keys] callback over the cache. *)
Definition cached_keys (cache : gmap str ExpandedAppStateKeys) (key_id : bytes)
    : outcome AppStateError ExpandedAppStateKeys :=
  ok_or KeyNotFound (cache !! b64 key_id).

(** Persist the state, then the MACs: removed ones first, empty lists skipped. *)
Definition persist (name : str) (state : HashState) (removed : list bytes)
    (added : list AppStateMutationMAC) : proc unit :=
  write_store (store_set_version name state) ;;
  (match removed with [] => mret tt | _ => write_store (delete_mutation_macs name removed) end) ;;
  (match added with
   | [] => mret tt
   | _ => write_store (put_mutation_macs name (hs_version state) added)
   end).

Definition process_snapshot_step (name : str) (validate_macs : bool) (snapshot : SyncdSnapshot)
    : proc (list (Mutation V) * HashState) :=
  fun p =>
    let '(o, state) :=
      process_snapshot decode_action json_strings (cached_keys (key_cache p)) snapshot
        validate_macs name hash_state_default in
    (let! result := mlift (map_err SE_app_state o) in
     persist name state [] (ps_mutation_macs result) ;;
     mret (ps_mutations result, state)) p.

(** The index MACs of a patch, each once. *)
Definition push_lookup (acc : list bytes) (m : SyncdMutation) : list bytes :=
  match mut_record m with
  | Some r =>
      match index_blob r with
      | Some k => if existsb (bytes_eqb k) acc then acc else acc ++ [k]
      | None => acc
      end
  | None => acc
  end.
Definition need_db_lookup (ms : list SyncdMutation) : list bytes := fold_left push_lookup ms [].

Fixpoint fetch_prev (name : str) (ks : list bytes) (db_prev : gmap bytes bytes)
    : proc (gmap bytes bytes) :=
  match ks with
  | [] => mret db_prev
  | k :: ks' =>
      let! v := read_store (get_mutation_mac name k) in
      fetch_prev name ks' (match v with Some mac => <[k := mac]> db_prev | None => db_prev end)
  end.

Definition process_patch_step (name : str) (validate_macs : bool) (state : HashState)
    (patch : SyncdPatch) : proc (list (Mutation V) * HashState) :=
  let! db_prev := fetch_prev name (need_db_lookup (patch_mutations patch)) ∅ in
  fun p =>
    let '(o, state) :=
      process_patch decode_action json_strings (cached_keys (key_cache p))
        (fun k => Ok (db_prev !! k)) patch validate_macs name state in
    (let! result := mlift (map_err SE_app_state o) in
     persist name state (pr_removed_index_macs result) (pr_added_macs result) ;;
     mret (pr_mutations result, state)) p.

Fixpoint process_patches (name : str) (validate_macs : bool) (state : HashState)
    (patches : list SyncdPatch) : proc (list (Mutation V) * HashState) :=
  match patches with
  | [] => mret ([], state)
  | patch :: patches' =>
      let! (mus, state) := process_patch_step name validate_macs state patch in
      let! (mus', state) := process_patches name validate_macs state patches' in
      mret (mus ++ mus', state)
  end.

Definition process_patch_list (pl : PatchList X) (validate_macs : bool)
    : proc (list (Mutation V) * HashState * PatchList X) :=
  prefetch_keys pl ;;
  let name := patch_name_as_str (pl_name pl) in
  let! state := read_store (get_version name) in
  let! (mus, state) :=
    match pl_snapshot pl with
    | Some snapshot => process_snapshot_step name validate_macs snapshot
    | None => mret ([], state)
    end in
  let! (mus', state) := process_patches name validate_macs state (pl_patches pl) in
  (match pl_patches pl, pl_snapshot pl with
   | [], Some _ => write_store (store_set_version name state)
   | _, _ => mret tt
   end) ;;
  mret (mus ++ mus', state, pl).

(** [download] and [SyncdSnapshot::decode]; a failure of either is ignored. *)
Definition decode_patch_list (decode_ref : bytes -> option X)
    (decode_patch : bytes -> option SyncdPatch) (decode_snapshot : bytes -> option SyncdSnapshot)
    (download : X -> option bytes) (stanza_root : Node) (validate_macs : bool)
    : proc (list (Mutation V) * HashState * PatchList X) :=
  let! pl := mlift (parse_patch_list decode_ref decode_patch stanza_root) in
  let snapshot :=
    match pl_snapshot pl, pl_snapshot_ref pl with
    | None, Some ext =>
        match download ext with Some data => decode_snapshot data | None => None end
    | s, _ => s
    end in
  process_patch_list
    (mkPatchList (pl_name pl) (pl_has_more_patches pl) (pl_patches pl) snapshot (pl_snapshot_ref pl))
    validate_macs.

Fixpoint missing_ids (ids : list bytes) : proc (list bytes) :=
  match ids with
  | [] => mret []
  | id :: ids' =>
      let! k := read_store (get_sync_key id) in
      let! rest := missing_ids ids' in
      mret (match k with None => id :: rest | Some _ => rest end)
  end.

Definition get_missing_key_ids (pl : PatchList X) : proc (list bytes) :=
  missing_ids (collect_key_ids_from_patch_list (pl_snapshot pl) (pl_patches pl)).

(** The driver's answers, one per round; the loop runs while the server has
    more patches, so its rounds are bounded by a fuel. *)
Fixpoint sync_collection (decode_ref : bytes -> option X)
    (decode_patch : bytes -> option SyncdPatch) (decode_snapshot : bytes -> option SyncdSnapshot)
    (download : X -> option bytes) (fetch_collection : nat -> str -> u64 -> option Node)
    (name : WAPatchName) (validate_macs : bool) (fuel : nat) (round : nat) : proc (list (Mutation V)) :=
  match fuel with
  | O => mnofuel
  | S fuel' =>
      let! state := read_store (get_version (patch_name_as_str name)) in
      let! node := mlift (ok_or SE_fetch
        (fetch_collection round (patch_name_as_str name) (hs_version state))) in
      let! (muts, _, list) :=
        decode_patch_list decode_ref decode_patch decode_snapshot download node validate_macs in
      if negb (pl_has_more_patches list) then mret muts
      else
        let! rest := sync_collection decode_ref decode_patch decode_snapshot download
          fetch_collection name validate_macs fuel' (S round) in
        mret (muts ++ rest)
  end.
End Processor.

(** ** Lemmas *)

Lemma mbind'_inv {S E A C} (m : comp S E A) (k : A -> comp S E C) s c s' :
  mbind' m k s = (Ok c, s') -> exists a s1, m s = (Ok a, s1) /\ k a s1 = (Ok c, s').
Proof. unfold mbind'. destruct (m s) as [[a|e| |] s1]; try done. by exists a, s1. Qed.

Lemma mfor_cons {S E A} (f : A -> comp S E unit) x l : mfor f (x :: l) = (f x ;; mfor f l).
Proof. done. Qed.

Lemma map_err_Ok {E F A} (f : E -> F) (o : outcome E A) a : map_err f o = Ok a -> o = Ok a.
Proof. by destruct o; intros [= ->]. Qed.

Section SyncInvariant.
Context `{HK : !Hkdf, HS : !Hashes, HA : !AesCbc}.
Context {B : Type} `{!AppSyncStore B}.
Context {V : Type} (decode_action : bytes -> option (SyncActionData V)).
Context (json_strings : bytes -> option (list str)) (b64 : bytes -> str).
Context {X : Type}.

Lemma write_store_inv {A} (w : comp B StoreError A) p a p' :
  write_store w p = (Ok a, p') ->
  w (backend p) = (Ok a, backend p') /\ key_cache p' = key_cache p.
Proof.
  unfold write_store. destruct (w (backend p)) as [o b]. intros [= Ho%map_err_Ok <-]. by subst o.
Qed.

Lemma read_store_inv {A} (r : B -> outcome StoreError A) p a p' :
  read_store r p = (Ok a, p') -> r (backend p) = Ok a /\ p' = p.
Proof. unfold read_store. by intros [= ?%map_err_Ok <-]. Qed.

Lemma get_app_state_key_backend key_id p :
  backend (get_app_state_key b64 key_id p).2 = backend p.
Proof.
  unfold get_app_state_key. destruct (key_cache p !! b64 key_id); [done|].
  unfold mbind', read_store. destruct (get_sync_key key_id (backend p)) as [[k|]|e| |]; done.
Qed.

Lemma prefetch_keys_backend (pl : PatchList X) p u p' :
  prefetch_keys b64 pl p = (Ok u, p') -> backend p' = backend p.
Proof.
  unfold prefetch_keys. generalize (collect_key_ids_from_patch_list (pl_snapshot pl) (pl_patches pl)).
  intros l. revert p. induction l as [|k l IH]; intros p; [by intros [= _ <-]|].
  rewrite mfor_cons. intros Hm. apply mbind'_inv in Hm as (a & s1 & [= _ <-] & H2). rewrite (IH _ H2).
  apply get_app_state_key_backend.
Qed.

(** The lookups of a patch's indices agree with the store. *)
Lemma fetch_prev_spec name ks db0 p db p' :
  (forall k v, db0 !! k = Some v -> view_macs (backend p) name !! k = Some v) ->
  fetch_prev name ks db0 p = (Ok db, p') ->
  p' = p /\ (forall k v, db !! k = Some v -> view_macs (backend p) name !! k = Some v)
  /\ (forall k, k ∈ ks \/ is_Some (db0 !! k) -> db !! k = view_macs (backend p) name !! k).
Proof.
  revert db0. induction ks as [|k0 ks IH]; intros db0 Hdb; cbn [fetch_prev].
  - intros [= <- <-]. split_and!; [done|done|]. intros k [?%elem_of_nil|[v Hv]]; [done|].
    by rewrite Hv, (Hdb k v Hv).
  - intros (v & p1 & [Hv ->]%read_store_inv & Hf)%mbind'_inv.
    apply get_mutation_mac_ok in Hv.
    apply IH in Hf as (-> & Hsub & Hin).
    + split_and!; [done|done|]. intros k Hk. destruct (decide (k = k0)) as [->|Hne].
      * destruct v as [mac|]; [by rewrite Hin by (right; by rewrite lookup_insert_eq)|].
        destruct (db !! k0) as [w|] eqn:Hw; [by rewrite (Hsub _ _ Hw)|]. done.
      * apply Hin. destruct Hk as [[?|?]%elem_of_cons|Hk]; [done|by left|right].
        destruct v; [by rewrite lookup_insert_ne|done].
    + intros k w. destruct v as [mac|]; [|apply Hdb].
      destruct (decide (k = k0)) as [->|Hne]; [rewrite lookup_insert_eq; by intros [= <-]|].
      rewrite lookup_insert_ne by done. apply Hdb.
Qed.

Lemma need_db_lookup_in ms m k :
  m ∈ ms -> mutation_index m = Some k -> k ∈ need_db_lookup ms.
Proof.
  unfold need_db_lookup. generalize (@nil bytes) as acc.
  assert (forall ms acc k, k ∈ acc -> k ∈ fold_left push_lookup ms acc) as Hkeep.
  { clear. intros ms. induction ms as [|m ms IH]; intros acc k Hk; [done|]. cbn [fold_left]. apply IH.
    unfold push_lookup. repeat case_match; try done; apply elem_of_app; by left. }
  induction ms as [|m' ms IH]; intros acc Hm Hk; [by apply elem_of_nil in Hm|]. cbn [fold_left].
  apply elem_of_cons in Hm as [<-|Hm]; [|by apply IH].
  apply Hkeep. unfold mutation_index in Hk. unfold push_lookup.
  destruct (mut_record m); [|done]. rewrite Hk.
  destruct (existsb (bytes_eqb k) acc) eqn:He.
  - apply existsb_exists in He as (x & Hx & <-%bytes_eqb_eq). by apply list_elem_of_In.
  - apply elem_of_app. right. by apply list_elem_of_singleton.
Qed.

(** What a step promises: the collection's persisted state and MACs are in
    step with [state], and no other collection has changed. *)
Definition persisted (name : str) (state : HashState) (b b' : B) : Prop :=
  view_state b' name = state /\ hs_hash state = lt_hash (view_macs b' name)
  /\ forall n', n' <> name -> view_state b' n' = view_state b n' /\ view_macs b' n' = view_macs b n'.

Lemma persisted_trans name s1 s2 b1 b2 b3 :
  persisted name s1 b1 b2 -> persisted name s2 b2 b3 -> persisted name s2 b1 b3.
Proof.
  intros (_ & _ & H1) (Hv & Hh & H2). split_and!; [done|done|].
  intros n' Hn. destruct (H1 n' Hn) as [<- <-]. by apply H2.
Qed.

(** Storing the state, deleting and then writing MACs. *)
Lemma store_all name state (removed : list bytes) (added : list AppStateMutationMAC) p u p' :
  persist name state removed added p = (Ok u, p') ->
  view_state (backend p') name = state
  /\ view_macs (backend p') name = put_macs added (delete_macs removed (view_macs (backend p) name))
  /\ forall n', n' <> name -> view_state (backend p') n' = view_state (backend p) n'
                              /\ view_macs (backend p') n' = view_macs (backend p) n'.
Proof.
  intros ([] & p1 & [H1 _]%write_store_inv & H)%mbind'_inv.
  apply set_version_ok in H1 as [Hs1 Hm1].
  apply mbind'_inv in H as ([] & p2 & H2 & H3).
  assert ((forall n', view_state (backend p2) n' = view_state (backend p1) n')
    /\ forall n', view_macs (backend p2) n' =
       if name =s n' then delete_macs removed (view_macs (backend p1) name)
       else view_macs (backend p1) n') as [Hs2 Hm2].
  { destruct removed as [|r removed].
    - injection H2 as <-. split; [done|]. intros n'. case_streq; [by subst|done].
    - apply write_store_inv in H2 as [H2 _]. by apply delete_mutation_macs_ok in H2. }
  assert ((forall n', view_state (backend p') n' = view_state (backend p2) n')
    /\ forall n', view_macs (backend p') n' =
       if name =s n' then put_macs added (view_macs (backend p2) name)
       else view_macs (backend p2) n') as [Hs3 Hm3].
  { destruct added as [|r added].
    - injection H3 as _ <-. split; [done|]. intros n'. case_streq; [by subst|done].
    - destruct u. apply write_store_inv in H3 as [H3 _]. by apply put_mutation_macs_ok in H3. }
  split_and!.
  - by rewrite Hs3, Hs2, Hs1, bytes_eqb_refl.
  - by rewrite Hm3, Hm2, Hm1, bytes_eqb_refl.
  - intros n' Hn. rewrite Hs3, Hs2, Hs1, Hm3, !Hm2, !Hm1.
    by rewrite (proj2 (bytes_eqb_neq name n')) by congruence.
Qed.

Lemma process_patch_step_persisted name vm state patch p mus state' p' :
  regular (patch_mutations patch) ->
  hs_hash state = lt_hash (view_macs (backend p) name) ->
  process_patch_step decode_action json_strings b64 name vm state patch p = (Ok (mus, state'), p') ->
  persisted name state' (backend p) (backend p').
Proof.
  intros Hreg Hh. unfold process_patch_step.
  intros (db & p1 & Hf & H)%mbind'_inv.
  apply fetch_prev_spec in Hf as (-> & _ & Hdb); [|by intros k v; rewrite lookup_empty].
  destruct (process_patch _ _ _ _ _ _ _ _) as [o s1] eqn:Hp.
  apply mbind'_inv in H as (res & p2 & [= Ho%map_err_Ok <-] & H). subst o.
  apply process_patch_hash with (st := view_macs (backend p) name) in Hp as (Hhash & _ & _ & _);
    [|done| |done].
  2: { intros m k Hm Hk. rewrite Hdb; [done|]. left. by eapply need_db_lookup_in. }
  apply mbind'_inv in H as (u & p3 & Hw & [= _ <- <-]).
  apply store_all in Hw as (Hs & Hm & Ho). split_and!; [done|by rewrite Hm|done].
Qed.

Lemma process_patches_persisted name vm patches state p mus state' p' :
  Forall (fun patch => regular (patch_mutations patch)) patches ->
  hs_hash state = lt_hash (view_macs (backend p) name) -> view_state (backend p) name = state ->
  process_patches decode_action json_strings b64 name vm state patches p = (Ok (mus, state'), p') ->
  persisted name state' (backend p) (backend p').
Proof.
  intros Hreg. revert state p mus. induction Hreg as [|patch patches Hr Hreg IH]; intros state p mus Hh Hs.
  - intros [= <- <- <-]. by split_and!.
  - intros ([mus1 s1] & p1 & H1 & H)%mbind'_inv.
    apply mbind'_inv in H as ([mus2 s2] & p2 & H2 & [= _ <- <-]).
    apply process_patch_step_persisted in H1; [|done|done].
    pose proof H1 as (Hs1 & Hh1 & _).
    eapply persisted_trans; [done|]. by eapply IH.
Qed.

Lemma process_snapshot_step_persisted name vm snapshot p mus state' p' :
  view_macs (backend p) name = ∅ ->
  List.NoDup (map (fun r => match index_blob r with Some b => b | None => [] end) (snap_records snapshot)) ->
  process_snapshot_step decode_action json_strings b64 name vm snapshot p = (Ok (mus, state'), p') ->
  persisted name state' (backend p) (backend p').
Proof.
  intros Hempty Hnd. unfold process_snapshot_step.
  destruct (process_snapshot _ _ _ _ _ _ _) as [o s1] eqn:Hp.
  intros (res & p1 & [= Ho%map_err_Ok <-] & H)%mbind'_inv. subst o.
  apply mbind'_inv in H as (u & p2 & Hw & [= _ <- <-]).
  pose proof (process_snapshot_indices _ _ _ _ _ _ _ _ Hp) as Hidx.
  apply process_snapshot_hash in Hp as (Hh & _ & _); [|by rewrite Hidx].
  apply store_all in Hw as (Hs & Hm & Ho). split_and!; [done| |done].
  rewrite Hm, Hempty. done.
Qed.

Lemma put_macs_other macs st k : k ∉ map mm_index_mac macs -> put_macs macs st !! k = st !! k.
Proof.
  unfold put_macs. revert st. induction macs as [|m macs IH]; intros st Hk; [done|]. cbn [map] in Hk. apply not_elem_of_cons in Hk as [Hm Hk].
  cbn [fold_left]. rewrite IH by done. by rewrite lookup_insert_ne.
Qed.

(** A snapshot replaces the hash but not the stored MACs: what was stored for an
    index that the snapshot does not have stays. *)
Theorem snapshot_keeps_old_macs name vm snapshot p mus state' p' k v :
  process_snapshot_step decode_action json_strings b64 name vm snapshot p = (Ok (mus, state'), p') ->
  k ∉ map (fun r => match index_blob r with Some b => b | None => [] end) (snap_records snapshot) ->
  view_macs (backend p) name !! k = Some v -> view_macs (backend p') name !! k = Some v.
Proof.
  unfold process_snapshot_step. destruct (process_snapshot _ _ _ _ _ _ _) as [o s1] eqn:Hp.
  intros (res & p1 & [= Ho%map_err_Ok <-] & H)%mbind'_inv Hk Hv. subst o.
  apply mbind'_inv in H as (u & p2 & Hw & [= _ _ <-]).
  rewrite <- (process_snapshot_indices _ _ _ _ _ _ _ _ Hp) in Hk.
  apply store_all in Hw as (_ & Hm & _). rewrite Hm, put_macs_other by done. exact Hv.
Qed.

(** Synchronisation keeps every collection consistent.  Whatever storage
    implements the interface, processing a patch list of regular patches,
    from a collection whose persisted hash is the LTHash of its persisted
    MACs (or, when the list brings a snapshot with distinct indices, from one
    with no MACs), leaves it so: the returned state is the persisted one, its
    hash is the LTHash of the persisted MACs, and no other collection has
    changed. *)
Theorem process_patch_list_consistent (pl pl' : PatchList X) (validate_macs : bool)
    (p p' : AppStateProcessor B) (mus : list (Mutation V)) (state' : HashState) :
  let name := patch_name_as_str (pl_name pl) in
  Forall (fun patch => regular (patch_mutations patch)) (pl_patches pl) ->
  match pl_snapshot pl with
  | None => hs_hash (view_state (backend p) name) = lt_hash (view_macs (backend p) name)
  | Some snapshot =>
      view_macs (backend p) name = ∅
      /\ List.NoDup (map (fun r => match index_blob r with Some b => b | None => [] end)
                         (snap_records snapshot))
  end ->
  process_patch_list decode_action json_strings b64 pl validate_macs p = (Ok (mus, state', pl'), p') ->
  persisted name state' (backend p) (backend p') /\ pl' = pl.
Proof.
  intros name Hreg Hstart. unfold process_patch_list. fold name.
  intros (u & p1 & Hb%prefetch_keys_backend & H)%mbind'_inv. rewrite <- Hb in *. clear Hb.
  apply mbind'_inv in H as (s0 & p2 & [Hv%get_version_ok ->]%read_store_inv & H).
  apply mbind'_inv in H as ([mus1 s1] & p3 & H1 & H).
  apply mbind'_inv in H as ([mus2 s2] & p4 & H2 & H).
  apply mbind'_inv in H as (u' & p5 & H3 & [= _ <- <- <-]). split; [|done].
  assert (persisted name s1 (backend p1) (backend p3)) as Hp1.
  { destruct (pl_snapshot pl) as [snapshot|].
    - destruct Hstart as [He Hnd]. by eapply process_snapshot_step_persisted.
    - injection H1 as _ <- <-. by subst s0. }
  assert (persisted name s2 (backend p1) (backend p4)) as Hp2.
  { eapply persisted_trans; [done|]. destruct Hp1 as (Hs & Hh & _).
    by eapply process_patches_persisted. }
  eapply persisted_trans; [done|]. destruct Hp2 as (Hs & Hh & _).
  destruct (pl_patches pl), (pl_snapshot pl); try (injection H3 as _ <-; by split_and!).
  destruct u'. apply write_store_inv in H3 as [[Hs3 Hm3]%set_version_ok _]. split_and!.
  - by rewrite Hs3, bytes_eqb_refl.
  - by rewrite Hm3.
  - intros n' Hn. rewrite Hs3, Hm3. by rewrite (proj2 (bytes_eqb_neq name n')) by congruence.
Qed.
End SyncInvariant.

(** ** A storage in memory *)

Record MemStore := mkMemStore {
  mem_states : gmap str HashState;
  mem_macs : gmap str mac_store;
  mem_keys : gmap bytes bytes
}.

Definition mem_state (b : MemStore) (n : str) : HashState := default hash_state_default (mem_states b !! n).
Definition mem_mac (b : MemStore) (n : str) : mac_store := default ∅ (mem_macs b !! n).

Definition mem_set_version (n : str) (s : HashState) : comp MemStore StoreError unit :=
  fun b => (Ok tt, mkMemStore (<[n := s]> (mem_states b)) (mem_macs b) (mem_keys b)).
Definition mem_update_macs (f : mac_store -> mac_store) (n : str) : comp MemStore StoreError unit :=
  fun b => (Ok tt, mkMemStore (mem_states b) (<[n := f (mem_mac b n)]> (mem_macs b)) (mem_keys b)).

Lemma mem_update_ok f n b b' :
  mem_update_macs f n b = (Ok tt, b') ->
  (forall n', mem_state b' n' = mem_state b n')
  /\ (forall n', mem_mac b' n' = if n =s n' then f (mem_mac b n) else mem_mac b n').
Proof.
  intros [= <-]. split; [done|]. intros n'. unfold mem_mac at 1. cbn.
  case_streq; [subst; by rewrite lookup_insert_eq|by rewrite lookup_insert_ne].
Qed.

Lemma mem_set_version_ok n s b b' :
  mem_set_version n s b = (Ok tt, b') ->
  (forall n', mem_state b' n' = if n =s n' then s else mem_state b n')
  /\ (forall n', mem_mac b' n' = mem_mac b n').
Proof.
  intros [= <-]. split; [|done]. intros n'. unfold mem_state at 1. cbn.
  case_streq; [subst; by rewrite lookup_insert_eq|by rewrite lookup_insert_ne].
Qed.

#[export] Instance MemStore_store : AppSyncStore MemStore.
Proof.
  refine {|
    view_state := mem_state; view_macs := mem_mac;
    get_sync_key k b := Ok (mem_keys b !! k);
    get_version n b := Ok (mem_state b n);
    get_mutation_mac n k b := Ok (mem_mac b n !! k);
    store_set_version := mem_set_version; set_version_ok := mem_set_version_ok;
    put_mutation_macs n v l := mem_update_macs (put_macs l) n;
    put_mutation_macs_ok n v l := mem_update_ok (put_macs l) n;
    delete_mutation_macs n l := mem_update_macs (delete_macs l) n;
    delete_mutation_macs_ok n l := mem_update_ok (delete_macs l) n
  |}; congruence.
Defined.

Definition sample_store : MemStore :=
  mkMemStore {[ lit "regular" := Sample.state ]} {[ lit "regular" := Sample.store ]} {[ [5] := [1; 2; 3] ]}.
Definition sample_list : PatchList unit := mkPatchList Regular false [Sample.patch] None None.

#[local] Existing Instances toy_hkdf toy_hashes toy_aes.

Definition sample_sync :=
  process_patch_list Sample.action Sample.json (fun b => b) sample_list true
    (processor_new sample_store).
Definition sample_sync_state : HashState :=
  match sample_sync.1 with Ok (_, s, _) => s | _ => Sample.state end.
Definition sample_sync_mutations : list (Mutation unit) :=
  match sample_sync.1 with Ok (m, _, _) => m | _ => [] end.

Lemma process_patch_list_consistent_witness :
  persisted (lit "regular") sample_sync_state sample_store (backend sample_sync.2)
  /\ sample_list = sample_list.
Proof.
  apply (process_patch_list_consistent Sample.action Sample.json (fun b => b) sample_list sample_list true
    (processor_new sample_store) sample_sync.2 sample_sync_mutations).
  - apply Forall_cons_2; [exact Sample.mutations_regular|apply Forall_nil_2].
  - vm_compute. reflexivity.
  - vm_compute. reflexivity.
Defined.
