(* ===== verification/Framing.v ===== *)
(** * Frames: [warp_core/src/framing.rs], [handshake/edge_routing.rs]

    Length-prefixed frames over a byte stream, the decoder that buffers
    incoming chunks, the receive loop of the client that drains it after every
    chunk, and the edge-routing pre-introduction.  The theorems show that the
    frames received do not depend on how the stream was cut into chunks and
    are the payloads that were sent. *)

From S2P Require Import Prelude RustStd Crypto.

Definition FRAME_LENGTH_SIZE : nat := 3.
Definition FRAME_MAX_SIZE : Z := Z.shiftl 2 23.

(** The error carries the size of the payload. *)
Inductive FrameError := FrameTooLarge (max got : Z).

(** [encode_frame_into]: the buffer is replaced on success, kept on error. *)
Definition encode_frame_into (payload : bytes) (header : option bytes) : comp bytes FrameError unit :=
  fun out =>
    let payload_len := Z.of_nat (length payload) in
    if FRAME_MAX_SIZE <=? payload_len then (Err (FrameTooLarge FRAME_MAX_SIZE payload_len), out)
    else
      let out := [] in
      let out := out ++ (match header with Some h => h | None => [] end) in
      let len_bytes := u32_to_be_bytes (wrap 32 payload_len) in
      (Ok tt, out ++ drop 1 len_bytes ++ payload).

Definition encode_frame (payload : bytes) (header : option bytes) : outcome FrameError bytes :=
  match encode_frame_into payload header [] with
  | (Ok _, data) => Ok data
  | (Err e, _) => Err e
  | (Panic, _) => Panic
  | (NoFuel, _) => NoFuel
  end.

(** ** [FrameDecoder] *)

Record FrameDecoder := mkFrameDecoder { buffer : bytes }.

Definition frame_decoder_new : FrameDecoder := mkFrameDecoder [].
Definition feed (data : bytes) (d : FrameDecoder) : FrameDecoder := mkFrameDecoder (buffer d ++ data).

(** The big-endian length in the first three bytes. *)
Definition frame_len_of (a b c : u8) : Z := Z.lor (Z.lor (Z.shiftl a 16) (Z.shiftl b 8)) c.

Definition decode_frame (d : FrameDecoder) : option bytes * FrameDecoder :=
  match buffer d with
  | a :: b :: c :: rest =>
      let frame_len := frame_len_of a b c in
      if FRAME_MAX_SIZE <? frame_len then (None, mkFrameDecoder rest)
      else if Z.of_nat FRAME_LENGTH_SIZE + frame_len <=? Z.of_nat (length (buffer d)) then
        (Some (take (Z.to_nat frame_len) rest), mkFrameDecoder (drop (Z.to_nat frame_len) rest))
      else (None, d)
  | _ => (None, d)
  end.

(** [while let Some(frame) = decoder.decode_frame()]: every frame consumes at
    least its length prefix, so the buffer's length bounds the iterations. *)
Fixpoint drain_fuel (fuel : nat) (d : FrameDecoder) : list bytes * FrameDecoder :=
  match decode_frame d, fuel with
  | (Some f, d'), S n => let '(fs, d'') := drain_fuel n d' in (f :: fs, d'')
  | (Some f, d'), O => ([], d)
  | (None, d'), _ => ([], d')
  end.
Definition drain (d : FrameDecoder) : list bytes * FrameDecoder :=
  drain_fuel (length (buffer d)) d.

(** The receive loop: feed a chunk, drain the decoder. *)
Fixpoint receive (chunks : list bytes) (d : FrameDecoder) : list bytes * FrameDecoder :=
  match chunks with
  | [] => ([], d)
  | c :: chunks' =>
      let '(fs, d') := drain (feed c d) in
      let '(fs', d'') := receive chunks' d' in
      (fs ++ fs', d'')
  end.

(** ** Edge routing *)

Definition MAX_EDGE_ROUTING_LEN : Z := 16777215.

Inductive EdgeRoutingError := RoutingInfoTooLarge.

Definition build_edge_routing_preintro (routing_info : bytes) : outcome EdgeRoutingError bytes :=
  let len := Z.of_nat (length routing_info) in
  if MAX_EDGE_ROUTING_LEN <? len then Err RoutingInfoTooLarge
  else
    Ok (lit "ED" ++ [0; 1]
        ++ [wrap 8 (Z.shiftr len 16); wrap 8 (Z.shiftr len 8); wrap 8 len]
        ++ routing_info).

(** ** The length prefix *)

Definition len3 (n : Z) : bytes := [wrap 8 (Z.shiftr n 16); wrap 8 (Z.shiftr n 8); wrap 8 n].

Lemma frame_len_roundtrip n :
  0 <= n < 2 ^ 24 ->
  frame_len_of (wrap 8 (Z.shiftr n 16)) (wrap 8 (Z.shiftr n 8)) (wrap 8 n) = n.
Proof.
  intros Hn. unfold frame_len_of, wrap. rewrite !Z.shiftr_div_pow2 by lia.
  set (a := n / 2 ^ 16 mod 2 ^ 8). set (b := n / 2 ^ 8 mod 2 ^ 8). set (c := n mod 2 ^ 8).
  assert (0 <= b < 2 ^ 8 /\ 0 <= c < 2 ^ 8) as (Hb & Hc) by (split; apply Z.mod_pos_bound; lia).
  replace (Z.shiftl a 16) with (Z.shiftl (Z.shiftl a 8) 8) by (by rewrite Z.shiftl_shiftl by lia).
  rewrite <- Z.shiftl_lor, !lor_shiftl_add by lia. subst a b c.
  change (2 ^ 24) with 16777216 in *. change (2 ^ 16) with 65536. change (2 ^ 8) with 256.
  Z.div_mod_to_equations. lia.
Qed.

Lemma frame_len_bound a b c : is_byte a -> is_byte b -> is_byte c -> 0 <= frame_len_of a b c < 2 ^ 24.
Proof.
  unfold is_byte, frame_len_of. intros.
  replace (Z.shiftl a 16) with (Z.shiftl (Z.shiftl a 8) 8) by (by rewrite Z.shiftl_shiftl by lia).
  rewrite <- Z.shiftl_lor, !lor_shiftl_add by lia. lia.
Qed.

Lemma encode_frame_eq payload header :
  encode_frame payload header =
  if 2 ^ 24 <=? Z.of_nat (length payload)
  then Err (FrameTooLarge (2 ^ 24) (Z.of_nat (length payload)))
  else Ok ((match header with Some h => h | None => [] end)
           ++ len3 (Z.of_nat (length payload)) ++ payload).
Proof.
  unfold encode_frame, encode_frame_into. change FRAME_MAX_SIZE with (2 ^ 24).
  destruct (Z.leb_spec (2 ^ 24) (Z.of_nat (length payload))); [done|].
  by rewrite wrap_small by lia.
Qed.

(** ** Draining *)

Definition byte_stream (s : bytes) : Prop := Forall is_byte s.

(** On a stream of bytes the oversize test never fires. *)
Lemma decode_frame_bytes s :
  byte_stream s ->
  decode_frame (mkFrameDecoder s) =
  match s with
  | a :: b :: c :: rest =>
      let n := Z.to_nat (frame_len_of a b c) in
      if (n <=? length rest)%nat then (Some (take n rest), mkFrameDecoder (drop n rest))
      else (None, mkFrameDecoder s)
  | _ => (None, mkFrameDecoder s)
  end.
Proof.
  intros Hs. unfold decode_frame. cbn [buffer]. destruct s as [|a [|b [|c rest]]]; try done.
  apply Forall_cons in Hs as [Ha Hs]. apply Forall_cons in Hs as [Hb Hs].
  apply Forall_cons in Hs as [Hc _].
  pose proof (frame_len_bound a b c Ha Hb Hc) as Hn. cbv zeta.
  change FRAME_MAX_SIZE with (2 ^ 24). change (Z.of_nat FRAME_LENGTH_SIZE) with 3.
  cbn [length].
  destruct (Z.ltb_spec (2 ^ 24) (frame_len_of a b c)); [lia|].
  destruct (Nat.leb_spec (Z.to_nat (frame_len_of a b c)) (length rest));
    destruct (Z.leb_spec (3 + frame_len_of a b c) (Z.of_nat (S (S (S (length rest))))));
    done || lia.
Qed.

(** A decoded frame is still decoded when more data follows. *)
Lemma decode_frame_app s t f d :
  byte_stream s -> byte_stream t ->
  decode_frame (mkFrameDecoder s) = (Some f, d) ->
  decode_frame (mkFrameDecoder (s ++ t)) = (Some f, mkFrameDecoder (buffer d ++ t))
  /\ byte_stream (buffer d) /\ (length (buffer d) + 3 <= length s)%nat.
Proof.
  intros Hs Ht. rewrite (decode_frame_bytes s Hs), decode_frame_bytes by (by apply Forall_app).
  destruct s as [|a [|b [|c rest]]]; try done. cbn [app]. cbv zeta.
  set (n := Z.to_nat (frame_len_of a b c)).
  destruct (Nat.leb_spec n (length rest)); [|done]. intros [= <- <-]. cbn [buffer].
  rewrite length_app, (proj2 (Nat.leb_le n _)) by lia.
  rewrite take_app_le, drop_app_le by lia. split_and!; [done| |].
  - apply Forall_drop. by do 3 apply Forall_inv_tail in Hs.
  - rewrite length_drop. simpl. lia.
Qed.

Lemma decode_frame_None s d :
  byte_stream s -> decode_frame (mkFrameDecoder s) = (None, d) -> d = mkFrameDecoder s.
Proof.
  intros Hs. rewrite decode_frame_bytes by done. cbv zeta.
  destruct s as [|a [|b [|c rest]]]; try by intros [= <-].
  destruct (_ <=? _)%nat; [done|]. by intros [= <-].
Qed.

(** What [drain] leaves behind is a stream without a complete frame. *)
Lemma drain_fuel_enough f g s :
  byte_stream s -> (length s <= f)%nat -> (length s <= g)%nat ->
  drain_fuel f (mkFrameDecoder s) = drain_fuel g (mkFrameDecoder s).
Proof.
  revert g s. induction f as [|f IH]; intros g s Hs Hf Hg.
  - destruct s; [|simpl in Hf; lia]. by destruct g.
  - destruct g as [|g]; [destruct s; [done|simpl in Hg; lia]|].
    cbn [drain_fuel]. destruct (decode_frame (mkFrameDecoder s)) as [[fr|] [rest]] eqn:Hd; [|done].
    destruct (decode_frame_app s [] fr _ Hs (Forall_nil_2 _) Hd) as (_ & Hr & Hl).
    cbn [buffer] in *. by rewrite (IH g rest) by (done || lia).
Qed.

Lemma drain_unfold s :
  byte_stream s ->
  drain (mkFrameDecoder s) =
  match decode_frame (mkFrameDecoder s) with
  | (Some f, d) => let '(fs, d') := drain d in (f :: fs, d')
  | (None, d) => ([], d)
  end.
Proof.
  intros Hs. unfold drain at 1. cbn [buffer]. destruct s as [|x s]; [done|].
  cbn [length drain_fuel].
  destruct (decode_frame (mkFrameDecoder (x :: s))) as [[fr|] [rest]] eqn:Hd; [|done].
  destruct (decode_frame_app _ [] fr _ Hs (Forall_nil_2 _) Hd) as (_ & Hr & Hl).
  cbn [buffer length] in *. unfold drain. cbn [buffer].
  by rewrite (drain_fuel_enough (length s) (length rest) rest) by (done || lia).
Qed.

(** Draining a stream in two parts. *)
Lemma drain_app s t :
  byte_stream s -> byte_stream t ->
  drain (mkFrameDecoder (s ++ t)) =
  (let '(fs, d) := drain (mkFrameDecoder s) in
   let '(fs', d') := drain (feed t d) in (fs ++ fs', d'))
  /\ byte_stream (buffer (drain (mkFrameDecoder s)).2).
Proof.
  induction s as [s IH] using (induction_ltof1 _ (@length _)). unfold ltof in IH. intros Hs Ht.
  rewrite (drain_unfold s Hs).
  destruct (decode_frame (mkFrameDecoder s)) as [[fr|] d] eqn:Hd.
  - destruct (decode_frame_app s t fr d Hs Ht Hd) as (Hd' & Hr & Hl).
    rewrite drain_unfold, Hd' by (by apply Forall_app).
    destruct (IH (buffer d)) as [Happ Hb]; [lia|done|done|].
    destruct d as [rest]. cbn [buffer] in *. rewrite Happ.
    destruct (drain (mkFrameDecoder rest)) as [fs d]. cbn [snd] in *.
    by destruct (drain (feed t d)) as [fs' d'].
  - apply decode_frame_None in Hd as ->; [|done]. cbn [snd buffer].
    split; [|done]. unfold feed. cbn [buffer]. by destruct (drain _).
Qed.

(** The receive loop drains the concatenation of the chunks. *)
Lemma receive_drain chunks s :
  byte_stream s -> Forall byte_stream chunks ->
  drain (mkFrameDecoder s) = ([], mkFrameDecoder s) ->
  receive chunks (mkFrameDecoder s) = drain (mkFrameDecoder (s ++ concat chunks)).
Proof.
  intros Hs Hc. revert s Hs. induction Hc as [|c chunks Hc Hcs IH]; intros s Hs Hd; cbn [receive concat].
  { by rewrite app_nil_r, Hd. }
  unfold feed. cbn [buffer].
  assert (byte_stream (s ++ c)) as Hsc by (by apply Forall_app).
  assert (byte_stream (concat chunks)) as Hcc by (by apply Forall_concat).
  rewrite app_assoc. destruct (drain_app (s ++ c) (concat chunks) Hsc Hcc) as [-> Hb].
  destruct (drain_app (s ++ c) [] Hsc (Forall_nil_2 _)) as [Hidem _].
  destruct (drain (mkFrameDecoder (s ++ c))) as [fs [r]] eqn:E. cbn [snd buffer] in *.
  rewrite app_nil_r, E in Hidem. unfold feed in Hidem. cbn [buffer] in Hidem. rewrite app_nil_r in Hidem.
  assert (drain (mkFrameDecoder r) = ([], mkFrameDecoder r)) as Hr.
  { destruct (drain (mkFrameDecoder r)) as [fs' d']. injection Hidem as Hfs <-.
    rewrite <- (app_nil_r fs) in Hfs at 1. by apply app_inv_head in Hfs as <-. }
  rewrite IH by done. unfold feed. cbn [buffer]. done.
Qed.

Lemma drain_frames payloads :
  Forall (fun p => byte_stream p /\ Z.of_nat (length p) < 2 ^ 24) payloads ->
  drain (mkFrameDecoder (concat (map (fun p => len3 (Z.of_nat (length p)) ++ p) payloads)))
  = (payloads, mkFrameDecoder [])
  /\ byte_stream (concat (map (fun p => len3 (Z.of_nat (length p)) ++ p) payloads)).
Proof.
  induction 1 as [|p payloads [Hp Hl] Hps [IH Hb]];
    [by split; [|constructor]|]. cbn [map concat].
  assert (byte_stream (len3 (Z.of_nat (length p)))) as H3.
  { repeat constructor; apply (wrap_bound 8); lia. }
  assert (byte_stream ((len3 (Z.of_nat (length p)) ++ p)
    ++ concat (map (fun p => len3 (Z.of_nat (length p)) ++ p) payloads))) as Hall
    by (apply Forall_app; split; [by apply Forall_app|done]).
  split; [|done]. rewrite drain_unfold, decode_frame_bytes by done.
  unfold len3 at 1. cbn [app]. rewrite frame_len_roundtrip by lia. cbv zeta. rewrite Nat2Z.id.
  rewrite (proj2 (Nat.leb_le _ _)) by (rewrite length_app; lia).
  rewrite take_app_length, drop_app_length, IH. done.
Qed.

(** The receive loop on frames, however they are cut. *)
Lemma receive_frames (payloads frames chunks : list bytes) :
  Forall (fun p => byte_stream p /\ Z.of_nat (length p) < 2 ^ 24) payloads ->
  Forall2 (fun p f => encode_frame p None = Ok f) payloads frames -> concat chunks = concat frames ->
  receive chunks frame_decoder_new = (payloads, mkFrameDecoder []).
Proof.
  intros Hp Hf Hc.
  assert (frames = map (fun p => len3 (Z.of_nat (length p)) ++ p) payloads) as ->.
  { clear - Hf Hp. induction Hf as [|p f ps fs Hpf Hf IH]; [done|].
    apply Forall_cons in Hp as [[_ Hl] Hp]. cbn [map]. rewrite (IH Hp). f_equal.
    rewrite encode_frame_eq in Hpf. destruct (Z.leb_spec (2 ^ 24) (Z.of_nat (length p))); [lia|].
    by injection Hpf as <-. }
  destruct (drain_frames payloads Hp) as [Hd Hb].
  unfold frame_decoder_new. rewrite receive_drain.
  - cbn [app]. by rewrite Hc.
  - constructor.
  - rewrite <- Hc in Hb. clear - Hb. induction chunks as [|c cs IH]; constructor.
    + by apply Forall_app in Hb as [? _].
    + apply IH. by apply Forall_app in Hb as [_ ?].
  - done.
Qed.

(** framing is a lossless stream.  Payloads of up to 2^24 - 1 bytes, each
    encoded as a frame, concatenated and delivered to the receive loop in
    chunks cut anywhere, come out as exactly those payloads, in order, with
    an empty buffer at the end; and an encoder refuses a payload exactly when
    it does not fit the length prefix. *)
Theorem frames_roundtrip (payloads chunks : list bytes) :
  Forall (fun p => byte_stream p /\ Z.of_nat (length p) < 2 ^ 24) payloads ->
  (exists frames, Forall2 (fun p f => encode_frame p None = Ok f) payloads frames
                  /\ concat chunks = concat frames) ->
  receive chunks frame_decoder_new = (payloads, mkFrameDecoder [])
  /\ forall p h, (exists e, encode_frame p h = Err e) <-> 2 ^ 24 <= Z.of_nat (length p).
Proof.
  intros Hp (frames & Hf & Hc). split; [by apply (receive_frames payloads frames)|].
  intros p h. rewrite encode_frame_eq. destruct (Z.leb_spec (2 ^ 24) (Z.of_nat (length p))); split; try done.
  - by eexists.
  - by intros [e ?].
  - lia.
Qed.

Lemma frames_roundtrip_witness :
  receive [[0; 0; 2; 7]; []; [8; 0; 0]; [0; 0; 0; 1]; [9]] frame_decoder_new
  = ([[7; 8]; []; [9]], mkFrameDecoder [])
  /\ forall p h, (exists e, encode_frame p h = Err e) <-> 2 ^ 24 <= Z.of_nat (length p).
Proof.
  apply frames_roundtrip.
  - repeat (apply Forall_cons_2 || apply Forall_nil_2 || split); unfold is_byte; cbn; lia.
  - exists [[0; 0; 2; 7; 8]; [0; 0; 0]; [0; 0; 1; 9]]. split; [|done].
    repeat constructor.
Defined.
