(* ===== verification/Messages.v ===== *)
(** * Message padding and participant hashes: [warp_core/src/messages.rs]

    The random padding put on every plaintext and its removal, and the hash
    that identifies a set of devices.  The theorems show that unpadding inverts
    padding and accepts nothing else, and that the hash of a device list does
    not depend on its order. *)

From stdpp Require Import sorting.
From S2P Require Import Prelude RustStd Jid Crypto.

Inductive MessageError :=
| PlaintextEmpty
| InvalidPaddingLength (n : usize)
| InvalidPaddingBytes
| HasherUnavailable (e : CryptoError)
| UnexpectedHashLength.

(** [rng.random::<u8>()] is the argument [rnd]. *)
Definition pad_message_v2 (rnd : u8) (plaintext : bytes) : bytes :=
  let pad_val := Z.land rnd 15 in
  let pad_val := if pad_val =? 0 then 15 else pad_val in
  plaintext ++ replicate (Z.to_nat pad_val) pad_val.

Definition unpad_message_ref (plaintext : bytes) (version : u8) : outcome MessageError bytes :=
  if version =? 3 then Ok plaintext
  else
    match last plaintext with
    | None => Err PlaintextEmpty
    | Some b =>
        let pad_len := Z.to_nat b in
        if (pad_len =? 0)%nat || (length plaintext <? pad_len)%nat
        then Err (InvalidPaddingLength pad_len)
        else
          let data := take (length plaintext - pad_len) plaintext in
          let padding := drop (length plaintext - pad_len) plaintext in
          if forallb (fun byte => byte =? wrap 8 (Z.of_nat pad_len)) padding
          then Ok data else Err InvalidPaddingBytes
    end.

(** ** Order of strings: [Ord for String] compares bytes *)

Fixpoint str_le (a b : str) : bool :=
  match a, b with
  | [], _ => true
  | _ :: _, [] => false
  | x :: a', y :: b' => if x =? y then str_le a' b' else x <? y
  end.

#[export] Instance str_le_dec : RelDecision (fun a b => Is_true (str_le a b)).
Proof. intros a b. apply _. Defined.

(** ** [participant_list_hash] *)

Section ListHash.
Context `{!Hashes}.
(** [BASE64_URL_SAFE_NO_PAD.encode] *)
Context (b64_url_no_pad : bytes -> str).

Definition participant_list_hash (devices : list Jid) : outcome MessageError str :=
  let jids := map to_ad_string devices in
  let jids := merge_sort (fun a b => Is_true (str_le a b)) jids in
  let concatenated_jids := concat jids in
  let? h := map_err HasherUnavailable (hash_new (lit "SHA-256")) in
  let v := (hash_finalize (hash_update concatenated_jids h)).1 in
  if negb (length v =? 32)%nat then Err UnexpectedHashLength
  else Ok (lit "2:" ++ b64_url_no_pad (take 6 v)).
End ListHash.

(** ** Padding *)

Lemma last_replicate_S {A} n (x : A) l : last (l ++ replicate (S n) x) = Some x.
Proof.
  replace (S n) with (n + 1)%nat by lia. rewrite replicate_add, app_assoc.
  apply last_snoc.
Qed.

Lemma forallb_replicate (v : Z) l :
  forallb (fun x => x =? v) l = true <-> l = replicate (length l) v.
Proof.
  induction l as [|x l IH]; [done|]. cbn [forallb length replicate].
  rewrite andb_true_iff, IH, Z.eqb_eq. split; [by intros [-> <-]|].
  intros [= -> H]. by rewrite <- H.
Qed.

Lemma pad_val_range rnd :
  let p := if Z.land rnd 15 =? 0 then 15 else Z.land rnd 15 in 1 <= p <= 15.
Proof.
  cbv zeta. assert (Z.land rnd 15 = rnd mod 2 ^ 4) as -> by (apply (Z.land_ones rnd 4); lia).
  pose proof (Z.mod_pos_bound rnd (2 ^ 4)).
  destruct (Z.eqb_spec (rnd mod 2 ^ 4) 0); lia.
Qed.

(** Unpadding accepts exactly a data block followed by [n] bytes of value [n]. *)
Lemma unpad_Ok_iff plaintext version data :
  version <> 3 -> Forall is_byte plaintext ->
  unpad_message_ref plaintext version = Ok data <->
  exists n, (1 <= n)%nat /\ plaintext = data ++ replicate n (Z.of_nat n) /\ Z.of_nat n < 256.
Proof.
  intros Hv Hb. unfold unpad_message_ref. rewrite (proj2 (Z.eqb_neq version 3) Hv). split.
  - destruct (last plaintext) as [b|] eqn:Hl; [|done]. cbv zeta.
    assert (is_byte b) as Hbb.
    { rewrite Forall_forall in Hb. apply Hb. by apply last_Some_elem_of in Hl. }
    destruct ((Z.to_nat b =? 0)%nat || _) eqn:Hp; [done|].
    apply orb_false_iff in Hp as [Hp0%Nat.eqb_neq Hpl%Nat.ltb_ge].
    destruct (forallb _ _) eqn:Hf; [|done]. intros [= <-].
    exists (Z.to_nat b). unfold is_byte in Hbb. split; [lia|]. split; [|lia].
    rewrite <- (take_drop (length plaintext - Z.to_nat b) plaintext) at 1. f_equal.
    rewrite wrap_small in Hf by lia.
    set (padding := drop _ _) in *.
    assert (length padding = Z.to_nat b) as Hlp by (subst padding; rewrite length_drop; lia).
    rewrite <- Hlp in Hf |- *. by apply (proj1 (forallb_replicate _ _)) in Hf.
  - intros (n & Hn & -> & Hlt). destruct n as [|n]; [lia|].
    rewrite last_replicate_S. cbv zeta. rewrite Nat2Z.id, length_app, length_replicate.
    destruct ((S n =? 0)%nat || _) eqn:Hp.
    { apply orb_true_iff in Hp as [?%Nat.eqb_eq|?%Nat.ltb_lt]; lia. }
    rewrite Nat.add_sub, take_app_length, drop_app_length, wrap_small by lia.
    by rewrite (proj2 (forallb_replicate (Z.of_nat (S n)) (replicate (S n) (Z.of_nat (S n)))))
      by (by rewrite length_replicate).
Qed.

(** Padding.  A padded message, whatever the random byte, unpads to the
    plaintext; a version 3 message is returned as it is; and for any other
    version unpadding succeeds on a message exactly when it ends in [n] bytes
    of value [n], with [n] at least one, which are what it removes. *)
Theorem padding_roundtrip (rnd : u8) (plaintext message data : bytes) (version : u8) :
  Forall is_byte plaintext -> Forall is_byte message ->
  unpad_message_ref (pad_message_v2 rnd plaintext) version
    = Ok (if version =? 3 then pad_message_v2 rnd plaintext else plaintext)
  /\ (version <> 3 ->
      (unpad_message_ref message version = Ok data <->
       exists n, (1 <= n)%nat /\ message = data ++ replicate n (Z.of_nat n) /\ Z.of_nat n < 256)).
Proof.
  intros Hp Hm. split; [|intros Hv; by apply unpad_Ok_iff].
  pose proof (pad_val_range rnd) as Hr. unfold pad_message_v2. cbv zeta in *.
  set (p := if Z.land rnd 15 =? 0 then 15 else Z.land rnd 15) in *.
  destruct (Z.eqb_spec version 3) as [->|Hv]; [done|].
  apply unpad_Ok_iff; [done| |].
  - apply Forall_app. split; [done|]. apply Forall_replicate. unfold is_byte. lia.
  - exists (Z.to_nat p). rewrite Z2Nat.id by lia. split; [lia|]. split; [done|lia].
Qed.

Lemma padding_roundtrip_witness :
  unpad_message_ref (pad_message_v2 34 [7; 8]) 2
    = Ok (if 2 =? 3 then pad_message_v2 34 [7; 8] else [7; 8])
  /\ (2 <> 3 ->
      (unpad_message_ref [5; 2; 2] 2 = Ok [5] <->
       exists n, (1 <= n)%nat /\ [5; 2; 2] = [5] ++ replicate n (Z.of_nat n) /\ Z.of_nat n < 256)).
Proof.
  apply padding_roundtrip; repeat (apply Forall_cons_2 || apply Forall_nil_2); unfold is_byte; lia.
Defined.

(** ** The order is total *)

Lemma str_le_refl a : str_le a a = true.
Proof. induction a as [|x a IH]; [done|]. cbn [str_le]. by rewrite Z.eqb_refl. Qed.

Lemma str_le_trans a b c : str_le a b = true -> str_le b c = true -> str_le a c = true.
Proof.
  revert b c. induction a as [|x a IH]; intros [|y b] [|z c]; try done. cbn [str_le].
  destruct (Z.eqb_spec x y) as [Hxy|], (Z.eqb_spec y z) as [Hyz|], (Z.eqb_spec x z) as [Hxz|];
    try lia. apply IH.
Qed.

Lemma str_le_antisymm a b : str_le a b = true -> str_le b a = true -> a = b.
Proof.
  revert b. induction a as [|x a IH]; intros [|y b]; try done. cbn [str_le].
  destruct (Z.eqb_spec x y) as [->|Hne].
  - rewrite Z.eqb_refl. intros. f_equal. by apply IH.
  - destruct (Z.eqb_spec y x); [by subst|]. lia.
Qed.

Lemma str_le_total a b : str_le a b = true \/ str_le b a = true.
Proof.
  revert b. induction a as [|x a IH]; intros [|y b]; auto. cbn [str_le].
  destruct (Z.eqb_spec x y) as [->|Hne]; [rewrite Z.eqb_refl; apply IH|].
  destruct (Z.eqb_spec y x); [by subst|]. lia.
Qed.

Section Order.
Let R := fun a b : str => Is_true (str_le a b).

#[local] Instance R_trans : Transitive R.
Proof. intros a b c. unfold R. rewrite !Is_true_true. apply str_le_trans. Qed.
#[local] Instance R_antisymm : AntiSymm (=) R.
Proof. intros a b. unfold R. rewrite !Is_true_true. apply str_le_antisymm. Qed.
#[local] Instance R_total : Total R.
Proof. intros a b. unfold R. rewrite !Is_true_true. apply str_le_total. Qed.

Lemma sort_permutation l l' :
  l ≡ₚ l' -> merge_sort R l = merge_sort R l'.
Proof.
  intros Hp. apply (Sorted_unique R); [apply Sorted_merge_sort, _..|].
  by rewrite !merge_sort_Permutation.
Qed.
End Order.

(** The participant hash does not depend on the order of the devices.  For
    every device list it is [2:] and the encoding of the first six bytes of a
    SHA-256 digest, never an error, and it is the same for every order of the
    devices. *)
Theorem participant_list_hash_order `{!Hashes} (b64 : bytes -> str) (devices devices' : list Jid) :
  devices ≡ₚ devices' ->
  participant_list_hash b64 devices = participant_list_hash b64 devices'
  /\ exists digest, length digest = 32%nat
     /\ participant_list_hash b64 devices = Ok (lit "2:" ++ b64 (take 6 digest)).
Proof.
  intros Hp. unfold participant_list_hash.
  rewrite (sort_permutation (map to_ad_string devices) (map to_ad_string devices'))
    by (by apply Permutation_map).
  split; [done|]. cbn [hash_new].
  change (hash_new (lit "SHA-256")) with (Ok (E := CryptoError) (mkHash Sha256 [])).
  cbn [map_err obind hash_finalize hash_update fst]. eexists.
  split; [|by rewrite sha_length]. apply sha_length.
Qed.

Lemma participant_list_hash_order_witness :
  @participant_list_hash toy_hashes (fun b => b) [pn (lit "2"); lid (lit "1")]
  = @participant_list_hash toy_hashes (fun b => b) [lid (lit "1"); pn (lit "2")]
  /\ exists digest, length digest = 32%nat
     /\ @participant_list_hash toy_hashes (fun b => b) [pn (lit "2"); lid (lit "1")]
        = Ok (lit "2:" ++ take 6 digest).
Proof. apply (@participant_list_hash_order toy_hashes (fun b => b)). apply perm_swap. Defined.
