(* ===== verification/Curve.v ===== *)
(** * Key types: [libsignal/src/core/curve.rs], [protocol/{error,crypto,consts}.rs]

    Public and private keys with their serialised forms, the errors of the
    Signal protocol code, and the interface [Curve25519] to the curve
    operations of [curve25519.rs]: the laws of signatures and key agreement
    the Signal code relies on.  [XEdDSA] models [curve25519.rs] and proves
    that it implements the interface. *)

From S2P Require Import Prelude RustStd Crypto.

(** ** The curve *)

Class Curve25519 := {
  (** [scalar::clamp_integer] *)
  clamp : bytes -> bytes;
  clamp_length : forall k, length (clamp k) = length k;
  clamp_idemp : forall k, clamp (clamp k) = clamp k;
  derive_public_key_bytes : bytes -> bytes;
  derive_public_length : forall k, length (derive_public_key_bytes k) = 32%nat;
  (** signing takes the random bytes it draws *)
  xsign : bytes -> bytes -> bytes -> bytes;
  xsign_length : forall r k m, length (xsign r k m) = 64%nat;
  xverify : bytes -> bytes -> bytes -> bool;
  xverify_sign : forall r k m, xverify (derive_public_key_bytes k) m (xsign r k m) = true;
  xagree : bytes -> bytes -> bytes;
  xagree_sym : forall a b, xagree a (derive_public_key_bytes b) = xagree b (derive_public_key_bytes a)
}.

Definition PUBLIC_KEY_LENGTH : nat := 32.
Definition PRIVATE_KEY_LENGTH : nat := 32.

(** ** Keys *)

Inductive KeyType := Djb.
Definition key_type_value (t : KeyType) : u8 := match t with Djb => 5 end.

Inductive CurveError :=
| NoKeyTypeIdentifier
| BadKeyType (t : u8)
| BadKeyLength (t : KeyType) (n : usize).

Definition key_type_try_from (x : u8) : outcome CurveError KeyType :=
  if x =? 5 then Ok Djb else Err (BadKeyType x).

(** [PublicKeyData::DjbPublicKey] and [PrivateKeyData::DjbPrivateKey] *)
Record PublicKey := mkPublicKey { pk_bytes : bytes }.
Record PrivateKey := mkPrivateKey { sk_bytes : bytes }.

#[export] Instance PublicKey_eq_dec : EqDecision PublicKey.
Proof. solve_decision. Defined.

Definition public_deserialize (value : bytes) : outcome CurveError PublicKey :=
  match value with
  | [] => Err NoKeyTypeIdentifier
  | t :: rest =>
      let? _ := key_type_try_from t in
      if (length value <? PUBLIC_KEY_LENGTH + 1)%nat then Err (BadKeyLength Djb (length value))
      else Ok (mkPublicKey (take PUBLIC_KEY_LENGTH rest))
  end.

Definition from_djb_public_key_bytes (bs : bytes) : outcome CurveError PublicKey :=
  if (length bs =? PUBLIC_KEY_LENGTH)%nat then Ok (mkPublicKey bs)
  else Err (BadKeyLength Djb (length bs)).

Definition public_serialize (k : PublicKey) : bytes := key_type_value Djb :: pk_bytes k.

(** [ct_eq] on keys of the only type there is *)
Definition public_eq (a b : PublicKey) : bool := pk_bytes a =s pk_bytes b.

Definition private_serialize (k : PrivateKey) : bytes := sk_bytes k.

Section Keys.
Context `{!Curve25519}.

Definition private_deserialize (value : bytes) : outcome CurveError PrivateKey :=
  if negb (length value =? PRIVATE_KEY_LENGTH)%nat then Err (BadKeyLength Djb (length value))
  else Ok (mkPrivateKey (clamp value)).

Definition private_public_key (k : PrivateKey) : outcome CurveError PublicKey :=
  Ok (mkPublicKey (derive_public_key_bytes (sk_bytes k))).

Definition verify_signature (k : PublicKey) (message signature : bytes) : bool :=
  if (length signature =? 64)%nat then xverify (pk_bytes k) message signature else false.

Definition calculate_signature (k : PrivateKey) (message rnd : bytes) : outcome CurveError bytes :=
  Ok (xsign rnd (sk_bytes k) message).

Definition calculate_agreement (k : PrivateKey) (their_key : PublicKey) : outcome CurveError bytes :=
  Ok (xagree (sk_bytes k) (pk_bytes their_key)).

Record KeyPair := mkKeyPair { kp_public : PublicKey; kp_private : PrivateKey }.

(** [KeyPair::generate]: the private key is the clamp of 32 random bytes. *)
Definition key_pair_generate (rnd : bytes) : KeyPair :=
  let k := clamp rnd in
  mkKeyPair (mkPublicKey (derive_public_key_bytes k)) (mkPrivateKey k).

Definition key_pair_from_public_and_private (pub priv : bytes) : outcome CurveError KeyPair :=
  let? p := public_deserialize pub in
  let? s := private_deserialize priv in
  Ok (mkKeyPair p s).

Lemma verify_calculated k m r :
  exists s, calculate_signature k m r = Ok s /\ length s = 64%nat
    /\ verify_signature (mkPublicKey (derive_public_key_bytes (sk_bytes k))) m s = true.
Proof.
  eexists. split; [done|]. split; [apply xsign_length|]. unfold verify_signature.
  rewrite xsign_length. apply xverify_sign.
Qed.

Lemma private_roundtrip k :
  length k = 32%nat -> clamp k = k -> private_deserialize k = Ok (mkPrivateKey k).
Proof. intros Hl Hc. unfold private_deserialize. by rewrite Hl, Hc. Qed.
End Keys.

Lemma public_roundtrip k :
  length (pk_bytes k) = 32%nat -> public_deserialize (public_serialize k) = Ok k.
Proof.
  intros Hl. destruct k as [b]. cbn [pk_bytes] in Hl.
  unfold public_deserialize, public_serialize. cbn [pk_bytes obind key_type_try_from length].
  change (key_type_try_from (key_type_value Djb)) with (Ok (E := CurveError) Djb). cbn [obind].
  rewrite Hl. change (33 <? PUBLIC_KEY_LENGTH + 1)%nat with false. do 2 f_equal.
  apply take_ge. unfold PUBLIC_KEY_LENGTH. lia.
Qed.

Lemma public_eq_spec a b : public_eq a b = true <-> a = b.
Proof.
  unfold public_eq. rewrite bytes_eqb_eq. destruct a, b; simpl. split; [by intros ->|by intros [= ->]].
Qed.

(** ** Errors: [enum SignalProtocolError] *)

Inductive CiphertextMessageType := CT_Whisper | CT_PreKey | CT_SenderKey | CT_Plaintext.

(** [core/address.rs] *)
Record ProtocolAddress := mkProtocolAddress { pa_name : str; pa_device_id : u32 }.

(** The boxed source of a callback error is kept as its text. *)
Inductive SignalProtocolError :=
| InvalidArgument (msg : str)
| InvalidState (func msg : str)
| InvalidProtobufEncoding
| CiphertextMessageTooShort (n : usize)
| LegacyCiphertextVersion (v : u8)
| UnrecognizedCiphertextVersion (v : u8)
| UnrecognizedMessageVersion (v : u32)
| FingerprintVersionMismatch (them us : u32)
| FingerprintParsingError
| SPE_NoKeyTypeIdentifier
| SPE_BadKeyType (t : u8)
| SPE_BadKeyLength (t : KeyType) (n : usize)
| SignatureValidationFailed
| UntrustedIdentity (a : ProtocolAddress)
| InvalidPreKeyId
| InvalidSignedPreKeyId
| InvalidMacKeyLength (n : usize)
| NoSenderKeyState (msg : str)
| SessionNotFound (a : ProtocolAddress)
| InvalidSessionStructure (msg : str)
| InvalidSenderKeySession
| InvalidRegistrationId (a : ProtocolAddress) (id : u32)
| DuplicatedMessage (current received : u32)
| InvalidMessage (t : CiphertextMessageType) (msg : str)
| FfiBindingError (msg : str)
| ApplicationCallbackError (method source : str)
| InvalidSealedSenderMessage (msg : str)
| UnknownSealedSenderVersion (v : u8)
| SealedSenderSelfSend.

(** [From<CurveError>] *)
Definition from_curve_error (e : CurveError) : SignalProtocolError :=
  match e with
  | NoKeyTypeIdentifier => SPE_NoKeyTypeIdentifier
  | BadKeyType raw => SPE_BadKeyType raw
  | BadKeyLength key_type len => SPE_BadKeyLength key_type len
  end.

(** ** Constants *)

Definition MAX_FORWARD_JUMPS : Z := 25000.
Definition MAX_MESSAGE_KEYS : nat := 2000.
Definition MAX_RECEIVER_CHAINS : nat := 5.
Definition ARCHIVED_STATES_MAX_LENGTH : nat := 40.
Definition MAX_SENDER_KEY_STATES : nat := 5.

(** [crypto::hmac_sha256] *)
Definition hmac_sha256 `{!Hashes} (key input : bytes) : bytes := hmac Sha256 key input.
