(* ===== verification/XEdDSA.v ===== *)
(** * Curve operations: [core/curve/curve25519.rs], [core/curve/utils.rs]

    Key agreement and XEdDSA signatures over the [curve25519-dalek] and
    [x25519-dalek] crates, whose group operations are a parameter with the
    laws of the group and of the encodings; and the constant-time comparison
    of public keys.  The theorems show that a signature made with a private
    key verifies under its public key, which discharges the interface
    [Curve25519] the Signal code is proved against, and that the comparison
    is the lexicographic order. *)

From S2P Require Import Prelude RustStd Crypto Curve.

(** ** The crates *)

Class Dalek := {
  Scalar : Type;
  EdwardsPoint : Type;
  scalar_add : Scalar -> Scalar -> Scalar;
  scalar_mul : Scalar -> Scalar -> Scalar;
  (** [Scalar::from_bytes_mod_order], [Scalar::from_hash], [as_bytes] *)
  scalar_from_bytes : bytes -> Scalar;
  scalar_from_hash : bytes -> Scalar;
  scalar_as_bytes : Scalar -> bytes;
  scalar_roundtrip : forall s, scalar_from_bytes (scalar_as_bytes s) = s;
  (** scalars are below 2^253: the three top bits of the encoding are clear *)
  scalar_bytes_shape : forall s, exists l b,
    scalar_as_bytes s = l ++ [b] /\ length l = 31%nat /\ 0 <= b < 32;
  (** the group, up to the crate's equality of points, its base point and
      multiplication by scalars *)
  ed_add : EdwardsPoint -> EdwardsPoint -> EdwardsPoint;
  ed_neg : EdwardsPoint -> EdwardsPoint;
  ed_zero : EdwardsPoint;
  ed_base : EdwardsPoint;
  ed_mul : Scalar -> EdwardsPoint -> EdwardsPoint;
  ed_add_assoc : forall p q r, ed_add p (ed_add q r) = ed_add (ed_add p q) r;
  ed_add_zero : forall p, ed_add ed_zero p = p;
  ed_neg_add : forall p, ed_add (ed_neg p) p = ed_zero;
  (** scalars are numbers modulo the order of the base point, so that their sums
      and products act as such on its multiples; on other points, where the
      cofactor counts, they need not *)
  ed_mul_add : forall s t, ed_mul (scalar_add s t) ed_base = ed_add (ed_mul s ed_base) (ed_mul t ed_base);
  ed_mul_mul : forall s t, ed_mul (scalar_mul s t) ed_base = ed_mul s (ed_mul t ed_base);
  ed_mul_neg : forall s p, ed_mul s (ed_neg p) = ed_neg (ed_mul s p);
  (** [vartime_double_scalar_mul_basepoint(a, A, b)]: a A + b B *)
  double_scalar_mul : Scalar -> EdwardsPoint -> Scalar -> EdwardsPoint;
  double_scalar_mul_spec : forall a p b,
    double_scalar_mul a p b = ed_add (ed_mul a p) (ed_mul b ed_base);
  (** [compress]: 32 bytes *)
  ed_compress : EdwardsPoint -> bytes;
  ed_compress_length : forall p, length (ed_compress p) = 32%nat;
  ed_compress_bytes : forall p, Forall is_byte (ed_compress p);
  (** [MontgomeryPoint::to_edwards] with a sign bit *)
  to_edwards : bytes -> u8 -> option EdwardsPoint;
  (** [clamp_integer], and the X25519 functions on secrets *)
  clamp_integer : bytes -> bytes;
  clamp_integer_length : forall k, length (clamp_integer k) = length k;
  clamp_integer_idemp : forall k, clamp_integer (clamp_integer k) = clamp_integer k;
  x25519_public : bytes -> bytes;
  x25519_public_length : forall k, length (x25519_public k) = 32%nat;
  diffie_hellman : bytes -> bytes -> bytes;
  diffie_hellman_sym : forall a b, diffie_hellman a (x25519_public b) = diffie_hellman b (x25519_public a);
  (** the Edwards form of a clamped secret's public key is the one of the two
      with the sign asked for *)
  to_edwards_public : forall k,
    let p := ed_mul (scalar_from_bytes (clamp_integer k)) ed_base in
    to_edwards (x25519_public (clamp_integer k))
               (Z.shiftr (Z.land (nth 31 (ed_compress p) 0) 128) 7) = Some p
}.

(** ** [struct PrivateKey] *)

Definition SIGNATURE_LENGTH : nat := 64.
Definition hash_prefix : bytes := 254 :: replicate 31 255.

(** [x[i] = f(x[i])] *)
Definition update_at (i : nat) (f : Z -> Z) (l : bytes) : bytes := alter f i l.

Section XEdDSA.
Context `{HS : !Hashes, HD : !Dalek}.

Record XPrivateKey := mkXPrivateKey { secret : bytes }.

Definition x_new (rnd : bytes) : XPrivateKey := mkXPrivateKey (clamp_integer rnd).
Definition x_from (private_key : bytes) : XPrivateKey := mkXPrivateKey (clamp_integer private_key).

Definition x_calculate_agreement (k : XPrivateKey) (their_public_key : bytes) : bytes :=
  diffie_hellman (secret k) their_public_key.

Definition x_derive_public_key_bytes (k : XPrivateKey) : bytes := x25519_public (secret k).
Definition x_private_key_bytes (k : XPrivateKey) : bytes := secret k.

Definition x_calculate_signature (random_bytes : bytes) (message : list bytes) (k : XPrivateKey) : bytes :=
  let key_data := secret k in
  let a := scalar_from_bytes key_data in
  let ed_public_key := ed_compress (ed_mul a ed_base) in
  let sign_bit := Z.land (nth 31 ed_public_key 0) 128 in
  let r := scalar_from_hash (sha Sha512 (hash_prefix ++ key_data ++ concat message ++ random_bytes)) in
  let cap_r := ed_compress (ed_mul r ed_base) in
  let h := scalar_from_hash (sha Sha512 (cap_r ++ ed_public_key ++ concat message)) in
  let s := scalar_add (scalar_mul h a) r in
  let result := cap_r ++ scalar_as_bytes s in
  let result := update_at (SIGNATURE_LENGTH - 1) (fun b => Z.land b 127) result in
  update_at (SIGNATURE_LENGTH - 1) (fun b => Z.lor b sign_bit) result.

(** The arguments are arrays of 32 and 64 bytes. *)
Definition x_verify_signature (their_public_key : bytes) (message : list bytes) (signature : bytes) : bool :=
  match to_edwards their_public_key
          (Z.shiftr (Z.land (nth (SIGNATURE_LENGTH - 1) signature 0) 128) 7) with
  | None => false
  | Some ed_pub_key_point =>
      let cap_a := ed_compress ed_pub_key_point in
      let cap_r := take 32 signature in
      let s := update_at 31 (fun b => Z.land b 127) (drop 32 signature) in
      if negb (Z.land (nth 31 s 0) 224 =? 0) then false
      else
        let minus_cap_a := ed_neg ed_pub_key_point in
        let h := scalar_from_hash (sha Sha512 (cap_r ++ cap_a ++ concat message)) in
        let cap_r_check := ed_compress (double_scalar_mul h minus_cap_a (scalar_from_bytes s)) in
        cap_r_check =s cap_r
  end.

(** ** The bytes of a signature *)

Lemma update_last (l : bytes) b f n : length l = n -> update_at n f (l ++ [b]) = l ++ [f b].
Proof. intros <-. unfold update_at. by rewrite alter_app_r_alt, Nat.sub_diag by lia. Qed.

Lemma nth_last (l : bytes) b n : length l = n -> nth n (l ++ [b]) 0 = b.
Proof. intros <-. by rewrite app_nth2, Nat.sub_diag by lia. Qed.

Lemma byte_top_bit b : 0 <= b < 256 -> Z.land b 128 = 0 \/ Z.land b 128 = 128.
Proof.
  intros Hb. change 128 with (2 ^ 7). destruct (Z.testbit b 7) eqn:E; [right|left]; apply Z.bits_inj';
    intros n Hn; rewrite Z.land_spec, Z.pow2_bits_eqb by lia; destruct (Z.eqb_spec 7 n) as [<-|];
    rewrite ?E, ?andb_true_r, ?andb_false_r, ?Z.bits_0; done.
Qed.

(** Masking and setting the top bit of a small byte, and taking it off again. *)
Lemma small_byte_masks :
  forallb (fun n => let b := Z.of_nat n in
    forallb (fun t => (Z.land (Z.lor (Z.land b 127) t) 128 =? t)
                      && (Z.land (Z.lor (Z.land b 127) t) 127 =? b) && (Z.land b 224 =? 0)) [0; 128])
    (List.seq 0 32) = true.
Proof. vm_compute. reflexivity. Qed.

Lemma small_byte_mask b t :
  0 <= b < 32 -> t = 0 \/ t = 128 ->
  Z.land (Z.lor (Z.land b 127) t) 128 = t /\ Z.land (Z.lor (Z.land b 127) t) 127 = b /\ Z.land b 224 = 0.
Proof.
  intros Hb Ht. pose proof small_byte_masks as H. rewrite forallb_forall in H.
  specialize (H (Z.to_nat b) ltac:(apply in_seq; lia)). cbv zeta in H. rewrite Z2Nat.id in H by lia.
  rewrite forallb_forall in H. specialize (H t ltac:(cbn; intuition)). bool_lia.
Qed.

(** What the signature's bytes are, and what verification reads from them. *)
Lemma signature_shape cap_r s t :
  length cap_r = 32%nat -> t = 0 \/ t = 128 ->
  let sg := update_at 63 (fun b => Z.lor b t) (update_at 63 (fun b => Z.land b 127) (cap_r ++ scalar_as_bytes s)) in
  length sg = 64%nat /\ Z.land (nth 63 sg 0) 128 = t /\ take 32 sg = cap_r
  /\ update_at 31 (fun b => Z.land b 127) (drop 32 sg) = scalar_as_bytes s
  /\ Z.land (nth 31 (scalar_as_bytes s) 0) 224 = 0.
Proof.
  intros Hr Ht. destruct (scalar_bytes_shape s) as (l & b & Hs & Hl & Hb). cbv zeta. rewrite Hs.
  destruct (small_byte_mask b t Hb Ht) as (H1 & H2 & H3).
  rewrite app_assoc, !update_last by (rewrite length_app; lia).
  rewrite nth_last by (rewrite length_app; lia). rewrite <- app_assoc, take_app_length', drop_app_length' by done.
  rewrite update_last, nth_last, H2 by done. rewrite !length_app, Hr, Hl. done.
Qed.

Lemma ed_check a r h :
  double_scalar_mul h (ed_neg (ed_mul a ed_base)) (scalar_add (scalar_mul h a) r) = ed_mul r ed_base.
Proof.
  by rewrite double_scalar_mul_spec, ed_mul_neg, ed_mul_add, ed_mul_mul, ed_add_assoc, ed_neg_add, ed_add_zero.
Qed.

Lemma xeddsa_correct_lem rnd m k :
  length (x_calculate_signature rnd m (x_from k)) = 64%nat
  /\ x_verify_signature (x_derive_public_key_bytes (x_from k)) m (x_calculate_signature rnd m (x_from k)) = true.
Proof.
  unfold x_calculate_signature. cbn [secret x_from]. change (SIGNATURE_LENGTH - 1)%nat with 63%nat.
  pose proof (to_edwards_public k) as Hpub. cbv zeta in Hpub.
  set (a := scalar_from_bytes (clamp_integer k)) in *.
  set (A := ed_compress (ed_mul a ed_base)) in *.
  set (r := scalar_from_hash (sha Sha512 (hash_prefix ++ _))).
  set (R := ed_compress (ed_mul r ed_base)).
  set (h := scalar_from_hash (sha Sha512 (R ++ _))).
  set (s := scalar_add (scalar_mul h a) r).
  assert (is_byte (nth 31 A 0)) as Hb.
  { eapply Forall_forall; [apply (ed_compress_bytes (ed_mul a ed_base))|]. apply list_elem_of_In, nth_In.
    rewrite ed_compress_length. lia. }
  destruct (signature_shape R s (Z.land (nth 31 A 0) 128)) as (H0 & H1 & H2 & H3 & H4);
    [apply ed_compress_length|by apply byte_top_bit|].
  split; [exact H0|]. unfold x_verify_signature, x_derive_public_key_bytes. cbn [secret x_from].
  change (SIGNATURE_LENGTH - 1)%nat with 63%nat. rewrite H1, Hpub. fold A. rewrite H2, H3, H4.
  change (negb (0 =? 0)) with false. cbv iota. fold h. unfold s. rewrite scalar_roundtrip, ed_check.
  apply bytes_eqb_refl.
Qed.

(** The interface of the key types, implemented. *)
#[export] Instance curve25519_impl : Curve25519 := {|
  clamp := clamp_integer;
  clamp_length := clamp_integer_length;
  clamp_idemp := clamp_integer_idemp;
  derive_public_key_bytes k := x_derive_public_key_bytes (x_from k);
  derive_public_length k := x25519_public_length (clamp_integer k);
  xsign r k m := x_calculate_signature r [m] (x_from k);
  xsign_length r k m := proj1 (xeddsa_correct_lem r [m] k);
  xverify pk m s := x_verify_signature pk [m] s;
  xverify_sign r k m := proj2 (xeddsa_correct_lem r [m] k);
  xagree a pb := x_calculate_agreement (x_from a) pb;
  xagree_sym a b := diffie_hellman_sym (clamp_integer a) (clamp_integer b)
|}.

(** C35: XEdDSA is correct.  For every private key, message (in any pieces)
    and random bytes, the signature has 64 bytes, sign bit included, and
    verification under the derived public key accepts it. *)
Theorem xeddsa_correct rnd m k :
  length (x_calculate_signature rnd m (x_from k)) = 64%nat
  /\ x_verify_signature (x_derive_public_key_bytes (x_from k)) m (x_calculate_signature rnd m (x_from k)) = true.
Proof. apply xeddsa_correct_lem. Qed.
End XEdDSA.

(** ** [utils.rs]: comparison in constant time *)

Definition not8 (a : u8) : u8 := Z.lxor a 255.
Definition sub8 (a b : u8) : u8 := wrap 8 (a - b).

Definition expand_top_bit (a : u8) : u8 := sub8 0 (Z.shiftr a 7).
Definition ct_is_zero (a : u8) : u8 := expand_top_bit (Z.land (not8 a) (sub8 a 1)).
Definition ct_is_eq (a b : u8) : u8 := ct_is_zero (Z.lxor a b).
Definition ct_is_lt (a b : u8) : u8 :=
  expand_top_bit (Z.lxor a (Z.lor (Z.lxor a b) (Z.lxor (sub8 a b) a))).
Definition ct_select (mask a b : u8) : u8 := Z.lxor b (Z.land mask (Z.lxor a b)).

Definition ct_step (result : u8) (ab : u8 * u8) : u8 :=
  let '(a, b) := ab in
  ct_select (ct_is_eq a b) result (ct_select (ct_is_lt a b) 1 255).

(** From the last bytes to the first. *)
Definition constant_time_cmp (x y : bytes) : comparison :=
  if (length x <? length y)%nat then Lt
  else if (length y <? length x)%nat then Gt
  else
    let result := fold_left ct_step (rev (combine x y)) 0 in
    if result =? 0 then Eq else if result =? 1 then Lt else Gt.

(** The lexicographic order on byte strings. *)
Fixpoint lex_compare (x y : bytes) : comparison :=
  match x, y with
  | [], [] => Eq
  | [], _ => Lt
  | _, [] => Gt
  | a :: x', b :: y' => match a ?= b with Eq => lex_compare x' y' | c => c end
  end.

Definition ct_code (c : comparison) : u8 := match c with Eq => 0 | Lt => 1 | Gt => 255 end.

(** The masks are right for all 65,536 pairs of bytes. *)
Lemma ct_masks_table :
  forallb (fun n => let a := Z.of_nat n in
    forallb (fun m => let b := Z.of_nat m in
      (ct_is_eq a b =? (if a =? b then 255 else 0)) && (ct_is_lt a b =? (if a <? b then 255 else 0)))
      (List.seq 0 256)) (List.seq 0 256) = true.
Proof. vm_compute. reflexivity. Qed.

Lemma ct_masks a b :
  is_byte a -> is_byte b ->
  ct_is_eq a b = (if a =? b then 255 else 0) /\ ct_is_lt a b = (if a <? b then 255 else 0).
Proof.
  intros Ha Hb. pose proof ct_masks_table as H. unfold is_byte in *. rewrite forallb_forall in H.
  specialize (H (Z.to_nat a) ltac:(apply in_seq; lia)). cbv zeta in H. rewrite forallb_forall in H.
  specialize (H (Z.to_nat b) ltac:(apply in_seq; lia)). cbv zeta in H. rewrite !Z2Nat.id in H by lia. bool_lia.
Qed.

Lemma ct_step_spec c a b :
  is_byte a -> is_byte b ->
  ct_step (ct_code c) (a, b) = ct_code (match a ?= b with Eq => c | d => d end).
Proof.
  intros Ha Hb. unfold ct_step. destruct (ct_masks a b Ha Hb) as [-> ->].
  destruct (Z.compare_spec a b) as [->|Hlt|Hgt].
  - rewrite Z.eqb_refl, Z.ltb_irrefl. by destruct c.
  - rewrite (proj2 (Z.eqb_neq a b)), (proj2 (Z.ltb_lt a b)) by lia. by destruct c.
  - rewrite (proj2 (Z.eqb_neq a b)), (proj2 (Z.ltb_ge a b)) by lia. by destruct c.
Qed.

Lemma ct_fold x y :
  length x = length y -> Forall is_byte x -> Forall is_byte y ->
  fold_left ct_step (rev (combine x y)) 0 = ct_code (lex_compare x y).
Proof.
  revert y. induction x as [|a x IH]; intros [|b y] Hl Hx Hy; try done.
  apply Forall_cons in Hx as [Ha Hx]. apply Forall_cons in Hy as [Hb Hy].
  cbn [combine rev lex_compare]. rewrite fold_left_app, IH by (auto with lia).
  cbn [fold_left]. by rewrite ct_step_spec by done.
Qed.

(** The constant-time comparison orders byte strings of equal length
    lexicographically, and otherwise by length; so it is [Eq] exactly on equal
    keys. *)
Theorem constant_time_cmp_lexicographic x y :
  Forall is_byte x -> Forall is_byte y ->
  constant_time_cmp x y =
    match Nat.compare (length x) (length y) with Eq => lex_compare x y | c => c end
  /\ (constant_time_cmp x y = Eq <-> x = y).
Proof.
  intros Hx Hy. assert (lex_compare x y = Eq <-> x = y) as Hlex.
  { clear. revert y. induction x as [|a x IH]; intros [|b y]; cbn; try done.
    destruct (Z.compare_spec a b) as [->| |]; [rewrite IH; split; congruence|..];
      (split; [done|intros [= -> _]; lia]). }
  unfold constant_time_cmp. destruct (Nat.compare_spec (length x) (length y)) as [He|Hl|Hg].
  - rewrite He, Nat.ltb_irrefl, ct_fold by done.
    rewrite <- Hlex. by destruct (lex_compare x y).
  - rewrite (proj2 (Nat.ltb_lt _ _)) by done. split; [done|]. split; [done|]. intros ->. lia.
  - rewrite (proj2 (Nat.ltb_ge (length x) _)), (proj2 (Nat.ltb_lt (length y) _)) by lia.
    split; [done|]. split; [done|]. intros ->. lia.
Qed.

(** ** A stand-in group and witnesses *)

Definition bit_bytes (b : bool) : bytes := (if b then 1 else 0) :: replicate 31 0.
Definition bit_of (l : bytes) : bool := match l with x :: _ => negb (x =? 0) | [] => false end.
Definition bit_public (k : bytes) : bytes := bit_bytes (bit_of k).

(** The group with two elements; keys are used as they are. *)
Definition toy_dalek : Dalek.
Proof.
  refine {| Scalar := bool; EdwardsPoint := bool; scalar_add := xorb; scalar_mul := andb;
            scalar_from_bytes := bit_of; scalar_from_hash := bit_of; scalar_as_bytes := bit_bytes;
            ed_add := xorb; ed_neg p := p; ed_zero := false; ed_base := true; ed_mul := andb;
            double_scalar_mul a p b := xorb (a && p) (b && true);
            ed_compress := bit_bytes; to_edwards l _ := Some (bit_of l); clamp_integer k := k;
            x25519_public := bit_public;
            diffie_hellman a p := bit_bytes (bit_of a && bit_of p) |}.
  - by intros [].
  - intros b. exists ((if b then 1 else 0) :: replicate 30 0), 0. split; [done|]. split; [done|lia].
  - by intros [] [] [].
  - by intros [].
  - by intros [].
  - by intros [] [].
  - by intros [] [].
  - done.
  - done.
  - done.
  - intros []; repeat constructor; unfold is_byte; lia.
  - done.
  - done.
  - done.
  - intros a b. unfold bit_public. by destruct (bit_of a), (bit_of b).
  - intros k. unfold bit_public. by destruct (bit_of k).
Defined.

Lemma xeddsa_correct_witness :
  @x_verify_signature toy_hashes toy_dalek (bit_public (replicate 32 1)) [[1; 2]; [3]]
    (@x_calculate_signature toy_hashes toy_dalek [7] [[1; 2]; [3]] (@x_from toy_dalek (replicate 32 1))) = true.
Proof. apply (@xeddsa_correct toy_hashes toy_dalek [7] [[1; 2]; [3]] (replicate 32 1)). Defined.

Lemma constant_time_cmp_lexicographic_witness : constant_time_cmp [1; 200; 3] [1; 7; 255] = Gt.
Proof.
  destruct (constant_time_cmp_lexicographic [1; 200; 3] [1; 7; 255]) as [H _];
    [repeat constructor; unfold is_byte; lia..|]. rewrite H. reflexivity.
Defined.
