(* ===== verification/SenderKeys.v ===== *)
(** * Sender keys: [libsignal/src/protocol/sender_keys.rs], [get_sender_key]

    The group ratchet: chain keys, message keys, the state of one chain with
    the message keys it keeps for late messages, and the record of the chains
    known for a sender.  The theorems show that the key returned for an
    iteration is the one the sender derived for it, at most once, that late
    messages within the window are still readable, and the bounds on what is
    kept. *)

From Stdlib Require Import Sorted.
From S2P Require Import Prelude RustStd Crypto Curve.

(** ** The protobuf structures *)

Record SenderChainKeyPb := mkChainPb { cpb_iteration : option u32; cpb_seed : option bytes }.
Record SenderMessageKeyPb := mkMsgPb { mpb_iteration : option u32; mpb_seed : option bytes }.
Record SenderSigningKeyPb := mkSignPb { spb_public : option bytes; spb_private : option bytes }.
Record SenderKeyStateStructure := mkStatePb {
  sender_key_id : option u32;
  sender_chain_key_pb : option SenderChainKeyPb;
  sender_signing_key : option SenderSigningKeyPb;
  sender_message_keys : list SenderMessageKeyPb
}.

Definition unwrap_or_default (o : option u32) : u32 := match o with Some v => v | None => 0 end.

(** ** Message keys and chain keys *)

Record SenderMessageKey := mkMessageKey {
  smk_iteration : u32;
  smk_iv : bytes;
  smk_cipher_key : bytes;
  smk_seed : bytes
}.

Record SenderChainKey := mkChainKey { sck_iteration : u32; sck_chain_key : bytes }.

Definition MESSAGE_KEY_SEED : u8 := 1.
Definition CHAIN_KEY_SEED : u8 := 2.

Definition smk_as_protobuf (k : SenderMessageKey) : SenderMessageKeyPb :=
  mkMsgPb (Some (smk_iteration k)) (Some (smk_seed k)).
Definition sck_as_protobuf (k : SenderChainKey) : SenderChainKeyPb :=
  mkChainPb (Some (sck_iteration k)) (Some (sck_chain_key k)).

Section Keys.
Context `{HK : !Hkdf, HS : !Hashes}.

Definition smk_new (iteration : u32) (seed : bytes) : SenderMessageKey :=
  let derived := hkdf None seed (lit "WhisperGroup") 48 in
  mkMessageKey iteration (slice 0 16 derived) (slice 16 48 derived) seed.

(** The seed must be 32 bytes, or the conversion panics. *)
Definition smk_from_protobuf {E} (smk : SenderMessageKeyPb) : outcome E SenderMessageKey :=
  let seed := match mpb_seed smk with Some s => s | None => [] end in
  if (length seed =? 32)%nat then Ok (smk_new (unwrap_or_default (mpb_iteration smk)) seed)
  else Panic.

Definition get_derivative (k : SenderChainKey) (label : u8) : bytes :=
  hmac_sha256 (sck_chain_key k) [label].

Definition sck_next (k : SenderChainKey) : outcome SignalProtocolError SenderChainKey :=
  if sck_iteration k + 1 <? 2 ^ 32
  then Ok (mkChainKey (sck_iteration k + 1) (get_derivative k CHAIN_KEY_SEED))
  else Err (InvalidState (lit "sender_chain_key_next") (lit "Sender chain is too long")).

Definition sender_message_key (k : SenderChainKey) : SenderMessageKey :=
  smk_new (sck_iteration k) (get_derivative k MESSAGE_KEY_SEED).
End Keys.

(** ** [SenderKeyState] *)

Record SenderKeyState := mkState { sks : SenderKeyStateStructure }.

Definition state_new (chain_id iteration : u32) (chain_key : bytes) (signature_key : PublicKey)
    (signature_private_key : option PrivateKey) : outcome SignalProtocolError SenderKeyState :=
  if (length chain_key =? 32)%nat then
    Ok (mkState (mkStatePb (Some chain_id)
          (Some (sck_as_protobuf (mkChainKey iteration chain_key)))
          (Some (mkSignPb (Some (public_serialize signature_key))
                          (option_map private_serialize signature_private_key))) []))
  else Panic.

Definition message_version (s : SenderKeyState) : u32 := 3.
Definition chain_id (s : SenderKeyState) : u32 := unwrap_or_default (sender_key_id (sks s)).

Definition sender_chain_key (s : SenderKeyState) : option SenderChainKey :=
  match sender_chain_key_pb (sks s) with
  | None => None
  | Some c =>
      let seed := match cpb_seed c with Some b => b | None => [] end in
      if (length seed =? 32)%nat then Some (mkChainKey (unwrap_or_default (cpb_iteration c)) seed)
      else None
  end.

Definition set_sender_chain_key (k : SenderChainKey) (s : SenderKeyState) : SenderKeyState :=
  mkState (mkStatePb (sender_key_id (sks s)) (Some (sck_as_protobuf k))
             (sender_signing_key (sks s)) (sender_message_keys (sks s))).

Definition set_message_keys (l : list SenderMessageKeyPb) (s : SenderKeyState) : SenderKeyState :=
  mkState (mkStatePb (sender_key_id (sks s)) (sender_chain_key_pb (sks s))
             (sender_signing_key (sks s)) l).

(** [InvalidSenderKeySessionError] *)
Definition signing_key_public (s : SenderKeyState) : option PublicKey :=
  match sender_signing_key (sks s) with
  | Some k => match spb_public k with Some b => to_option (public_deserialize b) | None => None end
  | None => None
  end.

Definition signing_key_private `{!Curve25519} (s : SenderKeyState) : option PrivateKey :=
  match sender_signing_key (sks s) with
  | Some k => match spb_private k with Some b => to_option (private_deserialize b) | None => None end
  | None => None
  end.

(** [push] and then [remove(0)] while there are too many. *)
Definition add_sender_message_key (k : SenderMessageKey) (s : SenderKeyState) : SenderKeyState :=
  let keys := sender_message_keys (sks s) ++ [smk_as_protobuf k] in
  set_message_keys (drop (length keys - MAX_MESSAGE_KEYS) keys) s.

Definition remove_sender_message_key `{!Hkdf} (iteration : u32)
    : comp SenderKeyState SignalProtocolError (option SenderMessageKey) :=
  fun s =>
    let keys := sender_message_keys (sks s) in
    match find_pos (fun x => unwrap_or_default (mpb_iteration x) =? iteration) keys with
    | Some index =>
        match keys !! index with
        | Some smk =>
            (let? k := smk_from_protobuf smk in Ok (Some k), set_message_keys (delete index keys) s)
        | None => (Panic, s)
        end
    | None => (Ok None, s)
    end.

(** ** [get_sender_key] *)

Section GetKey.
Context `{HK : !Hkdf, HS : !Hashes}.

(** The loop that derives and stores the skipped keys; the distance to the
    wanted iteration bounds it. *)
Fixpoint advance_chain (fuel : nat) (iteration : u32) (ck : SenderChainKey)
    : comp SenderKeyState SignalProtocolError SenderChainKey :=
  if sck_iteration ck <? iteration then
    match fuel with
    | O => mnofuel
    | S f => fun s =>
        let s := add_sender_message_key (sender_message_key ck) s in
        (let! ck' := mlift (sck_next ck) in advance_chain f iteration ck') s
    end
  else mret ck.

Definition get_sender_key (iteration : u32)
    : comp SenderKeyState SignalProtocolError SenderMessageKey :=
  fun s =>
    match sender_chain_key s with
    | None => (Err InvalidSenderKeySession, s)
    | Some ck =>
        let current_iteration := sck_iteration ck in
        if iteration <? current_iteration then
          (let! k := remove_sender_message_key iteration in
           match k with
           | Some smk => mret smk
           | None => mfail (DuplicatedMessage current_iteration iteration)
           end) s
        else
          let jump := iteration - current_iteration in
          if MAX_FORWARD_JUMPS <? jump then
            (Err (InvalidMessage CT_SenderKey (lit "message from too far into the future")), s)
          else
            (let! ck := advance_chain (Z.to_nat jump) iteration ck in
             let! next := mlift (sck_next ck) in
             fun s => (Ok (sender_message_key ck), set_sender_chain_key next s)) s
    end.
End GetKey.

(** ** [SenderKeyRecord]: the most recent chain first *)

Record SenderKeyRecord := mkRecord { states : list SenderKeyState }.

Definition record_new_empty : SenderKeyRecord := mkRecord [].

Definition sender_key_state (r : SenderKeyRecord) : option SenderKeyState := head (states r).

(** The position of the state a mutable borrow would point to. *)
Definition state_index_for_chain_id (id : u32) (r : SenderKeyRecord) : option nat :=
  find_pos (fun s => chain_id s =? id) (states r).
Definition sender_key_state_for_chain_id (id : u32) (r : SenderKeyRecord) : option SenderKeyState :=
  match state_index_for_chain_id id r with Some i => states r !! i | None => None end.

(** Remove the first state with this chain id and this signing key. *)
Definition remove_state (id : u32) (key : PublicKey) (r : SenderKeyRecord)
    : option SenderKeyState * SenderKeyRecord :=
  match find_pos (fun s => (chain_id s =? id)
                           && match signing_key_public s with
                              | Some k => public_eq k key
                              | None => false
                              end) (states r) with
  | Some i => (states r !! i, mkRecord (delete i (states r)))
  | None => (None, r)
  end.

Definition remove_states_with_chain_id (id : u32) (r : SenderKeyRecord) : usize * SenderKeyRecord :=
  let kept := List.filter (fun s => negb (chain_id s =? id)) (states r) in
  ((length (states r) - length kept)%nat, mkRecord kept).

Definition add_sender_key_state (id iteration : u32) (chain_key : bytes) (signature_key : PublicKey)
    (signature_private_key : option PrivateKey) : comp SenderKeyRecord SignalProtocolError unit :=
  fun r =>
    let '(existing_state, r) := remove_state id signature_key r in
    let '(_, r) := remove_states_with_chain_id id r in
    match
      match existing_state with
      | None => state_new id iteration chain_key signature_key signature_private_key
      | Some state => Ok state
      end
    with
    | Ok state =>
        (* while len >= MAX { pop_back } *)
        (Ok tt, mkRecord (state :: take (MAX_SENDER_KEY_STATES - 1) (states r)))
    | Err e => (Err e, r)
    | Panic => (Panic, r)
    | NoFuel => (NoFuel, r)
    end.

(** Protobuf form and back; the byte encoding is the [prost] crate's. *)
Definition record_as_protobuf (r : SenderKeyRecord) : list SenderKeyStateStructure := map sks (states r).
Section Serialize.
Context (encode : list SenderKeyStateStructure -> bytes).
Context (decode : bytes -> option (list SenderKeyStateStructure)).
Definition record_serialize (r : SenderKeyRecord) : outcome SignalProtocolError bytes :=
  Ok (encode (record_as_protobuf r)).
Definition record_deserialize (buf : bytes) : outcome SignalProtocolError SenderKeyRecord :=
  match decode buf with
  | Some l => Ok (mkRecord (map mkState l))
  | None => Err InvalidProtobufEncoding
  end.
End Serialize.

(** ** The abstract ratchet

    What the ratchet promises, without keys: the next iteration of the chain
    and the skipped iterations whose keys are kept, oldest first. *)

Record window := mkWindow { w_next : u32; w_skipped : list u32 }.

Inductive verdict :=
| Deliver
| Duplicate (current received : u32)
| TooFar
| ChainTooLong.

(** [lo, lo + 1, ..., lo + n - 1] *)
Definition iota (lo : u32) (n : nat) : list u32 := map (fun k => lo + Z.of_nat k) (List.seq 0 n).

Definition keep_last {A} (l : list A) : list A := drop (length l - MAX_MESSAGE_KEYS) l.

Definition window_get (i : u32) (w : window) : verdict * window :=
  if i <? w_next w then
    if decide (i ∈ w_skipped w)
    then (Deliver, mkWindow (w_next w) (List.filter (fun j => negb (j =? i)) (w_skipped w)))
    else (Duplicate (w_next w) i, w)
  else if MAX_FORWARD_JUMPS <? i - w_next w then (TooFar, w)
  else if i + 1 <? 2 ^ 32
  then (Deliver, mkWindow (i + 1) (keep_last (w_skipped w ++ iota (w_next w) (Z.to_nat (i - w_next w)))))
  else (ChainTooLong, w).

(** A window as the code maintains it. *)
Record window_wf (lo : u32) (w : window) : Prop := {
  wf_lo : 0 <= lo <= w_next w;
  wf_next : w_next w < 2 ^ 32;
  wf_sorted : StronglySorted Z.lt (w_skipped w);
  wf_range : Forall (fun j => lo <= j < w_next w) (w_skipped w);
  wf_size : (length (w_skipped w) <= MAX_MESSAGE_KEYS)%nat
}.

(** ** The concrete state and the window it stands for *)

Section Ratchet.
Context `{HK : !Hkdf, HS : !Hashes}.

(** The chain from a base key on, and the message key of an iteration. *)
Fixpoint chain_iter (n : nat) (k : bytes) : bytes :=
  match n with O => k | S n' => hmac_sha256 (chain_iter n' k) [CHAIN_KEY_SEED] end.
Definition chain_at (base : SenderChainKey) (i : u32) : SenderChainKey :=
  mkChainKey i (chain_iter (Z.to_nat (i - sck_iteration base)) (sck_chain_key base)).
Definition message_key_at (base : SenderChainKey) (i : u32) : SenderMessageKey :=
  sender_message_key (chain_at base i).

Record represents (base : SenderChainKey) (w : window) (s : SenderKeyState) : Prop := {
  rep_base : length (sck_chain_key base) = 32%nat;
  rep_wf : window_wf (sck_iteration base) w;
  rep_chain : sender_chain_key s = Some (chain_at base (w_next w));
  rep_keys : sender_message_keys (sks s)
             = map (fun j => smk_as_protobuf (message_key_at base j)) (w_skipped w)
}.

Definition verdict_result (base : SenderChainKey) (i : u32) (v : verdict)
    : outcome SignalProtocolError SenderMessageKey :=
  match v with
  | Deliver => Ok (message_key_at base i)
  | Duplicate c r => Err (DuplicatedMessage c r)
  | TooFar => Err (InvalidMessage CT_SenderKey (lit "message from too far into the future"))
  | ChainTooLong => Err (InvalidState (lit "sender_chain_key_next") (lit "Sender chain is too long"))
  end.

Lemma chain_iter_length n k : length k = 32%nat -> length (chain_iter n k) = 32%nat.
Proof. intros Hk. destruct n; [done|]. apply (hmac_length Sha256). Qed.

Lemma chain_at_next base i :
  0 <= sck_iteration base <= i ->
  i + 1 < 2 ^ 32 -> sck_next (chain_at base i) = Ok (chain_at base (i + 1)).
Proof.
  intros Hb Hi. unfold sck_next. cbn [sck_iteration chain_at].
  rewrite (proj2 (Z.ltb_lt _ _) Hi). unfold chain_at, get_derivative. cbn [sck_chain_key].
  replace (Z.to_nat (i + 1 - sck_iteration base)) with (S (Z.to_nat (i - sck_iteration base))) by lia.
  done.
Qed.

Lemma chain_at_too_long base i :
  2 ^ 32 <= i + 1 ->
  sck_next (chain_at base i)
  = Err (InvalidState (lit "sender_chain_key_next") (lit "Sender chain is too long")).
Proof. intros Hi. unfold sck_next. cbn [sck_iteration chain_at]. by rewrite (proj2 (Z.ltb_ge _ _) Hi). Qed.

Lemma message_key_from_protobuf {E} base i :
  smk_from_protobuf (E := E) (smk_as_protobuf (message_key_at base i)) = Ok (message_key_at base i).
Proof.
  unfold smk_from_protobuf, smk_as_protobuf. cbn [mpb_seed mpb_iteration unwrap_or_default].
  change (smk_seed (message_key_at base i)) with (hmac Sha256 (sck_chain_key (chain_at base i)) [MESSAGE_KEY_SEED]).
  by rewrite hmac_length.
Qed.

Lemma find_pos_map {A B} (p : B -> bool) (f : A -> B) l :
  find_pos p (map f l) = find_pos (fun x => p (f x)) l.
Proof. induction l as [|x l IH]; simpl; [done|]. by rewrite IH. Qed.

Lemma lookup_map {A B} (f : A -> B) (l : list A) n : map f l !! n = f <$> l !! n.
Proof. apply list_lookup_fmap. Qed.

Lemma map_delete {A B} (f : A -> B) n (l : list A) : map f (delete n l) = delete n (map f l).
Proof. revert n. induction l as [|x l IH]; intros [|n]; simpl; [done..|]. by rewrite IH. Qed.

Lemma find_pos_sorted_delete i l :
  StronglySorted Z.lt l ->
  match find_pos (fun j => j =? i) l with
  | Some k => i ∈ l /\ l !! k = Some i /\ delete k l = List.filter (fun j => negb (j =? i)) l
  | None => i ∉ l
  end.
Proof.
  induction 1 as [|x l Hs IH Hx]; cbn [find_pos List.filter]; [apply not_elem_of_nil|].
  destruct (Z.eqb_spec x i) as [->|Hne]; cbn [negb].
  - split; [left|]. split; [done|]. cbn [delete list_delete]. symmetry.
    clear -Hx. induction Hx as [|y l Hy Hl IHl]; [done|]. cbn [List.filter].
    destruct (Z.eqb_spec y i); [lia|]. cbn [negb]. by rewrite IHl.
  - destruct (find_pos _ l) as [k|]; cbn [fmap option_fmap option_map].
    + destruct IH as (Hin & Hk & Hd). split; [by right|]. split; [done|]. by cbn [delete list_delete]; rewrite <- Hd.
    + by apply not_elem_of_cons.
Qed.

Lemma keep_last_length {A} (l : list A) : (length (keep_last l) <= MAX_MESSAGE_KEYS)%nat.
Proof. unfold keep_last. rewrite length_drop. lia. Qed.

Lemma keep_last_small {A} (l : list A) : (length l <= MAX_MESSAGE_KEYS)%nat -> keep_last l = l.
Proof. intros Hl. unfold keep_last. by replace (length l - MAX_MESSAGE_KEYS)%nat with 0%nat by lia. Qed.

Lemma keep_last_app {A} (l m : list A) : keep_last (keep_last l ++ m) = keep_last (l ++ m).
Proof.
  unfold keep_last. rewrite !length_app, length_drop.
  destruct (decide (length l <= MAX_MESSAGE_KEYS)%nat).
  { replace (length l - MAX_MESSAGE_KEYS)%nat with 0%nat by lia. rewrite drop_0. f_equal. lia. }
  rewrite !drop_app, drop_drop, length_drop. f_equal; f_equal; lia.
Qed.

Lemma keep_last_map {A B} (f : A -> B) l : map f (keep_last l) = keep_last (map f l).
Proof. unfold keep_last. rewrite length_map. by rewrite skipn_map. Qed.

Lemma iota_S lo n : iota lo (S n) = lo :: iota (lo + 1) n.
Proof.
  unfold iota. cbn [List.seq map]. f_equal; [lia|]. rewrite <- seq_shift, map_map.
  apply map_ext. intros. lia.
Qed.

Lemma elem_of_iota lo n j : j ∈ iota lo n <-> lo <= j < lo + Z.of_nat n.
Proof.
  unfold iota. rewrite list_elem_of_In, in_map_iff. setoid_rewrite in_seq. split.
  - intros (k & <- & Hk). lia.
  - intros Hj. exists (Z.to_nat (j - lo)). lia.
Qed.

Lemma iota_sorted lo n : StronglySorted Z.lt (iota lo n).
Proof.
  revert lo. induction n as [|n IH]; intros lo; [constructor|]. rewrite iota_S. constructor; [apply IH|].
  apply Forall_forall. intros j Hj%elem_of_iota. lia.
Qed.

Lemma sorted_app l m :
  StronglySorted Z.lt l -> StronglySorted Z.lt m -> (forall x y, x ∈ l -> y ∈ m -> x < y) ->
  StronglySorted Z.lt (l ++ m).
Proof.
  induction 1 as [|x l Hs IH Hx]; intros Hm Hlm; [done|]. cbn [app]. constructor.
  - apply IH; [done|]. intros. apply Hlm; [by right|done].
  - apply Forall_app. split; [done|]. apply Forall_forall. intros y Hy. apply Hlm; [left|done].
Qed.

Lemma sorted_drop n l : StronglySorted Z.lt l -> StronglySorted Z.lt (drop n l).
Proof.
  revert n. induction l as [|x l IH]; intros [|n] Hs; [done..|].
  apply StronglySorted_inv in Hs as [Hs _]. cbn [drop]. by apply IH.
Qed.

Lemma sorted_filter p l : StronglySorted Z.lt l -> StronglySorted Z.lt (List.filter p l).
Proof.
  induction 1 as [|x l Hs IH Hx]; [constructor|]. cbn [List.filter].
  case_match; [|done]. constructor; [done|]. apply Forall_forall. intros y Hy%list_elem_of_In.
  apply filter_In in Hy as [Hy _]. rewrite Forall_forall in Hx. apply Hx. by apply list_elem_of_In.
Qed.

(** The window a state stands for stays well formed. *)
Lemma window_advance_wf lo i w :
  window_wf lo w -> w_next w <= i -> i + 1 < 2 ^ 32 ->
  window_wf lo (mkWindow (i + 1) (keep_last (w_skipped w ++ iota (w_next w) (Z.to_nat (i - w_next w))))).
Proof.
  intros Hw Hi H32. pose proof (wf_range _ _ Hw) as Hr. pose proof (wf_lo _ _ Hw).
  split; cbn [w_next w_skipped]; [lia|lia|..|apply keep_last_length].
  - apply sorted_drop, sorted_app; [apply (wf_sorted _ _ Hw)|apply iota_sorted|].
    intros x y Hx Hy%elem_of_iota. rewrite Forall_forall in Hr. specialize (Hr x Hx). lia.
  - apply Forall_drop, Forall_app. split.
    + eapply Forall_impl; [exact Hr|]. cbn. intros; lia.
    + apply Forall_forall. intros j Hj%elem_of_iota. lia.
Qed.

Lemma window_get_wf lo i w : window_wf lo w -> window_wf lo (window_get i w).2.
Proof.
  intros Hw. pose proof Hw as [Hlo Hn Hs Hr Hz]. unfold window_get.
  destruct (Z.ltb_spec i (w_next w)); [case_decide as Hin; [|by constructor]|].
  - split; cbn [snd w_next w_skipped]; try done.
    + by apply sorted_filter.
    + apply Forall_forall. intros j Hj%list_elem_of_In. apply filter_In in Hj as [Hj _].
      rewrite Forall_forall in Hr. apply Hr. by apply list_elem_of_In.
    + etrans; [apply filter_length_le|done].
  - destruct (Z.ltb_spec MAX_FORWARD_JUMPS (i - w_next w)); [by constructor|].
    destruct (Z.ltb_spec (i + 1) (2 ^ 32)); [|by constructor].
    by apply window_advance_wf.
Qed.

(** ** The code implements the window *)

Lemma add_key_keys k s :
  sender_message_keys (sks (add_sender_message_key k s))
  = keep_last (sender_message_keys (sks s) ++ [smk_as_protobuf k]).
Proof. done. Qed.

Lemma advance_chain_run base n c s :
  0 <= sck_iteration base <= c -> c + Z.of_nat n < 2 ^ 32 ->
  (length (sender_message_keys (sks s)) <= MAX_MESSAGE_KEYS)%nat ->
  advance_chain n (c + Z.of_nat n) (chain_at base c) s
  = (Ok (chain_at base (c + Z.of_nat n)),
     set_message_keys (keep_last (sender_message_keys (sks s)
       ++ map (fun j => smk_as_protobuf (message_key_at base j)) (iota c n))) s).
Proof.
  revert c s. induction n as [|n IH]; intros c s Hc Hn Hl; cbn [advance_chain].
  - cbn [sck_iteration chain_at]. rewrite Z.add_0_r, Z.ltb_irrefl. unfold mret. do 2 f_equal.
    cbn [iota List.seq map]. rewrite app_nil_r, keep_last_small by done. by destruct s as [[]].
  - cbn [sck_iteration chain_at]. rewrite (proj2 (Z.ltb_lt _ _)) by lia. fold (chain_at base c).
    unfold mbind', mlift. rewrite chain_at_next by lia.
    replace (c + Z.of_nat (S n)) with (c + 1 + Z.of_nat n) by lia.
    rewrite IH; [|lia|lia|apply keep_last_length]. f_equal.
    rewrite iota_S. cbn [map]. rewrite add_key_keys.
    rewrite keep_last_app, <- app_assoc. reflexivity.
Qed.

Lemma set_chain_key_get k s :
  length (sck_chain_key k) = 32%nat -> sender_chain_key (set_sender_chain_key k s) = Some k.
Proof.
  intros Hk. unfold sender_chain_key, set_sender_chain_key, sck_as_protobuf. cbn. rewrite Hk. by destruct k.
Qed.

Lemma chain_at_length base i :
  length (sck_chain_key base) = 32%nat -> length (sck_chain_key (chain_at base i)) = 32%nat.
Proof. apply chain_iter_length. Qed.

Lemma get_past base w s i :
  represents base w s -> i < w_next w ->
  (get_sender_key i s).1 = verdict_result base i (window_get i w).1
  /\ represents base (window_get i w).2 (get_sender_key i s).2.
Proof.
  intros [Hb Hw Hc Hk] Hi. pose proof (window_get_wf _ i w Hw) as Hw'.
  unfold get_sender_key. rewrite Hc. cbn [sck_iteration chain_at].
  unfold window_get in *. rewrite (proj2 (Z.ltb_lt _ _) Hi) in *.
  unfold mbind', remove_sender_message_key. rewrite Hk, find_pos_map.
  change (fun x => unwrap_or_default (mpb_iteration (smk_as_protobuf (message_key_at base x))) =? i)
    with (fun x => x =? i).
  pose proof (find_pos_sorted_delete i _ (wf_sorted _ _ Hw)) as Hf.
  destruct (find_pos _ (w_skipped w)) as [k|].
  - destruct Hf as (Hin & Hki & Hd). rewrite decide_True in * by done.
    rewrite lookup_map, Hki. cbn [fmap option_fmap option_map].
    rewrite message_key_from_protobuf. cbn [obind]. split; [done|].
    split; [done|done|done|]. cbn. by rewrite <- map_delete, Hd.
  - rewrite decide_False in * by done. by split.
Qed.

Lemma get_ahead base w s i :
  represents base w s -> w_next w <= i < 2 ^ 32 ->
  (get_sender_key i s).1 = verdict_result base i (window_get i w).1
  /\ (i + 1 < 2 ^ 32 -> represents base (window_get i w).2 (get_sender_key i s).2).
Proof.
  intros Hrep Hi. pose proof Hrep as [Hb Hw Hc Hk]. pose proof (window_get_wf _ i w Hw) as Hw'.
  unfold get_sender_key. rewrite Hc. cbn [sck_iteration chain_at]. fold (chain_at base (w_next w)).
  unfold window_get in *. rewrite (proj2 (Z.ltb_ge i _)) in * by lia.
  destruct (Z.ltb_spec MAX_FORWARD_JUMPS (i - w_next w)); [by split|].
  pose proof (wf_lo _ _ Hw). pose proof (wf_size _ _ Hw).
  unfold mbind', mlift. set (n := Z.to_nat (i - w_next w)).
  replace (advance_chain n i) with (advance_chain n (w_next w + Z.of_nat n)) by (f_equal; lia).
  rewrite (advance_chain_run base); [|lia|lia|by rewrite Hk, length_map].
  replace (w_next w + Z.of_nat n) with i by lia.
  destruct (Z.ltb_spec (i + 1) (2 ^ 32)) as [Hlt|Hge].
  - rewrite chain_at_next by lia. split; [done|]. intros _. split; [done|done| |].
    + apply set_chain_key_get. by apply chain_at_length.
    + cbn. rewrite Hk, <- map_app, keep_last_map. done.
  - rewrite chain_at_too_long by lia. split; [done|lia].
Qed.

Lemma get_sender_key_refines_lem base w s i :
  represents base w s -> 0 <= i < 2 ^ 32 ->
  (get_sender_key i s).1 = verdict_result base i (window_get i w).1
  /\ (i + 1 < 2 ^ 32 -> represents base (window_get i w).2 (get_sender_key i s).2).
Proof.
  intros Hr Hi. destruct (decide (i < w_next w)).
  - destruct (get_past base w s i Hr) as [? ?]; [done|]. by split.
  - apply get_ahead; [done|lia].
Qed.

(** ** Sequences of messages

    [group_decrypt] stores the state only when a key came out of it. *)
Definition deliver (i : u32) (s : SenderKeyState) : option SenderMessageKey * SenderKeyState :=
  match get_sender_key i s with
  | (Ok k, s') => (Some k, s')
  | _ => (None, s)
  end.

Fixpoint deliver_all (l : list u32) (s : SenderKeyState) : list (option SenderMessageKey) * SenderKeyState :=
  match l with
  | [] => ([], s)
  | i :: l' =>
      let '(r, s) := deliver i s in
      let '(rs, s) := deliver_all l' s in (r :: rs, s)
  end.

Fixpoint window_all (l : list u32) (w : window) : list (option u32) * window :=
  match l with
  | [] => ([], w)
  | i :: l' =>
      let '(v, w) := window_get i w in
      let '(vs, w) := window_all l' w in
      (match v with Deliver => Some i | _ => None end :: vs, w)
  end.

Lemma window_get_reject i w :
  match (window_get i w).1 with Deliver => i + 1 < 2 ^ 32 \/ i < w_next w | _ => (window_get i w).2 = w end.
Proof. unfold window_get. repeat case_match; simplify_eq/=; try done; lia. Qed.

Lemma deliver_window base w s i :
  represents base w s -> 0 <= i < 2 ^ 32 ->
  (deliver i s).1 = match (window_get i w).1 with Deliver => Some (message_key_at base i) | _ => None end
  /\ represents base (window_get i w).2 (deliver i s).2.
Proof.
  intros Hr Hi. destruct (get_sender_key_refines_lem base w s i Hr Hi) as [H1 H2].
  pose proof (window_get_reject i w) as Hw. pose proof (wf_next _ _ (rep_wf _ _ _ Hr)).
  unfold deliver. destruct (get_sender_key i s) as [r s']. cbn [fst snd] in *. subst r.
  destruct (window_get i w) as [v w']. cbn [fst snd] in *.
  destruct v; cbn [verdict_result fst snd]; (split; [done|]); [|by subst w'..].
  apply H2. lia.
Qed.

Lemma deliver_all_window base w s l :
  represents base w s -> Forall (fun i => 0 <= i < 2 ^ 32) l ->
  (deliver_all l s).1 = map (option_map (message_key_at base)) (window_all l w).1
  /\ represents base (window_all l w).2 (deliver_all l s).2.
Proof.
  revert w s. induction l as [|i l IH]; intros w s Hr Hl; [done|].
  apply Forall_cons in Hl as [Hi Hl]. destruct (deliver_window base w s i Hr Hi) as [H1 H2].
  cbn [deliver_all window_all]. destruct (deliver i s) as [r s1], (window_get i w) as [v w1].
  cbn [fst snd] in *. destruct (IH w1 s1 H2 Hl) as [H3 H4].
  destruct (deliver_all l s1) as [rs s2], (window_all l w1) as [vs w2]. cbn [fst snd map] in *.
  subst. split; [|done]. by destruct v.
Qed.

(** An iteration whose key is gone. *)
Definition spent (i : u32) (w : window) : Prop := i < w_next w /\ i ∉ w_skipped w.

Lemma elem_of_keep_last {A} (x : A) l : x ∈ keep_last l -> x ∈ l.
Proof.
  intros Hx. rewrite <- (take_drop (length l - MAX_MESSAGE_KEYS) l). apply elem_of_app. by right.
Qed.

Lemma skipped_below lo w i : window_wf lo w -> i ∈ w_skipped w -> i < w_next w.
Proof. intros Hw Hi. pose proof (wf_range _ _ Hw) as Hr. rewrite Forall_forall in Hr. by apply Hr. Qed.

Lemma window_get_spends lo i w :
  window_wf lo w -> (window_get i w).1 = Deliver -> spent i (window_get i w).2.
Proof.
  intros Hw. unfold window_get, spent. destruct (Z.ltb_spec i (w_next w)); [case_decide|]; try done.
  - intros _. cbn. split; [done|]. rewrite list_elem_of_In, filter_In, Z.eqb_refl. by intros [_ ?].
  - destruct (_ <? _); [done|]. destruct (_ <? _); [|done]. intros _. cbn. split; [lia|].
    intros [Hin%(skipped_below _ _ _ Hw)|Hin%elem_of_iota]%elem_of_keep_last%elem_of_app; lia.
Qed.

Lemma window_get_spent i w : spent i w -> (window_get i w).1 = Duplicate (w_next w) i.
Proof.
  intros [Hi Hn]. unfold window_get. rewrite (proj2 (Z.ltb_lt _ _) Hi). by rewrite decide_False.
Qed.

Lemma spent_preserved i j w : spent i w -> spent i (window_get j w).2.
Proof.
  intros [Hi Hn]. unfold window_get, spent.
  destruct (Z.ltb_spec j (w_next w)); [case_decide|]; try done.
  - cbn. split; [done|]. rewrite list_elem_of_In, filter_In, <- list_elem_of_In. by intros [? _].
  - destruct (_ <? _); [done|]. destruct (_ <? _); [|done]. cbn. split; [lia|].
    intros [Hin|Hin%elem_of_iota]%elem_of_keep_last%elem_of_app; [done|lia].
Qed.

Lemma window_all_spent i w l q :
  spent i w -> l !! q = Some i -> (window_all l w).1 !! q = Some None.
Proof.
  revert w q. induction l as [|j l IH]; intros w q Hs Hq; [done|]. cbn [window_all].
  pose proof (spent_preserved i j w Hs) as Hs'. pose proof (window_get_spent i w Hs) as Hd.
  destruct (window_get j w) as [v w'] eqn:E. cbn [snd] in Hs'.
  destruct q as [|q]; cbn [lookup list_lookup] in Hq.
  - simplify_eq. rewrite E in Hd. cbn in Hd. subst v. by destruct (window_all l w').
  - specialize (IH w' q Hs' Hq). by destruct (window_all l w').
Qed.

Lemma window_all_once lo w l p q i :
  window_wf lo w -> l !! p = Some i -> l !! q = Some i -> (p < q)%nat ->
  (window_all l w).1 !! p = Some (Some i) -> (window_all l w).1 !! q = Some None.
Proof.
  revert w p q. induction l as [|j l IH]; intros w p q Hw Hp Hq Hpq; [done|].
  cbn [window_all]. pose proof (window_get_wf lo j w Hw) as Hw'.
  pose proof (window_get_spends lo j w Hw) as Hs.
  destruct (window_get j w) as [v w'] eqn:E. cbn [snd fst] in *.
  destruct q as [|q]; [lia|]. destruct p as [|p]; cbn [lookup list_lookup] in *.
  - simplify_eq. pose proof (window_all_spent i w' l q) as Ha.
    destruct (window_all l w'). cbn. destruct v; try done. intros _. by apply Ha; [apply Hs|].
  - pose proof (IH w' p q Hw' Hp Hq ltac:(lia)) as Ha. by destruct (window_all l w').
Qed.

(** ** Messages in any order *)

(** An iteration whose key can still be asked for. *)
Definition fresh (i : u32) (w : window) : Prop := w_next w <= i \/ i ∈ w_skipped w.

Lemma sorted_length lo hi l :
  StronglySorted Z.lt l -> Forall (fun j => lo <= j < hi) l -> (length l <= Z.to_nat (hi - lo))%nat.
Proof.
  intros Hs. revert lo. induction Hs as [|x l Hs IH Hx]; intros lo Hr; [cbn; lia|].
  apply Forall_cons in Hr as [Hlo Hr]. specialize (IH (x + 1)). cbn [length].
  enough (length l <= Z.to_nat (hi - (x + 1)))%nat by lia. apply IH.
  rewrite Forall_forall in *. intros y Hy. specialize (Hx y Hy). specialize (Hr y Hy). lia.
Qed.

Lemma window_get_open lo hi i w :
  window_wf lo w -> w_next w <= hi -> hi - lo <= Z.of_nat MAX_MESSAGE_KEYS -> hi < 2 ^ 32 ->
  lo <= i < hi -> fresh i w ->
  (window_get i w).1 = Deliver /\ w_next (window_get i w).2 <= hi
  /\ forall j, j <> i -> lo <= j < hi -> fresh j w -> fresh j (window_get i w).2.
Proof.
  intros Hw Hhi Hwin H32 Hi Hf. unfold window_get, fresh in *.
  destruct (Z.ltb_spec i (w_next w)).
  - destruct Hf as [|Hin]; [lia|]. rewrite decide_True by done. cbn. split; [done|]. split; [done|].
    intros j Hne _ [Hj|Hj]; [by left|right].
    rewrite list_elem_of_In, filter_In, <- list_elem_of_In. split; [done|].
    by destruct (Z.eqb_spec j i).
  - rewrite (proj2 (Z.ltb_ge MAX_FORWARD_JUMPS _)) by (unfold MAX_FORWARD_JUMPS, MAX_MESSAGE_KEYS in *;
      pose proof (wf_lo _ _ Hw); lia).
    rewrite (proj2 (Z.ltb_lt (i + 1) _)) by lia. cbn. split; [done|]. split; [lia|].
    intros j Hne Hj Hfj. destruct (decide (i + 1 <= j)); [by left|right].
    rewrite keep_last_small.
    + apply elem_of_app. destruct Hfj as [Hfj|Hfj]; [right|by left]. apply elem_of_iota. lia.
    + rewrite length_app. unfold iota at 1. rewrite length_map, length_seq.
      pose proof (sorted_length _ _ _ (wf_sorted _ _ Hw) (wf_range _ _ Hw)).
      pose proof (wf_lo _ _ Hw). lia.
Qed.

Lemma window_all_open lo hi l w :
  window_wf lo w -> w_next w <= hi -> hi - lo <= Z.of_nat MAX_MESSAGE_KEYS -> hi < 2 ^ 32 ->
  List.NoDup l -> Forall (fun i => lo <= i < hi /\ fresh i w) l ->
  (window_all l w).1 = map Some l.
Proof.
  intros Hw Hn Hwin H32 Hnd. revert w Hw Hn. induction Hnd as [|i l Hni Hnd IH]; intros w Hw Hn Hl; [done|].
  apply Forall_cons in Hl as [[Hi Hf] Hl].
  destruct (window_get_open lo hi i w) as (Hd & Hn' & Hp); [done..|].
  pose proof (window_get_wf lo i w Hw) as Hw'.
  cbn [window_all map]. destruct (window_get i w) as [v w']. cbn [fst snd] in *. subst v.
  specialize (IH w' Hw' Hn'). destruct (window_all l w') as [vs w'']. cbn [fst] in *. f_equal.
  apply IH. rewrite Forall_forall in *. intros j Hj. specialize (Hl j Hj) as [? ?].
  split; [done|]. apply Hp; [|done|done]. intros ->. apply Hni. by apply list_elem_of_In.
Qed.

(** A new state stands for the chain from the key it is given. *)
Lemma state_new_represents id i ck pk sk s :
  0 <= i < 2 ^ 32 -> state_new id i ck pk sk = Ok s ->
  represents (mkChainKey i ck) (mkWindow i []) s.
Proof.
  unfold state_new. intros Hi. destruct (Nat.eqb_spec (length ck) 32) as [Hck|]; [|done]. intros [= <-].
  split; [done| | |done].
  - split; cbn; [lia|lia|constructor|constructor|lia].
  - unfold sender_chain_key, chain_at. cbn. rewrite Hck, Z.sub_diag. done.
Qed.

(** C14: the ratchet refines its window.  For a state that stands for a
    window over a base chain key, a request gives exactly the verdict of the
    abstract window (the message key the sender derives for that iteration,
    "duplicate", "too far" or "chain too long"), and the new state stands for
    the new window, which keeps at most 2,000 skipped keys, the latest ones.
    Only the request for the last iteration of all, which fails, may leave
    other keys behind; [group_decrypt] does not store that state. *)
Theorem get_sender_key_refines base w s i :
  represents base w s -> 0 <= i < 2 ^ 32 ->
  (get_sender_key i s).1 = verdict_result base i (window_get i w).1
  /\ (i + 1 < 2 ^ 32 -> represents base (window_get i w).2 (get_sender_key i s).2).
Proof. apply get_sender_key_refines_lem. Qed.

(** No message key is used twice.  In any sequence of requests, when one
    delivers the key of an iteration, every later request for that iteration
    is refused; and every key delivered is the sender's for that iteration. *)
Theorem message_keys_used_once base w s l :
  represents base w s -> Forall (fun i => 0 <= i < 2 ^ 32) l ->
  (forall p i k, l !! p = Some i -> (deliver_all l s).1 !! p = Some (Some k) -> k = message_key_at base i)
  /\ (forall p q i k, (p < q)%nat -> l !! p = Some i -> l !! q = Some i ->
        (deliver_all l s).1 !! p = Some (Some k) -> (deliver_all l s).1 !! q = Some None).
Proof.
  intros Hr Hl. destruct (deliver_all_window base w s l Hr Hl) as [-> _].
  assert (forall p i k, l !! p = Some i ->
    map (option_map (message_key_at base)) (window_all l w).1 !! p = Some (Some k) ->
    (window_all l w).1 !! p = Some (Some i) /\ k = message_key_at base i) as Hkey.
  { clear. revert w. induction l as [|j l IH]; intros w p i k Hp; [done|]. cbn [window_all].
    destruct (window_get j w) as [v w']. specialize (IH w'). destruct (window_all l w') as [vs w''].
    destruct p as [|p]; cbn in *; [|by apply IH]. destruct v; intros; by simplify_eq/=. }
  split.
  - intros p i k Hp Hd. by destruct (Hkey p i k Hp Hd).
  - intros p q i k Hpq Hp Hq Hd. destruct (Hkey p i k Hp Hd) as [Hd' _].
    rewrite lookup_map.
    by rewrite (window_all_once _ w l p q i (rep_wf _ _ _ Hr) Hp Hq Hpq Hd').
Qed.

(** Late messages.  From a state with no skipped keys, the next 2,000
    iterations can be received in any order: every request in a list without
    repetitions gets the sender's key for its iteration. *)
Theorem any_order_delivery base s n l :
  represents base (mkWindow n []) s -> n + Z.of_nat MAX_MESSAGE_KEYS < 2 ^ 32 ->
  List.NoDup l -> Forall (fun i => n <= i < n + Z.of_nat MAX_MESSAGE_KEYS) l ->
  (deliver_all l s).1 = map (fun i => Some (message_key_at base i)) l.
Proof.
  intros Hr Hn Hnd Hl. pose proof (wf_lo _ _ (rep_wf _ _ _ Hr)) as Hlo. cbn in Hlo.
  destruct (deliver_all_window base _ s l Hr) as [-> _].
  { eapply Forall_impl; [exact Hl|]. cbn. intros; lia. }
  rewrite (window_all_open n (n + Z.of_nat MAX_MESSAGE_KEYS)); [by rewrite map_map|..|done|].
  - split; cbn; [lia|lia|constructor|constructor|lia].
  - cbn. lia.
  - lia.
  - done.
  - eapply Forall_impl; [exact Hl|]. cbn. intros i Hi. split; [lia|]. left. cbn. lia.
Qed.
End Ratchet.

(** ** The record of chains *)

Definition record_wf (r : SenderKeyRecord) : Prop :=
  (length (states r) <= MAX_SENDER_KEY_STATES)%nat /\ NoDup (map chain_id (states r)).

(** Does a state hold this chain id and this signing key? *)
Definition state_matches (id : u32) (key : PublicKey) (s : SenderKeyState) : bool :=
  (chain_id s =? id) && match signing_key_public s with Some k => public_eq k key | None => false end.

Definition other_chains (id : u32) (r : SenderKeyRecord) : list SenderKeyState :=
  List.filter (fun s => negb (chain_id s =? id)) (states r).

Lemma filter_delete {A} (p : A -> bool) l i x :
  l !! i = Some x -> p x = false -> List.filter p (delete i l) = List.filter p l.
Proof.
  revert i. induction l as [|y l IH]; intros [|i] Hi Hx; [done..| |]; cbn in *.
  - simplify_eq. by rewrite Hx.
  - specialize (IH i Hi Hx). destruct (p y); [f_equal|]; exact IH.
Qed.

Lemma remove_state_spec id key r :
  match (remove_state id key r).1 with
  | Some st => st ∈ states r /\ state_matches id key st = true
  | None => Forall (fun s => state_matches id key s = false) (states r)
  end /\ other_chains id (remove_state id key r).2 = other_chains id r.
Proof.
  unfold remove_state. change (fun s => _ && _) with (state_matches id key).
  destruct (find_pos (state_matches id key) (states r)) as [i|] eqn:E; cbn [fst snd].
  - apply find_pos_Some in E as (st & Hi & Hm & _). rewrite Hi.
    split; [split; [by eapply list_elem_of_lookup_2|done]|].
    unfold other_chains. cbn. eapply filter_delete; [exact Hi|].
    apply andb_true_iff in Hm as [-> _]. done.
  - split; [by apply find_pos_None|done].
Qed.

Lemma sublist_map {A B} (f : A -> B) l k : sublist l k -> sublist (map f l) (map f k).
Proof. induction 1; by constructor. Qed.

Lemma other_chains_wf id r st :
  chain_id st = id -> NoDup (map chain_id (states r)) ->
  record_wf (mkRecord (st :: take (MAX_SENDER_KEY_STATES - 1) (other_chains id r))).
Proof.
  intros Hid Hnd. split; cbn [states]; [cbn; rewrite length_take; unfold MAX_SENDER_KEY_STATES; lia|].
  cbn [map]. assert (forall l, sublist l (other_chains id r) ->
    (chain_id st ∉ map chain_id l) /\ NoDup (map chain_id l)) as H.
  { intros l Hl. split.
    - rewrite Hid. intros Hin. apply list_elem_of_In, in_map_iff in Hin as (s & Hs & Hin).
      apply list_elem_of_In in Hin. eapply elem_of_sublist in Hin; [|exact Hl].
      unfold other_chains in Hin. rewrite list_elem_of_In, filter_In in Hin.
      destruct Hin as [_ Hin]. by rewrite Hs, Z.eqb_refl in Hin.
    - eapply sublist_NoDup; [exact Hnd|]. apply sublist_map. etrans; [exact Hl|].
      unfold other_chains. clear. induction (states r); cbn; [done|]. case_match; by constructor. }
  destruct (H (take (MAX_SENDER_KEY_STATES - 1) (other_chains id r))) as [? ?];
    [apply sublist_take|]. by constructor.
Qed.

(** What [add_sender_key_state] does to a record.  It never fails for a
    32-byte chain key; the state put in front is the one already known with
    this chain id and signing key, if there is one (so a chain that is
    distributed again keeps its position), and otherwise a new one; every
    other state with this chain id is dropped, the rest keep their order, the
    oldest ones beyond five are forgotten, no chain id occurs twice, and
    the lookup by chain id finds the state put in front. *)
Theorem add_sender_key_state_spec id it ck key sk r :
  length ck = 32%nat -> NoDup (map chain_id (states r)) ->
  exists st r', add_sender_key_state id it ck key sk r = (Ok tt, r')
    /\ (st ∈ states r /\ state_matches id key st = true
        \/ Forall (fun s => state_matches id key s = false) (states r)
           /\ state_new id it ck key sk = Ok st)
    /\ states r' = st :: take (MAX_SENDER_KEY_STATES - 1) (other_chains id r)
    /\ record_wf r'
    /\ sender_key_state_for_chain_id id r' = Some st.
Proof.
  intros Hck Hnd. unfold add_sender_key_state.
  destruct (remove_state_spec id key r) as [Hm Ho].
  destruct (remove_state id key r) as [ex r1]. cbn [fst snd] in *.
  unfold remove_states_with_chain_id. fold (other_chains id r1). rewrite Ho. cbn [states].
  assert (exists st, match ex with Some st => Ok st | None => state_new id it ck key sk end = Ok st
    /\ chain_id st = id
    /\ (st ∈ states r /\ state_matches id key st = true
        \/ Forall (fun s => state_matches id key s = false) (states r)
           /\ state_new id it ck key sk = Ok st)) as (st & Hst & Hid & Hcase).
  { destruct ex as [st|].
    - destruct Hm as [Hin Hmt]. exists st. split; [done|]. split; [|by left].
      unfold state_matches in Hmt. bool_lia.
    - unfold state_new. rewrite Hck. cbn [Nat.eqb]. eexists. split; [done|]. split; [done|]. by right. }
  exists st, (mkRecord (st :: take (MAX_SENDER_KEY_STATES - 1) (other_chains id r))).
  split; [|split; [done|]; split; [done|]; split; [by apply other_chains_wf|]].
  - destruct ex as [st'|]; [by simplify_eq|]. by rewrite Hst.
  - unfold sender_key_state_for_chain_id, state_index_for_chain_id. cbn [states find_pos].
    by rewrite Hid, Z.eqb_refl.
Qed.

(** ** Witnesses *)

Definition toy_base : SenderChainKey := mkChainKey 5 (replicate 32 1).
Definition toy_state : SenderKeyState :=
  match state_new 77 5 (replicate 32 1) (mkPublicKey (replicate 32 9)) None with
  | Ok s => s
  | _ => mkState (mkStatePb None None None [])
  end.

Lemma toy_state_represents :
  @represents toy_hkdf toy_hashes toy_base (mkWindow 5 []) toy_state.
Proof.
  apply (@state_new_represents toy_hkdf toy_hashes 77 5 (replicate 32 1) (mkPublicKey (replicate 32 9)) None);
    [lia|reflexivity].
Qed.

Lemma get_sender_key_refines_witness :
  (@get_sender_key toy_hkdf toy_hashes 8 toy_state).1 = Ok (@message_key_at toy_hkdf toy_hashes toy_base 8)
  /\ @represents toy_hkdf toy_hashes toy_base (mkWindow 9 [5; 6; 7])
       (@get_sender_key toy_hkdf toy_hashes 8 toy_state).2.
Proof.
  destruct (@get_sender_key_refines toy_hkdf toy_hashes toy_base (mkWindow 5 []) toy_state 8
              toy_state_represents ltac:(lia)) as [H1 H2].
  split; [exact H1|]. apply H2. lia.
Defined.

Lemma message_keys_used_once_witness :
  (@deliver_all toy_hkdf toy_hashes [7; 5; 7; 6] toy_state).1 !! 2%nat = Some None.
Proof.
  eapply (proj2 (@message_keys_used_once toy_hkdf toy_hashes toy_base (mkWindow 5 []) toy_state
            [7; 5; 7; 6] toy_state_represents ltac:(repeat constructor; lia)) 0%nat 2%nat 7);
    [lia|reflexivity|reflexivity|vm_compute; reflexivity].
Defined.

Lemma any_order_delivery_witness :
  (@deliver_all toy_hkdf toy_hashes [7; 5; 6] toy_state).1
  = map (fun i => Some (@message_key_at toy_hkdf toy_hashes toy_base i)) [7; 5; 6].
Proof.
  apply (@any_order_delivery toy_hkdf toy_hashes toy_base toy_state 5 [7; 5; 6] toy_state_represents).
  - unfold MAX_MESSAGE_KEYS. lia.
  - repeat constructor; cbn; lia.
  - unfold MAX_MESSAGE_KEYS. repeat constructor; lia.
Defined.

Lemma add_sender_key_state_spec_witness :
  exists st r', add_sender_key_state 77 0 (replicate 32 2) (mkPublicKey (replicate 32 8)) None
                  (mkRecord [toy_state]) = (Ok tt, r')
    /\ states r' = st :: take (MAX_SENDER_KEY_STATES - 1) (other_chains 77 (mkRecord [toy_state])).
Proof.
  destruct (add_sender_key_state_spec 77 0 (replicate 32 2) (mkPublicKey (replicate 32 8)) None
              (mkRecord [toy_state])) as (st & r' & ? & _ & ? & _).
  - reflexivity.
  - apply NoDup_singleton.
  - by exists st, r'.
Defined.
