(* ===== verification/GroupCipher.v ===== *)
(** * Group messages: [protocol/group_cipher.rs], the messages of [protocol.rs]

    [SenderKeyMessage] and [SenderKeyDistributionMessage] with their wire
    forms, and the four operations of the group cipher over the sender-key
    store: create and process a distribution message, encrypt, decrypt.  The
    protobuf encoding is the [prost] crate's and the store is the trait
    [SenderKeyStore]; both are interfaces with the laws they document.  The
    random bytes the code draws are arguments. *)

From S2P Require Import Prelude RustStd Crypto Curve XEdDSA SenderKeys.

(** ** Interfaces *)

(** [waproto::whatsapp::SenderKeyMessage] and [SenderKeyDistributionMessage] *)
Record SenderKeyMessagePb := mkSkmPb {
  skmpb_id : option u32; skmpb_iteration : option u32; skmpb_ciphertext : option bytes
}.
Record SenderKeyDistributionMessagePb := mkSkdmPb {
  skdmpb_id : option u32; skdmpb_iteration : option u32;
  skdmpb_chain_key : option bytes; skdmpb_signing_key : option bytes
}.

Definition is_u32 (v : Z) : Prop := 0 <= v < 2 ^ 32.

(** Their encoding: decoding inverts it, and bytes fields are copied. *)
Class SenderKeyProto := {
  skm_encode : SenderKeyMessagePb -> bytes;
  skm_decode : bytes -> option SenderKeyMessagePb;
  skm_decode_encode : forall id it c, is_u32 id -> is_u32 it ->
    skm_decode (skm_encode (mkSkmPb (Some id) (Some it) (Some c)))
    = Some (mkSkmPb (Some id) (Some it) (Some c));
  skdm_encode : SenderKeyDistributionMessagePb -> bytes;
  skdm_decode : bytes -> option SenderKeyDistributionMessagePb;
  skdm_decode_encode : forall id it ck sk, is_u32 id -> is_u32 it ->
    skdm_decode (skdm_encode (mkSkdmPb (Some id) (Some it) (Some ck) (Some sk)))
    = Some (mkSkdmPb (Some id) (Some it) (Some ck) (Some sk));
  skdm_encode_length : forall id it ck sk,
    (length ck + length sk <= length (skdm_encode (mkSkdmPb id it (Some ck) (Some sk))))%nat
}.

(** [store/sender_key_name.rs] *)
Record SenderKeyName := mkSenderKeyName { group_id : str; sender_id : str }.
#[export] Instance SenderKeyName_eq_dec : EqDecision SenderKeyName.
Proof. solve_decision. Defined.

(** [trait SenderKeyStore]: a load returns the entry and changes none; a
    store that succeeds changes exactly the entry it names; what a failing
    store leaves behind is not promised. *)
Class SenderKeyStore (B : Type) := {
  view_sender_key : B -> SenderKeyName -> option SenderKeyRecord;
  load_sender_key : SenderKeyName -> comp B SignalProtocolError (option SenderKeyRecord);
  load_ok : forall n b r b', load_sender_key n b = (Ok r, b') -> r = view_sender_key b n;
  load_view : forall n b n', view_sender_key (load_sender_key n b).2 n' = view_sender_key b n';
  store_sender_key : SenderKeyName -> SenderKeyRecord -> comp B SignalProtocolError unit;
  store_ok : forall n r b b', store_sender_key n r b = (Ok tt, b') ->
    forall n', view_sender_key b' n' = if decide (n = n') then Some r else view_sender_key b n'
}.

(** A store without failures, for the theorems that promise a result. *)
Class ReliableStore (B : Type) `{!SenderKeyStore B} := {
  load_returns : forall n b, exists r b', load_sender_key n b = (Ok r, b');
  store_returns : forall n r b, exists b', store_sender_key n r b = (Ok tt, b')
}.

(** ** [SenderKeyMessage] *)

Definition SENDERKEY_MESSAGE_CURRENT_VERSION : u8 := 3.
Definition SIGNATURE_LEN : nat := 64.

Record SenderKeyMessage := mkSkm {
  skm_version : u8;
  skm_chain_id : u32;
  skm_iteration : u32;
  skm_ciphertext : bytes;
  skm_serialized : bytes
}.

Section Messages.
Context `{HC : !Curve25519, HP : !SenderKeyProto}.

(** The signature covers the version byte and the protobuf payload. *)
Definition skm_new (message_version : u8) (chain_id iteration : u32) (ciphertext rnd : bytes)
    (signature_key : PrivateKey) : outcome SignalProtocolError SenderKeyMessage :=
  let proto_bytes := skm_encode (mkSkmPb (Some chain_id) (Some iteration) (Some ciphertext)) in
  let shifted_version := Z.lor (wrap 8 (Z.shiftl message_version 4)) 3 in
  let data_to_sign := shifted_version :: proto_bytes in
  let? signature :=
    map_err (fun _ => SignatureValidationFailed) (calculate_signature signature_key data_to_sign rnd) in
  Ok (mkSkm message_version chain_id iteration ciphertext (shifted_version :: proto_bytes ++ signature)).

Definition skm_verify_signature (m : SenderKeyMessage) (signature_key : PublicKey)
    : outcome SignalProtocolError bool :=
  let n := length (skm_serialized m) in
  if (n <? SIGNATURE_LEN)%nat then Panic
  else Ok (verify_signature signature_key
             (take (n - SIGNATURE_LEN) (skm_serialized m)) (drop (n - SIGNATURE_LEN) (skm_serialized m))).

(** The version nibble must be the current one. *)
Definition check_version (first : u8) : outcome SignalProtocolError u8 :=
  let message_version := Z.shiftr first 4 in
  if message_version <? SENDERKEY_MESSAGE_CURRENT_VERSION then Err (LegacyCiphertextVersion message_version)
  else if SENDERKEY_MESSAGE_CURRENT_VERSION <? message_version
  then Err (UnrecognizedCiphertextVersion message_version)
  else Ok message_version.

Definition skm_try_from (value : bytes) : outcome SignalProtocolError SenderKeyMessage :=
  if (length value <? 1 + SIGNATURE_LEN)%nat then Err (CiphertextMessageTooShort (length value))
  else
    match value with
    | [] => Panic
    | first :: _ =>
        let? message_version := check_version first in
        let? p := ok_or InvalidProtobufEncoding
                    (skm_decode (slice 1 (length value - SIGNATURE_LEN) value)) in
        let? chain_id := ok_or InvalidProtobufEncoding (skmpb_id p) in
        let? iteration := ok_or InvalidProtobufEncoding (skmpb_iteration p) in
        let? ciphertext := ok_or InvalidProtobufEncoding (skmpb_ciphertext p) in
        Ok (mkSkm message_version chain_id iteration ciphertext value)
    end.

(** ** [SenderKeyDistributionMessage] *)

Record SenderKeyDistributionMessage := mkSkdm {
  skdm_version : u8;
  skdm_chain_id : u32;
  skdm_iteration : u32;
  skdm_chain_key : bytes;
  skdm_signing_key : PublicKey;
  skdm_serialized : bytes
}.

Definition skdm_new (message_version : u8) (chain_id iteration : u32) (chain_key : bytes)
    (signing_key : PublicKey) : outcome SignalProtocolError SenderKeyDistributionMessage :=
  let proto := mkSkdmPb (Some chain_id) (Some iteration) (Some chain_key)
                 (Some (public_serialize signing_key)) in
  let first := Z.lor (wrap 8 (Z.shiftl (Z.land message_version 15) 4)) SENDERKEY_MESSAGE_CURRENT_VERSION in
  Ok (mkSkdm message_version chain_id iteration chain_key signing_key (first :: skdm_encode proto)).

Definition skdm_try_from (value : bytes) : outcome SignalProtocolError SenderKeyDistributionMessage :=
  if (length value <? 1 + 32 + 32)%nat then Err (CiphertextMessageTooShort (length value))
  else
    match value with
    | [] => Panic
    | first :: rest =>
        let? message_version := check_version first in
        let? p := ok_or InvalidProtobufEncoding (skdm_decode rest) in
        let? chain_id := ok_or InvalidProtobufEncoding (skdmpb_id p) in
        let? iteration := ok_or InvalidProtobufEncoding (skdmpb_iteration p) in
        let? chain_key := ok_or InvalidProtobufEncoding (skdmpb_chain_key p) in
        let? signing_key := ok_or InvalidProtobufEncoding (skdmpb_signing_key p) in
        if negb (length chain_key =? 32)%nat || negb (length signing_key =? 33)%nat
        then Err InvalidProtobufEncoding
        else
          let? signing_key := map_err from_curve_error (public_deserialize signing_key) in
          Ok (mkSkdm message_version chain_id iteration chain_key signing_key value)
    end.
End Messages.

(** ** The group cipher *)

(** [{:?}] of a list of numbers *)
Definition debug_u32s (l : list u32) : str :=
  lit "["
  ++ concat (match l with [] => [] | x :: l' => show_uint x :: map (fun y => lit ", " ++ show_uint y) l' end)
  ++ lit "]".

Section Cipher.
Context `{HK : !Hkdf, HS : !Hashes, HA : !AesCbc, HC : !Curve25519, HP : !SenderKeyProto}.
Context {B : Type} `{HB : !SenderKeyStore B}.

Definition no_record (n : SenderKeyName) : SignalProtocolError :=
  NoSenderKeyState (lit "no sender key record for group " ++ group_id n ++ lit " sender " ++ sender_id n).

(** Write a state back at the place the mutable borrow pointed to. *)
Definition set_state (i : nat) (s : SenderKeyState) (r : SenderKeyRecord) : SenderKeyRecord :=
  mkRecord (<[i := s]> (states r)).

Definition group_encrypt (n : SenderKeyName) (plaintext rnd : bytes)
    : comp B SignalProtocolError SenderKeyMessage :=
  let! loaded := load_sender_key n in
  let! record := mlift (ok_or (no_record n) loaded) in
  let! state := mlift (ok_or InvalidSenderKeySession (sender_key_state record)) in
  let! ck := mlift (ok_or InvalidSenderKeySession (sender_chain_key state)) in
  let message_keys := sender_message_key ck in
  (* the thread-local buffer is cleared first and taken afterwards *)
  let '(enc, ciphertext) :=
    aes_256_cbc_encrypt_into plaintext (smk_cipher_key message_keys) (smk_iv message_keys) [] in
  let! _ := mlift (map_err (fun _ => InvalidSenderKeySession) enc) in
  let! signing_key := mlift (ok_or InvalidSenderKeySession (signing_key_private state)) in
  let! skm := mlift (skm_new (message_version state) (chain_id state) (smk_iteration message_keys)
                       ciphertext rnd signing_key) in
  let! next := mlift (sck_next ck) in
  store_sender_key n (set_state 0 (set_sender_chain_key next state) record) ;;
  mret skm.

Definition decryption_failed (e : DecryptionError) : SignalProtocolError :=
  match e with
  | D_BadKeyOrIv => InvalidSenderKeySession
  | D_BadCiphertext _ => InvalidMessage CT_SenderKey (lit "decryption failed")
  end.

Definition group_decrypt (skm_bytes : bytes) (n : SenderKeyName) : comp B SignalProtocolError bytes :=
  let! skm := mlift (skm_try_from skm_bytes) in
  let! loaded := load_sender_key n in
  let! record := mlift (ok_or (no_record n) loaded) in
  let id := skm_chain_id skm in
  match state_index_for_chain_id id record with
  | None =>
      mfail (NoSenderKeyState (lit "no sender key state for chain id " ++ show_uint id
               ++ lit " (known chain IDs: " ++ debug_u32s (map chain_id (states record)) ++ lit ")"))
  | Some index =>
      match states record !! index with
      | None => mpanic
      | Some state =>
          if negb (skm_version skm =? message_version state)
          then mfail (UnrecognizedMessageVersion (skm_version skm))
          else
            let! signing_key := mlift (ok_or InvalidSenderKeySession (signing_key_public state)) in
            let! valid := mlift (skm_verify_signature skm signing_key) in
            if negb valid then mfail SignatureValidationFailed
            else
              let '(key, state) := get_sender_key (skm_iteration skm) state in
              let! sender_key := mlift key in
              let '(dec, plaintext) :=
                aes_256_cbc_decrypt_into (skm_ciphertext skm) (smk_cipher_key sender_key)
                  (smk_iv sender_key) [] in
              let! _ := mlift (map_err decryption_failed dec) in
              store_sender_key n (set_state index state record) ;;
              mret plaintext
      end
  end.

Definition process_sender_key_distribution_message (n : SenderKeyName)
    (skdm : SenderKeyDistributionMessage) : comp B SignalProtocolError unit :=
  let! loaded := load_sender_key n in
  let record := match loaded with Some r => r | None => record_new_empty end in
  let '(added, record) :=
    add_sender_key_state (skdm_chain_id skdm) (skdm_iteration skdm) (skdm_chain_key skdm)
      (skdm_signing_key skdm) None record in
  let! _ := mlift added in
  store_sender_key n record.

(** The draws: a [u32], the 32-byte sender key, 32 bytes for the key pair. *)
Definition create_sender_key_distribution_message (n : SenderKeyName)
    (rnd_id : u32) (rnd_key rnd_pair : bytes) : comp B SignalProtocolError SenderKeyDistributionMessage :=
  let! loaded := load_sender_key n in
  let! record :=
    match loaded with
    | Some record => mret record
    | None =>
        let id := Z.shiftr rnd_id 1 in
        let signing_key := key_pair_generate rnd_pair in
        let '(added, record) :=
          add_sender_key_state id 0 rnd_key (kp_public signing_key) (Some (kp_private signing_key))
            record_new_empty in
        let! _ := mlift added in
        store_sender_key n record ;;
        mret record
    end in
  let! state := mlift (ok_or InvalidSenderKeySession (sender_key_state record)) in
  let! ck := mlift (ok_or InvalidSenderKeySession (sender_chain_key state)) in
  let! signing := mlift (ok_or InvalidSenderKeySession (signing_key_public state)) in
  mlift (skdm_new (message_version state) (chain_id state) (sck_iteration ck) (sck_chain_key ck) signing).
End Cipher.

(** ** Wire round trips *)

Section RoundTrips.
Context `{HC : !Curve25519, HP : !SenderKeyProto}.

Lemma drop_app_exact {A} (l m : list A) n :
  length m = n -> take (length (l ++ m) - n) (l ++ m) = l /\ drop (length (l ++ m) - n) (l ++ m) = m.
Proof.
  intros <-. rewrite length_app. replace (length l + length m - length m)%nat with (length l) by lia.
  by rewrite take_app_length, drop_app_length.
Qed.

(** A message made for a key is parsed back as it is and carries a valid
    signature of the key. *)
Lemma skm_roundtrip id it c rnd sk :
  is_u32 id -> is_u32 it ->
  exists m, skm_new 3 id it c rnd sk = Ok m
    /\ (skm_version m = 3 /\ skm_chain_id m = id /\ skm_iteration m = it /\ skm_ciphertext m = c)
    /\ skm_try_from (skm_serialized m) = Ok m
    /\ skm_verify_signature m (mkPublicKey (derive_public_key_bytes (sk_bytes sk))) = Ok true.
Proof.
  intros Hid Hit. unfold skm_new. set (pb := skm_encode _).
  change (Z.lor (wrap 8 (Z.shiftl 3 4)) 3) with 51.
  destruct (verify_calculated sk (51 :: pb) rnd) as (sg & Hsg & Hlen & Hv).
  rewrite Hsg. cbn [map_err obind]. eexists. split; [done|]. cbn [skm_serialized].
  split; [done|]. change (51 :: pb ++ sg) with ((51 :: pb) ++ sg).
  destruct (drop_app_exact (51 :: pb) sg SIGNATURE_LEN Hlen) as [Ht Hd]. split.
  - unfold skm_try_from. rewrite (proj2 (Nat.ltb_ge _ _)).
    2: { rewrite length_app, Hlen. unfold SIGNATURE_LEN. cbn. lia. }
    cbn [app]. change (check_version 51) with (Ok (E := SignalProtocolError) 3). cbn [obind].
    replace (slice 1 _ (51 :: pb ++ sg)) with pb.
    + unfold pb. rewrite skm_decode_encode by done. done.
    + unfold slice. change (drop 1 (51 :: pb ++ sg)) with (pb ++ sg). cbn [length].
      rewrite length_app, Hlen. unfold SIGNATURE_LEN.
      replace (S (length pb + 64) - 64 - 1)%nat with (length pb) by lia. by rewrite take_app_length.
  - unfold skm_verify_signature. cbn [skm_serialized]. rewrite (proj2 (Nat.ltb_ge _ _)).
    2: { rewrite length_app, Hlen. unfold SIGNATURE_LEN. lia. }
    by rewrite Ht, Hd, Hv.
Qed.

Lemma skdm_roundtrip id it ck pk :
  is_u32 id -> is_u32 it -> length ck = 32%nat -> length (pk_bytes pk) = 32%nat ->
  exists m, skdm_new 3 id it ck pk = Ok m
    /\ (skdm_chain_id m = id /\ skdm_iteration m = it /\ skdm_chain_key m = ck /\ skdm_signing_key m = pk)
    /\ skdm_try_from (skdm_serialized m) = Ok m.
Proof.
  intros Hid Hit Hck Hpk. unfold skdm_new. eexists. split; [done|]. split; [done|]. cbn [skdm_serialized].
  change (Z.lor _ SENDERKEY_MESSAGE_CURRENT_VERSION) with 51. unfold skdm_try_from.
  pose proof (skdm_encode_length (Some id) (Some it) ck (public_serialize pk)) as Hlen.
  unfold public_serialize in Hlen at 1. cbn [length] in Hlen.
  rewrite (proj2 (Nat.ltb_ge _ _)) by (cbn [length]; lia).
  change (check_version 51) with (Ok (E := SignalProtocolError) 3). cbn [obind].
  rewrite skdm_decode_encode by done.
  cbn [ok_or obind skdmpb_id skdmpb_iteration skdmpb_chain_key skdmpb_signing_key].
  rewrite Hck. replace (length (public_serialize pk)) with 33%nat by (unfold public_serialize; cbn; lia).
  cbn [Nat.eqb negb orb]. rewrite public_roundtrip by done. done.
Qed.
End RoundTrips.

(** ** The operations, one at a time *)

Section Steps.
Context `{HK : !Hkdf, HS : !Hashes, HA : !AesCbc, HC : !Curve25519, HP : !SenderKeyProto}.

(** The ratchet does not touch the identity of a chain. *)
Definition same_chain (s s' : SenderKeyState) : Prop :=
  sender_key_id (sks s') = sender_key_id (sks s)
  /\ sender_signing_key (sks s') = sender_signing_key (sks s).

Lemma advance_same_chain fuel i ck s : same_chain s (advance_chain fuel i ck s).2.
Proof.
  revert ck s. induction fuel as [|f IH]; intros ck s; cbn [advance_chain]; [by case_match|].
  case_match; [|done]. unfold mbind', mlift. destruct (sck_next ck); [|done..].
  destruct (IH a (add_sender_message_key (sender_message_key ck) s)) as [H1 H2]. by split.
Qed.

Lemma get_same_chain i s : same_chain s (get_sender_key i s).2.
Proof.
  unfold get_sender_key. destruct (sender_chain_key s) as [ck|]; [|done].
  destruct (i <? sck_iteration ck).
  - unfold mbind', remove_sender_message_key.
    repeat (case_match; simplify_eq/=; try done).
  - destruct (_ <? _); [done|]. unfold mbind', mlift.
    pose proof (advance_same_chain (Z.to_nat (i - sck_iteration ck)) i ck s) as Ha.
    destruct (advance_chain _ _ ck s) as [[ck'| | |] s']; cbn [snd] in *; [|done..].
    by destruct (sck_next ck').
Qed.

Lemma same_chain_facts s s' :
  same_chain s s' -> chain_id s' = chain_id s /\ signing_key_public s' = signing_key_public s.
Proof. intros [H1 H2]. unfold chain_id, signing_key_public. by rewrite H1, H2. Qed.

Lemma smk_lengths (k : SenderChainKey) :
  length (smk_cipher_key (sender_message_key k)) = 32%nat /\ length (smk_iv (sender_message_key k)) = 16%nat.
Proof.
  unfold sender_message_key, smk_new. cbn [smk_cipher_key smk_iv]. unfold slice.
  by rewrite !length_take, !length_drop, hkdf_length.
Qed.

(** What a sender keeps: a chain of its own with its private signing key. *)
Record sends (base : SenderChainKey) (id : u32) (sk : PrivateKey) (n : u32) (r : SenderKeyRecord) : Prop := {
  sends_id : is_u32 id;
  sends_state : exists s rest, states r = s :: rest /\ represents base (mkWindow n []) s
                /\ chain_id s = id /\ signing_key_private s = Some sk
}.

(** What a receiver keeps: the state found for the chain id. *)
Definition receives (base : SenderChainKey) (id : u32) (pk : PublicKey) (w : window)
    (r : SenderKeyRecord) : Prop :=
  exists index s, state_index_for_chain_id id r = Some index /\ states r !! index = Some s
    /\ represents base w s /\ signing_key_public s = Some pk.

(** The message the sender with this chain makes for an iteration. *)
Record sent (base : SenderChainKey) (id : u32) (sk : PrivateKey) (i : u32) (p : bytes)
    (m : SenderKeyMessage) : Prop := {
  sent_fields : skm_version m = 3 /\ skm_chain_id m = id /\ skm_iteration m = i;
  sent_wire : skm_try_from (skm_serialized m) = Ok m;
  sent_signed : skm_verify_signature m (mkPublicKey (derive_public_key_bytes (sk_bytes sk))) = Ok true;
  sent_cipher : aes_256_cbc_decrypt_into (skm_ciphertext m) (smk_cipher_key (message_key_at base i))
                  (smk_iv (message_key_at base i)) [] = (Ok tt, p)
}.

Context {B : Type} `{HB : !SenderKeyStore B} `{HR : !ReliableStore B}.

Lemma load_run n b : exists b', load_sender_key n b = (Ok (view_sender_key b n), b')
  /\ forall n', view_sender_key b' n' = view_sender_key b n'.
Proof.
  destruct (load_returns n b) as (r & b' & E). exists b'. rewrite E.
  rewrite (load_ok _ _ _ _ E). split; [done|]. intros n'.
  change b' with (Ok (E := SignalProtocolError) r, b').2. rewrite <- E. apply load_view.
Qed.

Lemma store_run n r b b0 :
  (forall n', view_sender_key b n' = view_sender_key b0 n') ->
  exists b', store_sender_key n r b = (Ok tt, b') /\ view_sender_key b' n = Some r
  /\ forall n', n' <> n -> view_sender_key b' n' = view_sender_key b0 n'.
Proof.
  intros Hv. destruct (store_returns n r b) as (b' & E). exists b'. split; [done|].
  pose proof (store_ok _ _ _ _ E) as Hs. split.
  - by rewrite Hs, decide_True.
  - intros n' Hn. rewrite Hs, decide_False by congruence. apply Hv.
Qed.

Lemma group_encrypt_run base id sk n r name p rnd b :
  view_sender_key b name = Some r -> sends base id sk n r -> n + 1 < 2 ^ 32 ->
  exists m b' r', group_encrypt name p rnd b = (Ok m, b')
    /\ sent base id sk n p m
    /\ view_sender_key b' name = Some r' /\ sends base id sk (n + 1) r'.
Proof.
  intros Hb [Hid (s & rest & Hs & Hrep & Hc & Hk)] Hn.
  destruct (load_run name b) as (b1 & E1 & Hv). rewrite Hb in E1.
  pose proof (wf_lo _ _ (rep_wf _ _ _ Hrep)) as Hlo. cbn [w_next] in Hlo.
  unfold group_encrypt, mbind', mlift. rewrite E1. cbn [ok_or].
  unfold sender_key_state. rewrite Hs. cbn [head ok_or]. rewrite (rep_chain _ _ _ Hrep). cbn [ok_or w_next].
  fold (message_key_at base n).
  destruct (smk_lengths (chain_at base n)) as [Hkl Hil].
  destruct (aes_roundtrip p (smk_cipher_key (message_key_at base n)) (smk_iv (message_key_at base n)) [] [] Hkl Hil)
    as (c & Hce & Hcd).
  rewrite Hce. cbn [map_err app]. rewrite Hk. cbn [ok_or]. rewrite Hc.
  destruct (skm_roundtrip id n c rnd sk Hid ltac:(unfold is_u32; lia)) as (m & Hm & (Hf1 & Hf2 & Hf3 & Hf4) & Ht & Hsig).
  change (message_version s) with 3.
  change (smk_iteration (message_key_at base n)) with n. rewrite Hm.
  rewrite chain_at_next by lia.
  destruct (store_run name (set_state 0 (set_sender_chain_key (chain_at base (n + 1)) s) r) b1 b Hv)
    as (b2 & E2 & Hv2 & _). rewrite E2.
  exists m, b2. eexists. split; [done|]. split; [|split; [exact Hv2|]].
  - split; [done|done|done|]. by rewrite Hf4.
  - split; [done|]. exists (set_sender_chain_key (chain_at base (n + 1)) s), rest.
    unfold set_state. rewrite Hs. split; [done|]. split; [|done].
    destruct Hrep as [Hl Hw _ Hkeys]. split; [done| | |done].
    + destruct Hw. split; cbn in *; [lia|lia|done|done|done].
    + apply set_chain_key_get. by apply chain_at_length.
Qed.

Lemma find_pos_insert {A} (q : A -> bool) l i y :
  find_pos q l = Some i -> q y = true -> find_pos q (<[i := y]> l) = Some i.
Proof.
  revert i. induction l as [|x l IH]; intros i Hi Hy; [done|]. cbn [find_pos] in Hi.
  destruct (q x) eqn:Hx; [simplify_eq; cbn; by rewrite Hy|].
  apply fmap_Some in Hi as (j & Hj & ->). 
  change (find_pos q (<[S j := y]> (x :: l)))
    with (if q x then Some O else S <$> find_pos q (<[j := y]> l)).
  by rewrite Hx, (IH j Hj Hy).
Qed.

Lemma receives_update base id pk w' r index s s' :
  state_index_for_chain_id id r = Some index -> states r !! index = Some s ->
  same_chain s s' -> represents base w' s' -> signing_key_public s = Some pk ->
  receives base id pk w' (set_state index s' r).
Proof.
  intros Hi Hs Hsame Hrep Hpk. destruct (same_chain_facts _ _ Hsame) as [Hc Hp].
  exists index, s'. split; [|split; [|by rewrite Hp]].
  - apply find_pos_insert; [done|]. rewrite Hc.
    apply find_pos_Some in Hi as (x & Hx & Hid & _). congruence.
  - apply list_lookup_insert_eq. by eapply lookup_lt_Some.
Qed.

Lemma group_decrypt_run base id sk w r name i p m b :
  let pk := mkPublicKey (derive_public_key_bytes (sk_bytes sk)) in
  view_sender_key b name = Some r -> receives base id pk w r ->
  is_u32 i -> sent base id sk i p m -> (window_get i w).1 = Deliver ->
  exists b' r', group_decrypt (skm_serialized m) name b = (Ok p, b')
    /\ view_sender_key b' name = Some r' /\ receives base id pk (window_get i w).2 r'.
Proof.
  intros pk Hb (index & s & Hi & Hs & Hrep & Hpk) Hu [(Hf1 & Hf2 & Hf3) Ht Hsig Hcd] Hd.
  destruct (load_run name b) as (b1 & E1 & Hv). rewrite Hb in E1.
  unfold group_decrypt, mbind', mlift. rewrite Ht, E1. cbn [ok_or]. rewrite Hf2, Hi, Hs, Hf1.
  change (negb (3 =? message_version s)) with false. cbv iota. rewrite Hpk. cbn [ok_or].
  fold pk in Hsig. rewrite Hsig. cbn [negb].
  destruct (get_sender_key_refines_lem base w s i Hrep Hu) as [Hkey Hrep'].
  pose proof (get_same_chain i s) as Hsame. rewrite Hf3.
  destruct (get_sender_key i s) as [k s']. cbn [fst snd] in *. rewrite Hd in Hkey. cbn in Hkey. subst k.
  rewrite Hcd. cbn [map_err].
  destruct (store_run name (set_state index s' r) b1 b Hv) as (b2 & E2 & Hv2 & _). rewrite E2.
  exists b2. eexists. split; [done|]. split; [exact Hv2|].
  eapply receives_update; [done..| |done]. apply Hrep'.
  pose proof (window_get_reject i w) as Hj. rewrite Hd in Hj.
  pose proof (wf_next _ _ (rep_wf _ _ _ Hrep)). lia.
Qed.

(** ** Set-up: the distribution message *)

Lemma add_to_empty id it ck pk osk :
  length ck = 32%nat ->
  exists st, state_new id it ck pk osk = Ok st
    /\ add_sender_key_state id it ck pk osk record_new_empty = (Ok tt, mkRecord [st]).
Proof.
  intros Hck. unfold add_sender_key_state, remove_state, record_new_empty. cbn.
  unfold state_new. rewrite Hck. cbn [Nat.eqb]. eexists. by split.
Qed.

Lemma create_run name rid rkey rpair b :
  view_sender_key b name = None -> is_u32 rid -> length rkey = 32%nat -> length rpair = 32%nat ->
  let base := mkChainKey 0 rkey in
  let sk := mkPrivateKey (clamp rpair) in
  let id := Z.shiftr rid 1 in
  exists m b' r, create_sender_key_distribution_message name rid rkey rpair b = (Ok m, b')
    /\ skdm_try_from (skdm_serialized m) = Ok m
    /\ (skdm_chain_id m = id /\ skdm_iteration m = 0 /\ skdm_chain_key m = rkey
        /\ skdm_signing_key m = mkPublicKey (derive_public_key_bytes (sk_bytes sk)))
    /\ view_sender_key b' name = Some r /\ sends base id sk 0 r.
Proof.
  intros Hb Hid Hkey Hpair base sk id.
  assert (is_u32 id) as Hid'.
  { unfold is_u32, id in *. rewrite Z.shiftr_div_pow2 by lia. split; [apply Z.div_pos; lia|].
    apply Z.div_lt_upper_bound; lia. }
  destruct (load_run name b) as (b1 & E1 & Hv). rewrite Hb in E1.
  unfold create_sender_key_distribution_message, mbind', mlift. rewrite E1. fold id.
  cbn [key_pair_generate kp_public kp_private]. fold sk.
  set (pk := mkPublicKey (derive_public_key_bytes (clamp rpair))).
  destruct (add_to_empty id 0 rkey pk (Some sk) Hkey) as (st & Hst & ->).
  destruct (store_run name (mkRecord [st]) b1 b Hv) as (b2 & E2 & Hv2 & _). rewrite E2.
  pose proof (state_new_represents id 0 rkey pk (Some sk) st ltac:(lia) Hst) as Hrep.
  cbn [mret sender_key_state states head ok_or].
  rewrite (rep_chain _ _ _ Hrep). cbn [w_next ok_or].
  assert (length (pk_bytes pk) = 32%nat) as Hpkl by apply derive_public_length.
  unfold state_new in Hst. rewrite Hkey in Hst. cbn [Nat.eqb] in Hst.
  assert (signing_key_public st = Some pk) as ->.
  { simplify_eq. unfold signing_key_public. cbn [sks sender_signing_key spb_public].
    by rewrite public_roundtrip. }
  assert (chain_id st = id) as Hc by (by simplify_eq).
  cbn [ok_or]. rewrite Hc. change (message_version st) with 3. cbn [sck_iteration sck_chain_key chain_at].
  change (chain_iter _ _) with rkey.
  destruct (skdm_roundtrip id 0 rkey pk Hid' ltac:(unfold is_u32; lia) Hkey Hpkl) as (m & Hm & Hf & Ht).
  rewrite Hm. exists m, b2. eexists. split; [done|]. split; [done|]. split; [done|]. split; [exact Hv2|].
  split; [done|]. exists st, []. split; [done|]. split; [done|]. split; [done|].
  simplify_eq. unfold signing_key_private. cbn [sks sender_signing_key spb_private option_map private_serialize sk_bytes].
  rewrite private_roundtrip; [done|by rewrite clamp_length|apply clamp_idemp].
Qed.

Lemma process_run name m b :
  view_sender_key b name = None -> is_u32 (skdm_iteration m) -> length (skdm_chain_key m) = 32%nat ->
  length (pk_bytes (skdm_signing_key m)) = 32%nat ->
  exists b' r, process_sender_key_distribution_message name m b = (Ok tt, b')
    /\ view_sender_key b' name = Some r
    /\ receives (mkChainKey (skdm_iteration m) (skdm_chain_key m)) (skdm_chain_id m) (skdm_signing_key m)
         (mkWindow (skdm_iteration m) []) r.
Proof.
  intros Hb Hit Hck Hpk. destruct (load_run name b) as (b1 & E1 & Hv). rewrite Hb in E1.
  unfold process_sender_key_distribution_message, mbind', mlift. rewrite E1.
  destruct (add_to_empty (skdm_chain_id m) (skdm_iteration m) (skdm_chain_key m) (skdm_signing_key m) None Hck)
    as (st & Hst & ->).
  destruct (store_run name (mkRecord [st]) b1 b Hv) as (b2 & E2 & Hv2 & _). rewrite E2.
  exists b2. eexists. split; [done|]. split; [exact Hv2|].
  pose proof (state_new_represents _ _ _ _ _ _ Hit Hst) as Hrep.
  unfold state_new in Hst. rewrite Hck in Hst. cbn [Nat.eqb] in Hst.
  exists 0%nat, st. split; [|split; [done|split; [done|]]].
  - unfold state_index_for_chain_id. cbn [states find_pos]. simplify_eq.
    unfold chain_id. cbn. by rewrite Z.eqb_refl.
  - simplify_eq. unfold signing_key_public. cbn [sks sender_signing_key spb_public].
    by rewrite public_roundtrip.
Qed.

(** ** Sequences of messages *)

Fixpoint encrypt_all (name : SenderKeyName) (ps : list (bytes * bytes))
    : comp B SignalProtocolError (list SenderKeyMessage) :=
  match ps with
  | [] => mret []
  | (p, rnd) :: ps' =>
      let! m := group_encrypt name p rnd in
      let! ms := encrypt_all name ps' in
      mret (m :: ms)
  end.

(** Every message is tried, whatever became of the ones before. *)
Fixpoint decrypt_all (name : SenderKeyName) (ms : list bytes) (b : B)
    : list (outcome SignalProtocolError bytes) * B :=
  match ms with
  | [] => ([], b)
  | m :: ms' =>
      let '(r, b) := group_decrypt m name b in
      let '(rs, b) := decrypt_all name ms' b in (r :: rs, b)
  end.

Lemma encrypt_all_run base id sk name ps n r b :
  view_sender_key b name = Some r -> sends base id sk n r -> n + Z.of_nat (length ps) < 2 ^ 32 ->
  exists ms b', encrypt_all name ps b = (Ok ms, b') /\ length ms = length ps
    /\ forall k p rnd, ps !! k = Some (p, rnd) ->
         exists m, ms !! k = Some m /\ sent base id sk (n + Z.of_nat k) p m.
Proof.
  revert n r b. induction ps as [|[p rnd] ps IH]; intros n r b Hb Hs Hn; [by exists [], b|].
  cbn [length] in Hn.
  destruct (group_encrypt_run base id sk n r name p rnd b Hb Hs) as (m & b1 & r1 & E1 & Hm & Hb1 & Hs1); [lia|].
  destruct (IH (n + 1) r1 b1 Hb1 Hs1) as (ms & b2 & E2 & Hl & Hms); [lia|].
  cbn [encrypt_all]. unfold mbind'. rewrite E1, E2. exists (m :: ms), b2.
  split; [done|]. split; [cbn; lia|]. intros [|k] q rnd' Hk; cbn [lookup list_lookup] in Hk.
  - simplify_eq. exists m. split; [done|]. by rewrite Z.add_0_r.
  - destruct (Hms k q rnd' Hk) as (m' & Hm' & Hst). exists m'. split; [done|].
    by replace (n + Z.of_nat (S k)) with (n + 1 + Z.of_nat k) by lia.
Qed.

(** [l] lists the iteration, plaintext and message of each delivery. *)
Lemma decrypt_all_run base id sk w r name (l : list (u32 * bytes * SenderKeyMessage)) b :
  let pk := mkPublicKey (derive_public_key_bytes (sk_bytes sk)) in
  view_sender_key b name = Some r -> receives base id pk w r ->
  Forall (fun '(i, p, m) => is_u32 i /\ sent base id sk i p m) l ->
  (window_all (map (fun '(i, _, _) => i) l) w).1 = map (fun '(i, _, _) => Some i) l ->
  exists b', decrypt_all name (map (fun '(_, _, m) => skm_serialized m) l) b
             = (map (fun '(_, p, _) => Ok p) l, b').
Proof.
  intros pk. revert w r b. induction l as [|[[i p] m] l IH]; intros w r b Hb Hr Hl Hw; [by exists b|].
  apply Forall_cons in Hl as [[Hi Hm] Hl]. cbn [map window_all] in Hw.
  destruct (window_get i w) as [v w1] eqn:Ew. destruct (window_all _ w1) as [vs w2] eqn:Ea.
  cbn [fst] in Hw. destruct v; simplify_eq.
  destruct (group_decrypt_run base id sk w r name i p m b Hb Hr Hi Hm) as (b1 & r1 & E1 & Hb1 & Hr1);
    [by rewrite Ew|]. rewrite Ew in Hr1. cbn [snd] in Hr1.
  destruct (IH w1 r1 b1 Hb1 Hr1 Hl) as (b2 & E2); [by rewrite Ea|].
  exists b2. cbn [map decrypt_all]. by rewrite E1, E2.
Qed.

Definition wire (msgs : list SenderKeyMessage) (k : nat) : bytes :=
  match msgs !! k with Some m => skm_serialized m | None => [] end.
Definition plaintext_of (ps : list (bytes * bytes)) (k : nat) : bytes :=
  match ps !! k with Some (p, _) => p | None => [] end.

(** C2: group messaging end to end.  Over stores that do not fail: a sender
    without a record creates a distribution message and encrypts up to 2,000
    messages; a receiver without a record parses the distribution message's
    bytes, processes it, and then decrypts the messages' bytes in any order,
    each at most once, to the plaintexts. *)
Theorem group_end_to_end name rid rkey rpair ps order a b :
  view_sender_key a name = None -> view_sender_key b name = None ->
  is_u32 rid -> length rkey = 32%nat -> length rpair = 32%nat ->
  (length ps <= MAX_MESSAGE_KEYS)%nat ->
  List.NoDup order -> Forall (fun k => (k < length ps)%nat) order ->
  exists skdm a1 msgs a2 b1 b2,
    create_sender_key_distribution_message name rid rkey rpair a = (Ok skdm, a1)
    /\ encrypt_all name ps a1 = (Ok msgs, a2) /\ length msgs = length ps
    /\ skdm_try_from (skdm_serialized skdm) = Ok skdm
    /\ process_sender_key_distribution_message name skdm b = (Ok tt, b1)
    /\ decrypt_all name (map (wire msgs) order) b1 = (map (fun k => Ok (plaintext_of ps k)) order, b2).
Proof.
  intros Ha Hb Hrid Hkey Hpair Hps Hnd Hord.
  destruct (create_run name rid rkey rpair a Ha Hrid Hkey Hpair)
    as (skdm & a1 & ra & E1 & Ht & (Hid & Hit & Hck & Hsk) & Hva & Hsends).
  destruct (encrypt_all_run _ _ _ name ps 0 ra a1 Hva Hsends) as (msgs & a2 & E2 & Hlen & Hsent).
  { unfold MAX_MESSAGE_KEYS in *. lia. }
  destruct (process_run name skdm b Hb) as (b1 & rb & E3 & Hvb & Hrec).
  { rewrite Hit. unfold is_u32. lia. }
  { by rewrite Hck. }
  { rewrite Hsk. apply derive_public_length. }
  rewrite Hit, Hck, Hid, Hsk in Hrec.
  (* the deliveries, with what was sent *)
  set (l := map (fun k => (Z.of_nat k, plaintext_of ps k, default (mkSkm 0 0 0 [] []) (msgs !! k))) order).
  destruct (decrypt_all_run _ _ _ _ rb name l b1 Hvb Hrec) as (b2 & E4).
  - apply Forall_map. eapply Forall_impl; [exact Hord|]. intros k Hk.
    destruct (lookup_lt_is_Some_2 ps k Hk) as [[p rnd] Hp].
    destruct (Hsent k p rnd Hp) as (m & Hm & Hst). cbn. rewrite Hm. unfold plaintext_of. rewrite Hp.
    split; [unfold is_u32, MAX_MESSAGE_KEYS in *; lia|exact Hst].
  - unfold l. rewrite !map_map.
    rewrite (window_all_open 0 (Z.of_nat MAX_MESSAGE_KEYS)); [by rewrite map_map|..].
    + split; cbn; [lia|lia|constructor|constructor|lia].
    + cbn. lia.
    + lia.
    + unfold MAX_MESSAGE_KEYS. lia.
    + apply Finite.Injective_map_NoDup; [|done]. intros x y. lia.
    + apply Forall_map. eapply Forall_impl; [exact Hord|]. intros k Hk. cbn beta in *.
      split; [lia|]. left. cbn [w_next]. lia.
  - exists skdm, a1, msgs, a2, b1, b2. repeat (split; [done|]).
    unfold l in E4. rewrite !map_map in E4. rewrite <- E4. f_equal.
    apply map_ext_Forall. eapply Forall_impl; [exact Hord|]. intros k Hk. cbn beta in Hk. unfold wire.
    destruct (lookup_lt_is_Some_2 msgs k ltac:(lia)) as [m Hm]. by rewrite Hm.
Qed.

Lemma load_unchanged n b o b1 :
  load_sender_key n b = (o, b1) -> forall n', view_sender_key b1 n' = view_sender_key b n'.
Proof. intros E n'. change b1 with (o, b1).2. rewrite <- E. apply load_view. Qed.

(** what a decryption has checked.  When [group_decrypt] returns a
    plaintext, the message parsed, the record holds a state for its chain id,
    the last 64 bytes are a valid signature of the rest under that state's
    signing key, the plaintext is the decryption under the key the ratchet
    gave for the message's iteration, and exactly the advanced state is
    stored.  When it does not, nothing is stored: every entry is as before. *)
Theorem group_decrypt_authentic name value b :
  match group_decrypt value name b with
  | (Ok p, b') =>
      exists m r index s pk k s',
        skm_try_from value = Ok m /\ view_sender_key b name = Some r
        /\ state_index_for_chain_id (skm_chain_id m) r = Some index /\ states r !! index = Some s
        /\ signing_key_public s = Some pk
        /\ verify_signature pk (take (length value - SIGNATURE_LEN) value)
             (drop (length value - SIGNATURE_LEN) value) = true
        /\ get_sender_key (skm_iteration m) s = (Ok k, s')
        /\ aes_256_cbc_decrypt_into (skm_ciphertext m) (smk_cipher_key k) (smk_iv k) [] = (Ok tt, p)
        /\ forall n, view_sender_key b' n
             = if decide (name = n) then Some (set_state index s' r) else view_sender_key b n
  | (_, b') => forall n, view_sender_key b' n = view_sender_key b n
  end.
Proof.
  unfold group_decrypt, mbind', mlift.
  destruct (skm_try_from value) as [m|e| |] eqn:Ht; [|done..].
  assert (skm_serialized m = value) as Hser.
  { unfold skm_try_from in Ht. destruct (_ <? _)%nat; [done|]. destruct value as [|f v]; [done|].
    unfold obind in Ht. repeat (case_match; try discriminate). by simplify_eq. }
  destruct (load_sender_key name b) as [[o|e| |] b1] eqn:El; try by apply (load_unchanged name b _ _ El).
  pose proof (load_unchanged name b _ _ El) as Hv. apply load_ok in El. subst o.
  destruct (view_sender_key b name) as [r|] eqn:Er; cbn [ok_or]; [|done].
  destruct (state_index_for_chain_id (skm_chain_id m) r) as [index|] eqn:Ei; [|done].
  destruct (states r !! index) as [s|] eqn:Es; [|done].
  destruct (negb _); [done|].
  destruct (signing_key_public s) as [pk|] eqn:Ep; cbn [ok_or]; [|done].
  unfold skm_verify_signature. rewrite Hser. destruct (_ <? _)%nat; [done|].
  destruct (verify_signature pk _ _) eqn:Ev; cbn [negb]; [|done].
  destruct (get_sender_key (skm_iteration m) s) as [[k|e| |] s'] eqn:Eg; [|done..].
  destruct (aes_256_cbc_decrypt_into _ _ _ _) as [[[]|e| |] p] eqn:Ed; cbn [map_err]; [|done..].
  destruct (store_returns name (set_state index s' r) b1) as (b2 & E2). rewrite E2.
  exists m, r, index, s, pk, k, s'. repeat (split; [done|]). intros n.
  rewrite (store_ok _ _ _ _ E2). case_decide; [done|]. apply Hv.
Qed.
End Steps.

(** ** Stand-ins and witnesses *)

(** The curve operations of the library over the stand-in group. *)
Definition toy_curve : Curve25519 := @curve25519_impl toy_hashes toy_dalek.

(** Numbers as they are, bytes fields after their lengths. *)
Definition toy_skm_encode (m : SenderKeyMessagePb) : bytes :=
  match m with
  | mkSkmPb (Some id) (Some it) (Some c) => id :: it :: c
  | _ => []
  end.
Definition toy_skm_decode (b : bytes) : option SenderKeyMessagePb :=
  match b with
  | id :: it :: c => Some (mkSkmPb (Some id) (Some it) (Some c))
  | _ => None
  end.
Definition toy_skdm_encode (m : SenderKeyDistributionMessagePb) : bytes :=
  let num := fun o => match o with Some v => v | None => -1 end in
  let bs := fun o => match o with Some v => v | None => [] end in
  [num (skdmpb_id m); num (skdmpb_iteration m); Z.of_nat (length (bs (skdmpb_chain_key m)))]
  ++ bs (skdmpb_chain_key m) ++ bs (skdmpb_signing_key m).
Definition toy_skdm_decode (b : bytes) : option SenderKeyDistributionMessagePb :=
  match b with
  | id :: it :: n :: r =>
      Some (mkSkdmPb (Some id) (Some it) (Some (take (Z.to_nat n) r)) (Some (drop (Z.to_nat n) r)))
  | _ => None
  end.

Lemma toy_skdm_roundtrip id it ck sk : is_u32 id -> is_u32 it ->
  toy_skdm_decode (toy_skdm_encode (mkSkdmPb (Some id) (Some it) (Some ck) (Some sk)))
  = Some (mkSkdmPb (Some id) (Some it) (Some ck) (Some sk)).
Proof. intros _ _. cbn. by rewrite Nat2Z.id, take_app_length, drop_app_length. Qed.

Lemma toy_skdm_length id it ck sk :
  (length ck + length sk <= length (toy_skdm_encode (mkSkdmPb id it (Some ck) (Some sk))))%nat.
Proof. cbn. rewrite length_app. lia. Qed.

Definition toy_proto : SenderKeyProto := {|
  skm_encode := toy_skm_encode; skm_decode := toy_skm_decode;
  skm_decode_encode id it c _ _ := eq_refl;
  skdm_encode := toy_skdm_encode; skdm_decode := toy_skdm_decode;
  skdm_decode_encode := toy_skdm_roundtrip; skdm_encode_length := toy_skdm_length |}.

(** An in-memory store. *)
Definition mem_store : Type := SenderKeyName -> option SenderKeyRecord.

Definition toy_store : SenderKeyStore mem_store.
Proof.
  refine {| view_sender_key b n := b n;
            load_sender_key n b := (Ok (b n), b);
            store_sender_key n r b := (Ok tt, fun n' => if decide (n = n') then Some r else b n') |}.
  - by intros n b r b' [= <- <-].
  - done.
  - by intros n r b b' [= <-].
Defined.

Definition toy_reliable : @ReliableStore mem_store toy_store.
Proof. split; eauto. Defined.

Lemma group_end_to_end_witness :
  let name := mkSenderKeyName (lit "g") (lit "s") in
  let ps := [([1; 2; 3], []); ([4], []); ([], [])] in
  let empty : mem_store := fun _ => None in
  exists skdm a1 msgs a2 b1 b2,
    @create_sender_key_distribution_message toy_curve toy_proto mem_store toy_store
      name 9 (replicate 32 1) (replicate 32 2) empty = (Ok skdm, a1)
    /\ @encrypt_all toy_hkdf toy_hashes toy_aes toy_curve toy_proto mem_store toy_store name ps a1
       = (Ok msgs, a2) /\ length msgs = 3%nat
    /\ @skdm_try_from toy_proto (skdm_serialized skdm) = Ok skdm
    /\ @process_sender_key_distribution_message mem_store toy_store name skdm empty = (Ok tt, b1)
    /\ @decrypt_all toy_hkdf toy_hashes toy_aes toy_curve toy_proto mem_store toy_store name
         (map (wire msgs) [2; 0; 1]%nat) b1
       = (map (fun k => Ok (plaintext_of ps k)) [2; 0; 1]%nat, b2).
Proof.
  intros name ps empty.
  apply (@group_end_to_end toy_hkdf toy_hashes toy_aes toy_curve toy_proto mem_store toy_store toy_reliable
           name 9 (replicate 32 1) (replicate 32 2) ps [2; 0; 1]%nat empty empty);
    [reflexivity|reflexivity|unfold is_u32; lia|reflexivity|reflexivity
    |unfold MAX_MESSAGE_KEYS; cbn; lia|repeat constructor; cbn; lia|repeat constructor; cbn; lia].
Defined.

Definition toy_name : SenderKeyName := mkSenderKeyName (lit "g") (lit "s").

(** A message on the wire, and the receiver's store that can read it. *)
Definition toy_sent : bytes * mem_store :=
  let empty : mem_store := fun _ => None in
  let '(o, a1) := @create_sender_key_distribution_message toy_curve toy_proto mem_store toy_store
                    toy_name 9 (replicate 32 1) (replicate 32 2) empty in
  match o with
  | Ok skdm =>
      let '(o, _) := @group_encrypt toy_hkdf toy_hashes toy_aes toy_curve toy_proto mem_store toy_store
                       toy_name [1; 2; 3] [] a1 in
      let '(_, b) := @process_sender_key_distribution_message mem_store toy_store toy_name skdm empty in
      (match o with Ok m => skm_serialized m | _ => [] end, b)
  | _ => ([], empty)
  end.

Lemma group_decrypt_authentic_witness :
  exists pk, @verify_signature toy_curve pk (take (length toy_sent.1 - SIGNATURE_LEN) toy_sent.1)
               (drop (length toy_sent.1 - SIGNATURE_LEN) toy_sent.1) = true.
Proof.
  pose proof (@group_decrypt_authentic toy_hkdf toy_hashes toy_aes toy_curve toy_proto mem_store
                toy_store toy_reliable toy_name toy_sent.1 toy_sent.2) as H.
  destruct (@group_decrypt toy_hkdf toy_hashes toy_aes toy_curve toy_proto mem_store toy_store
              toy_sent.1 toy_name toy_sent.2) as [o b'] eqn:E.
  assert (o = Ok [1; 2; 3]) as ->.
  { change o with (o, b').1. rewrite <- E. vm_compute. reflexivity. }
  destruct H as (m & r & index & s & pk & k & s' & _ & _ & _ & _ & _ & Hv & _). by exists pk.
Defined.
