(* ===== verification/Session.v ===== *)
(** * Pairwise sessions: [protocol/ratchet.rs], [ratchet/{keys,params}.rs],
    [protocol/state/session.rs], [protocol/identity_key.rs]

    The key derivations of the double ratchet, the session state with its
    sending chain and receiving chains, the session record with its archived
    states, and the two sides of the X3DH key agreement.  The theorems about
    them are in [SessionRatchet]. *)

From S2P Require Import Prelude RustStd Crypto Curve.

(** ** Identity keys *)

Definition IdentityKey : Type := PublicKey.
Definition identity_decode (value : bytes) : outcome SignalProtocolError IdentityKey :=
  map_err from_curve_error (public_deserialize value).

Record IdentityKeyPair := mkIdentityKeyPair { ikp_identity_key : IdentityKey; ikp_private_key : PrivateKey }.

(** ** [ratchet/keys.rs] *)

Record ChainKeyPb := mkChainKeyPb { ckpb_index : option u32; ckpb_key : option bytes }.
Record MessageKeyPb := mkMessageKeyPb {
  mkpb_index : option u32; mkpb_cipher_key : option bytes;
  mkpb_mac_key : option bytes; mkpb_iv : option bytes
}.

Record MessageKeys := mkMessageKeys {
  mk_cipher_key : bytes; mk_mac_key : bytes; mk_iv : bytes; mk_counter : u32
}.

Inductive MessageKeyGenerator :=
| Gen_Keys (k : MessageKeys)
| Gen_Seed (seed : bytes) (counter : u32).

Record ChainKey := mkChain { ck_key : bytes; ck_index : u32 }.
Record RootKey := mkRoot { rk_key : bytes }.

Definition CK_MESSAGE_KEY_SEED : bytes := [1].
Definition CK_CHAIN_KEY_SEED : bytes := [2].

(** [InvalidSessionError], converted *)
Definition invalid_session (msg : string) : SignalProtocolError := InvalidSessionStructure (lit msg).

(** A slice of exactly [n] bytes, as [try_into] an array demands. *)
Definition to_array {E} (n : nat) (e : E) (b : bytes) : outcome E bytes :=
  if (length b =? n)%nat then Ok b else Err e.

Section Keys.
Context `{HK : !Hkdf, HS : !Hashes}.

Definition mk_derive_keys (input_key_material : bytes) (optional_salt : option bytes) (counter : u32)
    : MessageKeys :=
  let okm := hkdf optional_salt input_key_material (lit "WhisperMessageKeys") 80 in
  mkMessageKeys (slice 0 32 okm) (slice 32 64 okm) (slice 64 80 okm) counter.

Definition generate_keys (g : MessageKeyGenerator) : MessageKeys :=
  match g with
  | Gen_Seed seed counter => mk_derive_keys seed None counter
  | Gen_Keys k => k
  end.

Definition gen_into_pb (g : MessageKeyGenerator) : MessageKeyPb :=
  let keys := generate_keys g in
  mkMessageKeyPb (Some (mk_counter keys)) (Some (mk_cipher_key keys)) (Some (mk_mac_key keys))
    (Some (mk_iv keys)).

Definition gen_from_pb (pb : MessageKeyPb) : outcome SignalProtocolError MessageKeyGenerator :=
  let? c := ok_or (invalid_session "missing cipher key") (mkpb_cipher_key pb) in
  let? c := to_array 32 (invalid_session "invalid message cipher key") c in
  let? m := ok_or (invalid_session "missing mac key") (mkpb_mac_key pb) in
  let? m := to_array 32 (invalid_session "invalid message MAC key") m in
  let? iv := ok_or (invalid_session "missing iv") (mkpb_iv pb) in
  let? iv := to_array 16 (invalid_session "invalid message IV") iv in
  Ok (Gen_Keys (mkMessageKeys c m iv (match mkpb_index pb with Some i => i | None => 0 end))).

Definition calculate_base_material (k : ChainKey) (seed : bytes) : bytes := hmac_sha256 (ck_key k) seed.

(** The release profile does not check the addition. *)
Definition next_chain_key (k : ChainKey) : ChainKey :=
  mkChain (calculate_base_material k CK_CHAIN_KEY_SEED) (wrap 32 (ck_index k + 1)).

Definition message_keys (k : ChainKey) : MessageKeyGenerator :=
  Gen_Seed (calculate_base_material k CK_MESSAGE_KEY_SEED) (ck_index k).

Definition create_chain `{!Curve25519} (r : RootKey) (their_ratchet_key : PublicKey)
    (our_ratchet_key : PrivateKey) : outcome SignalProtocolError (RootKey * ChainKey) :=
  let? shared_secret := map_err from_curve_error (calculate_agreement our_ratchet_key their_ratchet_key) in
  let derived := hkdf (Some (rk_key r)) shared_secret (lit "WhisperRatchet") 64 in
  Ok (mkRoot (slice 0 32 derived), mkChain (slice 32 64 derived) 0).

(** [ratchet.rs]: the third key is for a post-quantum ratchet that is not used. *)
Definition derive_keys_with_label (label secret_input : bytes) : RootKey * ChainKey * bytes :=
  let secrets := hkdf None secret_input label 96 in
  (mkRoot (slice 0 32 secrets), mkChain (slice 32 64 secrets) 0, slice 64 96 secrets).
Definition derive_keys (secret_input : bytes) : RootKey * ChainKey * bytes :=
  derive_keys_with_label (lit "WhisperText") secret_input.
End Keys.

(** ** [SessionStructure] *)

Record Chain := mkChainPb {
  ch_sender_ratchet_key : option bytes;
  ch_sender_ratchet_key_private : option bytes;
  ch_chain_key : option ChainKeyPb;
  ch_message_keys : list MessageKeyPb
}.

Record PendingPreKey := mkPendingPreKey {
  pp_pre_key_id : option u32; pp_signed_pre_key_id : option i32; pp_base_key : option bytes
}.

Record PendingKeyExchange := mkPendingKeyExchange {
  pke_sequence : option u32;
  pke_local_base_key : option bytes; pke_local_base_key_private : option bytes;
  pke_local_ratchet_key : option bytes; pke_local_ratchet_key_private : option bytes;
  pke_local_identity_key : option bytes; pke_local_identity_key_private : option bytes
}.

(** The fields the ratchet changes, and the ones set at creation. *)
Record SessionFixed := mkSessionFixed {
  session_version_pb : option u32;
  local_identity_public : option bytes;
  remote_identity_public : option bytes;
  alice_base_key_pb : option bytes;
  needs_refresh : option bool;
  pending_key_exchange : option PendingKeyExchange
}.
Record SessionState := mkSession {
  fixed : SessionFixed;
  root_key_pb : option bytes;
  previous_counter_pb : option u32;
  sender_chain : option Chain;
  receiver_chains : list Chain;
  pending_pre_key : option PendingPreKey;
  remote_registration_id_pb : option u32;
  local_registration_id_pb : option u32
}.

Definition upd_root_key v s := mkSession (fixed s) v (previous_counter_pb s) (sender_chain s)
  (receiver_chains s) (pending_pre_key s) (remote_registration_id_pb s) (local_registration_id_pb s).
Definition upd_previous_counter v s := mkSession (fixed s) (root_key_pb s) v (sender_chain s)
  (receiver_chains s) (pending_pre_key s) (remote_registration_id_pb s) (local_registration_id_pb s).
Definition upd_sender_chain v s := mkSession (fixed s) (root_key_pb s) (previous_counter_pb s) v
  (receiver_chains s) (pending_pre_key s) (remote_registration_id_pb s) (local_registration_id_pb s).
Definition upd_receiver_chains v s := mkSession (fixed s) (root_key_pb s) (previous_counter_pb s)
  (sender_chain s) v (pending_pre_key s) (remote_registration_id_pb s) (local_registration_id_pb s).
Definition upd_pending_pre_key v s := mkSession (fixed s) (root_key_pb s) (previous_counter_pb s)
  (sender_chain s) (receiver_chains s) v (remote_registration_id_pb s) (local_registration_id_pb s).

Definition some_or {A} (d : A) (o : option A) : A := match o with Some a => a | None => d end.

(** ** [impl SessionState] *)

Definition session_new (version : u8) (our_identity their_identity : IdentityKey) (root : RootKey)
    (alice_base_key : PublicKey) : SessionState :=
  mkSession
    (mkSessionFixed (Some version) (Some (public_serialize our_identity))
       (Some (public_serialize their_identity)) (Some (public_serialize alice_base_key)) None None)
    (Some (rk_key root)) (Some 0) None [] None (Some 0) (Some 0).

Definition alice_base_key (s : SessionState) : bytes := some_or [] (alice_base_key_pb (fixed s)).

Definition session_version (s : SessionState) : u32 :=
  let v := some_or 0 (session_version_pb (fixed s)) in if v =? 0 then 2 else v.

Definition remote_identity_key (s : SessionState) : outcome SignalProtocolError (option IdentityKey) :=
  let bytes := some_or [] (remote_identity_public (fixed s)) in
  match bytes with
  | [] => Ok None
  | _ => let? k := map_err (fun _ => invalid_session "invalid remote identity key") (identity_decode bytes) in
         Ok (Some k)
  end.
Definition remote_identity_key_bytes (s : SessionState) : outcome SignalProtocolError (option bytes) :=
  let? k := remote_identity_key s in Ok (option_map public_serialize k).

Definition local_identity_key (s : SessionState) : outcome SignalProtocolError IdentityKey :=
  map_err (fun _ => invalid_session "invalid local identity key")
    (identity_decode (some_or [] (local_identity_public (fixed s)))).
Definition local_identity_key_bytes (s : SessionState) : outcome SignalProtocolError bytes :=
  let? k := local_identity_key s in Ok (public_serialize k).

Definition session_with_self (s : SessionState) : outcome SignalProtocolError bool :=
  let? remote := remote_identity_key_bytes s in
  match remote with
  | Some remote_id => let? local_id := local_identity_key_bytes s in Ok (remote_id =s local_id)
  | None => Ok false
  end.

Definition previous_counter (s : SessionState) : u32 := some_or 0 (previous_counter_pb s).
Definition set_previous_counter (ctr : u32) (s : SessionState) : SessionState :=
  upd_previous_counter (Some ctr) s.

Definition root_key (s : SessionState) : outcome SignalProtocolError RootKey :=
  let? b := to_array 32 (invalid_session "invalid root key") (some_or [] (root_key_pb s)) in Ok (mkRoot b).
Definition set_root_key (r : RootKey) (s : SessionState) : SessionState := upd_root_key (Some (rk_key r)) s.

Definition sender_ratchet_key (s : SessionState) : outcome SignalProtocolError PublicKey :=
  match sender_chain s with
  | None => Err (invalid_session "missing sender chain")
  | Some c =>
      let? b := ok_or (invalid_session "missing sender ratchet key") (ch_sender_ratchet_key c) in
      map_err (fun _ => invalid_session "invalid sender chain ratchet key") (public_deserialize b)
  end.

Definition sender_ratchet_private_key `{!Curve25519} (s : SessionState) : outcome SignalProtocolError PrivateKey :=
  match sender_chain s with
  | None => Err (invalid_session "missing sender chain")
  | Some c =>
      let? b := ok_or (invalid_session "missing sender ratchet private key") (ch_sender_ratchet_key_private c) in
      map_err (fun _ => invalid_session "invalid sender chain private ratchet key") (private_deserialize b)
  end.

Definition has_usable_sender_chain (s : SessionState) : bool :=
  match sender_chain s with None => false | Some _ => true end.

(** The search stops at the first malformed chain. *)
Fixpoint receiver_chain_index_from (i : nat) (chains : list Chain) (sender : PublicKey)
    : outcome SignalProtocolError (option nat) :=
  match chains with
  | [] => Ok None
  | c :: rest =>
      let? b := ok_or (invalid_session "missing receiver chain ratchet key") (ch_sender_ratchet_key c) in
      let? k := map_err (fun _ => invalid_session "invalid receiver chain ratchet key") (public_deserialize b) in
      if public_eq k sender then Ok (Some i) else receiver_chain_index_from (S i) rest sender
  end.
Definition get_receiver_chain_index (sender : PublicKey) (s : SessionState)
    : outcome SignalProtocolError (option nat) :=
  receiver_chain_index_from 0 (receiver_chains s) sender.

Definition get_receiver_chain (sender : PublicKey) (s : SessionState)
    : outcome SignalProtocolError (option (Chain * nat)) :=
  let? i := get_receiver_chain_index sender s in
  match i with
  | Some idx => match receiver_chains s !! idx with Some c => Ok (Some (c, idx)) | None => Panic end
  | None => Ok None
  end.

(** The ratchet key and the index of each receiving chain. *)
Definition all_receiver_chain_logging_info (s : SessionState) : list (bytes * option u32) :=
  map (fun c => (some_or [] (ch_sender_ratchet_key c),
                 match ch_chain_key c with Some k => ckpb_index k | None => None end)) (receiver_chains s).

Definition chain_key_from_pb (what : string) (c : option ChainKeyPb) : outcome SignalProtocolError ChainKey :=
  let? c := ok_or (invalid_session ("missing " ++ what ++ " chain key")) c in
  let? b := ok_or (invalid_session ("missing " ++ what ++ " chain key bytes")) (ckpb_key c) in
  let? b := to_array 32 (invalid_session ("invalid " ++ what ++ " chain key")) b in
  let? i := ok_or (invalid_session ("missing " ++ what ++ " chain key index")) (ckpb_index c) in
  Ok (mkChain b i).
Definition chain_key_pb (k : ChainKey) : ChainKeyPb := mkChainKeyPb (Some (ck_index k)) (Some (ck_key k)).

Definition get_receiver_chain_key (sender : PublicKey) (s : SessionState)
    : outcome SignalProtocolError (option ChainKey) :=
  let? i := get_receiver_chain_index sender s in
  match i with
  | None => Ok None
  | Some idx =>
      match receiver_chains s !! idx with
      | None => Panic
      | Some c => let? k := chain_key_from_pb "receiver" (ch_chain_key c) in Ok (Some k)
      end
  end.

Definition add_receiver_chain (sender : PublicKey) (k : ChainKey) (s : SessionState) : SessionState :=
  let chains := receiver_chains s
    ++ [mkChainPb (Some (public_serialize sender)) (Some []) (Some (chain_key_pb k)) []] in
  upd_receiver_chains (if (MAX_RECEIVER_CHAINS <? length chains)%nat then drop 1 chains else chains) s.

Definition set_sender_chain (sender : KeyPair) (k : ChainKey) (s : SessionState) : SessionState :=
  upd_sender_chain (Some (mkChainPb (Some (public_serialize (kp_public sender)))
    (Some (private_serialize (kp_private sender))) (Some (chain_key_pb k)) [])) s.

Definition get_sender_chain_key (s : SessionState) : outcome SignalProtocolError ChainKey :=
  let? c := ok_or (invalid_session "missing sender chain") (sender_chain s) in
  chain_key_from_pb "sender" (ch_chain_key c).

Definition get_sender_chain_key_bytes (s : SessionState) : outcome SignalProtocolError bytes :=
  let? k := get_sender_chain_key s in Ok (ck_key k).

Definition session_set_sender_chain_key (k : ChainKey) (s : SessionState) : SessionState :=
  upd_sender_chain (Some match sender_chain s with
    | None => mkChainPb (Some []) (Some []) (Some (chain_key_pb k)) []
    | Some c => mkChainPb (ch_sender_ratchet_key c) (ch_sender_ratchet_key_private c)
                  (Some (chain_key_pb k)) (ch_message_keys c)
    end) s.

(** Replace the chain at an index. *)
Definition set_chain (i : nat) (c : Chain) (s : SessionState) : SessionState :=
  upd_receiver_chains (<[i := c]> (receiver_chains s)) s.

(** A key without an index before the one looked for is an error. *)
Fixpoint message_key_position (i : nat) (keys : list MessageKeyPb) (counter : u32)
    : outcome SignalProtocolError (option nat) :=
  match keys with
  | [] => Ok None
  | m :: rest =>
      let? idx := ok_or (invalid_session "missing message key index") (mkpb_index m) in
      if idx =? counter then Ok (Some i) else message_key_position (S i) rest counter
  end.

Definition get_message_keys (sender : PublicKey) (counter : u32)
    : comp SessionState SignalProtocolError (option MessageKeyGenerator) :=
  fun s =>
    (let! oidx := mlift (get_receiver_chain_index sender s) in
     match oidx with
     | None => mret None
     | Some chain_idx =>
         match receiver_chains s !! chain_idx with
         | None => mpanic
         | Some chain =>
             let! opos := mlift (message_key_position 0 (ch_message_keys chain) counter) in
             match opos with
             | None => mret None
             | Some position =>
                 match ch_message_keys chain !! position with
                 | None => mpanic
                 | Some message_key =>
                     fun s =>
                       let s := set_chain chain_idx
                         (mkChainPb (ch_sender_ratchet_key chain) (ch_sender_ratchet_key_private chain)
                            (ch_chain_key chain) (delete position (ch_message_keys chain))) s in
                       (let? keys := gen_from_pb message_key in Ok (Some keys), s)
                 end
             end
         end
     end) s.

(** [expect]s the chain to be there. *)
Definition set_message_keys `{!Hkdf} (sender : PublicKey) (g : MessageKeyGenerator)
    : comp SessionState SignalProtocolError unit :=
  fun s =>
    (let! oidx := mlift (get_receiver_chain_index sender s) in
     match oidx with
     | None => mpanic
     | Some chain_idx =>
         match receiver_chains s !! chain_idx with
         | None => mpanic
         | Some chain =>
             let keys := gen_into_pb g :: ch_message_keys chain in
             let keys := if (MAX_MESSAGE_KEYS <? length keys)%nat then removelast keys else keys in
             fun s => (Ok tt, set_chain chain_idx
               (mkChainPb (ch_sender_ratchet_key chain) (ch_sender_ratchet_key_private chain)
                  (ch_chain_key chain) keys) s)
         end
     end) s.

Definition set_receiver_chain_key (sender : PublicKey) (k : ChainKey)
    : comp SessionState SignalProtocolError unit :=
  fun s =>
    (let! oidx := mlift (get_receiver_chain_index sender s) in
     match oidx with
     | None => mpanic
     | Some chain_idx =>
         match receiver_chains s !! chain_idx with
         | None => mpanic
         | Some chain =>
             fun s => (Ok tt, set_chain chain_idx
               (mkChainPb (ch_sender_ratchet_key chain) (ch_sender_ratchet_key_private chain)
                  (Some (chain_key_pb k)) (ch_message_keys chain)) s)
         end
     end) s.

Record UnacknowledgedPreKeyMessageItems := mkUnacked {
  ua_pre_key_id : option u32; ua_signed_pre_key_id : u32; ua_base_key : PublicKey
}.

(** [as i32] and [as u32] *)
Definition as_i32 (v : u32) : i32 := if v <? 2 ^ 31 then v else v - 2 ^ 32.

Definition set_unacknowledged_pre_key_message (pre_key_id : option u32) (signed_ec_pre_key_id : u32)
    (base_key : PublicKey) (s : SessionState) : SessionState :=
  upd_pending_pre_key (Some (mkPendingPreKey pre_key_id (Some (as_i32 signed_ec_pre_key_id))
    (Some (public_serialize base_key)))) s.

Definition unacknowledged_pre_key_message_items (s : SessionState)
    : outcome SignalProtocolError (option UnacknowledgedPreKeyMessageItems) :=
  match pending_pre_key s with
  | Some p =>
      let? b := ok_or (invalid_session "missing base key") (pp_base_key p) in
      let? k := map_err (fun _ => invalid_session "invalid pending PreKey message base key")
                  (public_deserialize b) in
      Ok (Some (mkUnacked (pp_pre_key_id p) (wrap 32 (some_or 0 (pp_signed_pre_key_id p))) k))
  | None => Ok None
  end.

Definition clear_unacknowledged_pre_key_message (s : SessionState) : SessionState := upd_pending_pre_key None s.

Definition local_registration_id (s : SessionState) : u32 := some_or 0 (local_registration_id_pb s).
Definition remote_registration_id (s : SessionState) : u32 := some_or 0 (remote_registration_id_pb s).
Definition set_local_registration_id (v : u32) (s : SessionState) : SessionState :=
  mkSession (fixed s) (root_key_pb s) (previous_counter_pb s) (sender_chain s) (receiver_chains s)
    (pending_pre_key s) (remote_registration_id_pb s) (Some v).
Definition set_remote_registration_id (v : u32) (s : SessionState) : SessionState :=
  mkSession (fixed s) (root_key_pb s) (previous_counter_pb s) (sender_chain s) (receiver_chains s)
    (pending_pre_key s) (Some v) (local_registration_id_pb s).

(** ** [SessionRecord] *)

Record SessionRecord := mkSessionRecord {
  current_session : option SessionState;
  previous_sessions : list SessionState
}.

Definition session_record_new_fresh : SessionRecord := mkSessionRecord None [].
Definition session_record_new (s : SessionState) : SessionRecord := mkSessionRecord (Some s) [].

(** [RecordStructure::decode] is the parameter; the archive is pruned. *)
Definition session_record_deserialize
    (decode : bytes -> option (option SessionState * list SessionState)) (b : bytes)
    : outcome SignalProtocolError SessionRecord :=
  match decode b with
  | Some (cur, prev) => Ok (mkSessionRecord cur (take ARCHIVED_STATES_MAX_LENGTH prev))
  | None => Err (invalid_session "failed to decode session record protobuf")
  end.
Definition session_record_serialize
    (encode : option SessionState * list SessionState -> bytes) (r : SessionRecord) : bytes :=
  encode (current_session r, previous_sessions r).

Definition archive_current_state_inner (r : SessionRecord) : bool * SessionRecord :=
  match current_session r with
  | Some cur =>
      let prev := previous_sessions r in
      let prev := if (ARCHIVED_STATES_MAX_LENGTH <=? length prev)%nat then removelast prev else prev in
      (true, mkSessionRecord None (clear_unacknowledged_pre_key_message cur :: prev))
  | None => (false, r)
  end.
Definition archive_current_state (r : SessionRecord) : SessionRecord := (archive_current_state_inner r).2.

Definition promote_state (new_state : SessionState) (r : SessionRecord) : SessionRecord :=
  mkSessionRecord (Some new_state) (previous_sessions (archive_current_state_inner r).2).

(** [Vec::remove] panics out of range; the callers pass an index they found. *)
Definition promote_old_session {E} (i : nat) (updated : SessionState) (r : SessionRecord) : outcome E SessionRecord :=
  if (i <? length (previous_sessions r))%nat
  then Ok (promote_state updated (mkSessionRecord (current_session r) (delete i (previous_sessions r))))
  else Panic.

Definition state_is (version : u32) (base_key : bytes) (s : SessionState) : bool :=
  (session_version s =? version) && (base_key =s alice_base_key s).

Definition promote_matching_session {E} (version : u32) (base_key : bytes) (r : SessionRecord)
    : outcome E (bool * SessionRecord) :=
  if match current_session r with Some cur => state_is version base_key cur | None => false end
  then Ok (true, r)
  else
    match find_pos (state_is version base_key) (previous_sessions r) with
    | Some i =>
        match previous_sessions r !! i with
        | Some st => let? r' := promote_old_session i st r in Ok (true, r')
        | None => Panic
        end
    | None => Ok (false, r)
    end.

Definition take_session_state (r : SessionRecord) : option SessionState * SessionRecord :=
  (current_session r, mkSessionRecord None (previous_sessions r)).
Definition set_session_state (s : SessionState) (r : SessionRecord) : SessionRecord :=
  mkSessionRecord (Some s) (previous_sessions r).

Definition take_previous_session (index : nat) (r : SessionRecord) : option SessionState * SessionRecord :=
  match previous_sessions r !! index with
  | Some st => (Some st, mkSessionRecord (current_session r) (delete index (previous_sessions r)))
  | None => (None, r)
  end.
(** Out of range, the state goes to the end. *)
Definition restore_previous_session (index : nat) (st : SessionState) (r : SessionRecord) : SessionRecord :=
  let prev := previous_sessions r in
  mkSessionRecord (current_session r)
    (if (index <=? length prev)%nat then take index prev ++ st :: drop index prev else prev ++ [st]).

(** The questions a record answers about its current state. *)
Definition record_current (func : string) (r : SessionRecord) : outcome SignalProtocolError SessionState :=
  ok_or (InvalidState (lit func) (lit "No current session")) (current_session r).
Definition record_remote_registration_id (r : SessionRecord) : outcome SignalProtocolError u32 :=
  let? s := record_current "remote_registration_id" r in Ok (remote_registration_id s).
Definition record_local_registration_id (r : SessionRecord) : outcome SignalProtocolError u32 :=
  let? s := record_current "local_registration_id" r in Ok (local_registration_id s).
Definition record_session_version (r : SessionRecord) : outcome SignalProtocolError u32 :=
  let? s := record_current "session_version" r in Ok (session_version s).
Definition record_local_identity_key_bytes (r : SessionRecord) : outcome SignalProtocolError bytes :=
  let? s := record_current "local_identity_key_bytes" r in local_identity_key_bytes s.
Definition record_remote_identity_key_bytes (r : SessionRecord) : outcome SignalProtocolError (option bytes) :=
  let? s := record_current "remote_identity_key_bytes" r in remote_identity_key_bytes s.
Definition record_has_usable_sender_chain (r : SessionRecord) : bool :=
  match current_session r with Some s => has_usable_sender_chain s | None => false end.
Definition record_alice_base_key (r : SessionRecord) : outcome SignalProtocolError bytes :=
  let? s := record_current "alice_base_key" r in Ok (alice_base_key s).
Definition get_receiver_chain_key_bytes (sender : PublicKey) (r : SessionRecord)
    : outcome SignalProtocolError (option bytes) :=
  let? s := record_current "get_receiver_chain_key" r in
  let? k := get_receiver_chain_key sender s in Ok (option_map ck_key k).
Definition record_get_sender_chain_key_bytes (r : SessionRecord) : outcome SignalProtocolError bytes :=
  let? s := record_current "get_sender_chain_key_bytes" r in get_sender_chain_key_bytes s.
Definition current_ratchet_key_matches (key : PublicKey) (r : SessionRecord) : outcome SignalProtocolError bool :=
  match current_session r with
  | Some s => let? k := sender_ratchet_key s in Ok (public_eq k key)
  | None => Ok false
  end.

(** ** X3DH: [initialize_alice_session], [initialize_bob_session] *)

Record AliceSignalProtocolParameters := mkAlice {
  al_our_identity_key_pair : IdentityKeyPair;
  al_our_base_key_pair : KeyPair;
  al_their_identity_key : IdentityKey;
  al_their_signed_pre_key : PublicKey;
  al_their_one_time_pre_key : option PublicKey;
  al_their_ratchet_key : PublicKey
}.
Record BobSignalProtocolParameters := mkBob {
  bo_our_identity_key_pair : IdentityKeyPair;
  bo_our_signed_pre_key_pair : KeyPair;
  bo_our_one_time_pre_key_pair : option KeyPair;
  bo_our_ratchet_key_pair : KeyPair;
  bo_their_identity_key : IdentityKey;
  bo_their_base_key : PublicKey
}.

Section X3DH.
Context `{HK : !Hkdf, HS : !Hashes, HC : !Curve25519}.

Definition agree (k : PrivateKey) (p : PublicKey) : outcome SignalProtocolError bytes :=
  map_err from_curve_error (calculate_agreement k p).

Definition discontinuity_bytes : bytes := replicate 32 255.

(** [rnd]: the bytes drawn for the sending ratchet key. *)
Definition initialize_alice_session (p : AliceSignalProtocolParameters) (rnd : bytes)
    : outcome SignalProtocolError SessionState :=
  let sending_ratchet_key := key_pair_generate rnd in
  let our_base_private_key := kp_private (al_our_base_key_pair p) in
  let? s1 := agree (ikp_private_key (al_our_identity_key_pair p)) (al_their_signed_pre_key p) in
  let? s2 := agree our_base_private_key (al_their_identity_key p) in
  let? s3 := agree our_base_private_key (al_their_signed_pre_key p) in
  let? s4 := match al_their_one_time_pre_key p with
             | Some k => agree our_base_private_key k
             | None => Ok []
             end in
  let '(root, chain, _) := derive_keys (discontinuity_bytes ++ s1 ++ s2 ++ s3 ++ s4) in
  let? sending := create_chain root (al_their_ratchet_key p) (kp_private sending_ratchet_key) in
  let session := session_new 3 (ikp_identity_key (al_our_identity_key_pair p)) (al_their_identity_key p)
                   sending.1 (kp_public (al_our_base_key_pair p)) in
  let session := add_receiver_chain (al_their_ratchet_key p) chain session in
  Ok (set_sender_chain sending_ratchet_key sending.2 session).

Definition initialize_bob_session (p : BobSignalProtocolParameters) : outcome SignalProtocolError SessionState :=
  let signed := kp_private (bo_our_signed_pre_key_pair p) in
  let? s1 := agree signed (bo_their_identity_key p) in
  let? s2 := agree (ikp_private_key (bo_our_identity_key_pair p)) (bo_their_base_key p) in
  let? s3 := agree signed (bo_their_base_key p) in
  let? s4 := match bo_our_one_time_pre_key_pair p with
             | Some k => agree (kp_private k) (bo_their_base_key p)
             | None => Ok []
             end in
  let '(root, chain, _) := derive_keys (discontinuity_bytes ++ s1 ++ s2 ++ s3 ++ s4) in
  let session := session_new 3 (ikp_identity_key (bo_our_identity_key_pair p)) (bo_their_identity_key p)
                   root (bo_their_base_key p) in
  Ok (set_sender_chain (bo_our_ratchet_key_pair p) chain session).

Definition initialize_alice_session_record (p : AliceSignalProtocolParameters) (rnd : bytes)
    : outcome SignalProtocolError SessionRecord :=
  let? s := initialize_alice_session p rnd in Ok (session_record_new s).
Definition initialize_bob_session_record (p : BobSignalProtocolParameters)
    : outcome SignalProtocolError SessionRecord :=
  let? s := initialize_bob_session p in Ok (session_record_new s).
End X3DH.
