(* ===== verification/SessionCipher.v ===== *)
(** * Pairwise messages: [protocol/session_cipher.rs], [SignalMessage]

    The wire form and the MAC of a pairwise message, encryption with the
    sending chain, and decryption: the ratchet step when the sender shows a
    new ratchet key, the message key of a counter with the keys kept for late
    messages, and the search through the current and the archived states of a
    record.  Session and identity stores are interfaces. *)

From S2P Require Import Prelude RustStd Crypto Curve SenderKeys GroupCipher Session.

(** ** [SignalMessage] *)

Record SignalMessagePb := mkSignalPb {
  spbm_ratchet_key : option bytes; spbm_counter : option u32;
  spbm_previous_counter : option u32; spbm_ciphertext : option bytes
}.

Record PreKeySignalPb := mkPreKeyPb {
  pkpb_registration_id : option u32; pkpb_pre_key_id : option u32; pkpb_signed_pre_key_id : option u32;
  pkpb_base_key : option bytes; pkpb_identity_key : option bytes; pkpb_message : option bytes
}.

(** The protobuf encodings. *)
Class SignalProto := {
  sm_encode : SignalMessagePb -> bytes;
  sm_decode : bytes -> option SignalMessagePb;
  sm_decode_encode : forall rk c pc ct, 0 <= c < 2 ^ 32 -> 0 <= pc < 2 ^ 32 ->
    sm_decode (sm_encode (mkSignalPb (Some rk) (Some c) (Some pc) (Some ct)))
    = Some (mkSignalPb (Some rk) (Some c) (Some pc) (Some ct));
  pksm_encode : PreKeySignalPb -> bytes;
  pksm_decode : bytes -> option PreKeySignalPb;
  pksm_decode_encode : forall reg pid sid bk ik m, is_u32 reg -> is_u32 sid ->
    match pid with Some i => is_u32 i | None => True end ->
    pksm_decode (pksm_encode (mkPreKeyPb (Some reg) pid (Some sid) (Some bk) (Some ik) (Some m)))
    = Some (mkPreKeyPb (Some reg) pid (Some sid) (Some bk) (Some ik) (Some m))
}.

Record SignalMessage := mkSignalMessage {
  sm_version : u8;
  sm_sender_ratchet_key : PublicKey;
  sm_counter : u32;
  sm_previous_counter : u32;
  sm_ciphertext : bytes;
  sm_serialized : bytes
}.

Definition MAC_LENGTH : nat := 8.
Definition CIPHERTEXT_MESSAGE_CURRENT_VERSION : u8 := 3.
Definition MIN_SUPPORTED_VERSION : u8 := 3.
Definition MAX_SUPPORTED_VERSION : u8 := 4.

Section SignalMessages.
Context `{HS : !Hashes, HP : !SignalProto}.

Definition compute_mac (sender_identity_key receiver_identity_key : IdentityKey) (mac_key message : bytes)
    : outcome SignalProtocolError bytes :=
  if negb (length mac_key =? 32)%nat then Err (InvalidMacKeyLength (length mac_key))
  else Ok (take MAC_LENGTH (hmac Sha256 mac_key
             (public_serialize sender_identity_key ++ public_serialize receiver_identity_key ++ message))).

Definition sm_new (message_version : u8) (mac_key : bytes) (sender_ratchet_key : PublicKey)
    (counter previous_counter : u32) (ciphertext : bytes)
    (sender_identity_key receiver_identity_key : IdentityKey) : outcome SignalProtocolError SignalMessage :=
  let message := mkSignalPb (Some (public_serialize sender_ratchet_key)) (Some counter)
                   (Some previous_counter) (Some ciphertext) in
  let serialized := Z.lor (wrap 8 (Z.shiftl (Z.land message_version 15) 4)) CIPHERTEXT_MESSAGE_CURRENT_VERSION
                    :: sm_encode message in
  let? mac := compute_mac sender_identity_key receiver_identity_key mac_key serialized in
  Ok (mkSignalMessage message_version sender_ratchet_key counter previous_counter ciphertext
        (serialized ++ mac)).

(** [Slice] subtraction underflows on less than eight bytes. *)
Definition verify_mac (m : SignalMessage) (sender_identity_key receiver_identity_key : IdentityKey)
    (mac_key : bytes) : outcome SignalProtocolError bool :=
  let n := length (sm_serialized m) in
  if (n <? MAC_LENGTH)%nat then Panic
  else
    let? our_mac := compute_mac sender_identity_key receiver_identity_key mac_key
                      (take (n - MAC_LENGTH) (sm_serialized m)) in
    Ok (our_mac =s drop (n - MAC_LENGTH) (sm_serialized m)).

Definition sm_try_from (value : bytes) : outcome SignalProtocolError SignalMessage :=
  if (length value <? MAC_LENGTH + 1)%nat then Err (CiphertextMessageTooShort (length value))
  else
    match value with
    | [] => Panic
    | first :: _ =>
        let message_version := Z.shiftr first 4 in
        if negb (in_range MIN_SUPPORTED_VERSION MAX_SUPPORTED_VERSION message_version)
        then Err (UnrecognizedCiphertextVersion message_version)
        else
          let? p := ok_or InvalidProtobufEncoding (sm_decode (slice 1 (length value - MAC_LENGTH) value)) in
          let? rk := ok_or InvalidProtobufEncoding (spbm_ratchet_key p) in
          let? rk := map_err from_curve_error (public_deserialize rk) in
          let? counter := ok_or InvalidProtobufEncoding (spbm_counter p) in
          let previous_counter := some_or 0 (spbm_previous_counter p) in
          let? ciphertext := ok_or InvalidProtobufEncoding (spbm_ciphertext p) in
          Ok (mkSignalMessage message_version rk counter previous_counter ciphertext value)
    end.
End SignalMessages.

Record PreKeySignalMessage := mkPreKeySignal {
  pk_version : u8;
  pk_registration_id : u32;
  pk_pre_key_id : option u32;
  pk_signed_pre_key_id : u32;
  pk_base_key : PublicKey;
  pk_identity_key : IdentityKey;
  pk_message : SignalMessage;
  pk_serialized : bytes
}.

Definition pksm_new `{!SignalProto} (message_version : u8) (registration_id : u32) (pre_key_id : option u32)
    (signed_pre_key_id : u32) (base_key : PublicKey) (identity_key : IdentityKey) (message : SignalMessage)
    : outcome SignalProtocolError PreKeySignalMessage :=
  let proto := mkPreKeyPb (Some registration_id) pre_key_id (Some signed_pre_key_id)
                 (Some (public_serialize base_key)) (Some (public_serialize identity_key))
                 (Some (sm_serialized message)) in
  let first := Z.lor (wrap 8 (Z.shiftl (Z.land message_version 15) 4)) CIPHERTEXT_MESSAGE_CURRENT_VERSION in
  Ok (mkPreKeySignal message_version registration_id pre_key_id signed_pre_key_id base_key identity_key
        message (first :: pksm_encode proto)).

Definition pksm_try_from `{!SignalProto} (value : bytes) : outcome SignalProtocolError PreKeySignalMessage :=
  match value with
  | [] => Err (CiphertextMessageTooShort (length value))
  | first :: rest =>
      let message_version := Z.shiftr first 4 in
      if negb (in_range MIN_SUPPORTED_VERSION MAX_SUPPORTED_VERSION message_version)
      then Err (UnrecognizedCiphertextVersion message_version)
      else
        let? p := ok_or InvalidProtobufEncoding (pksm_decode rest) in
        let? base_key := ok_or InvalidProtobufEncoding (pkpb_base_key p) in
        let? identity_key := ok_or InvalidProtobufEncoding (pkpb_identity_key p) in
        let? message := ok_or InvalidProtobufEncoding (pkpb_message p) in
        let? signed_pre_key_id := ok_or InvalidProtobufEncoding (pkpb_signed_pre_key_id p) in
        let? base_key := map_err from_curve_error (public_deserialize base_key) in
        let? identity_key := identity_decode identity_key in
        let? message := sm_try_from message in
        Ok (mkPreKeySignal message_version (some_or 0 (pkpb_registration_id p)) (pkpb_pre_key_id p)
              signed_pre_key_id base_key identity_key message value)
  end.

(** [PlaintextContent] *)
Record PlaintextContent := mkPlaintextContent { pc_serialized : bytes }.
Definition PLAINTEXT_CONTEXT_IDENTIFIER_BYTE : u8 := 192.
Definition plaintext_try_from (value : bytes) : outcome SignalProtocolError PlaintextContent :=
  match value with
  | [] => Err (CiphertextMessageTooShort 0)
  | first :: _ =>
      if first =? PLAINTEXT_CONTEXT_IDENTIFIER_BYTE then Ok (mkPlaintextContent value)
      else Err (UnrecognizedMessageVersion first)
  end.

Inductive CiphertextMessage :=
| C_Signal (m : SignalMessage)
| C_PreKey (m : PreKeySignalMessage)
| C_SenderKey (m : SenderKeyMessage)
| C_Plaintext (m : PlaintextContent).

Definition message_type (m : CiphertextMessage) : CiphertextMessageType :=
  match m with
  | C_Signal _ => CT_Whisper
  | C_PreKey _ => CT_PreKey
  | C_SenderKey _ => CT_SenderKey
  | C_Plaintext _ => CT_Plaintext
  end.

Definition ciphertext_serialize (m : CiphertextMessage) : bytes :=
  match m with
  | C_Signal m => sm_serialized m
  | C_PreKey m => pk_serialized m
  | C_SenderKey m => skm_serialized m
  | C_Plaintext m => pc_serialized m
  end.

(** The ratchet message inside. *)
Definition signal_part (m : CiphertextMessage) : option SignalMessage :=
  match m with
  | C_Signal m => Some m
  | C_PreKey m => Some (pk_message m)
  | _ => None
  end.

(** [DecryptionErrorMessage]; its protobuf is written in the file and encoded by prost. *)
Record DecryptionErrorPb := mkDecryptionErrorPb {
  depb_ratchet_key : option bytes; depb_timestamp : option u64; depb_device_id : option u32
}.
Record DecryptionErrorMessage := mkDecryptionErrorMessage {
  dem_ratchet_key : option PublicKey; dem_timestamp : u64; dem_device_id : u32; dem_serialized : bytes
}.
Definition dem_for_original `{!SignalProto} (encode : DecryptionErrorPb -> bytes) (original_bytes : bytes)
    (original_type : CiphertextMessageType) (original_timestamp : u64) (original_sender_device_id : u32)
    : outcome SignalProtocolError DecryptionErrorMessage :=
  let? ratchet_key :=
    match original_type with
    | CT_Whisper => let? m := sm_try_from original_bytes in Ok (Some (sm_sender_ratchet_key m))
    | CT_PreKey => let? m := pksm_try_from original_bytes in Ok (Some (sm_sender_ratchet_key (pk_message m)))
    | CT_SenderKey => Ok None
    | CT_Plaintext => Err (InvalidArgument
        (lit "cannot create a DecryptionErrorMessage for plaintext content; it is not encrypted"))
    end in
  let proto := mkDecryptionErrorPb (option_map public_serialize ratchet_key) (Some original_timestamp)
                 (Some original_sender_device_id) in
  Ok (mkDecryptionErrorMessage ratchet_key original_timestamp original_sender_device_id (encode proto)).
Definition dem_try_from (decode : bytes -> option DecryptionErrorPb) (value : bytes)
    : outcome SignalProtocolError DecryptionErrorMessage :=
  let? p := ok_or InvalidProtobufEncoding (decode value) in
  let? timestamp := ok_or InvalidProtobufEncoding (depb_timestamp p) in
  let? ratchet_key := match depb_ratchet_key p with
                      | Some k => let? k := map_err from_curve_error (public_deserialize k) in Ok (Some k)
                      | None => Ok None
                      end in
  Ok (mkDecryptionErrorMessage ratchet_key timestamp (some_or 0 (depb_device_id p)) value).

(** ** Receiving *)

Section Cipher.
Context `{HK : !Hkdf, HS : !Hashes, HA : !AesCbc, HC : !Curve25519, HP : !SignalProto}.

(** [rnd]: the bytes drawn if a new ratchet key is needed. *)
Definition get_or_create_chain_key (their_ephemeral : PublicKey) (rnd : bytes)
    : comp SessionState SignalProtocolError ChainKey :=
  fun s =>
    (let! found := mlift (get_receiver_chain_key their_ephemeral s) in
     match found with
     | Some chain => mret chain
     | None =>
         let! root := mlift (root_key s) in
         let! our_ephemeral := mlift (sender_ratchet_private_key s) in
         let! receiver := mlift (create_chain root their_ephemeral our_ephemeral) in
         let our_new_ephemeral := key_pair_generate rnd in
         let! sender := mlift (create_chain receiver.1 their_ephemeral (kp_private our_new_ephemeral)) in
         fun s =>
           let s := set_root_key sender.1 s in
           let s := add_receiver_chain their_ephemeral receiver.2 s in
           (let! current := mlift (get_sender_chain_key s) in
            let previous_index := if 0 <? ck_index current then ck_index current - 1 else 0 in
            fun s =>
              let s := set_previous_counter previous_index s in
              (Ok receiver.2, set_sender_chain our_new_ephemeral sender.2 s)) s
     end) s.

(** The loop that stores the skipped keys, over the distance to the counter. *)
Fixpoint skip_message_keys (fuel : nat) (their_ephemeral : PublicKey) (counter : u32) (k : ChainKey)
    : comp SessionState SignalProtocolError ChainKey :=
  if ck_index k <? counter then
    match fuel with
    | O => mnofuel
    | S f =>
        set_message_keys their_ephemeral (message_keys k) ;;
        skip_message_keys f their_ephemeral counter (next_chain_key k)
    end
  else mret k.

Definition get_or_create_message_key (their_ephemeral : PublicKey)
    (original_message_type : CiphertextMessageType) (chain_key : ChainKey) (counter : u32)
    : comp SessionState SignalProtocolError MessageKeyGenerator :=
  let chain_index := ck_index chain_key in
  if counter <? chain_index then
    let! k := get_message_keys their_ephemeral counter in
    match k with
    | Some keys => mret keys
    | None => mfail (DuplicatedMessage chain_index counter)
    end
  else
    let jump := counter - chain_index in
    let! _ := (if MAX_FORWARD_JUMPS <? jump then
                 fun s =>
                   (let! self := mlift (session_with_self s) in
                    if self then mret tt
                    else mfail (InvalidMessage original_message_type
                                  (lit "message from too far into the future"))) s
               else mret tt) in
    let! chain_key := skip_message_keys (Z.to_nat jump) their_ephemeral counter chain_key in
    set_receiver_chain_key their_ephemeral (next_chain_key chain_key) ;;
    mret (message_keys chain_key).

Definition decrypt_failure (t : CiphertextMessageType) (e : DecryptionError) : SignalProtocolError :=
  match e with
  | D_BadKeyOrIv => InvalidSessionStructure (lit "invalid receiver chain message keys")
  | D_BadCiphertext _ => InvalidMessage t (lit "failed to decrypt")
  end.

Definition decrypt_message_with_state (ciphertext : SignalMessage)
    (original_message_type : CiphertextMessageType) (rnd : bytes)
    : comp SessionState SignalProtocolError bytes :=
  fun s =>
    (let! _ := mlift (map_err (fun _ => InvalidMessage original_message_type
                                  (lit "No session available to decrypt")) (root_key s)) in
     if negb (sm_version ciphertext =? session_version s)
     then mfail (UnrecognizedMessageVersion (sm_version ciphertext))
     else
       let their_ephemeral := sm_sender_ratchet_key ciphertext in
       let! chain_key := get_or_create_chain_key their_ephemeral rnd in
       let! g := get_or_create_message_key their_ephemeral original_message_type chain_key
                   (sm_counter ciphertext) in
       let keys := generate_keys g in
       fun s =>
         (let! their_identity := mlift (remote_identity_key s) in
          let! their_identity := mlift (ok_or (InvalidSessionStructure
              (lit "cannot decrypt without remote identity key")) their_identity) in
          let! our_identity := mlift (local_identity_key s) in
          let! mac_valid := mlift (verify_mac ciphertext their_identity our_identity (mk_mac_key keys)) in
          if negb mac_valid
          then mfail (InvalidMessage original_message_type (lit "MAC verification failed"))
          else
            (* the thread-local buffer is replaced by the plaintext and taken *)
            let '(dec, ptext) :=
              aes_256_cbc_decrypt_into (sm_ciphertext ciphertext) (mk_cipher_key keys) (mk_iv keys) [] in
            let! _ := mlift (map_err (decrypt_failure original_message_type) dec) in
            fun s => (Ok ptext, clear_unacknowledged_pre_key_message s)) s) s.

Record DecryptionResult := mkDecryptionResult { plaintext : bytes; used_previous_session : bool }.

(** The archived states are tried in order, each on a copy; a duplicate ends
    the search. *)
Fixpoint try_previous (i : nat) (l : list SessionState) (ciphertext : SignalMessage)
    (t : CiphertextMessageType) (rnds : list bytes)
    : outcome SignalProtocolError (option (bytes * nat * SessionState)) :=
  match l with
  | [] => Ok None
  | previous :: rest =>
      match decrypt_message_with_state ciphertext t (some_or [] (head rnds)) previous with
      | (Ok ptext, s') => Ok (Some (ptext, i, s'))
      | (Err (DuplicatedMessage chain counter), _) => Err (DuplicatedMessage chain counter)
      | (Err _, _) => try_previous (S i) rest ciphertext t (tail rnds)
      | (Panic, _) => Panic
      | (NoFuel, _) => NoFuel
      end
  end.

(** The current state is taken out, used in place and put back, whatever the
    attempt left of it.  [rnds] are the draws of the attempts. *)
Definition decrypt_message_with_record (ciphertext : SignalMessage)
    (original_message_type : CiphertextMessageType) (rnds : list bytes)
    : comp SessionRecord SignalProtocolError DecryptionResult :=
  fun record =>
    let try_old (record : SessionRecord) :=
      match try_previous 0 (previous_sessions record) ciphertext original_message_type (tail rnds) with
      | Ok (Some (ptext, idx, updated)) =>
          match promote_old_session idx updated record with
          | Ok r => (Ok (mkDecryptionResult ptext true), r)
          | Err e => (Err e, record)
          | Panic => (Panic, record)
          | NoFuel => (NoFuel, record)
          end
      | Ok None => (Err (InvalidMessage original_message_type (lit "decryption failed")), record)
      | Err e => (Err e, record)
      | Panic => (Panic, record)
      | NoFuel => (NoFuel, record)
      end in
    let '(current, record) := take_session_state record in
    match current with
    | None => try_old record
    | Some current_state =>
        let '(result, current_state) :=
          decrypt_message_with_state ciphertext original_message_type (some_or [] (head rnds)) current_state in
        match result with
        | Ok ptext => (Ok (mkDecryptionResult ptext false), set_session_state current_state record)
        | Err (DuplicatedMessage chain counter) =>
            (Err (DuplicatedMessage chain counter), set_session_state current_state record)
        | Err _ =>
            match original_message_type with
            | CT_PreKey =>
                (Err (InvalidMessage original_message_type (lit "decryption failed")),
                 set_session_state current_state record)
            | CT_Whisper => try_old (set_session_state current_state record)
            | CT_SenderKey | CT_Plaintext => (Panic, record)
            end
        | Panic => (Panic, record)
        | NoFuel => (NoFuel, record)
        end
    end.

(** ** Sending *)

(** [Display] of an address *)
Definition show_address (a : ProtocolAddress) : str := pa_name a ++ lit "." ++ show_uint (pa_device_id a).

(** The part of [message_encrypt] on the session state; it also gives the
    peer's identity key, which the rest of the function checks. *)
Definition encrypt_with_state (ptext : bytes) (remote_address : ProtocolAddress)
    : comp SessionState SignalProtocolError (CiphertextMessage * IdentityKey) :=
  fun s =>
    (let! chain_key := mlift (get_sender_chain_key s) in
     let keys := generate_keys (message_keys chain_key) in
     let! sender_ephemeral := mlift (sender_ratchet_key s) in
     let version := session_version s in
     let! _ := (if version <? 256 then mret tt
                else mfail (InvalidSessionStructure (lit "version does not fit in u8"))) in
     let! local_identity := mlift (local_identity_key s) in
     let! their_identity := mlift (remote_identity_key s) in
     let! their_identity := mlift (ok_or (InvalidState (lit "message_encrypt")
         (lit "no remote identity key for " ++ show_address remote_address)) their_identity) in
     (* the thread-local buffer is empty before and taken afterwards *)
     let '(enc, ctext) := aes_256_cbc_encrypt_into ptext (mk_cipher_key keys) (mk_iv keys) [] in
     let! _ := mlift (map_err (fun _ => InvalidSessionStructure (lit "invalid sender chain message keys")) enc) in
     let! items := mlift (unacknowledged_pre_key_message_items s) in
     let! message := mlift (sm_new version (mk_mac_key keys) sender_ephemeral (ck_index chain_key)
                              (previous_counter s) ctext local_identity their_identity) in
     let! out := mlift
       match items with
       | Some it =>
           let? m := pksm_new version (local_registration_id s) (ua_pre_key_id it) (ua_signed_pre_key_id it)
                       (ua_base_key it) local_identity message in
           Ok (C_PreKey m)
       | None => Ok (C_Signal message)
       end in
     fun s => (Ok (out, their_identity), session_set_sender_chain_key (next_chain_key chain_key) s)) s.
End Cipher.

(** ** The stores: [trait SessionStore], [trait IdentityKeyStore] *)

Inductive Direction := Sending | Receiving.
Inductive IdentityChange := NewOrUnchanged | ReplacedExisting.

(** A session that is stored is the one loaded afterwards. *)
Class SessionStore (B : Type) := {
  view_session : B -> ProtocolAddress -> option SessionRecord;
  load_session : ProtocolAddress -> B -> outcome SignalProtocolError (option SessionRecord);
  load_session_ok : forall a b r, load_session a b = Ok r -> r = view_session b a;
  store_session : ProtocolAddress -> SessionRecord -> comp B SignalProtocolError unit;
  store_session_ok : forall a r b b', store_session a r b = (Ok tt, b') -> view_session b' a = Some r
}.

(** An identity that is saved is trusted from then on. *)
Class IdentityKeyStore (I : Type) := {
  get_identity_key_pair : I -> outcome SignalProtocolError IdentityKeyPair;
  get_local_registration_id : I -> outcome SignalProtocolError u32;
  get_identity : ProtocolAddress -> I -> outcome SignalProtocolError (option IdentityKey);
  is_trusted_identity : ProtocolAddress -> IdentityKey -> Direction -> I -> outcome SignalProtocolError bool;
  save_identity : ProtocolAddress -> IdentityKey -> comp I SignalProtocolError IdentityChange;
  save_identity_trusted : forall a k d i c i', save_identity a k i = (Ok c, i') ->
    is_trusted_identity a k d i' = Ok true
}.

Section Stores.
Context `{HK : !Hkdf, HS : !Hashes, HA : !AesCbc, HC : !Curve25519, HP : !SignalProto}.
Context {B I : Type} `{HB : !SessionStore B, HI : !IdentityKeyStore I}.

Abbreviation stores A := (comp (B * I) SignalProtocolError A).

Definition on_sessions {A} (m : comp B SignalProtocolError A) : stores A :=
  fun st => let '(o, b) := m st.1 in (o, (b, st.2)).
Definition on_identities {A} (m : comp I SignalProtocolError A) : stores A :=
  fun st => let '(o, i) := m st.2 in (o, (st.1, i)).

Definition load_at (a : ProtocolAddress) : stores (option SessionRecord) :=
  fun st => (load_session a st.1, st).
Definition trusted_at (a : ProtocolAddress) (k : IdentityKey) (d : Direction) : stores bool :=
  fun st => (is_trusted_identity a k d st.2, st).

Definition message_encrypt (ptext : bytes) (remote_address : ProtocolAddress) : stores CiphertextMessage :=
  let! loaded := load_at remote_address in
  let! record := mlift (ok_or (SessionNotFound remote_address) loaded) in
  let! state := mlift (ok_or (SessionNotFound remote_address) (current_session record)) in
  let '(o, state) := encrypt_with_state ptext remote_address state in
  let! res := mlift o in
  let! trusted := trusted_at remote_address res.2 Sending in
  if negb trusted then mfail (UntrustedIdentity remote_address)
  else
    on_identities (save_identity remote_address res.2) ;;
    on_sessions (store_session remote_address (set_session_state state record)) ;;
    mret res.1.

Definition message_decrypt_signal (ciphertext : SignalMessage) (remote_address : ProtocolAddress)
    (rnds : list bytes) : stores bytes :=
  let! loaded := load_at remote_address in
  let! record := mlift (ok_or (SessionNotFound remote_address) loaded) in
  let '(o, record) := decrypt_message_with_record ciphertext CT_Whisper rnds record in
  let! result := mlift o in
  match current_session record with
  | None => mpanic
  | Some state =>
      match remote_identity_key state with
      | Ok (Some their_identity_key) =>
          (if used_previous_session result then
             on_identities (save_identity remote_address their_identity_key) ;; mret tt
           else
             let! trusted := trusted_at remote_address their_identity_key Receiving in
             if negb trusted then mfail (UntrustedIdentity remote_address)
             else on_identities (save_identity remote_address their_identity_key) ;; mret tt) ;;
          on_sessions (store_session remote_address record) ;;
          mret (plaintext result)
      | _ => mpanic
      end
  end.
End Stores.
