(* ===== verification/SessionRatchet.v ===== *)
(** * The double ratchet: theorems about [Session] and [SessionCipher]

    The receiving chain refines the same abstract window as the group ratchet,
    without a limit on jumps where the session is one with the account itself;
    X3DH gives the two sides sessions that fit each other; and from there a
    conversation goes on for ever: every message, whoever sends it, is
    decrypted by the other side. *)

From Stdlib Require Import Sorted.
From S2P Require Import Prelude RustStd Crypto Curve SenderKeys GroupCipher Session SessionCipher.

Section Chains.
Context `{HK : !Hkdf, HS : !Hashes}.

(** ** The receiving chains of a state *)

(** The ratchet keys of the receiving chains, in order. *)
Definition has_ratchet_keys (ks : list PublicKey) (s : SessionState) : Prop :=
  map ch_sender_ratchet_key (receiver_chains s) = map (fun k => Some (public_serialize k)) ks
  /\ Forall (fun k => length (pk_bytes k) = 32%nat) ks.

Lemma chain_index_from i ks chains pk :
  map ch_sender_ratchet_key chains = map (fun k => Some (public_serialize k)) ks ->
  Forall (fun k => length (pk_bytes k) = 32%nat) ks ->
  receiver_chain_index_from i chains pk
  = Ok (Nat.add i <$> find_pos (fun k => public_eq k pk) ks).
Proof.
  revert i ks. induction chains as [|c chains IH]; intros i [|k ks] Hm Hf; try done.
  cbn [map] in Hm. injection Hm as Hc Hm. apply Forall_cons in Hf as [Hk Hf].
  cbn [receiver_chain_index_from find_pos]. rewrite Hc. cbn [ok_or obind].
  rewrite public_roundtrip by done. cbn [map_err obind].
  destruct (public_eq k pk); [cbn; by rewrite Nat.add_0_r|]. rewrite (IH (S i) ks Hm Hf).
  destruct (find_pos _ ks); cbn; [|done]. do 2 f_equal. lia.
Qed.

Lemma chain_index ks s pk :
  has_ratchet_keys ks s -> get_receiver_chain_index pk s = Ok (find_pos (fun k => public_eq k pk) ks).
Proof.
  intros [Hm Hf]. unfold get_receiver_chain_index. rewrite (chain_index_from 0 ks) by done.
  by destruct (find_pos _ ks).
Qed.

Lemma chain_index_fresh ks s pk :
  has_ratchet_keys ks s -> pk ∉ ks -> get_receiver_chain_index pk s = Ok None.
Proof.
  intros Hs Hn. rewrite (chain_index ks) by done. f_equal. apply find_pos_None, Forall_forall.
  intros k Hk. destruct (public_eq k pk) eqn:E; [|done]. apply public_eq_spec in E. by subst.
Qed.

Lemma set_chain_keys ks s i c c' :
  has_ratchet_keys ks s -> receiver_chains s !! i = Some c ->
  ch_sender_ratchet_key c' = ch_sender_ratchet_key c -> has_ratchet_keys ks (set_chain i c' s).
Proof.
  intros [Hm Hf] Hi Hc. split; [|done]. unfold set_chain. cbn. rewrite <- Hm.
  apply list_eq. intros j. rewrite !lookup_map. destruct (decide (i = j)) as [<-|Hj].
  - rewrite list_lookup_insert_eq by (by eapply lookup_lt_Some). rewrite Hi. cbn. by rewrite Hc.
  - by rewrite list_lookup_insert_ne.
Qed.

Lemma set_chain_lookup s i c c' :
  receiver_chains s !! i = Some c -> receiver_chains (set_chain i c' s) !! i = Some c'.
Proof. intros Hi. cbn. apply list_lookup_insert_eq. by eapply lookup_lt_Some. Qed.

(** ** The chain keys *)

Definition chain_from (base : ChainKey) (i : u32) : ChainKey :=
  mkChain (chain_iter (Z.to_nat (i - ck_index base)) (ck_key base)) i.
Definition keys_at (base : ChainKey) (i : u32) : MessageKeys := generate_keys (message_keys (chain_from base i)).
Definition stored_at (base : ChainKey) (i : u32) : MessageKeyPb := gen_into_pb (message_keys (chain_from base i)).

Lemma chain_from_next base i :
  ck_index base <= i -> 0 <= i -> i + 1 < 2 ^ 32 ->
  next_chain_key (chain_from base i) = chain_from base (i + 1).
Proof.
  intros Hb Hi H32. unfold next_chain_key, chain_from. cbn [ck_key ck_index].
  rewrite wrap_small by lia. f_equal.
  replace (Z.to_nat (i + 1 - ck_index base)) with (S (Z.to_nat (i - ck_index base))) by lia. done.
Qed.

Lemma chain_from_self base : chain_from base (ck_index base) = base.
Proof. unfold chain_from. rewrite Z.sub_diag. by destruct base. Qed.

Lemma chain_from_length base i :
  length (ck_key base) = 32%nat -> length (ck_key (chain_from base i)) = 32%nat.
Proof. apply chain_iter_length. Qed.

Lemma chain_key_pb_roundtrip what k :
  length (ck_key k) = 32%nat -> chain_key_from_pb what (Some (chain_key_pb k)) = Ok k.
Proof.
  intros Hk. unfold chain_key_from_pb, chain_key_pb, to_array. cbn [ok_or obind ckpb_key ckpb_index].
  rewrite Hk. cbn [Nat.eqb obind]. by destruct k.
Qed.

Lemma keys_lengths base i :
  length (mk_cipher_key (keys_at base i)) = 32%nat /\ length (mk_mac_key (keys_at base i)) = 32%nat
  /\ length (mk_iv (keys_at base i)) = 16%nat.
Proof.
  unfold keys_at. cbn [message_keys generate_keys]. unfold mk_derive_keys, slice.
  cbn [mk_cipher_key mk_mac_key mk_iv]. rewrite !length_take, !length_drop, hkdf_length. lia.
Qed.

Lemma stored_roundtrip base i :
  exists g, gen_from_pb (stored_at base i) = Ok g /\ generate_keys g = keys_at base i.
Proof.
  destruct (keys_lengths base i) as (H1 & H2 & H3).
  unfold gen_from_pb, stored_at, gen_into_pb, to_array. fold (keys_at base i).
  cbn [mkpb_cipher_key mkpb_mac_key mkpb_iv mkpb_index ok_or obind]. rewrite H1, H2, H3.
  cbn [Nat.eqb obind]. eexists. split; [done|]. cbn. by destruct (keys_at base i).
Qed.

(** ** A receiving chain and its window *)

Record receiving (base : ChainKey) (w : window) (ks : list PublicKey) (pk : PublicKey) (s : SessionState)
    : Prop := {
  rcv_base : length (ck_key base) = 32%nat;
  rcv_wf : window_wf (ck_index base) w;
  rcv_keys : has_ratchet_keys ks s;
  rcv_chain : exists i c, find_pos (fun k => public_eq k pk) ks = Some i /\ receiver_chains s !! i = Some c
    /\ ch_chain_key c = Some (chain_key_pb (chain_from base (w_next w)))
    /\ ch_message_keys c = map (stored_at base) (rev (w_skipped w))
}.

Lemma receiving_chain_key base w ks pk s :
  receiving base w ks pk s -> get_receiver_chain_key pk s = Ok (Some (chain_from base (w_next w))).
Proof.
  intros [Hb _ Hks (i & c & Hi & Hc & Hk & _)]. unfold get_receiver_chain_key.
  rewrite (chain_index ks) by done. rewrite Hi. cbn [obind]. rewrite Hc, Hk.
  rewrite chain_key_pb_roundtrip by (by apply chain_from_length). done.
Qed.

(** ** Late messages *)

Lemma position_stored base i l c :
  message_key_position i (map (stored_at base) l) c = Ok (Nat.add i <$> find_pos (fun j => j =? c) l).
Proof.
  revert i. induction l as [|j l IH]; intros i; [done|]. cbn [map message_key_position find_pos].
  change (mkpb_index (stored_at base j)) with (Some j). cbn [ok_or obind].
  destruct (j =? c); [cbn; by rewrite Nat.add_0_r|]. rewrite IH.
  destruct (find_pos _ l); cbn; [|done]. do 2 f_equal. lia.
Qed.

Lemma find_pos_NoDup_delete i (l : list Z) :
  NoDup l ->
  match find_pos (fun j => j =? i) l with
  | Some k => i ∈ l /\ l !! k = Some i /\ delete k l = List.filter (fun j => negb (j =? i)) l
  | None => i ∉ l
  end.
Proof.
  induction 1 as [|x l Hx Hl IH]; cbn [find_pos List.filter]; [apply not_elem_of_nil|].
  destruct (Z.eqb_spec x i) as [->|Hne]; cbn [negb].
  - split; [left|]. split; [done|]. cbn [delete list_delete]. symmetry. apply forallb_filter_id, forallb_forall.
    intros j Hj%list_elem_of_In. destruct (Z.eqb_spec j i); [by subst|done].
  - destruct (find_pos _ l) as [k|]; cbn [fmap option_fmap option_map].
    + destruct IH as (Hin & Hk & Hd). split; [by right|]. split; [done|]. by cbn [delete list_delete]; rewrite <- Hd.
    + by apply not_elem_of_cons.
Qed.

Lemma sorted_NoDup l : StronglySorted Z.lt l -> NoDup l.
Proof.
  induction 1 as [|x l Hs IH Hx]; constructor; [|done]. intros Hin. rewrite Forall_forall in Hx.
  specialize (Hx x Hin). lia.
Qed.

Lemma filter_rev_comm {A} (p : A -> bool) l : List.filter p (rev l) = rev (List.filter p l).
Proof.
  induction l as [|x l IH]; [done|]. cbn [rev List.filter]. rewrite List.filter_app, IH. cbn [List.filter].
  destruct (p x); cbn [rev]; [done|]. by rewrite app_nil_r.
Qed.

Lemma elem_of_rev {A} (x : A) l : x ∈ rev l <-> x ∈ l.
Proof. rewrite !list_elem_of_In. symmetry. apply in_rev. Qed.

Definition message_verdict (base : ChainKey) (t : CiphertextMessageType) (i : u32) (v : verdict)
    : outcome SignalProtocolError MessageKeys :=
  match v with
  | Deliver => Ok (keys_at base i)
  | Duplicate c r => Err (DuplicatedMessage c r)
  | TooFar => Err (InvalidMessage t (lit "message from too far into the future"))
  | ChainTooLong => Ok (keys_at base i)
  end.

Lemma message_key_past base w ks pk s t i :
  receiving base w ks pk s -> i < w_next w ->
  omap_ok generate_keys (get_or_create_message_key pk t (chain_from base (w_next w)) i s).1
    = message_verdict base t i (window_get i w).1
  /\ receiving base (window_get i w).2 ks pk (get_or_create_message_key pk t (chain_from base (w_next w)) i s).2.
Proof.
  intros Hr Hi. pose proof Hr as [Hb Hw Hks (n & c & Hn & Hc & Hk & Hl)].
  pose proof (window_get_wf _ i w Hw) as Hw'.
  unfold get_or_create_message_key. cbn [ck_index chain_from].
  unfold window_get in *. rewrite (proj2 (Z.ltb_lt _ _) Hi) in *.
  unfold mbind', get_message_keys, mbind', mlift. rewrite (chain_index ks), Hn by done. rewrite Hc, Hl.
  rewrite position_stored.
  pose proof (find_pos_NoDup_delete i (rev (w_skipped w))) as Hf.
  assert (NoDup (rev (w_skipped w))) as Hnd.
  { apply NoDup_ListNoDup, List.NoDup_rev, NoDup_ListNoDup, sorted_NoDup, (wf_sorted _ _ Hw). }
  specialize (Hf Hnd). destruct (find_pos (fun j => j =? i) (rev (w_skipped w))) as [k|]; cbn [fmap option_fmap option_map].
  - destruct Hf as (Hin & Hki & Hd). rewrite decide_True in * by (by apply elem_of_rev).
    change (0 + k)%nat with k. rewrite lookup_map, Hki. cbn [fmap option_fmap option_map].
    destruct (stored_roundtrip base i) as (g & Hg & Hgk). rewrite Hg. cbn [obind].
    unfold mret. cbn [fst snd omap_ok obind]. split; [by rewrite Hgk|].
    split; [done|done|by eapply set_chain_keys|].
    exists n. eexists. split; [done|]. split; [by eapply set_chain_lookup|]. split; [done|].
    cbn [ch_message_keys w_skipped]. rewrite <- map_delete. f_equal. by rewrite Hd, filter_rev_comm.
  - rewrite decide_False in * by (by rewrite <- elem_of_rev). cbn. split; [done|exact Hr].
Qed.

(** ** Messages ahead *)

(** What the loop keeps: the chain of [pk] is at [i] with chain key [ck] and
    the stored keys of the iterations [l]. *)
Definition keeps (base : ChainKey) (ks : list PublicKey) (i : nat) (ck : option ChainKeyPb) (l : list u32)
    (s : SessionState) : Prop :=
  has_ratchet_keys ks s /\ exists c, receiver_chains s !! i = Some c /\ ch_chain_key c = ck
    /\ ch_message_keys c = map (stored_at base) (rev l).

Lemma push_front_keys base l j :
  (length l <= MAX_MESSAGE_KEYS)%nat ->
  (let keys := stored_at base j :: map (stored_at base) (rev l) in
   if (MAX_MESSAGE_KEYS <? length keys)%nat then removelast keys else keys)
  = map (stored_at base) (rev (keep_last (l ++ [j]))).
Proof.
  intros Hl. cbv zeta. cbn [length]. rewrite length_map, length_rev. unfold keep_last.
  rewrite length_app. cbn [length]. destruct (Nat.ltb_spec MAX_MESSAGE_KEYS (S (length l))).
  - destruct l as [|x l]; [unfold MAX_MESSAGE_KEYS in *; cbn in *; lia|]. cbn [length] in *.
    replace (S (length l) + 1 - MAX_MESSAGE_KEYS)%nat with 1%nat by lia.
    cbn [app]. change (drop 1 (x :: l ++ [j])) with (l ++ [j]).
    cbn [rev]. rewrite map_app, app_comm_cons. cbn [map]. rewrite removelast_last, rev_app_distr. done.
  - replace (length l + 1 - MAX_MESSAGE_KEYS)%nat with 0%nat by lia. by rewrite drop_0, rev_app_distr.
Qed.

Lemma set_message_keys_run base ks i ck l pk s j :
  keeps base ks i ck l s -> find_pos (fun k => public_eq k pk) ks = Some i ->
  (length l <= MAX_MESSAGE_KEYS)%nat ->
  exists s', set_message_keys pk (message_keys (chain_from base j)) s = (Ok tt, s')
    /\ keeps base ks i ck (keep_last (l ++ [j])) s'
    /\ exists chains, s' = upd_receiver_chains chains s.
Proof.
  intros (Hks & c & Hc & Hck & Hl) Hi Hlen. unfold set_message_keys, mbind', mlift.
  rewrite (chain_index ks), Hi by done. rewrite Hc, Hl. fold (stored_at base j).
  rewrite push_front_keys by done. eexists. split; [done|]. split; [split; [by eapply set_chain_keys|]|by eexists].
  eexists. split; [by eapply set_chain_lookup|]. by split.
Qed.

Lemma skip_run base ks i ck pk n c l s :
  keeps base ks i ck l s -> find_pos (fun k => public_eq k pk) ks = Some i ->
  (length l <= MAX_MESSAGE_KEYS)%nat -> ck_index base <= c -> 0 <= c -> c + Z.of_nat n < 2 ^ 32 ->
  exists s', skip_message_keys n pk (c + Z.of_nat n) (chain_from base c) s
             = (Ok (chain_from base (c + Z.of_nat n)), s')
    /\ keeps base ks i ck (keep_last (l ++ iota c n)) s' /\ exists chains, s' = upd_receiver_chains chains s.
Proof.
  revert c l s. induction n as [|n IH]; intros c l s Hk Hi Hl Hb H0 Hn; cbn [skip_message_keys].
  - cbn [ck_index chain_from]. rewrite Z.add_0_r, Z.ltb_irrefl. exists s. split; [done|].
    unfold iota. cbn [List.seq map]. rewrite app_nil_r, keep_last_small by done.
    split; [done|]. exists (receiver_chains s). by destruct s.
  - cbn [ck_index chain_from]. rewrite (proj2 (Z.ltb_lt _ _)) by lia. fold (chain_from base c).
    destruct (set_message_keys_run base ks i ck l pk s c Hk Hi Hl) as (s1 & E1 & Hk1 & ch1 & ->).
    unfold mbind'. rewrite E1. rewrite chain_from_next by lia.
    replace (c + Z.of_nat (S n)) with (c + 1 + Z.of_nat n) by lia.
    destruct (IH (c + 1) (keep_last (l ++ [c])) _ Hk1 Hi (keep_last_length _) ltac:(lia) ltac:(lia) ltac:(lia))
      as (s2 & E2 & Hk2 & ch2 & ->). eexists. split; [exact E2|]. split; [|by exists ch2].
    rewrite iota_S. by rewrite keep_last_app, <- app_assoc in Hk2.
Qed.

Lemma set_receiver_chain_key_run base ks i ck l pk s k :
  keeps base ks i ck l s -> find_pos (fun k => public_eq k pk) ks = Some i ->
  exists s', set_receiver_chain_key pk k s = (Ok tt, s')
    /\ keeps base ks i (Some (chain_key_pb k)) l s' /\ exists chains, s' = upd_receiver_chains chains s.
Proof.
  intros (Hks & c & Hc & Hck & Hl) Hi. unfold set_receiver_chain_key, mbind', mlift.
  rewrite (chain_index ks), Hi by done. rewrite Hc. eexists. split; [done|].
  split; [split; [by eapply set_chain_keys|]|by eexists]. eexists. split; [by eapply set_chain_lookup|]. by split.
Qed.

(** A request at or after the next iteration, within the limit. *)
Lemma message_key_ahead base w ks pk s t i :
  receiving base w ks pk s -> w_next w <= i -> i + 1 < 2 ^ 32 ->
  i - w_next w <= MAX_FORWARD_JUMPS \/ session_with_self s = Ok true ->
  exists s', get_or_create_message_key pk t (chain_from base (w_next w)) i s
             = (Ok (message_keys (chain_from base i)), s')
    /\ receiving base (mkWindow (i + 1) (keep_last (w_skipped w ++ iota (w_next w) (Z.to_nat (i - w_next w)))))
         ks pk s'
    /\ exists chains, s' = upd_receiver_chains chains s.
Proof.
  intros [Hb Hw Hks (n & c & Hn & Hc & Hk & Hl)] Hi H32 Hj.
  pose proof (wf_lo _ _ Hw) as Hlo. pose proof (wf_size _ _ Hw) as Hsz.
  assert (keeps base ks n (Some (chain_key_pb (chain_from base (w_next w)))) (w_skipped w) s) as Hkeep
    by (split; [done|]; by exists c).
  set (d := Z.to_nat (i - w_next w)).
  destruct (skip_run base ks n _ pk d (w_next w) (w_skipped w) s Hkeep Hn Hsz ltac:(lia) ltac:(lia) ltac:(lia))
    as (s1 & E1 & Hk1 & ch1 & ->).
  destruct (set_receiver_chain_key_run base ks n _ _ pk _ (chain_from base (i + 1)) Hk1 Hn)
    as (s2 & E2 & (Hks2 & c2 & Hc2 & Hck2 & Hl2) & ch2 & ->).
  eexists. split; [|split; [|by exists ch2]].
  - unfold get_or_create_message_key. cbn [ck_index chain_from]. fold (chain_from base (w_next w)).
    rewrite (proj2 (Z.ltb_ge i _)) by lia. unfold mbind'.
    replace ((if MAX_FORWARD_JUMPS <? i - w_next w then _ else _) s) with (Ok (E := SignalProtocolError) tt, s).
    2: { destruct (Z.ltb_spec MAX_FORWARD_JUMPS (i - w_next w)); [|done]. destruct Hj as [?|Hj]; [lia|].
         unfold mlift. by rewrite Hj. }
    fold d. replace i with (w_next w + Z.of_nat d) at 1 by lia. rewrite E1.
    replace (w_next w + Z.of_nat d) with i by lia. rewrite chain_from_next by lia. by rewrite E2.
  - split; [done| |done|].
    + by apply window_advance_wf.
    + exists n, c2. done.
Qed.

(** The window of a session: with one's own devices there is no limit to a jump. *)
Definition session_window (self : bool) (i : u32) (w : window) : verdict * window :=
  if self && (w_next w <=? i)
  then (Deliver, mkWindow (i + 1) (keep_last (w_skipped w ++ iota (w_next w) (Z.to_nat (i - w_next w)))))
  else window_get i w.

Lemma session_window_past self i w : i < w_next w -> session_window self i w = window_get i w.
Proof. intros Hi. unfold session_window. rewrite (proj2 (Z.leb_gt _ _)) by lia. by rewrite andb_false_r. Qed.

Lemma session_window_ahead self i w :
  w_next w <= i -> i + 1 < 2 ^ 32 -> i - w_next w <= MAX_FORWARD_JUMPS \/ self = true ->
  session_window self i w = (Deliver, mkWindow (i + 1) (keep_last (w_skipped w ++ iota (w_next w) (Z.to_nat (i - w_next w))))).
Proof.
  intros Hi H32 Hj. unfold session_window. rewrite (proj2 (Z.leb_le _ _)) by lia. destruct self; [done|]. destruct Hj; [|done].
  cbn [andb]. unfold window_get. by rewrite (proj2 (Z.ltb_ge i _)), (proj2 (Z.ltb_ge MAX_FORWARD_JUMPS _)), (proj2 (Z.ltb_lt (i + 1) _)) by lia.
Qed.
End Chains.

(** ** What receiving leaves alone *)

(** No step of receiving changes the identities or the version. *)
Definition keeps_fixed {A} (m : comp SessionState SignalProtocolError A) : Prop :=
  forall s, fixed (m s).2 = fixed s.

Create HintDb frames.

Lemma keeps_fixed_bind {A B} (m : comp SessionState SignalProtocolError A)
    (k : A -> comp SessionState SignalProtocolError B) :
  keeps_fixed m -> (forall a, keeps_fixed (k a)) -> keeps_fixed (mbind' m k).
Proof.
  intros Hm Hk s. unfold mbind'. specialize (Hm s).
  destruct (m s) as [[a| | |] s1]; cbn [snd] in *; by rewrite ?Hk.
Qed.

Lemma keeps_fixed_pure {A} (o : outcome SignalProtocolError A) : keeps_fixed (fun s => (o, s)).
Proof. by intros s. Qed.

Lemma keeps_fixed_at {A} (m : comp SessionState SignalProtocolError A) s s' :
  keeps_fixed m -> fixed s' = fixed s -> fixed (m s').2 = fixed s.
Proof. intros Hm Hs. by rewrite Hm. Qed.

(** Follow a computation to its reads and writes. *)
Ltac fixed_step :=
  repeat (intros; match goal with
    | |- keeps_fixed (mbind' _ _) => apply keeps_fixed_bind
    | |- keeps_fixed (match ?x with _ => _ end) => destruct x
    | |- keeps_fixed (mlift _) => apply keeps_fixed_pure
    | |- keeps_fixed (mret _) => apply keeps_fixed_pure
    | |- keeps_fixed (mfail _) => apply keeps_fixed_pure
    | |- keeps_fixed mpanic => apply keeps_fixed_pure
    | |- keeps_fixed mnofuel => apply keeps_fixed_pure
    | |- keeps_fixed _ => solve [auto with frames | intros ?; reflexivity]
    | |- keeps_fixed _ => intros ?; cbv beta zeta; apply keeps_fixed_at; [|reflexivity]
    end).

Section Frames.
Context `{HK : !Hkdf, HS : !Hashes, HA : !AesCbc, HC : !Curve25519, HP : !SignalProto}.

Lemma get_message_keys_fixed pk c : keeps_fixed (get_message_keys pk c).
Proof. unfold get_message_keys. fixed_step. Qed.

Lemma set_message_keys_fixed pk g : keeps_fixed (set_message_keys pk g).
Proof. unfold set_message_keys. fixed_step. Qed.

Lemma set_receiver_chain_key_fixed pk k : keeps_fixed (set_receiver_chain_key pk k).
Proof. unfold set_receiver_chain_key. fixed_step. Qed.
Local Hint Resolve get_message_keys_fixed set_message_keys_fixed set_receiver_chain_key_fixed : frames.

Lemma skip_message_keys_fixed n pk c k : keeps_fixed (skip_message_keys n pk c k).
Proof. revert k. induction n as [|n IH]; intros k; cbn [skip_message_keys]; fixed_step. Qed.
Local Hint Resolve skip_message_keys_fixed : frames.

Lemma get_or_create_message_key_fixed pk t k c : keeps_fixed (get_or_create_message_key pk t k c).
Proof. unfold get_or_create_message_key. fixed_step. Qed.

Lemma get_or_create_chain_key_fixed pk rnd : keeps_fixed (get_or_create_chain_key pk rnd).
Proof. unfold get_or_create_chain_key. fixed_step. Qed.
End Frames.

(** ** Two parties *)

Section Conversation.
Context `{HK : !Hkdf, HS : !Hashes, HA : !AesCbc, HC : !Curve25519, HP : !SignalProto}.

(** A key pair as [KeyPair::generate] makes it. *)
Record valid_pair (kp : KeyPair) : Prop := {
  vp_public : kp_public kp = mkPublicKey (derive_public_key_bytes (sk_bytes (kp_private kp)));
  vp_length : length (sk_bytes (kp_private kp)) = 32%nat;
  vp_clamped : clamp (sk_bytes (kp_private kp)) = sk_bytes (kp_private kp)
}.

Lemma key_pair_generate_valid rnd : length rnd = 32%nat -> valid_pair (key_pair_generate rnd).
Proof.
  intros Hl. split; cbn; [done|by rewrite clamp_length|apply clamp_idemp].
Qed.

Lemma valid_public_length kp : valid_pair kp -> length (pk_bytes (kp_public kp)) = 32%nat.
Proof. intros [-> _ _]. apply derive_public_length. Qed.

(** Both sides of a pair of keys compute the same chains. *)
Lemma create_chain_sym r a b :
  valid_pair a -> valid_pair b ->
  create_chain r (kp_public a) (kp_private b) = create_chain r (kp_public b) (kp_private a).
Proof.
  intros Ha Hb. unfold create_chain, calculate_agreement. rewrite (vp_public a Ha), (vp_public b Hb).
  cbn [pk_bytes]. by rewrite xagree_sym.
Qed.

Lemma create_chain_ok r pk sk :
  exists r' k, create_chain r pk sk = Ok (r', k) /\ length (rk_key r') = 32%nat
    /\ length (ck_key k) = 32%nat /\ ck_index k = 0.
Proof.
  unfold create_chain, calculate_agreement. cbn [map_err obind]. do 2 eexists. split; [done|].
  cbn [rk_key ck_key ck_index]. unfold slice. rewrite !length_take, !length_drop, hkdf_length. lia.
Qed.

(** One side: identities, the sending chain at iteration [n] of [base] under
    the ratchet key pair [kp], the root key and the known ratchet keys. *)
Record side (me peer : IdentityKey) (kp : KeyPair) (base : ChainKey) (n : u32) (r : RootKey)
    (ks : list PublicKey) (s : SessionState) : Prop := {
  sd_version : session_version s = 3;
  sd_local : local_identity_key s = Ok me;
  sd_remote : remote_identity_key s = Ok (Some peer);
  sd_sender : exists l, sender_chain s
    = Some (mkChainPb (Some (public_serialize (kp_public kp))) (Some (sk_bytes (kp_private kp)))
              (Some (chain_key_pb (chain_from base n))) l);
  sd_pair : valid_pair kp;
  sd_base : length (ck_key base) = 32%nat /\ ck_index base = 0 /\ 0 <= n;
  sd_root : root_key_pb s = Some (rk_key r) /\ length (rk_key r) = 32%nat;
  sd_keys : has_ratchet_keys ks s;
  sd_pending : exists it, unacknowledged_pre_key_message_items s = Ok it;
  sd_previous : 0 <= previous_counter s < 2 ^ 32
}.

(** A message of iteration [n] of a chain, from [me] to [peer]. *)
Record carries (me peer : IdentityKey) (pk : PublicKey) (base : ChainKey) (n : u32) (p : bytes)
    (m : SignalMessage) : Prop := {
  cr_fields : sm_version m = 3 /\ sm_sender_ratchet_key m = pk /\ sm_counter m = n;
  cr_wire : sm_try_from (sm_serialized m) = Ok m;
  cr_mac : verify_mac m me peer (mk_mac_key (keys_at base n)) = Ok true;
  cr_cipher : aes_256_cbc_decrypt_into (sm_ciphertext m) (mk_cipher_key (keys_at base n))
                (mk_iv (keys_at base n)) [] = (Ok tt, p)
}.

Lemma sm_new_carries me peer pk base n pc p c :
  0 <= n < 2 ^ 32 -> 0 <= pc < 2 ^ 32 -> length (pk_bytes pk) = 32%nat ->
  aes_256_cbc_decrypt_into c (mk_cipher_key (keys_at base n)) (mk_iv (keys_at base n)) [] = (Ok tt, p) ->
  exists m, sm_new 3 (mk_mac_key (keys_at base n)) pk n pc c me peer = Ok m /\ carries me peer pk base n p m.
Proof.
  intros Hn Hpc Hpk Hc. destruct (keys_lengths base n) as (_ & Hm & _).
  unfold sm_new. change (Z.lor _ CIPHERTEXT_MESSAGE_CURRENT_VERSION) with 51.
  set (body := 51 :: sm_encode _). unfold compute_mac. rewrite Hm. cbn [Nat.eqb negb obind].
  set (mac := take MAC_LENGTH _).
  assert (length mac = MAC_LENGTH) as Hl by (unfold mac; by rewrite length_take, hmac_length).
  assert (length (body ++ mac) - MAC_LENGTH = length body)%nat as Hsub by (rewrite length_app, Hl; lia).
  eexists. split; [done|]. split; cbn [sm_serialized]; [done| | |exact Hc].
  - unfold sm_try_from. rewrite (proj2 (Nat.ltb_ge _ _)) by (rewrite length_app, Hl; unfold body; cbn [length]; lia).
    unfold body at 1. cbn [app]. change (negb (in_range _ _ (Z.shiftr 51 4))) with false. cbv iota.
    rewrite Hsub. replace (slice 1 (length body) (body ++ mac)) with (sm_encode (mkSignalPb
      (Some (public_serialize pk)) (Some n) (Some pc) (Some c))).
    + rewrite sm_decode_encode by done. cbn [ok_or obind spbm_ratchet_key spbm_counter spbm_previous_counter spbm_ciphertext].
      rewrite public_roundtrip by done. done.
    + unfold slice, body. change (drop 1 ((51 :: ?l) ++ mac)) with (l ++ mac). cbn [length].
      rewrite Nat.sub_1_r. cbn [pred]. symmetry. apply take_app_length.
  - unfold verify_mac. cbn [sm_serialized].
    rewrite (proj2 (Nat.ltb_ge _ _)) by (rewrite length_app, Hl; lia).
    rewrite Hsub, take_app_length, drop_app_length. unfold compute_mac. rewrite Hm. cbn [Nat.eqb negb obind].
    fold mac. by rewrite bytes_eqb_refl.
Qed.

Lemma side_sender me peer kp base n r ks s :
  side me peer kp base n r ks s ->
  get_sender_chain_key s = Ok (chain_from base n) /\ sender_ratchet_key s = Ok (kp_public kp)
  /\ sender_ratchet_private_key s = Ok (kp_private kp) /\ root_key s = Ok r.
Proof.
  intros [_ _ _ (l & Hs) Hp (Hb & _ & _) [Hr Hrl] _ _ _].
  unfold get_sender_chain_key, sender_ratchet_key, sender_ratchet_private_key, root_key. rewrite Hs, Hr.
  cbn [ok_or obind ch_chain_key ch_sender_ratchet_key ch_sender_ratchet_key_private some_or].
  rewrite chain_key_pb_roundtrip by (by apply chain_from_length).
  rewrite public_roundtrip by (by apply valid_public_length).
  rewrite private_roundtrip by apply Hp. unfold to_array. rewrite Hrl. cbn.
  destruct kp as [? []], r. done.
Qed.

(** What is sent: with a pending pre-key message, wrapped into one. *)
Definition wrapped (s : SessionState) (me : IdentityKey) (it : option UnacknowledgedPreKeyMessageItems)
    (m : SignalMessage) : CiphertextMessage :=
  match it with
  | Some it => C_PreKey (mkPreKeySignal 3 (local_registration_id s) (ua_pre_key_id it)
      (ua_signed_pre_key_id it) (ua_base_key it) me m
      (Z.lor (wrap 8 (Z.shiftl (Z.land 3 15) 4)) CIPHERTEXT_MESSAGE_CURRENT_VERSION
       :: pksm_encode (mkPreKeyPb (Some (local_registration_id s)) (ua_pre_key_id it)
            (Some (ua_signed_pre_key_id it)) (Some (public_serialize (ua_base_key it)))
            (Some (public_serialize me)) (Some (sm_serialized m)))))
  | None => C_Signal m
  end.

Lemma wrapped_signal s me it m : signal_part (wrapped s me it m) = Some m.
Proof. by destruct it. Qed.

(** Encrypting: the message carries the plaintext, the sending chain moves on. *)
Lemma encrypt_items me peer kp base n r ks s p addr it :
  side me peer kp base n r ks s -> n + 1 < 2 ^ 32 -> unacknowledged_pre_key_message_items s = Ok it ->
  exists m s', encrypt_with_state p addr s = (Ok (wrapped s me it m, peer), s')
    /\ side me peer kp base (n + 1) r ks s' /\ receiver_chains s' = receiver_chains s
    /\ carries me peer (kp_public kp) base n p m.
Proof.
  intros Hs Hn Hit. destruct (side_sender _ _ _ _ _ _ _ _ Hs) as (H1 & H2 & _ & _).
  pose proof Hs as [Hv Hl Hr (lk & Hsc) Hp (Hb & Hb0 & Hn0) Hroot Hks _ Hpc].
  destruct (keys_lengths base n) as (Hc & _ & Hiv).
  destruct (aes_roundtrip p (mk_cipher_key (keys_at base n)) (mk_iv (keys_at base n)) [] [] Hc Hiv)
    as (c & Hce & Hcd).
  destruct (sm_new_carries me peer (kp_public kp) base n (previous_counter s) p c ltac:(lia) Hpc
              (valid_public_length _ Hp) Hcd) as (m & Hm & Hcar).
  exists m, (session_set_sender_chain_key (chain_from base (n + 1)) s). split; [|split; [|split]].
  - unfold encrypt_with_state, mbind', mlift. rewrite H1, H2, Hv. change (3 <? 256) with true. cbv iota.
    unfold mret at 1. rewrite Hl, Hr. cbn [ok_or]. fold (keys_at base n). rewrite Hce. cbn [map_err app].
    rewrite Hit. change (ck_index (chain_from base n)) with n. rewrite Hm.
    rewrite chain_from_next by lia. by destruct it.
  - split; try done; [|repeat split; lia || done|by eexists].
    exists lk. unfold session_set_sender_chain_key. cbn. by rewrite Hsc.
  - done.
  - done.
Qed.

Lemma encrypt_run me peer kp base n r ks s p addr :
  side me peer kp base n r ks s -> n + 1 < 2 ^ 32 ->
  exists out s', encrypt_with_state p addr s = (Ok (out, peer), s')
    /\ side me peer kp base (n + 1) r ks s' /\ receiver_chains s' = receiver_chains s
    /\ exists m, signal_part out = Some m /\ carries me peer (kp_public kp) base n p m.
Proof.
  intros Hs Hn. destruct (sd_pending _ _ _ _ _ _ _ _ Hs) as (it & Hit).
  destruct (encrypt_items me peer kp base n r ks s p addr it Hs Hn Hit) as (m & s' & E & Hs' & Hr & Hc).
  exists (wrapped s me it m), s'. repeat (split; [done|]). exists m. split; [apply wrapped_signal|done].
Qed.

(** ** Decrypting *)

Lemma side_after me peer kp base n r ks ks' chains s :
  side me peer kp base n r ks s -> has_ratchet_keys ks' (upd_receiver_chains chains s) ->
  side me peer kp base n r ks' (clear_unacknowledged_pre_key_message (upd_receiver_chains chains s)).
Proof. intros [] Hks. split; try done. by exists None. Qed.

Lemma receiving_clear base w ks pk s :
  receiving base w ks pk s -> receiving base w ks pk (clear_unacknowledged_pre_key_message s).
Proof. intros []. by split. Qed.

(** From the chain key on. *)
Lemma decrypt_with_chain me peer kp base n r r' ks pk bp i p m t rnd s s1 :
  root_key s = Ok r -> session_version s = 3 ->
  get_or_create_chain_key pk rnd s = (Ok (chain_from bp i), s1) ->
  side me peer kp base n r' ks s1 ->
  receiving bp (mkWindow i []) ks pk s1 -> carries peer me pk bp i p m -> i + 1 < 2 ^ 32 ->
  exists s2 chains, decrypt_message_with_state m t rnd s = (Ok p, s2)
    /\ s2 = clear_unacknowledged_pre_key_message (upd_receiver_chains chains s1)
    /\ receiving bp (mkWindow (i + 1) []) ks pk s2.
Proof.
  intros Hroot Hv Hc Hs Hr [(Hm1 & Hm2 & Hm3) _ Hmac Hdec] Hi.
  destruct (message_key_ahead bp (mkWindow i []) ks pk s1 t i Hr) as (s2 & Hk & Hr2 & chains & ->);
    [cbn; lia|lia|left; cbn; unfold MAX_FORWARD_JUMPS; lia|].
  cbn [w_next w_skipped] in Hr2. rewrite Z.sub_diag in Hr2. cbn in Hr2.
  exists (clear_unacknowledged_pre_key_message (upd_receiver_chains chains s1)), chains.
  split; [|split; [done|by apply receiving_clear]].
  unfold decrypt_message_with_state, mbind', mlift. rewrite Hroot. cbn [map_err]. rewrite Hm1, Hv.
  change (negb (3 =? 3)) with false. cbv iota. rewrite Hm2, Hc, Hm3. cbn [w_next] in Hk. rewrite Hk.
  change (remote_identity_key (upd_receiver_chains chains s1)) with (remote_identity_key s1).
  change (local_identity_key (upd_receiver_chains chains s1)) with (local_identity_key s1).
  rewrite (sd_remote _ _ _ _ _ _ _ _ Hs). cbn [ok_or]. rewrite (sd_local _ _ _ _ _ _ _ _ Hs).
  fold (keys_at bp i). rewrite Hmac. cbn [negb]. rewrite Hdec. done.
Qed.

(** A message on a chain that is known. *)
Lemma decrypt_known me peer kp base n r ks pk bp i p m t rnd s :
  side me peer kp base n r ks s -> receiving bp (mkWindow i []) ks pk s ->
  carries peer me pk bp i p m -> i + 1 < 2 ^ 32 ->
  exists s', decrypt_message_with_state m t rnd s = (Ok p, s')
    /\ side me peer kp base n r ks s' /\ receiving bp (mkWindow (i + 1) []) ks pk s'.
Proof.
  intros Hs Hr Hm Hi. destruct (side_sender _ _ _ _ _ _ _ _ Hs) as (_ & _ & _ & Hroot).
  assert (get_or_create_chain_key pk rnd s = (Ok (chain_from bp i), s)) as Hc.
  { unfold get_or_create_chain_key, mbind', mlift. by rewrite (receiving_chain_key _ _ _ _ _ Hr). }
  destruct (decrypt_with_chain me peer kp base n r r ks pk bp i p m t rnd s s Hroot
              (sd_version _ _ _ _ _ _ _ _ Hs) Hc Hs Hr Hm Hi) as (s2 & chains & E & -> & Hr2).
  eexists. split; [exact E|]. split; [|done].
  apply (side_after _ _ _ _ _ _ ks); [done|]. apply (rcv_keys _ _ _ _ _ Hr2).
Qed.

(** The chains after adding one: the oldest of more than five goes. *)
Definition trim (ks : list PublicKey) : list PublicKey :=
  if (MAX_RECEIVER_CHAINS <? length ks)%nat then drop 1 ks else ks.

Lemma find_pos_snoc ks pk :
  pk ∉ ks -> find_pos (fun k => public_eq k pk) (ks ++ [pk]) = Some (length ks).
Proof.
  intros Hn. apply find_pos_app_r; [|by apply public_eq_spec]. apply Forall_forall. intros k Hk.
  destruct (public_eq k pk) eqn:E; [|done]. apply public_eq_spec in E. by subst.
Qed.

Lemma add_receiver_chain_run ks pk k s :
  has_ratchet_keys ks s -> pk ∉ ks -> length (pk_bytes pk) = 32%nat -> length (ck_key k) = 32%nat ->
  0 <= ck_index k < 2 ^ 32 ->
  receiving k (mkWindow (ck_index k) []) (trim (ks ++ [pk])) pk (add_receiver_chain pk k s).
Proof.
  intros [Hm Hf] Hn Hpk Hk Hi. assert (length ks = length (receiver_chains s)) as Hl.
  { by rewrite <- (length_map ch_sender_ratchet_key), Hm, length_map. }
  assert (map ch_sender_ratchet_key (receiver_chains (add_receiver_chain pk k s))
          = map (fun k => Some (public_serialize k)) (trim (ks ++ [pk]))) as Hm'.
  { unfold add_receiver_chain, trim. cbn [receiver_chains upd_receiver_chains]. rewrite !length_app, Hl.
    cbn [length]. destruct (_ <? _)%nat; rewrite <- ?skipn_map, !map_app, Hm; done. }
  split; [done| | |].
  - split; cbn; [lia|lia|constructor|constructor|unfold MAX_MESSAGE_KEYS; lia].
  - split; [done|]. unfold trim. destruct (_ <? _)%nat; [apply Forall_drop|]; by apply Forall_app_2, Forall_singleton.
  - set (c := mkChainPb (Some (public_serialize pk)) (Some []) (Some (chain_key_pb k)) []).
    assert (ch_chain_key c = Some (chain_key_pb (chain_from k (ck_index k)))) as Hc by (by rewrite chain_from_self).
    unfold trim, add_receiver_chain. cbn [receiver_chains upd_receiver_chains]. fold c.
    rewrite !length_app. cbn [length]. rewrite Hl.
    destruct (Nat.ltb_spec MAX_RECEIVER_CHAINS (length (receiver_chains s) + 1)) as [H5|H5].
    + destruct ks as [|k0 ks]; [cbn in Hl; unfold MAX_RECEIVER_CHAINS in *; lia|].
      destruct (receiver_chains s) as [|c0 cs]; [done|]. cbn in Hl.
      exists (length ks), c. cbn [app]. rewrite !skipn_cons, !skipn_O.
      split; [apply find_pos_snoc; by intros ?; apply Hn; right|]. split; [|done].
      apply list_lookup_middle. lia.
    + exists (length ks), c. split; [by apply find_pos_snoc|]. split; [|done].
      apply list_lookup_middle. lia.
Qed.

(** The ratchet step on a key not seen before. *)
Lemma ratchet_step me peer kp base n r ks pk r1 bp rnd s :
  side me peer kp base n r ks s -> n < 2 ^ 32 -> pk ∉ ks -> length (pk_bytes pk) = 32%nat ->
  create_chain r pk (kp_private kp) = Ok (r1, bp) -> length rnd = 32%nat ->
  exists s1 r2 b2, get_or_create_chain_key pk rnd s = (Ok bp, s1)
    /\ create_chain r1 pk (kp_private (key_pair_generate rnd)) = Ok (r2, b2)
    /\ side me peer (key_pair_generate rnd) b2 0 r2 (trim (ks ++ [pk])) s1
    /\ receiving bp (mkWindow 0 []) (trim (ks ++ [pk])) pk s1.
Proof.
  intros Hs Hn32 Hfresh Hpk Hch Hrnd. destruct (side_sender _ _ _ _ _ _ _ _ Hs) as (Hck & _ & Hsk & Hroot).
  destruct Hs as [Hv Hl Hr (lk & Hsc) Hp (Hb & Hb0 & Hn0) Hrt Hks Hpend Hpc].
  destruct (create_chain_ok r pk (kp_private kp)) as (r1' & bp' & E1 & Hl1 & Hlb & Hib).
  rewrite Hch in E1. injection E1 as <- <-.
  destruct (create_chain_ok r1 pk (kp_private (key_pair_generate rnd))) as (r2 & b2 & E2 & Hl2 & Hlb2 & Hib2).
  pose proof (add_receiver_chain_run ks pk bp (set_root_key r2 s)) as Hrcv.
  assert (has_ratchet_keys ks (set_root_key r2 s)) as Hks' by done.
  specialize (Hrcv Hks' Hfresh Hpk Hlb ltac:(lia)).
  eexists. exists r2, b2. split; [|split; [done|]].
  - unfold get_or_create_chain_key, mbind', mlift, get_receiver_chain_key.
    rewrite (chain_index_fresh ks) by done. cbn [obind]. rewrite Hroot, Hsk, Hch. cbn [fst snd].
    rewrite E2. cbn [fst snd].
    replace (get_sender_chain_key (add_receiver_chain pk bp (set_root_key r2 s)))
      with (get_sender_chain_key s) by done. rewrite Hck. reflexivity.
  - rewrite Hib in Hrcv. destruct Hrcv as [? Hw [Hm Hf] Hc]. split.
    + split; try done.
      * exists []. cbn. rewrite <- Hib2 at 1. by rewrite chain_from_self.
      * by apply key_pair_generate_valid.
      * cbn. unfold previous_counter. cbn. destruct (Z.ltb_spec 0 n); lia.
    + split; [done|done|by split|]. destruct Hc as (i & c & ?). by exists i, c.
Qed.

Lemma decrypt_fresh me peer kp base n r ks pk r1 bp p m t rnd s :
  side me peer kp base n r ks s -> n < 2 ^ 32 -> pk ∉ ks -> length (pk_bytes pk) = 32%nat ->
  create_chain r pk (kp_private kp) = Ok (r1, bp) -> length rnd = 32%nat -> carries peer me pk bp 0 p m ->
  exists s' r2 b2, decrypt_message_with_state m t rnd s = (Ok p, s')
    /\ create_chain r1 pk (kp_private (key_pair_generate rnd)) = Ok (r2, b2)
    /\ side me peer (key_pair_generate rnd) b2 0 r2 (trim (ks ++ [pk])) s'
    /\ receiving bp (mkWindow 1 []) (trim (ks ++ [pk])) pk s'.
Proof.
  intros Hs Hn Hfresh Hpk Hch Hrnd Hm. destruct (side_sender _ _ _ _ _ _ _ _ Hs) as (_ & _ & _ & Hroot).
  destruct (ratchet_step me peer kp base n r ks pk r1 bp rnd s Hs Hn Hfresh Hpk Hch Hrnd)
    as (s1 & r2 & b2 & E1 & E2 & Hs1 & Hr1).
  assert (ck_index bp = 0) as H0.
  { destruct (create_chain_ok r pk (kp_private kp)) as (? & ? & E & _ & _ & ?). congruence. }
  assert (get_or_create_chain_key pk rnd s = (Ok (chain_from bp 0), s1)) as Hc.
  { rewrite E1, <- H0 at 1. by rewrite chain_from_self. }
  destruct (decrypt_with_chain me peer _ b2 0 r r2 _ pk bp 0 p m t rnd s s1 Hroot (sd_version _ _ _ _ _ _ _ _ Hs)
              Hc Hs1 Hr1 Hm ltac:(lia)) as (s2 & chains & E & -> & Hr2).
  eexists. exists r2, b2. split; [exact E|]. split; [done|]. split; [|exact Hr2].
  apply (side_after _ _ _ _ _ _ (trim (ks ++ [pk]))); [done|]. apply (rcv_keys _ _ _ _ _ Hr2).
Qed.

(** ** The two sides together

    [x] has a ratchet key that [y] has not seen, derived so that [y] will
    derive the same chain; [x] knows [y]'s sending chain.  [seen] are the
    ratchet keys in use so far and [cnt] bounds the iterations. *)
Definition linked (idx idy : IdentityKey) (seen : list PublicKey) (cnt : Z) (x y : SessionState) : Prop :=
  exists kx bx rx ksx ky by_ ny ry ksy,
    side idx idy kx bx 0 rx ksx x /\ side idy idx ky by_ ny ry ksy y
    /\ receiving by_ (mkWindow ny []) ksx (kp_public ky) x
    /\ create_chain ry (kp_public kx) (kp_private ky) = Ok (rx, bx)
    /\ (kp_public kx ∉ ksy) /\ 0 <= ny <= cnt
    /\ (forall k, k ∈ ksx \/ k ∈ ksy \/ k = kp_public kx \/ k = kp_public ky -> k ∈ seen).

Lemma elem_of_trim k ks : k ∈ trim ks -> k ∈ ks.
Proof.
  unfold trim. destruct (_ <? _)%nat; [|done]. destruct ks; [done|]. cbn. by right.
Qed.

Lemma linked_weaken idx idy seen cnt cnt' x y :
  cnt <= cnt' -> linked idx idy seen cnt x y -> linked idx idy seen cnt' x y.
Proof.
  intros Hc (kx & bx & rx & ksx & ky & by_ & ny & ry & ksy & H).
  exists kx, bx, rx, ksx, ky, by_, ny, ry, ksy. intuition lia.
Qed.

(** A state that differs in the pending pre-key message and the registration
    ids only. *)
Record same_ratchet (s s' : SessionState) : Prop := {
  sr_fixed : fixed s' = fixed s;
  sr_root : root_key_pb s' = root_key_pb s;
  sr_previous : previous_counter_pb s' = previous_counter_pb s;
  sr_sender : sender_chain s' = sender_chain s;
  sr_receiver : receiver_chains s' = receiver_chains s;
  sr_pending : exists it, unacknowledged_pre_key_message_items s' = Ok it
}.

Lemma side_same me peer kp base n r ks s s' :
  same_ratchet s s' -> side me peer kp base n r ks s -> side me peer kp base n r ks s'.
Proof.
  intros [Hf Hr Hp Hs Hc Hi] [].
  split; unfold session_version, local_identity_key, remote_identity_key, has_ratchet_keys, previous_counter in *;
    by rewrite ?Hf, ?Hr, ?Hp, ?Hs, ?Hc.
Qed.

Lemma linked_same idx idy seen cnt x y x' y' :
  same_ratchet x x' -> same_ratchet y y' -> linked idx idy seen cnt x y -> linked idx idy seen cnt x' y'.
Proof.
  intros Sx Sy (kx & bx & rx & ksx & ky & by_ & ny & ry & ksy & Hx & Hy & [? ? Hk Hc] & H).
  exists kx, bx, rx, ksx, ky, by_, ny, ry, ksy. split; [by eapply side_same|]. split; [by eapply side_same|].
  split; [|exact H]. split; [done|done| |].
  - unfold has_ratchet_keys in *. by rewrite (sr_receiver _ _ Sx).
  - by rewrite (sr_receiver _ _ Sx).
Qed.

(** ** One message *)

(** One side encrypts, the bytes travel, the other side decrypts; [rnd] are
    the bytes the receiver draws if it makes a new ratchet key. *)
Definition exchange (p rnd : bytes) (addr : ProtocolAddress) (from to : SessionState)
    : outcome SignalProtocolError (bytes * SessionState * SessionState) :=
  match encrypt_with_state p addr from with
  | (Ok (out, _), from') =>
      let? sent := ok_or (InvalidMessage (message_type out) []) (signal_part out) in
      let? m := sm_try_from (sm_serialized sent) in
      match decrypt_message_with_state m (message_type out) rnd to with
      | (Ok q, to') => Ok (q, from', to')
      | (Err e, _) => Err e
      | (Panic, _) => Panic
      | (NoFuel, _) => NoFuel
      end
  | (Err e, _) => Err e
  | (Panic, _) => Panic
  | (NoFuel, _) => NoFuel
  end.

(** The side whose ratchet key is new speaks: the roles change. *)
Lemma step_new idx idy seen cnt x y p addr rnd :
  linked idx idy seen cnt x y -> 1 <= cnt < 2 ^ 32 -> length rnd = 32%nat ->
  kp_public (key_pair_generate rnd) ∉ seen ->
  exists x' y', exchange p rnd addr x y = Ok (p, x', y')
    /\ linked idy idx (kp_public (key_pair_generate rnd) :: seen) cnt y' x'.
Proof.
  intros (kx & bx & rx & ksx & ky & by_ & ny & ry & ksy & Hx & Hy & Hr & Hch & Hf & Hn & Hseen) Hcnt Hrnd Hnew.
  destruct (encrypt_run idx idy kx bx 0 rx ksx x p addr Hx ltac:(lia)) as (out & x' & E1 & Hx' & Hrc & m & Hsp & Hm).
  destruct (decrypt_fresh idy idx ky by_ ny ry ksy (kp_public kx) rx bx p m (message_type out) rnd y Hy ltac:(lia) Hf
              (valid_public_length _ (sd_pair _ _ _ _ _ _ _ _ Hx)) Hch Hrnd Hm)
    as (y' & r2 & b2 & E2 & Hc2 & Hy' & Hr').
  exists x', y'. split; [unfold exchange; rewrite E1, Hsp; cbn [ok_or obind]; by rewrite (cr_wire _ _ _ _ _ _ _ Hm); cbn [obind]; rewrite E2|].
  exists (key_pair_generate rnd), b2, r2, (trim (ksy ++ [kp_public kx])), kx, bx, 1, rx, ksx.
  split; [done|]. split; [done|]. split; [done|]. split; [|split; [|split; [lia|]]].
  - rewrite create_chain_sym; [done|by apply key_pair_generate_valid|apply (sd_pair _ _ _ _ _ _ _ _ Hx)].
  - intros Hin. apply Hnew, Hseen. by left.
  - intros k [Hk|[Hk|[Hk|Hk] ] ]; [|right; apply Hseen; by left|subst k; left|subst k; right; apply Hseen; by auto].
    apply elem_of_trim, elem_of_app in Hk as [Hk|Hk%list_elem_of_singleton]; right; apply Hseen; auto.
Qed.

(** The other side speaks: nothing but its chain moves. *)
Lemma step_known idx idy seen cnt x y p addr rnd :
  linked idx idy seen cnt x y -> cnt + 1 < 2 ^ 32 ->
  exists x' y', exchange p rnd addr y x = Ok (p, y', x')
    /\ linked idx idy seen (cnt + 1) x' y'.
Proof.
  intros (kx & bx & rx & ksx & ky & by_ & ny & ry & ksy & Hx & Hy & Hr & Hch & Hf & Hn & Hseen) Hcnt.
  destruct (encrypt_run idy idx ky by_ ny ry ksy y p addr Hy ltac:(lia)) as (out & y' & E1 & Hy' & Hrc & m & Hsp & Hm).
  destruct (decrypt_known idx idy kx bx 0 rx ksx (kp_public ky) by_ ny p m (message_type out) rnd x
              Hx Hr Hm ltac:(lia))
    as (x' & E2 & Hx' & Hr').
  exists x', y'. split; [unfold exchange; rewrite E1, Hsp; cbn [ok_or obind]; by rewrite (cr_wire _ _ _ _ _ _ _ Hm); cbn [obind]; rewrite E2|].
  exists kx, bx, rx, ksx, ky, by_, (ny + 1), ry, ksy. repeat (split; [done|]). split; [lia|done].
Qed.

(** ** X3DH *)

(** Parameters of two sides that talk about the same keys. *)
Record matching (pa : AliceSignalProtocolParameters) (pb : BobSignalProtocolParameters) : Prop := {
  mt_alice_identity : valid_pair (mkKeyPair (ikp_identity_key (al_our_identity_key_pair pa))
                                    (ikp_private_key (al_our_identity_key_pair pa)));
  mt_alice_base : valid_pair (al_our_base_key_pair pa);
  mt_bob_identity : valid_pair (mkKeyPair (ikp_identity_key (bo_our_identity_key_pair pb))
                                  (ikp_private_key (bo_our_identity_key_pair pb)));
  mt_bob_signed : valid_pair (bo_our_signed_pre_key_pair pb);
  mt_bob_ratchet : valid_pair (bo_our_ratchet_key_pair pb);
  mt_bob_one_time : match bo_our_one_time_pre_key_pair pb with Some k => valid_pair k | None => True end;
  mt_a_identity : al_their_identity_key pa = ikp_identity_key (bo_our_identity_key_pair pb);
  mt_a_signed : al_their_signed_pre_key pa = kp_public (bo_our_signed_pre_key_pair pb);
  mt_a_one_time : al_their_one_time_pre_key pa = option_map kp_public (bo_our_one_time_pre_key_pair pb);
  mt_a_ratchet : al_their_ratchet_key pa = kp_public (bo_our_ratchet_key_pair pb);
  mt_b_identity : bo_their_identity_key pb = ikp_identity_key (al_our_identity_key_pair pa);
  mt_b_base : bo_their_base_key pb = kp_public (al_our_base_key_pair pa)
}.

Lemma agree_sym a b :
  valid_pair a -> valid_pair b -> agree (kp_private a) (kp_public b) = agree (kp_private b) (kp_public a).
Proof.
  intros Ha Hb. unfold agree, calculate_agreement. rewrite (vp_public a Ha), (vp_public b Hb).
  cbn [pk_bytes]. by rewrite xagree_sym.
Qed.

Lemma agree_ok k p : exists b, agree k p = Ok b.
Proof. unfold agree, calculate_agreement. by eexists. Qed.

Lemma derive_keys_ok secret :
  exists r k q, derive_keys secret = (r, k, q) /\ length (rk_key r) = 32%nat
    /\ length (ck_key k) = 32%nat /\ ck_index k = 0.
Proof.
  unfold derive_keys, derive_keys_with_label. do 3 eexists. split; [done|].
  cbn [rk_key ck_key ck_index]. unfold slice. rewrite !length_take, !length_drop, hkdf_length. lia.
Qed.

(** Both sides hash the same secrets. *)
Lemma x3dh_secrets pa pb :
  matching pa pb -> exists secret,
    (forall rnd, initialize_alice_session pa rnd =
      let '(root, chain, _) := derive_keys secret in
      let? sending := create_chain root (kp_public (bo_our_ratchet_key_pair pb))
                        (kp_private (key_pair_generate rnd)) in
      Ok (set_sender_chain (key_pair_generate rnd) sending.2
            (add_receiver_chain (kp_public (bo_our_ratchet_key_pair pb)) chain
               (session_new 3 (ikp_identity_key (al_our_identity_key_pair pa))
                  (ikp_identity_key (bo_our_identity_key_pair pb)) sending.1
                  (kp_public (al_our_base_key_pair pa))))))
    /\ initialize_bob_session pb =
      let '(root, chain, _) := derive_keys secret in
      Ok (set_sender_chain (bo_our_ratchet_key_pair pb) chain
            (session_new 3 (ikp_identity_key (bo_our_identity_key_pair pb))
               (ikp_identity_key (al_our_identity_key_pair pa)) root (kp_public (al_our_base_key_pair pa)))).
Proof.
  intros [Hai Hab Hbi Hbs Hbr Hbo H1 H2 H3 H4 H5 H6].
  unfold initialize_alice_session, initialize_bob_session. rewrite H1, H2, H3, H4, H5, H6.
  pose proof (agree_sym _ _ Hai Hbs) as A1. pose proof (agree_sym _ _ Hab Hbi) as A2.
  pose proof (agree_sym _ _ Hab Hbs) as A3. cbn [kp_private kp_public] in A1, A2.
  rewrite A1, A2, A3.
  destruct (agree_ok (kp_private (bo_our_signed_pre_key_pair pb)) (ikp_identity_key (al_our_identity_key_pair pa))) as [s1 E1].
  destruct (agree_ok (ikp_private_key (bo_our_identity_key_pair pb)) (kp_public (al_our_base_key_pair pa))) as [s2 E2].
  destruct (agree_ok (kp_private (bo_our_signed_pre_key_pair pb)) (kp_public (al_our_base_key_pair pa))) as [s3 E3].
  rewrite E1, E2, E3. cbn [obind].
  destruct (bo_our_one_time_pre_key_pair pb) as [k|]; cbn [option_map].
  - rewrite (agree_sym _ _ Hab Hbo).
    destruct (agree_ok (kp_private k) (kp_public (al_our_base_key_pair pa))) as [s4 E4]. rewrite E4. cbn [obind].
    exists (discontinuity_bytes ++ s1 ++ s2 ++ s3 ++ s4). by split.
  - cbn [obind]. exists (discontinuity_bytes ++ s1 ++ s2 ++ s3 ++ []). by split.
Qed.

Lemma session_new_identities v me peer r k :
  length (pk_bytes me) = 32%nat -> length (pk_bytes peer) = 32%nat ->
  local_identity_key (session_new v me peer r k) = Ok me
  /\ remote_identity_key (session_new v me peer r k) = Ok (Some peer).
Proof.
  intros Hm Hp. unfold local_identity_key, remote_identity_key, identity_decode.
  cbn [session_new fixed local_identity_public remote_identity_public some_or].
  rewrite public_roundtrip by done. split; [done|].
  change (public_serialize peer) with (5 :: pk_bytes peer) at 1. cbv iota.
  rewrite public_roundtrip by done. done.
Qed.

Lemma x3dh_linked pa pb rnd :
  matching pa pb -> length rnd = 32%nat ->
  exists a b, initialize_alice_session pa rnd = Ok a /\ initialize_bob_session pb = Ok b
    /\ linked (ikp_identity_key (al_our_identity_key_pair pa)) (ikp_identity_key (bo_our_identity_key_pair pb))
         [kp_public (key_pair_generate rnd); kp_public (bo_our_ratchet_key_pair pb)] 0 a b.
Proof.
  intros Hmt Hrnd. destruct (x3dh_secrets pa pb Hmt) as (secret & Ha & Hb). rewrite Ha, Hb.
  destruct (derive_keys_ok secret) as (root & chain & q & -> & Hrl & Hcl & Hci). clear Ha Hb.
  pose proof (mt_bob_ratchet _ _ Hmt) as Hvr. pose proof (key_pair_generate_valid rnd Hrnd) as Hvg.
  pose proof (valid_public_length _ (mt_alice_identity _ _ Hmt)) as Hia.
  pose proof (valid_public_length _ (mt_bob_identity _ _ Hmt)) as Hib. cbn [kp_public] in Hia, Hib.
  set (ida := ikp_identity_key (al_our_identity_key_pair pa)) in *.
  set (idb := ikp_identity_key (bo_our_identity_key_pair pb)) in *.
  set (kr := bo_our_ratchet_key_pair pb) in *. set (g := key_pair_generate rnd) in *.
  destruct (create_chain_ok root (kp_public kr) (kp_private g)) as (ra & ba & Ec & Hral & Hbal & Hbai).
  rewrite Ec. cbn [obind fst snd]. do 2 eexists. split; [done|]. split; [done|].
  destruct (session_new_identities 3 ida idb ra (kp_public (al_our_base_key_pair pa)) Hia Hib) as [La Ra].
  destruct (session_new_identities 3 idb ida root (kp_public (al_our_base_key_pair pa)) Hib Hia) as [Lb Rb].
  set (sa := session_new 3 ida idb ra _) in *. set (sb := session_new 3 idb ida root _) in *.
  pose proof (add_receiver_chain_run [] (kp_public kr) chain sa) as Hrcv.
  specialize (Hrcv ltac:(by split) ltac:(apply not_elem_of_nil) (valid_public_length _ Hvr) Hcl ltac:(lia)).
  cbn [app trim] in Hrcv. rewrite Hci in Hrcv.
  exists g, ba, ra, [kp_public kr], kr, chain, 0, root, [].
  split; [|split; [|split; [|split; [|split; [apply not_elem_of_nil|split; [lia|]]]]]].
  - split; try done; [|apply Hrcv|by exists None].
    exists []. cbn. rewrite <- Hbai at 1. by rewrite chain_from_self.
  - split; try done; [|by exists None].
    exists []. cbn. rewrite <- Hci at 1. by rewrite chain_from_self.
  - destruct Hrcv as [? Hw Hk Hc]. by split.
  - by rewrite create_chain_sym.
  - intros k [Hk%list_elem_of_singleton|[Hk|[Hk|Hk] ] ]; [subst k; right; left| |subst k; left|subst k; right; left].
    by apply not_elem_of_nil in Hk.
Qed.

(** ** Conversations *)

(** An event: does the first side speak, what, and the receiver's draw. *)
Fixpoint converse (addr : ProtocolAddress) (events : list (bool * bytes * bytes)) (a b : SessionState)
    : outcome SignalProtocolError (list bytes) :=
  match events with
  | [] => Ok []
  | (first, p, rnd) :: rest =>
      let? r := if first then exchange p rnd addr a b
                else let? r := exchange p rnd addr b a in Ok (r.1.1, r.2, r.1.2) in
      let? qs := converse addr rest r.1.2 r.2 in
      Ok (r.1.1 :: qs)
  end.

Definition draw_key (e : bool * bytes * bytes) : PublicKey := kp_public (key_pair_generate e.2).

Lemma converse_run addr ida idb events : forall seen cnt a b,
  linked ida idb seen cnt a b \/ linked idb ida seen cnt b a ->
  0 <= cnt -> cnt + Z.of_nat (length events) < 2 ^ 32 - 1 ->
  Forall (fun e => length e.2 = 32%nat /\ (draw_key e ∉ seen)) events -> NoDup (map draw_key events) ->
  converse addr events a b = Ok (map (fun e => e.1.2) events).
Proof.
  induction events as [|[[first p] rnd] events IH]; intros seen cnt a b Hl Hc Hn Hf Hnd; [done|].
  apply Forall_cons in Hf as [[Hr Hk] Hf]. cbn [map] in Hnd. apply NoDup_cons in Hnd as [Hni Hnd].
  cbn [length] in Hn. change (draw_key (first, p, rnd)) with (kp_public (key_pair_generate rnd)) in *. cbn [snd] in Hr.
  assert (forall x y idx idy, linked idx idy seen cnt x y -> linked idx idy seen (cnt + 1) x y) as Hmono
    by (intros *; apply linked_weaken; lia).
  assert (Forall (fun e => length e.2 = 32%nat /\ (draw_key e ∉ kp_public (key_pair_generate rnd) :: seen)) events) as Hf'.
  { apply Forall_forall. intros e He. rewrite Forall_forall in Hf. destruct (Hf e He) as [? ?]. split; [done|].
    apply not_elem_of_cons. split; [|done]. intros E. apply Hni. rewrite <- E.
    by apply list_elem_of_In, in_map, list_elem_of_In. }
  cbn [converse]. destruct Hl as [Hl|Hl], first.
  - destruct (step_new ida idb seen (cnt + 1) a b p addr rnd) as (a' & b' & -> & Hl'); [auto|lia|done|done|].
    cbn [obind fst snd]. rewrite (IH (kp_public (key_pair_generate rnd) :: seen) (cnt + 1) a' b') by (auto with lia). done.
  - destruct (step_known ida idb seen cnt a b p addr rnd) as (a' & b' & -> & Hl'); [done|lia|].
    cbn [obind fst snd]. rewrite (IH seen (cnt + 1) a' b') by (auto with lia). done.
  - destruct (step_known idb ida seen cnt b a p addr rnd) as (b' & a' & -> & Hl'); [done|lia|].
    cbn [obind fst snd]. rewrite (IH seen (cnt + 1) a' b') by (auto with lia). done.
  - destruct (step_new idb ida seen (cnt + 1) b a p addr rnd) as (b' & a' & -> & Hl'); [auto|lia|done|done|].
    cbn [obind fst snd]. rewrite (IH (kp_public (key_pair_generate rnd) :: seen) (cnt + 1) a' b') by (auto with lia). done.
Qed.

(** Draws that are new. *)
Lemma fresh_draws (seen seen' : list PublicKey) events :
  NoDup (seen ++ map draw_key events) -> (forall k, k ∈ seen' -> k ∈ seen) ->
  Forall (fun e => length e.2 = 32%nat) events ->
  Forall (fun e => length e.2 = 32%nat /\ (draw_key e ∉ seen')) events /\ NoDup (map draw_key events).
Proof.
  intros Hnd Hs Hf. apply NoDup_app in Hnd as (_ & Hd & Hnd). split; [|done].
  apply Forall_forall. intros e He. rewrite Forall_forall in Hf. split; [by apply Hf|].
  intros Hin%Hs. apply (Hd _ Hin). by apply list_elem_of_In, in_map, list_elem_of_In.
Qed.

(** ** X3DH starts a conversation *)

(** C3: After the X3DH agreement of two matching parameter sets, with or
    without a one-time pre-key, both sides have a session, and whatever they
    then say, in whatever turns, each message on the wire is parsed, passes
    its MAC check and is decrypted by the other side to what was said.  The
    ratchet keys drawn on the way are distinct. *)
Theorem x3dh_conversation pa pb rnd addr events :
  matching pa pb -> length rnd = 32%nat -> Forall (fun e => length e.2 = 32%nat) events ->
  NoDup (kp_public (bo_our_ratchet_key_pair pb) :: kp_public (key_pair_generate rnd) :: map draw_key events) ->
  Z.of_nat (length events) < 2 ^ 32 - 1 ->
  exists a b, initialize_alice_session pa rnd = Ok a /\ initialize_bob_session pb = Ok b
    /\ converse addr events a b = Ok (map (fun e => e.1.2) events).
Proof.
  intros Hm Hr Hf Hnd Hn. destruct (x3dh_linked pa pb rnd Hm Hr) as (a & b & Ha & Hb & Hl).
  exists a, b. split; [done|]. split; [done|].
  destruct (fresh_draws [kp_public (bo_our_ratchet_key_pair pb); kp_public (key_pair_generate rnd)]
    [kp_public (key_pair_generate rnd); kp_public (bo_our_ratchet_key_pair pb)] events Hnd) as [Hd Hnd']; [|done|].
  { intros k. rewrite !elem_of_cons. tauto. }
  eapply converse_run; [left; exact Hl|lia|lia|done|done].
Qed.
End Conversation.

(** ** What a success means *)

Section Authentic.
Context `{HK : !Hkdf, HS : !Hashes, HA : !AesCbc, HC : !Curve25519, HP : !SignalProto}.

(** The key that the state [s] has for the ratchet key and counter of [m]
    verifies the MAC over both identities and decrypts [m] to [p], which
    leaves the state [s']. *)
Definition authentic (m : SignalMessage) (s : SessionState) (p : bytes) (s' : SessionState) : Prop :=
  exists t rnd ck s1 g s2 their our,
    get_or_create_chain_key (sm_sender_ratchet_key m) rnd s = (Ok ck, s1)
    /\ get_or_create_message_key (sm_sender_ratchet_key m) t ck (sm_counter m) s1 = (Ok g, s2)
    /\ remote_identity_key s = Ok (Some their) /\ local_identity_key s = Ok our
    /\ verify_mac m their our (mk_mac_key (generate_keys g)) = Ok true
    /\ aes_256_cbc_decrypt_into (sm_ciphertext m) (mk_cipher_key (generate_keys g)) (mk_iv (generate_keys g)) []
       = (Ok tt, p)
    /\ s' = clear_unacknowledged_pre_key_message s2.

Lemma same_identities s s' :
  fixed s = fixed s' ->
  remote_identity_key s = remote_identity_key s' /\ local_identity_key s = local_identity_key s'.
Proof. unfold remote_identity_key, local_identity_key. by intros ->. Qed.

Lemma decrypt_state_ok m t rnd s p s' :
  decrypt_message_with_state m t rnd s = (Ok p, s') -> authentic m s p s'.
Proof.
  unfold decrypt_message_with_state, mbind', mlift, authentic. intros H.
  destruct (root_key s) as [r| | |]; try done; cbn [map_err] in H.
  destruct (negb _); [done|].
  destruct (get_or_create_chain_key _ rnd s) as [[ck| | |] s1] eqn:E1; try done.
  destruct (get_or_create_message_key _ t ck _ s1) as [[g| | |] s2] eqn:E2; try done.
  pose proof (get_or_create_chain_key_fixed (sm_sender_ratchet_key m) rnd s) as F1. rewrite E1 in F1.
  pose proof (get_or_create_message_key_fixed (sm_sender_ratchet_key m) t ck (sm_counter m) s1) as F2.
  rewrite E2 in F2. cbn [snd] in *. destruct (same_identities s2 s) as [Hr Hl]; [congruence|].
  rewrite Hr, Hl in H. destruct (remote_identity_key s) as [[their|]| | |] eqn:Er; try done; cbn [ok_or] in H.
  destruct (local_identity_key s) as [our| | |] eqn:El; try done.
  destruct (verify_mac m their our _) as [[]| | |] eqn:Ev; try done; cbn [negb] in H.
  destruct (aes_256_cbc_decrypt_into _ _ _ _) as [[[]|e| |] q] eqn:Ed; try done; cbn [map_err] in H.
  simplify_eq. exists t, rnd, ck, s1, g, s2, their, our. repeat (split; [assumption|]). done.
Qed.

Lemma try_previous_ok i l m t rnds p j s' :
  try_previous i l m t rnds = Ok (Some (p, j, s')) ->
  exists k s, j = (i + k)%nat /\ l !! k = Some s /\ authentic m s p s'.
Proof.
  revert i rnds. induction l as [|s l IH]; intros i rnds H; [done|]. cbn [try_previous] in H.
  destruct (decrypt_message_with_state m t _ s) as [[q|e| |] s2] eqn:E; try done.
  - simplify_eq. exists 0%nat, s. split; [lia|]. split; [done|]. by eapply decrypt_state_ok.
  - assert (try_previous (S i) l m t (tail rnds) = Ok (Some (p, j, s'))) as H' by (by destruct e).
    destruct (IH _ _ H') as (k & s0 & -> & Hk & Ha). exists (S k), s0. split; [lia|]. by split.
Qed.

Lemma promote_old_current {E} i s r r' :
  promote_old_session (E := E) i s r = Ok r' -> current_session r' = Some s.
Proof. unfold promote_old_session. destruct (_ <? _)%nat; [|done]. by intros [= <-]. Qed.

(** The states of a record. *)
Definition in_record (s : SessionState) (r : SessionRecord) : Prop :=
  current_session r = Some s \/ s ∈ previous_sessions r.

Lemma in_record_new s s' : in_record s (session_record_new s') -> s = s'.
Proof. intros [[= ->]|Hin]; [done|by apply not_elem_of_nil in Hin]. Qed.

(** The record step, the result of the current state given. *)
Lemma decrypt_record_ok m t rnds r res r' :
  decrypt_message_with_record m t rnds r = (Ok res, r') ->
  exists s s', in_record s r /\ authentic m s (plaintext res) s' /\ current_session r' = Some s'
    /\ (used_previous_session res = false -> current_session r = Some s).
Proof.
  assert (forall rec, previous_sessions rec = previous_sessions r ->
    match try_previous 0 (previous_sessions rec) m t (tail rnds) with
    | Ok (Some (ptext, idx, updated)) =>
        match promote_old_session idx updated rec with
        | Ok r => (Ok (mkDecryptionResult ptext true), r)
        | Err e => (Err e, rec) | Panic => (Panic, rec) | NoFuel => (NoFuel, rec)
        end
    | Ok None => (Err (InvalidMessage t (lit "decryption failed")), rec)
    | Err e => (Err e, rec) | Panic => (Panic, rec) | NoFuel => (NoFuel, rec)
    end = (Ok res, r') ->
    exists s s', in_record s r /\ authentic m s (plaintext res) s' /\ current_session r' = Some s'
      /\ (used_previous_session res = false -> current_session r = Some s)) as Hold.
  { intros rec Hrec H. destruct (try_previous _ _ _ _ _) as [[[[p i] s']|]| | |] eqn:E; try done.
    destruct (try_previous_ok _ _ _ _ _ _ _ _ E) as (k & s & -> & Hk & Ha).
    destruct (promote_old_session _ _ _) as [r2| | |] eqn:Ep; try done. simplify_eq.
    exists s, s'. split; [right; rewrite <- Hrec; by eapply list_elem_of_lookup_2|].
    split; [done|]. split; [by eapply promote_old_current|done]. }
  unfold decrypt_message_with_record. cbn [take_session_state].
  destruct (current_session r) as [s|] eqn:Ec; [|apply Hold; done].
  destruct (decrypt_message_with_state m t _ s) as [[p|e| |] s'] eqn:E; try done.
  - intros [= <- <-]. exists s, s'. split; [by left|]. split; [by eapply decrypt_state_ok|done].
  - intros H. destruct e; try done; (destruct t; try done; by eapply Hold in H).
Qed.

(** ** The record *)

Definition record_bounded (r : SessionRecord) : Prop :=
  (length (previous_sessions r) <= ARCHIVED_STATES_MAX_LENGTH)%nat.

Lemma archive_bounded r : record_bounded r -> record_bounded (archive_current_state r).
Proof.
  unfold record_bounded, archive_current_state, archive_current_state_inner. intros H.
  destruct (current_session r); [|done]. cbn [snd previous_sessions length].
  destruct (Nat.leb_spec ARCHIVED_STATES_MAX_LENGTH (length (previous_sessions r))); [|cbn; lia].
  rewrite removelast_firstn_len, length_take. unfold ARCHIVED_STATES_MAX_LENGTH in *. lia.
Qed.

Lemma promote_state_bounded s r : record_bounded r -> record_bounded (promote_state s r).
Proof. apply archive_bounded. Qed.

Lemma promote_old_bounded {E} i s r r' :
  promote_old_session (E := E) i s r = Ok r' -> record_bounded r -> record_bounded r'.
Proof.
  unfold promote_old_session. destruct (Nat.ltb_spec i (length (previous_sessions r))); [|done].
  intros [= <-] Hr. apply promote_state_bounded. unfold record_bounded in *. cbn [previous_sessions].
  rewrite length_delete by (by apply lookup_lt_is_Some_2). lia.
Qed.

Lemma promote_matching_bounded {E} v k r b r' :
  promote_matching_session (E := E) v k r = Ok (b, r') -> record_bounded r -> record_bounded r'.
Proof.
  unfold promote_matching_session. intros H Hr.
  destruct (match current_session r with Some cur => state_is v k cur | None => false end); [congruence|].
  destruct (find_pos _ _) as [i|]; [|congruence]. destruct (previous_sessions r !! i); [|done].
  destruct (promote_old_session i _ r) as [r2| | |] eqn:Ep; try done. injection H as <- <-.
  by eapply promote_old_bounded.
Qed.

Lemma decrypt_record_bounded m t rnds r :
  record_bounded r -> record_bounded (decrypt_message_with_record m t rnds r).2.
Proof.
  intros Hr. assert (forall rec, record_bounded rec -> record_bounded
    (match try_previous 0 (previous_sessions rec) m t (tail rnds) with
    | Ok (Some (ptext, idx, updated)) =>
        match promote_old_session (E := SignalProtocolError) idx updated rec with
        | Ok r => (Ok (mkDecryptionResult ptext true), r)
        | Err e => (Err e, rec) | Panic => (Panic, rec) | NoFuel => (NoFuel, rec)
        end
    | Ok None => (Err (InvalidMessage t (lit "decryption failed")), rec)
    | Err e => (Err e, rec) | Panic => (Panic, rec) | NoFuel => (NoFuel, rec)
    end).2) as Hold.
  { intros rec Hrec. destruct (try_previous _ _ _ _ _) as [[[[p i] s']|]| | |]; try done.
    destruct (promote_old_session _ _ _) as [r2| | |] eqn:Ep; try done. by eapply promote_old_bounded. }
  unfold decrypt_message_with_record. cbn [take_session_state].
  destruct (current_session r) as [s|]; [|by apply Hold].
  destruct (decrypt_message_with_state m t _ s) as [[p|e| |] s']; try done.
  destruct e; try done; destruct t; try done; by apply Hold.
Qed.

(** The archive of a session record never holds more than forty states:
    archiving, promoting a new, an archived or a matching state, and
    decryption through the record keep the bound. *)
Theorem session_record_bounded r :
  record_bounded r ->
  record_bounded (archive_current_state r)
  /\ (forall s, record_bounded (promote_state s r))
  /\ (forall i s r', promote_old_session (E := SignalProtocolError) i s r = Ok r' -> record_bounded r')
  /\ (forall v k b r', promote_matching_session (E := SignalProtocolError) v k r = Ok (b, r') -> record_bounded r')
  /\ (forall m t rnds, record_bounded (decrypt_message_with_record m t rnds r).2).
Proof.
  intros Hr. split; [by apply archive_bounded|]. split; [by intros; apply promote_state_bounded|].
  split; [by intros; eapply promote_old_bounded|]. split; [by intros; eapply promote_matching_bounded|].
  by intros; apply decrypt_record_bounded.
Qed.


(** ** A failed attempt is not undone *)

(** The attempt with the current state works in place, and what it left
    is put back when it fails.  When a message of an archived session shows a
    ratchet key the current state does not know, the current state makes a
    ratchet step with it before the MAC check fails; the archived session
    then decrypts the message and is promoted, and the former current state
    is archived after that step: with another root key, another sending
    ratchet key and a sending chain that starts again. *)
Theorem failed_attempt_advances me peer kp base n r0 ks s m r1 bp p i s' rec rnd rnds :
  let pk := sm_sender_ratchet_key m in
  current_session rec = Some s -> record_bounded rec ->
  side me peer kp base n r0 ks s -> n < 2 ^ 32 ->
  sm_version m = 3 -> pk ∉ ks -> length (pk_bytes pk) = 32%nat ->
  create_chain r0 pk (kp_private kp) = Ok (r1, bp) -> length rnd = 32%nat ->
  0 <= sm_counter m <= MAX_FORWARD_JUMPS ->
  verify_mac m peer me (mk_mac_key (keys_at bp (sm_counter m))) = Ok false ->
  try_previous 0 (previous_sessions rec) m CT_Whisper rnds = Ok (Some (p, i, s')) ->
  exists r2 b2 old, create_chain r1 pk (kp_private (key_pair_generate rnd)) = Ok (r2, b2)
    /\ decrypt_message_with_record m CT_Whisper (rnd :: rnds) rec
       = (Ok (mkDecryptionResult p true), mkSessionRecord (Some s') (old :: delete i (previous_sessions rec)))
    /\ side me peer (key_pair_generate rnd) b2 0 r2 (trim (ks ++ [pk])) old.
Proof.
  cbv zeta. remember (sm_sender_ratchet_key m) as pk eqn:Hm. intros Hc Hbd Hs Hn Hv Hf Hpk Hch Hrnd Hj Hmac Ht.
  destruct (side_sender _ _ _ _ _ _ _ _ Hs) as (_ & _ & _ & Hroot).
  destruct (ratchet_step me peer kp base n r0 ks pk r1 bp rnd s Hs Hn Hf Hpk Hch Hrnd)
    as (s1 & r2 & b2 & E1 & E2 & Hs1 & Hr1).
  assert (ck_index bp = 0) as H0.
  { destruct (create_chain_ok r0 pk (kp_private kp)) as (? & ? & E & _ & _ & ?). congruence. }
  destruct (message_key_ahead bp (mkWindow 0 []) _ pk s1 CT_Whisper (sm_counter m) Hr1) as (s2 & Hk & Hr2 & chains & ->);
    [cbn; lia|unfold MAX_FORWARD_JUMPS in *; lia|left; cbn; lia|].
  cbn [w_next w_skipped] in *. rewrite <- H0, chain_from_self in Hk at 1.
  assert (decrypt_message_with_state m CT_Whisper rnd s
          = (Err (InvalidMessage CT_Whisper (lit "MAC verification failed")), upd_receiver_chains chains s1)) as Hd.
  { unfold decrypt_message_with_state, mbind', mlift. rewrite Hroot. cbn [map_err].
    rewrite Hv, (sd_version _ _ _ _ _ _ _ _ Hs). change (negb (3 =? 3)) with false. cbv iota zeta.
    rewrite <- Hm.
    rewrite E1, Hk. change (remote_identity_key (upd_receiver_chains chains s1)) with (remote_identity_key s1).
    change (local_identity_key (upd_receiver_chains chains s1)) with (local_identity_key s1).
    rewrite (sd_remote _ _ _ _ _ _ _ _ Hs1). cbn [ok_or]. rewrite (sd_local _ _ _ _ _ _ _ _ Hs1).
    fold (keys_at bp (sm_counter m)). by rewrite Hmac. }
  destruct (try_previous_ok _ _ _ _ _ _ _ _ Ht) as (k & s0 & -> & Hk0 & _). cbn [Nat.add] in *.
  apply lookup_lt_Some in Hk0 as Hlt.
  exists r2, b2, (clear_unacknowledged_pre_key_message (upd_receiver_chains chains s1)).
  split; [done|]. split.
  - unfold decrypt_message_with_record. cbn [take_session_state]. rewrite Hc. cbn [head some_or]. rewrite Hd.
    cbn [tail previous_sessions set_session_state]. rewrite Ht. unfold promote_old_session.
    cbn [previous_sessions set_session_state]. rewrite (proj2 (Nat.ltb_lt _ _) Hlt).
    unfold promote_state, archive_current_state_inner. cbn [previous_sessions current_session set_session_state snd].
    rewrite (proj2 (Nat.leb_gt _ _)); [done|]. rewrite length_delete by (by apply lookup_lt_is_Some_2).
    unfold record_bounded in Hbd. lia.
  - apply (side_after _ _ _ _ _ _ (trim (ks ++ [pk]))); [done|]. apply (rcv_keys _ _ _ _ _ Hr2).
Qed.

Context {B I : Type} `{HB : !SessionStore B, HI : !IdentityKeyStore I}.

(** C32: [message_decrypt_signal] delivers only what the peer sent: a success
    means that a state of the stored record, current or archived, has the key
    that verifies the MAC over both identity keys and decrypts the message;
    afterwards the store has that state, advanced, as the current one, and
    the identity of the peer is trusted. *)
Theorem message_decrypt_authentic m addr rnds b i p b' i' :
  message_decrypt_signal m addr rnds (b, i) = (Ok p, (b', i')) ->
  exists r s s' r' their, view_session b addr = Some r /\ in_record s r /\ authentic m s p s'
    /\ view_session b' addr = Some r' /\ current_session r' = Some s'
    /\ remote_identity_key s' = Ok (Some their)
    /\ is_trusted_identity addr their Receiving i' = Ok true.
Proof.
  unfold message_decrypt_signal, mbind', mlift, load_at. cbn [fst snd]. intros H.
  destruct (load_session addr b) as [o| | |] eqn:El; try done. apply load_session_ok in El. subst o.
  destruct (view_session b addr) as [r|] eqn:Er; try done; cbn [ok_or] in H.
  destruct (decrypt_message_with_record m CT_Whisper rnds r) as [o r1] eqn:Ed.
  destruct o as [res| | |]; try done.
  destruct (decrypt_record_ok _ _ _ _ _ _ Ed) as (s & s' & Hin & Ha & Hc & _).
  rewrite Hc in H. destruct (remote_identity_key s') as [[their|]| | |] eqn:Eid; try done.
  exists r, s, s', r1, their. split; [done|]. split; [done|].
  unfold on_identities, on_sessions, trusted_at, mret, mfail in H. cbn [fst snd] in H.
  assert (exists c, save_identity addr their i = (Ok c, i') /\ store_session addr r1 b = (Ok tt, b')
    /\ p = plaintext res) as (c & Hs & Hst & ->).
  { revert H. destruct (used_previous_session res); cbn [fst snd].
    2: destruct (is_trusted_identity addr their Receiving i) as [[]| | |]; try done; cbn [negb fst snd].
    all: destruct (save_identity addr their i) as [[c| | |] i1] eqn:Es; try done; cbn [fst snd].
    all: destruct (store_session addr r1 b) as [[[]| | |] b1] eqn:Est; try done; cbn [fst snd].
    all: intros [= <- <- <-]; by exists c. }
  split; [done|]. split; [by eapply store_session_ok|]. split; [done|]. split; [done|].
  by eapply save_identity_trusted.
Qed.
End Authentic.

(** C31: The receiving side of a chain refines the window of its session: with a
    chain whose key and stored message keys stand for a window, asking for the
    key of a counter below 2^32 - 1 (the last one, where the index of the chain
    wraps, is left out) gives the key of that iteration exactly when the window
    delivers it: at most once, with the last 2000 skipped ones kept, and at most
    25000 ahead unless the session is one with the account itself, where a jump
    has no limit.  It fails as the window says otherwise, and the chain afterwards
    stands for the window afterwards. *)
Theorem message_key_refines `{!Hkdf, !Hashes} base w ks pk s t i self :
  receiving base w ks pk s -> session_with_self s = Ok self -> 0 <= i -> i + 1 < 2 ^ 32 ->
  omap_ok generate_keys (get_or_create_message_key pk t (chain_from base (w_next w)) i s).1
    = message_verdict base t i (session_window self i w).1
  /\ receiving base (session_window self i w).2 ks pk (get_or_create_message_key pk t (chain_from base (w_next w)) i s).2.
Proof.
  intros Hr Hself Hpos H32. destruct (decide (i < w_next w)) as [Hp|Hp]; [rewrite session_window_past by done; by apply message_key_past|].
  assert (w_next w <= i) as Hi by lia. destruct (decide (i - w_next w <= MAX_FORWARD_JUMPS \/ self = true)) as [Hj|Hj].
  - rewrite session_window_ahead by done.
    destruct (message_key_ahead base w ks pk s t i Hr Hi H32) as (s' & -> & Hr' & _); [destruct Hj as [| ->]; auto|done].
  - apply Decidable.not_or in Hj as [Hj Hs]. destruct self; [done|]. unfold session_window, window_get, get_or_create_message_key.
    cbn [ck_index chain_from andb]. rewrite (proj2 (Z.ltb_ge i _)), (proj2 (Z.ltb_lt MAX_FORWARD_JUMPS _)) by lia.
    unfold mbind', mlift. rewrite Hself. cbn. done.
Qed.

(** ** Stand-ins and witnesses *)

(** A curve whose public keys are the private ones and whose shared secrets
    are sums. *)
Definition sum_derive (k : bytes) : bytes := resize 32 0 k.
Definition sum_sign (r k m : bytes) : bytes := sum_derive k ++ toy_expand None m [] 32.
Definition sum_verify (p m s : bytes) : bool := s =s (p ++ toy_expand None m [] 32).
Definition sum_agree (a p : bytes) : bytes := zip_with Z.add (sum_derive a) p.

Definition sum_curve : Curve25519.
Proof.
  refine {| clamp k := k; derive_public_key_bytes := sum_derive; xsign := sum_sign; xverify := sum_verify;
            xagree := sum_agree |}.
  - done.
  - done.
  - intros k. apply length_resize.
  - intros r k m. unfold sum_sign, sum_derive. by rewrite length_app, toy_expand_length, length_resize.
  - intros r k m. apply bytes_eqb_refl.
  - intros a b. unfold sum_agree. rewrite <- zip_with_flip. apply zip_with_ext; [intros; apply Z.add_comm|done|done].
Defined.

Definition toy_sm_encode (m : SignalMessagePb) : bytes :=
  let rk := some_or [] (spbm_ratchet_key m) in
  [some_or 0 (spbm_counter m); some_or 0 (spbm_previous_counter m); Z.of_nat (length rk)]
  ++ rk ++ some_or [] (spbm_ciphertext m).
Definition toy_sm_decode (b : bytes) : option SignalMessagePb :=
  match b with
  | c :: pc :: n :: rest =>
      Some (mkSignalPb (Some (take (Z.to_nat n) rest)) (Some c) (Some pc) (Some (drop (Z.to_nat n) rest)))
  | _ => None
  end.

Definition toy_pksm_encode (m : PreKeySignalPb) : bytes :=
  let bk := some_or [] (pkpb_base_key m) in
  let ik := some_or [] (pkpb_identity_key m) in
  [some_or 0 (pkpb_registration_id m); some_or (-1) (pkpb_pre_key_id m); some_or 0 (pkpb_signed_pre_key_id m);
   Z.of_nat (length bk); Z.of_nat (length ik)] ++ bk ++ ik ++ some_or [] (pkpb_message m).
Definition toy_pksm_decode (b : bytes) : option PreKeySignalPb :=
  match b with
  | reg :: pid :: sid :: nb :: ni :: rest =>
      let rest' := drop (Z.to_nat nb) rest in
      Some (mkPreKeyPb (Some reg) (if pid <? 0 then None else Some pid) (Some sid) (Some (take (Z.to_nat nb) rest))
              (Some (take (Z.to_nat ni) rest')) (Some (drop (Z.to_nat ni) rest')))
  | _ => None
  end.

Definition toy_signal : SignalProto.
Proof.
  refine {| sm_encode := toy_sm_encode; sm_decode := toy_sm_decode;
            pksm_encode := toy_pksm_encode; pksm_decode := toy_pksm_decode |}.
  - intros rk c pc ct _ _. cbn. by rewrite Nat2Z.id, take_app_length, drop_app_length.
  - intros reg pid sid bk ik m _ _ Hp. unfold toy_pksm_encode, toy_pksm_decode.
    cbn [pkpb_registration_id pkpb_pre_key_id pkpb_signed_pre_key_id pkpb_base_key pkpb_identity_key pkpb_message some_or app].
    rewrite !Nat2Z.id, !drop_app_length, !take_app_length.
    destruct pid as [i|]; [|done]. cbn [some_or]. unfold is_u32 in Hp.
    by rewrite (proj2 (Z.ltb_ge i 0)) by lia.
Defined.

Definition toy_pair (v : Z) : KeyPair := @key_pair_generate sum_curve (replicate 32 v).
Definition toy_identity (v : Z) : IdentityKeyPair := mkIdentityKeyPair (kp_public (toy_pair v)) (kp_private (toy_pair v)).
Definition toy_alice : AliceSignalProtocolParameters :=
  mkAlice (toy_identity 1) (toy_pair 2) (kp_public (toy_pair 3)) (kp_public (toy_pair 4))
    (Some (kp_public (toy_pair 5))) (kp_public (toy_pair 4)).
Definition toy_bob : BobSignalProtocolParameters :=
  mkBob (toy_identity 3) (toy_pair 4) (Some (toy_pair 5)) (toy_pair 4) (kp_public (toy_pair 1)) (kp_public (toy_pair 2)).
Definition toy_address : ProtocolAddress := mkProtocolAddress (lit "bob") 1.

Lemma toy_matching : @matching sum_curve toy_alice toy_bob.
Proof. split; try done; by split. Qed.

Lemma x3dh_conversation_witness :
  let events := [(true, [1; 2], replicate 32 7); (false, [3], replicate 32 8); (false, [], replicate 32 9);
                 (true, [4; 5], replicate 32 10)] in
  exists a b, @initialize_alice_session toy_hkdf sum_curve toy_alice (replicate 32 6) = Ok a
    /\ @initialize_bob_session toy_hkdf sum_curve toy_bob = Ok b
    /\ @converse toy_hkdf toy_hashes toy_aes sum_curve toy_signal toy_address events a b
       = Ok [[1; 2]; [3]; []; [4; 5]].
Proof.
  intros events.
  apply (@x3dh_conversation toy_hkdf toy_hashes toy_aes sum_curve toy_signal toy_alice toy_bob (replicate 32 6)
           toy_address events); [exact toy_matching|reflexivity|repeat constructor| |reflexivity].
  apply (bool_decide_unpack (NoDup _)). vm_compute. exact I.
Defined.

(** A session that has just got its first receiving chain. *)
Definition toy_base : ChainKey := mkChain (replicate 32 1) 0.
Definition toy_receiver : SessionState :=
  add_receiver_chain (kp_public (toy_pair 4)) toy_base
    (session_new 3 (kp_public (toy_pair 1)) (kp_public (toy_pair 3)) (mkRoot (replicate 32 2)) (kp_public (toy_pair 2))).

Lemma toy_receiving : @receiving toy_hkdf toy_hashes toy_base (mkWindow 0 []) [kp_public (toy_pair 4)] (kp_public (toy_pair 4)) toy_receiver.
Proof. apply (@add_receiver_chain_run toy_hkdf toy_hashes []); [by split|apply not_elem_of_nil|done|done|cbn; lia]. Qed.

Lemma message_key_refines_witness :
  omap_ok (@generate_keys toy_hkdf)
    (@get_or_create_message_key toy_hkdf toy_hashes (kp_public (toy_pair 4)) CT_Whisper toy_base 2 toy_receiver).1
  = Ok (@keys_at toy_hkdf toy_hashes toy_base 2).
Proof.
  apply (@message_key_refines toy_hkdf toy_hashes toy_base (mkWindow 0 []) [kp_public (toy_pair 4)]
           (kp_public (toy_pair 4)) toy_receiver CT_Whisper 2 false); [exact toy_receiving|reflexivity|lia|lia].
Defined.

(** Stores: sessions by address, and an identity store
    that holds a key pair and trusts everyone. *)
Definition toy_sessions : SessionStore (ProtocolAddress -> option SessionRecord).
Proof.
  refine {| view_session b a := b a; load_session a b := Ok (b a);
            store_session a r b := (Ok tt, fun a' => if decide (pa_name a = pa_name a' /\ pa_device_id a = pa_device_id a')
                                                     then Some r else b a') |}.
  - by intros a b r [= <-].
  - intros a r b b' [= <-]. by rewrite decide_True.
Defined.

Definition toy_identities : IdentityKeyStore IdentityKeyPair.
Proof.
  refine {| get_identity_key_pair i := Ok i; get_local_registration_id i := Ok 33;
            get_identity a i := Ok None;
            is_trusted_identity a k d i := Ok true; save_identity a k i := (Ok NewOrUnchanged, i) |}.
  done.
Defined.

Definition ok_value {E A} (d : A) (o : outcome E A) : A := match o with Ok a => a | _ => d end.

Definition toy_alice_session (pa : AliceSignalProtocolParameters) : SessionState :=
  ok_value toy_receiver (@initialize_alice_session toy_hkdf sum_curve pa (replicate 32 6)).
Definition toy_bob_session (pb : BobSignalProtocolParameters) : SessionState :=
  ok_value toy_receiver (@initialize_bob_session toy_hkdf sum_curve pb).
(** What Alice sends first. *)
Definition toy_message (pa : AliceSignalProtocolParameters) : SignalMessage :=
  match (@encrypt_with_state toy_hkdf toy_hashes toy_aes toy_signal [1; 2; 3] toy_address (toy_alice_session pa)).1 with
  | Ok (out, _) => some_or (mkSignalMessage 0 (mkPublicKey []) 0 0 [] []) (signal_part out)
  | _ => mkSignalMessage 0 (mkPublicKey []) 0 0 [] []
  end.

Lemma message_decrypt_authentic_witness :
  exists s s', s = toy_bob_session toy_bob
    /\ @authentic toy_hkdf toy_hashes toy_aes sum_curve (toy_message toy_alice) s [1; 2; 3] s'.
Proof.
  set (b := fun _ : ProtocolAddress => Some (session_record_new (toy_bob_session toy_bob))).
  pose proof (@message_decrypt_authentic toy_hkdf toy_hashes toy_aes sum_curve
    (ProtocolAddress -> option SessionRecord) IdentityKeyPair toy_sessions toy_identities (toy_message toy_alice) toy_address
    [replicate 32 7] b (toy_identity 3)) as H.
  destruct (@message_decrypt_signal toy_hkdf toy_hashes toy_aes sum_curve
    (ProtocolAddress -> option SessionRecord) IdentityKeyPair toy_sessions toy_identities (toy_message toy_alice) toy_address
    [replicate 32 7] (b, toy_identity 3)) as [o [b' i']] eqn:E.
  assert (o = Ok [1; 2; 3]) as ->.
  { change o with (o, (b', i')).1. rewrite <- E. vm_compute. reflexivity. }
  destruct (H _ _ _ eq_refl) as (r & s & s' & r' & their & Hr & Hin & Ha & _).
  exists s, s'. split; [|exact Ha]. apply (inj Some) in Hr. apply in_record_new. by rewrite Hr.
Defined.

Lemma session_record_bounded_witness :
  record_bounded (promote_state toy_receiver (mkSessionRecord (Some toy_receiver) (replicate 40 toy_receiver))).
Proof.
  apply (@session_record_bounded toy_hkdf toy_hashes toy_aes sum_curve
           (mkSessionRecord (Some toy_receiver) (replicate 40 toy_receiver))).
  vm_compute. lia.
Defined.

(** Another session of the same two, of another base key. *)
Definition toy_alice2 : AliceSignalProtocolParameters :=
  mkAlice (toy_identity 1) (toy_pair 12) (kp_public (toy_pair 3)) (kp_public (toy_pair 4)) None (kp_public (toy_pair 4)).
Definition toy_bob2 : BobSignalProtocolParameters :=
  mkBob (toy_identity 3) (toy_pair 4) None (toy_pair 4) (kp_public (toy_pair 1)) (kp_public (toy_pair 12)).
Definition toy_record : SessionRecord :=
  mkSessionRecord (Some (toy_bob_session toy_bob)) [toy_bob_session toy_bob2].
Definition toy_root : RootKey := ok_value (mkRoot []) (root_key (toy_bob_session toy_bob)).
Definition toy_step : RootKey * ChainKey :=
  ok_value (toy_root, toy_base) (@create_chain toy_hkdf sum_curve toy_root (kp_public (toy_pair 6)) (kp_private (toy_pair 4))).

Lemma toy_side :
  @side toy_hashes sum_curve (kp_public (toy_pair 3)) (kp_public (toy_pair 1)) (toy_pair 4)
    (ok_value toy_base (get_sender_chain_key (toy_bob_session toy_bob))) 0 toy_root [] (toy_bob_session toy_bob).
Proof.
  split.
  - vm_compute; reflexivity.
  - vm_compute; reflexivity.
  - vm_compute; reflexivity.
  - exists []. vm_compute. reflexivity.
  - split; reflexivity.
  - split; [vm_compute; reflexivity|]. split; [vm_compute; reflexivity|lia].
  - split; vm_compute; reflexivity.
  - split; [vm_compute; reflexivity|constructor].
  - exists None. vm_compute. reflexivity.
  - vm_compute. split; [discriminate|reflexivity].
Qed.

Lemma failed_attempt_advances_witness :
  exists r2 b2 old,
    @create_chain toy_hkdf sum_curve toy_step.1 (kp_public (toy_pair 6)) (kp_private (toy_pair 7)) = Ok (r2, b2)
    /\ (@decrypt_message_with_record toy_hkdf toy_hashes toy_aes sum_curve (toy_message toy_alice2) CT_Whisper
          [replicate 32 7; replicate 32 8] toy_record).1 = Ok (mkDecryptionResult [1; 2; 3] true)
    /\ @side toy_hashes sum_curve (kp_public (toy_pair 3)) (kp_public (toy_pair 1)) (toy_pair 7) b2 0 r2
         [kp_public (toy_pair 6)] old.
Proof.
  destruct (@try_previous toy_hkdf toy_hashes toy_aes sum_curve 0 (previous_sessions toy_record)
    (toy_message toy_alice2) CT_Whisper [replicate 32 8]) as [[[[p i] s']|]| | |] eqn:Et;
    [|vm_compute in Et; discriminate Et..].
  assert (p = [1; 2; 3]) as -> by (vm_compute in Et; congruence).
  destruct (@failed_attempt_advances toy_hkdf toy_hashes toy_aes sum_curve (kp_public (toy_pair 3))
    (kp_public (toy_pair 1)) (toy_pair 4) (ok_value toy_base (get_sender_chain_key (toy_bob_session toy_bob))) 0
    toy_root [] (toy_bob_session toy_bob) (toy_message toy_alice2) toy_step.1 toy_step.2 [1; 2; 3] i s' toy_record
    (replicate 32 7) [replicate 32 8]) as (r2 & b2 & old & H1 & H2 & H3);
    [reflexivity|vm_compute; lia|exact toy_side|lia|vm_compute; reflexivity|apply not_elem_of_nil
    |vm_compute; reflexivity|vm_compute; reflexivity|reflexivity|vm_compute; split; discriminate
    |vm_compute; reflexivity|exact Et|].
  exists r2, b2, old. split; [exact H1|]. split; [by rewrite H2|exact H3].
Defined.
