(* ===== verification/PreKeys.v ===== *)
(** * Pre-keys and session setup: [protocol/session.rs], [state/{bundle,prekey,signed_prekey}.rs]

    Pre-key records and bundles, [process_prekey_bundle] on the side that
    starts a session, [process_prekey] on the side that answers, and
    decryption of the pre-key messages in between, over the stores.  The
    theorem follows a first message from the bundle to the plaintext and says
    that the two stores then hold sessions that fit each other. *)

From S2P Require Import Prelude RustStd Crypto Curve SenderKeys GroupCipher Session SessionCipher SessionRatchet.

(** ** [state/prekey.rs], [state/signed_prekey.rs] *)

Record PreKeyRecord := mkPreKeyRecord {
  pkr_id : option u32; pkr_public_key : option bytes; pkr_private_key : option bytes
}.
Record SignedPreKeyRecord := mkSignedPreKeyRecord {
  spk_id : option u32; spk_timestamp : option u64; spk_public_key : option bytes;
  spk_private_key : option bytes; spk_signature : option bytes
}.

(** A field that must be there. *)
Definition required {A} (o : option A) : outcome SignalProtocolError A := ok_or InvalidProtobufEncoding o.

Definition prekey_new (id : u32) (key : KeyPair) : PreKeyRecord :=
  mkPreKeyRecord (Some id) (Some (public_serialize (kp_public key))) (Some (private_serialize (kp_private key))).
Definition prekey_deserialize (decode : bytes -> option PreKeyRecord) (data : bytes)
    : outcome SignalProtocolError PreKeyRecord := required (decode data).
Definition prekey_serialize (encode : PreKeyRecord -> bytes) (r : PreKeyRecord) : bytes := encode r.
Definition prekey_id (r : PreKeyRecord) : outcome SignalProtocolError u32 := required (pkr_id r).
Definition prekey_public_key (r : PreKeyRecord) : outcome SignalProtocolError PublicKey :=
  let? b := required (pkr_public_key r) in map_err from_curve_error (public_deserialize b).

Definition signed_prekey_new (id : u32) (timestamp : u64) (key : KeyPair) (signature : bytes) : SignedPreKeyRecord :=
  mkSignedPreKeyRecord (Some id) (Some timestamp) (Some (public_serialize (kp_public key)))
    (Some (private_serialize (kp_private key))) (Some signature).
Definition signed_prekey_deserialize (decode : bytes -> option SignedPreKeyRecord) (data : bytes)
    : outcome SignalProtocolError SignedPreKeyRecord := required (decode data).
Definition signed_prekey_serialize (encode : SignedPreKeyRecord -> bytes) (r : SignedPreKeyRecord) : bytes := encode r.
Definition signed_prekey_id (r : SignedPreKeyRecord) : outcome SignalProtocolError u32 := required (spk_id r).
Definition signed_prekey_timestamp (r : SignedPreKeyRecord) : outcome SignalProtocolError u64 :=
  required (spk_timestamp r).
Definition signed_prekey_signature (r : SignedPreKeyRecord) : outcome SignalProtocolError bytes :=
  required (spk_signature r).
Definition signed_prekey_public_key (r : SignedPreKeyRecord) : outcome SignalProtocolError PublicKey :=
  let? b := required (spk_public_key r) in map_err from_curve_error (public_deserialize b).

Section PrivateParts.
Context `{HC : !Curve25519}.

Definition prekey_private_key (r : PreKeyRecord) : outcome SignalProtocolError PrivateKey :=
  let? b := required (pkr_private_key r) in map_err from_curve_error (private_deserialize b).
Definition prekey_key_pair (r : PreKeyRecord) : outcome SignalProtocolError KeyPair :=
  let? p := required (pkr_public_key r) in
  let? s := required (pkr_private_key r) in
  map_err from_curve_error (key_pair_from_public_and_private p s).

Definition signed_prekey_private_key (r : SignedPreKeyRecord) : outcome SignalProtocolError PrivateKey :=
  let? b := required (spk_private_key r) in map_err from_curve_error (private_deserialize b).
Definition signed_prekey_key_pair (r : SignedPreKeyRecord) : outcome SignalProtocolError KeyPair :=
  let? p := required (spk_public_key r) in
  let? s := required (spk_private_key r) in
  map_err from_curve_error (key_pair_from_public_and_private p s).

(** ** [identity_key.rs]: key pairs and alternate identities *)

Record IdentityKeyPairPb := mkIdentityKeyPairPb { ikpb_public_key : option bytes; ikpb_private_key : option bytes }.

Definition identity_pair_generate (rnd : bytes) : IdentityKeyPair :=
  let keypair := key_pair_generate rnd in mkIdentityKeyPair (kp_public keypair) (kp_private keypair).
Definition identity_pair_serialize (encode : IdentityKeyPairPb -> bytes) (p : IdentityKeyPair) : bytes :=
  encode (mkIdentityKeyPairPb (Some (public_serialize (ikp_identity_key p)))
            (Some (private_serialize (ikp_private_key p)))).
Definition identity_pair_try_from (decode : bytes -> option IdentityKeyPairPb) (value : bytes)
    : outcome SignalProtocolError IdentityKeyPair :=
  let? st := required (decode value) in
  let? p := required (ikpb_public_key st) in
  let? p := identity_decode p in
  let? s := required (ikpb_private_key st) in
  let? s := map_err from_curve_error (private_deserialize s) in
  Ok (mkIdentityKeyPair p s).
Definition identity_pair_of_private (k : PrivateKey) : outcome SignalProtocolError IdentityKeyPair :=
  let? p := map_err from_curve_error (private_public_key k) in Ok (mkIdentityKeyPair p k).

(** The multipart message is hashed part after part, which is the concatenation. *)
Definition alternate_identity_message (other : IdentityKey) : bytes :=
  replicate 32 255 ++ lit "Signal_PNI_Signature" ++ public_serialize other.
Definition verify_alternate_identity (self other : IdentityKey) (signature : bytes) : bool :=
  verify_signature self (alternate_identity_message other) signature.
Definition sign_alternate_identity (self : IdentityKeyPair) (other : IdentityKey) (rnd : bytes)
    : outcome SignalProtocolError bytes :=
  map_err from_curve_error (calculate_signature (ikp_private_key self) (alternate_identity_message other) rnd).
End PrivateParts.

(** ** [state/bundle.rs] *)

Record SignedPreKey := mkSignedPreKey { sp_id : u32; sp_public_key : PublicKey; sp_signature : bytes }.

Record PreKeyBundleContent := mkBundleContent {
  bc_registration_id : option u32;
  bc_device_id : option u32;
  bc_pre_key_id : option u32;
  bc_pre_key_public : option PublicKey;
  bc_ec_pre_key_id : option u32;
  bc_ec_pre_key_public : option PublicKey;
  bc_ec_pre_key_signature : option bytes;
  bc_identity_key : option IdentityKey
}.

Record PreKeyBundle := mkBundle {
  bu_registration_id : u32;
  bu_device_id : u32;
  bu_pre_key_id : option u32;
  bu_pre_key_public : option PublicKey;
  bu_ec_signed_pre_key : SignedPreKey;
  bu_identity_key : IdentityKey
}.

Definition bundle_new (registration_id device_id : u32) (pre_key : option (u32 * PublicKey))
    (signed_pre_key_id : u32) (signed_pre_key_public : PublicKey) (signed_pre_key_signature : bytes)
    (identity_key : IdentityKey) : outcome SignalProtocolError PreKeyBundle :=
  Ok (mkBundle registration_id device_id (option_map fst pre_key) (option_map snd pre_key)
        (mkSignedPreKey signed_pre_key_id signed_pre_key_public signed_pre_key_signature) identity_key).

Definition bundle_content (b : PreKeyBundle) : PreKeyBundleContent :=
  mkBundleContent (Some (bu_registration_id b)) (Some (bu_device_id b)) (bu_pre_key_id b) (bu_pre_key_public b)
    (Some (sp_id (bu_ec_signed_pre_key b))) (Some (sp_public_key (bu_ec_signed_pre_key b)))
    (Some (sp_signature (bu_ec_signed_pre_key b))) (Some (bu_identity_key b)).

Definition is_required {A} (name : string) (o : option A) : outcome SignalProtocolError A :=
  ok_or (InvalidArgument (lit name ++ lit " is required")) o.

Definition bundle_try_from (c : PreKeyBundleContent) : outcome SignalProtocolError PreKeyBundle :=
  let? registration_id := is_required "registration_id" (bc_registration_id c) in
  let? device_id := is_required "device_id" (bc_device_id c) in
  let pre_key := match bc_pre_key_id c, bc_pre_key_public c with
                 | Some id, Some public => Some (id, public)
                 | _, _ => None
                 end in
  let? id := is_required "signed_pre_key_id" (bc_ec_pre_key_id c) in
  let? public := is_required "signed_pre_key_public" (bc_ec_pre_key_public c) in
  let? signature := is_required "signed_pre_key_signature" (bc_ec_pre_key_signature c) in
  let? identity := is_required "identity_key" (bc_identity_key c) in
  bundle_new registration_id device_id pre_key id public signature identity.

Definition bundle_modify (f : PreKeyBundleContent -> PreKeyBundleContent) (b : PreKeyBundle)
    : outcome SignalProtocolError PreKeyBundle := bundle_try_from (f (bundle_content b)).

(** ** The pre-key stores: [trait PreKeyStore], [trait SignedPreKeyStore] *)

(** A pre-key that is removed is no longer found. *)
Class PreKeyStore (K : Type) := {
  get_pre_key : u32 -> K -> outcome SignalProtocolError PreKeyRecord;
  save_pre_key : u32 -> PreKeyRecord -> comp K SignalProtocolError unit;
  remove_pre_key : u32 -> comp K SignalProtocolError unit;
  remove_pre_key_ok : forall id k k', remove_pre_key id k = (Ok tt, k') -> forall r, get_pre_key id k' <> Ok r
}.

Class SignedPreKeyStore (S : Type) := {
  get_signed_pre_key : u32 -> S -> outcome SignalProtocolError SignedPreKeyRecord;
  save_signed_pre_key : u32 -> SignedPreKeyRecord -> comp S SignalProtocolError unit
}.

(** ** [protocol/session.rs] *)

Section Setup.
Context `{HK : !Hkdf, HS : !Hashes, HA : !AesCbc, HC : !Curve25519, HP : !SignalProto}.
Context {B I K S : Type} `{HB : !SessionStore B, HI : !IdentityKeyStore I, HPK : !PreKeyStore K,
  HSP : !SignedPreKeyStore S}.

(** The pre-key id the session used, and the record with the session. *)
Definition process_prekey_impl (message : PreKeySignalMessage) (record : SessionRecord)
    (signed_prekey_store : S) (pre_key_store : K) (identity_store : I)
    : outcome SignalProtocolError (option u32 * SessionRecord) :=
  let? found := promote_matching_session (pk_version message) (public_serialize (pk_base_key message)) record in
  if found.1 then Ok (None, found.2)
  else
    let record := found.2 in
    let? signed := get_signed_pre_key (pk_signed_pre_key_id message) signed_prekey_store in
    let? our_signed_pre_key_pair := signed_prekey_key_pair signed in
    let? our_one_time_pre_key_pair :=
      match pk_pre_key_id message with
      | Some pre_key_id =>
          let? r := get_pre_key pre_key_id pre_key_store in
          let? k := prekey_key_pair r in Ok (Some k)
      | None => Ok None
      end in
    let? identity := get_identity_key_pair identity_store in
    let parameters := mkBob identity our_signed_pre_key_pair our_one_time_pre_key_pair our_signed_pre_key_pair
                        (pk_identity_key message) (pk_base_key message) in
    let? new_session := initialize_bob_session parameters in
    let? local_id := get_local_registration_id identity_store in
    let new_session := set_local_registration_id local_id new_session in
    let new_session := set_remote_registration_id (pk_registration_id message) new_session in
    Ok (pk_pre_key_id message, promote_state new_session record).

(** The identity to save is that of the message, at the address. *)
Definition process_prekey (message : PreKeySignalMessage) (remote_address : ProtocolAddress)
    (record : SessionRecord) (signed_prekey_store : S) (pre_key_store : K) (identity_store : I)
    : outcome SignalProtocolError (option u32 * SessionRecord) :=
  let? trusted := is_trusted_identity remote_address (pk_identity_key message) Receiving identity_store in
  if negb trusted then Err (UntrustedIdentity remote_address)
  else process_prekey_impl message record signed_prekey_store pre_key_store identity_store.

(** [rnds]: the bytes of the base key and of the first ratchet key. *)
Definition process_prekey_bundle (remote_address : ProtocolAddress) (bundle : PreKeyBundle) (rnds : bytes * bytes)
    : comp (B * I) SignalProtocolError unit :=
  let their_identity_key := bu_identity_key bundle in
  let signed := bu_ec_signed_pre_key bundle in
  let! trusted := trusted_at remote_address their_identity_key Sending in
  if negb trusted then mfail (UntrustedIdentity remote_address)
  else if negb (verify_signature their_identity_key (public_serialize (sp_public_key signed)) (sp_signature signed))
  then mfail SignatureValidationFailed
  else
    let! loaded := load_at remote_address in
    let record := some_or session_record_new_fresh loaded in
    let our_base_key_pair := key_pair_generate rnds.1 in
    let! our_identity := fun st : B * I => (get_identity_key_pair st.2, st) in
    let parameters := mkAlice our_identity our_base_key_pair their_identity_key (sp_public_key signed)
                        (bu_pre_key_public bundle) (sp_public_key signed) in
    let! session := mlift (initialize_alice_session parameters rnds.2) in
    let session := set_unacknowledged_pre_key_message (bu_pre_key_id bundle) (sp_id signed)
                     (kp_public our_base_key_pair) session in
    let! local_id := fun st : B * I => (get_local_registration_id st.2, st) in
    let session := set_local_registration_id local_id session in
    let session := set_remote_registration_id (bu_registration_id bundle) session in
    on_identities (save_identity remote_address their_identity_key) ;;
    on_sessions (store_session remote_address (promote_state session record)).

(** ** [session_cipher.rs]: pre-key messages *)

(** The session and identity stores of the three. *)
Definition with_stores {A} (m : comp (B * I) SignalProtocolError A) : comp (B * I * K) SignalProtocolError A :=
  fun st => let '(o, bi) := m st.1 in (o, (bi, st.2)).
Definition with_prekeys {A} (m : comp K SignalProtocolError A) : comp (B * I * K) SignalProtocolError A :=
  fun st => let '(o, k) := m st.2 in (o, (st.1, k)).

Definition message_decrypt_prekey (ciphertext : PreKeySignalMessage) (remote_address : ProtocolAddress)
    (signed_pre_key_store : S) (rnds : list bytes) : comp (B * I * K) SignalProtocolError bytes :=
  let! loaded := with_stores (load_at remote_address) in
  let record := some_or session_record_new_fresh loaded in
  let! used := fun st => (process_prekey ciphertext remote_address record signed_pre_key_store st.2 st.1.2, st) in
  let '(o, record) := decrypt_message_with_record (pk_message ciphertext) CT_PreKey rnds used.2 in
  let! result := mlift o in
  with_stores (on_identities (save_identity remote_address (pk_identity_key ciphertext))) ;;
  with_stores (on_sessions (store_session remote_address record)) ;;
  match used.1 with
  | Some pre_key_id => with_prekeys (remove_pre_key pre_key_id)
  | None => mret tt
  end ;;
  mret (plaintext result).

(** [{:?}] of a message type *)
Definition debug_type (t : CiphertextMessageType) : str :=
  match t with
  | CT_Whisper => lit "Whisper"
  | CT_PreKey => lit "PreKey"
  | CT_SenderKey => lit "SenderKey"
  | CT_Plaintext => lit "Plaintext"
  end.

Definition message_decrypt (ciphertext : CiphertextMessage)
    (remote_address : ProtocolAddress) (signed_pre_key_store : S) (rnds : list bytes)
    : comp (B * I * K) SignalProtocolError bytes :=
  match ciphertext with
  | C_Signal m => with_stores (message_decrypt_signal m remote_address rnds)
  | C_PreKey m => message_decrypt_prekey m remote_address signed_pre_key_store rnds
  | _ => mfail (InvalidArgument (lit "message_decrypt cannot be used to decrypt "
                 ++ debug_type (message_type ciphertext) ++ lit " messages"))
  end.
End Setup.

(** ** Stores that answer *)

Class ReliableStores (B I K : Type) `{HB : !SessionStore B, HI : !IdentityKeyStore I, HPK : !PreKeyStore K} := {
  load_session_returns : forall a (b : B), load_session a b = Ok (view_session b a);
  store_session_returns : forall a r (b : B), exists b', store_session a r b = (Ok tt, b');
  save_identity_returns : forall a k (i : I), exists c i', save_identity a k i = (Ok c, i');
  remove_pre_key_returns : forall id (k : K), exists k', remove_pre_key id k = (Ok tt, k')
}.

Section FirstMessage.
Context `{HK : !Hkdf, HS : !Hashes, HA : !AesCbc, HC : !Curve25519, HP : !SignalProto}.
Context {B I K S : Type} `{HB : !SessionStore B, HI : !IdentityKeyStore I, HPK : !PreKeyStore K,
  HSP : !SignedPreKeyStore S, HR : !ReliableStores B I K}.

(** Records give back the key pairs they were made of. *)
Lemma key_pair_roundtrip kp :
  valid_pair kp ->
  key_pair_from_public_and_private (public_serialize (kp_public kp)) (private_serialize (kp_private kp)) = Ok kp.
Proof.
  intros Hv. unfold key_pair_from_public_and_private, private_serialize.
  rewrite public_roundtrip by (by apply valid_public_length). cbn [obind].
  rewrite private_roundtrip by apply Hv. cbn [obind]. by destruct kp as [? []].
Qed.

Lemma prekey_pair id kp : valid_pair kp -> prekey_key_pair (prekey_new id kp) = Ok kp.
Proof. intros Hv. unfold prekey_key_pair. cbn [prekey_new pkr_public_key pkr_private_key required ok_or obind].
  by rewrite key_pair_roundtrip. Qed.

Lemma signed_pair id ts kp sig : valid_pair kp -> signed_prekey_key_pair (signed_prekey_new id ts kp sig) = Ok kp.
Proof. intros Hv. unfold signed_prekey_key_pair. cbn [signed_prekey_new spk_public_key spk_private_key required ok_or obind].
  by rewrite key_pair_roundtrip. Qed.

Lemma as_i32_wrap v : is_u32 v -> wrap 32 (as_i32 v) = v.
Proof.
  unfold is_u32, as_i32. intros Hv. destruct (Z.ltb_spec v (2 ^ 31)); [apply wrap_small; lia|].
  unfold wrap. replace (v - 2 ^ 32) with (v + (-1) * 2 ^ 32) by lia. rewrite Z.mod_add by lia. apply Z.mod_small. lia.
Qed.

(** Pre-key messages survive the wire. *)
Lemma pksm_roundtrip me peer pk base n p m s it :
  carries me peer pk base n p m -> length (pk_bytes me) = 32%nat ->
  length (pk_bytes (ua_base_key it)) = 32%nat -> is_u32 (local_registration_id s) ->
  is_u32 (ua_signed_pre_key_id it) -> match ua_pre_key_id it with Some i => is_u32 i | None => True end ->
  exists pm, wrapped s me (Some it) m = C_PreKey pm /\ pksm_try_from (pk_serialized pm) = Ok pm.
Proof.
  intros Hc Hme Hb Hl Hs Hp. eexists. split; [done|]. cbn [pk_serialized].
  change (Z.lor _ CIPHERTEXT_MESSAGE_CURRENT_VERSION) with 51. unfold pksm_try_from.
  change (negb (in_range _ _ (Z.shiftr 51 4))) with false. cbv iota.
  rewrite pksm_decode_encode by done.
  cbn [ok_or obind pkpb_base_key pkpb_identity_key pkpb_message pkpb_signed_pre_key_id pkpb_registration_id pkpb_pre_key_id].
  unfold identity_decode. rewrite !public_roundtrip by done. cbn [map_err obind].
  rewrite (cr_wire _ _ _ _ _ _ _ Hc). done.
Qed.

(** What the answering side published and holds. *)
Record published (bundle : PreKeyBundle) (i : I) (k : K) (s : S) (id : IdentityKeyPair) (spk : KeyPair)
    (otk : option KeyPair) : Prop := {
  pb_identity : get_identity_key_pair i = Ok id;
  pb_identity_valid : valid_pair (mkKeyPair (ikp_identity_key id) (ikp_private_key id));
  pb_registration : exists l, get_local_registration_id i = Ok l;
  pb_bundle_identity : bu_identity_key bundle = ikp_identity_key id;
  pb_signed_public : sp_public_key (bu_ec_signed_pre_key bundle) = kp_public spk;
  pb_signed_valid : valid_pair spk;
  pb_signed_id : is_u32 (sp_id (bu_ec_signed_pre_key bundle));
  pb_signed : exists ts, get_signed_pre_key (sp_id (bu_ec_signed_pre_key bundle)) s
    = Ok (signed_prekey_new (sp_id (bu_ec_signed_pre_key bundle)) ts spk (sp_signature (bu_ec_signed_pre_key bundle)));
  pb_signature : verify_signature (ikp_identity_key id) (public_serialize (kp_public spk))
    (sp_signature (bu_ec_signed_pre_key bundle)) = true;
  pb_one_time_public : bu_pre_key_public bundle = option_map kp_public otk;
  pb_one_time : match bu_pre_key_id bundle, otk with
                | Some pid, Some kp => is_u32 pid /\ valid_pair kp /\ get_pre_key pid k = Ok (prekey_new pid kp)
                | None, None => True
                | _, _ => False
                end
}.

Lemma published_matching bundle i k s id spk otk ida base :
  published bundle i k s id spk otk ->
  valid_pair (mkKeyPair (ikp_identity_key ida) (ikp_private_key ida)) -> valid_pair base ->
  matching (mkAlice ida base (ikp_identity_key id) (kp_public spk) (option_map kp_public otk) (kp_public spk))
    (mkBob id spk otk spk (ikp_identity_key ida) (kp_public base)).
Proof.
  intros [] Ha Hb. split; try done. cbn. destruct (bu_pre_key_id bundle), otk; try done. apply pb_one_time0.
Qed.

(** The answering side finds its keys. *)
Lemma process_prekey_run bundle i k s id spk otk m addr rec lid :
  published bundle i k s id spk otk -> get_local_registration_id i = Ok lid ->
  is_trusted_identity addr (pk_identity_key m) Receiving i = Ok true ->
  promote_matching_session (E := SignalProtocolError) (pk_version m) (public_serialize (pk_base_key m)) rec = Ok (false, rec) ->
  pk_signed_pre_key_id m = sp_id (bu_ec_signed_pre_key bundle) -> pk_pre_key_id m = bu_pre_key_id bundle ->
  process_prekey m addr rec s k i =
    let? b := initialize_bob_session (mkBob id spk otk spk (pk_identity_key m) (pk_base_key m)) in
    Ok (bu_pre_key_id bundle, promote_state (set_remote_registration_id (pk_registration_id m)
                                               (set_local_registration_id lid b)) rec).
Proof.
  intros Hp Hl Ht Hm Hs Ho. unfold process_prekey, process_prekey_impl. rewrite Ht. cbn [obind negb].
  rewrite Hm. cbn [obind fst snd]. rewrite Hs, Ho. destruct (pb_signed _ _ _ _ _ _ _ Hp) as (ts & ->). cbn [obind].
  rewrite signed_pair by apply (pb_signed_valid _ _ _ _ _ _ _ Hp). cbn [obind].
  pose proof (pb_one_time _ _ _ _ _ _ _ Hp) as H1.
  destruct (bu_pre_key_id bundle) as [pid|], otk as [kp|]; try done.
  - destruct H1 as (_ & Hv & ->). cbn [obind]. rewrite prekey_pair by done. cbn [obind].
    rewrite (pb_identity _ _ _ _ _ _ _ Hp). cbn [obind]. destruct (initialize_bob_session _); cbn [obind]; try done.
    by rewrite Hl.
  - cbn [obind]. rewrite (pb_identity _ _ _ _ _ _ _ Hp). cbn [obind].
    destruct (initialize_bob_session _); cbn [obind]; try done. by rewrite Hl.
Qed.

(** ** The operations over stores that answer *)

(** The session the starting side makes of a bundle. *)
Definition started (bundle : PreKeyBundle) (base : PublicKey) (lid : u32) (a : SessionState) : SessionState :=
  set_remote_registration_id (bu_registration_id bundle)
    (set_local_registration_id lid
       (set_unacknowledged_pre_key_message (bu_pre_key_id bundle) (sp_id (bu_ec_signed_pre_key bundle)) base a)).

Lemma process_bundle_effects addr bundle rnds b i ida lid a :
  is_trusted_identity addr (bu_identity_key bundle) Sending i = Ok true ->
  verify_signature (bu_identity_key bundle) (public_serialize (sp_public_key (bu_ec_signed_pre_key bundle)))
    (sp_signature (bu_ec_signed_pre_key bundle)) = true ->
  get_identity_key_pair i = Ok ida -> get_local_registration_id i = Ok lid ->
  initialize_alice_session (mkAlice ida (key_pair_generate rnds.1) (bu_identity_key bundle)
    (sp_public_key (bu_ec_signed_pre_key bundle)) (bu_pre_key_public bundle)
    (sp_public_key (bu_ec_signed_pre_key bundle))) rnds.2 = Ok a ->
  exists b' i' c, process_prekey_bundle addr bundle rnds (b, i) = (Ok tt, (b', i'))
    /\ store_session addr (promote_state (started bundle (kp_public (key_pair_generate rnds.1)) lid a)
         (some_or session_record_new_fresh (view_session b addr))) b = (Ok tt, b')
    /\ save_identity addr (bu_identity_key bundle) i = (Ok c, i').
Proof.
  intros Ht Hv Hi Hl Ha.
  destruct (save_identity_returns (B := B) (K := K) addr (bu_identity_key bundle) i) as (c & i' & Hs).
  destruct (store_session_returns (I := I) (K := K) addr (promote_state
    (started bundle (kp_public (key_pair_generate rnds.1)) lid a)
    (some_or session_record_new_fresh (view_session b addr))) b) as (b' & Hst).
  exists b', i', c. split; [|done].
  unfold process_prekey_bundle, mbind', mlift, trusted_at, load_at, on_identities, on_sessions. cbn [fst snd].
  rewrite Ht. cbn [negb]. rewrite Hv. cbn [negb]. rewrite (load_session_returns (I := I) (K := K)).
  cbn [fst snd]. rewrite Hi, Ha. cbn [fst snd]. rewrite Hl. cbn [fst snd]. rewrite Hs. cbn [fst snd].
  fold (started bundle (kp_public (key_pair_generate rnds.1)) lid a). by rewrite Hst.
Qed.

Lemma process_bundle_run addr bundle rnds b i ida lid a :
  is_trusted_identity addr (bu_identity_key bundle) Sending i = Ok true ->
  verify_signature (bu_identity_key bundle) (public_serialize (sp_public_key (bu_ec_signed_pre_key bundle)))
    (sp_signature (bu_ec_signed_pre_key bundle)) = true ->
  get_identity_key_pair i = Ok ida -> get_local_registration_id i = Ok lid ->
  initialize_alice_session (mkAlice ida (key_pair_generate rnds.1) (bu_identity_key bundle)
    (sp_public_key (bu_ec_signed_pre_key bundle)) (bu_pre_key_public bundle)
    (sp_public_key (bu_ec_signed_pre_key bundle))) rnds.2 = Ok a ->
  exists b' i', process_prekey_bundle addr bundle rnds (b, i) = (Ok tt, (b', i'))
    /\ view_session b' addr = Some (promote_state
         (started bundle (kp_public (key_pair_generate rnds.1)) lid a)
         (some_or session_record_new_fresh (view_session b addr)))
    /\ is_trusted_identity addr (bu_identity_key bundle) Sending i' = Ok true.
Proof.
  intros Ht Hv Hi Hl Ha. destruct (process_bundle_effects addr bundle rnds b i ida lid a) as (b' & i' & c & Hp & Hst & Hs); [done..|].
  exists b', i'. split; [done|]. split; [by eapply store_session_ok|by eapply save_identity_trusted].
Qed.

Lemma message_encrypt_run p addr rec a a' out peer b i :
  view_session b addr = Some rec -> current_session rec = Some a ->
  encrypt_with_state p addr a = (Ok (out, peer), a') -> is_trusted_identity addr peer Sending i = Ok true ->
  exists b' i', message_encrypt p addr (b, i) = (Ok out, (b', i'))
    /\ view_session b' addr = Some (set_session_state a' rec).
Proof.
  intros Hv Hc He Ht.
  destruct (save_identity_returns (B := B) (K := K) addr peer i) as (c & i' & Hs).
  destruct (store_session_returns (I := I) (K := K) addr (set_session_state a' rec) b) as (b' & Hst).
  exists b', i'. split; [|by eapply store_session_ok].
  unfold message_encrypt, mbind', mlift, load_at, trusted_at, on_identities, on_sessions. cbn [fst snd].
  rewrite (load_session_returns (I := I) (K := K)), Hv. cbn [ok_or]. rewrite Hc. cbn [ok_or]. rewrite He. cbn [fst snd].
  rewrite Ht. cbn [negb fst snd]. rewrite Hs. cbn [fst snd]. by rewrite Hst.
Qed.

Lemma decrypt_prekey_run m addr sps rnds b i k oid rec res rec' :
  process_prekey m addr (some_or session_record_new_fresh (view_session b addr)) sps k i = Ok (oid, rec) ->
  decrypt_message_with_record (pk_message m) CT_PreKey rnds rec = (Ok res, rec') ->
  exists b' i' k', message_decrypt_prekey m addr sps rnds (b, i, k) = (Ok (plaintext res), (b', i', k'))
    /\ view_session b' addr = Some rec'
    /\ forall id, oid = Some id -> forall r, get_pre_key id k' <> Ok r.
Proof.
  intros Hp Hd.
  destruct (save_identity_returns (B := B) (K := K) addr (pk_identity_key m) i) as (c & i' & Hs).
  destruct (store_session_returns (I := I) (K := K) addr rec' b) as (b' & Hst).
  assert (message_decrypt_prekey m addr sps rnds (b, i, k)
    = match oid with
      | Some id => match remove_pre_key id k with
                   | (Ok _, k') => (Ok (plaintext res), (b', i', k'))
                   | (Err e, k') => (Err e, (b', i', k'))
                   | (Panic, k') => (Panic, (b', i', k'))
                   | (NoFuel, k') => (NoFuel, (b', i', k'))
                   end
      | None => (Ok (plaintext res), (b', i', k))
      end) as Hrun.
  { unfold message_decrypt_prekey, mbind', mlift, with_stores, load_at, on_identities, on_sessions. cbn [fst snd].
    rewrite (load_session_returns (I := I) (K := K)). cbn [fst snd]. rewrite Hp. cbn [fst snd]. rewrite Hd. cbn [fst snd].
    rewrite Hs. cbn [fst snd]. rewrite Hst. cbn [fst snd]. destruct oid as [id|]; [|done].
    unfold with_prekeys. cbn [fst snd]. by destruct (remove_pre_key id k) as [[]]. }
  destruct oid as [id|].
  - destruct (remove_pre_key_returns (B := B) (I := I) id k) as (k' & Hr). exists b', i', k'.
    split; [by rewrite Hrun, Hr|]. split; [by eapply store_session_ok|].
    intros id' [= <-]. by eapply remove_pre_key_ok.
  - exists b', i', k. split; [exact Hrun|]. split; [by eapply store_session_ok|done].
Qed.

(** ** The first message *)

Lemma started_same bundle base lid a :
  length (pk_bytes base) = 32%nat -> same_ratchet a (started bundle base lid a)
  /\ unacknowledged_pre_key_message_items (started bundle base lid a)
     = Ok (Some (mkUnacked (bu_pre_key_id bundle) (wrap 32 (as_i32 (sp_id (bu_ec_signed_pre_key bundle)))) base)).
Proof.
  intros Hb. assert (unacknowledged_pre_key_message_items (started bundle base lid a)
     = Ok (Some (mkUnacked (bu_pre_key_id bundle) (wrap 32 (as_i32 (sp_id (bu_ec_signed_pre_key bundle)))) base))) as E.
  { unfold unacknowledged_pre_key_message_items, started.
    cbn [set_remote_registration_id set_local_registration_id set_unacknowledged_pre_key_message upd_pending_pre_key
         pending_pre_key pp_base_key pp_pre_key_id pp_signed_pre_key_id ok_or obind some_or].
    by rewrite public_roundtrip. }
  split; [|exact E]. split; try done. by eexists.
Qed.

Lemma exchange_decrypts p rnd addr x y out peer x1 m q x' y' :
  encrypt_with_state p addr x = (Ok (out, peer), x1) -> signal_part out = Some m ->
  sm_try_from (sm_serialized m) = Ok m -> exchange p rnd addr x y = Ok (q, x', y') ->
  x' = x1 /\ decrypt_message_with_state m (message_type out) rnd y = (Ok q, y').
Proof.
  unfold exchange. intros -> -> H. cbn [ok_or obind]. rewrite H. cbn [obind].
  destruct (decrypt_message_with_state m _ rnd y) as [[]]; try done. by intros [= -> -> ->].
Qed.

Lemma initialized_pending pb b :
  initialize_bob_session pb = Ok b -> pending_pre_key b = None.
Proof.
  unfold initialize_bob_session, agree, calculate_agreement. cbn [map_err obind].
  destruct (bo_our_one_time_pre_key_pair pb); cbn [obind]; destruct (derive_keys _) as [[]]; by intros [= <-].
Qed.

(** The session the answering side makes differs in its registration ids only. *)
Lemma answered_same pb b lid rid :
  initialize_bob_session pb = Ok b ->
  same_ratchet b (set_remote_registration_id rid (set_local_registration_id lid b)).
Proof.
  intros Hb. split; try done. exists None. unfold unacknowledged_pre_key_message_items. cbn.
  by rewrite (initialized_pending pb).
Qed.

(** The ratchet part: the first message is decrypted and the two states fit. *)
Lemma first_ratchet pa pb rnd1 rnd p addr events a0 b0 a b it :
  matching pa pb -> length rnd1 = 32%nat -> length rnd = 32%nat ->
  initialize_alice_session pa rnd1 = Ok a0 -> initialize_bob_session pb = Ok b0 ->
  same_ratchet a0 a -> same_ratchet b0 b -> unacknowledged_pre_key_message_items a = Ok (Some it) ->
  Forall (fun e => length e.2 = 32%nat) events ->
  NoDup (kp_public (bo_our_ratchet_key_pair pb) :: kp_public (key_pair_generate rnd1)
         :: kp_public (key_pair_generate rnd) :: map draw_key events) ->
  Z.of_nat (length events) < 2 ^ 32 - 2 ->
  exists pk base sm a' b',
    encrypt_with_state p addr a
      = (Ok (wrapped a (ikp_identity_key (al_our_identity_key_pair pa)) (Some it) sm,
             ikp_identity_key (bo_our_identity_key_pair pb)), a')
    /\ carries (ikp_identity_key (al_our_identity_key_pair pa)) (ikp_identity_key (bo_our_identity_key_pair pb))
         pk base 0 p sm
    /\ decrypt_message_with_state sm CT_PreKey rnd b = (Ok p, b')
    /\ converse addr events a' b' = Ok (map (fun e => e.1.2) events).
Proof.
  intros Hmt Hr1 Hr Ha Hb Hsa Hsb Hit Hev Hnd Hlen.
  destruct (x3dh_linked pa pb rnd1 Hmt Hr1) as (? & ? & Ea & Eb & Hl).
  rewrite Ha in Ea. rewrite Hb in Eb. injection Ea as <-. injection Eb as <-.
  apply (linked_same _ _ _ _ _ _ _ _ Hsa Hsb) in Hl.
  set (kr := bo_our_ratchet_key_pair pb) in *. set (g := key_pair_generate rnd1) in *.
  destruct (step_new _ _ _ 1 a b p addr rnd (linked_weaken _ _ _ 0 1 _ _ ltac:(lia) Hl) ltac:(lia) Hr)
    as (a2 & b2 & Ex & Hl2).
  { apply NoDup_cons in Hnd as [H1 Hnd]. apply NoDup_cons in Hnd as [H2 _].
    rewrite !not_elem_of_cons in H1. rewrite not_elem_of_cons in H2. rewrite !not_elem_of_cons.
    destruct H1 as (_ & H1 & _), H2 as [H2 _]. split_and!; [congruence|congruence|apply not_elem_of_nil]. }
  destruct Hl as (kx & bx & rx & ksx & ky & by_ & ny & ry & ksy & Hx & _).
  destruct (encrypt_items _ _ _ _ _ _ _ _ p addr _ Hx ltac:(lia) Hit) as (sm & a2' & Ee & _ & _ & Hcar).
  destruct (exchange_decrypts _ _ _ _ _ _ _ _ _ _ _ _ Ee (wrapped_signal _ _ _ _) (cr_wire _ _ _ _ _ _ _ Hcar) Ex)
    as [-> Hdec].
  exists (kp_public kx), bx, sm, a2', b2. split; [done|]. split; [done|]. split; [exact Hdec|].
  destruct (fresh_draws [kp_public kr; kp_public g; kp_public (key_pair_generate rnd)]
    [kp_public (key_pair_generate rnd); kp_public g; kp_public kr] events Hnd) as [Hd Hnd']; [|done|].
  { intros k. rewrite !elem_of_cons. tauto. }
  eapply converse_run; [right; exact Hl2|lia|lia|done|done].
Qed.

Lemma first_message_lem bundle addr_b addr_a rnds p rnd events ba ia lida ida bb ib kb sb id spk otk :
  published bundle ib kb sb id spk otk ->
  get_identity_key_pair ia = Ok ida -> valid_pair (mkKeyPair (ikp_identity_key ida) (ikp_private_key ida)) ->
  get_local_registration_id ia = Ok lida -> is_u32 lida ->
  is_trusted_identity addr_b (ikp_identity_key id) Sending ia = Ok true ->
  is_trusted_identity addr_a (ikp_identity_key ida) Receiving ib = Ok true ->
  promote_matching_session (E := SignalProtocolError) 3 (public_serialize (kp_public (key_pair_generate rnds.1)))
    (some_or session_record_new_fresh (view_session bb addr_a))
    = Ok (false, some_or session_record_new_fresh (view_session bb addr_a)) ->
  length rnds.1 = 32%nat -> length rnds.2 = 32%nat -> length rnd = 32%nat ->
  Forall (fun e => length e.2 = 32%nat) events ->
  NoDup (kp_public spk :: kp_public (key_pair_generate rnds.2) :: kp_public (key_pair_generate rnd)
         :: map draw_key events) ->
  Z.of_nat (length events) < 2 ^ 32 - 2 ->
  exists ba1 ia1 m ba2 ia2 bb1 ib1 kb1 ra rb a b,
    process_prekey_bundle addr_b bundle rnds (ba, ia) = (Ok tt, (ba1, ia1))
    /\ message_encrypt p addr_b (ba1, ia1) = (Ok (C_PreKey m), (ba2, ia2))
    /\ pksm_try_from (pk_serialized m) = Ok m
    /\ message_decrypt_prekey m addr_a sb [rnd] (bb, ib, kb) = (Ok p, (bb1, ib1, kb1))
    /\ (forall pid, bu_pre_key_id bundle = Some pid -> forall r, get_pre_key pid kb1 <> Ok r)
    /\ view_session ba2 addr_b = Some ra /\ current_session ra = Some a
    /\ view_session bb1 addr_a = Some rb /\ current_session rb = Some b
    /\ converse addr_b events a b = Ok (map (fun e => e.1.2) events).
Proof.
  intros Hpub Hida Hva Hlid Hlu Hta Htb Hno Hr1 Hr2 Hr3 Hev Hnd Hlen.
  pose proof (key_pair_generate_valid rnds.1 Hr1) as Hvb.
  set (base := key_pair_generate rnds.1) in *.
  set (pa := mkAlice ida base (ikp_identity_key id) (kp_public spk) (option_map kp_public otk) (kp_public spk)).
  set (pb := mkBob id spk otk spk (ikp_identity_key ida) (kp_public base)).
  pose proof (published_matching _ _ _ _ _ _ _ ida base Hpub Hva Hvb) as Hmt.
  destruct (x3dh_linked pa pb rnds.2 Hmt Hr2) as (a0 & b0 & Ha0 & Hb0 & Hlink).
  destruct (pb_registration _ _ _ _ _ _ _ Hpub) as (lidb & Hlidb).
  destruct (started_same bundle (kp_public base) lida a0 (valid_public_length _ Hvb)) as [Hsa Hita].
  pose proof (answered_same pb b0 lidb lida Hb0) as Hsb.
  pose proof (linked_same _ _ _ _ _ _ _ _ Hsa Hsb Hlink) as Hl.
  set (a1 := started bundle (kp_public base) lida a0) in *.
  set (b1 := set_remote_registration_id lida (set_local_registration_id lidb b0)) in *.
  (* the starting side *)
  destruct (process_bundle_run addr_b bundle rnds ba ia ida lida a0) as (ba1 & ia1 & E1 & Hv1 & Ht1); try done.
  { by rewrite (pb_bundle_identity _ _ _ _ _ _ _ Hpub). }
  { rewrite (pb_bundle_identity _ _ _ _ _ _ _ Hpub), (pb_signed_public _ _ _ _ _ _ _ Hpub).
    apply (pb_signature _ _ _ _ _ _ _ Hpub). }
  { rewrite (pb_bundle_identity _ _ _ _ _ _ _ Hpub), (pb_signed_public _ _ _ _ _ _ _ Hpub),
      (pb_one_time_public _ _ _ _ _ _ _ Hpub). exact Ha0. }
  rewrite (pb_bundle_identity _ _ _ _ _ _ _ Hpub) in Ht1. cbn [fst snd] in Hv1. fold base a1 in Hv1.
  destruct (first_ratchet pa pb rnds.2 rnd p addr_b events a0 b0 a1 b1 _ Hmt Hr2 Hr3 Ha0 Hb0 Hsa Hsb Hita Hev Hnd Hlen)
    as (pk & cb & sm & a2 & b2 & Ee & Hcar & Hdec & Hconv).
  rewrite as_i32_wrap in * by apply (pb_signed_id _ _ _ _ _ _ _ Hpub).
  destruct (message_encrypt_run p addr_b _ a1 a2 _ _ ba1 ia1 Hv1 eq_refl Ee Ht1) as (ba2 & ia2 & E2 & Hv2).
  set (it := mkUnacked (bu_pre_key_id bundle) (sp_id (bu_ec_signed_pre_key bundle)) (kp_public base)) in *.
  destruct (pksm_roundtrip _ _ _ _ _ _ _ a1 it Hcar (valid_public_length _ Hva) (valid_public_length _ Hvb))
    as (m & Em & Hw); [done|apply (pb_signed_id _ _ _ _ _ _ _ Hpub)| |].
  { pose proof (pb_one_time _ _ _ _ _ _ _ Hpub) as H1. cbn. by destruct (bu_pre_key_id bundle), otk; try apply H1. }
  rewrite Em in E2. unfold wrapped in Em. injection Em as Em.
  assert (pk_message m = sm /\ pk_identity_key m = ikp_identity_key ida /\ pk_base_key m = kp_public base
          /\ pk_registration_id m = lida) as (Em1 & Em2 & Em3 & Em4) by (by rewrite <- Em).
  (* the answering side *)
  set (rec := some_or session_record_new_fresh (view_session bb addr_a)) in *.
  assert (process_prekey m addr_a rec sb kb ib = Ok (bu_pre_key_id bundle, promote_state b1 rec)) as Hproc.
  { rewrite (process_prekey_run bundle ib kb sb id spk otk m addr_a rec lidb Hpub Hlidb); rewrite ?Em2, ?Em3, ?Em4.
    - fold pb. by rewrite Hb0.
    - done.
    - rewrite <- Em. exact Hno.
    - by rewrite <- Em.
    - by rewrite <- Em. }
  destruct (decrypt_prekey_run m addr_a sb [rnd] bb ib kb (bu_pre_key_id bundle) (promote_state b1 rec)
    (mkDecryptionResult p false) (set_session_state b2 (promote_state b1 rec))
    Hproc ltac:(unfold decrypt_message_with_record; cbn [take_session_state promote_state current_session head some_or];
                by rewrite Em1, Hdec)) as (bb1 & ib1 & kb1 & E3 & Hv3 & Hrm).
  do 12 eexists. split; [exact E1|]. split; [exact E2|]. split; [exact Hw|]. split; [exact E3|]. split; [exact Hrm|].
  split; [exact Hv2|]. split; [reflexivity|]. split; [exact Hv3|]. split; [reflexivity|exact Hconv].
Qed.
End FirstMessage.

(** C4: A session from nothing to a conversation.  The starting side processes
    a published bundle, with or without a one-time pre-key, and encrypts; what
    it sends is a pre-key message whose bytes parse back to it; the answering
    side decrypts it to the plaintext and its one-time pre-key is gone; and the
    sessions that the two stores then hold carry every further conversation. *)
Theorem first_message `{!Hkdf, !Hashes, !AesCbc, !Curve25519, !SignalProto} {B I K S : Type}
    `{HB : !SessionStore B, HI : !IdentityKeyStore I, HPK : !PreKeyStore K, HSP : !SignedPreKeyStore S,
      HR : !ReliableStores B I K}
    bundle addr_b addr_a rnds p rnd events (ba : B) (ia : I) lida ida (bb : B) (ib : I) (kb : K) (sb : S) id spk otk :
  published bundle ib kb sb id spk otk ->
  get_identity_key_pair ia = Ok ida -> valid_pair (mkKeyPair (ikp_identity_key ida) (ikp_private_key ida)) ->
  get_local_registration_id ia = Ok lida -> is_u32 lida ->
  is_trusted_identity addr_b (ikp_identity_key id) Sending ia = Ok true ->
  is_trusted_identity addr_a (ikp_identity_key ida) Receiving ib = Ok true ->
  promote_matching_session (E := SignalProtocolError) 3 (public_serialize (kp_public (key_pair_generate rnds.1)))
    (some_or session_record_new_fresh (view_session bb addr_a))
    = Ok (false, some_or session_record_new_fresh (view_session bb addr_a)) ->
  length rnds.1 = 32%nat -> length rnds.2 = 32%nat -> length rnd = 32%nat ->
  Forall (fun e => length e.2 = 32%nat) events ->
  NoDup (kp_public spk :: kp_public (key_pair_generate rnds.2) :: kp_public (key_pair_generate rnd)
         :: map draw_key events) ->
  Z.of_nat (length events) < 2 ^ 32 - 2 ->
  exists ba1 ia1 m ba2 ia2 bb1 ib1 kb1 ra rb a b,
    process_prekey_bundle addr_b bundle rnds (ba, ia) = (Ok tt, (ba1, ia1))
    /\ message_encrypt p addr_b (ba1, ia1) = (Ok (C_PreKey m), (ba2, ia2))
    /\ pksm_try_from (pk_serialized m) = Ok m
    /\ message_decrypt_prekey m addr_a sb [rnd] (bb, ib, kb) = (Ok p, (bb1, ib1, kb1))
    /\ (forall pid, bu_pre_key_id bundle = Some pid -> forall r, get_pre_key pid kb1 <> Ok r)
    /\ view_session ba2 addr_b = Some ra /\ current_session ra = Some a
    /\ view_session bb1 addr_a = Some rb /\ current_session rb = Some b
    /\ converse addr_b events a b = Ok (map (fun e => e.1.2) events).
Proof. apply first_message_lem. Qed.

(** ** Witness *)

Definition toy_prekeys : PreKeyStore (Z -> option PreKeyRecord).
Proof.
  refine {| get_pre_key id k := ok_or InvalidPreKeyId (k id);
            save_pre_key id r k := (Ok tt, fun id' => if id =? id' then Some r else k id');
            remove_pre_key id k := (Ok tt, fun id' => if id =? id' then None else k id') |}.
  intros id k k' [= <-] r. by rewrite Z.eqb_refl.
Defined.

Definition toy_signed_prekeys : SignedPreKeyStore (Z -> option SignedPreKeyRecord) :=
  {| get_signed_pre_key id k := ok_or InvalidSignedPreKeyId (k id);
     save_signed_pre_key id r k := (Ok tt, fun id' => if id =? id' then Some r else k id') |}.

Definition toy_stores : @ReliableStores (ProtocolAddress -> option SessionRecord) IdentityKeyPair
  (Z -> option PreKeyRecord) toy_sessions toy_identities toy_prekeys.
Proof. split; intros; repeat eexists. Defined.

Definition toy_signature : bytes := sum_sign [] (replicate 32 3) (public_serialize (kp_public (toy_pair 4))).
Definition toy_bundle : PreKeyBundle :=
  mkBundle 44 1 (Some 9) (Some (kp_public (toy_pair 5)))
    (mkSignedPreKey 8 (kp_public (toy_pair 4)) toy_signature) (kp_public (toy_pair 3)).
Definition toy_prekey_table : Z -> option PreKeyRecord :=
  fun id => if id =? 9 then Some (prekey_new 9 (toy_pair 5)) else None.
Definition toy_signed_table : Z -> option SignedPreKeyRecord :=
  fun id => if id =? 8 then Some (signed_prekey_new 8 1000 (toy_pair 4) toy_signature) else None.

Lemma toy_published :
  @published sum_curve IdentityKeyPair (Z -> option PreKeyRecord) (Z -> option SignedPreKeyRecord)
    toy_identities toy_prekeys toy_signed_prekeys
    toy_bundle (toy_identity 3) toy_prekey_table toy_signed_table (toy_identity 3) (toy_pair 4) (Some (toy_pair 5)).
Proof.
  split; try reflexivity.
  - by split.
  - by exists 33.
  - by split.
  - cbn. unfold is_u32. lia.
  - by exists 1000.
  - cbn. unfold is_u32. split; [lia|]. split; [by split|done].
Qed.

Lemma first_message_witness :
  exists ba1 ia1 m ba2 ia2 bb1 ib1 kb1,
    @process_prekey_bundle toy_hkdf sum_curve _ _ toy_sessions toy_identities toy_address toy_bundle
      (replicate 32 2, replicate 32 6) (fun _ => None, toy_identity 1) = (Ok tt, (ba1, ia1))
    /\ @message_encrypt toy_hkdf toy_hashes toy_aes toy_signal _ _ toy_sessions toy_identities
         [1; 2; 3] toy_address (ba1, ia1) = (Ok (C_PreKey m), (ba2, ia2))
    /\ @message_decrypt_prekey toy_hkdf toy_hashes toy_aes sum_curve _ _ _ _ toy_sessions toy_identities toy_prekeys
         toy_signed_prekeys m (mkProtocolAddress (lit "alice") 2) toy_signed_table [replicate 32 7]
         (fun _ => None, toy_identity 3, toy_prekey_table) = (Ok [1; 2; 3], (bb1, ib1, kb1)).
Proof.
  destruct (@first_message toy_hkdf toy_hashes toy_aes sum_curve toy_signal _ _ _ _ toy_sessions toy_identities
    toy_prekeys toy_signed_prekeys toy_stores toy_bundle toy_address (mkProtocolAddress (lit "alice") 2)
    (replicate 32 2, replicate 32 6) [1; 2; 3] (replicate 32 7) [(false, [4], replicate 32 8)] (fun _ => None)
    (toy_identity 1) 33 (toy_identity 1) (fun _ => None) (toy_identity 3) toy_prekey_table toy_signed_table
    (toy_identity 3) (toy_pair 4) (Some (toy_pair 5)))
    as (ba1 & ia1 & m & ba2 & ia2 & bb1 & ib1 & kb1 & ra & rb & a & b & H1 & H2 & _ & H3 & _);
    [exact toy_published|reflexivity|by split|reflexivity|unfold is_u32; lia|reflexivity|reflexivity|reflexivity
    |reflexivity|reflexivity|reflexivity|repeat constructor| |cbn; lia|].
  - apply (bool_decide_unpack (NoDup _)). vm_compute. constructor.
  - exists ba1, ia1, m, ba2, ia2, bb1, ib1, kb1. split; [exact H1|]. split; [exact H2|exact H3].
Defined.
