(* ===== verification/Noise.v ===== *)
(** * The Noise handshake: [warp_core/src/handshake/{noise,state,utils}.rs]

    The symmetric state of the handshake (hash, salt, key, counter), the
    client's side of the XX pattern, and the check of the server's
    certificate.  AES-GCM and the protobuf encodings are interfaces.  The
    lemmas show that a server which follows the pattern reads the client's
    key and payload and ends with the client's keys ([Connection] has the
    theorem), and a theorem that the certificate check accepts chains nobody
    signed. *)

From S2P Require Import Prelude RustStd Token Crypto Curve SessionRatchet.

(** ** AES-256-GCM, of the [aes_gcm] crate *)

(** [None] is its only error: the message is too long, or does not verify. *)
Definition GCM_MAX : Z := 2 ^ 36.
Class AesGcm := {
  gcm_encrypt : bytes -> bytes -> bytes -> bytes -> option bytes;
  gcm_decrypt : bytes -> bytes -> bytes -> bytes -> option bytes;
  gcm_roundtrip : forall key iv aad m, Z.of_nat (length m) <= GCM_MAX ->
    exists c, gcm_encrypt key iv aad m = Some c /\ gcm_decrypt key iv aad c = Some m
      /\ length c = (length m + 16)%nat /\ (Forall is_byte m -> Forall is_byte c)
}.

(** [Aes256Gcm::new_from_slice] wants 32 bytes. *)
Definition gcm_key_new (k : bytes) : option bytes := if (length k =? 32)%nat then Some k else None.

(** ** [utils.rs] *)

Inductive HandshakeError :=
| HE_Proto (e : str)
| HE_ProtoDecode (e : str)
| HE_IncompleteResponse
| HE_Crypto (e : str)
| HE_CertVerification (e : str)
| HE_InvalidLength (name : str) (expected got : usize)
| HE_InvalidKeyLength.

(** [Display] *)
Definition show_handshake_error (e : HandshakeError) : str :=
  match e with
  | HE_Proto e => lit "Protobuf encoding/decoding error: " ++ e
  | HE_ProtoDecode e => lit "Protobuf decoding error: " ++ e
  | HE_IncompleteResponse => lit "Handshake response is missing required parts"
  | HE_Crypto e => lit "Crypto operation failed: " ++ e
  | HE_CertVerification e => lit "Server certificate verification failed: " ++ e
  | HE_InvalidLength name expected got =>
      lit "Unexpected data length: expected " ++ show_uint (Z.of_nat expected) ++ lit ", got "
      ++ show_uint (Z.of_nat got) ++ lit " for " ++ name
  | HE_InvalidKeyLength => lit "Invalid key length"
  end.

(** [Display] of [CurveError], with [{:#04x}] *)
Definition hex_digit (v : Z) : u8 := if v <? 10 then 48 + v else 87 + v.
Definition show_curve_error (e : CurveError) : str :=
  match e with
  | NoKeyTypeIdentifier => lit "no key type identifier"
  | BadKeyType t => lit "bad key type <0x" ++ [hex_digit (t / 16); hex_digit (t mod 16)] ++ lit ">"
  | BadKeyLength _ n => lit "bad key length <" ++ show_uint (Z.of_nat n) ++ lit "> for key with type <Djb>"
  end.

Definition generate_iv (counter : u32) : bytes := replicate 8 0 ++ u32_to_be_bytes counter.

(** ** [noise.rs] *)

Definition noise_to_array (slice : bytes) (name : string) : outcome HandshakeError bytes :=
  if (length slice =? 32)%nat then Ok slice else Err (HE_InvalidLength (lit name) 32 (length slice)).

Record NoiseHandshake := mkNoise { nz_hash : bytes; nz_salt : bytes; nz_key : bytes; nz_counter : u32 }.

Abbreviation noise A := (comp NoiseHandshake HandshakeError A).

Section Noise.
Context `{HK : !Hkdf, HS : !Hashes, HC : !Curve25519, HG : !AesGcm}.

Definition sha256_digest (data : bytes) (name : string) : outcome HandshakeError bytes :=
  match hash_new (lit "SHA-256") with
  | Ok hasher => noise_to_array (hash_finalize (hash_update data hasher)).1 name
  | _ => Panic
  end.

Definition authenticate (data : bytes) : noise unit :=
  fun n =>
    match sha256_digest (nz_hash n ++ data) "noise authenticate" with
    | Ok h => (Ok tt, mkNoise h (nz_salt n) (nz_key n) (nz_counter n))
    | Err e => (Err e, n)
    | Panic => (Panic, n)
    | NoFuel => (NoFuel, n)
    end.

Definition invalid_key_size : HandshakeError := HE_Crypto (lit "Invalid key size").

Definition noise_new (pattern header : bytes) : outcome HandshakeError NoiseHandshake :=
  let? h := if (length pattern =? 32)%nat then noise_to_array pattern "noise pattern prefix"
            else sha256_digest pattern "noise pattern derivation" in
  let? key := ok_or invalid_key_size (gcm_key_new h) in
  match authenticate header (mkNoise h h key 0) with
  | (Ok _, n) => Ok n
  | (Err e, _) => Err e
  | (Panic, _) => Panic
  | (NoFuel, _) => NoFuel
  end.

(** The counter is a [u32]; the release profile wraps. *)
Definition post_increment_counter : noise u32 :=
  fun n => (Ok (nz_counter n), mkNoise (nz_hash n) (nz_salt n) (nz_key n) (wrap 32 (nz_counter n + 1))).

(** The text of [aead::Error] *)
Definition aead_error : str := lit "aead::Error".

Definition noise_encrypt (plaintext : bytes) : noise bytes :=
  let! counter := post_increment_counter in
  fun n =>
    (let! ciphertext := mlift (ok_or (HE_Crypto aead_error)
                                 (gcm_encrypt (nz_key n) (generate_iv counter) (nz_hash n) plaintext)) in
     authenticate ciphertext ;;
     mret ciphertext) n.

(** The buffer is appended to. *)
Definition noise_encrypt_into (plaintext out : bytes) : noise bytes :=
  let! counter := post_increment_counter in
  fun n =>
    (let! ciphertext := mlift (ok_or (HE_Crypto aead_error)
                                 (gcm_encrypt (nz_key n) (generate_iv counter) (nz_hash n) plaintext)) in
     authenticate ciphertext ;;
     mret (out ++ ciphertext)) n.

Definition noise_decrypt (ciphertext : bytes) : noise bytes :=
  fun n =>
    let aad := nz_hash n in
    (let! counter := post_increment_counter in
     fun n =>
       (let! plaintext := mlift (ok_or (HE_Crypto (lit "Noise decrypt failed: " ++ aead_error))
                                   (gcm_decrypt (nz_key n) (generate_iv counter) aad ciphertext)) in
        authenticate ciphertext ;;
        mret plaintext) n) n.

Definition noise_decrypt_into (ciphertext out : bytes) : noise bytes :=
  fun n =>
    let aad := nz_hash n in
    (let! counter := post_increment_counter in
     fun n =>
       (let! plaintext := mlift (ok_or (HE_Crypto (lit "Noise decrypt failed: " ++ aead_error))
                                   (gcm_decrypt (nz_key n) (generate_iv counter) aad ciphertext)) in
        authenticate ciphertext ;;
        mret (out ++ plaintext)) n) n.

(** 64 bytes are within what HKDF-SHA256 can expand to. *)
Definition extract_and_expand (data : option bytes) (n : NoiseHandshake) : bytes * bytes :=
  let okm := hkdf (Some (nz_salt n)) (match data with Some d => d | None => [] end) [] 64 in
  (slice 0 32 okm, slice 32 64 okm).

Definition mix_into_key (data : bytes) : noise unit :=
  fun n =>
    let n := mkNoise (nz_hash n) (nz_salt n) (nz_key n) 0 in
    let '(write, read) := extract_and_expand (Some data) n in
    let n := mkNoise (nz_hash n) write (nz_key n) (nz_counter n) in
    match gcm_key_new read with
    | Some key => (Ok tt, mkNoise (nz_hash n) (nz_salt n) key (nz_counter n))
    | None => (Err invalid_key_size, n)
    end.

Definition curve_crypto {A} (o : outcome CurveError A) : outcome HandshakeError A :=
  map_err (fun e => HE_Crypto (show_curve_error e)) o.

Definition mix_shared_secret (priv_key_bytes pub_key_bytes : bytes) : noise unit :=
  let! our_private_key := mlift (curve_crypto (private_deserialize priv_key_bytes)) in
  let! their_public_key := mlift (curve_crypto (from_djb_public_key_bytes pub_key_bytes)) in
  let! shared_secret := mlift (curve_crypto (calculate_agreement our_private_key their_public_key)) in
  mix_into_key shared_secret.

Definition noise_finish (n : NoiseHandshake) : outcome HandshakeError (bytes * bytes) :=
  let '(write_bytes, read_bytes) := extract_and_expand None n in
  let? write_key := ok_or invalid_key_size (gcm_key_new write_bytes) in
  let? read_key := ok_or invalid_key_size (gcm_key_new read_bytes) in
  Ok (write_key, read_key).
End Noise.

(** ** [utils.rs]: the messages and the certificate *)

Record HelloParts := mkHello { h_ephemeral : option bytes; h_static : option bytes; h_payload : option bytes }.
Record ClientFinish := mkClientFinish {
  cf_static : option bytes; cf_payload : option bytes; cf_extended_ciphertext : option bytes
}.
Record HandshakeMessage := mkHandshakeMessage {
  client_hello : option HelloParts; server_hello : option HelloParts; client_finish : option ClientFinish
}.

Record NoiseCertificate := mkCert { cert_details : option bytes; cert_signature : option bytes }.
Record CertChain := mkCertChain { cc_leaf : option NoiseCertificate; cc_intermediate : option NoiseCertificate }.
Record CertDetails := mkCertDetails { cd_serial : option u32; cd_issuer_serial : option u32; cd_key : option bytes }.

(** Encodings; a decoding error carries its text. *)
Class HandshakeProto := {
  hm_encode : HandshakeMessage -> bytes;
  hm_decode : bytes -> sum str HandshakeMessage;
  hm_decode_encode : forall m, hm_decode (hm_encode m) = inr m;
  chain_encode : CertChain -> bytes;
  chain_decode : bytes -> sum str CertChain;
  chain_decode_encode : forall c, chain_decode (chain_encode c) = inr c;
  details_encode : CertDetails -> bytes;
  details_decode : bytes -> sum str CertDetails;
  details_decode_encode : forall d, details_decode (details_encode d) = inr d
}.

Definition decoded {A} (r : sum str A) : outcome HandshakeError A :=
  match r with inr a => Ok a | inl e => Err (HE_ProtoDecode e) end.

Definition WA_CERT_ISSUER_SERIAL : Z := 0.

Section Messages.
Context `{HPR : !HandshakeProto}.

Definition build_client_hello (ephemeral_key : bytes) : HandshakeMessage :=
  mkHandshakeMessage (Some (mkHello (Some ephemeral_key) None None)) None None.

Definition build_client_finish (encrypted_pubkey encrypted_payload : bytes) : HandshakeMessage :=
  mkHandshakeMessage None None (Some (mkClientFinish (Some encrypted_pubkey) (Some encrypted_payload) None)).

Definition parse_server_hello (response_bytes : bytes) : outcome HandshakeError (bytes * bytes * bytes) :=
  let? response := decoded (hm_decode response_bytes) in
  let? hello := ok_or HE_IncompleteResponse (server_hello response) in
  let? ephemeral := ok_or HE_IncompleteResponse (h_ephemeral hello) in
  let? static_ciphertext := ok_or HE_IncompleteResponse (h_static hello) in
  let? certificate_ciphertext := ok_or HE_IncompleteResponse (h_payload hello) in
  if negb (length ephemeral =? 32)%nat
  then Err (HE_InvalidLength (lit "server ephemeral key") 32 (length ephemeral))
  else Ok (ephemeral, static_ciphertext, certificate_ciphertext).

Definition cert_error (msg : string) : HandshakeError := HE_CertVerification (lit msg).

Definition default_or {A} (d : A) (o : option A) : A := match o with Some a => a | None => d end.

Definition verify_server_cert (cert_decrypted static_decrypted : bytes) : outcome HandshakeError unit :=
  let? chain := decoded (chain_decode cert_decrypted) in
  let? intermediate := ok_or (cert_error "Missing intermediate cert") (cc_intermediate chain) in
  let? leaf := ok_or (cert_error "Missing leaf cert") (cc_leaf chain) in
  let? intermediate_details_bytes := ok_or (cert_error "Missing intermediate details") (cert_details intermediate) in
  let? intermediate_details := decoded (details_decode intermediate_details_bytes) in
  let issuer := default_or 0 (cd_issuer_serial intermediate_details) in
  if negb (issuer =? WA_CERT_ISSUER_SERIAL)
  then Err (HE_CertVerification (lit "Unexpected intermediate issuer serial: got " ++ show_uint issuer
              ++ lit ", expected " ++ show_uint WA_CERT_ISSUER_SERIAL))
  else
    let key := default_or [] (cd_key intermediate_details) in
    if (length key =? 0)%nat then Err (cert_error "Intermediate details missing key")
    else if negb (length key =? 32)%nat then Err (cert_error "Intermediate details key is not 32 bytes")
    else
      let? leaf_details_bytes := ok_or (cert_error "Missing leaf details") (cert_details leaf) in
      let? leaf_details := decoded (details_decode leaf_details_bytes) in
      let leaf_issuer := default_or 0 (cd_issuer_serial leaf_details) in
      let serial := default_or 0 (cd_serial intermediate_details) in
      if negb (leaf_issuer =? serial)
      then Err (HE_CertVerification (lit "Leaf issuer serial mismatch: got " ++ show_uint leaf_issuer
                  ++ lit ", expected " ++ show_uint serial))
      else if negb (default_or [] (cd_key leaf_details) =s static_decrypted)
      then Err (cert_error "Cert key does not match decrypted static key")
      else Ok tt.
End Messages.

(** ** [binary/src/consts.rs] *)

Definition NOISE_START_PATTERN : bytes := lit "Noise_XX_25519_AESGCM_SHA256" ++ [0; 0; 0; 0].
Definition WA_MAGIC_VALUE : u8 := 6.
Definition WA_CONN_HEADER : bytes := lit "WA" ++ [WA_MAGIC_VALUE; DICT_VERSION].

(** ** [state.rs] *)

Record HandshakeState := mkHandshake {
  hs_noise : NoiseHandshake; hs_ephemeral_kp : KeyPair; hs_static_kp : KeyPair; hs_payload : bytes
}.

Section State.
Context `{HK : !Hkdf, HS : !Hashes, HC : !Curve25519, HG : !AesGcm, HPR : !HandshakeProto}.

(** An error of the noise state, wrapped. *)
Definition wrap_crypto {A} (prefix : str) (m : noise A) : noise A :=
  fun n => let '(o, n') := m n in (map_err (fun e => HE_Crypto (prefix ++ show_handshake_error e)) o, n').

(** [device]: its noise key and its encoded client payload; [rnd]: the bytes of
    the ephemeral key. *)
Definition handshake_new (noise_key : KeyPair) (client_payload : bytes) (rnd : bytes)
    : outcome HandshakeError HandshakeState :=
  let ephemeral_kp := key_pair_generate rnd in
  let? n := map_err (fun e => HE_Crypto (show_handshake_error e)) (noise_new NOISE_START_PATTERN WA_CONN_HEADER) in
  match authenticate (pk_bytes (kp_public ephemeral_kp)) n with
  | (Ok _, n) => Ok (mkHandshake n ephemeral_kp noise_key client_payload)
  | (Err e, _) => Err e
  | (Panic, _) => Panic
  | (NoFuel, _) => NoFuel
  end.

Definition handshake_client_hello (s : HandshakeState) : bytes :=
  hm_encode (build_client_hello (pk_bytes (kp_public (hs_ephemeral_kp s)))).

Definition to_key_array (b : bytes) : outcome HandshakeError bytes :=
  if (length b =? 32)%nat then Ok b else Err HE_InvalidKeyLength.

(** The steps on the noise state. *)
Definition read_server_hello (ephemeral_kp static_kp : KeyPair) (payload : bytes) (response_bytes : bytes)
    : noise bytes :=
  let! parts := mlift (map_err (fun e => HE_CertVerification (lit "Error parsing server hello: " ++ show_handshake_error e))
                         (parse_server_hello response_bytes)) in
  let '(server_ephemeral_raw, server_static_ciphertext, certificate_ciphertext) := parts in
  let! server_ephemeral := mlift (to_key_array server_ephemeral_raw) in
  authenticate server_ephemeral ;;
  wrap_crypto [] (mix_shared_secret (private_serialize (kp_private ephemeral_kp)) server_ephemeral) ;;
  let! static_decrypted := wrap_crypto (lit "Failed to decrypt server static: ")
                             (noise_decrypt server_static_ciphertext) in
  let! static_decrypted := mlift (to_key_array static_decrypted) in
  wrap_crypto [] (mix_shared_secret (private_serialize (kp_private ephemeral_kp)) static_decrypted) ;;
  let! cert_decrypted := wrap_crypto (lit "Failed to decrypt certificate: ")
                           (noise_decrypt certificate_ciphertext) in
  let! _ := mlift (map_err (fun e => HE_CertVerification (lit "Error verifying server cert: " ++ show_handshake_error e))
                     (verify_server_cert cert_decrypted static_decrypted)) in
  let! encrypted_pubkey := wrap_crypto [] (noise_encrypt (pk_bytes (kp_public static_kp))) in
  wrap_crypto [] (mix_shared_secret (private_serialize (kp_private static_kp)) server_ephemeral) ;;
  let! encrypted_payload := wrap_crypto [] (noise_encrypt payload) in
  mret (hm_encode (build_client_finish encrypted_pubkey encrypted_payload)).

Definition read_server_hello_and_build_client_finish (response_bytes : bytes)
    : comp HandshakeState HandshakeError bytes :=
  fun s =>
    let '(o, n) := read_server_hello (hs_ephemeral_kp s) (hs_static_kp s) (hs_payload s) response_bytes (hs_noise s) in
    (o, mkHandshake n (hs_ephemeral_kp s) (hs_static_kp s) (hs_payload s)).

Definition handshake_finish (s : HandshakeState) : outcome HandshakeError (bytes * bytes) :=
  map_err (fun e => HE_Crypto (show_handshake_error e)) (noise_finish (hs_noise s)).
End State.

(** ** The other side of the pattern

    What a server of the XX pattern does, as the specification of the peer. *)
Section Server.
Context `{HK : !Hkdf, HS : !Hashes, HC : !Curve25519, HG : !AesGcm, HPR : !HandshakeProto}.

Definition server_start (client_ephemeral : bytes) : outcome HandshakeError NoiseHandshake :=
  let? n := noise_new NOISE_START_PATTERN WA_CONN_HEADER in
  match authenticate client_ephemeral n with
  | (Ok _, n) => Ok n
  | (Err e, _) => Err e
  | (Panic, _) => Panic
  | (NoFuel, _) => NoFuel
  end.

Definition server_answer (ephemeral static : KeyPair) (cert client_ephemeral : bytes) : noise bytes :=
  authenticate (pk_bytes (kp_public ephemeral)) ;;
  mix_shared_secret (sk_bytes (kp_private ephemeral)) client_ephemeral ;;
  let! c1 := noise_encrypt (pk_bytes (kp_public static)) in
  mix_shared_secret (sk_bytes (kp_private static)) client_ephemeral ;;
  let! c2 := noise_encrypt cert in
  mret (hm_encode (mkHandshakeMessage None
          (Some (mkHello (Some (pk_bytes (kp_public ephemeral))) (Some c1) (Some c2))) None)).

Definition server_read_finish (ephemeral : KeyPair) (finish : bytes) : noise (bytes * bytes) :=
  let! m := mlift (decoded (hm_decode finish)) in
  let! f := mlift (ok_or HE_IncompleteResponse (client_finish m)) in
  let! c1 := mlift (ok_or HE_IncompleteResponse (cf_static f)) in
  let! c2 := mlift (ok_or HE_IncompleteResponse (cf_payload f)) in
  let! client_static := noise_decrypt c1 in
  mix_shared_secret (sk_bytes (kp_private ephemeral)) client_static ;;
  let! payload := noise_decrypt c2 in
  mret (client_static, payload).

(** ** Lemmas: the steps of the two sides *)

Definition noise_ok (n : NoiseHandshake) : Prop := length (nz_hash n) = 32%nat /\ length (nz_key n) = 32%nat.

Lemma sha256_ok data name : sha256_digest data name = Ok (sha Sha256 data).
Proof.
  unfold sha256_digest. change (hash_new (lit "SHA-256")) with (Ok (E := CryptoError) (mkHash Sha256 [])).
  cbn [hash_update hash_finalize hash_algo hash_fed fst app]. unfold noise_to_array. by rewrite sha_length.
Qed.

Lemma authenticate_run data n :
  authenticate data n = (Ok tt, mkNoise (sha Sha256 (nz_hash n ++ data)) (nz_salt n) (nz_key n) (nz_counter n)).
Proof. unfold authenticate. by rewrite sha256_ok. Qed.

Lemma noise_start_ok : exists n, noise_new NOISE_START_PATTERN WA_CONN_HEADER = Ok n.
Proof.
  unfold noise_new. change (length NOISE_START_PATTERN =? 32)%nat with true. cbv iota.
  change (noise_to_array NOISE_START_PATTERN "noise pattern prefix") with (Ok (E := HandshakeError) NOISE_START_PATTERN).
  cbn [obind]. change (gcm_key_new NOISE_START_PATTERN) with (Some NOISE_START_PATTERN). cbn [ok_or obind].
  rewrite authenticate_run. by eexists.
Qed.

Lemma mix_run a b n :
  valid_pair a -> valid_pair b ->
  exists n', mix_shared_secret (sk_bytes (kp_private a)) (pk_bytes (kp_public b)) n = (Ok tt, n')
    /\ mix_shared_secret (sk_bytes (kp_private b)) (pk_bytes (kp_public a)) n = (Ok tt, n').
Proof.
  intros Ha Hb. unfold mix_shared_secret, mbind', mlift, from_djb_public_key_bytes, calculate_agreement.
  rewrite !private_roundtrip by (apply Ha || apply Hb). rewrite !valid_public_length by done. cbn [Nat.eqb curve_crypto map_err PUBLIC_KEY_LENGTH].
  rewrite (vp_public a Ha), (vp_public b Hb). cbn [pk_bytes sk_bytes].
  rewrite (xagree_sym (sk_bytes (kp_private b))).
  unfold mix_into_key, extract_and_expand. cbn [nz_hash nz_salt nz_key nz_counter].
  unfold gcm_key_new. replace (length (slice 32 64 _) =? 32)%nat with true.
  2: { unfold slice. by rewrite length_take, length_drop, hkdf_length. }
  by eexists.
Qed.

Lemma encrypt_decrypt_run m n :
  Z.of_nat (length m) <= GCM_MAX ->
  exists c n', noise_encrypt m n = (Ok c, n') /\ noise_decrypt c n = (Ok m, n') /\ length c = (length m + 16)%nat.
Proof.
  intros Hm. destruct (gcm_roundtrip (nz_key n) (generate_iv (nz_counter n)) (nz_hash n) m Hm) as (c & E & D & Hl & _).
  exists c. unfold noise_encrypt, noise_decrypt, post_increment_counter, mbind', mlift.
  cbn [nz_key nz_hash nz_salt nz_counter]. rewrite E, D. cbn [ok_or]. rewrite authenticate_run. by eexists.
Qed.

Lemma wrap_crypto_ok {A} prefix (m : noise A) n a n' : m n = (Ok a, n') -> wrap_crypto prefix m n = (Ok a, n').
Proof. unfold wrap_crypto. by intros ->. Qed.

Lemma to_key_array_public kp : valid_pair kp -> to_key_array (pk_bytes (kp_public kp)) = Ok (pk_bytes (kp_public kp)).
Proof. intros Hv. unfold to_key_array. by rewrite valid_public_length. Qed.

Lemma handshake_starts noise_key payload rnd :
  exists n, handshake_new noise_key payload rnd = Ok (mkHandshake n (key_pair_generate rnd) noise_key payload)
    /\ server_start (pk_bytes (kp_public (key_pair_generate rnd))) = Ok n.
Proof.
  unfold handshake_new, server_start. destruct noise_start_ok as (n & ->). cbn [map_err obind].
  rewrite authenticate_run. by eexists.
Qed.

Lemma parse_answer e c1 c2 :
  length e = 32%nat ->
  parse_server_hello (hm_encode (mkHandshakeMessage None (Some (mkHello (Some e) (Some c1) (Some c2))) None))
  = Ok (e, c1, c2).
Proof.
  intros He. unfold parse_server_hello. rewrite hm_decode_encode. cbn. by rewrite He.
Qed.

(** Both sides go through the same states. *)
Lemma handshake_run ce cs se ss payload cert n :
  valid_pair ce -> valid_pair cs -> valid_pair se -> valid_pair ss ->
  Z.of_nat (length payload) <= GCM_MAX -> Z.of_nat (length cert) <= GCM_MAX ->
  verify_server_cert cert (pk_bytes (kp_public ss)) = Ok tt ->
  exists answer n1 finish n2,
    server_answer se ss cert (pk_bytes (kp_public ce)) n = (Ok answer, n1)
    /\ read_server_hello ce cs payload answer n = (Ok finish, n2)
    /\ server_read_finish se finish n1 = (Ok (pk_bytes (kp_public cs), payload), n2).
Proof.
  intros Hce Hcs Hse Hss Hp Hc Hv.
  assert (forall kp, valid_pair kp -> Z.of_nat (length (pk_bytes (kp_public kp))) <= GCM_MAX) as Hk.
  { intros kp Hkp. rewrite valid_public_length by done. unfold GCM_MAX. lia. }
  set (na := mkNoise (sha Sha256 (nz_hash n ++ pk_bytes (kp_public se))) (nz_salt n) (nz_key n) (nz_counter n)).
  destruct (mix_run se ce na Hse Hce) as (nb & B1 & B2).
  destruct (encrypt_decrypt_run (pk_bytes (kp_public ss)) nb (Hk _ Hss)) as (c1 & nc & C1 & C2 & _).
  destruct (mix_run ss ce nc Hss Hce) as (nd & D1 & D2).
  destruct (encrypt_decrypt_run cert nd Hc) as (c2 & ne & E1 & E2 & _).
  destruct (encrypt_decrypt_run (pk_bytes (kp_public cs)) ne (Hk _ Hcs)) as (c3 & nf & F1 & F2 & _).
  destruct (mix_run cs se nf Hcs Hse) as (ng & G1 & G2).
  destruct (encrypt_decrypt_run payload ng Hp) as (c4 & nh & H1 & H2 & _).
  exists (hm_encode (mkHandshakeMessage None (Some (mkHello (Some (pk_bytes (kp_public se))) (Some c1) (Some c2))) None)), ne,
    (hm_encode (build_client_finish c3 c4)), nh.
  split; [|split].
  - unfold server_answer, mbind'. rewrite authenticate_run. fold na. by rewrite B1, C1, D1, E1.
  - unfold read_server_hello, mbind', mlift, private_serialize.
    rewrite parse_answer by (by apply valid_public_length). cbn [map_err]. rewrite to_key_array_public by done.
    rewrite authenticate_run. fold na. rewrite (wrap_crypto_ok _ _ _ _ _ B2), (wrap_crypto_ok _ _ _ _ _ C2).
    rewrite to_key_array_public by done. rewrite (wrap_crypto_ok _ _ _ _ _ D2), (wrap_crypto_ok _ _ _ _ _ E2).
    rewrite Hv. cbn [map_err].
    by rewrite (wrap_crypto_ok _ _ _ _ _ F1), (wrap_crypto_ok _ _ _ _ _ G1), (wrap_crypto_ok _ _ _ _ _ H1).
  - unfold server_read_finish, mbind', mlift. rewrite hm_decode_encode. cbn [decoded build_client_finish client_finish ok_or cf_static cf_payload].
    by rewrite F2, G2, H2.
Qed.

Lemma noise_finish_ok n : exists w r, noise_finish n = Ok (w, r) /\ length w = 32%nat /\ length r = 32%nat.
Proof.
  unfold noise_finish, extract_and_expand, gcm_key_new. set (okm := hkdf _ _ _ _).
  assert (length okm = 64%nat) as Hl by apply hkdf_length.
  assert (length (slice 0 32 okm) = 32%nat /\ length (slice 32 64 okm) = 32%nat) as [Hw Hr].
  { unfold slice. rewrite !length_take, !length_drop. lia. }
  rewrite Hw, Hr. cbn [Nat.eqb ok_or obind]. by do 2 eexists.
Qed.

(** Against a server that follows the XX pattern and whose certificate passes
    the check, the client's two messages are built without an error, the
    server reads the client's static key and payload out of the second one,
    and both sides end with the same pair of transport keys. *)
Lemma handshake_agreement noise_key payload rnd se ss cert :
  valid_pair noise_key -> valid_pair se -> valid_pair ss -> length rnd = 32%nat ->
  Z.of_nat (length payload) <= GCM_MAX -> Z.of_nat (length cert) <= GCM_MAX ->
  verify_server_cert cert (pk_bytes (kp_public ss)) = Ok tt ->
  exists s0 n0 answer n1 finish s1 n2 keys,
    handshake_new noise_key payload rnd = Ok s0
    /\ hm_decode (handshake_client_hello s0)
       = inr (build_client_hello (pk_bytes (kp_public (key_pair_generate rnd))))
    /\ server_start (pk_bytes (kp_public (key_pair_generate rnd))) = Ok n0
    /\ server_answer se ss cert (pk_bytes (kp_public (key_pair_generate rnd))) n0 = (Ok answer, n1)
    /\ read_server_hello_and_build_client_finish answer s0 = (Ok finish, s1)
    /\ server_read_finish se finish n1 = (Ok (pk_bytes (kp_public noise_key), payload), n2)
    /\ handshake_finish s1 = Ok keys /\ noise_finish n2 = Ok keys.
Proof.
  intros Hk Hse Hss Hr Hp Hc Hv. destruct (handshake_starts noise_key payload rnd) as (n & E0 & S0).
  destruct (handshake_run _ noise_key se ss payload cert n (key_pair_generate_valid rnd Hr) Hk Hse Hss Hp Hc Hv)
    as (answer & n1 & finish & n2 & S1 & C1 & S2).
  destruct (noise_finish_ok n2) as (w & r & Hf & _).
  eexists _, n, answer, n1, finish, _, n2, (w, r). split; [exact E0|]. split; [apply hm_decode_encode|].
  split; [done|]. split; [exact S1|]. unfold read_server_hello_and_build_client_finish. cbn [hs_ephemeral_kp hs_static_kp hs_payload hs_noise].
  rewrite C1. split; [done|]. split; [exact S2|]. unfold handshake_finish. cbn [hs_noise]. by rewrite Hf.
Qed.

(** The certificate check does not check signatures.  For every static key
    of 32 bytes, anyone can put together a chain, with whatever signatures or
    none, that the check accepts; and the outcome of the check never depends
    on the signatures of a chain. *)
Theorem cert_signatures_ignored static sig1 sig2 sig1' sig2' serial ikey leaf inter :
  length ikey = 32%nat ->
  let forged := mkCertChain
    (Some (mkCert (Some (details_encode (mkCertDetails None (Some serial) (Some static)))) sig1))
    (Some (mkCert (Some (details_encode (mkCertDetails (Some serial) (Some 0) (Some ikey)))) sig2)) in
  verify_server_cert (chain_encode forged) static = Ok tt
  /\ verify_server_cert (chain_encode (mkCertChain (Some (mkCert leaf sig1)) (Some (mkCert inter sig2)))) static
     = verify_server_cert (chain_encode (mkCertChain (Some (mkCert leaf sig1')) (Some (mkCert inter sig2')))) static.
Proof.
  intros Hk. cbv zeta. unfold verify_server_cert. rewrite !chain_decode_encode.
  cbn [decoded obind cc_intermediate cc_leaf ok_or cert_details]. split; [|done].
  rewrite !details_decode_encode. cbn [decoded obind cd_issuer_serial cd_key cd_serial default_or].
  change (negb (0 =? WA_CERT_ISSUER_SERIAL)) with false. rewrite Hk, Z.eqb_refl, bytes_eqb_refl. done.
Qed.
End Server.

(** ** Stand-ins and witnesses *)

Definition toy_tag (key iv aad m : bytes) : bytes := toy_expand (Some key) (iv ++ aad ++ m) [] 16.

Definition toy_gcm : AesGcm.
Proof.
  refine {| gcm_encrypt key iv aad m := Some (m ++ toy_tag key iv aad m);
            gcm_decrypt key iv aad c :=
              let m := take (length c - 16) c in
              if drop (length c - 16) c =s toy_tag key iv aad m then Some m else None |}.
  intros key iv aad m _. exists (m ++ toy_tag key iv aad m). split; [done|].
  assert (length (toy_tag key iv aad m) = 16%nat) as Ht by apply toy_expand_length.
  cbv zeta. rewrite length_app, Ht, Nat.add_sub, take_app_length, drop_app_length, bytes_eqb_refl.
  split; [done|]. split; [done|]. intros Hm. apply Forall_app_2; [done|apply toy_expand_bytes].
Defined.

(** Fields with their lengths. *)
Definition put_opt (o : option bytes) : bytes :=
  match o with Some b => Z.of_nat (S (length b)) :: b | None => [0] end.
Definition get_opt (l : bytes) : option bytes * bytes :=
  match l with
  | [] => (None, [])
  | n :: r => if n =? 0 then (None, r) else (Some (take (Z.to_nat n - 1) r), drop (Z.to_nat n - 1) r)
  end.
Lemma get_put_opt o r : get_opt (put_opt o ++ r) = (o, r).
Proof.
  destruct o as [b|]; [|done]. cbn [put_opt app get_opt]. rewrite (proj2 (Z.eqb_neq _ _)) by lia.
  by rewrite Nat2Z.id, Nat.sub_succ, Nat.sub_0_r, take_app_length, drop_app_length.
Qed.

Fixpoint put_opts (l : list (option bytes)) : bytes :=
  match l with [] => [] | o :: l => put_opt o ++ put_opts l end.
Fixpoint get_opts (n : nat) (b : bytes) : list (option bytes) :=
  match n with O => [] | S n => (get_opt b).1 :: get_opts n (get_opt b).2 end.
Lemma get_put_opts l : get_opts (length l) (put_opts l) = l.
Proof. induction l as [|o l IH]; cbn [length put_opts get_opts]; [done|]. rewrite get_put_opt. cbn [fst snd]. by rewrite IH. Qed.

(** A part of three fields, after a field that says whether it is there. *)
Definition flat3 (o : option (option bytes * option bytes * option bytes)) : list (option bytes) :=
  match o with Some (a, b, c) => [Some []; a; b; c] | None => [None; None; None; None] end.
Definition part3 (p a b c : option bytes) : option (option bytes * option bytes * option bytes) :=
  match p with Some _ => Some (a, b, c) | None => None end.

Definition toy_handshake : HandshakeProto.
Proof.
  refine {|
    hm_encode m := put_opts (flat3 (option_map (fun h => (h_ephemeral h, h_static h, h_payload h)) (client_hello m))
      ++ flat3 (option_map (fun h => (h_ephemeral h, h_static h, h_payload h)) (server_hello m))
      ++ flat3 (option_map (fun f => (cf_static f, cf_payload f, cf_extended_ciphertext f)) (client_finish m)));
    hm_decode b := match get_opts 12 b with
      | [p1; a1; b1; c1; p2; a2; b2; c2; p3; a3; b3; c3] =>
          inr (mkHandshakeMessage (option_map (fun t => mkHello t.1.1 t.1.2 t.2) (part3 p1 a1 b1 c1))
                 (option_map (fun t => mkHello t.1.1 t.1.2 t.2) (part3 p2 a2 b2 c2))
                 (option_map (fun t => mkClientFinish t.1.1 t.1.2 t.2) (part3 p3 a3 b3 c3)))
      | _ => inl []
      end;
    chain_encode c := put_opts (flat3 (option_map (fun x => (cert_details x, cert_signature x, None)) (cc_leaf c))
      ++ flat3 (option_map (fun x => (cert_details x, cert_signature x, None)) (cc_intermediate c)));
    chain_decode b := match get_opts 8 b with
      | [p1; a1; b1; c1; p2; a2; b2; c2] =>
          inr (mkCertChain (option_map (fun t => mkCert t.1.1 t.1.2) (part3 p1 a1 b1 c1))
                 (option_map (fun t => mkCert t.1.1 t.1.2) (part3 p2 a2 b2 c2)))
      | _ => inl []
      end;
    details_encode d := put_opts [option_map (fun v => [v]) (cd_serial d); option_map (fun v => [v]) (cd_issuer_serial d); cd_key d];
    details_decode b := match get_opts 3 b with
      | [s; i; k] => inr (mkCertDetails (option_map (hd 0) s) (option_map (hd 0) i) k)
      | _ => inl []
      end |}.
  - intros [c s f]. cbn [client_hello server_hello client_finish].
    set (l := flat3 _ ++ _). replace 12%nat with (length l).
    2: { unfold l. destruct c, s, f; reflexivity. }
    rewrite get_put_opts. unfold l. destruct c as [[]|], s as [[]|], f as [[]|]; reflexivity.
  - intros [l i]. cbn [cc_leaf cc_intermediate]. set (x := flat3 _ ++ _). replace 8%nat with (length x).
    2: { unfold x. destruct l, i; reflexivity. }
    rewrite get_put_opts. unfold x. destruct l as [[]|], i as [[]|]; reflexivity.
  - intros [s i k]. cbn [cd_serial cd_issuer_serial cd_key].
    change 3%nat with (length [option_map (fun v : Z => [v]) s; option_map (fun v : Z => [v]) i; k]).
    rewrite get_put_opts. destruct s, i; reflexivity.
Defined.

Definition toy_cert : bytes :=
  @chain_encode toy_handshake (mkCertChain
    (Some (mkCert (Some (@details_encode toy_handshake (mkCertDetails None (Some 7) (Some (replicate 32 13))))) None))
    (Some (mkCert (Some (@details_encode toy_handshake (mkCertDetails (Some 7) (Some 0) (Some (replicate 32 1))))) None))).

Lemma cert_signatures_ignored_witness :
  @verify_server_cert toy_handshake toy_cert (replicate 32 13) = Ok tt.
Proof.
  apply (@cert_signatures_ignored toy_handshake (replicate 32 13) None None None None 7 (replicate 32 1) None None).
  reflexivity.
Defined.
