(* ===== verification/Connection.v ===== *)
(** * The encrypted connection: [src/socket/noise_socket.rs], [src/auth/handshake.rs],
    the stanza path of [src/client.rs]

    The socket that encrypts and frames outgoing stanzas with a counter and
    decrypts incoming frames with another, the handshake over the transport,
    and the client's way from a stanza to the bytes and back.  The theorems
    show that stanzas go through the whole stack, whatever way the stream is
    cut, and that no nonce is used twice within the counter's range. *)

From S2P Require Import Prelude RustStd Crypto Curve Node Encoder Decoder Codec Framing SessionRatchet Noise.

(** ** The transport: [trait Transport] *)

(** What is sent is appended to what went over the wire. *)
Class Transport (T : Type) := {
  transmitted : T -> bytes;
  transport_send : bytes -> comp T str unit;
  transport_send_ok : forall b t t', transport_send b t = (Ok tt, t') -> transmitted t' = transmitted t ++ b
}.

Inductive TransportEvent := Connected | DataReceived (data : bytes) | Disconnected.

(** ** [socket/error.rs] *)

Inductive EncryptSendErrorKind := K_Crypto | K_Framing | K_Transport | K_Join | K_ChannelClosed.
(** The source of the error. *)
Inductive SendSource := S_Aead | S_Frame (e : FrameError) | S_Transport (e : str) | S_Join | S_Closed.
Record EncryptSendError := mkSendError {
  se_kind : EncryptSendErrorKind; se_source : SendSource; se_plaintext_buf : bytes; se_out_buf : bytes
}.

Inductive SocketError := SE_SocketClosed | SE_NoiseHandshake (e : str) | SE_Io (e : str) | SE_Crypto (e : str).

(** ** [NoiseSocket] *)

Definition INLINE_ENCRYPT_THRESHOLD : nat := 16 * 1024.

Section Socket.
Context `{HK : !Hkdf, HS : !Hashes, HC : !Curve25519, HG : !AesGcm, HPR : !HandshakeProto}.
Context {T : Type} `{HT : !Transport T}.

(** The state of the sender task: its counter and the transport. *)
Abbreviation sender A := (comp (u32 * T) EncryptSendError A).

Definition next_write_counter : sender u32 := fun s => (Ok s.1, (wrap 32 (s.1 + 1), s.2)).

Definition frame_into (ciphertext : bytes) : outcome FrameError bytes := encode_frame ciphertext None.

(** Up to the frame: both buffers, the frame in the second.  [joined]: did the
    blocking thread of a large message end normally. *)
Definition encrypt_job (write_key : bytes) (joined : bool) (counter : u32) (plaintext_buf out_buf : bytes)
    : outcome EncryptSendError (bytes * bytes) :=
  let iv := generate_iv counter in
  if (length plaintext_buf <=? INLINE_ENCRYPT_THRESHOLD)%nat then
    match gcm_encrypt write_key iv [] plaintext_buf with
    | None => Err (mkSendError K_Crypto S_Aead [] plaintext_buf)
    | Some ciphertext =>
        match frame_into ciphertext with
        | Ok frame => Ok ([], frame)
        | Err e => Err (mkSendError K_Framing (S_Frame e) [] [])
        | Panic => Panic
        | NoFuel => NoFuel
        end
    end
  else if negb joined then Err (mkSendError K_Join S_Join plaintext_buf out_buf)
  else
    match gcm_encrypt write_key iv [] plaintext_buf with
    | None => Err (mkSendError K_Crypto S_Aead plaintext_buf out_buf)
    | Some ciphertext =>
        match frame_into ciphertext with
        | Ok frame => Ok ([], frame)
        | Err e => Err (mkSendError K_Framing (S_Frame e) [] [])
        | Panic => Panic
        | NoFuel => NoFuel
        end
    end.

Definition process_send_job (write_key : bytes) (joined : bool) (plaintext_buf out_buf : bytes) : sender (bytes * bytes) :=
  let! counter := next_write_counter in
  let! bufs := mlift (encrypt_job write_key joined counter plaintext_buf out_buf) in
  fun s =>
    match transport_send bufs.2 s.2 with
    | (Ok _, t) => (Ok (bufs.1, []), (s.1, t))
    | (Err e, t) => (Err (mkSendError K_Transport (S_Transport e) bufs.1 bufs.2), (s.1, t))
    | (Panic, t) => (Panic, (s.1, t))
    | (NoFuel, t) => (NoFuel, (s.1, t))
    end.

(** The task handles the jobs of its channel in order. *)
Fixpoint sender_task (write_key : bytes) (jobs : list (bool * bytes * bytes)) (s : u32 * T)
    : list (outcome EncryptSendError (bytes * bytes)) * (u32 * T) :=
  match jobs with
  | [] => ([], s)
  | (joined, plaintext_buf, out_buf) :: rest =>
      let '(result, s) := process_send_job write_key joined plaintext_buf out_buf s in
      let '(results, s) := sender_task write_key rest s in
      (result :: results, s)
  end.

(** The channel to the task: it takes jobs and answers, it is closed, or the
    task ends with the job in the channel. *)
Inductive Channel := Answering | Closed | Dropped.

(** A task that panics does not answer either. *)
Definition encrypt_and_send (write_key : bytes) (channel : Channel) (joined : bool) (plaintext_buf out_buf : bytes)
    : sender (bytes * bytes) :=
  match channel with
  | Closed => mfail (mkSendError K_ChannelClosed S_Closed plaintext_buf out_buf)
  | Dropped => mfail (mkSendError K_ChannelClosed S_Closed [] [])
  | Answering =>
      fun s =>
        match process_send_job write_key joined plaintext_buf out_buf s with
        | (Panic, s) => (Err (mkSendError K_ChannelClosed S_Closed [] []), s)
        | r => r
        end
  end.

(** The read counter is atomic: fetched and incremented. *)
Definition socket_decrypt_frame (read_key ciphertext : bytes) : comp u32 SocketError bytes :=
  fun counter =>
    (match gcm_decrypt read_key (generate_iv counter) [] ciphertext with
     | Some p => Ok p
     | None => Err (SE_Crypto aead_error)
     end, wrap 32 (counter + 1)).

(** ** [auth/handshake.rs] *)

(** [anyhow::Error], by what it was made of. *)
Inductive AnyError := AE_Frame (e : FrameError) | AE_Send (e : str).

Inductive ConnectError :=
| CE_Transport (e : AnyError)
| CE_Core (e : HandshakeError)
| CE_Timeout
| CE_UnexpectedEvent (e : str)
| CE_EdgeRouting (e : EdgeRoutingError).

Definition connection_header (edge_routing_info : option bytes) : bytes :=
  match edge_routing_info with
  | Some routing_info =>
      if MAX_EDGE_ROUTING_LEN <? Z.of_nat (length routing_info) then WA_CONN_HEADER
      else match build_edge_routing_preintro routing_info with
           | Ok header => header ++ WA_CONN_HEADER
           | _ => WA_CONN_HEADER
           end
  | None => WA_CONN_HEADER
  end.

(** The events until the first frame; [None] is a closed channel or a timeout,
    and so is the end of the list. *)
Fixpoint wait_for_frame (events : list (option TransportEvent)) (d : FrameDecoder)
    : outcome ConnectError (bytes * list (option TransportEvent)) :=
  match events with
  | [] | None :: _ => Err CE_Timeout
  | Some Connected :: rest => wait_for_frame rest d
  | Some Disconnected :: _ => Err (CE_UnexpectedEvent (lit "Disconnected during handshake"))
  | Some (DataReceived data) :: rest =>
      match decode_frame (feed data d) with
      | (Some frame, _) => Ok (frame, rest)
      | (None, d) => wait_for_frame rest d
      end
  end.

Definition send_framed (payload : bytes) (header : option bytes) : comp T ConnectError unit :=
  let! framed := mlift (map_err (fun e => CE_Transport (AE_Frame e)) (encode_frame payload header)) in
  fun t => let '(o, t) := transport_send framed t in (map_err (fun e => CE_Transport (AE_Send e)) o, t).

(** The keys of the new socket, and the events that are left. *)
Definition do_handshake (noise_key : KeyPair) (client_payload : bytes) (edge_routing_info : option bytes) (rnd : bytes)
    (events : list (option TransportEvent))
    : comp T ConnectError (bytes * bytes * list (option TransportEvent)) :=
  let! s := mlift (map_err CE_Core (handshake_new noise_key client_payload rnd)) in
  send_framed (handshake_client_hello s) (Some (connection_header edge_routing_info)) ;;
  let! resp := mlift (wait_for_frame events frame_decoder_new) in
  let '(o, s) := read_server_hello_and_build_client_finish resp.1 s in
  let! client_finish_bytes := mlift (map_err CE_Core o) in
  send_framed client_finish_bytes None ;;
  let! keys := mlift (map_err CE_Core (handshake_finish s)) in
  mret (keys, resp.2).

(** ** [client.rs]: stanzas *)

Inductive ClientError :=
| NotConnected
| CL_Socket (e : SocketError)
| CL_EncryptSend (e : EncryptSendError)
| AlreadyConnected
| NotLoggedIn.

(** [socket]: the write key, or none when not connected; the pooled buffers are
    cleared before use. *)
Definition send_node (socket : option bytes) (channel : Channel) (joined : bool) (node : Node) : comp (u32 * T) ClientError unit :=
  match socket with
  | None => mfail NotConnected
  | Some write_key =>
      match marshal_to node [] with
      | (Ok _, plaintext_buf) =>
          fun s => let '(o, s) := encrypt_and_send write_key channel joined plaintext_buf [] s in
                   (map_err CL_EncryptSend (let? _ := o in Ok tt), s)
      | (Err _, _) => mfail (CL_Socket (SE_Crypto (lit "Marshal error")))
      | (Panic, _) => mpanic
      | (NoFuel, _) => mnofuel
      end
  end.

Section Receiving.
Context (zlib : bytes -> option bytes) (zerr : bytes -> str).

(** Errors are logged and the frame dropped. *)
Definition client_decrypt_frame (socket : option bytes) (encrypted_frame : bytes) (counter : u32) : option Node * u32 :=
  match socket with
  | None => (None, counter)
  | Some read_key =>
      let '(o, counter) := socket_decrypt_frame read_key encrypted_frame counter in
      match o with
      | Ok decrypted_payload =>
          match unpack zlib zerr decrypted_payload with
          | Ok unpacked =>
              match unmarshal_ref unpacked with
              | Ok node_ref => (Some (to_owned node_ref), counter)
              | _ => (None, counter)
              end
          | _ => (None, counter)
          end
      | _ => (None, counter)
      end
  end.

(** The frames of the receive loop, decrypted one after the other. *)
Fixpoint decrypt_frames (socket : option bytes) (frames : list bytes) (counter : u32) : list (option Node) * u32 :=
  match frames with
  | [] => ([], counter)
  | f :: rest =>
      let '(n, counter) := client_decrypt_frame socket f counter in
      let '(ns, counter) := decrypt_frames socket rest counter in
      (n :: ns, counter)
  end.

Definition receive_nodes (socket : option bytes) (chunks : list bytes) (d : FrameDecoder) (counter : u32)
    : list (option Node) * u32 :=
  decrypt_frames socket (receive chunks d).1 counter.
End Receiving.
End Socket.

(** ** Lemmas: one stanza *)

Class ReliableTransport (T : Type) `{HT : !Transport T} := {
  transport_send_returns : forall b (t : T), exists t', transport_send b t = (Ok tt, t')
}.

Section Stanzas.
Context `{HK : !Hkdf, HS : !Hashes, HC : !Curve25519, HG : !AesGcm}.
Context {T : Type} `{HT : !Transport T, HRT : !ReliableTransport T}.

Definition fits_frame (p : bytes) : Prop := Forall is_byte p /\ Z.of_nat (length p) + 16 < 2 ^ 24.

(** A stanza whose encoding is bytes that fit a frame. *)
Definition sendable (n : Node) : Prop :=
  node_fits n /\ match marshal n with Ok p => fits_frame p | _ => False end.

Lemma encrypt_job_ok key counter p out :
  fits_frame p ->
  exists c f, encrypt_job key true counter p out = Ok ([], f) /\ encode_frame c None = Ok f
    /\ gcm_decrypt key (generate_iv counter) [] c = Some p /\ byte_stream c /\ Z.of_nat (length c) < 2 ^ 24.
Proof.
  intros [Hb Hl]. destruct (gcm_roundtrip key (generate_iv counter) [] p) as (c & E & D & Hc & Hcb).
  { unfold GCM_MAX. lia. }
  assert (exists f, encode_frame c None = Ok f) as (f & Hf).
  { rewrite encode_frame_eq. destruct (Z.leb_spec (2 ^ 24) (Z.of_nat (length c))); [lia|by eexists]. }
  exists c, f. split_and!; [|done|done|by apply Hcb|lia].
  unfold encrypt_job, frame_into. rewrite E, Hf. by destruct (_ <=? _)%nat.
Qed.

Lemma send_node_ok key n ctr t :
  sendable n ->
  exists c f t' p, send_node (Some key) Answering true n (ctr, t) = (Ok tt, (wrap 32 (ctr + 1), t'))
    /\ transmitted t' = transmitted t ++ f /\ encode_frame c None = Ok f /\ byte_stream c
    /\ Z.of_nat (length c) < 2 ^ 24 /\ gcm_decrypt key (generate_iv ctr) [] c = Some p /\ marshal n = Ok p.
Proof.
  intros [_ Hs]. unfold send_node, marshal in *. destruct (marshal_to n []) as [[[]| | |] p] eqn:Em; try done.
  destruct (encrypt_job_ok key ctr p [] Hs) as (c & f & Ej & Hf & Hd & Hb & Hl).
  destruct (transport_send_returns f t) as (t' & Ht). exists c, f, t', p.
  split; [|split_and!; [by apply transport_send_ok|done..] ].
  unfold encrypt_and_send, process_send_job, next_write_counter, mbind', mlift. cbn [fst snd].
  rewrite Ej. cbn [fst snd]. by rewrite Ht.
Qed.

(** Stanzas one after the other through one socket. *)
Fixpoint send_nodes (socket : option bytes) (nodes : list Node) : comp (u32 * T) ClientError unit :=
  match nodes with
  | [] => mret tt
  | n :: rest => send_node socket Answering true n ;; send_nodes socket rest
  end.

Context (zlib : bytes -> option bytes) (zerr : bytes -> str).

Lemma client_decrypts key c ctr p n :
  node_fits n -> marshal n = Ok p -> gcm_decrypt key (generate_iv ctr) [] c = Some p ->
  client_decrypt_frame zlib zerr (Some key) c ctr = (Some (to_owned (wire_node n)), wrap 32 (ctr + 1)).
Proof.
  intros Hn Hp Hd. destruct (codec_roundtrip_lem zlib zerr n Hn) as (p' & Hp' & Hu & _).
  rewrite Hp in Hp'. injection Hp' as <-.
  unfold client_decrypt_frame, socket_decrypt_frame. rewrite Hd.
  destruct (unpack zlib zerr p); try done. cbn [obind] in Hu. by rewrite Hu.
Qed.

Lemma send_nodes_ok key nodes : forall ctr t,
  Forall sendable nodes ->
  exists cs fs s', send_nodes (Some key) nodes (ctr, t) = (Ok tt, s')
    /\ transmitted s'.2 = transmitted t ++ concat fs
    /\ Forall2 (fun c f => encode_frame c None = Ok f) cs fs
    /\ Forall (fun c => byte_stream c /\ Z.of_nat (length c) < 2 ^ 24) cs
    /\ decrypt_frames zlib zerr (Some key) cs ctr = (map (fun n => Some (to_owned (wire_node n))) nodes, s'.1).
Proof.
  induction nodes as [|n nodes IH]; intros ctr t Hf.
  - exists [], [], (ctr, t). split_and!; try constructor. cbn. by rewrite app_nil_r.
  - apply Forall_cons in Hf as [Hn Hf].
    destruct (send_node_ok key n ctr t Hn) as (c & f & t' & p & Hs & Ht & Hc & Hb & Hl & Hd & Hm).
    destruct (IH (wrap 32 (ctr + 1)) t' Hf) as (cs & fs & s' & Hs' & Ht' & H2 & H1 & Hds).
    exists (c :: cs), (f :: fs), s'. split_and!.
    + cbn [send_nodes]. unfold mbind'. by rewrite Hs.
    + cbn [concat]. by rewrite Ht', Ht, app_assoc.
    + by constructor.
    + by constructor.
    + cbn [decrypt_frames map]. destruct Hn as [Hn _]. by rewrite (client_decrypts _ _ _ p n), Hds.
Qed.
End Stanzas.

(** ** Lemmas: the handshake over the transport *)

(** The bytes that the events of a quiet stretch carry. *)
Fixpoint event_data (events : list (option TransportEvent)) : option bytes :=
  match events with
  | [] => Some []
  | Some Connected :: rest => event_data rest
  | Some (DataReceived data) :: rest => option_map (fun d => data ++ d) (event_data rest)
  | _ => None
  end.

Lemma frame_decodes p f :
  byte_stream p -> encode_frame p None = Ok f ->
  byte_stream f /\ exists d, decode_frame (mkFrameDecoder f) = (Some p, d).
Proof.
  intros Hp Hf. rewrite encode_frame_eq in Hf. destruct (Z.leb_spec (2 ^ 24) (Z.of_nat (length p))); [done|].
  injection Hf as <-. assert (byte_stream (len3 (Z.of_nat (length p)) ++ p)) as Hb.
  { apply Forall_app_2; [|done]. repeat constructor; apply (wrap_bound 8); lia. }
  split; [done|]. rewrite decode_frame_bytes by done. unfold len3. cbn [app]. cbv zeta.
  rewrite frame_len_roundtrip, Nat2Z.id, Nat.leb_refl by lia. rewrite firstn_all. by eexists.
Qed.

Lemma wait_finds p f : forall events s data,
  byte_stream p -> encode_frame p None = Ok f -> event_data events = Some data -> s ++ data = f ->
  decode_frame (mkFrameDecoder s) = (None, mkFrameDecoder s) ->
  exists rest, wait_for_frame events (mkFrameDecoder s) = Ok (p, rest).
Proof.
  intros events s data Hp Hf. destruct (frame_decodes p f Hp Hf) as (Hb & d & Hd). revert s data.
  induction events as [|[ [|b|]|] events IH]; intros s data; cbn [event_data wait_for_frame]; try done.
  - intros [= <-]. rewrite app_nil_r. intros ->. by rewrite Hd.
  - apply IH.
  - destruct (event_data events) as [r|] eqn:Er; [|done]. intros [= <-] Hs Hn. unfold feed. cbn [buffer].
    rewrite app_assoc in Hs. assert (byte_stream (s ++ b) /\ byte_stream r) as [Hsb Hr] by (apply Forall_app; by rewrite Hs).
    destruct (decode_frame (mkFrameDecoder (s ++ b))) as [[fr|] d'] eqn:E.
    + destruct (decode_frame_app _ r _ _ Hsb Hr E) as (E' & _). rewrite Hs, Hd in E'. injection E' as <- _. by eexists.
    + pose proof (decode_frame_None _ _ Hsb E) as ->. by apply (IH (s ++ b) r).
Qed.

(** ** The theorems *)

Section Theorems.
Context `{HK : !Hkdf, HS : !Hashes, HC : !Curve25519, HG : !AesGcm, HPR : !HandshakeProto}.
Context {T : Type} `{HT : !Transport T, HRT : !ReliableTransport T}.

Lemma send_framed_ok p h f (t : T) :
  encode_frame p h = Ok f -> exists t', send_framed p h t = (Ok tt, t') /\ transmitted t' = transmitted t ++ f.
Proof.
  intros Hf. destruct (transport_send_returns f t) as (t' & Ht). exists t'.
  unfold send_framed, mbind', mlift. rewrite Hf. cbn [map_err]. rewrite Ht. split; [done|by apply transport_send_ok].
Qed.

(** The client connects.  Against a server that follows the XX pattern and
    whose certificate passes the check, the client's handshake over a
    transport that takes its two frames sends its greeting behind the
    connection header and then its answer, whatever way the server's one frame
    is cut into events and whatever routing information is stored; the server
    reads the client's static key and payload out of the answer, and both
    sides hold the same pair of transport keys. *)
Theorem connection_established noise_key payload info rnd se ss cert (t : T) :
  valid_pair noise_key -> valid_pair se -> valid_pair ss -> length rnd = 32%nat ->
  Z.of_nat (length payload) <= GCM_MAX -> Z.of_nat (length cert) <= GCM_MAX ->
  verify_server_cert cert (pk_bytes (kp_public ss)) = Ok tt ->
  exists s0 n0 answer n1 finish n2 keys,
    handshake_new noise_key payload rnd = Ok s0
    /\ server_start (pk_bytes (kp_public (key_pair_generate rnd))) = Ok n0
    /\ server_answer se ss cert (pk_bytes (kp_public (key_pair_generate rnd))) n0 = (Ok answer, n1)
    /\ (read_server_hello_and_build_client_finish answer s0).1 = Ok finish
    /\ (forall f1 fa f2 events,
          encode_frame (handshake_client_hello s0) (Some (connection_header info)) = Ok f1 ->
          byte_stream answer -> encode_frame answer None = Ok fa -> event_data events = Some fa ->
          encode_frame finish None = Ok f2 ->
          exists rest t', do_handshake noise_key payload info rnd events t = (Ok (keys, rest), t')
            /\ transmitted t' = transmitted t ++ f1 ++ f2)
    /\ server_read_finish se finish n1 = (Ok (pk_bytes (kp_public noise_key), payload), n2)
    /\ noise_finish n2 = Ok keys.
Proof.
  intros Hk Hse Hss Hr Hp Hc Hv.
  destruct (handshake_agreement noise_key payload rnd se ss cert Hk Hse Hss Hr Hp Hc Hv)
    as (s0 & n0 & answer & n1 & finish & s1 & n2 & keys & H0 & _ & S0 & S1 & C1 & S2 & F1 & F2).
  exists s0, n0, answer, n1, finish, n2, keys. split_and!; try done.
  { by rewrite C1. }
  intros f1 fa f2 events E1 Hb Ea He E2. destruct (send_framed_ok _ _ _ t E1) as (t1 & T1 & T1').
  destruct (wait_finds answer fa events [] fa Hb Ea He eq_refl eq_refl) as (rest & W).
  destruct (send_framed_ok _ _ _ t1 E2) as (t2 & T2 & T2'). exists rest, t2.
  split; [|by rewrite T2', T1', app_assoc].
  unfold do_handshake, mbind', mlift. rewrite H0. cbn [map_err]. rewrite T1. unfold frame_decoder_new. rewrite W.
  cbn [fst snd]. rewrite C1. cbn [map_err]. by rewrite T2, F1.
Qed.

Context (zlib : bytes -> option bytes) (zerr : bytes -> str).

(** C12: Stanzas cross the connection.  Stanzas whose encodings fit a frame,
    sent one after the other by the client, put bytes on the wire that the
    receiving side of the same key, however the stream is cut into chunks,
    turns back into exactly those stanzas, in order, ending with the sender's
    counter. *)
Theorem stanza_transport key nodes ctr (t : T) :
  Forall sendable nodes ->
  exists sent s', send_nodes (Some key) nodes (ctr, t) = (Ok tt, s')
    /\ transmitted s'.2 = transmitted t ++ sent
    /\ forall chunks, concat chunks = sent ->
         receive_nodes zlib zerr (Some key) chunks frame_decoder_new ctr
         = (map (fun n => Some (to_owned (wire_node n))) nodes, s'.1).
Proof.
  intros Hn. destruct (send_nodes_ok zlib zerr key nodes ctr t Hn) as (cs & fs & s' & Hs & Ht & H2 & H1 & Hd).
  exists (concat fs), s'. split_and!; [done|done|]. intros chunks Hc.
  unfold receive_nodes. by rewrite (receive_frames cs fs chunks).
Qed.

Lemma generate_iv_inj a b : 0 <= a < 2 ^ 32 -> 0 <= b < 2 ^ 32 -> generate_iv a = generate_iv b -> a = b.
Proof.
  intros Ha Hb He. apply app_inv_head in He. injection He as E1 E2 E3 E4.
  rewrite <- (u32_be_roundtrip a Ha), <- (u32_be_roundtrip b Hb). by rewrite E1, E2, E3, E4.
Qed.

(** Whatever happened to the jobs before it, a job takes the counter of its place. *)
Lemma sender_task_lookup key jobs : forall ctr (t : T) i joined p out,
  0 <= ctr < 2 ^ 32 -> jobs !! i = Some (joined, p, out) ->
  exists ti, (sender_task key jobs (ctr, t)).1 !! i
    = Some (process_send_job key joined p out (wrap 32 (ctr + Z.of_nat i), ti)).1.
Proof.
  induction jobs as [|[ [joined0 p0] out0] jobs IH]; intros ctr t i joined p out Hc Hi; [done|].
  cbn [sender_task].
  destruct (process_send_job key joined0 p0 out0 (ctr, t)) as [r [ctr' t'] ] eqn:Er.
  assert (ctr' = wrap 32 (ctr + 1)) as ->.
  { unfold process_send_job, next_write_counter, mbind', mlift in Er. cbn [fst snd] in Er.
    destruct (encrypt_job _ _ _ _ _); [|by injection Er|by injection Er|by injection Er].
    cbn [fst snd] in Er. destruct (transport_send _ _) as [ [| | |] ?]; by injection Er. }
  destruct i as [|i].
  - injection Hi as -> -> ->. exists t. rewrite Z.add_0_r, (wrap_small 32 ctr) by done. rewrite Er. by destruct (sender_task _ _ _).
  - destruct (IH (wrap 32 (ctr + 1)) t' i joined p out) as (ti & Hti); [apply (wrap_bound 32); lia|exact Hi|].
    exists ti. destruct (sender_task key jobs _) as [rs s]. cbn [fst] in *. rewrite lookup_cons. rewrite Hti.
    do 4 f_equal. unfold wrap. rewrite Zplus_mod_idemp_l. by rewrite <- Z.add_assoc, Nat2Z.inj_succ, Z.add_1_l.
Qed.

(** When a nonce repeats.  Of the jobs that the sender task of a new socket
    handles, whether they succeed or fail at whatever step, any two are
    encrypted under the same nonce exactly when their places differ by a
    multiple of 2^32: the counter is taken before anything can fail, and
    wraps. *)
Theorem nonce_reuse key jobs (t : T) i j bi pi oi bj pj oj :
  jobs !! i = Some (bi, pi, oi) -> jobs !! j = Some (bj, pj, oj) ->
  exists ci ti cj tj,
    (sender_task key jobs (0, t)).1 !! i = Some (process_send_job key bi pi oi (ci, ti)).1
    /\ (sender_task key jobs (0, t)).1 !! j = Some (process_send_job key bj pj oj (cj, tj)).1
    /\ (generate_iv ci = generate_iv cj <-> (2 ^ 32 | Z.of_nat i - Z.of_nat j)).
Proof.
  intros Hi Hj. destruct (sender_task_lookup key jobs 0 t _ _ _ _ ltac:(lia) Hi) as (ti & Ei).
  destruct (sender_task_lookup key jobs 0 t _ _ _ _ ltac:(lia) Hj) as (tj & Ej).
  do 4 eexists. split; [exact Ei|]. split; [exact Ej|]. rewrite !Z.add_0_l. split.
  - intros He. apply generate_iv_inj in He; [|apply (wrap_bound 32); lia..].
    unfold wrap in He. apply Z.mod_divide; [lia|]. by rewrite Zminus_mod, He, Z.sub_diag.
  - intros [k Hk]. f_equal. unfold wrap. replace (Z.of_nat i) with (Z.of_nat j + k * 2 ^ 32) by lia.
    by rewrite Z.mod_add by lia.
Qed.
End Theorems.

(** ** Stand-ins and witnesses *)

(** A transport that keeps what it was given. *)
Instance wire : Transport bytes.
Proof. refine {| transmitted t := t; transport_send b t := (Ok tt, t ++ b) |}. by intros b t t' [= <-]. Defined.
Instance wire_reliable : ReliableTransport bytes.
Proof. constructor. intros b t. by eexists. Defined.

Definition quiet_zlib : bytes -> option bytes := fun _ => None.

(** The answer of a server with the keys of [toy_pair 14] and [toy_pair 13]. *)
Definition toy_answer : bytes :=
  match @server_start toy_hashes (pk_bytes (kp_public (@key_pair_generate sum_curve (replicate 32 12)))) with
  | Ok n => match @server_answer toy_hkdf toy_hashes sum_curve toy_gcm toy_handshake (toy_pair 14) (toy_pair 13) toy_cert
                    (pk_bytes (kp_public (@key_pair_generate sum_curve (replicate 32 12)))) n with
            | (Ok answer, _) => answer
            | _ => []
            end
  | _ => []
  end.

Definition toy_frame : bytes := len3 (Z.of_nat (length toy_answer)) ++ toy_answer.

Lemma connection_established_witness :
  exists keys rest t',
    @do_handshake toy_hkdf toy_hashes sum_curve toy_gcm toy_handshake bytes wire (toy_pair 11) [9; 9] (Some [1; 2])
      (replicate 32 12) [Some (DataReceived (take 40 toy_frame)); Some Connected; Some (DataReceived (drop 40 toy_frame))] []
    = (Ok (keys, rest), t').
Proof.
  destruct (@connection_established toy_hkdf toy_hashes sum_curve toy_gcm toy_handshake bytes wire wire_reliable
    (toy_pair 11) [9; 9] (Some [1; 2]) (replicate 32 12) (toy_pair 14) (toy_pair 13) toy_cert [])
    as (s0 & n0 & answer & n1 & finish & n2 & keys & H0 & S0 & S1 & C1 & H & S2 & F);
    [by split|by split|by split|reflexivity|vm_compute; discriminate|vm_compute; discriminate|vm_compute; reflexivity|].
  assert (answer = toy_answer) as -> by (unfold toy_answer; rewrite S0, S1; reflexivity).
  vm_compute in H0. injection H0 as <-.
  vm_compute in C1. injection C1 as <-.
  refine (let '(ex_intro _ rest (ex_intro _ t' (conj E _))) := H _ toy_frame _
            [Some (DataReceived (take 40 toy_frame)); Some Connected; Some (DataReceived (drop 40 toy_frame))]
            (eq_refl (Ok _)) _ _ _ (eq_refl (Ok _)) in ex_intro _ keys (ex_intro _ rest (ex_intro _ t' E)));
    [|vm_compute; reflexivity..].
  apply (bool_decide_unpack (Forall (fun b => 0 <= b < 256) _)). vm_compute. exact I.
Defined.

Lemma stanza_transport_witness :
  exists s', @send_nodes toy_gcm bytes wire (Some (replicate 32 1)) [sample_node; sample_node] (0, []) = (Ok tt, s')
    /\ @receive_nodes toy_gcm quiet_zlib (fun b => b) (Some (replicate 32 1)) [s'.2] frame_decoder_new 0
       = ([Some (to_owned (wire_node sample_node)); Some (to_owned (wire_node sample_node))], s'.1).
Proof.
  destruct (@stanza_transport toy_gcm bytes wire wire_reliable quiet_zlib (fun b => b) (replicate 32 1) [sample_node; sample_node] 0 [])
    as (sent & s' & Hs & Ht & Hr).
  - assert (sendable sample_node) as Hn; [|by repeat constructor].
    split; [|vm_compute; split; [repeat constructor; done|reflexivity] ].
    cbn [node_fits sample_node content_fits fold_right]. unfold str_fits.
    repeat (split || constructor); vm_compute; reflexivity.
  - exists s'. split; [exact Hs|]. apply Hr. cbn [concat]. rewrite app_nil_r. exact Ht.
Defined.

Lemma nonce_reuse_witness :
  (@sender_task toy_gcm bytes wire (replicate 32 1) [(true, [1], []); (true, [2], [])] (0, [])).1 !! 0%nat
  <> None.
Proof.
  destruct (@nonce_reuse toy_gcm bytes wire (replicate 32 1) [(true, [1], []); (true, [2], [])] [] 0 1 true [1] [] true [2] [])
    as (ci & ti & cj & tj & Hi & _); [reflexivity|reflexivity|].
  rewrite Hi. discriminate.
Defined.
