(* ===== verification/Device.v ===== *)
(** * Device: [warp_core/src/store/{device,commands}.rs]

    The account's own data: keys, addresses and settings of the device, the
    commands that change them, and the payload a connection announces.  The
    types of the protobuf messages keep the fields the code sets; their
    encoders and MD5 are arguments.  The theorems show that a new device's
    keys belong together and what each command changes. *)

From S2P Require Import Prelude RustStd Curve Jid Session SessionCipher SessionRatchet PreKeys.

(** ** Protobuf messages *)

(** The messages of an account's device identity. *)
Record AdvHmac := mkAdvHmac { ah_details : option bytes; ah_hmac : option bytes; ah_account_type : option i32 }.
Record AdvSigned := mkAdvSigned {
  as_details : option bytes; as_account_signature_key : option bytes; as_account_signature : option bytes;
  as_device_signature : option bytes
}.
Record AdvDevice := mkAdvDevice {
  ad_raw_id : option u32; ad_timestamp : option u64; ad_key_index : option u32; ad_account_type : option i32;
  ad_device_type : option i32
}.
Class AdvProto := {
  adv_hmac_encode : AdvHmac -> bytes;
  adv_hmac_decode : bytes -> sum str AdvHmac;
  adv_hmac_decode_encode : forall m, adv_hmac_decode (adv_hmac_encode m) = inr m;
  adv_signed_encode : AdvSigned -> bytes;
  adv_signed_decode : bytes -> sum str AdvSigned;
  adv_signed_decode_encode : forall m, adv_signed_decode (adv_signed_encode m) = inr m;
  adv_device_encode : AdvDevice -> bytes;
  adv_device_decode : bytes -> sum str AdvDevice;
  adv_device_decode_encode : forall m, adv_device_decode (adv_device_encode m) = inr m
}.

(** What the client tells about itself; fields that are never set are left out. *)
Record AppVersion := mkAppVersion { av_primary : option u32; av_secondary : option u32; av_tertiary : option u32 }.
Record HistorySyncConfig := mkHistorySyncConfig {
  full_sync_days_limit : option u32; inline_initial_payload_in_e2_ee_msg : option bool; storage_quota_mb : option u32
}.
Record DeviceProps := mkDeviceProps {
  dp_os : option str; dp_version : option AppVersion; dp_platform_type : option i32; dp_require_full_sync : option bool;
  dp_history_sync_config : option HistorySyncConfig
}.
Record UserAgent := mkUserAgent {
  ua_platform : option i32; ua_release_channel : option i32; ua_app_version : option AppVersion; ua_mcc : option str;
  ua_mnc : option str; ua_os_version : option str; ua_manufacturer : option str; ua_device : option str;
  ua_os_build_number : option str; ua_locale_language : option str; ua_locale_country : option str
}.
Record RegistrationData := mkRegistrationData {
  e_regid : option bytes; e_keytype : option bytes; e_ident : option bytes; e_skey_id : option bytes;
  e_skey_val : option bytes; e_skey_sig : option bytes; build_hash : option bytes; reg_device_props : option bytes
}.
Record ClientPayload := mkClientPayload {
  cp_username : option u64; cp_passive : option bool; cp_user_agent : option UserAgent; cp_web_sub_platform : option i32;
  cp_connect_type : option i32; cp_connect_reason : option i32; cp_device : option u32;
  cp_device_pairing_data : option RegistrationData; cp_pull : option bool
}.

Definition platform_web : i32 := 14.
Definition release_channel_release : i32 := 0.
Definition web_browser : i32 := 0.
Definition wifi_unknown : i32 := 1.
Definition user_activated : i32 := 1.
Definition platform_type_unknown : i32 := 0.

(** ** The device *)

Record Device := mkDevice {
  d_pn : option Jid; d_lid : option Jid; d_registration_id : u32; d_noise_key : KeyPair; d_identity_key : KeyPair;
  d_signed_pre_key : KeyPair; d_signed_pre_key_id : u32; d_signed_pre_key_signature : bytes; d_adv_secret_key : bytes;
  d_account : option AdvSigned; d_push_name : str; d_app_version_primary : u32; d_app_version_secondary : u32;
  d_app_version_tertiary : u32; d_app_version_last_fetched_ms : i64; d_device_props : DeviceProps;
  d_edge_routing_info : option bytes
}.

Definition default_os : str := lit "rust".
Definition default_device_props_version : AppVersion := mkAppVersion (Some 0) (Some 1) (Some 0).

Definition DEVICE_PROPS : DeviceProps :=
  mkDeviceProps (Some (lit "rust")) (Some (mkAppVersion (Some 0) (Some 1) (Some 0))) (Some platform_type_unknown) (Some true)
    (Some (mkHistorySyncConfig (Some 30) (Some true) (Some 10240))).

Section Device.
Context `{HC : !Curve25519}.

(** [rnds]: the random bytes of the identity, the signed pre-key, the
    signature, the ADV secret and the noise key *)
Definition device_new (rnds : bytes * bytes * bytes * bytes * bytes) : outcome unit Device :=
  let '(id_rnd, spk_rnd, sig_rnd, adv_secret_key, noise_rnd) := rnds in
  let identity_key_pair := identity_pair_generate id_rnd in
  let identity_key := mkKeyPair (ikp_identity_key identity_key_pair) (ikp_private_key identity_key_pair) in
  let signed_pre_key := key_pair_generate spk_rnd in
  match calculate_signature (ikp_private_key identity_key_pair) (public_serialize (kp_public signed_pre_key)) sig_rnd with
  | Ok signature =>
      if (length signature =? 64)%nat then
        Ok (mkDevice None None 3718719151 (key_pair_generate noise_rnd) identity_key signed_pre_key 1 signature adv_secret_key
              None [] 2 3000 1031424117 0 DEVICE_PROPS None)
      else Panic
  | _ => Panic
  end.

(** [key_pair_serde] *)
Definition key_pair_bytes (k : KeyPair) : bytes := private_serialize (kp_private k) ++ pk_bytes (kp_public k).
Definition key_pair_of_bytes {E} (bad_length : usize -> E) (bad_key : CurveError -> E) (b : bytes) : outcome E KeyPair :=
  if negb (length b =? 64)%nat then Err (bad_length (length b))
  else
    let? private_key := map_err bad_key (private_deserialize (slice 0 32 b)) in
    let? public_key := map_err bad_key (from_djb_public_key_bytes (slice 32 64 b)) in
    Ok (mkKeyPair public_key private_key).
End Device.

Definition is_ready_for_presence (d : Device) : bool :=
  match d_pn d with Some _ => negb (length (d_push_name d) =? 0)%nat | None => false end.

Definition with_props (props : DeviceProps) (d : Device) : Device :=
  mkDevice (d_pn d) (d_lid d) (d_registration_id d) (d_noise_key d) (d_identity_key d) (d_signed_pre_key d)
    (d_signed_pre_key_id d) (d_signed_pre_key_signature d) (d_adv_secret_key d) (d_account d) (d_push_name d)
    (d_app_version_primary d) (d_app_version_secondary d) (d_app_version_tertiary d) (d_app_version_last_fetched_ms d)
    props (d_edge_routing_info d).

Definition set_device_props (os : option str) (version : option AppVersion) (d : Device) : Device :=
  let p := d_device_props d in
  let p := match os with
           | Some os => mkDeviceProps (Some os) (dp_version p) (dp_platform_type p) (dp_require_full_sync p) (dp_history_sync_config p)
           | None => p
           end in
  let p := match version with
           | Some v => mkDeviceProps (dp_os p) (Some v) (dp_platform_type p) (dp_require_full_sync p) (dp_history_sync_config p)
           | None => p
           end in
  with_props p d.

(** ** The payload of a connection *)

Definition build_base_client_payload (app_version : AppVersion) : ClientPayload :=
  mkClientPayload None None
    (Some (mkUserAgent (Some platform_web) (Some release_channel_release) (Some app_version) (Some (lit "000"))
      (Some (lit "000")) (Some (lit "0.1.0")) (Some []) (Some (lit "Desktop")) (Some (lit "0.1.0")) (Some (lit "en"))
      (Some (lit "en"))))
    (Some web_browser) (Some wifi_unknown) (Some user_activated) None None None.

Definition device_app_version (d : Device) : AppVersion :=
  mkAppVersion (Some (d_app_version_primary d)) (Some (d_app_version_secondary d)) (Some (d_app_version_tertiary d)).

Definition get_login_payload (d : Device) (jid : Jid) : ClientPayload :=
  let p := build_base_client_payload (device_app_version d) in
  mkClientPayload (to_option (parse_u64 (user jid))) (Some true) (cp_user_agent p) (cp_web_sub_platform p)
    (cp_connect_type p) (cp_connect_reason p) (Some (device jid)) (cp_device_pairing_data p) (cp_pull p).

Section Payload.
(** [md5::compute] and the encoder of the device properties *)
Context (md5 : bytes -> bytes) (encode_props : DeviceProps -> bytes) (encode_payload : ClientPayload -> bytes).

(** [version.primary()] is the value or its default. *)
Definition get_registration_payload (d : Device) : outcome unit ClientPayload :=
  let p := build_base_client_payload (device_app_version d) in
  match cp_user_agent p with
  | Some ua =>
      match ua_app_version ua with
      | Some version =>
          let field f := show_uint (default 0 (f version)) in
          let version_str := field av_primary ++ lit "." ++ field av_secondary ++ lit "." ++ field av_tertiary in
          let reg_data := mkRegistrationData (Some (u32_to_be_bytes (d_registration_id d))) (Some [5])
            (Some (pk_bytes (kp_public (d_identity_key d)))) (Some (drop 1 (u32_to_be_bytes (d_signed_pre_key_id d))))
            (Some (pk_bytes (kp_public (d_signed_pre_key d)))) (Some (d_signed_pre_key_signature d))
            (Some (md5 version_str)) (Some (encode_props (d_device_props d))) in
          Ok (mkClientPayload (cp_username p) (Some false) (cp_user_agent p) (cp_web_sub_platform p) (cp_connect_type p)
                (cp_connect_reason p) (cp_device p) (Some reg_data) (Some false))
      | None => Panic
      end
  | None => Panic
  end.

Definition get_client_payload (d : Device) : outcome unit ClientPayload :=
  match d_pn d with
  | Some jid => Ok (get_login_payload d jid)
  | None => get_registration_payload d
  end.

Definition prepare_client_payload (d : Device) : outcome unit bytes :=
  let? client_payload := get_client_payload d in Ok (encode_payload client_payload).
End Payload.

(** ** Commands *)

Inductive DeviceCommand :=
| SetId (id : option Jid)
| SetLid (lid : option Jid)
| SetPushName (name : str)
| SetAccount (account : option AdvSigned)
| SetAppVersion (version : u32 * u32 * u32).

(** [now]: the time in milliseconds *)
Definition apply_command_to_device (now : i64) (c : DeviceCommand) (d : Device) : Device :=
  let '(mkDevice pn lid reg noise identity spk spk_id sig adv account push p s t last props edge) := d in
  match c with
  | SetId id => mkDevice id lid reg noise identity spk spk_id sig adv account push p s t last props edge
  | SetLid lid => mkDevice pn lid reg noise identity spk spk_id sig adv account push p s t last props edge
  | SetPushName name => mkDevice pn lid reg noise identity spk spk_id sig adv account name p s t last props edge
  | SetAccount account => mkDevice pn lid reg noise identity spk spk_id sig adv account push p s t last props edge
  | SetAppVersion (p, s, t) => mkDevice pn lid reg noise identity spk spk_id sig adv account push p s t now props edge
  end.

(** ** Theory *)

(** The fields of a device have their widths and its keys belong together. *)
Record device_wf `{HC : !Curve25519} (d : Device) : Prop := {
  dw_registration : 0 <= d_registration_id d < 2 ^ 32;
  dw_signed_id : 0 <= d_signed_pre_key_id d < 2 ^ 32;
  dw_noise : valid_pair (d_noise_key d);
  dw_identity : valid_pair (d_identity_key d);
  dw_signed : valid_pair (d_signed_pre_key d);
  dw_signature : length (d_signed_pre_key_signature d) = 64%nat;
  dw_verifies : verify_signature (kp_public (d_identity_key d)) (public_serialize (kp_public (d_signed_pre_key d)))
                  (d_signed_pre_key_signature d) = true;
  dw_secret : length (d_adv_secret_key d) = 32%nat;
  dw_version : 0 <= d_app_version_primary d < 2 ^ 32 /\ 0 <= d_app_version_secondary d < 2 ^ 32
               /\ 0 <= d_app_version_tertiary d < 2 ^ 32
}.

(** [Device::new] does not panic and makes a well-formed device. *)
Lemma device_new_wf `{HC : !Curve25519} a b c e f :
  length a = 32%nat -> length b = 32%nat -> length e = 32%nat -> length f = 32%nat ->
  exists d, device_new (a, b, c, e, f) = Ok d /\ device_wf d /\ d_pn d = None /\ d_device_props d = DEVICE_PROPS.
Proof.
  intros Ha Hb He Hf. unfold device_new, calculate_signature. rewrite xsign_length. cbn [Nat.eqb].
  eexists. split; [reflexivity|]. split; [|done].
  split; cbn [d_registration_id d_signed_pre_key_id d_noise_key d_identity_key d_signed_pre_key d_signed_pre_key_signature
    d_adv_secret_key d_app_version_primary d_app_version_secondary d_app_version_tertiary];
    try lia; try (by apply key_pair_generate_valid).
  - by rewrite xsign_length.
  - unfold verify_signature. rewrite xsign_length. cbn. apply xverify_sign.
Qed.

Lemma slice_app_l {A} (a b : list A) : slice 0 (length a) (a ++ b) = a.
Proof. unfold slice. by rewrite Nat.sub_0_r, drop_0, take_app_length. Qed.
Lemma slice_app_r {A} (a b : list A) : slice (length a) (length a + length b) (a ++ b) = b.
Proof.
  unfold slice. rewrite drop_app_length, Nat.add_comm, Nat.add_sub. apply take_ge. lia.
Qed.

(** The stored form of a key pair gives it back. *)
Lemma key_pair_bytes_roundtrip `{HC : !Curve25519} {E} (bl : usize -> E) bk k :
  valid_pair k -> key_pair_of_bytes bl bk (key_pair_bytes k) = Ok k.
Proof.
  intros Hv. unfold key_pair_of_bytes, key_pair_bytes, private_serialize.
  pose proof (vp_length _ Hv) as Hs. pose proof (valid_public_length _ Hv) as Hp.
  rewrite length_app, Hs, Hp. cbn [Nat.add Nat.eqb negb].
  rewrite <- Hs at 1. rewrite slice_app_l, private_roundtrip by apply Hv. cbn [map_err obind].
  replace (slice 32 64 _) with (pk_bytes (kp_public k))
    by (symmetry; rewrite <- Hs at 1; replace 64%nat with (length (sk_bytes (kp_private k)) + length (pk_bytes (kp_public k)))%nat
          by lia; apply slice_app_r).
  unfold from_djb_public_key_bytes. rewrite Hp. cbn. by destruct k as [ [] []].
Qed.

(** A command keeps the device well formed; a version is three [u32]s. *)
Lemma apply_command_wf `{HC : !Curve25519} now c d :
  (forall p s t, c = SetAppVersion (p, s, t) -> 0 <= p < 2 ^ 32 /\ 0 <= s < 2 ^ 32 /\ 0 <= t < 2 ^ 32) ->
  device_wf d -> device_wf (apply_command_to_device now c d).
Proof.
  intros Hc []. destruct d. destruct c as [| | | |[ [p s] t] ]; split; cbn in *; try done. by apply Hc.
Qed.

(** What a registration announces can be checked by whoever reads it: the
    signature over the announced signed pre-key verifies under the announced
    identity, and the announced ids read back. *)
Lemma registration_verifiable `{HC : !Curve25519} md5 encode_props d p :
  device_wf d -> get_registration_payload md5 encode_props d = Ok p ->
  exists r ident skey sig, cp_device_pairing_data p = Some r
    /\ e_ident r = Some ident /\ e_skey_val r = Some skey /\ e_skey_sig r = Some sig
    /\ verify_signature (mkPublicKey ident) (public_serialize (mkPublicKey skey)) sig = true
    /\ e_regid r = Some (u32_to_be_bytes (d_registration_id d)).
Proof.
  intros Hw [= <-]. cbn. eexists. eexists. eexists. eexists. repeat split.
  pose proof (dw_verifies _ Hw) as H. destruct (kp_public (d_identity_key d)), (kp_public (d_signed_pre_key d)). exact H.
Qed.
