(* ===== verification/Requests.v ===== *)
(** * Requests: [warp_core/src/request.rs], [src/request.rs]

    Info queries, their identifiers and stanzas, and the table that hands the
    responses to the tasks that wait for them.  The tasks of the client run
    concurrently; a run is a sequence of their steps between two awaits.  The
    theorems show that a task is only ever given a response to its own request,
    that the table holds exactly the requests that are still waiting, and what
    the identifiers look like. *)

From stdpp Require Import gmap.
From S2P Require Import Prelude RustStd Crypto Jid Node Attrs Noise Connection.

(** ** [InfoQuery] *)

Inductive InfoQueryType := IQ_Set | IQ_Get.

Definition query_type_as_str (t : InfoQueryType) : str :=
  match t with IQ_Set => lit "set" | IQ_Get => lit "get" end.

(** The timeout in seconds. *)
Record InfoQuery := mkQuery {
  iq_namespace : str; iq_query_type : InfoQueryType; iq_to : Jid; iq_target : option Jid; iq_id : option str;
  iq_content : option NodeContent; iq_timeout : option u64
}.

Definition query_get (namespace : str) (to : Jid) (content : option NodeContent) : InfoQuery :=
  mkQuery namespace IQ_Get to None None content None.
Definition query_set (namespace : str) (to : Jid) (content : option NodeContent) : InfoQuery :=
  mkQuery namespace IQ_Set to None None content None.
Definition with_target (target : Jid) (q : InfoQuery) : InfoQuery :=
  mkQuery (iq_namespace q) (iq_query_type q) (iq_to q) (Some target) (iq_id q) (iq_content q) (iq_timeout q).
Definition with_timeout (timeout : u64) (q : InfoQuery) : InfoQuery :=
  mkQuery (iq_namespace q) (iq_query_type q) (iq_to q) (iq_target q) (iq_id q) (iq_content q) (Some timeout).

(** ** Errors *)

Inductive IqError :=
| IQ_Timeout
| IQ_NotConnected
| IQ_Disconnected (n : Node)
| IQ_ServerError (code : u16) (text : str)
| IQ_InternalChannelClosed
| IQ_Network (e : str).

(** [src/request.rs] *)
Inductive ClientIqError :=
| CI_Timeout
| CI_NotConnected
| CI_Socket (e : SocketError)
| CI_Disconnected (n : Node)
| CI_ServerError (code : u16) (text : str)
| CI_InternalChannelClosed.

Definition client_iq_error (e : IqError) : ClientIqError :=
  match e with
  | IQ_Timeout => CI_Timeout
  | IQ_NotConnected => CI_NotConnected
  | IQ_Disconnected n => CI_Disconnected n
  | IQ_ServerError code text => CI_ServerError code text
  | IQ_InternalChannelClosed => CI_InternalChannelClosed
  | IQ_Network msg => CI_Socket (SE_Crypto msg)
  end.

(** ** [RequestUtils] *)

(** The counter is a shared atomic [u64]. *)
Definition generate_request_id (unique_id : str) (counter : u64) : str * u64 :=
  (unique_id ++ lit "-" ++ show_uint counter, wrap 64 (counter + 1)).

(** [hex::encode]: two lower-case digits per byte. *)
Class Hex := {
  hex_encode : bytes -> str;
  hex_encode_spec : forall b, Forall is_byte b ->
    hex_encode b = concat (map (fun x => [hex_digit (x / 16); hex_digit (x mod 16)]) b)
}.

(** The lower-case digits, two to a byte. *)
Definition plain_hex : Hex := {| hex_encode b := concat (map (fun x => [hex_digit (x / 16); hex_digit (x mod 16)]) b); hex_encode_spec b _ := eq_refl |}.

Definition to_ascii_uppercase (c : u8) : u8 := if in_range 97 122 c then c - 32 else c.
(** [to_uppercase] on ASCII text *)
Definition to_uppercase (s : str) : str := map to_ascii_uppercase s.

Section Ids.
Context `{HS : !Hashes, HX : !Hex}.

(** [timestamp] in seconds, [random_bytes] 16 bytes *)
Definition generate_message_id (timestamp : u64) (random_bytes : bytes) (user_jid : option Jid) : str :=
  let data := u64_to_be_bytes timestamp
              ++ (match user_jid with Some j => user j ++ lit "@" ++ LEGACY_USER_SERVER | None => [] end)
              ++ random_bytes in
  let hash := sha Sha256 data in
  lit "3EB0" ++ to_uppercase (hex_encode (take 9 hash)).
End Ids.

Definition build_iq_node (unique_id : str) (query : InfoQuery) (req_id : option str) (counter : u64) : Node * u64 :=
  let '(id, counter) := match req_id with Some id => (id, counter) | None => generate_request_id unique_id counter end in
  let b := b_attr (b_attr (b_attr (b_attr (builder_new (lit "iq")) (lit "id") id) (lit "xmlns") (iq_namespace query))
                     (lit "type") (query_type_as_str (iq_query_type query))) (lit "to") (jid_to_string (iq_to query)) in
  let b := match iq_target query with
           | Some target => if negb (is_empty target) then b_attr b (lit "target") (jid_to_string target) else b
           | None => b
           end in
  let b := match iq_content query with
           | Some (NC_Bytes x) => b_bytes b x
           | Some (NC_String s) => b_string_content b s
           | Some (NC_Nodes n) => b_children b n
           | None => b
           end in
  (build b, counter).

Definition parse_iq_response (response_node : Node) : outcome IqError unit :=
  if (tag response_node =s lit "stream:error") || (tag response_node =s lit "xmlstreamend")
  then Err (IQ_Disconnected response_node)
  else
    match im_get (lit "type") (attrs response_node) with
    | Some res_type =>
        if res_type =s lit "error" then
          match get_optional_child_by_tag response_node [lit "error"] with
          | Some error_node =>
              let '(code, parser) := ap_optional_u64 (lit "code") (ap_new error_node) in
              let '(text, _) := ap_optional_string (lit "text") parser in
              Err (IQ_ServerError (wrap 16 (default_or 0 code)) (default_or [] text))
          | None => Err (IQ_ServerError 0 (lit "Malformed error response"))
          end
        else Ok tt
    | None => Ok tt
    end.

(** ** The table of waiting requests *)

(** The receiving end of a task's channel. *)
Inductive Receiver := Open | Delivered (n : Node) | SenderDropped.

Inductive Phase := Sending | Waiting | Finished (r : outcome ClientIqError Node).

Record Task := mkTask { t_id : str; t_phase : Phase; t_rx : Receiver }.

(** [response_waiters] maps an identifier to the sender of a task's channel. *)
Record IqState := mkIqState {
  id_counter : u64; response_waiters : gmap str nat; iq_tasks : gmap nat Task
}.

Definition iq_init (counter : u64) : IqState := mkIqState counter ∅ ∅.

Definition set_rx (rx : Receiver) (t : Task) : Task := mkTask (t_id t) (t_phase t) rx.
Definition set_phase (p : Phase) (t : Task) : Task := mkTask (t_id t) p (t_rx t).

(** A sender that goes away closes its channel, unless it was used. *)
Definition close_rx (t : Task) : Task := match t_rx t with Open => set_rx SenderDropped t | _ => t end.

Definition close_sender (owner : option nat) (tasks : gmap nat Task) : gmap nat Task :=
  match owner with Some t => alter close_rx t tasks | None => tasks end.

(** [response_waiters.remove(id)], the sender dropped *)
Definition remove_waiter (id : str) (s : IqState) : IqState :=
  mkIqState (id_counter s) (delete id (response_waiters s)) (close_sender (response_waiters s !! id) (iq_tasks s)).

(** [send_iq], up to sending: the identifier, the channel, the stanza. *)
Definition iq_begin (unique_id : str) (t : nat) (query : InfoQuery) (s : IqState) : Node * IqState :=
  let '(req_id, counter) :=
    match iq_id query with
    | Some id => (id, id_counter s)
    | None => generate_request_id unique_id (id_counter s)
    end in
  let tasks := close_sender (response_waiters s !! req_id) (iq_tasks s) in
  let waiters := <[req_id := t]> (response_waiters s) in
  let '(node, counter) := build_iq_node unique_id query (Some req_id) counter in
  (node, mkIqState counter waiters (<[t := mkTask req_id Sending Open]> tasks)).

Definition iq_sent (t : nat) (s : IqState) : IqState :=
  mkIqState (id_counter s) (response_waiters s) (alter (set_phase Waiting) t (iq_tasks s)).

Definition send_error (show_client_error : ClientError -> str) (e : ClientError) : ClientIqError :=
  match e with
  | CL_Socket s_err => CI_Socket s_err
  | NotConnected => CI_NotConnected
  | _ => CI_Socket (SE_Crypto (show_client_error e))
  end.

Definition iq_finish (t : nat) (r : outcome ClientIqError Node) (s : IqState) : IqState :=
  mkIqState (id_counter s) (response_waiters s) (alter (set_phase (Finished r)) t (iq_tasks s)).

Definition iq_send_failed (show_client_error : ClientError -> str) (t : nat) (req_id : str) (e : ClientError) (s : IqState)
    : IqState :=
  iq_finish t (Err (send_error show_client_error e)) (remove_waiter req_id s).

Definition iq_timed_out (t : nat) (req_id : str) (s : IqState) : IqState :=
  iq_finish t (Err CI_Timeout) (remove_waiter req_id s).

(** The channel has an answer or was closed. *)
Definition iq_result (rx : Receiver) : option (outcome ClientIqError Node) :=
  match rx with
  | Open => None
  | Delivered n => Some (match parse_iq_response n with
                         | Ok _ => Ok n
                         | Err e => Err (client_iq_error e)
                         | Panic => Panic
                         | NoFuel => NoFuel
                         end)
  | SenderDropped => Some (Err CI_InternalChannelClosed)
  end.

(** A task that is over no longer receives. *)
Definition deliver (n : Node) (t : Task) : Task :=
  match t_phase t with Finished _ => t | _ => set_rx (Delivered n) t end.

Definition resolve_waiter (n : Node) (s : IqState) : bool * IqState :=
  match im_get (lit "id") (attrs n) with
  | Some id =>
      match response_waiters s !! id with
      | Some t => (true, mkIqState (id_counter s) (delete id (response_waiters s)) (alter (deliver n) t (iq_tasks s)))
      | None => (false, s)
      end
  | None => (false, s)
  end.

Definition handle_iq_response (n : Node) (s : IqState) : bool * IqState := resolve_waiter n s.
(** [client.rs] *)
Definition handle_ack_response (n : Node) (s : IqState) : bool * IqState := resolve_waiter n s.

(** The part of [process_node] before the handlers: was the stanza a response. *)
Definition process_iq (n : Node) (s : IqState) : bool * IqState :=
  if tag n =s lit "iq" then
    match im_get (lit "id") (attrs n) with
    | Some id =>
        match response_waiters s !! id with
        | Some _ => handle_iq_response n s
        | None => (false, s)
        end
    | None => (false, s)
    end
  else (false, s).

Section Steps.
Context (unique_id : str) (show_client_error : ClientError -> str).
(** The queries that are made. *)
Context (admits : InfoQuery -> Prop).

(** The steps of the tasks that send requests, and of the tasks that handle
    stanzas.  A timeout may come at any time while a task waits. *)
Inductive iq_step : IqState -> IqState -> Prop :=
| step_begin t query s :
    admits query -> iq_tasks s !! t = None -> iq_step s (iq_begin unique_id t query s).2
| step_sent t task s :
    iq_tasks s !! t = Some task -> t_phase task = Sending -> iq_step s (iq_sent t s)
| step_send_failed t task e s :
    iq_tasks s !! t = Some task -> t_phase task = Sending ->
    iq_step s (iq_send_failed show_client_error t (t_id task) e s)
| step_wake t task r s :
    iq_tasks s !! t = Some task -> t_phase task = Waiting -> iq_result (t_rx task) = Some r ->
    iq_step s (iq_finish t r s)
| step_timeout t task s :
    iq_tasks s !! t = Some task -> t_phase task = Waiting -> iq_step s (iq_timed_out t (t_id task) s)
| step_iq n s : iq_step s (process_iq n s).2
| step_ack n s : tag n = lit "ack" -> iq_step s (handle_ack_response n s).2.

Inductive iq_reach (c : u64) : IqState -> Prop :=
| reach_init : iq_reach c (iq_init c)
| reach_step s s' : iq_reach c s -> iq_step s s' -> iq_reach c s'.

(** ** Lemmas: what a task holds *)

Definition answers (id : str) (n : Node) : Prop :=
  im_get (lit "id") (attrs n) = Some id /\ (tag n = lit "iq" \/ tag n = lit "ack").

(** Of a task by itself. *)
Definition task_ok (t : Task) : Prop :=
  (forall n, t_rx t = Delivered n -> answers (t_id t) n)
  /\ (forall n, t_phase t = Finished (Ok n) -> answers (t_id t) n /\ parse_iq_response n = Ok tt)
  /\ (forall n, t_phase t <> Finished (Err (CI_Disconnected n))).

Definition tasks_ok (s : IqState) : Prop := forall t task, iq_tasks s !! t = Some task -> task_ok task.
(** A waiter's task has the identifier it waits under. *)
Definition waiters_ok (s : IqState) : Prop :=
  forall id t, response_waiters s !! id = Some t -> t_id <$> iq_tasks s !! t = Some id.

Lemma alter_ok (f : Task -> Task) t (m : gmap nat Task) :
  (forall task, m !! t = Some task -> task_ok task -> task_ok (f task)) ->
  (forall u task, m !! u = Some task -> task_ok task) -> forall u task, alter f t m !! u = Some task -> task_ok task.
Proof.
  intros Hf Hm u task. destruct (decide (u = t)) as [->|].
  - rewrite lookup_alter_eq. destruct (m !! t) as [x|] eqn:E; [|done]. intros [= <-]. apply (Hf x eq_refl), (Hm t x E).
  - rewrite lookup_alter_ne by done. apply Hm.
Qed.

Lemma close_rx_ok t : task_ok t -> task_ok (close_rx t).
Proof. unfold close_rx. destruct (t_rx t) eqn:E; [|done..]. intros (_ & H2 & H3). by split_and!. Qed.

Lemma close_sender_ok owner (m : gmap nat Task) :
  (forall u task, m !! u = Some task -> task_ok task) ->
  forall u task, close_sender owner m !! u = Some task -> task_ok task.
Proof. intros Hm. destruct owner as [t|]; [|exact Hm]. apply alter_ok; [|done]. intros x _. apply close_rx_ok. Qed.

Lemma alter_id_of (f : Task -> Task) t (m : gmap nat Task) u :
  (forall x, t_id (f x) = t_id x) -> t_id <$> alter f t m !! u = t_id <$> m !! u.
Proof.
  intros Hf. destruct (decide (u = t)) as [->|]; [|by rewrite lookup_alter_ne].
  rewrite lookup_alter_eq. destruct (m !! t); [|done]. cbn. by rewrite Hf.
Qed.

Lemma close_sender_id owner (m : gmap nat Task) u : t_id <$> close_sender owner m !! u = t_id <$> m !! u.
Proof. destruct owner; [|done]. apply alter_id_of. intros x. unfold close_rx. by destruct (t_rx x). Qed.

Lemma finish_ok t r s :
  tasks_ok s -> (forall task, iq_tasks s !! t = Some task -> task_ok task -> task_ok (set_phase (Finished r) task)) ->
  tasks_ok (iq_finish t r s).
Proof. intros Hs Hr. unfold tasks_ok. cbn. by apply alter_ok. Qed.

Lemma finish_err_ok e task : (forall n, e <> CI_Disconnected n) -> task_ok task -> task_ok (set_phase (Finished (Err e)) task).
Proof. intros He (H1 & _ & _). split_and!; [done|done|]. intros n [= ->]. by eapply He. Qed.

Lemma send_error_not_disconnected e n : send_error show_client_error e <> CI_Disconnected n.
Proof. by destruct e. Qed.

Lemma resolve_ok n s :
  tag n = lit "iq" \/ tag n = lit "ack" -> tasks_ok s -> waiters_ok s ->
  tasks_ok (resolve_waiter n s).2 /\ waiters_ok (resolve_waiter n s).2.
Proof.
  intros Ht Hs Hw. unfold resolve_waiter. destruct (im_get (lit "id") (attrs n)) as [id|] eqn:Ei; [|done].
  destruct (response_waiters s !! id) as [t|] eqn:Ew; [|done]. split.
  - refine (alter_ok _ _ _ _ Hs). intros task Hl Hok. apply Hw in Ew. rewrite Hl in Ew. injection Ew as Ew.
    unfold deliver. destruct Hok as (H1 & H2 & H3).
    destruct (t_phase task) eqn:Ep; (split_and!; cbn; [|rewrite Ep; done..]); try done;
      (intros m [= <-]; rewrite Ew; by split).
  - intros id' u. cbn. rewrite lookup_delete_Some. intros [_ Hu]. rewrite alter_id_of; [by apply Hw|].
    intros x. unfold deliver. by destruct (t_phase x).
Qed.

Lemma result_ok task r :
  task_ok task -> iq_result (t_rx task) = Some r -> task_ok (set_phase (Finished r) task).
Proof.
  intros (H1 & _ & _) Hr. destruct (t_rx task) as [|n|] eqn:E; [done| |].
  - destruct (H1 n eq_refl) as [Hid Htag]. injection Hr as <-. split_and!.
    + intros m Hm. cbn in Hm. rewrite E in Hm. injection Hm as <-. by split.
    + intros m Hm. cbn in Hm. destruct (parse_iq_response n) as [[]| | |] eqn:Ep; try done. injection Hm as <-. by split.
    + intros m Hm. cbn in Hm. destruct (parse_iq_response n) as [[]|e| |] eqn:Ep; try done. injection Hm as Hm.
      destruct e; try done. unfold parse_iq_response in Ep. destruct Htag as [Htag|Htag]; rewrite Htag in Ep; cbn in Ep;
      repeat (case_match; try done).
  - injection Hr as <-. split_and!; cbn; [by rewrite E|done|done].
Qed.

Lemma step_ok s s' : iq_step s s' -> tasks_ok s -> waiters_ok s -> tasks_ok s' /\ waiters_ok s'.
Proof.
  intros Hst Hs Hw. destruct Hst as [t query s _ Hn|t task s Hl Hp|t task e s Hl Hp|t task r s Hl Hp Hr|t task s Hl Hp|n s|n s Ht].
  - unfold iq_begin. destruct (match iq_id query with Some _ => _ | None => _ end) as [id c].
    destruct (build_iq_node _ _ _ _) as [nd c']. cbn [snd]. split.
    + intros u task. cbn. rewrite lookup_insert_Some. intros [[<- <-]|[_ Hu]].
      * by split_and!.
      * by eapply close_sender_ok.
    + intros id' u. cbn. rewrite lookup_insert_Some. intros [[<- <-]|[_ Hu]].
      * by rewrite lookup_insert_eq.
      * rewrite lookup_insert_ne; [|intros <-; apply Hw in Hu; by rewrite Hn in Hu].
        rewrite close_sender_id. by apply Hw.
  - split.
    + refine (alter_ok _ _ _ _ Hs). intros x _ (H1 & _ & _). by split_and!.
    + intros id u Hu. cbn. rewrite alter_id_of; [by apply Hw|done].
  - split.
    + apply finish_ok; [exact (close_sender_ok _ _ Hs)|]. intros x _. apply finish_err_ok, send_error_not_disconnected.
    + intros id u. cbn. rewrite lookup_delete_Some. intros [_ Hu]. rewrite alter_id_of by done.
      rewrite close_sender_id. by apply Hw.
  - split.
    + apply finish_ok; [done|]. intros x Hx. rewrite Hl in Hx. injection Hx as <-. intros Hok. by apply result_ok.
    + intros id u Hu. cbn. rewrite alter_id_of; [by apply Hw|done].
  - split.
    + apply finish_ok; [exact (close_sender_ok _ _ Hs)|]. intros x _. by apply finish_err_ok.
    + intros id u. cbn. rewrite lookup_delete_Some. intros [_ Hu]. rewrite alter_id_of by done.
      rewrite close_sender_id. by apply Hw.
  - unfold process_iq. destruct (bytes_eqb_spec (tag n) (lit "iq")) as [Ht|]; [|done].
    destruct (im_get (lit "id") (attrs n)); [|done]. destruct (response_waiters s !! _); [|done].
    apply resolve_ok; [by left|done|done].
  - apply resolve_ok; [by right|done|done].
Qed.

Lemma reach_ok c s : iq_reach c s -> tasks_ok s /\ waiters_ok s.
Proof. induction 1 as [|s s' _ [Hs Hw] Hst]; [by split; intros ? ? ?|]. by eapply step_ok. Qed.

(** C30: A response reaches the task that asked.  In every interleaving of
    requests, responses, acknowledgements, failed sends and timeouts, whatever
    identifiers the requests chose, a request that succeeds returns a response
    that carries the request's own identifier and reports no error; and no
    request is ever told that the stream ended. *)
Theorem iq_response_matched c s t task :
  iq_reach c s -> iq_tasks s !! t = Some task ->
  (forall n, t_phase task = Finished (Ok n) ->
     im_get (lit "id") (attrs n) = Some (t_id task) /\ parse_iq_response n = Ok tt)
  /\ (forall n, t_phase task <> Finished (Err (CI_Disconnected n))).
Proof.
  intros [Hs _]%reach_ok Ht. destruct (Hs t task Ht) as (_ & H2 & H3). split; [|done].
  intros n Hn. destruct (H2 n Hn) as [ [Hid _] Hp]. by split.
Qed.
End Steps.

(** ** Lemmas: generated identifiers *)

Lemma show_uint_inj a b : 0 <= a -> 0 <= b -> show_uint a = show_uint b -> a = b.
Proof.
  intros Ha Hb E. pose proof (parse_show_uint 0 (Z.max a b) a ltac:(lia)) as Pa.
  rewrite E, parse_show_uint in Pa by lia. by injection Pa.
Qed.

Lemma request_id_inj unique_id a b :
  0 <= a -> 0 <= b -> (generate_request_id unique_id a).1 = (generate_request_id unique_id b).1 -> a = b.
Proof. intros Ha Hb E. apply app_inv_head, app_inv_head in E. by apply show_uint_inj. Qed.

Section Exact.
Context (unique_id : str) (show_client_error : ClientError -> str).

Definition finished (t : Task) : bool := match t_phase t with Finished _ => true | _ => false end.
Definition live (t : Task) : Prop := t_rx t = Open /\ finished t = false.

Record iq_exact (s : IqState) : Prop := {
  ex_counter : id_counter s = Z.of_nat (size (iq_tasks s));
  ex_id : forall t task, iq_tasks s !! t = Some task ->
    exists k, 0 <= k < id_counter s /\ t_id task = (generate_request_id unique_id k).1;
  ex_inj : forall t u a b, iq_tasks s !! t = Some a -> iq_tasks s !! u = Some b -> t_id a = t_id b -> t = u;
  ex_waiters : forall id t, response_waiters s !! id = Some t <->
    exists task, iq_tasks s !! t = Some task /\ t_id task = id /\ live task;
  ex_open : forall t task, iq_tasks s !! t = Some task ->
    (finished task = false -> t_rx task <> SenderDropped)
    /\ t_phase task <> Finished (Err CI_InternalChannelClosed)
}.

(** One task moves on. *)
Lemma exact_update s t task task' w :
  iq_exact s -> iq_tasks s !! t = Some task -> t_id task' = t_id task ->
  (finished task' = false -> t_rx task' <> SenderDropped) -> t_phase task' <> Finished (Err CI_InternalChannelClosed) ->
  (w = response_waiters s /\ (live task' <-> live task) \/ w = delete (t_id task) (response_waiters s) /\ ~ live task') ->
  iq_exact (mkIqState (id_counter s) w (<[t := task']> (iq_tasks s))).
Proof.
  intros [H1 H2 H3 H4 H5] Ht Hid Ho Hc Hw. split; cbn.
  - by rewrite map_size_insert, Ht.
  - intros u x. rewrite lookup_insert_Some. intros [[<- <-]|[_ Hu]]; [rewrite Hid|]; by eapply H2.
  - assert (forall u x, <[t := task']> (iq_tasks s) !! u = Some x ->
      exists y, iq_tasks s !! u = Some y /\ t_id x = t_id y) as Hy.
    { intros u x. rewrite lookup_insert_Some. intros [[<- <-]|[_ Hu]]; by eexists. }
    intros u v a b Ha Hb E. apply Hy in Ha as (a' & Ha & Ea). apply Hy in Hb as (b' & Hb & Eb).
    apply (H3 u v a' b' Ha Hb). congruence.
  - intros id u. destruct (decide (u = t)) as [->|Hu].
    + rewrite lookup_insert_eq. destruct Hw as [ [-> Hl]|[-> Hl] ].
      * rewrite H4. split; intros (x & Hx & Hi & Hv).
        -- rewrite Ht in Hx. injection Hx as <-. exists task'. by rewrite Hid, Hl.
        -- injection Hx as <-. exists task. by rewrite <- Hid, <- Hl.
      * rewrite lookup_delete_Some, H4. split.
        -- intros (Hne & x & Hx & Hi & _). rewrite Ht in Hx. injection Hx as <-. done.
        -- intros (x & Hx & _ & Hv). by injection Hx as <-.
    + rewrite lookup_insert_ne by done. destruct Hw as [ [-> _]|[-> _] ]; [by rewrite H4|].
      rewrite lookup_delete_Some, H4. split; [by intros [_ ?]|]. intros (x & Hx & Hi & Hv). split; [|by exists x].
      intros E. apply Hu. symmetry. apply (H3 t u task x Ht Hx). congruence.
  - intros u x. rewrite lookup_insert_Some. intros [[<- <-]|[_ Hu]]; [done|by eapply H5].
Qed.

Lemma alter_insert_eq (f : Task -> Task) t task (m : gmap nat Task) :
  m !! t = Some task -> alter f t m = <[t := f task]> m.
Proof.
  intros Ht. apply map_eq. intros u. destruct (decide (u = t)) as [->|]; [|by rewrite lookup_alter_ne, lookup_insert_ne].
  by rewrite lookup_alter_eq, lookup_insert_eq, Ht.
Qed.

(** Only the task itself waits under its identifier. *)
Lemma close_own s t task :
  iq_exact s -> iq_tasks s !! t = Some task -> finished task = false ->
  exists task', close_sender (response_waiters s !! t_id task) (iq_tasks s) = <[t := task']> (iq_tasks s)
    /\ iq_tasks s !! t = Some task /\ t_id task' = t_id task.
Proof.
  intros Hs Ht Hf. destruct (response_waiters s !! t_id task) as [u|] eqn:E; cbn.
  - apply (ex_waiters s Hs) in E as (x & Hx & Hi & _). pose proof (ex_inj s Hs _ _ _ _ Hx Ht Hi) as ->.
    exists (close_rx task). rewrite (alter_insert_eq _ t task) by done. split; [done|]. split; [done|].
    unfold close_rx. by destruct (t_rx task).
  - exists task. by rewrite insert_id.
Qed.

Lemma exact_give_up s t task e :
  iq_exact s -> iq_tasks s !! t = Some task -> finished task = false -> e <> CI_InternalChannelClosed ->
  iq_exact (iq_finish t (Err e) (remove_waiter (t_id task) s)).
Proof.
  intros Hs Ht Hf He. destruct (close_own s t task Hs Ht Hf) as (task' & Hc & _ & Hi).
  unfold iq_finish, remove_waiter. cbn. rewrite Hc, (alter_insert_eq _ t task') by apply lookup_insert_eq.
  rewrite insert_insert_eq. apply (exact_update s t task); try done; cbn; [by intros [= ->]|].
  right. split; [done|]. by intros [_ ?].
Qed.

Lemma exact_begin s t query :
  iq_exact s -> iq_id query = None -> iq_tasks s !! t = None -> id_counter s + 1 < 2 ^ 64 ->
  iq_exact (iq_begin unique_id t query s).2.
Proof.
  intros Hs Hq Ht Hc. unfold iq_begin. rewrite Hq.
  assert (0 <= id_counter s) as H0 by (rewrite (ex_counter s Hs); lia).
  destruct (generate_request_id unique_id (id_counter s)) as [id c] eqn:Eg.
  assert (c = id_counter s + 1) as -> by (injection Eg as _ <-; apply wrap_small; lia).
  assert (forall u x, iq_tasks s !! u = Some x -> t_id x <> id) as Hfresh.
  { intros u x Hx E. destruct (ex_id s Hs u x Hx) as (k & Hk & Ek). rewrite E in Ek.
    assert (k = id_counter s) as ->; [|lia]. apply (request_id_inj unique_id); [lia..|]. by rewrite <- Ek, Eg. }
  assert (response_waiters s !! id = None) as Hw.
  { destruct (response_waiters s !! id) as [u|] eqn:E; [|done]. apply (ex_waiters s Hs) in E as (x & Hx & Hi & _).
    by destruct (Hfresh u x Hx). }
  rewrite Hw. cbn. destruct Hs as [H1 H2 H3 H4 H5]. split; cbn.
  - rewrite map_size_insert, Ht. lia.
  - intros u x. rewrite lookup_insert_Some. intros [[<- <-]|[_ Hu]]; cbn.
    + exists (id_counter s). split; [lia|]. by injection Eg as <- _.
    + destruct (H2 u x Hu) as (k & Hk & Ek). exists k. split; [lia|done].
  - intros u v a b. rewrite !lookup_insert_Some. intros [[<- <-]|[_ Hu]] [[<- <-]|[_ Hv]] E; [done| | |by eapply H3].
    + by destruct (Hfresh v b Hv).
    + by destruct (Hfresh u a Hu).
  - intros i u. rewrite lookup_insert_Some, H4. split.
    + intros [[<- <-]|[Hi (x & Hx & Hi' & Hl)]].
      * rewrite lookup_insert_eq. eexists. by split_and!.
      * exists x. rewrite lookup_insert_ne; [done|]. intros ->. by rewrite Ht in Hx.
    + intros (x & Hx & Hi & Hl). apply lookup_insert_Some in Hx as [[<- <-]|[Hu Hx]]; [left; by rewrite <- Hi|].
      right. split; [|by exists x]. intros ->. by destruct (Hfresh u x Hx).
  - intros u x. rewrite lookup_insert_Some. intros [[<- <-]|[_ Hu]]; [done|by eapply H5].
Qed.

Lemma exact_resolve n s : iq_exact s -> iq_exact (resolve_waiter n s).2.
Proof.
  intros Hs. unfold resolve_waiter. destruct (im_get (lit "id") (attrs n)) as [id|]; [|done].
  destruct (response_waiters s !! id) as [t|] eqn:E; [|done]. cbn.
  apply (ex_waiters s Hs) in E as (x & Hx & <- & Ho & Hf). rewrite (alter_insert_eq _ t x) by done.
  assert (deliver n x = set_rx (Delivered n) x) as -> by (unfold deliver; unfold finished in Hf; by destruct (t_phase x)).
  apply (exact_update s t x); try done; [by apply (ex_open s Hs t x)|]. right. split; [done|]. by intros [? _].
Qed.

Lemma parse_iq_errors n e :
  parse_iq_response n = Err e -> match e with IQ_Disconnected _ | IQ_ServerError _ _ => True | _ => False end.
Proof. unfold parse_iq_response. intros H. repeat (case_match; simplify_eq; try done). Qed.

Lemma exact_step s s' :
  iq_step unique_id show_client_error (fun q => iq_id q = None) s s' ->
  id_counter s + 1 < 2 ^ 64 -> iq_exact s -> iq_exact s'.
Proof.
  intros Hst Hc Hs.
  destruct Hst as [t query s Hq Hn|t task s Hl Hp|t task e s Hl Hp|t task r s Hl Hp Hr|t task s Hl Hp|n s|n s Ht].
  - by apply exact_begin.
  - unfold iq_sent. rewrite (alter_insert_eq _ t task) by done.
    apply (exact_update s t task); try done; cbn; [intros _; apply (ex_open s Hs t task Hl); by unfold finished; rewrite Hp|].
    left. split; [done|]. unfold live, finished. cbn. by rewrite Hp.
  - apply exact_give_up; [done|done|by unfold finished; rewrite Hp|]. by destruct e.
  - assert (finished task = false) as Hf by (by unfold finished; rewrite Hp).
    destruct (ex_open s Hs t task Hl) as [Ho _]. specialize (Ho Hf).
    unfold iq_finish. rewrite (alter_insert_eq _ t task) by done.
    destruct (t_rx task) as [|n|] eqn:Erx; [done| |done]. injection Hr as <-.
    apply (exact_update s t task); try done; cbn.
    + intros [= E]. destruct (parse_iq_response n) as [ | e| |] eqn:Ep; try done. injection E as E.
      by destruct e, (parse_iq_errors _ _ Ep).
    + left. split; [done|]. unfold live, finished. cbn. rewrite Erx. split; [by intros [? _]|by intros [? _] ].
  - apply exact_give_up; [done|done|by unfold finished; rewrite Hp|done].
  - unfold process_iq. destruct (tag n =s lit "iq"); [|done]. destruct (im_get (lit "id") (attrs n)); [|done].
    destruct (response_waiters s !! _); [|done]. by apply exact_resolve.
  - by apply exact_resolve.
Qed.

Lemma size_alter (f : Task -> Task) t (m : gmap nat Task) : size (alter f t m) = size m.
Proof. rewrite <- !size_dom. by rewrite dom_alter_L. Qed.

Lemma step_size s s' :
  iq_step unique_id show_client_error (fun q => iq_id q = None) s s' -> (size (iq_tasks s) <= size (iq_tasks s'))%nat.
Proof.
  assert (forall o (m : gmap nat Task), size (close_sender o m) = size m) as Hcl.
  { intros [t|] m; [apply size_alter|done]. }
  assert (forall n s, size (iq_tasks (resolve_waiter n s).2) = size (iq_tasks s)) as Hr.
  { intros n s0. unfold resolve_waiter. destruct (im_get _ _); [|done]. destruct (_ !! _); [|done]. apply size_alter. }
  destruct 1 as [t query s _ Hn|t task s|t task e s|t task r s|t task s|n s|n s];
    cbn; rewrite ?size_alter, ?Hcl; try done.
  - unfold iq_begin. destruct (match iq_id query with Some _ => _ | None => _ end) as [id c].
    destruct (build_iq_node _ _ _ _) as [nd c']. cbn [snd iq_tasks]. rewrite map_size_insert, Hcl.
    destruct (close_sender _ _ !! t); unfold Datatypes.id; lia.
  - unfold process_iq. repeat case_match; try done. unfold handle_iq_response. by rewrite Hr.
  - unfold handle_ack_response. by rewrite Hr.
Qed.

Lemma exact_init : iq_exact (iq_init 0).
Proof. split; try done. intros id t. split; [done|]. by intros (x & Hx & _). Qed.

Lemma reach_exact s :
  iq_reach unique_id show_client_error (fun q => iq_id q = None) 0 s ->
  Z.of_nat (size (iq_tasks s)) < 2 ^ 64 - 1 -> iq_exact s.
Proof.
  induction 1 as [|s s' Hr IH Hst]; intros Hz; [apply exact_init|].
  assert (iq_exact s) as Hs by (apply IH; pose proof (step_size s s' Hst); lia).
  apply (exact_step s s' Hst); [|done]. rewrite (ex_counter s Hs). pose proof (step_size s s' Hst). lia.
Qed.

(** No request is lost or forgotten.  As long as identifiers are generated
    and the counter has not wrapped, in every interleaving the table of
    waiters holds exactly the requests that are neither answered nor over,
    each under its own identifier; no two requests share one; and no request
    ends because its channel was closed. *)
Theorem iq_waiters_exact s :
  iq_reach unique_id show_client_error (fun q => iq_id q = None) 0 s ->
  Z.of_nat (size (iq_tasks s)) < 2 ^ 64 - 1 ->
  (forall id t, response_waiters s !! id = Some t <->
     exists task, iq_tasks s !! t = Some task /\ t_id task = id /\ live task)
  /\ (forall t u a b, iq_tasks s !! t = Some a -> iq_tasks s !! u = Some b -> t_id a = t_id b -> t = u)
  /\ (forall t task, iq_tasks s !! t = Some task -> t_phase task <> Finished (Err CI_InternalChannelClosed)).
Proof.
  intros Hr Hz. destruct (reach_exact s Hr Hz) as [_ _ H3 H4 H5]. split; [done|]. split; [done|].
  intros t task Ht. apply (H5 t task Ht).
Qed.
End Exact.

(** ** Message identifiers *)

Lemma upper_hex v : 0 <= v < 16 -> is_ascii_digit (to_ascii_uppercase (hex_digit v)) = true
  \/ 65 <= to_ascii_uppercase (hex_digit v) <= 70.
Proof.
  intros Hv. unfold hex_digit, to_ascii_uppercase. destruct (Z.ltb_spec v 10).
  - left. rewrite is_ascii_digit_spec. destruct (in_range 97 122 (48 + v)) eqn:E; [apply in_range_spec in E|]; lia.
  - right. replace (in_range 97 122 (87 + v)) with true by (symmetry; apply in_range_spec; lia). lia.
Qed.

(** A message identifier is [3EB0] and eighteen upper-case hexadecimal digits. *)
Lemma message_id_format `{HS : !Hashes, HX : !Hex} timestamp random_bytes user_jid :
  (forall m, Forall is_byte (sha Sha256 m)) ->
  let id := generate_message_id timestamp random_bytes user_jid in
  length id = 22%nat /\ take 4 id = lit "3EB0"
  /\ Forall (fun c => is_ascii_digit c = true \/ 65 <= c <= 70) id.
Proof.
  intros Hb. cbv zeta. unfold generate_message_id. set (h := take 9 (sha Sha256 _)).
  assert (Forall is_byte h) as Hh by (by apply Forall_take).
  assert (length h = 9%nat) as Hl by (unfold h; rewrite length_take, sha_length; done).
  rewrite hex_encode_spec by done. unfold to_uppercase.
  assert (length (concat (map (fun x => [hex_digit (x / 16); hex_digit (x mod 16)]) h)) = 18%nat) as Hlen.
  { replace 18%nat with (2 * length h)%nat by lia. clear. induction h as [|x h IH]; [done|]. cbn. rewrite IH. lia. }
  split; [by rewrite length_app, length_map, Hlen|]. split; [done|].
  apply Forall_app_2.
  { change (lit "3EB0") with [51; 69; 66; 48]. repeat apply Forall_cons_2; try apply Forall_nil_2; (by left) || (right; lia). }
  clear Hlen Hl. induction Hh as [|x h' Hx Hh IH]; [constructor|]. cbn [map concat app].
  unfold is_byte in Hx. constructor; [|constructor; [|done] ]; apply upper_hex; Z.div_mod_to_equations; lia.
Qed.

(** ** Witnesses *)

Definition sample_query : InfoQuery := query_get (lit "encrypt") (jid_new [] SERVER_JID) None.
Definition sample_response : Node :=
  mkNode (lit "iq") [(lit "id", lit "9-0"); (lit "type", lit "result")] None.

(** A request is made, sent, answered and picked up. *)
Definition sample_run : list (IqState -> IqState) :=
  [fun s => (iq_begin (lit "9") 0 sample_query s).2; iq_sent 0; fun s => (process_iq sample_response s).2;
   iq_finish 0 (Ok sample_response)].

Lemma sample_reach :
  iq_reach (lit "9") (fun _ => []) (fun q => iq_id q = None) 0 (fold_left (fun s f => f s) sample_run (iq_init 0)).
Proof.
  cbn [fold_left sample_run]. eapply reach_step; [eapply reach_step; [eapply reach_step; [eapply reach_step|]|]|].
  - apply reach_init.
  - apply (step_begin _ _ _ 0 sample_query); reflexivity.
  - eapply (step_sent _ _ _ 0); reflexivity.
  - apply (step_iq _ _ _ sample_response).
  - eapply (step_wake _ _ _ 0); reflexivity.
Qed.

Lemma iq_response_matched_witness :
  exists task, iq_tasks (fold_left (fun s f => f s) sample_run (iq_init 0)) !! 0%nat = Some task
    /\ t_phase task = Finished (Ok sample_response)
    /\ im_get (lit "id") (attrs sample_response) = Some (t_id task).
Proof.
  eexists. split; [reflexivity|]. split; [reflexivity|].
  apply (iq_response_matched (lit "9") (fun _ => []) (fun q => iq_id q = None) 0 _ 0 _ sample_reach); reflexivity.
Defined.

Lemma iq_waiters_exact_witness :
  exists task, iq_tasks (fold_left (fun s f => f s) sample_run (iq_init 0)) !! 0%nat = Some task
    /\ t_phase task <> Finished (Err CI_InternalChannelClosed).
Proof.
  eexists. split; [reflexivity|].
  apply (iq_waiters_exact (lit "9") (fun _ => []) _ sample_reach) with (t := 0%nat); [vm_compute; reflexivity|reflexivity].
Defined.
