(* ===== verification/Pairing.v ===== *)
(** * Pairing: [warp_core/src/{pair_code,pair}.rs], [src/auth/{pair_code,pair}.rs]

    Linking by a code: the code itself, the wrapping of the ephemeral keys, the
    key bundle, and the state machine of the client.  Linking by a QR code: its
    text, the check and the countersignature of the device identity.  PBKDF2,
    AES-CTR, base64 and the protobuf encodings are interfaces.  The theorems
    show that a phone which knows the code gets the companion's identity and
    the same secret, that a code answers at most one confirmation, what a
    countersigned identity guarantees, that QR codes read back, and that the
    HMAC of a device identity is not checked. *)

From S2P Require Import Prelude RustStd Crypto Curve Jid Node Attrs SessionRatchet Noise Connection Device Requests.

(** ** Primitives of other crates *)

(** PBKDF2-HMAC-SHA256: password, salt, rounds, length *)
Class Pbkdf2 := {
  pbkdf2 : bytes -> bytes -> Z -> nat -> bytes;
  pbkdf2_length : forall p s r n, length (pbkdf2 p s r n) = n
}.

(** The key stream of AES-256-CTR; [apply_keystream] adds it. *)
Class AesCtr := {
  ctr_keystream : bytes -> bytes -> nat -> bytes;
  ctr_keystream_length : forall key iv n, length (ctr_keystream key iv n) = n
}.
Definition apply_keystream `{!AesCtr} (key iv data : bytes) : bytes :=
  zip_with Z.lxor data (ctr_keystream key iv (length data)).

(** [BASE64_STANDARD]: its alphabet has no comma. *)
Class Base64 := {
  b64_encode : bytes -> str;
  b64_decode : bytes -> option bytes;
  b64_decode_encode : forall b, Forall is_byte b -> b64_decode (b64_encode b) = Some b;
  b64_no_comma : forall b, str_free 44 (b64_encode b) = true
}.

(** ** [pair_code.rs]: codes *)

Definition PAIR_CODE_PBKDF2_ITERATIONS : u32 := 131072.
Definition PAIR_CODE_SALT_SIZE : usize := 32.
Definition PAIR_CODE_IV_SIZE : usize := 16.
Definition CROCKFORD_ALPHABET : bytes := lit "123456789ABCDEFGHJKLMNPQRSTVWXYZ".
Definition PAIR_CODE_VALIDITY_SECS : u64 := 180.

Inductive PlatformId :=
| PL_Unknown | PL_Chrome | PL_Firefox | PL_InternetExplorer | PL_Opera | PL_Safari | PL_Edge | PL_Electron | PL_Uwp
| PL_OtherWebClient.

Definition platform_as_str (p : PlatformId) : str :=
  match p with
  | PL_Unknown => lit "0" | PL_Chrome => lit "1" | PL_Firefox => lit "2" | PL_InternetExplorer => lit "3"
  | PL_Opera => lit "4" | PL_Safari => lit "5" | PL_Edge => lit "6" | PL_Electron => lit "7" | PL_Uwp => lit "8"
  | PL_OtherWebClient => lit "9"
  end.

Record PairCodeOptions := mkPairOptions {
  po_phone_number : str; po_show_push_notification : bool; po_custom_code : option str;
  po_platform_id : PlatformId; po_platform_display : str
}.

Inductive PairCodeState :=
| PC_Idle
| PC_Waiting (pairing_ref : bytes) (phone_jid pair_code : str) (ephemeral_keypair : KeyPair)
| PC_Completed.

Inductive PairCodeError :=
| PhoneNumberRequired
| PhoneNumberTooShort
| PhoneNumberNotInternational
| InvalidCustomCode
| InvalidWrappedData (expected got : usize)
| PE_CryptoError (e : str)
| NotWaiting
| MissingPairingRef
| RequestFailed (e : str).

Definition validate_code (code : str) : bool :=
  (length code =? 8)%nat && forallb (fun b => existsb (Z.eqb (to_ascii_uppercase b)) CROCKFORD_ALPHABET) code.

(** The five-bit groups from the highest. *)
Definition crockford_char (accumulator : u64) (i : nat) : u8 :=
  nth (Z.to_nat (Z.land (Z.shiftr accumulator (Z.of_nat i * 5)) 31)) CROCKFORD_ALPHABET 0.
Definition encode_crockford (bs : bytes) : str :=
  let accumulator := fold_left (fun a b => Z.lor (wrap 64 (Z.shiftl a 8)) b) bs 0 in
  map (crockford_char accumulator) (rev (seq 0 8)).

(** [rnd]: five bytes *)
Definition generate_code (rnd : bytes) : str := encode_crockford rnd.

Section PairCode.
Context `{HPB : !Pbkdf2, HCT : !AesCtr, HK : !Hkdf, HC : !Curve25519, HG : !AesGcm}.

Definition derive_key (code : str) (salt : bytes) : bytes := pbkdf2 code salt PAIR_CODE_PBKDF2_ITERATIONS 32.

Definition encrypt_ephemeral_pub (ephemeral_pub : bytes) (code : str) (salt iv : bytes) : bytes :=
  let key := derive_key code salt in
  salt ++ iv ++ apply_keystream key iv ephemeral_pub.

Definition decrypt_primary_ephemeral_pub (wrapped : bytes) (pair_code : str) : outcome PairCodeError bytes :=
  if negb (length wrapped =? 80)%nat then Err (InvalidWrappedData 80 (length wrapped))
  else
    let salt := slice 0 32 wrapped in
    let iv := slice 32 48 wrapped in
    let ciphertext := slice 48 80 wrapped in
    Ok (apply_keystream (derive_key pair_code salt) iv ciphertext).

Definition show_bool (b : bool) : str := if b then lit "true" else lit "false".

Definition b_leaf (t : string) (b : bytes) : Node := build (b_bytes (builder_new (lit t)) b).

Definition build_companion_hello_iq (phone_number noise_static_pub wrapped_ephemeral : bytes) (platform_id : PlatformId)
    (platform_display : str) (show_push_notification : bool) (req_id : str) : Node :=
  let link_code_reg :=
    build (b_children (b_attrs_all (builder_new (lit "link_code_companion_reg"))
      [(lit "jid", phone_number ++ lit "@s.whatsapp.net"); (lit "stage", lit "companion_hello");
       (lit "should_show_push_notification", show_bool show_push_notification)])
      [b_leaf "link_code_pairing_wrapped_companion_ephemeral_pub" wrapped_ephemeral;
       b_leaf "companion_server_auth_key_pub" noise_static_pub;
       b_leaf "companion_platform_id" (platform_as_str platform_id);
       b_leaf "companion_platform_display" platform_display;
       b_leaf "link_code_pairing_nonce" (lit "0")]) in
  build (b_children (b_attrs_all (builder_new (lit "iq"))
    [(lit "xmlns", lit "md"); (lit "type", lit "set"); (lit "to", SERVER_JID); (lit "id", req_id)]) [link_code_reg]).

(** The bytes a node holds. *)
Definition node_bytes (n : option Node) : option bytes :=
  match n with
  | Some n => match content n with Some (NC_Bytes b) => Some b | _ => None end
  | None => None
  end.

Definition child_by_tag (n : option Node) (t : string) : option Node :=
  match n with Some n => get_optional_child_by_tag n [lit t] | None => None end.

Definition parse_companion_hello_response (n : Node) : option bytes :=
  node_bytes (child_by_tag (child_by_tag (Some n) "link_code_companion_reg") "link_code_pairing_ref").

Definition build_companion_finish_iq (phone_number wrapped_key_bundle identity_pub pairing_ref : bytes) (req_id : str) : Node :=
  let link_code_reg :=
    build (b_children (b_attrs_all (builder_new (lit "link_code_companion_reg"))
      [(lit "jid", phone_number ++ lit "@s.whatsapp.net"); (lit "stage", lit "companion_finish")])
      [b_leaf "link_code_pairing_wrapped_key_bundle" wrapped_key_bundle;
       b_leaf "companion_identity_public" identity_pub; b_leaf "link_code_pairing_ref" pairing_ref]) in
  build (b_children (b_attrs_all (builder_new (lit "iq"))
    [(lit "xmlns", lit "md"); (lit "type", lit "set"); (lit "to", SERVER_JID); (lit "id", req_id)]) [link_code_reg]).

Definition pair_crypto {A} (prefix : string) (o : outcome CurveError A) : outcome PairCodeError A :=
  map_err (fun e => PE_CryptoError (lit prefix ++ show_curve_error e)) o.

(** [rnds]: the random bytes of the bundle (32), of its salt (32) and of its IV (12).
    32 bytes are within what HKDF can expand to. *)
Definition prepare_key_bundle (ephemeral_keypair : KeyPair) (primary_ephemeral_pub primary_identity_pub : bytes)
    (identity_key : KeyPair) (rnds : bytes * bytes * bytes) : outcome PairCodeError (bytes * bytes) :=
  let '(random_bytes, key_bundle_salt, iv) := rnds in
  let? primary_eph_pub := pair_crypto "Invalid primary ephemeral key: " (from_djb_public_key_bytes primary_ephemeral_pub) in
  let? primary_id_pub := pair_crypto "Invalid primary identity key: " (from_djb_public_key_bytes primary_identity_pub) in
  let? ephemeral_shared := pair_crypto "Ephemeral DH failed: "
                             (calculate_agreement (kp_private ephemeral_keypair) primary_eph_pub) in
  let? identity_shared := pair_crypto "Identity DH failed: "
                            (calculate_agreement (kp_private identity_key) primary_id_pub) in
  let new_adv_secret := hkdf None (ephemeral_shared ++ identity_shared ++ random_bytes) (lit "adv_secret") 32 in
  let bundle := pk_bytes (kp_public identity_key) ++ primary_identity_pub ++ random_bytes in
  let enc_key := hkdf (Some key_bundle_salt) ephemeral_shared (lit "link_code_pairing_key_bundle_encryption_key") 32 in
  let? cipher := ok_or (PE_CryptoError (lit "AES-GCM init failed: Invalid Length")) (gcm_key_new enc_key) in
  let? encrypted_bundle := ok_or (PE_CryptoError (lit "AES-GCM encryption failed: " ++ aead_error))
                             (gcm_encrypt cipher iv [] bundle) in
  Ok (key_bundle_salt ++ iv ++ encrypted_bundle, new_adv_secret).

(** ** [src/auth/pair_code.rs]: the client's side *)

(** What the client keeps of it: the state, and the codes shown to the user. *)
Record PairClient := mkPairClient { pc_state : PairCodeState; pc_events : list (str * u64) }.

Section Client.
Context (send_iq : InfoQuery -> outcome ClientIqError Node) (show_iq_error : ClientIqError -> str).
Context (send : Node -> outcome ClientError unit).

Definition check_phone_number (phone_number : str) : outcome PairCodeError unit :=
  if (length phone_number =? 0)%nat then Err PhoneNumberRequired
  else if (length phone_number <? 7)%nat then Err PhoneNumberTooShort
  else if starts_with (lit "0") phone_number then Err PhoneNumberNotInternational
  else Ok tt.

Definition choose_code (custom_code : option str) (code_rnd : bytes) : outcome PairCodeError str :=
  match custom_code with
  | Some custom => if negb (validate_code custom) then Err InvalidCustomCode else Ok (to_uppercase custom)
  | None => Ok (generate_code code_rnd)
  end.

(** [rnds]: the random bytes of the code, the ephemeral key, the salt and the IV.
    [joined]: did the blocking thread end normally; [join_error] its text. *)
Definition pair_with_code (options : PairCodeOptions) (noise_key : KeyPair) (req_id : str)
    (rnds : bytes * bytes * bytes * bytes) (joined : bool) (join_error : str) : comp PairClient PairCodeError str :=
  let '(code_rnd, eph_rnd, salt, iv) := rnds in
  let phone_number := List.filter is_ascii_digit (po_phone_number options) in
  let! _ := mlift (check_phone_number phone_number) in
  let! code := mlift (choose_code (po_custom_code options) code_rnd) in
  let ephemeral_keypair := key_pair_generate eph_rnd in
  let! _ := mlift (if joined then Ok tt else Err (PE_CryptoError (lit "spawn_blocking failed: " ++ join_error))) in
  let wrapped_ephemeral := encrypt_ephemeral_pub (pk_bytes (kp_public ephemeral_keypair)) code salt iv in
  let iq_content := build_companion_hello_iq phone_number (pk_bytes (kp_public noise_key)) wrapped_ephemeral
                      (po_platform_id options) (po_platform_display options) (po_show_push_notification options) req_id in
  let query := mkQuery (lit "md") IQ_Set (jid_new [] SERVER_JID) None (Some req_id)
                 (Some (NC_Nodes (default_or [] (children iq_content)))) (Some 30) in
  let! response := mlift (map_err (fun e => RequestFailed (show_iq_error e)) (send_iq query)) in
  let! pairing_ref := mlift (ok_or MissingPairingRef (parse_companion_hello_response response)) in
  fun c => (Ok code, mkPairClient (PC_Waiting pairing_ref phone_number code ephemeral_keypair)
                       (pc_events c ++ [(code, PAIR_CODE_VALIDITY_SECS)])).

Definition sized_bytes (size : nat) (n : option Node) : option bytes :=
  match node_bytes n with Some b => if (length b =? size)%nat then Some b else None | None => None end.

(** Was the notification handled; [identity_key] of the device. *)
Definition handle_pair_code_notification (node : Node) (identity_key : KeyPair) (req_id : str)
    (rnds : bytes * bytes * bytes) (joined : bool) (c : PairClient) : bool * PairClient :=
  match child_by_tag (Some node) "link_code_companion_reg" with
  | None => (false, c)
  | Some reg_node =>
      match sized_bytes 80 (child_by_tag (Some reg_node) "link_code_pairing_wrapped_primary_ephemeral_pub") with
      | None => (false, c)
      | Some primary_wrapped_ephemeral =>
          match sized_bytes 32 (child_by_tag (Some reg_node) "primary_identity_pub") with
          | None => (false, c)
          | Some primary_identity_pub =>
              let taken := mkPairClient PC_Idle (pc_events c) in
              match pc_state c with
              | PC_Waiting pairing_ref phone_jid pair_code ephemeral_keypair =>
                  match decrypt_primary_ephemeral_pub primary_wrapped_ephemeral pair_code with
                  | Ok primary_ephemeral_pub =>
                      if negb joined then (false, taken)
                      else
                        match prepare_key_bundle ephemeral_keypair primary_ephemeral_pub primary_identity_pub
                                identity_key rnds with
                        | Ok (wrapped_bundle, _) =>
                            let iq := build_companion_finish_iq phone_jid wrapped_bundle
                                        (pk_bytes (kp_public identity_key)) pairing_ref req_id in
                            match send iq with
                            | Ok _ => (true, mkPairClient PC_Completed (pc_events c))
                            | _ => (false, taken)
                            end
                        | _ => (false, taken)
                        end
                  | _ => (false, taken)
                  end
              | _ => (false, taken)
              end
          end
      end
  end.
End Client.
End PairCode.

(** ** [pair.rs] *)

Definition ADV_PREFIX_ACCOUNT_SIGNATURE : bytes := [6; 0].
Definition ADV_PREFIX_DEVICE_SIGNATURE_GENERATE : bytes := [6; 1].
Definition ADV_HOSTED_PREFIX_ACCOUNT_SIGNATURE : bytes := [6; 5].
Definition ADV_HOSTED_PREFIX_DEVICE_SIGNATURE_VERIFICATION : bytes := [6; 6].

(** The source of an error is kept as its text. *)
Record PairCryptoError := mkPairCryptoError { pce_code : u16; pce_text : str; pce_source : str }.

Definition internal_error (source : str) : PairCryptoError := mkPairCryptoError 500 (lit "internal-error") source.

Record DeviceState := mkDeviceState { ds_identity_key : KeyPair; ds_noise_key : KeyPair; ds_adv_secret_key : bytes }.

Definition adv_decoded {A} (r : sum str A) : outcome PairCryptoError A :=
  match r with inr a => Ok a | inl e => Err (internal_error e) end.

Definition join_commas (l : list str) : str :=
  match l with [] => [] | x :: l => fold_left (fun acc y => acc ++ lit "," ++ y) l x end.

(** [s.split(',')] *)
Fixpoint split_commas (cur s : str) : list str :=
  match s with
  | [] => [cur]
  | c :: s' => if c =? 44 then cur :: split_commas [] s' else split_commas (cur ++ [c]) s'
  end.

Section Pair.
Context `{HS : !Hashes, HK : !Hkdf, HC : !Curve25519, HG : !AesGcm, HB : !Base64, HP : !AdvProto}.

Definition make_qr_data (d : DeviceState) (ref_str : str) : str :=
  join_commas [ref_str; b64_encode (pk_bytes (kp_public (ds_noise_key d)));
               b64_encode (pk_bytes (kp_public (ds_identity_key d))); b64_encode (ds_adv_secret_key d)].

Definition build_ack_node (request_node : Node) : option Node :=
  match im_get (lit "from") (attrs request_node), im_get (lit "id") (attrs request_node) with
  | Some to, Some id =>
      Some (build (b_attrs_all (builder_new (lit "iq")) [(lit "to", to); (lit "id", id); (lit "type", lit "result")]))
  | _, _ => None
  end.

Definition build_pair_error_node (req_id : str) (code : u16) (text : str) : Node :=
  let error_node := build (b_attrs_all (builder_new (lit "error")) [(lit "code", show_uint code); (lit "text", text)]) in
  build (b_children (b_attrs_all (builder_new (lit "iq"))
    [(lit "to", SERVER_JID); (lit "type", lit "error"); (lit "id", req_id)]) [error_node]).

(** [account_type.is_some() && account_type() == Hosted] *)
Definition is_hosted_account (c : AdvHmac) : bool := match ah_account_type c with Some t => t =? 1 | None => false end.

Definition account_signature_message (hosted : bool) (details identity_pub : bytes) : bytes :=
  (if hosted then ADV_HOSTED_PREFIX_ACCOUNT_SIGNATURE else ADV_PREFIX_ACCOUNT_SIGNATURE) ++ details ++ identity_pub.
Definition device_signature_message (hosted : bool) (details identity_pub account_key : bytes) : bytes :=
  (if hosted then ADV_HOSTED_PREFIX_DEVICE_SIGNATURE_VERIFICATION else ADV_PREFIX_DEVICE_SIGNATURE_GENERATE)
  ++ details ++ identity_pub ++ account_key.

(** The MAC over the details is fed but not compared.  [rnd]: of the signature. *)
Definition do_pair_crypto (d : DeviceState) (device_identity_bytes rnd : bytes) : outcome PairCryptoError (bytes * u32) :=
  let? hmac_container := adv_decoded (adv_hmac_decode device_identity_bytes) in
  let hosted := is_hosted_account hmac_container in
  let? details_bytes := ok_or (internal_error (lit "HMAC container missing details")) (ah_details hmac_container) in
  let? _ := ok_or (internal_error (lit "HMAC container missing hmac")) (ah_hmac hmac_container) in
  let? signed_identity := adv_decoded (adv_signed_decode details_bytes) in
  let account_sig_key_bytes := default_or [] (as_account_signature_key signed_identity) in
  let account_sig_bytes := default_or [] (as_account_signature signed_identity) in
  let inner_details_bytes := default_or [] (as_details signed_identity) in
  let identity_pub := pk_bytes (kp_public (ds_identity_key d)) in
  let? account_public_key := map_err (fun e => mkPairCryptoError 401 (lit "invalid-key") (show_curve_error e))
                               (from_djb_public_key_bytes account_sig_key_bytes) in
  if negb (verify_signature account_public_key (account_signature_message hosted inner_details_bytes identity_pub) account_sig_bytes)
  then Err (mkPairCryptoError 401 (lit "signature-mismatch") (lit "libsignal signature verification failed"))
  else
    let? device_signature := map_err (fun e => internal_error (show_curve_error e))
      (calculate_signature (kp_private (ds_identity_key d))
         (device_signature_message hosted inner_details_bytes identity_pub account_sig_key_bytes) rnd) in
    let signed_identity := mkAdvSigned (as_details signed_identity) (as_account_signature_key signed_identity)
                             (as_account_signature signed_identity) (Some device_signature) in
    let? identity_details := adv_decoded (adv_device_decode inner_details_bytes) in
    Ok (adv_signed_encode signed_identity, default_or 0 (ad_key_index identity_details)).

Definition build_pair_success_response (req_id : str) (self_signed_identity_bytes : bytes) (key_index : u32) : Node :=
  let response_content :=
    build (b_children (builder_new (lit "pair-device-sign"))
      [build (b_bytes (b_attr (builder_new (lit "device-identity")) (lit "key-index") (show_uint key_index))
                self_signed_identity_bytes)]) in
  build (b_children (b_attrs_all (builder_new (lit "iq"))
    [(lit "to", SERVER_JID); (lit "id", req_id); (lit "type", lit "result")]) [response_content]).

(** Errors by their text; the decoder's own error is [b64_error]. *)
Definition parse_qr_code (b64_error : str) (qr_code : str) : outcome str (str * bytes * bytes) :=
  match split_commas [] qr_code with
  | [pairing_ref; dut_noise_pub_b64; dut_identity_pub_b64; _] =>
      let? dut_noise_pub := ok_or b64_error (b64_decode dut_noise_pub_b64) in
      let? dut_identity_pub := ok_or b64_error (b64_decode dut_identity_pub_b64) in
      if negb (length dut_noise_pub =? 32)%nat then Err (lit "Invalid noise public key length")
      else if negb (length dut_identity_pub =? 32)%nat then Err (lit "Invalid identity public key length")
      else Ok (pairing_ref, dut_noise_pub, dut_identity_pub)
  | _ => Err (lit "Invalid QR code format")
  end.

Definition prepare_master_pairing_message (d : DeviceState) (pairing_ref dut_noise_pub dut_identity_pub : bytes)
    (master_ephemeral : KeyPair) : outcome str bytes :=
  let account_signature := hmac Sha256 (ds_adv_secret_key d)
    (ADV_PREFIX_ACCOUNT_SIGNATURE ++ dut_identity_pub ++ pk_bytes (kp_public master_ephemeral)) in
  let? their_public_key := map_err show_curve_error (from_djb_public_key_bytes dut_noise_pub) in
  let? shared_secret := map_err show_curve_error (calculate_agreement (kp_private master_ephemeral) their_public_key) in
  let final_message := account_signature ++ pk_bytes (kp_public master_ephemeral) ++ pk_bytes (kp_public (ds_identity_key d)) in
  let encryption_key := hkdf None shared_secret (lit "WA-Ads-Key") 32 in
  let? cipher := ok_or (lit "Invalid key size for AES-GCM") (gcm_key_new encryption_key) in
  ok_or (lit "AES-GCM encryption failed") (gcm_encrypt cipher (replicate 12 0) pairing_ref final_message).

Definition build_master_pair_iq (master_jid : Jid) (encrypted_message : bytes) (req_id : str) : Node :=
  let response_content :=
    build (b_bytes (b_attr (builder_new (lit "pair-device-sign")) (lit "jid") (jid_to_string master_jid)) encrypted_message) in
  build (b_children (b_attrs_all (builder_new (lit "iq"))
    [(lit "to", SERVER_JID); (lit "type", lit "set"); (lit "id", req_id); (lit "xmlns", lit "md")]) [response_content]).

(** ** [src/auth/pair.rs] *)

Inductive PairEvent :=
| EV_PairSuccess (id lid : Jid) (business_name platform : str)
| EV_PairError (id lid : Jid) (business_name platform error : str).

(** What the handler does to the client: commands, mappings, stanzas, events,
    and the flags it sets. *)
Record PairEffects := mkPairEffects {
  pe_state : PairCodeState; pe_rotation_stopped : bool; pe_commands : list DeviceCommand;
  pe_mappings : list (str * str); pe_sent : list Node; pe_events : list PairEvent;
  pe_needs_initial_full_sync : bool; pe_expected_disconnect : bool
}.

Definition child_attr (n : Node) (child name : string) : str :=
  match get_optional_child_by_tag n [lit child] with
  | Some c => default_or [] (ap_optional_string (lit name) (ap_new c)).1
  | None => []
  end.

Definition device_jids (success_node : Node) : Jid * Jid :=
  match get_optional_child_by_tag success_node [lit "device"] with
  | Some device_node =>
      let '(j, parser) := ap_optional_jid (lit "jid") (ap_new device_node) in
      let '(l, parser) := ap_optional_jid (lit "lid") parser in
      match ap_finish parser with
      | Ok _ => (default_or default_jid j, default_or default_jid l)
      | _ => (default_jid, default_jid)
      end
  | None => (default_jid, default_jid)
  end.

Definition show_pair_crypto_error (e : PairCryptoError) : str :=
  lit "pairing crypto failed with code " ++ show_uint (pce_code e) ++ lit ": " ++ pce_text e ++ lit " (source: "
  ++ pce_source e ++ lit ")".

(** [send]: did the stanza go out; [rotating]: is a QR rotation running. *)
Definition handle_pair_success (send : Node -> bool) (d : DeviceState) (rotating : bool) (rnd : bytes)
    (request_node success_node : Node) : PairEffects :=
  let e0 := mkPairEffects PC_Completed rotating [] [] [] [] false false in
  match im_get (lit "id") (attrs request_node) with
  | None => e0
  | Some req_id =>
      match node_bytes (get_optional_child_by_tag success_node [lit "device-identity"]) with
      | None =>
          mkPairEffects PC_Completed rotating [] [] [build_pair_error_node req_id 500 (lit "internal-error")] [] false false
      | Some device_identity_bytes =>
          let business_name := child_attr success_node "biz" "name" in
          let platform := child_attr success_node "platform" "name" in
          let '(jid, lid) := device_jids success_node in
          match do_pair_crypto d device_identity_bytes rnd with
          | Ok (self_signed_identity_bytes, key_index) =>
              match adv_signed_decode self_signed_identity_bytes with
              | inl e =>
                  mkPairEffects PC_Completed rotating [] [] []
                    [EV_PairError jid lid business_name platform
                       (lit "internal error: failed to decode identity for event: " ++ e)] false false
              | inr signed_identity =>
                  let response_node := build_pair_success_response req_id self_signed_identity_bytes key_index in
                  let ok := send response_node in
                  mkPairEffects PC_Completed rotating
                    ([SetId (Some jid); SetAccount (Some signed_identity); SetLid (Some lid)]
                     ++ (if negb (length business_name =? 0)%nat then [SetPushName business_name] else []))
                    (if negb (length (user jid) =? 0)%nat && negb (length (user lid) =? 0)%nat
                     then [(user lid, user jid)] else [])
                    [response_node] (if ok then [EV_PairSuccess jid lid business_name platform] else []) ok ok
              end
          | Err e =>
              mkPairEffects PC_Completed rotating [] []
                [build_pair_error_node req_id (pce_code e) (pce_text e)]
                [EV_PairError jid lid business_name platform (show_pair_crypto_error e)] false false
          | Panic | NoFuel => e0
          end
      end
  end.

(** What the handler of a pairing [iq] starts: an acknowledgement and the codes
    to show, or the end of the pairing. *)
Inductive PairAction := PA_Device (ack : option Node) (codes : list str) | PA_Success (success_node : Node).

Definition ref_codes (d : DeviceState) (child : Node) : list str :=
  flat_map (fun grandchild =>
    match content grandchild with
    | Some (NC_Bytes b) => match from_utf8 b with Ok r => [make_qr_data d r] | _ => [] end
    | _ => []
    end) (get_children_by_tag child (lit "ref")).

Definition handle_pair_iq (d : DeviceState) (node : Node) : option PairAction :=
  if negb (default_or [] (im_get (lit "from") (attrs node)) =s SERVER_JID) then None
  else
    match children node with
    | None => None
    | Some cs =>
        match List.find (fun c => (tag c =s lit "pair-device") || (tag c =s lit "pair-success")) cs with
        | Some child =>
            if tag child =s lit "pair-device" then Some (PA_Device (build_ack_node node) (ref_codes d child))
            else Some (PA_Success child)
        | None => None
        end
    end.

(** The codes with the seconds each is shown. *)
Definition qr_rotation (codes : list str) : list (str * u64) :=
  match codes with [] => [] | c :: cs => (c, 60) :: map (fun c => (c, 20)) cs end.

(** [pn]: the device's own address *)
Definition pair_with_qr_code (send : Node -> outcome ClientError unit) (show_client_error : ClientError -> str)
    (b64_error : str) (d : DeviceState) (pn : option Jid) (rnd : bytes) (req_id qr_code : str) : outcome str unit :=
  let? parts := parse_qr_code b64_error qr_code in
  let '(pairing_ref, dut_noise_pub, dut_identity_pub) := parts in
  let master_ephemeral := key_pair_generate rnd in
  let? encrypted := prepare_master_pairing_message d pairing_ref dut_noise_pub dut_identity_pub master_ephemeral in
  let? master_jid := ok_or (lit "Cannot pair: device has no phone number JID configured") pn in
  map_err show_client_error (send (build_master_pair_iq master_jid encrypted req_id)).
End Pair.

(** ** Lemmas: codes *)

Fixpoint digits32 (n : nat) (acc : Z) : list Z :=
  match n with O => [] | S n => acc / 32 ^ Z.of_nat n mod 32 :: digits32 n acc end.

Lemma digits32_value n acc a :
  0 <= acc -> fold_left (fun v d => v * 32 + d) (digits32 n acc) a = a * 32 ^ Z.of_nat n + acc mod 32 ^ Z.of_nat n.
Proof.
  intros Hacc. revert a. induction n as [|n IH]; intros a.
  - cbn. rewrite Z.mod_1_r. lia.
  - cbn [digits32 fold_left]. rewrite IH, Nat2Z.inj_succ, Z.pow_succ_r by lia.
    set (p := 32 ^ Z.of_nat n). assert (0 < p) by (apply Z.pow_pos_nonneg; lia).
    rewrite (Z.mul_comm 32 p), Z.rem_mul_r by lia. ring.
Qed.

(** The position of a character in the alphabet. *)
Definition crockford_index (c : u8) : Z :=
  match find_pos (Z.eqb c) CROCKFORD_ALPHABET with Some i => Z.of_nat i | None => 0 end.

Lemma crockford_index_nth d : 0 <= d < 32 -> crockford_index (nth (Z.to_nat d) CROCKFORD_ALPHABET 0) = d.
Proof.
  intros Hd. rewrite <- (Z2Nat.id d) at 2 by lia. assert (Z.to_nat d < 32)%nat as Hn by lia.
  revert Hn. generalize (Z.to_nat d). intros n Hn. do 32 (destruct n as [|n]; [reflexivity|]). lia.
Qed.

Lemma crockford_char_valid d : 0 <= d < 32 ->
  existsb (Z.eqb (to_ascii_uppercase (nth (Z.to_nat d) CROCKFORD_ALPHABET 0))) CROCKFORD_ALPHABET = true
  /\ to_ascii_uppercase (nth (Z.to_nat d) CROCKFORD_ALPHABET 0) = nth (Z.to_nat d) CROCKFORD_ALPHABET 0.
Proof.
  intros Hd. assert (Z.to_nat d < 32)%nat as Hn by lia.
  revert Hn. generalize (Z.to_nat d). intros n Hn. do 32 (destruct n as [|n]; [by split|]). lia.
Qed.

Definition be_value (bs : bytes) : Z := fold_left (fun a b => a * 256 + b) bs 0.

Lemma encode_crockford_digits bs :
  Forall is_byte bs -> length bs = 5%nat ->
  0 <= be_value bs < 2 ^ 40
  /\ encode_crockford bs = map (fun d => nth (Z.to_nat d) CROCKFORD_ALPHABET 0) (digits32 8 (be_value bs)).
Proof.
  intros Hb Hl. destruct bs as [|a [|b [|c [|d [|e [|] ] ] ] ] ]; try discriminate.
  assert (is_byte a /\ is_byte b /\ is_byte c /\ is_byte d /\ is_byte e) as (Ha & Hbb & Hc & Hd & He).
  { repeat (apply Forall_cons in Hb as [? Hb]). done. }
  unfold is_byte in *. clear Hb Hl. split; [unfold be_value; cbn; lia|].
  unfold encode_crockford. cbn [fold_left]. assert (forall x y, 0 <= x < 2 ^ 40 -> 0 <= y < 256 ->
    Z.lor (wrap 64 (Z.shiftl x 8)) y = x * 256 + y) as Hstep.
  { intros x y Hx Hy. rewrite wrap_small by (rewrite Z.shiftl_mul_pow2 by lia; lia).
    by rewrite lor_shiftl_add by lia. }
  rewrite (Hstep 0 a), (Hstep _ b), (Hstep _ c), (Hstep _ d), (Hstep _ e) by lia.
  change (be_value [a; b; c; d; e]) with (((((0 * 256 + a) * 256 + b) * 256 + c) * 256 + d) * 256 + e).
  set (v := _ * 256 + e). unfold crockford_char. cbn [rev seq app map digits32].
  assert (forall i, Z.land (Z.shiftr v (Z.of_nat i * 5)) 31 = v / 32 ^ Z.of_nat i mod 32) as Hdig; [|by rewrite !Hdig].
  intros i. rewrite Z.shiftr_div_pow2 by lia. change 31 with (Z.ones 5). rewrite Z.land_ones by lia.
  by rewrite (Z.mul_comm _ 5), Z.pow_mul_r by lia.
Qed.

Lemma digits32_range n acc : Forall (fun d => 0 <= d < 32) (digits32 n acc).
Proof. induction n; cbn; constructor; [apply Z.mod_pos_bound; lia|done]. Qed.

Lemma crockford_fold l : Forall (fun d => 0 <= d < 32) l -> forall a,
  fold_left (fun v c => v * 32 + crockford_index c) (map (fun d => nth (Z.to_nat d) CROCKFORD_ALPHABET 0) l) a
  = fold_left (fun v d => v * 32 + d) l a.
Proof.
  induction 1 as [|d l Hd _ IH]; intros a; [done|]. cbn [map fold_left]. by rewrite crockford_index_nth, IH by done.
Qed.

(** A code is eight characters that are accepted as they are, and different
    random bytes give different codes. *)
Lemma crockford_roundtrip bs :
  Forall is_byte bs -> length bs = 5%nat ->
  validate_code (encode_crockford bs) = true /\ to_uppercase (encode_crockford bs) = encode_crockford bs
  /\ fold_left (fun v c => v * 32 + crockford_index c) (encode_crockford bs) 0 = be_value bs.
Proof.
  intros Hb Hl. destruct (encode_crockford_digits bs Hb Hl) as [Hv ->].
  pose proof (digits32_range 8 (be_value bs)) as Hr. split; [|split].
  - unfold validate_code. rewrite length_map. apply andb_true_iff. split; [done|].
    induction Hr as [|d l Hd _ IH]; [done|]. cbn [map forallb]. by rewrite (proj1 (crockford_char_valid d Hd)), IH.
  - unfold to_uppercase. rewrite map_map. induction Hr as [|d l Hd _ IH]; [done|]. cbn [map].
    by rewrite (proj2 (crockford_char_valid d Hd)), IH.
  - rewrite crockford_fold by done. rewrite digits32_value by lia. rewrite Z.mod_small; lia.
Qed.

(** ** Lemmas: key streams and QR codes *)

Lemma keystream_involutive `{HCT : !AesCtr} key iv data : apply_keystream key iv (apply_keystream key iv data) = data.
Proof.
  unfold apply_keystream. rewrite length_zip_with, ctr_keystream_length, Nat.min_id.
  assert (length (ctr_keystream key iv (length data)) = length data) as Hl by apply ctr_keystream_length.
  revert Hl. generalize (ctr_keystream key iv (length data)). induction data as [|x l IH]; intros [|y k] Hl; try done.
  cbn in Hl |- *. rewrite Z.lxor_assoc, Z.lxor_nilpotent, Z.lxor_0_r. f_equal. apply IH. lia.
Qed.

Lemma keystream_length `{HCT : !AesCtr} key iv data : length (apply_keystream key iv data) = length data.
Proof. unfold apply_keystream. by rewrite length_zip_with, ctr_keystream_length, Nat.min_id. Qed.

Lemma ephemeral_roundtrip `{HPB : !Pbkdf2, HCT : !AesCtr} pub code salt iv :
  length pub = 32%nat -> length salt = 32%nat -> length iv = 16%nat ->
  length (encrypt_ephemeral_pub pub code salt iv) = 80%nat
  /\ decrypt_primary_ephemeral_pub (encrypt_ephemeral_pub pub code salt iv) code = Ok pub.
Proof.
  intros Hp Hs Hi. assert (length (encrypt_ephemeral_pub pub code salt iv) = 80%nat) as Hl.
  { unfold encrypt_ephemeral_pub. rewrite !length_app, keystream_length. lia. }
  split; [done|]. unfold decrypt_primary_ephemeral_pub. rewrite Hl. cbn [Nat.eqb negb].
  unfold encrypt_ephemeral_pub, slice. change (32 - 0)%nat with 32%nat. change (48 - 32)%nat with 16%nat. change (80 - 48)%nat with 32%nat.
  rewrite drop_0. rewrite take_app_length' by done. rewrite drop_app_length' by done.
  rewrite take_app_length' by done. rewrite app_assoc, drop_app_length' by (rewrite length_app; lia).
  rewrite take_ge by (rewrite keystream_length; lia). by rewrite keystream_involutive.
Qed.

Lemma split_commas_app cur s rest :
  str_free 44 s = true -> split_commas cur (s ++ 44 :: rest) = (cur ++ s) :: split_commas [] rest.
Proof.
  revert cur. induction s as [|c s IH]; intros cur Hs; cbn; [by rewrite app_nil_r|].
  cbn in Hs. apply andb_true_iff in Hs as [Hc Hs]. rewrite Z.eqb_sym. destruct (44 =? c); [done|].
  rewrite IH by done. by rewrite <- app_assoc.
Qed.

Lemma split_commas_free cur s : str_free 44 s = true -> split_commas cur s = [cur ++ s].
Proof.
  revert cur. induction s as [|c s IH]; intros cur Hs; cbn; [by rewrite app_nil_r|].
  cbn in Hs. apply andb_true_iff in Hs as [Hc Hs]. rewrite Z.eqb_sym. destruct (44 =? c); [done|].
  rewrite IH by done. by rewrite <- app_assoc.
Qed.

Lemma split_commas_length cur a b :
  str_free 44 a = false -> (length (split_commas [] b) + 1 < length (split_commas cur (a ++ 44%Z :: b)))%nat.
Proof.
  revert cur. induction a as [|c a IH]; intros cur Ha; [done|]. cbn in Ha |- *. rewrite Z.eqb_sym.
  destruct (44 =? c) eqn:E; cbn in Ha |- *; [|by apply IH].
  assert (forall cur, (length (split_commas [] b) < length (split_commas cur (a ++ 44%Z :: b)))%nat) as H.
  { clear. induction a as [|x a IH]; intros cur; cbn; [rewrite Z.eqb_refl; cbn; lia|]. destruct (x =? 44); cbn; [|apply IH].
    specialize (IH []). lia. }
  specialize (H []). lia.
Qed.

(** ** The phone's side of linking by a code *)

Section Phone.
Context `{HPB : !Pbkdf2, HCT : !AesCtr, HK : !Hkdf, HC : !Curve25519, HG : !AesGcm}.

(** What a phone that was given the code does: it unwraps the companion's
    ephemeral key, confirms with its own under the code, and opens the bundle. *)
Definition phone_read_hello (request : list Node) (code : str) : option bytes :=
  match request with
  | [reg] =>
      match node_bytes (child_by_tag (Some reg) "link_code_pairing_wrapped_companion_ephemeral_pub") with
      | Some wrapped => to_option (decrypt_primary_ephemeral_pub wrapped code)
      | None => None
      end
  | _ => None
  end.

Definition phone_confirmation (ephemeral identity_key : KeyPair) (code : str) (salt iv : bytes) : Node :=
  mkNode (lit "notification") []
    (Some (NC_Nodes [mkNode (lit "link_code_companion_reg") []
      (Some (NC_Nodes [b_leaf "link_code_pairing_wrapped_primary_ephemeral_pub"
                         (encrypt_ephemeral_pub (pk_bytes (kp_public ephemeral)) code salt iv);
                       b_leaf "primary_identity_pub" (pk_bytes (kp_public identity_key))]))])).

(** The companion's identity, the phone's, and the random bytes. *)
Definition phone_open_bundle (ephemeral : KeyPair) (companion_ephemeral wrapped : bytes) : option (bytes * bytes * bytes) :=
  let shared := xagree (sk_bytes (kp_private ephemeral)) companion_ephemeral in
  let enc_key := hkdf (Some (take 32 wrapped)) shared (lit "link_code_pairing_key_bundle_encryption_key") 32 in
  match gcm_decrypt enc_key (slice 32 44 wrapped) [] (drop 44 wrapped) with
  | Some bundle => Some (take 32 bundle, slice 32 64 bundle, drop 64 bundle)
  | None => None
  end.

Definition phone_adv_secret (ephemeral identity_key : KeyPair) (companion_ephemeral companion_identity random_bytes : bytes) : bytes :=
  hkdf None (xagree (sk_bytes (kp_private ephemeral)) companion_ephemeral
             ++ xagree (sk_bytes (kp_private identity_key)) companion_identity ++ random_bytes) (lit "adv_secret") 32.

(** The bundle opens to what the companion put in, and the secrets agree. *)
Lemma bundle_opens ce ci pe pi rnds :
  valid_pair ce -> valid_pair ci -> valid_pair pe -> valid_pair pi ->
  length rnds.1.1 = 32%nat -> length rnds.1.2 = 32%nat -> length rnds.2 = 12%nat ->
  exists wrapped secret,
    prepare_key_bundle ce (pk_bytes (kp_public pe)) (pk_bytes (kp_public pi)) ci rnds = Ok (wrapped, secret)
    /\ phone_open_bundle pe (pk_bytes (kp_public ce)) wrapped
       = Some (pk_bytes (kp_public ci), pk_bytes (kp_public pi), rnds.1.1)
    /\ phone_adv_secret pe pi (pk_bytes (kp_public ce)) (pk_bytes (kp_public ci)) rnds.1.1 = secret.
Proof.
  intros Hce Hci Hpe Hpi H1 H2 H3. destruct rnds as [ [random salt] iv]. cbn [fst snd] in *.
  unfold prepare_key_bundle, from_djb_public_key_bytes, calculate_agreement. rewrite !valid_public_length by done.
  cbn [Nat.eqb PUBLIC_KEY_LENGTH pair_crypto map_err obind]. cbn [pk_bytes].
  assert (forall a b, valid_pair a -> valid_pair b -> xagree (sk_bytes (kp_private a)) (pk_bytes (kp_public b))
    = xagree (sk_bytes (kp_private b)) (pk_bytes (kp_public a))) as Hsym.
  { intros a b Ha Hb. rewrite (vp_public a Ha), (vp_public b Hb). apply xagree_sym. }
  set (bundle := pk_bytes (kp_public ci) ++ pk_bytes (kp_public pi) ++ random).
  set (key := hkdf (Some salt) _ _ 32). unfold gcm_key_new. replace (length key =? 32)%nat with true
    by (symmetry; apply Nat.eqb_eq, hkdf_length). cbn [ok_or obind].
  assert (length bundle = 96%nat) as Hb by (unfold bundle; rewrite !length_app, !valid_public_length by done; lia).
  destruct (gcm_roundtrip key iv [] bundle) as (c & E & D & _); [rewrite Hb; vm_compute; discriminate|].
  rewrite E. cbn [ok_or obind]. do 2 eexists. split; [done|]. split; [|unfold phone_adv_secret; by rewrite (Hsym pe ce), (Hsym pi ci)].
  unfold phone_open_bundle, slice. rewrite take_app_length' by done. rewrite drop_app_length' by done.
  change (44 - 32)%nat with 12%nat. rewrite take_app_length' by done.
  rewrite (app_assoc salt), drop_app_length' by (rewrite length_app; lia).
  rewrite (Hsym pe ce) by done. fold key. rewrite D. unfold bundle.
  rewrite take_app_length' by (by rewrite valid_public_length). rewrite drop_app_length' by (by rewrite valid_public_length).
  change (64 - 32)%nat with 32%nat. rewrite take_app_length' by (by rewrite valid_public_length).
  by rewrite app_assoc, drop_app_length' by (rewrite length_app, !valid_public_length by done; lia).
Qed.

Lemma notification_parts pe pi code salt iv :
  valid_pair pe -> valid_pair pi -> length salt = 32%nat -> length iv = 16%nat ->
  exists reg, child_by_tag (Some (phone_confirmation pe pi code salt iv)) "link_code_companion_reg" = Some reg
    /\ sized_bytes 80 (child_by_tag (Some reg) "link_code_pairing_wrapped_primary_ephemeral_pub")
       = Some (encrypt_ephemeral_pub (pk_bytes (kp_public pe)) code salt iv)
    /\ sized_bytes 32 (child_by_tag (Some reg) "primary_identity_pub") = Some (pk_bytes (kp_public pi)).
Proof.
  intros Hpe Hpi Hs Hi. eexists. split; [reflexivity|].
  destruct (ephemeral_roundtrip (pk_bytes (kp_public pe)) code salt iv (valid_public_length pe Hpe) Hs Hi) as [Hl _].
  unfold sized_bytes. split.
  - change (node_bytes _) with (Some (encrypt_ephemeral_pub (pk_bytes (kp_public pe)) code salt iv)). cbv iota. by rewrite Hl.
  - change (node_bytes _) with (Some (pk_bytes (kp_public pi))). cbv iota. by rewrite (valid_public_length pi Hpi).
Qed.

(** C13: Linking by a code.  When the phone number and the code are accepted and
    the server answers with a reference, the client shows the code and waits;
    a phone that was told the code unwraps the client's ephemeral key from the
    request [q] that was sent (any request layer that answers [q] will do); its confirmation makes the client send one answer
    with a bundle that the phone opens to the client's identity key, its own
    and the random bytes, and both sides derive the same secret. *)
Theorem pair_code_agreement options noise_key identity_key req_id req_id' rnds join_error show_iq_error code response ref c
    pe pi psalt piv brnds send :
  valid_pair identity_key -> valid_pair pe -> valid_pair pi ->
  length rnds.1.1.2 = 32%nat -> length rnds.1.2 = 32%nat -> length rnds.2 = 16%nat ->
  length psalt = 32%nat -> length piv = 16%nat ->
  length brnds.1.1 = 32%nat -> length brnds.1.2 = 32%nat -> length brnds.2 = 12%nat ->
  let phone := List.filter is_ascii_digit (po_phone_number options) in
  let ce := key_pair_generate rnds.1.1.2 in
  check_phone_number phone = Ok tt -> choose_code (po_custom_code options) rnds.1.1.1 = Ok code ->
  parse_companion_hello_response response = Some ref ->
  exists q request c1 wrapped secret,
    iq_content q = Some (NC_Nodes request)
    /\ phone_read_hello request code = Some (pk_bytes (kp_public ce))
    /\ (forall send_iq, send_iq q = Ok response ->
          pair_with_code send_iq show_iq_error options noise_key req_id rnds true join_error c = (Ok code, c1))
    /\ pc_state c1 = PC_Waiting ref phone code ce
    /\ handle_pair_code_notification send (phone_confirmation pe pi code psalt piv) identity_key req_id' brnds true c1
       = (match send (build_companion_finish_iq phone wrapped (pk_bytes (kp_public identity_key)) ref req_id') with
          | Ok _ => (true, mkPairClient PC_Completed (pc_events c1))
          | _ => (false, mkPairClient PC_Idle (pc_events c1))
          end)
    /\ prepare_key_bundle ce (pk_bytes (kp_public pe)) (pk_bytes (kp_public pi)) identity_key brnds = Ok (wrapped, secret)
    /\ phone_open_bundle pe (pk_bytes (kp_public ce)) wrapped
       = Some (pk_bytes (kp_public identity_key), pk_bytes (kp_public pi), brnds.1.1)
    /\ phone_adv_secret pe pi (pk_bytes (kp_public ce)) (pk_bytes (kp_public identity_key)) brnds.1.1 = secret.
Proof.
  intros Hid Hpe Hpi H1 H2 H3 H4 H5 H6 H7 H8 phone ce Hphone Hcode Href.
  destruct rnds as [ [ [code_rnd eph_rnd] salt] iv]. cbn [fst snd] in *.
  assert (valid_pair ce) as Hce by (by apply key_pair_generate_valid).
  destruct (bundle_opens ce identity_key pe pi brnds Hce Hid Hpe Hpi H6 H7 H8) as (wrapped & secret & Hb & Ho & Hs).
  destruct (ephemeral_roundtrip (pk_bytes (kp_public ce)) code salt iv (valid_public_length ce Hce) H2 H3) as [_ Hw].
  destruct (ephemeral_roundtrip (pk_bytes (kp_public pe)) code psalt piv (valid_public_length pe Hpe) H4 H5) as [_ Hpw].
  destruct (notification_parts pe pi code psalt piv Hpe Hpi H4 H5) as (reg & Hr & Hn1 & Hn2).
  set (hello := build_companion_hello_iq phone (pk_bytes (kp_public noise_key))
    (encrypt_ephemeral_pub (pk_bytes (kp_public ce)) code salt iv)
    (po_platform_id options) (po_platform_display options) (po_show_push_notification options) req_id).
  exists (mkQuery (lit "md") IQ_Set (jid_new [] SERVER_JID) None (Some req_id)
            (Some (NC_Nodes (default_or [] (children hello)))) (Some 30)).
  do 2 eexists. exists wrapped, secret. split; [reflexivity|]. split.
  { change (phone_read_hello _ code) with (to_option
      (decrypt_primary_ephemeral_pub (encrypt_ephemeral_pub (pk_bytes (kp_public ce)) code salt iv) code)). by rewrite Hw. }
  split.
  { intros send_iq Hsend. unfold pair_with_code, mbind', mlift. fold phone ce. rewrite Hphone, Hcode. fold hello.
    rewrite Hsend. cbn [map_err]. by rewrite Href. }
  split; [reflexivity|]. split; [|done].
  unfold handle_pair_code_notification. rewrite Hr, Hn1, Hn2. cbn [pc_state pc_events]. by rewrite Hpw, Hb.
Qed.

(** ** One confirmation per code *)

Section OneShot.
Context (send : Node -> outcome ClientError unit).

Definition waiting (c : PairClient) : bool := match pc_state c with PC_Waiting _ _ _ _ => true | _ => false end.

Lemma handled_state node identity_key req_id rnds joined c :
  let '(handled, c') := handle_pair_code_notification send node identity_key req_id rnds joined c in
  (c' = c /\ handled = false) \/ (waiting c' = false /\ (handled = true -> waiting c = true)).
Proof.
  unfold handle_pair_code_notification.
  repeat (case_match; simplify_eq; try (by left); try (right; by split)).
  all: right; split; [done|]; intros _; unfold waiting; match goal with H : pc_state _ = _ |- _ => by rewrite H end.
Qed.

(** Notifications one after the other; how many were answered. *)
Fixpoint answered (identity_key : KeyPair) (ns : list (Node * str * (bytes * bytes * bytes) * bool)) (c : PairClient) : nat * PairClient :=
  match ns with
  | [] => (0%nat, c)
  | (node, req_id, rnds, joined) :: ns =>
      let '(handled, c) := handle_pair_code_notification send node identity_key req_id rnds joined c in
      let '(k, c) := answered identity_key ns c in
      ((if handled then 1 else 0) + k, c)%nat
  end.

(** A code answers once.  However many notifications arrive, in whatever
    state, with whatever content and whatever fails in between, the client
    answers at most one of them, and none unless it was waiting; and it is not
    waiting any more after a notification that it could read. *)
Theorem pair_code_one_shot identity_key ns c :
  ((answered identity_key ns c).1 <= (if waiting c then 1 else 0))%nat
  /\ forall node req_id rnds joined,
       let '(handled, c') := handle_pair_code_notification send node identity_key req_id rnds joined c in
       (c' = c /\ handled = false) \/ waiting c' = false.
Proof.
  split; [|intros; pose proof (handled_state node identity_key req_id rnds joined c) as H;
           destruct (handle_pair_code_notification _ _ _ _ _ _ _); destruct H as [?|[? _] ]; auto].
  revert c. induction ns as [|[ [ [node req_id] rnds] joined] ns IH]; intros c; cbn [answered]; [cbn; destruct (waiting c); lia|].
  pose proof (handled_state node identity_key req_id rnds joined c) as H.
  destruct (handle_pair_code_notification _ _ _ _ _ _ _) as [handled c']. specialize (IH c').
  destruct (answered identity_key ns c') as [k c'']. cbn [fst] in *.
  destruct H as [ [-> ->]|[Hw Hh] ]; [done|]. rewrite Hw in IH. destruct handled; [rewrite Hh by done|]; destruct (waiting c); lia.
Qed.
End OneShot.
End Phone.

(** ** QR codes and device identities *)

Section PairTheorems.
Context `{HS : !Hashes, HK : !Hkdf, HC : !Curve25519, HG : !AesGcm, HB : !Base64, HP : !AdvProto}.

(** A QR code reads back exactly when the reference has no comma. *)
Lemma qr_roundtrip d ref_str b64_error :
  Forall is_byte (pk_bytes (kp_public (ds_noise_key d))) -> Forall is_byte (pk_bytes (kp_public (ds_identity_key d))) ->
  length (pk_bytes (kp_public (ds_noise_key d))) = 32%nat -> length (pk_bytes (kp_public (ds_identity_key d))) = 32%nat ->
  parse_qr_code b64_error (make_qr_data d ref_str)
  = if str_free 44 ref_str
    then Ok (ref_str, pk_bytes (kp_public (ds_noise_key d)), pk_bytes (kp_public (ds_identity_key d)))
    else Err (lit "Invalid QR code format").
Proof.
  intros Hb1 Hb2 Hl1 Hl2. unfold parse_qr_code, make_qr_data, join_commas. cbn [fold_left]. rewrite <- !app_assoc.
  change (lit ",") with [44]. cbn [app]. set (n := b64_encode (pk_bytes (kp_public (ds_noise_key d)))).
  set (i := b64_encode (pk_bytes (kp_public (ds_identity_key d)))).
  set (rest := n ++ 44 :: i ++ 44 :: b64_encode (ds_adv_secret_key d)).
  assert (split_commas [] rest = [n; i; b64_encode (ds_adv_secret_key d)]) as Hr.
  { unfold rest. rewrite !split_commas_app by apply b64_no_comma. by rewrite split_commas_free by apply b64_no_comma. }
  destruct (str_free 44 ref_str) eqn:Hf.
  - rewrite split_commas_app by done. rewrite Hr. unfold n, i. rewrite !b64_decode_encode by done.
    cbn [ok_or obind app]. by rewrite Hl1, Hl2.
  - pose proof (split_commas_length [] ref_str rest Hf) as Hlen. rewrite Hr in Hlen. cbn [length] in Hlen.
    destruct (split_commas [] (ref_str ++ 44 :: rest)) as [|a [|b [|c [|x [|y l] ] ] ] ]; cbn [length] in Hlen; try lia. done.
Qed.

(** What is accepted, from the inside. *)
Lemma pair_crypto_inv d input rnd out k :
  do_pair_crypto d input rnd = Ok (out, k) ->
  exists c details s account_key dd,
    adv_hmac_decode input = inr c /\ ah_details c = Some details /\ ah_hmac c <> None /\ adv_signed_decode details = inr s
    /\ from_djb_public_key_bytes (default_or [] (as_account_signature_key s)) = Ok account_key
    /\ verify_signature account_key (account_signature_message (is_hosted_account c) (default_or [] (as_details s))
         (pk_bytes (kp_public (ds_identity_key d)))) (default_or [] (as_account_signature s)) = true
    /\ adv_device_decode (default_or [] (as_details s)) = inr dd /\ k = default_or 0 (ad_key_index dd)
    /\ out = adv_signed_encode (mkAdvSigned (as_details s) (as_account_signature_key s) (as_account_signature s)
         (Some (xsign rnd (sk_bytes (kp_private (ds_identity_key d)))
            (device_signature_message (is_hosted_account c) (default_or [] (as_details s))
               (pk_bytes (kp_public (ds_identity_key d))) (default_or [] (as_account_signature_key s)))))).
Proof.
  unfold do_pair_crypto. destruct (adv_hmac_decode input) as [|c]; [done|]. cbn [adv_decoded obind].
  destruct (ah_details c) as [details|] eqn:Hd; [|done]. cbn [ok_or obind].
  destruct (ah_hmac c) as [h|] eqn:Hh; [|done]. cbn [ok_or obind].
  destruct (adv_signed_decode details) as [|s] eqn:Hs; [done|]. cbn [adv_decoded obind].
  destruct (from_djb_public_key_bytes _) as [account_key| | |] eqn:Hk; try done. cbn [map_err obind].
  destruct (verify_signature _ _ _) eqn:Hv; [|done]. cbn [negb calculate_signature map_err obind].
  destruct (adv_device_decode _) as [|dd] eqn:Hdd; [done|]. cbn [adv_decoded obind]. intros [= <- <-].
  exists c, details, s, account_key, dd. by rewrite Hh.
Qed.

(** What pairing countersigns.  An accepted device identity was signed, for
    this device's identity key, by the account key it names; what is sent back
    is the same identity with a signature that verifies under this device's
    identity key over the details, both keys and the prefix of the account's
    kind, and the key index is that of the details. *)
Theorem pair_crypto_sound d input rnd out k :
  valid_pair (ds_identity_key d) -> do_pair_crypto d input rnd = Ok (out, k) ->
  exists c details s account_key dd sig,
    adv_hmac_decode input = inr c /\ ah_details c = Some details /\ adv_signed_decode details = inr s
    /\ from_djb_public_key_bytes (default_or [] (as_account_signature_key s)) = Ok account_key
    /\ verify_signature account_key (account_signature_message (is_hosted_account c) (default_or [] (as_details s))
         (pk_bytes (kp_public (ds_identity_key d)))) (default_or [] (as_account_signature s)) = true
    /\ adv_signed_decode out
       = inr (mkAdvSigned (as_details s) (as_account_signature_key s) (as_account_signature s) (Some sig))
    /\ verify_signature (kp_public (ds_identity_key d)) (device_signature_message (is_hosted_account c)
         (default_or [] (as_details s)) (pk_bytes (kp_public (ds_identity_key d)))
         (default_or [] (as_account_signature_key s))) sig = true
    /\ adv_device_decode (default_or [] (as_details s)) = inr dd /\ k = default_or 0 (ad_key_index dd).
Proof.
  intros Hv Ho. destruct (pair_crypto_inv d input rnd out k Ho) as (c & details & s & ak & dd & H1 & H2 & _ & H3 & H4 & H5 & H6 & H7 & ->).
  do 6 eexists. split; [exact H1|]. split; [exact H2|]. split; [exact H3|]. split; [exact H4|]. split; [exact H5|].
  split; [apply adv_signed_decode_encode|]. split; [|by split].
  rewrite (vp_public _ Hv). unfold verify_signature. rewrite xsign_length. apply xverify_sign.
Qed.

(** The HMAC of a device identity is not checked.  For every key pair at
    all, whoever holds it, a container can be put together for this device,
    with whatever HMAC, that is accepted, although the secret shared through
    the QR code was not used; and the outcome never depends on that secret. *)
Theorem pair_hmac_ignored account dd rnd mac idk nk secret secret' input srnd :
  valid_pair account ->
  let details := adv_device_encode dd in
  let forged := adv_hmac_encode (mkAdvHmac (Some (adv_signed_encode (mkAdvSigned (Some details)
                  (Some (pk_bytes (kp_public account)))
                  (Some (xsign srnd (sk_bytes (kp_private account))
                     (account_signature_message false details (pk_bytes (kp_public idk))))) None))) (Some mac) None) in
  (exists out, do_pair_crypto (mkDeviceState idk nk secret) forged rnd = Ok (out, default_or 0 (ad_key_index dd)))
  /\ do_pair_crypto (mkDeviceState idk nk secret) input rnd = do_pair_crypto (mkDeviceState idk nk secret') input rnd.
Proof.
  intros Ha. cbv zeta. split; [|reflexivity]. unfold do_pair_crypto. rewrite adv_hmac_decode_encode.
  cbn [adv_decoded obind ah_details ah_hmac ok_or]. rewrite adv_signed_decode_encode.
  cbn [adv_decoded obind as_account_signature_key as_account_signature as_details default_or is_hosted_account ah_account_type ds_identity_key].
  unfold from_djb_public_key_bytes. rewrite valid_public_length by done. cbn [Nat.eqb PUBLIC_KEY_LENGTH map_err obind].
  unfold verify_signature. cbn [pk_bytes]. rewrite xsign_length. cbn [Nat.eqb].
  rewrite (vp_public _ Ha). cbn [pk_bytes]. rewrite xverify_sign. cbn [negb calculate_signature map_err obind].
  rewrite adv_device_decode_encode. cbn [adv_decoded obind]. by eexists.
Qed.
End PairTheorems.

(** ** Stand-ins and witnesses *)

(** [O] is not in the alphabet: the custom code of the module's documentation is
    refused. *)
Lemma documented_code_refused rnd : choose_code (Some (lit "MYCODE12")) rnd = Err InvalidCustomCode.
Proof. reflexivity. Qed.

Definition toy_pbkdf2 : Pbkdf2 :=
  {| pbkdf2 p s r n := toy_expand (Some s) p [r mod 256] n; pbkdf2_length p s r n := toy_expand_length _ _ _ n |}.
Definition toy_ctr : AesCtr :=
  {| ctr_keystream key iv n := toy_expand (Some iv) key [] n; ctr_keystream_length key iv n := toy_expand_length _ _ _ n |}.

Definition put_num (o : option Z) : option bytes := option_map (fun v => [v]) o.
Definition get_num (o : option bytes) : option Z := option_map (hd 0) o.
Lemma get_put_num o : get_num (put_num o) = o.
Proof. by destruct o. Qed.

Definition toy_adv : AdvProto.
Proof.
  refine {|
    adv_hmac_encode m := put_opts [ah_details m; ah_hmac m; put_num (ah_account_type m)];
    adv_hmac_decode b := match get_opts 3 b with [d; h; t] => inr (mkAdvHmac d h (get_num t)) | _ => inl [] end;
    adv_signed_encode m := put_opts [as_details m; as_account_signature_key m; as_account_signature m; as_device_signature m];
    adv_signed_decode b := match get_opts 4 b with [a; k; s; d] => inr (mkAdvSigned a k s d) | _ => inl [] end;
    adv_device_encode m := put_opts [put_num (ad_raw_id m); put_num (ad_timestamp m); put_num (ad_key_index m);
                                     put_num (ad_account_type m); put_num (ad_device_type m)];
    adv_device_decode b := match get_opts 5 b with
      | [r; t; k; a; d] => inr (mkAdvDevice (get_num r) (get_num t) (get_num k) (get_num a) (get_num d))
      | _ => inl []
      end |}.
  - intros [d h t]. cbn [ah_details ah_hmac ah_account_type].
    change 3%nat with (length [d; h; put_num t]). by rewrite get_put_opts, get_put_num.
  - intros [a k s d]. cbn [as_details as_account_signature_key as_account_signature as_device_signature].
    change 4%nat with (length [a; k; s; d]). by rewrite get_put_opts.
  - intros [r t k a d]. cbn [ad_raw_id ad_timestamp ad_key_index ad_account_type ad_device_type].
    change 5%nat with (length [put_num r; put_num t; put_num k; put_num a; put_num d]). by rewrite get_put_opts, !get_put_num.
Defined.

Definition toy_options : PairCodeOptions :=
  mkPairOptions (lit "+1 555-123-4567") true (Some (lit "mycode12")) PL_Chrome (lit "Chrome (Linux)").
Definition toy_reply : Node :=
  mkNode (lit "iq") [] (Some (NC_Nodes [mkNode (lit "link_code_companion_reg") []
    (Some (NC_Nodes [mkNode (lit "link_code_pairing_ref") [] (Some (NC_Bytes [1; 2; 3]))]))])).

(** [O] is not in the alphabet, so the code of the example above is refused. *)
Definition toy_options_ok : PairCodeOptions :=
  mkPairOptions (lit "+1 555-123-4567") true (Some (lit "abcd1234")) PL_Chrome (lit "Chrome (Linux)").

Lemma pair_code_agreement_witness :
  @choose_code (po_custom_code toy_options) [] = Err InvalidCustomCode
  /\ exists q wrapped, iq_content q <> None
       /\ @phone_open_bundle toy_hkdf sum_curve toy_gcm (toy_pair 3) (pk_bytes (kp_public (toy_pair 2))) wrapped
          = Some (pk_bytes (kp_public (toy_pair 5)), pk_bytes (kp_public (toy_pair 4)), replicate 32 9).
Proof.
  split; [reflexivity|].
  destruct (@pair_code_agreement toy_pbkdf2 toy_ctr toy_hkdf sum_curve toy_gcm toy_options_ok (toy_pair 1) (toy_pair 5)
    (lit "7-0") (lit "7-1") (replicate 5 0, replicate 32 2, replicate 32 6, replicate 16 7) [] (fun _ => [])
    (lit "ABCD1234") toy_reply [1; 2; 3] (mkPairClient PC_Idle []) (toy_pair 3) (toy_pair 4) (replicate 32 8) (replicate 16 8)
    (replicate 32 9, replicate 32 10, replicate 12 11) (fun _ => Ok tt))
    as (q & request & c1 & wrapped & secret & Hq & _ & _ & _ & _ & _ & Ho & _);
    [by split|by split|by split|reflexivity..|].
  exists q, wrapped. split; [rewrite Hq; discriminate|exact Ho].
Defined.

Definition toy_device : AdvDevice := mkAdvDevice None (Some 100) (Some 3) None None.
Definition toy_container : bytes :=
  let details := @adv_device_encode toy_adv toy_device in
  @adv_hmac_encode toy_adv (mkAdvHmac (Some (@adv_signed_encode toy_adv (mkAdvSigned (Some details)
    (Some (pk_bytes (kp_public (toy_pair 6))))
    (Some (@xsign sum_curve [] (sk_bytes (kp_private (toy_pair 6)))
       (account_signature_message false details (pk_bytes (kp_public (toy_pair 5)))))) None))) (Some [0; 0]) None).

Lemma pair_hmac_ignored_witness :
  exists out, @do_pair_crypto sum_curve toy_adv (mkDeviceState (toy_pair 5) (toy_pair 1) [1]) toy_container [] = Ok (out, 3).
Proof.
  destruct (@pair_hmac_ignored sum_curve toy_adv (toy_pair 6) toy_device [] [0; 0] (toy_pair 5) (toy_pair 1) [1] [2] [] [])
    as [ [out Ho] _]; [by split|]. exists out. exact Ho.
Defined.

Lemma pair_crypto_sound_witness :
  exists out c, @do_pair_crypto sum_curve toy_adv (mkDeviceState (toy_pair 5) (toy_pair 1) [1]) toy_container [] = Ok (out, 3)
    /\ @adv_hmac_decode toy_adv toy_container = inr c.
Proof.
  destruct (@do_pair_crypto sum_curve toy_adv (mkDeviceState (toy_pair 5) (toy_pair 1) [1]) toy_container []) as [ [out k]| | |] eqn:E;
    [|vm_compute in E; discriminate..].
  destruct (@pair_crypto_sound sum_curve toy_adv (mkDeviceState (toy_pair 5) (toy_pair 1) [1]) toy_container [] out k) as (c & _ & _ & _ & _ & _ & H & _);
    [by split|exact E|]. exists out, c. split; [|exact H]. f_equal. f_equal. vm_compute in E. by injection E as _ <-.
Defined.

(** ** A coding: two letters for a byte *)

Definition toy_b64 (b : bytes) : str := flat_map (fun x => [65 + (x / 16) mod 16; 65 + x mod 16]) b.
Fixpoint toy_unb64 (s : bytes) : option bytes :=
  match s with
  | [] => Some []
  | h :: l :: s => match toy_unb64 s with Some b => Some ((h - 65) * 16 + (l - 65) :: b) | None => None end
  | _ => None
  end.
Definition toy_base64 : Base64.
Proof.
  refine {| b64_encode := toy_b64; b64_decode := toy_unb64 |}.
  - intros b Hb. induction Hb as [|x b Hx _ IH]; [done|]. cbn [toy_b64 flat_map app toy_unb64].
    change (flat_map _ b) with (toy_b64 b). rewrite IH. do 2 f_equal. unfold is_byte in Hx.
    rewrite (Z.mod_small (x / 16)) by (split; [apply Z.div_pos; lia|apply Z.div_lt_upper_bound; lia]).
    pose proof (Z.div_mod x 16). lia.
  - intros b. induction b as [|x b IH]; [done|]. change (toy_b64 (x :: b)) with ([65 + (x / 16) mod 16; 65 + x mod 16] ++ toy_b64 b).
    rewrite str_free_app, IH. cbn. pose proof (Z.mod_pos_bound (x / 16) 16). pose proof (Z.mod_pos_bound x 16). lia.
Defined.
