(* ===== verification/DeviceStore.v ===== *)
(** * The device's stores: [src/store/{signal,signal_adapter}.rs], [libsignal/src/store/record_helpers.rs]

    The implementation of the Signal storage interfaces on the device record
    and the tables of a storage back end.  [IdentityKeyStore], [PreKeyStore]
    and [SignedPreKeyStore] of the protocol code are discharged here; sessions
    and sender keys are shown to read back what was stored.  The theorems also
    show trust on first use, and that a pre-key saved through the adapter
    cannot be read again. *)

From S2P Require Import Prelude RustStd Crypto Curve SenderKeys GroupCipher Session SessionCipher SessionRatchet PreKeys Noise.

(** ** A table of the back end *)

(** Of the methods of [trait SignalStore] that belong together: what is put is
    what is then got, what is removed is gone, and other keys are left alone.
    Errors are texts. *)
Class Table (Key D : Type) := {
  tbl_get : Key -> D -> outcome str (option bytes);
  tbl_put : Key -> bytes -> comp D str unit;
  tbl_remove : Key -> comp D str unit;
  tbl_put_get : forall k v d d', tbl_put k v d = (Ok tt, d') -> tbl_get k d' = Ok (Some v);
  tbl_put_other : forall k v d d' k', tbl_put k v d = (Ok tt, d') -> k <> k' -> tbl_get k' d' = tbl_get k' d;
  tbl_remove_get : forall k d d', tbl_remove k d = (Ok tt, d') -> tbl_get k d' = Ok None
}.

Definition backend {A} (method : string) (o : outcome str A) : outcome SignalProtocolError A :=
  map_err (InvalidState (lit method)) o.

Definition mbackend {D A} (method : string) (m : comp D str A) : comp D SignalProtocolError A :=
  fun d => let '(o, d) := m d in (backend method o, d).

(** ** [record_helpers.rs] *)

(** A structure and the record around it have the same fields. *)
Definition new_pre_key_record (id : u32) (key_pair : KeyPair) : PreKeyRecord :=
  mkPreKeyRecord (Some id) (Some (pk_bytes (kp_public key_pair))) (Some (private_serialize (kp_private key_pair))).

(** [timestamp] in seconds; one before 1970 does not fit. *)
Definition new_signed_pre_key_record (id : u32) (key_pair : KeyPair) (signature : bytes) (timestamp : i64)
    : outcome str SignedPreKeyRecord :=
  if timestamp <? 0 then Panic
  else Ok (mkSignedPreKeyRecord (Some id) (Some timestamp) (Some (pk_bytes (kp_public key_pair)))
             (Some (private_serialize (kp_private key_pair))) (Some signature)).

Section Records.
Context `{HC : !Curve25519}.

Definition structure_key_pair (public_key private_key : option bytes) : outcome SignalProtocolError KeyPair :=
  let? pub := required public_key in
  let? public_key := map_err from_curve_error (from_djb_public_key_bytes pub) in
  let? priv := required private_key in
  let? private_key := map_err from_curve_error (private_deserialize priv) in
  Ok (mkKeyPair public_key private_key).

Definition prekey_structure_to_record (structure : PreKeyRecord) : outcome SignalProtocolError PreKeyRecord :=
  let id := match pkr_id structure with Some id => id | None => 0 end in
  let? kp := structure_key_pair (pkr_public_key structure) (pkr_private_key structure) in
  Ok (prekey_new id kp).

(** The key bytes have no type byte, and the slice starts after the first. *)
Definition prekey_record_to_structure (record : PreKeyRecord) : outcome SignalProtocolError PreKeyRecord :=
  let? id := prekey_id record in
  let? kp := prekey_key_pair record in
  Ok (mkPreKeyRecord (Some id) (Some (drop 1 (pk_bytes (kp_public kp)))) (Some (private_serialize (kp_private kp)))).

Definition signed_prekey_structure_to_record (structure : SignedPreKeyRecord) : outcome SignalProtocolError SignedPreKeyRecord :=
  let id := match spk_id structure with Some id => id | None => 0 end in
  let? kp := structure_key_pair (spk_public_key structure) (spk_private_key structure) in
  let? signature := required (spk_signature structure) in
  let timestamp := match spk_timestamp structure with Some t => t | None => 0 end in
  Ok (signed_prekey_new id timestamp kp signature).
End Records.

(** ** Identities: [impl IdentityKeyStore for Device], [IdentityAdapter] *)

Record IdentityDevice (D : Type) := mkIdentityDevice {
  dev_identity_key : KeyPair; dev_registration_id : u32; dev_identities : D
}.
Arguments mkIdentityDevice {D} _ _ _.
Arguments dev_identity_key {D} _.
Arguments dev_registration_id {D} _.
Arguments dev_identities {D} _.

Section Identities.
Context `{HC : !Curve25519} {D : Type} `{HT : !Table str D}.
(** The text of an error. *)
Context (show_error : SignalProtocolError -> str).

Definition device_identity_key_pair (d : IdentityDevice D) : outcome SignalProtocolError IdentityKeyPair :=
  let? private_key := map_err from_curve_error (private_deserialize (private_serialize (kp_private (dev_identity_key d)))) in
  identity_pair_of_private private_key.

Definition device_get_identity (address : ProtocolAddress) (d : IdentityDevice D)
    : outcome SignalProtocolError (option IdentityKey) :=
  let? identity_bytes := backend "backend get_identity" (tbl_get (show_address address) (dev_identities d)) in
  match identity_bytes with
  | Some (b :: bs) => let? k := map_err from_curve_error (from_djb_public_key_bytes (b :: bs)) in Ok (Some k)
  | _ => Ok None
  end.

Definition identity_change (existing : option IdentityKey) (identity_key : IdentityKey) : IdentityChange :=
  match existing with
  | None => NewOrUnchanged
  | Some existing => if public_eq existing identity_key then NewOrUnchanged else ReplacedExisting
  end.

Definition device_save_identity (address : ProtocolAddress) (identity_key : IdentityKey)
    : comp (IdentityDevice D) SignalProtocolError IdentityChange :=
  fun d =>
    (let! existing := mlift (device_get_identity address d) in
     let! key := mlift (if (length (pk_bytes identity_key) =? 32)%nat then Ok (pk_bytes identity_key)
                        else Err (InvalidArgument (lit "Invalid key length"))) in
     let! _ := (fun d => let '(o, t) := tbl_put (show_address address) key (dev_identities d) in
                         (backend "backend put_identity" o, mkIdentityDevice (dev_identity_key d) (dev_registration_id d) t)) in
     mret (identity_change existing identity_key)) d.

(** The direction is not looked at. *)
Definition device_is_trusted_identity (address : ProtocolAddress) (identity_key : IdentityKey) (direction : Direction)
    (d : IdentityDevice D) : outcome SignalProtocolError bool :=
  let? stored := device_get_identity address d in
  Ok (match stored with None => true | Some stored_identity => public_eq stored_identity identity_key end).

(** The adapter renames the errors and asks again for the identity it replaces. *)
Definition renamed {A} (method : string) (o : outcome SignalProtocolError A) : outcome SignalProtocolError A :=
  map_err (fun e => InvalidState (lit method) (show_error e)) o.

Definition adapter_save_identity (address : ProtocolAddress) (identity_key : IdentityKey)
    : comp (IdentityDevice D) SignalProtocolError IdentityChange :=
  fun d =>
    (let! existing := mlift (renamed "get_identity" (device_get_identity address d)) in
     let! _ := (fun d => let '(o, d) := device_save_identity address identity_key d in (renamed "save_identity" o, d)) in
     mret (identity_change existing identity_key)) d.

(** A key that was saved reads back. *)
Lemma saved_identity a k d d' c :
  device_save_identity a k d = (Ok c, d') -> device_get_identity a d' = Ok (Some k).
Proof.
  unfold device_save_identity, mbind', mlift. destruct (device_get_identity a d); try done.
  destruct (Nat.eqb_spec (length (pk_bytes k)) 32) as [Hl|]; [|done].
  destruct (tbl_put _ _ _) as [ [ []| | |] t] eqn:E; try done. intros [= _ <-].
  unfold device_get_identity. cbn [dev_identities]. rewrite (tbl_put_get _ _ _ _ E). cbn [backend map_err obind].
  destruct (pk_bytes k) as [|b bs] eqn:Ek; [done|]. unfold from_djb_public_key_bytes. rewrite Hl.
  cbn. rewrite <- Ek. by destruct k.
Qed.

#[export] Program Instance device_identities : IdentityKeyStore (IdentityDevice D) := {|
  get_identity_key_pair d := renamed "get_identity_key_pair" (device_identity_key_pair d);
  get_local_registration_id d := renamed "get_local_registration_id" (Ok (dev_registration_id d));
  get_identity a d := renamed "get_identity" (device_get_identity a d);
  is_trusted_identity a k dir d := renamed "is_trusted_identity" (device_is_trusted_identity a k dir d);
  save_identity := adapter_save_identity
|}.
Next Obligation.
  intros a k dir d c d' H. unfold adapter_save_identity, mbind', mlift in H.
  destruct (renamed _ _); try done. destruct (device_save_identity a k d) as [ [x| | |] d1] eqn:E; try done.
  injection H as _ <-. unfold device_is_trusted_identity. rewrite (saved_identity _ _ _ _ _ E). cbn [obind renamed map_err].
  by rewrite (proj2 (public_eq_spec k k) eq_refl).
Qed.
End Identities.

(** ** Pre-keys: [impl PreKeyStore for Device], [PreKeyAdapter] *)

(** [PreKeyRecordStructure] on the wire *)
Class PreKeyPb := {
  pkr_encode : PreKeyRecord -> bytes;
  pkr_decode : bytes -> option PreKeyRecord;
  pkr_decode_encode : forall r, pkr_decode (pkr_encode r) = Some r
}.

Section PreKeyTable.
Context `{HC : !Curve25519, HP : !PreKeyPb} {D : Type} `{HT : !Table Z D}.

(** Old entries are the bare private key. *)
Definition device_load_prekey (prekey_id : u32) (d : D) : outcome str (option PreKeyRecord) :=
  match tbl_get prekey_id d with
  | Ok (Some b) =>
      match pkr_decode b with
      | Some record => Ok (Some record)
      | None =>
          match private_deserialize b with
          | Ok private_key =>
              match private_public_key private_key with
              | Ok public_key => Ok (Some (new_pre_key_record prekey_id (mkKeyPair public_key private_key)))
              | _ => Ok None
              end
          | _ => Ok None
          end
      end
  | Ok None => Ok None
  | Err e => Err e
  | Panic => Panic
  | NoFuel => NoFuel
  end.

(** The flag says whether the server has the key; the table keeps the bytes. *)
Definition device_store_prekey (prekey_id : u32) (record : PreKeyRecord) (uploaded : bool) : comp D str unit :=
  tbl_put prekey_id (pkr_encode record).
Definition device_contains_prekey (prekey_id : u32) (d : D) : outcome str bool :=
  let? o := tbl_get prekey_id d in Ok (match o with Some _ => true | None => false end).
Definition device_remove_prekey (prekey_id : u32) : comp D str unit := tbl_remove prekey_id.

Definition adapter_get_pre_key (prekey_id : u32) (d : D) : outcome SignalProtocolError PreKeyRecord :=
  let? o := backend "backend" (device_load_prekey prekey_id d) in
  let? structure := ok_or InvalidPreKeyId o in
  prekey_structure_to_record structure.

Definition adapter_save_pre_key (prekey_id : u32) (record : PreKeyRecord) : comp D SignalProtocolError unit :=
  let! structure := mlift (prekey_record_to_structure record) in
  mbackend "backend" (device_store_prekey prekey_id structure false).

Definition adapter_remove_pre_key (prekey_id : u32) : comp D SignalProtocolError unit :=
  mbackend "backend" (device_remove_prekey prekey_id).

#[export] Program Instance device_prekeys : PreKeyStore D := {|
  get_pre_key := adapter_get_pre_key;
  save_pre_key := adapter_save_pre_key;
  remove_pre_key := adapter_remove_pre_key
|}.
Next Obligation.
  intros id d d' H r. unfold adapter_remove_pre_key, mbackend, device_remove_prekey in H.
  destruct (tbl_remove id d) as [ [ []| | |] d1] eqn:E; try done. injection H as <-.
  unfold adapter_get_pre_key, device_load_prekey. by rewrite (tbl_remove_get _ _ _ E).
Qed.

(** What an upload stores is read back as a record of the key pair. *)
Lemma stored_prekey id kp u d d' :
  valid_pair kp -> device_store_prekey id (new_pre_key_record id kp) u d = (Ok tt, d') ->
  adapter_get_pre_key id d' = Ok (prekey_new id kp).
Proof.
  intros Hv H. unfold adapter_get_pre_key, device_load_prekey. rewrite (tbl_put_get _ _ _ _ H), pkr_decode_encode.
  cbn [backend map_err obind ok_or]. unfold prekey_structure_to_record, structure_key_pair.
  cbn [new_pre_key_record pkr_id pkr_public_key pkr_private_key required ok_or obind].
  unfold from_djb_public_key_bytes. rewrite valid_public_length by done. cbn [Nat.eqb PUBLIC_KEY_LENGTH map_err obind].
  unfold private_serialize. rewrite private_roundtrip by apply Hv. cbn [map_err obind]. by destruct kp as [ [] []].
Qed.

Lemma key_pair_of_record id kp : valid_pair kp -> prekey_key_pair (prekey_new id kp) = Ok kp.
Proof. apply prekey_pair. Qed.

(** A pre-key saved through the adapter is lost.  Saving a record made of
    any key pair succeeds, if the table does, but reading it back fails: the
    stored public key has 31 bytes. *)
Theorem saved_pre_key_unreadable id id' kp d d' :
  valid_pair kp -> adapter_save_pre_key id (prekey_new id' kp) d = (Ok tt, d') ->
  adapter_get_pre_key id d' = Err (SPE_BadKeyLength Djb 31).
Proof.
  intros Hv. unfold adapter_save_pre_key, prekey_record_to_structure, mbind', mlift.
  cbn [prekey_id prekey_new pkr_id required ok_or obind]. rewrite (prekey_pair id' kp Hv). cbn [obind].
  unfold mbackend, device_store_prekey. destruct (tbl_put _ _ _) as [ [ []| | |] d1] eqn:E; try done. intros [= <-].
  unfold adapter_get_pre_key, device_load_prekey. rewrite (tbl_put_get _ _ _ _ E), pkr_decode_encode.
  cbn [backend map_err obind ok_or]. unfold prekey_structure_to_record, structure_key_pair.
  cbn [pkr_public_key required ok_or obind]. unfold from_djb_public_key_bytes.
  rewrite length_drop, valid_public_length by done. reflexivity.
Qed.
End PreKeyTable.

(** ** Signed pre-keys: [impl SignedPreKeyStore for Device] *)

(** The device has one; [now] in seconds. *)
Record SignedDevice := mkSignedDevice {
  dev_signed_pre_key : KeyPair; dev_signed_pre_key_id : u32; dev_signed_pre_key_signature : bytes; dev_now : i64
}.

Section Signed.
Context `{HC : !Curve25519}.

Definition device_load_signed_prekey (id : u32) (d : SignedDevice) : outcome str (option SignedPreKeyRecord) :=
  if id =? dev_signed_pre_key_id d then
    let? public_key := map_err show_curve_error (from_djb_public_key_bytes (pk_bytes (kp_public (dev_signed_pre_key d)))) in
    let? private_key := map_err show_curve_error (private_deserialize (private_serialize (kp_private (dev_signed_pre_key d)))) in
    let? record := new_signed_pre_key_record (dev_signed_pre_key_id d) (mkKeyPair public_key private_key)
                     (dev_signed_pre_key_signature d) (dev_now d) in
    Ok (Some record)
  else Ok None.

Definition adapter_get_signed_pre_key (id : u32) (d : SignedDevice) : outcome SignalProtocolError SignedPreKeyRecord :=
  let? o := backend "backend" (device_load_signed_prekey id d) in
  let? structure := ok_or InvalidSignedPreKeyId o in
  signed_prekey_structure_to_record structure.

#[export] Instance device_signed_prekeys : SignedPreKeyStore SignedDevice := {|
  get_signed_pre_key := adapter_get_signed_pre_key;
  save_signed_pre_key _ _ d := (Ok tt, d)
|}.

Lemma device_signed_prekey d :
  valid_pair (dev_signed_pre_key d) -> 0 <= dev_now d ->
  adapter_get_signed_pre_key (dev_signed_pre_key_id d) d
  = Ok (signed_prekey_new (dev_signed_pre_key_id d) (dev_now d) (dev_signed_pre_key d) (dev_signed_pre_key_signature d)).
Proof.
  intros Hv Hn. unfold adapter_get_signed_pre_key, device_load_signed_prekey. rewrite Z.eqb_refl.
  unfold from_djb_public_key_bytes. rewrite valid_public_length by done. cbn [Nat.eqb PUBLIC_KEY_LENGTH map_err obind].
  unfold private_serialize at 1. rewrite private_roundtrip by apply Hv. cbn [map_err obind].
  unfold new_signed_pre_key_record. rewrite (proj2 (Z.ltb_ge _ _) Hn).
  cbn [obind backend map_err ok_or]. unfold signed_prekey_structure_to_record, structure_key_pair.
  cbn [spk_id spk_timestamp spk_public_key spk_private_key spk_signature required ok_or obind kp_public kp_private pk_bytes].
  unfold from_djb_public_key_bytes. rewrite valid_public_length by done. cbn [Nat.eqb PUBLIC_KEY_LENGTH map_err obind].
  unfold private_serialize. cbn [sk_bytes]. rewrite private_roundtrip by apply Hv. cbn [map_err obind].
  by destruct (dev_signed_pre_key d) as [ [] []].
Qed.
End Signed.

(** ** Sessions: [SessionAdapter] *)

(** [RecordStructure] on the wire *)
Class SessionPb := {
  sr_encode : option SessionState * list SessionState -> bytes;
  sr_decode : bytes -> option (option SessionState * list SessionState);
  sr_decode_encode : forall r, sr_decode (sr_encode r) = Some r
}.

Section Sessions.
Context `{HSP : !SessionPb} {D : Type} `{HT : !Table str D}.

Definition deserialized (o : option bytes) : outcome SignalProtocolError (option SessionRecord) :=
  match o with
  | Some data => let? r := session_record_deserialize sr_decode data in Ok (Some r)
  | None => Ok None
  end.

Definition adapter_load_session (address : ProtocolAddress) (d : D) : outcome SignalProtocolError (option SessionRecord) :=
  let? o := backend "backend" (tbl_get (show_address address) d) in deserialized o.

Definition adapter_store_session (address : ProtocolAddress) (record : SessionRecord) : comp D SignalProtocolError unit :=
  mbackend "backend" (tbl_put (show_address address) (session_record_serialize sr_encode record)).

(** The batch operations of [trait SignalStore], as the trait defines them. *)
Fixpoint get_sessions_batch (addresses : list str) (d : D) : outcome str (list (str * bytes)) :=
  match addresses with
  | [] => Ok []
  | a :: rest =>
      let? o := tbl_get a d in
      let? l := get_sessions_batch rest d in
      Ok (match o with Some data => (a, data) :: l | None => l end)
  end.

Fixpoint put_sessions_batch (entries : list (str * bytes)) : comp D str unit :=
  match entries with
  | [] => mret tt
  | (a, data) :: rest => tbl_put a data ;; put_sessions_batch rest
  end.

Fixpoint collect_records (found : index_map bytes) (addresses : list ProtocolAddress)
    : outcome SignalProtocolError (list (ProtocolAddress * option SessionRecord)) :=
  match addresses with
  | [] => Ok []
  | a :: rest =>
      let? r := deserialized (im_get (show_address a) found) in
      let? l := collect_records found rest in
      Ok ((a, r) :: l)
  end.

Definition adapter_load_sessions_batch (addresses : list ProtocolAddress) (d : D)
    : outcome SignalProtocolError (list (ProtocolAddress * option SessionRecord)) :=
  match addresses with
  | [] => Ok []
  | _ =>
      let? raw_results := backend "backend" (get_sessions_batch (map show_address addresses) d) in
      collect_records (im_collect raw_results) addresses
  end.

Definition adapter_store_sessions_batch (entries : list (ProtocolAddress * SessionRecord)) : comp D SignalProtocolError unit :=
  match entries with
  | [] => mret tt
  | _ => mbackend "backend" (put_sessions_batch
           (map (fun e => (show_address e.1, session_record_serialize sr_encode e.2)) entries))
  end.

(** A record reads back with the archived states that fit. *)
Lemma stored_session a r d d' :
  adapter_store_session a r d = (Ok tt, d') ->
  adapter_load_session a d' = Ok (Some (mkSessionRecord (current_session r) (take ARCHIVED_STATES_MAX_LENGTH (previous_sessions r)))).
Proof.
  unfold adapter_store_session, mbackend. destruct (tbl_put _ _ d) as [ [ []| | |] d1] eqn:E; try done. intros [= <-].
  unfold adapter_load_session. rewrite (tbl_put_get _ _ _ _ E). cbn [backend map_err obind deserialized].
  unfold session_record_deserialize, session_record_serialize. by rewrite sr_decode_encode.
Qed.

(** What the batch of raw sessions holds. *)
Lemma batch_entries addrs d l :
  get_sessions_batch addrs d = Ok l ->
  (forall a v, (a, v) ∈ l -> tbl_get a d = Ok (Some v))
  /\ (forall a, a ∈ addrs -> exists o, tbl_get a d = Ok o /\ forall v, o = Some v -> (a, v) ∈ l).
Proof.
  revert l. induction addrs as [|x addrs IH]; intros l Hl.
  - injection Hl as <-. split; intros; by destruct (not_elem_of_nil (A := _) _ ltac:(eassumption)).
  - cbn [get_sessions_batch] in Hl. destruct (tbl_get x d) as [ox| | |] eqn:Ex; try done. cbn [obind] in Hl.
    destruct (get_sessions_batch addrs d) as [l'| | |]; try done. injection Hl as <-.
    destruct (IH l' eq_refl) as [H1 H2]. split.
    + intros a v. destruct ox as [w|]; [|apply H1]. rewrite elem_of_cons. intros [ [= -> ->]|H]; [done|by apply H1].
    + intros a. rewrite elem_of_cons. intros [->|Ha].
      * exists ox. split; [done|]. intros v ->. by left.
      * destruct (H2 a Ha) as (o & Ho & Hv). exists o. split; [done|]. intros v E. destruct ox; [right|]; by apply Hv.
Qed.

Lemma collect_lookup (l : list (str * bytes)) a v :
  (a, v) ∈ l -> (forall w, (a, w) ∈ l -> w = v) -> im_get a (im_collect l) = Some v.
Proof.
  unfold im_collect. generalize (@nil (str * bytes)). induction l as [|[k w] l IH]; intros m Hin Hall; [by apply elem_of_nil in Hin|].
  cbn [fold_left fst snd]. destruct (decide ((a, v) ∈ l)) as [Hl|Hl].
  - apply IH; [done|]. intros u Hu. apply Hall. by right.
  - apply elem_of_cons in Hin as [ [= <- <-]|]; [|done].
    assert (forall w, (a, w) ∉ l) as Hno by (intros u Hu; assert (u = v) as -> by (apply Hall; by right); done).
    clear - Hno. assert (im_get a (im_insert a v m) = Some v) as Hg by (rewrite im_get_insert; by rewrite bytes_eqb_refl).
    revert Hg. generalize (im_insert a v m). induction l as [|[k w] l IH]; intros m' Hg; [done|].
    cbn [fold_left fst snd]. apply IH; [intros u Hu; apply (Hno u); by right|].
    rewrite im_get_insert. destruct (bytes_eqb_spec a k) as [<-|]; [|done]. destruct (Hno w). by left.
Qed.

Lemma collect_lookup_None (l : list (str * bytes)) a : (forall w, (a, w) ∉ l) -> im_get a (im_collect l) = None.
Proof.
  unfold im_collect. assert (im_get a (@nil (str * bytes)) = None) as Hg by done. revert Hg.
  generalize (@nil (str * bytes)). induction l as [|[k w] l IH]; intros m Hg Hno; [done|].
  cbn [fold_left fst snd]. apply IH; [|intros u Hu; apply (Hno u); by right].
  rewrite im_get_insert. destruct (bytes_eqb_spec a k) as [<-|]; [|done]. destruct (Hno w). by left.
Qed.

Lemma batch_lookup addrs d l a :
  get_sessions_batch addrs d = Ok l -> a ∈ addrs -> tbl_get a d = Ok (im_get a (im_collect l)).
Proof.
  intros Hl Ha. destruct (batch_entries addrs d l Hl) as [H1 H2]. destruct (H2 a Ha) as (o & Ho & Hv). rewrite Ho. f_equal.
  destruct o as [v|]; symmetry.
  - apply collect_lookup; [by apply Hv|]. intros w Hw. apply H1 in Hw. congruence.
  - apply collect_lookup_None. intros w Hw. apply H1 in Hw. congruence.
Qed.

Lemma batch_total addrs d :
  Forall (fun a => exists o, tbl_get a d = Ok o) addrs -> exists l, get_sessions_batch addrs d = Ok l.
Proof.
  induction 1 as [|a addrs (o & Ho) _ (l & Hl)]; [by eexists|]. cbn [get_sessions_batch]. rewrite Ho, Hl. by eexists.
Qed.

(** Loading a batch is loading one by one.  A batch of sessions is loaded
    exactly when each of them can be, with the same records in the order of
    the addresses, repeated and unknown addresses included; and a session that
    is stored is then loaded, without the archived states beyond the forty a
    record keeps. *)
Theorem session_batch_equiv addrs d l :
  (adapter_load_sessions_batch addrs d = Ok l
   <-> Forall2 (fun a p => p.1 = a /\ adapter_load_session a d = Ok p.2) addrs l)
  /\ forall a r d1 d2, adapter_store_session a r d1 = (Ok tt, d2) ->
       adapter_load_session a d2
       = Ok (Some (mkSessionRecord (current_session r) (take ARCHIVED_STATES_MAX_LENGTH (previous_sessions r)))).
Proof.
  split; [|intros a r d1 d2; apply stored_session].
  assert (forall raw, get_sessions_batch (map show_address addrs) d = Ok raw -> forall sub out,
    (forall a, a ∈ sub -> a ∈ addrs) ->
    (collect_records (im_collect raw) sub = Ok out
     <-> Forall2 (fun a p => p.1 = a /\ adapter_load_session a d = Ok p.2) sub out)) as Hcol.
  { intros raw Hraw sub. induction sub as [|a sub IH]; intros out Hsub; cbn [collect_records].
    - split; [intros [= <-]; constructor|]. by inversion 1.
    - assert (adapter_load_session a d = deserialized (im_get (show_address a) (im_collect raw))) as Ha.
      { unfold adapter_load_session. rewrite (batch_lookup _ _ _ (show_address a) Hraw); [done|].
        apply list_elem_of_fmap_2, Hsub. by left. }
      rewrite <- Ha. split.
      + intros H. destruct (adapter_load_session a d) as [r| | |] eqn:E; try done. cbn [obind] in H.
        destruct (collect_records _ sub) as [out'| | |] eqn:Ec; try done. injection H as <-.
        constructor; [done|]. apply IH; [intros; apply Hsub; by right|done].
      + inversion 1 as [|? [x r] ? out' [Hx Hr] Hout]. cbn in Hx, Hr. subst. rewrite Hr. cbn [obind].
        apply IH in Hout; [|intros; apply Hsub; by right]. by rewrite Hout. }
  unfold adapter_load_sessions_batch. destruct addrs as [|a0 addrs0] eqn:Eaddrs.
  { split; [intros [= <-]; constructor|]. by inversion 1. }
  rewrite <- Eaddrs in *. destruct (get_sessions_batch (map show_address addrs) d) as [raw| | |] eqn:Eraw.
  1: cbn [backend map_err obind]; by apply Hcol.
  all: split; [done|]; intros H; exfalso.
  all: destruct (batch_total (map show_address addrs) d) as (raw & Hraw); [|congruence].
  all: apply Forall_fmap; clear - H; induction H as [|a p addrs l [_ Ha] _ IH]; constructor; [|done].
  all: unfold adapter_load_session in Ha; cbn; destruct (tbl_get (show_address a) d); try done; by eexists.
Qed.
End Sessions.

(** ** Sender keys: [impl SenderKeyStore for Device] *)

Section SenderKeyTable.
Context (encode : list SenderKeyStateStructure -> bytes) (decode : bytes -> option (list SenderKeyStateStructure)).
Context (decode_encode : forall l, decode (encode l) = Some l).
Context {D : Type} `{HT : !Table str D}.

Definition sender_key_address (n : SenderKeyName) : str := group_id n ++ lit ":" ++ sender_id n.

Definition device_store_sender_key (n : SenderKeyName) (record : SenderKeyRecord) : comp D SignalProtocolError unit :=
  let! serialized_record := mlift (record_serialize encode record) in
  mbackend "store_sender_key" (tbl_put (sender_key_address n) serialized_record).

(** A record that encodes to nothing counts as none. *)
Definition device_load_sender_key (n : SenderKeyName) (d : D) : outcome SignalProtocolError (option SenderKeyRecord) :=
  let? o := backend "load_sender_key" (tbl_get (sender_key_address n) d) in
  match o with
  | Some data =>
      let? record := record_deserialize decode data in
      let? again := record_serialize encode record in
      if (length again =? 0)%nat then Ok None else Ok (Some record)
  | None => Ok None
  end.

Lemma stored_sender_key n r d d' :
  encode (record_as_protobuf r) <> [] -> device_store_sender_key n r d = (Ok tt, d') ->
  device_load_sender_key n d' = Ok (Some r).
Proof.
  intros Hne. unfold device_store_sender_key, mbind', mlift, record_serialize, mbackend.
  destruct (tbl_put _ _ _) as [ [ []| | |] d1] eqn:E; try done. intros [= <-].
  unfold device_load_sender_key. rewrite (tbl_put_get _ _ _ _ E). cbn [backend map_err obind].
  unfold record_deserialize, record_serialize. rewrite decode_encode. cbn [obind].
  assert (map mkState (record_as_protobuf r) = states r) as Hr.
  { unfold record_as_protobuf. rewrite map_map. induction (states r) as [|[] l IH]; [done|]. cbn. by rewrite IH. }
  rewrite Hr. unfold record_as_protobuf at 1. cbn [states]. fold (record_as_protobuf r).
  destruct (encode (record_as_protobuf r)); [done|]. by destruct r.
Qed.

(** Groups without a colon in their name do not share entries. *)
Lemma sender_key_address_inj n m :
  str_free COLON (group_id n) = true -> str_free COLON (group_id m) = true ->
  sender_key_address n = sender_key_address m -> n = m.
Proof.
  intros Hn Hm E. unfold sender_key_address in E. change (lit ":") with [COLON] in E. cbn [app] in E.
  apply (f_equal (split_once COLON)) in E. rewrite !split_once_app in E by done.
  injection E as E1 E2. destruct n, m. cbn in *. congruence.
Qed.
End SenderKeyTable.

(** ** Trust on first use *)

Section Trust.
Context `{HC : !Curve25519} {D : Type} `{HT : !Table str D} (show_error : SignalProtocolError -> str).

(** Trust on first use.  While no identity is stored for an address every
    key is trusted; once one is, exactly that key is.  Saving replaces it and
    says so exactly when a different key was stored, and from then on exactly
    the saved key is trusted, in both directions. *)
Theorem trust_on_first_use a k dir (d : IdentityDevice D) stored :
  device_get_identity a d = Ok stored ->
  device_is_trusted_identity a k dir d = Ok (match stored with None => true | Some s => bool_decide (s = k) end)
  /\ forall c d', adapter_save_identity show_error a k d = (Ok c, d') ->
       (c = ReplacedExisting <-> exists s, stored = Some s /\ s <> k)
       /\ forall k' dir', device_is_trusted_identity a k' dir' d' = Ok (bool_decide (k = k')).
Proof.
  intros Hs. assert (forall x y : IdentityKey, public_eq x y = bool_decide (x = y)) as Heq.
  { intros x y. apply eq_bool_prop_intro. rewrite bool_decide_spec. rewrite <- public_eq_spec. apply Is_true_true. }
  split; [unfold device_is_trusted_identity; rewrite Hs; cbn [obind]; by destruct stored as [s|]; rewrite ?Heq|].
  intros c d' H. unfold adapter_save_identity, mbind', mlift in H. rewrite Hs in H. cbn [renamed map_err] in H.
  destruct (device_save_identity a k d) as [ [x| | |] d1] eqn:E; try done. injection H as <- <-. split.
  - unfold identity_change. destruct stored as [s|]; [|by split; [|intros (? & ? & _)]].
    destruct (public_eq s k) eqn:Ek; [apply public_eq_spec in Ek as ->; split; [done|by intros (? & [= ->] & ?)]|].
    split; [|done]. intros _. exists s. split; [done|]. intros ->. by rewrite (proj2 (public_eq_spec k k) eq_refl) in Ek.
  - intros k' dir'. unfold device_is_trusted_identity. rewrite (saved_identity _ _ _ _ _ E). cbn [obind]. by rewrite Heq.
Qed.
End Trust.

(** ** Stand-ins and witnesses *)

Definition toy_table (Key : Type) `{EqDecision Key} : Table Key (Key -> option bytes).
Proof.
  refine {| tbl_get k d := Ok (d k); tbl_put k v d := (Ok tt, fun k' => if decide (k = k') then Some v else d k');
            tbl_remove k d := (Ok tt, fun k' => if decide (k = k') then None else d k') |}.
  - intros k v d d' [= <-]. by rewrite decide_True.
  - intros k v d d' k' [= <-] Hk. by rewrite decide_False.
  - intros k d d' [= <-]. by rewrite decide_True.
Defined.

Definition toy_prekey_pb : PreKeyPb.
Proof.
  refine {| pkr_encode r := put_opts [option_map (fun v => [v]) (pkr_id r); pkr_public_key r; pkr_private_key r];
            pkr_decode b := match get_opts 3 b with [i; p; s] => Some (mkPreKeyRecord (option_map (hd 0) i) p s) | _ => None end |}.
  intros [i p s]. cbn [pkr_id pkr_public_key pkr_private_key].
  change 3%nat with (length [option_map (fun v : Z => [v]) i; p; s]). rewrite get_put_opts. by destruct i.
Defined.

Lemma saved_pre_key_unreadable_witness :
  exists d', @adapter_save_pre_key sum_curve toy_prekey_pb _ (toy_table Z) 9 (@prekey_new 9 (toy_pair 5)) (fun _ => None) = (Ok tt, d')
    /\ @adapter_get_pre_key sum_curve toy_prekey_pb _ (toy_table Z) 9 d' = Err (SPE_BadKeyLength Djb 31).
Proof.
  eexists. split; [reflexivity|].
  eapply (@saved_pre_key_unreadable sum_curve toy_prekey_pb _ (toy_table Z) 9 9 (toy_pair 5) (fun _ => None)); [by split|reflexivity].
Defined.

Definition toy_identity_device : IdentityDevice (str -> option bytes) := mkIdentityDevice (toy_pair 3) 44 (fun _ => None).

Lemma trust_on_first_use_witness :
  @device_is_trusted_identity (str -> option bytes) (toy_table str) (mkProtocolAddress (lit "a") 0) (kp_public (toy_pair 5)) Sending
    toy_identity_device = Ok true.
Proof.
  apply (@trust_on_first_use (str -> option bytes) (toy_table str) (fun _ => []) (mkProtocolAddress (lit "a") 0)
    (kp_public (toy_pair 5)) Sending toy_identity_device None). reflexivity.
Defined.
