(* ===== verification/KeyServer.v ===== *)
(** * Pre-keys on the server: [warp_core/src/prekeys.rs], [src/auth/prekeys.rs]

    The stanzas that upload pre-keys and fetch the bundles of others, and the
    upload itself over the device's table.  The theorems show which keys an
    upload publishes and stores, that a bundle served from an upload is one
    the device can answer, and that an upload can take the identifiers of keys
    that are still in use. *)

From S2P Require Import Prelude RustStd Crypto Curve Jid Node Attrs GroupCipher.
From S2P Require Import Session SessionCipher SessionRatchet PreKeys Noise Connection Requests Pairing DeviceStore.

(** ** The standard library: [str::trim], [u32::from_str_radix] *)

(** The white space of Unicode, encoded. *)
Definition white_space : list bytes :=
  [[9]; [10]; [11]; [12]; [13]; [32]; [194; 133]; [194; 160]; [225; 154; 128]]
  ++ map (fun i => [226; 128; 128 + Z.of_nat i]) (seq 0 11)
  ++ [[226; 128; 168]; [226; 128; 169]; [226; 128; 175]; [226; 129; 159]; [227; 128; 128]].

Fixpoint trim_with (fuel : nat) (seqs : list bytes) (s : str) : str :=
  match fuel with
  | O => s
  | S fuel =>
      match List.find (fun w => starts_with w s) seqs with
      | Some w => trim_with fuel seqs (drop (length w) s)
      | None => s
      end
  end.
Definition trim (s : str) : str :=
  let s := trim_with (length s) white_space s in
  rev (trim_with (length s) (map (@rev Z) white_space) (rev s)).

Definition hex_value (c : u8) : option Z :=
  if is_ascii_digit c then Some (c - 48)
  else if in_range 97 102 c then Some (c - 87)
  else if in_range 65 70 c then Some (c - 55)
  else None.

Fixpoint parse_hex_digits (acc : Z) (s : str) : option Z :=
  match s with
  | [] => Some acc
  | c :: s =>
      match hex_value c with
      | Some v => if 2 ^ 32 <=? acc * 16 + v then None else parse_hex_digits (acc * 16 + v) s
      | None => None
      end
  end.
(** [u32::from_str_radix(s, 16)], errors left out *)
Definition parse_hex_u32 (s : str) : option u32 :=
  match s with
  | [] => None
  | [c] => parse_hex_digits 0 s
  | c :: rest => if c =? PLUS then parse_hex_digits 0 rest else parse_hex_digits 0 s
  end.

(** ** [prekeys.rs]: stanzas *)

Definition build_fetch_prekeys_request (jids : list Jid) (reason : option str) : Node :=
  let user_node jid :=
    let b := b_attr (builder_new (lit "user")) (lit "jid") (jid_to_string jid) in
    build (match reason with Some r => b_attr b (lit "reason") r | None => b end) in
  build (b_children (builder_new (lit "key")) (map user_node jids)).

(** The three low bytes. *)
Definition id_bytes (id : u32) : bytes := drop 1 (u32_to_be_bytes id).

Definition pre_key_node (k : u32 * bytes) : Node :=
  build (b_children (builder_new (lit "key")) [b_leaf "id" (id_bytes k.1); b_leaf "value" k.2]).

Definition build_upload_prekeys_request (registration_id : u32) (identity_key_bytes : bytes) (signed_pre_key_id : u32)
    (signed_pre_key_public_bytes signed_pre_key_signature : bytes) (pre_keys : list (u32 * bytes)) : list Node :=
  [b_leaf "registration" (u32_to_be_bytes registration_id); b_leaf "type" [5]; b_leaf "identity" identity_key_bytes;
   build (b_children (builder_new (lit "list")) (map pre_key_node pre_keys));
   build (b_children (builder_new (lit "skey"))
     [b_leaf "id" (id_bytes signed_pre_key_id); b_leaf "value" signed_pre_key_public_bytes;
      b_leaf "signature" signed_pre_key_signature])].

Definition extract_bytes (n : option Node) : outcome str bytes :=
  ok_or (lit "Expected bytes in node content") (node_bytes n).

(** [None] for an identifier that cannot be read. *)
Definition node_pre_key_id (n : Node) : option u32 :=
  match node_bytes (get_optional_child n (lit "id")) with
  | Some [] | None => None
  | Some b =>
      match b with
      | [x; y; z] => Some (u32_from_be_bytes 0 x y z)
      | _ =>
          match from_utf8 b with
          | Ok s => let trimmed := trim s in if (length trimmed =? 0)%nat then None else parse_hex_u32 trimmed
          | _ => None
          end
      end
  end.

Definition node_to_pre_key (n : Node) : outcome str (option (u32 * bytes)) :=
  match node_pre_key_id n with
  | None => Ok None
  | Some id =>
      let? value_bytes := ok_or (lit "Missing pre-key value") (node_bytes (get_optional_child n (lit "value"))) in
      if negb (length value_bytes =? 32)%nat then Err (lit "Invalid pre-key value length")
      else Ok (Some (id, value_bytes))
  end.

Definition node_to_signed_pre_key (n : Node) : outcome str (u32 * bytes * bytes) :=
  let? k := node_to_pre_key n in
  let? k := ok_or (lit "Signed pre-key is missing ID or value") k in
  let? signature_bytes := ok_or (lit "Missing signed pre-key signature") (node_bytes (get_optional_child n (lit "signature"))) in
  if negb (length signature_bytes =? 64)%nat then Err (lit "Invalid signature length")
  else Ok (k.1, k.2, signature_bytes).

Section Bundles.
(** [DisplayableNode], and the text of a protocol error *)
Context (show_node : Node -> str) (show_error : SignalProtocolError -> str).

Definition curve_text {A} (o : outcome CurveError A) : outcome str A := map_err show_curve_error o.

Definition node_to_pre_key_bundle (jid : Jid) (n : Node) : outcome str PreKeyBundle :=
  match get_optional_child n (lit "error") with
  | Some error_node => Err (lit "Error getting prekeys: " ++ show_node error_node)
  | None =>
      let? reg_id_bytes := extract_bytes (get_optional_child n (lit "registration")) in
      match reg_id_bytes with
      | [r0; r1; r2; r3] =>
          let registration_id := u32_from_be_bytes r0 r1 r2 r3 in
          let keys_node := match get_optional_child n (lit "keys") with Some k => k | None => n end in
          let? identity_key_bytes := extract_bytes (get_optional_child keys_node (lit "identity")) in
          if negb (length identity_key_bytes =? 32)%nat
          then Err (lit "Invalid identity key length: got " ++ show_uint (Z.of_nat (length identity_key_bytes))
                    ++ lit ", expected 32")
          else
            let? identity_key := curve_text (from_djb_public_key_bytes identity_key_bytes) in
            let? pre_key_tuple :=
              match get_optional_child keys_node (lit "key") with
              | Some pre_key_node =>
                  let? o := node_to_pre_key pre_key_node in
                  match o with
                  | Some (id, key_bytes) =>
                      let? k := curve_text (from_djb_public_key_bytes key_bytes) in Ok (Some (id, k))
                  | None => Ok None
                  end
              | None => Ok None
              end in
            let? signed_pre_key_node := ok_or (lit "Missing signed prekey") (get_optional_child keys_node (lit "skey")) in
            let? signed := node_to_signed_pre_key signed_pre_key_node in
            let? signed_pre_key_public := curve_text (from_djb_public_key_bytes signed.1.2) in
            map_err show_error (bundle_new registration_id (device jid) pre_key_tuple signed.1.1 signed_pre_key_public
                                  signed.2 identity_key)
      | _ => Err (lit "Invalid registration ID length")
      end
  end.

(** A map by address: a later bundle replaces an earlier one. *)
Fixpoint bundle_insert (j : Jid) (b : PreKeyBundle) (m : list (Jid * PreKeyBundle)) : list (Jid * PreKeyBundle) :=
  match m with
  | [] => [(j, b)]
  | (j', b') :: m => if decide (j = j') then (j', b) :: m else (j', b') :: bundle_insert j b m
  end.
Fixpoint bundle_get (j : Jid) (m : list (Jid * PreKeyBundle)) : option PreKeyBundle :=
  match m with [] => None | (j', b) :: m => if decide (j = j') then Some b else bundle_get j m end.

Definition add_user (m : list (Jid * PreKeyBundle)) (user_node : Node) : list (Jid * PreKeyBundle) :=
  if negb (tag user_node =s lit "user") then m
  else
    let jid := (ap_jid (lit "jid") (ap_new user_node)).1 in
    match node_to_pre_key_bundle jid user_node with
    | Ok b => bundle_insert jid b m
    | _ => m
    end.

Definition parse_prekeys_response (resp_node : Node) : outcome str (list (Jid * PreKeyBundle)) :=
  let? list_node := ok_or (lit "<list> not found in pre-key response") (get_optional_child resp_node (lit "list")) in
  Ok (fold_left add_user (default_or [] (children list_node)) []).
End Bundles.

(** ** [src/auth/prekeys.rs] *)

Definition WANTED_PRE_KEY_COUNT : nat := 50.
Definition MIN_PRE_KEY_COUNT : Z := 5.
Definition MAX_PRE_KEY_ID : Z := 16777215.

Definition server_jid : Jid := jid_new [] SERVER_JID.

(** A loop of [p] rounds with an early exit. *)
Fixpoint rounds {S R} (p : positive) (step : S -> R + S) (s : S) : R + S :=
  match p with
  | xH => step s
  | xO p => match rounds p step s with inl r => inl r | inr s => rounds p step s end
  | xI p => match step s with
            | inl r => inl r
            | inr s => match rounds p step s with inl r => inl r | inr s => rounds p step s end
            end
  end.

(** What the device has to publish. *)
Record KeyDevice := mkKeyDevice {
  kd_registration_id : u32; kd_identity_key : KeyPair; kd_signed_pre_key_id : u32; kd_signed_pre_key : KeyPair;
  kd_signed_pre_key_signature : bytes
}.

Inductive UploadError := UE_Iq (e : ClientIqError) | UE_Load (id : u32) (e : str).

Section Upload.
Context `{HC : !Curve25519, HP : !PreKeyPb} {D : Type} `{HT : !Table Z D}.
Context (send_iq : InfoQuery -> outcome ClientIqError Node).

Definition fetch_pre_keys (show_node : Node -> str) (show_error : SignalProtocolError -> str)
    (show_iq_error : ClientIqError -> str) (jids : list Jid) (reason : option str)
    : outcome str (list (Jid * PreKeyBundle)) :=
  let content := build_fetch_prekeys_request jids reason in
  let? resp_node := map_err show_iq_error
                      (send_iq (query_get (lit "encrypt") server_jid (Some (NC_Nodes [content])))) in
  parse_prekeys_response show_node show_error resp_node.

(** [usize] is 64 bits wide. *)
Definition get_server_pre_key_count : outcome ClientIqError Z :=
  let? resp_node := send_iq (query_get (lit "encrypt") server_jid (Some (NC_Nodes [build (builder_new (lit "count"))]))) in
  let? count_resp_node := ok_or (CI_ServerError 500 (lit "Missing count node in response"))
                            (get_optional_child resp_node (lit "count")) in
  let count_str := default_or (lit "0") (ap_optional_string (lit "value") (ap_new count_resp_node)).1 in
  Ok (match parse_u64 count_str with Ok c => c | _ => 0 end).

(** The first gap ends the search for the highest identifier. *)
Definition scan_step (d : D) (s : Z * Z) : outcome UploadError Z + Z * Z :=
  let '(id, highest) := s in
  match tbl_get id d with
  | Ok (Some _) => inr (id + 1, id)
  | Ok None => inl (Ok highest)
  | Err e => inl (Err (UE_Load id e))
  | Panic => inl Panic
  | NoFuel => inl NoFuel
  end.
Definition highest_existing_id (d : D) : outcome UploadError Z :=
  match rounds 16777215 (scan_step d) (1, 0) with inl r => r | inr (_, highest) => Ok highest end.

(** [rnds]: the random bytes of each key. *)
Fixpoint generate_pre_keys (start_id : Z) (rnds : list bytes) : list (u32 * KeyPair) :=
  match rnds with
  | [] => []
  | r :: rnds =>
      if MAX_PRE_KEY_ID <? start_id then [] else (start_id, key_pair_generate r) :: generate_pre_keys (start_id + 1) rnds
  end.

(** A key that cannot be stored is only logged. *)
Fixpoint store_pre_keys (keys : list (u32 * KeyPair)) (d : D) : D :=
  match keys with
  | [] => d
  | (id, kp) :: keys => store_pre_keys keys (device_store_prekey id (new_pre_key_record id kp) true d).2
  end.

Definition upload_query (device : KeyDevice) (keys : list (u32 * KeyPair)) : InfoQuery :=
  query_set (lit "encrypt") server_jid
    (Some (NC_Nodes (build_upload_prekeys_request (kd_registration_id device) (pk_bytes (kp_public (kd_identity_key device)))
       (kd_signed_pre_key_id device) (pk_bytes (kp_public (kd_signed_pre_key device))) (kd_signed_pre_key_signature device)
       (map (fun k => (k.1, pk_bytes (kp_public k.2))) keys)))).

(** A first loop over the table only reads; its result is not used. *)
Definition upload_pre_keys (device : KeyDevice) (rnds : list bytes) : comp D UploadError unit :=
  let! server_count := mlift (map_err UE_Iq get_server_pre_key_count) in
  if MIN_PRE_KEY_COUNT <=? server_count then mret tt
  else fun d =>
    (let! highest := mlift (highest_existing_id d) in
     let keys := generate_pre_keys (highest + 1) (take WANTED_PRE_KEY_COUNT rnds) in
     match keys with
     | [] => mret tt
     | _ =>
         let! _ := mlift (map_err UE_Iq (send_iq (upload_query device keys))) in
         fun d => (Ok tt, store_pre_keys keys d)
     end) d.
End Upload.

(** ** Lemmas: the search *)

Fixpoint iterate {S R} (n : nat) (step : S -> R + S) (s : S) : R + S :=
  match n with
  | O => inr s
  | Datatypes.S n => match step s with inl r => inl r | inr s => iterate n step s end
  end.

Lemma iterate_add {S R} n m (step : S -> R + S) s :
  iterate (n + m) step s = match iterate n step s with inl r => inl r | inr s => iterate m step s end.
Proof. revert s. induction n as [|n IH]; intros s; [done|]. cbn. by destruct (step s). Qed.

Lemma rounds_iterate {S R} p (step : S -> R + S) s : rounds p step s = iterate (Pos.to_nat p) step s.
Proof.
  revert s. induction p as [p IH|p IH|]; intros s.
  - rewrite Pos2Nat.inj_xI. cbn [rounds iterate]. destruct (step s) as [|s']; [done|].
    replace (2 * Pos.to_nat p)%nat with (Pos.to_nat p + Pos.to_nat p)%nat by lia. rewrite iterate_add, IH.
    by destruct (iterate _ _ s').
  - rewrite Pos2Nat.inj_xO. cbn [rounds].
    replace (2 * Pos.to_nat p)%nat with (Pos.to_nat p + Pos.to_nat p)%nat by lia. rewrite iterate_add, IH.
    by destruct (iterate _ _ s).
  - change (Pos.to_nat 1) with 1%nat. cbn. by destruct (step s).
Qed.

Section Scan.
Context `{HC : !Curve25519, HP : !PreKeyPb} {D : Type} `{HT : !Table Z D}.

Lemma scan_to_gap d g n : forall i h,
  h = i - 1 ->
  i <= g -> g - i < Z.of_nat n -> (forall j, i <= j < g -> exists v, tbl_get j d = Ok (Some v)) -> tbl_get g d = Ok None ->
  iterate n (scan_step d) (i, h) = inl (Ok (g - 1)).
Proof.
  induction n as [|n IH]; intros i h -> Hi Hn Hall Hg; [lia|]. cbn [iterate scan_step].
  destruct (Z.eq_dec i g) as [->|Hne]; [by rewrite Hg|].
  destruct (Hall i ltac:(lia)) as (v & ->). apply IH; [lia|lia|lia| |done].
  intros j Hj. apply Hall. lia.
Qed.

(** The search stops at the first gap. *)
Lemma highest_at_gap d g :
  1 <= g <= MAX_PRE_KEY_ID -> (forall j, 1 <= j < g -> exists v, tbl_get j d = Ok (Some v)) -> tbl_get g d = Ok None ->
  highest_existing_id d = Ok (g - 1).
Proof.
  intros Hg Hall Hgap. unfold highest_existing_id. rewrite rounds_iterate.
  pose proof (scan_to_gap d g (Pos.to_nat 16777215) 1 0) as H.
  rewrite positive_nat_Z in H. unfold MAX_PRE_KEY_ID in Hg. by rewrite H by (done || lia).
Qed.

(** ** Lemmas: storing *)

Context (reliable : forall k v (d : D), exists d', tbl_put k v d = (Ok tt, d')).

Lemma generate_lookup start rnds i r :
  rnds !! i = Some r -> start + Z.of_nat (length rnds) <= MAX_PRE_KEY_ID + 1 ->
  generate_pre_keys start rnds !! i = Some (start + Z.of_nat i, key_pair_generate r).
Proof.
  revert start i. induction rnds as [|x rnds IH]; intros start i Hi Hm; [done|]. cbn [generate_pre_keys length] in *.
  destruct (Z.ltb_spec MAX_PRE_KEY_ID start); [lia|]. destruct i as [|i].
  - injection Hi as ->. cbn. by rewrite Z.add_0_r.
  - change (generate_pre_keys (start + 1) rnds !! i = Some (start + Z.of_nat (S i), key_pair_generate r)).
    rewrite (IH (start + 1) i Hi) by lia. do 2 f_equal. lia.
Qed.

Lemma generate_ids start rnds k : k ∈ (generate_pre_keys start rnds).*1 -> start <= k < start + Z.of_nat (length rnds).
Proof.
  revert start. induction rnds as [|x rnds IH]; intros start; cbn [generate_pre_keys]; [by rewrite elem_of_nil|].
  destruct (MAX_PRE_KEY_ID <? start); cbn; [by rewrite elem_of_nil|]. rewrite elem_of_cons.
  intros [->|Hk]; [lia|]. apply IH in Hk. lia.
Qed.

Lemma generate_NoDup start rnds : NoDup (generate_pre_keys start rnds).*1.
Proof.
  revert start. induction rnds as [|x rnds IH]; intros start; cbn [generate_pre_keys]; [constructor|].
  destruct (MAX_PRE_KEY_ID <? start); cbn; [constructor|]. constructor; [|apply IH].
  intros Hk. apply generate_ids in Hk. lia.
Qed.

Lemma store_other keys : forall d k, k ∉ keys.*1 -> tbl_get k (store_pre_keys keys d) = tbl_get k d.
Proof.
  induction keys as [|[id kp] keys IH]; intros d k Hk; [done|]. cbn [store_pre_keys]. cbn in Hk. apply not_elem_of_cons in Hk as [Hne Hk].
  rewrite IH by done. unfold device_store_prekey. destruct (reliable id (pkr_encode (new_pre_key_record id kp)) d) as (d1 & E).
  rewrite E. by apply (tbl_put_other _ _ _ _ _ E).
Qed.

Lemma store_readable keys : forall d id kp,
  NoDup keys.*1 -> (id, kp) ∈ keys -> valid_pair kp -> adapter_get_pre_key id (store_pre_keys keys d) = Ok (prekey_new id kp).
Proof.
  induction keys as [|[id0 kp0] keys IH]; intros d id kp Hnd Hin Hv; [by apply elem_of_nil in Hin|].
  cbn in Hnd. apply NoDup_cons in Hnd as [Hni Hnd]. cbn [store_pre_keys]. apply elem_of_cons in Hin as [ [= -> ->]|Hin]; [|by apply IH].
  unfold device_store_prekey. destruct (reliable id0 (pkr_encode (new_pre_key_record id0 kp0)) d) as (d1 & E). rewrite E. cbn [snd].
  unfold adapter_get_pre_key, device_load_prekey. rewrite (store_other keys d1 id0 Hni).
  exact (stored_prekey id0 kp0 true d d1 Hv E).
Qed.
End Scan.

(** ** Lemmas: stanzas *)

Lemma id_bytes_read id :
  0 <= id < 2 ^ 24 -> exists x y z, id_bytes id = [x; y; z] /\ u32_from_be_bytes 0 x y z = id.
Proof.
  intros Hid. do 3 eexists. split; [reflexivity|].
  rewrite <- (u32_be_roundtrip id) at 4 by lia. f_equal. symmetry. unfold wrap.
  rewrite Z.shiftr_div_pow2, Z.div_small by lia. done.
Qed.

Lemma pre_key_node_read t id v rest :
  0 <= id < 2 ^ 24 -> length v = 32%nat ->
  node_to_pre_key (mkNode t [] (Some (NC_Nodes (b_leaf "id" (id_bytes id) :: b_leaf "value" v :: rest)))) = Ok (Some (id, v)).
Proof.
  intros Hid Hv. destruct (id_bytes_read id Hid) as (x & y & z & Hb & Hr).
  set (n := mkNode t [] _). assert (node_bytes (get_optional_child n (lit "id")) = Some (id_bytes id)) as H1 by reflexivity.
  assert (node_bytes (get_optional_child n (lit "value")) = Some v) as H2 by reflexivity.
  unfold node_to_pre_key, node_pre_key_id. rewrite H1, H2, Hb, Hr. cbn [ok_or obind]. by rewrite Hv.
Qed.

(** What a server answers about one user: the parts of an upload, with the
    [i]-th of its keys. *)
Definition serve_user (jid : Jid) (request : list Node) (i : nat) : option Node :=
  match request with
  | [registration; _; identity_node; list_node; skey] =>
      match default_or [] (children list_node) !! i with
      | Some key_node =>
          Some (mkNode (lit "user") [(lit "jid", jid_to_string jid)]
                  (Some (NC_Nodes [registration; identity_node; key_node; skey])))
      | None => None
      end
  | _ => None
  end.

Section Served.
Context `{HC : !Curve25519, HP : !PreKeyPb} {D E : Type} `{HT : !Table Z D, HI : !Table str E}.
Context (show_node : Node -> str) (show_error : SignalProtocolError -> str).
Context (reliable : forall k v (d : D), exists d', tbl_put k v d = (Ok tt, d')).

Lemma served_bundle jid reg identity_key sid spk_pub sig keys i id v :
  0 <= reg < 2 ^ 32 -> 0 <= sid < 2 ^ 24 -> 0 <= id < 2 ^ 24 -> length identity_key = 32%nat -> length spk_pub = 32%nat ->
  length sig = 64%nat -> length v = 32%nat -> keys !! i = Some (id, v) ->
  exists user, serve_user jid (build_upload_prekeys_request reg identity_key sid spk_pub sig keys) i = Some user
    /\ node_to_pre_key_bundle show_node show_error jid user
       = Ok (mkBundle reg (device jid) (Some id) (Some (mkPublicKey v))
               (mkSignedPreKey sid (mkPublicKey spk_pub) sig) (mkPublicKey identity_key)).
Proof.
  intros Hreg Hsid Hid Hik Hspk Hsig Hv Hk. unfold serve_user, build_upload_prekeys_request.
  change (children (build (b_children (builder_new (lit "list")) (map pre_key_node keys)))) with (Some (map pre_key_node keys)).
  cbn [default_or]. rewrite list_lookup_fmap, Hk. cbn [fmap option_fmap option_map]. eexists. split; [reflexivity|].
  set (skey := build (b_children (builder_new (lit "skey")) _)). set (n := mkNode (lit "user") _ _).
  assert (get_optional_child n (lit "error") = None) as H0 by reflexivity.
  assert (node_bytes (get_optional_child n (lit "registration")) = Some (u32_to_be_bytes reg)) as H1 by reflexivity.
  assert (get_optional_child n (lit "keys") = None) as H2 by reflexivity.
  assert (node_bytes (get_optional_child n (lit "identity")) = Some identity_key) as H3 by reflexivity.
  assert (get_optional_child n (lit "key") = Some (pre_key_node (id, v))) as H4 by reflexivity.
  assert (get_optional_child n (lit "skey") = Some skey) as H5 by reflexivity.
  assert (node_bytes (get_optional_child skey (lit "signature")) = Some sig) as H6 by reflexivity.
  assert (forall b, length b = 32%nat -> from_djb_public_key_bytes b = Ok (mkPublicKey b)) as Hdjb.
  { intros b Hb. unfold from_djb_public_key_bytes. by rewrite Hb. }
  unfold node_to_pre_key_bundle, extract_bytes. rewrite H0, H1, H2, H3, H4, H5. cbn [ok_or obind]. unfold u32_to_be_bytes at 1.
  rewrite u32_be_roundtrip, Hik by lia. cbn [Nat.eqb negb].
  rewrite (Hdjb identity_key Hik). cbn [curve_text map_err obind].
  rewrite (pre_key_node_read (lit "key") id v [] Hid Hv : node_to_pre_key (pre_key_node (id, v)) = _). cbn [obind].
  rewrite (Hdjb v Hv). cbn [curve_text map_err obind]. unfold node_to_signed_pre_key.
  rewrite (pre_key_node_read (lit "skey") sid spk_pub [b_leaf "signature" sig] Hsid Hspk : node_to_pre_key skey = _).
  cbn [ok_or obind]. rewrite H6.
  cbn [ok_or obind fst snd]. rewrite Hsig. cbn [Nat.eqb negb obind fst snd]. by rewrite (Hdjb spk_pub Hspk).
Qed.

Context (send_iq : InfoQuery -> outcome ClientIqError Node).

(** What an upload does.  With enough keys on the server nothing happens.
    Otherwise fifty new keys are published under the identifiers that follow
    the first gap in the table, which are stored once the server accepted
    them and read back as the published key pairs; a key that was stored under
    one of those identifiers is replaced, whether or not it is still in use;
    all other entries stay. *)
Theorem upload_pre_keys_spec device rnds count (d : D) g :
  get_server_pre_key_count send_iq = Ok count ->
  1 <= g -> g + 50 <= MAX_PRE_KEY_ID + 1 ->
  (forall j, 1 <= j < g -> exists v, tbl_get j d = Ok (Some v)) -> tbl_get g d = Ok None ->
  length rnds = WANTED_PRE_KEY_COUNT -> Forall (fun r => length r = 32%nat) rnds ->
  let keys := generate_pre_keys g rnds in
  (5 <= count -> upload_pre_keys send_iq device rnds d = (Ok tt, d))
  /\ (count < 5 -> forall e, send_iq (upload_query device keys) = Err e ->
        upload_pre_keys send_iq device rnds d = (Err (UE_Iq e), d))
  /\ (count < 5 -> forall resp, send_iq (upload_query device keys) = Ok resp ->
        exists d', upload_pre_keys send_iq device rnds d = (Ok tt, d')
          /\ (forall i r, rnds !! i = Some r ->
                adapter_get_pre_key (g + Z.of_nat i) d' = Ok (prekey_new (g + Z.of_nat i) (key_pair_generate r)))
          /\ (forall k, ~ (g <= k < g + 50) -> tbl_get k d' = tbl_get k d)).
Proof.
  intros Hc Hg Hm Hall Hgap Hl Hr keys.
  assert (highest_existing_id d = Ok (g - 1)) as Hh by (apply highest_at_gap; [lia|done|done]).
  assert (count < 5 -> upload_pre_keys send_iq device rnds d
    = match map_err UE_Iq (send_iq (upload_query device keys)) with
      | Ok _ => (Ok tt, store_pre_keys keys d) | Err e => (Err e, d) | Panic => (Panic, d) | NoFuel => (NoFuel, d) end) as Hrun.
  { intros Hlt. unfold upload_pre_keys, mbind', mlift. rewrite Hc. cbn [map_err].
    destruct (Z.leb_spec MIN_PRE_KEY_COUNT count) as [Hle|_]; [unfold MIN_PRE_KEY_COUNT in Hle; lia|].
    rewrite Hh. replace (g - 1 + 1) with g by lia. rewrite take_ge by (by rewrite Hl). fold keys.
    destruct keys as [|k ks] eqn:Ek; [|by destruct (send_iq _)].
    destruct rnds as [|r rnds]; [done|]. unfold keys in Ek. cbn [generate_pre_keys] in Ek.
    destruct (Z.ltb_spec MAX_PRE_KEY_ID g); [lia|done]. }
  split; [|split].
  - intros Hge. unfold upload_pre_keys, mbind', mlift. rewrite Hc. cbn [map_err].
    destruct (Z.leb_spec MIN_PRE_KEY_COUNT count) as [_|Hle]; [done|unfold MIN_PRE_KEY_COUNT in Hle; lia].
  - intros Hlt e He. by rewrite (Hrun Hlt), He.
  - intros Hlt resp Hresp. exists (store_pre_keys keys d). rewrite (Hrun Hlt), Hresp. split; [done|].
    unfold WANTED_PRE_KEY_COUNT in Hl. split.
    + intros i r Hi. apply store_readable; [done|apply generate_NoDup| |].
      * apply (list_elem_of_lookup_2 _ i), generate_lookup; [done|]. rewrite Hl. lia.
      * apply key_pair_generate_valid. by apply (Forall_lookup_1 _ _ _ _ Hr Hi).
    + intros k Hk. apply store_other; [done|]. intros Hin. apply generate_ids in Hin. rewrite Hl in Hin. lia.
Qed.

Lemma device_own_identity (ids : E) kd :
  valid_pair (kd_identity_key kd) ->
  @get_identity_key_pair _ (device_identities show_error) (mkIdentityDevice (kd_identity_key kd) (kd_registration_id kd) ids)
  = Ok (mkIdentityKeyPair (kp_public (kd_identity_key kd)) (kp_private (kd_identity_key kd))).
Proof.
  intros Hv. cbn. unfold device_identity_key_pair, private_serialize. cbn [dev_identity_key].
  rewrite private_roundtrip by apply Hv. cbn. rewrite (vp_public _ Hv). by destruct (kp_private (kd_identity_key kd)).
Qed.

(** The device's keys and a stored one-time key make a bundle it can answer. *)
Lemma device_published kd (ids : E) now jid (d : D) pid kp :
  valid_pair (kd_identity_key kd) -> valid_pair (kd_signed_pre_key kd) -> valid_pair kp -> 0 <= now ->
  0 <= kd_signed_pre_key_id kd < 2 ^ 32 -> 0 <= pid < 2 ^ 32 ->
  verify_signature (kp_public (kd_identity_key kd)) (public_serialize (kp_public (kd_signed_pre_key kd)))
    (kd_signed_pre_key_signature kd) = true ->
  adapter_get_pre_key pid d = Ok (prekey_new pid kp) ->
  @published HC _ _ _ (device_identities show_error) device_prekeys device_signed_prekeys
    (mkBundle (kd_registration_id kd) (device jid) (Some pid) (Some (mkPublicKey (pk_bytes (kp_public kp))))
       (mkSignedPreKey (kd_signed_pre_key_id kd) (mkPublicKey (pk_bytes (kp_public (kd_signed_pre_key kd)))) (kd_signed_pre_key_signature kd))
       (mkPublicKey (pk_bytes (kp_public (kd_identity_key kd)))))
    (mkIdentityDevice (kd_identity_key kd) (kd_registration_id kd) ids) d
    (mkSignedDevice (kd_signed_pre_key kd) (kd_signed_pre_key_id kd) (kd_signed_pre_key_signature kd) now)
    (mkIdentityKeyPair (kp_public (kd_identity_key kd)) (kp_private (kd_identity_key kd))) (kd_signed_pre_key kd) (Some kp).
Proof.
  intros Hvi Hvs Hvk Hn Hsid Hpid Hsig Hget. split.
  - by apply device_own_identity.
  - by destruct (kd_identity_key kd).
  - by exists (kd_registration_id kd).
  - cbn. by destruct (kp_public (kd_identity_key kd)).
  - cbn. by destruct (kp_public (kd_signed_pre_key kd)).
  - done.
  - cbn. unfold is_u32. lia.
  - exists now. apply (device_signed_prekey (mkSignedDevice (kd_signed_pre_key kd) (kd_signed_pre_key_id kd)
      (kd_signed_pre_key_signature kd) now)); done.
  - exact Hsig.
  - cbn. by destruct (kp_public kp).
  - cbn. split; [unfold is_u32; lia|]. by split.
Qed.

(** A served bundle can be answered.  When the server hands out the parts of
    an upload with any of its keys, the bundle read from the stanza is one the
    device published in the sense the first message needs: the identity, the
    signed pre-key and the one-time pre-key are those of the device's stores
    after the upload, and the signature is right. *)
Theorem uploaded_bundle_published kd ids now jid keys (d : D) i pid kp :
  valid_pair (kd_identity_key kd) -> valid_pair (kd_signed_pre_key kd) -> valid_pair kp -> 0 <= now ->
  0 <= kd_registration_id kd < 2 ^ 32 -> 0 <= kd_signed_pre_key_id kd < 2 ^ 24 -> 0 <= pid < 2 ^ 24 ->
  length (kd_signed_pre_key_signature kd) = 64%nat ->
  verify_signature (kp_public (kd_identity_key kd)) (public_serialize (kp_public (kd_signed_pre_key kd)))
    (kd_signed_pre_key_signature kd) = true ->
  NoDup keys.*1 -> keys !! i = Some (pid, kp) ->
  exists request user bundle,
    iq_content (upload_query kd keys) = Some (NC_Nodes request) /\ serve_user jid request i = Some user
    /\ node_to_pre_key_bundle show_node show_error jid user = Ok bundle
    /\ @published HC _ _ _ (device_identities show_error) device_prekeys device_signed_prekeys bundle
         (mkIdentityDevice (kd_identity_key kd) (kd_registration_id kd) (ids : E)) (store_pre_keys keys d)
         (mkSignedDevice (kd_signed_pre_key kd) (kd_signed_pre_key_id kd) (kd_signed_pre_key_signature kd) now)
         (mkIdentityKeyPair (kp_public (kd_identity_key kd)) (kp_private (kd_identity_key kd)))
         (kd_signed_pre_key kd) (Some kp).
Proof.
  intros Hvi Hvs Hvk Hn Hreg Hsid Hpid Hsl Hsig Hnd Hi. eexists.
  destruct (served_bundle jid (kd_registration_id kd) (pk_bytes (kp_public (kd_identity_key kd))) (kd_signed_pre_key_id kd)
    (pk_bytes (kp_public (kd_signed_pre_key kd))) (kd_signed_pre_key_signature kd)
    (map (fun k => (k.1, pk_bytes (kp_public k.2))) keys) i pid (pk_bytes (kp_public kp)))
    as (user & Hu & Hb); try done; try by apply valid_public_length.
  { by rewrite list_lookup_fmap, Hi. }
  exists user. eexists. split; [reflexivity|]. split; [exact Hu|]. split; [exact Hb|].
  apply device_published; try done; try lia. apply store_readable; [done|done| |done]. by apply (list_elem_of_lookup_2 _ i).
Qed.
End Served.

(** ** Witnesses *)

Definition toy_send_iq (q : InfoQuery) : outcome ClientIqError Node :=
  Ok (mkNode (lit "iq") [] (Some (NC_Nodes [mkNode (lit "count") [(lit "value", lit "1")] None]))).

Definition toy_key_device : KeyDevice := mkKeyDevice 44 (toy_pair 3) 8 (toy_pair 4) toy_signature.

(** The first key was used up, the second is still on the server. *)
Definition used_table : Z -> option bytes :=
  fun id => if id =? 2 then Some (@pkr_encode toy_prekey_pb (new_pre_key_record 2 (toy_pair 5))) else None.

Lemma toy_reliable : forall k v (d : Z -> option bytes), exists d', @tbl_put _ _ (toy_table Z) k v d = (Ok tt, d').
Proof. intros. by eexists. Qed.

Lemma upload_pre_keys_spec_witness :
  @adapter_get_pre_key sum_curve toy_prekey_pb _ (toy_table Z) 2 used_table = Ok (@prekey_new 2 (toy_pair 5))
  /\ exists d', @upload_pre_keys sum_curve toy_prekey_pb _ (toy_table Z) toy_send_iq toy_key_device (replicate 50 (replicate 32 6)) used_table
       = (Ok tt, d')
     /\ @adapter_get_pre_key sum_curve toy_prekey_pb _ (toy_table Z) 2 d' = Ok (@prekey_new 2 (toy_pair 6)).
Proof.
  split; [vm_compute; reflexivity|].
  destruct (@upload_pre_keys_spec sum_curve toy_prekey_pb _ (toy_table Z) toy_reliable toy_send_iq toy_key_device
    (replicate 50 (replicate 32 6)) 1 used_table 1) as (_ & _ & H);
    [vm_compute; reflexivity|lia|vm_compute; discriminate|intros j Hj; lia|reflexivity|reflexivity|by repeat constructor|].
  destruct (H ltac:(lia) _ eq_refl) as (d' & E & Hk & _). exists d'. split; [exact E|].
  apply (Hk 1%nat (replicate 32 6)). reflexivity.
Defined.

Lemma uploaded_bundle_published_witness :
  exists request user bundle,
    iq_content (upload_query toy_key_device [(9, toy_pair 5)]) = Some (NC_Nodes request)
    /\ serve_user (jid_new (lit "bob") DEFAULT_USER_SERVER) request 0 = Some user
    /\ node_to_pre_key_bundle (fun _ => []) (fun _ => []) (jid_new (lit "bob") DEFAULT_USER_SERVER) user = Ok bundle
    /\ bu_pre_key_id bundle = Some 9.
Proof.
  destruct (@uploaded_bundle_published sum_curve toy_prekey_pb _ _ (toy_table Z) (toy_table str) (fun _ => []) (fun _ => [])
    toy_reliable toy_key_device (fun _ => None) 1000 (jid_new (lit "bob") DEFAULT_USER_SERVER) [(9, toy_pair 5)] (fun _ => None) 0 9 (toy_pair 5))
    as (request & user & bundle & H1 & H2 & H3 & _);
    [by split|by split|by split|lia|split; [vm_compute; discriminate|vm_compute; reflexivity]
    |split; [vm_compute; discriminate|vm_compute; reflexivity]|lia|vm_compute; reflexivity|vm_compute; reflexivity
    |by repeat constructor; apply not_elem_of_nil|reflexivity|].
  exists request, user, bundle. split; [exact H1|]. split; [exact H2|]. split; [exact H3|].
  injection H1 as <-. vm_compute in H2. injection H2 as <-. vm_compute in H3. injection H3 as <-. reflexivity.
Defined.
