(* ===== verification/Persistence.v ===== *)
(** * Persistence: [src/store/{mod,persistence_manager}.rs] and the device row of
      [storages/sqlite-storage/src/sqlite_store.rs]

    How the device's data reaches the data base and comes back: the row it is
    written to, the statements over the table, the manager that keeps the
    device in memory and saves it in the background.  A statement's verdict
    (connection, execution) is an argument; one that fails changes nothing.
    The theorems show that a row gives the device back, that once the saver is
    idle and nothing is marked as changed the row is the device in memory
    unless a save failed, and that a failed save is never repeated. *)

From stdpp Require Import gmap.
From S2P Require Import Prelude RustStd Curve Jid SessionRatchet Noise Device Pairing.

(** ** Errors *)

Inductive StoreError :=
| ST_Io (s : str) | ST_Serialization (s : str) | ST_NotFound (s : str) | ST_Backend (s : str) | ST_Connection (s : str)
| ST_Database (s : str) | ST_Migration (s : str) | ST_DeviceNotFound (id : i32).

Definition show_i32 (n : i32) : str := if n <? 0 then lit "-" ++ show_uint (- n) else show_uint n.

Definition show_store_error (e : StoreError) : str :=
  match e with
  | ST_Io s => lit "I/O error: " ++ s
  | ST_Serialization s => lit "Serialization/deserialization error: " ++ s
  | ST_NotFound s => lit "Item not found: " ++ s
  | ST_Backend s => lit "Database backend error: " ++ s
  | ST_Connection s => lit "Database connection error: " ++ s
  | ST_Database s => lit "Database operation error: " ++ s
  | ST_Migration s => lit "Migration error: " ++ s
  | ST_DeviceNotFound id => lit "Device with ID " ++ show_i32 id ++ lit " not found"
  end.

Definition db_err (e : StoreError) : StoreError := ST_Database (show_store_error e).

(** ** The row of a device *)

Record DeviceRow := mkDeviceRow {
  row_lid : str; row_pn : str; row_registration_id : i32; row_noise_key : bytes; row_identity_key : bytes;
  row_signed_pre_key : bytes; row_signed_pre_key_id : i32; row_signed_pre_key_signature : bytes;
  row_adv_secret_key : bytes; row_account : option bytes; row_push_name : str; row_app_version_primary : i32;
  row_app_version_secondary : i32; row_app_version_tertiary : i64; row_app_version_last_fetched_ms : i64;
  row_edge_routing_info : option bytes
}.

(** Rows by their id. *)
Abbreviation DeviceTable := (gmap Z DeviceRow).

Section Table.
Context `{HC : !Curve25519, HP : !AdvProto}.

Definition serialize_keypair (k : KeyPair) : bytes := key_pair_bytes k.
Definition deserialize_keypair (b : bytes) : outcome StoreError KeyPair :=
  key_pair_of_bytes (fun n => ST_Serialization (lit "Invalid KeyPair length: " ++ show_uint (Z.of_nat n)))
    (fun e => ST_Serialization (show_curve_error e)) b.

Definition jid_text (j : option Jid) : str := match j with Some j => jid_to_string j | None => [] end.

Definition device_row (d : Device) : DeviceRow :=
  mkDeviceRow (jid_text (d_lid d)) (jid_text (d_pn d)) (cast_i32 (d_registration_id d)) (serialize_keypair (d_noise_key d))
    (serialize_keypair (d_identity_key d)) (serialize_keypair (d_signed_pre_key d)) (cast_i32 (d_signed_pre_key_id d))
    (d_signed_pre_key_signature d) (d_adv_secret_key d) (adv_signed_encode <$> d_account d) (d_push_name d)
    (cast_i32 (d_app_version_primary d)) (cast_i32 (d_app_version_secondary d)) (d_app_version_tertiary d)
    (d_app_version_last_fetched_ms d) (d_edge_routing_info d).

Definition text_jid (s : str) : option Jid := if (length s =? 0)%nat then None else to_option (from_str s).

Definition row_device (r : DeviceRow) : outcome StoreError Device :=
  let id := text_jid (row_pn r) in
  let lid := text_jid (row_lid r) in
  let? noise_key := deserialize_keypair (row_noise_key r) in
  let? identity_key := deserialize_keypair (row_identity_key r) in
  let? signed_pre_key := deserialize_keypair (row_signed_pre_key r) in
  if negb (length (row_signed_pre_key_signature r) =? 64)%nat
  then Err (ST_Serialization (lit "Invalid signed_pre_key_signature length"))
  else if negb (length (row_adv_secret_key r) =? 32)%nat then Err (ST_Serialization (lit "Invalid adv_secret_key length"))
  else
    let? account :=
      match row_account r with
      | Some data => match adv_signed_decode data with inr a => Ok (Some a) | inl e => Err (ST_Serialization e) end
      | None => Ok None
      end in
    let tertiary := row_app_version_tertiary r in
    Ok (mkDevice id lid (cast_u32 (row_registration_id r)) noise_key identity_key signed_pre_key
          (cast_u32 (row_signed_pre_key_id r)) (row_signed_pre_key_signature r) (row_adv_secret_key r) account (row_push_name r)
          (cast_u32 (row_app_version_primary r)) (cast_u32 (row_app_version_secondary r))
          (if in_range 0 (2 ^ 32 - 1) tertiary then tertiary else 0) (row_app_version_last_fetched_ms r) DEVICE_PROPS
          (row_edge_routing_info r)).

(** ** Statements; [io] is the verdict of the pool and of the execution *)

Definition run {A} (io : outcome StoreError unit) (effect : DeviceTable -> A * DeviceTable) : comp DeviceTable StoreError A :=
  fun t => match io with
           | Ok _ => let '(a, t) := effect t in (Ok a, t)
           | Err e => (Err e, t)
           | Panic => (Panic, t)
           | NoFuel => (NoFuel, t)
           end.

Definition save_device_data_for_device io (device_id : i32) (d : Device) : comp DeviceTable StoreError unit :=
  run io (fun t => (tt, <[device_id := device_row d]> t)).

(** [rowid]: the id the data base gives the new row; [join_error]: the text of a
    panic in the blocking thread. *)
Definition create_new_device io (rowid : i32) rnds (join_error : str) : comp DeviceTable StoreError i32 :=
  match device_new rnds with
  | Ok nd =>
      run io (fun t => (rowid, <[rowid := mkDeviceRow [] [] (cast_i32 (d_registration_id nd)) (key_pair_bytes (d_noise_key nd))
        (key_pair_bytes (d_identity_key nd)) (key_pair_bytes (d_signed_pre_key nd)) (cast_i32 (d_signed_pre_key_id nd))
        (d_signed_pre_key_signature nd) (d_adv_secret_key nd) None (d_push_name nd) (cast_i32 (d_app_version_primary nd))
        (cast_i32 (d_app_version_secondary nd)) (d_app_version_tertiary nd) (d_app_version_last_fetched_ms nd) None]> t))
  | _ => mfail (ST_Database join_error)
  end.

Definition device_exists io (device_id : i32) : comp DeviceTable StoreError bool :=
  run io (fun t => (match t !! device_id with Some _ => true | None => false end, t)).

Definition load_device_data_for_device io (device_id : i32) : comp DeviceTable StoreError (option Device) :=
  let! row := run io (fun t => (t !! device_id, t)) in
  match row with
  | Some r => let! d := mlift (row_device r) in mret (Some d)
  | None => mret None
  end.

(** ** The manager *)

Definition with_db_err {A} (m : comp DeviceTable StoreError A) : comp DeviceTable StoreError A :=
  fun t => let '(o, t) := m t in (map_err db_err o, t).

(** [PersistenceManager::new]: the device it starts from.  [ios]: the verdicts of
    the three statements; [rnds'] the random bytes of a default device. *)
Definition pm_new (ios : outcome StoreError unit * outcome StoreError unit * outcome StoreError unit) (device_id rowid : i32)
    rnds (join_error : str) rnds' : comp DeviceTable StoreError Device :=
  let '(io1, io2, io3) := ios in
  let! exists_ := with_db_err (device_exists io1 device_id) in
  (if negb exists_ then let! _ := with_db_err (create_new_device io2 rowid rnds join_error) in mret tt else mret tt) ;;
  let! device_data_opt := with_db_err (load_device_data_for_device io3 device_id) in
  match device_data_opt with
  | Some serializable_device => mret serializable_device
  | None => match device_new rnds' with Ok d => mret d | _ => mpanic end
  end.

Inductive Saver := SaverIdle | SaverFlagTaken | SaverWriting (snapshot : Device).

(** [pm_writing]: a modification is made and its flag not set yet; the write lock
    is held meanwhile. *)
Record PmState := mkPmState {
  pm_device : Device; pm_dirty : bool; pm_writing : bool; pm_saver : Saver; pm_table : DeviceTable
}.

Definition modify_device (f : Device -> Device) (s : PmState) : PmState :=
  mkPmState (f (pm_device s)) (pm_dirty s) true (pm_saver s) (pm_table s).
Definition mark_dirty (s : PmState) : PmState :=
  mkPmState (pm_device s) true false (pm_saver s) (pm_table s).
Definition process_command (now : i64) (c : DeviceCommand) (s : PmState) : PmState :=
  mark_dirty (modify_device (apply_command_to_device now c) s).

(** [save_to_disk], in the steps other tasks can come between *)
Definition take_flag (s : PmState) : PmState :=
  if pm_dirty s then mkPmState (pm_device s) false (pm_writing s) SaverFlagTaken (pm_table s) else s.
Definition take_snapshot (s : PmState) : PmState :=
  mkPmState (pm_device s) (pm_dirty s) (pm_writing s) (SaverWriting (pm_device s)) (pm_table s).
Definition write_snapshot io (device_id : i32) (snapshot : Device) (s : PmState) : outcome StoreError unit * PmState :=
  let '(o, t) := with_db_err (save_device_data_for_device io device_id snapshot) (pm_table s) in
  (o, mkPmState (pm_device s) (pm_dirty s) (pm_writing s) SaverIdle t).

(** [failed]: did this step report an error *)
Inductive pm_step (device_id : i32) : bool -> PmState -> PmState -> Prop :=
| PS_modify f s : pm_writing s = false -> pm_step device_id false s (modify_device f s)
| PS_mark s : pm_writing s = true -> pm_step device_id false s (mark_dirty s)
| PS_take s : pm_saver s = SaverIdle -> pm_step device_id false s (take_flag s)
| PS_snapshot s : pm_saver s = SaverFlagTaken -> pm_writing s = false -> pm_step device_id false s (take_snapshot s)
| PS_write io snapshot o s s' : pm_saver s = SaverWriting snapshot -> write_snapshot io device_id snapshot s = (o, s') ->
    pm_step device_id (match o with Ok _ => false | _ => true end) s s'.

(** The steps of the saver alone. *)
Inductive saver_step (device_id : i32) : PmState -> PmState -> Prop :=
| SS_take s : pm_saver s = SaverIdle -> saver_step device_id s (take_flag s)
| SS_snapshot s : pm_saver s = SaverFlagTaken -> pm_writing s = false -> saver_step device_id s (take_snapshot s)
| SS_write io snapshot o s s' : pm_saver s = SaverWriting snapshot -> write_snapshot io device_id snapshot s = (o, s') ->
    saver_step device_id s s'.

(** ** Rows read back *)

(** A device whose addresses print and parse. *)
Record device_storable (d : Device) : Prop := {
  ds_wf : device_wf d;
  ds_pn : match d_pn d with Some j => jid_wf j = true | None => True end;
  ds_lid : match d_lid d with Some j => jid_wf j = true | None => True end
}.

Lemma cast_u32_i32 z : 0 <= z < 2 ^ 32 -> cast_u32 (cast_i32 z) = z.
Proof.
  intros Hz. unfold cast_u32, cast_i32, wrap.
  rewrite Zminus_mod_idemp_l. replace (z + 2 ^ 31 - 2 ^ 31) with z by lia. by apply Z.mod_small.
Qed.

Lemma text_jid_text o : match o with Some j => jid_wf j = true | None => True end -> text_jid (jid_text o) = o.
Proof.
  destruct o as [j|]; [|done]. intros Hj%jid_print_parse. unfold text_jid, jid_text.
  destruct (jid_to_string j) as [|x l]; [vm_compute in Hj; discriminate|]. cbn [length Nat.eqb]. by rewrite Hj.
Qed.

Lemma keypair_roundtrip k : valid_pair k -> deserialize_keypair (serialize_keypair k) = Ok k.
Proof. apply key_pair_bytes_roundtrip. Qed.

(** A row gives its device back, with the standard properties. *)
Lemma row_device_row d : device_storable d -> row_device (device_row d) = Ok (with_props DEVICE_PROPS d).
Proof.
  intros [ [Hr Hi Hn Hid Hs Hsl _ Hal (Hv1 & Hv2 & Hv3)] Hp Hl]. unfold row_device, device_row.
  cbn [row_lid row_pn row_registration_id row_noise_key row_identity_key row_signed_pre_key row_signed_pre_key_id
    row_signed_pre_key_signature row_adv_secret_key row_account row_push_name row_app_version_primary
    row_app_version_secondary row_app_version_tertiary row_app_version_last_fetched_ms row_edge_routing_info].
  rewrite !keypair_roundtrip, !text_jid_text, !cast_u32_i32 by done. cbn [obind]. rewrite Hsl, Hal. cbn [Nat.eqb negb].
  assert (in_range 0 (2 ^ 32 - 1) (d_app_version_tertiary d) = true) as -> by (unfold in_range; lia).
  destruct (d_account d) as [a|] eqn:Ha; cbn [fmap option_fmap option_map obind];
    rewrite ?adv_signed_decode_encode; cbn [obind]; unfold with_props; by rewrite Ha.
Qed.

Definition fine : outcome StoreError unit := Ok tt.

Lemma load_row d id t : device_storable d -> t !! id = Some (device_row d) ->
  load_device_data_for_device fine id t = (Ok (Some (with_props DEVICE_PROPS d)), t).
Proof.
  intros Hd Ht. unfold load_device_data_for_device, mbind', run, fine. rewrite Ht.
  unfold mlift. by rewrite row_device_row.
Qed.

Lemma saved_loads d id t : device_storable d ->
  exists t', save_device_data_for_device fine id d t = (Ok tt, t')
    /\ load_device_data_for_device fine id t' = (Ok (Some (with_props DEVICE_PROPS d)), t').
Proof.
  intros Hd. eexists. split; [reflexivity|]. apply load_row; [done|]. apply lookup_insert_eq.
Qed.

(** ** The saver *)

(** What is on disk is what is in memory, or someone still has to write. *)
Definition pm_inv (id : i32) (s : PmState) : Prop :=
  (pm_writing s = true \/ pm_dirty s = true \/ pm_saver s = SaverFlagTaken
   \/ match pm_saver s with
      | SaverWriting d => d = pm_device s
      | _ => pm_table s !! id = Some (device_row (pm_device s))
      end).

Lemma pm_step_inv id s s' : pm_step id false s s' -> pm_inv id s -> pm_inv id s'.
Proof.
  unfold pm_inv. remember false as fl eqn:Hf. intros Hst. destruct Hst as [f s Hw|s Hw|s Hsv|s Hsv Hw|io d o s s' Hsv He]; intros Hi.
  - by left.
  - right. by left.
  - unfold take_flag. rewrite Hsv in Hi. destruct (pm_dirty s) eqn:Hd; cbn; [tauto|].
    rewrite Hd, Hsv. destruct Hi as [?|[?|[?|?] ] ]; [tauto|done|done|tauto].
  - cbn. tauto.
  - unfold write_snapshot, with_db_err, save_device_data_for_device, run in He.
    destruct io as [ []| | |]; injection He as <- <-; cbn [map_err] in Hf; try discriminate. cbn.
    rewrite Hsv in Hi. destruct Hi as [?|[?|[?|Hi] ] ]; [tauto|tauto|done|]. rewrite Hi, lookup_insert_eq. tauto.
Qed.

(** Runs in which no save fails. *)
Lemma pm_reach_inv id s s' : rtc (pm_step id false) s s' -> pm_inv id s -> pm_inv id s'.
Proof. induction 1; [done|]. eauto using pm_step_inv. Qed.

Definition quiescent (s : PmState) : Prop := pm_writing s = false /\ pm_dirty s = false /\ pm_saver s = SaverIdle.

Lemma quiescent_saved id s : pm_inv id s -> quiescent s -> pm_table s !! id = Some (device_row (pm_device s)).
Proof. unfold pm_inv. intros Hi (Hw & Hd & Hs). rewrite Hw, Hd, Hs in Hi. destruct Hi as [?|[?|[?|?] ] ]; done. Qed.

(** From any state the saver can reach rest without a failure. *)
Lemma saver_finishes id s : pm_writing s = false ->
  exists s', rtc (pm_step id false) s s' /\ quiescent s' /\ pm_device s' = pm_device s.
Proof.
  assert (forall s d, pm_writing s = false -> pm_saver s = SaverWriting d ->
    exists s', pm_step id false s s' /\ pm_saver s' = SaverIdle /\ pm_writing s' = false /\ pm_device s' = pm_device s
      /\ pm_dirty s' = pm_dirty s) as Hwrite.
  { intros s0 d Hw Hs. eexists. split; [apply (PS_write id (Ok tt) d (Ok tt) s0); [done|reflexivity]|]. done. }
  assert (forall s, pm_writing s = false -> pm_saver s = SaverFlagTaken ->
    exists s', rtc (pm_step id false) s s' /\ pm_saver s' = SaverIdle /\ pm_writing s' = false
      /\ pm_device s' = pm_device s /\ pm_dirty s' = pm_dirty s) as Htaken.
  { intros s0 Hw Hs. destruct (Hwrite (take_snapshot s0) (pm_device s0)) as (s1 & H1 & ? & ? & ? & ?); [done..|].
    exists s1. split; [|done]. eapply rtc_l; [by apply PS_snapshot|]. by apply rtc_once. }
  assert (forall s, pm_writing s = false -> pm_saver s = SaverIdle ->
    exists s', rtc (pm_step id false) s s' /\ quiescent s' /\ pm_device s' = pm_device s) as Hidle.
  { intros s0 Hw Hs. destruct (pm_dirty s0) eqn:Hd.
    - destruct (Htaken (take_flag s0)) as (s1 & H1 & ? & ? & Hdev & Hdirty).
      + unfold take_flag. by rewrite Hd.
      + unfold take_flag. by rewrite Hd.
      + exists s1. split; [eapply rtc_l; [by apply PS_take|exact H1]|].
        unfold take_flag in Hdev, Hdirty. rewrite Hd in Hdev, Hdirty. done.
    - exists s0. split; [apply rtc_refl|]. done. }
  intros Hw. destruct (pm_saver s) as [| |d] eqn:Hs.
  - by apply Hidle.
  - destruct (Htaken s Hw Hs) as (s1 & H1 & ? & ? & Hdev & _). destruct (Hidle s1) as (s2 & H2 & ? & Hdev'); [done..|].
    exists s2. split; [by etrans|]. split; [done|congruence].
  - destruct (Hwrite s d Hw Hs) as (s1 & H1 & ? & ? & Hdev & _). destruct (Hidle s1) as (s2 & H2 & ? & Hdev'); [done..|].
    exists s2. split; [by eapply rtc_l|]. split; [done|congruence].
Qed.

(** ** Starting *)

Lemma created_row rnds nd : device_new rnds = Ok nd ->
  forall io rowid join_error, create_new_device io rowid rnds join_error = run io (fun t => (rowid, <[rowid := device_row nd]> t)).
Proof.
  intros Hn io rowid je. unfold create_new_device. rewrite Hn. unfold device_new in Hn.
  destruct rnds as [ [ [ [a b] c] e] f]. unfold calculate_signature in Hn. rewrite xsign_length in Hn. cbn [Nat.eqb] in Hn.
  by injection Hn as <-.
Qed.

Lemma device_row_props p d : device_row (with_props p d) = device_row d.
Proof. by destruct d. Qed.

Lemma device_new_storable a b c e f :
  length a = 32%nat -> length b = 32%nat -> length e = 32%nat -> length f = 32%nat ->
  exists d, device_new (a, b, c, e, f) = Ok d /\ device_storable d.
Proof.
  intros Ha Hb He Hf. destruct (device_new_wf a b c e f) as (d & Hd & Hw & Hp & _); [done..|].
  exists d. split; [done|]. split; [done|by rewrite Hp|].
  unfold device_new, calculate_signature in Hd. rewrite xsign_length in Hd. cbn [Nat.eqb] in Hd. by injection Hd as <-.
Qed.

(** The random bytes [Device::new] draws. *)
Definition seeds_ok (rnds : bytes * bytes * bytes * bytes * bytes) : Prop :=
  let '(a, b, _, e, f) := rnds in
  length a = 32%nat /\ length b = 32%nat /\ length e = 32%nat /\ length f = 32%nat.

Lemma pm_start id rnds je rnds' t :
  seeds_ok rnds -> (t !! id = None \/ exists d, device_storable d /\ t !! id = Some (device_row d)) ->
  exists d0 t0, pm_new (fine, fine, fine) id id rnds je rnds' t = (Ok d0, t0) /\ t0 !! id = Some (device_row d0).
Proof.
  destruct rnds as [ [ [ [a b] c] e] f]. intros (Ha & Hb & He & Hf) Ht.
  unfold pm_new, device_exists, with_db_err, mbind', run, fine. destruct Ht as [Ht|(d & Hd & Ht)]; rewrite Ht; cbn [map_err negb].
  - destruct (device_new_storable a b c e f) as (nd & Hn & Hs); [done..|].
    rewrite (created_row _ _ Hn). cbn [run map_err]. unfold mret.
    rewrite (load_row nd) by (done || apply lookup_insert_eq). cbn [map_err]. eexists _, _. split; [reflexivity|].
    by rewrite device_row_props, lookup_insert_eq.
  - unfold mret. rewrite (load_row d) by done. cbn [map_err]. eexists _, _. split; [reflexivity|]. by rewrite device_row_props.
Qed.

(** C27: What is stored is what a restart reads.  The manager starts on an empty
    table or on a readable row, whatever commands and other modifications run
    and however the background saver's steps fall between them; as long as no
    save fails, whenever nothing is marked as changed and the saver is idle,
    loading the row gives the device in memory (with the standard device
    properties, which are not stored).  And unless a modification is halfway,
    the saver can always get there. *)
Theorem persistence_durable id rnds je rnds' t d0 t0 s :
  seeds_ok rnds -> (t !! id = None \/ exists d, device_storable d /\ t !! id = Some (device_row d)) ->
  pm_new (fine, fine, fine) id id rnds je rnds' t = (Ok d0, t0) ->
  rtc (pm_step id false) (mkPmState d0 false false SaverIdle t0) s ->
  (quiescent s -> device_storable (pm_device s) ->
     load_device_data_for_device fine id (pm_table s) = (Ok (Some (with_props DEVICE_PROPS (pm_device s))), pm_table s))
  /\ (pm_writing s = false -> exists s', rtc (pm_step id false) s s' /\ quiescent s' /\ pm_device s' = pm_device s).
Proof.
  intros Hr Ht Hn Hst. split; [|apply saver_finishes]. intros Hq Hd. apply load_row; [done|].
  apply (quiescent_saved id); [|done]. refine (pm_reach_inv _ _ _ Hst _).
  destruct (pm_start id rnds je rnds' t Hr Ht) as (d1 & t1 & Hn' & Hrow). rewrite Hn in Hn'. injection Hn' as -> ->.
  unfold pm_inv. tauto.
Qed.

(** ** A save that fails *)

Lemma saver_keeps id s s' : saver_step id s s' -> quiescent s -> s' = s.
Proof.
  intros Hst (Hw & Hd & Hs). destruct Hst as [s _|s Hs'|io d o s s' Hs']; [|congruence..]. unfold take_flag. by rewrite Hd.
Qed.

Lemma saver_keeps_rtc id s s' : rtc (saver_step id) s s' -> quiescent s -> s' = s.
Proof.
  induction 1 as [s|s s1 s2 H1 _ IH]; intros Hq; [done|]. apply saver_keeps in H1; [|done]. subst. by apply IH.
Qed.

(** A failed save is not made up for.  When the save of a command's effect
    fails, the flag is already cleared and the saver comes to rest: the table
    still has the old row, and however often the saver wakes up afterwards it
    writes nothing, until some later modification sets the flag again. *)
Theorem failed_save_forgotten id now c e s :
  quiescent s ->
  exists s', write_snapshot (Err e) id (apply_command_to_device now c (pm_device s))
               (take_snapshot (take_flag (process_command now c s))) = (Err (db_err e), s')
    /\ pm_device s' = apply_command_to_device now c (pm_device s) /\ quiescent s'
    /\ forall s'', rtc (saver_step id) s' s'' -> pm_table s'' = pm_table s /\ pm_dirty s'' = false.
Proof.
  intros (Hw & Hd & Hs). eexists. split; [reflexivity|]. cbn. split; [done|]. split; [done|].
  intros s'' Hst. apply saver_keeps_rtc in Hst; [|done]. by subst.
Qed.

(** [create] does not know the id of the store it is called on: for a store of
    another id than the row the data base makes, the manager starts from a
    device that is stored nowhere and not marked as changed. *)
Lemma created_elsewhere id rowid rnds je rnds' (t : DeviceTable) :
  seeds_ok rnds -> seeds_ok rnds' -> t !! id = None -> rowid <> id ->
  exists d t0, pm_new (fine, fine, fine) id rowid rnds je rnds' t = (Ok d, t0) /\ device_new rnds' = Ok d
    /\ t0 !! id = None /\ is_Some (t0 !! rowid).
Proof.
  destruct rnds as [ [ [ [a b] c] e] f], rnds' as [ [ [ [a' b'] c'] e'] f']. intros (Ha & Hb & He & Hf) (Ha' & Hb' & He' & Hf') Ht Hne.
  destruct (device_new_storable a b c e f) as (nd & Hn & _); [done..|].
  destruct (device_new_storable a' b' c' e' f') as (nd' & Hn' & _); [done..|].
  unfold pm_new, device_exists, with_db_err, mbind', run, fine. rewrite Ht. cbn [map_err negb].
  rewrite (created_row _ _ Hn). cbn [run map_err]. unfold mret, load_device_data_for_device, mbind', run.
  rewrite lookup_insert_ne by done. rewrite Ht. cbn [map_err]. unfold mret. cbn [map_err]. rewrite Hn'.
  eexists _, _. split; [reflexivity|]. split; [done|]. rewrite lookup_insert_ne, lookup_insert_eq by done. by split.
Qed.
End Table.

(** ** Witnesses *)

Definition toy_seeds : bytes * bytes * bytes * bytes * bytes :=
  (replicate 32 1, replicate 32 2, replicate 32 3, replicate 32 4, replicate 32 5).

Definition toy_start : outcome StoreError Device * DeviceTable :=
  @pm_new sum_curve toy_adv (fine, fine, fine) 1 1 toy_seeds [] toy_seeds ∅.

Lemma toy_start_ok : exists d0 t0, toy_start = (Ok d0, t0) /\ @device_storable sum_curve d0.
Proof.
  destruct (@device_new_storable sum_curve (replicate 32 1) (replicate 32 2) (replicate 32 3) (replicate 32 4) (replicate 32 5))
    as (d & Hd & Hs); [reflexivity..|].
  eexists _, _. split; [vm_compute; reflexivity|]. vm_compute in Hd. injection Hd as <-. exact Hs.
Qed.

Lemma command_run `{HP : !AdvProto} id now c s : pm_writing s = false -> rtc (pm_step id false) s (process_command now c s).
Proof. intros Hw. eapply rtc_l; [by apply PS_modify|]. apply rtc_once. by apply PS_mark. Qed.

Lemma persistence_durable_witness :
  exists d0 s, toy_start.1 = Ok d0 /\ d_push_name (pm_device s) = lit "Ana"
    /\ @load_device_data_for_device sum_curve toy_adv fine 1 (pm_table s)
       = (Ok (Some (with_props DEVICE_PROPS (apply_command_to_device 0 (SetPushName (lit "Ana")) d0))), pm_table s).
Proof.
  destruct toy_start_ok as (d0 & t0 & H0 & Hs).
  pose proof (@command_run toy_adv 1 0 (SetPushName (lit "Ana")) (mkPmState d0 false false SaverIdle t0) eq_refl) as Hc.
  destruct (@saver_finishes toy_adv 1 (process_command 0 (SetPushName (lit "Ana")) (mkPmState d0 false false SaverIdle t0)) eq_refl)
    as (s & Hr & Hq & Hdev).
  exists d0, s. split; [by rewrite H0|]. split; [rewrite Hdev; by destruct d0|].
  destruct (@persistence_durable sum_curve toy_adv 1 toy_seeds [] toy_seeds ∅ d0 t0 s) as [H _].
  - by split_and!.
  - by left.
  - exact H0.
  - etrans; [exact Hc|exact Hr].
  - rewrite H; [by rewrite Hdev|exact Hq|]. rewrite Hdev. destruct Hs as [Hw Hp Hl]. split.
    + apply apply_command_wf; [discriminate|exact Hw].
    + by destruct d0.
    + by destruct d0.
Defined.

Lemma failed_save_forgotten_witness :
  exists d0 t0 s', toy_start = (Ok d0, t0) /\ d_push_name (pm_device s') = lit "Ana"
    /\ forall s'', rtc (@saver_step toy_adv 1) s' s'' -> pm_table s'' = t0 /\ pm_dirty s'' = false.
Proof.
  destruct toy_start_ok as (d0 & t0 & H0 & _).
  destruct (@failed_save_forgotten toy_adv 1 0 (SetPushName (lit "Ana")) (ST_Connection (lit "timed out"))
    (mkPmState d0 false false SaverIdle t0)) as (s' & _ & Hd & _ & H); [by split_and!|].
  exists d0, t0, s'. split; [exact H0|]. split; [rewrite Hd; by destruct d0|]. exact H.
Defined.
