(* ===== verification/LidPn.v ===== *)
(** * LidPn: [src/lid_pn_cache.rs], [warp_core/src/types/{lid_pn,jid}.rs],
      [src/client/lid_pn.rs] and the mapping table of the SQLite store

    A contact is known by a phone number and by hidden ids (LIDs); the cache
    maps each to the other, the table keeps the pairs over restarts, and the
    resolution of an address to its LID decides which session encrypts.  The
    theorems show which entry is current for a number, when the two directions
    agree, that all spellings of an address resolve to one session, that two
    concurrent additions can leave the older entry current, and that a restart
    can change the current LID. *)

From stdpp Require Import gmap.
From S2P Require Import Prelude RustStd Crypto Curve Jid SenderKeys GroupCipher.
From S2P Require Import Session SessionCipher Noise Connection Requests Device Pairing Persistence.

(** ** Entries *)

Inductive LearningSource :=
| LS_Usync | LS_PeerPnMessage | LS_PeerLidMessage | LS_RecipientLatestLid | LS_MigrationSyncLatest | LS_MigrationSyncOld
| LS_BlocklistActive | LS_BlocklistInactive | LS_Pairing | LS_Other.

Definition source_as_str (s : LearningSource) : str :=
  match s with
  | LS_Usync => lit "usync"
  | LS_PeerPnMessage => lit "peer_pn_message"
  | LS_PeerLidMessage => lit "peer_lid_message"
  | LS_RecipientLatestLid => lit "recipient_latest_lid"
  | LS_MigrationSyncLatest => lit "migration_sync_latest"
  | LS_MigrationSyncOld => lit "migration_sync_old"
  | LS_BlocklistActive => lit "blocklist_active"
  | LS_BlocklistInactive => lit "blocklist_inactive"
  | LS_Pairing => lit "pairing"
  | LS_Other => lit "other"
  end.

Definition source_parse (s : str) : LearningSource :=
  if s =s lit "usync" then LS_Usync
  else if s =s lit "peer_pn_message" then LS_PeerPnMessage
  else if s =s lit "peer_lid_message" then LS_PeerLidMessage
  else if s =s lit "recipient_latest_lid" then LS_RecipientLatestLid
  else if s =s lit "migration_sync_latest" then LS_MigrationSyncLatest
  else if s =s lit "migration_sync_old" then LS_MigrationSyncOld
  else if s =s lit "blocklist_active" then LS_BlocklistActive
  else if s =s lit "blocklist_inactive" then LS_BlocklistInactive
  else if s =s lit "pairing" then LS_Pairing
  else LS_Other.

Record LidPnEntry := mkLidPnEntry {
  le_lid : str; le_phone_number : str; le_created_at : i64; le_learning_source : LearningSource
}.

(** [now]: seconds since 1970 *)
Definition entry_new (now : i64) (lid phone_number : str) (source : LearningSource) : LidPnEntry :=
  mkLidPnEntry lid phone_number now source.
Definition entry_with_timestamp (lid phone_number : str) (created_at : i64) (source : LearningSource) : LidPnEntry :=
  mkLidPnEntry lid phone_number created_at source.

(** ** The cache *)

Record LidPnCache := mkLidPnCache { lid_to_entry : gmap str LidPnEntry; pn_to_entry : gmap str LidPnEntry }.

Definition cache_new : LidPnCache := mkLidPnCache ∅ ∅.
Definition get_current_lid (phone : str) (c : LidPnCache) : option str := le_lid <$> pn_to_entry c !! phone.
Definition get_phone_number (lid : str) (c : LidPnCache) : option str := le_phone_number <$> lid_to_entry c !! lid.
Definition get_entry_by_lid (lid : str) (c : LidPnCache) : option LidPnEntry := lid_to_entry c !! lid.
Definition get_entry_by_phone (phone : str) (c : LidPnCache) : option LidPnEntry := pn_to_entry c !! phone.

(** [add], each part under a lock of its own *)
Definition should_update_pn (e : LidPnEntry) (c : LidPnCache) : bool :=
  match pn_to_entry c !! le_phone_number e with
  | Some existing => le_created_at existing <=? le_created_at e
  | None => true
  end.
Definition update_lid (e : LidPnEntry) (c : LidPnCache) : LidPnCache :=
  mkLidPnCache (<[le_lid e := e]> (lid_to_entry c)) (pn_to_entry c).
Definition update_pn (should : bool) (e : LidPnEntry) (c : LidPnCache) : LidPnCache :=
  if should then mkLidPnCache (lid_to_entry c) (<[le_phone_number e := e]> (pn_to_entry c)) else c.

Definition add (e : LidPnEntry) (c : LidPnCache) : LidPnCache :=
  let should := should_update_pn e c in update_pn should e (update_lid e c).

Definition warm_up (entries : list LidPnEntry) (c : LidPnCache) : LidPnCache := fold_left (fun c e => add e c) entries c.
Definition clear (c : LidPnCache) : LidPnCache := mkLidPnCache ∅ ∅.
Definition lid_count (c : LidPnCache) : usize := size (lid_to_entry c).
Definition pn_count (c : LidPnCache) : usize := size (pn_to_entry c).

(** ** The table *)

Record LidPnMappingEntry := mkMapping {
  lm_lid : str; lm_phone_number : str; lm_created_at : i64; lm_updated_at : i64; lm_learning_source : str
}.

(** The rows of one device by LID.  A row that exists keeps its time of creation. *)
Definition put_lid_mapping (e : LidPnMappingEntry) (t : gmap str LidPnMappingEntry) : gmap str LidPnMappingEntry :=
  <[lm_lid e := match t !! lm_lid e with
                | Some r => mkMapping (lm_lid r) (lm_phone_number e) (lm_created_at r) (lm_updated_at e) (lm_learning_source e)
                | None => e
                end]> t.
Definition get_lid_mapping (lid : str) (t : gmap str LidPnMappingEntry) : option LidPnMappingEntry := t !! lid.
(** in the order the data base finds the rows *)
Definition get_all_lid_mappings (t : gmap str LidPnMappingEntry) : list LidPnMappingEntry := (map_to_list t).*2.

(** ** The client's side *)

Record LidClient := mkLidClient { lc_cache : LidPnCache; lc_table : gmap str LidPnMappingEntry }.

Definition cache_entry (e : LidPnMappingEntry) : LidPnEntry :=
  entry_with_timestamp (lm_lid e) (lm_phone_number e) (lm_created_at e) (source_parse (lm_learning_source e)).

(** [io]: the verdict of the query; [rows]: what it returns *)
Definition warm_up_lid_pn_cache (io : outcome StoreError unit) (rows : list LidPnMappingEntry) (c : LidPnCache)
    : outcome StoreError unit * LidPnCache :=
  match io with
  | Ok _ => match rows with
            | [] => (Ok tt, c)
            | _ => (Ok tt, warm_up (map cache_entry rows) c)
            end
  | Err e => (Err e, c)
  | Panic => (Panic, c)
  | NoFuel => (NoFuel, c)
  end.

Definition mapping_of (e : LidPnEntry) : LidPnMappingEntry :=
  mkMapping (le_lid e) (le_phone_number e) (le_created_at e) (le_created_at e) (source_as_str (le_learning_source e)).

(** The result tells whether the device registry is to be migrated. *)
Definition add_lid_pn_mapping (io : outcome StoreError unit) (now : i64) (lid phone_number : str) (source : LearningSource)
    : comp LidClient str bool :=
  fun s =>
    let is_new_mapping := match get_current_lid phone_number (lc_cache s) with None => true | Some _ => false end in
    let entry := entry_new now lid phone_number source in
    let cache := add entry (lc_cache s) in
    match io with
    | Ok _ => (Ok is_new_mapping, mkLidClient cache (put_lid_mapping (mapping_of entry) (lc_table s)))
    | Err e => (Err (lit "persisting LID-PN mapping: " ++ show_store_error e), mkLidClient cache (lc_table s))
    | Panic => (Panic, mkLidClient cache (lc_table s))
    | NoFuel => (NoFuel, mkLidClient cache (lc_table s))
    end.

Definition resolve_lid_mapping (c : LidPnCache) (j : Jid) : Jid :=
  if negb (is_pn j) && negb (is_lid j) then j
  else if is_lid j then j
  else match get_current_lid (user j) c with Some lid_user => lid_device lid_user (device j) | None => j end.
Definition resolve_lid_mappings (c : LidPnCache) (jids : list Jid) : list Jid := map (resolve_lid_mapping c) jids.

Definition resolve_encryption_jid (c : LidPnCache) (target : Jid) : Jid :=
  if server target =s HIDDEN_USER_SERVER then target
  else if server target =s DEFAULT_USER_SERVER then
    match get_current_lid (user target) c with
    | Some lid_user => mkJid lid_user HIDDEN_USER_SERVER (agent target) (device target) (integrator target)
    | None => target
    end
  else target.

Definition get_phone_number_from_lid (lid : str) (c : LidPnCache) : option str :=
  let lid_user := match split_once 64 lid with Some (u, _) => u | None => lid end in
  get_phone_number lid_user c.

(** ** Session addresses *)

Definition to_signal_address_string (j : Jid) : str :=
  let device_part := if device j =? 0 then [] else lit ":" ++ show_uint (device j) in
  let server := if server j =s lit "s.whatsapp.net" then lit "c.us" else server j in
  user j ++ device_part ++ lit "@" ++ server.
Definition to_protocol_address (j : Jid) : ProtocolAddress := mkProtocolAddress (to_signal_address_string j) 0.

(** ** Concurrent additions *)

Inductive AddPhase := AP_Start | AP_Checked (should : bool) | AP_LidWritten (should : bool) | AP_Done.
Record AddTask := mkAddTask { at_entry : LidPnEntry; at_phase : AddPhase }.

Definition add_task_step (t : AddTask) (c : LidPnCache) : option (AddTask * LidPnCache) :=
  let e := at_entry t in
  match at_phase t with
  | AP_Start => Some (mkAddTask e (AP_Checked (should_update_pn e c)), c)
  | AP_Checked should => Some (mkAddTask e (AP_LidWritten should), update_lid e c)
  | AP_LidWritten should => Some (mkAddTask e AP_Done, update_pn should e c)
  | AP_Done => None
  end.

(** [schedule]: whose turn it is *)
Fixpoint run_adds (schedule : list nat) (tasks : list AddTask) (c : LidPnCache) : list AddTask * LidPnCache :=
  match schedule with
  | [] => (tasks, c)
  | i :: schedule =>
      match tasks !! i with
      | Some t => match add_task_step t c with
                  | Some (t', c') => run_adds schedule (<[i := t']> tasks) c'
                  | None => run_adds schedule tasks c
                  end
      | None => run_adds schedule tasks c
      end
  end.

(** ** Which entry is current *)

Lemma add_first e c : get_entry_by_phone (le_phone_number e) c = None -> pn_to_entry (add e c) !! le_phone_number e = Some e.
Proof.
  unfold get_entry_by_phone, add, should_update_pn. intros ->. cbn. apply lookup_insert_eq.
Qed.

Lemma add_newer e old c : le_phone_number e = le_phone_number old -> le_created_at old <= le_created_at e ->
  pn_to_entry c !! le_phone_number old = Some old -> pn_to_entry (add e c) !! le_phone_number old = Some e.
Proof.
  intros Hp Hle Ho. unfold add, should_update_pn. rewrite Hp, Ho. assert ((le_created_at old <=? le_created_at e) = true) as -> by lia.
  cbn. rewrite Hp. apply lookup_insert_eq.
Qed.

Lemma add_older e old c : le_phone_number e = le_phone_number old -> le_created_at e < le_created_at old ->
  pn_to_entry c !! le_phone_number old = Some old -> pn_to_entry (add e c) !! le_phone_number old = Some old.
Proof.
  intros Hp Hlt Ho. unfold add, should_update_pn. rewrite Hp, Ho. assert ((le_created_at old <=? le_created_at e) = false) as -> by lia.
  done.
Qed.

Lemma source_roundtrip s : source_parse (source_as_str s) = s.
Proof. by destruct s. Qed.

(** [e] is the newest of the entries for its number, the last one added among
    equally old ones. *)
Definition newest (p : str) (es : list LidPnEntry) (e : LidPnEntry) : Prop :=
  exists a b, es = a ++ e :: b /\ le_phone_number e = p
    /\ Forall (fun x => le_phone_number x = p -> le_created_at x <= le_created_at e) a
    /\ Forall (fun x => le_phone_number x = p -> le_created_at x < le_created_at e) b.

(** the last entry added for a LID *)
Definition latest (l : str) (es : list LidPnEntry) (e : LidPnEntry) : Prop :=
  exists a b, es = a ++ e :: b /\ le_lid e = l /\ Forall (fun x => le_lid x <> l) b.

Lemma warm_up_snoc es e c : warm_up (es ++ [e]) c = add e (warm_up es c).
Proof. unfold warm_up. by rewrite fold_left_app. Qed.

Lemma newest_snoc_keep p es e x : newest p es e -> (le_phone_number x = p -> le_created_at x < le_created_at e) -> newest p (es ++ [x]) e.
Proof.
  intros (a & b & -> & Hp & Ha & Hb) Hx. exists a, (b ++ [x]). rewrite <- app_assoc. repeat split; try done.
  apply Forall_app. split; [done|]. by constructor.
Qed.

Lemma newest_snoc_new p es e x : newest p es e -> le_phone_number x = p -> le_created_at e <= le_created_at x -> newest p (es ++ [x]) x.
Proof.
  intros (a & b & -> & Hp & Ha & Hb) Hx Hle. exists (a ++ e :: b), []. repeat split; try done.
  apply Forall_app. split; [eapply Forall_impl; [exact Ha|]; cbn; intros y Hy ?; specialize (Hy H); lia|].
  constructor; [done|]. eapply Forall_impl; [exact Hb|]. cbn. intros y Hy ?. specialize (Hy H). lia.
Qed.

Lemma newest_snoc_first p es x : Forall (fun y => le_phone_number y <> p) es -> le_phone_number x = p -> newest p (es ++ [x]) x.
Proof.
  intros Hes Hx. exists es, []. repeat split; try done. eapply Forall_impl; [exact Hes|]. by cbn.
Qed.

Lemma latest_snoc l es x :
  (le_lid x = l -> latest l (es ++ [x]) x) /\ (le_lid x <> l -> forall e, latest l es e -> latest l (es ++ [x]) e).
Proof.
  split.
  - intros Hx. by exists es, [].
  - intros Hx e (a & b & -> & He & Hb). exists a, (b ++ [x]). rewrite <- app_assoc. repeat split; try done.
    apply Forall_app. split; [done|]. by constructor.
Qed.

(** What the two maps hold after a sequence of additions. *)
Lemma cache_contents es :
  (forall p, match get_entry_by_phone p (warm_up es cache_new) with
             | Some e => newest p es e
             | None => Forall (fun x => le_phone_number x <> p) es
             end)
  /\ (forall l, match get_entry_by_lid l (warm_up es cache_new) with
                | Some e => latest l es e
                | None => Forall (fun x => le_lid x <> l) es
                end).
Proof.
  induction es as [|x es [IHp IHl] ] using rev_ind;
    [split; intros ?; unfold get_entry_by_phone, get_entry_by_lid; cbn; by rewrite lookup_empty|]. rewrite warm_up_snoc. split.
  - intros p. specialize (IHp p).
    unfold add, get_entry_by_phone, should_update_pn in *. cbn [pn_to_entry update_lid].
    destruct (decide (le_phone_number x = p)) as [Hx|Hx].
    + rewrite Hx in *. destruct (pn_to_entry (warm_up es cache_new) !! p) as [e|] eqn:E.
      * destruct (Z.leb_spec (le_created_at e) (le_created_at x)); cbn [update_pn pn_to_entry update_lid].
        -- rewrite Hx, lookup_insert_eq. by eapply newest_snoc_new.
        -- rewrite E. by apply newest_snoc_keep.
      * cbn [update_pn pn_to_entry update_lid]. rewrite Hx, lookup_insert_eq. by apply newest_snoc_first.
    + assert (forall b, pn_to_entry (update_pn b x (update_lid x (warm_up es cache_new))) !! p = pn_to_entry (warm_up es cache_new) !! p) as ->.
      { intros []; cbn; [by rewrite lookup_insert_ne|done]. }
      destruct (pn_to_entry (warm_up es cache_new) !! p) as [e|]; [by apply newest_snoc_keep|].
      apply Forall_app. split; [done|]. by constructor.
  - intros l. specialize (IHl l). unfold add, get_entry_by_lid in *.
    assert (lid_to_entry (update_pn (should_update_pn x (warm_up es cache_new)) x (update_lid x (warm_up es cache_new)))
            = <[le_lid x := x]> (lid_to_entry (warm_up es cache_new))) as -> by by destruct (should_update_pn _ _).
    destruct (latest_snoc l es x) as [H1 H2]. destruct (decide (le_lid x = l)) as [Hx|Hx].
    + rewrite Hx, lookup_insert_eq. by apply H1.
    + rewrite lookup_insert_ne by done. destruct (lid_to_entry (warm_up es cache_new) !! l) as [e|]; [by apply H2|].
      apply Forall_app. split; [done|]. by constructor.
Qed.

Lemma newest_elem p es e : newest p es e -> e ∈ es /\ le_phone_number e = p.
Proof. intros (a & b & -> & Hp & _). split; [|done]. apply elem_of_app. right. by left. Qed.

Lemma newest_max p es e x : newest p es e -> x ∈ es -> le_phone_number x = p -> le_created_at x <= le_created_at e.
Proof.
  intros (a & b & -> & Hp & Ha & Hb) Hx Hxp. rewrite Forall_forall in Ha, Hb.
  apply elem_of_app in Hx as [Hx|Hx]; [by apply Ha|]. apply elem_of_cons in Hx as [->|Hx]; [done|]. specialize (Hb _ Hx Hxp). lia.
Qed.

Lemma latest_elem l es e : latest l es e -> e ∈ es /\ le_lid e = l.
Proof. intros (a & b & -> & Hl & _). split; [|done]. apply elem_of_app. right. by left. Qed.

(** Equally old entries for a number are one entry. *)
Definition times_distinct (es : list LidPnEntry) : Prop :=
  forall x y, x ∈ es -> y ∈ es -> le_phone_number x = le_phone_number y -> le_created_at x = le_created_at y -> x = y.

Lemma warm_up_order es es' : es ≡ₚ es' -> times_distinct es ->
  pn_to_entry (warm_up es cache_new) = pn_to_entry (warm_up es' cache_new).
Proof.
  intros Hp Hd. apply map_eq. intros p. pose proof (proj1 (cache_contents es) p) as H1.
  pose proof (proj1 (cache_contents es') p) as H2. unfold get_entry_by_phone in *.
  destruct (pn_to_entry (warm_up es cache_new) !! p) as [e|], (pn_to_entry (warm_up es' cache_new) !! p) as [e'|]; [|exfalso..|done].
  - destruct (newest_elem _ _ _ H1) as [He Hep], (newest_elem _ _ _ H2) as [He' Hep']. rewrite <- Hp in He'.
    f_equal. apply Hd; [done..|congruence|]. apply Z.le_antisymm.
    + apply (newest_max p es'); [done|by rewrite <- Hp|done].
    + by apply (newest_max p es).
  - destruct (newest_elem _ _ _ H1) as [He Hep]. rewrite Forall_forall in H2. apply (H2 e); [by rewrite <- Hp|done].
  - destruct (newest_elem _ _ _ H2) as [He Hep]. rewrite Forall_forall in H1. apply (H1 e'); [by rewrite Hp|done].
Qed.

(** The current LID of a number.  After any sequence of additions, the LID
    looked up for a number is that of its newest entry, the last one added if
    several are equally new, and there is none exactly when none was added; when
    no two entries of a number are equally old the order of the additions does
    not matter; and when a LID is never added for two numbers, the number looked
    up for the current LID of a number is that number. *)
Theorem lid_pn_cache_spec es :
  (forall p, match get_current_lid p (warm_up es cache_new) with
             | Some l => exists e, newest p es e /\ le_lid e = l
             | None => Forall (fun x => le_phone_number x <> p) es
             end)
  /\ (forall es', es ≡ₚ es' -> times_distinct es ->
        forall p, get_current_lid p (warm_up es cache_new) = get_current_lid p (warm_up es' cache_new))
  /\ ((forall x y, x ∈ es -> y ∈ es -> le_lid x = le_lid y -> le_phone_number x = le_phone_number y) ->
        forall p l, get_current_lid p (warm_up es cache_new) = Some l -> get_phone_number l (warm_up es cache_new) = Some p).
Proof.
  destruct (cache_contents es) as [Hc Hl]. split; [|split].
  - intros p. specialize (Hc p). unfold get_current_lid, get_entry_by_phone in *.
    destruct (pn_to_entry _ !! p) as [e|]; [by exists e|done].
  - intros es' Hp Hd p. unfold get_current_lid. by rewrite (warm_up_order es es').
  - intros Hinj p l. specialize (Hc p). specialize (Hl l). unfold get_current_lid, get_phone_number, get_entry_by_phone, get_entry_by_lid in *.
    destruct (pn_to_entry _ !! p) as [e|]; [|done]. intros [= He]. destruct (newest_elem _ _ _ Hc) as [Hee Hp].
    destruct (lid_to_entry _ !! l) as [e'|]; cbn.
    + destruct (latest_elem _ _ _ Hl) as [He' Hl']. f_equal. rewrite <- Hp. apply Hinj; [done..|congruence].
    + rewrite Forall_forall in Hl. by destruct (Hl _ Hee).
Qed.

(** ** Restarts *)

Lemma put_fresh e t : t !! lm_lid e = None -> put_lid_mapping e t = <[lm_lid e := e]> t.
Proof. unfold put_lid_mapping. by intros ->. Qed.

Lemma cache_entry_mapping e : cache_entry (mapping_of e) = e.
Proof. destruct e. unfold cache_entry, mapping_of, entry_with_timestamp. cbn. by rewrite source_roundtrip. Qed.

(** Learning a list of entries at their times. *)
Definition learn (es : list LidPnEntry) (s : LidClient) : LidClient :=
  fold_left (fun s e => (add_lid_pn_mapping (Ok tt) (le_created_at e) (le_lid e) (le_phone_number e) (le_learning_source e) s).2) es s.

Lemma learn_snoc es e s : learn (es ++ [e]) s =
  mkLidClient (add e (lc_cache (learn es s))) (put_lid_mapping (mapping_of e) (lc_table (learn es s))).
Proof. unfold learn. rewrite fold_left_app. cbn. by destruct e. Qed.

Definition client_new : LidClient := mkLidClient cache_new ∅.

Lemma learn_cache es : lc_cache (learn es client_new) = warm_up es cache_new.
Proof. induction es as [|e es IH] using rev_ind; [done|]. by rewrite learn_snoc, warm_up_snoc, <- IH. Qed.

Lemma learn_table es : NoDup (map le_lid es) ->
  (forall l, lc_table (learn es client_new) !! l = None <-> l ∉ map le_lid es)
  /\ get_all_lid_mappings (lc_table (learn es client_new)) ≡ₚ map mapping_of es.
Proof.
  induction es as [|e es IH] using rev_ind; intros Hnd.
  - split; [|done]. intros l. cbn. rewrite lookup_empty. split; [|done]. intros _. apply not_elem_of_nil.
  - rewrite map_app in *. cbn in Hnd. apply NoDup_app in Hnd as (Hnd & Hni & _). destruct (IH Hnd) as [Hn Hp].
    assert (lc_table (learn es client_new) !! le_lid e = None) as Hf.
    { apply Hn. intros Hin. by apply (Hni _ Hin), list_elem_of_singleton. }
    rewrite learn_snoc. cbn [lc_table]. rewrite put_fresh by done. split.
    + intros l. cbn. rewrite lookup_insert_None, Hn, not_elem_of_app, not_elem_of_cons.
      split; [intros [? ?]; repeat split; [done|congruence|apply not_elem_of_nil]|intros (? & ? & _); by split].
    + unfold get_all_lid_mappings. rewrite map_to_list_insert by done. cbn.
      unfold get_all_lid_mappings in Hp. rewrite Hp. by rewrite Permutation_app_comm.
Qed.

(** When every LID is learned once and at its own time, a restart finds every
    number's current LID again, in whatever order the rows come. *)
Lemma restart_recovers es rows c' :
  NoDup (map le_lid es) -> times_distinct es -> rows ≡ₚ get_all_lid_mappings (lc_table (learn es client_new)) ->
  warm_up_lid_pn_cache (Ok tt) rows cache_new = (Ok tt, c') ->
  forall p, get_current_lid p c' = get_current_lid p (lc_cache (learn es client_new)).
Proof.
  intros Hnd Ht Hr Hw p. destruct (learn_table es Hnd) as [_ Hp]. rewrite Hp in Hr. rewrite learn_cache.
  assert (c' = warm_up (map cache_entry rows) cache_new) as ->.
  { unfold warm_up_lid_pn_cache in Hw. by destruct rows; injection Hw as <-. }
  unfold get_current_lid. f_equal. f_equal. apply symmetry, warm_up_order; [|done].
  rewrite Hr, map_map. rewrite (map_ext _ id) by apply cache_entry_mapping. by rewrite map_id.
Qed.

Lemma put_again e r t : t !! lm_lid e = Some r ->
  put_lid_mapping e t
  = <[lm_lid e := mkMapping (lm_lid r) (lm_phone_number e) (lm_created_at r) (lm_updated_at e) (lm_learning_source e)]> t.
Proof. unfold put_lid_mapping. by intros ->. Qed.

Lemma relearned_table p l1 l2 s1 s2 s3 t1 t2 t3 : l1 <> l2 ->
  lc_table (learn [entry_new t1 l1 p s1; entry_new t2 l2 p s2; entry_new t3 l1 p s3] client_new)
  = <[l1 := mkMapping l1 p t1 t3 (source_as_str s3)]> (<[l2 := mkMapping l2 p t2 t2 (source_as_str s2)]> ∅).
Proof.
  intros Hl. change [?a; ?b; ?c] with ((([] ++ [a]) ++ [b]) ++ [c]). rewrite !learn_snoc. cbn [lc_table].
  rewrite (put_fresh (mapping_of (entry_new t1 l1 p s1))) by apply lookup_empty.
  rewrite (put_fresh (mapping_of (entry_new t2 l2 p s2))) by (cbn; rewrite lookup_insert_ne by done; apply lookup_empty).
  rewrite (put_again _ (mapping_of (entry_new t1 l1 p s1))) by (cbn; rewrite lookup_insert_ne by done; apply lookup_insert_eq).
  cbn. rewrite insert_insert_ne, insert_insert_eq by done. by apply insert_insert_ne.
Qed.

(** A restart can change the current LID.  The table keeps the time a LID was
    first learned, the cache takes the time of the latest learning: when a
    number's first LID is seen again after a second one, the cache answers with
    the first, and after a restart, in whatever order the rows come, with the
    second, so that messages are encrypted with another session. *)
Theorem restart_changes_lid p l1 l2 s1 s2 s3 t1 t2 t3 :
  l1 <> l2 -> t1 < t2 -> t2 <= t3 ->
  let s := learn [entry_new t1 l1 p s1; entry_new t2 l2 p s2; entry_new t3 l1 p s3] client_new in
  get_current_lid p (lc_cache s) = Some l1
  /\ forall rows, rows ≡ₚ get_all_lid_mappings (lc_table s) ->
       exists c', warm_up_lid_pn_cache (Ok tt) rows cache_new = (Ok tt, c') /\ get_current_lid p c' = Some l2.
Proof.
  intros Hl H12 H23 s. split.
  - unfold s. rewrite learn_cache. unfold get_current_lid, warm_up. cbn [fold_left].
    rewrite (add_newer _ (entry_new t2 l2 p s2)); [done|done|done|].
    apply (add_newer _ (entry_new t1 l1 p s1)); [done|cbn; lia|]. by apply add_first.
  - intros rows Hrows.
    set (es := [mkLidPnEntry l1 p t1 s3; mkLidPnEntry l2 p t2 s2]).
    assert (map cache_entry rows ≡ₚ es) as Hes.
    { rewrite Hrows. unfold s. rewrite relearned_table by done. unfold get_all_lid_mappings.
      rewrite map_to_list_insert, map_to_list_insert by (rewrite ?lookup_insert_ne by done; apply lookup_empty).
      rewrite map_to_list_empty. unfold es, cache_entry, entry_with_timestamp. cbn. by rewrite !source_roundtrip. }
    exists (warm_up (map cache_entry rows) cache_new). split; [by destruct rows|].
    unfold get_current_lid. rewrite (warm_up_order _ es); [|done|].
    + unfold warm_up. cbn [fold_left es]. rewrite (add_newer _ (mkLidPnEntry l1 p t1 s3)); [done|done|cbn; lia|].
      by apply add_first.
    + intros x y. rewrite Hes. unfold es. rewrite !elem_of_cons. intros [->|[->|?%elem_of_nil] ] [->|[->|?%elem_of_nil] ]; cbn; try done; lia.
Qed.

(** ** Races *)

(** One task after the other is the sequential [add]. *)
Lemma run_adds_sequential e c tasks i :
  tasks !! i = Some (mkAddTask e AP_Start) ->
  run_adds [i; i; i] tasks c = (<[i := mkAddTask e AP_Done]> tasks, add e c).
Proof.
  intros Hi. assert (i < length tasks)%nat as Hl by by eapply lookup_lt_Some.
  cbn [run_adds]. rewrite Hi. cbn [add_task_step at_phase at_entry].
  rewrite list_lookup_insert_eq by done. cbn [add_task_step at_phase at_entry].
  rewrite list_lookup_insert_eq by (by rewrite length_insert). cbn [add_task_step at_phase at_entry].
  by rewrite !list_insert_insert_eq.
Qed.

(** Two concurrent additions can leave the older entry current.  Made one after
    the other, in either order, a newer and an older entry for a number leave
    the newer one; but the comparison and the write are under different locks,
    and when both tasks compare before either writes, the older entry can
    overwrite the newer one. *)
Theorem concurrent_add_stale old new c :
  le_phone_number old = le_phone_number new -> le_created_at old < le_created_at new ->
  get_entry_by_phone (le_phone_number new) c = None ->
  let p := le_phone_number new in
  let tasks := [mkAddTask old AP_Start; mkAddTask new AP_Start] in
  let finished := [mkAddTask old AP_Done; mkAddTask new AP_Done] in
  (exists c', run_adds [0; 0; 0; 1; 1; 1]%nat tasks c = (finished, c') /\ get_entry_by_phone p c' = Some new)
  /\ (exists c', run_adds [1; 1; 1; 0; 0; 0]%nat tasks c = (finished, c') /\ get_entry_by_phone p c' = Some new)
  /\ (exists c', run_adds [0; 1; 1; 1; 0; 0]%nat tasks c = (finished, c') /\ get_entry_by_phone p c' = Some old).
Proof.
  intros Hp Hlt Hn p tasks finished. unfold p, tasks, finished. split; [|split].
  - exists (add new (add old c)). split; [reflexivity|]. rewrite <- Hp. apply (add_newer new old); [done|lia|]. apply add_first. by rewrite Hp.
  - exists (add old (add new c)). split; [reflexivity|]. apply (add_older old new); [done..|]. by apply add_first.
  - unfold get_entry_by_phone in Hn. cbn. unfold should_update_pn. rewrite Hp, Hn. eexists. split; [reflexivity|].
    unfold get_entry_by_phone. cbn. rewrite Hp. apply lookup_insert_eq.
Qed.

(** ** Addresses *)

(** An address whose text reads back: the user has no separator. *)
Definition plain_user (j : Jid) : Prop := str_free COLON (user j) = true /\ str_free 64 (user j) = true /\ 0 <= device j.

Definition signal_server (j : Jid) : str := if server j =s lit "s.whatsapp.net" then lit "c.us" else server j.
Definition device_part (j : Jid) : str := if device j =? 0 then [] else lit ":" ++ show_uint (device j).

Lemma device_part_free j : 0 <= device j -> str_free 64 (device_part j) = true.
Proof.
  intros Hd. unfold device_part. destruct (device j =? 0); [done|]. rewrite str_free_app.
  apply andb_true_iff. split; [reflexivity|]. by apply show_uint_free.
Qed.

Lemma user_device_inj u u' d d' : str_free COLON u = true -> str_free COLON u' = true -> 0 <= device d -> 0 <= device d' ->
  u ++ device_part d = u' ++ device_part d' -> u = u' /\ device d = device d'.
Proof.
  unfold device_part. intros Hu Hu' Hd Hd' E.
  destruct (Z.eqb_spec (device d) 0) as [H0|H0], (Z.eqb_spec (device d') 0) as [H0'|H0'].
  - rewrite !app_nil_r in E. split; [done|congruence].
  - rewrite app_nil_r in E. rewrite E, str_free_app in Hu. by apply andb_true_iff in Hu as [_ Hu].
  - rewrite app_nil_r in E. rewrite <- E, str_free_app in Hu'. by apply andb_true_iff in Hu' as [_ Hu'].
  - change (lit ":") with [COLON] in E. pose proof (split_once_app COLON u (show_uint (device d)) Hu) as S1.
    pose proof (split_once_app COLON u' (show_uint (device d')) Hu') as S2. cbn [app] in E. rewrite E, S2 in S1.
    injection S1 as -> Es. split; [done|]. by apply show_uint_inj.
Qed.

Lemma signal_address_inj j j' : plain_user j -> plain_user j' ->
  to_protocol_address j = to_protocol_address j' ->
  user j = user j' /\ device j = device j' /\ signal_server j = signal_server j'.
Proof.
  intros (Hc & Ha & Hd) (Hc' & Ha' & Hd') [= E]. unfold to_signal_address_string in E.
  fold (device_part j) (device_part j') (signal_server j) (signal_server j') in E. change (lit "@") with [64] in E. rewrite !app_assoc in E.
  assert (forall x, plain_user x -> str_free 64 (user x ++ device_part x) = true) as Hf.
  { intros x (_ & H1 & H2). rewrite str_free_app, H1. by apply device_part_free. }
  rewrite <- !app_assoc in E. cbn [app] in E. rewrite !app_assoc in E.
  pose proof (split_once_app 64 _ (signal_server j) (Hf j (conj Hc (conj Ha Hd)))) as S1.
  pose proof (split_once_app 64 _ (signal_server j') (Hf j' (conj Hc' (conj Ha' Hd')))) as S2.
  rewrite E, S2 in S1. injection S1 as E1 E2. symmetry in E1. apply user_device_inj in E1 as [-> ->]; [|done..]. done.
Qed.

(** Both resolutions give the same session. *)
Lemma resolve_same_address c j :
  to_protocol_address (resolve_encryption_jid c j) = to_protocol_address (resolve_lid_mapping c j).
Proof.
  unfold resolve_encryption_jid, resolve_lid_mapping, is_pn, is_lid.
  destruct (bytes_eqb_spec (server j) HIDDEN_USER_SERVER) as [->|Hh]; [by rewrite andb_false_r|].
  destruct (bytes_eqb_spec (server j) DEFAULT_USER_SERVER) as [Hd|Hd]; cbn [negb andb]; [|done].
  by destruct (get_current_lid (user j) c).
Qed.

(** One session per contact device.  The two ways to resolve an address, for
    sending and for the session lock, give the same session address; resolving
    again changes nothing; a phone address with a known LID becomes that LID's
    with the same device; and resolved addresses share a session exactly when
    user, device and server are the same (the phone server under either of its
    two names). *)
Theorem resolution_one_session c j j' :
  to_protocol_address (resolve_encryption_jid c j) = to_protocol_address (resolve_lid_mapping c j)
  /\ resolve_encryption_jid c (resolve_encryption_jid c j) = resolve_encryption_jid c j
  /\ resolve_lid_mapping c (resolve_lid_mapping c j) = resolve_lid_mapping c j
  /\ device (resolve_encryption_jid c j) = device j
  /\ (is_pn j = true -> forall l, get_current_lid (user j) c = Some l ->
        user (resolve_encryption_jid c j) = l /\ is_lid (resolve_encryption_jid c j) = true)
  /\ (let r := resolve_encryption_jid c j in let r' := resolve_encryption_jid c j' in
      plain_user r -> plain_user r' ->
      (to_protocol_address r = to_protocol_address r'
       <-> user r = user r' /\ device r = device r' /\ signal_server r = signal_server r')).
Proof.
  split_and!.
  - apply resolve_same_address.
  - unfold resolve_encryption_jid. destruct (server j =s HIDDEN_USER_SERVER) eqn:Hh; [by rewrite Hh|].
    destruct (server j =s DEFAULT_USER_SERVER) eqn:Hd; [|by rewrite Hh, Hd].
    destruct (get_current_lid (user j) c) eqn:Hc; [done|by rewrite Hh, Hd, Hc].
  - unfold resolve_lid_mapping. destruct (negb (is_pn j) && negb (is_lid j)) eqn:E; [by rewrite E|].
    destruct (is_lid j) eqn:Hl; [by rewrite Hl, E|].
    destruct (get_current_lid (user j) c) eqn:Hc; [done|by rewrite Hl, E, Hc].
  - unfold resolve_encryption_jid. repeat case_match; done.
  - intros Hp l Hl. unfold is_pn in Hp. apply bytes_eqb_eq in Hp. unfold resolve_encryption_jid. rewrite Hp, Hl, bytes_eqb_refl.
    by destruct (bytes_eqb_spec DEFAULT_USER_SERVER HIDDEN_USER_SERVER).
  - intros r r' Hr Hr'. split; [by apply signal_address_inj|]. intros (Hu & Hd & Hs).
    unfold to_protocol_address, to_signal_address_string. unfold signal_server in Hs. by rewrite Hu, Hd, Hs.
Qed.

(** ** Witnesses *)

Definition toy_phone : str := lit "559980000001".

Lemma restart_changes_lid_witness :
  get_current_lid toy_phone (lc_cache (learn [entry_new 1 (lit "100") toy_phone LS_Usync;
    entry_new 2 (lit "200") toy_phone LS_Usync; entry_new 3 (lit "100") toy_phone LS_PeerPnMessage] client_new)) = Some (lit "100").
Proof.
  apply (restart_changes_lid toy_phone (lit "100") (lit "200") LS_Usync LS_Usync LS_PeerPnMessage 1 2 3); [discriminate|lia|lia].
Defined.

Lemma concurrent_add_stale_witness :
  exists c', run_adds [0; 1; 1; 1; 0; 0]%nat
    [mkAddTask (entry_new 1 (lit "100") toy_phone LS_Usync) AP_Start; mkAddTask (entry_new 2 (lit "200") toy_phone LS_Usync) AP_Start]
    cache_new = ([mkAddTask (entry_new 1 (lit "100") toy_phone LS_Usync) AP_Done;
                  mkAddTask (entry_new 2 (lit "200") toy_phone LS_Usync) AP_Done], c')
    /\ get_entry_by_phone toy_phone c' = Some (entry_new 1 (lit "100") toy_phone LS_Usync).
Proof.
  destruct (concurrent_add_stale (entry_new 1 (lit "100") toy_phone LS_Usync) (entry_new 2 (lit "200") toy_phone LS_Usync) cache_new)
    as (_ & _ & H); [reflexivity|reflexivity|reflexivity|]. exact H.
Defined.
