(* ===== verification/Registry.v ===== *)
(** * Registry: [src/client/device_registry.rs] and the registry table of the
      SQLite store

    Which devices a contact has: a record per user in a cache and in a table,
    kept under the LID when it is known and looked up under both ids.  The
    cache may drop entries at any time.  The theorems show that a record that
    was stored is what later questions are answered from, under either id, and
    what learning a LID does to the records of the phone number. *)

From stdpp Require Import gmap.
From S2P Require Import Prelude RustStd Crypto Curve Jid Noise Connection Requests Device Pairing Persistence LidPn.

Record DeviceInfo := mkDeviceInfo { di_device_id : u32; di_key_index : option u32 }.
Record DeviceListRecord := mkDeviceList {
  dl_user : str; dl_devices : list DeviceInfo; dl_timestamp : i64; dl_phash : option str
}.

(** [serde_json] on device lists *)
Class DeviceJson := {
  devices_to_json : list DeviceInfo -> str;
  devices_from_json : str -> sum str (list DeviceInfo);
  devices_json_roundtrip : forall l, devices_from_json (devices_to_json l) = inr l
}.

(** A row: the list as text, the time as an [i32], the hash. *)
Record RegistryRow := mkRegistryRow { rr_devices_json : str; rr_timestamp : i32; rr_phash : option str }.

Inductive UserLookupKeys :=
| LidWithPn (lid pn : str)
| PnWithLid (lid pn : str)
| Unknown (user : str).

Definition all_keys (k : UserLookupKeys) : list str :=
  match k with LidWithPn lid pn | PnWithLid lid pn => [lid; pn] | Unknown user => [user] end.
Definition canonical_key (k : UserLookupKeys) : str :=
  match k with LidWithPn lid _ | PnWithLid lid _ => lid | Unknown user => user end.

(** [rg_device_cache]: the entries of the cache keyed by addresses *)
Record RegState := mkRegState {
  rg_lids : LidPnCache; rg_cache : gmap str DeviceListRecord; rg_device_cache : list (Jid * list Jid);
  rg_table : gmap str RegistryRow
}.

Definition resolve_lookup_keys (u : str) (c : LidPnCache) : UserLookupKeys :=
  match get_phone_number u c with
  | Some pn => LidWithPn u pn
  | None => match get_current_lid u c with
            | Some lid => PnWithLid lid u
            | None => Unknown u
            end
  end.
Definition get_lookup_keys (u : str) (c : LidPnCache) : list str := all_keys (resolve_lookup_keys u c).

Definition has_id (device_id : u32) (r : DeviceListRecord) : bool := existsb (fun d => di_device_id d =? device_id) (dl_devices r).

Definition set_cache (c : gmap str DeviceListRecord) (s : RegState) : RegState :=
  mkRegState (rg_lids s) c (rg_device_cache s) (rg_table s).
Definition set_table (t : gmap str RegistryRow) (s : RegState) : RegState :=
  mkRegState (rg_lids s) (rg_cache s) (rg_device_cache s) t.

Definition first_cached (keys : list str) (c : gmap str DeviceListRecord) : option DeviceListRecord :=
  fold_right (fun k rest => match c !! k with Some r => Some r | None => rest end) None keys.

Section Registry.
Context `{HJ : !DeviceJson}.

(** The statements; [io] is the verdict of pool and execution. *)
Definition table_update (io : outcome StoreError unit) (r : DeviceListRecord) (t : gmap str RegistryRow)
    : outcome StoreError unit * gmap str RegistryRow :=
  match io with
  | Ok _ => (Ok tt, <[dl_user r := mkRegistryRow (devices_to_json (dl_devices r)) (cast_i32 (dl_timestamp r)) (dl_phash r)]> t)
  | Err e => (Err e, t)
  | Panic => (Panic, t)
  | NoFuel => (NoFuel, t)
  end.
Definition get_devices (io : outcome StoreError unit) (u : str) (t : gmap str RegistryRow)
    : outcome StoreError (option DeviceListRecord) :=
  let? _ := io in
  match t !! u with
  | Some row => match devices_from_json (rr_devices_json row) with
                | inr devices => Ok (Some (mkDeviceList u devices (rr_timestamp row) (rr_phash row)))
                | inl e => Err (ST_Serialization e)
                end
  | None => Ok None
  end.

(** [io]: the verdict for each key; an error is logged and the next key tried. *)
Fixpoint search_table (io : str -> outcome StoreError unit) (keys : list str) (device_id : u32) (s : RegState) : bool * RegState :=
  match keys with
  | [] => (false, s)
  | k :: keys =>
      match get_devices (io k) k (rg_table s) with
      | Ok (Some record) => (has_id device_id record, set_cache (<[dl_user record := record]> (rg_cache s)) s)
      | _ => search_table io keys device_id s
      end
  end.

Definition has_device (io : str -> outcome StoreError unit) (u : str) (device_id : u32) (s : RegState) : bool * RegState :=
  if device_id =? 0 then (true, s)
  else
    let lookup_keys := get_lookup_keys u (rg_lids s) in
    match first_cached lookup_keys (rg_cache s) with
    | Some record => (has_id device_id record, s)
    | None => search_table io lookup_keys device_id s
    end.

Definition update_device_list (io : outcome StoreError unit) (record : DeviceListRecord) : comp RegState StoreError unit :=
  fun s =>
    let original_user := dl_user record in
    let canonical_key := canonical_key (resolve_lookup_keys original_user (rg_lids s)) in
    let record := mkDeviceList canonical_key (dl_devices record) (dl_timestamp record) (dl_phash record) in
    let s := set_cache (<[canonical_key := record]> (rg_cache s)) s in
    let '(o, t) := table_update io record (rg_table s) in
    match o with
    | Ok _ =>
        let s := set_table t s in
        (Ok tt, if canonical_key =s original_user then s else set_cache (delete original_user (rg_cache s)) s)
    | Err e => (Err e, s)
    | Panic => (Panic, s)
    | NoFuel => (NoFuel, s)
    end.

Definition invalidate_jid (j : Jid) (c : list (Jid * list Jid)) : list (Jid * list Jid) :=
  List.filter (fun e => negb (bool_decide (e.1 = j))) c.

Definition invalidate_device_cache (u : str) (s : RegState) : RegState :=
  let lookup := resolve_lookup_keys u (rg_lids s) in
  let cache := fold_left (fun c k => delete k c) (all_keys lookup) (rg_cache s) in
  let '(l, p) := match lookup with LidWithPn lid pn | PnWithLid lid pn => (lid, pn) | Unknown user => (user, user) end in
  mkRegState (rg_lids s) cache (invalidate_jid (pn p) (invalidate_jid (lid l) (rg_device_cache s))) (rg_table s).

(** [io_get], [io_put]: the verdicts of the two statements *)
Definition migrate_device_registry_on_lid_discovery (io_get io_put : outcome StoreError unit) (p l : str) (s : RegState) : RegState :=
  match get_devices io_get p (rg_table s) with
  | Ok (Some record) =>
      let record := mkDeviceList l (dl_devices record) (dl_timestamp record) (dl_phash record) in
      match table_update io_put record (rg_table s) with
      | (Ok _, t) => invalidate_device_cache p (set_cache (<[l := record]> (rg_cache s)) (set_table t s))
      | _ => s
      end
  | _ => s
  end.

(** [add_lid_pn_mapping] with the migration it may start. *)
Definition learn_lid (now : i64) (l p : str) (source : LearningSource) (io_get io_put : outcome StoreError unit) (s : RegState) : RegState :=
  let is_new_mapping := match get_current_lid p (rg_lids s) with None => true | Some _ => false end in
  let s := mkRegState (add (entry_new now l p source) (rg_lids s)) (rg_cache s) (rg_device_cache s) (rg_table s) in
  if is_new_mapping then migrate_device_registry_on_lid_discovery io_get io_put p l s else s.

(** ** Theory *)

(** What the table gives back of a record. *)
Definition stored (r : DeviceListRecord) : DeviceListRecord :=
  mkDeviceList (dl_user r) (dl_devices r) (cast_i32 (dl_timestamp r)) (dl_phash r).

Definition row_of (r : DeviceListRecord) : RegistryRow :=
  mkRegistryRow (devices_to_json (dl_devices r)) (cast_i32 (dl_timestamp r)) (dl_phash r).

Lemma cast_i32_idemp z : cast_i32 (cast_i32 z) = cast_i32 z.
Proof. unfold cast_i32. rewrite Z.sub_add, Zmod_mod. done. Qed.

Lemma get_devices_row u r t : t !! u = Some (row_of r) -> dl_user r = u -> get_devices (Ok tt) u t = Ok (Some (stored r)).
Proof. intros Ht <-. unfold get_devices. cbn. rewrite Ht. cbn. by rewrite devices_json_roundtrip. Qed.

Lemma has_id_stored d r : has_id d (stored r) = has_id d r.
Proof. done. Qed.

(** Dropping entries. *)
Definition evicted (s s' : RegState) : Prop :=
  exists c, c ⊆ rg_cache s /\ s' = set_cache c s.

(** The record [r] is what user [u] is answered from: it is in the table under the
    preferred key, and the cache has nothing else for the keys of [u]. *)
Record answers_from (u : str) (r : DeviceListRecord) (s : RegState) : Prop := {
  af_table : rg_table s !! canonical_key (resolve_lookup_keys u (rg_lids s)) = Some (row_of r);
  af_user : dl_user r = canonical_key (resolve_lookup_keys u (rg_lids s));
  af_cache : forall k r', k ∈ get_lookup_keys u (rg_lids s) -> rg_cache s !! k = Some r' ->
               k = canonical_key (resolve_lookup_keys u (rg_lids s)) /\ dl_devices r' = dl_devices r
}.

Lemma answers_evicted u r s s' : answers_from u r s -> evicted s s' -> answers_from u r s'.
Proof.
  intros [Ht Hu Hc] (c & Hsub & ->). split; [done|done|]. intros k r' Hk Hr. cbn in *. apply (Hc k r' Hk). by eapply lookup_weaken.
Qed.

Lemma first_cached_Some keys c r : first_cached keys c = Some r -> exists k, k ∈ keys /\ c !! k = Some r.
Proof.
  induction keys as [|k keys IH]; [done|]. cbn. destruct (c !! k) as [r'|] eqn:E.
  - intros [= <-]. exists k. split; [by left|done].
  - intros (k' & Hk & Hr)%IH. exists k'. split; [by right|done].
Qed.

Lemma keys_canonical u c : exists rest, get_lookup_keys u c = canonical_key (resolve_lookup_keys u c) :: rest.
Proof. unfold get_lookup_keys. destruct (resolve_lookup_keys u c); cbn; eauto. Qed.

(** A question is answered from the record and leaves it so. *)
Lemma has_device_answers u r s d : answers_from u r s ->
  (has_device (fun _ => Ok tt) u d s).1 = (d =? 0) || has_id d r
  /\ answers_from u r (has_device (fun _ => Ok tt) u d s).2.
Proof.
  intros Ha. pose proof Ha as [Ht Hu Hc]. unfold has_device. destruct (Z.eqb_spec d 0) as [->|Hd]; cbn [orb]; [done|].
  destruct (first_cached _ _) as [r'|] eqn:E.
  - apply first_cached_Some in E as (k & Hk & Hr). destruct (Hc k r' Hk Hr) as [_ Hd']. split; [|done]. unfold has_id. by rewrite Hd'.
  - destruct (keys_canonical u (rg_lids s)) as [rest Hrest]. rewrite Hrest. cbn [search_table].
    rewrite (get_devices_row _ r) by done. cbn [fst snd]. split; [done|].
    split; [done|done|]. intros k r' Hk. cbn. rewrite lookup_insert_Some. intros [[<- <-]|[_ Hr] ]; [by rewrite <- Hu|].
    by apply (Hc k r').
Qed.

(** The identifiers of one contact: both resolve to the same pair. *)
Definition same_contact (u u' : str) (c : LidPnCache) : Prop :=
  get_lookup_keys u c = get_lookup_keys u' c.

Lemma same_contact_canonical u u' c : same_contact u u' c ->
  canonical_key (resolve_lookup_keys u c) = canonical_key (resolve_lookup_keys u' c).
Proof.
  unfold same_contact. destruct (keys_canonical u c) as [r ->], (keys_canonical u' c) as [r' ->]. by intros [= -> _].
Qed.

(** Storing a record: no other key of the user is cached besides the one given. *)
Lemma update_answers record u s :
  same_contact (dl_user record) u (rg_lids s) ->
  (forall k, k ∈ get_lookup_keys u (rg_lids s) -> is_Some (rg_cache s !! k) ->
     k = canonical_key (resolve_lookup_keys u (rg_lids s)) \/ k = dl_user record) ->
  exists s', update_device_list (Ok tt) record s = (Ok tt, s') /\ rg_lids s' = rg_lids s
    /\ exists r, dl_devices r = dl_devices record /\ answers_from u r s'.
Proof.
  intros Hs Hc. unfold update_device_list. cbn [table_update]. rewrite (same_contact_canonical _ _ _ Hs).
  set (key := canonical_key (resolve_lookup_keys u (rg_lids s))) in *.
  eexists. split; [reflexivity|]. split; [by case_match|].
  exists (mkDeviceList key (dl_devices record) (dl_timestamp record) (dl_phash record)). split; [done|].
  destruct (bytes_eqb_spec key (dl_user record)) as [Hk|Hk]; split; cbn; fold key; try (done || apply lookup_insert_eq).
  - intros k r' Hin. rewrite lookup_insert_Some. intros [[<- <-]|[Hne Hr] ]; [done|].
    destruct (Hc k Hin) as [?|?]; [by exists r'|congruence|congruence].
  - intros k r' Hin. rewrite lookup_delete_Some, lookup_insert_Some. intros (Hne & [[<- <-]|[Hne' Hr] ]); [done|].
    destruct (Hc k Hin) as [?|?]; [by exists r'|congruence|congruence].
Qed.

(** The cache drops entries, or a question is asked under an id of the contact. *)
Inductive quiet_step (u : str) : RegState -> RegState -> Prop :=
| QS_evict s s' : evicted s s' -> quiet_step u s s'
| QS_ask u' d s : same_contact u u' (rg_lids s) -> quiet_step u s (has_device (fun _ => Ok tt) u' d s).2.

Lemma has_device_same u u' d s : same_contact u u' (rg_lids s) ->
  has_device (fun _ => Ok tt) u' d s = has_device (fun _ => Ok tt) u d s.
Proof. unfold same_contact, has_device. by intros ->. Qed.

Lemma quiet_answers u r s s' : quiet_step u s s' -> answers_from u r s -> answers_from u r s'.
Proof.
  intros [s0 s1 He|u' d s0 Hs] Ha; [by eapply answers_evicted|]. rewrite (has_device_same u u') by done. by apply has_device_answers.
Qed.

Lemma quiet_answers_rtc u r s s' : rtc (quiet_step u) s s' -> answers_from u r s -> answers_from u r s'.
Proof. induction 1; eauto using quiet_answers. Qed.

(** A stored device list is what questions are answered from.  When a list is
    stored for a contact under one of its ids, and the cache holds nothing for
    the contact under an id other than the preferred one and the one given, then
    however often the cache drops entries and questions are asked in between,
    every later question under any of the contact's ids is answered from that
    list: device 0 exists, another device exists exactly when it is listed. *)
Theorem registry_read_your_writes record u s :
  same_contact (dl_user record) u (rg_lids s) ->
  (forall k, k ∈ get_lookup_keys u (rg_lids s) -> is_Some (rg_cache s !! k) ->
     k = canonical_key (resolve_lookup_keys u (rg_lids s)) \/ k = dl_user record) ->
  exists s', update_device_list (Ok tt) record s = (Ok tt, s')
    /\ forall s'', rtc (quiet_step u) s' s'' ->
         forall u' d, same_contact u u' (rg_lids s'') ->
           (has_device (fun _ => Ok tt) u' d s'').1 = (d =? 0) || has_id d record.
Proof.
  intros Hs Hc. destruct (update_answers record u s Hs Hc) as (s' & Hu & _ & r & Hr & Ha). exists s'. split; [done|].
  intros s'' Hq u' d Hsame. rewrite (has_device_same u u') by done.
  rewrite (proj1 (has_device_answers u r s'' d (quiet_answers_rtc _ _ _ _ Hq Ha))). unfold has_id. by rewrite Hr.
Qed.

(** ** Learning a LID *)

Lemma learned_keys now l p source c :
  get_current_lid p c = None -> get_phone_number p c = None -> l <> p ->
  let c' := add (entry_new now l p source) c in
  resolve_lookup_keys l c' = LidWithPn l p /\ resolve_lookup_keys p c' = PnWithLid l p.
Proof.
  intros Hn Hp Hlp c'. unfold get_current_lid, get_phone_number in *.
  assert (pn_to_entry c' !! p = Some (entry_new now l p source)) as Hpn.
  { apply (add_first (entry_new now l p source)). unfold get_entry_by_phone. cbn. by destruct (pn_to_entry c !! p). }
  assert (lid_to_entry c' = <[l := entry_new now l p source]> (lid_to_entry c)) as Hl.
  { unfold c', add. by destruct (should_update_pn _ _). }
  unfold resolve_lookup_keys, get_phone_number, get_current_lid. rewrite Hl, Hpn, lookup_insert_eq, lookup_insert_ne by done.
  cbn. split; [done|]. by destruct (lid_to_entry c !! p).
Qed.

(** Learning a contact's LID carries its device list over.  When a phone number
    gets its first LID and a list is stored under the number, the list is stored
    under the LID as well, and questions under both ids are answered from it; the
    caches have no entry for either id, and the number's own row stays. *)
Theorem learned_lid_migrates now l p source r s :
  get_current_lid p (rg_lids s) = None -> get_phone_number p (rg_lids s) = None -> l <> p ->
  rg_table s !! p = Some (row_of r) ->
  let s' := learn_lid now l p source (Ok tt) (Ok tt) s in
  (forall u d, u = l \/ u = p -> (has_device (fun _ => Ok tt) u d s').1 = (d =? 0) || has_id d r)
  /\ rg_cache s' !! l = None /\ rg_cache s' !! p = None
  /\ Forall (fun e => e.1 <> lid l /\ e.1 <> pn p) (rg_device_cache s')
  /\ rg_table s' !! p = Some (row_of r) /\ rg_table s' !! l = Some (row_of r).
Proof.
  intros Hn Hp Hlp Ht s'.
  destruct (learned_keys now l p source (rg_lids s) Hn Hp Hlp) as [Hkl Hkp]. cbv zeta in Hkl, Hkp.
  set (r' := mkDeviceList l (dl_devices r) (cast_i32 (dl_timestamp r)) (dl_phash r)).
  assert (s' = mkRegState (add (entry_new now l p source) (rg_lids s)) (delete p (delete l (<[l := r']> (rg_cache s))))
    (invalidate_jid (pn p) (invalidate_jid (lid l) (rg_device_cache s))) (<[l := row_of r]> (rg_table s))) as Hs'.
  { unfold s', learn_lid, migrate_device_registry_on_lid_discovery. rewrite Hn. cbn [rg_table rg_lids rg_cache rg_device_cache].
    rewrite (get_devices_row p (mkDeviceList p (dl_devices r) (dl_timestamp r) (dl_phash r))) by done. cbn [stored table_update].
    unfold invalidate_device_cache. cbn [rg_lids set_cache set_table rg_cache rg_device_cache rg_table dl_user dl_devices dl_timestamp dl_phash].
    rewrite Hkp. cbn [all_keys fold_left]. unfold row_of. cbn. by rewrite cast_i32_idemp. }
  assert (forall u, u = l \/ u = p -> answers_from u (mkDeviceList l (dl_devices r) (dl_timestamp r) (dl_phash r)) s') as Ha.
  { intros u Hu. rewrite Hs'. assert (get_lookup_keys u (add (entry_new now l p source) (rg_lids s)) = [l; p]
      /\ canonical_key (resolve_lookup_keys u (add (entry_new now l p source) (rg_lids s))) = l) as [Hk Hc].
    { unfold get_lookup_keys. by destruct Hu as [->| ->]; rewrite ?Hkl, ?Hkp. }
    split; cbn [rg_table rg_lids rg_cache]; rewrite ?Hc; [apply lookup_insert_eq|done|].
    intros k x. rewrite Hk, !elem_of_cons, elem_of_nil, !lookup_delete_Some. intros [->|[->|[] ] ]; tauto. }
  split; [|rewrite Hs'; cbn; repeat split].
  - intros u d Hu. by rewrite (proj1 (has_device_answers u _ s' d (Ha u Hu))).
  - by rewrite lookup_delete_ne, lookup_delete_eq by done.
  - apply lookup_delete_eq.
  - apply Forall_forall. intros e He. unfold invalidate_jid in He.
    apply list_elem_of_In, filter_In in He as [He H1]. apply filter_In in He as [He H2].
    apply negb_true_iff, bool_decide_eq_false in H1, H2. by split.
  - by rewrite lookup_insert_ne.
  - apply lookup_insert_eq.
Qed.

(** The number's row outlives the migration: when the number gets a second LID the
    question under the number is answered from the list of before the first. *)
Lemma second_lid_stale now l2 p source r s d :
  is_Some (get_current_lid p (rg_lids s)) -> get_phone_number p (rg_lids s) = None -> l2 <> p ->
  (forall e, pn_to_entry (rg_lids s) !! p = Some e -> le_created_at e <= now) ->
  rg_table s !! p = Some (row_of r) -> rg_table s !! l2 = None -> rg_cache s = ∅ -> d <> 0 ->
  (has_device (fun _ => Ok tt) p d (learn_lid now l2 p source (Ok tt) (Ok tt) s)).1 = has_id d r.
Proof.
  intros [l1 Hl] Hp Hne Hle Ht Ht2 Hc Hd. unfold learn_lid. rewrite Hl. unfold has_device. cbn [rg_lids rg_cache].
  assert ((d =? 0) = false) as -> by lia. rewrite Hc.
  unfold get_current_lid in Hl. destruct (pn_to_entry (rg_lids s) !! p) as [e|] eqn:He; [|done].
  assert (get_lookup_keys p (add (entry_new now l2 p source) (rg_lids s)) = [l2; p]) as ->.
  { unfold get_lookup_keys, resolve_lookup_keys, get_phone_number, get_current_lid, add, should_update_pn in *. cbn. rewrite He.
    assert ((le_created_at e <=? now) = true) as -> by (specialize (Hle e eq_refl); lia). cbn.
    rewrite lookup_insert_ne, lookup_insert_eq by done. cbn. by destruct (lid_to_entry (rg_lids s) !! p). }
  cbn [first_cached fold_right]. rewrite !lookup_empty. cbn [search_table rg_table]. unfold get_devices at 1. cbn [obind]. rewrite Ht2.
  rewrite (get_devices_row p (mkDeviceList p (dl_devices r) (dl_timestamp r) (dl_phash r))) by done. done.
Qed.
End Registry.

(** ** Witnesses *)

Definition toy_to_json (l : list DeviceInfo) : str :=
  flat_map (fun d => [di_device_id d; match di_key_index d with Some _ => 1 | None => 0 end; default 0 (di_key_index d)]) l.
Fixpoint toy_from_json (s : str) : sum str (list DeviceInfo) :=
  match s with
  | [] => inr []
  | i :: f :: k :: rest =>
      match toy_from_json rest with
      | inr l => inr (mkDeviceInfo i (if f =? 1 then Some k else None) :: l)
      | inl e => inl e
      end
  | _ => inl (lit "EOF")
  end.
Lemma toy_json_roundtrip l : toy_from_json (toy_to_json l) = inr l.
Proof.
  induction l as [|[i [k|] ] l IH]; [done|..]; cbn; fold (toy_to_json l); by rewrite IH.
Qed.
#[local] Instance toy_json : DeviceJson := {
  devices_to_json := toy_to_json; devices_from_json := toy_from_json; devices_json_roundtrip := toy_json_roundtrip
}.

Definition toy_list : DeviceListRecord := mkDeviceList toy_phone [mkDeviceInfo 0 None; mkDeviceInfo 5 (Some 2)] 1700000000 None.
Definition toy_registry : RegState := mkRegState (add (entry_new 1 (lit "100") toy_phone LS_Usync) cache_new) ∅ [] ∅.

Lemma registry_read_your_writes_witness :
  exists s', update_device_list (Ok tt) toy_list toy_registry = (Ok tt, s')
    /\ (has_device (fun _ => Ok tt) (lit "100") 5 (set_cache ∅ s')).1 = true.
Proof.
  destruct (registry_read_your_writes toy_list (lit "100") toy_registry) as (s' & Hs & H).
  - vm_compute. reflexivity.
  - intros k _ [r Hr]. cbn in Hr. by rewrite lookup_empty in Hr.
  - exists s'. split; [exact Hs|]. rewrite (H (set_cache ∅ s')); [reflexivity| |reflexivity].
    apply rtc_once, QS_evict. exists ∅. split; [apply map_empty_subseteq|reflexivity].
Defined.

Lemma learned_lid_migrates_witness :
  (has_device (fun _ => Ok tt) (lit "100") 5
     (learn_lid 1 (lit "100") toy_phone LS_Usync (Ok tt) (Ok tt) (mkRegState cache_new ∅ [] {[toy_phone := row_of toy_list]}))).1 = true.
Proof.
  destruct (learned_lid_migrates 1 (lit "100") toy_phone LS_Usync toy_list (mkRegState cache_new ∅ [] {[toy_phone := row_of toy_list]}))
    as [H _]; [reflexivity|reflexivity|discriminate|apply lookup_singleton_eq|]. rewrite H by by left. reflexivity.
Defined.
