(* ===== verification/Establish.v ===== *)
(** * Establish: [src/client/sessions.rs]

    Making sure that every device a message goes to has a session: resolve the
    addresses, find the ones without a session, fetch their bundles in batches
    and process them.  The server's answer and the presence test of the back
    end are arguments.  The theorem shows that afterwards every addressed
    device has a session, and which requests are made. *)

From S2P Require Import Prelude RustStd Crypto Curve Jid Node Attrs Session SessionCipher SessionRatchet.
From S2P Require Import PreKeys Noise Connection Device Requests Pairing DeviceStore KeyServer Persistence LidPn.

Definition SESSION_CHECK_BATCH_SIZE : nat := 50.

(** [chunks(n)] *)
Definition chunks {A} (n : nat) (l : list A) : list (list A) :=
  let '(full, rest) := as_chunks n l in full ++ match rest with [] => [] | _ => [rest] end.

Section Establish.
Context `{HK : !Hkdf, HS : !Hashes, HA : !AesCbc, HC : !Curve25519, HP : !SignalProto}.
Context {B I : Type} `{HB : !SessionStore B, HI : !IdentityKeyStore I}.
(** the request path, the texts of the errors and the presence test of the back end *)
Context (send_iq : InfoQuery -> outcome ClientIqError Node) (show_node : Node -> str).
Context (show_error : SignalProtocolError -> str) (show_iq_error : ClientIqError -> str).
Context (contains_session : ProtocolAddress -> B -> outcome str bool).
(** the random bytes drawn for a device *)
Context (rnds : Jid -> bytes * bytes).

(** The loop over the batch; the result counts the sessions made. *)
Fixpoint establish (bundles : list (Jid * PreKeyBundle)) (jids : list Jid) (success_count : usize) : comp (B * I) str usize :=
  match jids with
  | [] => mret success_count
  | jid :: jids =>
      match bundle_get jid bundles with
      | Some bundle =>
          fun st =>
            match process_prekey_bundle (to_protocol_address jid) bundle (rnds jid) st with
            | (Ok _, st) => establish bundles jids (S success_count) st
            | (Err _, st) => establish bundles jids success_count st
            | (Panic, st) => (Panic, st)
            | (NoFuel, st) => (NoFuel, st)
            end
      | None => establish bundles jids success_count
      end
  end.

Definition fetch_and_establish_sessions (jids : list Jid) : comp (B * I) str usize :=
  match jids with
  | [] => mret 0%nat
  | _ =>
      let! prekey_bundles := mlift (fetch_pre_keys send_iq show_node show_error show_iq_error jids (Some (lit "identity"))) in
      establish prekey_bundles jids 0
  end.

(** A failing presence test is logged and the device left out. *)
Fixpoint needing_sessions (jids : list Jid) (b : B) : list Jid :=
  match jids with
  | [] => []
  | jid :: jids =>
      match contains_session (to_protocol_address jid) b with
      | Ok false => jid :: needing_sessions jids b
      | _ => needing_sessions jids b
      end
  end.

(** Waiting for the end of the offline delivery has no effect on the stores. *)
Definition ensure_e2e_sessions (c : LidPnCache) (device_jids : list Jid) : comp (B * I) str unit :=
  match device_jids with
  | [] => mret tt
  | _ =>
      let resolved_jids := resolve_lid_mappings c device_jids in
      fun st =>
        let jids_needing_sessions := needing_sessions resolved_jids st.1 in
        mfor (fun batch => let! _ := fetch_and_establish_sessions batch in mret tt)
          (chunks SESSION_CHECK_BATCH_SIZE jids_needing_sessions) st
  end.

(** [pn]: the device's own address *)
Definition establish_primary_phone_session_immediate (show_jid : Jid -> str) (pn : option Jid) : comp (B * I) str unit :=
  match pn with
  | None => mfail (lit "Not logged in - no phone number available")
  | Some own_pn =>
      let primary_phone_jid := with_device own_pn 0 in
      let! success_count := fetch_and_establish_sessions [primary_phone_jid] in
      if (success_count =? 0)%nat then
        mfail (lit "Failed to establish session with primary phone " ++ show_jid primary_phone_jid ++ lit " - PDO will not work")
      else mret tt
  end.
End Establish.

(** ** Theory *)

Lemma chunks_concat {A} n (l : list A) : mjoin (chunks n l) = l.
Proof.
  unfold chunks. pose proof (as_chunks_concat n l) as H. destruct (as_chunks n l) as [full rest]. cbn [fst snd] in H.
  rewrite join_app. destruct rest as [|x rest]; [by rewrite app_nil_r in *|]. cbn [mjoin list_join]. by rewrite app_nil_r.
Qed.

Lemma chunks_elem {A} n (l c : list A) x : c ∈ chunks n l -> x ∈ c -> x ∈ l.
Proof. intros Hc Hx. rewrite <- (chunks_concat n l). apply list_elem_of_join. by exists c. Qed.

(** What happens under an address does not touch the others. *)
Class SeparateStores (B I : Type) `{HB : !SessionStore B, HI : !IdentityKeyStore I} := {
  store_session_other : forall a a' r (b : B) b', store_session a r b = (Ok tt, b') -> a' <> a ->
    view_session b' a' = view_session b a';
  save_identity_other : forall a a' k k' d (i : I) c i', save_identity a k i = (Ok c, i') -> a' <> a ->
    is_trusted_identity a' k' d i' = is_trusted_identity a' k' d i;
  save_identity_own : forall a k (i : I) c i', save_identity a k i = (Ok c, i') ->
    get_identity_key_pair i' = get_identity_key_pair i /\ get_local_registration_id i' = get_local_registration_id i
}.

#[export] Instance protocol_address_eq_dec : EqDecision ProtocolAddress.
Proof. solve_decision. Defined.

Section Established.
Context `{HK : !Hkdf, HS : !Hashes, HA : !AesCbc, HC : !Curve25519, HP : !SignalProto}.
Context {B I K : Type} `{HB : !SessionStore B, HI : !IdentityKeyStore I, HPK : !PreKeyStore K}.
Context `{HR : !ReliableStores B I K, HSep : !SeparateStores B I}.
Context (send_iq : InfoQuery -> outcome ClientIqError Node) (show_node : Node -> str).
Context (show_error : SignalProtocolError -> str) (show_iq_error : ClientIqError -> str).
Context (contains_session : ProtocolAddress -> B -> outcome str bool).
Context (contains_ok : forall a b, contains_session a b = Ok (match view_session b a with Some _ => true | None => false end)).
Context (rnds : Jid -> bytes * bytes).

Lemma alice_total (p : AliceSignalProtocolParameters) rnd : exists s, initialize_alice_session p rnd = Ok s.
Proof.
  unfold initialize_alice_session, agree, calculate_agreement. cbn [map_err obind].
  destruct (al_their_one_time_pre_key p); cbn [map_err obind]; destruct (derive_keys _) as [ [root chain] ?];
    unfold create_chain; cbn [map_err obind]; eexists; reflexivity.
Qed.

(** The devices [l] and the bundles the server has for them: signed, and one
    identity per address. *)
Record servable (l : list Jid) (serves : Jid -> PreKeyBundle) : Prop := {
  sv_signed : forall j, j ∈ l ->
    verify_signature (bu_identity_key (serves j)) (public_serialize (sp_public_key (bu_ec_signed_pre_key (serves j))))
      (sp_signature (bu_ec_signed_pre_key (serves j))) = true;
  sv_identity : forall j j', j ∈ l -> j' ∈ l -> to_protocol_address j = to_protocol_address j' ->
    bu_identity_key (serves j) = bu_identity_key (serves j')
}.

(** The identity store knows its own key and trusts the identities of the bundles. *)
Definition trusting (l : list Jid) (serves : Jid -> PreKeyBundle) ida lid (i : I) : Prop :=
  get_identity_key_pair i = Ok ida /\ get_local_registration_id i = Ok lid
  /\ forall j, j ∈ l -> is_trusted_identity (to_protocol_address j) (bu_identity_key (serves j)) SessionCipher.Sending i = Ok true.

(** Sessions are only added. *)
Definition keeps_sessions (b b' : B) : Prop := forall a, is_Some (view_session b a) -> is_Some (view_session b' a).

Lemma one_established l serves ida lid j (b : B) (i : I) :
  servable l serves -> trusting l serves ida lid i -> j ∈ l ->
  exists b' i', process_prekey_bundle (to_protocol_address j) (serves j) (rnds j) (b, i) = (Ok tt, (b', i'))
    /\ trusting l serves ida lid i' /\ keeps_sessions b b' /\ is_Some (view_session b' (to_protocol_address j)).
Proof.
  intros [Hsig Hid] (Hi & Hl & Ht) Hj. destruct (alice_total (mkAlice ida (key_pair_generate (rnds j).1) (bu_identity_key (serves j))
    (sp_public_key (bu_ec_signed_pre_key (serves j))) (bu_pre_key_public (serves j)) (sp_public_key (bu_ec_signed_pre_key (serves j))))
    (rnds j).2) as [a Ha].
  destruct (process_bundle_effects (K := K) (to_protocol_address j) (serves j) (rnds j) b i ida lid a) as (b' & i' & c & Hp & Hst & Hs);
    [by apply Ht|by apply Hsig|done..|].
  exists b', i'. split; [done|]. assert (is_Some (view_session b' (to_protocol_address j))) as Hv by (rewrite (store_session_ok _ _ _ _ Hst); done).
  split; [|split; [|done] ].
  - unfold trusting. destruct (save_identity_own _ _ _ _ _ Hs) as [-> ->]. split_and!; [done|done|]. intros j' Hj'.
    destruct (decide (to_protocol_address j' = to_protocol_address j)) as [E|E].
    + rewrite E, (Hid j' j) by done. by eapply save_identity_trusted.
    + rewrite (save_identity_other _ _ _ _ _ _ _ _ Hs E). by apply Ht.
  - intros x Hx. destruct (decide (x = to_protocol_address j)) as [->|E]; [done|]. by rewrite (store_session_other _ _ _ _ _ Hst E).
Qed.

Lemma batch_established l serves ida lid bundles jids n (b : B) (i : I) :
  servable l serves -> trusting l serves ida lid i ->
  (forall j, j ∈ jids -> j ∈ l /\ bundle_get j bundles = Some (serves j)) ->
  exists b' i', establish rnds bundles jids n (b, i) = (Ok (n + length jids)%nat, (b', i'))
    /\ trusting l serves ida lid i' /\ keeps_sessions b b' /\ forall j, j ∈ jids -> is_Some (view_session b' (to_protocol_address j)).
Proof.
  intros Hs. revert n b i. induction jids as [|j jids IH]; intros n b i Ht Hj.
  - exists b, i. cbn. rewrite Nat.add_0_r. split_and!; [done|done|by intros ?|by intros ? ?%elem_of_nil].
  - destruct (Hj j) as [Hjl Hb]; [by left|]. cbn [establish]. rewrite Hb.
    destruct (one_established l serves ida lid j b i) as (b1 & i1 & Hp & Ht1 & Hk1 & Hv1); [done..|]. rewrite Hp.
    destruct (IH (S n) b1 i1 Ht1) as (b2 & i2 & He & Ht2 & Hk2 & Hv2); [intros j' Hj'; apply Hj; by right|].
    exists b2, i2. rewrite He. cbn [length]. rewrite Nat.add_succ_r. split_and!; [done|done|intros a Ha; by apply Hk2, Hk1|].
    intros j' [->|Hj']%elem_of_cons; [by apply Hk2|by apply Hv2].
Qed.

(** The server answers every request for some of the devices with their bundles. *)
Definition server_serves (l : list Jid) (serves : Jid -> PreKeyBundle) : Prop :=
  forall jids, jids <> [] -> (forall j, j ∈ jids -> j ∈ l) ->
    exists bundles, fetch_pre_keys send_iq show_node show_error show_iq_error jids (Some (lit "identity")) = Ok bundles
      /\ forall j, j ∈ jids -> bundle_get j bundles = Some (serves j).

Lemma fetched_establish jids bundles (st : B * I) :
  jids <> [] -> fetch_pre_keys send_iq show_node show_error show_iq_error jids (Some (lit "identity")) = Ok bundles ->
  fetch_and_establish_sessions send_iq show_node show_error show_iq_error rnds jids st = establish rnds bundles jids 0 st.
Proof. intros Hn Hf. unfold fetch_and_establish_sessions, mbind', mlift. destruct jids; [done|]. by rewrite Hf. Qed.

Lemma batches_established l serves ida lid batches (b : B) (i : I) :
  servable l serves -> server_serves l serves -> trusting l serves ida lid i ->
  (forall batch j, batch ∈ batches -> j ∈ batch -> j ∈ l) ->
  exists b' i', mfor (fun batch => let! _ := fetch_and_establish_sessions send_iq show_node show_error show_iq_error rnds batch in mret tt)
      batches (b, i) = (Ok tt, (b', i'))
    /\ keeps_sessions b b' /\ forall j, j ∈ mjoin batches -> is_Some (view_session b' (to_protocol_address j)).
Proof.
  intros Hs Hsv. revert b i. induction batches as [|batch batches IH]; intros b i Ht Hb.
  - exists b, i. split_and!; [done|by intros ?|by intros ? ?%elem_of_nil].
  - cbn [mfor]. assert (exists b1 i1 n, fetch_and_establish_sessions send_iq show_node show_error show_iq_error rnds batch (b, i) = (Ok n, (b1, i1))
      /\ trusting l serves ida lid i1 /\ keeps_sessions b b1
      /\ forall j, j ∈ batch -> is_Some (view_session b1 (to_protocol_address j))) as (b1 & i1 & n & He & Ht1 & Hk1 & Hv1).
    { destruct batch as [|x rest] eqn:E; [exists b, i, 0%nat; split_and!; [done|done|by intros ?|by intros ? ?%elem_of_nil]|]. rewrite <- E in *.
      destruct (Hsv batch) as (bundles & Hf & Hg); [by rewrite E|intros j Hj; apply (Hb batch); [by left|done]|].
      destruct (batch_established l serves ida lid bundles batch 0 b i) as (b1 & i1 & He & Ht1 & Hk1 & Hv1);
        [done|done|intros j Hj; split; [apply (Hb batch); [by left|done]|by apply Hg]|].
      exists b1, i1, (0 + length batch)%nat. split_and!; [|done..]. rewrite <- He. apply fetched_establish; [by rewrite E|exact Hf]. }
    unfold mbind' at 1 2. rewrite He. unfold mret at 1.
    destruct (IH b1 i1 Ht1) as (b2 & i2 & Hr & Hk2 & Hv2); [intros batch' j Hbt Hj; apply (Hb batch'); [by right|done]|].
    exists b2, i2. rewrite Hr. split_and!; [done|intros a Ha; by apply Hk2, Hk1|].
    intros j. cbn [mjoin list_join]. rewrite elem_of_app. intros [Hj|Hj]; [by apply Hk2, Hv1|by apply Hv2].
Qed.

Lemma needing_elem jids (b : B) j :
  j ∈ needing_sessions contains_session jids b <-> j ∈ jids /\ view_session b (to_protocol_address j) = None.
Proof.
  induction jids as [|x jids IH]; cbn [needing_sessions].
  - split; [by intros ?%elem_of_nil|by intros [?%elem_of_nil _] ].
  - rewrite contains_ok. destruct (view_session b (to_protocol_address x)) as [r|] eqn:E.
    + rewrite IH, elem_of_cons. split; [intros [? ?]; split; [by right|done]|]. intros [[->|?] ?]; [congruence|done].
    + rewrite !elem_of_cons, IH. split; [intros [->|[? ?] ]; split; auto|]. intros [[->|?] ?]; auto.
Qed.

Lemma chunks_bounded {A} n (l c : list A) : (0 < n)%nat -> c ∈ chunks n l -> (length c <= n)%nat.
Proof.
  intros Hn. unfold chunks, as_chunks. pose proof (chunks_fuel_length (length l) n l) as Hf.
  assert (forall fuel (l : list A), (length l <= fuel)%nat -> (length (chunks_fuel fuel n l).2 < n)%nat) as Hrest.
  { intros fuel. induction fuel as [|f IH]; intros m Hm; cbn [chunks_fuel].
    - cbn. lia.
    - case_decide as Hd; [|cbn; lia]. specialize (IH (drop n m)). destruct (chunks_fuel f n (drop n m)). cbn in *.
      apply IH. rewrite length_drop. lia. }
  specialize (Hrest (length l) l ltac:(lia)). destruct (chunks_fuel (length l) n l) as [full rest]. cbn [fst snd] in *.
  rewrite elem_of_app. rewrite Forall_forall in Hf. intros [Hc|Hc]; [by rewrite (Hf _ Hc)|].
  destruct rest as [|x rest]; [by apply elem_of_nil in Hc|]. apply list_elem_of_singleton in Hc as ->. lia.
Qed.

(** Every addressed device gets a session.  When the presence test answers, the
    server hands out a signed bundle for each device, one identity per address,
    and the identities are trusted, ensuring sessions for any list of addresses
    succeeds; afterwards every one of them, resolved to its LID where one is
    known, has a session, no session was lost, and the devices asked for are
    exactly those that had none, in requests of at most fifty. *)
Theorem sessions_established serves ida lid c jids (b : B) (i : I) :
  let resolved := resolve_lid_mappings c jids in
  let needing := needing_sessions contains_session resolved b in
  servable resolved serves -> server_serves resolved serves -> trusting resolved serves ida lid i ->
  exists b' i', ensure_e2e_sessions send_iq show_node show_error show_iq_error contains_session rnds c jids (b, i) = (Ok tt, (b', i'))
    /\ (forall j, j ∈ jids -> is_Some (view_session b' (to_protocol_address (resolve_encryption_jid c j))))
    /\ keeps_sessions b b'
    /\ mjoin (chunks SESSION_CHECK_BATCH_SIZE needing) = needing
    /\ (forall j, j ∈ needing <-> j ∈ resolved /\ view_session b (to_protocol_address j) = None)
    /\ forall batch, batch ∈ chunks SESSION_CHECK_BATCH_SIZE needing -> (length batch <= 50)%nat.
Proof.
  intros resolved needing Hs Hsv Ht.
  destruct (batches_established resolved serves ida lid (chunks SESSION_CHECK_BATCH_SIZE needing) b i) as (b' & i' & Hr & Hk & Hv);
    [done|done|done| |].
  { intros batch j Hb Hj. apply (chunks_elem _ _ _ _ Hb) in Hj. by apply needing_elem in Hj as [? _]. }
  rewrite chunks_concat in Hv. exists b', i'.
  assert (forall j, j ∈ jids -> is_Some (view_session b' (to_protocol_address (resolve_encryption_jid c j)))) as Hall.
  { intros j Hj. rewrite resolve_same_address.
    assert (resolve_lid_mapping c j ∈ resolved) as Hres by by apply list_elem_of_fmap_2.
    destruct (view_session b (to_protocol_address (resolve_lid_mapping c j))) as [r|] eqn:E; [by apply Hk; rewrite E|].
    apply Hv. by apply needing_elem. }
  split_and!; [|done|done|apply chunks_concat|apply needing_elem|intros batch; apply chunks_bounded; unfold SESSION_CHECK_BATCH_SIZE; lia].
  unfold ensure_e2e_sessions. destruct jids; exact Hr.
Qed.
End Established.

(** ** Witness *)

Definition toy_separate : @SeparateStores (ProtocolAddress -> option SessionRecord) IdentityKeyPair toy_sessions toy_identities.
Proof.
  split.
  - intros a a' r b b' [= <-] Hne. cbn. rewrite decide_False; [done|]. intros [H1 H2]. apply Hne.
    destruct a, a'. cbn in *. congruence.
  - intros a a' k k' d i c i' [= _ <-] _. done.
  - intros a k i c i' [= _ <-]. done.
Defined.

Definition toy_bob : Jid := lid_device (lit "100") 3.
Definition toy_answer : Node :=
  match serve_user toy_bob (match iq_content (upload_query toy_key_device [(9, toy_pair 5)]) with Some (NC_Nodes l) => l | _ => [] end) 0 with
  | Some user => mkNode (lit "iq") [] (Some (NC_Nodes [mkNode (lit "list") [] (Some (NC_Nodes [user]))]))
  | None => mkNode (lit "iq") [] None
  end.
Definition toy_bundles : list (Jid * PreKeyBundle) :=
  match parse_prekeys_response (fun _ => []) (fun _ => []) toy_answer with Ok l => l | _ => [] end.
Definition toy_serves (j : Jid) : PreKeyBundle := match bundle_get toy_bob toy_bundles with Some b => b | None => toy_bundle end.
Definition toy_contains (a : ProtocolAddress) (b : ProtocolAddress -> option SessionRecord) : outcome str bool :=
  Ok (match b a with Some _ => true | None => false end).
Definition toy_lids : LidPnCache := add (entry_new 1 (lit "100") toy_phone LS_Usync) cache_new.

Lemma sessions_established_witness :
  exists b' i',
    @ensure_e2e_sessions toy_hkdf sum_curve _ _ toy_sessions toy_identities (fun _ => Ok toy_answer) (fun _ => []) (fun _ => [])
      (fun _ => []) toy_contains (fun _ => (replicate 32 2, replicate 32 6)) toy_lids [pn_device toy_phone 3] (fun _ => None, toy_identity 1)
    = (Ok tt, (b', i'))
    /\ is_Some (b' (mkProtocolAddress (lit "100:3@lid") 0)).
Proof.
  destruct (@sessions_established toy_hkdf sum_curve _ _ _ toy_sessions toy_identities toy_prekeys toy_stores toy_separate
    (fun _ => Ok toy_answer) (fun _ => []) (fun _ => []) (fun _ => []) toy_contains (fun _ _ => eq_refl)
    (fun _ => (replicate 32 2, replicate 32 6)) toy_serves (toy_identity 1) 33 toy_lids [pn_device toy_phone 3] (fun _ => None) (toy_identity 1))
    as (b' & i' & He & Hv & _).
  - split; [|done]. intros j _. vm_compute. reflexivity.
  - intros jids _ Hj. exists toy_bundles. split; [vm_compute; reflexivity|]. intros j Hin.
    apply Hj, list_elem_of_singleton in Hin as ->. vm_compute. reflexivity.
  - by split_and!.
  - exists b', i'. split; [exact He|]. apply (Hv (pn_device toy_phone 3)). by left.
Defined.
