(* ===== verification/Retry.v ===== *)
(** * Retry: [src/retry.rs], the recent messages and forget marks of
      [src/client/sender_keys.rs], and the source of a receipt in [src/receipt.rs]

    When a device cannot decrypt a message it asks for it again; the sender
    checks the request, renews what it encrypts with and sends the message once
    more.  Sending itself, the verdicts of the statements and the decoding of a
    cached message are arguments.  The theorems show that a request is honoured
    once while it is remembered, that the keys of a retry receipt are ones its
    sender can answer to, and that the session made of them does not survive
    until the message is sent again. *)

From stdpp Require Import gmap.
From S2P Require Import Prelude RustStd Crypto Curve Jid Node Attrs Session SessionCipher SessionRatchet PreKeys Noise Connection.
From S2P Require Import Device Requests Pairing DeviceStore KeyServer Persistence LidPn Registry Establish.

(** ** Data *)

Definition MAX_RETRY_COUNT : u8 := 5.
Definition MIN_RETRY_COUNT_FOR_KEYS : u8 := 2.
Definition MIN_RETRY_FOR_BASE_KEY_CHECK : u8 := 2.

Inductive RetryReason :=
| UnknownError | NoSession | RR_InvalidKey | RR_InvalidKeyId | RR_InvalidMessage | RR_InvalidSignature | FutureMessage | BadMac
| RR_InvalidSession | InvalidMsgKey.
Definition reason_as_u8 (r : RetryReason) : u8 :=
  match r with
  | UnknownError => 0 | NoSession => 1 | RR_InvalidKey => 2 | RR_InvalidKeyId => 3 | RR_InvalidMessage => 4
  | RR_InvalidSignature => 5 | FutureMessage => 6 | BadMac => 7 | RR_InvalidSession => 8 | InvalidMsgKey => 9
  end.

Inductive AddressingMode := AM_Pn | AM_Lid.
Record MessageSource := mkMessageSource {
  ms_chat : Jid; ms_sender : Jid; ms_is_from_me : bool; ms_is_group : bool; ms_addressing_mode : option AddressingMode;
  ms_sender_alt : option Jid; ms_recipient_alt : option Jid; ms_broadcast_list_owner : option Jid; ms_recipient : option Jid
}.
(** The fields that are not always the default. *)
Record MessageInfo := mkMessageInfo {
  mi_source : MessageSource; mi_id : str; mi_push_name : str; mi_timestamp : i64; mi_category : str
}.
Definition source_of (chat sender : Jid) : MessageSource := mkMessageSource chat sender false false None None None None None.

(** Who a receipt is from: the participant counts in groups only. *)
Definition receipt_source (node : Node) : MessageSource :=
  let '(from, attrs) := ap_jid (lit "from") (ap_new node) in
  let participant := (ap_optional_jid (lit "participant") attrs).1 in
  let sender := if is_group from then match participant with Some p => p | None => from end else from in
  source_of from sender.

(** ** Reading the keys of a retry receipt *)

(** Four bytes, or fewer as the low ones. *)
Definition be_u32 (b : bytes) : u32 :=
  match b with
  | x :: y :: z :: w :: _ => u32_from_be_bytes x y z w
  | [x; y; z] => u32_from_be_bytes 0 x y z
  | [x; y] => u32_from_be_bytes 0 0 x y
  | [x] => u32_from_be_bytes 0 0 0 x
  | [] => 0
  end.

Definition extract_registration_id_from_node (n : Node) : option u32 :=
  match node_bytes (get_optional_child n (lit "registration")) with
  | Some [] | None => None
  | Some b => Some (be_u32 b)
  end.

Definition child_bytes (n : Node) (t : string) : option bytes := node_bytes (get_optional_child n (lit t)).

Section Bundle.
Context `{HC : !Curve25519}.

Definition retry_pre_key (keys_node : Node) : option (u32 * PublicKey) :=
  match get_optional_child keys_node (lit "key") with
  | None => None
  | Some key_node =>
      match child_bytes key_node "id", child_bytes key_node "value" with
      | Some (x :: y :: z :: _), Some value_bytes =>
          match from_djb_public_key_bytes value_bytes with Ok k => Some (u32_from_be_bytes 0 x y z, k) | _ => None end
      | _, _ => None
      end
  end.

(** From the identity on; [registration_id] was read before. *)
Definition retry_bundle (show_error : SignalProtocolError -> str) (keys_node : Node) (registration_id : u32) (requester_jid : Jid)
    : outcome str PreKeyBundle :=
  let? identity_bytes := ok_or (lit "Missing identity key in retry receipt") (child_bytes keys_node "identity") in
  let? identity_key := curve_text (from_djb_public_key_bytes identity_bytes) in
  let prekey_data := retry_pre_key keys_node in
  let? skey_node := ok_or (lit "Missing signed prekey in retry receipt") (get_optional_child keys_node (lit "skey")) in
  let? skey_id_bytes := ok_or (lit "Missing signed prekey ID") (child_bytes skey_node "id") in
  let? skey_id := match skey_id_bytes with
                  | x :: y :: z :: _ => Ok (u32_from_be_bytes 0 x y z)
                  | _ => Err (lit "Invalid signed prekey ID length")
                  end in
  let? skey_value_bytes := ok_or (lit "Missing signed prekey value") (child_bytes skey_node "value") in
  let? skey_public := curve_text (from_djb_public_key_bytes skey_value_bytes) in
  let? skey_sig_bytes := ok_or (lit "Missing signed prekey signature") (child_bytes skey_node "signature") in
  if negb (length skey_sig_bytes =? 64)%nat then Err (lit "Invalid signature length")
  else map_err show_error (bundle_new registration_id (device requester_jid) prekey_data skey_id skey_public skey_sig_bytes identity_key).
End Bundle.

(** ** Recent messages and forget marks *)

Definition take_recent (to : Jid) (id : str) (l : list (Jid * str * bytes)) : option bytes * list (Jid * str * bytes) :=
  (match List.find (fun e => bool_decide (e.1 = (to, id))) l with Some e => Some e.2 | None => None end,
   List.filter (fun e => negb (bool_decide (e.1 = (to, id)))) l).
Definition take_recent_message {M} (decode : bytes -> option M) (to : Jid) (id : str) (l : list (Jid * str * bytes))
    : option M * list (Jid * str * bytes) :=
  let '(b, l) := take_recent to id l in
  (match b with Some b => decode b | None => None end, l).
Definition add_recent_message (to : Jid) (id : str) (msg : bytes) (l : list (Jid * str * bytes)) : list (Jid * str * bytes) :=
  (to, id, msg) :: (take_recent to id l).2.

Definition is_own (own : option str) (p : str) : bool :=
  match own with
  | Some u => starts_with (u ++ lit ":") p || starts_with (u ++ lit "@") p || (p =s u)
  | None => false
  end.

(** [io]: the verdict of each insertion *)
Definition mark_forget_sender_key (io : outcome StoreError unit) (own_lid_user own_pn_user : option str) (group_jid : str)
    (participants : list str) (marks : gset (str * str)) : outcome str unit * gset (str * str) :=
  let filtered := List.filter (fun p => negb (is_own own_lid_user p) && negb (is_own own_pn_user p)) participants in
  mfor (fun participant marks =>
          match io with
          | Ok _ => (Ok tt, {[(group_jid, participant)]} ∪ marks)
          | Err e => (Err (show_store_error e), marks)
          | Panic => (Panic, marks)
          | NoFuel => (NoFuel, marks)
          end) filtered marks.
Definition consume_forget_marks (group_jid : str) (marks : gset (str * str)) : list str * gset (str * str) :=
  (map snd (elements (filter (fun m => m.1 = group_jid) marks)), filter (fun m => m.1 <> group_jid) marks).

(** ** Handling a retry receipt *)

Record RetryState (B I : Type) := mkRetryState {
  rt_retried : gset str; rt_pending : gset str; rt_recent : list (Jid * str * bytes); rt_stores : B * I; rt_registry : RegState;
  rt_base_keys : gmap (str * str) bytes; rt_marks : gset (str * str)
}.
Arguments mkRetryState {B I} _ _ _ _ _ _ _.
Arguments rt_retried {B I} _.
Arguments rt_pending {B I} _.
Arguments rt_recent {B I} _.
Arguments rt_stores {B I} _.
Arguments rt_registry {B I} _.
Arguments rt_base_keys {B I} _.
Arguments rt_marks {B I} _.

(** The verdicts of the statements a receipt leads to. *)
Record RetryIo := mkRetryIo {
  io_registry : str -> outcome StoreError unit; io_save_base : outcome StoreError unit; io_same_base : outcome StoreError unit;
  io_delete_base : outcome StoreError unit; io_mark : outcome StoreError unit
}.

Section Retry.
Context `{HK : !Hkdf, HS : !Hashes, HA : !AesCbc, HC : !Curve25519, HP : !SignalProto, HJ : !DeviceJson}.
Context {B I M : Type} `{HB : !SessionStore B, HI : !IdentityKeyStore I}.
Context (delete_session : ProtocolAddress -> comp B str unit) (decode : bytes -> option M).
Context (show_error : SignalProtocolError -> str).

(** The device's own session store gives a fresh record where there is none. *)
Definition device_load_session (a : ProtocolAddress) (b : B) : outcome SignalProtocolError SessionRecord :=
  let? o := load_session a b in Ok (some_or session_record_new_fresh o).

Definition process_retry_key_bundle (node : Node) (requester_jid : Jid) (is_peer : bool) (rnds : bytes * bytes) : comp (B * I) str unit :=
  fun st =>
    (let! keys_node := mlift (ok_or (lit "<keys> child missing from retry receipt") (get_optional_child node (lit "keys"))) in
     let registration_id := match child_bytes node "registration" with Some b => be_u32 b | None => 0 end in
     if registration_id =? 0 then mfail (lit "Invalid registration ID in retry receipt")
     else
       let signal_address := to_protocol_address requester_jid in
       let! _ := mlift (match device_load_session signal_address st.1 with
                        | Panic => Panic
                        | NoFuel => NoFuel
                        | Ok session =>
                            let? existing_reg_id := map_err show_error (record_remote_registration_id session) in
                            if negb (existing_reg_id =? 0) && negb (existing_reg_id =? registration_id) && is_peer then
                              Err (lit "Registration ID changed for peer device " ++ show_address signal_address ++ lit " (was "
                                   ++ show_uint existing_reg_id ++ lit ", now " ++ show_uint registration_id
                                   ++ lit "). This may indicate the device was reinstalled.")
                            else Ok tt
                        | Err _ => Ok tt
                        end) in
       let! bundle := mlift (retry_bundle show_error keys_node registration_id requester_jid) in
       fun st => let '(o, st) := process_prekey_bundle signal_address bundle rnds st in (map_err show_error o, st)) st.

Definition dedupe_key (source : MessageSource) (message_id : str) : str :=
  if is_group (ms_chat source)
  then jid_to_string (ms_chat source) ++ lit ":" ++ message_id ++ lit ":" ++ jid_to_string (ms_sender source)
  else jid_to_string (ms_chat source) ++ lit ":" ++ message_id.

(** A key bundle that could not be used: a session of another registration goes. *)
Definition drop_mismatched (node : Node) (signal_address : ProtocolAddress) (b : B) : B :=
  match extract_registration_id_from_node node with
  | None => b
  | Some received_reg_id =>
      match device_load_session signal_address b with
      | Ok session =>
          match record_remote_registration_id session with
          | Ok stored_reg_id =>
              if negb (stored_reg_id =? 0) && negb (stored_reg_id =? received_reg_id) then (delete_session signal_address b).2 else b
          | _ => b
          end
      | _ => b
      end
  end.

(** The base key of the session, remembered at the second retry and compared later. *)
Definition track_base_key (io : RetryIo) (signal_address : ProtocolAddress) (message_id : str) (retry_count : u8) (b : B)
    (keys : gmap (str * str) bytes) : gmap (str * str) bytes :=
  let at_ := (show_address signal_address, message_id) in
  match device_load_session signal_address b with
  | Ok session =>
      match record_alice_base_key session with
      | Ok current_base_key =>
          if retry_count =? MIN_RETRY_FOR_BASE_KEY_CHECK then
            match io_save_base io with Ok _ => <[at_ := current_base_key]> keys | _ => keys end
          else if MIN_RETRY_FOR_BASE_KEY_CHECK <? retry_count then
            match io_same_base io with
            | Ok _ => match io_delete_base io with Ok _ => delete at_ keys | _ => keys end
            | _ => keys
            end
          else keys
      | _ => keys
      end
  | _ => keys
  end.

(** The part for direct messages. *)
Definition renew_session (io : RetryIo) (node : Node) (participant_jid : Jid) (is_peer : bool) (message_id : str) (retry_count : u8)
    (rnds : bytes * bytes) (s : RetryState B I) : RetryState B I :=
  let signal_address := to_protocol_address participant_jid in
  let '(o, st) := process_retry_key_bundle node participant_jid is_peer rnds (rt_stores s) in
  let b := match o with Ok _ => st.1 | _ => drop_mismatched node signal_address st.1 end in
  let keys := track_base_key io signal_address message_id retry_count b (rt_base_keys s) in
  let b := (delete_session signal_address b).2 in
  mkRetryState (rt_retried s) (rt_pending s) (rt_recent s) (b, st.2) (rt_registry s) keys (rt_marks s).

(** Up to sending: the chat, the message and its id, when it is to be sent again.
    A receipt's message stays marked as pending until [release]. *)
Definition check_retry (io : RetryIo) (d : Device) (source : MessageSource) (node : Node) (rnds : bytes * bytes)
    : comp (RetryState B I) str (option (Jid * M * str)) :=
  fun s =>
    match get_optional_child node (lit "retry") with
    | None => (Err (lit "<retry> child missing from receipt"), s)
    | Some retry_child =>
        let message_id := (ap_string (lit "id") (ap_new retry_child)).1 in
        let retry_count := match (ap_optional_string (lit "count") (ap_new retry_child)).1 with
                           | Some c => match parse_int 0 255 c with Ok v => v | _ => 1 end
                           | None => 1
                           end in
        if MAX_RETRY_COUNT <=? retry_count then (Ok None, s)
        else if decide (dedupe_key source message_id ∈ rt_retried s) then (Ok None, s)
        else
          let s := mkRetryState ({[dedupe_key source message_id]} ∪ rt_retried s) (rt_pending s) (rt_recent s) (rt_stores s)
                     (rt_registry s) (rt_base_keys s) (rt_marks s) in
          if decide (message_id ∈ rt_pending s) then (Ok None, s)
          else
            let '(original, recent) := take_recent_message decode (ms_chat source) message_id (rt_recent s) in
            let s := mkRetryState (rt_retried s) ({[message_id]} ∪ rt_pending s) recent (rt_stores s) (rt_registry s)
                       (rt_base_keys s) (rt_marks s) in
            match original with
            | None => (Ok None, s)
            | Some original_msg =>
                let participant_jid := ms_sender source in
                let '(known, registry) := has_device (io_registry io) (user participant_jid) (device participant_jid) (rt_registry s) in
                let s := mkRetryState (rt_retried s) (rt_pending s) (rt_recent s) (rt_stores s) registry (rt_base_keys s) (rt_marks s) in
                if negb known then (Ok None, s)
                else
                  let is_peer := match d_pn d with Some our_pn => user participant_jid =s user our_pn | None => false end in
                  let s :=
                    if is_group (ms_chat source) || is_status_broadcast (ms_chat source) then
                      let marks := (mark_forget_sender_key (io_mark io) (user <$> d_lid d) (user <$> d_pn d)
                                      (jid_to_string (ms_chat source)) [jid_to_string participant_jid] (rt_marks s)).2 in
                      mkRetryState (rt_retried s) (rt_pending s) (rt_recent s) (rt_stores s) (rt_registry s) (rt_base_keys s) marks
                    else renew_session io node participant_jid is_peer message_id retry_count rnds s in
                  (Ok (Some (ms_chat source, original_msg, message_id)), s)
            end
    end.

(** The task the guard starts when the handler is left. *)
Definition release (message_id : str) (s : RetryState B I) : RetryState B I :=
  mkRetryState (rt_retried s) (rt_pending s ∖ {[message_id]}) (rt_recent s) (rt_stores s) (rt_registry s) (rt_base_keys s) (rt_marks s).

Definition handle_retry_receipt (send_message_impl : Jid -> M -> str -> comp (RetryState B I) str unit) (io : RetryIo) (d : Device)
    (source : MessageSource) (node : Node) (rnds : bytes * bytes) : comp (RetryState B I) str unit :=
  let! action := check_retry io d source node rnds in
  match action with
  | Some (chat, msg, id) => send_message_impl chat msg id
  | None => mret tt
  end.
End Retry.

(** ** Asking for a message again *)

Section Receipt.
Context `{HC : !Curve25519, HP : !PreKeyPb, HV : !AdvProto} {D : Type} `{HT : !Table Z D}.

Definition retry_node (info : MessageInfo) (retry_count : u8) (reason : RetryReason) : Node :=
  let b := b_attr (b_attr (b_attr (b_attr (builder_new (lit "retry")) (lit "v") (lit "1")) (lit "id") (mi_id info))
             (lit "t") (show_i32 (mi_timestamp info))) (lit "count") (show_uint retry_count) in
  build (match reason with UnknownError => b | _ => b_attr b (lit "error") (show_uint (reason_as_u8 reason)) end).

Definition new_prekey_id (rnd : u32) : u32 := rnd mod 16777215 + 1.

(** A new one-time key is stored first, and a key that cannot be stored only
    logged.  The identifier of the signed key is a constant. *)
Definition retry_keys (d : Device) (rnd_id : u32) (rnd_key : bytes) : comp D str Node :=
  fun t =>
    let id := new_prekey_id rnd_id in
    let kp := key_pair_generate rnd_key in
    let t := (device_store_prekey id (new_pre_key_record id kp) false t).2 in
    (let! account := mlift (ok_or (lit "Missing device account info for retry receipt") (d_account d)) in
     mret (build (b_children (builder_new (lit "keys"))
       [b_leaf "type" [5]; b_leaf "identity" (pk_bytes (kp_public (d_identity_key d)));
        pre_key_node (id, pk_bytes (kp_public kp));
        build (b_children (builder_new (lit "skey"))
          [b_leaf "id" (id_bytes 1); b_leaf "value" (pk_bytes (kp_public (d_signed_pre_key d)));
           b_leaf "signature" (d_signed_pre_key_signature d)]);
        b_leaf "device-identity" (adv_signed_encode account)]))) t.

Definition receipt_builder (d : Device) (info : MessageInfo) : NodeBuilder :=
  let source := mi_source info in
  let receipt_to := if ms_is_group source then jid_to_string (ms_chat source) else jid_to_string (ms_sender source) in
  let b := b_attr (b_attr (b_attr (builder_new (lit "receipt")) (lit "to") receipt_to) (lit "id") (mi_id info)) (lit "type") (lit "retry") in
  if ms_is_group source then b_attr b (lit "participant") (jid_to_string (ms_sender source))
  else
    let same o := match o with Some j => is_same_user_as (ms_sender source) j | None => false end in
    if same (d_pn d) || same (d_lid d) then
      if mi_category info =s lit "peer" then b_attr b (lit "category") (lit "peer")
      else b_attr b (lit "recipient") (jid_to_string (default_or (ms_chat source) (ms_recipient source)))
    else b.

(** [None]: bots are not asked. *)
Definition retry_receipt (d : Device) (info : MessageInfo) (retry_count : u8) (reason : RetryReason) (rnd_id : u32) (rnd_key : bytes)
    : comp D str (option Node) :=
  let we_are_bot := match d_pn d with Some our_pn => is_bot our_pn | None => false end in
  if negb we_are_bot && is_bot (ms_sender (mi_source info)) then mret None
  else
    let registration_node := b_leaf "registration" (u32_to_be_bytes (d_registration_id d)) in
    let! keys := (if MIN_RETRY_COUNT_FOR_KEYS <=? retry_count
                  then let! k := retry_keys d rnd_id rnd_key in mret [k] else mret []) in
    mret (Some (build (b_children (receipt_builder d info) (retry_node info retry_count reason :: registration_node :: keys)))).

Definition send_retry_receipt (send_node : Node -> outcome str unit) (d : Device) (info : MessageInfo) (retry_count : u8)
    (reason : RetryReason) (rnd_id : u32) (rnd_key : bytes) : comp D str unit :=
  let! node := retry_receipt d info retry_count reason rnd_id rnd_key in
  match node with Some n => mlift (send_node n) | None => mret tt end.
End Receipt.

(** ** Theory: asking *)

Section Answerable.
Context `{HK : !Hkdf, HC : !Curve25519, HP : !PreKeyPb, HV : !AdvProto}.
Context {D E B I : Type} `{HT : !Table Z D, HE : !Table str E, HB : !SessionStore B, HI : !IdentityKeyStore I}.
Context (show_error : SignalProtocolError -> str).

Definition key_device (d : Device) : KeyDevice :=
  mkKeyDevice (d_registration_id d) (d_identity_key d) (d_signed_pre_key_id d) (d_signed_pre_key d) (d_signed_pre_key_signature d).

Lemma new_prekey_id_bounds rnd : 1 <= new_prekey_id rnd < 2 ^ 24.
Proof. unfold new_prekey_id. pose proof (Z.mod_pos_bound rnd 16777215). lia. Qed.

Lemma djb_of_bytes b : length b = 32%nat -> from_djb_public_key_bytes b = Ok (mkPublicKey b).
Proof. intros H. unfold from_djb_public_key_bytes. by rewrite H. Qed.

Lemma retry_pre_key_read ks id v :
  0 <= id < 2 ^ 24 -> length v = 32%nat -> get_optional_child ks (lit "key") = Some (pre_key_node (id, v)) ->
  retry_pre_key ks = Some (id, mkPublicKey v).
Proof.
  intros Hid Hv Hk. unfold retry_pre_key. rewrite Hk. destruct (id_bytes_read id Hid) as (x & y & z & Hb & Hr).
  change (child_bytes (pre_key_node (id, v)) "id") with (Some (id_bytes id)).
  change (child_bytes (pre_key_node (id, v)) "value") with (Some v). by rewrite Hb, Hr, (djb_of_bytes v Hv).
Qed.

(** The keys of a receipt are read back. *)
Lemma retry_keys_bundle d rnd_id rnd_key (t t' : D) ks jid :
  device_wf d -> length rnd_key = 32%nat -> retry_keys d rnd_id rnd_key t = (Ok ks, t') ->
  retry_bundle show_error ks (d_registration_id d) jid
  = Ok (mkBundle (d_registration_id d) (device jid) (Some (new_prekey_id rnd_id))
          (Some (mkPublicKey (pk_bytes (kp_public (key_pair_generate rnd_key)))))
          (mkSignedPreKey 1 (mkPublicKey (pk_bytes (kp_public (d_signed_pre_key d)))) (d_signed_pre_key_signature d))
          (mkPublicKey (pk_bytes (kp_public (d_identity_key d))))).
Proof.
  intros Hd Hr. unfold retry_keys, mbind', mlift, mret. destruct (d_account d) as [acc|]; [|done]. cbn [ok_or]. intros [= <- _].
  set (ks := build _). unfold retry_bundle.
  change (child_bytes ks "identity") with (Some (pk_bytes (kp_public (d_identity_key d)))). cbn [ok_or obind].
  rewrite (djb_of_bytes (pk_bytes (kp_public (d_identity_key d)))) by apply valid_public_length, Hd. cbn [curve_text map_err obind].
  rewrite (retry_pre_key_read ks (new_prekey_id rnd_id) (pk_bytes (kp_public (key_pair_generate rnd_key))));
    [|pose proof (new_prekey_id_bounds rnd_id); lia|by apply valid_public_length, key_pair_generate_valid|reflexivity].
  change (get_optional_child ks (lit "skey")) with (Some (build (b_children (builder_new (lit "skey"))
    [b_leaf "id" (id_bytes 1); b_leaf "value" (pk_bytes (kp_public (d_signed_pre_key d)));
     b_leaf "signature" (d_signed_pre_key_signature d)]))).
  cbn [ok_or obind]. set (sk := build _). change (child_bytes sk "id") with (Some [0; 0; 1]).
  change (child_bytes sk "value") with (Some (pk_bytes (kp_public (d_signed_pre_key d)))).
  change (child_bytes sk "signature") with (Some (d_signed_pre_key_signature d)). cbn [ok_or obind].
  rewrite (djb_of_bytes (pk_bytes (kp_public (d_signed_pre_key d)))) by apply valid_public_length, Hd. cbn [curve_text map_err obind].
  by rewrite (dw_signature _ Hd).
Qed.

Lemma child_of b cs t : get_optional_child (build (b_children b cs)) t = List.find (fun c => tag c =s t) cs.
Proof. done. Qed.

(** What the asked side finds in a receipt. *)
Lemma retry_receipt_parts d info n reason rnd_id rnd_key (t t' : D) ks :
  is_bot (ms_sender (mi_source info)) = false -> MIN_RETRY_COUNT_FOR_KEYS <= n -> retry_keys d rnd_id rnd_key t = (Ok ks, t') ->
  exists node, retry_receipt d info n reason rnd_id rnd_key t = (Ok (Some node), t')
    /\ get_optional_child node (lit "keys") = Some ks
    /\ get_optional_child node (lit "retry") = Some (retry_node info n reason)
    /\ child_bytes node "registration" = Some (u32_to_be_bytes (d_registration_id d)).
Proof.
  intros Hbot Hn Hk. unfold retry_receipt. rewrite Hbot, andb_false_r, (proj2 (Z.leb_le _ _) Hn). unfold mbind', mret. rewrite Hk.
  eexists. split; [reflexivity|].
  assert (tag ks = lit "keys") as Htag.
  { revert Hk. unfold retry_keys, mbind', mlift, mret. destruct (d_account d); [|done]. cbn [ok_or]. by intros [= <- _]. }
  assert (tag (retry_node info n reason) = lit "retry") as Hrtag by (unfold retry_node; by destruct reason).
  unfold child_bytes. rewrite !child_of. cbn [List.find]. rewrite Hrtag, Htag. by split_and!.
Qed.

Lemma be_u32_read v : 0 <= v < 2 ^ 32 -> be_u32 (u32_to_be_bytes v) = v.
Proof. intros Hv. unfold be_u32, u32_to_be_bytes. by apply u32_be_roundtrip. Qed.

(** The asked side up to the bundle. *)
Lemma retry_bundle_processed node ks reg jid is_peer rnds bundle (b : B) (i : I) r st :
  load_session (to_protocol_address jid) b = Ok (Some r) -> current_session r = Some st ->
  get_optional_child node (lit "keys") = Some ks -> child_bytes node "registration" = Some (u32_to_be_bytes reg) ->
  0 < reg < 2 ^ 32 -> retry_bundle show_error ks reg jid = Ok bundle ->
  is_peer = false \/ remote_registration_id st = 0 \/ remote_registration_id st = reg ->
  process_retry_key_bundle show_error node jid is_peer rnds (b, i)
  = (let '(o, s) := process_prekey_bundle (to_protocol_address jid) bundle rnds (b, i) in (map_err show_error o, s)).
Proof.
  intros Hl Hc Hk Hr Hreg Hb Hok. unfold process_retry_key_bundle, mbind', mlift, device_load_session.
  rewrite Hk, Hr. cbn [ok_or fst]. rewrite be_u32_read by lia. destruct (Z.eqb_spec reg 0) as [|_]; [lia|]. rewrite Hl.
  cbn [obind some_or]. unfold record_remote_registration_id, record_current. rewrite Hc. cbn [ok_or obind map_err].
  assert (negb (remote_registration_id st =? 0) && negb (remote_registration_id st =? reg) && is_peer = false) as ->.
  { destruct Hok as [->|[->| ->] ]; [apply andb_false_r|done|by rewrite Z.eqb_refl, andb_false_r]. }
  by rewrite Hb.
Qed.

(** Without a session the keys are refused: a fresh record has no registration. *)
Lemma retry_bundle_refused node ks reg jid is_peer rnds (b : B) (i : I) :
  load_session (to_protocol_address jid) b = Ok None ->
  get_optional_child node (lit "keys") = Some ks -> child_bytes node "registration" = Some (u32_to_be_bytes reg) -> 0 < reg < 2 ^ 32 ->
  process_retry_key_bundle show_error node jid is_peer rnds (b, i)
  = (Err (show_error (InvalidState (lit "remote_registration_id") (lit "No current session"))), (b, i)).
Proof.
  intros Hl Hk Hr Hreg. unfold process_retry_key_bundle, mbind', mlift, device_load_session. rewrite Hk, Hr. cbn [ok_or fst].
  rewrite be_u32_read by lia. destruct (Z.eqb_spec reg 0) as [|_]; [lia|]. by rewrite Hl.
Qed.

(** The keys of a retry receipt are usable.  A receipt with keys, from a
    device whose signed pre-key has the identifier one, carries a bundle that
    the device published in the sense the first message needs, with a fresh
    one-time key that is in its table; an asked device that still has a session
    with the sender processes exactly this bundle, unless it is a peer whose
    registration changed; one that has none refuses it. *)
Theorem retry_receipt_answerable d acc info n reason rnd_id rnd_key now (ids : E) jid (t : D) :
  (forall k v (d : D), exists d', tbl_put k v d = (Ok tt, d')) -> device_wf d -> d_account d = Some acc ->
  d_signed_pre_key_id d = 1 -> d_registration_id d <> 0 -> is_bot (ms_sender (mi_source info)) = false ->
  MIN_RETRY_COUNT_FOR_KEYS <= n -> length rnd_key = 32%nat -> 0 <= now ->
  exists node t' bundle,
    retry_receipt d info n reason rnd_id rnd_key t = (Ok (Some node), t')
    /\ @published HC _ _ _ (device_identities show_error) device_prekeys device_signed_prekeys bundle
         (mkIdentityDevice (d_identity_key d) (d_registration_id d) ids) t'
         (mkSignedDevice (d_signed_pre_key d) (d_signed_pre_key_id d) (d_signed_pre_key_signature d) now)
         (mkIdentityKeyPair (kp_public (d_identity_key d)) (kp_private (d_identity_key d)))
         (d_signed_pre_key d) (Some (key_pair_generate rnd_key))
    /\ (forall is_peer rnds (b : B) (i : I) r st,
          load_session (to_protocol_address jid) b = Ok (Some r) -> current_session r = Some st ->
          is_peer = false \/ remote_registration_id st = 0 \/ remote_registration_id st = d_registration_id d ->
          process_retry_key_bundle show_error node jid is_peer rnds (b, i)
          = (let '(o, s) := process_prekey_bundle (to_protocol_address jid) bundle rnds (b, i) in (map_err show_error o, s)))
    /\ (forall is_peer rnds (b : B) (i : I),
          load_session (to_protocol_address jid) b = Ok None ->
          process_retry_key_bundle show_error node jid is_peer rnds (b, i)
          = (Err (show_error (InvalidState (lit "remote_registration_id") (lit "No current session"))), (b, i))).
Proof.
  intros Hrel Hd Hacc Hsid Hreg Hbot Hn Hr Hnow. set (id := new_prekey_id rnd_id). set (kp := key_pair_generate rnd_key).
  destruct (Hrel id (pkr_encode (new_pre_key_record id kp)) t) as [t' Ht].
  assert (exists ks, retry_keys d rnd_id rnd_key t = (Ok ks, t')) as [ks Hks].
  { unfold retry_keys, mbind', mlift, mret, device_store_prekey. fold id kp. rewrite Ht, Hacc. by eexists. }
  destruct (retry_receipt_parts d info n reason rnd_id rnd_key t t' ks) as (node & Hnode & Hk & _ & Hreg'); [done..|].
  pose proof (dw_registration _ Hd) as Hrb. assert (0 < d_registration_id d < 2 ^ 32) as Hrb' by lia.
  pose proof (retry_keys_bundle d rnd_id rnd_key t t' ks jid Hd Hr Hks) as Hb.
  exists node, t'. eexists. split; [exact Hnode|]. split; [|split].
  - pose proof (new_prekey_id_bounds rnd_id) as Hib.
    pose proof (device_published show_error (key_device d) ids now jid t' id kp) as Hp. cbn [key_device kd_identity_key kd_registration_id
      kd_signed_pre_key_id kd_signed_pre_key kd_signed_pre_key_signature] in Hp. rewrite Hsid in *.
    apply Hp; try apply Hd; try done; try (fold id in Hib; lia); [by apply key_pair_generate_valid|].
    apply (stored_prekey id kp false t t'); [by apply key_pair_generate_valid|exact Ht].
  - intros is_peer rnds b i r st Hl Hc Hok. by eapply retry_bundle_processed.
  - intros is_peer rnds b i Hl. by eapply retry_bundle_refused.
Qed.
End Answerable.

(** ** Theory: being asked *)

Lemma take_recent_gone to id l : (take_recent to id (take_recent to id l).2).1 = None.
Proof.
  cbn. destruct (List.find _ _) as [e|] eqn:E; [|done]. apply List.find_some in E as [Hin He].
  apply List.filter_In in Hin as [_ Hn]. by rewrite He in Hn.
Qed.

Lemma take_recent_added to id msg l : (take_recent to id (add_recent_message to id msg l)).1 = Some msg.
Proof. cbn. by rewrite bool_decide_eq_true_2. Qed.

Section Asked.
Context `{HK : !Hkdf, HC : !Curve25519, HJ : !DeviceJson} {B I M : Type} `{HB : !SessionStore B, HI : !IdentityKeyStore I}.
Context (delete_session : ProtocolAddress -> comp B str unit) (decode : bytes -> option M).
Context (show_error : SignalProtocolError -> str).

Definition message_id_of (node : Node) : str :=
  match get_optional_child node (lit "retry") with Some c => (ap_string (lit "id") (ap_new c)).1 | None => [] end.

(** When a message is sent again: the request was not remembered, the message
    was there and the device known; the request is remembered and the message
    taken from now on. *)
Lemma resend_inv io d source node rnds (s s' : RetryState B I) a :
  check_retry delete_session decode show_error io d source node rnds s = (Ok (Some a), s') ->
  let id := message_id_of node in
  a.1.1 = ms_chat source /\ a.2 = id
  /\ (dedupe_key source id ∉ rt_retried s) /\ rt_retried s' = {[dedupe_key source id]} ∪ rt_retried s
  /\ (id ∉ rt_pending s)
  /\ (exists b, (take_recent (ms_chat source) id (rt_recent s)).1 = Some b /\ decode b = Some a.1.2)
  /\ rt_recent s' = (take_recent (ms_chat source) id (rt_recent s)).2
  /\ (has_device (io_registry io) (user (ms_sender source)) (device (ms_sender source)) (rt_registry s)).1 = true.
Proof.
  unfold check_retry, message_id_of. destruct (get_optional_child node (lit "retry")) as [c|]; [|done].
  set (id := (ap_string _ _).1). case (MAX_RETRY_COUNT <=? _); [done|]. cbn [rt_pending rt_recent rt_registry].
  case_decide as Hk; [done|]. case_decide as Hp; [done|]. unfold take_recent_message.
  destruct (take_recent (ms_chat source) id (rt_recent s)) as [o recent] eqn:Et.
  destruct o as [b|]; [|done]. destruct (decode b) as [m|] eqn:Ed; [|done]. cbn [rt_registry].
  destruct (has_device _ _ _ _) as [known reg] eqn:Eh. destruct known; [|done]. cbn [negb fst snd].
  destruct (is_group _ || _); [|unfold renew_session; destruct (process_retry_key_bundle _ _ _ _ _ _)];
    intros [= <- <-]; cbn [fst snd rt_retried rt_recent]; split_and!; try done; by exists b.
Qed.

(** Remembered requests stay remembered. *)
Lemma remembered_stay io d source node rnds (s : RetryState B I) :
  rt_retried s ⊆ rt_retried (check_retry delete_session decode show_error io d source node rnds s).2.
Proof.
  unfold check_retry. destruct (get_optional_child node (lit "retry")) as [c|]; [|done].
  set (id := (ap_string _ _).1). case (MAX_RETRY_COUNT <=? _); [done|]. cbn [rt_pending rt_recent rt_registry].
  case_decide as Hk; [done|]. case_decide as Hp; [cbn; set_solver|].
  destruct (take_recent_message _ _ _ _) as [ [m|] recent]; [|cbn; set_solver]. cbn [rt_registry].
  destruct (has_device _ _ _ _) as [ [|] reg]; [|cbn; set_solver]. cbn [negb snd].
  destruct (is_group _ || _); [cbn; set_solver|]. unfold renew_session. destruct (process_retry_key_bundle _ _ _ _ _ _). cbn. set_solver.
Qed.

(** What a client does with the requests it gets: each is checked, and anything
    else may happen in between, sending included, that forgets no request.
    The labels are the requests that lead to sending. *)
Inductive retry_run : RetryState B I -> list str -> RetryState B I -> Prop :=
| run_nil s : retry_run s [] s
| run_receipt io d source node rnds s s1 ks s2 o :
    check_retry delete_session decode show_error io d source node rnds s = (o, s1) -> retry_run s1 ks s2 ->
    retry_run s ((match o with Ok (Some _) => [dedupe_key source (message_id_of node)] | _ => [] end) ++ ks) s2
| run_other s s1 ks s2 : rt_retried s ⊆ rt_retried s1 -> retry_run s1 ks s2 -> retry_run s ks s2.

Lemma retry_run_once s ks s' : retry_run s ks s' -> NoDup ks /\ forall k, k ∈ ks -> k ∉ rt_retried s.
Proof.
  induction 1 as [s|io d source node rnds s s1 ks s2 o Hc _ [IHn IHf]|s s1 ks s2 Hsub _ [IHn IHf] ].
  - split; [constructor|by intros k ?%elem_of_nil].
  - pose proof (remembered_stay io d source node rnds s) as Hm. rewrite Hc in Hm. cbn [snd] in Hm.
    destruct o as [ [a|]| | |]; cbn [app]; try (split; [done|]; intros k Hk Hin; by apply (IHf k Hk), Hm).
    destruct (resend_inv _ _ _ _ _ _ _ _ Hc) as (_ & _ & Hf & Hr & _). split.
    + constructor; [|done]. intros Hin. apply (IHf _ Hin). rewrite Hr. by apply elem_of_union_l, elem_of_singleton.
    + intros k [->|Hk]%elem_of_cons; [done|]. intros Hin. by apply (IHf k Hk), Hm.
  - split; [done|]. intros k Hk Hin. by apply (IHf k Hk), Hsub.
Qed.

(** A request for a message is honoured at most once while it is remembered.
    In every run, whatever else the client does in between, the requests that
    lead to sending are pairwise different and were not remembered before, and
    the message each sends is the one the cache held for its chat and
    identifier.  The number of the attempt is not part of what is remembered,
    so of the attempts at one message only the first is ever answered. *)
Theorem retry_honoured_once :
  (forall s ks s', retry_run s ks s' -> NoDup ks /\ forall k, k ∈ ks -> k ∉ rt_retried s)
  /\ (forall io d source node node' rnds rnds' (s s1 : RetryState B I) a,
        check_retry delete_session decode show_error io d source node rnds s = (Ok (Some a), s1) ->
        (exists b, (take_recent (ms_chat source) (message_id_of node) (rt_recent s)).1 = Some b /\ decode b = Some a.1.2)
        /\ (message_id_of node' = message_id_of node -> is_Some (get_optional_child node' (lit "retry")) ->
            check_retry delete_session decode show_error io d source node' rnds' s1 = (Ok None, s1))).
Proof.
  split; [apply retry_run_once|]. intros io d source node node' rnds rnds' s s1 a H.
  destruct (resend_inv _ _ _ _ _ _ _ _ H) as (_ & _ & _ & Hr & _ & Hm & _). split; [done|]. intros Hid [c Hc].
  unfold check_retry. rewrite Hc. case (MAX_RETRY_COUNT <=? _); [done|].
  assert ((ap_string (lit "id") (ap_new c)).1 = message_id_of node) as ->.
  { rewrite <- Hid. unfold message_id_of. by rewrite Hc. }
  rewrite decide_True; [done|]. rewrite Hr. by apply elem_of_union_l, elem_of_singleton.
Qed.

Context (deletes : forall a b, view_session (delete_session a b).2 a = None).

(** In a direct chat there is no session left when the message is sent again,
    also when one was just made of the keys of the request. *)
Lemma renewed_session_discarded io d source node rnds (s s' : RetryState B I) a :
  is_group (ms_chat source) || is_status_broadcast (ms_chat source) = false ->
  check_retry delete_session decode show_error io d source node rnds s = (Ok (Some a), s') ->
  view_session (rt_stores s').1 (to_protocol_address (ms_sender source)) = None.
Proof.
  intros Hg. unfold check_retry. destruct (get_optional_child node (lit "retry")) as [c|]; [|done].
  case (MAX_RETRY_COUNT <=? _); [done|]. cbn [rt_pending rt_recent rt_registry]. case_decide; [done|]. case_decide; [done|].
  destruct (take_recent_message _ _ _ _) as [ [m|] recent]; [|done]. cbn [rt_registry].
  destruct (has_device _ _ _ _) as [ [|] reg]; [|done]. cbn [negb]. rewrite Hg. intros [= _ <-].
  unfold renew_session. destruct (process_retry_key_bundle _ _ _ _ _ _) as [o st]. cbn [rt_stores fst]. apply deletes.
Qed.

(** A request of a device that is not known takes the message out of the cache,
    so that it cannot be sent to a known one afterwards. *)
Lemma unknown_device_takes io d source node rnds (s : RetryState B I) c :
  get_optional_child node (lit "retry") = Some c ->
  (has_device (io_registry io) (user (ms_sender source)) (device (ms_sender source)) (rt_registry s)).1 = false ->
  let '(o, s') := check_retry delete_session decode show_error io d source node rnds s in
  o = Ok None
  /\ (rt_retried s' = rt_retried s \/ (message_id_of node ∈ rt_pending s)
      \/ (take_recent (ms_chat source) (message_id_of node) (rt_recent s')).1 = None).
Proof.
  intros Hc Hu. unfold check_retry, message_id_of. rewrite Hc. set (id := (ap_string _ _).1).
  case (MAX_RETRY_COUNT <=? _); [by auto|]. cbn [rt_pending rt_recent rt_registry].
  case_decide; [by auto|]. case_decide; [by auto|]. unfold take_recent_message.
  destruct (take_recent (ms_chat source) id (rt_recent s)) as [o recent] eqn:Et.
  pose proof (take_recent_gone (ms_chat source) id (rt_recent s)) as Hg. rewrite Et in Hg. cbn [snd] in Hg.
  destruct o as [b|]; [destruct (decode b)|]; cbn [rt_registry rt_recent]; try by auto.
  destruct (has_device _ _ _ _) as [known reg]. cbn [fst] in Hu. subst known. cbn [negb rt_recent]. by auto.
Qed.
End Asked.

(** The sender of a receipt outside groups is the chat, whoever the participant
    is; so a request about a status message counts as one of [status@broadcast]. *)
Lemma receipt_sender node :
  is_group (ap_jid (lit "from") (ap_new node)).1 = false -> ms_sender (receipt_source node) = ms_chat (receipt_source node).
Proof. unfold receipt_source. destruct (ap_jid _ _) as [from attrs]. cbn [fst]. by intros ->. Qed.

(** ** Witnesses *)

Definition toy_retry_device : Device :=
  mkDevice (Some (pn toy_phone)) None 44 (toy_pair 2) (toy_pair 3) (toy_pair 4) 1 toy_signature (replicate 32 0)
    (Some (mkAdvSigned None None None None)) (lit "me") 2 3000 1 0 DEVICE_PROPS None.

Lemma toy_retry_device_wf : @device_wf sum_curve toy_retry_device.
Proof. split; try (cbn; lia); by split. Qed.

Definition toy_source : MessageSource := source_of toy_bob toy_bob.
Definition toy_info : MessageInfo := mkMessageInfo toy_source (lit "M1") [] 1000 [].

Lemma retry_receipt_answerable_witness :
  exists node t',
    @retry_receipt sum_curve toy_prekey_pb toy_adv _ (toy_table Z) toy_retry_device toy_info 2 NoSession 7 (replicate 32 6) (fun _ => None)
      = (Ok (Some node), t')
    /\ @process_retry_key_bundle toy_hkdf sum_curve _ _ toy_sessions toy_identities (fun _ => lit "refused") node toy_bob false
         (replicate 32 2, replicate 32 6) (fun _ => None, toy_identity 1) = (Err (lit "refused"), (fun _ => None, toy_identity 1)).
Proof.
  destruct (@retry_receipt_answerable toy_hkdf sum_curve toy_prekey_pb toy_adv _ _ _ _ (toy_table Z) (toy_table str) toy_sessions toy_identities
    (fun _ => lit "refused") toy_retry_device (mkAdvSigned None None None None) toy_info 2 NoSession 7 (replicate 32 6) 1000 (fun _ => None)
    toy_bob (fun _ => None)) as (node & t' & bundle & Hn & _ & _ & Hr);
    [exact toy_reliable|exact toy_retry_device_wf|reflexivity|reflexivity|discriminate|reflexivity|discriminate|reflexivity|discriminate|].
  exists node, t'. split; [exact Hn|]. by apply Hr.
Defined.

Definition toy_delete (a : ProtocolAddress) : comp (ProtocolAddress -> option SessionRecord) str unit :=
  fun b => (Ok tt, fun a' => if decide (a = a') then None else b a').
Definition toy_io : RetryIo := mkRetryIo (fun _ => Ok tt) (Ok tt) (Ok tt) (Ok tt) (Ok tt).
Definition toy_retry (count : string) : Node :=
  mkNode (lit "receipt") [] (Some (NC_Nodes [mkNode (lit "retry") [(lit "id", lit "M1"); (lit "count", lit count)] None])).
Definition toy_primary : MessageSource := source_of (pn (lit "5")) (pn (lit "5")).
Definition toy_retry_state : RetryState (ProtocolAddress -> option SessionRecord) IdentityKeyPair :=
  mkRetryState ∅ ∅ (add_recent_message (pn (lit "5")) (lit "M1") [1; 2] []) (fun _ => None, toy_identity 1) toy_registry ∅ ∅.
Definition toy_check (count : string) (s : RetryState (ProtocolAddress -> option SessionRecord) IdentityKeyPair) :=
  @check_retry toy_hkdf sum_curve toy_json _ _ bytes toy_sessions toy_identities toy_delete Some (fun _ => []) toy_io toy_retry_device toy_primary
    (toy_retry count) (replicate 32 2, replicate 32 6) s.

Lemma retry_honoured_once_witness :
  (toy_check "1" toy_retry_state).1 = Ok (Some (pn (lit "5"), [1; 2], lit "M1"))
  /\ (toy_check "2" (toy_check "1" toy_retry_state).2).1 = Ok None.
Proof.
  assert (toy_check "1" toy_retry_state = (Ok (Some (pn (lit "5"), [1; 2], lit "M1")), (toy_check "1" toy_retry_state).2)) as H
    by (vm_compute; reflexivity).
  split; [by rewrite H|].
  destruct (@retry_honoured_once toy_hkdf sum_curve toy_json _ _ bytes toy_sessions toy_identities toy_delete Some (fun _ => [])) as [_ Ho].
  destruct (Ho toy_io toy_retry_device toy_primary (toy_retry "1") (toy_retry "2") (replicate 32 2, replicate 32 6)
    (replicate 32 2, replicate 32 6) _ _ _ H) as [_ Hn].
  assert (toy_check "2" (toy_check "1" toy_retry_state).2 = (Ok None, (toy_check "1" toy_retry_state).2)) as ->
    by (apply Hn; [vm_compute; reflexivity|by eexists]).
  reflexivity.
Defined.
