(* ===== verification/Receive.v ===== *)
(** * Receive: [src/message.rs], [src/pdo.rs], [src/receipt.rs]

    What the client does with a message stanza: who it is from and in which
    chat, which parts are decrypted with which keys and in which order, what
    a decrypted message leads to, and what happens when it cannot be decrypted.
    A started task is an effect; so is an event.  The protobuf messages are an
    interface; sending is an argument.  The theorems show that a message sent
    to the device arrives as it was written, alone or in a group with its
    sender key; how often a failure is reported and a message asked for again;
    and that content from the phone is accepted from anyone. *)

From stdpp Require Import gmap.
From S2P Require Import Prelude RustStd Crypto Curve Jid Node Attrs Messages SenderKeys GroupCipher Session SessionCipher SessionRatchet.
From S2P Require Import PreKeys Noise Connection Device Requests Pairing DeviceStore KeyServer Persistence LidPn Registry Establish Retry.

(** ** Protobuf messages *)

(** A key of a key share; the fingerprint is kept encoded. *)
Record SyncKeyDataPb := mkSyncKeyData { skd_key_data : option bytes; skd_fingerprint : option bytes; skd_timestamp : option i64 }.
Record SyncKeyPb := mkSyncKeyPb { skp_key_id : option (option bytes); skp_key_data : option SyncKeyDataPb }.

Record WebMessageInfo (M : Type) := mkWebMessageInfo {
  wi_remote_jid : option str; wi_from_me : option bool; wi_id : option str; wi_participant : option str;
  wi_message_timestamp : option u64; wi_push_name : option str; wi_message : option M
}.
Arguments mkWebMessageInfo {M} _ _ _ _ _ _ _.
Arguments wi_remote_jid {M} _.
Arguments wi_from_me {M} _.
Arguments wi_id {M} _.
Arguments wi_participant {M} _.
Arguments wi_message_timestamp {M} _.
Arguments wi_push_name {M} _.
Arguments wi_message {M} _.

(** [wa::Message] with the fields that are looked at: the bytes of a sender key
    distribution, the keys of a key share, the results of a data operation
    (each with the answer about a placeholder, if it has one), and the history
    notification, which is taken out. *)
Class WaMessage (M H : Type) := {
  wm_encode : M -> bytes;
  wm_decode : bytes -> option M;
  wm_decode_encode : forall m, wm_decode (wm_encode m) = Some m;
  wm_encode_bytes : forall m, Forall is_byte (wm_encode m);
  wm_skdm : M -> option bytes;
  wm_key_share : M -> option (list SyncKeyPb);
  wm_pdo_response : M -> option (list (option (option bytes)));
  wm_take_history : M -> option H * M;
  web_decode : bytes -> option (WebMessageInfo M)
}.

(** ** Who a message is from *)

Definition jid_default : Jid := mkJid [] [] 0 0 0.
Definition to_ascii_lowercase (s : str) : str := map (fun c => if is_ascii_uppercase c then c + 32 else c) s.

Definition attr_jid (n : Node) (k : string) : Jid := (ap_jid (lit k) (ap_new n)).1.
Definition attr_opt_jid (n : Node) (k : string) : option Jid := (ap_optional_jid (lit k) (ap_new n)).1.
Definition attr_opt (n : Node) (k : string) : option str := (ap_optional_string (lit k) (ap_new n)).1.
Definition attr_string (n : Node) (k : string) : str := (ap_string (lit k) (ap_new n)).1.

Definition parse_source (own_pn own_lid : option Jid) (node : Node) : MessageSource :=
  let own_jid := default_or jid_default own_pn in
  let from := attr_jid node "from" in
  let mode := to_ascii_lowercase <$> attr_opt node "addressing_mode" in
  let addressing_mode := match mode with
                         | Some m => if m =s lit "pn" then Some AM_Pn else if m =s lit "lid" then Some AM_Lid else None
                         | None => None
                         end in
  if server from =s BROADCAST_SERVER then
    let participant := attr_jid node "participant" in
    mkMessageSource from participant (matches_user_or_lid participant own_jid own_lid) true addressing_mode None None
      (if negb (user from =s STATUS_BROADCAST_USER) then Some participant else None) None
  else if is_group from then
    let sender := attr_jid node "participant" in
    let sender_alt := match mode with
                      | Some m => if m =s lit "lid" then attr_opt_jid node "participant_pn" else attr_opt_jid node "participant_lid"
                      | None => None
                      end in
    mkMessageSource from sender (matches_user_or_lid sender own_jid own_lid) true addressing_mode sender_alt None None None
  else if matches_user_or_lid from own_jid own_lid then
    let recipient := attr_opt_jid node "recipient" in
    let chat := match recipient with Some r => to_non_ad r | None => to_non_ad from end in
    mkMessageSource chat from true false addressing_mode None None None recipient
  else
    let sender_alt := if server from =s HIDDEN_USER_SERVER then attr_opt_jid node "sender_pn" else attr_opt_jid node "sender_lid" in
    mkMessageSource (to_non_ad from) from false false addressing_mode sender_alt None None None.

(** [valid_time]: whether [chrono] can represent a second of the epoch; [now]
    stands for the present. *)
Definition parse_message_info (valid_time : i64 -> bool) (now : i64) (d : Device) (node : Node) : MessageInfo :=
  let t := (ap_unix_time (lit "t") (ap_new node)).1 in
  mkMessageInfo (parse_source (d_pn d) (d_lid d) node) (attr_string node "id") (default_or [] (attr_opt node "notify"))
    (if valid_time t then t else now) (default_or [] (attr_opt node "category")).

(** ** Receipts *)

Inductive ReceiptType :=
| RT_Delivered | RT_Sender | RT_Retry | RT_Read | RT_ReadSelf | RT_Played | RT_PlayedSelf | RT_ServerError | RT_Inactive
| RT_PeerMsg | RT_HistorySync | RT_Other (s : str).
Definition receipt_type_of (s : str) : ReceiptType :=
  if s =s [] then RT_Delivered else if s =s lit "sender" then RT_Sender else if s =s lit "retry" then RT_Retry
  else if s =s lit "read" then RT_Read else if s =s lit "read-self" then RT_ReadSelf else if s =s lit "played" then RT_Played
  else if s =s lit "played-self" then RT_PlayedSelf else if s =s lit "server-error" then RT_ServerError
  else if s =s lit "inactive" then RT_Inactive else if s =s lit "peer_msg" then RT_PeerMsg
  else if s =s lit "hist_sync" then RT_HistorySync else RT_Other s.

Record Receipt := mkReceipt { rc_source : MessageSource; rc_message_ids : list str; rc_type : ReceiptType; rc_message_sender : Jid }.
Inductive ReceiptAction := HandleRetry (r : Receipt) (n : Node) | DispatchReceipt (r : Receipt).

Definition handle_receipt (node : Node) : ReceiptAction :=
  let source := receipt_source node in
  let type := receipt_type_of (default_or (lit "delivery") (attr_opt node "type")) in
  let receipt := mkReceipt source [attr_string node "id"] type (ms_sender source) in
  match type with RT_Retry => HandleRetry receipt node | _ => DispatchReceipt receipt end.

(** [order]: how the hash map hands out its entries *)
Definition delivery_receipt (order : list (str * str) -> list (str * str)) (info : MessageInfo) : option Node :=
  let source := mi_source info in
  if ms_is_from_me source || (mi_id info =s []) || (user (ms_chat source) =s STATUS_BROADCAST_USER) then None
  else
    let attrs := [(lit "id", mi_id info); (lit "to", jid_to_string (ms_chat source)); (lit "type", lit "delivery")]
                 ++ (if ms_is_group source then [(lit "participant", jid_to_string (ms_sender source))] else []) in
    Some (build (b_attrs_all (builder_new (lit "receipt")) (order attrs))).

(** ** Counting retries *)

Definition MAX_DECRYPT_RETRIES : u8 := 5.

(** [message_retry_counts]: a cache of at most [RETRY_CAPACITY] counts, each of
    which lives for [RETRY_TTL] from when it was last written.  An entry is kept
    with the time of its writing, in milliseconds. *)
Definition RETRY_TTL : Z := 300 * 1000.
Definition RETRY_CAPACITY : nat := 5000.
Abbreviation RetryCounts := (gmap str (u8 * Z)) (only parsing).

(** What the cache holds for a key at a time. *)
Definition live_count (now : Z) (cache_key : str) (counts : RetryCounts) : option u8 :=
  match counts !! cache_key with Some (c, written) => if now <? written + RETRY_TTL then Some c else None | None => None end.

(** A cache that is over its capacity may drop any entry.  Expired entries
    count here as long as nothing replaces them, so that no run is left out. *)
Definition evict (cache_key : str) (counts : RetryCounts) : RetryCounts :=
  if (RETRY_CAPACITY <? size counts)%nat then delete cache_key counts else counts.

(** Leaving an entry as it is does not prolong its life. *)
Definition increment_retry_count (now : Z) (cache_key : str) (counts : RetryCounts) : option u8 * RetryCounts :=
  match live_count now cache_key counts with
  | Some current =>
      if MAX_DECRYPT_RETRIES <=? current then (None, counts) else (Some (current + 1), <[cache_key := (current + 1, now)]> counts)
  | None => (Some 1, <[cache_key := (1, now)]> counts)
  end.

Definition retry_cache_key (info : MessageInfo) : str :=
  jid_to_string (ms_chat (mi_source info)) ++ lit ":" ++ mi_id info ++ lit ":" ++ jid_to_string (ms_sender (mi_source info)).

(** What the task does that a failure starts: a retry receipt with its number,
    and a request to the phone, at once or delayed. *)
Inductive RetryAction := SendRetry (info : MessageInfo) (count : u8) (reason : RetryReason) | RequestPdo (info : MessageInfo) (immediate : bool).

Definition spawn_pdo_request_with_options (info : MessageInfo) (immediate : bool) : list RetryAction :=
  if ms_is_from_me (mi_source info) then []
  else if server (ms_chat (mi_source info)) =s BROADCAST_SERVER then []
  else [RequestPdo info immediate].

Definition retry_task (now : Z) (info : MessageInfo) (reason : RetryReason) (counts : RetryCounts) : list RetryAction * RetryCounts :=
  let '(count, counts) := increment_retry_count now (retry_cache_key info) counts in
  match count with
  | None => (spawn_pdo_request_with_options info true, counts)
  | Some retry_count =>
      (SendRetry info retry_count reason :: (if retry_count =? 1 then spawn_pdo_request_with_options info false else []), counts)
  end.

(** The request names the message; [ensure], [send_peer]: making sure of a
    session with the phone and sending to it.  Entries of the table live for a
    while; what ends them is not part of this. *)
Record MessageKey := mkMessageKey { mk_remote_jid : str; mk_from_me : bool; mk_id : str; mk_participant : option str }.
Definition send_pdo_placeholder_resend_request (ensure : Jid -> outcome str unit) (send_peer : Jid -> MessageKey -> outcome str unit)
    (own_pn : option Jid) (info : MessageInfo) : comp (gmap str MessageInfo) str unit :=
  let source := mi_source info in
  let! own_pn := mlift (ok_or (lit "Not logged in - no phone number available for PDO") own_pn) in
  let primary_phone_jid := with_device own_pn 0 in
  let cache_key := jid_to_string (ms_chat source) ++ lit ":" ++ mi_id info in
  fun pending =>
    match pending !! cache_key with
    | Some _ => (Ok tt, pending)
    | None =>
        let pending := <[cache_key := info]> pending in
        let key := mkMessageKey (jid_to_string (ms_chat source)) (ms_is_from_me source) (mi_id info)
                     (if ms_is_group source then Some (jid_to_string (ms_sender source)) else None) in
        match ensure primary_phone_jid with
        | Ok _ =>
            match send_peer primary_phone_jid key with
            | Err e => (Err e, delete cache_key pending)
            | o => (o, pending)
            end
        | o => (o, pending)
        end
    end.

(** ** The client *)

Inductive Effect (M H : Type) :=
| Undecryptable (info : MessageInfo)                      (* events *)
| Message (m : M) (info : MessageInfo)
| Retry (info : MessageInfo) (reason : RetryReason)       (* started tasks *)
| Delivery (info : MessageInfo)
| Custom (enc : Node) (info : MessageInfo)
| HistorySync (id : str) (h : H)
| KeysSynced.                                             (* waiters notified *)
Arguments Undecryptable {M H} _.
Arguments Message {M H} _ _.
Arguments Retry {M H} _ _.
Arguments Delivery {M H} _.
Arguments Custom {M H} _ _.
Arguments HistorySync {M H} _ _.
Arguments KeysSynced {M H}.

Record RecvState (St G M H : Type) := mkRecvState {
  rv_stores : St; rv_sender_keys : G; rv_registry : RegState; rv_mappings : gmap str LidPnMappingEntry;
  rv_sync_keys : gmap bytes (bytes * bytes * i64); rv_keys_received : bool; rv_pdo : gmap str MessageInfo;
  rv_effects : list (Effect M H)
}.
Arguments mkRecvState {St G M H} _ _ _ _ _ _ _ _.
Arguments rv_stores {St G M H} _.
Arguments rv_sender_keys {St G M H} _.
Arguments rv_registry {St G M H} _.
Arguments rv_mappings {St G M H} _.
Arguments rv_sync_keys {St G M H} _.
Arguments rv_keys_received {St G M H} _.
Arguments rv_pdo {St G M H} _.
Arguments rv_effects {St G M H} _.

Section Setters.
Context {St G M H : Type}.
Implicit Types s : RecvState St G M H.

Definition set_stores v s : RecvState St G M H :=
  mkRecvState v (rv_sender_keys s) (rv_registry s) (rv_mappings s) (rv_sync_keys s) (rv_keys_received s) (rv_pdo s) (rv_effects s).
Definition set_sender_keys v s : RecvState St G M H :=
  mkRecvState (rv_stores s) v (rv_registry s) (rv_mappings s) (rv_sync_keys s) (rv_keys_received s) (rv_pdo s) (rv_effects s).
Definition set_lids r t s : RecvState St G M H :=
  mkRecvState (rv_stores s) (rv_sender_keys s) r t (rv_sync_keys s) (rv_keys_received s) (rv_pdo s) (rv_effects s).
Definition set_sync_keys k b s : RecvState St G M H :=
  mkRecvState (rv_stores s) (rv_sender_keys s) (rv_registry s) (rv_mappings s) k b (rv_pdo s) (rv_effects s).
Definition set_pdo v s : RecvState St G M H :=
  mkRecvState (rv_stores s) (rv_sender_keys s) (rv_registry s) (rv_mappings s) (rv_sync_keys s) (rv_keys_received s) v (rv_effects s).
Definition emit (e : Effect M H) s : RecvState St G M H :=
  mkRecvState (rv_stores s) (rv_sender_keys s) (rv_registry s) (rv_mappings s) (rv_sync_keys s) (rv_keys_received s) (rv_pdo s)
    (rv_effects s ++ [e]).

Definition emit_all (es : list (Effect M H)) s : RecvState St G M H := fold_left (fun s e => emit e s) es s.
End Setters.

(** The verdicts of the statements: persisting a mapping, reading and writing
    the registry, storing a key. *)
Record RecvIo := mkRecvIo {
  ri_mapping : outcome StoreError unit; ri_get : outcome StoreError unit; ri_put : outcome StoreError unit;
  ri_sync_key : bytes -> outcome StoreError unit
}.

Section Receive.
Context `{HK : !Hkdf, HS : !Hashes, HA : !AesCbc, HC : !Curve25519, HP : !SignalProto, HG : !SenderKeyProto, HJ : !DeviceJson}.
Context {B I K S G M H : Type}.
Context `{HB : !SessionStore B, HI : !IdentityKeyStore I, HPK : !PreKeyStore K, HSP : !SignedPreKeyStore S, HSK : !SenderKeyStore G}.
Context `{HM : !WaMessage M H}.
Context (delete_session : ProtocolAddress -> comp B str unit) (delete_identity : ProtocolAddress -> comp I str unit).
Context (valid_time : i64 -> bool) (custom : str -> bool) (io : RecvIo) (now : i64) (d : Device) (signed : S).

Abbreviation state := (RecvState (B * I * K) G M H).
Abbreviation action := (comp state str).

(** What goes wrong in [m] is logged. *)
Definition logged {E A} (m : comp state E A) : action unit :=
  fun s => match m s with
           | (Ok _, s) | (Err _, s) => (Ok tt, s)
           | (Panic, s) => (Panic, s)
           | (NoFuel, s) => (NoFuel, s)
           end.

Definition effect (e : Effect M H) : action unit := fun s => (Ok tt, emit e s).

Definition dispatch_undecryptable_event (info : MessageInfo) : action unit := effect (Undecryptable info).
Definition spawn_retry_receipt (info : MessageInfo) (reason : RetryReason) : action unit := effect (Retry info reason).
Definition handle_decrypt_failure (info : MessageInfo) (reason : RetryReason) : action bool :=
  dispatch_undecryptable_event info ;; spawn_retry_receipt info reason ;; mret true.

(** *** Answers of the phone *)

Definition message_info_from_web_message_info (w : WebMessageInfo M) : outcome str MessageInfo :=
  let? remote := ok_or (lit "MessageKey missing remoteJid") (wi_remote_jid w) in
  let? remote_jid := map_err (fun _ => []) (jid_try_from remote) in
  let grp := is_group remote_jid in
  let is_from_me := default_or false (wi_from_me w) in
  let? sender :=
    if grp then
      match wi_participant w with
      | Some p => map_err (fun _ => []) (jid_try_from p)
      | None => Ok remote_jid
      end
    else if is_from_me then Ok (default_or remote_jid (d_pn d)) else Ok remote_jid in
  let timestamp := match wi_message_timestamp w with
                   | Some ts => let ts := Z.modulo (ts + 2 ^ 63) (2 ^ 64) - 2 ^ 63 in if valid_time ts then ts else now
                   | None => now
                   end in
  Ok (mkMessageInfo (mkMessageSource remote_jid sender is_from_me grp None None None None None) (default_or [] (wi_id w))
        (default_or [] (wi_push_name w)) timestamp []).

Definition handle_placeholder_resend_response (web_message_info_bytes : option bytes) : action unit :=
  match web_message_info_bytes with
  | None => mret tt
  | Some b =>
      match web_decode b with
      | None => mret tt
      | Some w =>
          let cache_key := default_or [] (wi_remote_jid w) ++ lit ":" ++ default_or [] (wi_id w) in
          fun s =>
            let pending := rv_pdo s !! cache_key in
            let s := set_pdo (delete cache_key (rv_pdo s)) s in
            let info := match pending with Some info => Ok info | None => message_info_from_web_message_info w end in
            match info, wi_message w with
            | Ok info, Some message => (Ok tt, emit (Message message info) s)
            | Panic, _ => (Panic, s)
            | NoFuel, _ => (NoFuel, s)
            | _, _ => (Ok tt, s)
            end
      end
  end.

(** The sender of the answer is not looked at. *)
Definition handle_pdo_response (results : list (option (option bytes))) (pdo_msg_info : MessageInfo) : action unit :=
  mfor (fun r => match r with Some b => handle_placeholder_resend_response b | None => mret tt end) results.

(** *** Shared keys *)

Definition extract_key_components (key : SyncKeyPb) : option (bytes * (bytes * bytes * i64)) :=
  match skp_key_id key, skp_key_data key with
  | Some (Some key_id), Some kd =>
      match skd_fingerprint kd, skd_key_data kd with
      | Some fingerprint, Some data => Some (key_id, (data, fingerprint, default_or 0 (skd_timestamp kd)))
      | _, _ => None
      end
  | _, _ => None
  end.

(** The second component counts the stored keys. *)
Fixpoint store_sync_keys (keys : list SyncKeyPb) (t : gmap bytes (bytes * bytes * i64)) : gmap bytes (bytes * bytes * i64) * nat :=
  match keys with
  | [] => (t, 0%nat)
  | key :: keys =>
      match extract_key_components key with
      | Some (key_id, v) =>
          match ri_sync_key io key_id with
          | Ok _ => let '(t, n) := store_sync_keys keys (<[key_id := v]> t) in (t, Datatypes.S n)
          | _ => store_sync_keys keys t
          end
      | None => store_sync_keys keys t
      end
  end.

Definition handle_app_state_sync_key_share (keys : list SyncKeyPb) : action unit :=
  fun s =>
    let '(t, stored_count) := store_sync_keys keys (rv_sync_keys s) in
    if (0 <? stored_count)%nat then
      let s' := set_sync_keys t true s in
      (Ok tt, if rv_keys_received s then s' else emit KeysSynced s')
    else (Ok tt, set_sync_keys t (rv_keys_received s) s).

(** *** Sender keys *)

(** The second form has the key without its type byte. *)
Definition parse_skdm (axolotl_bytes : bytes) : option SenderKeyDistributionMessage :=
  match skdm_try_from axolotl_bytes with
  | Ok msg => Some msg
  | _ =>
      match skdm_decode axolotl_bytes with
      | Some (mkSkdmPb (Some id) (Some iteration) (Some chain_key) (Some signing_key)) =>
          match from_djb_public_key_bytes signing_key with
          | Ok pub_key =>
              match skdm_new SENDERKEY_MESSAGE_CURRENT_VERSION id iteration chain_key pub_key with Ok skdm => Some skdm | _ => None end
          | _ => None
          end
      | _ => None
      end
  end.

Definition on_sender_keys {A} (m : comp G SignalProtocolError A) : comp state SignalProtocolError A :=
  fun s => let '(o, g) := m (rv_sender_keys s) in (o, set_sender_keys g s).

Definition sender_key_name (group_jid sender_jid : Jid) : SenderKeyName :=
  mkSenderKeyName (jid_to_string group_jid) (show_address (to_protocol_address sender_jid)).

Definition handle_sender_key_distribution_message (group_jid sender_jid : Jid) (axolotl_bytes : bytes) : action unit :=
  match parse_skdm axolotl_bytes with
  | Some skdm => logged (on_sender_keys (process_sender_key_distribution_message (sender_key_name group_jid sender_jid) skdm))
  | None => mret tt
  end.

(** *** Plaintexts *)

Definition maybe {A} (f : A -> action unit) (o : option A) : action unit := match o with Some a => f a | None => mret tt end.

Definition handle_decrypted_plaintext (enc_type : str) (padded_plaintext : bytes) (padding_version : u8) (info : MessageInfo)
    : comp state MessageError unit :=
  match unpad_message_ref padded_plaintext padding_version with
  | Ok plaintext =>
      fun s =>
        match wm_decode plaintext with
        | None => (Ok tt, s)
        | Some msg =>
            if enc_type =s lit "skmsg" then (Ok tt, emit (Message msg info) s)
            else
              let '(o, s) :=
                (maybe (handle_sender_key_distribution_message (ms_chat (mi_source info)) (ms_sender (mi_source info))) (wm_skdm msg) ;;
                 maybe handle_app_state_sync_key_share (wm_key_share msg) ;;
                 maybe (fun r => handle_pdo_response r info) (wm_pdo_response msg) ;;
                 let '(history, msg) := wm_take_history msg in
                 maybe (fun h => effect (HistorySync (mi_id info) h)) history ;;
                 effect (Message msg info)) s in
              (match o with Ok _ | Err _ => Ok tt | Panic => Panic | NoFuel => NoFuel end, s)
        end
  | Err e => mfail e
  | Panic => mpanic
  | NoFuel => mnofuel
  end.

(** *** Decryption *)

Definition enc_bytes (enc : Node) : option bytes := match content enc with Some (NC_Bytes b) => Some b | _ => None end.
Definition padding_version (enc : Node) : u8 := wrap 8 (default_or 2 (ap_optional_u64 (lit "v") (ap_new enc)).1).

Definition parse_enc (enc_type : str) (ciphertext : bytes) : outcome SignalProtocolError CiphertextMessage :=
  if enc_type =s lit "pkmsg" then let? m := pksm_try_from ciphertext in Ok (C_PreKey m)
  else let? m := sm_try_from ciphertext in Ok (C_Signal m).

Definition on_stores {A} (m : comp (B * I * K) SignalProtocolError A) : comp state SignalProtocolError A :=
  fun s => let '(o, st) := m (rv_stores s) in (o, set_stores st s).

(** Verdicts of the deletions are only logged. *)
Definition drop_session (a : ProtocolAddress) : action unit :=
  fun s => let '(b, i, k) := rv_stores s in (Ok tt, set_stores ((delete_session a b).2, i, k) s).
Definition drop_identity (a : ProtocolAddress) : action unit :=
  fun s => let '(b, i, k) := rv_stores s in (Ok tt, set_stores (b, (delete_identity a i).2, k) s).

(** Whether some part was decrypted, some was there before, and a failure was
    reported. *)
Record EncFlags := mkFlags { any_success : bool; any_duplicate : bool; dispatched_undecryptable : bool }.
Definition no_flags : EncFlags := mkFlags false false false.
Definition with_success (f : EncFlags) : EncFlags := mkFlags true (any_duplicate f) (dispatched_undecryptable f).
Definition with_duplicate (f : EncFlags) : EncFlags := mkFlags (any_success f) true (dispatched_undecryptable f).
Definition with_dispatched (b : bool) (f : EncFlags) : EncFlags := mkFlags (any_success f) (any_duplicate f) b.

(** The second attempt, after the identity of the address was forgotten. *)
Definition retry_untrusted (parsed : CiphertextMessage) (signal_address : ProtocolAddress) (rnds : list bytes) (enc_type : str)
    (v : u8) (info : MessageInfo) (f : EncFlags) : action EncFlags :=
  fun s =>
    match on_stores (message_decrypt parsed signal_address signed rnds) s with
    | (Ok padded, s) => (logged (handle_decrypted_plaintext enc_type padded v info) ;; mret (with_success f)) s
    | (Err (DuplicatedMessage _ _), s) => (Ok (with_duplicate f), s)
    | (Err InvalidPreKeyId, s) => (let! b := handle_decrypt_failure info RR_InvalidKeyId in mret (with_dispatched b f)) s
    | (Err _, s) => (let! b := handle_decrypt_failure info RR_InvalidKey in mret (with_dispatched b f)) s
    | (Panic, s) => (Panic, s)
    | (NoFuel, s) => (NoFuel, s)
    end.

(** One part; [rnds]: the draws of the two attempts. *)
Definition session_enc (info : MessageInfo) (signal_address : ProtocolAddress) (rnds : list bytes * list bytes) (enc : Node)
    (f : EncFlags) : action EncFlags :=
  match enc_bytes enc with
  | None => mret f
  | Some ciphertext =>
      let enc_type := attr_string enc "type" in
      let v := padding_version enc in
      match parse_enc enc_type ciphertext with
      | Err _ => mret f
      | Panic => mpanic
      | NoFuel => mnofuel
      | Ok parsed =>
          fun s =>
            match on_stores (message_decrypt parsed signal_address signed rnds.1) s with
            | (Ok padded, s) => (logged (handle_decrypted_plaintext enc_type padded v info) ;; mret (with_success f)) s
            | (Err (DuplicatedMessage _ _), s) => (Ok (with_duplicate f), s)
            | (Err (UntrustedIdentity address), s) =>
                (drop_identity address ;; retry_untrusted parsed signal_address rnds.2 enc_type v info f) s
            | (Err (SessionNotFound _), s) => (let! b := handle_decrypt_failure info NoSession in mret (with_dispatched b f)) s
            | (Err (InvalidMessage _ _), s) =>
                (drop_session signal_address ;;
                 let! b := handle_decrypt_failure info RR_InvalidMessage in mret (with_dispatched b f)) s
            | (Err InvalidPreKeyId, s) => (let! b := handle_decrypt_failure info RR_InvalidKeyId in mret (with_dispatched b f)) s
            | (Err _, s) => (Ok f, s)
            | (Panic, s) => (Panic, s)
            | (NoFuel, s) => (NoFuel, s)
            end
      end
  end.

(** The draws by position. *)
Fixpoint process_session_enc_batch (enc_nodes : list Node) (info : MessageInfo) (sender_encryption_jid : Jid)
    (rnds : nat -> list bytes * list bytes) (f : EncFlags) : action EncFlags :=
  match enc_nodes with
  | [] => mret f
  | enc :: enc_nodes =>
      let! f := session_enc info (to_protocol_address sender_encryption_jid) (rnds 0%nat) enc f in
      process_session_enc_batch enc_nodes info sender_encryption_jid (fun i => rnds (Datatypes.S i)) f
  end.

Definition group_enc (info : MessageInfo) (enc : Node) : action unit :=
  match enc_bytes enc with
  | None => mret tt
  | Some ciphertext =>
      fun s =>
        match on_sender_keys (group_decrypt ciphertext (sender_key_name (ms_chat (mi_source info)) (ms_sender (mi_source info)))) s with
        | (Ok padded, s) => logged (handle_decrypted_plaintext (lit "skmsg") padded (padding_version enc) info) s
        | (Err (NoSenderKeyState _), s) => spawn_retry_receipt info NoSession s
        | (Err _, s) => (Ok tt, s)
        | (Panic, s) => (Panic, s)
        | (NoFuel, s) => (NoFuel, s)
        end
  end.
Definition process_group_enc_batch (enc_nodes : list Node) (info : MessageInfo) : action unit := mfor (group_enc info) enc_nodes.

(** *** The stanza *)

Definition learn_mapping (l p : str) (source : LearningSource) : action unit :=
  fun s =>
    let '(o, c) := add_lid_pn_mapping (ri_mapping io) now l p source (mkLidClient (rg_lids (rv_registry s)) (rv_mappings s)) in
    let r := rv_registry s in
    let r := mkRegState (lc_cache c) (rg_cache r) (rg_device_cache r) (rg_table r) in
    let r := match o with Ok true => migrate_device_registry_on_lid_discovery (ri_get io) (ri_put io) p l r | _ => r end in
    (Ok tt, set_lids r (lc_table c) s).

Definition as_lid (lid_user : str) (sender : Jid) : Jid :=
  mkJid lid_user HIDDEN_USER_SERVER (agent sender) (device sender) (integrator sender).

Definition sender_encryption_jid (source : MessageSource) : action Jid :=
  let sender := ms_sender source in
  if server sender =s HIDDEN_USER_SERVER then
    match ms_sender_alt source with
    | Some alt =>
        (if server alt =s DEFAULT_USER_SERVER then learn_mapping (user sender) (user alt) LS_PeerLidMessage else mret tt) ;;
        mret sender
    | None => mret sender
    end
  else if server sender =s DEFAULT_USER_SERVER then
    let cached : action Jid := fun s =>
      (Ok (match get_current_lid (user sender) (rg_lids (rv_registry s)) with Some l => as_lid l sender | None => sender end), s) in
    match ms_sender_alt source with
    | Some alt =>
        if server alt =s HIDDEN_USER_SERVER then
          learn_mapping (user alt) (user sender) LS_PeerPnMessage ;; mret (as_lid (user alt) sender)
        else cached
    | None => cached
    end
  else mret sender.

(** The parts of the stanza and those addressed to this device. *)
Definition all_enc_nodes (node : Node) : list Node :=
  get_children_by_tag node (lit "enc")
  ++ match get_optional_child_by_tag node [lit "participants"] with
     | Some participants =>
         mjoin (map (fun to_node =>
           match d_pn d with
           | Some our_jid => if attr_string to_node "jid" =s jid_to_string our_jid then get_children_by_tag to_node (lit "enc") else []
           | None => []
           end) (get_children_by_tag participants (lit "to")))
     | None => []
     end.

Fixpoint tails (s : str) : list str := s :: match s with [] => [] | _ :: s => tails s end.
Definition contains_str (pat s : str) : bool := existsb (starts_with pat) (tails s).

(** The handlers of others take their parts; the rest is sorted by type. *)
Definition enc_kind (t : str) (enc : Node) : bool := negb (custom (attr_string enc "type")) && (attr_string enc "type" =s t).
Definition session_enc_nodes (encs : list Node) : list Node :=
  List.filter (fun e => enc_kind (lit "pkmsg") e || enc_kind (lit "msg") e) encs.
Definition group_content_enc_nodes (encs : list Node) : list Node := List.filter (enc_kind (lit "skmsg")) encs.
Definition run_custom (encs : list Node) (info : MessageInfo) : action unit :=
  mfor (fun e => effect (Custom e info)) (List.filter (fun e => custom (attr_string e "type")) encs).

(** What follows the first pass. *)
Definition conclude (sessions groups : list Node) (info : MessageInfo) (f : EncFlags) : action unit :=
  let finish : action unit :=
    if any_success f || any_duplicate f || negb (bool_decide (groups = [])) then effect (Delivery info) else mret tt in
  if negb (bool_decide (groups = [])) then
    (if bool_decide (sessions = []) || any_success f || any_duplicate f || is_status_broadcast (ms_chat (mi_source info))
     then process_group_enc_batch groups info
     else if negb (any_duplicate f) && negb (dispatched_undecryptable f) then dispatch_undecryptable_event info else mret tt) ;;
    finish
  else if negb (any_success f) && negb (any_duplicate f) && negb (bool_decide (sessions = []))
  then dispatch_undecryptable_event info
  else finish.

Definition handle_encrypted_message (rnds : nat -> list bytes * list bytes) (node : Node) : action unit :=
  let info := parse_message_info valid_time now d node in
  let! jid := sender_encryption_jid (mi_source info) in
  let encs := all_enc_nodes node in
  match encs with
  | [] => mret tt
  | _ =>
      run_custom encs info ;;
      let sessions := session_enc_nodes encs in
      let groups := group_content_enc_nodes encs in
      let is_group_sender := contains_str (lit ".us") (server jid) || contains_str (lit "broadcast") (server jid) in
      let! f := (if negb is_group_sender && negb (bool_decide (sessions = []))
                 then process_session_enc_batch sessions info jid rnds no_flags else mret no_flags) in
      conclude sessions groups info f
  end.
End Receive.

(** ** Theory: retries *)

(** What the counts go through: the tasks that failures start, at the times at
    which they take their number, and entries the cache drops. *)
Inductive RetryEvent := Fails (at_ : Z) (info : MessageInfo) (reason : RetryReason) | Evicts (cache_key : str).

Definition retry_event (e : RetryEvent) (counts : RetryCounts) : list RetryAction * RetryCounts :=
  match e with Fails now info reason => retry_task now info reason counts | Evicts k => ([], evict k counts) end.

Fixpoint retry_events (l : list RetryEvent) (counts : RetryCounts) : list RetryAction * RetryCounts :=
  match l with
  | [] => ([], counts)
  | e :: l => let '(a, counts) := retry_event e counts in let '(b, counts) := retry_events l counts in (a ++ b, counts)
  end.

(** The numbers of the receipts about the message of [k], and its failures. *)
Definition numbers (k : str) (l : list RetryAction) : list u8 :=
  omap (fun a => match a with SendRetry info n _ => if retry_cache_key info =s k then Some n else None | _ => None end) l.
Definition failure_of (k : str) (e : RetryEvent) : bool := match e with Fails _ info _ => retry_cache_key info =s k | Evicts _ => false end.
Definition failures_of (k : str) (l : list RetryEvent) : nat := length (List.filter (failure_of k) l).

(** The counts every run has. *)
Definition counted (counts : RetryCounts) : Prop := map_Forall (fun _ e => 1 <= e.1 <= 5) counts.

(** What happens less than the life of an entry after [t], without the cache
    dropping the count of [k]. *)
Definition within (k : str) (t : Z) (e : RetryEvent) : Prop :=
  match e with Fails now info _ => retry_cache_key info = k -> t <= now < t + RETRY_TTL | Evicts k' => k' <> k end.

(** [m] numbers from [n] on. *)
Definition from_number (n : Z) (m : nat) : list u8 := map (fun i => n + Z.of_nat i) (seq 0 m).

Lemma from_number_S n m : from_number n (S m) = n :: from_number (n + 1) m.
Proof. unfold from_number. cbn [seq map]. f_equal; [lia|]. rewrite <- seq_shift, map_map. apply map_ext. intros i. lia. Qed.

Lemma numbers_app k a b : numbers k (a ++ b) = numbers k a ++ numbers k b.
Proof. apply omap_app. Qed.

Lemma pdo_no_numbers k info i : numbers k (spawn_pdo_request_with_options info i) = [].
Proof. unfold spawn_pdo_request_with_options. destruct (ms_is_from_me _); [done|]. by destruct (_ =s _). Qed.

Lemma numbers_receipt k info n reason i (first : bool) :
  numbers k (SendRetry info n reason :: (if first then spawn_pdo_request_with_options info i else [])) = if retry_cache_key info =s k then [n] else [].
Proof.
  assert (numbers k (if first then spawn_pdo_request_with_options info i else []) = []) as E by (destruct first; [apply pdo_no_numbers|done]).
  revert E. unfold numbers. cbn [omap list_omap]. intros ->. by destruct (_ =s _).
Qed.

(** A failure: the receipt it leads to and the count it leaves. *)
Lemma retry_task_count k now info reason counts : let '(a, counts') := retry_task now info reason counts in
  let c := default 0 (live_count now k counts) in
  if retry_cache_key info =s k
  then if 5 <=? c then numbers k a = [] /\ counts' = counts else numbers k a = [c + 1] /\ counts' = <[k := (c + 1, now)]> counts
  else numbers k a = [] /\ counts' !! k = counts !! k.
Proof.
  unfold retry_task, increment_retry_count, MAX_DECRYPT_RETRIES. destruct (bytes_eqb_spec (retry_cache_key info) k) as [E|E].
  - rewrite E. destruct (live_count now k counts) as [c|].
    + change (default 0 (Some c)) with c. destruct (5 <=? c); [by rewrite pdo_no_numbers|]. by rewrite numbers_receipt, E, bytes_eqb_refl.
    + change (default 0 None) with 0. by rewrite numbers_receipt, E, bytes_eqb_refl.
  - assert (retry_cache_key info =s k = false) as E' by by apply bytes_eqb_neq.
    destruct (live_count now (retry_cache_key info) counts) as [c|]; [destruct (5 <=? c); [by rewrite pdo_no_numbers|]|];
      (split; [by rewrite numbers_receipt, E'|by rewrite lookup_insert_ne]).
Qed.

Lemma retry_event_counted e counts : counted counts -> counted (retry_event e counts).2.
Proof.
  intros Hc. destruct e as [now info reason|k]; cbn [retry_event].
  - pose proof (retry_task_count (retry_cache_key info) now info reason counts) as H. rewrite bytes_eqb_refl in H.
    destruct (retry_task now info reason counts) as [a counts']. cbv zeta in H. cbn [snd].
    destruct (Z.leb_spec 5 (default 0 (live_count now (retry_cache_key info) counts))) as [H5|H5]; destruct H as [_ E]; rewrite E; [done|].
    apply map_Forall_insert_2; [|done]. cbn [fst]. revert H5. unfold live_count. destruct (counts !! retry_cache_key info) as [[c w]|] eqn:Ek; [|cbn; lia].
    apply Hc in Ek. cbn [fst] in Ek. destruct (now <? w + RETRY_TTL); cbn; lia.
  - unfold evict. destruct (_ <? _)%nat; [by apply map_Forall_delete|done].
Qed.

Lemma retry_events_counted l counts : counted counts -> counted (retry_events l counts).2.
Proof.
  revert counts. induction l as [|e l IH]; intros counts Hc; [done|]. cbn [retry_events]. pose proof (retry_event_counted e counts Hc) as H.
  destruct (retry_event e counts) as [a counts1]. specialize (IH counts1 H). by destruct (retry_events l counts1).
Qed.

(** Once the count was written inside the window, it lives to its end. *)
Lemma numbers_live k t l c w counts : Forall (within k t) l -> t <= w -> 1 <= c <= 5 -> counts !! k = Some (c, w) ->
  numbers k (retry_events l counts).1 = from_number (c + 1) (Nat.min (failures_of k l) (Z.to_nat (5 - c))).
Proof.
  intros Hl. revert c w counts. induction Hl as [|e l He Hl IH]; intros c w counts Hw Hc Hk; [done|]. cbn [retry_events].
  destruct e as [now info reason|k']; cbn [retry_event within] in *.
  - pose proof (retry_task_count k now info reason counts) as Ht. destruct (retry_task now info reason counts) as [a counts1]. cbv zeta in Ht.
    unfold failures_of. cbn [List.filter failure_of]. destruct (bytes_eqb_spec (retry_cache_key info) k) as [E|E].
    + specialize (He E). unfold live_count in Ht. rewrite Hk, (proj2 (Z.ltb_lt _ _)) in Ht by lia. change (default 0 (Some c)) with c in Ht.
      destruct (Z.leb_spec 5 c) as [H5|H5]; destruct Ht as [En ->].
      * specialize (IH c w counts Hw Hc Hk). destruct (retry_events l counts) as [b counts2]. cbn [fst] in *. rewrite numbers_app, En, IH.
        replace (Z.to_nat (5 - c)) with 0%nat by lia. by rewrite !Nat.min_0_r.
      * specialize (IH (c + 1) now (<[k := (c + 1, now)]> counts) ltac:(lia) ltac:(lia) ltac:(by rewrite lookup_insert_eq)).
        destruct (retry_events l _) as [b counts2]. cbn [fst length] in *. rewrite numbers_app, En, IH.
        replace (Z.to_nat (5 - c)) with (S (Z.to_nat (5 - (c + 1)))) by lia. rewrite <- Nat.succ_min_distr, from_number_S. done.
    + destruct Ht as [En Hk1]. specialize (IH c w counts1 Hw Hc ltac:(congruence)). destruct (retry_events l counts1) as [b counts2].
      cbn [fst] in *. by rewrite numbers_app, En, IH.
  - assert (evict k' counts !! k = Some (c, w)) as Hk1 by (unfold evict; destruct (_ <? _)%nat; [by rewrite lookup_delete_ne|done]).
    specialize (IH c w _ Hw Hc Hk1). by destruct (retry_events l (evict k' counts)).
Qed.

(** What a window starts with, forgotten or not. *)
Lemma numbers_window k t l counts : Forall (within k t) l -> counted counts ->
  exists n m, numbers k (retry_events l counts).1 = from_number n m /\ 1 <= n /\ n + Z.of_nat m <= 6
    /\ (live_count t k counts = None -> n = 1 /\ m = Nat.min (failures_of k l) 5).
Proof.
  intros Hl. revert counts. induction Hl as [|e l He Hl IH]; intros counts Hc; [by exists 1, 0%nat|].
  pose proof (retry_event_counted e counts Hc) as Hc1. cbn [retry_events].
  destruct e as [now info reason|k']; cbn [retry_event within] in *.
  - pose proof (retry_task_count k now info reason counts) as Ht. destruct (retry_task now info reason counts) as [a counts1]. cbv zeta in Ht.
    unfold failures_of. cbn [List.filter failure_of snd] in *. destruct (bytes_eqb_spec (retry_cache_key info) k) as [E|E].
    + specialize (He E). destruct (Z.leb_spec 5 (default 0 (live_count now k counts))) as [H5|H5]; destruct Ht as [En ->].
      * destruct (IH counts Hc) as (n & m & E1 & H1 & H2 & _). destruct (retry_events l counts) as [b counts2]. exists n, m. cbn [fst] in *.
        rewrite numbers_app, En. split_and!; try done. intros Hd. exfalso. revert Hd H5. unfold live_count.
        destruct (counts !! k) as [[c w]|]; [|done]. destruct (Z.ltb_spec t (w + RETRY_TTL)), (Z.ltb_spec now (w + RETRY_TTL)); cbn; lia || done.
      * set (c := default 0 (live_count now k counts)) in *.
        assert (0 <= c) as H0. { unfold c, live_count. destruct (counts !! k) as [[c' w]|] eqn:Ek; [|done]. apply Hc in Ek. cbn [fst] in Ek. destruct (_ <? _); cbn; lia. }
        pose proof (numbers_live k t l (c + 1) now (<[k := (c + 1, now)]> counts) Hl ltac:(lia) ltac:(lia) ltac:(by rewrite lookup_insert_eq)) as En'.
        destruct (retry_events l _) as [b counts2]. cbn [fst] in *. exists (c + 1), (S (Nat.min (failures_of k l) (Z.to_nat (5 - (c + 1))))).
        rewrite numbers_app, En, En', from_number_S. split_and!; [done|lia|lia|]. intros Hd.
        assert (c = 0) as ->. { revert Hd. unfold c, live_count. destruct (counts !! k) as [[c' w]|]; [|done].
          destruct (Z.ltb_spec t (w + RETRY_TTL)), (Z.ltb_spec now (w + RETRY_TTL)); cbn; lia || done. }
        split; [done|]. cbn [length]. fold (failures_of k l). change (Z.to_nat (5 - (0 + 1))) with 4%nat. lia.
    + destruct Ht as [En Hk]. destruct (IH counts1 Hc1) as (n & m & E1 & H1 & H2 & H3). destruct (retry_events l counts1) as [b counts2]. exists n, m.
      cbn [fst] in *. rewrite numbers_app, En. split_and!; try done. intros Hd. apply H3. revert Hd. unfold live_count. by rewrite Hk.
  - cbn [snd] in Hc1. destruct (IH (evict k' counts) Hc1) as (n & m & E1 & H1 & H2 & H3). destruct (retry_events l (evict k' counts)) as [b counts2].
    exists n, m. cbn [fst app] in *. split_and!; try done. intros Hd. apply H3. revert Hd. unfold live_count, evict.
    destruct (_ <? _)%nat; [by rewrite lookup_delete_ne|done].
Qed.

(** C39: Retries are bounded and numbered, as long as the count is remembered.
    After any history of failures and of counts the cache dropped, take
    whatever follows in which the failures of one message lie within less than
    300 seconds, mixed with those of others, and in which the cache, which only
    drops counts when it holds more than 5,000, does not drop this one.  The
    receipts that ask for the message again are numbered one after the other
    with numbers from one to five, so that there are at most five of them; and
    when its count was forgotten before, they are numbered from one on and
    there are as many as failures, up to five.  Over a longer time there are
    more ([retries_restart]). *)
Theorem retries_bounded k before t l :
  Forall (within k t) l ->
  let counts := (retry_events before ∅).2 in
  exists n m, numbers k (retry_events l counts).1 = from_number n m /\ 1 <= n /\ n + Z.of_nat m <= 6
    /\ (live_count t k counts = None -> n = 1 /\ m = Nat.min (failures_of k l) 5).
Proof. intros Hl counts. apply numbers_window; [done|]. by apply retry_events_counted. Qed.

(** Two messages of a person, for evaluating. *)
Definition toy_failing_peer : Jid := mkJid (lit "5511999") (lit "s.whatsapp.net") 0 0 0.
Definition toy_failed (id : str) : MessageInfo := mkMessageInfo (mkMessageSource toy_failing_peer toy_failing_peer false false None None None None None) id [] 0 [].
Definition toy_failed_key : str := retry_cache_key (toy_failed (lit "A")).
Definition toy_fails (id : str) (at_ : Z) : RetryEvent := Fails at_ (toy_failed id) UnknownError.

Lemma retries_bounded_witness :
  let before := [toy_fails (lit "A") 0; toy_fails (lit "B") 0] in
  let l := [toy_fails (lit "A") 300000; toy_fails (lit "B") 400000; toy_fails (lit "A") 500000; Evicts (lit "other"); toy_fails (lit "A") 599999] in
  exists n m, numbers toy_failed_key (retry_events l (retry_events before ∅).2).1 = from_number n m /\ 1 <= n /\ n + Z.of_nat m <= 6
    /\ (live_count 300000 toy_failed_key (retry_events before ∅).2 = None -> n = 1 /\ m = Nat.min (failures_of toy_failed_key l) 5).
Proof.
  apply (retries_bounded toy_failed_key [toy_fails (lit "A") 0; toy_fails (lit "B") 0] 300000
    [toy_fails (lit "A") 300000; toy_fails (lit "B") 400000; toy_fails (lit "A") 500000; Evicts (lit "other"); toy_fails (lit "A") 599999]).
  repeat constructor; try (vm_compute; (discriminate || reflexivity)); intros H; vm_compute in H; congruence.
Defined.

(** A message that keeps failing is asked for without end: five minutes after
    the fifth receipt the count is forgotten, and the numbers start again. *)
Theorem retries_restart :
  numbers toy_failed_key (retry_events (map (toy_fails (lit "A")) [0; 60000; 120000; 180000; 240000; 539999; 540000; 600000]) ∅).1 = [1; 2; 3; 4; 5; 1; 2].
Proof. reflexivity. Qed.

(** A request that could not be sent because there is no session stays in the
    table, so that it is not repeated. *)
Lemma pdo_stays_pending ensure send_peer pn info pending e :
  pending !! (jid_to_string (ms_chat (mi_source info)) ++ lit ":" ++ mi_id info) = None -> ensure (with_device pn 0) = Err e ->
  exists p', send_pdo_placeholder_resend_request ensure send_peer (Some pn) info pending = (Err e, p')
    /\ forall ensure' send_peer', send_pdo_placeholder_resend_request ensure' send_peer' (Some pn) info p' = (Ok tt, p').
Proof.
  intros Hp He. unfold send_pdo_placeholder_resend_request, mbind', mlift. cbn [ok_or]. rewrite Hp, He.
  eexists. split; [done|]. intros ensure' send_peer'. cbn [ok_or]. by rewrite lookup_insert_eq.
Qed.

(** A receipt without a type is not reported as a delivery. *)
Lemma untyped_receipt node :
  attr_opt node "type" = None -> exists r, handle_receipt node = DispatchReceipt r /\ rc_type r = RT_Other (lit "delivery").
Proof. intros Ht. unfold handle_receipt. rewrite Ht. eexists. split; [reflexivity|done]. Qed.

(** ** Theory: a group's first message *)

Section GroupFirst.
Context `{HK : !Hkdf, HS : !Hashes, HA : !AesCbc, HC : !Curve25519, HG : !SenderKeyProto}.
Context {G : Type} `{HSK : !SenderKeyStore G, HRS : !ReliableStore G}.

Lemma group_first_message name rid rkey rpair (a : G) :
  view_sender_key a name = None -> is_u32 rid -> length rkey = 32%nat -> length rpair = 32%nat ->
  exists skdm a1, create_sender_key_distribution_message name rid rkey rpair a = (Ok skdm, a1)
    /\ skdm_try_from (skdm_serialized skdm) = Ok skdm
    /\ forall p rnd (b : G), view_sender_key b name = None ->
         exists m a2 b1 b2, group_encrypt name p rnd a1 = (Ok m, a2)
           /\ process_sender_key_distribution_message name skdm b = (Ok tt, b1)
           /\ group_decrypt (skm_serialized m) name b1 = (Ok p, b2).
Proof.
  intros Ha Hid Hk Hp. destruct (create_run name rid rkey rpair a Ha Hid Hk Hp)
    as (skdm & a1 & ra & E1 & Ht & (Hci & Hit & Hck & Hsk) & Hva & Hs).
  exists skdm, a1. split; [done|]. split; [done|]. intros p rnd b Hb.
  destruct (group_encrypt_run _ _ _ _ _ name p rnd a1 Hva Hs) as (m & a2 & r2 & E2 & Hm & _); [lia|].
  destruct (process_run name skdm b Hb) as (b1 & rb & E3 & Hvb & Hrec);
    [rewrite Hit; unfold is_u32; lia|by rewrite Hck|rewrite Hsk; apply derive_public_length|].
  rewrite Hit, Hck, Hci, Hsk in Hrec.
  destruct (group_decrypt_run _ _ _ _ _ name 0 p m b1 Hvb Hrec) as (b2 & r3 & E4 & _); [unfold is_u32; lia|done|done|].
  by exists m, a2, b1, b2.
Qed.
End GroupFirst.

(** ** Theory: messages arrive *)

Section Arrive.
Context `{HK : !Hkdf, HS : !Hashes, HA : !AesCbc, HC : !Curve25519, HP : !SignalProto, HG : !SenderKeyProto, HJ : !DeviceJson}.
Context {B I K S G M H : Type}.
Context `{HB : !SessionStore B, HI : !IdentityKeyStore I, HPK : !PreKeyStore K, HSP : !SignedPreKeyStore S, HSK : !SenderKeyStore G}.
Context `{HR : !ReliableStores B I K, HRS : !ReliableStore G, HM : !WaMessage M H}.
Context (delete_session : ProtocolAddress -> comp B str unit) (delete_identity : ProtocolAddress -> comp I str unit).
Context (valid_time : i64 -> bool) (custom : str -> bool) (io : RecvIo) (now : i64) (d : Device) (signed : S).
Implicit Types s : RecvState (B * I * K) G M H.

(** The address of the session, as the message and the cache have it. *)
Definition encryption_jid (source : MessageSource) (c : LidPnCache) : Jid :=
  let sender := ms_sender source in
  if negb (server sender =s HIDDEN_USER_SERVER) && (server sender =s DEFAULT_USER_SERVER) then
    match ms_sender_alt source with
    | Some alt => if server alt =s HIDDEN_USER_SERVER then as_lid (user alt) sender
                  else match get_current_lid (user sender) c with Some l => as_lid l sender | None => sender end
    | None => match get_current_lid (user sender) c with Some l => as_lid l sender | None => sender end
    end
  else sender.

(** Finding it changes the knowledge about contacts only. *)
Definition same_but_lids s s' : Prop := exists r t, s' = set_lids r t s.

Lemma set_lids_id s : s = set_lids (rv_registry s) (rv_mappings s) s.
Proof. by destruct s. Qed.

Lemma sender_found source s :
  exists s', sender_encryption_jid io now source s = (Ok (encryption_jid source (rg_lids (rv_registry s))), s') /\ same_but_lids s s'.
Proof.
  assert (forall l p src, exists s', learn_mapping io now l p src s = (Ok tt, s') /\ same_but_lids s s') as Hl.
  { intros l p src. unfold learn_mapping. destruct (add_lid_pn_mapping _ _ _ _ _ _) as [o c]. eexists. split; [done|]. by eexists _, _. }
  assert (same_but_lids s s) as Hid by (eexists _, _; apply set_lids_id).
  unfold sender_encryption_jid, encryption_jid. destruct (server (ms_sender source) =s HIDDEN_USER_SERVER); cbn [negb andb].
  - destruct (ms_sender_alt source) as [alt|]; [|by eexists]. destruct (server alt =s DEFAULT_USER_SERVER).
    + destruct (Hl (user (ms_sender source)) (user alt) LS_PeerLidMessage) as (s' & E & Hs). unfold mbind'. rewrite E. by exists s'.
    + by exists s.
  - destruct (server (ms_sender source) =s DEFAULT_USER_SERVER); [|by exists s].
    destruct (ms_sender_alt source) as [alt|]; [|by exists s]. destruct (server alt =s HIDDEN_USER_SERVER); [|by exists s].
    destruct (Hl (user alt) (user (ms_sender source)) LS_PeerPnMessage) as (s' & E & Hs). unfold mbind'. rewrite E. by exists s'.
Qed.

(** *** Stanzas *)

Definition enc_node (t : string) (ciphertext : bytes) : Node :=
  mkNode (lit "enc") [(lit "v", lit "2"); (lit "type", lit t)] (Some (NC_Bytes ciphertext)).
Definition message_stanza (attrs : list (str * str)) (encs : list Node) : Node := mkNode (lit "message") attrs (Some (NC_Nodes encs)).

Definition info_of (attrs : list (str * str)) : MessageInfo := parse_message_info valid_time now d (message_stanza attrs []).

Lemma info_of_stanza attrs encs : parse_message_info valid_time now d (message_stanza attrs encs) = info_of attrs.
Proof. done. Qed.

(** A message that only says something. *)
Record plain (m : M) : Prop := {
  pl_skdm : wm_skdm m = None; pl_key_share : wm_key_share m = None; pl_pdo : wm_pdo_response m = None;
  pl_history : wm_take_history m = (None, m)
}.
(** A message that carries a sender key and nothing else for the client. *)
Record distributes (m : M) (skdm : bytes) : Prop := {
  di_skdm : wm_skdm m = Some skdm; di_key_share : wm_key_share m = None; di_pdo : wm_pdo_response m = None;
  di_history : wm_take_history m = (None, m)
}.

Lemma unpad_padded rnd m v : v <> 3 -> unpad_message_ref (pad_message_v2 rnd (wm_encode m)) v = Ok (wm_encode m).
Proof.
  intros Hv. destruct (padding_roundtrip rnd (wm_encode m) [] [] v) as [Hp _]; [apply wm_encode_bytes|constructor|].
  rewrite Hp. by rewrite (proj2 (Z.eqb_neq v 3) Hv).
Qed.

(** *** Steps *)

Lemma plain_handled t m rnd v info s :
  v <> 3 -> plain m ->
  handle_decrypted_plaintext valid_time io now d t (pad_message_v2 rnd (wm_encode m)) v info s = (Ok tt, emit (Message m info) s).
Proof.
  intros Hv [H1 H2 H3 H4]. unfold handle_decrypted_plaintext. rewrite unpad_padded by done. rewrite wm_decode_encode.
  destruct (t =s lit "skmsg"); [done|]. unfold mbind'. by rewrite H1, H2, H3, H4.
Qed.

Lemma skdm_handled m rnd v info b skdm g s :
  v <> 3 -> distributes m b -> skdm_try_from b = Ok skdm ->
  process_sender_key_distribution_message (sender_key_name (ms_chat (mi_source info)) (ms_sender (mi_source info))) skdm (rv_sender_keys s)
    = (Ok tt, g) ->
  handle_decrypted_plaintext valid_time io now d (lit "pkmsg") (pad_message_v2 rnd (wm_encode m)) v info s
  = (Ok tt, emit (Message m info) (set_sender_keys g s)).
Proof.
  intros Hv [H1 H2 H3 H4] Ht Hp. unfold handle_decrypted_plaintext. rewrite unpad_padded by done. rewrite wm_decode_encode.
  change (lit "pkmsg" =s lit "skmsg") with false. cbv iota. unfold mbind'. rewrite H1, H2, H3, H4.
  cbn [maybe]. unfold handle_sender_key_distribution_message, parse_skdm, logged, on_sender_keys. by rewrite Ht, Hp.
Qed.

Lemma session_enc_ok info addr r c pm padded st f s s' :
  pksm_try_from c = Ok pm -> message_decrypt_prekey pm addr signed r.1 (rv_stores s) = (Ok padded, st) ->
  handle_decrypted_plaintext valid_time io now d (lit "pkmsg") padded 2 info (set_stores st s) = (Ok tt, s') ->
  session_enc delete_session delete_identity valid_time io now d signed info addr r (enc_node "pkmsg" c) f s = (Ok (with_success f), s').
Proof.
  intros Hp Hd Hh. unfold session_enc. change (enc_bytes (enc_node "pkmsg" c)) with (Some c).
  change (attr_string (enc_node "pkmsg" c) "type") with (lit "pkmsg").
  change (padding_version (enc_node "pkmsg" c)) with 2. unfold parse_enc. change (lit "pkmsg" =s lit "pkmsg") with true. cbv iota.
  rewrite Hp. cbn [obind]. unfold on_stores, message_decrypt. rewrite Hd. unfold mbind', logged. by rewrite Hh.
Qed.

Lemma group_enc_ok info c padded g s s' :
  group_decrypt c (sender_key_name (ms_chat (mi_source info)) (ms_sender (mi_source info))) (rv_sender_keys s) = (Ok padded, g) ->
  handle_decrypted_plaintext valid_time io now d (lit "skmsg") padded 2 info (set_sender_keys g s) = (Ok tt, s') ->
  group_enc valid_time io now d info (enc_node "skmsg" c) s = (Ok tt, s').
Proof.
  intros Hd Hh. unfold group_enc. change (enc_bytes (enc_node "skmsg" c)) with (Some c).
  change (padding_version (enc_node "skmsg" c)) with 2. unfold on_sender_keys. rewrite Hd. unfold logged. by rewrite Hh.
Qed.

(** The address has sessions of its own. *)
Definition direct (j : Jid) : Prop := contains_str (lit ".us") (server j) || contains_str (lit "broadcast") (server j) = false.

Lemma all_encs_of attrs encs :
  Forall (fun e => tag e = lit "enc") encs -> all_enc_nodes d (message_stanza attrs encs) = encs.
Proof.
  intros Ht. unfold all_enc_nodes, message_stanza, get_children_by_tag. cbn [children content get_optional_child_by_tag].
  assert (List.find (fun c => tag c =s lit "participants") encs = None) as Hf.
  { induction Ht as [|e l He _ IH]; [done|]. cbn [List.find]. rewrite He. exact IH. }
  rewrite Hf, app_nil_r. clear Hf. induction Ht as [|e l He _ IH]; [done|]. cbn [List.filter]. rewrite He. cbn. by f_equal.
Qed.

(** The first pass over the session parts, then the conclusion. *)
Lemma stanza_handled attrs encs s :
  let info := info_of attrs in
  let jid := encryption_jid (mi_source info) (rg_lids (rv_registry s)) in
  encs <> [] -> Forall (fun e => tag e = lit "enc" /\ custom (attr_string e "type") = false) encs ->
  direct jid \/ session_enc_nodes custom encs = [] ->
  exists s0, same_but_lids s s0 /\ forall rnds,
    handle_encrypted_message delete_session delete_identity valid_time custom io now d signed rnds (message_stanza attrs encs) s
    = (let! f := process_session_enc_batch delete_session delete_identity valid_time io now d signed (session_enc_nodes custom encs)
                   info jid rnds no_flags in
       conclude valid_time io now d (session_enc_nodes custom encs) (group_content_enc_nodes custom encs) info f) s0.
Proof.
  intros info jid Hne Hall Hdir. destruct (sender_found (mi_source info) s) as (s0 & Hj & Hs0). exists s0. split; [done|]. intros rnds.
  unfold handle_encrypted_message. rewrite info_of_stanza. fold info. unfold mbind' at 1. rewrite Hj. fold jid.
  rewrite all_encs_of by (eapply Forall_impl; [exact Hall|]; by intros e [? _]).
  assert (List.filter (fun e => custom (attr_string e "type")) encs = []) as Hcu.
  { clear Hne Hdir. induction Hall as [|e l [_ He] _ IH]; [done|]. cbn [List.filter]. by rewrite He. }
  unfold run_custom. rewrite Hcu. cbn [mfor]. unfold mbind' at 1, mret at 1.
  destruct encs as [|e l]; [done|]. set (se := session_enc_nodes custom (e :: l)) in *.
  case_bool_decide as Hse; [by rewrite andb_false_r, Hse|]. destruct Hdir as [Hdir|]; [|done]. by rewrite Hdir.
Qed.

Lemma concluded_ok sessions groups info f s s' :
  any_success f = true -> process_group_enc_batch valid_time io now d groups info s = (Ok tt, s') ->
  conclude valid_time io now d sessions groups info f s = (Ok tt, emit (Delivery info) s').
Proof.
  intros Hf Hg. unfold conclude. rewrite Hf. cbn [negb andb orb]. rewrite orb_true_r. cbn [orb].
  case_bool_decide as Hn; cbn [negb]; [subst groups; cbn in Hg; by injection Hg as <-|]. unfold mbind'. by rewrite Hg.
Qed.

Lemma kinds_of_pkmsg c : custom (lit "pkmsg") = false ->
  session_enc_nodes custom [enc_node "pkmsg" c] = [enc_node "pkmsg" c] /\ group_content_enc_nodes custom [enc_node "pkmsg" c] = [].
Proof.
  intros Hcu. unfold session_enc_nodes, group_content_enc_nodes, enc_kind. cbn [List.filter].
  change (attr_string (enc_node "pkmsg" c) "type") with (lit "pkmsg"). by rewrite Hcu.
Qed.

Lemma kinds_of_both c c' : custom (lit "pkmsg") = false -> custom (lit "skmsg") = false ->
  session_enc_nodes custom [enc_node "pkmsg" c; enc_node "skmsg" c'] = [enc_node "pkmsg" c]
  /\ group_content_enc_nodes custom [enc_node "pkmsg" c; enc_node "skmsg" c'] = [enc_node "skmsg" c'].
Proof.
  intros Hp Hs. unfold session_enc_nodes, group_content_enc_nodes, enc_kind. cbn [List.filter].
  change (attr_string (enc_node "pkmsg" c) "type") with (lit "pkmsg").
  change (attr_string (enc_node "skmsg" c') "type") with (lit "skmsg"). by rewrite Hp, Hs.
Qed.

Lemma batch_of_one info jid rnds e s f s' :
  session_enc delete_session delete_identity valid_time io now d signed info (to_protocol_address jid) (rnds 0%nat) e no_flags s = (Ok f, s') ->
  process_session_enc_batch delete_session delete_identity valid_time io now d signed [e] info jid rnds no_flags s = (Ok f, s').
Proof. intros He. cbn [process_session_enc_batch]. unfold mbind'. by rewrite He. Qed.

(** What the two sides need for a first message from [jid], as for
    [first_message]; the receiving side is the client in state [s]. *)
Record can_write (bundle : PreKeyBundle) (jid : Jid) (addr_b : ProtocolAddress) (rnds : bytes * bytes) (rnd : bytes) (ia : I) s : Prop := {
  cw_published : exists id spk otk, published bundle (rv_stores s).1.2 (rv_stores s).2 signed id spk otk
    /\ is_trusted_identity addr_b (ikp_identity_key id) SessionCipher.Sending ia = Ok true
    /\ NoDup [kp_public spk; kp_public (key_pair_generate rnds.2); kp_public (key_pair_generate rnd)];
  cw_identity : exists ida lida, get_identity_key_pair ia = Ok ida /\ valid_pair (mkKeyPair (ikp_identity_key ida) (ikp_private_key ida))
    /\ get_local_registration_id ia = Ok lida /\ is_u32 lida
    /\ is_trusted_identity (to_protocol_address jid) (ikp_identity_key ida) Receiving (rv_stores s).1.2 = Ok true;
  cw_new : promote_matching_session (E := SignalProtocolError) 3 (public_serialize (kp_public (key_pair_generate rnds.1)))
      (some_or session_record_new_fresh (view_session (rv_stores s).1.1 (to_protocol_address jid)))
    = Ok (false, some_or session_record_new_fresh (view_session (rv_stores s).1.1 (to_protocol_address jid)));
  cw_draws : length rnds.1 = 32%nat /\ length rnds.2 = 32%nat /\ length rnd = 32%nat
}.

Lemma written bundle jid addr_b rnds rnd (ba : B) ia s p :
  can_write bundle jid addr_b rnds rnd ia s ->
  exists ba1 ia1 out ba2 ia2 st,
    process_prekey_bundle addr_b bundle rnds (ba, ia) = (Ok tt, (ba1, ia1))
    /\ message_encrypt p addr_b (ba1, ia1) = (Ok (C_PreKey out), (ba2, ia2))
    /\ pksm_try_from (pk_serialized out) = Ok out
    /\ message_decrypt_prekey out (to_protocol_address jid) signed [rnd] (rv_stores s) = (Ok p, st).
Proof.
  intros [(id & spk & otk & Hpub & Htb & Hnd) (ida & lida & Hi & Hv & Hl & Hu & Hta) Hno (Hr1 & Hr2 & Hr3)].
  destruct (rv_stores s) as [[bb ib] kb]. cbn [fst snd] in *.
  destruct (first_message_lem bundle addr_b (to_protocol_address jid) rnds p rnd [] ba ia lida ida bb ib kb signed id spk otk)
    as (ba1 & ia1 & out & ba2 & ia2 & bb1 & ib1 & kb1 & ra & rb & a & b & E1 & E2 & E3 & E4 & _);
    [done|done|done|done|done|done|done|done|done|done|done|constructor|done|cbn; lia|].
  by exists ba1, ia1, out, ba2, ia2, (bb1, ib1, kb1).
Qed.

(** A pre-key message that can be decrypted is reported and confirmed. *)
Lemma pkmsg_handled draws s attrs pad m out st :
  let info := info_of attrs in
  let jid := encryption_jid (mi_source info) (rg_lids (rv_registry s)) in
  custom (lit "pkmsg") = false -> direct jid -> plain m -> pksm_try_from (pk_serialized out) = Ok out ->
  message_decrypt_prekey out (to_protocol_address jid) signed (draws 0%nat).1 (rv_stores s) = (Ok (pad_message_v2 pad (wm_encode m)), st) ->
  exists s', handle_encrypted_message delete_session delete_identity valid_time custom io now d signed draws
         (message_stanza attrs [enc_node "pkmsg" (pk_serialized out)]) s = (Ok tt, s')
    /\ rv_effects s' = rv_effects s ++ [Message m info; Delivery info].
Proof.
  intros info jid Hcu Hdir Hm Ht Hd.
  destruct (stanza_handled attrs [enc_node "pkmsg" (pk_serialized out)] s) as (s0 & (r & t & ->) & Hh); [done|by repeat constructor|by left|].
  destruct (kinds_of_pkmsg (pk_serialized out) Hcu) as [Hse Hgr]. eexists. rewrite (Hh draws), Hse, Hgr. unfold mbind'.
  erewrite batch_of_one; [|eapply session_enc_ok; [exact Ht|exact Hd|by apply plain_handled] ].
  split; [by apply concluded_ok|]. cbn. by rewrite <- app_assoc.
Qed.

(** A first message arrives as it was written.  Someone who has a bundle the
    device published makes a session and encrypts a padded message; the stanza
    with it, whichever address of the sender it names and whatever the client
    knows of the sender's LID, makes the client report exactly this message
    from that sender and confirm its delivery. *)
Theorem message_arrives bundle addr_b rnds rnd draws (ba : B) ia s attrs pad m :
  let info := info_of attrs in
  let jid := encryption_jid (mi_source info) (rg_lids (rv_registry s)) in
  custom (lit "pkmsg") = false -> direct jid -> can_write bundle jid addr_b rnds rnd ia s -> plain m -> (draws 0%nat).1 = [rnd] ->
  exists ba1 ia1 out ba2 ia2 s',
    process_prekey_bundle addr_b bundle rnds (ba, ia) = (Ok tt, (ba1, ia1))
    /\ message_encrypt (pad_message_v2 pad (wm_encode m)) addr_b (ba1, ia1) = (Ok (C_PreKey out), (ba2, ia2))
    /\ handle_encrypted_message delete_session delete_identity valid_time custom io now d signed draws
         (message_stanza attrs [enc_node "pkmsg" (pk_serialized out)]) s = (Ok tt, s')
    /\ rv_effects s' = rv_effects s ++ [Message m info; Delivery info].
Proof.
  intros info jid Hcu Hdir Hcw Hm Hdr.
  destruct (written bundle jid addr_b rnds rnd ba ia s (pad_message_v2 pad (wm_encode m)) Hcw) as (ba1 & ia1 & out & ba2 & ia2 & st & E1 & E2 & E3 & E4).
  rewrite <- Hdr in E4. destruct (pkmsg_handled draws s attrs pad m out st Hcu Hdir Hm E3 E4) as (s' & Hh & He).
  by exists ba1, ia1, out, ba2, ia2, s'.
Qed.

(** A sender key and a message under it, in one stanza. *)
Lemma pkmsg_skmsg_handled draws s attrs pad pad' m gm out skdm skm st g1 g2 :
  let info := info_of attrs in
  let jid := encryption_jid (mi_source info) (rg_lids (rv_registry s)) in
  let name := sender_key_name (ms_chat (mi_source info)) (ms_sender (mi_source info)) in
  custom (lit "pkmsg") = false -> custom (lit "skmsg") = false -> direct jid ->
  distributes m (skdm_serialized skdm) -> plain gm -> pksm_try_from (pk_serialized out) = Ok out ->
  message_decrypt_prekey out (to_protocol_address jid) signed (draws 0%nat).1 (rv_stores s) = (Ok (pad_message_v2 pad (wm_encode m)), st) ->
  skdm_try_from (skdm_serialized skdm) = Ok skdm -> process_sender_key_distribution_message name skdm (rv_sender_keys s) = (Ok tt, g1) ->
  group_decrypt (skm_serialized skm) name g1 = (Ok (pad_message_v2 pad' (wm_encode gm)), g2) ->
  exists s', handle_encrypted_message delete_session delete_identity valid_time custom io now d signed draws
         (message_stanza attrs [enc_node "pkmsg" (pk_serialized out); enc_node "skmsg" (skm_serialized skm)]) s = (Ok tt, s')
    /\ rv_effects s' = rv_effects s ++ [Message m info; Message gm info; Delivery info].
Proof.
  intros info jid name Hcp Hcs Hdir Hm Hgm E3 E4 Htry E6 E7.
  destruct (stanza_handled attrs [enc_node "pkmsg" (pk_serialized out); enc_node "skmsg" (skm_serialized skm)] s)
    as (s0 & (r & t & ->) & Hh); [done|by repeat constructor|by left|].
  destruct (kinds_of_both (pk_serialized out) (skm_serialized skm) Hcp Hcs) as [Hse Hgr]. eexists.
  rewrite (Hh draws), Hse, Hgr. unfold mbind'.
  erewrite batch_of_one; [|eapply session_enc_ok; [exact E3|exact E4|eapply skdm_handled; [done|done|exact Htry|exact E6] ] ].
  split; [eapply concluded_ok; [done|]|].
  - cbn [process_group_enc_batch mfor]. unfold process_group_enc_batch, mfor, mbind'.
    erewrite group_enc_ok; [reflexivity|exact E7|by apply plain_handled].
  - cbn. by rewrite <- !app_assoc.
Qed.

(** C9: A group's first message arrives with its sender key.  A member without a
    sender key for the group makes one, sends it to the device in a first
    pairwise message and the text under it in the same stanza; the client
    reports both and confirms the delivery. *)
Theorem group_message_arrives bundle addr_b rnds rnd draws (ba : B) ia s attrs rid rkey rpair (ga : G) :
  let info := info_of attrs in
  let jid := encryption_jid (mi_source info) (rg_lids (rv_registry s)) in
  let name := sender_key_name (ms_chat (mi_source info)) (ms_sender (mi_source info)) in
  custom (lit "pkmsg") = false -> custom (lit "skmsg") = false -> direct jid -> can_write bundle jid addr_b rnds rnd ia s ->
  (draws 0%nat).1 = [rnd] -> view_sender_key ga name = None -> view_sender_key (rv_sender_keys s) name = None ->
  is_u32 rid -> length rkey = 32%nat -> length rpair = 32%nat ->
  exists skdm ga1, create_sender_key_distribution_message name rid rkey rpair ga = (Ok skdm, ga1)
    /\ forall pad pad' grnd m gm, distributes m (skdm_serialized skdm) -> plain gm ->
      exists ba1 ia1 out ba2 ia2 skm ga2 s',
        process_prekey_bundle addr_b bundle rnds (ba, ia) = (Ok tt, (ba1, ia1))
        /\ message_encrypt (pad_message_v2 pad (wm_encode m)) addr_b (ba1, ia1) = (Ok (C_PreKey out), (ba2, ia2))
        /\ group_encrypt name (pad_message_v2 pad' (wm_encode gm)) grnd ga1 = (Ok skm, ga2)
        /\ handle_encrypted_message delete_session delete_identity valid_time custom io now d signed draws
             (message_stanza attrs [enc_node "pkmsg" (pk_serialized out); enc_node "skmsg" (skm_serialized skm)]) s = (Ok tt, s')
        /\ rv_effects s' = rv_effects s ++ [Message m info; Message gm info; Delivery info].
Proof.
  intros info jid name Hcp Hcs Hdir Hcw Hdr Hga Hgs Hrid Hrk Hrp.
  destruct (group_first_message name rid rkey rpair ga Hga Hrid Hrk Hrp) as (skdm & ga1 & Hc & Htry & Hgrp).
  exists skdm, ga1. split; [done|]. intros pad pad' grnd m gm Hm Hgm.
  destruct (written bundle jid addr_b rnds rnd ba ia s (pad_message_v2 pad (wm_encode m)) Hcw) as (ba1 & ia1 & out & ba2 & ia2 & st & E1 & E2 & E3 & E4).
  destruct (Hgrp (pad_message_v2 pad' (wm_encode gm)) grnd (rv_sender_keys s) Hgs) as (skm & ga2 & g1 & g2 & E5 & E6 & E7).
  rewrite <- Hdr in E4.
  destruct (pkmsg_skmsg_handled draws s attrs pad pad' m gm out skdm skm st g1 g2 Hcp Hcs Hdir Hm Hgm E3 E4 Htry E6 E7) as (s' & Hh & He).
  by exists ba1, ia1, out, ba2, ia2, skm, ga2, s'.
Qed.

(** *** Failures *)

Lemma no_session_fails info addr r c sm f s :
  sm_try_from c = Ok sm -> view_session (rv_stores s).1.1 addr = None ->
  session_enc delete_session delete_identity valid_time io now d signed info addr r (enc_node "msg" c) f s
  = (Ok (with_dispatched true f), emit (Retry info NoSession) (emit (Undecryptable info) s)).
Proof.
  intros Hp Hv. unfold session_enc. change (enc_bytes (enc_node "msg" c)) with (Some c).
  change (attr_string (enc_node "msg" c) "type") with (lit "msg").
  change (padding_version (enc_node "msg" c)) with 2. unfold parse_enc. change (lit "msg" =s lit "pkmsg") with false. cbv iota.
  rewrite Hp. cbn [obind]. destruct s as [[[b i] k] g reg t sy kr pdo es]. cbn [rv_stores fst] in Hv.
  unfold on_stores, message_decrypt, with_stores, message_decrypt_signal, mbind', mlift, load_at. cbn [rv_stores fst snd].
  rewrite (load_session_returns (I := I) (K := K)), Hv. reflexivity.
Qed.

Lemma no_sender_key_asks info c skm s :
  skm_try_from c = Ok skm -> view_sender_key (rv_sender_keys s) (sender_key_name (ms_chat (mi_source info)) (ms_sender (mi_source info))) = None ->
  exists g, group_enc valid_time io now d info (enc_node "skmsg" c) s = (Ok tt, emit (Retry info NoSession) (set_sender_keys g s)).
Proof.
  intros Hp Hv. unfold group_enc. change (enc_bytes (enc_node "skmsg" c)) with (Some c).
  unfold on_sender_keys, group_decrypt, mbind', mlift. rewrite Hp.
  destruct (load_returns (sender_key_name (ms_chat (mi_source info)) (ms_sender (mi_source info))) (rv_sender_keys s)) as (r & g & E).
  rewrite E. rewrite (load_ok _ _ _ _ E), Hv. by exists g.
Qed.

(** C40: What a failure leads to.  A direct message for which there is no session
    is reported as undecryptable twice and asked for once; a group message
    without its sender key is asked for and its delivery is confirmed although
    nothing was decrypted. *)
Theorem failures_reported draws attrs s c :
  let info := info_of attrs in
  let jid := encryption_jid (mi_source info) (rg_lids (rv_registry s)) in
  (forall sm, sm_try_from c = Ok sm -> custom (lit "msg") = false -> direct jid ->
    view_session (rv_stores s).1.1 (to_protocol_address jid) = None ->
    exists s', handle_encrypted_message delete_session delete_identity valid_time custom io now d signed draws
        (message_stanza attrs [enc_node "msg" c]) s = (Ok tt, s')
      /\ rv_effects s' = rv_effects s ++ [Undecryptable info; Retry info NoSession; Undecryptable info])
  /\ (forall skm, skm_try_from c = Ok skm -> custom (lit "skmsg") = false ->
    view_sender_key (rv_sender_keys s) (sender_key_name (ms_chat (mi_source info)) (ms_sender (mi_source info))) = None ->
    exists s', handle_encrypted_message delete_session delete_identity valid_time custom io now d signed draws
        (message_stanza attrs [enc_node "skmsg" c]) s = (Ok tt, s')
      /\ rv_effects s' = rv_effects s ++ [Retry info NoSession; Delivery info]).
Proof.
  intros info jid. split.
  - intros sm Hp Hcu Hdir Hv. destruct (stanza_handled attrs [enc_node "msg" c] s) as (s0 & (r & t & ->) & Hh); [done|by repeat constructor|by left|].
    assert (session_enc_nodes custom [enc_node "msg" c] = [enc_node "msg" c] /\ group_content_enc_nodes custom [enc_node "msg" c] = [])
      as [Hse Hgr].
    { unfold session_enc_nodes, group_content_enc_nodes, enc_kind. cbn [List.filter].
      change (attr_string (enc_node "msg" c) "type") with (lit "msg"). by rewrite Hcu. }
    eexists. rewrite (Hh draws), Hse, Hgr. unfold mbind'. erewrite batch_of_one; [|by eapply no_session_fails].
    split; [reflexivity|]. cbn. by rewrite <- !app_assoc.
  - intros skm Hp Hcu Hv.
    assert (session_enc_nodes custom [enc_node "skmsg" c] = [] /\ group_content_enc_nodes custom [enc_node "skmsg" c] = [enc_node "skmsg" c])
      as [Hse Hgr].
    { unfold session_enc_nodes, group_content_enc_nodes, enc_kind. cbn [List.filter].
      change (attr_string (enc_node "skmsg" c) "type") with (lit "skmsg"). by rewrite Hcu. }
    destruct (stanza_handled attrs [enc_node "skmsg" c] s) as (s0 & (r & t & ->) & Hh); [done|by repeat constructor|by right|].
    destruct (no_sender_key_asks info c skm (set_lids r t s) Hp Hv) as [g Hg].
    eexists. rewrite (Hh draws), Hse, Hgr. unfold mbind'. cbn [process_session_enc_batch]. unfold mret at 1, conclude. cbn [any_success
      any_duplicate no_flags negb andb orb bool_decide]. rewrite bool_decide_eq_false_2 by done. cbn [negb].
    rewrite bool_decide_eq_true_2 by done. cbn [orb]. unfold process_group_enc_batch, mfor, mbind'. fold info. rewrite Hg. cbn.
    split; [reflexivity|]. cbn. by rewrite <- app_assoc.
Qed.

(** *** Answers of the phone *)

(** A message that looks like an answer of the phone about a placeholder. *)
Record answers (m : M) (web : bytes) : Prop := {
  an_skdm : wm_skdm m = None; an_key_share : wm_key_share m = None; an_pdo : wm_pdo_response m = Some [Some (Some web)];
  an_history : wm_take_history m = (None, m)
}.

Lemma answer_handled m rnd v info web w forged finfo s :
  v <> 3 -> answers m web -> web_decode web = Some w -> wi_message w = Some forged ->
  rv_pdo s !! (default_or [] (wi_remote_jid w) ++ lit ":" ++ default_or [] (wi_id w)) = None ->
  message_info_from_web_message_info valid_time now d w = Ok finfo ->
  exists p, handle_decrypted_plaintext valid_time io now d (lit "pkmsg") (pad_message_v2 rnd (wm_encode m)) v info s
    = (Ok tt, emit (Message m info) (emit (Message forged finfo) (set_pdo p s))).
Proof.
  intros Hv [H1 H2 H3 H4] Hw Hf Hp Hi. eexists. unfold handle_decrypted_plaintext. rewrite unpad_padded by done. rewrite wm_decode_encode.
  change (lit "pkmsg" =s lit "skmsg") with false. cbv iota. unfold mbind'. rewrite H1, H2, H3, H4.
  cbn [maybe]. unfold handle_pdo_response, mret. cbn [mfor]. unfold handle_placeholder_resend_response, mbind'. rewrite Hw. cbv zeta.
  by rewrite Hp, Hi, Hf.
Qed.

(** Content is accepted from anyone who can write to the device.  A first
    message that claims to be an answer of the phone, from whatever sender,
    makes the client report any message as written by any user in any direct
    chat, provided the client is not waiting for that very message. *)
Theorem forged_message_reported bundle addr_b rnds rnd draws (ba : B) ia s attrs pad m web forged victim id :
  let info := info_of attrs in
  let jid := encryption_jid (mi_source info) (rg_lids (rv_registry s)) in
  custom (lit "pkmsg") = false -> direct jid -> can_write bundle jid addr_b rnds rnd ia s -> (draws 0%nat).1 = [rnd] ->
  answers m web ->
  web_decode web = Some (mkWebMessageInfo (Some (jid_to_string victim)) (Some false) (Some id) None None None (Some forged)) ->
  jid_try_from (jid_to_string victim) = Ok victim -> is_group victim = false ->
  rv_pdo s !! (jid_to_string victim ++ lit ":" ++ id) = None ->
  exists ba1 ia1 out ba2 ia2 s',
    process_prekey_bundle addr_b bundle rnds (ba, ia) = (Ok tt, (ba1, ia1))
    /\ message_encrypt (pad_message_v2 pad (wm_encode m)) addr_b (ba1, ia1) = (Ok (C_PreKey out), (ba2, ia2))
    /\ handle_encrypted_message delete_session delete_identity valid_time custom io now d signed draws
         (message_stanza attrs [enc_node "pkmsg" (pk_serialized out)]) s = (Ok tt, s')
    /\ rv_effects s' = rv_effects s
         ++ [Message forged (mkMessageInfo (source_of victim victim) id [] now []); Message m info; Delivery info].
Proof.
  intros info jid Hcu Hdir Hcw Hdr Hm Hweb Hparse Hgrp Hpend.
  destruct (written bundle jid addr_b rnds rnd ba ia s (pad_message_v2 pad (wm_encode m)) Hcw) as (ba1 & ia1 & out & ba2 & ia2 & st & E1 & E2 & E3 & E4).
  destruct (stanza_handled attrs [enc_node "pkmsg" (pk_serialized out)] s) as (s0 & (r & t & ->) & Hh); [done|by repeat constructor|by left|].
  destruct (kinds_of_pkmsg (pk_serialized out) Hcu) as [Hse Hgr].
  destruct (answer_handled m pad 2 info web (mkWebMessageInfo (Some (jid_to_string victim)) (Some false) (Some id) None None None (Some forged))
    forged (mkMessageInfo (source_of victim victim) id [] now []) (set_stores st (set_lids r t s)))
    as [p Ha]; [done|done|exact Hweb|done|exact Hpend| |].
  { unfold message_info_from_web_message_info. cbn [wi_remote_jid ok_or obind]. rewrite Hparse. cbn [map_err obind]. by rewrite Hgrp. }
  exists ba1, ia1, out, ba2, ia2. eexists. split; [exact E1|]. split; [exact E2|]. rewrite (Hh draws), Hse, Hgr. unfold mbind'.
  erewrite batch_of_one; [|eapply session_enc_ok; [exact E3|rewrite Hdr; exact E4|exact Ha] ].
  split; [by apply concluded_ok|]. cbn. by rewrite <- !app_assoc.
Qed.
End Arrive.

(** ** Witnesses *)

Fixpoint pos_bits (p : positive) : bytes := match p with xH => [] | xO p => 0 :: pos_bits p | xI p => 1 :: pos_bits p end.
Fixpoint bits_pos (l : bytes) : positive := match l with [] => xH | x :: l => if x =? 0 then xO (bits_pos l) else xI (bits_pos l) end.
Lemma bits_pos_bits p : bits_pos (pos_bits p) = p.
Proof. induction p as [p IH|p IH|]; cbn; by rewrite ?IH. Qed.
Lemma pos_bits_bytes p : Forall is_byte (pos_bits p).
Proof. induction p as [p IH|p IH|]; cbn; [constructor; [unfold is_byte; lia|done]|constructor; [unfold is_byte; lia|done]|constructor]. Qed.

(** A text, a sender key and an answer of the phone. *)
Definition ToyMessage : Type := bytes * option bytes * option bytes.
Definition toy_victim : Jid := pn (lit "5").
#[local] Program Instance toy_message : WaMessage ToyMessage unit := {|
  wm_encode m := pos_bits (countable.encode m);
  wm_decode b := countable.decode (bits_pos b);
  wm_skdm m := m.1.2;
  wm_key_share m := None;
  wm_pdo_response m := match m.2 with Some w => Some [Some (Some w)] | None => None end;
  wm_take_history m := (None, m);
  web_decode b := Some (mkWebMessageInfo (Some (jid_to_string toy_victim)) (Some false) (Some (lit "X")) None None None (Some (b, None, None)))
|}.
Next Obligation. intros m. cbn. by rewrite bits_pos_bits, countable.decode_encode. Qed.
Next Obligation. intros m. apply pos_bits_bytes. Qed.

Abbreviation toy_state := (RecvState ((ProtocolAddress -> option SessionRecord) * IdentityKeyPair * (Z -> option PreKeyRecord)) mem_store ToyMessage unit).
Definition toy_recv : toy_state :=
  mkRecvState (fun _ => None, toy_identity 3, toy_prekey_table) (fun _ => None) toy_registry ∅ ∅ false ∅ [].
Definition toy_recv_io : RecvIo := mkRecvIo (Ok tt) (Ok tt) (Ok tt) (fun _ => Ok tt).
Definition toy_direct_attrs : list (str * str) := [(lit "from", lit "77:2@s.whatsapp.net"); (lit "id", lit "M1"); (lit "t", lit "1000")].
Definition toy_group_attrs : list (str * str) :=
  [(lit "from", lit "123@g.us"); (lit "participant", lit "77:2@s.whatsapp.net"); (lit "id", lit "M1"); (lit "t", lit "1000")].
Definition toy_draws (i : nat) : list bytes * list bytes := ([replicate 32 7], []).
Definition toy_sender : Jid := pn_device (lit "77") 2.

Lemma toy_can_write :
  @can_write sum_curve _ _ _ _ mem_store ToyMessage unit toy_sessions toy_identities toy_prekeys toy_signed_prekeys toy_signed_table toy_bundle
    toy_sender toy_address (replicate 32 2, replicate 32 6) (replicate 32 7) (toy_identity 1) toy_recv.
Proof.
  split; try done.
  - exists (toy_identity 3), (toy_pair 4), (Some (toy_pair 5)). split; [exact toy_published|]. split; [done|].
    apply (bool_decide_unpack (NoDup _)). vm_compute. constructor.
  - exists (toy_identity 1), 33. split_and!; try done.
Qed.

Abbreviation toy_handle :=
  (@handle_encrypted_message toy_hkdf toy_hashes toy_aes sum_curve toy_signal toy_proto toy_json _ _ _ _ mem_store ToyMessage unit toy_sessions
     toy_identities toy_prekeys toy_signed_prekeys toy_store toy_message (fun _ b => (Ok tt, b)) (fun _ i => (Ok tt, i)) (fun _ => true)
     (fun _ => false) toy_recv_io 5 toy_retry_device toy_signed_table toy_draws) (only parsing).
Abbreviation toy_info_of := (info_of (fun _ => true) 5 toy_retry_device) (only parsing).

Lemma message_arrives_witness :
  exists out s', toy_handle (message_stanza toy_direct_attrs [enc_node "pkmsg" (pk_serialized out)]) toy_recv = (Ok tt, s')
    /\ rv_effects s' = [Message ([72; 105], None, None) (toy_info_of toy_direct_attrs); Delivery (toy_info_of toy_direct_attrs)]
    /\ ms_sender (mi_source (toy_info_of toy_direct_attrs)) = toy_sender.
Proof.
  destruct (@message_arrives toy_hkdf toy_hashes toy_aes sum_curve toy_signal toy_proto toy_json _ _ _ _ mem_store ToyMessage unit toy_sessions
    toy_identities toy_prekeys toy_signed_prekeys toy_store toy_stores toy_message (fun _ b => (Ok tt, b)) (fun _ i => (Ok tt, i))
    (fun _ => true) (fun _ => false) toy_recv_io 5 toy_retry_device toy_signed_table toy_bundle toy_address (replicate 32 2, replicate 32 6)
    (replicate 32 7) toy_draws (fun _ => None) (toy_identity 1) toy_recv toy_direct_attrs 34 ([72; 105], None, None))
    as (ba1 & ia1 & out & ba2 & ia2 & s' & _ & _ & Hh & He);
    [reflexivity|vm_compute; reflexivity|exact toy_can_write|by split|reflexivity|].
  exists out, s'. split; [exact Hh|]. split; [exact He|]. vm_compute. reflexivity.
Defined.

Lemma group_message_arrives_witness :
  exists skdm out skm s', toy_handle (message_stanza toy_group_attrs [enc_node "pkmsg" (pk_serialized out); enc_node "skmsg" (skm_serialized skm)])
      toy_recv = (Ok tt, s')
    /\ rv_effects s' = [Message ([], Some skdm, None) (toy_info_of toy_group_attrs);
                        Message ([72; 105], None, None) (toy_info_of toy_group_attrs); Delivery (toy_info_of toy_group_attrs)].
Proof.
  destruct (@group_message_arrives toy_hkdf toy_hashes toy_aes sum_curve toy_signal toy_proto toy_json _ _ _ _ mem_store ToyMessage unit
    toy_sessions toy_identities toy_prekeys toy_signed_prekeys toy_store toy_stores GroupCipher.toy_reliable toy_message
    (fun _ b => (Ok tt, b)) (fun _ i => (Ok tt, i)) (fun _ => true) (fun _ => false) toy_recv_io 5 toy_retry_device toy_signed_table toy_bundle
    toy_address (replicate 32 2, replicate 32 6) (replicate 32 7) toy_draws (fun _ => None) (toy_identity 1) toy_recv toy_group_attrs 9
    (replicate 32 1) (replicate 32 2) (fun _ => None)) as (skdm & ga1 & _ & Hall);
    [reflexivity|reflexivity|vm_compute; reflexivity|exact toy_can_write|reflexivity|reflexivity|reflexivity|unfold is_u32; lia|reflexivity
    |reflexivity|].
  destruct (Hall 34 35 [] ([], Some (skdm_serialized skdm), None) ([72; 105], None, None))
    as (ba1 & ia1 & out & ba2 & ia2 & skm & ga2 & s' & _ & _ & _ & Hh & He); [by split|by split|].
  exists (skdm_serialized skdm), out, skm, s'. split; [exact Hh|exact He].
Defined.

Lemma forged_message_reported_witness :
  exists out s' m, toy_handle (message_stanza toy_direct_attrs [enc_node "pkmsg" (pk_serialized out)]) toy_recv = (Ok tt, s')
    /\ rv_effects s' = [Message ([66], None, None) (mkMessageInfo (source_of toy_victim toy_victim) (lit "X") [] 5 []);
                        Message m (toy_info_of toy_direct_attrs); Delivery (toy_info_of toy_direct_attrs)].
Proof.
  destruct (@forged_message_reported toy_hkdf toy_hashes toy_aes sum_curve toy_signal toy_proto toy_json _ _ _ _ mem_store ToyMessage unit
    toy_sessions toy_identities toy_prekeys toy_signed_prekeys toy_store toy_stores toy_message (fun _ b => (Ok tt, b)) (fun _ i => (Ok tt, i))
    (fun _ => true) (fun _ => false) toy_recv_io 5 toy_retry_device toy_signed_table toy_bundle toy_address (replicate 32 2, replicate 32 6)
    (replicate 32 7) toy_draws (fun _ => None) (toy_identity 1) toy_recv toy_direct_attrs 34 ([], None, Some [66]) [66] ([66], None, None)
    toy_victim (lit "X")) as (ba1 & ia1 & out & ba2 & ia2 & s' & _ & _ & Hh & He);
    [reflexivity|vm_compute; reflexivity|exact toy_can_write|reflexivity|by split|reflexivity|vm_compute; reflexivity|reflexivity|reflexivity|].
  exists out, s', ([], None, Some [66]). split; [exact Hh|exact He].
Defined.

(** The bytes of a message for a session the client does not have. *)
Definition toy_unknown_bytes : bytes :=
  let '(_, st) := @process_prekey_bundle toy_hkdf sum_curve _ _ toy_sessions toy_identities toy_address toy_bundle
                    (replicate 32 2, replicate 32 6) (fun _ => None, toy_identity 1) in
  match (@message_encrypt toy_hkdf toy_hashes toy_aes toy_signal _ _ toy_sessions toy_identities [1; 2; 3] toy_address st).1 with
  | Ok (C_PreKey m) => sm_serialized (pk_message m)
  | _ => []
  end.

Lemma failures_reported_witness :
  exists s', toy_handle (message_stanza toy_direct_attrs [enc_node "msg" toy_unknown_bytes]) toy_recv = (Ok tt, s')
    /\ length (rv_effects s') = 3%nat.
Proof.
  destruct (@failures_reported toy_hkdf toy_hashes toy_aes sum_curve toy_signal toy_proto toy_json _ _ _ _ mem_store ToyMessage unit
    toy_sessions toy_identities toy_prekeys toy_signed_prekeys toy_store toy_stores GroupCipher.toy_reliable toy_message
    (fun _ b => (Ok tt, b)) (fun _ i => (Ok tt, i)) (fun _ => true) (fun _ => false) toy_recv_io 5 toy_retry_device toy_signed_table toy_draws
    toy_direct_attrs toy_recv toy_unknown_bytes) as [Hd _].
  assert (exists sm, @sm_try_from toy_signal toy_unknown_bytes = Ok sm) as [sm Hsm] by (vm_compute; by eexists).
  destruct (Hd sm Hsm) as (s' & Hh & He); [reflexivity|vm_compute; reflexivity|reflexivity|].
  exists s'. split; [exact Hh|]. by rewrite He.
Defined.
