(* ===== verification/ReportingToken.v ===== *)
(** * Reporting tokens: [warp_core/src/reporting_token.rs]

    A token commits the sender to the parts of a message that may be reported:
    a whitelist of fields is cut out of the encoded message, put in order and
    authenticated under a key of the message's secret.  The theorems show that
    variable-length numbers read back, that on an encoded message the cutting
    computes the selection defined on its fields, and that a length near 2^64
    makes it run forever. *)

From S2P Require Import Prelude RustStd Crypto Curve Jid Node Attrs.

(** ** The whitelist *)

Inductive ReportingField := mkField (field_number : u32) (subfields : option (list ReportingField)) (is_message : bool).
Definition field_number (f : ReportingField) : u32 := let '(mkField n _ _) := f in n.
Definition field_new (n : u32) : ReportingField := mkField n None false.
Definition with_subfields (n : u32) (l : list ReportingField) : ReportingField := mkField n (Some l) false.
Definition field_message (n : u32) : ReportingField := mkField n None true.

Definition CONTEXT_INFO_SUBFIELDS := [field_new 21; field_new 22].
Definition FUTURE_PROOF_SUBFIELDS := [field_message 1].
Definition IMAGE_MESSAGE_SUBFIELDS :=
  [field_new 2; field_new 3; field_new 8; field_new 11; with_subfields 17 CONTEXT_INFO_SUBFIELDS; field_new 25].
Definition CONTACT_MESSAGE_SUBFIELDS := [field_new 1; field_new 16; with_subfields 17 CONTEXT_INFO_SUBFIELDS].
Definition LOCATION_MESSAGE_SUBFIELDS :=
  [field_new 3; field_new 4; field_new 5; field_new 16; with_subfields 17 CONTEXT_INFO_SUBFIELDS].
Definition EXTENDED_TEXT_MESSAGE_SUBFIELDS := [field_new 1; with_subfields 17 CONTEXT_INFO_SUBFIELDS; field_new 30].
Definition DOCUMENT_MESSAGE_SUBFIELDS :=
  [field_new 2; field_new 7; field_new 10; with_subfields 17 CONTEXT_INFO_SUBFIELDS; field_new 20].
Definition AUDIO_MESSAGE_SUBFIELDS :=
  [field_new 2; field_new 7; field_new 9; with_subfields 17 CONTEXT_INFO_SUBFIELDS; field_new 21].
Definition VIDEO_MESSAGE_SUBFIELDS :=
  [field_new 2; field_new 6; field_new 7; field_new 13; with_subfields 17 CONTEXT_INFO_SUBFIELDS; field_new 20].
Definition PROTOCOL_MESSAGE_SUBFIELDS := [field_new 1; field_new 2; field_message 14; field_new 15].
Definition LIVE_LOCATION_MESSAGE_SUBFIELDS := [field_new 6; field_new 16; with_subfields 17 CONTEXT_INFO_SUBFIELDS].
Definition STICKER_MESSAGE_SUBFIELDS :=
  [field_new 4; field_new 5; field_new 8; field_new 13; with_subfields 17 CONTEXT_INFO_SUBFIELDS].
Definition GROUP_INVITE_MESSAGE_SUBFIELDS :=
  [field_new 1; field_new 2; field_new 4; field_new 5; field_new 6; with_subfields 7 CONTEXT_INFO_SUBFIELDS].
Definition POLL_OPTION_SUBFIELDS := [field_new 1; field_new 2].
Definition POLL_CREATION_MESSAGE_SUBFIELDS :=
  [field_new 2; with_subfields 3 POLL_OPTION_SUBFIELDS; with_subfields 5 CONTEXT_INFO_SUBFIELDS; with_subfields 8 POLL_OPTION_SUBFIELDS].
Definition POLL_RESULT_OPTION_SUBFIELDS := [field_new 1].
Definition POLL_RESULT_SUBFIELDS :=
  [field_new 1; with_subfields 2 POLL_RESULT_OPTION_SUBFIELDS; with_subfields 3 CONTEXT_INFO_SUBFIELDS].
Definition REPORTING_FIELDS : list ReportingField :=
  [field_new 1; with_subfields 3 IMAGE_MESSAGE_SUBFIELDS; with_subfields 4 CONTACT_MESSAGE_SUBFIELDS;
   with_subfields 5 LOCATION_MESSAGE_SUBFIELDS; with_subfields 6 EXTENDED_TEXT_MESSAGE_SUBFIELDS;
   with_subfields 7 DOCUMENT_MESSAGE_SUBFIELDS; with_subfields 8 AUDIO_MESSAGE_SUBFIELDS; with_subfields 9 VIDEO_MESSAGE_SUBFIELDS;
   with_subfields 12 PROTOCOL_MESSAGE_SUBFIELDS; with_subfields 18 LIVE_LOCATION_MESSAGE_SUBFIELDS;
   with_subfields 26 STICKER_MESSAGE_SUBFIELDS; with_subfields 28 GROUP_INVITE_MESSAGE_SUBFIELDS; with_subfields 37 FUTURE_PROOF_SUBFIELDS;
   with_subfields 49 POLL_CREATION_MESSAGE_SUBFIELDS; with_subfields 53 FUTURE_PROOF_SUBFIELDS; with_subfields 55 FUTURE_PROOF_SUBFIELDS;
   with_subfields 58 FUTURE_PROOF_SUBFIELDS; with_subfields 59 FUTURE_PROOF_SUBFIELDS; with_subfields 60 POLL_CREATION_MESSAGE_SUBFIELDS;
   with_subfields 64 POLL_CREATION_MESSAGE_SUBFIELDS; with_subfields 66 VIDEO_MESSAGE_SUBFIELDS; with_subfields 74 FUTURE_PROOF_SUBFIELDS;
   with_subfields 87 FUTURE_PROOF_SUBFIELDS; with_subfields 88 POLL_RESULT_SUBFIELDS; with_subfields 92 FUTURE_PROOF_SUBFIELDS;
   with_subfields 93 FUTURE_PROOF_SUBFIELDS; with_subfields 94 FUTURE_PROOF_SUBFIELDS].

Definition REPORTING_TOKEN_VERSION : i32 := 2.
Definition MESSAGE_SECRET_SIZE : nat := 32.
Definition REPORTING_TOKEN_KEY_SIZE : nat := 32.
Definition REPORTING_TOKEN_SIZE : nat := 16.
Definition USE_CASE_REPORT_TOKEN : str := lit "Report Token".

(** ** Variable-length numbers *)

(** [i] bytes were read, [shift] is [7 * i]. *)
Fixpoint decode_varint_from (data : bytes) (i : nat) (value : u64) (shift : Z) : option (u64 * nat) :=
  match data with
  | [] => None
  | byte :: data =>
      let value := Z.lor value (wrap 64 (Z.shiftl (Z.land byte 127) shift)) in
      if Z.land byte 128 =? 0 then Some (value, S i)
      else if 63 <? shift + 7 then None
      else decode_varint_from data (S i) value (shift + 7)
  end.
Definition decode_varint (data : bytes) : option (u64 * nat) := decode_varint_from data 0 0 0.

Definition MAX_VARINT_LEN : nat := 10.

(** The bytes written; a number that needs more than the buffer panics. *)
Fixpoint encode_varint_fuel (room : nat) (value : u64) : outcome unit bytes :=
  match room with
  | O => Panic
  | S room =>
      let byte := Z.land value 127 in
      let value := Z.shiftr value 7 in
      if value =? 0 then Ok [byte]
      else let? rest := encode_varint_fuel room value in Ok (Z.lor byte 128 :: rest)
  end.
Definition encode_varint_to_buf (value : u64) : outcome unit bytes := encode_varint_fuel MAX_VARINT_LEN value.

(** ** Cutting *)

(** A stable sort by the number. *)
Fixpoint insert_field (x : u32 * bytes) (l : list (u32 * bytes)) : list (u32 * bytes) :=
  match l with
  | [] => [x]
  | y :: l => if x.1 <? y.1 then x :: y :: l else y :: insert_field x l
  end.
Definition sort_fields (l : list (u32 * bytes)) : list (u32 * bytes) := fold_left (fun acc x => insert_field x acc) l [].

Definition assembled (extracted : list (u32 * bytes)) : option bytes :=
  match extracted with [] => None | _ => Some (mjoin (map snd (sort_fields extracted))) end.

Definition lookup_field (n : u32) (whitelist : list ReportingField) : option ReportingField :=
  List.find (fun f => field_number f =? n) whitelist.

Definition usize_of (z : Z) : Z := wrap 64 z.

Definition wrapped_field (tag : u64) (nested : bytes) : outcome unit bytes :=
  let? t := encode_varint_to_buf tag in
  let? l := encode_varint_to_buf (Z.of_nat (length nested)) in
  Ok (t ++ l ++ nested).

(** [data[from..to]]: a panic when the bounds are out of order or of the data. *)
Definition sub_slice (from to : Z) (data : bytes) : outcome unit bytes :=
  if (to <? from) || (Z.of_nat (length data) <? to) then Panic else Ok (slice (Z.to_nat from) (Z.to_nat to) data).

Definition keep (entry : option ReportingField) (n : u32) (b : bytes) (extracted : list (u32 * bytes)) : list (u32 * bytes) :=
  match entry with Some _ => extracted ++ [(n, b)] | None => extracted end.

(** What was cut out of a nested message goes under its tag, unless empty. *)
Definition keep_nested (tag : u64) (n : u32) (extracted : list (u32 * bytes)) (o : option (list (u32 * bytes)))
    : outcome unit (list (u32 * bytes)) :=
  match match o with Some e => assembled e | None => None end with
  | Some (x :: nested) => let? f := wrapped_field tag (x :: nested) in Ok (extracted ++ [(n, f)])
  | _ => Ok extracted
  end.

(** One round of the loop per unit of fuel, nested messages included.  The
    outer [None] is an early return of [None]. *)
Fixpoint extract_loop (fuel : nat) (data : bytes) (whitelist : list ReportingField) (pos : Z) (extracted : list (u32 * bytes))
    : outcome unit (option (list (u32 * bytes))) :=
  match fuel with
  | O => NoFuel
  | S fuel =>
      let size := Z.of_nat (length data) in
      if size <=? pos then Ok (Some extracted)
      else
        match decode_varint (drop (Z.to_nat pos) data) with
        | None => Ok None
        | Some (tag, tag_len) =>
            let field_number := wrap 32 (Z.shiftr tag 3) in
            let wire_type := Z.land tag 7 in
            let field_start := pos in
            let pos := pos + Z.of_nat tag_len in
            if size <? pos then Ok (Some extracted)
            else
              let entry := lookup_field field_number whitelist in
              let fixed n :=
                if size <? pos + n then Ok (Some extracted)
                else extract_loop fuel data whitelist (pos + n)
                       (keep entry field_number (slice (Z.to_nat field_start) (Z.to_nat (pos + n)) data) extracted) in
              if wire_type =? 0 then
                match decode_varint (drop (Z.to_nat pos) data) with
                | None => Ok None
                | Some (_, val_len) => fixed (Z.of_nat val_len)
                end
              else if wire_type =? 1 then fixed 8
              else if wire_type =? 5 then fixed 4
              else if wire_type =? 2 then
                match decode_varint (drop (Z.to_nat pos) data) with
                | None => Ok None
                | Some (len, len_size) =>
                    let value_start := pos + Z.of_nat len_size in
                    let value_end := usize_of (value_start + len) in
                    if size <? value_end then Ok (Some extracted)
                    else
                      let nested_in l :=
                        let? value := sub_slice value_start value_end data in
                        let? o := extract_loop fuel value l 0 [] in keep_nested tag field_number extracted o in
                      let? extracted :=
                        match entry with
                        | None => Ok extracted
                        | Some (mkField _ _ true) => nested_in REPORTING_FIELDS
                        | Some (mkField _ (Some subfields) false) => nested_in subfields
                        | Some (mkField _ None false) =>
                            let? b := sub_slice field_start value_end data in Ok (extracted ++ [(field_number, b)])
                        end in
                      extract_loop fuel data whitelist value_end extracted
                end
              else Ok None
        end
  end.

Definition extract_reporting_token_content (fuel : nat) (data : bytes) (whitelist : list ReportingField) : outcome unit (option bytes) :=
  let? o := extract_loop fuel data whitelist 0 [] in Ok (match o with Some e => assembled e | None => None end).

(** ** Tokens *)

(** [wa::Message] with its context: the secret, the version and the rest; and
    whether it is of a kind that gets no token (reactions, poll votes, kept
    messages). *)
Record ContextInfo (R : Type) := mkContextInfo { ci_secret : option bytes; ci_version : option i32; ci_rest : R }.
Arguments mkContextInfo {R} _ _ _.
Arguments ci_secret {R} _.
Arguments ci_version {R} _.
Arguments ci_rest {R} _.
Class ReportMessage (M R : Type) := {
  rm_encode : M -> bytes;
  rm_reaction : M -> bool; rm_enc_reaction : M -> bool; rm_poll_update : M -> bool; rm_keep_in_chat : M -> bool;
  rm_context : M -> option (ContextInfo R);
  rm_set_context : option (ContextInfo R) -> M -> M;
  rm_rest_default : R;
  rm_context_set : forall c m, rm_context (rm_set_context c m) = c
}.

Record ReportingTokenResult := mkTokenResult { tr_message_secret : bytes; tr_reporting_token : bytes; tr_version : i32 }.

Section Tokens.
Context `{HK : !Hkdf, HS : !Hashes} {M R : Type} `{HM : !ReportMessage M R}.

Definition build_hkdf_info (stanza_id sender_jid remote_jid : str) : bytes :=
  stanza_id ++ sender_jid ++ remote_jid ++ USE_CASE_REPORT_TOKEN.

Definition derive_reporting_token_key (message_secret : bytes) (stanza_id sender_jid remote_jid : str) : outcome str bytes :=
  if negb (length message_secret =? MESSAGE_SECRET_SIZE)%nat then
    Err (lit "Invalid message secret size: expected 32, got " ++ show_uint (Z.of_nat (length message_secret)))
  else Ok (hkdf None message_secret (build_hkdf_info stanza_id sender_jid remote_jid) REPORTING_TOKEN_KEY_SIZE).

Definition should_include_reporting_token (m : M) : bool :=
  negb (rm_reaction m) && negb (rm_enc_reaction m) && negb (rm_poll_update m) && negb (rm_keep_in_chat m).

(** The fuel is enough by [extract_selects]. *)
Definition generate_reporting_token_content (m : M) : outcome unit (option bytes) :=
  if should_include_reporting_token m
  then extract_reporting_token_content (S (length (rm_encode m))) (rm_encode m) REPORTING_FIELDS
  else Ok None.

Definition calculate_reporting_token (key content : bytes) : bytes := take REPORTING_TOKEN_SIZE (hmac Sha256 key content).

(** [rnd]: the secret drawn when none of the right size is given *)
Definition generate_reporting_token (rnd : bytes) (m : M) (stanza_id : str) (sender_jid remote_jid : Jid) (existing_secret : option bytes)
    : outcome unit (option ReportingTokenResult) :=
  let message_secret := match existing_secret with
                        | Some secret => if (length secret =? MESSAGE_SECRET_SIZE)%nat then secret else rnd
                        | None => rnd
                        end in
  match derive_reporting_token_key message_secret stanza_id (jid_to_string sender_jid) (jid_to_string remote_jid) with
  | Ok key =>
      let? content := generate_reporting_token_content m in
      Ok (match content with
          | Some content => Some (mkTokenResult message_secret (calculate_reporting_token key content) REPORTING_TOKEN_VERSION)
          | None => None
          end)
  | _ => Ok None
  end.

Definition build_reporting_node (r : ReportingTokenResult) : Node :=
  build (b_children (builder_new (lit "reporting"))
    [build (b_bytes (b_attrs_all (builder_new (lit "reporting_token")) [(lit "v", show_uint (tr_version r))]) (tr_reporting_token r))]).

Definition prepare_message_with_context (m : M) (message_secret : bytes) : M :=
  let context_info := match rm_context m with Some c => c | None => mkContextInfo None None rm_rest_default end in
  rm_set_context (Some (mkContextInfo (Some message_secret) (Some REPORTING_TOKEN_VERSION) (ci_rest context_info))) m.

Definition extract_message_secret (m : M) : option bytes :=
  match rm_context m with Some c => ci_secret c | None => None end.
End Tokens.

(** ** Theory: numbers *)

Lemma encode_varint_ok room v :
  0 <= v -> v < 2 ^ (7 * Z.of_nat room) -> (0 < room)%nat ->
  exists b, encode_varint_fuel room v = Ok b /\ (0 < length b <= room)%nat.
Proof.
  revert v. induction room as [|room IH]; intros v Hv Hb Hr; [lia|]. cbn [encode_varint_fuel].
  destruct (Z.eqb_spec (Z.shiftr v 7) 0) as [_|Hn]; [eexists; split; [done|]; cbn; lia|].
  rewrite Z.shiftr_div_pow2 in * by lia.
  assert (0 <= v / 2 ^ 7) by (apply Z.div_pos; lia).
  assert (v / 2 ^ 7 < 2 ^ (7 * Z.of_nat room)) as Hlt.
  { apply Z.div_lt_upper_bound; [lia|]. rewrite <- Z.pow_add_r by lia. by replace (7 + 7 * Z.of_nat room) with (7 * Z.of_nat (S room)) by lia. }
  destruct room as [|room]; [cbn in Hlt; lia|].
  destruct (IH (v / 2 ^ 7)) as (b & -> & Hl); [lia|done|lia|]. eexists. split; [done|]. cbn [length]. lia.
Qed.

(** A digit above the bits that are there is an addition. *)
Lemma lor_digit value x shift : 0 <= value < 2 ^ shift -> 0 <= x -> 0 <= shift -> Z.lor value (Z.shiftl x shift) = value + x * 2 ^ shift.
Proof.
  intros Hv Hx Hs. rewrite Z.shiftl_mul_pow2 by done. symmetry. apply Z.add_nocarry_lor.
  apply Z.bits_inj'. intros n Hn. rewrite Z.land_spec, Z.bits_0. destruct (Z.lt_ge_cases n shift) as [H|H].
  - rewrite Z.mul_pow2_bits_low by lia. apply andb_false_r.
  - replace (Z.testbit value n) with false; [done|]. symmetry. destruct (Z.eq_dec value 0) as [->|]; [apply Z.bits_0|].
    apply Z.bits_above_log2; [lia|]. apply Z.log2_lt_pow2; [lia|]. eapply Z.lt_le_trans; [apply Hv|]. apply Z.pow_le_mono_r; lia.
Qed.

Lemma land_127 v : 0 <= v -> Z.land v 127 = v mod 128.
Proof. intros. change 127 with (Z.ones 7). by rewrite Z.land_ones by lia. Qed.

Lemma decode_encode room v b rest i value :
  encode_varint_fuel room v = Ok b -> 0 <= v -> 0 <= value < 2 ^ (7 * Z.of_nat i) -> v < 2 ^ (64 - 7 * Z.of_nat i) -> (i < 10)%nat ->
  decode_varint_from (b ++ rest) i value (7 * Z.of_nat i) = Some (value + v * 2 ^ (7 * Z.of_nat i), (i + length b)%nat).
Proof.
  revert v b i value. induction room as [|room IH]; intros v b i value He Hv Hval Hb Hi; [done|]. cbn [encode_varint_fuel] in He.
  set (sh := 7 * Z.of_nat i) in *. assert (0 <= v mod 128 < 128) as Hm by (apply Z.mod_pos_bound; lia).
  assert (0 < 2 ^ sh) as Hp by (apply Z.pow_pos_nonneg; lia).
  assert (forall y, 0 <= y <= v -> y < 128 -> y * 2 ^ sh < 2 ^ 64) as Hw.
  { intros y Hy Hy'. replace 64 with (64 - sh + sh) by lia. rewrite Z.pow_add_r by lia. apply Z.mul_lt_mono_pos_r; lia. }
  assert (v mod 128 <= v) as Hmv by (apply Z.mod_le; lia).
  assert (Z.lor value (wrap 64 (Z.shiftl (v mod 128) sh)) = value + v mod 128 * 2 ^ sh) as Hlor.
  { unfold wrap. rewrite Z.shiftl_mul_pow2 by lia. rewrite Z.mod_small by (split; [apply Z.mul_nonneg_nonneg; lia|apply Hw; lia]).
    rewrite <- Z.shiftl_mul_pow2 by lia. rewrite lor_digit by lia. by rewrite Z.shiftl_mul_pow2 by lia. }
  rewrite Z.shiftr_div_pow2 in He by lia. change (2 ^ 7) with 128 in He. rewrite land_127 in He by done.
  destruct (Z.eqb_spec (v / 128) 0) as [E0|E0].
  - injection He as <-. cbn [app decode_varint_from length]. rewrite land_127 by lia. rewrite Z.mod_mod by lia. rewrite Hlor.
    assert (Z.land (v mod 128) 128 = 0) as ->.
    { change 128 with (Z.shiftl 1 7) at 2. apply Z.bits_inj'. intros n Hn. rewrite Z.land_spec, Z.bits_0.
      change (v mod 128) with (v mod 2 ^ 7). destruct (Z.lt_ge_cases n 7) as [H|H].
      - rewrite Z.shiftl_spec_low by lia. apply andb_false_r.
      - by rewrite Z.mod_pow2_bits_high by lia. }
    cbn [Z.eqb]. f_equal. f_equal; [|lia]. rewrite (Z.div_mod v 128) at 2 by lia. rewrite E0. lia.
  - destruct (encode_varint_fuel room (v / 128)) as [b'| | |] eqn:Eb; try done. injection He as <-.
    assert (128 <= v) as Hge. { destruct (Z.lt_ge_cases v 128); [rewrite Z.div_small in E0 by lia; lia|done]. }
    assert (sh + 7 <= 63) as Hsh.
    { destruct (Z.le_gt_cases (sh + 7) 63); [done|]. assert (2 ^ (64 - sh) <= 2 ^ 7) by (apply Z.pow_le_mono_r; lia).
      change (2 ^ 7) with 128 in *. lia. }
    cbn [app decode_varint_from length].
    assert (Z.land (Z.lor (v mod 128) 128) 127 = v mod 128) as ->.
    { rewrite Z.land_lor_distr_l. change (Z.land 128 127) with 0. rewrite Z.lor_0_r, land_127 by lia. apply Z.mod_mod. lia. }
    rewrite Hlor. assert ((Z.land (Z.lor (v mod 128) 128) 128 =? 0) = false) as ->.
    { rewrite Z.land_lor_distr_l. change (Z.land 128 128) with 128. apply Z.eqb_neq. intros Hz. apply Z.lor_eq_0_iff in Hz. lia. }
    rewrite (proj2 (Z.ltb_ge 63 (sh + 7))) by lia. replace (sh + 7) with (7 * Z.of_nat (S i)) by lia.
    assert (7 * Z.of_nat (S i) = sh + 7) as Hs1 by lia. assert (2 ^ (sh + 7) = 128 * 2 ^ sh) as Hpw by (rewrite Z.pow_add_r by lia; lia).
    rewrite (IH (v / 128) b' (S i)); [|done|apply Z.div_pos; lia| | |lia].
    + f_equal. f_equal; [|lia]. rewrite Hs1, Hpw. rewrite (Z.div_mod v 128) at 3 by lia. lia.
    + rewrite Hs1, Hpw. nia.
    + apply Z.div_lt_upper_bound; [lia|]. rewrite Hs1. change 128 with (2 ^ 7). rewrite <- Z.pow_add_r by lia. by replace (7 + (64 - (sh + 7))) with (64 - sh) by lia.
Qed.

(** Any number of 64 bits is written in at most ten bytes and read back from them. *)
Lemma varint_roundtrip v rest :
  0 <= v < 2 ^ 64 ->
  exists b, encode_varint_to_buf v = Ok b /\ (0 < length b <= 10)%nat /\ decode_varint (b ++ rest) = Some (v, length b).
Proof.
  intros Hv. destruct (encode_varint_ok 10 v) as (b & Hb & Hl); [lia| |lia|].
  { eapply Z.lt_trans; [apply Hv|]. reflexivity. }
  exists b. split; [done|]. split; [done|]. unfold decode_varint.
  pose proof (decode_encode 10 v b rest 0 0 Hb) as H. cbn [Z.of_nat] in H. rewrite Z.mul_0_r in H. rewrite H by (try done; lia).
  f_equal. f_equal. lia.
Qed.

(** ** Theory: messages as fields *)

Inductive pb_value :=
| PVarint (v : u64) | PFixed64 (b : bytes) | PFixed32 (b : bytes) | PBytes (b : bytes) | PMessage (fields : list (u32 * pb_value)).

Definition varint (v : u64) : bytes := match encode_varint_to_buf v with Ok b => b | _ => [] end.
Definition wire (v : pb_value) : Z := match v with PVarint _ => 0 | PFixed64 _ => 1 | PFixed32 _ => 5 | PBytes _ | PMessage _ => 2 end.
Definition tag_of (n : u32) (v : pb_value) : u64 := 8 * n + wire v.

Fixpoint encode_payload (v : pb_value) : bytes :=
  match v with
  | PVarint x => varint x
  | PFixed64 b | PFixed32 b => b
  | PBytes b => varint (Z.of_nat (length b)) ++ b
  | PMessage fs =>
      let b := mjoin (map (fun f => varint (tag_of f.1 f.2) ++ encode_payload f.2) fs) in varint (Z.of_nat (length b)) ++ b
  end.
Definition encode_field (f : u32 * pb_value) : bytes := varint (tag_of f.1 f.2) ++ encode_payload f.2.
Definition encode_message (fs : list (u32 * pb_value)) : bytes := mjoin (map encode_field fs).

(** Numbers and values at their widths, and whatever the whitelist looks into
    is a message. *)
Inductive pb_ok : list ReportingField -> list (u32 * pb_value) -> Prop :=
| ok_nil wl : pb_ok wl []
| ok_cons wl n v fs : 0 < n < 2 ^ 29 -> value_ok (lookup_field n wl) v -> pb_ok wl fs -> pb_ok wl ((n, v) :: fs)
with value_ok : option ReportingField -> pb_value -> Prop :=
| ok_varint e x : 0 <= x < 2 ^ 64 -> value_ok e (PVarint x)
| ok_fixed64 e b : length b = 8%nat -> value_ok e (PFixed64 b)
| ok_fixed32 e b : length b = 4%nat -> value_ok e (PFixed32 b)
| ok_bytes b : value_ok None (PBytes b)
| ok_bytes_kept n b : value_ok (Some (mkField n None false)) (PBytes b)
| ok_message fs : value_ok None (PMessage fs)
| ok_message_kept n fs : value_ok (Some (mkField n None false)) (PMessage fs)
| ok_nested n o fs : pb_ok REPORTING_FIELDS fs -> value_ok (Some (mkField n o true)) (PMessage fs)
| ok_sub n l fs : pb_ok l fs -> value_ok (Some (mkField n (Some l) false)) (PMessage fs).

(** The selection on fields. *)
Definition entry_list (e : ReportingField) : option (list ReportingField) :=
  match e with mkField _ _ true => Some REPORTING_FIELDS | mkField _ o false => o end.

Fixpoint select_value (e : ReportingField) (n : u32) (v : pb_value) : list (u32 * bytes) :=
  match entry_list e, v with
  | Some l, PMessage fs =>
      match assembled (mjoin (map (fun f => match lookup_field f.1 l with Some e => select_value e f.1 f.2 | None => [] end) fs)) with
      | Some (x :: nested) => [(n, varint (tag_of n v) ++ varint (Z.of_nat (length (x :: nested))) ++ x :: nested)]
      | _ => []
      end
  | _, _ => [(n, encode_field (n, v))]
  end.
Definition select_field (l : list ReportingField) (f : u32 * pb_value) : list (u32 * bytes) :=
  match lookup_field f.1 l with Some e => select_value e f.1 f.2 | None => [] end.
Definition select (l : list ReportingField) (fs : list (u32 * pb_value)) : option bytes := assembled (mjoin (map (select_field l) fs)).

Lemma varint_spec v rest :
  0 <= v < 2 ^ 64 ->
  encode_varint_to_buf v = Ok (varint v) /\ (0 < length (varint v))%nat /\ decode_varint (varint v ++ rest) = Some (v, length (varint v)).
Proof.
  intros Hv. destruct (varint_roundtrip v rest Hv) as (b & Hb & Hl & Hd). unfold varint. rewrite Hb. split_and!; [done|lia|done].
Qed.

Lemma tag_range n v : 0 < n < 2 ^ 29 -> 0 <= tag_of n v < 2 ^ 64.
Proof. intros Hn. unfold tag_of. destruct v; cbn [wire]; lia. Qed.

Lemma tag_number n v : 0 < n < 2 ^ 29 -> wrap 32 (Z.shiftr (tag_of n v) 3) = n.
Proof.
  intros Hn. unfold tag_of. rewrite Z.shiftr_div_pow2 by lia. change (2 ^ 3) with 8.
  rewrite Z.mul_comm, Z.div_add_l by lia. rewrite (Z.div_small (wire v)) by (destruct v; cbn; lia).
  rewrite Z.add_0_r. apply wrap_small. lia.
Qed.

Lemma tag_wire n v : 0 < n < 2 ^ 29 -> Z.land (tag_of n v) 7 = wire v.
Proof.
  intros Hn. change 7 with (Z.ones 3). rewrite Z.land_ones by lia. unfold tag_of. change (2 ^ 3) with 8.
  rewrite Z.add_comm, Z.mul_comm, Z.mod_add by lia. apply Z.mod_small. destruct v; cbn; lia.
Qed.

(** A field is where the position is. *)
Lemma slice_field (pre x rest : bytes) p q :
  p = Z.of_nat (length pre) -> q = Z.of_nat (length (pre ++ x)) -> slice (Z.to_nat p) (Z.to_nat q) (pre ++ x ++ rest) = x.
Proof.
  intros -> ->. rewrite !Nat2Z.id. unfold slice. rewrite drop_app_length, length_app.
  replace (length pre + length x - length pre)%nat with (length x) by lia. apply take_app_length.
Qed.

Lemma sub_slice_field (pre x rest : bytes) p q :
  p = Z.of_nat (length pre) -> q = Z.of_nat (length (pre ++ x)) -> sub_slice p q (pre ++ x ++ rest) = Ok x.
Proof.
  intros Hp Hq. unfold sub_slice. rewrite (slice_field pre x rest p q Hp Hq). rewrite !length_app in *.
  rewrite (proj2 (Z.ltb_ge q p)) by lia. rewrite (proj2 (Z.ltb_ge _ q)) by lia. done.
Qed.

(** The value behind a length. *)
Definition sized (b : bytes) : bytes := varint (Z.of_nat (length b)) ++ b.

Lemma payload_message fs : encode_payload (PMessage fs) = sized (encode_message fs).
Proof. done. Qed.

(** The round for a field with a number or a fixed width. *)
Lemma round_fixed fuel wl pre n v rest acc :
  (forall acc', extract_loop fuel (pre ++ encode_field (n, v) ++ rest) wl (Z.of_nat (length (pre ++ encode_field (n, v)))) acc'
                = Ok (Some (acc' ++ acc))) ->
  0 < n < 2 ^ 29 -> value_ok (lookup_field n wl) v -> wire v <> 2 ->
  forall acc', extract_loop (S fuel) (pre ++ encode_field (n, v) ++ rest) wl (Z.of_nat (length pre)) acc'
    = Ok (Some ((acc' ++ select_field wl (n, v)) ++ acc)).
Proof.
  intros Hnext Hn Hv Hw acc'. set (data := pre ++ encode_field (n, v) ++ rest). cbn [extract_loop].
  assert (drop (Z.to_nat (Z.of_nat (length pre))) data = varint (tag_of n v) ++ encode_payload v ++ rest) as Hd1.
  { rewrite Nat2Z.id. unfold data, encode_field. cbn [fst snd]. by rewrite drop_app_length, <- app_assoc. }
  assert (drop (Z.to_nat (Z.of_nat (length pre) + Z.of_nat (length (varint (tag_of n v))))) data = encode_payload v ++ rest) as Hd2.
  { rewrite <- Nat2Z.inj_add, Nat2Z.id, <- drop_drop, <- (Nat2Z.id (length pre)), Hd1. apply drop_app_length. }
  destruct (varint_spec (tag_of n v) (encode_payload v ++ rest) (tag_range n v Hn)) as (_ & Hl & Hdec).
  assert (Z.of_nat (length data) = Z.of_nat (length pre) + Z.of_nat (length (varint (tag_of n v))) + Z.of_nat (length (encode_payload v))
          + Z.of_nat (length rest)) as Hsize by (unfold data, encode_field; cbn [fst snd]; rewrite !length_app; lia).
  rewrite (proj2 (Z.leb_gt _ _)) by lia. rewrite Hd1, Hdec. rewrite tag_number, tag_wire by done.
  rewrite (proj2 (Z.ltb_ge _ _)) by lia.
  assert (forall k, k = Z.of_nat (length (encode_payload v)) ->
    (if Z.of_nat (length data) <? Z.of_nat (length pre) + Z.of_nat (length (varint (tag_of n v))) + k then Ok (Some acc')
     else extract_loop fuel data wl (Z.of_nat (length pre) + Z.of_nat (length (varint (tag_of n v))) + k)
            (keep (lookup_field n wl) n (slice (Z.to_nat (Z.of_nat (length pre)))
              (Z.to_nat (Z.of_nat (length pre) + Z.of_nat (length (varint (tag_of n v))) + k)) data) acc'))
    = Ok (Some ((acc' ++ select_field wl (n, v)) ++ acc))) as Hfix.
  { intros k ->. rewrite (proj2 (Z.ltb_ge _ _)) by lia.
    assert (Z.of_nat (length pre) + Z.of_nat (length (varint (tag_of n v))) + Z.of_nat (length (encode_payload v))
            = Z.of_nat (length (pre ++ encode_field (n, v)))) as -> by (unfold encode_field; cbn [fst snd]; rewrite !length_app; lia).
    unfold data. rewrite (slice_field pre (encode_field (n, v)) rest) by done. rewrite Hnext. do 3 f_equal.
    unfold keep, select_field. cbn [fst snd]. destruct (lookup_field n wl) as [e|]; [|by rewrite app_nil_r].
    destruct v; cbn [select_value]; destruct (entry_list e); done. }
  destruct v as [x|b|b|b|fs]; cbn [wire encode_payload Z.eqb] in *; try done.
  - rewrite Hd2. inversion Hv as [? ? Hx| | | | | | | |]; subst. destruct (varint_spec x rest Hx) as (_ & _ & ->). by apply Hfix.
  - apply Hfix. inversion Hv; subst. lia.
  - apply Hfix. inversion Hv; subst. lia.
Qed.

(** *** Lengths *)

Definition total (l : list (u32 * bytes)) : nat := length (mjoin (map snd l)).

Lemma total_app a b : total (a ++ b) = (total a + total b)%nat.
Proof. unfold total. by rewrite map_app, join_app, length_app. Qed.

Lemma total_cons x l : total (x :: l) = (length x.2 + total l)%nat.
Proof. unfold total. cbn. by rewrite length_app. Qed.

Lemma insert_total x l : total (insert_field x l) = (length x.2 + total l)%nat.
Proof.
  induction l as [|y l IH]; [apply total_cons|]. cbn [insert_field]. destruct (x.1 <? y.1); [apply total_cons|].
  rewrite !total_cons, IH. lia.
Qed.

Lemma sort_total l : total (sort_fields l) = total l.
Proof.
  unfold sort_fields. assert (forall acc, total (fold_left (fun acc x => insert_field x acc) l acc) = (total acc + total l)%nat) as H.
  { induction l as [|x l IH]; intros acc; [change (total []) with 0%nat; cbn [fold_left]; lia|]. cbn [fold_left]. rewrite IH, insert_total, total_cons. lia. }
  apply H.
Qed.

Lemma assembled_length l b : assembled l = Some b -> length b = total l.
Proof. unfold assembled. destruct l as [|x l]; [done|]. intros [= <-]. apply sort_total. Qed.

Lemma varint_length_mono a b : 0 <= a <= b -> b < 2 ^ 64 -> (length (varint a) <= length (varint b))%nat.
Proof.
  intros Hab Hb. unfold varint, encode_varint_to_buf. assert (b < 2 ^ (7 * Z.of_nat 10)) as Hb' by (eapply Z.lt_trans; [exact Hb|reflexivity]).
  clear Hb. unfold MAX_VARINT_LEN. revert a b Hab Hb'. generalize 10%nat as room.
  induction room as [|room IH]; intros a b Hab Hb; [done|]. cbn [encode_varint_fuel].
  assert (0 <= Z.shiftr a 7 <= Z.shiftr b 7) as Hs.
  { rewrite !Z.shiftr_div_pow2 by lia. split; [apply Z.div_pos; lia|apply Z.div_le_mono; lia]. }
  assert (Z.shiftr b 7 < 2 ^ (7 * Z.of_nat room)) as Hb7.
  { rewrite Z.shiftr_div_pow2 by lia. apply Z.div_lt_upper_bound; [lia|]. rewrite <- Z.pow_add_r by lia.
    by replace (7 + 7 * Z.of_nat room) with (7 * Z.of_nat (S room)) by lia. }
  specialize (IH _ _ Hs Hb7).
  destruct (Z.eqb_spec (Z.shiftr a 7) 0) as [Ea|Ea]; destruct (Z.eqb_spec (Z.shiftr b 7) 0) as [Eb|Eb]; try lia; [done| |].
  - destruct room as [|room]; [cbn in Hb7; lia|].
    destruct (encode_varint_ok (S room) (Z.shiftr b 7)) as (x & -> & _); [lia|done|lia|]. cbn. lia.
  - destruct room as [|room]; [cbn in Hb7; lia|].
    destruct (encode_varint_ok (S room) (Z.shiftr b 7)) as (x & Hx & _); [lia|done|lia|].
    destruct (encode_varint_ok (S room) (Z.shiftr a 7)) as (y & Hy & _); [lia|lia|lia|]. rewrite Hx, Hy in *. cbn in *. lia.
Qed.

(** What is picked of a field whose value has a length: [ex] is what is picked
    of the value. *)
Definition picked (wl : list ReportingField) (n : u32) (v : pb_value) (ex : list (u32 * bytes)) : list (u32 * bytes) :=
  match lookup_field n wl with
  | None => []
  | Some e =>
      match entry_list e with
      | Some _ => match assembled ex with
                  | Some (x :: nested) => [(n, varint (tag_of n v) ++ varint (Z.of_nat (length (x :: nested))) ++ x :: nested)]
                  | _ => []
                  end
      | None => [(n, encode_field (n, v))]
      end
  end.

Lemma picked_total wl n v body ex :
  encode_payload v = sized body -> Z.of_nat (length body) < 2 ^ 64 -> (total ex <= length body)%nat ->
  (total (picked wl n v ex) <= length (encode_field (n, v)))%nat.
Proof.
  intros Hp Hb Hex. unfold picked. destruct (lookup_field n wl) as [e|]; [|cbn; lia]. destruct (entry_list e).
  - destruct (assembled ex) as [ [|x nested]|] eqn:E; [cbn; lia| |cbn; lia]. apply assembled_length in E.
    unfold total. cbn [map mjoin list_join snd]. rewrite app_nil_r. unfold encode_field. cbn [fst snd]. rewrite Hp. unfold sized.
    rewrite !length_app. pose proof (varint_length_mono (Z.of_nat (length (x :: nested))) (Z.of_nat (length body))). lia.
  - unfold total. cbn [map mjoin list_join snd]. by rewrite app_nil_r.
Qed.

Lemma keep_nested_ok n v ex acc :
  0 < n < 2 ^ 29 -> Z.of_nat (total ex) < 2 ^ 64 ->
  keep_nested (tag_of n v) n acc (Some ex)
  = Ok (acc ++ match assembled ex with
               | Some (x :: nested) => [(n, varint (tag_of n v) ++ varint (Z.of_nat (length (x :: nested))) ++ x :: nested)]
               | _ => []
               end).
Proof.
  intros Hn Ht. unfold keep_nested. destruct (assembled ex) as [ [|x nested]|] eqn:Ea; [by rewrite app_nil_r| |by rewrite app_nil_r].
  apply assembled_length in Ea. unfold wrapped_field. destruct (varint_spec (tag_of n v) [] (tag_range n v Hn)) as (-> & _ & _).
  cbn [obind]. destruct (varint_spec (Z.of_nat (length (x :: nested))) []) as (-> & _ & _); [lia|]. done.
Qed.

(** The round for a field whose value has a length. *)
Lemma round_sized fuel wl pre n v body rest acc ex :
  let data := pre ++ encode_field (n, v) ++ rest in
  (forall acc', extract_loop fuel data wl (Z.of_nat (length (pre ++ encode_field (n, v)))) acc' = Ok (Some (acc' ++ acc))) ->
  0 < n < 2 ^ 29 -> wire v = 2 -> encode_payload v = sized body -> Z.of_nat (length data) < 2 ^ 63 -> (total ex <= length body)%nat ->
  (forall e l, lookup_field n wl = Some e -> entry_list e = Some l -> extract_loop fuel body l 0 [] = Ok (Some ex)) ->
  forall acc', extract_loop (S fuel) data wl (Z.of_nat (length pre)) acc' = Ok (Some ((acc' ++ picked wl n v ex) ++ acc)).
Proof.
  intros data Hnext Hn Hw Hp H63 Hex Hnest acc'. cbn [extract_loop].
  set (T := varint (tag_of n v)) in *. set (L := varint (Z.of_nat (length body))) in *.
  assert (data = pre ++ T ++ L ++ body ++ rest) as Hdata.
  { unfold data, encode_field. cbn [fst snd]. rewrite Hp. unfold sized. fold T L. by rewrite <- !app_assoc. }
  assert (Z.of_nat (length data) = Z.of_nat (length pre) + Z.of_nat (length T) + Z.of_nat (length L) + Z.of_nat (length body)
          + Z.of_nat (length rest)) as Hsize by (rewrite Hdata, !length_app; lia).
  destruct (varint_spec (tag_of n v) (L ++ body ++ rest) (tag_range n v Hn)) as (HtE & Hl & Hdec). fold T in HtE, Hl, Hdec.
  destruct (varint_spec (Z.of_nat (length body)) (body ++ rest)) as (_ & _ & HdL); [lia|]. fold L in HdL.
  assert (drop (Z.to_nat (Z.of_nat (length pre))) data = T ++ L ++ body ++ rest) as Hd1 by (by rewrite Nat2Z.id, Hdata, drop_app_length).
  assert (drop (Z.to_nat (Z.of_nat (length pre) + Z.of_nat (length T))) data = L ++ body ++ rest) as Hd2.
  { rewrite <- Nat2Z.inj_add, Nat2Z.id, <- drop_drop, <- (Nat2Z.id (length pre)), Hd1. apply drop_app_length. }
  rewrite (proj2 (Z.leb_gt _ _)) by lia. rewrite Hd1, Hdec. rewrite tag_number, tag_wire, Hw by done.
  change (2 =? 0) with false. change (2 =? 1) with false. change (2 =? 5) with false. change (2 =? 2) with true. cbv iota.
  rewrite (proj2 (Z.ltb_ge _ _)) by lia. rewrite Hd2, HdL.
  assert (Z.of_nat (length (pre ++ encode_field (n, v)))
          = Z.of_nat (length pre) + Z.of_nat (length T) + Z.of_nat (length L) + Z.of_nat (length body)) as Hend.
  { unfold encode_field. cbn [fst snd]. rewrite Hp. unfold sized. fold T L. rewrite !length_app. lia. }
  assert (usize_of (Z.of_nat (length pre) + Z.of_nat (length T) + Z.of_nat (length L) + Z.of_nat (length body))
          = Z.of_nat (length (pre ++ encode_field (n, v)))) as ->.
  { rewrite Hend. apply wrap_small. lia. }
  rewrite (proj2 (Z.ltb_ge _ _)) by lia.
  assert (sub_slice (Z.of_nat (length pre) + Z.of_nat (length T) + Z.of_nat (length L))
            (Z.of_nat (length (pre ++ encode_field (n, v)))) data = Ok body) as Hbody.
  { rewrite Hdata. replace (pre ++ T ++ L ++ body ++ rest) with ((pre ++ T ++ L) ++ body ++ rest) by (by rewrite <- !app_assoc).
    apply sub_slice_field; [rewrite !length_app; lia|]. rewrite Hend, !length_app. lia. }
  assert (sub_slice (Z.of_nat (length pre)) (Z.of_nat (length (pre ++ encode_field (n, v)))) data = Ok (encode_field (n, v))) as Hwhole
    by (by apply sub_slice_field).
  unfold picked. destruct (lookup_field n wl) as [ [k o b]|] eqn:Ee.
  - destruct b; [|destruct o as [l|] ].
    + rewrite Hbody. cbn [obind]. rewrite (Hnest _ REPORTING_FIELDS eq_refl) by done. cbn [obind]. rewrite keep_nested_ok by (done || lia).
      destruct o; cbn [obind entry_list]; apply Hnext.
    + rewrite Hbody. cbn [obind]. rewrite (Hnest _ l eq_refl) by done. cbn [obind]. rewrite keep_nested_ok by (done || lia). apply Hnext.
    + rewrite Hwhole. cbn [obind entry_list]. apply Hnext.
  - cbn [obind]. rewrite app_nil_r. apply Hnext.
Qed.

(** What is picked of a nested message, given the loop on it. *)
Lemma nested_picks fuel wl n sub :
  value_ok (lookup_field n wl) (PMessage sub) ->
  (forall l, pb_ok l sub -> extract_loop fuel (encode_message sub) l 0 [] = Ok (Some (mjoin (map (select_field l) sub)))
     /\ (total (mjoin (map (select_field l) sub)) <= length (encode_message sub))%nat) ->
  exists ex, select_field wl (n, PMessage sub) = picked wl n (PMessage sub) ex /\ (total ex <= length (encode_message sub))%nat
    /\ forall e l, lookup_field n wl = Some e -> entry_list e = Some l -> extract_loop fuel (encode_message sub) l 0 [] = Ok (Some ex).
Proof.
  intros Hv Hsub. unfold select_field, picked. cbn [fst snd]. destruct (lookup_field n wl) as [e|]; [|exists []; by split_and!; [|cbn; lia|] ].
  cbn [select_value]. destruct (entry_list e) as [l|] eqn:El; [|exists []; split_and!; [done|cbn; lia|congruence] ].
  assert (pb_ok l sub) as Hok.
  { inversion Hv as [| | | | | |? ? H0|? ? ? H0|? ? ? H0]; subst; cbn in El; try done; by injection El as <-. }
  destruct (Hsub l Hok) as [Hs Ht]. exists (mjoin (map (select_field l) sub)). split_and!; [done|done|].
  intros e' l' He Hl. assert (l' = l) as -> by congruence. exact Hs.
Qed.

Lemma select_bytes wl n b ex : value_ok (lookup_field n wl) (PBytes b) -> select_field wl (n, PBytes b) = picked wl n (PBytes b) ex.
Proof. unfold select_field, picked. cbn [fst snd]. intros H. inversion H as [| | |? H1|? ? H1| | | |]; done. Qed.

Lemma encode_message_cons f fs : encode_message (f :: fs) = encode_field f ++ encode_message fs.
Proof. done. Qed.

Lemma encode_field_nonempty n v : 0 < n < 2 ^ 29 -> (0 < length (encode_field (n, v)))%nat.
Proof.
  intros Hn. destruct (varint_spec (tag_of n v) [] (tag_range n v Hn)) as (_ & Hl & _). unfold encode_field. rewrite length_app. cbn. lia.
Qed.

Lemma extract_fields fuel : forall wl pre fs,
  pb_ok wl fs -> Z.of_nat (length (pre ++ encode_message fs)) < 2 ^ 63 -> (length (encode_message fs) < fuel)%nat ->
  (forall acc, extract_loop fuel (pre ++ encode_message fs) wl (Z.of_nat (length pre)) acc
               = Ok (Some (acc ++ mjoin (map (select_field wl) fs))))
  /\ (total (mjoin (map (select_field wl) fs)) <= length (encode_message fs))%nat.
Proof.
  induction fuel as [|fuel IH]; intros wl pre fs Hok H63 Hf; [lia|]. destruct fs as [|[n v] fs].
  { split; [|done]. intros acc. cbn [extract_loop encode_message map mjoin list_join]. rewrite !app_nil_r.
    by rewrite (proj2 (Z.leb_le _ _)) by lia. }
  inversion Hok as [|? ? ? ? Hn Hv Hrest]; subst. pose proof (encode_field_nonempty n v Hn) as Hne. rewrite encode_message_cons in *.
  rewrite length_app in Hf.
  destruct (IH wl (pre ++ encode_field (n, v)) fs Hrest) as [Hnext Htot]; [by rewrite <- app_assoc|lia|].
  change (mjoin (map (select_field wl) ((n, v) :: fs))) with (select_field wl (n, v) ++ mjoin (map (select_field wl) fs)).
  rewrite total_app, length_app. rewrite <- app_assoc in Hnext.
  assert (forall body, encode_payload v = sized body -> (length body < fuel)%nat /\ Z.of_nat (length body) < 2 ^ 63) as Hbl.
  { intros body Hp. assert (length body <= length (encode_field (n, v)))%nat.
    { unfold encode_field. cbn [fst snd]. rewrite Hp. unfold sized. rewrite !length_app. lia. }
    rewrite !length_app in H63. unfold encode_field in Hne, Hf |- *. cbn [fst snd] in *. rewrite Hp in *. unfold sized in *.
    rewrite !length_app in *. destruct (varint_spec (tag_of n v) [] (tag_range n v Hn)) as (_ & Hl & _). lia. }
  destruct (decide (wire v = 2)) as [Hw|Hw].
  - destruct v as [| | |b|sub]; try done.
    + destruct (Hbl b eq_refl) as [_ Hb63]. rewrite (select_bytes wl n b [] Hv). split.
      * intros acc. rewrite (app_assoc acc). eapply round_sized; [exact Hnext|done|done|reflexivity|exact H63|cbn; lia|].
        intros e l He Hl. rewrite He in Hv. inversion Hv; subst; done.
      * assert (total (picked wl n (PBytes b) []) <= length (encode_field (n, PBytes b)))%nat; [|lia].
        apply (picked_total wl n (PBytes b) b []); [done|lia|cbn; lia].
    + destruct (Hbl (encode_message sub) (payload_message sub)) as [Hbf Hb63].
      destruct (nested_picks fuel wl n sub Hv) as (ex & -> & Hex & Hnest).
      { intros l Hl. destruct (IH l [] sub Hl Hb63 Hbf) as [Hs Ht]. split; [exact (Hs [])|exact Ht]. }
      split.
      * intros acc. rewrite (app_assoc acc). eapply round_sized; [exact Hnext|done|done|apply payload_message|exact H63|exact Hex|exact Hnest].
      * pose proof (picked_total wl n (PMessage sub) _ ex (payload_message sub)). lia.
  - split.
    + intros acc. rewrite (app_assoc acc). by eapply round_fixed.
    + assert (total (select_field wl (n, v)) <= length (encode_field (n, v)))%nat; [|lia].
      unfold select_field. cbn [fst snd]. destruct (lookup_field n wl) as [e|]; [|cbn; lia].
      destruct v; try done; cbn [select_value]; destruct (entry_list e); unfold total; cbn; by rewrite app_nil_r.
Qed.

Lemma extract_selects wl fs :
  pb_ok wl fs -> Z.of_nat (length (encode_message fs)) < 2 ^ 63 ->
  extract_reporting_token_content (S (length (encode_message fs))) (encode_message fs) wl = Ok (select wl fs).
Proof.
  intros Hok H63. unfold extract_reporting_token_content. destruct (extract_fields (S (length (encode_message fs))) wl [] fs Hok H63) as [He _]; [lia|].
  specialize (He []). cbn [app length] in He. change (Z.of_nat 0) with 0 in He. by rewrite He.
Qed.

Section TokenSpec.
Context `{HK : !Hkdf, HS : !Hashes} {M R : Type} `{HM : !ReportMessage M R}.

(** C36: A token commits to the whitelisted fields and to nothing else.  For a
    message that is encoded field by field, the token is the beginning of the
    HMAC, under the key derived from the secret and the addresses, of the
    selection of its fields: the whitelisted ones, nested messages cut down to
    theirs, in the order of their numbers.  There is no token when nothing is
    selected or the message is of an excluded kind. *)
Theorem reporting_token_spec rnd m fs stanza_id sender remote :
  length rnd = MESSAGE_SECRET_SIZE -> rm_encode m = encode_message fs -> pb_ok REPORTING_FIELDS fs ->
  Z.of_nat (length (encode_message fs)) < 2 ^ 63 ->
  generate_reporting_token rnd m stanza_id sender remote None
  = Ok (if should_include_reporting_token m then
          match select REPORTING_FIELDS fs with
          | Some content =>
              Some (mkTokenResult rnd (take 16 (hmac Sha256 (hkdf None rnd (stanza_id ++ jid_to_string sender ++ jid_to_string remote
                                                               ++ lit "Report Token") 32) content)) 2)
          | None => None
          end
        else None).
Proof.
  intros Hl He Hok H63. unfold generate_reporting_token, derive_reporting_token_key. rewrite Hl, Nat.eqb_refl. cbn [negb].
  unfold generate_reporting_token_content. destruct (should_include_reporting_token m); [|done].
  rewrite He, extract_selects by done. cbn [obind]. by destruct (select REPORTING_FIELDS fs).
Qed.
End TokenSpec.

(** A field that is not listed, with a length of 2^64 - 11: its end wraps to the
    beginning of the data, and the loop starts over. *)
Definition endless : bytes := 122 :: varint (2 ^ 64 - 11).

Lemma endless_runs_forever fuel : extract_reporting_token_content fuel endless REPORTING_FIELDS = NoFuel.
Proof.
  unfold extract_reporting_token_content. assert (extract_loop fuel endless REPORTING_FIELDS 0 [] = NoFuel) as ->; [|done].
  induction fuel as [|fuel IH]; [done|]. cbn [extract_loop]. change (Z.of_nat (length endless)) with 11. change (11 <=? 0) with false.
  assert (decode_varint (drop (Z.to_nat 0) endless) = Some (122, 1%nat)) as -> by (vm_compute; reflexivity).
  change (wrap 32 (Z.shiftr 122 3)) with 15. change (Z.land 122 7) with 2. change (0 + Z.of_nat 1) with 1. change (11 <? 1) with false.
  change (lookup_field 15 REPORTING_FIELDS) with (@None ReportingField).
  assert (decode_varint (drop (Z.to_nat 1) endless) = Some (2 ^ 64 - 11, 10%nat)) as -> by (vm_compute; reflexivity).
  change (usize_of (1 + Z.of_nat 10 + (2 ^ 64 - 11))) with 0. exact IH.
Qed.

(** ** Witness *)

Definition toy_report_message : ReportMessage (bytes * option (ContextInfo unit)) unit := {|
  rm_encode m := m.1; rm_reaction m := false; rm_enc_reaction m := false; rm_poll_update m := false; rm_keep_in_chat m := false;
  rm_context m := m.2; rm_set_context c m := (m.1, c); rm_rest_default := tt; rm_context_set c m := eq_refl
|}.

(** A caption with a forwarding score and a name that is not reported. *)
Definition toy_fields : list (u32 * pb_value) :=
  [(3, PMessage [(3, PBytes (lit "hi")); (4, PBytes (lit "secret")); (17, PMessage [(21, PVarint 300); (1, PBytes (lit "id"))])])].

Lemma toy_fields_ok : pb_ok REPORTING_FIELDS toy_fields.
Proof.
  apply ok_cons; [lia| |constructor]. apply ok_sub. apply ok_cons; [lia|apply ok_bytes_kept|].
  apply ok_cons; [lia|apply ok_bytes|]. apply ok_cons; [lia| |constructor]. apply ok_sub.
  apply ok_cons; [lia|by apply ok_varint|]. apply ok_cons; [lia|apply ok_bytes|constructor].
Qed.

Lemma reporting_token_spec_witness :
  @generate_reporting_token toy_hkdf toy_hashes _ _ toy_report_message (replicate 32 1) (encode_message toy_fields, None) (lit "ID")
    (pn (lit "5")) (pn (lit "5")) None
  = Ok (Some (mkTokenResult (replicate 32 1)
      (take 16 (@hmac toy_hashes Sha256 (@hkdf toy_hkdf None (replicate 32 1) (lit "ID5@s.whatsapp.net5@s.whatsapp.netReport Token") 32)
        [26; 11; 26; 2; 104; 105; 138; 1; 4; 168; 1; 172; 2])) 2)).
Proof.
  rewrite (@reporting_token_spec toy_hkdf toy_hashes _ _ toy_report_message (replicate 32 1) (encode_message toy_fields, None) toy_fields
    (lit "ID") (pn (lit "5")) (pn (lit "5")) eq_refl eq_refl toy_fields_ok ltac:(vm_compute; reflexivity)).
  vm_compute. reflexivity.
Defined.
