(* ===== verification/SendStores.v ===== *)
(** * SendStores: the stores of the send pipeline in [warp_core/src/send.rs]

    Encrypting a message for many devices goes through two caches that live for
    one call: sessions are written behind, identities read through and written
    through when they change.  The functions of the Signal code the pipeline
    calls are generic in the stores; here they are given over the interface
    [Stores], of which the plain stores and the cached ones are instances.  The
    theorem shows that the caches do not change what is sent or stored. *)

From stdpp Require Import gmap.
From S2P Require Import Prelude RustStd Crypto Curve Jid Node Session SessionCipher SessionRatchet PreKeys Noise Connection.
From S2P Require Import Device Requests Pairing DeviceStore KeyServer Persistence LidPn Establish.

#[export] Instance protocol_address_countable : Countable ProtocolAddress.
Proof.
  refine (inj_countable' (fun a => (pa_name a, pa_device_id a)) (fun p => mkProtocolAddress p.1 p.2) _). by intros [].
Defined.

(** ** The generic functions *)

(** A pair of a session and an identity store, the state behind shared
    references included. *)
Class Stores (St : Type) := {
  s_load_session : ProtocolAddress -> comp St SignalProtocolError (option SessionRecord);
  s_store_session : ProtocolAddress -> SessionRecord -> comp St SignalProtocolError unit;
  s_identity_key_pair : comp St SignalProtocolError IdentityKeyPair;
  s_local_registration_id : comp St SignalProtocolError u32;
  s_is_trusted_identity : ProtocolAddress -> IdentityKey -> Direction -> comp St SignalProtocolError bool;
  s_save_identity : ProtocolAddress -> IdentityKey -> comp St SignalProtocolError IdentityChange
}.

Section Generic.
Context `{HK : !Hkdf, HS : !Hashes, HA : !AesCbc, HC : !Curve25519, HP : !SignalProto}.
Context {St : Type} `{HSt : !Stores St}.

Definition message_encrypt_in (ptext : bytes) (remote_address : ProtocolAddress) : comp St SignalProtocolError CiphertextMessage :=
  let! loaded := s_load_session remote_address in
  let! record := mlift (ok_or (SessionNotFound remote_address) loaded) in
  let! state := mlift (ok_or (SessionNotFound remote_address) (current_session record)) in
  let '(o, state) := encrypt_with_state ptext remote_address state in
  let! res := mlift o in
  let! trusted := s_is_trusted_identity remote_address res.2 SessionCipher.Sending in
  if negb trusted then mfail (UntrustedIdentity remote_address)
  else
    s_save_identity remote_address res.2 ;;
    s_store_session remote_address (set_session_state state record) ;;
    mret res.1.

Definition process_prekey_bundle_in (remote_address : ProtocolAddress) (bundle : PreKeyBundle) (rnds : bytes * bytes)
    : comp St SignalProtocolError unit :=
  let their_identity_key := bu_identity_key bundle in
  let signed := bu_ec_signed_pre_key bundle in
  let! trusted := s_is_trusted_identity remote_address their_identity_key SessionCipher.Sending in
  if negb trusted then mfail (UntrustedIdentity remote_address)
  else if negb (verify_signature their_identity_key (public_serialize (sp_public_key signed)) (sp_signature signed))
  then mfail SignatureValidationFailed
  else
    let! loaded := s_load_session remote_address in
    let record := some_or session_record_new_fresh loaded in
    let our_base_key_pair := key_pair_generate rnds.1 in
    let! our_identity := s_identity_key_pair in
    let parameters := mkAlice our_identity our_base_key_pair their_identity_key (sp_public_key signed)
                        (bu_pre_key_public bundle) (sp_public_key signed) in
    let! session := mlift (initialize_alice_session parameters rnds.2) in
    let session := set_unacknowledged_pre_key_message (bu_pre_key_id bundle) (sp_id signed)
                     (kp_public our_base_key_pair) session in
    let! local_id := s_local_registration_id in
    let session := set_local_registration_id local_id session in
    let session := set_remote_registration_id (bu_registration_id bundle) session in
    s_save_identity remote_address their_identity_key ;;
    s_store_session remote_address (promote_state session record).
End Generic.

(** The plain stores. *)
#[export] Instance plain_stores {B I : Type} `{HB : !SessionStore B, HI : !IdentityKeyStore I} : Stores (B * I) := {|
  s_load_session := load_at;
  s_store_session a r := on_sessions (store_session a r);
  s_identity_key_pair st := (get_identity_key_pair st.2, st);
  s_local_registration_id st := (get_local_registration_id st.2, st);
  s_is_trusted_identity := trusted_at;
  s_save_identity a k := on_identities (save_identity a k)
|}.

(** Over the plain stores the generic functions are those of [SessionCipher]
    and [PreKeys]. *)
Lemma message_encrypt_plain `{!Hkdf, !Hashes, !AesCbc, !Curve25519, !SignalProto} {B I : Type}
    `{HB : !SessionStore B, HI : !IdentityKeyStore I} p a :
  message_encrypt_in (St := B * I) p a = message_encrypt p a.
Proof. reflexivity. Qed.

Lemma process_prekey_bundle_plain `{!Hkdf, !Curve25519} {B I : Type}
    `{HB : !SessionStore B, HI : !IdentityKeyStore I} a bundle rnds :
  process_prekey_bundle_in (St := B * I) a bundle rnds = process_prekey_bundle a bundle rnds.
Proof. reflexivity. Qed.

(** ** The caches *)

(** [load_sessions_batch], [store_sessions_batch] of [trait SessionStore]. *)
Class BatchSessions (B : Type) `{HB : !SessionStore B} := {
  load_sessions_batch : list ProtocolAddress -> B -> outcome SignalProtocolError (list (ProtocolAddress * option SessionRecord));
  store_sessions_batch : list (ProtocolAddress * SessionRecord) -> comp B SignalProtocolError unit;
  load_batch_ok : (forall a b, load_session a b = Ok (view_session b a)) ->
    forall l b, load_sessions_batch l b = Ok (map (fun a => (a, view_session b a)) l);
  store_batch_ok : (forall a r b, exists b', store_session a r b = (Ok tt, b')) ->
    (forall a a' r b b', store_session a r b = (Ok tt, b') -> a' <> a -> view_session b' a' = view_session b a') ->
    forall l b, NoDup l.*1 -> exists b', store_sessions_batch l b = (Ok tt, b')
      /\ (forall a r, (a, r) ∈ l -> view_session b' a = Some r) /\ (forall a, a ∉ l.*1 -> view_session b' a = view_session b a)
}.

(** The implementations the trait provides. *)
Fixpoint default_load_batch {B} `{HB : !SessionStore B} (l : list ProtocolAddress) (b : B)
    : outcome SignalProtocolError (list (ProtocolAddress * option SessionRecord)) :=
  match l with
  | [] => Ok []
  | a :: l => let? record := load_session a b in let? results := default_load_batch l b in Ok ((a, record) :: results)
  end.
Definition default_store_batch {B} `{HB : !SessionStore B} : list (ProtocolAddress * SessionRecord) -> comp B SignalProtocolError unit :=
  mfor (fun e => store_session e.1 e.2).

Record CachedSessionStore (B : Type) := mkCachedSessions {
  cs_inner : B; cs_cache : gmap ProtocolAddress (option SessionRecord); cs_dirty : gset ProtocolAddress
}.
Arguments mkCachedSessions {B} _ _ _.
Arguments cs_inner {B} _.
Arguments cs_cache {B} _.
Arguments cs_dirty {B} _.

Record CachedIdentityStore (I : Type) := mkCachedIdentities {
  ci_inner : I; ci_cache : gmap ProtocolAddress (option IdentityKey); ci_dirty_new : gmap ProtocolAddress IdentityKey;
  ci_identity_pair : option IdentityKeyPair; ci_registration_id : option u32
}.
Arguments mkCachedIdentities {I} _ _ _ _ _.
Arguments ci_inner {I} _.
Arguments ci_cache {I} _.
Arguments ci_dirty_new {I} _.
Arguments ci_identity_pair {I} _.
Arguments ci_registration_id {I} _.

Section SessionCache.
Context {B : Type} `{HB : !SessionStore B} `{HBB : !BatchSessions B}.
Abbreviation cs := (CachedSessionStore B).

Definition cached_sessions_new (inner : B) : cs := mkCachedSessions inner ∅ ∅.

(** [entry(addr).or_insert(record)] *)
Definition or_insert {V} (e : ProtocolAddress * V) (m : gmap ProtocolAddress V) : gmap ProtocolAddress V :=
  match m !! e.1 with Some _ => m | None => <[e.1 := e.2]> m end.

Definition populate_from_batch (addresses : list ProtocolAddress) : comp cs SignalProtocolError unit :=
  fun s =>
    match addresses with
    | [] => (Ok tt, s)
    | _ =>
        match load_sessions_batch addresses (cs_inner s) with
        | Ok results => (Ok tt, mkCachedSessions (cs_inner s) (fold_left (fun m e => or_insert e m) results (cs_cache s)) (cs_dirty s))
        | Err e => (Err e, s)
        | Panic => (Panic, s)
        | NoFuel => (NoFuel, s)
        end
    end.

(** [drain]: the set comes out in some order *)
Definition take_dirty_sessions (hash_order : list ProtocolAddress -> list ProtocolAddress) (s : cs)
    : list (ProtocolAddress * SessionRecord) :=
  omap (fun addr => match cs_cache s !! addr with Some (Some record) => Some (addr, record) | _ => None end)
    (hash_order (elements (cs_dirty s))).

Definition cached_load_session (address : ProtocolAddress) : comp cs SignalProtocolError (option SessionRecord) :=
  fun s =>
    match cs_cache s !! address with
    | Some entry => (Ok entry, s)
    | None =>
        match load_session address (cs_inner s) with
        | Ok record => (Ok record, mkCachedSessions (cs_inner s) (<[address := record]> (cs_cache s)) (cs_dirty s))
        | Err e => (Err e, s)
        | Panic => (Panic, s)
        | NoFuel => (NoFuel, s)
        end
    end.

Definition cached_store_session (address : ProtocolAddress) (record : SessionRecord) : comp cs SignalProtocolError unit :=
  fun s => (Ok tt, mkCachedSessions (cs_inner s) (<[address := Some record]> (cs_cache s)) ({[address]} ∪ cs_dirty s)).
End SessionCache.

Section IdentityCache.
Context {I : Type} `{HI : !IdentityKeyStore I}.
Abbreviation ci := (CachedIdentityStore I).

Definition cached_identities_new (inner : I) : ci := mkCachedIdentities inner ∅ ∅ None None.

Definition set_identity_cache (a : ProtocolAddress) (k : option IdentityKey) (s : ci) : ci :=
  mkCachedIdentities (ci_inner s) (<[a := k]> (ci_cache s)) (ci_dirty_new s) (ci_identity_pair s) (ci_registration_id s).

Definition cached_identity_key_pair : comp ci SignalProtocolError IdentityKeyPair :=
  fun s =>
    match ci_identity_pair s with
    | Some p => (Ok p, s)
    | None =>
        match get_identity_key_pair (ci_inner s) with
        | Ok p => (Ok p, mkCachedIdentities (ci_inner s) (ci_cache s) (ci_dirty_new s) (Some p) (ci_registration_id s))
        | o => (o, s)
        end
    end.

Definition cached_local_registration_id : comp ci SignalProtocolError u32 :=
  fun s =>
    match ci_registration_id s with
    | Some id => (Ok id, s)
    | None =>
        match get_local_registration_id (ci_inner s) with
        | Ok id => (Ok id, mkCachedIdentities (ci_inner s) (ci_cache s) (ci_dirty_new s) (ci_identity_pair s) (Some id))
        | o => (o, s)
        end
    end.

Definition cached_get_identity (address : ProtocolAddress) : comp ci SignalProtocolError (option IdentityKey) :=
  fun s =>
    match ci_cache s !! address with
    | Some entry => (Ok entry, s)
    | None =>
        match get_identity address (ci_inner s) with
        | Ok found => (Ok found, set_identity_cache address found s)
        | o => (o, s)
        end
    end.

Definition inner_save_identity (address : ProtocolAddress) (identity : IdentityKey) : comp ci SignalProtocolError IdentityChange :=
  fun s => let '(o, i) := save_identity address identity (ci_inner s) in
           (o, mkCachedIdentities i (ci_cache s) (ci_dirty_new s) (ci_identity_pair s) (ci_registration_id s)).

Definition cached_save_identity (address : ProtocolAddress) (identity : IdentityKey) : comp ci SignalProtocolError IdentityChange :=
  let! existing := cached_get_identity address in
  match existing with
  | Some stored =>
      if negb (public_eq stored identity) then
        let! result := inner_save_identity address identity in
        fun s => (Ok result, set_identity_cache address (Some identity) s)
      else fun s => (Ok NewOrUnchanged, set_identity_cache address (Some identity) s)
  | None =>
      fun s => (Ok NewOrUnchanged,
                mkCachedIdentities (ci_inner s) (<[address := Some identity]> (ci_cache s)) (<[address := identity]> (ci_dirty_new s))
                  (ci_identity_pair s) (ci_registration_id s))
  end.

Definition cached_is_trusted_identity (address : ProtocolAddress) (identity : IdentityKey) (_direction : Direction)
    : comp ci SignalProtocolError bool :=
  let! stored := cached_get_identity address in
  mret (match stored with None => true | Some stored => public_eq stored identity end).

Definition take_dirty_identities (hash_order : list (ProtocolAddress * IdentityKey) -> list (ProtocolAddress * IdentityKey)) (s : ci)
    : list (ProtocolAddress * IdentityKey) := hash_order (map_to_list (ci_dirty_new s)).
End IdentityCache.

#[export] Instance cached_stores {B I : Type} `{HB : !SessionStore B, HI : !IdentityKeyStore I}
    : Stores (CachedSessionStore B * CachedIdentityStore I) := {|
  s_load_session a st := let '(o, s) := cached_load_session a st.1 in (o, (s, st.2));
  s_store_session a r st := let '(o, s) := cached_store_session a r st.1 in (o, (s, st.2));
  s_identity_key_pair st := let '(o, s) := cached_identity_key_pair st.2 in (o, (st.1, s));
  s_local_registration_id st := let '(o, s) := cached_local_registration_id st.2 in (o, (st.1, s));
  s_is_trusted_identity a k d st := let '(o, s) := cached_is_trusted_identity a k d st.2 in (o, (st.1, s));
  s_save_identity a k st := let '(o, s) := cached_save_identity a k st.2 in (o, (st.1, s))
|}.

(** ** The pipeline *)

(** [anyhow::Error]: a Signal error that can be told apart, or a text. *)
Inductive SendError := SE_Signal (e : SignalProtocolError) | SE_Other (msg : str).

(** What [trait SendContextResolver] offers, over the client's own state. *)
Class SendContextResolver (X : Type) := {
  resolve_devices : list Jid -> comp X str (list Jid);
  fetch_prekeys_for_identity_check : list Jid -> comp X str (list (Jid * PreKeyBundle));
  get_lid_for_phone : str -> X -> option str
}.

(** A failure as a value; a panic is not one. *)
Definition caught {St E F A} (m : comp St E A) : comp St F (E + A) :=
  fun s => match m s with
           | (Ok a, s) => (Ok (inr a), s)
           | (Err e, s) => (Ok (inl e), s)
           | (Panic, s) => (Panic, s)
           | (NoFuel, s) => (NoFuel, s)
           end.

Record DeviceTask := mkDeviceTask { dt_device_jid : Jid; dt_plaintext : bytes }.

Section Pipeline.
Context `{HK : !Hkdf, HS : !Hashes, HA : !AesCbc, HC : !Curve25519, HP : !SignalProto}.
(** the texts of addresses and errors *)
Context (show_debug : SignalProtocolError -> str).
(** the random bytes drawn for the n-th bundle, and again after a new identity *)
Context (rnds : nat -> (bytes * bytes) * (bytes * bytes)).
Context {X : Type} `{HX : !SendContextResolver X}.

Section InStores.
Context {St : Type} `{HSt : !Stores St}.

Definition has_session_at (a : ProtocolAddress) : comp St SendError bool :=
  let! r := caught (s_load_session a) in
  mret (match r with inr (Some _) => true | _ => false end).

(** [resolve_encryption_jid] of [send.rs] *)
Definition session_encryption_jid (x : X) (device_jid : Jid) : comp St SendError (Jid * bool) :=
  let! found := has_session_at (to_protocol_address device_jid) in
  if found then mret (device_jid, false)
  else if is_pn device_jid then
    match get_lid_for_phone (user device_jid) x with
    | Some lid_user =>
        let lid_jid := lid_device lid_user (device device_jid) in
        let! found := has_session_at (to_protocol_address lid_jid) in
        if found then mret (lid_jid, false) else mret (device_jid, true)
    | None => mret (device_jid, true)
    end
  else mret (device_jid, true).

Fixpoint process_bundles (n : nat) (prekey_bundles : list (Jid * PreKeyBundle)) (jids : list Jid) : comp St SendError unit :=
  match jids with
  | [] => mret tt
  | device_jid :: jids =>
      let signal_address := to_protocol_address device_jid in
      match bundle_get device_jid prekey_bundles with
      | None => process_bundles (S n) prekey_bundles jids
      | Some bundle =>
          let! result := caught (process_prekey_bundle_in signal_address bundle (rnds n).1) in
          match result with
          | inr _ => process_bundles (S n) prekey_bundles jids
          | inl (UntrustedIdentity _) =>
              let! saved := caught (s_save_identity signal_address (bu_identity_key bundle)) in
              match saved with
              | inl _ => process_bundles (S n) prekey_bundles jids
              | inr _ =>
                  let! _ := caught (F := SendError) (process_prekey_bundle_in signal_address bundle (rnds n).2) in
                  process_bundles (S n) prekey_bundles jids
              end
          | inl e => mfail (SE_Other (lit "Failed to process pre-key bundle for " ++ show_address signal_address ++ lit ": " ++ show_debug e))
          end
      end
  end.

Definition on_stores {A} (m : comp St SendError A) : comp (St * X) SendError A :=
  fun st => let '(o, s) := m st.1 in (o, (s, st.2)).
Definition on_resolver {A} (m : comp X str A) : comp (St * X) SendError A :=
  fun st => let '(o, x) := m st.2 in (map_err SE_Other o, (st.1, x)).

Definition establish_missing_sessions (jids_needing_prekeys : list Jid) : comp (St * X) SendError unit :=
  match jids_needing_prekeys with
  | [] => mret tt
  | _ =>
      let! prekey_bundles := on_resolver (fetch_prekeys_for_identity_check jids_needing_prekeys) in
      on_stores (process_bundles 0 prekey_bundles jids_needing_prekeys)
  end.

(** The bytes of a ciphertext, its kind and whether it starts a session. *)
Definition enc_payload (c : CiphertextMessage) : option (str * bool * bytes) :=
  match c with
  | C_PreKey msg => Some (lit "pkmsg", true, pk_serialized msg)
  | C_Signal msg => Some (lit "msg", false, sm_serialized msg)
  | _ => None
  end.

Definition device_node (device_jid : Jid) (enc_type : str) (serialized : bytes) (enc_extra_attrs : index_map str) : Node :=
  let enc_attrs := fold_left (fun m kv => im_insert kv.1 kv.2 m) enc_extra_attrs
                     (im_insert (lit "type") enc_type (im_insert (lit "v") (lit "2") [])) in
  let enc_node := build (b_bytes (b_attrs_all (builder_new (lit "enc")) enc_attrs) serialized) in
  build (b_children (b_attr (builder_new (lit "to")) (lit "jid") (jid_to_string device_jid)) [enc_node]).

Definition encrypt_one_device (device_jid encryption_jid : Jid) (plaintext : bytes) (enc_extra_attrs : index_map str)
    : comp St SendError (option (Node * bool)) :=
  let! result := caught (message_encrypt_in plaintext (to_protocol_address encryption_jid)) in
  mret (match result with
        | inr encrypted_payload =>
            match enc_payload encrypted_payload with
            | Some (enc_type, is_prekey, serialized) => Some (device_node device_jid enc_type serialized enc_extra_attrs, is_prekey)
            | None => None
            end
        | inl _ => None
        end).

(** [HashMap<Jid, Jid>], the latest insertion first *)
Fixpoint jid_get (j : Jid) (m : list (Jid * Jid)) : option Jid :=
  match m with [] => None | (k, v) :: m => if decide (j = k) then Some v else jid_get j m end.

Fixpoint session_map (x : X) (tasks : list DeviceTask) (jid_to_encryption_jid : list (Jid * Jid)) (jids_needing_prekeys : list Jid)
    : comp St SendError (list (Jid * Jid) * list Jid) :=
  match tasks with
  | [] => mret (jid_to_encryption_jid, jids_needing_prekeys)
  | task :: tasks =>
      let! r := session_encryption_jid x (dt_device_jid task) in
      session_map x tasks ((dt_device_jid task, r.1) :: jid_to_encryption_jid)
        (if (r.2 : bool) then jids_needing_prekeys ++ [dt_device_jid task] else jids_needing_prekeys)
  end.

Fixpoint encrypt_tasks (jid_to_encryption_jid : list (Jid * Jid)) (enc_extra_attrs : index_map str) (tasks : list DeviceTask)
    (participant_nodes : list Node) (includes_prekey_message : bool) : comp St SendError (list Node * bool) :=
  match tasks with
  | [] => mret (participant_nodes, includes_prekey_message)
  | task :: tasks =>
      let encryption_jid := some_or (dt_device_jid task) (jid_get (dt_device_jid task) jid_to_encryption_jid) in
      let! r := encrypt_one_device (dt_device_jid task) encryption_jid (dt_plaintext task) enc_extra_attrs in
      match r with
      | Some (node, is_prekey) =>
          encrypt_tasks jid_to_encryption_jid enc_extra_attrs tasks (participant_nodes ++ [node]) (includes_prekey_message || is_prekey)
      | None => encrypt_tasks jid_to_encryption_jid enc_extra_attrs tasks participant_nodes includes_prekey_message
      end
  end.

(** Phases 1 to 3 *)
Definition encrypt_phases (tasks : list DeviceTask) (enc_extra_attrs : index_map str) : comp (St * X) SendError (list Node * bool) :=
  let! m := fun st => on_stores (session_map st.2 tasks [] []) st in
  establish_missing_sessions m.2 ;;
  on_stores (encrypt_tasks m.1 enc_extra_attrs tasks [] false).
End InStores.

Section Unified.
Context {B I : Type} `{HB : !SessionStore B, HBB : !BatchSessions B, HI : !IdentityKeyStore I}.
(** the order in which the sets of dirty entries are drained *)
Context (order_sessions : list ProtocolAddress -> list ProtocolAddress).
Context (order_identities : list (ProtocolAddress * IdentityKey) -> list (ProtocolAddress * IdentityKey)).

Definition batch_addrs (x : X) (tasks : list DeviceTask) : list ProtocolAddress :=
  mjoin (map (fun task =>
    to_protocol_address (dt_device_jid task) ::
    (if is_pn (dt_device_jid task) then
       match get_lid_for_phone (user (dt_device_jid task)) x with
       | Some lid_user => [to_protocol_address (lid_device lid_user (device (dt_device_jid task)))]
       | None => []
       end
     else [])) tasks).

Definition flush_sessions (dirty_sessions : list (ProtocolAddress * SessionRecord)) : comp (B * I) SendError unit :=
  match dirty_sessions with
  | [] => mret tt
  | _ => fun st =>
      let '(o, b) := store_sessions_batch dirty_sessions st.1 in
      (map_err (fun e => SE_Other (lit "Failed to batch-flush " ++ show_uint (Z.of_nat (length dirty_sessions))
                                   ++ lit " sessions: " ++ show_debug e)) o, (b, st.2))
  end.

Definition flush_identities : list (ProtocolAddress * IdentityKey) -> comp (B * I) SendError unit :=
  mfor (fun e st =>
    let '(o, i) := save_identity e.1 e.2 st.2 in
    (map_err (fun err => SE_Other (lit "Failed to flush identity for " ++ show_address e.1 ++ lit ": " ++ show_debug err))
       (omap_ok (fun _ => tt) o), (st.1, i))).

(** The caches are dropped at the end and on every early return. *)
Definition encrypt_for_devices_unified (tasks : list DeviceTask) (enc_extra_attrs : index_map str)
    : comp ((B * I) * X) SendError (list Node * bool) :=
  match tasks with
  | [] => mret ([], false)
  | _ => fun st =>
      let '(b, i, x) := st in
      match populate_from_batch (batch_addrs x tasks) (cached_sessions_new b) with
      | (Ok _, cached_session) =>
          let '(o, (cached_session, cached_identity, x)) :=
            encrypt_phases tasks enc_extra_attrs ((cached_session, cached_identities_new i), x) in
          match o with
          | Ok result =>
              let dirty_sessions := take_dirty_sessions order_sessions cached_session in
              let dirty_identities := take_dirty_identities order_identities cached_identity in
              let '(o, bi) := (flush_sessions dirty_sessions ;; flush_identities dirty_identities)
                                (cs_inner cached_session, ci_inner cached_identity) in
              (omap_ok (fun _ => result) o, (bi, x))
          | o => (o, (cs_inner cached_session, ci_inner cached_identity, x))
          end
      | (Err e, _) => (Err (SE_Other (lit "Failed to batch-load sessions: " ++ show_debug e)), st)
      | (Panic, _) => (Panic, st)
      | (NoFuel, _) => (NoFuel, st)
      end
  end.

Definition encrypt_for_devices (devices : list Jid) (plaintext_to_encrypt : bytes) (enc_extra_attrs : index_map str)
    : comp ((B * I) * X) SendError (list Node * bool) :=
  encrypt_for_devices_unified (map (fun jid => mkDeviceTask jid plaintext_to_encrypt) devices) enc_extra_attrs.
End Unified.
End Pipeline.

(** ** Theory: two stores that behave alike *)

Section Simulation.
Context {S1 S2 : Type} (R : S1 -> S2 -> Prop).

(** From states related by [P] the two give the same outcome; after a value the
    states are related by [Q], otherwise by [R]. *)
Definition sim {E A} (P : S1 -> S2 -> Prop) (m1 : comp S1 E A) (m2 : comp S2 E A) (Q : A -> S1 -> S2 -> Prop) : Prop :=
  forall s1 s2, P s1 s2 -> (m1 s1).1 = (m2 s2).1
    /\ match (m1 s1).1 with Ok a => Q a (m1 s1).2 (m2 s2).2 | _ => R (m1 s1).2 (m2 s2).2 end.

Lemma sim_bind {E A C} P (m1 : comp S1 E A) m2 (k1 : A -> comp S1 E C) k2 Q T :
  sim P m1 m2 Q -> (forall a, sim (Q a) (k1 a) (k2 a) T) -> sim P (mbind' m1 k1) (mbind' m2 k2) T.
Proof.
  intros Hm Hk s1 s2 HP. destruct (Hm s1 s2 HP) as [Ho HQ]. unfold mbind'.
  destruct (m1 s1) as [o1 t1], (m2 s2) as [o2 t2]. cbn in *. subst o2. destruct o1; [by apply Hk|done..].
Qed.

Lemma sim_ret {E A} (P : S1 -> S2 -> Prop) (a : A) (Q : A -> S1 -> S2 -> Prop) :
  (forall s1 s2, P s1 s2 -> Q a s1 s2) -> sim (E := E) P (mret a) (mret a) Q.
Proof. intros H s1 s2 HP. split; [done|]. by apply H. Qed.

Lemma sim_lift {E A} (P : S1 -> S2 -> Prop) (o : outcome E A) :
  (forall s1 s2, P s1 s2 -> R s1 s2) -> sim P (mlift o) (mlift o) (fun _ => P).
Proof. intros H s1 s2 HP. split; [done|]. cbn. destruct o; [done|by apply H..]. Qed.

Lemma sim_fail {E A} (P : S1 -> S2 -> Prop) (e : E) (Q : A -> S1 -> S2 -> Prop) :
  (forall s1 s2, P s1 s2 -> R s1 s2) -> sim P (mfail e) (mfail e) Q.
Proof. intros H s1 s2 HP. split; [done|]. by apply H. Qed.

Lemma sim_pre {E A} (P P' : S1 -> S2 -> Prop) (m1 : comp S1 E A) m2 Q :
  (forall s1 s2, P s1 s2 -> P' s1 s2) -> sim P' m1 m2 Q -> sim P m1 m2 Q.
Proof. intros H Hm s1 s2 HP. by apply Hm, H. Qed.

Lemma sim_post {E A} P (m1 : comp S1 E A) m2 (Q Q' : A -> S1 -> S2 -> Prop) :
  (forall a s1 s2, Q a s1 s2 -> Q' a s1 s2) -> sim P m1 m2 Q -> sim P m1 m2 Q'.
Proof. intros H Hm s1 s2 HP. destruct (Hm s1 s2 HP) as [-> HQ]. split; [done|]. destruct (m2 s2).1; [by apply H|done..]. Qed.

(** A failure that was caught leaves related states. *)
Lemma sim_caught {E F A} P (m1 : comp S1 E A) m2 (Q : A -> S1 -> S2 -> Prop) :
  sim P m1 m2 Q -> sim (E := F) P (caught m1) (caught m2) (fun r s1 s2 => match r with inr a => Q a s1 s2 | inl _ => R s1 s2 end).
Proof.
  intros Hm s1 s2 HP. destruct (Hm s1 s2 HP) as [Ho HQ]. unfold caught.
  destruct (m1 s1) as [o1 t1], (m2 s2) as [o2 t2]. cbn in *. subst o2. by destruct o1.
Qed.
End Simulation.

(** ** Theory: the caches *)

(** Identity stores that trust on first use. *)
Class TofuStore (I : Type) `{HI : !IdentityKeyStore I} := {
  identity_view : I -> ProtocolAddress -> option IdentityKey;
  get_identity_view : forall a i, get_identity a i = Ok (identity_view i a);
  trusted_view : forall a k d i, is_trusted_identity a k d i
    = Ok (match identity_view i a with None => true | Some stored => public_eq stored k end);
  save_identity_view : forall a k i, exists i', save_identity a k i = (Ok (identity_change (identity_view i a) k), i')
    /\ forall a', identity_view i' a' = if decide (a' = a) then Some k else identity_view i a'
}.

Section CacheTheory.
Context {B I K : Type} `{HB : !SessionStore B, HI : !IdentityKeyStore I, HPK : !PreKeyStore K}.
Context `{HR : !ReliableStores B I K, HSep : !SeparateStores B I, HT : !TofuStore I}.
Abbreviation cached := (CachedSessionStore B * CachedIdentityStore I)%type.
(** the session store behind the cache *)
Context (b0 : B).

(** What a lookup in a cache answers. *)
Definition cached_session (s : CachedSessionStore B) (a : ProtocolAddress) : option SessionRecord :=
  match cs_cache s !! a with Some entry => entry | None => view_session (cs_inner s) a end.
Definition cached_identity (s : CachedIdentityStore I) (a : ProtocolAddress) : option IdentityKey :=
  match ci_cache s !! a with Some entry => entry | None => identity_view (ci_inner s) a end.

(** The caches hold what the plain stores hold, and what is not marked dirty is
    what the inner stores hold. *)
Record sessions_agree (s : CachedSessionStore B) (b : B) : Prop := {
  sa_inner : cs_inner s = b0;
  sa_view : forall a, cached_session s a = view_session b a;
  sa_clean : forall a, a ∉ cs_dirty s -> cached_session s a = view_session (cs_inner s) a;
  sa_dirty : forall a, a ∈ cs_dirty s -> exists r, cs_cache s !! a = Some (Some r)
}.
Record identities_agree (s : CachedIdentityStore I) (i : I) : Prop := {
  ia_view : forall a, cached_identity s a = identity_view i a;
  ia_clean : forall a, ci_dirty_new s !! a = None -> cached_identity s a = identity_view (ci_inner s) a;
  ia_dirty : forall a k, ci_dirty_new s !! a = Some k -> cached_identity s a = Some k;
  ia_own : get_identity_key_pair (ci_inner s) = get_identity_key_pair i
    /\ get_local_registration_id (ci_inner s) = get_local_registration_id i;
  ia_pair : forall p, ci_identity_pair s = Some p -> get_identity_key_pair (ci_inner s) = Ok p;
  ia_registration : forall n, ci_registration_id s = Some n -> get_local_registration_id (ci_inner s) = Ok n
}.
Definition agree_with (s : cached) (st : B * I) : Prop := sessions_agree s.1 st.1 /\ identities_agree s.2 st.2.

Lemma cached_session_insert s a o a' :
  cached_session (mkCachedSessions (cs_inner s) (<[a := o]> (cs_cache s)) (cs_dirty s)) a'
  = if decide (a' = a) then o else cached_session s a'.
Proof.
  unfold cached_session. cbn [cs_cache cs_inner]. case_decide as E; [subst; by rewrite lookup_insert_eq|by rewrite lookup_insert_ne].
Qed.

Lemma load_agree a s b :
  sessions_agree s b -> exists s', cached_load_session a s = (Ok (view_session b a), s') /\ sessions_agree s' b.
Proof.
  intros Ha. pose proof (sa_view _ _ Ha a) as Hv. unfold cached_load_session. destruct (cs_cache s !! a) as [entry|] eqn:E.
  - exists s. unfold cached_session in Hv. rewrite E in Hv. by subst.
  - assert (view_session (cs_inner s) a = view_session b a) as Hi by (unfold cached_session in Hv; by rewrite E in Hv).
    rewrite (load_session_returns (I := I) (K := K)), Hi. eexists. split; [done|].
    assert (forall a', cached_session (mkCachedSessions (cs_inner s) (<[a := view_session b a]> (cs_cache s)) (cs_dirty s)) a'
              = cached_session s a') as Hc.
    { intros a'. rewrite cached_session_insert. case_decide as Ed; [subst; by rewrite Hv|done]. }
    split.
    + apply Ha.
    + intros a'. rewrite Hc. apply Ha.
    + intros a' Hd. rewrite Hc. by apply Ha.
    + intros a' Hd. cbn in *. destruct (sa_dirty _ _ Ha a' Hd) as [r Hr]. exists r. rewrite lookup_insert_ne; [done|]. congruence.
Qed.

Lemma store_agree a r s b b' :
  sessions_agree s b -> store_session a r b = (Ok tt, b') ->
  exists s', cached_store_session a r s = (Ok tt, s') /\ sessions_agree s' b'.
Proof.
  intros Ha Hst. eexists. split; [done|].
  assert (forall a', cached_session (mkCachedSessions (cs_inner s) (<[a := Some r]> (cs_cache s)) ({[a]} ∪ cs_dirty s)) a'
            = if decide (a' = a) then Some r else cached_session s a') as Hc.
  { intros a'. exact (cached_session_insert s a (Some r) a'). }
  split.
  - apply Ha.
  - intros a'. rewrite Hc. case_decide as E; [subst; by rewrite (store_session_ok _ _ _ _ Hst)|].
    rewrite (store_session_other _ _ _ _ _ Hst E). apply Ha.
  - intros a' Hd. cbn in Hd. rewrite Hc, decide_False by set_solver. apply Ha. set_solver.
  - intros a' Hd. cbn in *. destruct (decide (a' = a)) as [->|E]; [exists r; apply lookup_insert_eq|].
    rewrite lookup_insert_ne by done. apply (sa_dirty _ _ Ha). set_solver.
Qed.

Lemma cached_identity_insert s a o a' dn p n i :
  (a' <> a -> identity_view i a' = identity_view (ci_inner s) a') ->
  cached_identity (mkCachedIdentities i (<[a := o]> (ci_cache s)) dn p n) a' = if decide (a' = a) then o else cached_identity s a'.
Proof.
  intros Hi. unfold cached_identity. cbn [ci_cache ci_inner]. case_decide as E; [subst; by rewrite lookup_insert_eq|].
  rewrite lookup_insert_ne by done. destruct (ci_cache s !! a'); [done|]. by apply Hi.
Qed.

Lemma get_identity_agree a s i :
  identities_agree s i -> exists s', cached_get_identity a s = (Ok (identity_view i a), s')
    /\ identities_agree s' i /\ ci_dirty_new s' = ci_dirty_new s /\ ci_inner s' = ci_inner s.
Proof.
  intros Ha. pose proof (ia_view _ _ Ha a) as Hv. unfold cached_get_identity. destruct (ci_cache s !! a) as [entry|] eqn:E.
  - exists s. unfold cached_identity in Hv. rewrite E in Hv. by subst.
  - assert (identity_view (ci_inner s) a = identity_view i a) as Hi by (unfold cached_identity in Hv; by rewrite E in Hv).
    rewrite get_identity_view, Hi. eexists. split; [done|]. split; [|done].
    assert (forall a', cached_identity (set_identity_cache a (identity_view i a) s) a' = cached_identity s a') as Hc.
    { intros a'. unfold set_identity_cache. rewrite cached_identity_insert by done. case_decide as Ed; [subst; by rewrite Hv|done]. }
    split; try apply Ha.
    + intros a'. rewrite Hc. apply Ha.
    + intros a' Hd. rewrite Hc. by apply Ha.
    + intros a' k Hd. rewrite Hc. by apply Ha.
Qed.

Lemma public_eq_refl k : public_eq k k = true.
Proof. by apply public_eq_spec. Qed.

(** After a save at [a]: whatever was written, the entry not marked dirty is the
    inner store's. *)
Lemma agree_saved a k s i i' ii dn :
  identities_agree s i -> (forall a', identity_view i' a' = if decide (a' = a) then Some k else identity_view i a') ->
  (get_identity_key_pair i' = get_identity_key_pair i /\ get_local_registration_id i' = get_local_registration_id i) ->
  (get_identity_key_pair ii = get_identity_key_pair (ci_inner s) /\ get_local_registration_id ii = get_local_registration_id (ci_inner s)) ->
  (forall a', a' <> a -> identity_view ii a' = identity_view (ci_inner s) a') ->
  (dn !! a = None -> identity_view ii a = Some k) -> (forall k', dn !! a = Some k' -> k' = k) ->
  (forall a', a' <> a -> dn !! a' = ci_dirty_new s !! a') ->
  identities_agree (mkCachedIdentities ii (<[a := Some k]> (ci_cache s)) dn (ci_identity_pair s) (ci_registration_id s)) i'.
Proof.
  intros Ha Hv [Ho1 Ho2] [Hi1 Hi2] Hoth Hnone Hsome Hdn.
  assert (forall a', cached_identity (mkCachedIdentities ii (<[a := Some k]> (ci_cache s)) dn (ci_identity_pair s) (ci_registration_id s)) a'
            = if decide (a' = a) then Some k else cached_identity s a') as Hc by (intros a'; apply cached_identity_insert, Hoth).
  split; cbn [ci_dirty_new ci_inner ci_identity_pair ci_registration_id]; rewrite ?Hi1, ?Hi2.
  - intros a'. rewrite Hc, Hv. case_decide; [done|]. apply Ha.
  - intros a' Hx. rewrite Hc. case_decide as E; [subst; symmetry; by apply Hnone|]. rewrite (Hoth a' E). apply Ha. by rewrite <- Hdn.
  - intros a' k' Hx. rewrite Hc. case_decide as E; [subst; by rewrite (Hsome _ Hx)|]. apply Ha. by rewrite <- Hdn.
  - destruct (ia_own _ _ Ha) as [H1 H2]. by rewrite H1, H2, Ho1, Ho2.
  - apply Ha.
  - apply Ha.
Qed.

(** Saving: unchanged and new identities stay in the cache, a changed one goes
    through. *)
Lemma save_identity_agree a k s i :
  identities_agree s i -> (forall k', ci_dirty_new s !! a = Some k' -> k' = k) ->
  exists s' c i', cached_save_identity a k s = (Ok c, s') /\ save_identity a k i = (Ok c, i') /\ identities_agree s' i'
    /\ (forall a' k', ci_dirty_new s' !! a' = Some k' -> ci_dirty_new s !! a' = Some k' \/ a' = a /\ k' = k).
Proof.
  intros Ha Hd. destruct (save_identity_view a k i) as (i' & Hs & Hv). pose proof (save_identity_own _ _ _ _ _ Hs) as Ho.
  destruct (get_identity_agree a s i Ha) as (s0 & Hg & Ha0 & Hdn & _). unfold cached_save_identity, mbind'. rewrite Hg, <- Hdn in *.
  pose proof (ia_view _ _ Ha0 a) as Hva. destruct (identity_view i a) as [stored|] eqn:E.
  - unfold identity_change in Hs. destruct (public_eq stored k) eqn:Ek; cbn [negb].
    + apply public_eq_spec in Ek as ->. do 3 eexists. split; [done|]. split; [exact Hs|]. split; [|by left].
      eapply agree_saved; [done..| | |done]; [|done]. intros Hn. by rewrite <- (ia_clean _ _ Ha0 a Hn).
    + assert (ci_dirty_new s0 !! a = None) as Hn.
      { destruct (ci_dirty_new s0 !! a) as [k'|] eqn:Ex; [|done]. pose proof (ia_dirty _ _ Ha0 a k' Ex) as H.
        rewrite Hva in H. injection H as ->. by rewrite (Hd k' eq_refl), (proj2 (public_eq_spec k k) eq_refl) in Ek. }
      destruct (save_identity_view a k (ci_inner s0)) as (ii & Hsi & Hvi). pose proof (save_identity_own _ _ _ _ _ Hsi) as Hio.
      rewrite <- (ia_clean _ _ Ha0 a Hn), Hva in Hsi. unfold identity_change in Hsi. rewrite Ek in Hsi.
      unfold inner_save_identity. rewrite Hsi. do 3 eexists. split; [done|]. split; [exact Hs|]. split; [|by left].
      apply (agree_saved a k s0 i i' ii); [done..| | |cbn; by rewrite Hn|done]; [intros a' Hne; by rewrite Hvi, decide_False|].
      intros _. by rewrite Hvi, decide_True.
  - do 3 eexists. split; [done|]. split; [exact Hs|]. split; cbn [ci_dirty_new].
    + eapply agree_saved; [done..| | |]; [by rewrite lookup_insert_eq|rewrite lookup_insert_eq; congruence|].
      intros a' Hne. by rewrite lookup_insert_ne.
    + intros a' k'. destruct (decide (a' = a)) as [->|Hne]; [rewrite lookup_insert_eq; intros [= ->]; by right|].
      rewrite lookup_insert_ne by done. by left.
Qed.

(** ** Theory: the generic functions over the caches *)

(** Related states in which the identities that wait to be written satisfy
    [Inv], and are as [phi] says. *)
Definition rel (Inv : ProtocolAddress -> IdentityKey -> Prop) (phi : gmap ProtocolAddress IdentityKey -> Prop) (s : cached) (st : B * I) : Prop :=
  agree_with s st /\ (forall a k, ci_dirty_new s.2 !! a = Some k -> Inv a k) /\ phi (ci_dirty_new s.2).
Definition any (dn : gmap ProtocolAddress IdentityKey) : Prop := True.
(** Nothing but [k] waits to be written at [a]. *)
Definition only (a : ProtocolAddress) (k : IdentityKey) (dn : gmap ProtocolAddress IdentityKey) : Prop :=
  forall k', dn !! a = Some k' -> k' = k.

Section Ops.
Context (Inv : ProtocolAddress -> IdentityKey -> Prop).
Abbreviation simulates P m1 m2 Q := (sim (S1 := cached) (S2 := B * I) (rel Inv any) P m1 m2 Q).

Lemma rel_any phi s st : rel Inv phi s st -> rel Inv any s st.
Proof. intros (? & ? & ?). by split. Qed.

Lemma sim_load a phi : simulates (rel Inv phi) (s_load_session a) (s_load_session a) (fun _ => rel Inv phi).
Proof.
  intros [s1 s2] [b i] ([Hs Hi] & Hr). cbn [fst snd] in *. destruct (load_agree a s1 b Hs) as (s' & E & Ha).
  cbn. unfold load_at. rewrite E. cbn. rewrite (load_session_returns (I := I) (K := K)). by split.
Qed.

Lemma sim_store a r phi : simulates (rel Inv phi) (s_store_session a r) (s_store_session a r) (fun _ => rel Inv phi).
Proof.
  intros [s1 s2] [b i] ([Hs Hi] & Hr). cbn [fst snd] in *. destruct (store_session_returns (I := I) (K := K) a r b) as [b' Hb].
  destruct (store_agree a r s1 b b' Hs Hb) as (s' & E & Ha). cbn [s_store_session cached_stores plain_stores].
  unfold on_sessions. cbn [fst snd]. rewrite E, Hb. by split.
Qed.

Lemma sim_pair phi : simulates (rel Inv phi) s_identity_key_pair s_identity_key_pair (fun _ => rel Inv phi).
Proof.
  intros [s1 s2] [b i] ([Hs Hi] & Hr). destruct (ia_own _ _ Hi) as [Ho _]. cbn in *. unfold cached_identity_key_pair.
  destruct (ci_identity_pair s2) as [p|] eqn:E; cbn.
  - rewrite <- Ho, (ia_pair _ _ Hi p E). by split.
  - rewrite Ho. destruct (get_identity_key_pair i) as [p| | |] eqn:Ep; cbn; (split; [done|]); try (by split; [|split; [apply Hr|done] ]).
    split; [|done]. split; [done|]. split; try apply Hi. cbn. intros p' [= <-]. by rewrite Ho.
Qed.

Lemma sim_registration phi : simulates (rel Inv phi) s_local_registration_id s_local_registration_id (fun _ => rel Inv phi).
Proof.
  intros [s1 s2] [b i] ([Hs Hi] & Hr). destruct (ia_own _ _ Hi) as [_ Ho]. cbn in *. unfold cached_local_registration_id.
  destruct (ci_registration_id s2) as [p|] eqn:E; cbn.
  - rewrite <- Ho, (ia_registration _ _ Hi p E). by split.
  - rewrite Ho. destruct (get_local_registration_id i) as [p| | |] eqn:Ep; cbn; (split; [done|]); try (by split; [|split; [apply Hr|done] ]).
    split; [|done]. split; [done|]. split; try apply Hi. cbn. intros p' [= <-]. by rewrite Ho.
Qed.

(** Trusting an identity shows that no other one waits to be written. *)
Lemma sim_trusted a k d :
  simulates (rel Inv any) (s_is_trusted_identity a k d) (s_is_trusted_identity a k d)
    (fun t => rel Inv (fun dn => t = true -> only a k dn)).
Proof.
  intros [s1 s2] [b i] ([Hs Hi] & Hr). cbn in *. destruct (get_identity_agree a s2 i Hi) as (s' & E & Ha & Hd & _).
  unfold cached_is_trusted_identity, mbind', trusted_at. rewrite E. cbn [fst snd mret]. rewrite trusted_view. cbn [fst snd]. split; [done|].
  cbn. split; [done|]. cbn. rewrite Hd. split; [apply Hr|]. intros Ht k' Hk. rewrite <- Hd in Hk.
  pose proof (ia_dirty _ _ Ha a k' Hk) as Hv. rewrite (ia_view _ _ Ha) in Hv. rewrite Hv in Ht. by apply public_eq_spec.
Qed.

Lemma sim_save a k : Inv a k -> simulates (rel Inv (only a k)) (s_save_identity a k) (s_save_identity a k) (fun _ => rel Inv any).
Proof.
  intros Hk [s1 s2] [b i] ([Hs Hi] & Hinv & Ho). cbn [fst snd] in *.
  destruct (save_identity_agree a k s2 i Hi Ho) as (s' & c & i' & E1 & E2 & Ha & Hd).
  cbn [s_save_identity cached_stores plain_stores]. unfold on_identities. cbn [fst snd]. rewrite E1, E2. cbn [fst snd].
  split; [done|]. split; [done|]. split; [|done]. intros a' k' Hx. destruct (Hd a' k' Hx) as [H|[-> ->] ]; [by apply Hinv|done].
Qed.
End Ops.

Section GenericOverCaches.
Context `{HK : !Hkdf, HS : !Hashes, HA : !AesCbc, HC : !Curve25519, HP : !SignalProto}.
Context (Inv : ProtocolAddress -> IdentityKey -> Prop).
Abbreviation simulates P m1 m2 Q := (sim (S1 := cached) (S2 := B * I) (rel Inv any) P m1 m2 Q).
Abbreviation alike m1 m2 := (simulates (rel Inv any) m1 m2 (fun _ => rel Inv any)).

Ltac sim_step :=
  match goal with
  | |- sim _ _ (mbind' (mlift _) _) _ _ => eapply sim_bind; [apply sim_lift; intros; by eapply rel_any|intros ?]
  | |- sim _ _ (mbind' (s_load_session _) _) _ _ => eapply sim_bind; [apply sim_load|intros ?]
  | |- sim _ _ (mbind' s_identity_key_pair _) _ _ => eapply sim_bind; [apply sim_pair|intros ?]
  | |- sim _ _ (mbind' s_local_registration_id _) _ _ => eapply sim_bind; [apply sim_registration|intros ?]
  | |- sim _ _ (mfail _) _ _ => apply sim_fail; intros; by eapply rel_any
  | |- sim _ _ (mret _) _ _ => apply sim_ret; intros; by eapply rel_any
  end.

(** After an identity was found trusted. *)
Lemma sim_trusting a k d {A} (no1 yes1 : comp cached SignalProtocolError A) no2 yes2 :
  alike no1 no2 -> simulates (rel Inv (only a k)) yes1 yes2 (fun _ => rel Inv any) ->
  alike (let! t := s_is_trusted_identity a k d in if negb t then no1 else yes1)
        (let! t := s_is_trusted_identity a k d in if negb t then no2 else yes2).
Proof.
  intros Hno Hyes. eapply sim_bind; [apply sim_trusted|]. intros [|]; cbn [negb].
  - eapply sim_pre; [|exact Hyes]. intros s st (? & ? & Ho). split; [done|]. split; [done|]. by apply Ho.
  - eapply sim_pre; [|exact Hno]. intros; by eapply rel_any.
Qed.

Lemma sim_message_encrypt p a : (forall k, Inv a k) -> alike (message_encrypt_in p a) (message_encrypt_in p a).
Proof.
  intros Hk. unfold message_encrypt_in. do 3 sim_step. destruct (encrypt_with_state _ _ _) as [o state]. sim_step.
  apply sim_trusting; [sim_step|]. eapply sim_bind; [by apply sim_save|intros ?]. eapply sim_bind; [apply sim_store|intros ?]. sim_step.
Qed.

Lemma sim_process_bundle a bundle rnds :
  Inv a (bu_identity_key bundle) -> alike (process_prekey_bundle_in a bundle rnds) (process_prekey_bundle_in a bundle rnds).
Proof.
  intros Hk. unfold process_prekey_bundle_in. apply sim_trusting; [sim_step|]. destruct (negb _); [sim_step|].
  do 4 sim_step. eapply sim_bind; [by apply sim_save|intros ?]. apply sim_store.
Qed.

Lemma sim_has_session a : alike (has_session_at a) (has_session_at a).
Proof.
  unfold has_session_at. eapply sim_bind; [eapply sim_caught, sim_load|]. intros r. apply sim_ret. by intros s1 s2; destruct r.
Qed.

Context (show_debug : SignalProtocolError -> str) (rnds : nat -> (bytes * bytes) * (bytes * bytes)).
Context {X : Type} `{HX : !SendContextResolver X}.

Lemma sim_encryption_jid (x : X) j : alike (session_encryption_jid x j) (session_encryption_jid x j).
Proof.
  unfold session_encryption_jid. eapply sim_bind; [apply sim_has_session|intros [|] ]; [sim_step|]. destruct (is_pn j); [|sim_step].
  destruct (get_lid_for_phone _ _); [|sim_step]. eapply sim_bind; [apply sim_has_session|intros [|] ]; sim_step.
Qed.

Lemma sim_session_map (x : X) tasks m l : alike (session_map x tasks m l) (session_map x tasks m l).
Proof.
  revert m l. induction tasks as [|t tasks IH]; intros m l; cbn [session_map]; [sim_step|].
  eapply sim_bind; [apply sim_encryption_jid|intros r]. apply IH.
Qed.

(** A new identity of an address is saved when nothing else waits there. *)
Lemma sim_process_bundles bundles jids n :
  (forall j b, j ∈ jids -> bundle_get j bundles = Some b -> Inv (to_protocol_address j) (bu_identity_key b)) ->
  (forall a k k', Inv a k -> Inv a k' -> k = k') ->
  alike (process_bundles show_debug rnds n bundles jids) (process_bundles show_debug rnds n bundles jids).
Proof.
  intros Hinv Huniq. revert n. induction jids as [|j jids IH]; intros n; cbn [process_bundles]; [sim_step|].
  assert (forall j b, j ∈ jids -> bundle_get j bundles = Some b -> Inv (to_protocol_address j) (bu_identity_key b)) as Hj
    by (intros; apply Hinv; [by right|done]).
  specialize (IH Hj). destruct (bundle_get j bundles) as [bundle|] eqn:E; [|apply IH].
  assert (Inv (to_protocol_address j) (bu_identity_key bundle)) as Hb by (apply Hinv; [by left|done]).
  pose proof (fun r => sim_process_bundle (to_protocol_address j) bundle r Hb) as Hp.
  eapply sim_bind; [eapply sim_caught, Hp|]. intros [e|[] ]; [|apply IH].
  destruct e; try sim_step. eapply sim_bind; [eapply sim_caught, sim_pre, sim_save; [|done]|].
  - intros s st (? & Hi & _). split; [done|]. split; [done|]. intros k' Hk. eapply Huniq; [by apply Hi|done].
  - intros [?|c]; [apply IH|]. eapply sim_bind; [eapply sim_caught, Hp|]. intros r. eapply sim_pre, IH. by destruct r as [|[] ].
Qed.

Lemma sim_encrypt_tasks m extra tasks nodes flag :
  (forall a k, Inv a k) -> alike (encrypt_tasks m extra tasks nodes flag) (encrypt_tasks m extra tasks nodes flag).
Proof.
  intros Hk. revert nodes flag. induction tasks as [|t tasks IH]; intros nodes flag; cbn [encrypt_tasks]; [sim_step|].
  eapply sim_bind; [unfold encrypt_one_device; eapply sim_bind|].
  - eapply sim_caught, sim_message_encrypt. intros k. apply Hk.
  - intros r. apply (sim_ret _ _ _ (fun _ => rel Inv any)). by intros s1 s2; destruct r.
  - intros [ [node is_prekey]|]; apply IH.
Qed.
End GenericOverCaches.
End CacheTheory.

(** ** Theory: the whole pipeline *)

Section PipelineTheory.
Context `{HK : !Hkdf, HS : !Hashes, HA : !AesCbc, HC : !Curve25519, HP : !SignalProto}.
Context {B I K : Type} `{HB : !SessionStore B, HBB : !BatchSessions B, HI : !IdentityKeyStore I, HPK : !PreKeyStore K}.
Context `{HR : !ReliableStores B I K, HSep : !SeparateStores B I, HT : !TofuStore I}.
Context (show_debug : SignalProtocolError -> str) (rnds : nat -> (bytes * bytes) * (bytes * bytes)).
Context {X : Type} `{HX : !SendContextResolver X}.

(** Devices of one address have one identity in the bundles of an answer. *)
Definition one_identity (bundles : list (Jid * PreKeyBundle)) : Prop :=
  forall j j' b b', bundle_get j bundles = Some b -> bundle_get j' bundles = Some b' ->
    to_protocol_address j = to_protocol_address j' -> bu_identity_key b = bu_identity_key b'.
Context (fetch_one_identity : forall jids (x : X) bundles x',
  fetch_prekeys_for_identity_check jids x = (Ok bundles, x') -> one_identity bundles).

Definition with_x {S1 S2} (P : S1 -> S2 -> Prop) (s1 : S1 * X) (s2 : S2 * X) : Prop := P s1.1 s2.1 /\ s1.2 = s2.2.

Lemma sim_on_stores {S1 S2 A} (R P : S1 -> S2 -> Prop) (m1 : comp S1 SendError A) m2 Q :
  sim R P m1 m2 Q -> sim (with_x R) (with_x P) (on_stores m1) (on_stores m2) (fun a => with_x (Q a)).
Proof.
  intros Hm [s1 x1] [s2 x2] [Hp Hx]. cbn in *. subst. destruct (Hm s1 s2 Hp) as [Ho HQ]. unfold on_stores. cbn [fst snd].
  destruct (m1 s1) as [o1 t1], (m2 s2) as [o2 t2]. cbn in *. subst o2. split; [done|]. by destruct o1.
Qed.

Lemma sim_mono {S1 S2 A} (R R' P : S1 -> S2 -> Prop) (m1 : comp S1 SendError A) m2 Q :
  (forall s1 s2, R s1 s2 -> R' s1 s2) -> sim R P m1 m2 Q -> sim R' P m1 m2 Q.
Proof. intros HRR Hm s1 s2 Hp. destruct (Hm s1 s2 Hp) as [-> HQ]. split; [done|]. destruct (m2 s2).1; [done|by apply HRR..]. Qed.

Section Inner.
Context (b0 : B).
Abbreviation fresh := (rel (I := I) b0 (fun _ _ => False) any).
Abbreviation later := (rel (I := I) b0 (fun _ _ => True) any).

Lemma rel_weaken Inv s (st : B * I) : rel b0 Inv any s st -> later s st.
Proof. intros (? & ? & _). by split. Qed.

Lemma sim_establish jids :
  sim (with_x later) (with_x fresh) (establish_missing_sessions show_debug rnds jids) (establish_missing_sessions show_debug rnds jids)
    (fun _ => with_x later).
Proof.
  assert (forall s1 s2, with_x (S2 := B * I) fresh s1 s2 -> with_x later s1 s2) as Hw
    by (intros [? ?] [? ?] [? ?]; split; [by eapply rel_weaken|done]).
  destruct jids as [|j jids]; [by apply sim_ret|]. cbn [establish_missing_sessions].
  set (l := j :: jids). clearbody l.
  eapply (sim_bind _ _ _ _ _ _ (fun bundles s1 s2 => with_x fresh s1 s2 /\ one_identity bundles)).
  - intros [s1 x1] [s2 x2] [Hs Hx]. cbn in Hx. subst x2. unfold on_resolver. cbn [fst snd].
    destruct (fetch_prekeys_for_identity_check l x1) as [o x'] eqn:E. cbn [fst snd]. split; [done|].
    destruct o; cbn [map_err]; [split; [by split|by eapply fetch_one_identity]|by apply Hw..].
  - intros bundles [s1 x1] [s2 x2] [ [Hs Hx] Hone]. cbn in Hx. subst x2.
    set (Inv a k := exists j b, bundle_get j bundles = Some b /\ to_protocol_address j = a /\ bu_identity_key b = k).
    assert (sim (with_x later) (with_x (rel (I := I) b0 Inv any)) (on_stores (process_bundles show_debug rnds 0 bundles l))
      (on_stores (process_bundles show_debug rnds 0 bundles l)) (fun _ => with_x later)) as Hsim; [|apply Hsim].
    { eapply sim_mono, sim_post, sim_on_stores, (sim_process_bundles (K := K) b0 Inv show_debug rnds bundles l 0).
    + intros [? ?] [? ?] [? ?]; split; [by eapply rel_weaken|done].
    + intros [] [? ?] [? ?] [? ?]; split; [by eapply rel_weaken|done].
    + intros j' b _ Hb. by exists j', b.
    + intros a k k' (j1 & c1 & H1 & <- & <-) (j2 & c2 & H2 & Hj & <-). by eapply Hone. }
    split; [|done]. destruct Hs as (Ha & Hf & _). split; [done|]. split; [|done]. intros a k Hk. by destruct (Hf a k Hk).
Qed.

Lemma sim_phases tasks extra :
  sim (with_x later) (with_x fresh) (encrypt_phases show_debug rnds tasks extra) (encrypt_phases show_debug rnds tasks extra)
    (fun _ => with_x later).
Proof.
  unfold encrypt_phases. eapply (sim_bind _ _ _ _ _ _ (fun _ => with_x fresh)).
  - intros s1 s2 [Hs Hx]. rewrite Hx.
    assert (sim (with_x later) (with_x fresh) (on_stores (session_map s2.2 tasks [] [])) (on_stores (session_map s2.2 tasks [] []))
      (fun _ => with_x fresh)) as Hsim; [|apply Hsim; by split].
    eapply sim_mono, sim_on_stores, (sim_session_map (K := K)). intros [? ?] [? ?] [? ?]; split; [by eapply rel_weaken|done].
  - intros m. eapply sim_bind; [apply sim_establish|]. intros u.
    apply sim_on_stores, sim_encrypt_tasks. done.
Qed.
End Inner.

(** ** Theory: flushing *)

Context (order_sessions : list ProtocolAddress -> list ProtocolAddress) (order_sessions_ok : forall l, order_sessions l ≡ₚ l).
Context (order_identities : list (ProtocolAddress * IdentityKey) -> list (ProtocolAddress * IdentityKey)).
Context (order_identities_ok : forall l, order_identities l ≡ₚ l).

(** The sessions to write are the dirty ones, once each. *)
Lemma dirty_sessions_spec b0 s b :
  sessions_agree b0 s b ->
  NoDup (take_dirty_sessions order_sessions s).*1
  /\ (forall a, a ∈ (take_dirty_sessions order_sessions s).*1 <-> a ∈ cs_dirty s)
  /\ (forall a r, (a, r) ∈ take_dirty_sessions order_sessions s -> view_session b a = Some r).
Proof.
  intros Ha. unfold take_dirty_sessions.
  assert (forall l, (forall a, a ∈ l -> a ∈ cs_dirty s) ->
    (omap (fun addr => match cs_cache s !! addr with Some (Some record) => Some (addr, record) | _ => None end) l).*1 = l) as Hfst.
  { induction l as [|a l IH]; intros Hl; [done|]. cbn. destruct (sa_dirty _ _ _ Ha a) as [r ->]; [apply Hl; by left|].
    cbn. f_equal. apply IH. intros a' H'. apply Hl. by right. }
  assert (forall a, a ∈ order_sessions (elements (cs_dirty s)) <-> a ∈ cs_dirty s) as Hel
    by (intros a; by rewrite order_sessions_ok, elem_of_elements).
  rewrite Hfst by (intros a; apply Hel). split; [rewrite order_sessions_ok; apply NoDup_elements|]. split; [exact Hel|].
  intros a r (addr & Hin & Hx)%list_elem_of_omap. rewrite <- (sa_view _ _ _ Ha). unfold cached_session.
  destruct (cs_cache s !! addr) as [ [rec|]|] eqn:E; try done. injection Hx as -> ->. by rewrite E.
Qed.

Lemma flush_sessions_spec s b (i : I) :
  sessions_agree (cs_inner s) s b ->
  exists b', flush_sessions show_debug (take_dirty_sessions order_sessions s) (cs_inner s, i) = (Ok tt, (b', i))
    /\ forall a, view_session b' a = view_session b a.
Proof.
  intros Ha. destruct (dirty_sessions_spec _ _ _ Ha) as (Hnd & Hel & Hv).
  assert (forall a, a ∉ (take_dirty_sessions order_sessions s).*1 -> view_session (cs_inner s) a = view_session b a) as Hclean.
  { intros a Hn. rewrite <- (sa_view _ _ _ Ha). symmetry. apply (sa_clean _ _ _ Ha). by rewrite <- Hel. }
  unfold flush_sessions. destruct (take_dirty_sessions order_sessions s) as [|e l] eqn:E.
  - exists (cs_inner s). split; [done|]. intros a. apply Hclean. apply not_elem_of_nil.
  - rewrite <- E in *. destruct (store_batch_ok (store_session_returns (I := I) (K := K)) store_session_other
      (take_dirty_sessions order_sessions s) (cs_inner s) Hnd) as (b' & Hst & Hin & Hout).
    exists b'. cbn [fst snd]. rewrite Hst. split; [done|]. intros a.
    destruct (decide (a ∈ (take_dirty_sessions order_sessions s).*1)) as [Hd|Hd].
    + apply list_elem_of_fmap in Hd as ([a' r] & -> & Hr). cbn. by rewrite (Hin _ _ Hr), (Hv _ _ Hr).
    + rewrite (Hout a Hd). by apply Hclean.
Qed.

Lemma flush_identities_run l (b : B) (i : I) :
  NoDup l.*1 ->
  exists i', flush_identities show_debug l (b, i) = (Ok tt, (b, i'))
    /\ (forall a k, (a, k) ∈ l -> identity_view i' a = Some k) /\ (forall a, a ∉ l.*1 -> identity_view i' a = identity_view i a).
Proof.
  unfold flush_identities. revert i. induction l as [|[a k] l IH]; intros i Hnd.
  - exists i. split; [done|]. split; [by intros ? ? ?%elem_of_nil|done].
  - cbn [fmap list_fmap fst] in Hnd. apply NoDup_cons in Hnd as [Hna Hnd].
    destruct (save_identity_view a k i) as (i1 & Hs & Hv1). destruct (IH i1 Hnd) as (i' & Hr & Hin & Hout).
    exists i'. cbn [mfor]. unfold mbind'. cbn [fst snd]. rewrite Hs. cbn [map_err omap_ok obind]. split; [exact Hr|]. split.
    + intros a' k' [ [= -> ->]|H]%elem_of_cons; [by rewrite (Hout a Hna), Hv1, decide_True|by apply Hin].
    + cbn [fmap list_fmap fst]. intros a' [Hne Hn]%not_elem_of_cons. by rewrite (Hout a' Hn), Hv1, decide_False.
Qed.

Lemma flush_identities_spec s (b : B) (i : I) :
  identities_agree s i ->
  exists i', flush_identities show_debug (take_dirty_identities order_identities s) (b, ci_inner s) = (Ok tt, (b, i'))
    /\ forall a, identity_view i' a = identity_view i a.
Proof.
  intros Ha. unfold take_dirty_identities. set (l := order_identities (map_to_list (ci_dirty_new s))).
  assert (l ≡ₚ map_to_list (ci_dirty_new s)) as Hl by apply order_identities_ok.
  destruct (flush_identities_run l b (ci_inner s)) as (i' & Hr & Hin & Hout); [rewrite Hl; apply NoDup_fst_map_to_list|].
  exists i'. split; [done|]. intros a. rewrite <- (ia_view _ _ Ha). destruct (ci_dirty_new s !! a) as [k|] eqn:E.
  - rewrite (ia_dirty _ _ Ha a k E). apply Hin. rewrite Hl. by apply elem_of_map_to_list.
  - rewrite (ia_clean _ _ Ha a E). apply Hout. rewrite Hl. intros ([a' k] & -> & Hk)%list_elem_of_fmap.
    apply elem_of_map_to_list in Hk. cbn in E. congruence.
Qed.
(** ** Theory: filling the cache *)

Lemma populated addrs (b : B) :
  exists s, populate_from_batch addrs (cached_sessions_new b) = (Ok tt, s) /\ sessions_agree b s b.
Proof.
  clear fetch_one_identity order_sessions_ok order_identities_ok order_sessions order_identities.
  assert (forall l m, (forall a o, m !! a = Some o -> o = view_session b a) ->
    forall a o, fold_left (fun m e => or_insert e m) (map (fun a => (a, view_session b a)) l) m !! a = Some o -> o = view_session b a) as Hfold.
  { induction l as [|x l IH]; intros m Hm; [done|]. cbn [map fold_left]. apply IH. unfold or_insert. cbn [fst snd].
    destruct (m !! x); [done|]. intros a o. destruct (decide (a = x)) as [->|Hne]; [rewrite lookup_insert_eq; by intros [= <-]|].
    rewrite lookup_insert_ne by done. apply Hm. }
  assert (forall m, (forall a o, m !! a = Some o -> o = view_session b a) -> sessions_agree b (mkCachedSessions b m ∅) b) as Hag.
  { intros m Hm. assert (forall a, cached_session (mkCachedSessions b m ∅) a = view_session b a) as Hv
      by (intros a; unfold cached_session; cbn; destruct (m !! a) eqn:E; [by rewrite (Hm _ _ E)|done]).
    split; [done|done|by intros a _|]. cbn. set_solver. }
  assert (forall a (o : option SessionRecord), (∅ : gmap ProtocolAddress _) !! a = Some o -> o = view_session b a) as H0
    by (intros a o; by rewrite lookup_empty).
  unfold populate_from_batch. destruct addrs as [|a l] eqn:E; [eexists; split; [done|]; by apply Hag|]. rewrite <- E.
  cbn [cached_sessions_new cs_inner]. rewrite (load_batch_ok (load_session_returns (I := I) (K := K))).
  eexists. split; [done|]. apply Hag. by apply Hfold.
Qed.

Lemma new_identities (i : I) : identities_agree (cached_identities_new i) i.
Proof. split; try done; intros; cbn in *; by rewrite ?lookup_empty in *. Qed.
End PipelineTheory.

(** The outcome and the stores, with and without the caches. *)
Lemma pipeline_equiv `{!Hkdf, !Hashes, !AesCbc, !Curve25519, !SignalProto} {B I K X : Type}
    `{HB : !SessionStore B, HBB : !BatchSessions B, HI : !IdentityKeyStore I, HPK : !PreKeyStore K, HR : !ReliableStores B I K,
      HSep : !SeparateStores B I, HT : !TofuStore I, HX : !SendContextResolver X}
    show_debug rnds order_sessions order_identities tasks extra (b : B) (i : I) (x : X) :
  (forall jids (x : X) bundles x', fetch_prekeys_for_identity_check jids x = (Ok bundles, x') -> one_identity bundles) ->
  (forall l, order_sessions l ≡ₚ l) -> (forall l, order_identities l ≡ₚ l) ->
  let plain := encrypt_phases show_debug rnds tasks extra (b, i, x) in
  let unified := encrypt_for_devices_unified show_debug rnds order_sessions order_identities tasks extra (b, i, x) in
  unified.1 = plain.1 /\ unified.2.2 = plain.2.2
  /\ match plain.1 with
     | Ok _ => (forall a, view_session unified.2.1.1 a = view_session plain.2.1.1 a)
               /\ (forall a, identity_view unified.2.1.2 a = identity_view plain.2.1.2 a)
     | _ => unified.2.1.1 = b
     end.
Proof.
  intros Hone Hos Hoi. unfold encrypt_for_devices_unified. destruct tasks as [|t l] eqn:Et; [done|]. rewrite <- Et. cbv zeta.
  destruct (populated (I := I) (K := K) (batch_addrs x tasks) b) as (s & Hp & Hs). rewrite Hp.
  destruct (sim_phases (K := K) show_debug rnds Hone b tasks extra (s, cached_identities_new i, x) (b, i, x)) as [Ho Hrel].
  { split; [|done]. split; [by split; [|apply new_identities]|]. split; [|done]. intros a k. cbn. by rewrite lookup_empty. }
  destruct (encrypt_phases show_debug rnds tasks extra (s, cached_identities_new i, x)) as [o [ [s' ci] x'] ].
  destruct (encrypt_phases show_debug rnds tasks extra (b, i, x)) as [o' [ [b' i'] x''] ]. cbn [fst snd] in *. subst o'.
  destruct o as [res| | |]; destruct Hrel as [ [ [Hsa Hia] _] Hx]; cbn [fst snd] in *; subst x'';
    [|by rewrite (sa_inner _ _ _ Hsa)..].
  rewrite <- (sa_inner _ _ _ Hsa) in Hsa.
  destruct (flush_sessions_spec (K := K) show_debug order_sessions Hos s' b' (ci_inner ci) Hsa) as (b2 & Hf1 & Hv1).
  destruct (flush_identities_spec show_debug order_identities Hoi ci b2 i' Hia) as (i2 & Hf2 & Hv2).
  unfold mbind'. rewrite Hf1, Hf2. done.
Qed.

(** C11: The caches of the send pipeline are invisible.  Encrypting for any list
    of devices through the caches has the outcome of the same steps on the
    stores themselves, node for node and error for error, whatever the order
    in which the dirty entries are written; on success the sessions and
    identities stored afterwards are the same at every address; when the
    pipeline fails, no session was stored at all.  The bundles of one answer
    must agree on the identity of an address. *)
Theorem cached_pipeline_equiv `{!Hkdf, !Hashes, !AesCbc, !Curve25519, !SignalProto} {B I K X : Type}
    `{HB : !SessionStore B, HBB : !BatchSessions B, HI : !IdentityKeyStore I, HPK : !PreKeyStore K, HR : !ReliableStores B I K,
      HSep : !SeparateStores B I, HT : !TofuStore I, HX : !SendContextResolver X}
    show_debug rnds order_sessions order_identities tasks extra (b : B) (i : I) (x : X) :
  (forall jids (x : X) bundles x', fetch_prekeys_for_identity_check jids x = (Ok bundles, x') -> one_identity bundles) ->
  (forall l, order_sessions l ≡ₚ l) -> (forall l, order_identities l ≡ₚ l) ->
  let plain := encrypt_phases show_debug rnds tasks extra (b, i, x) in
  let unified := encrypt_for_devices_unified show_debug rnds order_sessions order_identities tasks extra (b, i, x) in
  unified.1 = plain.1 /\ unified.2.2 = plain.2.2
  /\ match plain.1 with
     | Ok _ => (forall a, view_session unified.2.1.1 a = view_session plain.2.1.1 a)
               /\ (forall a, identity_view unified.2.1.2 a = identity_view plain.2.1.2 a)
     | _ => unified.2.1.1 = b
     end.
Proof. exact (pipeline_equiv show_debug rnds order_sessions order_identities tasks extra b i x). Qed.

(** When two identities of an address come in one call, the first of them new,
    the flush writes the first over the second. *)
Lemma stale_identity_flushed {B I : Type} `{HI : !IdentityKeyStore I, HT : !TofuStore I} show_debug order (b : B) (i : I) a k k' :
  (forall l, order l ≡ₚ l) -> identity_view i a = None -> k <> k' ->
  exists c s i', (cached_save_identity a k ;; cached_save_identity a k') (cached_identities_new i) = (Ok c, s)
    /\ cached_identity s a = Some k' /\ identity_view (ci_inner s) a = Some k'
    /\ flush_identities show_debug (take_dirty_identities order s) (b, ci_inner s) = (Ok tt, (b, i'))
    /\ identity_view i' a = Some k.
Proof.
  intros Hor Hn Hne. unfold cached_save_identity, cached_get_identity, mbind'.
  cbn [cached_identities_new ci_cache ci_inner]. rewrite lookup_empty, get_identity_view, Hn.
  cbn [set_identity_cache ci_cache ci_inner ci_dirty_new ci_identity_pair ci_registration_id]. rewrite lookup_insert_eq.
  destruct (public_eq k k') eqn:E; [by apply public_eq_spec in E|]. cbn [negb]. unfold inner_save_identity.
  cbn [cached_identities_new ci_cache ci_inner ci_dirty_new ci_identity_pair ci_registration_id].
  destruct (save_identity_view a k' i) as (ii & Hs & Hv). rewrite Hs. do 2 eexists.
  set (dn := <[a := k]> ∅ : gmap ProtocolAddress IdentityKey).
  assert (order (map_to_list dn) = [(a, k)]) as Ho.
  { assert (map_to_list dn ≡ₚ [(a, k)]) as Hm by (unfold dn; by rewrite map_to_list_insert, map_to_list_empty by apply lookup_empty).
    apply Permutation_singleton_r. etrans; [apply Hor|exact Hm]. }
  destruct (save_identity_view a k ii) as (i' & Hs' & Hv'). exists i'. split; [done|].
  unfold cached_identity, take_dirty_identities, set_identity_cache. cbn [ci_cache ci_inner ci_dirty_new ci_identity_pair ci_registration_id].
  rewrite lookup_insert_eq. fold dn. rewrite Ho. unfold flush_identities, mfor, mbind'. cbn [fst snd]. rewrite Hs'.
  split_and!; [done|by rewrite Hv, decide_True|done|by rewrite Hv', decide_True].
Qed.

(** ** Witness *)

(** The batch operations the trait provides. *)
Definition default_batch {B : Type} `{HB : !SessionStore B} : BatchSessions B.
Proof.
  refine {| load_sessions_batch := default_load_batch; store_sessions_batch := default_store_batch |}.
  - intros Hl l b. induction l as [|a l IH]; [done|]. cbn. by rewrite Hl, IH.
  - intros Hr Ho l. unfold default_store_batch. induction l as [|[a r] l IH]; intros b Hnd.
    + exists b. split; [done|]. split; [by intros ? ? ?%elem_of_nil|done].
    + cbn [fmap list_fmap fst] in Hnd. apply NoDup_cons in Hnd as [Hna Hnd]. destruct (Hr a r b) as [b1 H1].
      destruct (IH b1 Hnd) as (b' & H' & Hin & Hout). exists b'. cbn [mfor]. unfold mbind'. cbn [fst snd]. rewrite H1. split; [done|]. split.
      * intros a' r' [ [= -> ->]|H]%elem_of_cons; [rewrite (Hout a Hna); by apply (store_session_ok a r b)|by apply Hin].
      * cbn [fmap list_fmap fst]. intros a' [Hne Hn]%not_elem_of_cons. rewrite (Hout a' Hn). by apply (Ho a a' r b).
Defined.

Abbreviation tofu := (IdentityKeyPair * gmap ProtocolAddress IdentityKey)%type.
Definition toy_tofu_store : IdentityKeyStore tofu.
Proof.
  refine {| get_identity_key_pair i := Ok i.1; get_local_registration_id i := Ok 33;
            get_identity a i := Ok (i.2 !! a);
            is_trusted_identity a k d i := Ok (match i.2 !! a with None => true | Some s => public_eq s k end);
            save_identity a k i := (Ok (identity_change (i.2 !! a) k), (i.1, <[a := k]> i.2)) |}.
  intros a k d i c i' [= _ <-]. cbn. by rewrite lookup_insert_eq, (proj2 (public_eq_spec k k) eq_refl).
Defined.
Definition toy_tofu : @TofuStore tofu toy_tofu_store.
Proof.
  refine {| identity_view i a := i.2 !! a : option IdentityKey |}; [done|done|].
  intros a k i. eexists. split; [done|]. intros a'. cbn. case_decide; [subst; by rewrite lookup_insert_eq|by rewrite lookup_insert_ne].
Defined.
Definition toy_send_stores : @ReliableStores (ProtocolAddress -> option SessionRecord) tofu
  (Z -> option PreKeyRecord) toy_sessions toy_tofu_store toy_prekeys.
Proof. split; intros; repeat eexists. Defined.
Definition toy_send_separate : @SeparateStores (ProtocolAddress -> option SessionRecord) tofu toy_sessions toy_tofu_store.
Proof.
  split.
  - apply (@store_session_other _ _ _ _ toy_separate).
  - intros a a' k k' d i c i' [= _ <-] Hne. cbn. by rewrite lookup_insert_ne.
  - by intros a k i c i' [= _ <-].
Defined.
(** One device, whose bundle is always served. *)
Definition toy_device : Jid := pn_device (lit "5") 2.
Definition toy_resolver : SendContextResolver unit := {|
  resolve_devices _ x := (Ok [toy_device], x);
  fetch_prekeys_for_identity_check _ x := (Ok [(toy_device, toy_bundle)], x);
  get_lid_for_phone _ _ := None
|}.
Definition toy_draws (n : nat) : (bytes * bytes) * (bytes * bytes) := ((replicate 32 2, replicate 32 6), (replicate 32 2, replicate 32 6)).

Lemma cached_pipeline_equiv_witness :
  let run := @encrypt_for_devices_unified toy_hkdf toy_hashes toy_aes sum_curve toy_signal (fun _ => []) toy_draws unit toy_resolver
    _ tofu toy_sessions (@default_batch _ toy_sessions) toy_tofu_store (fun l => l) (fun l => l) [mkDeviceTask toy_device [1; 2; 3]] []
    (fun _ => None, (toy_identity 1, ∅), tt) in
  (exists nodes, run.1 = Ok (nodes, true) /\ length nodes = 1%nat) /\ is_Some (run.2.1.1 (to_protocol_address toy_device)).
Proof.
  intros run. destruct (@cached_pipeline_equiv toy_hkdf toy_hashes toy_aes sum_curve toy_signal _ tofu _ unit toy_sessions
    (@default_batch _ toy_sessions) toy_tofu_store toy_prekeys toy_send_stores toy_send_separate toy_tofu toy_resolver (fun _ => []) toy_draws
    (fun l => l) (fun l => l) [mkDeviceTask toy_device [1; 2; 3]] [] (fun _ => None) (toy_identity 1, ∅) tt) as (Ho & _ & Hv).
  - intros jids x bundles x' [= <- <-] j j' b b' Hb Hb'. cbn in Hb, Hb'. repeat case_decide; congruence.
  - done.
  - done.
  - split.
    + eexists. split; [unfold run; rewrite Ho; vm_compute; reflexivity|reflexivity].
    + match type of Hv with match ?o with _ => _ end => assert (exists r, o = Ok r) as [r Hr] by (eexists; vm_compute; reflexivity) end.
      rewrite Hr in Hv. destruct Hv as [Hv _]. specialize (Hv (to_protocol_address toy_device)).
      cbn [view_session toy_sessions] in Hv. unfold run. rewrite Hv. vm_compute. eexists. reflexivity.
Defined.
