(* ===== verification/Send.v ===== *)
(** * Send: the stanzas of [warp_core/src/send.rs], [warp_core/src/client/context.rs]

    How a message becomes a stanza: for a contact, encrypted for each of its
    devices and for the account's own ones; for another device of the account;
    for a group, under the sender key, which goes along to the devices that
    lack it.  The type of messages and the resolution of devices are
    interfaces.  The theorems compose with [Receive]: what is sent arrives. *)

From stdpp Require Import gmap.
From S2P Require Import Prelude RustStd Crypto Curve Jid Node Messages SenderKeys GroupCipher Session SessionCipher SessionRatchet PreKeys.
From S2P Require Import Noise Connection Device Requests Pairing DeviceStore KeyServer Persistence LidPn Registry Establish Retry Receive.
From S2P Require Import ReportingToken SendStores.

(** ** Data *)

Inductive EditAttribute :=
| EA_Empty | EA_MessageEdit | EA_PinInChat | EA_AdminEdit | EA_SenderRevoke | EA_AdminRevoke | EA_Unknown (s : str).

Definition edit_from_string (s : str) : EditAttribute :=
  if s =s [] then EA_Empty
  else if s =s lit "1" then EA_MessageEdit
  else if s =s lit "2" then EA_PinInChat
  else if s =s lit "3" then EA_AdminEdit
  else if s =s lit "7" then EA_SenderRevoke
  else if s =s lit "8" then EA_AdminRevoke
  else EA_Unknown s.

Definition edit_to_string_val (e : EditAttribute) : str :=
  match e with
  | EA_Empty => [] | EA_MessageEdit => lit "1" | EA_PinInChat => lit "2" | EA_AdminEdit => lit "3"
  | EA_SenderRevoke => lit "7" | EA_AdminRevoke => lit "8" | EA_Unknown _ => []
  end.

(** An edit that is there and not empty. *)
Definition real_edit (edit : option EditAttribute) : option EditAttribute :=
  match edit with Some EA_Empty | None => None | Some e => Some e end.

Record GroupInfo := mkGroupInfo {
  gi_participants : list Jid; gi_addressing_mode : AddressingMode; gi_lid_to_pn_map : gmap str Jid; gi_pn_to_lid_map : gmap str Jid
}.
Definition build_pn_to_lid_map (lid_to_pn_map : gmap str Jid) : gmap str Jid :=
  list_to_map (map (fun e => (user e.2, lid e.1)) (map_to_list lid_to_pn_map)).
Definition group_info_new (participants : list Jid) (mode : AddressingMode) : GroupInfo := mkGroupInfo participants mode ∅ ∅.
Definition with_lid_to_pn_map (participants : list Jid) (mode : AddressingMode) (m : gmap str Jid) : GroupInfo :=
  mkGroupInfo participants mode m (build_pn_to_lid_map m).
Definition set_lid_to_pn_map (m : gmap str Jid) (g : GroupInfo) : GroupInfo :=
  mkGroupInfo (gi_participants g) (gi_addressing_mode g) m (build_pn_to_lid_map m).
Definition phone_jid_for_lid_user (lid_user : str) (g : GroupInfo) : option Jid := gi_lid_to_pn_map g !! lid_user.
Definition lid_jid_for_phone_user (phone_user : str) (g : GroupInfo) : option Jid := gi_pn_to_lid_map g !! phone_user.
Definition phone_device_jid_to_lid (g : GroupInfo) (phone_device_jid : Jid) : Jid :=
  if is_pn phone_device_jid then
    match lid_jid_for_phone_user (user phone_device_jid) g with
    | Some lid_base => lid_device (user lid_base) (device phone_device_jid)
    | None => phone_device_jid
    end
  else phone_device_jid.

(** The parts of [wa::Message] that sending builds: a message sent by another
    device of the account, and a sender key for a group. *)
Class OutgoingMessage (M R : Type) `{HRM : !ReportMessage M R} := {
  om_device_sent : str -> M -> M;
  om_distribution : str -> bytes -> M
}.

(** [retain(|x| seen.insert(key(x)))] *)
Fixpoint retain_first {A Key} `{EqDecision Key} (key : A -> Key) (seen : list Key) (l : list A) : list A :=
  match l with
  | [] => []
  | x :: l => if decide (key x ∈ seen) then retain_first key seen l else x :: retain_first key (key x :: seen) l
  end.

Record SendState (B I G X : Type) := mkSendState { sd_stores : B * I; sd_sender_keys : G; sd_client : X }.
Arguments mkSendState {B I G X} _ _ _.
Arguments sd_stores {B I G X} _.
Arguments sd_sender_keys {B I G X} _.
Arguments sd_client {B I G X} _.

(** ** Sender keys *)

Section GroupKeys.
Context `{HK : !Hkdf, HS : !Hashes, HA : !AesCbc, HC : !Curve25519, HG : !SenderKeyProto}.
Context {G : Type} `{HSK : !SenderKeyStore G}.

(** [?] on a Signal error *)
Definition signal {A} (m : comp G SignalProtocolError A) : comp G SendError A :=
  fun g => let '(o, g) := m g in (map_err SE_Signal o, g).
Definition invalid_key_session : SendError := SE_Other (lit "Invalid SenderKey session: InvalidSenderKeySessionError").

Definition encrypt_group_message (group_jid sender_jid : Jid) (plaintext rnd : bytes) : comp G SendError SenderKeyMessage :=
  let name := sender_key_name group_jid sender_jid in
  let! loaded := signal (load_sender_key name) in
  let! record := mlift (ok_or (SE_Signal (no_record name)) loaded) in
  let! state := mlift (ok_or invalid_key_session (sender_key_state record)) in
  let! chain_key := mlift (ok_or (SE_Other (lit "Invalid SenderKey session: missing chain key")) (sender_chain_key state)) in
  let message_keys := sender_message_key chain_key in
  let '(enc, ciphertext) := aes_256_cbc_encrypt_into plaintext (smk_cipher_key message_keys) (smk_iv message_keys) [] in
  let! _ := mlift (map_err (fun _ => SE_Other (lit "AES encryption failed")) enc) in
  let! signing_key := mlift (ok_or (SE_Other (lit "Invalid SenderKey session: missing signing key: InvalidSenderKeySessionError"))
                               (signing_key_private state)) in
  let! skm := mlift (map_err SE_Signal (skm_new SENDERKEY_MESSAGE_CURRENT_VERSION (chain_id state) (smk_iteration message_keys)
                                          ciphertext rnd signing_key)) in
  let! next := mlift (map_err SE_Signal (sck_next chain_key)) in
  signal (store_sender_key name (set_state 0 (set_sender_chain_key next state) record)) ;;
  mret skm.

(** The draws: the key pair, the [u32] of the chain id, the seed. *)
Definition create_sender_key_distribution_message_for_group (rnd_pair : bytes) (rnd_id : u32) (rnd_seed : bytes)
    (group_jid own_sending_jid : Jid) : comp G SendError bytes :=
  let name := sender_key_name group_jid own_sending_jid in
  let! loaded := signal (load_sender_key name) in
  let record := some_or record_new_empty loaded in
  let! record :=
    match sender_key_state record with
    | Some _ => mret record
    | None =>
        let signing_key := key_pair_generate rnd_pair in
        let chain_id := Z.shiftr rnd_id 1 in
        let '(added, record) := add_sender_key_state chain_id 0 rnd_seed (kp_public signing_key) (Some (kp_private signing_key)) record in
        let! _ := mlift (map_err SE_Signal added) in
        signal (store_sender_key name record) ;;
        mret record
    end in
  let! state := mlift (ok_or (SE_Other (lit "Invalid SK state: InvalidSenderKeySessionError")) (sender_key_state record)) in
  let! chain_key := mlift (ok_or (SE_Other (lit "Missing chain key")) (sender_chain_key state)) in
  let! version := mlift (if message_version state <? 256 then Ok (message_version state)
                         else Err (SE_Other (lit "Invalid sender key message version: out of range integral type conversion attempted"))) in
  let! signing := mlift (ok_or (SE_Other (lit "Missing pub key: InvalidSenderKeySessionError")) (signing_key_public state)) in
  let! skdm := mlift (map_err SE_Signal (skdm_new version (chain_id state) (sck_iteration chain_key) (sck_chain_key chain_key) signing)) in
  mret (skdm_serialized skdm).
End GroupKeys.

(** ** Stanzas *)

Section Stanzas.
Context `{HK : !Hkdf, HS : !Hashes, HA : !AesCbc, HC : !Curve25519, HP : !SignalProto, HG : !SenderKeyProto, HV : !AdvProto}.
Context {M R B I G X : Type} `{HRM : !ReportMessage M R, HOM : !OutgoingMessage M R}.
Context `{HB : !SessionStore B, HBB : !BatchSessions B, HI : !IdentityKeyStore I, HSK : !SenderKeyStore G, HX : !SendContextResolver X}.
(** the texts of errors, the order of the dirty sets, and the text of a hash *)
Context (show_debug : SignalProtocolError -> str).
Context (order_sessions : list ProtocolAddress -> list ProtocolAddress).
Context (order_identities : list (ProtocolAddress * IdentityKey) -> list (ProtocolAddress * IdentityKey)).
Context (b64_url_no_pad : bytes -> str).
Abbreviation sending := (SendState B I G X).

(** What is drawn for a stanza: the message secret, the paddings, the keys of
    new sessions, those of a new sender key and of the signature. *)
Record Draws := mkDraws {
  dr_secret : bytes; dr_pad : u8; dr_other_pad : u8; dr_sessions : nat -> (bytes * bytes) * (bytes * bytes);
  dr_pair : bytes; dr_chain_id : u32; dr_seed : bytes; dr_signature : bytes
}.
Context (dr : Draws).

Definition on_pipeline {A} (m : comp ((B * I) * X) SendError A) : comp sending SendError A :=
  fun s => let '(o, (st, x)) := m (sd_stores s, sd_client s) in (o, mkSendState st (sd_sender_keys s) x).
Definition on_client {A} (m : comp X str A) : comp sending SendError A :=
  fun s => let '(o, x) := m (sd_client s) in (map_err SE_Other o, mkSendState (sd_stores s) (sd_sender_keys s) x).
Definition on_group_keys {A} (m : comp G SendError A) : comp sending SendError A :=
  fun s => let '(o, g) := m (sd_sender_keys s) in (o, mkSendState (sd_stores s) g (sd_client s)).
(** A computation that cannot fail with an error. *)
Definition on_token {A} (o : outcome unit A) : outcome SendError A := map_err (fun _ => SE_Other []) o.

Definition message_for_encryption (reporting_result : option ReportingTokenResult) (message : M) : M :=
  match reporting_result with
  | Some result => prepare_message_with_context message (tr_message_secret result)
  | None => message
  end.

Definition enc_extra_attrs (edit : option EditAttribute) : index_map str :=
  match real_edit edit with Some _ => im_insert (lit "decrypt-fail") (lit "hide") [] | None => [] end.
Definition edit_attrs (edit : option EditAttribute) (attrs : index_map str) : index_map str :=
  match real_edit edit with Some e => im_insert (lit "edit") (edit_to_string_val e) attrs | None => attrs end.

Definition identity_nodes (includes_prekey_message : bool) (account : option AdvSigned) : list Node :=
  match includes_prekey_message, account with
  | true, Some acc => [build (b_bytes (builder_new (lit "device-identity")) (adv_signed_encode acc))]
  | _, _ => []
  end.
Definition reporting_nodes (reporting_result : option ReportingTokenResult) : list Node :=
  match reporting_result with Some result => [build_reporting_node result] | None => [] end.
Definition participants_node (nodes : list Node) : Node := build (b_children (builder_new (lit "participants")) nodes).

(** The account's other devices; everything else is a recipient. *)
Definition is_own_device (own_jid device_jid : Jid) : bool :=
  (user device_jid =s user own_jid) && negb (device device_jid =? device own_jid).

Definition dm_tasks (own_jid : Jid) (recipient_plaintext own_devices_plaintext : bytes) (all_devices : list Jid) : list DeviceTask :=
  map (fun j => mkDeviceTask j recipient_plaintext) (List.filter (fun j => negb (is_own_device own_jid j)) all_devices)
  ++ map (fun j => mkDeviceTask j own_devices_plaintext) (List.filter (is_own_device own_jid) all_devices).

Definition prepare_dm_stanza (own_jid : Jid) (account : option AdvSigned) (to_jid : Jid) (message : M) (request_id : str)
    (edit : option EditAttribute) : comp sending SendError Node :=
  let! reporting_result := mlift (on_token (generate_reporting_token (dr_secret dr) message request_id to_jid to_jid None)) in
  let message' := message_for_encryption reporting_result message in
  let recipient_plaintext := pad_message_v2 (dr_pad dr) (rm_encode message') in
  let own_devices_plaintext := pad_message_v2 (dr_other_pad dr) (rm_encode (om_device_sent (jid_to_string to_jid) message')) in
  let participants := map to_non_ad (retain_first (fun j => (user j, server j)) [] [to_jid; own_jid]) in
  let! all_devices := on_client (resolve_devices participants) in
  let all_devices := retain_first (fun j => j) [] all_devices in
  let tasks := dm_tasks own_jid recipient_plaintext own_devices_plaintext all_devices in
  let! encrypted := on_pipeline (encrypt_for_devices_unified show_debug (dr_sessions dr) order_sessions order_identities tasks (enc_extra_attrs edit)) in
  let content := participants_node encrypted.1 :: identity_nodes encrypted.2 account ++ reporting_nodes reporting_result in
  let attrs := im_insert (lit "type") (lit "text") (im_insert (lit "id") request_id (im_insert (lit "to") (jid_to_string to_jid) [])) in
  mret (build (b_children (b_attrs_all (builder_new (lit "message")) (edit_attrs edit attrs)) content)).

Definition prepare_peer_stanza (to_jid : Jid) (message : M) (request_id : str) : comp sending SendError Node :=
  let plaintext := pad_message_v2 (dr_pad dr) (rm_encode message) in
  let! encrypted := fun s =>
    let '(o, st) := message_encrypt plaintext (to_protocol_address to_jid) (sd_stores s) in
    (map_err SE_Signal o, mkSendState st (sd_sender_keys s) (sd_client s)) in
  let! payload := mlift (ok_or (SE_Other (lit "Unexpected peer encryption message type")) (enc_payload encrypted)) in
  let '(enc_type, _, serialized) := payload in
  let enc_node := build (b_bytes (b_attrs_all (builder_new (lit "enc")) [(lit "v", lit "2"); (lit "type", enc_type)]) serialized) in
  mret (build (b_children (b_attrs_all (builder_new (lit "message"))
    [(lit "to", jid_to_string to_jid); (lit "id", request_id); (lit "type", lit "text"); (lit "category", lit "peer")]) [enc_node])).

(** *** Groups *)

Definition own_sending_jid (g : GroupInfo) (own_jid own_lid : Jid) : Jid :=
  match gi_addressing_mode g with AM_Lid => own_lid | AM_Pn => own_jid end.

Definition with_participant (own_base_jid : Jid) (g : GroupInfo) : GroupInfo :=
  if existsb (fun p => is_same_user_as p own_base_jid) (gi_participants g) then g
  else mkGroupInfo (gi_participants g ++ [own_base_jid]) (gi_addressing_mode g) (gi_lid_to_pn_map g) (gi_pn_to_lid_map g).

(** The address under which the devices of a participant are asked for. *)
Definition query_jid (g : GroupInfo) (jid : Jid) : Jid :=
  let base_jid := to_non_ad jid in
  if is_lid base_jid then
    match phone_jid_for_lid_user (user base_jid) g with Some phone_jid => to_non_ad phone_jid | None => base_jid end
  else base_jid.

Definition jids_to_resolve (g : GroupInfo) (own_base_jid : Jid) : list Jid :=
  let jids := map (query_jid g) (gi_participants g) in
  let own_jid_to_check := if is_lid own_base_jid
                          then match phone_jid_for_lid_user (user own_base_jid) g with Some pn => to_non_ad pn | None => own_base_jid end
                          else own_base_jid in
  let jids := if existsb (fun p => is_same_user_as p own_jid_to_check) jids then jids else jids ++ [own_jid_to_check] in
  retain_first (fun j => (user j, server j)) [] jids.

(** Which of the resolved devices get the sender key. *)
Definition skdm_devices (g : GroupInfo) (own_sending : Jid) (resolved_list : list Jid) : list Jid :=
  let l := match gi_addressing_mode g with AM_Lid => map (phone_device_jid_to_lid g) resolved_list | AM_Pn => resolved_list end in
  let l := retain_first jid_to_string [] l in
  List.filter (fun j => negb ((user j =s user own_sending) && (device j =? device own_sending)) && negb (is_hosted j)) l.

Definition distribution_list (g : GroupInfo) (own_sending : Jid) (force_skdm_distribution : bool) (skdm_target_devices : option (list Jid))
    : comp sending SendError (option (list Jid)) :=
  match skdm_target_devices with
  | Some [] => mret None
  | Some target_devices => mret (Some target_devices)
  | None =>
      if force_skdm_distribution then
        let! resolved_list := on_client (resolve_devices (jids_to_resolve g (to_non_ad own_sending))) in
        mret (Some (skdm_devices g own_sending resolved_list))
      else mret None
  end.

(** The sender key for the devices of the list. *)
Definition distribute (own_sending to_jid : Jid) (account : option AdvSigned) (devices : list Jid) : comp sending SendError (list Node) :=
  let! skdm := on_group_keys (create_sender_key_distribution_message_for_group (dr_pair dr) (dr_chain_id dr) (dr_seed dr) to_jid own_sending) in
  let plaintext := pad_message_v2 (dr_other_pad dr) (rm_encode (om_distribution (jid_to_string to_jid) skdm)) in
  let! encrypted := on_pipeline (encrypt_for_devices show_debug (dr_sessions dr) order_sessions order_identities devices plaintext []) in
  mret (participants_node encrypted.1 :: identity_nodes encrypted.2 account).

Definition group_attrs (g : GroupInfo) (to_jid : Jid) (request_id : str) (edit : option EditAttribute) (devices : option (list Jid)) : index_map str :=
  let attrs := im_insert (lit "type") (lit "text") (im_insert (lit "id") request_id (im_insert (lit "to") (jid_to_string to_jid) [])) in
  let attrs := match gi_addressing_mode g with AM_Lid => im_insert (lit "addressing_mode") (lit "lid") attrs | AM_Pn => attrs end in
  let attrs := edit_attrs edit attrs in
  match devices with
  | Some devices => match participant_list_hash b64_url_no_pad devices with Ok phash => im_insert (lit "phash") phash attrs | _ => attrs end
  | None => attrs
  end.

(** The group information the caller lent is changed, whatever the outcome. *)
Definition prepare_group_stanza (own_jid own_lid : Jid) (account : option AdvSigned) (to_jid : Jid) (message : M) (request_id : str)
    (force_skdm_distribution : bool) (skdm_target_devices : option (list Jid)) (edit : option EditAttribute)
    : comp (sending * GroupInfo) SendError Node :=
  fun '(s, g) =>
    let own_sending := own_sending_jid g own_jid own_lid in
    match on_token (generate_reporting_token (dr_secret dr) message request_id to_jid to_jid None) with
    | Ok reporting_result =>
        let message' := message_for_encryption reporting_result message in
        let g := with_participant (to_non_ad own_sending) g in
        let '(o, s) :=
          (let! devices := distribution_list g own_sending force_skdm_distribution skdm_target_devices in
           let! key_nodes := match devices with Some devices => distribute own_sending to_jid account devices | None => mret [] end in
           let plaintext := pad_message_v2 (dr_pad dr) (rm_encode message') in
           let! skmsg := on_group_keys (encrypt_group_message to_jid own_sending plaintext (dr_signature dr)) in
           let enc_attrs := match real_edit edit with
                            | Some _ => im_insert (lit "decrypt-fail") (lit "hide")
                                          (im_insert (lit "type") (lit "skmsg") (im_insert (lit "v") (lit "2") []))
                            | None => im_insert (lit "type") (lit "skmsg") (im_insert (lit "v") (lit "2") [])
                            end in
           let content_node := build (b_bytes (b_attrs_all (builder_new (lit "enc")) enc_attrs) (skm_serialized skmsg)) in
           mret (build (b_children (b_attrs_all (builder_new (lit "message")) (group_attrs g to_jid request_id edit devices))
                          (key_nodes ++ content_node :: reporting_nodes reporting_result)))) s in
        (o, (s, g))
    | Err e => (Err e, (s, g))
    | Panic => (Panic, (s, g))
    | NoFuel => (NoFuel, (s, g))
    end.
End Stanzas.

(** ** Theory: what one address sees *)

Section Locality.
Context `{HK : !Hkdf, HS : !Hashes, HA : !AesCbc, HC : !Curve25519, HP : !SignalProto}.
Context {B I K : Type} `{HB : !SessionStore B, HI : !IdentityKeyStore I, HPK : !PreKeyStore K}.
Context `{HR : !ReliableStores B I K, HSep : !SeparateStores B I, HT : !TofuStore I}.
Abbreviation st := (B * I)%type.

(** Two states that agree at an address and on the own keys. *)
Definition same_at (a : ProtocolAddress) (s s' : st) : Prop :=
  view_session s.1 a = view_session s'.1 a /\ identity_view s.2 a = identity_view s'.2 a
  /\ get_identity_key_pair s.2 = get_identity_key_pair s'.2 /\ get_local_registration_id s.2 = get_local_registration_id s'.2.

#[export] Instance same_at_equiv a : Equivalence (same_at a).
Proof.
  split.
  - by intros s.
  - intros s s' (? & ? & ? & ?). by split_and!.
  - intros s s' s'' (? & ? & ? & ?) (? & ? & ? & ?). split_and!; congruence.
Qed.

(** A computation that does not touch the address, and one that depends on the
    address only. *)
Definition frames {E A} (a : ProtocolAddress) (m : comp st E A) : Prop := forall s, same_at a s (m s).2.
Abbreviation local a m := (sim (same_at a) (same_at a) m m (fun _ => same_at a)).

Lemma frames_bind {E A C} a (m : comp st E A) (k : A -> comp st E C) :
  frames a m -> (forall x, frames a (k x)) -> frames a (mbind' m k).
Proof.
  intros Hm Hk s. specialize (Hm s). unfold mbind'. destruct (m s) as [ [x| | |] s']; try done. etrans; [exact Hm|apply Hk].
Qed.

Lemma frames_pure {E A} a (o : outcome E A) : frames a (mlift o).
Proof. by intros s. Qed.

Lemma frames_caught {E F A} a (m : comp st E A) : frames a m -> frames (E := F) a (caught m).
Proof. intros Hm s. specialize (Hm s). unfold caught. by destruct (m s) as [ [x| | |] s']. Qed.

Lemma frames_store a a' r : a' <> a -> frames a' (on_sessions (I := I) (store_session a r)).
Proof.
  intros Hne [b i]. unfold on_sessions. cbn. destruct (store_session_returns (I := I) (K := K) a r b) as [b' E]. rewrite E.
  split_and!; try done. cbn. by rewrite (store_session_other _ _ _ _ _ E Hne).
Qed.

Lemma frames_save a a' k : a' <> a -> frames a' (on_identities (B := B) (save_identity a k)).
Proof.
  intros Hne [b i]. unfold on_identities. cbn. destruct (save_identity_view a k i) as (i' & E & Hv). rewrite E.
  destruct (save_identity_own _ _ _ _ _ E) as [H1 H2]. split_and!; try done. cbn. by rewrite Hv, decide_False.
Qed.

Lemma local_store a r : local a (on_sessions (I := I) (store_session a r)).
Proof.
  intros [b i] [b' i'] (Hv & Hi & Hp & Hr). unfold on_sessions. cbn in *.
  destruct (store_session_returns (I := I) (K := K) a r b) as [c E], (store_session_returns (I := I) (K := K) a r b') as [c' E'].
  rewrite E, E'. cbn. split; [done|]. split_and!; try done. cbn. by rewrite (store_session_ok _ _ _ _ E), (store_session_ok _ _ _ _ E').
Qed.

Lemma local_save a k : local a (on_identities (B := B) (save_identity a k)).
Proof.
  intros [b i] [b' i'] (Hv & Hi & Hp & Hr). unfold on_identities. cbn in *.
  destruct (save_identity_view a k i) as (c & E & Hc), (save_identity_view a k i') as (c' & E' & Hc').
  destruct (save_identity_own _ _ _ _ _ E), (save_identity_own _ _ _ _ _ E'). rewrite E, E', Hi. cbn. split; [done|].
  split_and!; cbn; [done|by rewrite Hc, Hc', !decide_True|congruence|congruence].
Qed.

Lemma local_load a : local a (load_at (B := B) (I := I) a).
Proof. intros [b i] [b' i'] H. pose proof H as (Hv & _). unfold load_at. cbn in *. by rewrite !(load_session_returns (I := I) (K := K)), Hv. Qed.

Lemma local_trusted a k d : local a (trusted_at (B := B) (I := I) a k d).
Proof. intros [b i] [b' i'] H. pose proof H as (_ & Hi & _). unfold trusted_at. cbn in *. by rewrite !trusted_view, Hi. Qed.

Lemma local_lift {E A} a (o : outcome E A) : local a (mlift o).
Proof. intros s s' Hs. split; [done|]. cbn. by destruct o. Qed.

Lemma message_encrypt_frames p a a' : a' <> a -> frames a' (message_encrypt p a).
Proof.
  intros Hne. unfold message_encrypt. apply frames_bind; [by intros ?|intros ?]. do 2 (apply frames_bind; [apply frames_pure|intros ?]).
  destruct (encrypt_with_state _ _ _) as [o s']. apply frames_bind; [apply frames_pure|intros ?]. apply frames_bind; [by intros ?|intros [|] ].
  - apply frames_bind; [by apply frames_save|intros ?]. apply frames_bind; [by apply frames_store|intros ?]. apply frames_pure.
  - apply frames_pure.
Qed.

Lemma process_bundle_frames a bundle r a' : a' <> a -> frames a' (process_prekey_bundle a bundle r).
Proof.
  intros Hne. unfold process_prekey_bundle. apply frames_bind; [by intros ?|intros [|] ]; [|apply frames_pure]. cbn [negb].
  destruct (negb _); [apply frames_pure|]. do 2 (apply frames_bind; [by intros ?|intros ?]). apply frames_bind; [apply frames_pure|intros ?].
  apply frames_bind; [by intros ?|intros ?]. apply frames_bind; [by apply frames_save|intros ?]. by apply frames_store.
Qed.

Lemma message_encrypt_local p a : local a (message_encrypt p a).
Proof.
  unfold message_encrypt. eapply sim_bind; [apply local_load|intros ?]. do 2 (eapply sim_bind; [apply local_lift|intros ?]).
  destruct (encrypt_with_state _ _ _) as [o s']. eapply sim_bind; [apply local_lift|intros ?].
  eapply sim_bind; [apply local_trusted|intros [|] ]; cbn [negb]; [|apply (local_lift a (Err _))].
  eapply sim_bind; [apply local_save|intros ?]. eapply sim_bind; [apply local_store|intros ?]. apply (local_lift a (Ok _)).
Qed.

Lemma process_bundle_local a bundle r : local a (process_prekey_bundle a bundle r).
Proof.
  unfold process_prekey_bundle. eapply sim_bind; [apply local_trusted|intros [|] ]; cbn [negb]; [|apply (local_lift a (Err _))].
  destruct (negb _); [apply (local_lift a (Err _))|]. eapply sim_bind; [apply local_load|intros ?].
  eapply (sim_bind _ _ _ _ _ _ (fun _ => same_at a)); [|intros ?].
  { intros s s' Hs. pose proof Hs as (_ & _ & Hp & _). cbn. rewrite Hp. split; [done|]. by destruct (get_identity_key_pair s'.2). }
  eapply sim_bind; [apply local_lift|intros ?].
  eapply (sim_bind _ _ _ _ _ _ (fun _ => same_at a)); [|intros ?].
  { intros s s' Hs. pose proof Hs as (_ & _ & _ & Hp). cbn. rewrite Hp. split; [done|]. by destruct (get_local_registration_id s'.2). }
  eapply sim_bind; [apply local_save|intros ?]. apply local_store.
Qed.

(** A bundle that is signed is taken, or its identity is not trusted. *)
Lemma process_bundle_total a bundle r (s : st) ida lid :
  get_identity_key_pair s.2 = Ok ida -> get_local_registration_id s.2 = Ok lid ->
  verify_signature (bu_identity_key bundle) (public_serialize (sp_public_key (bu_ec_signed_pre_key bundle)))
    (sp_signature (bu_ec_signed_pre_key bundle)) = true ->
  (process_prekey_bundle a bundle r s).1 = if match identity_view s.2 a with None => true | Some k => public_eq k (bu_identity_key bundle) end
                                           then Ok tt else Err (UntrustedIdentity a).
Proof.
  intros Hi Hl Hsig. destruct s as [b i]. cbn [fst snd] in *.
  destruct (match identity_view i a with None => true | Some k => public_eq k (bu_identity_key bundle) end) eqn:Et.
  - destruct (alice_total (mkAlice ida (key_pair_generate r.1) (bu_identity_key bundle) (sp_public_key (bu_ec_signed_pre_key bundle))
      (bu_pre_key_public bundle) (sp_public_key (bu_ec_signed_pre_key bundle))) r.2) as [al Hal].
    destruct (process_bundle_run (K := K) a bundle r b i ida lid al) as (b' & i' & E & _); try done; [by rewrite trusted_view, Et|by rewrite E].
  - unfold process_prekey_bundle, mbind', trusted_at. cbn [fst snd]. rewrite trusted_view, Et. done.
Qed.
End Locality.

(** ** Theory: encrypting never panics *)

Lemma returns_obind {E A C} (m : outcome E A) (k : A -> outcome E C) : returns m -> (forall a, returns (k a)) -> returns (obind m k).
Proof. intros Hm Hk. by destruct m; cbn in *. Qed.
Lemma returns_map_err {E F A} (f : E -> F) (m : outcome E A) : returns m -> returns (map_err f m).
Proof. by destruct m. Qed.
Lemma ok_or_returns {E A} (e : E) (o : option A) : returns (ok_or e o).
Proof. by destruct o. Qed.
Lemma comp_returns_bind {S E A C} (m : comp S E A) (k : A -> comp S E C) s :
  returns (m s).1 -> (forall a s', returns (k a s').1) -> returns (mbind' m k s).1.
Proof. intros Hm Hk. unfold mbind'. by destruct (m s) as [ [] ?]; cbn in *. Qed.

Section Returns.
Context `{HK : !Hkdf, HS : !Hashes, HA : !AesCbc, HC : !Curve25519, HP : !SignalProto}.

Lemma public_deserialize_returns v : returns (public_deserialize v).
Proof. unfold public_deserialize. destruct v as [|t v]; [done|]. apply returns_obind; [unfold key_type_try_from; by case_match|]. intros ?. by case_match. Qed.

Lemma encrypt_with_state_returns p a s : returns (encrypt_with_state p a s).1.
Proof.
  assert (forall v, returns (identity_decode v)) as Hid by (intros v; unfold identity_decode; apply returns_map_err, public_deserialize_returns).
  unfold encrypt_with_state.
  apply comp_returns_bind; [apply returns_obind; [apply ok_or_returns|]; intros c; unfold chain_key_from_pb|intros ck s1].
  { do 2 (apply returns_obind; [apply ok_or_returns|intros ?]). apply returns_obind; [unfold to_array; by case_match|intros ?].
    by apply returns_obind; [apply ok_or_returns|]. }
  apply comp_returns_bind; [unfold sender_ratchet_key; cbn; destruct (sender_chain s); [|done];
    apply returns_obind; [apply ok_or_returns|intros ?]; apply returns_map_err, public_deserialize_returns|intros ? ?].
  apply comp_returns_bind; [by destruct (_ <? _)|intros ? ?].
  apply comp_returns_bind; [by apply returns_map_err|intros ? ?].
  apply comp_returns_bind; [unfold remote_identity_key; cbn; destruct (some_or _ _); [done|];
    apply returns_obind; [by apply returns_map_err|done]|intros ? ?].
  apply comp_returns_bind; [apply ok_or_returns|intros ? ?]. unfold aes_256_cbc_encrypt_into.
  destruct (key_iv_ok _ _); (apply comp_returns_bind; [done|intros ? ?]).
  1,2: apply comp_returns_bind; [unfold unacknowledged_pre_key_message_items; cbn; destruct (pending_pre_key s); [|done];
    apply returns_obind; [apply ok_or_returns|intros ?]; apply returns_obind; [apply returns_map_err, public_deserialize_returns|done]|intros items ?].
  1,2: apply comp_returns_bind; [unfold sm_new; cbn; apply returns_obind; [unfold compute_mac; by destruct (negb _)|done]|intros ? ?].
  1,2: apply comp_returns_bind; [by destruct items|done].
Qed.
End Returns.

(** ** Theory: every device is reached *)

Section Reach.
Context `{HK : !Hkdf, HS : !Hashes, HA : !AesCbc, HC : !Curve25519, HP : !SignalProto}.
Context {B I K X : Type} `{HB : !SessionStore B, HI : !IdentityKeyStore I, HPK : !PreKeyStore K, HX : !SendContextResolver X}.
Context `{HR : !ReliableStores B I K, HSep : !SeparateStores B I, HT : !TofuStore I}.
Context (show_debug : SignalProtocolError -> str) (rnds : nat -> (bytes * bytes) * (bytes * bytes)).
Abbreviation st := (B * I)%type.

Lemma message_encrypt_returns p a (s : st) : returns (message_encrypt p a s).1.
Proof.
  unfold message_encrypt. apply comp_returns_bind; [unfold load_at; cbn; by rewrite (load_session_returns (I := I) (K := K))|intros ? ?].
  apply comp_returns_bind; [apply ok_or_returns|intros rec ?]. apply comp_returns_bind; [apply ok_or_returns|intros state ?].
  pose proof (encrypt_with_state_returns p a state) as He. destruct (encrypt_with_state p a state) as [o s2].
  apply comp_returns_bind; [exact He|intros res ?]. apply comp_returns_bind; [unfold trusted_at; cbn; by rewrite trusted_view|intros t s3].
  destruct t; [|done]. cbn [negb].
  apply comp_returns_bind; [unfold on_identities; cbn; destruct (save_identity_view a res.2 s3.2) as (? & -> & _); done|intros ? s4].
  apply comp_returns_bind; [|done]. unfold on_sessions. cbn.
  by destruct (store_session_returns (I := I) (K := K) a (set_session_state s2 rec) s4.1) as [? ->].
Qed.

(** Where the message for a device is encrypted, and whether a session is made. *)
Definition plan (x : X) (b : B) (j : Jid) : Jid * bool :=
  match view_session b (to_protocol_address j) with
  | Some _ => (j, false)
  | None =>
      if is_pn j then
        match get_lid_for_phone (user j) x with
        | Some l => match view_session b (to_protocol_address (lid_device l (device j))) with
                    | Some _ => (lid_device l (device j), false)
                    | None => (j, true)
                    end
        | None => (j, true)
        end
      else (j, true)
  end.

Lemma has_session_plain a (s : st) :
  has_session_at a s = (Ok (match view_session s.1 a with Some _ => true | None => false end), s).
Proof.
  unfold has_session_at, mbind', caught. cbn [s_load_session plain_stores]. unfold load_at. rewrite (load_session_returns (I := I) (K := K)).
  cbn. by destruct (view_session s.1 a).
Qed.

Lemma encryption_jid_plain x j (s : st) : session_encryption_jid x j s = (Ok (plan x s.1 j), s).
Proof.
  unfold session_encryption_jid, plan, mbind'. rewrite has_session_plain. destruct (view_session s.1 (to_protocol_address j)); [done|].
  destruct (is_pn j); [|done]. destruct (get_lid_for_phone _ _); [|done]. rewrite has_session_plain. by destruct (view_session s.1 _).
Qed.

Definition needing (x : X) (b : B) (tasks : list DeviceTask) : list Jid :=
  List.filter (fun j => (plan x b j).2) (map dt_device_jid tasks).

Lemma session_map_plain x tasks m l (s : st) :
  session_map x tasks m l s
  = (Ok (rev (map (fun t => (dt_device_jid t, (plan x s.1 (dt_device_jid t)).1)) tasks) ++ m, l ++ needing x s.1 tasks), s).
Proof.
  revert m l. induction tasks as [|t tasks IH]; intros m l; cbn [session_map]; [by rewrite app_nil_r|].
  unfold mbind'. rewrite encryption_jid_plain, IH. unfold needing. cbn [map List.filter rev]. rewrite <- app_assoc. cbn [app].
  destruct (plan x s.1 (dt_device_jid t)) as [j' [|] ]; cbn [fst snd]; [by rewrite <- app_assoc|done].
Qed.

Lemma jid_get_plan (f : Jid -> Jid) tasks j :
  j ∈ map dt_device_jid tasks -> jid_get j (rev (map (fun t => (dt_device_jid t, f (dt_device_jid t))) tasks)) = Some (f j).
Proof.
  intros Hj. assert (forall l, (forall k v, (k, v) ∈ l -> v = f k) -> j ∈ l.*1 -> jid_get j l = Some (f j)) as H.
  { induction l as [|[k v] l IH]; intros Hl; [by intros ?%elem_of_nil|]. cbn [fmap list_fmap fst jid_get]. case_decide as E.
    - intros _. subst k. f_equal. apply Hl. by left.
    - intros [->|Hin]%elem_of_cons; [done|]. apply IH; [|done]. intros k' v' Hkv. apply Hl. by right. }
  apply H.
  - intros k v. rewrite elem_of_rev. intros (t & Ht & _)%list_elem_of_fmap. by injection Ht as -> ->.
  - apply list_elem_of_fmap in Hj as (t & -> & Ht). apply list_elem_of_fmap. exists (dt_device_jid t, f (dt_device_jid t)).
    split; [done|]. rewrite elem_of_rev. apply list_elem_of_fmap. by exists t.
Qed.

(** *** Making the sessions *)

Definition signed_bundle (b : PreKeyBundle) : Prop :=
  verify_signature (bu_identity_key b) (public_serialize (sp_public_key (bu_ec_signed_pre_key b))) (sp_signature (bu_ec_signed_pre_key b)) = true.

(** The own keys are there. *)
Definition own_keys (s : st) ida lid : Prop := get_identity_key_pair s.2 = Ok ida /\ get_local_registration_id s.2 = Ok lid.

Lemma process_bundle_keys a bundle r (s : st) ida lid : own_keys s ida lid -> own_keys (process_prekey_bundle a bundle r s).2 ida lid.
Proof.
  intros [H1 H2]. destruct (process_bundle_frames (K := K) a bundle r (mkProtocolAddress (0 :: pa_name a) 0)
    ltac:(intros E; apply (f_equal (fun x => length (pa_name x))) in E; cbn in E; lia) s) as (_ & _ & E1 & E2).
  unfold own_keys. by rewrite <- E1, <- E2.
Qed.

Lemma save_keys a k (s : st) ida lid : own_keys s ida lid -> exists c, on_identities (save_identity a k) s = (Ok c, (s.1, (save_identity a k s.2).2))
  /\ own_keys (s.1, (save_identity a k s.2).2) ida lid /\ identity_view (save_identity a k s.2).2 a = Some k.
Proof.
  intros [H1 H2]. destruct s as [b i]. unfold on_identities. cbn [fst snd] in *. destruct (save_identity_view a k i) as (i' & E & Hv). rewrite E.
  eexists. split; [done|]. destruct (save_identity_own _ _ _ _ _ E) as [E1 E2]. cbn [fst snd]. split; [|by rewrite Hv, decide_True].
  split; cbn; congruence.
Qed.

(** One device: its session is made, if need be after its identity was replaced. *)
Lemma process_one n bundles j jids (s : st) ida lid :
  own_keys s ida lid -> (forall b, bundle_get j bundles = Some b -> signed_bundle b) ->
  exists s', process_bundles show_debug rnds n bundles (j :: jids) s = process_bundles show_debug rnds (S n) bundles jids s'
    /\ own_keys s' ida lid /\ (forall a, a <> to_protocol_address j -> same_at a s s')
    /\ (forall b, bundle_get j bundles = Some b ->
          match identity_view s.2 (to_protocol_address j) with None => True | Some k => k = bu_identity_key b end ->
          s' = (process_prekey_bundle (to_protocol_address j) b (rnds n).1 s).2).
Proof.
  intros Hk Hs. cbn [process_bundles]. destruct (bundle_get j bundles) as [b|] eqn:Eb; [|by exists s]. specialize (Hs b eq_refl).
  unfold mbind', caught. rewrite !process_prekey_bundle_plain. set (a := to_protocol_address j).
  pose proof (process_bundle_total (K := K) a b (rnds n).1 s ida lid (proj1 Hk) (proj2 Hk) Hs) as Ht.
  pose proof (process_bundle_keys a b (rnds n).1 s ida lid Hk) as Hk1.
  pose proof (fun a' Hne => process_bundle_frames (K := K) a b (rnds n).1 a' Hne s) as Hf1.
  destruct (process_prekey_bundle a b (rnds n).1 s) as [o s1] eqn:Ep. cbn [fst snd] in *.
  destruct (match identity_view s.2 a with None => true | Some k => public_eq k (bu_identity_key b) end) eqn:Et; subst o.
  - exists s1. split; [done|]. split; [done|]. split; [exact Hf1|]. intros b' [= <-] _. fold a. by rewrite Ep.
  - destruct (save_keys a (bu_identity_key b) s1 ida lid Hk1) as (c & Ec & Hk2 & Hv2). cbn [s_save_identity plain_stores].
    pose proof (frames_save (B := B) a) as Hf2. rewrite Ec. set (s2 := (s1.1, _)) in *.
    pose proof (process_bundle_total (K := K) a b (rnds n).2 s2 ida lid (proj1 Hk2) (proj2 Hk2) Hs) as Ht2.
    pose proof (process_bundle_keys a b (rnds n).2 s2 ida lid Hk2) as Hk3.
    pose proof (fun a' Hne => process_bundle_frames (K := K) a b (rnds n).2 a' Hne s2) as Hf3.
    destruct (process_prekey_bundle a b (rnds n).2 s2) as [o3 s3]. cbn [fst snd] in *.
    unfold s2 in Ht2. cbn [snd] in Ht2. rewrite Hv2, (proj2 (public_eq_spec _ _) eq_refl) in Ht2. subst o3.
    exists s3. split; [done|]. split; [done|]. split.
    + intros a' Hne. etrans; [by apply Hf1|]. etrans; [|by apply Hf3]. specialize (Hf2 a' (bu_identity_key b) Hne s1). by rewrite Ec in Hf2.
    + intros b' [= <-] Hid. destruct (identity_view s.2 a) as [k|]; [|done]. subst k. by rewrite (proj2 (public_eq_spec _ _) eq_refl) in Et.
Qed.

Lemma process_bundles_total n bundles jids (s : st) ida lid :
  own_keys s ida lid -> (forall j b, j ∈ jids -> bundle_get j bundles = Some b -> signed_bundle b) ->
  exists s', process_bundles show_debug rnds n bundles jids s = (Ok tt, s') /\ own_keys s' ida lid
    /\ forall a, a ∉ map to_protocol_address jids -> same_at a s s'.
Proof.
  revert n s. induction jids as [|j jids IH]; intros n s Hk Hs; [by exists s|].
  destruct (process_one n bundles j jids s ida lid Hk) as (s1 & E & Hk1 & Hf & _); [intros b; apply Hs; by left|].
  destruct (IH (S n) s1 Hk1) as (s2 & E2 & Hk2 & Hf2); [intros j' b Hj; apply Hs; by right|].
  exists s2. rewrite E. split; [done|]. split; [done|]. cbn [map]. intros a [Hne Hn]%not_elem_of_cons. etrans; [by apply Hf|by apply Hf2].
Qed.

(** The session of one of the devices is the one its bundle gives. *)
Lemma process_bundles_at n bundles l1 j l2 bundle (s : st) ida lid :
  own_keys s ida lid -> (forall j' b, j' ∈ l1 ++ j :: l2 -> bundle_get j' bundles = Some b -> signed_bundle b) ->
  bundle_get j bundles = Some bundle -> to_protocol_address j ∉ map to_protocol_address (l1 ++ l2) ->
  match identity_view s.2 (to_protocol_address j) with None => True | Some k => k = bu_identity_key bundle end ->
  exists s', process_bundles show_debug rnds n bundles (l1 ++ j :: l2) s = (Ok tt, s') /\ own_keys s' ida lid
    /\ (forall a, a ∉ map to_protocol_address (l1 ++ j :: l2) -> same_at a s s')
    /\ same_at (to_protocol_address j) (process_prekey_bundle (to_protocol_address j) bundle (rnds (n + length l1)).1 s).2 s'.
Proof.
  intros Hk Hs Hb Hn Hid. set (a := to_protocol_address j) in *. revert n s Hk Hid.
  induction l1 as [|x l1 IH]; intros n s Hk Hid; cbn [app length].
  - destruct (process_one n bundles j l2 s ida lid Hk) as (s1 & E & Hk1 & Hf & Hp); [intros b; apply Hs; by left|].
    destruct (process_bundles_total (S n) bundles l2 s1 ida lid Hk1) as (s2 & E2 & Hk2 & Hf2); [intros j' b Hj; apply Hs; by right|].
    exists s2. rewrite E. split; [done|]. split; [done|]. split.
    + cbn [map]. intros a' [Hne Hn']%not_elem_of_cons. etrans; [by apply Hf|by apply Hf2].
    + rewrite Nat.add_0_r. fold a in Hp. rewrite <- (Hp bundle Hb Hid). by apply Hf2.
  - cbn [app map] in Hn, Hs. apply not_elem_of_cons in Hn as [Hne Hn].
    destruct (process_one n bundles x (l1 ++ j :: l2) s ida lid Hk) as (s1 & E & Hk1 & Hf & _); [intros b; apply Hs; by left|].
    pose proof (Hf a Hne) as (Hv & Hi & Hp & Hr).
    destruct (IH (fun j' b Hj => Hs j' b ltac:(by right)) Hn (S n) s1 Hk1) as (s2 & E2 & Hk2 & Hf2 & Hat); [by rewrite <- Hi|].
    exists s2. rewrite E. split; [done|]. split; [done|]. split.
    + cbn [map]. intros a' [Hne' Hn']%not_elem_of_cons. etrans; [by apply Hf|by apply Hf2].
    + replace (n + S (length l1))%nat with (S n + length l1)%nat by lia. etrans; [|exact Hat].
      destruct (process_bundle_local (K := K) a bundle (rnds (S n + length l1)).1 s s1 (Hf a Hne)) as [_ Hl].
      by destruct (process_prekey_bundle a bundle (rnds (S n + length l1)).1 s) as [ [] ?].
Qed.

(** *** Encrypting *)

Definition task_address (m : list (Jid * Jid)) (t : DeviceTask) : ProtocolAddress :=
  to_protocol_address (some_or (dt_device_jid t) (jid_get (dt_device_jid t) m)).

Lemma encrypt_one_plain m extra t (s : st) :
  let encrypted := message_encrypt (dt_plaintext t) (task_address m t) s in
  encrypt_one_device (dt_device_jid t) (some_or (dt_device_jid t) (jid_get (dt_device_jid t) m)) (dt_plaintext t) extra s
  = (Ok (match encrypted.1 with
         | Ok c => match enc_payload c with
                   | Some (enc_type, is_prekey, serialized) => Some (device_node (dt_device_jid t) enc_type serialized extra, is_prekey)
                   | None => None
                   end
         | _ => None
         end), encrypted.2).
Proof.
  intros encrypted. subst encrypted. unfold encrypt_one_device, mbind', caught. rewrite message_encrypt_plain. fold (task_address m t).
  pose proof (message_encrypt_returns (dt_plaintext t) (task_address m t) s) as Hr.
  by destruct (message_encrypt _ _ s) as [ [] ?].
Qed.

Lemma encrypt_tasks_total m extra tasks nodes flag (s : st) :
  exists nodes' flag' s', encrypt_tasks m extra tasks nodes flag s = (Ok (nodes ++ nodes', flag || flag'), s')
    /\ forall a, (forall t, t ∈ tasks -> task_address m t <> a) -> same_at a s s'.
Proof.
  revert nodes flag s. induction tasks as [|t tasks IH]; intros nodes flag s; cbn [encrypt_tasks].
  - exists [], false, s. rewrite app_nil_r, orb_false_r. done.
  - unfold mbind'. rewrite encrypt_one_plain.
    pose proof (fun a Hne => message_encrypt_frames (K := K) (dt_plaintext t) (task_address m t) a Hne s) as Hf.
    set (s1 := (message_encrypt _ _ s).2) in *.
    assert (forall r : option (Node * bool), exists nodes' flag' s',
      match r with
      | Some (node, is_prekey) => encrypt_tasks m extra tasks (nodes ++ [node]) (flag || is_prekey)
      | None => encrypt_tasks m extra tasks nodes flag
      end s1 = (Ok (nodes ++ nodes', flag || flag'), s') /\ forall a, (forall t, t ∈ tasks -> task_address m t <> a) -> same_at a s1 s') as Hr.
    { intros [ [node pk]|].
      - destruct (IH (nodes ++ [node]) (flag || pk) s1) as (n' & f' & s' & E & Hs). exists (node :: n'), (pk || f'), s'.
        rewrite E, <- app_assoc, orb_assoc. done.
      - apply IH. }
    destruct (Hr match (message_encrypt (dt_plaintext t) (task_address m t) s).1 with
                 | Ok c => match enc_payload c with
                           | Some (enc_type, is_prekey, serialized) => Some (device_node (dt_device_jid t) enc_type serialized extra, is_prekey)
                           | None => None
                           end
                 | _ => None
                 end) as (n' & f' & s' & E & Hs).
    exists n', f', s'. split; [exact E|]. intros a Ha. etrans; [apply Hf; intros ->; by apply (Ha t); [left|]|].
    apply Hs. intros t' Ht. apply Ha. by right.
Qed.

(** The node of one of the devices. *)
Lemma encrypt_tasks_at m extra t1 t t2 nodes flag (s s0 : st) c s0' enc_type is_prekey serialized :
  (forall t', t' ∈ t1 ++ t2 -> task_address m t' <> task_address m t) -> same_at (task_address m t) s s0 ->
  message_encrypt (dt_plaintext t) (task_address m t) s0 = (Ok c, s0') -> enc_payload c = Some (enc_type, is_prekey, serialized) ->
  exists nodes' flag' s', encrypt_tasks m extra (t1 ++ t :: t2) nodes flag s = (Ok (nodes', flag'), s')
    /\ device_node (dt_device_jid t) enc_type serialized extra ∈ nodes' /\ (is_prekey = true -> flag' = true).
Proof.
  intros Hne Hs He Hp. revert nodes flag s Hs. induction t1 as [|x t1 IH]; intros nodes flag s Hs; cbn [app encrypt_tasks].
  - unfold mbind'. rewrite encrypt_one_plain.
    destruct (message_encrypt_local (K := K) (dt_plaintext t) (task_address m t) s s0 Hs) as [Ho _]. rewrite He in Ho.
    destruct (message_encrypt (dt_plaintext t) (task_address m t) s) as [o s1]. cbn [fst snd] in *. subst o. rewrite Hp.
    destruct (encrypt_tasks_total m extra t2 (nodes ++ [device_node (dt_device_jid t) enc_type serialized extra]) (flag || is_prekey) s1)
      as (n' & f' & s' & E & _). do 3 eexists. split; [exact E|]. split; [|intros ->; by rewrite orb_true_r].
    apply elem_of_app. left. apply elem_of_app. right. by left.
  - unfold mbind'. rewrite encrypt_one_plain.
    assert (same_at (task_address m t) (message_encrypt (dt_plaintext x) (task_address m x) s).2 s0) as Hs1.
    { etrans; [|exact Hs]. symmetry. apply (message_encrypt_frames (K := K)). intros Heq. apply (Hne x); [by left|done]. }
    assert (forall nodes flag, exists nodes' flag' s', encrypt_tasks m extra (t1 ++ t :: t2) nodes flag (message_encrypt (dt_plaintext x) (task_address m x) s).2
      = (Ok (nodes', flag'), s') /\ device_node (dt_device_jid t) enc_type serialized extra ∈ nodes' /\ (is_prekey = true -> flag' = true)) as Hgo
      by (intros; apply IH; [intros t' Ht; apply Hne; by right|done]).
    by destruct (match (message_encrypt (dt_plaintext x) (task_address m x) s).1 with Ok c => _ | _ => _ end) as [ [node pk]|]; apply Hgo.
Qed.

(** *** All phases *)

Lemma plan_spec x b j :
  let '(e, fresh) := plan x b j in
  if (fresh : bool) then e = j /\ view_session b (to_protocol_address j) = None else is_Some (view_session b (to_protocol_address e)).
Proof.
  unfold plan. destruct (view_session b (to_protocol_address j)) eqn:E; [by rewrite E|]. destruct (is_pn j); [|done].
  destruct (get_lid_for_phone _ _) as [l|]; [|done]. by destruct (view_session b (to_protocol_address (lid_device l (device j)))) eqn:E'; [rewrite E'|].
Qed.

Lemma NoDup_map_filter {A C} (g : A -> C) (f : A -> bool) l : NoDup (map g l) -> NoDup (map g (List.filter f l)).
Proof.
  induction l as [|y l IH]; [done|]. cbn [map List.filter]. intros [Hn Hd]%NoDup_cons. destruct (f y); [|by apply IH]. cbn [map].
  apply NoDup_cons. split; [|by apply IH]. intros (z & Hz & Hin)%list_elem_of_fmap. apply Hn. apply list_elem_of_fmap. exists z. split; [done|].
  apply list_elem_of_In. apply list_elem_of_In in Hin. by apply List.filter_In in Hin as [? _].
Qed.

(** A device without a session, known neither by its number nor by its LID,
    gets the message its bundle allows. *)
Lemma phases_reach (Q : PreKeySignalMessage -> Prop) x x' tasks extra t (s : st) ida lid bundles bundle p :
  own_keys s ida lid -> NoDup (map (fun t => to_protocol_address (dt_device_jid t)) tasks) -> t ∈ tasks ->
  let j := dt_device_jid t in
  plan x s.1 j = (j, true) ->
  fetch_prekeys_for_identity_check (needing x s.1 tasks) x = (Ok bundles, x') ->
  (forall j' b, bundle_get j' bundles = Some b -> signed_bundle b) -> bundle_get j bundles = Some bundle ->
  match identity_view s.2 (to_protocol_address j) with None => True | Some k => k = bu_identity_key bundle end ->
  dt_plaintext t = p ->
  (forall n, exists s1 s2 out, process_prekey_bundle (to_protocol_address j) bundle (rnds n).1 s = (Ok tt, s1)
     /\ message_encrypt p (to_protocol_address j) s1 = (Ok (C_PreKey out), s2) /\ Q out) ->
  exists nodes s' out, encrypt_phases show_debug rnds tasks extra (s, x) = (Ok (nodes, true), (s', x'))
    /\ device_node j (lit "pkmsg") (pk_serialized out) extra ∈ nodes /\ Q out.
Proof.
  intros Hk Hnd Ht j Hplan Hfetch Hsig Hb Hid Hp Hout. pose proof (plan_spec x s.1 j) as Hpj. rewrite Hplan in Hpj. destruct Hpj as [_ Hnone].
  set (m := rev (map (fun t => (dt_device_jid t, (plan x s.1 (dt_device_jid t)).1)) tasks)).
  assert (forall t', t' ∈ tasks -> task_address m t' = to_protocol_address (plan x s.1 (dt_device_jid t')).1) as Hta.
  { intros t' Ht'. unfold task_address, m. rewrite (jid_get_plan (fun j => (plan x s.1 j).1)); [done|]. by apply list_elem_of_fmap_2. }
  assert (j ∈ needing x s.1 tasks) as Hj.
  { apply list_elem_of_In, List.filter_In. split; [apply list_elem_of_In; by apply list_elem_of_fmap_2|]. fold j. by rewrite Hplan. }
  apply list_elem_of_split in Hj as (l1 & l2 & Hl).
  assert (to_protocol_address j ∉ map to_protocol_address (l1 ++ l2)) as Hn.
  { assert (NoDup (map to_protocol_address (needing x s.1 tasks))) as Hnd2 by (apply NoDup_map_filter; by rewrite map_map).
    rewrite Hl, map_app in Hnd2. cbn [map] in Hnd2. rewrite <- Permutation_middle in Hnd2. rewrite map_app. by apply NoDup_cons in Hnd2 as [? _]. }
  destruct (process_bundles_at 0 bundles l1 j l2 bundle s ida lid Hk) as (s1 & E1 & Hk1 & _ & Hat);
    [intros j' b _; apply Hsig|done|done|done|].
  destruct (Hout (0 + length l1)%nat) as (s2 & s3 & out & Ep & Ee & Hq). rewrite Ep in Hat. cbn [snd] in Hat.
  apply list_elem_of_split in Ht as (t1 & t2 & Etasks).
  destruct (encrypt_tasks_at m extra t1 t t2 [] false s1 s2 (C_PreKey out) s3 (lit "pkmsg") true (pk_serialized out))
    as (nodes & flag & s4 & E4 & Hin & Hflag).
  - intros t' Ht'. assert (t' ∈ tasks /\ t ∈ tasks) as [Hin Hin'] by (rewrite Etasks; set_solver). rewrite !Hta by done. fold j. rewrite Hplan.
    cbn [fst]. pose proof (plan_spec x s.1 (dt_device_jid t')) as Hpt. destruct (plan x s.1 (dt_device_jid t')) as [e [|] ]; cbn [fst].
    + destruct Hpt as [-> _]. rewrite Etasks, map_app in Hnd. cbn [map] in Hnd. rewrite <- Permutation_middle, <- map_app in Hnd.
      apply NoDup_cons in Hnd as [Hnd _]. intros Heq. apply Hnd. fold j. rewrite <- Heq. by apply (list_elem_of_fmap_2 (fun t => to_protocol_address (dt_device_jid t))).
    + intros Heq. rewrite Heq, Hnone in Hpt. by destruct Hpt.
  - rewrite Hta by (rewrite Etasks; set_solver). fold j. rewrite Hplan. by symmetry.
  - rewrite Hta by (rewrite Etasks; set_solver). fold j. rewrite Hplan, Hp. exact Ee.
  - done.
  - exists nodes, s4, out. split; [|by split]. unfold encrypt_phases, mbind', SendStores.on_stores. cbn [fst snd].
    rewrite session_map_plain. cbn [fst snd app]. rewrite app_nil_r. fold m.
    unfold establish_missing_sessions. destruct (needing x s.1 tasks) as [|y l] eqn:En; [by destruct l1|]. rewrite <- En in *.
    unfold mbind', on_resolver, SendStores.on_stores. cbn [fst snd]. rewrite Hfetch. cbn [map_err fst snd]. rewrite Hl, E1. cbn [fst snd].
    rewrite <- Etasks in E4. by rewrite E4, (Hflag eq_refl).
Qed.
End Reach.

(** ** Theory: what is sent arrives *)

Section Delivered.
Context `{HK : !Hkdf, HS : !Hashes, HA : !AesCbc, HC : !Curve25519, HP : !SignalProto, HG : !SenderKeyProto, HJ : !DeviceJson, HV : !AdvProto}.
Context {B I K S G M H R X : Type}.
Context `{HB : !SessionStore B, HBB : !BatchSessions B, HI : !IdentityKeyStore I, HPK : !PreKeyStore K, HSP : !SignedPreKeyStore S}.
Context `{HSK : !SenderKeyStore G, HR : !ReliableStores B I K, HSep : !SeparateStores B I, HT : !TofuStore I, HRS : !ReliableStore G}.
Context `{HM : !WaMessage M H, HRM : !ReportMessage M R, HOM : !OutgoingMessage M R, HX : !SendContextResolver X}.
(** both interfaces encode a message the same way *)
Context (same_encoding : forall m, rm_encode m = wm_encode m).
Context (show_debug : SignalProtocolError -> str).
Context (order_sessions : list ProtocolAddress -> list ProtocolAddress) (order_sessions_ok : forall l, order_sessions l ≡ₚ l).
Context (order_identities : list (ProtocolAddress * IdentityKey) -> list (ProtocolAddress * IdentityKey)).
Context (order_identities_ok : forall l, order_identities l ≡ₚ l).
Context (b64_url_no_pad : bytes -> str).
Context (fetch_one_identity : forall jids (x : X) bundles x', fetch_prekeys_for_identity_check jids x = (Ok bundles, x') -> one_identity bundles).
(** the receiving client *)
Context (delete_session : ProtocolAddress -> comp B str unit) (delete_identity : ProtocolAddress -> comp I str unit).
Context (valid_time : i64 -> bool) (custom : str -> bool) (io : RecvIo) (now : i64) (d : Device) (signed : S).
Context (dr : Draws).
Implicit Types s : RecvState (B * I * K) G M H.

(** The part of a stanza that is for one device. *)
Definition to_node (j : Jid) (enc : Node) : Node := mkNode (lit "to") [(lit "jid", jid_to_string j)] (Some (NC_Nodes [enc])).

(** What sending to the devices of the tasks needs to reach [j], which is the
    client in state [s], from its point of view [jid] of the sender: it has no
    session, its bundle is served with the others, and it can be written to. *)
Record reachable (tasks : list DeviceTask) (stores : B * I) (x x' : X) (j jid : Jid) (rnd : bytes) s : Prop := {
  re_distinct : NoDup (map (fun t => to_protocol_address (dt_device_jid t)) tasks);
  re_new : plan x stores.1 j = (j, true);
  re_served : exists bundles bundle, fetch_prekeys_for_identity_check (needing x stores.1 tasks) x = (Ok bundles, x')
    /\ (forall j' b, bundle_get j' bundles = Some b -> signed_bundle b) /\ bundle_get j bundles = Some bundle
    /\ forall n, can_write signed bundle jid (to_protocol_address j) (dr_sessions dr n).1 rnd stores.2 s
}.

Lemma retained (l seen : list Jid) j : j ∈ l -> j ∉ seen -> j ∈ retain_first (fun j => j) seen l.
Proof.
  revert seen. induction l as [|y l IH]; intros seen Hj Hn; [done|]. cbn [retain_first]. apply elem_of_cons in Hj as [<-|Hj].
  - rewrite decide_False by done. by left.
  - case_decide as Hy; [by apply IH|]. destruct (decide (j = y)) as [->|Hne]; [by left|]. right. apply IH; [done|]. by apply not_elem_of_cons.
Qed.

Lemma dm_task own_jid p p' l j :
  j ∈ l -> exists t, t ∈ dm_tasks own_jid p p' l /\ dt_device_jid t = j /\ dt_plaintext t = if is_own_device own_jid j then p' else p.
Proof.
  intros Hj. exists (mkDeviceTask j (if is_own_device own_jid j then p' else p)). split; [|done]. unfold dm_tasks. rewrite elem_of_app.
  apply list_elem_of_In in Hj. destruct (is_own_device own_jid j) eqn:E; [right|left]; apply list_elem_of_fmap; exists j; (split; [done|]);
    apply list_elem_of_In, List.filter_In; (split; [done|]); by rewrite ?E.
Qed.

(** The sending device itself is not left out: it counts as a recipient. *)
Lemma sending_device_is_recipient own_jid p p' l : own_jid ∈ l -> mkDeviceTask own_jid p ∈ dm_tasks own_jid p p' l.
Proof.
  intros Hj. destruct (dm_task own_jid p p' l own_jid Hj) as ([j q] & Ht & Hj' & Hq). cbn in *. subst j.
  assert (is_own_device own_jid own_jid = false) as Ho by (unfold is_own_device; by rewrite Z.eqb_refl, andb_false_r). rewrite Ho in Hq. by subst q.
Qed.

Lemma unified_reaches tasks extra t stores x x' jid rnd s :
  reachable tasks stores x x' (dt_device_jid t) jid rnd s -> t ∈ tasks ->
  exists nodes stores' out st, encrypt_for_devices_unified show_debug (dr_sessions dr) order_sessions order_identities tasks extra (stores, x)
      = (Ok (nodes, true), (stores', x'))
    /\ device_node (dt_device_jid t) (lit "pkmsg") (pk_serialized out) extra ∈ nodes
    /\ pksm_try_from (pk_serialized out) = Ok out
    /\ message_decrypt_prekey out (to_protocol_address jid) signed [rnd] (rv_stores s) = (Ok (dt_plaintext t), st).
Proof.
  intros [Hnd Hnew (bundles & bundle & Hf & Hsig & Hb & Hcw)] Ht. destruct stores as [b i]. set (j := dt_device_jid t) in *.
  destruct (Hcw 0%nat) as [(id & spk & otk & Hpub & Htr & _) (ida & lida & Hi & _ & Hl & _) _ _].
  rewrite trusted_view in Htr. injection Htr as Htr. rewrite <- (pb_bundle_identity _ _ _ _ _ _ _ Hpub) in Htr. cbn [fst snd] in *.
  destruct (phases_reach (K := K) show_debug (dr_sessions dr) (fun out => pksm_try_from (pk_serialized out) = Ok out
      /\ exists st, message_decrypt_prekey out (to_protocol_address jid) signed [rnd] (rv_stores s) = (Ok (dt_plaintext t), st))
    x x' tasks extra t (b, i) ida lida bundles bundle (dt_plaintext t)) as (nodes & s' & out & E & Hin & Hq & st & Hdec); [done..| |done| |].
  { cbn. fold j. destruct (identity_view i (to_protocol_address j)); [|done]. by apply public_eq_spec. }
  { intros n. destruct (written signed bundle jid (to_protocol_address j) (dr_sessions dr n).1 rnd b i s (dt_plaintext t) (Hcw n))
      as (b1 & i1 & out & b2 & i2 & st & E1 & E2 & E3 & E4). exists (b1, i1), (b2, i2), out. split; [done|]. split; [done|]. split; [done|]. by exists st. }
  destruct (pipeline_equiv (K := K) show_debug (dr_sessions dr) order_sessions order_identities tasks extra b i x) as (Ho & Hx & _); [done..|].
  destruct (encrypt_for_devices_unified _ _ _ _ _ _ _) as [o [st' x''] ]. cbn [fst snd] in *. rewrite E in Ho, Hx. cbn [fst snd] in Ho, Hx. subst.
  by exists nodes, st', out, st.
Qed.

(** A direct message reaches every device that can be written to.  When the
    devices of the contact and the account are resolved, the stanza has a part
    for each of them that has no session yet and whose bundle the server hands
    out; the client behind it reports, from this part, the message as it was
    sent (with its secret added when it carries a token) and confirms it.  For
    the recipient that is the message, for the account's other devices the
    message wrapped as sent by this one. *)
Theorem dm_arrives own_jid account to_jid message request_id edit (sd : SendState B I G X) token devices x1 x2 j attrs rnd draws s :
  let message' := message_for_encryption token message in
  let written := if is_own_device own_jid j then om_device_sent (jid_to_string to_jid) message' else message' in
  let all := retain_first (fun j => j) [] devices in
  let tasks := dm_tasks own_jid (pad_message_v2 (dr_pad dr) (rm_encode message'))
                 (pad_message_v2 (dr_other_pad dr) (rm_encode (om_device_sent (jid_to_string to_jid) message'))) all in
  let info := info_of valid_time now d attrs in
  let jid := encryption_jid (mi_source info) (rg_lids (rv_registry s)) in
  generate_reporting_token (dr_secret dr) message request_id to_jid to_jid None = Ok token ->
  resolve_devices (map to_non_ad (retain_first (fun j => (user j, server j)) [] [to_jid; own_jid])) (sd_client sd) = (Ok devices, x1) ->
  j ∈ devices -> real_edit edit = None -> reachable tasks (sd_stores sd) x1 x2 j jid rnd s ->
  custom (lit "pkmsg") = false -> direct jid -> plain written -> (draws 0%nat).1 = [rnd] ->
  exists stanza sd' nodes rest c s',
    prepare_dm_stanza show_debug order_sessions order_identities dr own_jid account to_jid message request_id edit sd = (Ok stanza, sd')
    /\ children stanza = Some (participants_node nodes :: rest) /\ to_node j (enc_node "pkmsg" c) ∈ nodes
    /\ handle_encrypted_message delete_session delete_identity valid_time custom io now d signed draws (message_stanza attrs [enc_node "pkmsg" c]) s
       = (Ok tt, s')
    /\ rv_effects s' = rv_effects s ++ [Message written info; Delivery info].
Proof.
  intros message' written' all tasks info jid Htok Hres Hj Hed Hre Hcu Hdir Hpl Hdr.
  destruct (dm_task own_jid (pad_message_v2 (dr_pad dr) (rm_encode message'))
    (pad_message_v2 (dr_other_pad dr) (rm_encode (om_device_sent (jid_to_string to_jid) message'))) all j) as (t & Ht & <- & Hpt).
  { apply retained; [done|apply not_elem_of_nil]. }
  assert (exists pad, dt_plaintext t = pad_message_v2 pad (wm_encode written')) as [pad Hpad].
  { rewrite Hpt. unfold written'. destruct (is_own_device own_jid (dt_device_jid t)); rewrite same_encoding; by eexists. }
  destruct (unified_reaches tasks (enc_extra_attrs edit) t (sd_stores sd) x1 x2 jid rnd s Hre Ht) as (nodes & stores' & out & st & E & Hin & Hw & Hdec).
  rewrite Hpad, <- Hdr in Hdec.
  destruct (pkmsg_handled delete_session delete_identity valid_time custom io now d signed draws s attrs pad written' out st Hcu Hdir Hpl Hw Hdec)
    as (s' & Hh & Heff).
  unfold prepare_dm_stanza, mbind', mlift, on_client, on_pipeline. rewrite Htok. cbn [on_token map_err]. rewrite Hres. cbn [map_err sd_stores sd_client].
  fold message' all tasks. rewrite E. unfold enc_extra_attrs in Hin. rewrite Hed in Hin.
  do 6 eexists. split; [done|]. split; [reflexivity|]. split; [exact Hin|]. split; [exact Hh|exact Heff].
Qed.
(** *** Groups *)

(** The group functions of [send.rs] do what those of [group_cipher.rs] do. *)
Lemma encrypt_group_same group_jid sender_jid p rnd (g : G) m g' :
  group_encrypt (sender_key_name group_jid sender_jid) p rnd g = (Ok m, g') ->
  encrypt_group_message group_jid sender_jid p rnd g = (Ok m, g').
Proof.
  unfold group_encrypt, encrypt_group_message, signal, mbind', mlift. set (name := sender_key_name group_jid sender_jid).
  destruct (load_sender_key name g) as [ [ [r|]| | |] g1]; try done. cbn [ok_or map_err].
  destruct (sender_key_state r) as [state|]; [|done]. cbn [ok_or]. destruct (sender_chain_key state) as [ck|]; [|done]. cbn [ok_or].
  destruct (aes_256_cbc_encrypt_into _ _ _ _) as [ [ []| | |] c]; try done. cbn [map_err].
  destruct (signing_key_private state); [|done]. cbn [ok_or]. change (message_version state) with SENDERKEY_MESSAGE_CURRENT_VERSION.
  destruct (skm_new _ _ _ _ _ _); try done. cbn [map_err]. destruct (sck_next ck); try done. cbn [map_err].
  destruct (store_sender_key _ _ g1) as [ [ []| | |] g2]; cbn; [intros [= -> ->]; done|done..].
Qed.

Lemma create_group_same rnd_pair rnd_id rnd_seed group_jid own (g : G) m g' :
  view_sender_key g (sender_key_name group_jid own) = None ->
  create_sender_key_distribution_message (sender_key_name group_jid own) rnd_id rnd_seed rnd_pair g = (Ok m, g') ->
  create_sender_key_distribution_message_for_group rnd_pair rnd_id rnd_seed group_jid own g = (Ok (skdm_serialized m), g').
Proof.
  intros Hv. unfold create_sender_key_distribution_message, create_sender_key_distribution_message_for_group, signal, mbind', mlift.
  set (name := sender_key_name group_jid own) in *. destruct (load_run name g) as (g1 & E & _). rewrite E, Hv. cbn [map_err some_or].
  cbn [sender_key_state record_new_empty states head].
  destruct (add_sender_key_state _ _ _ _ _ _) as [ [ []| | |] r]; try done. cbn [map_err].
  destruct (store_sender_key name r g1) as [ [ []| | |] g2]; try done. cbn [map_err mret].
  destruct (sender_key_state r) as [state|]; [|done]. cbn [ok_or]. destruct (sender_chain_key state) as [ck|]; [|done]. cbn [ok_or].
  change (message_version state <? 256) with true. cbv iota. destruct (signing_key_public state); [|done]. cbn [ok_or].
  destruct (skdm_new _ _ _ _ _); try done. cbn [map_err]. by intros [= -> <-].
Qed.

(** A group message reaches every device its sender key is sent to.  When no
    sender key exists yet and the key goes to a list of devices, the stanza
    has a part for each device of the list that has no session and whose bundle
    is handed out, and the encrypted text; the client behind the part gets the
    key and the message, in this order, and confirms them. *)
Theorem group_stanza_arrives own_jid own_lid account to_jid message request_id force targets edit g (sd sd1 : SendState B I G X) token
    devices x2 j attrs rnd draws s :
  let message' := message_for_encryption token message in
  let own := own_sending_jid g own_jid own_lid in
  let g' := with_participant (to_non_ad own) g in
  let info := info_of valid_time now d attrs in
  let jid := encryption_jid (mi_source info) (rg_lids (rv_registry s)) in
  let name := sender_key_name to_jid own in
  (forall id b, distributes (om_distribution id b) b) ->
  generate_reporting_token (dr_secret dr) message request_id to_jid to_jid None = Ok token ->
  distribution_list g' own force targets sd = (Ok (Some devices), sd1) -> j ∈ devices -> real_edit edit = None ->
  (forall p, reachable (map (fun j => mkDeviceTask j p) devices) (sd_stores sd1) (sd_client sd1) x2 j jid rnd s) ->
  view_sender_key (sd_sender_keys sd1) name = None -> view_sender_key (rv_sender_keys s) name = None ->
  ms_chat (mi_source info) = to_jid -> ms_sender (mi_source info) = own ->
  is_u32 (dr_chain_id dr) -> length (dr_seed dr) = 32%nat -> length (dr_pair dr) = 32%nat ->
  custom (lit "pkmsg") = false -> custom (lit "skmsg") = false -> direct jid -> plain message' -> (draws 0%nat).1 = [rnd] ->
  exists stanza st' nodes rest c c' key s',
    prepare_group_stanza show_debug order_sessions order_identities b64_url_no_pad dr own_jid own_lid account to_jid message request_id force
      targets edit (sd, g) = (Ok stanza, st')
    /\ children stanza = Some (participants_node nodes :: identity_nodes true account ++ enc_node "skmsg" c' :: rest)
    /\ to_node j (enc_node "pkmsg" c) ∈ nodes
    /\ handle_encrypted_message delete_session delete_identity valid_time custom io now d signed draws
         (message_stanza attrs [enc_node "pkmsg" c; enc_node "skmsg" c']) s = (Ok tt, s')
    /\ rv_effects s' = rv_effects s ++ [Message (om_distribution (jid_to_string to_jid) key) info; Message message' info; Delivery info].
Proof.
  intros message' own g' info jid name Hdist Htok Hdl Hj Hed Hre Hvs Hvr Hchat Hsend Hid Hseed Hpair Hcp Hcs Hdir Hpl Hdr.
  destruct (group_first_message name (dr_chain_id dr) (dr_seed dr) (dr_pair dr) (sd_sender_keys sd1) Hvs Hid Hseed Hpair)
    as (skdm & g1 & Hc & Htry & Hgrp).
  destruct (Hgrp (pad_message_v2 (dr_pad dr) (rm_encode message')) (dr_signature dr) (rv_sender_keys s) Hvr) as (skm & g2 & r1 & r2 & E5 & E6 & E7).
  pose proof (create_group_same _ _ _ _ _ _ _ _ Hvs Hc) as Hc'. pose proof (encrypt_group_same _ _ _ _ _ _ _ E5) as E5'.
  set (dist := om_distribution (jid_to_string to_jid) (skdm_serialized skdm)).
  set (p := pad_message_v2 (dr_other_pad dr) (rm_encode dist)). specialize (Hre p).
  destruct (unified_reaches (map (fun j => mkDeviceTask j p) devices) [] (mkDeviceTask j p) (sd_stores sd1) (sd_client sd1) x2 jid rnd s Hre)
    as (nodes & stores' & out & st & E & Hin & Hw & Hdec); [by apply (list_elem_of_fmap_2 (fun j => mkDeviceTask j p))|].
  cbn [dt_plaintext dt_device_jid] in Hin, Hdec. unfold p in Hdec. rewrite <- Hdr, same_encoding in Hdec. rewrite same_encoding in E7.
  assert (sender_key_name (ms_chat (mi_source info)) (ms_sender (mi_source info)) = name) as Hname by (by rewrite Hchat, Hsend).
  destruct (pkmsg_skmsg_handled delete_session delete_identity valid_time custom io now d signed draws s attrs (dr_other_pad dr) (dr_pad dr)
    dist message' out skdm skm st r1 r2 Hcp Hcs Hdir (Hdist _ _) Hpl Hw Hdec Htry) as (s' & Hh & Heff);
    [fold info; by rewrite Hname|fold info; by rewrite Hname|].
  unfold prepare_group_stanza. rewrite Htok. cbn [on_token map_err]. fold own g' message'.
  unfold distribute, mbind', on_group_keys, on_pipeline, encrypt_for_devices. rewrite Hdl. cbn [sd_stores sd_client sd_sender_keys].
  rewrite Hc'. fold dist p. cbn [sd_stores sd_client sd_sender_keys]. rewrite E. cbn [sd_stores sd_client sd_sender_keys fst snd].
  unfold mret. cbv beta iota. cbn [sd_stores sd_client sd_sender_keys]. rewrite E5', Hed.
  do 8 eexists. split; [reflexivity|]. split; [reflexivity|]. split; [exact Hin|]. split; [exact Hh|exact Heff].
Qed.
End Delivered.

(** ** Witnesses *)

(** A text, a sender key and the message context. *)
Definition ToyOut : Type := bytes * option bytes * option (option bytes * option Z).
Definition toy_encode (m : ToyOut) : bytes := pos_bits (countable.encode m).
Definition toy_out : WaMessage ToyOut unit.
Proof.
  refine {| wm_encode := toy_encode; wm_decode b := countable.decode (bits_pos b) : option ToyOut; wm_skdm m := m.1.2; wm_key_share m := None;
            wm_pdo_response m := None; wm_take_history m := (None, m); web_decode b := None |}.
  - intros m. unfold toy_encode. by rewrite bits_pos_bits, countable.decode_encode.
  - intros m. apply pos_bits_bytes.
Defined.
Definition toy_report : ReportMessage ToyOut unit.
Proof.
  refine {| rm_encode := toy_encode; rm_reaction m := false; rm_enc_reaction m := false; rm_poll_update m := false; rm_keep_in_chat m := false;
            rm_context m := match m.2 with Some (a, b) => Some (mkContextInfo a b tt) | None => None end;
            rm_set_context c (m : ToyOut) := (m.1, match c with Some c => Some (ci_secret c, ci_version c) | None => None end) : ToyOut;
            rm_rest_default := tt |}.
  by intros [ [? ? []]|] m.
Defined.
Definition toy_outgoing : @OutgoingMessage ToyOut unit toy_report :=
  {| om_device_sent to (m : ToyOut) := (99 :: m.1.1, m.1.2, m.2) : ToyOut; om_distribution id b := ([], Some b, None) : ToyOut |}.
Definition toy_stanza_draws : Draws :=
  mkDraws (replicate 32 4) 34 35 SendStores.toy_draws (replicate 32 2) 9 (replicate 32 1) (replicate 64 1).
Abbreviation sessions := (ProtocolAddress -> option SessionRecord) (only parsing).
Definition toy_peer : RecvState (sessions * tofu * (Z -> option PreKeyRecord)) mem_store ToyOut unit :=
  mkRecvState (fun _ => None, (toy_identity 3, ∅), toy_prekey_table) (fun _ => None) toy_registry ∅ ∅ false ∅ [].
Definition toy_origin : SendState sessions tofu mem_store unit := mkSendState (fun _ => None, (toy_identity 1, ∅)) (fun _ => None) tt.
Definition toy_text : ToyOut := ([72; 105], None, None).

Lemma toy_reachable p :
  @reachable sum_curve _ tofu _ _ mem_store ToyOut unit unit toy_sessions toy_tofu_store toy_prekeys toy_signed_prekeys toy_resolver
    toy_signed_table toy_stanza_draws [mkDeviceTask toy_device p] (fun _ => None, (toy_identity 1, ∅)) tt tt toy_device toy_sender
    (replicate 32 7) toy_peer.
Proof.
  split; [apply NoDup_singleton|reflexivity|]. exists [(toy_device, toy_bundle)], toy_bundle. split; [done|]. split; [|split; [vm_compute; reflexivity|] ].
  { intros j' b. cbn. case_decide; [|done]. intros [= <-]. vm_compute. reflexivity. }
  intros n. split; try done.
  - exists (toy_identity 3), (toy_pair 4), (Some (toy_pair 5)). split; [|split; [done|] ].
    + destruct toy_published. by split.
    + apply (bool_decide_unpack (NoDup _)). vm_compute. constructor.
  - exists (toy_identity 1), 33. split_and!; try done.
Qed.

Lemma toy_one_identity jids (x : unit) bundles x' :
  @fetch_prekeys_for_identity_check unit toy_resolver jids x = (Ok bundles, x') -> one_identity bundles.
Proof. intros [= <- <-] j j' b b' Hb Hb'. cbn in Hb, Hb'. repeat case_decide; congruence. Qed.

Abbreviation toy_peer_handles :=
  (@handle_encrypted_message toy_hkdf toy_hashes toy_aes sum_curve toy_signal toy_proto toy_json _ tofu _ _ mem_store ToyOut unit toy_sessions
     toy_tofu_store toy_prekeys toy_signed_prekeys toy_store toy_out (fun _ b => (Ok tt, b)) (fun _ i => (Ok tt, i)) (fun _ => true)
     (fun _ => false) toy_recv_io 5 toy_retry_device toy_signed_table Receive.toy_draws) (only parsing).

Lemma dm_arrives_witness :
  exists c s', toy_peer_handles (message_stanza toy_direct_attrs [enc_node "pkmsg" c]) toy_peer = (Ok tt, s')
    /\ rv_effects s' = [Message toy_text (toy_info_of toy_direct_attrs); Delivery (toy_info_of toy_direct_attrs)].
Proof.
  destruct (@dm_arrives toy_hkdf toy_hashes toy_aes sum_curve toy_signal toy_proto toy_json toy_adv _ tofu _ _ mem_store ToyOut unit unit unit
    toy_sessions (@default_batch _ toy_sessions) toy_tofu_store toy_prekeys toy_signed_prekeys toy_store toy_send_stores toy_send_separate toy_tofu
    toy_out toy_report toy_outgoing toy_resolver (fun _ => eq_refl) (fun _ => []) (fun l => l) (fun _ => reflexivity _) (fun l => l)
    (fun _ => reflexivity _) toy_one_identity (fun _ b => (Ok tt, b)) (fun _ i => (Ok tt, i)) (fun _ => true) (fun _ => false) toy_recv_io 5
    toy_retry_device toy_signed_table toy_stanza_draws toy_sender None (pn (lit "5")) toy_text (lit "ID") None toy_origin None [toy_device] tt tt
    toy_device toy_direct_attrs (replicate 32 7) Receive.toy_draws toy_peer) as (stanza & sd' & nodes & rest & c & s' & _ & _ & _ & Hh & He).
  - vm_compute. reflexivity.
  - reflexivity.
  - by left.
  - reflexivity.
  - apply toy_reachable.
  - reflexivity.
  - vm_compute. reflexivity.
  - by split.
  - reflexivity.
  - exists c, s'. split; [exact Hh|exact He].
Defined.

Definition toy_group : GroupInfo := group_info_new [pn (lit "5"); pn (lit "77")] AM_Pn.

Lemma group_stanza_arrives_witness :
  exists c c' key s', toy_peer_handles (message_stanza toy_group_attrs [enc_node "pkmsg" c; enc_node "skmsg" c']) toy_peer = (Ok tt, s')
    /\ rv_effects s' = [Message ([], Some key, None) (toy_info_of toy_group_attrs); Message toy_text (toy_info_of toy_group_attrs);
                        Delivery (toy_info_of toy_group_attrs)].
Proof.
  destruct (@group_stanza_arrives toy_hkdf toy_hashes toy_aes sum_curve toy_signal toy_proto toy_json toy_adv _ tofu _ _ mem_store ToyOut unit unit
    unit toy_sessions (@default_batch _ toy_sessions) toy_tofu_store toy_prekeys toy_signed_prekeys toy_store toy_send_stores toy_send_separate
    toy_tofu GroupCipher.toy_reliable toy_out toy_report toy_outgoing toy_resolver (fun _ => eq_refl) (fun _ => []) (fun l => l) (fun _ => reflexivity _) (fun l => l)
    (fun _ => reflexivity _) (fun b => b) toy_one_identity (fun _ b => (Ok tt, b)) (fun _ i => (Ok tt, i)) (fun _ => true) (fun _ => false)
    toy_recv_io 5 toy_retry_device toy_signed_table toy_stanza_draws toy_sender (lid (lit "9")) None (group (lit "123")) toy_text (lit "ID") true None
    None toy_group toy_origin toy_origin None [toy_device] tt toy_device toy_group_attrs (replicate 32 7) Receive.toy_draws toy_peer)
    as (stanza & st' & nodes & rest & c & c' & key & s' & _ & _ & _ & Hh & He).
  - by split.
  - vm_compute. reflexivity.
  - reflexivity.
  - by left.
  - reflexivity.
  - apply toy_reachable.
  - reflexivity.
  - reflexivity.
  - vm_compute. reflexivity.
  - vm_compute. reflexivity.
  - unfold is_u32. cbn. lia.
  - reflexivity.
  - reflexivity.
  - reflexivity.
  - reflexivity.
  - vm_compute. reflexivity.
  - by split.
  - reflexivity.
  - exists c, c', key, s'. split; [exact Hh|exact He].
Defined.
