(* ===== verification/Usync.v ===== *)
(** * Usync: [warp_core/src/usync.rs] and [src/usync.rs]

    Asking the server for the devices of users.  The lists are cached by
    address, recorded in the device registry, and the LIDs the answer names are
    learned.  The theorems show what is returned, cached and recorded when the
    server answers what it is asked, that what was fetched is not asked for
    again, and that the key indices recorded for a contact are lost when its
    LID is known. *)

From stdpp Require Import gmap.
From S2P Require Import Prelude RustStd Jid Node Attrs Crypto Curve Noise Connection Requests Device Pairing Persistence KeyServer LidPn Registry Receive.

(** ** Queries and answers *)

Record UsyncLidMapping := mkUsyncLidMapping { um_phone_number : str; um_lid : str }.
Record UserDeviceList := mkUserDeviceList { ud_user : Jid; ud_devices : list Jid; ud_phash : option str }.

Definition build_get_user_devices_query (jids : list Jid) (sid : str) : Node :=
  let user_nodes := map (fun j => build (b_attr (builder_new (lit "user")) (lit "jid") (jid_to_string (to_non_ad j)))) jids in
  let query_node := build (b_children (builder_new (lit "query"))
                      [build (b_attr (builder_new (lit "devices")) (lit "version") (lit "2"))]) in
  let list_node := build (b_children (builder_new (lit "list")) user_nodes) in
  build (b_children (b_attrs_all (builder_new (lit "usync"))
    [(lit "context", lit "message"); (lit "index", lit "0"); (lit "last", lit "true"); (lit "mode", lit "query"); (lit "sid", sid)])
    [query_node; list_node]).

(** A device of a list. *)
Definition parse_device (user_jid : Jid) (device_node : Node) : outcome str Jid :=
  let? device_id := map_err show_parse_int_error (parse_u16 (attr_string device_node "id")) in
  Ok (with_device user_jid device_id).

Fixpoint collect {E A B} (f : A -> outcome E B) (l : list A) : outcome E (list B) :=
  match l with
  | [] => Ok []
  | a :: l => let? b := f a in let? bs := collect f l in Ok (b :: bs)
  end.

Definition parse_user (user_node : Node) : outcome str UserDeviceList :=
  let user_jid := attr_jid user_node "jid" in
  let? device_list_node := ok_or (lit "<device-list> not found for user " ++ jid_to_string user_jid)
                             (get_optional_child_by_tag user_node [lit "devices"; lit "device-list"]) in
  let phash := attr_opt device_list_node "hash" in
  let? devices := collect (parse_device user_jid) (get_children_by_tag device_list_node (lit "device")) in
  Ok (mkUserDeviceList (to_non_ad user_jid) devices phash).

Definition parse_get_user_devices_response_with_phash (resp_node : Node) : outcome str (list UserDeviceList) :=
  let? list_node := ok_or (lit "<usync> or <list> not found in usync response")
                      (get_optional_child_by_tag resp_node [lit "usync"; lit "list"]) in
  collect parse_user (get_children_by_tag list_node (lit "user")).

Definition parse_get_user_devices_response (resp_node : Node) : outcome str (list Jid) :=
  let? lists := parse_get_user_devices_response_with_phash resp_node in
  Ok (mjoin (map ud_devices lists)).

Definition parse_lid_mapping (user_node : Node) : option UsyncLidMapping :=
  match from_str (attr_string user_node "jid") with
  | Ok user_jid =>
      if server user_jid =s DEFAULT_USER_SERVER then
        match get_optional_child user_node (lit "lid") with
        | Some lid_node =>
            let lid_val := attr_string lid_node "val" in
            if lid_val =s [] then None
            else match from_str lid_val with
                 | Ok lid_jid =>
                     if server lid_jid =s HIDDEN_USER_SERVER then Some (mkUsyncLidMapping (user user_jid) (user lid_jid)) else None
                 | _ => None
                 end
        | None => None
        end
      else None
  | _ => None
  end.

Definition parse_lid_mappings_from_response (resp_node : Node) : list UsyncLidMapping :=
  match get_optional_child_by_tag resp_node [lit "usync"; lit "list"] with
  | Some list_node => omap parse_lid_mapping (get_children_by_tag list_node (lit "user"))
  | None => []
  end.

(** ** The client *)

(** The registry with its caches, and the table of LID mappings. *)
Record UsyncClient := mkUsyncClient { uc_registry : RegState; uc_mappings : gmap str LidPnMappingEntry }.

(** What is outside: the answer to a request, the verdicts of the statements for
    a phone number or user. *)
Record UsyncIo := mkUsyncIo {
  ui_send_iq : InfoQuery -> outcome ClientIqError Node;
  ui_mapping : str -> outcome StoreError unit;
  ui_migrate_get : str -> outcome StoreError unit;
  ui_migrate_put : str -> outcome StoreError unit;
  ui_get : str -> outcome StoreError unit;
  ui_put : str -> outcome StoreError unit
}.

Definition device_cache_get (j : Jid) (c : list (Jid * list Jid)) : option (list Jid) :=
  snd <$> List.find (fun e => bool_decide (e.1 = j)) c.
Definition device_cache_insert (j : Jid) (devices : list Jid) (c : list (Jid * list Jid)) : list (Jid * list Jid) :=
  (j, devices) :: invalidate_jid j c.

(** The first loop: what the cache has, and the set of what it does not have. *)
Definition check_cache (jids : list Jid) (c : list (Jid * list Jid)) : list Jid * list Jid :=
  fold_left (fun '(all_devices, jids_to_fetch) j =>
    match device_cache_get j c with
    | Some cached_devices => (all_devices ++ cached_devices, jids_to_fetch)
    | None => (all_devices, if bool_decide (j ∈ jids_to_fetch) then jids_to_fetch else jids_to_fetch ++ [j])
    end) (map to_non_ad jids) ([], []).

Section Client.
Context `{HJ : !DeviceJson}.
Context (io : UsyncIo) (show_iq_error : ClientIqError -> str).
(** the time; the order in which the set is iterated *)
Context (now : i64) (order : list Jid -> list Jid).

Definition learn_usync (s : UsyncClient) (m : UsyncLidMapping) : UsyncClient :=
  let r := uc_registry s in
  let '(o, c) := add_lid_pn_mapping (ui_mapping io (um_phone_number m)) now (um_lid m) (um_phone_number m) LS_Usync
                   (mkLidClient (rg_lids r) (uc_mappings s)) in
  let r := mkRegState (lc_cache c) (rg_cache r) (rg_device_cache r) (rg_table r) in
  let r := match o with
           | Ok true => migrate_device_registry_on_lid_discovery (ui_migrate_get io (um_phone_number m))
                          (ui_migrate_put io (um_phone_number m)) (um_phone_number m) (um_lid m) r
           | _ => r
           end in
  mkUsyncClient r (lc_table c).

Definition existing_key_indices (u : str) (t : gmap str RegistryRow) : gmap Z (option u32) :=
  match get_devices (ui_get io u) u t with
  | Ok (Some r) => fold_left (fun m d => <[di_device_id d := di_key_index d]> m) (dl_devices r) ∅
  | _ => ∅
  end.

Definition store_user_list (s : UsyncClient) (l : UserDeviceList) : UsyncClient :=
  let r := uc_registry s in
  let r := mkRegState (rg_lids r) (rg_cache r) (device_cache_insert (ud_user l) (ud_devices l) (rg_device_cache r)) (rg_table r) in
  let indices := existing_key_indices (user (ud_user l)) (rg_table r) in
  let device_list := mkDeviceList (user (ud_user l))
    (map (fun d => mkDeviceInfo (device d) (mjoin (indices !! device d))) (ud_devices l)) now (ud_phash l) in
  mkUsyncClient (update_device_list (ui_put io (user (ud_user l))) device_list r).2 (uc_mappings s).

Definition get_user_devices (sid : str) (jids : list Jid) : comp UsyncClient str (list Jid) :=
  fun s =>
    let '(all_devices, jids_to_fetch) := check_cache jids (rg_device_cache (uc_registry s)) in
    match jids_to_fetch with
    | [] => (Ok all_devices, s)
    | _ =>
        let usync_node := build_get_user_devices_query (order jids_to_fetch) sid in
        (let! resp_node := mlift (map_err show_iq_error (ui_send_iq io (query_get (lit "usync") server_jid (Some (NC_Nodes [usync_node]))))) in
         let! user_device_lists := mlift (parse_get_user_devices_response_with_phash resp_node) in
         fun s =>
           let s := fold_left learn_usync (parse_lid_mappings_from_response resp_node) s in
           let s := fold_left store_user_list user_device_lists s in
           (Ok (all_devices ++ mjoin (map ud_devices user_device_lists)), s)) s
    end.
End Client.

(** ** Theory: answers *)

(** What the server says of a user, and the stanza it says it with. *)
Record UserAnswer := mkUserAnswer { ua_devices : list u16; ua_hash : option str; ua_lid : option str }.

Definition listed_device_node (d : u16) : Node := mkNode (lit "device") [(lit "id", show_uint d)] None.
Definition device_list_node (a : UserAnswer) : Node :=
  mkNode (lit "device-list") (match ua_hash a with Some h => [(lit "hash", h)] | None => [] end)
    (Some (NC_Nodes (map listed_device_node (ua_devices a)))).
Definition lid_nodes (a : UserAnswer) : list Node :=
  match ua_lid a with Some l => [mkNode (lit "lid") [(lit "val", jid_to_string (lid l))] None] | None => [] end.
Definition user_node (e : Jid * UserAnswer) : Node :=
  mkNode (lit "user") [(lit "jid", jid_to_string e.1)]
    (Some (NC_Nodes (mkNode (lit "devices") [] (Some (NC_Nodes [device_list_node e.2])) :: lid_nodes e.2))).
Definition usync_response (users : list (Jid * UserAnswer)) : Node :=
  mkNode (lit "iq") [] (Some (NC_Nodes [mkNode (lit "usync") []
    (Some (NC_Nodes [mkNode (lit "list") [] (Some (NC_Nodes (map user_node users)))]))])).

(** Addresses that print and read back, device numbers of their width. *)
Definition answer_wf (e : Jid * UserAnswer) : Prop :=
  jid_wf e.1 = true /\ Forall (fun d => 0 <= d < 65536) (ua_devices e.2)
  /\ match ua_lid e.2 with Some l => l <> [] /\ jid_wf (lid l) = true | None => True end.

Definition list_of (e : Jid * UserAnswer) : UserDeviceList :=
  mkUserDeviceList (to_non_ad e.1) (map (with_device e.1) (ua_devices e.2)) (ua_hash e.2).
Definition mapping_in (e : Jid * UserAnswer) : option UsyncLidMapping :=
  if server e.1 =s DEFAULT_USER_SERVER then mkUsyncLidMapping (user e.1) <$> ua_lid e.2 else None.

Lemma collect_map {E A B C} (f : B -> outcome E C) (g : A -> B) (h : A -> C) (l : list A) :
  Forall (fun a => f (g a) = Ok (h a)) l -> collect f (map g l) = Ok (map h l).
Proof. induction 1 as [|a l Ha _ IH]; [done|]. cbn. by rewrite Ha, IH. Qed.

Lemma filter_map_all {A} (f : A -> Node) (t : str) (l : list A) :
  (forall a, tag (f a) = t) -> List.filter (fun c => tag c =s t) (map f l) = map f l.
Proof. intros Ht. induction l as [|a l IH]; [done|]. cbn. by rewrite Ht, bytes_eqb_refl, IH. Qed.

Lemma attr_jid_present n k j : im_get (lit k) (attrs n) = Some (jid_to_string j) -> jid_wf j = true -> attr_jid n k = j.
Proof.
  intros Hg Hj. unfold attr_jid, ap_jid, ap_optional_jid, meth_bind, unwrap_or, ap_get_raw, required, meth_bind.
  cbn [ap_new ap_attrs]. rewrite Hg. change (ap_attrs (ap_new n)) with (attrs n). by rewrite Hg, (jid_print_parse j Hj).
Qed.

Lemma parse_user_answer e : answer_wf e -> parse_user (user_node e) = Ok (list_of e).
Proof.
  destruct e as [j a]. intros (Hj & Hd & _). cbn in Hj, Hd. unfold parse_user.
  assert (attr_jid (user_node (j, a)) "jid" = j) as ->.
  { by apply attr_jid_present. }
  change (get_optional_child_by_tag (user_node (j, a)) [lit "devices"; lit "device-list"]) with (Some (device_list_node a)).
  cbn [ok_or obind]. unfold get_children_by_tag. cbn [children device_list_node content].
  rewrite filter_map_all by done. rewrite (collect_map _ _ (with_device j)).
  - cbn. unfold list_of. cbn. repeat f_equal. unfold attr_opt, ap_optional_string, ap_get_raw, required. cbn. by destruct (ua_hash a).
  - eapply Forall_impl; [exact Hd|]. cbn beta. intros d Hr. unfold parse_device. change (attr_string (listed_device_node d) "id") with (show_uint d). unfold parse_u16. by rewrite parse_show_uint by lia.
Qed.

Lemma parse_mapping_answer e : answer_wf e -> parse_lid_mapping (user_node e) = mapping_in e.
Proof.
  destruct e as [j a]. intros (Hj & _ & Hl). cbn in Hj, Hl. unfold parse_lid_mapping, mapping_in. cbn [fst snd].
  change (attr_string (user_node (j, a)) "jid") with (jid_to_string j). rewrite (jid_print_parse j Hj).
  destruct (_ =s DEFAULT_USER_SERVER); [|done].
  assert (get_optional_child (user_node (j, a)) (lit "lid") = head (lid_nodes a)) as ->
    by (unfold get_optional_child, user_node, lid_nodes; cbn; by destruct (ua_lid a)).
  unfold lid_nodes. destruct (ua_lid a) as [l|]; [|done]. destruct Hl as [Hne Hl]. cbn [head].
  change (attr_string _ "val") with (jid_to_string (lid l)).
  destruct (bytes_eqb_spec (jid_to_string (lid l)) []) as [E|_]; [|by rewrite (jid_print_parse _ Hl)].
  unfold jid_to_string in E. cbn in E. by destruct l.
Qed.

(** An answer is read as what it says. *)
Lemma answer_read users : Forall answer_wf users ->
  parse_get_user_devices_response_with_phash (usync_response users) = Ok (map list_of users)
  /\ parse_lid_mappings_from_response (usync_response users) = omap mapping_in users.
Proof.
  intros Hwf. unfold parse_get_user_devices_response_with_phash, parse_lid_mappings_from_response.
  change (get_optional_child_by_tag (usync_response users) [lit "usync"; lit "list"])
    with (Some (mkNode (lit "list") [] (Some (NC_Nodes (map user_node users))))).
  cbn [ok_or obind]. unfold get_children_by_tag. cbn [children content]. rewrite filter_map_all by done. split.
  - apply collect_map. eapply Forall_impl; [done|]. apply parse_user_answer.
  - induction Hwf as [|e l He _ IH]; [done|]. cbn. rewrite (parse_mapping_answer e He). cbn in IH. by rewrite IH.
Qed.

(** ** Theory: the caches *)

Lemma cache_get_invalidate j j' c : device_cache_get j (invalidate_jid j' c) = if decide (j = j') then None else device_cache_get j c.
Proof.
  unfold device_cache_get, invalidate_jid. induction c as [|[k ds] c IH]; [by case_decide|]. cbn.
  destruct (decide (k = j')) as [->|Hk]; cbn.
  - rewrite bool_decide_true by done. cbn. rewrite IH. case_decide as Hj; [done|]. by rewrite bool_decide_false by congruence.
  - rewrite bool_decide_false by done. cbn. destruct (decide (k = j)) as [->|Hkj].
    + rewrite !bool_decide_true by done. by rewrite decide_False by done.
    + by rewrite !(bool_decide_false (k = j)) by done.
Qed.

Lemma cache_get_insert j j' ds c :
  device_cache_get j (device_cache_insert j' ds c) = if decide (j = j') then Some ds else device_cache_get j c.
Proof.
  pose proof (cache_get_invalidate j j' c) as H. unfold device_cache_get, device_cache_insert in *. cbn. case_decide as E.
  - by rewrite bool_decide_true by done.
  - by rewrite bool_decide_false by done.
Qed.

Lemma check_cache_spec jids c :
  (check_cache jids c).1 = mjoin (omap (fun j => device_cache_get (to_non_ad j) c) jids)
  /\ NoDup (check_cache jids c).2
  /\ forall j, j ∈ (check_cache jids c).2 <-> device_cache_get j c = None /\ exists i, i ∈ jids /\ j = to_non_ad i.
Proof.
  unfold check_cache.
  induction jids as [|i jids (IH1 & IH2 & IH3)] using rev_ind.
  { cbn. split; [done|]. split; [constructor|]. intros j. split; [by intros ?%elem_of_nil|]. intros (_ & i & ?%elem_of_nil & _). done. }
  rewrite map_app, fold_left_app. cbn [map fold_left]. destruct (fold_left _ _ _) as [found missing]. cbn [fst snd] in *.
  rewrite omap_app. cbn [omap list_omap]. destruct (device_cache_get (to_non_ad i) c) as [ds|] eqn:E; cbn [fst snd].
  - rewrite join_app, <- IH1. cbn. rewrite app_nil_r. split; [done|]. split; [done|]. intros j. rewrite IH3. split; intros (Hn & i' & Hi & ->).
    + split; [done|]. exists i'. split; [set_solver|done].
    + split; [done|]. exists i'. apply elem_of_app in Hi as [Hi|Hi]; [done|]. apply list_elem_of_singleton in Hi as ->. congruence.
  - rewrite app_nil_r, IH1. split; [done|]. case_bool_decide as Hin; (split; [|intros j]).
    + done.
    + rewrite IH3. split; intros (Hn & i' & Hi & ->); (split; [done|]).
      * exists i'. split; [set_solver|done].
      * apply elem_of_app in Hi as [Hi|Hi]; [by exists i'|]. apply list_elem_of_singleton in Hi as ->.
        apply IH3 in Hin as (_ & i0 & Hi0 & ->). by exists i0.
    + apply NoDup_app. split; [done|]. split; [set_solver|]. apply NoDup_singleton.
    + rewrite elem_of_app, IH3, list_elem_of_singleton. split.
      * intros [(Hn & i' & Hi & ->)| ->]; (split; [done|]); [exists i'|exists i]; (split; [set_solver|done]).
      * intros (Hn & i' & Hi & ->). apply elem_of_app in Hi as [Hi|Hi]; [left; split; [done|]; by exists i'|].
        apply list_elem_of_singleton in Hi as ->. by right.
Qed.

(** Every LID that is current for a number is known itself. *)
Definition lids_closed (c : LidPnCache) : Prop :=
  forall p e, pn_to_entry c !! p = Some e -> is_Some (lid_to_entry c !! le_lid e).

Lemma add_closed e c : lids_closed c -> lids_closed (add e c).
Proof.
  intros Hc p e'. unfold add, update_pn, update_lid. destruct (should_update_pn e c); cbn.
  - rewrite lookup_insert_Some. intros [[_ <-]|[_ Hp] ]; [rewrite lookup_insert_eq; eauto|]. rewrite lookup_insert_is_Some'. right. by apply (Hc p).
  - intros Hp. rewrite lookup_insert_is_Some'. right. by apply (Hc p).
Qed.

Lemma canonical_idemp u c : lids_closed c ->
  let k := canonical_key (resolve_lookup_keys u c) in canonical_key (resolve_lookup_keys k c) = k.
Proof.
  intros Hc. cbv zeta. destruct (get_phone_number u c) as [p|] eqn:Ep; unfold resolve_lookup_keys at 2 3; rewrite Ep; cbn.
  - unfold resolve_lookup_keys. by rewrite Ep.
  - destruct (get_current_lid u c) as [l|] eqn:El; cbn; [|unfold resolve_lookup_keys; by rewrite Ep, El].
    unfold get_current_lid in El. destruct (pn_to_entry c !! u) as [e|] eqn:Ee; [|done]. injection El as <-.
    destruct (Hc u e Ee) as [e' He']. unfold resolve_lookup_keys, get_phone_number. by rewrite He'.
Qed.

Section Theory.
Context `{HJ : !DeviceJson}.
Context (io : UsyncIo) (now : i64).

Definition cached_at (j : Jid) (s : UsyncClient) : option (list Jid) := device_cache_get j (rg_device_cache (uc_registry s)).
Definition lids_of (s : UsyncClient) : LidPnCache := rg_lids (uc_registry s).
Definition key_of (u : str) (s : UsyncClient) : str := canonical_key (resolve_lookup_keys u (lids_of s)).

(** *** Learning *)

Lemma migrated_lids io_get io_put p l r : rg_lids (migrate_device_registry_on_lid_discovery io_get io_put p l r) = rg_lids r.
Proof.
  unfold migrate_device_registry_on_lid_discovery. repeat case_match; try done. unfold invalidate_device_cache.
  by destruct (resolve_lookup_keys _ _).
Qed.

Lemma migrated_cache io_get io_put p l r j ds :
  device_cache_get j (rg_device_cache (migrate_device_registry_on_lid_discovery io_get io_put p l r)) = Some ds ->
  device_cache_get j (rg_device_cache r) = Some ds.
Proof.
  unfold migrate_device_registry_on_lid_discovery. repeat case_match; try done. unfold invalidate_device_cache.
  destruct (resolve_lookup_keys _ _); cbn [rg_device_cache set_cache set_table]; rewrite !cache_get_invalidate; by repeat case_decide.
Qed.

Lemma learn_lids s m : lids_of (learn_usync io now s m) = add (entry_new now (um_lid m) (um_phone_number m) LS_Usync) (lids_of s).
Proof.
  unfold learn_usync, add_lid_pn_mapping, lids_of. destruct (ui_mapping _ _); cbn [uc_registry lc_cache]; try done.
  destruct (get_current_lid _ _); [done|]. by rewrite migrated_lids.
Qed.

Lemma add_current e c p : p = le_phone_number e \/ is_Some (get_current_lid p c) -> is_Some (get_current_lid p (add e c)).
Proof.
  unfold get_current_lid. rewrite !fmap_is_Some. unfold add, update_pn, update_lid, should_update_pn.
  destruct (pn_to_entry c !! le_phone_number e) as [x|] eqn:E.
  - destruct (_ <=? _); cbn; intros [->|H]; rewrite ?E, ?lookup_insert_is_Some'; eauto.
  - cbn. rewrite lookup_insert_is_Some'. intros [->|H]; eauto.
Qed.

Lemma learned ms s : lids_closed (lids_of s) ->
  let s' := fold_left (learn_usync io now) ms s in
  lids_closed (lids_of s')
  /\ (forall j ds, cached_at j s' = Some ds -> cached_at j s = Some ds)
  /\ forall p, (exists m, m ∈ ms /\ um_phone_number m = p) \/ is_Some (get_current_lid p (lids_of s)) -> is_Some (get_current_lid p (lids_of s')).
Proof.
  revert s. induction ms as [|m ms IH]; intros s Hc; cbn.
  { split_and!; [done|done|]. intros p [(m & Hm%elem_of_nil & _)|H]; done. }
  destruct (IH (learn_usync io now s m)) as (H1 & H2 & H3); [rewrite learn_lids; by apply add_closed|]. split_and!; [done| |].
  - intros j ds Hj%H2. unfold cached_at, learn_usync, add_lid_pn_mapping in *.
    destruct (ui_mapping _ _); cbn [uc_registry] in Hj; try done. destruct (get_current_lid _ _); [done|]. by apply migrated_cache in Hj.
  - intros p Hp. apply H3. rewrite learn_lids. destruct Hp as [(m' & [-> |Hm]%elem_of_cons & Hp)|Hp].
    + right. apply add_current. by left.
    + left. by exists m'.
    + right. apply add_current. by right.
Qed.

(** *** Recording *)

Lemma updated_state v r s :
  let k := canonical_key (resolve_lookup_keys (dl_user r) (rg_lids s)) in
  let s' := (update_device_list v r s).2 in
  rg_lids s' = rg_lids s /\ rg_device_cache s' = rg_device_cache s
  /\ rg_cache s' !! k = Some (mkDeviceList k (dl_devices r) (dl_timestamp r) (dl_phash r))
  /\ forall k', k' <> k -> k' <> dl_user r -> rg_cache s' !! k' = rg_cache s !! k'.
Proof.
  cbv zeta. unfold update_device_list, table_update. set (k := canonical_key _).
  destruct v; cbn; (split_and!; [try done..| |]); try apply lookup_insert_eq; try (intros; by rewrite lookup_insert_ne).
  1,2: by case_match.
  - destruct (bytes_eqb_spec k (dl_user r)); cbn; [|rewrite lookup_delete_ne by done]; apply lookup_insert_eq.
  - intros k' Hk Hu. destruct (_ =s _); cbn; [|rewrite lookup_delete_ne by done]; by rewrite lookup_insert_ne.
Qed.

Lemma store_state s l :
  let s' := store_user_list io now s l in let k := key_of (user (ud_user l)) s in
  lids_of s' = lids_of s
  /\ (forall j, cached_at j s' = if decide (j = ud_user l) then Some (ud_devices l) else cached_at j s)
  /\ (exists r, rg_cache (uc_registry s') !! k = Some r /\ map di_device_id (dl_devices r) = map device (ud_devices l))
  /\ (lids_closed (lids_of s) -> forall u, key_of u s <> k -> rg_cache (uc_registry s') !! key_of u s = rg_cache (uc_registry s) !! key_of u s).
Proof.
  cbv zeta. unfold store_user_list, lids_of, key_of, cached_at. cbn [uc_registry rg_lids rg_cache rg_device_cache rg_table].
  match goal with |- context [update_device_list ?v ?r ?x] => pose proof (updated_state v r x) as (H1 & H2 & H3 & H4) end.
  cbn [rg_lids rg_cache rg_device_cache dl_user dl_devices dl_timestamp dl_phash] in *. rewrite H1, H2. split_and!; [done| | |].
  - intros j. apply cache_get_insert.
  - eexists. split; [exact H3|]. cbn. rewrite map_map. by apply map_ext.
  - intros Hc u Hu. apply H4; [done|]. intros E. apply Hu. rewrite <- E. symmetry. by apply canonical_idemp.
Qed.

Definition unique_key (l : UserDeviceList) (ls : list UserDeviceList) (s : UsyncClient) : Prop :=
  forall l', l' ∈ ls -> key_of (user (ud_user l')) s = key_of (user (ud_user l)) s -> l' = l.

Lemma recorded_kept l ls s r : lids_closed (lids_of s) -> l ∉ ls -> unique_key l ls s ->
  rg_cache (uc_registry s) !! key_of (user (ud_user l)) s = Some r ->
  rg_cache (uc_registry (fold_left (store_user_list io now) ls s)) !! key_of (user (ud_user l)) s = Some r.
Proof.
  revert s. induction ls as [|l' ls IH]; intros s Hc Hn Hu Hr; [done|]. cbn. destruct (store_state s l') as (H1 & _ & _ & H4).
  assert (forall u, key_of u (store_user_list io now s l') = key_of u s) as Hk by (intros u; unfold key_of; by rewrite H1).
  rewrite <- (Hk (user (ud_user l))). apply IH.
  - by rewrite H1.
  - set_solver.
  - intros l0 Hl0. rewrite !Hk. intros Hl. apply Hu; [set_solver|done].
  - rewrite Hk, H4; [done|done|]. intros E. apply Hn. rewrite (Hu l'); [left|left|done].
Qed.

Lemma recorded ls s : lids_closed (lids_of s) -> NoDup (map ud_user ls) ->
  let s' := fold_left (store_user_list io now) ls s in
  lids_of s' = lids_of s
  /\ (forall l, l ∈ ls -> cached_at (ud_user l) s' = Some (ud_devices l))
  /\ (forall j, j ∉ map ud_user ls -> cached_at j s' = cached_at j s)
  /\ forall l, l ∈ ls -> unique_key l ls s ->
       exists r, rg_cache (uc_registry s') !! key_of (user (ud_user l)) s = Some r /\ map di_device_id (dl_devices r) = map device (ud_devices l).
Proof.
  revert s. induction ls as [|l ls IH]; intros s Hc Hnd; cbn [fold_left map].
  { split_and!; [done|by intros l ?%elem_of_nil|done|by intros l ?%elem_of_nil]. }
  apply NoDup_cons in Hnd as [Hn Hnd]. destruct (store_state s l) as (H1 & H2 & (r & H3 & Hr) & H4).
  destruct (IH (store_user_list io now s l)) as (I1 & I2 & I3 & I4); [by rewrite H1|done|]. rewrite I1.
  assert (forall u, key_of u (store_user_list io now s l) = key_of u s) as Hk by (intros u; unfold key_of; by rewrite H1).
  split_and!; [done| | |].
  - intros l0 [->|Hl]%elem_of_cons; [|by apply I2]. rewrite (I3 _ Hn), H2. by rewrite decide_True.
  - intros j [Hj Hjs]%not_elem_of_cons. rewrite (I3 _ Hjs), H2. by rewrite decide_False.
  - intros l0 Hl0 Hu. apply elem_of_cons in Hl0 as [->|Hl0].
    + exists r. split; [|done]. rewrite <- (Hk (user (ud_user l))). apply recorded_kept.
      * by rewrite H1.
      * intros Hl. apply Hn. by apply list_elem_of_fmap_2.
      * intros l' Hl'. rewrite !Hk. intros E. apply Hu; [by right|done].
      * by rewrite Hk.
    + rewrite <- Hk. apply I4; [done|]. intros l' Hl'. rewrite !Hk. intros E. apply Hu; [by right|done].
Qed.
End Theory.

(** ** Resolving devices *)

Section Resolve.
Context `{HJ : !DeviceJson}.
Context (io : UsyncIo) (show_iq_error : ClientIqError -> str) (now : i64) (order : list Jid -> list Jid).
Hypothesis order_perm : forall l, order l ≡ₚ l.
(** what the server knows *)
Context (known : Jid -> UserAnswer).

(** The devices of a user: as cached, otherwise as the server says. *)
Definition devices_of (s : UsyncClient) (j : Jid) : list Jid :=
  match cached_at j s with Some ds => ds | None => map (with_device j) (ua_devices (known j)) end.

Definition fetched (jids : list Jid) (s : UsyncClient) : list Jid := (check_cache jids (rg_device_cache (uc_registry s))).2.

(** The server answers the query for the users in the given order. *)
Definition answers_query (sid : str) (l : list Jid) : Prop :=
  ui_send_iq io (query_get (lit "usync") server_jid (Some (NC_Nodes [build_get_user_devices_query l sid])))
  = Ok (usync_response (map (fun j => (j, known j)) l)).

Lemma fetched_users jids s : NoDup (fetched jids s)
  /\ forall j, j ∈ fetched jids s <-> cached_at j s = None /\ exists i, i ∈ jids /\ j = to_non_ad i.
Proof. by destruct (check_cache_spec jids (rg_device_cache (uc_registry s))) as (_ & Hn & Hm). Qed.

Lemma map_id_on {A} (f : A -> A) l : (forall x, x ∈ l -> f x = x) -> map f l = l.
Proof. induction l as [|x l IH]; [done|]. intros Hf. cbn. rewrite (Hf x) by left. f_equal. apply IH. intros y Hy. apply Hf. by right. Qed.

Lemma non_ad_fixed j i : j = to_non_ad i -> to_non_ad j = j.
Proof. by intros ->. Qed.

Lemma get_user_devices_run sid jids s :
  Forall (fun j => answer_wf (j, known j)) (fetched jids s) -> answers_query sid (order (fetched jids s)) -> lids_closed (lids_of s) ->
  let l := map (fun j => list_of (j, known j)) (order (fetched jids s)) in
  exists s1, get_user_devices io show_iq_error now order sid jids s
      = (Ok (mjoin (omap (fun j => cached_at (to_non_ad j) s) jids) ++ mjoin (map ud_devices l)), fold_left (store_user_list io now) l s1)
    /\ lids_closed (lids_of s1) /\ (forall j ds, cached_at j s1 = Some ds -> cached_at j s = Some ds)
    /\ (forall j a, j ∈ fetched jids s -> server j = DEFAULT_USER_SERVER -> ua_lid (known j) = Some a -> is_Some (get_current_lid (user j) (lids_of s1)))
    /\ (fetched jids s = [] -> s1 = s).
Proof.
  intros Hwf Hans Hc l. unfold get_user_devices.
  pose proof (check_cache_spec jids (rg_device_cache (uc_registry s))) as (Hf & _ & _).
  unfold fetched in *. destruct (check_cache _ _) as [found missing]. cbn [fst snd] in *. subst found.
  destruct missing as [|j0 missing].
  { exists s. assert (order [] = []) as E by (by apply Permutation_nil_r, order_perm). unfold l. rewrite E. cbn. rewrite app_nil_r.
    split_and!; try done. by intros j a ?%elem_of_nil. }
  set (jids' := j0 :: missing) in *. unfold mbind'. cbn [mlift]. rewrite Hans. cbn [map_err].
  destruct (answer_read (map (fun j => (j, known j)) (order jids'))) as [-> ->].
  { apply Forall_map. cbn. by rewrite order_perm. }
  cbn [mlift]. rewrite (map_map (fun j => (j, known j)) list_of). fold l. eexists. split; [reflexivity|].
  destruct (learned io now (omap mapping_in (map (fun j => (j, known j)) (order jids'))) s Hc) as (H1 & H2 & H3).
  split_and!; [done|done| |done]. intros j a Hj Hs Ha. apply H3. left.
  exists (mkUsyncLidMapping (user j) a). split; [|done]. apply list_elem_of_omap. exists (j, known j). split.
  - apply (list_elem_of_fmap_2 (fun j => (j, known j))). by rewrite order_perm.
  - unfold mapping_in. cbn. by rewrite Hs, bytes_eqb_refl, Ha.
Qed.

(** Users that are all cached need no request. *)
Lemma all_cached_run io2 show2 now2 order2 sid2 (f : Jid -> list Jid) again s :
  (forall j, j ∈ again -> cached_at (to_non_ad j) s = Some (f j)) ->
  get_user_devices io2 show2 now2 order2 sid2 again s = (Ok (mjoin (map f again)), s).
Proof.
  intros Ha. unfold get_user_devices.
  destruct (check_cache_spec again (rg_device_cache (uc_registry s))) as (Hf & _ & Hm).
  destruct (check_cache _ _) as [found missing]. cbn [fst snd] in *. destruct missing as [|j missing].
  - rewrite Hf. do 3 f_equal. clear Hf Hm. induction again as [|j again IH]; [done|]. cbn.
    specialize (Ha j ltac:(left)) as E. unfold cached_at in E. rewrite E. f_equal. apply IH. intros j' Hj'. apply Ha. by right.
  - destruct (proj1 (Hm j) ltac:(left)) as (Hn & i & Hi & ->). specialize (Ha i Hi). unfold cached_at in Ha. congruence.
Qed.

(** The registry answers from the record under the preferred key. *)
Lemma has_device_cached verdicts u d s r : rg_cache (uc_registry s) !! key_of u s = Some r ->
  (has_device verdicts u d (uc_registry s)).1 = (d =? 0) || existsb (Z.eqb d) (map di_device_id (dl_devices r)).
Proof.
  intros Hr. unfold has_device. destruct (d =? 0); [done|].
  destruct (keys_canonical u (rg_lids (uc_registry s))) as [rest ->]. cbn [first_cached fold_right].
  change (canonical_key _) with (key_of u s). rewrite Hr. cbn [fst orb]. unfold has_id.
  induction (dl_devices r) as [|x ds IH]; [done|]. cbn. rewrite IH. f_equal. apply Z.eqb_sym.
Qed.

Lemma returned_devices jids s d :
  d ∈ mjoin (omap (fun j => cached_at (to_non_ad j) s) jids) ++ mjoin (map ud_devices (map (fun j => list_of (j, known j)) (order (fetched jids s))))
  <-> exists j, j ∈ jids /\ d ∈ devices_of s (to_non_ad j).
Proof.
  destruct (fetched_users jids s) as [_ Hf]. rewrite map_map, elem_of_app, !list_elem_of_join. unfold devices_of. split.
  - intros [(ds & Hd & (j & Hj & Hc)%list_elem_of_omap)|(ds & Hd & (j & -> & Hj)%list_elem_of_fmap)].
    + exists j. by rewrite Hc.
    + rewrite order_perm in Hj. apply Hf in Hj as (Hn & i & Hi & ->). exists i. by rewrite Hn.
  - intros (j & Hj & Hd). destruct (cached_at (to_non_ad j) s) as [ds|] eqn:E.
    + left. exists ds. split; [done|]. apply list_elem_of_omap. eauto.
    + right. eexists. split; [exact Hd|]. apply list_elem_of_fmap. exists (to_non_ad j). split; [done|]. rewrite order_perm. apply Hf. eauto.
Qed.

(** Resolving devices returns what is known.  When the server answers the
    query, whatever the verdicts of the data base: the devices returned are
    exactly those cached for the asked users or, for users not cached, those
    the server names; the users asked of the server are cached afterwards, so
    that resolving them again needs no request and changes nothing; the device
    registry answers for each of them from its list, unless another of them is
    the same contact; and a phone number whose LID was named has a LID. *)
Theorem get_user_devices_spec sid jids s :
  Forall (fun j => answer_wf (j, known j)) (fetched jids s) -> answers_query sid (order (fetched jids s)) -> lids_closed (lids_of s) ->
  exists ds s', get_user_devices io show_iq_error now order sid jids s = (Ok ds, s')
    /\ (forall d, d ∈ ds <-> exists j, j ∈ jids /\ d ∈ devices_of s (to_non_ad j))
    /\ (forall j, j ∈ fetched jids s -> cached_at j s' = Some (devices_of s j))
    /\ (forall j ds, j ∉ fetched jids s -> cached_at j s' = Some ds -> cached_at j s = Some ds)
    /\ (forall io2 show2 now2 order2 sid2 again, (forall j, j ∈ again -> to_non_ad j ∈ fetched jids s) ->
          get_user_devices io2 show2 now2 order2 sid2 again s' = (Ok (mjoin (map (fun j => devices_of s (to_non_ad j)) again)), s'))
    /\ (forall j d verdicts, j ∈ fetched jids s ->
          (forall i, i ∈ fetched jids s -> key_of (user i) s' = key_of (user j) s' -> i = j) ->
          (has_device verdicts (user j) d (uc_registry s')).1 = (d =? 0) || existsb (Z.eqb d) (ua_devices (known j)))
    /\ (forall j a, j ∈ fetched jids s -> server j = DEFAULT_USER_SERVER -> ua_lid (known j) = Some a ->
          is_Some (get_current_lid (user j) (lids_of s'))).
Proof.
  intros Hwf Hans Hc. destruct (get_user_devices_run sid jids s Hwf Hans Hc) as (s1 & Hrun & Hc1 & Hsub & Hlid & _).
  destruct (fetched_users jids s) as [Hnd Hf]. set (l := map (fun j => list_of (j, known j)) _) in Hrun.
  assert (map ud_user l = order (fetched jids s)) as Hul.
  { unfold l. rewrite map_map. cbn. apply map_id_on. intros j Hj. rewrite order_perm in Hj.
    apply Hf in Hj as (_ & i & _ & Hi). by eapply non_ad_fixed. }
  assert (forall j, j ∈ fetched jids s -> list_of (j, known j) ∈ l /\ devices_of s j = ud_devices (list_of (j, known j))
    /\ ud_user (list_of (j, known j)) = j) as Hl.
  { intros j Hj. split_and!.
    - apply (list_elem_of_fmap_2 (fun j => list_of (j, known j))). by rewrite order_perm.
    - apply Hf in Hj as [Hj _]. unfold devices_of. by rewrite Hj.
    - apply Hf in Hj as (_ & i & _ & Hi). by eapply non_ad_fixed. }
  destruct (recorded io now l s1 Hc1) as (R1 & R2 & R3 & R4); [by rewrite Hul, order_perm|].
  eexists _, _. split; [exact Hrun|]. set (s' := fold_left _ l s1) in *.
  assert (forall j, j ∈ fetched jids s -> cached_at j s' = Some (devices_of s j)) as Hcached.
  { intros j Hj. destruct (Hl j Hj) as (H1 & H2 & H3). rewrite H2. rewrite <- H3 at 1. by apply R2. }
  split_and!.
  - apply returned_devices.
  - done.
  - intros j ds Hj Hd. apply Hsub. rewrite <- R3; [done|]. by rewrite Hul, order_perm.
  - intros io2 show2 now2 order2 sid2 again Ha. apply all_cached_run. intros j Hj. by apply Hcached, Ha.
  - intros j d v Hj Hu. destruct (Hl j Hj) as (H1 & H2 & H3). unfold key_of in Hu. rewrite R1 in Hu.
    destruct (R4 (list_of (j, known j)) H1) as (r & Hr & Hd).
    + intros l' Hl' Hk. apply list_elem_of_fmap in Hl' as (i & -> & Hi). rewrite order_perm in Hi.
      rewrite (Hu i Hi); [done|]. destruct (Hl i Hi) as (_ & _ & E). rewrite E, H3 in Hk. exact Hk.
    + rewrite H3 in Hr. rewrite (has_device_cached _ _ _ _ r).
      * rewrite Hd. cbn. by rewrite map_map, map_id_on.
      * unfold key_of in *. by rewrite R1.
  - intros j a Hj Hs Ha. rewrite R1. by apply (Hlid j a).
Qed.
End Resolve.

(** The key indices kept for a contact with a LID are lost.  They are looked up
    under the user of the address that was asked for and stored under the LID:
    when the list of a phone number with a LID is fetched and the table has no
    row under the number, the row under the LID, whatever it said, is replaced
    by one without any key index. *)
Lemma key_indices_lost `{!DeviceJson} io now s p l devices phash :
  get_phone_number p (lids_of s) = None -> get_current_lid p (lids_of s) = Some l ->
  rg_table (uc_registry s) !! p = None -> ui_put io p = Ok tt ->
  let s' := store_user_list io now s (mkUserDeviceList (pn p) devices phash) in
  exists r, rg_table (uc_registry s') !! l = Some (row_of r) /\ map di_device_id (dl_devices r) = map device devices
    /\ Forall (fun d => di_key_index d = None) (dl_devices r).
Proof.
  intros Hp Hl Ht Hio. cbv zeta. unfold store_user_list. cbn [ud_user ud_devices ud_phash uc_registry rg_table].
  unfold existing_key_indices, get_devices. change (user (pn p)) with p. rewrite Ht, Hio.
  exists (mkDeviceList l (map (fun d => mkDeviceInfo (device d) None) devices) now phash). split_and!.
  - unfold update_device_list. unfold lids_of in *. cbn [dl_user rg_lids]. unfold resolve_lookup_keys. rewrite Hp, Hl. cbn [canonical_key table_update].
    destruct (l =s p); cbn; rewrite lookup_insert_eq; unfold row_of; cbn; do 3 f_equal; apply map_ext; intros d; f_equal;
      destruct (ui_get io p); cbn; by rewrite lookup_empty.
  - cbn. by rewrite map_map.
  - cbn. apply Forall_forall. intros x (d & -> & _)%list_elem_of_fmap. done.
Qed.

(** ** A server and two users *)

Definition toy_known (j : Jid) : UserAnswer :=
  if user j =s lit "111" then mkUserAnswer [0; 3] (Some (lit "2:x")) (Some (lit "900")) else mkUserAnswer [0] None None.
Definition toy_usync_server (q : InfoQuery) : outcome ClientIqError Node :=
  match iq_content q with
  | Some (NC_Nodes [n]) =>
      match get_optional_child_by_tag n [lit "list"] with
      | Some l => Ok (usync_response (map (fun u => let j := attr_jid u "jid" in (j, toy_known j)) (get_children_by_tag l (lit "user"))))
      | None => Err CI_Timeout
      end
  | _ => Err CI_Timeout
  end.
Definition toy_usync_io : UsyncIo :=
  mkUsyncIo toy_usync_server (fun _ => Ok tt) (fun _ => Ok tt) (fun _ => Ok tt) (fun _ => Ok tt) (fun _ => Ok tt).
Definition toy_usync_client : UsyncClient := mkUsyncClient (mkRegState cache_new ∅ [] ∅) ∅.
Definition toy_users : list Jid := [pn_device (lit "111") 7; pn (lit "222"); pn (lit "111")].

Lemma get_user_devices_spec_witness :
  exists s', @get_user_devices toy_json toy_usync_io (fun _ => []) 5 (@rev Jid) (lit "1.2-3") toy_users toy_usync_client
    = (Ok [pn (lit "222"); pn (lit "111"); pn_device (lit "111") 3], s')
  /\ (@has_device toy_json (fun _ => Ok tt) (lit "900") 3 (uc_registry s')).1 = true
  /\ is_Some (get_current_lid (lit "111") (lids_of s')).
Proof.
  destruct (@get_user_devices_spec toy_json toy_usync_io (fun _ => []) 5 (@rev Jid) (fun l => Permutation_sym (Permutation_rev l)) toy_known
              (lit "1.2-3") toy_users toy_usync_client) as (ds & s' & Hrun & _ & _ & _ & _ & _ & Hlid).
  - repeat constructor; cbn; try done; by vm_compute.
  - by vm_compute.
  - done.
  - exists s'. assert (s' = (@get_user_devices toy_json toy_usync_io (fun _ => []) 5 (@rev Jid) (lit "1.2-3") toy_users toy_usync_client).2) as Hs'
      by (by rewrite Hrun).
    split; [|split].
    + rewrite Hrun. f_equal. transitivity (@get_user_devices toy_json toy_usync_io (fun _ => []) 5 (@rev Jid) (lit "1.2-3") toy_users toy_usync_client).1;
        [by rewrite Hrun|by vm_compute].
    + rewrite Hs'. by vm_compute.
    + apply (Hlid (pn (lit "111")) (lit "900")); [|done|done]. apply (bool_decide_unpack _). by vm_compute.
Defined.
