(* ===== verification/Groups.v ===== *)
(** * Groups: [src/features/groups.rs]

    What the server says of a group: its participants with their phone numbers,
    how they are addressed, who administers it.  The information needed for
    sending is cached.  The theorem shows what is read from an answer, that it is
    read once while cached, and how the two maps of a LID group agree. *)

From stdpp Require Import gmap.
From S2P Require Import Prelude RustStd Jid Node Attrs Crypto Curve Noise Connection Requests Device Pairing KeyServer Persistence LidPn Registry Establish Retry Receive SendStores Send Usync.

Definition G_US_JID : Jid := jid_new [] GROUP_SERVER.

Record GroupParticipant := mkGroupParticipant { gp_jid : Jid; gp_phone_number : option Jid; gp_is_admin : bool }.
Record GroupMetadata := mkGroupMetadata {
  gm_id : Jid; gm_subject : str; gm_participants : list GroupParticipant; gm_addressing_mode : AddressingMode
}.

Definition addressing_mode_of (group_node : Node) : AddressingMode :=
  if default_or (lit "pn") (attr_opt group_node "addressing_mode") =s lit "lid" then AM_Lid else AM_Pn.

Definition group_query (jid : Jid) : InfoQuery :=
  query_get (lit "w:g2") jid (Some (NC_Nodes [build (b_attr (builder_new (lit "query")) (lit "request") (lit "interactive"))])).

(** The phone numbers are kept for groups addressed by LIDs. *)
Definition parse_group_info (group_node : Node) : GroupInfo :=
  let addressing_mode := addressing_mode_of group_node in
  let '(participants, lid_to_pn_map) :=
    fold_left (fun '(participants, m) n =>
      let participant_jid := attr_jid n "jid" in
      (participants ++ [participant_jid],
       match addressing_mode, attr_opt_jid n "phone_number" with
       | AM_Lid, Some phone_number => <[user participant_jid := phone_number]> m
       | _, _ => m
       end)) (get_children_by_tag group_node (lit "participant")) ([], ∅) in
  let info := group_info_new participants addressing_mode in
  if bool_decide (lid_to_pn_map = (∅ : gmap str Jid)) then info else set_lid_to_pn_map lid_to_pn_map info.

Definition not_in_response : str := lit "<group> not found in group info response".

Definition group_cache_get (jid : Jid) (c : list (Jid * GroupInfo)) : option GroupInfo :=
  snd <$> List.find (fun e => bool_decide (e.1 = jid)) c.
Definition group_cache_insert (jid : Jid) (info : GroupInfo) (c : list (Jid * GroupInfo)) : list (Jid * GroupInfo) :=
  (jid, info) :: List.filter (fun e => negb (bool_decide (e.1 = jid))) c.

Definition parse_participant (n : Node) : GroupParticipant :=
  let admin_type := attr_opt n "type" in
  mkGroupParticipant (attr_jid n "jid") (attr_opt_jid n "phone_number")
    (match admin_type with Some t => (t =s lit "admin") || (t =s lit "superadmin") | None => false end).
Definition parse_metadata (id : Jid) (group_node : Node) : GroupMetadata :=
  mkGroupMetadata id (default_or [] (attr_opt group_node "subject"))
    (map parse_participant (get_children_by_tag group_node (lit "participant"))) (addressing_mode_of group_node).

(** The address of a group in a list of groups: an id alone, or an address. *)
Definition group_jid_of (group_id_str : str) : Jid :=
  if existsb (Z.eqb AT) group_id_str
  then match from_str group_id_str with Ok j => j | _ => group group_id_str end
  else group group_id_str.

Section Groups.
Context (send_iq : InfoQuery -> outcome ClientIqError Node) (show_iq_error : ClientIqError -> str).

Definition query_info (jid : Jid) : comp (list (Jid * GroupInfo)) str GroupInfo :=
  fun c =>
    match group_cache_get jid c with
    | Some cached => (Ok cached, c)
    | None =>
        (let! resp_node := mlift (map_err show_iq_error (send_iq (group_query jid))) in
         let! group_node := mlift (ok_or not_in_response (get_optional_child resp_node (lit "group"))) in
         let info := parse_group_info group_node in
         fun c => (Ok info, group_cache_insert jid info c)) c
    end.

Definition get_participating : outcome str (gmap str GroupMetadata) :=
  let participating_node := build (b_children (builder_new (lit "participating"))
    [build (builder_new (lit "participants")); build (builder_new (lit "description"))]) in
  let? resp_node := map_err show_iq_error (send_iq (query_get (lit "w:g2") G_US_JID (Some (NC_Nodes [participating_node])))) in
  Ok (match get_optional_child resp_node (lit "groups") with
      | Some groups_node =>
          fold_left (fun result group_node =>
            let group_jid := group_jid_of (attr_string group_node "id") in
            <[jid_to_string group_jid := parse_metadata group_jid group_node]> result)
            (get_children_by_tag groups_node (lit "group")) ∅
      | None => ∅
      end).

Definition get_metadata (jid : Jid) : outcome str GroupMetadata :=
  let? resp_node := map_err show_iq_error (send_iq (group_query jid)) in
  let? group_node := ok_or not_in_response (get_optional_child resp_node (lit "group")) in
  Ok (parse_metadata jid group_node).
End Groups.

(** ** Theory *)

(** What the server says of a group. *)
Definition participant_node (m : Jid * option Jid) : Node :=
  mkNode (lit "participant") ((lit "jid", jid_to_string m.1) :: match m.2 with Some p => [(lit "phone_number", jid_to_string p)] | None => [] end) None.
Definition group_response (mode : AddressingMode) (members : list (Jid * option Jid)) : Node :=
  mkNode (lit "iq") [] (Some (NC_Nodes [mkNode (lit "group")
    [(lit "addressing_mode", match mode with AM_Lid => lit "lid" | AM_Pn => lit "pn" end)] (Some (NC_Nodes (map participant_node members)))])).

Definition member_wf (m : Jid * option Jid) : Prop := jid_wf m.1 = true /\ match m.2 with Some p => jid_wf p = true | None => True end.

Lemma attr_opt_jid_present n k j : im_get (lit k) (attrs n) = Some (jid_to_string j) -> jid_wf j = true -> attr_opt_jid n k = Some j.
Proof.
  intros Hg Hj. unfold attr_opt_jid, ap_optional_jid, meth_bind, ap_get_raw, required. cbn [ap_new ap_attrs]. rewrite Hg.
  by rewrite (jid_print_parse j Hj).
Qed.

Lemma participant_read m : member_wf m -> attr_jid (participant_node m) "jid" = m.1 /\ attr_opt_jid (participant_node m) "phone_number" = m.2.
Proof.
  destruct m as [j [p|] ]; intros [Hj Hp]; cbn [fst snd] in *; (split; [by apply attr_jid_present|]); [by apply attr_opt_jid_present|done].
Qed.

(** The LIDs of the members with their phone numbers. *)
Definition numbers (members : list (Jid * option Jid)) : list (str * Jid) :=
  omap (fun m => match m.2 with Some p => Some (user m.1, p) | None => None end) members.

Lemma parse_members (mode : AddressingMode) (members : list (Jid * option Jid)) (l : list Jid) (m0 : gmap str Jid) : Forall member_wf members ->
  fold_left (fun '(participants, m) n =>
    let participant_jid := attr_jid n "jid" in
    (participants ++ [participant_jid],
     match mode, attr_opt_jid n "phone_number" with
     | AM_Lid, Some phone_number => <[user participant_jid := phone_number]> m
     | _, _ => m
     end)) (map participant_node members) (l, m0)
  = (l ++ members.*1, match mode with AM_Lid => fold_left (fun m e => <[e.1 := e.2]> m) (numbers members) m0 | AM_Pn => m0 end).
Proof.
  intros Hwf. revert l m0. induction Hwf as [|m members Hm _ IH]; intros l m0; cbn [map fold_left].
  { rewrite app_nil_r. by destruct mode. }
  destruct (participant_read m Hm) as [-> ->]. rewrite IH, <- app_assoc. f_equal. unfold numbers. cbn. destruct m as [j [p|] ]; by destruct mode.
Qed.

Lemma fold_insert_lookup (l : list (str * Jid)) (m0 : gmap str Jid) (k : str) (v : Jid) :
  NoDup l.*1 -> (k, v) ∈ l -> fold_left (fun m e => <[e.1 := e.2]> m) l m0 !! k = Some v.
Proof.
  revert m0. induction l as [|[k' v'] l IH]; intros m0 Hnd Hin; [by apply elem_of_nil in Hin|]. cbn in *. apply NoDup_cons in Hnd as [Hn Hnd].
  apply elem_of_cons in Hin as [[= -> ->]|Hin]; [|by apply IH].
  clear IH Hnd. assert (forall m : gmap str Jid, m !! k' = Some v' -> fold_left (fun m e => <[e.1 := e.2]> m) l m !! k' = Some v') as H.
  { induction l as [|[k2 v2] l IH]; intros m Hm; [done|]. cbn in *. apply not_elem_of_cons in Hn as [Hne Hn]. apply IH; [done|].
    by rewrite lookup_insert_ne. }
  apply H, lookup_insert_eq.
Qed.

Lemma fold_insert_inv (l : list (str * Jid)) (m0 : gmap str Jid) (k : str) (v : Jid) :
  fold_left (fun m e => <[e.1 := e.2]> m) l m0 !! k = Some v -> (k, v) ∈ l \/ m0 !! k = Some v.
Proof.
  revert m0. induction l as [|[k' v'] l IH]; intros m0 H; [by right|]. cbn in H. apply IH in H as [H|H]; [left; by right|].
  apply lookup_insert_Some in H as [ [-> ->]|[_ H] ]; [left; by left|by right].
Qed.

(** The map from numbers to LIDs inverts the one from LIDs to numbers. *)
Lemma pn_to_lid_inverse (m : gmap str Jid) (l : str) (p : Jid) :
  (forall l' p', m !! l' = Some p' -> user p' = user p -> l' = l) -> m !! l = Some p -> build_pn_to_lid_map m !! user p = Some (lid l).
Proof.
  intros Hinj Hm. unfold build_pn_to_lid_map. apply elem_of_list_to_map_1'.
  - intros y (e & [= E ->] & He)%list_elem_of_fmap. destruct e as [l' p']. apply elem_of_map_to_list in He. cbn in *. by rewrite (Hinj l' p').
  - apply list_elem_of_fmap. exists (l, p). split; [done|]. by apply elem_of_map_to_list.
Qed.

(** The information of a group is what the server said.  The participants are
    those of the answer; in a group addressed by LIDs, every participant with a
    phone number is found by either id, and a device addressed by the number is
    turned into the same device addressed by the LID; the information is cached,
    and as long as it is, the server is not asked again. *)
Theorem query_info_spec send_iq show_iq_error jid mode (members : list (Jid * option Jid)) c :
  group_cache_get jid c = None -> send_iq (group_query jid) = Ok (group_response mode members) ->
  Forall member_wf members -> NoDup (numbers members).*1 -> NoDup (map (fun e => user e.2) (numbers members)) ->
  exists info c', query_info send_iq show_iq_error jid c = (Ok info, c')
    /\ gi_participants info = members.*1 /\ gi_addressing_mode info = mode
    /\ (mode = AM_Lid -> forall j p, (j, Some p) ∈ members ->
          phone_jid_for_lid_user (user j) info = Some p /\ lid_jid_for_phone_user (user p) info = Some (lid (user j))
          /\ forall n, is_pn p = true -> phone_device_jid_to_lid info (with_device p n) = lid_device (user j) n)
    /\ (mode = AM_Pn -> forall u, phone_jid_for_lid_user u info = None)
    /\ forall send2 show2, query_info send2 show2 jid c' = (Ok info, c').
Proof.
  intros Hc Hs Hwf Hl Hp. unfold query_info at 1. rewrite Hc. unfold mbind', mlift. rewrite Hs. cbn [map_err].
  set (node := mkNode (lit "group") [(lit "addressing_mode", match mode with AM_Lid => lit "lid" | AM_Pn => lit "pn" end)]
                 (Some (NC_Nodes (map participant_node members)))).
  assert (addressing_mode_of node = mode) as Hmode by (by destruct mode).
  change (get_optional_child (group_response mode members) (lit "group")) with (Some node). cbn [ok_or].
  set (m := match mode with AM_Lid => fold_left (fun m e => <[e.1 := e.2]> m) (numbers members) (∅ : gmap str Jid) | AM_Pn => ∅ end).
  assert (parse_group_info node = mkGroupInfo members.*1 mode m (build_pn_to_lid_map m)) as ->.
  { unfold parse_group_info. rewrite Hmode. unfold get_children_by_tag. cbn [children node content]. rewrite filter_map_all by done.
    rewrite (parse_members mode members [] ∅ Hwf). fold m. case_bool_decide as E; [|done]. rewrite E. cbn. done. }
  eexists _, _. split; [reflexivity|]. split; [done|]. split; [done|]. split; [|split].
  - intros -> j p Hin. assert ((user j, p) ∈ numbers members) as Hn by (apply list_elem_of_omap; by exists (j, Some p)).
    assert (m !! user j = Some p) as Hm by (by apply fold_insert_lookup).
    assert (build_pn_to_lid_map m !! user p = Some (lid (user j))) as Hb.
    { apply pn_to_lid_inverse; [|done]. intros l' p' [Hin'|Hin']%fold_insert_inv E; [|by rewrite lookup_empty in Hin'].
      apply list_elem_of_lookup in Hn as [i Hi], Hin' as [i' Hi'].
      assert (i = i') as ->; [|congruence].
      apply (NoDup_lookup (map (fun e : str * Jid => user e.2) (numbers members)) i i' (user p) Hp).
      - by rewrite list_lookup_fmap, Hi.
      - rewrite list_lookup_fmap, Hi'. cbn. by rewrite E. }
    split; [done|]. split; [done|]. intros n Hpn. unfold phone_device_jid_to_lid.
    change (is_pn (with_device p n)) with (is_pn p). rewrite Hpn. unfold lid_jid_for_phone_user. cbn [gi_pn_to_lid_map with_device user device].
    by rewrite Hb.
  - intros -> u. unfold phone_jid_for_lid_user. cbn. apply lookup_empty.
  - intros send2 show2. unfold query_info, group_cache_get, group_cache_insert. cbn. by rewrite bool_decide_true by done.
Qed.

Lemma query_info_spec_witness :
  exists info c', query_info (fun _ => Ok (group_response AM_Lid [(lid (lit "900"), Some (pn (lit "111"))); (lid (lit "901"), None)])) (fun _ => [])
      (group (lit "42")) [] = (Ok info, c')
    /\ phone_device_jid_to_lid info (pn_device (lit "111") 3) = lid_device (lit "900") 3.
Proof.
  destruct (query_info_spec (fun _ => Ok (group_response AM_Lid [(lid (lit "900"), Some (pn (lit "111"))); (lid (lit "901"), None)])) (fun _ => [])
    (group (lit "42")) AM_Lid [(lid (lit "900"), Some (pn (lit "111"))); (lid (lit "901"), None)] []) as (info & c' & E & _ & _ & H & _).
  - reflexivity.
  - reflexivity.
  - repeat constructor.
  - apply NoDup_singleton.
  - apply NoDup_singleton.
  - exists info, c'. split; [exact E|]. destruct (H eq_refl (lid (lit "900")) (pn (lit "111"))) as (_ & _ & Hd); [by left|]. by apply Hd.
Defined.
