(* ===== verification/ClientSend.v ===== *)
(** * ClientSend: [src/send.rs], [src/client/context_impl.rs] and the table of
      sender key recipients of the SQLite store

    The client's side of sending: it finds out what it needs to know of a
    contact or a group, decides which devices of a group still lack the sender
    key, has the stanza made, keeps the message for retries and hands the
    stanza to the socket.  Session locks have no effect on a single send and
    are left out.  The theorems show to whom the sender key of a group goes and
    what is recorded, with the two cases in which devices are recorded that
    never got it. *)

From stdpp Require Import gmap.
From S2P Require Import Prelude RustStd Crypto Curve Jid Node Attrs Messages SenderKeys GroupCipher Session SessionCipher SessionRatchet PreKeys.
From S2P Require Import Noise Connection Device Requests Pairing DeviceStore KeyServer Persistence LidPn Registry Establish Retry Receive.
From S2P Require Import ReportingToken SendStores Send Usync Groups.

(** ** The table of recipients *)

(** The rows of one device: group and recipient. *)
Definition Recipients : Type := gset (str * str).

Definition get_skdm_recipients (io : outcome StoreError unit) (group_jid : str) (t : Recipients) : outcome StoreError (list str) :=
  let? _ := io in Ok (map snd (elements (filter (fun r => r.1 = group_jid) t))).

(** One statement for each recipient; [io] is its verdict. *)
Definition add_skdm_recipients (io : str -> outcome StoreError unit) (group_jid : str) (device_jids : list str) : comp Recipients StoreError unit :=
  mfor (fun device_jid t => match io device_jid with
                            | Ok _ => (Ok tt, {[(group_jid, device_jid)]} ∪ t)
                            | Err e => (Err e, t)
                            | Panic => (Panic, t)
                            | NoFuel => (NoFuel, t)
                            end) device_jids.

Definition clear_skdm_recipients (io : outcome StoreError unit) (group_jid : str) : comp Recipients StoreError unit :=
  fun t => match io with
           | Ok _ => (Ok tt, filter (fun r => r.1 <> group_jid) t)
           | Err e => (Err e, t)
           | Panic => (Panic, t)
           | NoFuel => (NoFuel, t)
           end.

(** ** The client *)

(** The answers of the client to the pipeline. *)
#[export] Instance client_resolver `{HC : !Curve25519, HJ : !DeviceJson} (io : UsyncIo) (show_iq_error : ClientIqError -> str) (now : i64)
    (order : list Jid -> list Jid) (sid : str) (show_node : Node -> str) (show_error : SignalProtocolError -> str)
    : SendContextResolver UsyncClient := {
  resolve_devices := get_user_devices io show_iq_error now order sid;
  fetch_prekeys_for_identity_check jids :=
    mlift (fetch_pre_keys (ui_send_iq io) show_node show_error show_iq_error jids (Some (lit "identity")));
  get_lid_for_phone p s := get_current_lid p (lids_of s)
}.

(** Besides the stores: the groups that are cached, the messages kept for
    retries, the forget marks, the recipients of sender keys, and the stanzas
    handed to the socket. *)
Record ClientState (B I G X : Type) := mkClientState {
  cl_sending : SendState B I G X; cl_groups : list (Jid * GroupInfo); cl_recent : list (Jid * str * bytes);
  cl_marks : gset (str * str); cl_recipients : Recipients; cl_sent : list Node
}.
Arguments mkClientState {B I G X} _ _ _ _ _ _.
Arguments cl_sending {B I G X} _.
Arguments cl_groups {B I G X} _.
Arguments cl_recent {B I G X} _.
Arguments cl_marks {B I G X} _.
Arguments cl_recipients {B I G X} _.
Arguments cl_sent {B I G X} _.

(** The verdicts of the socket and the data base. *)
Record ClientIo := mkClientIo {
  ci_send_iq : InfoQuery -> outcome ClientIqError Node;
  ci_marks : outcome StoreError unit;
  ci_recipients : outcome StoreError unit;
  ci_add : str -> outcome StoreError unit;
  ci_clear : outcome StoreError unit;
  ci_send_node : Node -> outcome ClientError unit
}.

Section Client.
Context `{HK : !Hkdf, HS : !Hashes, HA : !AesCbc, HC : !Curve25519, HP : !SignalProto, HG : !SenderKeyProto, HV : !AdvProto}.
Context {M R B I G X : Type} `{HRM : !ReportMessage M R, HOM : !OutgoingMessage M R}.
Context `{HB : !SessionStore B, HBB : !BatchSessions B, HI : !IdentityKeyStore I, HSK : !SenderKeyStore G, HX : !SendContextResolver X}.
Context (show_debug : SignalProtocolError -> str).
Context (order_sessions : list ProtocolAddress -> list ProtocolAddress).
Context (order_identities : list (ProtocolAddress * IdentityKey) -> list (ProtocolAddress * IdentityKey)).
Context (b64_url_no_pad : bytes -> str).
Context (show_node : Node -> str) (show_error : SignalProtocolError -> str) (show_iq_error : ClientIqError -> str) (show_client_error : ClientError -> str).
Context (contains_session : ProtocolAddress -> B -> outcome str bool).
(** the LIDs the client knows, the account's device, what is outside *)
Context (client_lids : X -> LidPnCache) (own : Device.Device) (io : ClientIo).
(** the draws of a stanza, of a stanza made again, and of sessions made before *)
Context (dr dr_retry : Draws) (rnds : Jid -> bytes * bytes).
Abbreviation client := (ClientState B I G X).

Definition on_sending {A} (m : comp (SendState B I G X) SendError A) : comp client SendError A :=
  fun s => let '(o, sd) := m (cl_sending s) in
           (o, mkClientState sd (cl_groups s) (cl_recent s) (cl_marks s) (cl_recipients s) (cl_sent s)).
Definition group_info_of (jid : Jid) : comp client SendError GroupInfo :=
  fun s => let '(o, groups) := query_info (ci_send_iq io) show_iq_error jid (cl_groups s) in
           (map_err SE_Other o, mkClientState (cl_sending s) groups (cl_recent s) (cl_marks s) (cl_recipients s) (cl_sent s)).
Definition keep_recent (to : Jid) (id : str) (message : M) : comp client SendError unit :=
  fun s => (Ok tt, mkClientState (cl_sending s) (cl_groups s) (add_recent_message to id (rm_encode message) (cl_recent s))
                     (cl_marks s) (cl_recipients s) (cl_sent s)).
(** [unwrap_or_default] *)
Definition take_marks (group_jid : str) : comp client SendError (list str) :=
  fun s => match ci_marks io with
           | Ok _ => let '(l, marks) := consume_forget_marks group_jid (cl_marks s) in
                     (Ok l, mkClientState (cl_sending s) (cl_groups s) (cl_recent s) marks (cl_recipients s) (cl_sent s))
           | _ => (Ok [], s)
           end.
Definition known_recipients (group_jid : str) : comp client SendError (list str) :=
  fun s => (Ok match get_skdm_recipients (ci_recipients io) group_jid (cl_recipients s) with Ok l => l | _ => [] end, s).
(** A failure is logged. *)
Definition on_recipients (m : comp Recipients StoreError unit) : comp client SendError unit :=
  fun s => (Ok tt, mkClientState (cl_sending s) (cl_groups s) (cl_recent s) (cl_marks s) (m (cl_recipients s)).2 (cl_sent s)).
Definition resolve (jids : list Jid) : comp client SendError (SendError + list Jid) :=
  fun s => caught (on_sending (on_client (resolve_devices jids))) s.

(** The devices that lack the key, when it is not sent to all of them. *)
Definition skdm_target_devices (to : Jid) (g : GroupInfo) (force_skdm : bool) : comp client SendError (option (list Jid)) :=
  if force_skdm then mret None
  else
    let! known := known_recipients (jid_to_string to) in
    match known with
    | [] => mret None
    | _ =>
        let! resolved := resolve (map to_non_ad (gi_participants g)) in
        mret (match resolved with
              | inr all_devices => Some (List.filter (fun device => negb (bool_decide (jid_to_string device ∈ known))) all_devices)
              | inl _ => None
              end)
    end.

(** Marked devices are added, unless everybody gets the key. *)
Definition with_marked (marked : list str) (targets : option (list Jid)) : option (list Jid) :=
  match marked with
  | [] => targets
  | _ => match targets with
         | None => None
         | Some devices =>
             Some (fold_left (fun devices marked_jid_str =>
               match from_str marked_jid_str with
               | Ok marked_jid => if existsb (fun d => jid_to_string d =s marked_jid_str) devices then devices else devices ++ [marked_jid]
               | _ => devices
               end) marked devices)
         end
  end.

(** What is recorded after the stanza was made. *)
Definition record_recipients (to : Jid) (g : GroupInfo) (force_skdm : bool) (targets : option (list Jid)) : comp client SendError unit :=
  let devices_receiving_skdm := match targets with Some devices => map jid_to_string devices | None => [] end in
  match devices_receiving_skdm with
  | _ :: _ => on_recipients (add_skdm_recipients (ci_add io) (jid_to_string to) devices_receiving_skdm)
  | [] =>
      if force_skdm || match targets with None => true | Some _ => false end then
        let! resolved := resolve (map to_non_ad (gi_participants g)) in
        match resolved with
        | inr all_devices => on_recipients (add_skdm_recipients (ci_add io) (jid_to_string to) (map jid_to_string all_devices))
        | inl _ => mret tt
        end
      else mret tt
  end.

Definition group_stanza (d : Draws) (own_jid own_lid to : Jid) (message : M) (request_id : str) (force : bool) (targets : option (list Jid))
    (edit : option EditAttribute) (g : GroupInfo) : comp client SendError (SendError + Node * GroupInfo) :=
  fun s =>
    let '(o, (sd, g)) := prepare_group_stanza show_debug order_sessions order_identities b64_url_no_pad d own_jid own_lid
                           (d_account own) to message request_id force targets edit (cl_sending s, g) in
    let s := mkClientState sd (cl_groups s) (cl_recent s) (cl_marks s) (cl_recipients s) (cl_sent s) in
    match o with
    | Ok node => (Ok (inr (node, g)), s)
    | Err e => (Ok (inl e), s)
    | Panic => (Panic, s)
    | NoFuel => (NoFuel, s)
    end.

Definition sender_key_exists (to own_sending : Jid) : comp client SendError bool :=
  on_sending (on_group_keys (let! loaded := signal (load_sender_key (sender_key_name to own_sending)) in
                             mret (match loaded with Some _ => true | None => false end))).

(** The information of the group has this account among the participants. *)
Definition with_self (own_sending : Jid) (g : GroupInfo) : GroupInfo :=
  if existsb (fun p => is_same_user_as p own_sending) (gi_participants g) then g
  else mkGroupInfo (gi_participants g ++ [to_non_ad own_sending]) (gi_addressing_mode g) (gi_lid_to_pn_map g) (gi_pn_to_lid_map g).

(** From the choice of the devices on. *)
Definition finish_group_stanza (to : Jid) (message : M) (request_id : str) (edit : option EditAttribute) (own_jid own_lid : Jid)
    (g : GroupInfo) (force_skdm : bool) (marked : list str) : comp client SendError Node :=
  let! targets := skdm_target_devices to g force_skdm in
  let targets := with_marked marked targets in
  let! result := group_stanza dr own_jid own_lid to message request_id force_skdm targets edit g in
  match result with
  | inr (stanza, g) => record_recipients to g force_skdm targets ;; mret stanza
  | inl (SE_Signal (NoSenderKeyState _)) =>
      on_recipients (clear_skdm_recipients (ci_clear io) (jid_to_string to)) ;;
      let! retry_res := group_stanza dr_retry own_jid own_lid to message request_id true None edit g in
      match retry_res with inr (stanza, _) => mret stanza | inl e => mfail e end
  | inl e => mfail e
  end.

Definition make_group_stanza (to : Jid) (message : M) (request_id : str) (force_key_distribution : bool) (edit : option EditAttribute)
    : comp client SendError Node :=
  let! g := group_info_of to in
  let! own_jid := mlift (ok_or (SE_Other (lit "Not logged in")) (d_pn own)) in
  let! own_lid := mlift (ok_or (SE_Other (lit "LID not set, cannot send to group")) (d_lid own)) in
  keep_recent to request_id message ;;
  let own_sending := own_sending_jid g own_jid own_lid in
  let g := with_self own_sending g in
  let! key_exists := sender_key_exists to own_sending in
  let! marked := take_marks (jid_to_string to) in
  finish_group_stanza to message request_id edit own_jid own_lid g (force_key_distribution || negb key_exists) marked.

Definition make_dm_stanza (to : Jid) (message : M) (request_id : str) (edit : option EditAttribute) : comp client SendError Node :=
  let! recipient_devices := on_sending (on_client (resolve_devices [to])) in
  (fun s =>
     let '(o, st) := ensure_e2e_sessions (ci_send_iq io) show_node show_error show_iq_error contains_session rnds
                       (client_lids (sd_client (cl_sending s))) recipient_devices (sd_stores (cl_sending s)) in
     (map_err SE_Other o, mkClientState (mkSendState st (sd_sender_keys (cl_sending s)) (sd_client (cl_sending s))) (cl_groups s) (cl_recent s)
        (cl_marks s) (cl_recipients s) (cl_sent s))) ;;
  keep_recent to request_id message ;;
  let! own_jid := mlift (ok_or (SE_Other (lit "Not logged in")) (d_pn own)) in
  on_sending (prepare_dm_stanza show_debug order_sessions order_identities dr own_jid (d_account own) to message request_id edit).

Definition send_stanza (stanza : Node) : comp client SendError unit :=
  fun s => (map_err (fun e => SE_Other (show_client_error e)) (ci_send_node io stanza),
            mkClientState (cl_sending s) (cl_groups s) (cl_recent s) (cl_marks s) (cl_recipients s) (cl_sent s ++ [stanza])).

(** [generated]: the identifier drawn when none is given *)
Definition send_message_impl (to : Jid) (message : M) (request_id_override : option str) (generated : str) (peer force_key_distribution : bool)
    (edit : option EditAttribute) : comp client SendError unit :=
  let request_id := some_or generated request_id_override in
  let! stanza_to_send :=
    (if peer && negb (is_group to) then on_sending (prepare_peer_stanza dr to message request_id)
     else if is_group to then make_group_stanza to message request_id force_key_distribution edit
     else make_dm_stanza to message request_id edit) in
  send_stanza stanza_to_send.

Definition send_message (to : Jid) (message : M) (generated : str) : comp client SendError str :=
  send_message_impl to message (Some generated) generated false false None ;; mret generated.
End Client.

(** ** Theory: the table *)

Lemma recipients_added io g l t :
  (forall d, d ∈ l -> io d = Ok tt) ->
  exists t', add_skdm_recipients io g l t = (Ok tt, t') /\ forall r, r ∈ t' <-> r ∈ t \/ exists d, d ∈ l /\ r = (g, d).
Proof.
  revert t. induction l as [|d l IH]; intros t Hio; cbn.
  { exists t. split; [done|]. intros r. split; [by left|]. intros [?|(d & ?%elem_of_nil & _)]; done. }
  unfold mbind'. rewrite (Hio d) by left. destruct (IH ({[(g, d)]} ∪ t)) as (t' & E & Ht'); [intros d' Hd'; apply Hio; by right|].
  exists t'. split; [done|]. intros r. rewrite Ht', elem_of_union, elem_of_singleton. setoid_rewrite elem_of_cons. naive_solver.
Qed.

Lemma recipients_read g t : exists l, get_skdm_recipients (Ok tt) g t = Ok l /\ forall d, d ∈ l <-> (g, d) ∈ t.
Proof.
  eexists. split; [reflexivity|]. intros d. rewrite list_elem_of_fmap. split.
  - intros ([g' d'] & -> & Hr). rewrite elem_of_elements, elem_of_filter in Hr. cbn in *. by destruct Hr as [-> Hr].
  - intros Hr. exists (g, d). split; [done|]. by rewrite elem_of_elements, elem_of_filter.
Qed.

(** ** Theory: marked devices *)

Lemma with_marked_devices marked devices :
  exists l, with_marked marked (Some devices) = Some l
    /\ (forall d, d ∈ l -> d ∈ devices \/ exists m, m ∈ marked /\ from_str m = Ok d)
    /\ (forall d, d ∈ devices -> d ∈ l)
    /\ forall m j, m ∈ marked -> from_str m = Ok j -> exists d, d ∈ l /\ (d = j \/ jid_to_string d = m).
Proof.
  assert (exists l, with_marked marked (Some devices) = Some l /\ l = fold_left (fun devices m =>
    match from_str m with
    | Ok j => if existsb (fun d => jid_to_string d =s m) devices then devices else devices ++ [j]
    | _ => devices
    end) marked devices) as (l & Hl & El) by (destruct marked; eexists; split; reflexivity).
  exists l. split; [done|]. clear Hl. revert devices El. induction marked as [|m marked IH]; intros devices El; cbn in El.
  { subst l. split_and!; [naive_solver|done|]. intros m j ?%elem_of_nil. done. }
  destruct (IH _ El) as (H1 & H2 & H3). clear El IH.
  set (devices' := match from_str m with Ok j => _ | _ => _ end) in *.
  assert (forall d, d ∈ devices -> d ∈ devices') as Hsub.
  { intros d Hd. unfold devices'. destruct (from_str m); try done. destruct (existsb _ _); [done|]. apply elem_of_app. by left. }
  split_and!.
  - intros d Hd. apply H1 in Hd as [Hd|(m' & Hm & Hf)].
    + unfold devices' in Hd. destruct (from_str m) as [j| | |] eqn:Em; try (by left). destruct (existsb _ _); [by left|].
      apply elem_of_app in Hd as [Hd|Hd%list_elem_of_singleton]; [by left|]. right. exists m. subst d. split; [by left|done].
    + right. exists m'. split; [by right|done].
  - intros d Hd. by apply H2, Hsub.
  - intros m' j [->|Hm]%elem_of_cons Hf; [|by apply H3]. unfold devices' in H2. rewrite Hf in H2.
    destruct (existsb _ _) eqn:Ex.
    + apply existsb_exists in Ex as (d & Hd & E). destruct (bytes_eqb_spec (jid_to_string d) m) as [E'|]; [|done]. exists d.
      split; [|by right]. apply H2. by apply list_elem_of_In.
    + exists j. split; [|by left]. apply H2, elem_of_app. right. by apply list_elem_of_singleton.
Qed.

(** ** Theory: the sender key of a group *)

Section Distribution.
Context `{HK : !Hkdf, HS : !Hashes, HA : !AesCbc, HC : !Curve25519, HP : !SignalProto, HG : !SenderKeyProto, HV : !AdvProto}.
Context {M R B I G X : Type} `{HRM : !ReportMessage M R, HOM : !OutgoingMessage M R}.
Context `{HB : !SessionStore B, HBB : !BatchSessions B, HI : !IdentityKeyStore I, HSK : !SenderKeyStore G, HRS : !ReliableStore G}.
Context `{HX : !SendContextResolver X}.
Context (show_debug : SignalProtocolError -> str).
Context (order_sessions : list ProtocolAddress -> list ProtocolAddress).
Context (order_identities : list (ProtocolAddress * IdentityKey) -> list (ProtocolAddress * IdentityKey)).
Context (b64_url_no_pad : bytes -> str) (show_iq_error : ClientIqError -> str).
Context (own : Device.Device) (io : ClientIo) (dr dr_retry : Draws).
Abbreviation client := (ClientState B I G X).
Abbreviation make_stanza := (make_group_stanza show_debug order_sessions order_identities b64_url_no_pad show_iq_error own io dr dr_retry).
Abbreviation finish_stanza := (finish_group_stanza show_debug order_sessions order_identities b64_url_no_pad own io dr dr_retry).
Abbreviation make := (group_stanza show_debug order_sessions order_identities b64_url_no_pad own).
Implicit Types s : client.

Definition has_key (name : SenderKeyName) s : bool :=
  match view_sender_key (sd_sender_keys (cl_sending s)) name with Some _ => true | None => false end.

(** Before the devices are chosen only the kept messages and the marks change. *)
Lemma group_prelude to message id force edit s g own_jid own_lid :
  group_cache_get to (cl_groups s) = Some g -> d_pn own = Some own_jid -> d_lid own = Some own_lid -> ci_marks io = Ok tt ->
  let own_sending := own_sending_jid g own_jid own_lid in
  let marks := consume_forget_marks (jid_to_string to) (cl_marks s) in
  exists keys, (forall n, view_sender_key keys n = view_sender_key (sd_sender_keys (cl_sending s)) n)
    /\ make_stanza to message id force edit s
       = finish_stanza to message id edit own_jid own_lid (with_self own_sending g)
           (force || negb (has_key (sender_key_name to own_sending) s)) marks.1
           (mkClientState (mkSendState (sd_stores (cl_sending s)) keys (sd_client (cl_sending s))) (cl_groups s)
              (add_recent_message to id (rm_encode message) (cl_recent s)) marks.2 (cl_recipients s) (cl_sent s)).
Proof.
  intros Hg Hpn Hlid Hm own_sending marks.
  destruct (load_run (sender_key_name to own_sending) (sd_sender_keys (cl_sending s))) as (keys & E & Hv). exists keys. split; [done|].
  unfold make_group_stanza, group_info_of, mbind', query_info. rewrite Hg. cbn [map_err]. unfold mlift. rewrite Hpn, Hlid. cbn [ok_or].
  unfold keep_recent. cbn [cl_sending cl_groups cl_recent cl_marks cl_recipients cl_sent]. fold own_sending.
  unfold sender_key_exists, on_sending, on_group_keys, signal, mbind'. cbn [cl_sending cl_groups cl_recent cl_marks cl_recipients cl_sent].
  rewrite E. cbn [map_err mret cl_sending cl_groups cl_recent cl_marks cl_recipients cl_sent sd_stores sd_client]. unfold take_marks. rewrite Hm.
  cbn [cl_sending cl_groups cl_recent cl_marks cl_recipients cl_sent]. fold marks. unfold has_key. by destruct marks.
Qed.

Lemma encrypt_key_error group_jid sender_jid p rnd (k : G) m :
  view_sender_key k (sender_key_name group_jid sender_jid) <> None ->
  (encrypt_group_message group_jid sender_jid p rnd k).1 <> Err (SE_Signal (NoSenderKeyState m)).
Proof.
  intros Hv. unfold encrypt_group_message, signal, mbind', mlift. set (name := sender_key_name group_jid sender_jid) in *.
  destruct (load_run name k) as (k1 & -> & _). destruct (view_sender_key k name) as [r|]; [|done]. cbn [ok_or map_err].
  destruct (sender_key_state r) as [st|]; [|done]. cbn [ok_or]. destruct (sender_chain_key st) as [ck|]; [|done]. cbn [ok_or].
  destruct (aes_256_cbc_encrypt_into _ _ _ _) as [ [ []| | |] c]; try done. cbn [map_err].
  destruct (signing_key_private st); [|done]. cbn [ok_or]. unfold skm_new, calculate_signature. cbn [map_err obind].
  unfold sck_next. destruct (_ <? _); [|done]. cbn [map_err]. by destruct (store_returns name (set_state 0 (set_sender_chain_key
    (mkChainKey (sck_iteration ck + 1) (get_derivative ck CHAIN_KEY_SEED)) st) r) k1) as (k2 & ->).
Qed.

(** Nobody is to get the key: the stanza has no part with it, and no session is used. *)
Lemma no_key_sent d own_jid own_lid to message id targets edit g s :
  let own_sending := own_sending_jid g own_jid own_lid in
  targets = None \/ targets = Some [] ->
  view_sender_key (sd_sender_keys (cl_sending s)) (sender_key_name to own_sending) <> None ->
  exists o keys, make d own_jid own_lid to message id false targets edit g s
      = (o, mkClientState (mkSendState (sd_stores (cl_sending s)) keys (sd_client (cl_sending s))) (cl_groups s) (cl_recent s) (cl_marks s)
              (cl_recipients s) (cl_sent s))
    /\ match o with
       | Ok (inr (stanza, g')) => get_children_by_tag stanza (lit "participants") = [] /\ g' = with_participant (to_non_ad own_sending) g
       | Ok (inl e) => forall m, e <> SE_Signal (NoSenderKeyState m)
       | _ => True
       end.
Proof.
  intros own_sending Ht Hk. unfold group_stanza, prepare_group_stanza. fold own_sending.
  destruct (on_token _) as [tok|e| |] eqn:Etok; cbv beta iota; destruct s as [ [st keys x] gs rc mk rp sn];
    cbn [cl_sending cl_groups cl_recent cl_marks cl_recipients cl_sent sd_stores sd_sender_keys sd_client] in *.
  2:{ eexists _, keys. split; [reflexivity|]. intros m ->. unfold on_token in Etok. destruct (generate_reporting_token _ _ _ _ _ _); discriminate. }
  2,3: by eexists _, keys.
  set (m' := message_for_encryption tok message). unfold mbind' at 1.
  assert (forall g0 (sd : SendState B I G X), distribution_list g0 own_sending false targets sd = (Ok None, sd)) as -> by (by destruct Ht as [->| ->]).
  unfold mbind', on_group_keys, mret. cbn [sd_sender_keys sd_stores sd_client].
  pose proof (fun m => encrypt_key_error to own_sending (pad_message_v2 (dr_pad d) (rm_encode m')) (dr_signature d) keys m Hk) as He.
  destruct (encrypt_group_message _ _ _ _ _) as [ [skm|e| |] keys']; cbn [fst] in He; eexists _, keys'; (split; [reflexivity|]).
  - split; [|done]. unfold get_children_by_tag. cbn. by destruct tok.
  - intros m ->. by apply (He m).
  - done.
  - done.
Qed.

Lemma stanza_keeps d own_jid own_lid to message id force targets edit g s o s' :
  make d own_jid own_lid to message id force targets edit g s = (o, s') -> cl_recipients s' = cl_recipients s /\ cl_marks s' = cl_marks s.
Proof. unfold group_stanza. destruct (prepare_group_stanza _ _ _ _ _ _ _ _ _ _ _ _ _ _ _) as [o' [sd g'] ]. by destruct o'; intros [= <- <-]. Qed.

Lemma resolved jids s devices x : resolve_devices jids (sd_client (cl_sending s)) = (Ok devices, x) ->
  resolve jids s = (Ok (inr devices), mkClientState (mkSendState (sd_stores (cl_sending s)) (sd_sender_keys (cl_sending s)) x) (cl_groups s)
                      (cl_recent s) (cl_marks s) (cl_recipients s) (cl_sent s)).
Proof. intros E. unfold resolve, caught, on_sending, on_client. by rewrite E. Qed.

Lemma marks_taken (g : str) (marks : gset (str * str)) :
  (forall m, m ∈ (consume_forget_marks g marks).1 <-> (g, m) ∈ marks) /\ forall m, (g, m) ∉ (consume_forget_marks g marks).2.
Proof.
  unfold consume_forget_marks. cbn [fst snd]. split.
  - intros m. rewrite list_elem_of_fmap. split.
    + intros ([g' m'] & -> & Hr). rewrite elem_of_elements, elem_of_filter in Hr. cbn in *. by destruct Hr as [-> Hr].
    + intros Hr. exists (g, m). split; [done|]. by rewrite elem_of_elements, elem_of_filter.
  - intros m. rewrite elem_of_filter. cbn. tauto.
Qed.

(** A key that was never sent is recorded as sent.  When the sender key of a
    group exists, no recipient is recorded and distribution is not asked for,
    the message goes out without the key; still every device of the
    participants is recorded as having it, so that it will not be sent to them
    later either, and the devices marked for a fresh key lose their marks. *)
Theorem unrecorded_key_not_sent to message id edit s g own_jid own_lid devices x stanza s' :
  let own_sending := own_sending_jid g own_jid own_lid in
  group_cache_get to (cl_groups s) = Some g -> d_pn own = Some own_jid -> d_lid own = Some own_lid -> ci_marks io = Ok tt ->
  has_key (sender_key_name to own_sending) s = true -> (forall r, r ∈ cl_recipients s -> r.1 <> jid_to_string to) ->
  resolve_devices (map to_non_ad (gi_participants (with_participant (to_non_ad own_sending) (with_self own_sending g)))) (sd_client (cl_sending s))
    = (Ok devices, x) ->
  (forall d, ci_add io d = Ok tt) ->
  make_stanza to message id false edit s = (Ok stanza, s') ->
  get_children_by_tag stanza (lit "participants") = [] /\ sd_stores (cl_sending s') = sd_stores (cl_sending s)
  /\ (forall d, d ∈ devices -> (jid_to_string to, jid_to_string d) ∈ cl_recipients s')
  /\ (forall m, (jid_to_string to, m) ∉ cl_marks s').
Proof.
  intros own_sending Hg Hpn Hlid Hm Hk Hrec Hres Hadd.
  destruct (group_prelude to message id false edit s g own_jid own_lid Hg Hpn Hlid Hm) as (keys & Hkeys & ->). fold own_sending. rewrite Hk. cbn [negb orb].
  set (s1 := mkClientState _ _ _ _ _ _). set (g1 := with_self own_sending g) in *.
  assert (skdm_target_devices io to g1 false s1 = (Ok None, s1)) as Ht.
  { unfold skdm_target_devices, known_recipients, mbind'. cbn [cl_recipients s1]. destruct (ci_recipients io) as [ []| | |]; try done.
    destruct (recipients_read (jid_to_string to) (cl_recipients s)) as (l & -> & Hl). destruct l as [|d l]; [done|].
    exfalso. by apply (Hrec (jid_to_string to, d)); [apply Hl; left|]. }
  assert (own_sending_jid g1 own_jid own_lid = own_sending) as Ho.
  { unfold g1, with_self, own_sending_jid. by destruct (existsb _ _). }
  destruct (no_key_sent dr own_jid own_lid to message id None edit g1 s1) as (o & keys' & E & Hout); [by left| |].
  { rewrite Ho. cbn. rewrite Hkeys. unfold has_key in Hk. by destruct (view_sender_key _ _). }
  unfold finish_group_stanza, mbind'. rewrite Ht.
  assert (with_marked (consume_forget_marks (jid_to_string to) (cl_marks s)).1 None = None) as -> by (by destruct (consume_forget_marks _ _).1).
  rewrite E. destruct o as [ [e|[st' g'] ]| | |]; try done.
  { destruct e as [ [] |]; try done. intros H. by destruct (Hout msg). }
  destruct Hout as [Hno Hg']. rewrite Ho in Hg'. subst g'. unfold record_recipients. cbn [orb]. unfold mbind'.
  erewrite resolved by exact Hres. unfold on_recipients. cbn [cl_recipients cl_sending cl_marks s1 sd_stores].
  intros [= <- <-]. cbn [cl_recipients cl_sending cl_marks sd_stores]. split_and!; [done|done| |].
  - intros d Hd. destruct (recipients_added (ci_add io) (jid_to_string to) (map jid_to_string devices) (cl_recipients s)) as (t & -> & Hin); [done|].
    apply Hin. right. exists (jid_to_string d). split; [|done]. by apply list_elem_of_fmap_2.
  - apply marks_taken.
Qed.

(** The sender key goes to the devices that lack it.  When the sender key of a
    group exists, some recipient is recorded and the devices of the
    participants are resolved: there is a list of devices the stanza is made
    for, which has every device that is not recorded and every marked one, and
    nothing else; once the stanza is made, exactly the devices of the list are
    recorded in addition, the marks are gone, and the message is kept for
    retries. *)
Theorem group_targets_spec to message id edit s g own_jid own_lid devices x recorded :
  let own_sending := own_sending_jid g own_jid own_lid in
  let g1 := with_self own_sending g in
  group_cache_get to (cl_groups s) = Some g -> d_pn own = Some own_jid -> d_lid own = Some own_lid -> ci_marks io = Ok tt ->
  has_key (sender_key_name to own_sending) s = true -> ci_recipients io = Ok tt -> (jid_to_string to, recorded) ∈ cl_recipients s ->
  resolve_devices (map to_non_ad (gi_participants g1)) (sd_client (cl_sending s)) = (Ok devices, x) -> (forall d, ci_add io d = Ok tt) ->
  exists targets s1,
    (forall d, d ∈ devices -> (jid_to_string to, jid_to_string d) ∈ cl_recipients s \/ d ∈ targets)
    /\ (forall m j, (jid_to_string to, m) ∈ cl_marks s -> from_str m = Ok j -> exists d, d ∈ targets /\ (d = j \/ jid_to_string d = m))
    /\ (forall d, d ∈ targets -> d ∈ devices /\ (jid_to_string to, jid_to_string d) ∉ cl_recipients s
          \/ exists m, (jid_to_string to, m) ∈ cl_marks s /\ from_str m = Ok d)
    /\ sd_stores (cl_sending s1) = sd_stores (cl_sending s) /\ cl_recipients s1 = cl_recipients s
    /\ (take_recent to id (cl_recent s1)).1 = Some (rm_encode message) /\ (forall m, (jid_to_string to, m) ∉ cl_marks s1)
    /\ forall stanza g2 s2, make dr own_jid own_lid to message id false (Some targets) edit g1 s1 = (Ok (inr (stanza, g2)), s2) ->
         exists s', make_stanza to message id false edit s = (Ok stanza, s') /\ cl_marks s' = cl_marks s1
           /\ forall r, r ∈ cl_recipients s' <-> r ∈ cl_recipients s \/ exists d, d ∈ targets /\ r = (jid_to_string to, jid_to_string d).
Proof.
  intros own_sending g1 Hg Hpn Hlid Hm Hk Hci Hrec Hres Hadd.
  destruct (group_prelude to message id false edit s g own_jid own_lid Hg Hpn Hlid Hm) as (keys & Hkeys & ->). fold own_sending g1. rewrite Hk. cbn [negb orb].
  set (s0 := mkClientState _ _ _ _ _ _).
  destruct (recipients_read (jid_to_string to) (cl_recipients s)) as (known & Eknown & Hknown).
  destruct (marks_taken (jid_to_string to) (cl_marks s)) as [Hmarks Hgone].
  set (fresh := List.filter (fun device => negb (bool_decide (jid_to_string device ∈ known))) devices).
  set (s1 := mkClientState (mkSendState (sd_stores (cl_sending s)) keys x) (cl_groups s) (add_recent_message to id (rm_encode message) (cl_recent s))
               (consume_forget_marks (jid_to_string to) (cl_marks s)).2 (cl_recipients s) (cl_sent s)).
  assert (skdm_target_devices io to g1 false s0 = (Ok (Some fresh), s1)) as Ht.
  { unfold skdm_target_devices, known_recipients, mbind'. cbn [cl_recipients s0]. rewrite Hci, Eknown. destruct known as [|d0 known]; [|].
    - by apply Hknown, elem_of_nil in Hrec.
    - by rewrite (resolved _ s0 devices x) by exact Hres. }
  assert (forall d, d ∈ fresh <-> d ∈ devices /\ (jid_to_string to, jid_to_string d) ∉ cl_recipients s) as Hfresh.
  { intros d. unfold fresh. rewrite list_elem_of_In, filter_In, <- list_elem_of_In, negb_true_iff, bool_decide_eq_false, Hknown. done. }
  destruct (with_marked_devices (consume_forget_marks (jid_to_string to) (cl_marks s)).1 fresh) as (targets & Etargets & H1 & H2 & H3).
  exists targets, s1. split_and!; try done.
  - intros d Hd. destruct (decide ((jid_to_string to, jid_to_string d) ∈ cl_recipients s)); [by left|]. right. by apply H2, Hfresh.
  - intros m j Hmk. apply H3. by apply Hmarks.
  - intros d [Hd|(m & Hmk & Hd)]%H1; [left; by apply Hfresh|right; exists m; by rewrite <- Hmarks].
  - apply take_recent_added.
  - intros stanza g2 s2 E. unfold finish_group_stanza, mbind'. rewrite Ht, Etargets, E. destruct (stanza_keeps _ _ _ _ _ _ _ _ _ _ _ _ _ E) as [Er Em].
    destruct (recipients_added (ci_add io) (jid_to_string to) (map jid_to_string targets) (cl_recipients s)) as (t & Et & Hin); [done|].
    unfold record_recipients. destruct targets as [|d0 ds]; cbn [map orb].
    + eexists. split; [reflexivity|]. split; [done|]. rewrite Er. intros r. split; [by left|]. intros [?|(d & ?%elem_of_nil & _)]; done.
    + cbn [map] in Et, Hin. unfold on_recipients. cbn [cl_recipients]. rewrite Er. change (cl_recipients s1) with (cl_recipients s). rewrite Et.
      eexists. split; [reflexivity|]. split; [done|]. intros r. cbn [cl_recipients snd]. rewrite Hin. change (jid_to_string d0 :: map jid_to_string ds) with (map jid_to_string (d0 :: ds)).
      setoid_rewrite list_elem_of_fmap. naive_solver.
Qed.
End Distribution.

(** ** A group of two devices, one of which has no bundle *)

Definition toy_other_device : Jid := pn_device (lit "77") 4.
Definition toy_group_resolver : SendContextResolver unit := {|
  resolve_devices l x := (Ok [toy_device; toy_other_device], x);
  fetch_prekeys_for_identity_check l x := (Ok [(toy_device, toy_bundle)], x);
  get_lid_for_phone _ _ := None
|}.
Definition toy_group_jid : Jid := group (lit "123").
Definition toy_account : Device.Device := 
  mkDevice (Some toy_sender) (Some (lid (lit "9"))) 44 (toy_pair 2) (toy_pair 3) (toy_pair 4) 1 toy_signature (replicate 32 0)
    (Some (mkAdvSigned None None None None)) (lit "me") 2 3000 1 0 DEVICE_PROPS None.
Definition toy_client_io : ClientIo :=
  mkClientIo (fun _ => Err CI_Timeout) (Ok tt) (Ok tt) (fun _ => Ok tt) (Ok tt) (fun _ => Ok tt).
Definition toy_sender_keys : mem_store :=
  (@create_sender_key_distribution_message_for_group sum_curve toy_proto mem_store toy_store (replicate 32 2) 9 (replicate 32 1)
     toy_group_jid toy_sender (fun _ => None)).2.
Definition toy_sending_client : ClientState sessions tofu mem_store unit :=
  mkClientState (mkSendState (fun _ => None, (toy_identity 1, ∅)) toy_sender_keys tt) [(toy_group_jid, toy_group)] [] ∅
    {[(jid_to_string toy_group_jid, lit "old@s.whatsapp.net")]} [].

Abbreviation toy_make_stanza :=
  (@make_group_stanza toy_hkdf toy_hashes toy_aes sum_curve toy_signal toy_proto toy_adv ToyOut unit sessions tofu mem_store unit toy_report toy_outgoing
     toy_sessions (@default_batch _ toy_sessions) toy_tofu_store toy_store toy_group_resolver (fun _ => []) (fun l => l) (fun l => l) (fun b => b)
     (fun _ => []) toy_account toy_client_io toy_stanza_draws toy_stanza_draws) (only parsing).

(** The device without a bundle gets no key and is recorded all the same. *)
Example unserved_device_recorded :
  let '(o, s') := toy_make_stanza toy_group_jid toy_text (lit "ID") false None toy_sending_client in
  match o with
  | Ok stanza => exists nodes n, get_children_by_tag stanza (lit "participants") = [participants_node nodes] /\ nodes = [n]
                   /\ attr_string n "jid" = jid_to_string toy_device
  | _ => False
  end /\ (jid_to_string toy_group_jid, jid_to_string toy_other_device) ∈ cl_recipients s'.
Proof.
  match goal with |- let '(o, s') := ?r in _ => set (res := r) end.
  assert (match res.1 with
          | Ok stanza => match get_children_by_tag stanza (lit "participants") with
                         | [mkNode t a (Some (NC_Nodes [n]))] => (t =s lit "participants") && bool_decide (a = []) && (attr_string n "jid" =s jid_to_string toy_device)
                         | _ => false
                         end
          | _ => false
          end && bool_decide ((jid_to_string toy_group_jid, jid_to_string toy_other_device) ∈ cl_recipients res.2) = true) as H
    by (vm_compute; reflexivity).
  destruct res as [o s']. cbn [fst snd] in H. apply andb_true_iff in H as [H Hr]. split; [|by apply bool_decide_eq_true in Hr]. destruct o as [stanza| | |]; try done.
  destruct (get_children_by_tag _ _) as [|[t a [ [b|s0|l]|] ] [|] ]; try done. all: destruct l as [|n0 [|] ]; try done.
  rewrite !andb_true_iff, bool_decide_eq_true in H. destruct H as [ [Ht ->] Hn].
  destruct (bytes_eqb_spec t (lit "participants")) as [->|]; [|done]. destruct (bytes_eqb_spec (attr_string n0 "jid") (jid_to_string toy_device)); [|done].
  by exists [n0], n0.
Qed.

Lemma group_targets_spec_witness :
  exists (targets : list Jid) s1, toy_device ∈ targets /\ toy_other_device ∈ targets
    /\ (forall d, d ∈ targets -> d = toy_device \/ d = toy_other_device)
    /\ (take_recent toy_group_jid (lit "ID") (cl_recent (s1 : ClientState sessions tofu mem_store unit))).1 = Some (toy_encode toy_text).
Proof.
  destruct (@group_targets_spec toy_hkdf toy_hashes toy_aes sum_curve toy_signal toy_proto toy_adv ToyOut unit sessions tofu mem_store unit toy_report
    toy_outgoing toy_sessions (@default_batch _ toy_sessions) toy_tofu_store toy_store GroupCipher.toy_reliable toy_group_resolver (fun _ => [])
    (fun l => l) (fun l => l) (fun b => b) (fun _ => []) toy_account toy_client_io toy_stanza_draws toy_stanza_draws toy_group_jid toy_text (lit "ID")
    None toy_sending_client toy_group toy_sender (lid (lit "9")) [toy_device; toy_other_device] tt (lit "old@s.whatsapp.net"))
    as (targets & s1 & H1 & _ & H3 & _ & _ & H6 & _ & _).
  - reflexivity.
  - reflexivity.
  - reflexivity.
  - reflexivity.
  - vm_compute. reflexivity.
  - reflexivity.
  - by apply elem_of_singleton.
  - reflexivity.
  - reflexivity.
  - exists targets, s1. split_and!; [| | |exact H6].
    + destruct (H1 toy_device) as [H|H]; [by left| |done]. unfold toy_sending_client in H. cbn [cl_recipients] in H. apply elem_of_singleton in H. vm_compute in H. discriminate.
    + destruct (H1 toy_other_device) as [H|H]; [right; by left| |done]. unfold toy_sending_client in H. cbn [cl_recipients] in H. apply elem_of_singleton in H. vm_compute in H. discriminate.
    + intros d [ [Hd _]|(m & Hm & _)]%H3; [|unfold toy_sending_client in Hm; cbn [cl_marks] in Hm; by apply elem_of_empty in Hm]. apply elem_of_cons in Hd as [->|Hd]; [by left|].
      apply list_elem_of_singleton in Hd. by right.
Defined.
