(* ===== verification/Delivery.v ===== *)
(** * Delivery: from the sending client to the receiving one

    Composition of [ClientSend] with [Receive] over the parts in between: the
    devices of the contact are resolved, sessions are made with those that
    have none, the message is encrypted for each device through the caches,
    the stanza is handed to the socket, and the client of each device reports
    the message from its part of the stanza. *)

From stdpp Require Import gmap.
From S2P Require Import Prelude RustStd Crypto Curve Jid Node Attrs Messages SenderKeys GroupCipher Session SessionCipher SessionRatchet PreKeys.
From S2P Require Import Noise Connection Device Requests Pairing DeviceStore KeyServer Persistence LidPn Registry Establish Retry Receive.
From S2P Require Import ReportingToken SendStores Send Usync Groups ClientSend.

(** ** Making the sessions beforehand *)

Section Sessions.
Context `{HK : !Hkdf, HS : !Hashes, HA : !AesCbc, HC : !Curve25519, HP : !SignalProto}.
Context {B I K X : Type} `{HB : !SessionStore B, HI : !IdentityKeyStore I, HPK : !PreKeyStore K}.
Context `{HR : !ReliableStores B I K, HSep : !SeparateStores B I, HT : !TofuStore I, HX : !SendContextResolver X}.
Abbreviation st := (B * I)%type.
Context (rnds : Jid -> bytes * bytes).

Lemma establish_one bundles j jids n (s : st) ida lid :
  own_keys s ida lid -> (forall b, bundle_get j bundles = Some b -> signed_bundle b) ->
  exists n' s', establish rnds bundles (j :: jids) n s = establish rnds bundles jids n' s' /\ own_keys s' ida lid
    /\ (forall a, a <> to_protocol_address j -> same_at a s s')
    /\ forall b, bundle_get j bundles = Some b -> s' = (process_prekey_bundle (to_protocol_address j) b (rnds j) s).2.
Proof.
  intros Hk Hs. cbn [establish]. destruct (bundle_get j bundles) as [b|] eqn:Eb; [|by exists n, s]. specialize (Hs b eq_refl).
  pose proof (process_bundle_total (K := K) (to_protocol_address j) b (rnds j) s ida lid (proj1 Hk) (proj2 Hk) Hs) as Ht.
  pose proof (process_bundle_keys (K := K) (to_protocol_address j) b (rnds j) s ida lid Hk) as Hk1.
  pose proof (fun a' Hne => process_bundle_frames (K := K) (to_protocol_address j) b (rnds j) a' Hne s) as Hf.
  destruct (process_prekey_bundle _ b _ s) as [o s1] eqn:Ep. cbn [fst snd] in *.
  destruct (match identity_view s.2 _ with None => true | Some k => _ end); subst o; do 2 eexists; (split; [reflexivity|]);
    (split; [done|]); (split; [exact Hf|]); intros b' [= <-]; by rewrite Ep.
Qed.

Lemma establish_all bundles jids n (s : st) ida lid :
  own_keys s ida lid -> (forall j b, bundle_get j bundles = Some b -> signed_bundle b) ->
  exists n' s', establish rnds bundles jids n s = (Ok n', s') /\ own_keys s' ida lid
    /\ forall a, a ∉ map to_protocol_address jids -> same_at a s s'.
Proof.
  revert n s. induction jids as [|j jids IH]; intros n s Hk Hs; [by exists n, s|].
  destruct (establish_one bundles j jids n s ida lid Hk) as (n1 & s1 & E & Hk1 & Hf & _); [by apply Hs|].
  destruct (IH n1 s1 Hk1 Hs) as (n2 & s2 & E2 & Hk2 & Hf2). exists n2, s2. rewrite E. split; [done|]. split; [done|].
  cbn [map]. intros a [Hne Hn]%not_elem_of_cons. etrans; [by apply Hf|by apply Hf2].
Qed.

(** The session of one of the devices is the one its bundle gives. *)
Lemma establish_at bundles l1 j l2 bundle n (s : st) ida lid :
  own_keys s ida lid -> (forall j b, bundle_get j bundles = Some b -> signed_bundle b) ->
  bundle_get j bundles = Some bundle -> to_protocol_address j ∉ map to_protocol_address (l1 ++ l2) ->
  exists n' s', establish rnds bundles (l1 ++ j :: l2) n s = (Ok n', s') /\ own_keys s' ida lid
    /\ (forall a, a ∉ map to_protocol_address (l1 ++ j :: l2) -> same_at a s s')
    /\ same_at (to_protocol_address j) (process_prekey_bundle (to_protocol_address j) bundle (rnds j) s).2 s'.
Proof.
  intros Hk Hs Hb Hn. set (a := to_protocol_address j) in *. revert n s Hk. induction l1 as [|y l1 IH]; intros n s Hk; cbn [app].
  - destruct (establish_one bundles j l2 n s ida lid Hk) as (n1 & s1 & E & Hk1 & Hf & Hp); [by apply Hs|].
    destruct (establish_all bundles l2 n1 s1 ida lid Hk1 Hs) as (n2 & s2 & E2 & Hk2 & Hf2). exists n2, s2. rewrite E. split; [done|]. split; [done|]. split.
    + cbn [map]. intros a' [Hne Hn']%not_elem_of_cons. etrans; [by apply Hf|by apply Hf2].
    + fold a in Hp. rewrite <- (Hp bundle Hb). by apply Hf2.
  - cbn [app map] in Hn. apply not_elem_of_cons in Hn as [Hne Hn].
    destruct (establish_one bundles y (l1 ++ j :: l2) n s ida lid Hk) as (n1 & s1 & E & Hk1 & Hf & _); [by apply Hs|].
    destruct (IH Hn n1 s1 Hk1) as (n2 & s2 & E2 & Hk2 & Hf2 & Hat). exists n2, s2. rewrite E. split; [done|]. split; [done|]. split.
    + cbn [map]. intros a' [Hne' Hn']%not_elem_of_cons. etrans; [by apply Hf|by apply Hf2].
    + etrans; [|exact Hat]. destruct (process_bundle_local (K := K) a bundle (rnds j) s s1 (Hf a Hne)) as [_ Hl].
      by destruct (process_prekey_bundle a bundle (rnds j) s) as [ [] ?].
Qed.

(** ** Encrypting for a device that has a session *)

Context (show_debug : SignalProtocolError -> str) (draws : nat -> (bytes * bytes) * (bytes * bytes)).

Lemma phases_existing x tasks extra t (s s0 : st) ida lid e c s0' enc_type is_prekey serialized :
  own_keys s ida lid -> t ∈ tasks -> plan x s.1 (dt_device_jid t) = (e, false) -> NoDup tasks ->
  (forall t', t' ∈ tasks -> t' <> t -> to_protocol_address (plan x s.1 (dt_device_jid t')).1 <> to_protocol_address e) ->
  (exists bundles x', fetch_prekeys_for_identity_check (needing x s.1 tasks) x = (Ok bundles, x')
     /\ forall j b, bundle_get j bundles = Some b -> signed_bundle b) ->
  same_at (to_protocol_address e) s s0 -> message_encrypt (dt_plaintext t) (to_protocol_address e) s0 = (Ok c, s0') ->
  enc_payload c = Some (enc_type, is_prekey, serialized) ->
  exists nodes flag s' x', encrypt_phases show_debug draws tasks extra (s, x) = (Ok (nodes, flag), (s', x'))
    /\ device_node (dt_device_jid t) enc_type serialized extra ∈ nodes.
Proof.
  intros Hk Ht Hplan Hnd Hne (bundles & x' & Hfetch & Hsig) Hs0 He Hpay.
  pose proof (plan_spec x s.1 (dt_device_jid t)) as Hsome. rewrite Hplan in Hsome.
  set (m := rev (map (fun t => (dt_device_jid t, (plan x s.1 (dt_device_jid t)).1)) tasks)).
  assert (forall t', t' ∈ tasks -> task_address m t' = to_protocol_address (plan x s.1 (dt_device_jid t')).1) as Hta.
  { intros t' Ht'. unfold task_address, m. rewrite (jid_get_plan (fun j => (plan x s.1 j).1)); [done|]. by apply list_elem_of_fmap_2. }
  assert (to_protocol_address e ∉ map to_protocol_address (needing x s.1 tasks)) as Hna.
  { intros (j & Ej & Hj)%list_elem_of_fmap. apply list_elem_of_In, List.filter_In in Hj as [_ Hj]. pose proof (plan_spec x s.1 j) as Hpj.
    destruct (plan x s.1 j) as [e' fresh]. cbn in Hj. subst fresh. destruct Hpj as [_ Hnone]. rewrite Ej, Hnone in Hsome. by destruct Hsome. }
  assert (exists s1 x1, establish_missing_sessions show_debug draws (needing x s.1 tasks) (s, x) = (Ok tt, (s1, x1))
    /\ same_at (to_protocol_address e) s s1) as (s1 & x1 & E1 & Hs1).
  { unfold establish_missing_sessions. destruct (needing x s.1 tasks) as [|y l] eqn:En; [by exists s, x|]. rewrite <- En in *.
    unfold mbind', on_resolver, SendStores.on_stores. cbn [fst snd]. rewrite Hfetch. cbn [map_err fst snd].
    destruct (process_bundles_total (K := K) show_debug draws 0 bundles (needing x s.1 tasks) s ida lid Hk) as (s1 & -> & _ & Hf); [by intros; eapply Hsig|].
    exists s1, x'. split; [done|]. by apply Hf. }
  pose proof Ht as Ht0. apply list_elem_of_split in Ht as (t1 & t2 & Etasks).
  destruct (encrypt_tasks_at (K := K) m extra t1 t t2 [] false s1 s0 c s0' enc_type is_prekey serialized) as (nodes & flag & s4 & E4 & Hin & _); [| | |done|].
  - intros t' Ht'. assert (t' ∈ tasks) as Hin by (rewrite Etasks; set_solver). rewrite !Hta by done. rewrite Hplan. apply Hne; [done|].
    intros ->. rewrite Etasks, NoDup_app in Hnd. destruct Hnd as (_ & Hd & [Hd2 _]%NoDup_cons). apply elem_of_app in Ht' as [Ht'|Ht']; [|done].
    apply (Hd t Ht'). by left.
  - rewrite Hta by done. rewrite Hplan. cbn [fst]. etrans; [by symmetry|done].
  - rewrite Hta by done. rewrite Hplan. exact He.
  - exists nodes, flag, s4, x1. split; [|done]. unfold encrypt_phases, mbind', SendStores.on_stores. cbn [fst snd].
    rewrite session_map_plain. cbn [fst snd app]. rewrite app_nil_r. fold m. rewrite E1. cbn [fst snd]. rewrite <- Etasks in E4. by rewrite E4.
Qed.
End Sessions.

(** ** From client to client *)

Section Client.
Context `{HK : !Hkdf, HS : !Hashes, HA : !AesCbc, HC : !Curve25519, HP : !SignalProto, HG : !SenderKeyProto, HJ : !DeviceJson, HV : !AdvProto}.
Context {B I K S G M H R X : Type}.
Context `{HB : !SessionStore B, HBB : !BatchSessions B, HI : !IdentityKeyStore I, HPK : !PreKeyStore K, HSP : !SignedPreKeyStore S}.
Context `{HSK : !SenderKeyStore G, HR : !ReliableStores B I K, HSep : !SeparateStores B I, HT : !TofuStore I}.
Context `{HM : !WaMessage M H, HRM : !ReportMessage M R, HOM : !OutgoingMessage M R, HX : !SendContextResolver X}.
(** both interfaces encode a message the same way *)
Context (same_encoding : forall m, rm_encode m = wm_encode m).
Context (show_debug : SignalProtocolError -> str).
Context (order_sessions : list ProtocolAddress -> list ProtocolAddress) (order_sessions_ok : forall l, order_sessions l ≡ₚ l).
Context (order_identities : list (ProtocolAddress * IdentityKey) -> list (ProtocolAddress * IdentityKey)).
Context (order_identities_ok : forall l, order_identities l ≡ₚ l).
Context (fetch_one_identity : forall jids (x : X) bundles x', fetch_prekeys_for_identity_check jids x = (Ok bundles, x') -> one_identity bundles).
(** the sending client *)
Context (b64_url_no_pad : bytes -> str).
Context (show_node : Node -> str) (show_error : SignalProtocolError -> str) (show_iq_error : ClientIqError -> str) (show_client_error : ClientError -> str).
Context (contains_session : ProtocolAddress -> B -> outcome str bool).
Context (contains_view : forall a b, contains_session a b = Ok (bool_decide (is_Some (view_session b a)))).
Context (client_lids : X -> LidPnCache) (lids_agree : forall p x, get_lid_for_phone p x = get_current_lid p (client_lids x)).
Context (own : Device.Device) (cio : ClientIo) (dr dr_retry : Draws) (rnds : Jid -> bytes * bytes).
(** the receiving client *)
Context (delete_session : ProtocolAddress -> comp B str unit) (delete_identity : ProtocolAddress -> comp I str unit).
Context (valid_time : i64 -> bool) (custom : str -> bool) (io : RecvIo) (now : i64) (d : Device) (signed : S).
Implicit Types s : RecvState (B * I * K) G M H.

(** The devices among [devs] that have no session, by the addresses sessions are
    kept under. *)
Definition lacking (x : X) (b : B) (devs : list Jid) : list Jid :=
  needing_sessions contains_session (resolve_lid_mappings (client_lids x) devs) b.

(** What it takes to reach the device [j] of a contact, whose sessions are kept
    under [e]: it has no session, its bundle is served, the client behind it
    (in state [s], which sees the sender as [jid]) can be written to, and no
    other device shares its addresses. *)
Record contactable (to own_jid : Jid) (sd : SendState B I G X) (devs all : list Jid) (x1 x2 : X) (j e jid : Jid) (rnd : bytes) s : Prop := {
  ct_devices : resolve_devices [to] (sd_client sd) = (Ok devs, x1);
  ct_all : resolve_devices (map to_non_ad (retain_first (fun j => (user j, server j)) [] [to; own_jid])) x1 = (Ok all, x2);
  ct_in : j ∈ devs /\ j ∈ all /\ NoDup devs;
  ct_address : resolve_lid_mapping (client_lids x1) j = e /\ resolve_lid_mapping (client_lids x2) j = e;
  ct_new : view_session (sd_stores sd).1 (to_protocol_address j) = None /\ view_session (sd_stores sd).1 (to_protocol_address e) = None;
  ct_batch : (length (lacking x1 (sd_stores sd).1 devs) <= SESSION_CHECK_BATCH_SIZE)%nat;
  ct_served : exists bundles bundle,
    fetch_pre_keys (ci_send_iq cio) show_node show_error show_iq_error (lacking x1 (sd_stores sd).1 devs) (Some (lit "identity")) = Ok bundles
    /\ (forall j' b, bundle_get j' bundles = Some b -> signed_bundle b) /\ bundle_get e bundles = Some bundle
    /\ can_write signed bundle jid (to_protocol_address e) (rnds e) rnd (sd_stores sd).2 s;
  ct_apart : forall j', j' ∈ devs \/ j' ∈ all -> j' <> j ->
    forall k, k = j' \/ k = resolve_lid_mapping (client_lids x1) j' \/ k = resolve_lid_mapping (client_lids x2) j' ->
      to_protocol_address k <> to_protocol_address j /\ to_protocol_address k <> to_protocol_address e;
  ct_rest : forall l, exists bundles x', fetch_prekeys_for_identity_check l x2 = (Ok bundles, x')
    /\ forall j' b, bundle_get j' bundles = Some b -> signed_bundle b
}.

Lemma lacking_elem x b devs k :
  k ∈ lacking x b devs <-> (exists j, j ∈ devs /\ k = resolve_lid_mapping (client_lids x) j) /\ view_session b (to_protocol_address k) = None.
Proof.
  unfold lacking, resolve_lid_mappings. induction devs as [|j devs IH]; cbn [map needing_sessions].
  { split; [by intros ?%elem_of_nil|]. by intros [(j & ?%elem_of_nil & _) _]. }
  rewrite contains_view. case_bool_decide as E.
  - rewrite IH. split; intros [(j' & Hj & ->) Hn]; (split; [|done]).
    + exists j'. split; [by right|done].
    + apply elem_of_cons in Hj as [->|Hj]; [|by exists j']. rewrite Hn in E. by destruct E.
  - rewrite elem_of_cons, IH. apply eq_None_not_Some in E. split.
    + intros [->|[(j' & Hj & ->) Hn] ]; (split; [|done]); [exists j; split; [by left|done]|exists j'; split; [by right|done] ].
    + intros [(j' & Hj & ->) Hn]. apply elem_of_cons in Hj as [->|Hj]; [by left|]. right. split; [by exists j'|done].
Qed.

Lemma chunks_small {A} n (l : list A) : l <> [] -> (length l <= n)%nat -> chunks n l = [l].
Proof.
  intros Hne Hl. unfold chunks, as_chunks. destruct l as [|y l]; [done|]. cbn [length chunks_fuel]. case_decide as E; [|done].
  cbn [length] in *. rewrite take_ge, drop_ge by (cbn; lia). assert (chunks_fuel (length l) n (@nil A) = ([], [])) as ->.
  { destruct (length l); [done|]. cbn. by case_decide; [lia|]. }
  done.
Qed.

Lemma lacking_split x b devs j e : NoDup devs -> j ∈ devs -> resolve_lid_mapping (client_lids x) j = e ->
  view_session b (to_protocol_address e) = None -> (forall j', j' ∈ devs -> j' <> j -> resolve_lid_mapping (client_lids x) j' <> e) ->
  exists l1 l2, lacking x b devs = l1 ++ e :: l2 /\ e ∉ l1 ++ l2.
Proof.
  intros Hnd Hj He Hv Hne. apply list_elem_of_split in Hj as (d1 & d2 & ->). exists (lacking x b d1), (lacking x b d2). split.
  - unfold lacking, resolve_lid_mappings. clear Hnd Hne. induction d1 as [|j0 d1 IH]; cbn [app map needing_sessions]; rewrite contains_view.
    + rewrite He, bool_decide_false by (rewrite Hv; by intros [? ?]). done.
    + rewrite IH. by case_bool_decide.
  - apply NoDup_app in Hnd as (_ & Hd1 & [Hd2 _]%NoDup_cons). rewrite elem_of_app. intros [ [(j' & Hj' & E) _]%lacking_elem|[(j' & Hj' & E) _]%lacking_elem].
    + apply (Hne j'); [set_solver| |done]. intros ->. apply (Hd1 j Hj'). by left.
    + apply (Hne j'); [set_solver| |done]. by intros ->.
Qed.

(** Making sure of sessions: the one of the device is the one its bundle gives. *)
Lemma ensured to own_jid sd devs all x1 x2 j e jid rnd s : contactable to own_jid sd devs all x1 x2 j e jid rnd s ->
  exists st1 bundle ida lida, ensure_e2e_sessions (ci_send_iq cio) show_node show_error show_iq_error contains_session rnds (client_lids x1) devs (sd_stores sd)
      = (Ok tt, st1)
    /\ own_keys st1 ida lida /\ can_write signed bundle jid (to_protocol_address e) (rnds e) rnd (sd_stores sd).2 s
    /\ same_at (to_protocol_address e) (process_prekey_bundle (to_protocol_address e) bundle (rnds e) (sd_stores sd)).2 st1
    /\ (to_protocol_address j <> to_protocol_address e -> same_at (to_protocol_address j) (sd_stores sd) st1).
Proof.
  intros [Hdev Hall (Hj & _ & Hnd) [He _] [Hnj Hne] Hb (bundles & bundle & Hf & Hsig & Hbun & Hcw) Hap _].
  pose proof Hcw as [_ (ida & lida & Hi & _ & Hl & _) _ _].
  assert (e ∈ lacking x1 (sd_stores sd).1 devs) as Hin by (apply lacking_elem; split; [by exists j|done]).
  assert (forall k, k ∈ lacking x1 (sd_stores sd).1 devs -> k <> e -> to_protocol_address k <> to_protocol_address e /\ to_protocol_address k <> to_protocol_address j) as Hother.
  { intros k [(j' & Hj' & ->) _]%lacking_elem Hk. destruct (Hap j' (or_introl Hj')) with (k := resolve_lid_mapping (client_lids x1) j'); [congruence|tauto|done]. }
  assert (exists l1 l2, lacking x1 (sd_stores sd).1 devs = l1 ++ e :: l2 /\ e ∉ l1 ++ l2) as (l1 & l2 & Hsplit & Hout).
  { apply (lacking_split _ _ _ j); try done. intros j' Hj' Hne' E'. destruct (Hap j' (or_introl Hj') Hne' (resolve_lid_mapping (client_lids x1) j')) as [_ Hx];
      [tauto|]. by rewrite E' in Hx. }
  assert (to_protocol_address e ∉ map to_protocol_address (l1 ++ l2)) as Hna.
  { intros (k & Ek & Hk)%list_elem_of_fmap. destruct (Hother k); [rewrite Hsplit; set_solver|congruence|done]. }
  destruct (establish_at (K := K) rnds bundles l1 e l2 bundle 0 (sd_stores sd) ida lida) as (n & st1 & E & Hk & Hfr & Hat); [done..|].
  exists st1, bundle, ida, lida. split_and!; [|done|done|done|].
  - unfold ensure_e2e_sessions. destruct devs as [|j0 devs0]; [by apply elem_of_nil in Hj|]. fold (lacking x1 (sd_stores sd).1 (j0 :: devs0)).
    rewrite chunks_small by (try done; intros E0; rewrite E0 in Hin; by apply elem_of_nil in Hin).
    cbn [mfor]. unfold mbind', fetch_and_establish_sessions. destruct (lacking _ _ _) as [|k0 l0] eqn:El; [by apply elem_of_nil in Hin|].
    rewrite <- El in *. unfold mbind', mlift. rewrite Hf, Hsplit, E. done.
  - intros Hd. apply Hfr. intros (k & Ek & Hk')%list_elem_of_fmap. rewrite <- Hsplit in Hk'. destruct (decide (k = e)) as [->|Hke]; [done|].
    by destruct (Hother k).
Qed.

(** Where the pipeline finds the session afterwards. *)
Lemma planned to own_jid sd devs all x1 x2 j e jid rnd s (st1 : B * I) : contactable to own_jid sd devs all x1 x2 j e jid rnd s ->
  is_Some (view_session st1.1 (to_protocol_address e)) ->
  (to_protocol_address j <> to_protocol_address e -> view_session st1.1 (to_protocol_address j) = None) ->
  exists e', plan x2 st1.1 j = (e', false) /\ to_protocol_address e' = to_protocol_address e.
Proof.
  intros Hct Hsome Hnone. destruct (ct_address _ _ _ _ _ _ _ _ _ _ _ _ Hct) as [_ He]. unfold plan.
  destruct (decide (to_protocol_address j = to_protocol_address e)) as [E|E].
  { exists j. rewrite E. by destruct Hsome as [r ->]. }
  rewrite (Hnone E). unfold resolve_lid_mapping in He. destruct (is_pn j); cbn [negb andb] in He; [|by destruct (is_lid j); subst].
  destruct (is_lid j); [by subst|]. rewrite lids_agree. destruct (get_current_lid (user j) (client_lids x2)) as [l|]; [|by subst].
  rewrite He. destruct Hsome as [r ->]. by exists e.
Qed.

Lemma planned_other x (b : B) j : (plan x b j).1 = j \/ (plan x b j).1 = resolve_lid_mapping (client_lids x) j.
Proof.
  unfold plan, resolve_lid_mapping. destruct (view_session b _); [by left|]. destruct (is_pn j) eqn:Ep; [|by left].
  destruct (is_lid j) eqn:El.
  { exfalso. unfold is_pn, is_lid in Ep, El. apply bytes_eqb_eq in Ep, El. rewrite Ep in El. discriminate. }
  cbn [negb andb]. rewrite lids_agree. destruct (get_current_lid _ _) as [l|]; [|by left].
  destruct (view_session b _); [by right|by left].
Qed.

Lemma dm_tasks_devices own_jid p p' l : map dt_device_jid (dm_tasks own_jid p p' l) ≡ₚ l.
Proof.
  unfold dm_tasks. rewrite map_app, !map_map. cbn [dt_device_jid]. rewrite !map_id.
  induction l as [|j l IH]; [done|]. cbn. destruct (is_own_device own_jid j); cbn [negb]; [|by rewrite <- IH at 3].
  rewrite <- Permutation_middle. by rewrite <- IH at 3.
Qed.

Lemma retained_distinct (l seen : list Jid) :
  NoDup (retain_first (fun j => j) seen l) /\ forall j, j ∈ retain_first (fun j => j) seen l -> j ∈ l /\ j ∉ seen.
Proof.
  revert seen. induction l as [|j l IH]; intros seen; cbn [retain_first]; [split; [constructor|by intros j ?%elem_of_nil]|].
  case_decide as Hj; [destruct (IH seen) as [H1 H2]; split; [done|]; intros j' [? ?]%H2; split; [by right|done]|].
  destruct (IH (j :: seen)) as [H1 H2]. split.
  - apply NoDup_cons. split; [|done]. intros [_ Hn]%H2. by apply Hn; left.
  - intros j' [->|[Hin Hn]%H2]%elem_of_cons; [split; [by left|done]|]. split; [by right|]. by apply not_elem_of_cons in Hn as [_ ?].
Qed.

Lemma NoDup_map_inj {A C} (f : A -> C) l x y : NoDup (map f l) -> x ∈ l -> y ∈ l -> f x = f y -> x = y.
Proof.
  induction l as [|z l IH]; [by intros _ ?%elem_of_nil|]. cbn. intros [Hn Hnd]%NoDup_cons [->|Hx]%elem_of_cons [->|Hy]%elem_of_cons E.
  - done.
  - exfalso. apply Hn. rewrite E. by apply list_elem_of_fmap_2.
  - exfalso. apply Hn. rewrite <- E. by apply list_elem_of_fmap_2.
  - by apply IH.
Qed.

Lemma encrypted_session p a (b : B) (i : I) c st' : message_encrypt p a (b, i) = (Ok c, st') -> is_Some (view_session b a).
Proof.
  unfold message_encrypt, mbind', load_at. cbn [fst]. rewrite (load_session_returns (I := I) (K := K)). cbn.
  destruct (view_session b a); [by eexists|done].
Qed.

(** The pipeline writes to the device with the session made before. *)
Lemma device_reached to own_jid sd devs all x1 x2 j e jid rnd s (st1 : B * I) bundle ida lida tasks extra t :
  contactable to own_jid sd devs all x1 x2 j e jid rnd s -> own_keys st1 ida lida ->
  can_write signed bundle jid (to_protocol_address e) (rnds e) rnd (sd_stores sd).2 s ->
  same_at (to_protocol_address e) (process_prekey_bundle (to_protocol_address e) bundle (rnds e) (sd_stores sd)).2 st1 ->
  (to_protocol_address j <> to_protocol_address e -> same_at (to_protocol_address j) (sd_stores sd) st1) ->
  t ∈ tasks -> dt_device_jid t = j -> NoDup (map dt_device_jid tasks) -> (forall t', t' ∈ tasks -> dt_device_jid t' ∈ all) ->
  exists nodes flag stores' x' out st,
    encrypt_for_devices_unified show_debug (dr_sessions dr) order_sessions order_identities tasks extra (st1, x2) = (Ok (nodes, flag), (stores', x'))
    /\ SendStores.device_node j (lit "pkmsg") (pk_serialized out) extra ∈ nodes /\ pksm_try_from (pk_serialized out) = Ok out
    /\ message_decrypt_prekey out (to_protocol_address jid) signed [rnd] (rv_stores s) = (Ok (dt_plaintext t), st).
Proof.
  intros Hct Hk Hcw Hat Hfr Ht Ej Hnd Hdevs. pose proof Hct as [_ _ _ _ [Hnj Hne] _ _ Hap Hrest]. destruct (sd_stores sd) as [b i] eqn:Esd. cbn [fst snd] in *.
  destruct (written signed bundle jid (to_protocol_address e) (rnds e) rnd b i s (dt_plaintext t) Hcw) as (b1 & i1 & out & b2 & i2 & st & E1 & E2 & E3 & E4).
  rewrite E1 in Hat. cbn [snd] in Hat.
  destruct (planned _ _ _ _ _ _ _ _ _ _ _ _ st1 Hct) as (e' & Hplan & Ee').
  { destruct Hat as (<- & _). cbn [fst]. apply (encrypted_session _ _ _ _ _ _ E2). }
  { intros Hd. destruct (Hfr Hd) as (<- & _). done. }
  destruct (phases_existing (K := K) rnds show_debug (dr_sessions dr) x2 tasks extra t st1 (b1, i1) ida lida e' (C_PreKey out) (b2, i2) (lit "pkmsg") true
    (pk_serialized out)) as (nodes & flag & s' & x' & E & Hin).
  - done.
  - done.
  - by rewrite Ej.
  - by apply NoDup_fmap_1 in Hnd.
  - intros t' Ht' Hnt. rewrite Ee'. assert (dt_device_jid t' <> j) as Hjj.
    { intros Eq. apply Hnt. apply (NoDup_map_inj dt_device_jid tasks); [done..|congruence]. }
    destruct (planned_other x2 st1.1 (dt_device_jid t')) as [->| ->]; eapply Hap; eauto.
  - apply Hrest.
  - rewrite Ee'. by symmetry.
  - rewrite Ee'. exact E2.
  - done.
  - destruct st1 as [bb ii]. destruct (pipeline_equiv (K := K) show_debug (dr_sessions dr) order_sessions order_identities tasks extra bb ii x2) as (Ho & Hx & _); [done..|].
    destruct (encrypt_for_devices_unified _ _ _ _ _ _ _) as [o [st' x''] ]. cbn [fst snd] in *. rewrite E in Ho, Hx. cbn [fst snd] in Ho, Hx. subst.
    by exists nodes, flag, st', x', out, st.
Qed.

(** C5: A message sent by one client arrives at the other.  When a direct message
    is sent to a contact, one of whose devices has no session, sessions are made
    with what the server hands out, the stanza is handed to the socket and has a
    part for the device; its client reports, from this part, the message as it
    was sent and confirms it; the sender keeps the message for retries. *)
Theorem client_message_arrives own_jid to message id generated edit (cs : ClientState B I G X) token devs all x1 x2 j e attrs rnd draws s :
  let message' := message_for_encryption token message in
  let written := if is_own_device own_jid j then om_device_sent (jid_to_string to) message' else message' in
  let info := info_of valid_time now d attrs in
  let jid := encryption_jid (mi_source info) (rg_lids (rv_registry s)) in
  is_group to = false -> d_pn own = Some own_jid ->
  generate_reporting_token (dr_secret dr) message id to to None = Ok token ->
  contactable to own_jid (cl_sending cs) devs all x1 x2 j e jid rnd s -> real_edit edit = None ->
  custom (lit "pkmsg") = false -> direct jid -> plain written -> (draws 0%nat).1 = [rnd] ->
  exists stanza cs' nodes rest c s',
    send_message_impl show_debug order_sessions order_identities b64_url_no_pad show_node show_error show_iq_error show_client_error contains_session
      client_lids own cio dr dr_retry rnds to message (Some id) generated false false edit cs
      = (map_err (fun e => SE_Other (show_client_error e)) (ci_send_node cio stanza), cs')
    /\ cl_sent cs' = cl_sent cs ++ [stanza] /\ (take_recent to id (cl_recent cs')).1 = Some (rm_encode message)
    /\ children stanza = Some (participants_node nodes :: rest) /\ to_node j (enc_node "pkmsg" c) ∈ nodes
    /\ handle_encrypted_message delete_session delete_identity valid_time custom io now d signed draws (message_stanza attrs [enc_node "pkmsg" c]) s
       = (Ok tt, s')
    /\ rv_effects s' = rv_effects s ++ [Message written info; Delivery info].
Proof.
  intros message' written' info jid Hgrp Hown Htok Hct Hed Hcu Hdir Hpl Hdr.
  destruct (ensured _ _ _ _ _ _ _ _ _ _ _ _ Hct) as (st1 & bundle & ida & lida & Hens & Hk & Hcw & Hat & Hfr).
  pose proof Hct as [Hdev Hall (Hj & Hja & _) [He1 He2] [Hnj Hne] _ _ Hap Hrest].
  set (all' := retain_first (fun j => j) [] all).
  set (p := pad_message_v2 (dr_pad dr) (rm_encode message')). set (p' := pad_message_v2 (dr_other_pad dr) (rm_encode (om_device_sent (jid_to_string to) message'))).
  destruct (dm_task own_jid p p' all' j) as (t & Ht & Ej & Hpt); [apply retained; [done|apply not_elem_of_nil]|].
  assert (exists pad, dt_plaintext t = pad_message_v2 pad (wm_encode written')) as [pad Hpad].
  { rewrite Hpt. unfold written', p, p'. destruct (is_own_device own_jid j); rewrite same_encoding; by eexists. }
  destruct (retained_distinct all []) as [Hrd Hrin].
  destruct (device_reached _ _ _ _ _ _ _ _ _ _ _ _ st1 bundle ida lida (dm_tasks own_jid p p' all') (enc_extra_attrs edit) t Hct Hk Hcw Hat Hfr Ht Ej)
    as (nodes & flag & stores' & x' & out & st & E & Hin & Hw & Hdec).
  { rewrite dm_tasks_devices. done. }
  { intros t' Ht'. apply Hrin. fold all'. rewrite <- (dm_tasks_devices own_jid p p' all'). by apply list_elem_of_fmap_2. }
  rewrite Hpad, <- Hdr in Hdec.
  destruct (pkmsg_handled delete_session delete_identity valid_time custom io now d signed draws s attrs pad written' out st Hcu Hdir Hpl Hw Hdec)
    as (s' & Hh & Heff).
  unfold send_message_impl, mbind'. rewrite Hgrp. cbn [andb negb some_or]. unfold make_dm_stanza, mbind', on_sending, on_client.
  rewrite Hdev. cbn [map_err cl_sending sd_stores sd_client sd_sender_keys cl_groups cl_recent cl_marks cl_recipients cl_sent]. rewrite Hens.
  cbn [map_err cl_sending sd_stores sd_client sd_sender_keys cl_groups cl_recent cl_marks cl_recipients cl_sent keep_recent]. unfold mlift. rewrite Hown.
  cbn [ok_or]. unfold prepare_dm_stanza, mbind', mlift, on_client, on_pipeline. rewrite Htok. cbn [on_token map_err cl_sending sd_client sd_stores sd_sender_keys].
  rewrite Hall. cbn [map_err sd_stores sd_client]. fold message' all' p p'. rewrite E. unfold enc_extra_attrs in Hin. rewrite Hed in Hin. cbn [mret].
  do 6 eexists. split; [reflexivity|]. split; [reflexivity|]. split; [apply take_recent_added|]. split; [reflexivity|]. split; [exact Hin|]. split; [exact Hh|exact Heff].
Qed.
End Client.

(** ** Witness: a contact whose LID is known *)

Definition toy_dm_lids : LidPnCache := add (entry_new 1 (lit "100") (lit "5") LS_Usync) cache_new.
Definition toy_dm_resolver : SendContextResolver unit := {|
  resolve_devices _ x := (Ok [toy_device], x);
  fetch_prekeys_for_identity_check _ x := (Ok [], x);
  get_lid_for_phone p _ := get_current_lid p toy_dm_lids
|}.
Definition toy_hidden : Jid := lid_device (lit "100") 2.
Definition toy_dm_answer : Node :=
  match serve_user toy_hidden (build_upload_prekeys_request 44 (pk_bytes (kp_public (toy_pair 3))) 8 (pk_bytes (kp_public (toy_pair 4))) toy_signature
                                 [(9, pk_bytes (kp_public (toy_pair 5)))]) 0 with
  | Some user => mkNode (lit "iq") [] (Some (NC_Nodes [mkNode (lit "list") [] (Some (NC_Nodes [user]))]))
  | None => mkNode (lit "iq") [] None
  end.
Definition toy_dm_io : ClientIo :=
  mkClientIo (fun _ => Ok toy_dm_answer) (Ok tt) (Ok tt) (fun _ => Ok tt) (Ok tt) (fun _ => Ok tt).
Definition toy_dm_bundle : PreKeyBundle :=
  mkBundle 44 2 (Some 9) (Some (kp_public (toy_pair 5))) (mkSignedPreKey 8 (kp_public (toy_pair 4)) toy_signature) (kp_public (toy_pair 3)).
Definition toy_dm_client : ClientState sessions tofu mem_store unit := mkClientState toy_origin [] [] ∅ ∅ [].
Definition toy_has_session (a : ProtocolAddress) (b : sessions) : outcome str bool := Ok (bool_decide (is_Some (b a))).

Lemma toy_contactable :
  @contactable sum_curve sessions tofu _ _ mem_store ToyOut unit unit toy_sessions toy_tofu_store toy_prekeys toy_signed_prekeys toy_dm_resolver
    (fun _ => []) (fun _ => []) (fun _ => []) toy_has_session (fun _ => toy_dm_lids) toy_dm_io (fun _ => (replicate 32 2, replicate 32 6))
    toy_signed_table (pn (lit "5")) toy_sender toy_origin [toy_device] [toy_device] tt tt toy_device toy_hidden toy_sender (replicate 32 7) toy_peer.
Proof.
  split.
  - reflexivity.
  - reflexivity.
  - split_and!; [by left|by left|apply NoDup_singleton].
  - split; vm_compute; reflexivity.
  - by split.
  - vm_compute. lia.
  - exists [(toy_hidden, toy_dm_bundle)], toy_dm_bundle. split; [vm_compute; reflexivity|]. split; [|split; [vm_compute; reflexivity|] ].
    { intros j' b. cbn. case_decide; [|done]. intros [= <-]. vm_compute. reflexivity. }
    split; try done.
    + exists (toy_identity 3), (toy_pair 4), (Some (toy_pair 5)). split; [|split; [done|] ].
      * destruct toy_published. by split.
      * apply (bool_decide_unpack (NoDup _)). vm_compute. constructor.
    + exists (toy_identity 1), 33. split_and!; try done.
  - intros j' [->%list_elem_of_singleton| ->%list_elem_of_singleton] Hne; done.
  - intros l. exists [], tt. split; [done|]. intros j' b. done.
Qed.

Lemma client_message_arrives_witness :
  exists c s', toy_peer_handles (message_stanza toy_direct_attrs [enc_node "pkmsg" c]) toy_peer = (Ok tt, s')
    /\ rv_effects s' = [Message toy_text (toy_info_of toy_direct_attrs); Delivery (toy_info_of toy_direct_attrs)].
Proof.
  destruct (@client_message_arrives toy_hkdf toy_hashes toy_aes sum_curve toy_signal toy_proto toy_json toy_adv sessions tofu _ _ mem_store ToyOut unit
    unit unit toy_sessions (@default_batch _ toy_sessions) toy_tofu_store toy_prekeys toy_signed_prekeys toy_store toy_send_stores toy_send_separate
    toy_tofu toy_out toy_report toy_outgoing toy_dm_resolver (fun _ => eq_refl) (fun _ => []) (fun l => l) (fun _ => reflexivity _) (fun l => l)
    (fun _ => reflexivity _)) with (own := toy_account) (cs := toy_dm_client) (to := pn (lit "5")) (own_jid := toy_sender) (message := toy_text) (id := lit "ID")
    (generated := lit "ID") (edit := @None EditAttribute) (token := @None ReportingTokenResult) (devs := [toy_device]) (all := [toy_device])
    (x1 := tt) (x2 := tt) (j := toy_device) (e := toy_hidden) (attrs := toy_direct_attrs) (rnd := replicate 32 7) (draws := Receive.toy_draws)
    (s := toy_peer) (cio := toy_dm_io) (dr := toy_stanza_draws) (dr_retry := toy_stanza_draws) (rnds := fun _ : Jid => (replicate 32 2, replicate 32 6))
    (b64_url_no_pad := fun b : bytes => b) (show_node := fun _ : Node => @nil Z) (show_error := fun _ : SignalProtocolError => @nil Z)
    (show_iq_error := fun _ : ClientIqError => @nil Z) (show_client_error := fun _ : ClientError => @nil Z)
    (contains_session := toy_has_session) (client_lids := fun _ : unit => toy_dm_lids)
    (delete_session := fun (_ : ProtocolAddress) (b : sessions) => (Ok (E := str) tt, b))
    (delete_identity := fun (_ : ProtocolAddress) (i : tofu) => (Ok (E := str) tt, i))
    (valid_time := fun _ : Z => true) (custom := fun _ : str => false) (io := toy_recv_io) (now := 5) (d := toy_retry_device) (signed := toy_signed_table)
    as (stanza & cs' & nodes & rest & c & s' & _ & _ & _ & _ & _ & Hh & He).
  - intros jids x bundles x' [= <- <-] j j' b b' Hb. done.
  - done.
  - done.
  - reflexivity.
  - reflexivity.
  - vm_compute. reflexivity.
  - apply toy_contactable.
  - reflexivity.
  - reflexivity.
  - vm_compute. reflexivity.
  - by split.
  - reflexivity.
  - exists c, s'. split; [exact Hh|exact He].
Defined.
