(* ===== verification/Media.v ===== *)
(** * Media: [warp_core/src/{download,upload}.rs], [src/{download,upload,
      mediaconn}.rs] and the HTTP types of [warp_core/src/net.rs]

    Files are encrypted under keys derived from a media key, authenticated by a
    truncated MAC and kept on media hosts.  A download is decrypted while it is
    read, by hand over the block cipher; a download into a file is decrypted at
    once.  The theorems show that the two agree however the bytes arrive, that
    what was uploaded is what is downloaded, and that nothing is returned whose
    MAC is not right. *)

From S2P Require Import Prelude RustStd Jid Node Attrs Crypto Curve Noise Connection Requests Device Pairing KeyServer Receive.

(** ** The block cipher *)

Definition xor_bytes (a b : bytes) : bytes := zip_with Z.lxor a b.
Definition BLOCK : nat := 16.
Definition MAC_SIZE : nat := 10.

(** The length of a text without its PKCS#7 padding *)
Definition pkcs7_len (buf : bytes) : option nat :=
  match last buf with
  | Some v => if in_range 1 16 v && forallb (Z.eqb v) (drop (length buf - Z.to_nat v) buf) then Some (length buf - Z.to_nat v)%nat else None
  | None => None
  end.

(** CBC decryption of whole blocks. *)
Fixpoint cbc_chain (dec : bytes -> bytes) (prev : bytes) (blocks : list bytes) : bytes :=
  match blocks with [] => [] | b :: blocks => xor_bytes (dec b) prev ++ cbc_chain dec b blocks end.

(** The block cipher of the [aes] crate, and what the [cbc] crate makes of it. *)
Class AesBlock `{HA : !AesCbc} := {
  aes_decrypt_block : bytes -> bytes -> bytes;
  aes_block_length : forall key b, length b = BLOCK -> length (aes_decrypt_block key b) = BLOCK;
  cbc_over_blocks : forall key iv c, length key = 32%nat -> length iv = BLOCK -> length c <> 0%nat -> (length c mod BLOCK = 0)%nat ->
    let p := cbc_chain (aes_decrypt_block key) iv (as_chunks BLOCK c).1 in cbc_decrypt_padded key iv c = (p, pkcs7_len p)
}.

(** ** [warp_core/src/download.rs] *)

Inductive MediaType := Image | Video | Audio | Document | History | AppStateMedia | Sticker | StickerPack | LinkThumbnail.

Definition app_info (t : MediaType) : str :=
  match t with
  | Image => lit "WhatsApp Image Keys"
  | Video => lit "WhatsApp Video Keys"
  | Audio => lit "WhatsApp Audio Keys"
  | Document => lit "WhatsApp Document Keys"
  | History => lit "WhatsApp History Keys"
  | AppStateMedia => lit "WhatsApp App State Keys"
  | Sticker => lit "WhatsApp Image Keys"
  | StickerPack => lit "WhatsApp Sticker Pack Keys"
  | LinkThumbnail => lit "WhatsApp Link Thumbnail Keys"
  end.

Definition mms_type (t : MediaType) : str :=
  match t with
  | Image | Sticker => lit "image"
  | Video => lit "video"
  | Audio => lit "audio"
  | Document => lit "document"
  | History => lit "md-msg-hist"
  | AppStateMedia => lit "md-app-state"
  | StickerPack => lit "sticker-pack"
  | LinkThumbnail => lit "thumbnail-link"
  end.

(** [trait Downloadable]: what a message says of a file *)
Record Downloadable := mkDownloadable {
  dn_direct_path : option str; dn_media_key : option bytes; dn_file_enc_sha256 : option bytes; dn_file_sha256 : option bytes;
  dn_file_length : option u64; dn_app_info : MediaType
}.

(** [impl_downloadable!]: the messages that describe files *)
Inductive FileMessage := ImageMessage | VideoMessage | DocumentMessage | AudioMessage | StickerMessage | ExternalBlobReference | HistorySyncNotification.
Definition media_type_of (m : FileMessage) : MediaType :=
  match m with
  | ImageMessage => Image | VideoMessage => Video | DocumentMessage => Document | AudioMessage => Audio | StickerMessage => Sticker
  | ExternalBlobReference => AppStateMedia | HistorySyncNotification => History
  end.
Definition impl_downloadable (m : FileMessage) (direct_path : option str) (media_key file_enc_sha256 file_sha256 : option bytes) (file_length : option u64) :=
  mkDownloadable direct_path media_key file_enc_sha256 file_sha256 file_length (media_type_of m).

Record DownloadRequest := mkDownloadRequest { dq_url : str; dq_media_key : bytes; dq_app_info : MediaType }.
Record MediaConnection := mkMediaConnection { mc_hosts : list str; mc_auth : str }.

Section Download.
Context `{HK : !Hkdf, HS : !Hashes, HA : !AesCbc, HAB : !AesBlock}.
Context (b64_url_no_pad : bytes -> str).

Definition prepare_download_requests (d : Downloadable) (conn : MediaConnection) : outcome str (list DownloadRequest) :=
  let? direct_path := ok_or (lit "Missing direct_path") (dn_direct_path d) in
  let? media_key := ok_or (lit "Missing media_key") (dn_media_key d) in
  let? file_enc_sha256 := ok_or (lit "Missing file_enc_sha256") (dn_file_enc_sha256 d) in
  Ok (map (fun hostname =>
        mkDownloadRequest (lit "https://" ++ hostname ++ direct_path ++ lit "?auth=" ++ mc_auth conn ++ lit "&token="
                           ++ b64_url_no_pad file_enc_sha256) media_key (dn_app_info d)) (mc_hosts conn)).

(** The vector, the key and the key of the MAC *)
Definition get_media_keys (media_key : bytes) (t : MediaType) : bytes * bytes * bytes :=
  let expanded := hkdf None media_key (app_info t) 112 in
  (slice 0 16 expanded, slice 16 48 expanded, slice 48 80 expanded).

(** What the loop keeps: what the MAC was fed, the plaintext, what was not
    processed yet, the last block. *)
Record StreamState := mkStream { ss_fed : bytes; ss_plaintext : bytes; ss_tail : bytes; ss_prev_block : bytes }.

Definition decrypt_cblocks (cipher_key : bytes) (blocks : list bytes) (plaintext prev_block : bytes) : bytes * bytes :=
  fold_left (fun '(plaintext, prev) cblock => (plaintext ++ xor_bytes (aes_decrypt_block cipher_key cblock) prev, cblock)) blocks (plaintext, prev_block).

(** A read of some bytes. *)
Definition stream_step (cipher_key : bytes) (chunk : bytes) (s : StreamState) : StreamState :=
  let tail := ss_tail s ++ chunk in
  if (MAC_SIZE + BLOCK <? length tail)%nat then
    let processable_len := (length tail - (MAC_SIZE + BLOCK))%nat in
    let processable_len := (processable_len - processable_len mod BLOCK)%nat in
    if (BLOCK <=? processable_len)%nat then
      let to_process := take processable_len tail in
      let '(plaintext, prev) := decrypt_cblocks cipher_key (as_chunks BLOCK to_process).1 (ss_plaintext s) (ss_prev_block s) in
      mkStream (ss_fed s ++ to_process) plaintext (drop processable_len tail) prev
    else mkStream (ss_fed s) (ss_plaintext s) tail (ss_prev_block s)
  else mkStream (ss_fed s) (ss_plaintext s) tail (ss_prev_block s).

(** The results of the reads; an empty one ends the loop. *)
Fixpoint stream_loop (cipher_key : bytes) (reads : list (outcome str bytes)) (s : StreamState) : outcome str StreamState :=
  match reads with
  | [] => Ok s
  | r :: reads =>
      let? chunk := r in
      match chunk with [] => Ok s | _ => stream_loop cipher_key reads (stream_step cipher_key chunk s) end
  end.

(** After the last read: the MAC, the rest of the plaintext, the padding.  The
    previous block does not move on here. *)
Definition stream_finish (cipher_key mac_key : bytes) (s : StreamState) : outcome str bytes :=
  let tail := ss_tail s in
  if (length tail <? MAC_SIZE + BLOCK)%nat || negb ((length tail - MAC_SIZE) mod BLOCK =? 0)%nat then Err (lit "Invalid final media size")
  else
    let mac_index := (length tail - MAC_SIZE)%nat in
    let final_ciphertext := take mac_index tail in
    let expected_mac := take MAC_SIZE (hmac Sha256 mac_key (ss_fed s ++ final_ciphertext)) in
    if negb (drop mac_index tail =s expected_mac) then Err (lit "MAC mismatch")
    else
      let final_plain := mjoin (map (fun b => xor_bytes (aes_decrypt_block cipher_key b) (ss_prev_block s)) (as_chunks BLOCK final_ciphertext).1) in
      match last final_plain with
      | None => Err (lit "Empty plaintext after decrypt")
      | Some v =>
          let pad_len := Z.to_nat v in
          if (pad_len =? 0)%nat || (BLOCK <? pad_len)%nat || (length final_plain <? pad_len)%nat then Err (lit "Invalid PKCS7 padding")
          else if negb (forallb (Z.eqb v) (drop (length final_plain - pad_len) final_plain)) then Err (lit "Bad PKCS7 padding bytes")
          else Ok (ss_plaintext s ++ take (length final_plain - pad_len) final_plain)
      end.

Definition decrypt_stream (reads : list (outcome str bytes)) (media_key : bytes) (t : MediaType) : outcome str bytes :=
  let '(iv, cipher_key, mac_key) := get_media_keys media_key t in
  let? s := stream_loop cipher_key reads (mkStream iv [] [] iv) in
  stream_finish cipher_key mac_key s.

Definition show_decryption_error (e : DecryptionError) : str :=
  match e with
  | D_BadKeyOrIv => lit "The key or IV is the wrong length."
  | D_BadCiphertext _ => lit "These cases should not be distinguished; message corruption can cause either problem."
  end.
Definition show_encryption_error (e : EncryptionError) : str :=
  match e with E_BadKeyOrIv => lit "The key or IV is the wrong length." | E_BadPadding => lit "Padding error during encryption." end.

Definition decrypt_cbc (cipher_key iv ciphertext : bytes) : outcome str bytes :=
  let '(o, output) := aes_256_cbc_decrypt_into ciphertext cipher_key iv [] in
  let? _ := map_err show_decryption_error o in Ok output.

Definition verify_and_decrypt (encrypted_payload media_key : bytes) (t : MediaType) : outcome str bytes :=
  if (length encrypted_payload <=? MAC_SIZE)%nat then Err (lit "Downloaded file is too short to contain MAC")
  else
    let at_ := (length encrypted_payload - MAC_SIZE)%nat in
    let ciphertext := take at_ encrypted_payload in
    let received_mac := drop at_ encrypted_payload in
    let '(iv, cipher_key, mac_key) := get_media_keys media_key t in
    let? computed_mac_full := map_err (fun _ => []) (mac_of (lit "HmacSha256") mac_key [iv; ciphertext]) in
    if negb (take MAC_SIZE computed_mac_full =s received_mac) then Err (lit "Invalid MAC signature")
    else decrypt_cbc cipher_key iv ciphertext.

(** ** [warp_core/src/upload.rs] *)

Record EncryptedMedia := mkEncryptedMedia { em_data_to_upload : bytes; em_media_key : bytes; em_file_sha256 : bytes; em_file_enc_sha256 : bytes }.

(** [media_key]: the 32 bytes drawn *)
Definition encrypt_media (media_key plaintext : bytes) (t : MediaType) : outcome str EncryptedMedia :=
  let file_sha256 := sha Sha256 plaintext in
  let '(iv, cipher_key, mac_key) := get_media_keys media_key t in
  let '(o, data) := aes_256_cbc_encrypt_into plaintext cipher_key iv [] in
  let? _ := map_err show_encryption_error o in
  let? mac_full := map_err (fun _ => []) (mac_of (lit "HmacSha256") mac_key [iv; data]) in
  let upload := data ++ take MAC_SIZE mac_full in
  Ok (mkEncryptedMedia upload media_key file_sha256 (sha Sha256 upload)).
End Download.

(** ** HTTP: [warp_core/src/net.rs] *)

Record HttpRequest := mkHttpRequest { hr_url : str; hr_method : str; hr_headers : list (str * str); hr_body : option bytes }.
Definition http_get (url : str) : HttpRequest := mkHttpRequest url (lit "GET") [] None.
Definition http_post (url : str) : HttpRequest := mkHttpRequest url (lit "POST") [] None.
Definition with_header (key value : str) (r : HttpRequest) : HttpRequest :=
  mkHttpRequest (hr_url r) (hr_method r) (im_insert key value (hr_headers r)) (hr_body r).
Definition with_body (body : bytes) (r : HttpRequest) : HttpRequest := mkHttpRequest (hr_url r) (hr_method r) (hr_headers r) (Some body).
Record HttpResponse := mkHttpResponse { hp_status_code : u16; hp_body : bytes }.
(** [String::from_utf8]; [show_utf8_error] is the text of its error *)
Definition body_string (show_utf8_error : bytes -> str) (r : HttpResponse) : outcome str str :=
  if utf8_valid (hp_body r) then Ok (hp_body r) else Err (show_utf8_error (hp_body r)).

(** ** [src/mediaconn.rs] *)

Record MediaConn := mkMediaConn { mn_auth : str; mn_ttl : u64; mn_hosts : list str; mn_fetched_at : u64 }.

(** [now]: the monotonic clock, in nanoseconds *)
Definition is_expired (now : u64) (c : MediaConn) : bool := mn_ttl c * 10 ^ 9 <? now - mn_fetched_at c.

Definition media_conn_query : InfoQuery :=
  query_set (lit "w:m") server_jid (Some (NC_Nodes [build (builder_new (lit "media_conn"))])).

Section Client.
Context `{HK : !Hkdf, HS : !Hashes, HA : !AesCbc, HAB : !AesBlock}.
Context (b64_url_no_pad : bytes -> str).
(** the server, the HTTP client, [serde_json] on the answer to an upload, the clock *)
Context (send_iq : InfoQuery -> outcome ClientIqError Node) (show_iq_error : ClientIqError -> str).
Context (execute : HttpRequest -> outcome str HttpResponse) (raw_from_json : bytes -> outcome str (str * str)) (now : u64).
Context (show_utf8_error : bytes -> str).

Definition refresh_media_conn (force : bool) : comp (option MediaConn) ClientIqError MediaConn :=
  fun guard =>
    match (if force then None else match guard with Some conn => if is_expired now conn then None else Some conn | None => None end) with
    | Some conn => (Ok conn, guard)
    | None =>
        (let! resp := mlift (send_iq media_conn_query) in
         let! media_conn_node := mlift (ok_or (CI_ServerError 500 (lit "Missing media_conn node in response"))
                                          (get_optional_child resp (lit "media_conn"))) in
         let '(auth, attrs) := ap_string (lit "auth") (ap_new media_conn_node) in
         let ttl := default_or 0 (ap_optional_u64 (lit "ttl") attrs).1 in
         let hosts := map (fun n => attr_string n "hostname") (get_children_by_tag media_conn_node (lit "host")) in
         let new_conn := mkMediaConn auth ttl hosts now in
         fun _ => (Ok new_conn, Some new_conn)) guard
    end.

Definition media_connection (c : MediaConn) : MediaConnection := mkMediaConnection (mn_hosts c) (mn_auth c).

(** [&body[..]] is read in pieces of at most 8 KiB. *)
Definition CHUNK : nat := Z.to_nat (8 * 1024).
Fixpoint reads_of_fuel (fuel : nat) (body : bytes) : list (outcome str bytes) :=
  match fuel with
  | O => []
  | S f => match body with [] => [] | _ => Ok (take CHUNK body) :: reads_of_fuel f (drop CHUNK body) end
  end.
Definition reads_of (body : bytes) : list (outcome str bytes) := reads_of_fuel (length body) body.

Definition fetched_body (url : str) : outcome str bytes :=
  let? response := execute (http_get url) in
  if 300 <=? hp_status_code response then Err (lit "Download failed with status: " ++ show_uint (hp_status_code response)) else Ok (hp_body response).

Definition download_and_decrypt_with_request (q : DownloadRequest) : outcome str bytes :=
  let? body := fetched_body (dq_url q) in
  decrypt_stream (reads_of body) (dq_media_key q) (dq_app_info q).

Definition all_hosts_failed : str := lit "Failed to download from all available media hosts".

Fixpoint first_download (l : list DownloadRequest) : outcome str bytes :=
  match l with
  | [] => Err all_hosts_failed
  | q :: l =>
      match download_and_decrypt_with_request q with
      | Ok data => Ok data
      | Err _ => first_download l
      | Panic => Panic
      | NoFuel => NoFuel
      end
  end.

Definition download (d : Downloadable) : comp (option MediaConn) str bytes :=
  fun c =>
    let '(o, c) := refresh_media_conn false c in
    (let? media_conn := map_err show_iq_error o in
     let? requests := prepare_download_requests b64_url_no_pad d (media_connection media_conn) in
     first_download requests, c).

(** A writer that does not fail: it holds bytes, and a write at the start
    replaces as many of them. *)
Definition write_at_start (p old : bytes) : bytes := p ++ drop (length p) old.

Definition download_and_write (q : DownloadRequest) (writer : bytes) : outcome str unit * bytes :=
  match (let? body := fetched_body (dq_url q) in verify_and_decrypt body (dq_media_key q) (dq_app_info q)) with
  | Ok plaintext => (Ok tt, write_at_start plaintext writer)
  | Err e => (Err e, writer)
  | Panic => (Panic, writer)
  | NoFuel => (NoFuel, writer)
  end.

(** The error of the last host is reported. *)
Fixpoint write_first (l : list DownloadRequest) (last_err : option str) (writer : bytes) : outcome str unit * bytes :=
  match l with
  | [] => (Err (match last_err with Some e => e | None => all_hosts_failed end), writer)
  | q :: l =>
      match download_and_write q writer with
      | (Err e, writer) => write_first l (Some e) writer
      | r => r
      end
  end.

Definition download_to_file (d : Downloadable) (writer : bytes) : comp (option MediaConn) str bytes :=
  fun c =>
    let '(o, c) := refresh_media_conn false c in
    match (let? media_conn := map_err show_iq_error o in prepare_download_requests b64_url_no_pad d (media_connection media_conn)) with
    | Ok requests => let '(r, writer) := write_first requests None writer in (let? _ := r in Ok writer, c)
    | Err e => (Err e, c)
    | Panic => (Panic, c)
    | NoFuel => (NoFuel, c)
    end.

(** ** [src/upload.rs] *)

Record UploadResponse := mkUploadResponse {
  up_url : str; up_direct_path : str; up_media_key : bytes; up_file_enc_sha256 : bytes; up_file_sha256 : bytes; up_file_length : u64
}.

Definition upload_url (host auth : str) (t : MediaType) (token : str) : str :=
  lit "https" ++ lit "://" ++ host ++ lit "/mms/" ++ mms_type t ++ lit "/" ++ token ++ lit "?auth=" ++ auth ++ lit "&token=" ++ token.

Definition upload_request (host auth : str) (t : MediaType) (enc : EncryptedMedia) : HttpRequest :=
  let token := b64_url_no_pad (em_file_enc_sha256 enc) in
  with_body (em_data_to_upload enc)
    (with_header (lit "Origin") (lit "https://web.whatsapp.com")
      (with_header (lit "Content-Type") (lit "application/octet-stream") (http_post (upload_url host auth t token)))).

Definition upload (media_key data : bytes) (t : MediaType) : comp (option MediaConn) str UploadResponse :=
  fun c =>
    match encrypt_media media_key data t with
    | Ok enc =>
        let '(o, c) := refresh_media_conn false c in
        (let? media_conn := map_err show_iq_error o in
         let? host := ok_or (lit "No media hosts") (head (mn_hosts media_conn)) in
         let? response := execute (upload_request host (mn_auth media_conn) t enc) in
         if 400 <=? hp_status_code response then
           match body_string show_utf8_error response with
           | Err body_err => Err (lit "Upload failed " ++ show_uint (hp_status_code response) ++ lit " and failed to read response body: " ++ body_err)
           | o => let? body_str := o in Err (lit "Upload failed " ++ show_uint (hp_status_code response) ++ lit " body=" ++ body_str)
           end
         else
           let? raw := raw_from_json (hp_body response) in
           Ok (mkUploadResponse raw.1 raw.2 (em_media_key enc) (em_file_enc_sha256 enc) (em_file_sha256 enc) (Z.of_nat (length data))), c)
    | Err e => (Err e, c)
    | Panic => (Panic, c)
    | NoFuel => (NoFuel, c)
    end.
End Client.

(** ** Theory: blocks *)

Definition whole (bs : list bytes) : Prop := Forall (fun b => length b = BLOCK) bs.

Lemma whole_length bs : whole bs -> length (mjoin bs) = (BLOCK * length bs)%nat.
Proof. unfold whole, BLOCK. induction 1 as [|b bs Hb _ IH]; [done|]. change (mjoin (b :: bs)) with (b ++ mjoin bs). cbn [length]. rewrite length_app, IH, Hb. lia. Qed.

Lemma chunks_whole fuel bs rest : whole bs -> (length rest < BLOCK)%nat -> (length bs <= fuel)%nat -> chunks_fuel fuel BLOCK (mjoin bs ++ rest) = (bs, rest).
Proof.
  intros Hbs Hr. revert fuel. induction Hbs as [|b bs Hb Hbs IH]; intros fuel Hf.
  - cbn [mjoin list_join app]. destruct fuel as [|f]; [done|]. cbn [chunks_fuel]. by rewrite decide_False by lia.
  - cbn [length] in Hf. destruct fuel as [|f]; [lia|]. change (mjoin (b :: bs)) with (b ++ mjoin bs). cbn [chunks_fuel]. rewrite <- app_assoc.
    rewrite decide_True by (rewrite length_app; lia). rewrite <- Hb, drop_app_length, take_app_length, Hb. rewrite IH by lia. done.
Qed.

Lemma as_chunks_whole bs rest : whole bs -> (length rest < BLOCK)%nat -> as_chunks BLOCK (mjoin bs ++ rest) = (bs, rest).
Proof. intros Hbs Hr. apply chunks_whole; [done|done|]. rewrite length_app, (whole_length bs Hbs). unfold BLOCK. lia. Qed.

Lemma as_chunks_whole_nil bs : whole bs -> (as_chunks BLOCK (mjoin bs)).1 = bs.
Proof. intros Hbs. rewrite <- (app_nil_r (mjoin bs)). rewrite as_chunks_whole; [done|done|unfold BLOCK; cbn; lia]. Qed.

(** Bytes are whole blocks and a rest. *)
Lemma blocks_of (l : bytes) : exists bs rest, whole bs /\ (length rest < BLOCK)%nat /\ l = mjoin bs ++ rest.
Proof.
  exists (as_chunks BLOCK l).1, (as_chunks BLOCK l).2. split_and!; [apply as_chunks_length| |by rewrite as_chunks_concat].
  unfold as_chunks. assert (forall fuel (m : bytes), (length m <= fuel)%nat -> (length (chunks_fuel fuel BLOCK m).2 < BLOCK)%nat) as H; [|by apply H].
  intros fuel. induction fuel as [|f IH]; intros m Hm; cbn [chunks_fuel]; [unfold BLOCK; cbn; lia|].
  case_decide as E; [|cbn; lia]. specialize (IH (drop BLOCK m)). destruct (chunks_fuel f BLOCK (drop BLOCK m)). cbn [snd] in *. apply IH.
  rewrite length_drop. unfold BLOCK in *. lia.
Qed.

Definition last_or (d : bytes) (bs : list bytes) : bytes := match last bs with Some b => b | None => d end.

Lemma chain_app dec prev bs bs' : cbc_chain dec prev (bs ++ bs') = cbc_chain dec prev bs ++ cbc_chain dec (last_or prev bs) bs'.
Proof.
  revert prev. induction bs as [|b bs IH]; intros prev; [done|]. cbn [app cbc_chain]. rewrite IH, <- app_assoc. do 2 f_equal.
  unfold last_or. destruct bs as [|b0 bs]; [done|]. change (last (b :: b0 :: bs)) with (last (b0 :: bs)).
  destruct (last (b0 :: bs)) eqn:E; [done|]. by apply last_None in E.
Qed.

Lemma chain_length dec prev bs : whole bs -> length prev = BLOCK -> (forall b, length b = BLOCK -> length (dec b) = BLOCK) ->
  length (cbc_chain dec prev bs) = (BLOCK * length bs)%nat.
Proof.
  intros Hbs Hp Hd. revert prev Hp. induction Hbs as [|b bs Hb _ IH]; intros prev Hp; [done|]. cbn [cbc_chain length]. rewrite length_app, IH by done.
  unfold xor_bytes. rewrite length_zip_with, Hd, Hp by done. unfold BLOCK. lia.
Qed.

(** ** Theory: reading in pieces *)

Section Stream.
Context `{HK : !Hkdf, HS : !Hashes, HA : !AesCbc, HAB : !AesBlock}.
Context (key iv : bytes).
Abbreviation dec := (aes_decrypt_block key).

Lemma decrypt_cblocks_chain bs p prev : decrypt_cblocks key bs p prev = (p ++ cbc_chain dec prev bs, last_or prev bs).
Proof.
  unfold decrypt_cblocks. revert p prev. induction bs as [|b bs IH]; intros p prev; cbn [fold_left cbc_chain].
  - by rewrite app_nil_r.
  - rewrite IH, <- app_assoc. f_equal. unfold last_or. destruct bs as [|b0 bs]; [done|]. change (last (b :: b0 :: bs)) with (last (b0 :: bs)).
    destruct (last (b0 :: bs)) eqn:E; [done|]. by apply last_None in E.
Qed.

(** What was read is some blocks that were processed and a short rest. *)
Record stream_ok (read : bytes) (s : StreamState) (bs : list bytes) : Prop := {
  so_whole : whole bs;
  so_read : read = mjoin bs ++ ss_tail s;
  so_fed : ss_fed s = iv ++ mjoin bs;
  so_plaintext : ss_plaintext s = cbc_chain dec iv bs;
  so_prev : ss_prev_block s = last_or iv bs;
  so_enough : bs <> [] -> (MAC_SIZE + BLOCK <= length (ss_tail s))%nat;
  so_short : (length (ss_tail s) < MAC_SIZE + BLOCK + BLOCK)%nat
}.

Lemma stream_step_ok read chunk s bs : stream_ok read s bs -> exists bs', stream_ok (read ++ chunk) (stream_step key chunk s) bs'.
Proof.
  intros [Hw Hr Hf Hp Hv He Hs]. unfold stream_step. set (tail := ss_tail s ++ chunk).
  assert (read ++ chunk = mjoin bs ++ tail) as Hr' by (by rewrite Hr, <- app_assoc).
  destruct (Nat.ltb_spec (MAC_SIZE + BLOCK) (length tail)) as [Hlt|Hge].
  2:{ exists bs. split; cbn [ss_fed ss_plaintext ss_tail ss_prev_block]; try done.
      - intros Hne. specialize (He Hne). unfold tail. rewrite length_app. lia.
      - unfold BLOCK in *. lia. }
  set (n := (length tail - (MAC_SIZE + BLOCK) - (length tail - (MAC_SIZE + BLOCK)) mod BLOCK)%nat).
  assert (length tail - (MAC_SIZE + BLOCK) = BLOCK * ((length tail - (MAC_SIZE + BLOCK)) / BLOCK) + (length tail - (MAC_SIZE + BLOCK)) mod BLOCK)%nat as Hdiv
    by (apply Nat.div_mod_eq).
  pose proof (Nat.mod_upper_bound (length tail - (MAC_SIZE + BLOCK)) BLOCK ltac:(unfold BLOCK; lia)) as Hmod.
  destruct (Nat.leb_spec BLOCK n) as [Hn|Hn].
  2:{ exists bs. split; cbn [ss_fed ss_plaintext ss_tail ss_prev_block]; try done; [lia|].
      unfold n, BLOCK in *. lia. }
  destruct (blocks_of (take n tail)) as (bs' & rest & Hw' & Hrest & Htake).
  assert (length (take n tail) = n) as Hlen by (rewrite length_take; unfold n; lia).
  assert (rest = []) as ->.
  { apply length_zero_iff_nil. rewrite Htake, length_app, (whole_length _ Hw') in Hlen.
    assert (n = BLOCK * ((length tail - (MAC_SIZE + BLOCK)) / BLOCK))%nat as En by (unfold n; lia). rewrite En in Hlen. unfold BLOCK in *. nia. }
  rewrite app_nil_r in Htake. rewrite Htake, as_chunks_whole_nil by done. rewrite decrypt_cblocks_chain.
  exists (bs ++ bs'). split; cbn [ss_fed ss_plaintext ss_tail ss_prev_block].
  - by apply Forall_app.
  - rewrite Hr', join_app, <- app_assoc. f_equal. rewrite <- Htake. by rewrite take_drop.
  - by rewrite Hf, join_app, <- app_assoc.
  - by rewrite Hp, Hv, chain_app.
  - rewrite Hv. unfold last_or. rewrite last_app. by destruct (last bs').
  - intros _. rewrite length_drop. unfold n, BLOCK in *. lia.
  - rewrite length_drop. unfold n, BLOCK in *. lia.
Qed.

Lemma stream_loop_ok reads read s bs : stream_ok read s bs -> Forall (fun c => c <> []) reads ->
  exists s' bs', stream_loop key (map Ok reads) s = Ok s' /\ stream_ok (read ++ mjoin reads) s' bs'.
Proof.
  intros Hok Hne. revert read s bs Hok. induction Hne as [|c reads Hc _ IH]; intros read s bs Hok.
  - exists s, bs. by rewrite app_nil_r.
  - cbn [map stream_loop obind]. destruct (stream_step_ok read c s bs Hok) as [bs1 Hok1].
    destruct (IH _ _ _ Hok1) as (s' & bs' & E & Hok'). exists s', bs'. rewrite <- app_assoc in Hok'. split; [by destruct c|done].
Qed.

(** The padding is in the last block. *)
Lemma pkcs7_last a f v : last f = Some v -> length f = BLOCK ->
  (match pkcs7_len (a ++ f) with Some n => Some (take n (a ++ f)) | None => None end)
  = let pad_len := Z.to_nat v in
    if (pad_len =? 0)%nat || (BLOCK <? pad_len)%nat || (length f <? pad_len)%nat then None
    else if negb (forallb (Z.eqb v) (drop (length f - pad_len) f)) then None
    else Some (a ++ take (length f - pad_len) f).
Proof.
  intros Hl Hf. cbv zeta. unfold pkcs7_len. rewrite last_app, Hl, Hf, length_app, Hf.
  destruct (in_range 1 16 v) eqn:Er; cbn [andb].
  - apply in_range_spec in Er. destruct (Nat.eqb_spec (Z.to_nat v) 0) as [|_]; [lia|]. destruct (Nat.ltb_spec BLOCK (Z.to_nat v)) as [E|_]; [unfold BLOCK in E; lia|].
    cbn [orb]. replace (length a + BLOCK - Z.to_nat v)%nat with (length a + (BLOCK - Z.to_nat v))%nat by (unfold BLOCK; lia).
    rewrite drop_app_add. destruct (forallb _ _); [|done]. cbn [negb]. by rewrite take_app_add.
  - destruct (Nat.eqb_spec (Z.to_nat v) 0) as [|Hz]; [done|]. destruct (Nat.ltb_spec BLOCK (Z.to_nat v)) as [|Hb]; [done|]. exfalso.
    assert (in_range 1 16 v = true); [apply in_range_spec; unfold BLOCK in Hb; lia|congruence].
Qed.

Lemma bytes_eqb_sym (a b : bytes) : (a =s b) = (b =s a).
Proof. destruct (bytes_eqb_spec a b) as [E|E], (bytes_eqb_spec b a) as [E'|E']; congruence. Qed.

(** The end of the stream is the end of the file decrypted at once. *)
Lemma stream_finish_once mac_key s bs payload : length key = 32%nat -> length iv = BLOCK -> stream_ok payload s bs ->
  to_option (stream_finish key mac_key s)
  = if (length payload <=? MAC_SIZE)%nat then None
    else
      let ciphertext := take (length payload - MAC_SIZE) payload in
      if negb (take MAC_SIZE (hmac Sha256 mac_key (iv ++ ciphertext)) =s drop (length payload - MAC_SIZE) payload) then None
      else to_option (decrypt_cbc key iv ciphertext).
Proof.
  intros Hk Hi [Hw Hr Hf Hp Hv He Hs]. unfold stream_finish, decrypt_cbc, aes_256_cbc_decrypt_into, key_iv_ok. rewrite Hk, Hi.
  set (tail := ss_tail s) in *. pose proof (whole_length bs Hw) as Hlen.
  assert (length payload = (BLOCK * length bs + length tail)%nat) as Hpl by (by rewrite Hr, length_app, Hlen).
  destruct (Nat.ltb_spec (length tail) (MAC_SIZE + BLOCK)) as [Hshort|Hlong]; cbn [orb].
  { assert (bs = []) as -> by (destruct bs; [done|]; specialize (He ltac:(done)); lia). cbn [length] in Hpl.
    destruct (Nat.leb_spec (length payload) MAC_SIZE) as [|Hm]; [done|]. cbv zeta. destruct (negb _); [done|].
    rewrite length_take, Nat.min_l by lia. destruct (Nat.eqb_spec (length payload - MAC_SIZE) 0) as [|_]; [done|]. cbn [orb].
    rewrite Nat.mod_small by (unfold MAC_SIZE, BLOCK in *; lia). destruct (Nat.eqb_spec (length payload - MAC_SIZE) 0) as [|_]; [unfold MAC_SIZE in *; lia|done]. }
  destruct (Nat.leb_spec (length payload) MAC_SIZE) as [|Hm]; [unfold MAC_SIZE, BLOCK in *; lia|]. cbv zeta.
  assert (length payload - MAC_SIZE = BLOCK * length bs + (length tail - MAC_SIZE))%nat as Hct by (unfold MAC_SIZE, BLOCK in *; lia).
  destruct (Nat.eqb_spec ((length tail - MAC_SIZE) mod BLOCK) 0) as [Hmul|Hmul]; cbn [negb].
  2:{ destruct (negb _); [done|]. rewrite length_take, Nat.min_l by lia. destruct (Nat.eqb_spec (length payload - MAC_SIZE) 0) as [|_]; [done|]. cbn [orb].
      rewrite Hct, Nat.add_comm, (Nat.mul_comm BLOCK), Nat.Div0.mod_add. destruct (Nat.eqb_spec ((length tail - MAC_SIZE) mod 16) 0); [done|done]. }
  assert (length tail - MAC_SIZE = BLOCK)%nat as Hone.
  { apply Nat.Div0.div_exact in Hmul. unfold MAC_SIZE, BLOCK in *. nia. }
  rewrite Hone. set (f := take BLOCK tail).
  assert (length f = BLOCK) as Hfl by (unfold f; rewrite length_take; lia).
  assert (take (length payload - MAC_SIZE) payload = mjoin (bs ++ [f])) as Hc.
  { rewrite Hct, Hone, Hr, <- Hlen, take_app_add, join_app. cbn. by rewrite app_nil_r. }
  assert (drop (length payload - MAC_SIZE) payload = drop BLOCK tail) as Hd by (by rewrite Hct, Hone, Hr, <- Hlen, drop_app_add).
  rewrite Hc, Hd, Hf, <- app_assoc. assert (mjoin bs ++ f = mjoin (bs ++ [f])) as -> by (rewrite join_app; cbn; by rewrite app_nil_r).
  rewrite bytes_eqb_sym. destruct (negb _); [done|].
  assert (whole (bs ++ [f])) as Hw2 by (apply Forall_app; split; [done|by repeat constructor]).
  assert (whole [f]) as Hwf by (by repeat constructor).
  assert ((as_chunks BLOCK f).1 = [f]) as ->.
  { pose proof (as_chunks_whole_nil [f] Hwf) as E. cbn [mjoin list_join] in E. by rewrite app_nil_r in E. }
  cbn [map mjoin list_join]. rewrite app_nil_r.
  rewrite (whole_length _ Hw2), length_app. cbn [length]. destruct (Nat.eqb_spec (BLOCK * (length bs + 1)) 0) as [E0|_]; [unfold BLOCK in E0; lia|]. cbn [orb].
  assert ((BLOCK * (length bs + 1)) mod 16 = 0)%nat as -> by (rewrite Nat.mul_comm; apply Nat.Div0.mod_mul). cbn [Nat.eqb negb andb].
  rewrite (cbc_over_blocks key iv) by (try done; rewrite (whole_length _ Hw2), length_app; cbn [length]; unfold BLOCK;
    first [lia | rewrite Nat.mul_comm; apply Nat.Div0.mod_mul]).
  rewrite as_chunks_whole_nil by done. rewrite chain_app. cbn [cbc_chain]. rewrite app_nil_r, <- Hp, <- Hv.
  set (q := xor_bytes (dec f) (ss_prev_block s)).
  assert (length q = BLOCK) as Hq.
  { unfold q, xor_bytes. rewrite length_zip_with, aes_block_length by done. rewrite Hv. unfold last_or. destruct (last bs) as [b|] eqn:Eb; [|rewrite Hi; unfold BLOCK; lia].
    apply last_Some in Eb as [l' ->]. apply Forall_app in Hw as [_ Hb]. apply Forall_inv in Hb. rewrite Hb. unfold BLOCK. lia. }
  destruct (last q) as [v|] eqn:El; [|apply last_None in El; rewrite El in Hq; done].
  pose proof (pkcs7_last (ss_plaintext s) q v El Hq) as Hpk. cbv zeta in Hpk.
  destruct (pkcs7_len (ss_plaintext s ++ q)) as [n|]; (destruct (_ || _ || _)%bool; [|destruct (negb (forallb _ _))]);
    change (BLOCK =? 16)%nat with true; cbn [map_err obind to_option]; congruence.
Qed.
End Stream.

(** ** Theory: files *)

Section Files.
Context `{HK : !Hkdf, HS : !Hashes, HA : !AesCbc, HAB : !AesBlock}.

Lemma media_keys_lengths media_key t :
  let '(iv, cipher_key, mac_key) := get_media_keys media_key t in length iv = BLOCK /\ length cipher_key = 32%nat.
Proof. unfold get_media_keys, slice, BLOCK. rewrite !length_take, !length_drop, !hkdf_length. split; lia. Qed.

(** Reading in pieces and at once. *)
Lemma pieces_at_once (reads : list bytes) media_key t : Forall (fun c => c <> []) reads ->
  to_option (decrypt_stream (map Ok reads) media_key t) = to_option (verify_and_decrypt (mjoin reads) media_key t).
Proof.
  intros Hne. unfold decrypt_stream, verify_and_decrypt. pose proof (media_keys_lengths media_key t) as Hl.
  destruct (get_media_keys media_key t) as [ [iv key] mac_key]. destruct Hl as [Hi Hk].
  destruct (stream_loop_ok key iv reads [] (mkStream iv [] [] iv) []) as (s' & bs' & E & Hok).
  { split; cbn; try done; [constructor|by rewrite app_nil_r|unfold MAC_SIZE, BLOCK; lia]. }
  { done. }
  rewrite E. cbn [obind app] in *. rewrite (stream_finish_once key iv mac_key s' bs' (mjoin reads) Hk Hi Hok).
  rewrite mac_of_256. cbn [map_err obind concat]. rewrite app_nil_r. destruct (_ <=? _)%nat; [done|]. cbv zeta. by destruct (negb _).
Qed.

(** What was encrypted is decrypted. *)
Lemma encrypted_opens media_key p t : exists enc, encrypt_media media_key p t = Ok enc /\ em_media_key enc = media_key
  /\ em_file_sha256 enc = sha Sha256 p /\ em_file_enc_sha256 enc = sha Sha256 (em_data_to_upload enc)
  /\ verify_and_decrypt (em_data_to_upload enc) media_key t = Ok p.
Proof.
  unfold encrypt_media, verify_and_decrypt. pose proof (media_keys_lengths media_key t) as Hl.
  destruct (get_media_keys media_key t) as [ [iv key] mac_key]. destruct Hl as [Hi Hk].
  destruct (aes_roundtrip p key iv [] [] Hk Hi) as (c & E & D). rewrite E, mac_of_256. cbn [map_err obind app]. eexists. split; [reflexivity|].
  cbn [em_media_key em_file_sha256 em_file_enc_sha256 em_data_to_upload]. split_and!; try done.
  set (mac := take MAC_SIZE _). assert (length mac = MAC_SIZE) as Hm by (unfold mac; rewrite length_take, hmac_length; done).
  rewrite length_app, Hm. assert (length c <> 0)%nat as Hc.
  { intros E0. apply length_zero_iff_nil in E0. subst c. unfold aes_256_cbc_decrypt_into in D. done. }
  destruct (Nat.leb_spec (length c + MAC_SIZE) MAC_SIZE) as [|_]; [lia|]. replace (length c + MAC_SIZE - MAC_SIZE)%nat with (length c) by lia.
  rewrite take_app_length, drop_app_length, mac_of_256. cbn [map_err obind]. unfold mac. rewrite bytes_eqb_refl. cbn [negb]. unfold decrypt_cbc. by rewrite D.
Qed.

Lemma reads_join body : mjoin (map (fun r => match r with Ok c => c | _ => [] end) (reads_of body)) = body
  /\ exists reads, reads_of body = map Ok reads /\ Forall (fun c => c <> []) reads /\ mjoin reads = body.
Proof.
  unfold reads_of. assert (forall fuel (l : bytes), (length l <= fuel)%nat ->
    exists reads, reads_of_fuel fuel l = map Ok reads /\ Forall (fun c => c <> []) reads /\ mjoin reads = l) as H.
  { intros fuel. induction fuel as [|f IH]; intros l Hl.
    - exists []. destruct l; [done|]. cbn in Hl. lia.
    - destruct l as [|b l]; [by exists []|]. cbn [reads_of_fuel]. set (m := b :: l) in *.
      destruct (IH (drop CHUNK m)) as (reads & -> & Hne & Hj); [rewrite length_drop; unfold m, CHUNK in *; cbn [length] in *; lia|].
      exists (take CHUNK m :: reads). split; [done|]. split; [constructor; [|done]|].
      { intros E. apply (f_equal length) in E. rewrite length_take in E. unfold m, CHUNK in E. cbn [length] in E. lia. }
      change (mjoin (take CHUNK m :: reads)) with (take CHUNK m ++ mjoin reads). by rewrite Hj, take_drop. }
  destruct (H (length body) body) as (reads & E & Hne & Hj); [lia|]. split; [|by exists reads].
  rewrite E, map_map. rewrite map_id. done.
Qed.

(** The body of a response decrypted while it is read. *)
Lemma body_decrypted body media_key t : to_option (decrypt_stream (reads_of body) media_key t) = to_option (verify_and_decrypt body media_key t).
Proof. destruct (reads_join body) as (_ & reads & -> & Hne & <-). by apply pieces_at_once. Qed.

(** C8: A file is decrypted to the same bytes in pieces and at once.  However the
    reads cut the file, decrypting it while it is read, by hand over the block
    cipher, gives what verifying and decrypting the whole file gives, and
    refuses what that refuses. *)
Theorem decrypt_stream_equiv (reads : list bytes) media_key t : Forall (fun c => c <> []) reads ->
  to_option (decrypt_stream (map Ok reads) media_key t) = to_option (verify_and_decrypt (mjoin reads) media_key t).
Proof. apply pieces_at_once. Qed.
End Files.

Section Transfer.
Context `{HK : !Hkdf, HS : !Hashes, HA : !AesCbc, HAB : !AesBlock}.
Context (b64_url_no_pad : bytes -> str) (send_iq : InfoQuery -> outcome ClientIqError Node) (show_iq_error : ClientIqError -> str).
Context (execute : HttpRequest -> outcome str HttpResponse) (raw_from_json : bytes -> outcome str (str * str)) (now : u64).
Context (show_utf8_error : bytes -> str).
Context (execute_returns : forall r, returns (execute r)).

Lemma decrypt_stream_returns body media_key t : returns (decrypt_stream (reads_of body) media_key t).
Proof.
  unfold decrypt_stream. destruct (get_media_keys media_key t) as [ [iv key] mac_key].
  destruct (reads_join body) as (_ & reads & -> & _). assert (forall s, exists s', stream_loop key (map Ok reads) s = Ok s') as H.
  { induction reads as [|c reads IH]; intros s; [by exists s|]. cbn. destruct c; [by exists s|apply IH]. }
  destruct (H (mkStream iv [] [] iv)) as [s' ->]. cbn [obind]. unfold stream_finish. by repeat case_match.
Qed.

(** The body a host serves for a request, if it serves one. *)
Definition served (q : DownloadRequest) : option bytes := to_option (fetched_body execute (dq_url q)).

Lemma one_download q : returns (download_and_decrypt_with_request execute q)
  /\ to_option (download_and_decrypt_with_request execute q)
     = match served q with Some body => to_option (verify_and_decrypt body (dq_media_key q) (dq_app_info q)) | None => None end.
Proof.
  unfold download_and_decrypt_with_request, served. pose proof (execute_returns (http_get (dq_url q))) as Hr. unfold fetched_body.
  destruct (execute _) as [resp|e| |]; try done. cbn [obind]. destruct (300 <=? hp_status_code resp); [done|]. cbn [obind to_option].
  split; [apply decrypt_stream_returns|apply body_decrypted].
Qed.

(** The first host whose answer is authentic decides. *)
Lemma first_download_spec l p : first_download execute l = Ok p <->
  exists l1 q l2 body, l = l1 ++ q :: l2 /\ served q = Some body /\ verify_and_decrypt body (dq_media_key q) (dq_app_info q) = Ok p
    /\ Forall (fun q => forall body, served q = Some body -> to_option (verify_and_decrypt body (dq_media_key q) (dq_app_info q)) = None) l1.
Proof.
  induction l as [|q l IH]; cbn [first_download]; [split; [done|by intros ([|] & ? & ? & ? & ? & _)]|].
  destruct (one_download q) as [Hr Ho]. destruct (download_and_decrypt_with_request execute q) as [data|e| |]; try done; cbn [to_option] in Ho.
  - destruct (served q) as [body|] eqn:Es; [|done]. split.
    + intros [= <-]. exists [], q, l, body. split_and!; try done. by destruct (verify_and_decrypt _ _ _); inversion Ho.
    + intros ([|q1 l1] & q' & l2 & body' & [= -> Hl] & Hs & Hv & Hall).
      * rewrite Es in Hs. injection Hs as <-. rewrite Hv in Ho. by inversion Ho.
      * apply Forall_inv in Hall. by rewrite (Hall body Es) in Ho.
  - rewrite IH. split.
    + intros (l1 & q' & l2 & body & -> & H1 & H2 & H3). exists (q :: l1), q', l2, body. split_and!; try done. constructor; [|done].
      intros body' Hb. by rewrite Hb in Ho.
    + intros ([|q1 l1] & q' & l2 & body & [= -> Hl] & Hs & Hv & Hall).
      * rewrite Hs, Hv in Ho. done.
      * exists l1, q', l2, body. split_and!; try done. by apply Forall_inv_tail in Hall.
Qed.

Lemma decrypt_returns body media_key t : returns (verify_and_decrypt body media_key t).
Proof.
  unfold verify_and_decrypt. destruct (_ <=? _)%nat; [done|]. cbv zeta. destruct (get_media_keys media_key t) as [ [iv key] mac_key].
  rewrite mac_of_256. cbn [map_err obind]. destruct (negb _); [done|]. unfold decrypt_cbc, aes_256_cbc_decrypt_into.
  destruct (_ || _); [done|]. destruct (key_iv_ok _ _); [|done]. by destruct (cbc_decrypt_padded _ _ _) as [buf [n|] ].
Qed.

(** A request whose host fails or serves something that is not authentic *)
Definition refused (q : DownloadRequest) : Prop :=
  forall body, served q = Some body -> to_option (verify_and_decrypt body (dq_media_key q) (dq_app_info q)) = None.

Lemma write_first_spec l1 q l2 body p err writer : Forall refused l1 -> served q = Some body ->
  verify_and_decrypt body (dq_media_key q) (dq_app_info q) = Ok p ->
  write_first execute (l1 ++ q :: l2) err writer = (Ok tt, write_at_start p writer).
Proof.
  intros Hl1 Hs Hv. revert err. induction Hl1 as [|q1 l1 Hq1 _ IH]; intros err; cbn [app write_first]; unfold download_and_write.
  - unfold served in Hs. destruct (fetched_body execute (dq_url q)); try done. injection Hs as ->. cbn [obind]. by rewrite Hv.
  - pose proof (execute_returns (http_get (dq_url q1))) as Hr. unfold refused, served in Hq1. unfold fetched_body in Hq1 |- *.
    destruct (execute _) as [resp|e| |]; try done; cbn [obind] in *; [|apply IH]. destruct (300 <=? _); cbn [obind] in *; [apply IH|].
    specialize (Hq1 _ eq_refl). pose proof (decrypt_returns (hp_body resp) (dq_media_key q1) (dq_app_info q1)) as Hd.
    destruct (verify_and_decrypt (hp_body resp) _ _); try done.
Qed.

(** The first request that is served what was uploaded. *)
Lemma first_served (l : list DownloadRequest) media_key t (stored : bytes) :
  Forall (fun q => dq_media_key q = media_key /\ dq_app_info q = t) l ->
  (forall q body, q ∈ l -> served q = Some body -> body = stored \/ to_option (verify_and_decrypt body media_key t) = None) ->
  (exists q, q ∈ l /\ served q = Some stored) ->
  exists l1 q l2, l = l1 ++ q :: l2 /\ served q = Some stored /\ dq_media_key q = media_key /\ dq_app_info q = t /\ Forall refused l1.
Proof.
  induction 1 as [|q l [Hk Ht] Hl IH]; intros Hall (q0 & Hq0 & Hs0); [by apply not_elem_of_nil in Hq0|].
  destruct (decide (served q = Some stored)) as [E|E]; [by exists [], q, l|].
  destruct IH as (l1 & q' & l2 & -> & H1 & H2 & H3 & H4).
  - intros q1 body Hq1. apply Hall. by right.
  - exists q0. split; [|done]. apply elem_of_cons in Hq0 as [->|Hq0]; [done|done].
  - exists (q :: l1), q', l2. split_and!; try done. constructor; [|done]. intros body Hb. rewrite Hk, Ht.
    destruct (Hall q body ltac:(by left) Hb) as [->|]; [done|done].
Qed.

(** A message that describes the file as the answer to the upload does *)
Definition downloadable_of (up : UploadResponse) (m : FileMessage) : Downloadable :=
  impl_downloadable m (Some (up_direct_path up)) (Some (up_media_key up)) (Some (up_file_enc_sha256 up)) (Some (up_file_sha256 up))
    (Some (up_file_length up)).

(** C6: What is uploaded is what is downloaded.  When the upload is accepted and
    the hosts then either fail, serve something that is not authentic, or serve
    what was uploaded, and one of them does, then downloading what the upload
    described gives the file, into memory and into an empty file, and the
    description has the length and the digests of the file. *)
Theorem media_roundtrip media_key data m conn enc h resp url path :
  let t := media_type_of m in
  is_expired now conn = false -> head (mn_hosts conn) = Some h -> encrypt_media media_key data t = Ok enc ->
  execute (upload_request b64_url_no_pad h (mn_auth conn) t enc) = Ok resp -> hp_status_code resp < 400 ->
  raw_from_json (hp_body resp) = Ok (url, path) ->
  let up := mkUploadResponse url path media_key (em_file_enc_sha256 enc) (em_file_sha256 enc) (Z.of_nat (length data)) in
  (forall requests, prepare_download_requests b64_url_no_pad (downloadable_of up m) (media_connection conn) = Ok requests ->
     (forall q body, q ∈ requests -> served q = Some body ->
        body = em_data_to_upload enc \/ to_option (verify_and_decrypt body media_key t) = None)
     /\ exists q, q ∈ requests /\ served q = Some (em_data_to_upload enc)) ->
  upload b64_url_no_pad send_iq show_iq_error execute raw_from_json now show_utf8_error media_key data t (Some conn) = (Ok up, Some conn)
  /\ download b64_url_no_pad send_iq show_iq_error execute now (downloadable_of up m) (Some conn) = (Ok data, Some conn)
  /\ download_to_file b64_url_no_pad send_iq show_iq_error execute now (downloadable_of up m) [] (Some conn) = (Ok data, Some conn)
  /\ up_file_sha256 up = sha Sha256 data /\ up_file_enc_sha256 up = sha Sha256 (em_data_to_upload enc).
Proof.
  intros t Hexp Hhost Henc Hex Hst Hraw up Hserve.
  destruct (encrypted_opens media_key data t) as (enc' & E & Hmk & Hs1 & Hs2 & Hopen). rewrite Henc in E. injection E as <-.
  assert (refresh_media_conn send_iq now false (Some conn) = (Ok conn, Some conn)) as Href by (unfold refresh_media_conn; by rewrite Hexp).
  destruct (prepare_download_requests b64_url_no_pad (downloadable_of up m) (media_connection conn)) as [requests| | |] eqn:Ereq; [|done..].
  destruct (Hserve requests eq_refl) as [Hall (q & Hq & Hsq)].
  assert (Forall (fun q => dq_media_key q = media_key /\ dq_app_info q = t) requests) as Hkeys.
  { cbn in Ereq. injection Ereq as <-. apply Forall_map. by apply Forall_forall. }
  destruct (first_served requests media_key t (em_data_to_upload enc) Hkeys Hall) as (l1 & q' & l2 & -> & Hs' & Hk' & Ht' & Href1); [by exists q|].
  rewrite <- Hk', <- Ht' in Hopen. split_and!; [| | |done|done].
  - unfold upload. rewrite Henc, Href. cbn [map_err obind]. rewrite Hhost. cbn [ok_or obind]. rewrite Hex. cbn [obind].
    destruct (Z.leb_spec 400 (hp_status_code resp)); [lia|]. rewrite Hraw. cbn [obind fst snd]. by rewrite Hmk.
  - unfold download. rewrite Href. cbn [map_err obind]. rewrite Ereq. cbn [obind]. f_equal. apply first_download_spec. by exists l1, q', l2, (em_data_to_upload enc).
  - unfold download_to_file. rewrite Href. cbn [map_err obind]. rewrite Ereq, (write_first_spec l1 q' l2 _ data) by done.
    cbn [obind]. unfold write_at_start. by rewrite drop_nil, app_nil_r.
Qed.
End Transfer.

(** ** A block cipher: blocks are left as they are *)

Fixpoint chain_encrypt (prev : bytes) (blocks : list bytes) : bytes :=
  match blocks with [] => [] | b :: blocks => let c := xor_bytes b prev in c ++ chain_encrypt c blocks end.
Definition pad_pkcs7 (p : bytes) : bytes := p ++ replicate (16 - length p mod 16) (Z.of_nat (16 - length p mod 16)).
Definition id_encrypt (key iv p : bytes) : bytes := chain_encrypt (take BLOCK (iv ++ replicate BLOCK 0)) (as_chunks BLOCK (pad_pkcs7 p)).1.
Definition id_decrypt (key iv c : bytes) : bytes * option nat := let p := cbc_chain id iv (as_chunks BLOCK c).1 in (p, pkcs7_len p).

Lemma xor_xor (a b : bytes) : length a = length b -> xor_bytes (xor_bytes a b) b = a.
Proof.
  revert b. induction a as [|x a IH]; intros [|y b] Hl; try done. cbn. f_equal; [|apply IH; by injection Hl].
  by rewrite Z.lxor_assoc, Z.lxor_nilpotent, Z.lxor_0_r.
Qed.

Lemma chain_encrypt_spec prev bs : whole bs -> length prev = BLOCK ->
  exists cs, whole cs /\ length cs = length bs /\ chain_encrypt prev bs = mjoin cs /\ cbc_chain id prev cs = mjoin bs.
Proof.
  intros Hbs. revert prev. induction Hbs as [|b bs Hb _ IH]; intros prev Hp; [exists []; split_and!; [constructor|done..]|].
  assert (length (xor_bytes b prev) = BLOCK) as Hx by (unfold xor_bytes; rewrite length_zip_with, Hb, Hp; done).
  destruct (IH (xor_bytes b prev) Hx) as (cs & Hw & Hl & He & Hd). exists (xor_bytes b prev :: cs). cbn [chain_encrypt cbc_chain length id].
  rewrite He, xor_xor, Hd by congruence. split_and!; [by constructor|by rewrite Hl|done|done].
Qed.

Lemma padded_blocks (p : bytes) : exists bs, whole bs /\ pad_pkcs7 p = mjoin bs /\ (BLOCK * length bs = length p + (16 - length p mod 16))%nat.
Proof.
  destruct (blocks_of (pad_pkcs7 p)) as (bs & rest & Hw & Hr & E). assert (length rest = 0)%nat as H0.
  { apply (f_equal length) in E. unfold pad_pkcs7 in E. rewrite !length_app, length_replicate, (whole_length bs Hw) in E. unfold BLOCK in *.
    pose proof (Nat.div_mod_eq (length p) 16). pose proof (Nat.mod_upper_bound (length p) 16 ltac:(lia)). lia. }
  apply length_zero_iff_nil in H0. subst rest. rewrite app_nil_r in E. exists bs. split_and!; [done|done|].
  apply (f_equal length) in E. unfold pad_pkcs7 in E. rewrite length_app, length_replicate, (whole_length bs Hw) in E. lia.
Qed.

Lemma pkcs7_len_pad p : pkcs7_len (pad_pkcs7 p) = Some (length p).
Proof.
  unfold pkcs7_len, pad_pkcs7. pose proof (Nat.mod_upper_bound (length p) 16 ltac:(lia)) as Hm.
  remember (16 - length p mod 16)%nat as k eqn:Hk. destruct k as [|k]; [lia|].
  assert (last (p ++ replicate (S k) (Z.of_nat (S k))) = Some (Z.of_nat (S k))) as ->.
  { replace (S k) with (k + 1)%nat at 1 by lia. rewrite replicate_add. cbn [replicate]. by rewrite app_assoc, last_snoc. }
  replace (in_range 1 16 (Z.of_nat (S k))) with true by (symmetry; apply in_range_spec; lia). rewrite Nat2Z.id, length_app, length_replicate, Nat.add_sub, drop_app_length.
  replace (forallb _ _) with true; [done|]. symmetry. apply forallb_forall. intros x Hx. apply list_elem_of_In, elem_of_replicate in Hx as [-> _]. apply Z.eqb_refl.
Qed.

Lemma id_encrypt_length key iv p : length (id_encrypt key iv p) = (length p + (16 - length p mod 16))%nat.
Proof.
  unfold id_encrypt. destruct (padded_blocks p) as (bs & Hw & -> & <-). rewrite as_chunks_whole_nil by done.
  destruct (chain_encrypt_spec (take BLOCK (iv ++ replicate BLOCK 0)) bs Hw) as (cs & Hcs & Hl & -> & _).
  { rewrite length_take, length_app, length_replicate. lia. }
  by rewrite (whole_length cs Hcs), Hl.
Qed.

Lemma id_decrypt_encrypt key iv p : length key = 32%nat -> length iv = 16%nat ->
  exists tail, id_decrypt key iv (id_encrypt key iv p) = (p ++ tail, Some (length p)).
Proof.
  intros _ Hi. unfold id_encrypt, id_decrypt. replace (take BLOCK (iv ++ replicate BLOCK 0)) with iv by (rewrite take_app_length'; [done|by rewrite Hi]).
  destruct (padded_blocks p) as (bs & Hw & Ep & _). rewrite Ep, as_chunks_whole_nil by done.
  destruct (chain_encrypt_spec iv bs Hw Hi) as (cs & Hcs & _ & -> & Hd). rewrite as_chunks_whole_nil, Hd, <- Ep, pkcs7_len_pad by done. by eexists.
Qed.

Definition id_aes : AesCbc :=
  {| cbc_encrypt_padded := id_encrypt; cbc_encrypt_length := id_encrypt_length;
     cbc_decrypt_padded := id_decrypt; cbc_decrypt_encrypt := id_decrypt_encrypt |}.

Lemma id_over_blocks (key iv c : bytes) : length key = 32%nat -> length iv = BLOCK -> length c <> 0%nat -> (length c mod BLOCK = 0)%nat ->
  let p := cbc_chain id iv (as_chunks BLOCK c).1 in @cbc_decrypt_padded id_aes key iv c = (p, pkcs7_len p).
Proof. done. Qed.

Definition id_block : @AesBlock id_aes :=
  {| aes_decrypt_block _ b := b; aes_block_length _ _ H := H; cbc_over_blocks := id_over_blocks |}.

(** ** Witnesses *)

Definition toy_media_key : bytes := replicate 32 5.
Definition toy_file : bytes := lit "a file of more than one block of sixteen bytes".
Definition toy_encrypted : EncryptedMedia :=
  match @encrypt_media toy_hkdf toy_hashes id_aes toy_media_key toy_file Image with Ok enc => enc | _ => mkEncryptedMedia [] [] [] [] end.
(** One host, then another; the first serves nothing. *)
Definition toy_media_conn : MediaConn := mkMediaConn (lit "a") 300 [lit "h1"; lit "h2"] 0.
Definition toy_execute (r : HttpRequest) : outcome str HttpResponse :=
  if hr_method r =s lit "POST" then Ok (mkHttpResponse 200 (lit "{}"))
  else if starts_with (lit "https://h1") (hr_url r) then Ok (mkHttpResponse 404 [])
  else Ok (mkHttpResponse 200 (em_data_to_upload toy_encrypted)).
Definition toy_up : UploadResponse :=
  mkUploadResponse (lit "u") (lit "/p") toy_media_key (em_file_enc_sha256 toy_encrypted) (em_file_sha256 toy_encrypted) (Z.of_nat (length toy_file)).

Lemma decrypt_stream_equiv_witness :
  to_option (@decrypt_stream toy_hkdf toy_hashes id_aes id_block (map Ok [take 30 (em_data_to_upload toy_encrypted); drop 30 (em_data_to_upload toy_encrypted)])
               toy_media_key Image) = Some toy_file.
Proof.
  rewrite (@decrypt_stream_equiv toy_hkdf toy_hashes id_aes id_block [take 30 (em_data_to_upload toy_encrypted); drop 30 (em_data_to_upload toy_encrypted)]
             toy_media_key Image).
  - vm_compute. reflexivity.
  - repeat constructor; intros E; apply (f_equal length) in E; vm_compute in E; discriminate.
Defined.

Lemma media_roundtrip_witness :
  @upload toy_hkdf toy_hashes id_aes (fun b => b) (fun _ => Err (CI_ServerError 0 [])) (fun _ => []) toy_execute (fun _ => Ok (lit "u", lit "/p")) 1 (fun _ => [])
    toy_media_key toy_file Image (Some toy_media_conn) = (Ok toy_up, Some toy_media_conn)
  /\ @download toy_hkdf toy_hashes id_aes id_block (fun b => b) (fun _ => Err (CI_ServerError 0 [])) (fun _ => []) toy_execute 1
       (downloadable_of toy_up ImageMessage) (Some toy_media_conn) = (Ok toy_file, Some toy_media_conn).
Proof.
  destruct (@media_roundtrip toy_hkdf toy_hashes id_aes id_block (fun b => b) (fun _ => Err (CI_ServerError 0 [])) (fun _ => []) toy_execute
              (fun _ => Ok (lit "u", lit "/p")) 1 (fun _ => [])
              ltac:(intros r; unfold toy_execute; destruct (_ =s _); [exact I|destruct (starts_with _ _); exact I])
              toy_media_key toy_file ImageMessage toy_media_conn toy_encrypted (lit "h1") (mkHttpResponse 200 (lit "{}")) (lit "u") (lit "/p"))
    as (H1 & H2 & _); [vm_compute; reflexivity..| |split; [exact H1|exact H2] ].
  intros requests Hr. vm_compute in Hr. injection Hr as <-. split.
  - intros q body Hq. repeat (apply elem_of_cons in Hq as [->|Hq]); [..|by apply not_elem_of_nil in Hq]; intros Hs; vm_compute in Hs; try discriminate.
    injection Hs as <-. left. vm_compute. reflexivity.
  - eexists. split; [right; left|]. vm_compute. reflexivity.
Defined.
