(* ===== verification/SqlStore.v ===== *)
(** * The data base under the SQL stores: [schema.rs] and what both of
      [storages/{sqlite-storage/src/sqlite_store,postgres-storage/src/postgres_store}.rs]
      run their statements with

    The tables with their primary keys, the connection pool, single statements,
    transactions, and the loop that repeats a write while the data base is
    locked.  Taking a connection and running a statement can fail at any time;
    what fails is decided by two functions of the number of things tried so
    far.  A statement that fails changes nothing. *)

From stdpp Require Import gmap.
From S2P Require Import Prelude RustStd Persistence LidPn Registry.

(** ** The tables *)

(** Every key ends with the id of the device a row belongs to. *)
Record Tables := mkTables {
  t_device : DeviceTable;
  t_identities : gmap (str * i32) bytes;
  t_sessions : gmap (str * i32) bytes;
  t_prekeys : gmap (i32 * i32) (bytes * bool);
  t_signed_prekeys : gmap (i32 * i32) bytes;
  t_sender_keys : gmap (str * i32) bytes;
  t_app_state_keys : gmap (bytes * i32) bytes;
  t_app_state_versions : gmap (str * i32) bytes;
  t_mutation_macs : gmap (str * bytes * i32) (i64 * bytes);
  t_base_keys : gmap (str * str * i32) (bytes * i32);
  t_lid_pn_mapping : gmap (str * i32) LidPnMappingEntry;
  t_skdm_recipients : gmap (str * str * i32) i32;
  t_device_registry : gmap (str * i32) (RegistryRow * i32);
  t_sender_key_status : gmap (str * str * i32) i32
}.

Definition set_identities m t := mkTables (t_device t) m (t_sessions t) (t_prekeys t) (t_signed_prekeys t) (t_sender_keys t) (t_app_state_keys t) (t_app_state_versions t) (t_mutation_macs t) (t_base_keys t) (t_lid_pn_mapping t) (t_skdm_recipients t) (t_device_registry t) (t_sender_key_status t).
Definition set_sessions m t := mkTables (t_device t) (t_identities t) m (t_prekeys t) (t_signed_prekeys t) (t_sender_keys t) (t_app_state_keys t) (t_app_state_versions t) (t_mutation_macs t) (t_base_keys t) (t_lid_pn_mapping t) (t_skdm_recipients t) (t_device_registry t) (t_sender_key_status t).
Definition set_prekeys m t := mkTables (t_device t) (t_identities t) (t_sessions t) m (t_signed_prekeys t) (t_sender_keys t) (t_app_state_keys t) (t_app_state_versions t) (t_mutation_macs t) (t_base_keys t) (t_lid_pn_mapping t) (t_skdm_recipients t) (t_device_registry t) (t_sender_key_status t).
Definition set_signed_prekeys m t := mkTables (t_device t) (t_identities t) (t_sessions t) (t_prekeys t) m (t_sender_keys t) (t_app_state_keys t) (t_app_state_versions t) (t_mutation_macs t) (t_base_keys t) (t_lid_pn_mapping t) (t_skdm_recipients t) (t_device_registry t) (t_sender_key_status t).
Definition set_sender_keys m t := mkTables (t_device t) (t_identities t) (t_sessions t) (t_prekeys t) (t_signed_prekeys t) m (t_app_state_keys t) (t_app_state_versions t) (t_mutation_macs t) (t_base_keys t) (t_lid_pn_mapping t) (t_skdm_recipients t) (t_device_registry t) (t_sender_key_status t).
Definition set_app_state_keys m t := mkTables (t_device t) (t_identities t) (t_sessions t) (t_prekeys t) (t_signed_prekeys t) (t_sender_keys t) m (t_app_state_versions t) (t_mutation_macs t) (t_base_keys t) (t_lid_pn_mapping t) (t_skdm_recipients t) (t_device_registry t) (t_sender_key_status t).
Definition set_app_state_versions m t := mkTables (t_device t) (t_identities t) (t_sessions t) (t_prekeys t) (t_signed_prekeys t) (t_sender_keys t) (t_app_state_keys t) m (t_mutation_macs t) (t_base_keys t) (t_lid_pn_mapping t) (t_skdm_recipients t) (t_device_registry t) (t_sender_key_status t).
Definition set_mutation_macs m t := mkTables (t_device t) (t_identities t) (t_sessions t) (t_prekeys t) (t_signed_prekeys t) (t_sender_keys t) (t_app_state_keys t) (t_app_state_versions t) m (t_base_keys t) (t_lid_pn_mapping t) (t_skdm_recipients t) (t_device_registry t) (t_sender_key_status t).
Definition set_base_keys m t := mkTables (t_device t) (t_identities t) (t_sessions t) (t_prekeys t) (t_signed_prekeys t) (t_sender_keys t) (t_app_state_keys t) (t_app_state_versions t) (t_mutation_macs t) m (t_lid_pn_mapping t) (t_skdm_recipients t) (t_device_registry t) (t_sender_key_status t).
Definition set_lid_pn_mapping m t := mkTables (t_device t) (t_identities t) (t_sessions t) (t_prekeys t) (t_signed_prekeys t) (t_sender_keys t) (t_app_state_keys t) (t_app_state_versions t) (t_mutation_macs t) (t_base_keys t) m (t_skdm_recipients t) (t_device_registry t) (t_sender_key_status t).
Definition set_skdm_recipients m t := mkTables (t_device t) (t_identities t) (t_sessions t) (t_prekeys t) (t_signed_prekeys t) (t_sender_keys t) (t_app_state_keys t) (t_app_state_versions t) (t_mutation_macs t) (t_base_keys t) (t_lid_pn_mapping t) m (t_device_registry t) (t_sender_key_status t).
Definition set_device_registry m t := mkTables (t_device t) (t_identities t) (t_sessions t) (t_prekeys t) (t_signed_prekeys t) (t_sender_keys t) (t_app_state_keys t) (t_app_state_versions t) (t_mutation_macs t) (t_base_keys t) (t_lid_pn_mapping t) (t_skdm_recipients t) m (t_sender_key_status t).
Definition set_sender_key_status m t := mkTables (t_device t) (t_identities t) (t_sessions t) (t_prekeys t) (t_signed_prekeys t) (t_sender_keys t) (t_app_state_keys t) (t_app_state_versions t) (t_mutation_macs t) (t_base_keys t) (t_lid_pn_mapping t) (t_skdm_recipients t) (t_device_registry t) m.

(** [filter(device_id.eq(d))]: the rows of a device by the rest of their key *)
Definition rows {K V} `{Countable K} (device_id : i32) (m : gmap (K * i32) V) : gmap K V :=
  list_to_map (omap (fun '((k, d), v) => if d =? device_id then Some (k, v) else None) (map_to_list m)).
(** [delete(...filter(p).filter(device_id.eq(d)))] *)
Definition delete_rows {K V} `{Countable K} (p : K -> bool) (device_id : i32) (m : gmap (K * i32) V) : gmap (K * i32) V :=
  filter (fun kv => (p kv.1.1 && (kv.1.2 =? device_id)) = false) m.

(** ** The data base *)

(** [db_tried]: how often a connection was taken or a statement run;
    [db_slept]: the delays of the retries, the last first *)
Record Db := mkDb { db_tables : Tables; db_tried : nat; db_slept : list u64 }.
Abbreviation sql A := (comp Db StoreError A) (only parsing).

Definition tick (db : Db) : Db := mkDb (db_tables db) (S (db_tried db)) (db_slept db).
Definition set_tables (t : Tables) (db : Db) : Db := mkDb t (db_tried db) (db_slept db).

(** [s.contains(p)] *)
Fixpoint str_contains (p s : str) : bool :=
  starts_with p s || match s with [] => false | _ :: s => str_contains p s end.

Section Statements.
(** the failures: texts of the errors of the pool and of the data base *)
Context (pool_fault query_fault : nat -> option str).

(** [pool.get()] *)
Definition pool_get : sql unit :=
  fun db => match pool_fault (db_tried db) with Some e => (Err (ST_Connection e), tick db) | None => (Ok tt, tick db) end.

Definition execute {A} (q : Tables -> A * Tables) : sql A :=
  fun db => match query_fault (db_tried db) with
            | Some e => (Err (ST_Database e), tick db)
            | None => let '(a, t) := q (db_tables db) in (Ok a, set_tables t (tick db))
            end.

Definition select {A} (q : Tables -> A) : sql A := execute (fun t => (q t, t)).
Definition delete_from (change : Tables -> Tables) : sql unit := execute (fun t => (tt, change t)).

(** An insertion into a table; [fk] is the error when the device the row is for
    has to be in the table of devices and is not. *)
Definition insert_into (fk : option str) (device_id : i32) (change : Tables -> Tables) : sql unit :=
  fun db =>
    match fk, t_device (db_tables db) !! device_id with
    | Some e, None => (Err (ST_Database (default e (query_fault (db_tried db)))), tick db)
    | _, _ => execute (fun t => (tt, change t)) db
    end.

(** [conn.transaction(f)]: the beginning and the end are statements; after a
    failure the tables are what they were. *)
Definition transaction (f : sql unit) : sql unit :=
  fun db =>
    match (execute (fun t => (tt, t)) ;; f ;; execute (fun t => (tt, t))) db with
    | (Ok tt, db') => (Ok tt, db')
    | (o, db') => (o, set_tables (db_tables db) db')
    end.

(** ** Retries *)

Definition MAX_RETRIES : nat := 5.
Definition delay_ms (attempt : nat) : u64 := 10 * 2 ^ Z.of_nat attempt.
Definition retryable (e : StoreError) : bool :=
  str_contains (lit "locked") (show_store_error e) || str_contains (lit "busy") (show_store_error e).
Definition sleep (ms : u64) (db : Db) : Db := mkDb (db_tables db) (db_tried db) (ms :: db_slept db).

(** [for attempt in 0..=MAX_RETRIES]; [n] attempts are left *)
Fixpoint attempts (n attempt : nat) (what : str) (write : sql unit) : sql unit :=
  match n with
  | O => mfail (ST_Database (what ++ lit " write failed after 6 attempts"))
  | S n => fun db =>
      match write db with
      | (Err e, db) => if retryable e && (attempt <? MAX_RETRIES)%nat then attempts n (S attempt) what write (sleep (delay_ms attempt) db)
                       else (Err e, db)
      | r => r
      end
  end.
Definition retrying (what : str) (write : sql unit) : sql unit := attempts (S MAX_RETRIES) 0 what write.
End Statements.

(** ** Theory: the rows of a device *)

Lemma lookup_rows {K V} `{Countable K} (d : i32) (m : gmap (K * i32) V) (k : K) : rows d m !! k = m !! (k, d).
Proof.
  unfold rows. set (f := fun '((k, d'), v) => if d' =? d then Some (k, v) else None).
  assert (forall l : list ((K * i32) * V), NoDup l.*1 -> NoDup (omap f l).*1) as Hnd.
  { induction l as [|[ [k1 d1] v1] l IH]; [constructor|]. rewrite fmap_cons. intros [Hx Hl]%NoDup_cons. cbn [omap list_omap f].
    destruct (Z.eqb_spec d1 d) as [->|]; [|by apply IH]. rewrite fmap_cons. apply NoDup_cons. split; [|by apply IH].
    intros ([k2 v2] & E & Hin)%list_elem_of_fmap. cbn in E. subst k2. apply list_elem_of_omap in Hin as ([ [k3 d3] v3] & Hin & E). cbn in E.
    destruct (Z.eqb_spec d3 d) as [->|]; [|done]. injection E as -> ->. apply Hx. apply list_elem_of_fmap. by exists ((k1, d), v2). }
  apply option_eq. intros v. rewrite <- elem_of_list_to_map by (apply Hnd, NoDup_fst_map_to_list). rewrite list_elem_of_omap. split.
  - intros ([ [k1 d1] v1] & Hin & E). cbn in E. destruct (Z.eqb_spec d1 d) as [->|]; [|done]. injection E as -> ->. by apply elem_of_map_to_list.
  - intros Hin. exists ((k, d), v). split; [by apply elem_of_map_to_list|]. cbn. by rewrite Z.eqb_refl.
Qed.

Lemma rows_insert {K V} `{Countable K} (d : i32) (k : K) (v : V) (m : gmap (K * i32) V) : rows d (<[(k, d) := v]> m) = <[k := v]> (rows d m).
Proof.
  apply map_eq. intros k'. rewrite lookup_rows. destruct (decide (k = k')) as [->|Hk]; [by rewrite !lookup_insert_eq|].
  rewrite !lookup_insert_ne by congruence. by rewrite lookup_rows.
Qed.

Lemma rows_insert_other {K V} `{Countable K} (d d' : i32) (k : K) (v : V) (m : gmap (K * i32) V) : d' <> d -> rows d' (<[(k, d) := v]> m) = rows d' m.
Proof. intros Hd. apply map_eq. intros k'. rewrite !lookup_rows. by rewrite lookup_insert_ne by congruence. Qed.

Lemma rows_delete {K V} `{Countable K} (d : i32) (k : K) (m : gmap (K * i32) V) : rows d (delete (k, d) m) = delete k (rows d m).
Proof.
  apply map_eq. intros k'. rewrite lookup_rows. destruct (decide (k = k')) as [->|Hk]; [by rewrite !lookup_delete_eq|].
  rewrite !lookup_delete_ne by congruence. by rewrite lookup_rows.
Qed.

Lemma rows_delete_other {K V} `{Countable K} (d d' : i32) (k : K) (m : gmap (K * i32) V) : d' <> d -> rows d' (delete (k, d) m) = rows d' m.
Proof. intros Hd. apply map_eq. intros k'. rewrite !lookup_rows. by rewrite lookup_delete_ne by congruence. Qed.

Lemma rows_delete_rows {K V} `{Countable K} (p : K -> bool) (d : i32) (m : gmap (K * i32) V) :
  rows d (delete_rows p d m) = filter (fun kv => p kv.1 = false) (rows d m).
Proof.
  apply map_eq. intros k. rewrite lookup_rows. unfold delete_rows. apply option_eq. intros v.
  rewrite !map_lookup_filter_Some. rewrite lookup_rows. cbn [fst snd]. rewrite Z.eqb_refl, andb_true_r. done.
Qed.

Lemma rows_delete_rows_other {K V} `{Countable K} (p : K -> bool) (d d' : i32) (m : gmap (K * i32) V) : d' <> d -> rows d' (delete_rows p d m) = rows d' m.
Proof.
  intros Hd. apply map_eq. intros k. rewrite !lookup_rows. unfold delete_rows. apply option_eq. intros v.
  rewrite map_lookup_filter_Some. cbn [fst snd]. destruct (Z.eqb_spec d' d); [done|]. rewrite andb_false_r. intuition.
Qed.

Create HintDb rows.
#[export] Hint Rewrite @lookup_rows @rows_insert @rows_delete @rows_delete_rows : rows.
#[export] Hint Rewrite @rows_insert_other @rows_delete_other @rows_delete_rows_other using done : rows.

(** ** Theory: what a computation does to the tables *)

Section Implements.
Context (pool_fault query_fault : nat -> option str).

(** Nothing fails: neither the pool nor the data base, and the device exists. *)
Definition healthy (device_id : i32) (db : Db) : Prop :=
  (forall n, pool_fault n = None) /\ (forall n, query_fault n = None) /\ is_Some (t_device (db_tables db) !! device_id).

(** [m] does what [q] says of the tables; when it fails, [left] relates the
    tables before and after; when nothing fails and [q] has a result it is
    returned.  The devices stay. *)
Record implements {A} (device_id : i32) (m : sql A) (q : Tables -> option A * Tables) (left : Tables -> Tables -> Prop) : Prop := {
  imp_run : forall db, match m db with
                       | (Ok a, db') => q (db_tables db) = (Some a, db_tables db')
                       | (Err _, db') => left (db_tables db) (db_tables db')
                       | _ => False
                       end;
  imp_live : forall db a, healthy device_id db -> (q (db_tables db)).1 = Some a -> exists db', m db = (Ok a, db');
  imp_devices : forall db, t_device (db_tables (m db).2) = t_device (db_tables db)
}.

Definition total {A} (q : Tables -> A * Tables) : Tables -> option A * Tables := fun t => let '(a, t') := q t in (Some a, t').
Definition keeps_devices {A} (q : Tables -> A * Tables) : Prop := forall t, t_device (q t).2 = t_device t.

Lemma healthy_same d db db' : t_device (db_tables db') = t_device (db_tables db) -> healthy d db -> healthy d db'.
Proof. unfold healthy. by intros ->. Qed.

Lemma execute_implements {A} d (q : Tables -> A * Tables) : keeps_devices q -> implements d (execute query_fault q) (total q) eq.
Proof.
  intros Hk. unfold execute, total. split; intros db; [|intros a (_ & Hq & _)|]; specialize (Hk (db_tables db)).
  - destruct (query_fault _); [done|]. by destruct (q (db_tables db)).
  - rewrite Hq. destruct (q (db_tables db)). cbn. intros [= ->]. by eexists.
  - destruct (query_fault _); [done|]. by destruct (q (db_tables db)).
Qed.

Lemma insert_implements d fk change : keeps_devices (fun t => (tt, change t)) ->
  implements d (insert_into query_fault fk d change) (total (fun t => (tt, change t))) eq.
Proof.
  intros Hk. destruct (execute_implements d _ Hk) as [H1 H2 H3]. split; intros db; [specialize (H1 db)|intros a Hh|specialize (H3 db)]; unfold insert_into.
  - destruct fk as [e|]; [|done]. by destruct (t_device _ !! d).
  - intros Hq. destruct (H2 db a Hh Hq) as [db' E]. destruct Hh as (_ & _ & [r Hr]). exists db'. destruct fk as [e|]; [by rewrite Hr|done].
  - destruct fk as [e|]; [|done]. by destruct (t_device _ !! d).
Qed.

Lemma pooled_implements {A} d (m : sql A) q left : (forall t, left t t) -> implements d m q left -> implements d (pool_get pool_fault ;; m) q left.
Proof.
  intros Hr [H1 H2 H3]. unfold pool_get. split; intros db; [specialize (H1 (tick db))|intros a Hh Hq|specialize (H3 (tick db))]; unfold mbind'.
  - destruct (pool_fault _); [apply Hr|exact H1].
  - destruct (H2 (tick db) a Hh Hq) as [db' E]. exists db'. destruct Hh as (Hp & _). by rewrite Hp.
  - by destruct (pool_fault _).
Qed.

(** A result that is worked on, and may be refused *)
Lemma then_implements {A B} d (m : sql A) q left (g : A -> outcome StoreError B) :
  (forall a, returns (g a)) -> (forall t a t', q t = (Some a, t') -> left t t') -> implements d m q left ->
  implements d (let! a := m in mlift (g a)) (fun t => let '(o, t') := q t in (match o with Some a => to_option (g a) | None => None end, t')) left.
Proof.
  intros Hg Hl [H1 H2 H3]. split; intros db; [specialize (H1 db)|intros b Hh Hq|specialize (H3 db)]; unfold mbind', mlift.
  - destruct (m db) as [ [a|e| |] db']; try done. specialize (Hg a). rewrite H1. destruct (g a); try done. by eapply Hl.
  - destruct (q (db_tables db)) as [o t'] eqn:E. cbn in Hq. destruct o as [a|]; [|done].
    destruct (H2 db a Hh) as [db' ->]; [by rewrite E|]. exists db'. destruct (g a); try done. by injection Hq as ->.
  - by destruct (m db) as [ [a|e| |] db'].
Qed.

(** [for x in l { ... }] over statements: a failure leaves what was done so far. *)
Definition prefix_done {X} (ch : X -> Tables -> Tables) (l : list X) (t t' : Tables) : Prop :=
  exists l', l' `prefix_of` l /\ t' = fold_left (fun t x => ch x t) l' t.

Lemma mfor_implements {X} d (f : X -> sql unit) (ch : X -> Tables -> Tables) l :
  (forall x, implements d (f x) (total (fun t => (tt, ch x t))) eq) ->
  implements d (mfor f l) (total (fun t => (tt, fold_left (fun t x => ch x t) l t))) (prefix_done ch l).
Proof.
  intros Hf. induction l as [|x l IH]; cbn [mfor].
  - split; intros db; [done|intros [] _ _; by eexists|done].
  - destruct (Hf x) as [F1 F2 F3], IH as [H1 H2 H3]. split; intros db; [|intros [] Hh _|]; unfold mbind'.
    + specialize (F1 db). destruct (f x db) as [ [ []|e| |] db1]; try done.
      * injection F1 as F1. specialize (H1 db1). destruct (mfor f l db1) as [ [ []|e| |] db2]; try done.
        -- unfold total in *. cbn [fold_left]. rewrite F1. by injection H1 as <-.
        -- destruct H1 as (l' & Hl & ->). exists (x :: l'). split; [by apply prefix_cons|]. cbn. by rewrite F1.
      * exists []. split; [apply prefix_nil|done].
    + destruct (F2 db tt Hh eq_refl) as [db1 E1]. pose proof (F3 db) as E. rewrite E1 in E |- *.
      destruct (H2 db1 tt (healthy_same _ _ _ E Hh) eq_refl) as [db2 E2]. by exists db2.
    + specialize (F3 db). destruct (f x db) as [ [ []|e| |] db1]; try done. by rewrite H3.
Qed.

Lemma transaction_implements d (f : sql unit) q left : implements d f (total q) left -> implements d (transaction query_fault f) (total q) eq.
Proof.
  intros [H1 H2 H3]. destruct (execute_implements d (fun t => (tt, t))) as [E1 E2 E3]; [done|].
  assert (forall db db', execute query_fault (fun t => (tt, t)) db = (Ok tt, db') -> db_tables db' = db_tables db) as Hsame.
  { intros db db' E. specialize (E1 db). rewrite E in E1. by injection E1. }
  split; intros db; [|intros [] Hh Hq|]; unfold transaction, mbind'.
  - pose proof (E1 db) as B. destruct (execute query_fault _ db) as [ [ []|e| |] db1] eqn:Eb; try done. apply Hsame in Eb.
    specialize (H1 db1). rewrite Eb in H1. destruct (f db1) as [ [ []|e| |] db2]; try done.
    specialize (E1 db2). destruct (execute query_fault _ db2) as [ [ []|e| |] db3] eqn:Ec; try done. apply Hsame in Ec. by rewrite Ec.
  - destruct (E2 db tt Hh eq_refl) as [db1 Eb]. rewrite Eb. apply Hsame in Eb.
    destruct (H2 db1 tt) as [db2 Ef]; [by eapply healthy_same; [|done]; rewrite Eb|by rewrite Eb|]. rewrite Ef.
    destruct (E2 db2 tt) as [db3 Ec]; [|done|rewrite Ec; by eexists].
    eapply healthy_same; [|done]. specialize (H3 db1). rewrite Ef in H3. cbn [snd] in H3. by rewrite H3, Eb.
  - destruct (execute query_fault _ db) as [ [ []|e| |] db1] eqn:Eb; try done. apply Hsame in Eb.
    specialize (H3 db1). destruct (f db1) as [ [ []|e| |] db2]; try done. cbn [snd] in H3.
    destruct (execute query_fault _ db2) as [ [ []|e| |] db3] eqn:Ec; try done. apply Hsame in Ec. cbn [snd]. by rewrite Ec, H3, Eb.
Qed.

Lemma attempts_implements d what (w : sql unit) q n k : implements d w (total q) eq ->
  (forall db, match attempts n k what w db with
              | (Ok a, db') => total q (db_tables db) = (Some a, db_tables db')
              | (Err _, db') => db_tables db = db_tables db'
              | _ => False
              end) /\ forall db, t_device (db_tables (attempts n k what w db).2) = t_device (db_tables db).
Proof.
  intros [H1 _ H3]. revert k. induction n as [|n IH]; intros k; [by split|]. cbn [attempts].
  split; intros db; [specialize (H1 db)|specialize (H3 db); specialize (H1 db)]; (destruct (w db) as [ [ []|e| |] db1]; try done);
    (destruct (retryable e && _); [|done]); destruct (IH (S k)) as [I1 I3].
  - specialize (I1 (sleep (delay_ms k) db1)). cbn [sleep db_tables] in I1. by rewrite H1.
  - by rewrite I3.
Qed.

Lemma retrying_implements d what (w : sql unit) q : implements d w (total q) eq -> implements d (retrying what w) (total q) eq.
Proof.
  intros H. pose proof (attempts_implements d what w q (S MAX_RETRIES) 0 H) as [A1 A3]. split; [exact A1| |exact A3].
  intros db a Hh Hq. destruct H as [_ H2 _]. destruct (H2 db a Hh Hq) as [db' E]. exists db'. unfold retrying. cbn [attempts]. by rewrite E.
Qed.

(** Waiting for the lock: while the write is refused because the data base is
    locked it is tried again, at most five times, after delays that double. *)
Lemma retrying_waits what (w : sql unit) (dbs : nat -> Db) k :
  (k <= MAX_RETRIES)%nat ->
  (forall i, (i < k)%nat -> exists e db, w (dbs i) = (Err e, db) /\ retryable e = true /\ dbs (S i) = sleep (delay_ms i) db) ->
  (forall e db, w (dbs k) = (Err e, db) -> retryable e = false \/ k = MAX_RETRIES) ->
  retrying what w (dbs 0%nat) = w (dbs k).
Proof.
  intros Hk Hi Hend. unfold retrying. assert (forall i n, (i <= k)%nat -> (i + n = S MAX_RETRIES)%nat -> attempts n i what w (dbs i) = w (dbs k)) as H.
  { intros i n Hik Hin. revert i Hik Hin. induction n as [|n IH]; intros i Hik Hin; [lia|]. cbn [attempts]. destruct (decide (i = k)) as [->|Hne].
    - destruct (w (dbs k)) as [ [ []|e| |] db] eqn:E; try done. destruct (Hend e db eq_refl) as [->|Hm]; [done|].
      destruct (Nat.ltb_spec k MAX_RETRIES); [lia|]. by rewrite andb_false_r.
    - destruct (Hi i ltac:(lia)) as (e & db & -> & -> & Hs). destruct (Nat.ltb_spec i MAX_RETRIES); [|lia]. cbn [andb]. rewrite <- Hs. apply IH; lia. }
  apply (H 0%nat); lia.
Qed.
End Implements.
