(* ===== verification/Backend.v ===== *)
(** * The storage of a device: the traits of [warp_core/src/store/traits.rs]

    What [SignalStore], [AppSyncStore] and [ProtocolStore] promise together: the
    calls, their replies, and a specification over the data of one device as
    plain maps.  The SQL stores implement it. *)

From stdpp Require Import gmap.
From S2P Require Import Prelude RustStd AppState Persistence LidPn Registry SqlStore.

Abbreviation StoreError := Persistence.StoreError.

(** ** Data *)

Record AppStateSyncKey := mkSyncKey { sk_key_data : bytes; sk_fingerprint : bytes; sk_timestamp : i64 }.

(** [bincode] on what is kept encoded *)
Class Bincode := {
  sync_key_encode : AppStateSyncKey -> bytes;
  sync_key_decode : bytes -> sum str AppStateSyncKey;
  sync_key_roundtrip : forall k, sync_key_decode (sync_key_encode k) = inr k;
  hash_state_encode : HashState -> bytes;
  hash_state_decode : bytes -> sum str HashState;
  hash_state_roundtrip : forall s, hash_state_decode (hash_state_encode s) = inr s
}.

(** [as i64] *)
Definition cast_i64 (z : Z) : i64 := (z + 2 ^ 63) mod 2 ^ 64 - 2 ^ 63.

Definition decoded {A} (o : sum str A) : outcome StoreError A := match o with inr a => Ok a | inl e => Err (ST_Serialization e) end.

(** ** The data of one device *)

Record DeviceData := mkData {
  dd_identities : gmap str bytes;
  dd_sessions : gmap str bytes;
  dd_prekeys : gmap i32 (bytes * bool);
  dd_signed_prekeys : gmap i32 bytes;
  dd_sender_keys : gmap str bytes;
  dd_sync_keys : gmap bytes bytes;
  dd_versions : gmap str bytes;
  dd_macs : gmap (str * bytes) (i64 * bytes);
  dd_base_keys : gmap (str * str) (bytes * i32);
  dd_lids : gmap str LidPnMappingEntry;
  dd_recipients : gmap (str * str) i32;
  dd_registry : gmap str (RegistryRow * i32);
  dd_marks : gmap (str * str) i32
}.
Definition with_identities m d := mkData m (dd_sessions d) (dd_prekeys d) (dd_signed_prekeys d) (dd_sender_keys d) (dd_sync_keys d) (dd_versions d) (dd_macs d) (dd_base_keys d) (dd_lids d) (dd_recipients d) (dd_registry d) (dd_marks d).
Definition with_sessions m d := mkData (dd_identities d) m (dd_prekeys d) (dd_signed_prekeys d) (dd_sender_keys d) (dd_sync_keys d) (dd_versions d) (dd_macs d) (dd_base_keys d) (dd_lids d) (dd_recipients d) (dd_registry d) (dd_marks d).
Definition with_prekeys m d := mkData (dd_identities d) (dd_sessions d) m (dd_signed_prekeys d) (dd_sender_keys d) (dd_sync_keys d) (dd_versions d) (dd_macs d) (dd_base_keys d) (dd_lids d) (dd_recipients d) (dd_registry d) (dd_marks d).
Definition with_signed_prekeys m d := mkData (dd_identities d) (dd_sessions d) (dd_prekeys d) m (dd_sender_keys d) (dd_sync_keys d) (dd_versions d) (dd_macs d) (dd_base_keys d) (dd_lids d) (dd_recipients d) (dd_registry d) (dd_marks d).
Definition with_sender_keys m d := mkData (dd_identities d) (dd_sessions d) (dd_prekeys d) (dd_signed_prekeys d) m (dd_sync_keys d) (dd_versions d) (dd_macs d) (dd_base_keys d) (dd_lids d) (dd_recipients d) (dd_registry d) (dd_marks d).
Definition with_sync_keys m d := mkData (dd_identities d) (dd_sessions d) (dd_prekeys d) (dd_signed_prekeys d) (dd_sender_keys d) m (dd_versions d) (dd_macs d) (dd_base_keys d) (dd_lids d) (dd_recipients d) (dd_registry d) (dd_marks d).
Definition with_versions m d := mkData (dd_identities d) (dd_sessions d) (dd_prekeys d) (dd_signed_prekeys d) (dd_sender_keys d) (dd_sync_keys d) m (dd_macs d) (dd_base_keys d) (dd_lids d) (dd_recipients d) (dd_registry d) (dd_marks d).
Definition with_macs m d := mkData (dd_identities d) (dd_sessions d) (dd_prekeys d) (dd_signed_prekeys d) (dd_sender_keys d) (dd_sync_keys d) (dd_versions d) m (dd_base_keys d) (dd_lids d) (dd_recipients d) (dd_registry d) (dd_marks d).
Definition with_base_keys m d := mkData (dd_identities d) (dd_sessions d) (dd_prekeys d) (dd_signed_prekeys d) (dd_sender_keys d) (dd_sync_keys d) (dd_versions d) (dd_macs d) m (dd_lids d) (dd_recipients d) (dd_registry d) (dd_marks d).
Definition with_lids m d := mkData (dd_identities d) (dd_sessions d) (dd_prekeys d) (dd_signed_prekeys d) (dd_sender_keys d) (dd_sync_keys d) (dd_versions d) (dd_macs d) (dd_base_keys d) m (dd_recipients d) (dd_registry d) (dd_marks d).
Definition with_recipients m d := mkData (dd_identities d) (dd_sessions d) (dd_prekeys d) (dd_signed_prekeys d) (dd_sender_keys d) (dd_sync_keys d) (dd_versions d) (dd_macs d) (dd_base_keys d) (dd_lids d) m (dd_registry d) (dd_marks d).
Definition with_registry m d := mkData (dd_identities d) (dd_sessions d) (dd_prekeys d) (dd_signed_prekeys d) (dd_sender_keys d) (dd_sync_keys d) (dd_versions d) (dd_macs d) (dd_base_keys d) (dd_lids d) (dd_recipients d) m (dd_marks d).
Definition with_marks m d := mkData (dd_identities d) (dd_sessions d) (dd_prekeys d) (dd_signed_prekeys d) (dd_sender_keys d) (dd_sync_keys d) (dd_versions d) (dd_macs d) (dd_base_keys d) (dd_lids d) (dd_recipients d) (dd_registry d) m.

(** The data of a device in the tables *)
Definition device_data (device_id : i32) (t : Tables) : DeviceData :=
  mkData (rows device_id (t_identities t)) (rows device_id (t_sessions t)) (rows device_id (t_prekeys t)) (rows device_id (t_signed_prekeys t)) (rows device_id (t_sender_keys t)) (rows device_id (t_app_state_keys t)) (rows device_id (t_app_state_versions t)) (rows device_id (t_mutation_macs t)) (rows device_id (t_base_keys t)) (rows device_id (t_lid_pn_mapping t)) (rows device_id (t_skdm_recipients t)) (rows device_id (t_device_registry t)) (rows device_id (t_sender_key_status t)).

(** ** The calls *)

(** [now]: the seconds of the clock, as [i32] *)
Inductive Call :=
| PutIdentity (address : str) (key : bytes)
| LoadIdentity (address : str)
| DeleteIdentity (address : str)
| GetSession (address : str)
| PutSession (address : str) (session : bytes)
| DeleteSession (address : str)
| GetSessionsBatch (addresses : list str)
| PutSessionsBatch (entries : list (str * bytes))
| LoadIdentitiesBatch (addresses : list str)
| PutIdentitiesBatch (entries : list (str * bytes))
| StorePreKey (id : u32) (record : bytes) (uploaded : bool)
| LoadPreKey (id : u32)
| RemovePreKey (id : u32)
| StoreSignedPreKey (id : u32) (record : bytes)
| LoadSignedPreKey (id : u32)
| LoadAllSignedPreKeys
| RemoveSignedPreKey (id : u32)
| PutSenderKey (address : str) (record : bytes)
| GetSenderKey (address : str)
| DeleteSenderKey (address : str)
| GetSyncKey (key_id : bytes)
| SetSyncKey (key_id : bytes) (key : AppStateSyncKey)
| GetVersion (name : str)
| SetVersion (name : str) (state : HashState)
| PutMutationMacs (name : str) (version : u64) (mutations : list AppStateMutationMAC)
| GetMutationMac (name : str) (index_mac : bytes)
| DeleteMutationMacs (name : str) (index_macs : list bytes)
| GetSkdmRecipients (group_jid : str)
| AddSkdmRecipients (now : i32) (group_jid : str) (device_jids : list str)
| ClearSkdmRecipients (group_jid : str)
| GetLidMapping (lid : str)
| GetPnMapping (phone : str)
| PutLidMapping (entry : LidPnMappingEntry)
| GetAllLidMappings
| SaveBaseKey (now : i32) (address message_id : str) (base_key : bytes)
| HasSameBaseKey (address message_id : str) (current_base_key : bytes)
| DeleteBaseKey (address message_id : str)
| UpdateDeviceList (now : i32) (record : DeviceListRecord)
| GetDevices (user : str)
| MarkForgetSenderKey (now : i32) (group_jid participant : str)
| ConsumeForgetMarks (group_jid : str).

Inductive Reply :=
| RDone
| RBytes (b : option bytes)
| RPairs (l : list (str * bytes))
| RRecords (l : list (u32 * bytes))
| RSyncKey (k : option AppStateSyncKey)
| RState (s : HashState)
| RStrings (l : list str)
| RMapping (e : option LidPnMappingEntry)
| RMappings (l : list LidPnMappingEntry)
| RBool (b : bool)
| RDevices (r : option DeviceListRecord).

(** [order(updated_at.desc()).first()]: of the rows with the latest time the data
    base returns any; [tie] is its choice, a position among them. *)
Class TieBreak := tie : list LidPnMappingEntry -> nat.
Definition latest (l : list LidPnMappingEntry) : list LidPnMappingEntry :=
  List.filter (fun e => forallb (fun e' => lm_updated_at e' <=? lm_updated_at e) l) l.
Definition most_recent `{HTB : !TieBreak} (l : list LidPnMappingEntry) : option LidPnMappingEntry :=
  match latest l !! tie (latest l) with Some e => Some e | None => head (latest l) end.

(** Two replies say the same: lists are compared as sets. *)
Definition reply_equiv (r r' : Reply) : Prop :=
  match r, r' with
  | RPairs l, RPairs l' => forall x, x ∈ l <-> x ∈ l'
  | RRecords l, RRecords l' => forall x, x ∈ l <-> x ∈ l'
  | RStrings l, RStrings l' => forall x, x ∈ l <-> x ∈ l'
  | RMappings l, RMappings l' => forall x, x ∈ l <-> x ∈ l'
  | _, _ => r = r'
  end.
#[export] Instance reply_equiv_equivalence : Equivalence reply_equiv.
Proof.
  split.
  - by intros [].
  - intros [] []; cbn; try (intros; congruence); intros H x; by rewrite H.
  - intros [] [] []; cbn; try (intros; congruence); intros H1 H2 x; by rewrite H1.
Qed.

(** ** The specification *)

Section Spec.
Context `{HBC : !Bincode, HJ : !DeviceJson, HTB : !TieBreak}.

(** Several writes, one after the other *)
Definition put_all {V} (l : list (str * V)) (m : gmap str V) : gmap str V := fold_left (fun m e => <[e.1 := e.2]> m) l m.
Definition put_mac_rows (name : str) (version : u64) (l : list AppStateMutationMAC) (m : gmap (str * bytes) (i64 * bytes)) :=
  fold_left (fun m x => <[(name, mm_index_mac x) := (cast_i64 version, mm_value_mac x)]> m) l m.
Definition delete_mac_rows (name : str) (l : list bytes) (m : gmap (str * bytes) (i64 * bytes)) : gmap (str * bytes) (i64 * bytes) :=
  fold_left (fun m idx => delete (name, idx) m) l m.
Definition add_recipient_rows (now : i32) (group : str) (l : list str) (m : gmap (str * str) i32) : gmap (str * str) i32 :=
  fold_left (fun m j => match m !! (group, j) with Some _ => m | None => <[(group, j) := now]> m end) l m.

Definition put_mapping (e : LidPnMappingEntry) (m : gmap str LidPnMappingEntry) : gmap str LidPnMappingEntry :=
  <[lm_lid e := match m !! lm_lid e with
                | Some r => mkMapping (lm_lid r) (lm_phone_number e) (lm_created_at r) (lm_updated_at e) (lm_learning_source e)
                | None => e
                end]> m.

Definition in_group (group : str) (m : gmap (str * str) i32) : list str :=
  map (fun r => r.1.2) (filter (fun r => r.1.1 = group) (map_to_list m)).
Definition not_in_group (group : str) (m : gmap (str * str) i32) : gmap (str * str) i32 := filter (fun r => (r.1.1 =s group) = false) m.

Definition registry_record (user : str) (r : RegistryRow * i32) : option DeviceListRecord :=
  match devices_from_json (rr_devices_json r.1) with
  | inr devices => Some (mkDeviceList user devices (rr_timestamp r.1) (rr_phash r.1))
  | inl _ => None
  end.

(** A reply is missing where a row cannot be decoded. *)
Definition spec (c : Call) (d : DeviceData) : option Reply * DeviceData :=
  match c with
  | PutIdentity a k => (Some RDone, with_identities (<[a := k]> (dd_identities d)) d)
  | LoadIdentity a => (Some (RBytes (dd_identities d !! a)), d)
  | DeleteIdentity a => (Some RDone, with_identities (delete a (dd_identities d)) d)
  | GetSession a => (Some (RBytes (dd_sessions d !! a)), d)
  | PutSession a s => (Some RDone, with_sessions (<[a := s]> (dd_sessions d)) d)
  | DeleteSession a => (Some RDone, with_sessions (delete a (dd_sessions d)) d)
  | GetSessionsBatch l => (Some (RPairs (filter (fun r => r.1 ∈ l) (map_to_list (dd_sessions d)))), d)
  | PutSessionsBatch l => (Some RDone, with_sessions (put_all l (dd_sessions d)) d)
  | LoadIdentitiesBatch l => (Some (RPairs (omap (fun a => pair a <$> dd_identities d !! a) l)), d)
  | PutIdentitiesBatch l => (Some RDone, with_identities (put_all l (dd_identities d)) d)
  | StorePreKey id r u => (Some RDone, with_prekeys (<[cast_i32 id := (r, u)]> (dd_prekeys d)) d)
  | LoadPreKey id => (Some (RBytes (fst <$> dd_prekeys d !! cast_i32 id)), d)
  | RemovePreKey id => (Some RDone, with_prekeys (delete (cast_i32 id) (dd_prekeys d)) d)
  | StoreSignedPreKey id r => (Some RDone, with_signed_prekeys (<[cast_i32 id := r]> (dd_signed_prekeys d)) d)
  | LoadSignedPreKey id => (Some (RBytes (dd_signed_prekeys d !! cast_i32 id)), d)
  | LoadAllSignedPreKeys => (Some (RRecords (map (fun r => (cast_u32 r.1, r.2)) (map_to_list (dd_signed_prekeys d)))), d)
  | RemoveSignedPreKey id => (Some RDone, with_signed_prekeys (delete (cast_i32 id) (dd_signed_prekeys d)) d)
  | PutSenderKey a r => (Some RDone, with_sender_keys (<[a := r]> (dd_sender_keys d)) d)
  | GetSenderKey a => (Some (RBytes (dd_sender_keys d !! a)), d)
  | DeleteSenderKey a => (Some RDone, with_sender_keys (delete a (dd_sender_keys d)) d)
  | GetSyncKey id =>
      (match dd_sync_keys d !! id with
       | Some data => match sync_key_decode data with inr k => Some (RSyncKey (Some k)) | inl _ => None end
       | None => Some (RSyncKey None)
       end, d)
  | SetSyncKey id k => (Some RDone, with_sync_keys (<[id := sync_key_encode k]> (dd_sync_keys d)) d)
  | GetVersion n =>
      (match dd_versions d !! n with
       | Some data => match hash_state_decode data with inr s => Some (RState s) | inl _ => None end
       | None => Some (RState hash_state_default)
       end, d)
  | SetVersion n s => (Some RDone, with_versions (<[n := hash_state_encode s]> (dd_versions d)) d)
  | PutMutationMacs n v l => (Some RDone, with_macs (put_mac_rows n v l (dd_macs d)) d)
  | GetMutationMac n k => (Some (RBytes (snd <$> dd_macs d !! (n, k))), d)
  | DeleteMutationMacs n l => (Some RDone, with_macs (delete_mac_rows n l (dd_macs d)) d)
  | GetSkdmRecipients g => (Some (RStrings (in_group g (dd_recipients d))), d)
  | AddSkdmRecipients now g l => (Some RDone, with_recipients (add_recipient_rows now g l (dd_recipients d)) d)
  | ClearSkdmRecipients g => (Some RDone, with_recipients (not_in_group g (dd_recipients d)) d)
  | GetLidMapping lid => (Some (RMapping (dd_lids d !! lid)), d)
  | GetPnMapping phone => (Some (RMapping (most_recent (filter (fun e => lm_phone_number e = phone) (map_to_list (dd_lids d)).*2))), d)
  | PutLidMapping e => (Some RDone, with_lids (put_mapping e (dd_lids d)) d)
  | GetAllLidMappings => (Some (RMappings (map_to_list (dd_lids d)).*2), d)
  | SaveBaseKey now a id k =>
      (Some RDone, with_base_keys (<[(a, id) := (k, match dd_base_keys d !! (a, id) with Some r => r.2 | None => now end)]> (dd_base_keys d)) d)
  | HasSameBaseKey a id k => (Some (RBool (match dd_base_keys d !! (a, id) with Some r => r.1 =s k | None => false end)), d)
  | DeleteBaseKey a id => (Some RDone, with_base_keys (delete (a, id) (dd_base_keys d)) d)
  | UpdateDeviceList now r =>
      (Some RDone, with_registry (<[dl_user r := (mkRegistryRow (devices_to_json (dl_devices r)) (cast_i32 (dl_timestamp r)) (dl_phash r), now)]>
                                    (dd_registry d)) d)
  | GetDevices u =>
      (match dd_registry d !! u with
       | Some r => RDevices ∘ Some <$> registry_record u r
       | None => Some (RDevices None)
       end, d)
  | MarkForgetSenderKey now g p => (Some RDone, with_marks (<[(g, p) := now]> (dd_marks d)) d)
  | ConsumeForgetMarks g => (Some (RStrings (in_group g (dd_marks d))), with_marks (not_in_group g (dd_marks d)) d)
  end.

(** What a call that failed may have done: nothing, or, of the four calls that
    write several rows without a transaction, the writes of a prefix. *)
Definition attempted (c c' : Call) : Prop :=
  match c, c' with
  | PutIdentitiesBatch l, PutIdentitiesBatch l' => l' `prefix_of` l
  | PutMutationMacs n v l, PutMutationMacs n' v' l' => n' = n /\ v' = v /\ l' `prefix_of` l
  | DeleteMutationMacs n l, DeleteMutationMacs n' l' => n' = n /\ l' `prefix_of` l
  | AddSkdmRecipients now g l, AddSkdmRecipients now' g' l' => now' = now /\ g' = g /\ l' `prefix_of` l
  | _, _ => False
  end.
Definition after_failure (c : Call) (d d' : DeviceData) : Prop := d' = d \/ exists c', attempted c c' /\ d' = (spec c' d).2.

(** ** What an implementation is *)

(** A computation that answers a call of a device: it works on the tables as the
    specification works on the data of the device and leaves the data of the
    other devices alone; after a failure it has done nothing, or a part where
    the specification allows one. *)
Record works_as (device_id : i32) (c : Call) (q : Tables -> option Reply * Tables) (left : Tables -> Tables -> Prop) : Prop := {
  wa_reply : forall t, option_Forall2 reply_equiv (q t).1 (spec c (device_data device_id t)).1;
  wa_data : forall t, device_data device_id (q t).2 = (spec c (device_data device_id t)).2;
  wa_others : forall t d, d <> device_id -> device_data d (q t).2 = device_data d t;
  wa_left : forall t t', left t t' -> after_failure c (device_data device_id t) (device_data device_id t')
    /\ forall d, d <> device_id -> device_data d t' = device_data d t
}.

Section Store.
Context (pool_fault query_fault : nat -> option str) (device_id : i32).

Definition answers (c : Call) (m : sql Reply) : Prop :=
  exists q left, implements pool_fault query_fault device_id m q left /\ works_as device_id c q left.

(** An implementation of the calls of a device *)
Definition implements_backend (run : Call -> sql Reply) : Prop := forall c, answers c (run c).

(** What one call does: its reply and the data are the specified ones; when it
    fails the data are what a failure may leave; no other device is touched; and
    when nothing fails it succeeds wherever the specification has a reply. *)
Lemma backend_call run c db : implements_backend run ->
  match run c db with
  | (Ok r, db') => option_Forall2 reply_equiv (Some r) (spec c (device_data device_id (db_tables db))).1
                   /\ device_data device_id (db_tables db') = (spec c (device_data device_id (db_tables db))).2
  | (Err _, db') => after_failure c (device_data device_id (db_tables db)) (device_data device_id (db_tables db'))
  | _ => False
  end
  /\ (forall d, d <> device_id -> device_data d (db_tables (run c db).2) = device_data d (db_tables db))
  /\ (healthy pool_fault query_fault device_id db -> is_Some (spec c (device_data device_id (db_tables db))).1 ->
      exists r db', run c db = (Ok r, db') /\ healthy pool_fault query_fault device_id db').
Proof.
  intros Hrun. destruct (Hrun c) as (q & left & [I1 I2 I3] & [W1 W2 W3 W4]). specialize (I1 db). specialize (W1 (db_tables db)). split_and!.
  - destruct (run c db) as [ [r|e| |] db']; try done; [|by apply W4]. rewrite <- W2, I1. cbn [snd]. by rewrite I1 in W1.
  - intros d Hd. destruct (run c db) as [ [r|e| |] db']; try done; cbn [snd]; [|by apply W4].
    specialize (W3 (db_tables db) d Hd). by rewrite I1 in W3.
  - intros Hh [r' Hr']. rewrite Hr' in W1. destruct (q (db_tables db)) as [o t'] eqn:E. cbn [fst] in W1. inversion W1 as [r ? Heq E1 E2|]; subst.
    destruct (I2 db r Hh) as [db' Ed]; [by rewrite E|]. exists r, db'. split; [done|]. specialize (I3 db). rewrite Ed in I3. by eapply healthy_same.
Qed.

(** ** Replies *)

Definition reply {A} (f : A -> Reply) (m : sql A) : sql Reply := let! a := m in mret (f a).

Lemma reply_implements {A} (f : A -> Reply) (m : sql A) q left : implements pool_fault query_fault device_id m q left ->
  implements pool_fault query_fault device_id (reply f m) (fun t => let '(o, t') := q t in (f <$> o, t')) left.
Proof.
  intros [H1 H2 H3]. split; intros db; [specialize (H1 db)|intros b Hh Hq|specialize (H3 db)]; unfold reply, mbind', mret.
  - destruct (m db) as [ [a|e| |] db']; try done. by rewrite H1.
  - destruct (q (db_tables db)) as [ [a|] t'] eqn:E; [|done]. injection Hq as <-. destruct (H2 db a Hh) as [db' ->]; [by rewrite E|]. by eexists.
  - by destruct (m db) as [ [a|e| |] db'].
Qed.

Lemma mret_implements {A} (a : A) : implements pool_fault query_fault device_id (mret a) (total (fun t => (a, t))) eq.
Proof. split; intros db; [done|intros b _ [= ->]; by eexists|done]. Qed.

(** ** Shapes of answers *)

(** Reads *)
Lemma read_answers {A} c (q : Tables -> A) (f : A -> Reply) (m : sql A) :
  implements pool_fault query_fault device_id m (total (fun t => (q t, t))) eq ->
  (forall t, exists r, (spec c (device_data device_id t)).1 = Some r /\ reply_equiv (f (q t)) r) ->
  (forall d, (spec c d).2 = d) -> answers c (reply f m).
Proof.
  intros Hm Hr Hs. eexists _, _. split; [by apply reply_implements|]. split; [|done|done|].
  - intros t. cbn. destruct (Hr t) as (r & -> & Hf). by constructor.
  - intros t t' <-. split; [by left|done].
Qed.

(** Writes that are done or not done *)
Lemma write_answers c (ch : Tables -> Tables) (m : sql unit) :
  implements pool_fault query_fault device_id m (total (fun t => (tt, ch t))) eq ->
  (forall d, (spec c d).1 = Some RDone) ->
  (forall t, device_data device_id (ch t) = (spec c (device_data device_id t)).2) ->
  (forall t d, d <> device_id -> device_data d (ch t) = device_data d t) -> answers c (reply (fun _ => RDone) m).
Proof.
  intros Hm Hr Hs Ho. eexists _, _. split; [by apply reply_implements|]. split; [|done|done|].
  - intros t. cbn. rewrite Hr. by constructor.
  - intros t t' <-. split; [by left|done].
Qed.

(** Writes of several rows, one after the other: [c l] is the call for the rows [l] *)
Lemma loop_answers {X} (c : list X -> Call) (ch : X -> Tables -> Tables) (m : sql unit) l :
  implements pool_fault query_fault device_id m (total (fun t => (tt, fold_left (fun t x => ch x t) l t))) (prefix_done ch l) ->
  (forall l d, (spec (c l) d).1 = Some RDone) -> (forall l', l' `prefix_of` l -> attempted (c l) (c l')) ->
  (forall d, (spec (c []) d).2 = d) -> (forall x l d, (spec (c (x :: l)) d).2 = (spec (c l) (spec (c [x]) d).2).2) ->
  (forall x t, device_data device_id (ch x t) = (spec (c [x]) (device_data device_id t)).2) ->
  (forall x t d, d <> device_id -> device_data d (ch x t) = device_data d t) -> answers (c l) (reply (fun _ => RDone) m).
Proof.
  intros Hm Hr Ha Hnil Hcons Hs Ho.
  assert (forall l t, device_data device_id (fold_left (fun t x => ch x t) l t) = (spec (c l) (device_data device_id t)).2) as Hl.
  { intros l'. induction l' as [|x l' IH]; intros t; [by rewrite Hnil|]. cbn [fold_left]. by rewrite IH, Hs, <- Hcons. }
  assert (forall l t d, d <> device_id -> device_data d (fold_left (fun t x => ch x t) l t) = device_data d t) as Hlo.
  { intros l' t d Hd. revert t. induction l' as [|x l' IH]; intros t; [done|]. cbn [fold_left]. by rewrite IH, Ho. }
  eexists _, _. split; [by apply reply_implements|]. split.
  - intros t. cbn. rewrite Hr. by constructor.
  - intros t. apply Hl.
  - intros t. apply Hlo.
  - intros t t' (l' & Hp & ->). split; [|apply Hlo]. right. exists (c l'). by split; [apply Ha|apply Hl].
Qed.

(** A read whose row may not decode *)
Lemma decode_answers {A} c (q : Tables -> A) {B} (g : A -> outcome StoreError B) (f : B -> Reply) (m : sql A) :
  implements pool_fault query_fault device_id m (total (fun t => (q t, t))) eq -> (forall a, returns (g a)) ->
  (forall t, (spec c (device_data device_id t)).1 = f <$> to_option (g (q t))) -> (forall d, (spec c d).2 = d) ->
  answers c (reply f (let! a := m in mlift (g a))).
Proof.
  intros Hm Hg Hr Hs. eexists _, _. split; [apply reply_implements, then_implements; [done| |done]; by intros t a t' [= _ <-]|]. split; cbn.
  - intros t. rewrite Hr. destruct (to_option (g (q t))); by constructor.
  - done.
  - done.
  - intros t t' <-. split; [by left|done].
Qed.

(** What is read and then removed *)
Lemma take_implements {A} (q : Tables -> A) (ch : Tables -> Tables) : keeps_devices (fun t => (tt, ch t)) ->
  implements pool_fault query_fault device_id (let! a := select query_fault q in delete_from query_fault ch ;; mret a) (total (fun t => (q t, ch t))) eq.
Proof.
  intros Hk. destruct (execute_implements pool_fault query_fault device_id (fun t => (q t, t))) as [S1 S2 S3]; [done|].
  destruct (execute_implements pool_fault query_fault device_id (fun t => (tt, ch t)) Hk) as [D1 D2 D3].
  split; intros db; [|intros a Hh Hq|]; unfold mbind', mret, select, delete_from.
  - specialize (S1 db). destruct (execute _ _ db) as [ [a|e| |] db1]; try done. injection S1 as <- S1. specialize (D1 db1).
    destruct (execute _ _ db1) as [ [ []|e| |] db2]; try done; [|congruence]. injection D1 as <-. unfold total. by rewrite S1.
  - destruct (S2 db a Hh Hq) as [db1 E]. specialize (S1 db). rewrite E in S1 |- *. injection S1 as _ S1.
    destruct (D2 db1 tt) as [db2 ->]; [by eapply healthy_same; [|done]; rewrite <- S1|done|by eexists].
  - specialize (S3 db). destruct (execute _ _ db) as [ [a|e| |] db1]; try done. specialize (D3 db1).
    destruct (execute _ _ db1) as [ [ []|e| |] db2]; try done; cbn [snd] in *; congruence.
Qed.
End Store.

(** ** Sequences of calls *)

(** Every row that is kept encoded was encoded by this code. *)
Record decodable (d : DeviceData) : Prop := {
  dec_sync_keys : forall id data, dd_sync_keys d !! id = Some data -> exists k, data = sync_key_encode k;
  dec_versions : forall n data, dd_versions d !! n = Some data -> exists s, data = hash_state_encode s;
  dec_registry : forall u r, dd_registry d !! u = Some r -> exists l, rr_devices_json r.1 = devices_to_json l
}.

Lemma decodable_reply c d : decodable d -> is_Some (spec c d).1.
Proof.
  intros [H1 H2 H3]. destruct c; try by eexists; cbn [spec fst].
  - destruct (dd_sync_keys d !! key_id) as [data|] eqn:E; cbn; rewrite ?E; [|by eexists]. destruct (H1 _ _ E) as [k ->]. rewrite sync_key_roundtrip. by eexists.
  - destruct (dd_versions d !! name) as [data|] eqn:E; cbn; rewrite ?E; [|by eexists]. destruct (H2 _ _ E) as [k ->]. rewrite hash_state_roundtrip. by eexists.
  - destruct (dd_registry d !! user) as [r|] eqn:E; cbn; rewrite ?E; [|by eexists]. destruct (H3 _ _ E) as [l El]. unfold registry_record.
    rewrite El, devices_json_roundtrip. by eexists.
Qed.

Lemma spec_decodable c d : decodable d -> decodable (spec c d).2.
Proof.
  intros [H1 H2 H3]. destruct c; try (split; assumption); split; try assumption; cbn.
  - intros id data. rewrite lookup_insert_Some. intros [ [_ <-]|[_ E] ]; [by eexists|by eapply H1].
  - intros n data. rewrite lookup_insert_Some. intros [ [_ <-]|[_ E] ]; [by eexists|by eapply H2].
  - intros u r. rewrite lookup_insert_Some. intros [ [_ <-]|[_ E] ]; [by eexists|by eapply H3].
Qed.

End Spec.

(** ** Sequences of calls *)

(** Each call comes with the choice that the data base makes during it. *)
Section Calls.
Context `{HBC : !Bincode, HJ : !DeviceJson}.

Fixpoint run_calls (run : TieBreak -> Call -> sql Reply) (cs : list (TieBreak * Call)) : sql (list Reply) :=
  match cs with [] => mret [] | (t, c) :: cs => let! r := run t c in let! rs := run_calls run cs in mret (r :: rs) end.
Fixpoint spec_calls (cs : list (TieBreak * Call)) (d : DeviceData) : list Reply * DeviceData :=
  match cs with
  | [] => ([], d)
  | (t, c) :: cs => let '(o, d) := spec (HTB := t) c d in let '(rs, d) := spec_calls cs d in (default RDone o :: rs, d)
  end.

Lemma run_calls_spec pool_fault query_fault device_id run cs db :
  (forall t, implements_backend (HTB := t) pool_fault query_fault device_id (run t)) -> healthy pool_fault query_fault device_id db ->
  decodable (device_data device_id (db_tables db)) ->
  exists rs db', run_calls run cs db = (Ok rs, db') /\ Forall2 reply_equiv rs (spec_calls cs (device_data device_id (db_tables db))).1
    /\ device_data device_id (db_tables db') = (spec_calls cs (device_data device_id (db_tables db))).2.
Proof.
  intros Hrun. revert db. induction cs as [|[t c] cs IH]; intros db Hh Hd; [by exists [], db|]. cbn [run_calls spec_calls].
  destruct (backend_call (HTB := t) pool_fault query_fault device_id (run t) c db (Hrun t)) as (Hc & _ & Hlive).
  destruct (Hlive Hh (decodable_reply _ _ Hd)) as (r & db1 & E & Hh1). rewrite E in Hc. destruct Hc as [Hr Hdata].
  destruct (IH db1 Hh1) as (rs & db2 & E2 & Hrs & Hd2); [rewrite Hdata; by apply spec_decodable|].
  exists (r :: rs), db2. unfold mbind', mret. rewrite E, E2. split; [done|]. rewrite Hdata in Hrs, Hd2.
  destruct (spec c (device_data device_id (db_tables db))) as [o d']. cbn [snd fst] in *. destruct (spec_calls cs d') as [rs' d'']. cbn [fst snd] in *.
  inversion Hr; subst. by split; [constructor|].
Qed.

(** Two replies that say the same but for a tie: of several LIDs of a number with
    the same latest time each may name another. *)
Definition reply_agree (r r' : Reply) : Prop :=
  reply_equiv r r'
  \/ exists e e', r = RMapping (Some e) /\ r' = RMapping (Some e')
       /\ lm_phone_number e = lm_phone_number e' /\ lm_updated_at e = lm_updated_at e'.

Lemma latest_spec e l : e ∈ latest l <-> e ∈ l /\ forall e', e' ∈ l -> lm_updated_at e' <= lm_updated_at e.
Proof.
  unfold latest. rewrite list_elem_of_In, filter_In, <- list_elem_of_In, forallb_forall. split; intros [H1 H2]; (split; [done|]); intros e' He'.
  - apply Z.leb_le, H2. by apply list_elem_of_In.
  - apply Z.leb_le, H2. by apply list_elem_of_In.
Qed.

Lemma latest_nonempty l : l <> [] -> latest l <> [].
Proof.
  intros Hl. assert (exists e, e ∈ l /\ forall e', e' ∈ l -> lm_updated_at e' <= lm_updated_at e) as (e & He).
  { induction l as [|x l IH]; [done|]. destruct l as [|y l].
    - exists x. split; [apply list_elem_of_here|]. intros e' ->%list_elem_of_singleton. lia.
    - destruct IH as (e & He & Hmax); [done|]. destruct (Z.le_ge_cases (lm_updated_at e) (lm_updated_at x)).
      + exists x. split; [apply list_elem_of_here|]. intros e' [->|H']%elem_of_cons; [lia|]. specialize (Hmax e' H'). lia.
      + exists e. split; [by apply list_elem_of_further|]. intros e' [->|H']%elem_of_cons; [lia|auto]. }
  apply latest_spec in He. intros E. rewrite E in He. by apply not_elem_of_nil in He.
Qed.

(** What a choice returns: a row of the latest time, if there is a row. *)
Lemma most_recent_spec `{HTB : !TieBreak} l :
  match most_recent l with Some e => e ∈ latest l | None => l = [] end.
Proof.
  unfold most_recent. destruct (latest l !! tie (latest l)) as [e|] eqn:E; [by eapply list_elem_of_lookup_2|].
  destruct (latest l) as [|e es] eqn:El; cbn [head].
  - destruct l; [done|]. by destruct (latest_nonempty (l :: l0)).
  - apply list_elem_of_here.
Qed.

Lemma most_recent_agree (t1 t2 : TieBreak) phone (l : list LidPnMappingEntry) :
  Forall (fun e => lm_phone_number e = phone) l -> reply_agree (RMapping (most_recent (HTB := t1) l)) (RMapping (most_recent (HTB := t2) l)).
Proof.
  intros Hp. pose proof (most_recent_spec (HTB := t1) l) as H1. pose proof (most_recent_spec (HTB := t2) l) as H2.
  destruct (most_recent (HTB := t1) l) as [e1|], (most_recent (HTB := t2) l) as [e2|].
  - apply latest_spec in H1 as [H1 M1], H2 as [H2 M2]. right. exists e1, e2. rewrite Forall_forall in Hp.
    split_and!; [done|done|by rewrite (Hp e1 H1), (Hp e2 H2)|]. specialize (M1 e2 H2). specialize (M2 e1 H1). lia.
  - subst l. by apply latest_spec in H1 as [H1%not_elem_of_nil _].
  - subst l. by apply latest_spec in H2 as [H2%not_elem_of_nil _].
  - by left.
Qed.

(** The choices change nothing but the reply for a number. *)
Lemma spec_ties (t1 t2 : TieBreak) c d :
  (spec (HTB := t1) c d).2 = (spec (HTB := t2) c d).2
  /\ reply_agree (default RDone (spec (HTB := t1) c d).1) (default RDone (spec (HTB := t2) c d).1).
Proof.
  destruct c; try (split; [reflexivity|left; reflexivity]). split; [done|]. apply most_recent_agree with phone.
  apply Forall_forall. intros e He. by apply list_elem_of_filter in He as [He _].
Qed.

Lemma spec_calls_ties cs d :
  (spec_calls (map (fun x => (x.1.1, x.2)) cs) d).2 = (spec_calls (map (fun x => (x.1.2, x.2)) cs) d).2
  /\ Forall2 reply_agree (spec_calls (map (fun x => (x.1.1, x.2)) cs) d).1 (spec_calls (map (fun x => (x.1.2, x.2)) cs) d).1.
Proof.
  revert d. induction cs as [|[[t1 t2] c] cs IH]; intros d; [by split; [|constructor]|]. cbn [map spec_calls fst snd].
  destruct (spec_ties t1 t2 c d) as [Hd Hr]. destruct (spec (HTB := t1) c d) as [o1 d1], (spec (HTB := t2) c d) as [o2 d2].
  cbn [fst snd] in Hd, Hr. subst d2. destruct (IH d1) as [Hd2 Hr2].
  destruct (spec_calls _ d1) as [rs1 e1], (spec_calls (map (fun x => (x.1.2, x.2)) cs) d1) as [rs2 e2]. cbn [fst snd] in *.
  by split; [|constructor].
Qed.

Lemma reply_agree_equiv r1 r1' r2 r2' : reply_equiv r1 r1' -> reply_equiv r2 r2' -> reply_agree r1' r2' -> reply_agree r1 r2.
Proof.
  intros H1 H2 [H|(e & e' & -> & -> & Hp & Hu)].
  - left. etransitivity; [exact H1|]. etransitivity; [exact H|]. by symmetry.
  - right. exists e, e'. destruct r1, r2; cbn in H1, H2; try discriminate; split_and!; congruence.
Qed.
End Calls.
