(* ===== verification/SqliteStore.v ===== *)
(** * The SQLite store: [storages/sqlite-storage/src/sqlite_store.rs]

    The methods of [SignalStore], [AppSyncStore] and [ProtocolStore] over the
    tables; the table of devices is modelled with the persistence manager.
    The theorems show that the store of a device implements plain maps: a
    method does all of its work or, when it fails, none of it, up to the four
    methods that run several statements without a transaction; it never
    touches the rows of another device; and without failures it succeeds.
    The store implements the interface the processor of the app state is
    proved against. *)

From stdpp Require Import gmap.
From S2P Require Import Prelude RustStd Jid Crypto AppState AppStateSync Persistence LidPn Registry DeviceStore SqlStore Backend.

#[local] Abbreviation StoreError := Persistence.StoreError.

Section Sqlite.
Context `{HBC : !Bincode, HJ : !DeviceJson, HTB : !TieBreak}.
Context (pool_fault query_fault : nat -> option str).
(** the text of a violated foreign key *)
Context (fk_violation : str).

Definition with_read_pool {A} (f : sql A) : sql A := pool_get pool_fault ;; f.
Definition pooled {A} (f : sql A) : sql A := pool_get pool_fault ;; f.
Abbreviation insert_row := (insert_into query_fault None).
Abbreviation select_rows := (select query_fault).
Abbreviation delete_rows_of := (delete_from query_fault).

(** ** Identities and sessions *)

Definition put_identity_for_device (address : str) (key : bytes) (device_id : i32) : sql unit :=
  retrying (lit "Identity") (pooled (insert_row device_id (fun t => set_identities (<[(address, device_id) := key]> (t_identities t)) t))).
Definition delete_identity_for_device (address : str) (device_id : i32) : sql unit :=
  pooled (delete_rows_of (fun t => set_identities (delete (address, device_id) (t_identities t)) t)).
Definition load_identity_for_device (address : str) (device_id : i32) : sql (option bytes) :=
  with_read_pool (select_rows (fun t => t_identities t !! (address, device_id))).

Definition get_session_for_device (address : str) (device_id : i32) : sql (option bytes) :=
  with_read_pool (select_rows (fun t => t_sessions t !! (address, device_id))).
Definition put_session_for_device (address : str) (session : bytes) (device_id : i32) : sql unit :=
  retrying (lit "Session") (pooled (insert_row device_id (fun t => set_sessions (<[(address, device_id) := session]> (t_sessions t)) t))).
Definition delete_session_for_device (address : str) (device_id : i32) : sql unit :=
  pooled (delete_rows_of (fun t => set_sessions (delete (address, device_id) (t_sessions t)) t)).

(** [eq_any]: the rows in the order the data base finds them *)
Definition sqlite_get_sessions_batch (device_id : i32) (addresses : list str) : sql (list (str * bytes)) :=
  match addresses with
  | [] => mret []
  | _ => with_read_pool (select_rows (fun t => filter (fun r => r.1 ∈ addresses) (map_to_list (rows device_id (t_sessions t)))))
  end.
Definition sqlite_put_sessions_batch (device_id : i32) (entries : list (str * bytes)) : sql unit :=
  match entries with
  | [] => mret tt
  | _ => retrying (lit "Batch session")
           (pooled (transaction query_fault
              (mfor (fun e => insert_row device_id (fun t => set_sessions (<[(e.1, device_id) := e.2]> (t_sessions t)) t)) entries)))
  end.

(** ** Pre-keys; the ids are kept as [i32] *)

Definition sqlite_store_prekey (device_id : i32) (id : u32) (record : bytes) (uploaded : bool) : sql unit :=
  pooled (insert_row device_id (fun t => set_prekeys (<[(cast_i32 id, device_id) := (record, uploaded)]> (t_prekeys t)) t)).
Definition sqlite_load_prekey (device_id : i32) (id : u32) : sql (option bytes) :=
  pooled (select_rows (fun t => fst <$> t_prekeys t !! (cast_i32 id, device_id))).
Definition sqlite_remove_prekey (device_id : i32) (id : u32) : sql unit :=
  pooled (delete_rows_of (fun t => set_prekeys (delete (cast_i32 id, device_id) (t_prekeys t)) t)).

Definition sqlite_store_signed_prekey (device_id : i32) (id : u32) (record : bytes) : sql unit :=
  pooled (insert_row device_id (fun t => set_signed_prekeys (<[(cast_i32 id, device_id) := record]> (t_signed_prekeys t)) t)).
Definition sqlite_load_signed_prekey (device_id : i32) (id : u32) : sql (option bytes) :=
  pooled (select_rows (fun t => t_signed_prekeys t !! (cast_i32 id, device_id))).
Definition sqlite_load_all_signed_prekeys (device_id : i32) : sql (list (u32 * bytes)) :=
  pooled (select_rows (fun t => map (fun r => (cast_u32 r.1, r.2)) (map_to_list (rows device_id (t_signed_prekeys t))))).
Definition sqlite_remove_signed_prekey (device_id : i32) (id : u32) : sql unit :=
  pooled (delete_rows_of (fun t => set_signed_prekeys (delete (cast_i32 id, device_id) (t_signed_prekeys t)) t)).

(** ** Sender keys *)

Definition put_sender_key_for_device (address : str) (record : bytes) (device_id : i32) : sql unit :=
  pooled (insert_row device_id (fun t => set_sender_keys (<[(address, device_id) := record]> (t_sender_keys t)) t)).
Definition get_sender_key_for_device (address : str) (device_id : i32) : sql (option bytes) :=
  pooled (select_rows (fun t => t_sender_keys t !! (address, device_id))).
Definition delete_sender_key_for_device (address : str) (device_id : i32) : sql unit :=
  pooled (delete_rows_of (fun t => set_sender_keys (delete (address, device_id) (t_sender_keys t)) t)).

(** ** App state *)

Definition get_app_state_sync_key_for_device (key_id : bytes) (device_id : i32) : sql (option AppStateSyncKey) :=
  let! res := pooled (select_rows (fun t => t_app_state_keys t !! (key_id, device_id))) in
  mlift (match res with Some data => let? key := decoded (sync_key_decode data) in Ok (Some key) | None => Ok None end).
Definition set_app_state_sync_key_for_device (key_id : bytes) (key : AppStateSyncKey) (device_id : i32) : sql unit :=
  pooled (insert_row device_id (fun t => set_app_state_keys (<[(key_id, device_id) := sync_key_encode key]> (t_app_state_keys t)) t)).
Definition get_app_state_version_for_device (name : str) (device_id : i32) : sql HashState :=
  let! res := pooled (select_rows (fun t => t_app_state_versions t !! (name, device_id))) in
  mlift (match res with Some data => decoded (hash_state_decode data) | None => Ok hash_state_default end).
Definition set_app_state_version_for_device (name : str) (state : HashState) (device_id : i32) : sql unit :=
  pooled (insert_row device_id (fun t => set_app_state_versions (<[(name, device_id) := hash_state_encode state]> (t_app_state_versions t)) t)).

(** One statement for each; no transaction around them. *)
Definition put_app_state_mutation_macs_for_device (name : str) (version : u64) (mutations : list AppStateMutationMAC) (device_id : i32) : sql unit :=
  match mutations with
  | [] => mret tt
  | _ => pooled (mfor (fun m => insert_row device_id (fun t =>
           set_mutation_macs (<[(name, mm_index_mac m, device_id) := (cast_i64 version, mm_value_mac m)]> (t_mutation_macs t)) t)) mutations)
  end.
Definition delete_app_state_mutation_macs_for_device (name : str) (index_macs : list bytes) (device_id : i32) : sql unit :=
  match index_macs with
  | [] => mret tt
  | _ => pooled (mfor (fun idx => delete_rows_of (fun t => set_mutation_macs (delete (name, idx, device_id) (t_mutation_macs t)) t)) index_macs)
  end.
Definition get_app_state_mutation_mac_for_device (name : str) (index_mac : bytes) (device_id : i32) : sql (option bytes) :=
  pooled (select_rows (fun t => snd <$> t_mutation_macs t !! (name, index_mac, device_id))).

(** ** Protocol: recipients, LIDs, base keys, device lists, marks *)

Definition sqlite_get_skdm_recipients (device_id : i32) (group_jid : str) : sql (list str) :=
  pooled (select_rows (fun t => map (fun r => r.1.2) (filter (fun r => r.1.1 = group_jid) (map_to_list (rows device_id (t_skdm_recipients t)))))).
(** [do_nothing] where there is a row *)
Definition sqlite_add_skdm_recipients (device_id : i32) (now : i32) (group_jid : str) (device_jids : list str) : sql unit :=
  match device_jids with
  | [] => mret tt
  | _ => pooled (mfor (fun device_jid => insert_row device_id (fun t =>
           match t_skdm_recipients t !! (group_jid, device_jid, device_id) with
           | Some _ => t
           | None => set_skdm_recipients (<[(group_jid, device_jid, device_id) := now]> (t_skdm_recipients t)) t
           end)) device_jids)
  end.
Definition sqlite_clear_skdm_recipients (device_id : i32) (group_jid : str) : sql unit :=
  pooled (delete_rows_of (fun t => set_skdm_recipients (delete_rows (fun k => k.1 =s group_jid) device_id (t_skdm_recipients t)) t)).

Definition sqlite_get_lid_mapping (device_id : i32) (lid : str) : sql (option LidPnMappingEntry) :=
  pooled (select_rows (fun t => t_lid_pn_mapping t !! (lid, device_id))).
Definition sqlite_get_pn_mapping (device_id : i32) (phone : str) : sql (option LidPnMappingEntry) :=
  pooled (select_rows (fun t => most_recent (filter (fun e => lm_phone_number e = phone) (map_to_list (rows device_id (t_lid_pn_mapping t))).*2))).
(** A row that exists keeps its time of creation.  This table refers to the
    table of devices. *)
Definition put_mapping_row (device_id : i32) (entry : LidPnMappingEntry) (t : Tables) : Tables :=
  set_lid_pn_mapping (<[(lm_lid entry, device_id) :=
    match t_lid_pn_mapping t !! (lm_lid entry, device_id) with
    | Some r => mkMapping (lm_lid r) (lm_phone_number entry) (lm_created_at r) (lm_updated_at entry) (lm_learning_source entry)
    | None => entry
    end]> (t_lid_pn_mapping t)) t.
Definition sqlite_put_lid_mapping (device_id : i32) (entry : LidPnMappingEntry) : sql unit :=
  pooled (insert_into query_fault (Some fk_violation) device_id (put_mapping_row device_id entry)).
Definition sqlite_get_all_lid_mappings (device_id : i32) : sql (list LidPnMappingEntry) :=
  pooled (select_rows (fun t => (map_to_list (rows device_id (t_lid_pn_mapping t))).*2)).

(** A base key that exists keeps its time of creation. *)
Definition put_base_key_row (device_id now : i32) (address message_id : str) (base_key : bytes) (t : Tables) : Tables :=
  set_base_keys (<[(address, message_id, device_id) :=
    (base_key, match t_base_keys t !! (address, message_id, device_id) with Some r => r.2 | None => now end)]> (t_base_keys t)) t.
Definition sqlite_save_base_key (device_id now : i32) (address message_id : str) (base_key : bytes) : sql unit :=
  pooled (insert_row device_id (put_base_key_row device_id now address message_id base_key)).
Definition sqlite_has_same_base_key (device_id : i32) (address message_id : str) (current_base_key : bytes) : sql bool :=
  let! stored_key := pooled (select_rows (fun t => fst <$> t_base_keys t !! (address, message_id, device_id))) in
  mret (match stored_key with Some k => k =s current_base_key | None => false end).
Definition sqlite_delete_base_key (device_id : i32) (address message_id : str) : sql unit :=
  pooled (delete_rows_of (fun t => set_base_keys (delete (address, message_id, device_id) (t_base_keys t)) t)).

Definition sqlite_update_device_list (device_id now : i32) (record : DeviceListRecord) : sql unit :=
  let devices_json := devices_to_json (dl_devices record) in
  pooled (insert_row device_id (fun t => set_device_registry
    (<[(dl_user record, device_id) := (mkRegistryRow devices_json (cast_i32 (dl_timestamp record)) (dl_phash record), now)]> (t_device_registry t)) t)).
Definition sqlite_get_devices (device_id : i32) (user : str) : sql (option DeviceListRecord) :=
  let! row := pooled (select_rows (fun t => fst <$> t_device_registry t !! (user, device_id))) in
  mlift (match row with
         | Some r => let? devices := decoded (devices_from_json (rr_devices_json r)) in
                     Ok (Some (mkDeviceList user devices (rr_timestamp r) (rr_phash r)))
         | None => Ok None
         end).

Definition sqlite_mark_forget_sender_key (device_id now : i32) (group_jid participant : str) : sql unit :=
  pooled (insert_row device_id (fun t => set_sender_key_status (<[(group_jid, participant, device_id) := now]> (t_sender_key_status t)) t)).
(** Two statements. *)
Definition marks_of (device_id : i32) (group_jid : str) (t : Tables) : list str :=
  map (fun r => r.1.2) (filter (fun r => r.1.1 = group_jid) (map_to_list (rows device_id (t_sender_key_status t)))).
Definition drop_marks (device_id : i32) (group_jid : str) (t : Tables) : Tables :=
  set_sender_key_status (delete_rows (fun k => k.1 =s group_jid) device_id (t_sender_key_status t)) t.
Definition sqlite_consume_forget_marks (device_id : i32) (group_jid : str) : sql (list str) :=
  pooled (let! participants := select_rows (marks_of device_id group_jid) in
          delete_rows_of (drop_marks device_id group_jid) ;; mret participants).

(** ** The trait *)

(** The batches of identities are the ones the trait provides. *)
Fixpoint default_load_identities (device_id : i32) (addresses : list str) : sql (list (str * bytes)) :=
  match addresses with
  | [] => mret []
  | addr :: rest =>
      let! data := load_identity_for_device addr device_id in
      let! results := default_load_identities device_id rest in
      mret (match data with Some data => (addr, data) :: results | None => results end)
  end.
Definition default_put_identities (device_id : i32) (entries : list (str * bytes)) : sql unit :=
  mfor (fun e => put_identity_for_device e.1 e.2 device_id) entries.

Definition sqlite_run (device_id : i32) (c : Call) : sql Reply :=
  match c with
  | PutIdentity a k => reply (fun _ => RDone) (put_identity_for_device a k device_id)
  | LoadIdentity a => reply RBytes (load_identity_for_device a device_id)
  | DeleteIdentity a => reply (fun _ => RDone) (delete_identity_for_device a device_id)
  | GetSession a => reply RBytes (get_session_for_device a device_id)
  | PutSession a s => reply (fun _ => RDone) (put_session_for_device a s device_id)
  | DeleteSession a => reply (fun _ => RDone) (delete_session_for_device a device_id)
  | GetSessionsBatch l => reply RPairs (sqlite_get_sessions_batch device_id l)
  | PutSessionsBatch l => reply (fun _ => RDone) (sqlite_put_sessions_batch device_id l)
  | LoadIdentitiesBatch l => reply RPairs (default_load_identities device_id l)
  | PutIdentitiesBatch l => reply (fun _ => RDone) (default_put_identities device_id l)
  | StorePreKey id r u => reply (fun _ => RDone) (sqlite_store_prekey device_id id r u)
  | LoadPreKey id => reply RBytes (sqlite_load_prekey device_id id)
  | RemovePreKey id => reply (fun _ => RDone) (sqlite_remove_prekey device_id id)
  | StoreSignedPreKey id r => reply (fun _ => RDone) (sqlite_store_signed_prekey device_id id r)
  | LoadSignedPreKey id => reply RBytes (sqlite_load_signed_prekey device_id id)
  | LoadAllSignedPreKeys => reply RRecords (sqlite_load_all_signed_prekeys device_id)
  | RemoveSignedPreKey id => reply (fun _ => RDone) (sqlite_remove_signed_prekey device_id id)
  | PutSenderKey a r => reply (fun _ => RDone) (put_sender_key_for_device a r device_id)
  | GetSenderKey a => reply RBytes (get_sender_key_for_device a device_id)
  | DeleteSenderKey a => reply (fun _ => RDone) (delete_sender_key_for_device a device_id)
  | GetSyncKey id => reply RSyncKey (get_app_state_sync_key_for_device id device_id)
  | SetSyncKey id k => reply (fun _ => RDone) (set_app_state_sync_key_for_device id k device_id)
  | GetVersion n => reply RState (get_app_state_version_for_device n device_id)
  | SetVersion n s => reply (fun _ => RDone) (set_app_state_version_for_device n s device_id)
  | PutMutationMacs n v l => reply (fun _ => RDone) (put_app_state_mutation_macs_for_device n v l device_id)
  | GetMutationMac n k => reply RBytes (get_app_state_mutation_mac_for_device n k device_id)
  | DeleteMutationMacs n l => reply (fun _ => RDone) (delete_app_state_mutation_macs_for_device n l device_id)
  | GetSkdmRecipients g => reply RStrings (sqlite_get_skdm_recipients device_id g)
  | AddSkdmRecipients now g l => reply (fun _ => RDone) (sqlite_add_skdm_recipients device_id now g l)
  | ClearSkdmRecipients g => reply (fun _ => RDone) (sqlite_clear_skdm_recipients device_id g)
  | GetLidMapping lid => reply RMapping (sqlite_get_lid_mapping device_id lid)
  | GetPnMapping phone => reply RMapping (sqlite_get_pn_mapping device_id phone)
  | PutLidMapping e => reply (fun _ => RDone) (sqlite_put_lid_mapping device_id e)
  | GetAllLidMappings => reply RMappings (sqlite_get_all_lid_mappings device_id)
  | SaveBaseKey now a id k => reply (fun _ => RDone) (sqlite_save_base_key device_id now a id k)
  | HasSameBaseKey a id k => reply RBool (sqlite_has_same_base_key device_id a id k)
  | DeleteBaseKey a id => reply (fun _ => RDone) (sqlite_delete_base_key device_id a id)
  | UpdateDeviceList now r => reply (fun _ => RDone) (sqlite_update_device_list device_id now r)
  | GetDevices u => reply RDevices (sqlite_get_devices device_id u)
  | MarkForgetSenderKey now g p => reply (fun _ => RDone) (sqlite_mark_forget_sender_key device_id now g p)
  | ConsumeForgetMarks g => reply RStrings (sqlite_consume_forget_marks device_id g)
  end.
End Sqlite.

(** ** Theory: the store implements the specification *)

Section Refinement.
Context `{HBC : !Bincode, HJ : !DeviceJson, HTB : !TieBreak} (pool_fault query_fault : nat -> option str) (fk_violation : str) (device_id : i32).
Abbreviation imp := (implements pool_fault query_fault device_id).

Lemma pooled_insert fk (ch : Tables -> Tables) : keeps_devices (fun t => (tt, ch t)) ->
  imp (pool_get pool_fault ;; insert_into query_fault fk device_id ch) (total (fun t => (tt, ch t))) eq.
Proof. intros Hk. apply pooled_implements; [done|]. by apply insert_implements. Qed.

Lemma pooled_delete (ch : Tables -> Tables) : keeps_devices (fun t => (tt, ch t)) ->
  imp (pool_get pool_fault ;; delete_from query_fault ch) (total (fun t => (tt, ch t))) eq.
Proof. intros Hk. apply pooled_implements; [done|]. by apply execute_implements. Qed.

Lemma pooled_select {A} (q : Tables -> A) : imp (pool_get pool_fault ;; select query_fault q) (total (fun t => (q t, t))) eq.
Proof. apply pooled_implements; [done|]. by apply execute_implements. Qed.

Lemma pooled_loop {X} fk (ch : X -> Tables -> Tables) l : (forall x, keeps_devices (fun t => (tt, ch x t))) ->
  imp (pool_get pool_fault ;; mfor (fun x => insert_into query_fault fk device_id (ch x)) l)
    (total (fun t => (tt, fold_left (fun t x => ch x t) l t))) (prefix_done ch l).
Proof.
  intros Hk. apply pooled_implements; [intros t; exists []; split; [apply prefix_nil|done]|]. apply mfor_implements. intros x. by apply insert_implements.
Qed.

Lemma pooled_deletions {X} (ch : X -> Tables -> Tables) l : (forall x, keeps_devices (fun t => (tt, ch x t))) ->
  imp (pool_get pool_fault ;; mfor (fun x => delete_from query_fault (ch x)) l)
    (total (fun t => (tt, fold_left (fun t x => ch x t) l t))) (prefix_done ch l).
Proof.
  intros Hk. apply pooled_implements; [intros t; exists []; split; [apply prefix_nil|done]|]. apply mfor_implements. intros x. by apply execute_implements.
Qed.
End Refinement.

(** The data of a device after a change of the tables *)
Ltac data_solve := intros; unfold device_data; cbn; autorewrite with rows; reflexivity.
Ltac answer_write lem := eapply write_answers; [lem|done|data_solve|data_solve].
Ltac answer_read := eapply read_answers; [apply pooled_select| |done]; intros; eexists; split; [reflexivity|]; cbn; autorewrite with rows; done.
Ltac answer_simple :=
  first [solve [answer_read] | solve [answer_write ltac:(apply pooled_insert; done)] | solve [answer_write ltac:(apply pooled_delete; done)]
        | solve [answer_write ltac:(apply retrying_implements, pooled_insert; done)] ].
Ltac answer_decode := eapply decode_answers; [apply pooled_select| | |done].

Section Sqlite_refines.
Context `{HBC : !Bincode, HJ : !DeviceJson, HTB : !TieBreak} (pool_fault query_fault : nat -> option str) (fk_violation : str) (device_id : i32).

Abbreviation answered := (answers pool_fault query_fault device_id).
Abbreviation run := (sqlite_run pool_fault query_fault fk_violation device_id).

Lemma get_sessions_batch_answers l : answered (GetSessionsBatch l) (reply RPairs
  (match l with
   | [] => mret []
   | _ => pool_get pool_fault ;; select query_fault (fun t => filter (fun r => r.1 ∈ l) (map_to_list (rows device_id (t_sessions t))))
   end)).
Proof.
  destruct l as [|a l]; [|answer_read].
  apply (read_answers _ _ _ _ (fun _ => [])); [apply mret_implements| |done]. intros t. eexists. split; [reflexivity|]. cbn. intros x. rewrite list_elem_of_filter.
  split; [by intros ?%not_elem_of_nil|by intros [?%not_elem_of_nil _] ].
Qed.

Lemma put_all_data (l : list (str * bytes)) t :
  device_data device_id (fold_left (fun t e => set_sessions (<[(e.1, device_id) := e.2]> (t_sessions t)) t) l t)
    = with_sessions (put_all l (rows device_id (t_sessions t))) (device_data device_id t)
  /\ forall d, d <> device_id -> device_data d (fold_left (fun t e => set_sessions (<[(e.1, device_id) := e.2]> (t_sessions t)) t) l t) = device_data d t.
Proof.
  revert t. induction l as [|e l IH]; intros t; [done|]. cbn [fold_left]. destruct (IH (set_sessions (<[(e.1, device_id) := e.2]> (t_sessions t)) t)) as [H1 H2].
  split; [rewrite H1; data_solve|]. intros d Hd. rewrite H2 by done. revert d Hd. data_solve.
Qed.

Lemma put_sessions_batch_answers fk what l : answered (PutSessionsBatch l) (reply (fun _ => RDone)
  (match l with
   | [] => mret tt
   | _ => retrying what (pool_get pool_fault ;; transaction query_fault
            (mfor (fun e => insert_into query_fault fk device_id (fun t => set_sessions (<[(e.1, device_id) := e.2]> (t_sessions t)) t)) l))
   end)).
Proof.
  destruct l as [|e l].
  - apply (write_answers _ _ _ _ id); [apply mret_implements|done|done|done].
  - eapply write_answers; [|done|intros t; apply put_all_data|intros t; apply put_all_data].
    apply retrying_implements. apply pooled_implements; [done|]. eapply transaction_implements. apply mfor_implements. intros x. by apply insert_implements.
Qed.

Lemma load_identities_implements l : implements pool_fault query_fault device_id (default_load_identities pool_fault query_fault device_id l)
  (total (fun t => (omap (fun a => pair a <$> t_identities t !! (a, device_id)) l, t))) eq.
Proof.
  induction l as [|a l [I1 I2 I3] ]; [apply mret_implements|]. cbn [default_load_identities].
  destruct (pooled_select pool_fault query_fault device_id (fun t => t_identities t !! (a, device_id))) as [S1 S2 S3].
  split; intros db; [|intros r Hh Hq|]; unfold mbind', mret, load_identity_for_device, with_read_pool.
  - specialize (S1 db). destruct ((pool_get pool_fault;; select query_fault _) db) as [ [o|e| |] db1]; try done. injection S1 as S1 S1'.
    specialize (I1 db1). destruct (default_load_identities _ _ _ l db1) as [ [rs|e| |] db2]; try done; [|congruence]. injection I1 as <- <-.
    unfold total. rewrite <- S1', <- S1. cbn. by destruct (t_identities (db_tables db) !! (a, device_id)).
  - destruct (S2 db _ Hh eq_refl) as [db1 E]. specialize (S1 db). rewrite E in S1 |- *. injection S1 as S1.
    destruct (I2 db1 _ (healthy_same _ _ _ _ _ (f_equal t_device (eq_sym S1)) Hh) eq_refl) as [db2 ->]. exists db2. do 2 f_equal. rewrite <- S1.
    injection Hq as <-. cbn. by destruct (t_identities (db_tables db) !! (a, device_id)).
  - specialize (S3 db). destruct ((pool_get pool_fault;; select query_fault _) db) as [ [o|e| |] db1]; try done. specialize (I3 db1). cbn [snd] in S3.
    destruct (default_load_identities _ _ _ l db1) as [ [rs|e| |] db2]; cbn [snd] in *; congruence.
Qed.

Lemma load_identities_batch_answers l : answered (LoadIdentitiesBatch l) (run (LoadIdentitiesBatch l)).
Proof.
  cbn [sqlite_run]. eapply read_answers; [apply load_identities_implements| |done]. intros t. eexists. split; [reflexivity|]. cbn. intros x.
  rewrite !list_elem_of_omap. by setoid_rewrite lookup_rows.
Qed.

Lemma put_identities_batch_answers l : answered (PutIdentitiesBatch l) (run (PutIdentitiesBatch l)).
Proof.
  cbn [sqlite_run]. eapply (loop_answers _ _ _ PutIdentitiesBatch
    (fun e t => set_identities (<[(e.1, device_id) := e.2]> (t_identities t)) t)); [|done|done| |done|data_solve|data_solve].
  - apply mfor_implements. intros x. by apply retrying_implements, pooled_insert.
  - by intros [].
Qed.

Lemma sync_key_answers id : answered (GetSyncKey id) (reply RSyncKey
  (let! res := pool_get pool_fault ;; select query_fault (fun t => t_app_state_keys t !! (id, device_id)) in
   mlift (match res with Some data => let? key := decoded (sync_key_decode data) in Ok (Some key) | None => Ok None end))).
Proof.
  answer_decode; [intros [a|]; [cbn|done]; by destruct (sync_key_decode a)|].
  intros t. cbn. rewrite lookup_rows. destruct (t_app_state_keys t !! (id, device_id)) as [data|]; [|done]. cbn. by destruct (sync_key_decode data).
Qed.

Lemma version_answers n : answered (GetVersion n) (reply RState
  (let! res := pool_get pool_fault ;; select query_fault (fun t => t_app_state_versions t !! (n, device_id)) in
   mlift (match res with Some data => decoded (hash_state_decode data) | None => Ok hash_state_default end))).
Proof.
  answer_decode; [intros [a|]; [cbn|done]; by destruct (hash_state_decode a)|].
  intros t. cbn. rewrite lookup_rows. destruct (t_app_state_versions t !! (n, device_id)) as [data|]; [|done]. cbn. by destruct (hash_state_decode data).
Qed.

Lemma put_macs_answers fk n v l : answered (PutMutationMacs n v l) (reply (fun _ => RDone)
  (match l with
   | [] => mret tt
   | _ => pool_get pool_fault ;; mfor (fun m => insert_into query_fault fk device_id (fun t =>
            set_mutation_macs (<[(n, mm_index_mac m, device_id) := (cast_i64 v, mm_value_mac m)]> (t_mutation_macs t)) t)) l
   end)).
Proof.
  destruct l as [|x l].
  - apply (write_answers _ _ _ _ id); [apply mret_implements|done|done|done].
  - eapply (loop_answers _ _ _ (PutMutationMacs n v)); [apply pooled_loop; done|done|done|by intros []|done|data_solve|data_solve].
Qed.

Lemma delete_macs_answers n l : answered (DeleteMutationMacs n l) (reply (fun _ => RDone)
  (match l with
   | [] => mret tt
   | _ => pool_get pool_fault ;; mfor (fun idx => delete_from query_fault (fun t =>
            set_mutation_macs (delete (n, idx, device_id) (t_mutation_macs t)) t)) l
   end)).
Proof.
  destruct l as [|x l].
  - apply (write_answers _ _ _ _ id); [apply mret_implements|done|done|done].
  - eapply (loop_answers _ _ _ (DeleteMutationMacs n) (fun idx t => set_mutation_macs (delete (n, idx, device_id) (t_mutation_macs t)) t));
      [by apply pooled_deletions|done|done|by intros []|done|data_solve|data_solve].
Qed.

Lemma add_recipients_answers fk now g l : answered (AddSkdmRecipients now g l) (reply (fun _ => RDone)
  (match l with
   | [] => mret tt
   | _ => pool_get pool_fault ;; mfor (fun j => insert_into query_fault fk device_id (fun t =>
            match t_skdm_recipients t !! (g, j, device_id) with
            | Some _ => t
            | None => set_skdm_recipients (<[(g, j, device_id) := now]> (t_skdm_recipients t)) t
            end)) l
   end)).
Proof.
  destruct l as [|x l].
  - apply (write_answers _ _ _ _ id); [apply mret_implements|done|done|done].
  - eapply (loop_answers _ _ _ (AddSkdmRecipients now g)); [apply pooled_loop; intros j t; by destruct (_ !! _)|done|done|by intros []|done| |].
    + intros j t. cbn beta. unfold spec, add_recipient_rows. cbn [fold_left dd_recipients device_data fst snd]. rewrite lookup_rows.
      destruct (t_skdm_recipients t !! (g, j, device_id)); data_solve.
    + intros j t d Hd. cbn beta. destruct (t_skdm_recipients t !! (g, j, device_id)); [done|]. revert d Hd. data_solve.
Qed.

Lemma put_lid_answers fk e : answered (PutLidMapping e) (reply (fun _ => RDone)
  (pool_get pool_fault ;; insert_into query_fault fk device_id (put_mapping_row device_id e))).
Proof.
  eapply write_answers; [apply pooled_insert; done|done| |]; unfold put_mapping_row; [|data_solve].
  intros t. unfold spec, put_mapping. cbn [snd dd_lids device_data]. rewrite lookup_rows. data_solve.
Qed.

Lemma same_base_key_answers a id k : answered (HasSameBaseKey a id k) (reply RBool
  (let! stored_key := pool_get pool_fault ;; select query_fault (fun t => fst <$> t_base_keys t !! (a, id, device_id)) in
   mret (match stored_key with Some x => x =s k | None => false end))).
Proof.
  apply (decode_answers _ _ _ (HasSameBaseKey a id k) (fun t => fst <$> t_base_keys t !! (a, id, device_id))
    (fun o => Ok (match o with Some x => x =s k | None => false end)) RBool); [apply pooled_select|done| |done].
  intros t. cbn. rewrite lookup_rows. by destruct (t_base_keys t !! (a, id, device_id)).
Qed.

Lemma get_devices_answers u : answered (GetDevices u) (reply RDevices
  (let! row := pool_get pool_fault ;; select query_fault (fun t => fst <$> t_device_registry t !! (u, device_id)) in
   mlift (match row with
          | Some r => let? devices := decoded (devices_from_json (rr_devices_json r)) in
                      Ok (Some (mkDeviceList u devices (rr_timestamp r) (rr_phash r)))
          | None => Ok None
          end))).
Proof.
  answer_decode; [intros [a|]; [cbn|done]; by destruct (devices_from_json (rr_devices_json a))|].
  intros t. cbn. rewrite lookup_rows. destruct (t_device_registry t !! (u, device_id)) as [r|]; [|done]. cbn. unfold registry_record.
  by destruct (devices_from_json (rr_devices_json r.1)).
Qed.

Lemma consume_marks_answers g : answered (ConsumeForgetMarks g) (reply RStrings
  (pool_get pool_fault ;; let! participants := select query_fault (marks_of device_id g) in
                          delete_from query_fault (drop_marks device_id g) ;; mret participants)).
Proof.
  eexists _, _. split; [apply reply_implements; apply (pooled_implements _ _ _ _ _ eq); [done|]; by apply take_implements|]. split.
  - intros t. cbn. by constructor.
  - unfold drop_marks. data_solve.
  - unfold drop_marks. data_solve.
  - intros t t' <-. split; [by left|done].
Qed.

Lemma sqlite_implements : implements_backend pool_fault query_fault device_id run.
Proof.
  intros c. destruct c;
    first [exact (get_sessions_batch_answers _) | exact (put_sessions_batch_answers None _ _) | exact (load_identities_batch_answers _)
          | exact (put_identities_batch_answers _) | exact (sync_key_answers _) | exact (version_answers _) | exact (put_macs_answers None _ _ _)
          | exact (delete_macs_answers _ _) | exact (add_recipients_answers None _ _ _) | exact (put_lid_answers (Some fk_violation) _)
          | exact (same_base_key_answers _ _ _) | exact (get_devices_answers _) | exact (consume_marks_answers _) | idtac]; cbn [sqlite_run];
    answer_simple.
Qed.
End Sqlite_refines.

(** ** Theorems *)

Section Theorems.
Context `{HBC : !Bincode, HJ : !DeviceJson, HTB : !TieBreak} (pool_fault query_fault : nat -> option str) (fk_violation : str) (device_id : i32).
Abbreviation run := (sqlite_run pool_fault query_fault fk_violation device_id).

(** C28: The SQLite store of a device implements plain maps.  Whatever fails and
    whenever, a call that returns has the specified reply and has changed the data
    of the device as specified; a call that fails has changed nothing, or, where
    several rows are written without a transaction, written the first of them; the
    data of other devices are never touched.  When nothing fails and the device
    exists, a call returns wherever the specification has a reply.  All this for
    every choice [tie] among rows that a query leaves in no order. *)
Theorem sqlite_refines c db :
  match run c db with
  | (Ok r, db') => option_Forall2 reply_equiv (Some r) (spec c (device_data device_id (db_tables db))).1
                   /\ device_data device_id (db_tables db') = (spec c (device_data device_id (db_tables db))).2
  | (Err _, db') => after_failure c (device_data device_id (db_tables db)) (device_data device_id (db_tables db'))
  | _ => False
  end
  /\ (forall d, d <> device_id -> device_data d (db_tables (run c db).2) = device_data d (db_tables db))
  /\ (healthy pool_fault query_fault device_id db -> is_Some (spec c (device_data device_id (db_tables db))).1 ->
      exists r db', run c db = (Ok r, db') /\ healthy pool_fault query_fault device_id db').
Proof. apply backend_call, sqlite_implements. Qed.

Lemma contains_app p x s : str_contains p s = true -> str_contains p (x ++ s) = true.
Proof. intros H. induction x as [|y x IH]; [done|]. cbn [app str_contains]. rewrite IH. apply orb_true_r. Qed.

Lemma locked_retryable e : str_contains (lit "locked") e = true -> retryable (ST_Database e) = true.
Proof. intros H. unfold retryable. cbn [show_store_error]. by rewrite contains_app. Qed.

(** What an attempt at a write does when the pool works. *)
Lemma one_attempt (ch : Tables -> Tables) db : (forall n, pool_fault n = None) ->
  pooled pool_fault (insert_into query_fault None device_id ch) db =
  match query_fault (S (db_tried db)) with
  | Some e => (Err (ST_Database e), mkDb (db_tables db) (2 + db_tried db) (db_slept db))
  | None => (Ok tt, mkDb (ch (db_tables db)) (2 + db_tried db) (db_slept db))
  end.
Proof. intros Hp. unfold pooled, pool_get, mbind', insert_into, execute. rewrite Hp. cbn. by destruct (query_fault _). Qed.

Lemma attempts_locked what (ch : Tables -> Tables) e : (forall n, pool_fault n = None) -> str_contains (lit "locked") e = true ->
  forall n i k db, (i + n = 6)%nat -> (0 < n)%nat ->
  (forall j, (j <= k)%nat -> query_fault (db_tried db + 2 * j + 1)%nat = if (j <? k)%nat then Some e else None) ->
  attempts n i what (pooled pool_fault (insert_into query_fault None device_id ch)) db =
  if (k <? n)%nat then (Ok tt, mkDb (ch (db_tables db)) (db_tried db + 2 * (k + 1)) (rev (map delay_ms (seq i k)) ++ db_slept db))
  else (Err (ST_Database e), mkDb (db_tables db) (db_tried db + 2 * n) (rev (map delay_ms (seq i (n - 1))) ++ db_slept db)).
Proof.
  intros Hp He n. induction n as [|n IH]; intros i k db Hin Hn Hq; [lia|]. cbn [attempts]. rewrite one_attempt by done.
  pose proof (Hq 0%nat ltac:(lia)) as H0. replace (db_tried db + 2 * 0 + 1)%nat with (S (db_tried db)) in H0 by lia. rewrite H0. clear H0.
  destruct k as [|k]; [change (0 <? 0)%nat with false|change (0 <? S k)%nat with true]; cbv iota.
  { cbn. do 2 f_equal. lia. }
  rewrite locked_retryable by done. cbn [andb]. destruct (Nat.ltb_spec i MAX_RETRIES) as [Hi|Hi].
  - rewrite (IH (S i) k) by (unfold MAX_RETRIES in *; cbn [sleep db_tried]; first [lia|intros j Hj; change (j <? k)%nat with (S j <? S k)%nat; rewrite <- (Hq (S j)) by lia; f_equal; lia]).
    cbn [sleep db_tables db_tried db_slept]. change (S k <? S n)%nat with (k <? n)%nat.
    destruct (k <? n)%nat; apply (f_equal (pair _)), (f_equal2 (mkDb _)); try lia.
    + cbn [seq map rev]. by rewrite <- app_assoc.
    + unfold MAX_RETRIES in Hi. replace (S n - 1)%nat with (S (n - 1)) by lia. cbn [seq map rev]. by rewrite <- app_assoc.
  - unfold MAX_RETRIES in Hi. assert (n = 0)%nat as -> by lia. cbn. do 2 f_equal. lia.
Qed.

(** A session is written although the data base is locked, if the lock does
    not last.  While statements are refused because of a lock, the write is tried
    again after delays of 10, 20, 40, 80 and 160 milliseconds; when the lock is gone
    at one of the six attempts the session is stored; otherwise the error of the
    last attempt is returned and nothing was changed. *)
Theorem put_session_waits address session db k e :
  (forall n, pool_fault n = None) -> str_contains (lit "locked") e = true ->
  (forall j, (j <= k)%nat -> query_fault (db_tried db + 2 * j + 1)%nat = if (j <? k)%nat then Some e else None) ->
  put_session_for_device pool_fault query_fault address session device_id db =
  if (k <=? 5)%nat then
    (Ok tt, mkDb (set_sessions (<[(address, device_id) := session]> (t_sessions (db_tables db))) (db_tables db)) (db_tried db + 2 * (k + 1))
              (rev (map delay_ms (seq 0 k)) ++ db_slept db))
  else (Err (ST_Database e), mkDb (db_tables db) (db_tried db + 12) (rev [10; 20; 40; 80; 160] ++ db_slept db)).
Proof.
  intros Hp He Hq. unfold put_session_for_device, retrying, MAX_RETRIES. rewrite (attempts_locked _ _ e Hp He 6 0 k db) by (lia || done).
  change (k <? 6)%nat with (k <=? 5)%nat. by destruct (k <=? 5)%nat.
Qed.

(** A mark that is made between the two statements of a consumption is lost: it
    is not among the participants and it is gone.  Neither method takes the
    semaphore, and the pool has more than one connection. *)
Theorem forget_mark_lost now g p t : (g, p) ∉ dom (dd_marks (device_data device_id t)) ->
  let t1 := set_sender_key_status (<[(g, p, device_id) := now]> (t_sender_key_status t)) t in
  let t2 := drop_marks device_id g t1 in
  p ∉ marks_of device_id g t /\ p ∈ marks_of device_id g t1 /\ p ∉ marks_of device_id g t2.
Proof.
  intros Hn t1 t2. assert (forall x (u : Tables), x ∈ marks_of device_id g u <-> is_Some (t_sender_key_status u !! (g, x, device_id))) as Hm.
  { intros x u. unfold marks_of. rewrite list_elem_of_In, in_map_iff. split.
    - intros ([ [g' x'] v] & <- & Hin). apply list_elem_of_In, list_elem_of_filter in Hin as [Hg Hin]. cbn in Hg |- *. subst g'.
      apply elem_of_map_to_list in Hin. rewrite lookup_rows in Hin. by exists v.
    - intros [v Hv]. exists ((g, x), v). split; [done|]. apply list_elem_of_In, list_elem_of_filter. split; [done|].
      apply elem_of_map_to_list. by rewrite lookup_rows. }
  rewrite !Hm. split_and!.
  - rewrite elem_of_dom in Hn. cbn in Hn. by rewrite lookup_rows in Hn.
  - cbn. rewrite lookup_insert_eq. by eexists.
  - cbn. unfold delete_rows. intros [v Hv]. apply map_lookup_filter_Some in Hv as [_ Hv]. cbn in Hv. by rewrite bytes_eqb_refl, Z.eqb_refl in Hv.
Qed.
End Theorems.

(** ** The interfaces the store is used through *)

Section Interfaces.
Context `{HBC : !Bincode, HJ : !DeviceJson, HTB : !TieBreak} (pool_fault query_fault : nat -> option str) (device_id : i32).

Definition failed {A} (o : outcome StoreError A) : outcome AppStateSync.StoreError A := map_err (fun e => StoreFailed (show_store_error e)) o.
Definition mfailed {A} (m : sql A) : comp Db AppStateSync.StoreError A := fun db => let '(o, db) := m db in (failed o, db).

(** The collections of the device in the tables *)
Definition sync_state (db : Db) (n : str) : HashState :=
  match t_app_state_versions (db_tables db) !! (n, device_id) with
  | Some data => match hash_state_decode data with inr s => s | inl _ => hash_state_default end
  | None => hash_state_default
  end.
Definition macs_of (t : Tables) (n : str) : gmap bytes bytes := snd <$> default ∅ (map_curry (M1 := gmap str) (M2 := gmap bytes) (rows device_id (t_mutation_macs t)) !! n).
Definition sync_macs (db : Db) (n : str) : gmap bytes bytes := macs_of (db_tables db) n.

Lemma macs_of_lookup t n k : macs_of t n !! k = snd <$> t_mutation_macs t !! (n, k, device_id).
Proof.
  unfold macs_of. rewrite lookup_fmap, <- lookup_rows, <- lookup_map_curry. by destruct (map_curry _ !! n); [|cbn; rewrite lookup_empty].
Qed.

Lemma mfailed_Ok {A} (m : sql A) a db db' : mfailed m db = (Ok a, db') -> m db = (Ok a, db').
Proof. unfold mfailed, failed. destruct (m db) as [ [ | | | ] ?]; cbn; congruence. Qed.

Lemma read_Ok {A} (m : sql A) a db : failed (m db).1 = Ok a -> exists db', m db = (Ok a, db').
Proof. destruct (m db) as [ [b| | | ] db']; cbn; try done. intros [= ->]. by exists db'. Qed.

(** What a computation that returned did to the tables. *)
Lemma implements_Ok {A} (m : sql A) q left a db db' :
  implements pool_fault query_fault device_id m (total q) left -> m db = (Ok a, db') -> q (db_tables db) = (a, db_tables db').
Proof. intros [H _ _] E. specialize (H db). rewrite E in H. unfold total in H. destruct (q (db_tables db)). by injection H as <- <-. Qed.

Lemma sqlite_version_ok n b s : failed (get_app_state_version_for_device pool_fault query_fault n device_id b).1 = Ok s -> s = sync_state b n.
Proof.
  intros [db' E]%read_Ok. unfold get_app_state_version_for_device, mbind', mlift in E.
  pose proof (imp_run _ _ _ _ _ _ (pooled_select pool_fault query_fault device_id (fun t => t_app_state_versions t !! (n, device_id))) b) as H.
  unfold pooled in E. destruct ((pool_get pool_fault;; select query_fault _) b) as [ [o|e| |] db1]; try done.
  injection H as <- _. unfold sync_state. destruct (t_app_state_versions (db_tables b) !! (n, device_id)) as [data|]; [|by injection E].
  destruct (hash_state_decode data); cbn in E; [done|]. by injection E.
Qed.

Lemma sqlite_mac_ok n k b v : failed (get_app_state_mutation_mac_for_device pool_fault query_fault n k device_id b).1 = Ok v -> v = sync_macs b n !! k.
Proof.
  intros [db' E]%read_Ok. unfold sync_macs. rewrite macs_of_lookup.
  by eapply (implements_Ok _ (fun t => (snd <$> t_mutation_macs t !! (n, k, device_id), t)) eq) in E; [injection E as <-|apply pooled_select].
Qed.

Lemma sqlite_set_version_ok n s b b' : mfailed (set_app_state_version_for_device pool_fault query_fault n s device_id) b = (Ok tt, b') ->
  (forall n', sync_state b' n' = if n =s n' then s else sync_state b n') /\ forall n', sync_macs b' n' = sync_macs b n'.
Proof.
  intros E%mfailed_Ok. eapply implements_Ok in E; [|apply pooled_insert; done]. injection E as E. split; intros n'.
  - unfold sync_state. rewrite <- E. cbn. case_streq; [subst n'|].
    + by rewrite lookup_insert_eq, hash_state_roundtrip.
    + by rewrite lookup_insert_ne by congruence.
  - unfold sync_macs. by rewrite <- E.
Qed.

(** The MACs of the collections after a statement, and after several *)
Lemma macs_of_insert name idx row t n : macs_of (set_mutation_macs (<[(name, idx, device_id) := row]> (t_mutation_macs t)) t) n
  = if name =s n then <[idx := row.2]> (macs_of t n) else macs_of t n.
Proof.
  apply map_eq. intros k. rewrite macs_of_lookup. cbn. case_streq; [subst n|].
  - destruct (decide (idx = k)) as [->|Hk]; [by rewrite !lookup_insert_eq|]. rewrite !lookup_insert_ne by congruence. by rewrite macs_of_lookup.
  - rewrite lookup_insert_ne by congruence. by rewrite macs_of_lookup.
Qed.
Lemma macs_of_delete name idx t n : macs_of (set_mutation_macs (delete (name, idx, device_id) (t_mutation_macs t)) t) n
  = if name =s n then delete idx (macs_of t n) else macs_of t n.
Proof.
  apply map_eq. intros k. rewrite macs_of_lookup. cbn. case_streq; [subst n|].
  - destruct (decide (idx = k)) as [->|Hk]; [by rewrite !lookup_delete_eq|]. rewrite !lookup_delete_ne by congruence. by rewrite macs_of_lookup.
  - rewrite lookup_delete_ne by congruence. by rewrite macs_of_lookup.
Qed.

Lemma macs_of_fold {X} (ch : X -> Tables -> Tables) (upd : gmap bytes bytes -> X -> gmap bytes bytes) name l t :
  (forall x t n, macs_of (ch x t) n = if name =s n then upd (macs_of t n) x else macs_of t n) ->
  (forall x t, t_app_state_versions (ch x t) = t_app_state_versions t) ->
  (forall n, macs_of (fold_left (fun t x => ch x t) l t) n = if name =s n then fold_left upd l (macs_of t n) else macs_of t n)
  /\ t_app_state_versions (fold_left (fun t x => ch x t) l t) = t_app_state_versions t.
Proof.
  intros Hm Hv. revert t. induction l as [|x l IH]; intros t; cbn [fold_left]; [split; [intros n; by case_streq|done]|].
  destruct (IH (ch x t)) as [H1 H2]. split; [|by rewrite H2, Hv]. intros n. rewrite H1, Hm. by case_streq.
Qed.

Lemma sqlite_put_macs_ok n v l b b' : mfailed (put_app_state_mutation_macs_for_device pool_fault query_fault n v l device_id) b = (Ok tt, b') ->
  (forall n', sync_state b' n' = sync_state b n') /\ forall n', sync_macs b' n' = if n =s n' then put_macs l (sync_macs b n) else sync_macs b n'.
Proof.
  intros E%mfailed_Ok. destruct l as [|x l]; cbn [put_app_state_mutation_macs_for_device] in E.
  { injection E as <-. split; [done|]. intros n'. by case_streq; [subst|]. }
  eapply implements_Ok in E; [|apply pooled_loop; done]. injection E as E.
  destruct (macs_of_fold _ (fun st m => <[mm_index_mac m := mm_value_mac m]> st) n (x :: l) (db_tables b)
              (fun m t n' => macs_of_insert n (mm_index_mac m) (cast_i64 v, mm_value_mac m) t n') ltac:(done)) as [H1 H2].
  split; intros n'.
  - unfold sync_state. assert (t_app_state_versions (db_tables b') = t_app_state_versions (db_tables b)) as ->; [rewrite <- E; exact H2|done].
  - unfold sync_macs. rewrite <- E. etransitivity; [apply H1|]. by case_streq; [subst|].
Qed.

Lemma sqlite_delete_macs_ok n l b b' : mfailed (delete_app_state_mutation_macs_for_device pool_fault query_fault n l device_id) b = (Ok tt, b') ->
  (forall n', sync_state b' n' = sync_state b n') /\ forall n', sync_macs b' n' = if n =s n' then delete_macs l (sync_macs b n) else sync_macs b n'.
Proof.
  intros E%mfailed_Ok. destruct l as [|x l]; cbn [delete_app_state_mutation_macs_for_device] in E.
  { injection E as <-. split; [done|]. intros n'. by case_streq; [subst|]. }
  eapply implements_Ok in E; [|apply pooled_deletions; done]. injection E as E.
  destruct (macs_of_fold _ (fun st k => delete k st) n (x :: l) (db_tables b) (fun k t n' => macs_of_delete n k t n') ltac:(done)) as [H1 H2].
  split; intros n'.
  - unfold sync_state. assert (t_app_state_versions (db_tables b') = t_app_state_versions (db_tables b)) as ->; [rewrite <- E; exact H2|done].
  - unfold sync_macs. rewrite <- E. etransitivity; [apply H1|]. by case_streq; [subst|].
Qed.

(** The store the processor of the app state is proved against, faults included. *)
Definition sqlite_sync_store : AppSyncStore Db :=
  {| view_state := sync_state; view_macs := sync_macs;
     get_sync_key k b := failed (let? o := (get_app_state_sync_key_for_device pool_fault query_fault k device_id b).1 in Ok (sk_key_data <$> o));
     get_version n b := failed (get_app_state_version_for_device pool_fault query_fault n device_id b).1;
     get_version_ok := sqlite_version_ok;
     get_mutation_mac n k b := failed (get_app_state_mutation_mac_for_device pool_fault query_fault n k device_id b).1;
     get_mutation_mac_ok := sqlite_mac_ok;
     store_set_version n s := mfailed (set_app_state_version_for_device pool_fault query_fault n s device_id);
     set_version_ok := sqlite_set_version_ok;
     put_mutation_macs n v l := mfailed (put_app_state_mutation_macs_for_device pool_fault query_fault n v l device_id);
     put_mutation_macs_ok := sqlite_put_macs_ok;
     delete_mutation_macs n l := mfailed (delete_app_state_mutation_macs_for_device pool_fault query_fault n l device_id);
     delete_mutation_macs_ok := sqlite_delete_macs_ok |}.

(** Without failures the tables of sessions, identities and sender keys are the
    ones the Signal stores are proved against. *)
Section Healthy.
Context (Hpool : forall n, pool_fault n = None) (Hquery : forall n, query_fault n = None).

Definition texts {A} (m : sql A) : comp Db str A := fun db => let '(o, db) := m db in (map_err show_store_error o, db).

Lemma select_healthy {A} (q : Tables -> A) db : (texts (pool_get pool_fault ;; select query_fault q) db).1 = Ok (q (db_tables db)).
Proof. unfold texts, mbind', pool_get, select, execute. by rewrite Hpool, Hquery. Qed.

Lemma texts_Ok {A} (m : sql A) q left a db db' : implements pool_fault query_fault device_id m (total q) left ->
  texts m db = (Ok a, db') -> q (db_tables db) = (a, db_tables db').
Proof. intros Hm E. eapply implements_Ok; [done|]. revert E. unfold texts. destruct (m db) as [ [ | | | ] ?]; cbn; congruence. Qed.

Definition sqlite_sessions : Table str Db.
Proof.
  refine {| tbl_get a db := (texts (get_session_for_device pool_fault query_fault a device_id) db).1;
            tbl_put a s := texts (put_session_for_device pool_fault query_fault a s device_id);
            tbl_remove a := texts (delete_session_for_device pool_fault query_fault a device_id) |}.
  - intros k v d d' E. eapply texts_Ok in E; [|apply retrying_implements, pooled_insert; done]. injection E as E.
    setoid_rewrite select_healthy. rewrite <- E. cbn. by rewrite lookup_insert_eq.
  - intros k v d d' k' E Hk. eapply texts_Ok in E; [|apply retrying_implements, pooled_insert; done]. injection E as E.
    setoid_rewrite select_healthy. rewrite <- E. cbn. by rewrite lookup_insert_ne by congruence.
  - intros k d d' E. eapply texts_Ok in E; [|apply pooled_delete; done]. injection E as E.
    setoid_rewrite select_healthy. rewrite <- E. cbn. by rewrite lookup_delete_eq.
Defined.

Definition sqlite_identities : Table str Db.
Proof.
  refine {| tbl_get a db := (texts (load_identity_for_device pool_fault query_fault a device_id) db).1;
            tbl_put a s := texts (put_identity_for_device pool_fault query_fault a s device_id);
            tbl_remove a := texts (delete_identity_for_device pool_fault query_fault a device_id) |}.
  - intros k v d d' E. eapply texts_Ok in E; [|apply retrying_implements, pooled_insert; done]. injection E as E.
    setoid_rewrite select_healthy. rewrite <- E. cbn. by rewrite lookup_insert_eq.
  - intros k v d d' k' E Hk. eapply texts_Ok in E; [|apply retrying_implements, pooled_insert; done]. injection E as E.
    setoid_rewrite select_healthy. rewrite <- E. cbn. by rewrite lookup_insert_ne by congruence.
  - intros k d d' E. eapply texts_Ok in E; [|apply pooled_delete; done]. injection E as E.
    setoid_rewrite select_healthy. rewrite <- E. cbn. by rewrite lookup_delete_eq.
Defined.
End Healthy.
End Interfaces.

(** ** Witnesses *)

Definition toy_hash_state (x : u64 * bytes * gmap str bytes) : HashState := mkHashState x.1.1 x.1.2 x.2.
Definition toy_sync_key (x : bytes * bytes * i64) : AppStateSyncKey := mkSyncKey x.1.1 x.1.2 x.2.
Definition toy_bincode : Bincode.
Proof.
  refine {| sync_key_encode k := [Zpos (encode (sk_key_data k, sk_fingerprint k, sk_timestamp k))];
            sync_key_decode b := match b with
                                 | [Zpos p] => match decode p with Some x => inr (toy_sync_key x) | None => inl [] end
                                 | _ => inl []
                                 end;
            hash_state_encode s := [Zpos (encode (hs_version s, hs_hash s, hs_index_value_map s))];
            hash_state_decode b := match b with
                                   | [Zpos p] => match decode p with Some x => inr (toy_hash_state x) | None => inl [] end
                                   | _ => inl []
                                   end |}.
  - intros [k f t]. by rewrite decode_encode.
  - intros [v h m]. by rewrite decode_encode.
Defined.

Definition empty_tables : Tables := mkTables ∅ ∅ ∅ ∅ ∅ ∅ ∅ ∅ ∅ ∅ ∅ ∅ ∅ ∅.
Definition locked_twice (n : nat) : option str := if (n <? 4)%nat then Some (lit "database is locked") else None.

Lemma put_session_waits_witness :
  let '(o, db) := put_session_for_device (fun _ => None) locked_twice (lit "a") [1; 2] 1 (mkDb empty_tables 0 []) in
  o = Ok tt /\ t_sessions (db_tables db) !! (lit "a", 1) = Some [1; 2] /\ db_slept db = [20; 10].
Proof.
  rewrite (put_session_waits (fun _ => None) locked_twice 1 (lit "a") [1; 2] (mkDb empty_tables 0 []) 2 (lit "database is locked")).
  - vm_compute. split_and!; reflexivity.
  - reflexivity.
  - vm_compute. reflexivity.
  - intros j Hj. destruct j as [|[|[|j] ] ]; [reflexivity..|lia].
Defined.
