(* ===== verification/PostgresStore.v ===== *)
(** * The PostgreSQL store: [storages/postgres-storage/src/postgres_store.rs]

    The same methods over the same tables, with these differences: every table
    refers to the table of devices; a read takes a permit of the semaphore; the
    batches of identities are written in one transaction and read with one
    query; a new device gets its id from the insertion.  The theorems show that
    this store implements the same specification, and that without failures the
    two stores cannot be told apart, but for the LID of a number where several
    have the same latest time. *)

From stdpp Require Import gmap.
From S2P Require Import Prelude RustStd Curve Jid Crypto AppState AppStateSync Noise Device Pairing Persistence LidPn Registry DeviceStore SqlStore Backend SqliteStore.

#[local] Abbreviation StoreError := Persistence.StoreError.

(** ** The table of devices *)

Section Devices.
Context `{HC : !Curve25519, HP : !AdvProto}.

Definition pg_serialize_keypair (k : KeyPair) : bytes := private_serialize (kp_private k) ++ pk_bytes (kp_public k).
Definition pg_deserialize_keypair (b : bytes) : outcome StoreError KeyPair :=
  if negb (length b =? 64)%nat then Err (ST_Serialization (lit "Invalid KeyPair length: " ++ show_uint (Z.of_nat (length b))))
  else
    let? private_key := map_err (fun e => ST_Serialization (show_curve_error e)) (private_deserialize (slice 0 32 b)) in
    let? public_key := map_err (fun e => ST_Serialization (show_curve_error e)) (from_djb_public_key_bytes (slice 32 64 b)) in
    Ok (mkKeyPair public_key private_key).

Definition pg_save_device_data_for_device io (device_id : i32) (d : Device) : comp DeviceTable StoreError unit :=
  run io (fun t => (tt, <[device_id :=
    mkDeviceRow (jid_text (d_lid d)) (jid_text (d_pn d)) (cast_i32 (d_registration_id d)) (pg_serialize_keypair (d_noise_key d))
      (pg_serialize_keypair (d_identity_key d)) (pg_serialize_keypair (d_signed_pre_key d)) (cast_i32 (d_signed_pre_key_id d))
      (d_signed_pre_key_signature d) (d_adv_secret_key d) (adv_signed_encode <$> d_account d) (d_push_name d)
      (cast_i32 (d_app_version_primary d)) (cast_i32 (d_app_version_secondary d)) (d_app_version_tertiary d)
      (d_app_version_last_fetched_ms d) (d_edge_routing_info d)]> t)).

(** [returning(device::id)]: [serial] is the id the sequence gives *)
Definition pg_create_new_device io (serial : i32) rnds (join_error : str) : comp DeviceTable StoreError i32 :=
  match device_new rnds with
  | Ok nd =>
      run io (fun t => (serial, <[serial := mkDeviceRow [] [] (cast_i32 (d_registration_id nd)) (pg_serialize_keypair (d_noise_key nd))
        (pg_serialize_keypair (d_identity_key nd)) (pg_serialize_keypair (d_signed_pre_key nd)) (cast_i32 (d_signed_pre_key_id nd))
        (d_signed_pre_key_signature nd) (d_adv_secret_key nd) None (d_push_name nd) (cast_i32 (d_app_version_primary nd))
        (cast_i32 (d_app_version_secondary nd)) (d_app_version_tertiary nd) (d_app_version_last_fetched_ms nd) None]> t))
  | _ => mfail (ST_Database join_error)
  end.
Definition pg_device_exists io (device_id : i32) : comp DeviceTable StoreError bool :=
  run io (fun t => (match t !! device_id with Some _ => true | None => false end, t)).

(** The row is read back field by field. *)
Definition pg_row_device (r : DeviceRow) : outcome StoreError Device :=
  let id := text_jid (row_pn r) in
  let lid := text_jid (row_lid r) in
  let? noise_key := pg_deserialize_keypair (row_noise_key r) in
  let? identity_key := pg_deserialize_keypair (row_identity_key r) in
  let? signed_pre_key := pg_deserialize_keypair (row_signed_pre_key r) in
  if negb (length (row_signed_pre_key_signature r) =? 64)%nat
  then Err (ST_Serialization (lit "Invalid signed_pre_key_signature length"))
  else if negb (length (row_adv_secret_key r) =? 32)%nat then Err (ST_Serialization (lit "Invalid adv_secret_key length"))
  else
    let? account :=
      match row_account r with
      | Some data => match adv_signed_decode data with inr a => Ok (Some a) | inl e => Err (ST_Serialization e) end
      | None => Ok None
      end in
    let tertiary := row_app_version_tertiary r in
    Ok (mkDevice id lid (cast_u32 (row_registration_id r)) noise_key identity_key signed_pre_key
          (cast_u32 (row_signed_pre_key_id r)) (row_signed_pre_key_signature r) (row_adv_secret_key r) account (row_push_name r)
          (cast_u32 (row_app_version_primary r)) (cast_u32 (row_app_version_secondary r))
          (if in_range 0 (2 ^ 32 - 1) tertiary then tertiary else 0) (row_app_version_last_fetched_ms r) DEVICE_PROPS
          (row_edge_routing_info r)).
Definition pg_load_device_data_for_device io (device_id : i32) : comp DeviceTable StoreError (option Device) :=
  let! row := run io (fun t => (t !! device_id, t)) in
  match row with
  | Some r => let! d := mlift (pg_row_device r) in mret (Some d)
  | None => mret None
  end.
End Devices.

Section Postgres.
Context `{HBC : !Bincode, HJ : !DeviceJson, HTB : !TieBreak}.
Context (pool_fault query_fault : nat -> option str).
(** the text of a violated foreign key *)
Context (fk_violation : str).

(** A permit of the semaphore is there sooner or later. *)
Definition with_semaphore {A} (f : sql A) : sql A := f.
Definition pooled_pg {A} (f : sql A) : sql A := pool_get pool_fault ;; f.
Abbreviation insert_pg := (insert_into query_fault (Some fk_violation)).
Abbreviation select_pg := (select query_fault).
Abbreviation delete_pg := (delete_from query_fault).

(** ** Identities and sessions *)

Definition pg_put_identity_for_device (address : str) (key : bytes) (device_id : i32) : sql unit :=
  retrying (lit "Identity") (pooled_pg (insert_pg device_id (fun t => set_identities (<[(address, device_id) := key]> (t_identities t)) t))).
Definition pg_delete_identity_for_device (address : str) (device_id : i32) : sql unit :=
  pooled_pg (delete_pg (fun t => set_identities (delete (address, device_id) (t_identities t)) t)).
Definition pg_load_identity_for_device (address : str) (device_id : i32) : sql (option bytes) :=
  with_semaphore (pooled_pg (select_pg (fun t => t_identities t !! (address, device_id)))).

Definition pg_get_session_for_device (address : str) (device_id : i32) : sql (option bytes) :=
  with_semaphore (pooled_pg (select_pg (fun t => t_sessions t !! (address, device_id)))).
Definition pg_put_session_for_device (address : str) (session : bytes) (device_id : i32) : sql unit :=
  retrying (lit "Session") (pooled_pg (insert_pg device_id (fun t => set_sessions (<[(address, device_id) := session]> (t_sessions t)) t))).
Definition pg_delete_session_for_device (address : str) (device_id : i32) : sql unit :=
  pooled_pg (delete_pg (fun t => set_sessions (delete (address, device_id) (t_sessions t)) t)).

(** [eq_any]: the rows in the order the data base finds them *)
Definition pg_get_sessions_batch (device_id : i32) (addresses : list str) : sql (list (str * bytes)) :=
  match addresses with
  | [] => mret []
  | _ => with_semaphore (pooled_pg (select_pg (fun t => filter (fun r => r.1 ∈ addresses) (map_to_list (rows device_id (t_sessions t))))))
  end.
Definition pg_put_sessions_batch (device_id : i32) (entries : list (str * bytes)) : sql unit :=
  match entries with
  | [] => mret tt
  | _ => retrying (lit "Batch session")
           (pooled_pg (transaction query_fault
              (mfor (fun e => insert_pg device_id (fun t => set_sessions (<[(e.1, device_id) := e.2]> (t_sessions t)) t)) entries)))
  end.

(** The batches of identities are written like those of sessions. *)
Definition pg_load_identities_batch (device_id : i32) (addresses : list str) : sql (list (str * bytes)) :=
  match addresses with
  | [] => mret []
  | _ => with_semaphore (pooled_pg (select_pg (fun t => filter (fun r => r.1 ∈ addresses) (map_to_list (rows device_id (t_identities t))))))
  end.
Definition pg_put_identities_batch (device_id : i32) (entries : list (str * bytes)) : sql unit :=
  match entries with
  | [] => mret tt
  | _ => retrying (lit "Batch identity")
           (pooled_pg (transaction query_fault
              (mfor (fun e => insert_pg device_id (fun t => set_identities (<[(e.1, device_id) := e.2]> (t_identities t)) t)) entries)))
  end.

(** ** Pre-keys; the ids are kept as [i32] *)

Definition pg_store_prekey (device_id : i32) (id : u32) (record : bytes) (uploaded : bool) : sql unit :=
  pooled_pg (insert_pg device_id (fun t => set_prekeys (<[(cast_i32 id, device_id) := (record, uploaded)]> (t_prekeys t)) t)).
Definition pg_load_prekey (device_id : i32) (id : u32) : sql (option bytes) :=
  pooled_pg (select_pg (fun t => fst <$> t_prekeys t !! (cast_i32 id, device_id))).
Definition pg_remove_prekey (device_id : i32) (id : u32) : sql unit :=
  pooled_pg (delete_pg (fun t => set_prekeys (delete (cast_i32 id, device_id) (t_prekeys t)) t)).

Definition pg_store_signed_prekey (device_id : i32) (id : u32) (record : bytes) : sql unit :=
  pooled_pg (insert_pg device_id (fun t => set_signed_prekeys (<[(cast_i32 id, device_id) := record]> (t_signed_prekeys t)) t)).
Definition pg_load_signed_prekey (device_id : i32) (id : u32) : sql (option bytes) :=
  pooled_pg (select_pg (fun t => t_signed_prekeys t !! (cast_i32 id, device_id))).
Definition pg_load_all_signed_prekeys (device_id : i32) : sql (list (u32 * bytes)) :=
  pooled_pg (select_pg (fun t => map (fun r => (cast_u32 r.1, r.2)) (map_to_list (rows device_id (t_signed_prekeys t))))).
Definition pg_remove_signed_prekey (device_id : i32) (id : u32) : sql unit :=
  pooled_pg (delete_pg (fun t => set_signed_prekeys (delete (cast_i32 id, device_id) (t_signed_prekeys t)) t)).

(** ** Sender keys *)

Definition pg_put_sender_key_for_device (address : str) (record : bytes) (device_id : i32) : sql unit :=
  pooled_pg (insert_pg device_id (fun t => set_sender_keys (<[(address, device_id) := record]> (t_sender_keys t)) t)).
Definition pg_get_sender_key_for_device (address : str) (device_id : i32) : sql (option bytes) :=
  pooled_pg (select_pg (fun t => t_sender_keys t !! (address, device_id))).
Definition pg_delete_sender_key_for_device (address : str) (device_id : i32) : sql unit :=
  pooled_pg (delete_pg (fun t => set_sender_keys (delete (address, device_id) (t_sender_keys t)) t)).

(** ** App state *)

Definition pg_get_app_state_sync_key_for_device (key_id : bytes) (device_id : i32) : sql (option AppStateSyncKey) :=
  let! res := pooled_pg (select_pg (fun t => t_app_state_keys t !! (key_id, device_id))) in
  mlift (match res with Some data => let? key := decoded (sync_key_decode data) in Ok (Some key) | None => Ok None end).
Definition pg_set_app_state_sync_key_for_device (key_id : bytes) (key : AppStateSyncKey) (device_id : i32) : sql unit :=
  pooled_pg (insert_pg device_id (fun t => set_app_state_keys (<[(key_id, device_id) := sync_key_encode key]> (t_app_state_keys t)) t)).
Definition pg_get_app_state_version_for_device (name : str) (device_id : i32) : sql HashState :=
  let! res := pooled_pg (select_pg (fun t => t_app_state_versions t !! (name, device_id))) in
  mlift (match res with Some data => decoded (hash_state_decode data) | None => Ok hash_state_default end).
Definition pg_set_app_state_version_for_device (name : str) (state : HashState) (device_id : i32) : sql unit :=
  pooled_pg (insert_pg device_id (fun t => set_app_state_versions (<[(name, device_id) := hash_state_encode state]> (t_app_state_versions t)) t)).

(** One statement for each; no transaction around them. *)
Definition pg_put_app_state_mutation_macs_for_device (name : str) (version : u64) (mutations : list AppStateMutationMAC) (device_id : i32) : sql unit :=
  match mutations with
  | [] => mret tt
  | _ => pooled_pg (mfor (fun m => insert_pg device_id (fun t =>
           set_mutation_macs (<[(name, mm_index_mac m, device_id) := (cast_i64 version, mm_value_mac m)]> (t_mutation_macs t)) t)) mutations)
  end.
Definition pg_delete_app_state_mutation_macs_for_device (name : str) (index_macs : list bytes) (device_id : i32) : sql unit :=
  match index_macs with
  | [] => mret tt
  | _ => pooled_pg (mfor (fun idx => delete_pg (fun t => set_mutation_macs (delete (name, idx, device_id) (t_mutation_macs t)) t)) index_macs)
  end.
Definition pg_get_app_state_mutation_mac_for_device (name : str) (index_mac : bytes) (device_id : i32) : sql (option bytes) :=
  pooled_pg (select_pg (fun t => snd <$> t_mutation_macs t !! (name, index_mac, device_id))).

(** ** Protocol: recipients, LIDs, base keys, device lists, marks *)

Definition pg_get_skdm_recipients (device_id : i32) (group_jid : str) : sql (list str) :=
  pooled_pg (select_pg (fun t => map (fun r => r.1.2) (filter (fun r => r.1.1 = group_jid) (map_to_list (rows device_id (t_skdm_recipients t)))))).
(** [do_nothing] where there is a row *)
Definition pg_add_skdm_recipients (device_id : i32) (now : i32) (group_jid : str) (device_jids : list str) : sql unit :=
  match device_jids with
  | [] => mret tt
  | _ => pooled_pg (mfor (fun device_jid => insert_pg device_id (fun t =>
           match t_skdm_recipients t !! (group_jid, device_jid, device_id) with
           | Some _ => t
           | None => set_skdm_recipients (<[(group_jid, device_jid, device_id) := now]> (t_skdm_recipients t)) t
           end)) device_jids)
  end.
Definition pg_clear_skdm_recipients (device_id : i32) (group_jid : str) : sql unit :=
  pooled_pg (delete_pg (fun t => set_skdm_recipients (delete_rows (fun k => k.1 =s group_jid) device_id (t_skdm_recipients t)) t)).

Definition pg_get_lid_mapping (device_id : i32) (lid : str) : sql (option LidPnMappingEntry) :=
  pooled_pg (select_pg (fun t => t_lid_pn_mapping t !! (lid, device_id))).
Definition pg_get_pn_mapping (device_id : i32) (phone : str) : sql (option LidPnMappingEntry) :=
  pooled_pg (select_pg (fun t => most_recent (filter (fun e => lm_phone_number e = phone) (map_to_list (rows device_id (t_lid_pn_mapping t))).*2))).
Definition pg_put_lid_mapping (device_id : i32) (entry : LidPnMappingEntry) : sql unit :=
  pooled_pg (insert_pg device_id (put_mapping_row device_id entry)).
Definition pg_get_all_lid_mappings (device_id : i32) : sql (list LidPnMappingEntry) :=
  pooled_pg (select_pg (fun t => (map_to_list (rows device_id (t_lid_pn_mapping t))).*2)).

Definition pg_save_base_key (device_id now : i32) (address message_id : str) (base_key : bytes) : sql unit :=
  pooled_pg (insert_pg device_id (put_base_key_row device_id now address message_id base_key)).
Definition pg_has_same_base_key (device_id : i32) (address message_id : str) (current_base_key : bytes) : sql bool :=
  let! stored_key := pooled_pg (select_pg (fun t => fst <$> t_base_keys t !! (address, message_id, device_id))) in
  mret (match stored_key with Some k => k =s current_base_key | None => false end).
Definition pg_delete_base_key (device_id : i32) (address message_id : str) : sql unit :=
  pooled_pg (delete_pg (fun t => set_base_keys (delete (address, message_id, device_id) (t_base_keys t)) t)).

Definition pg_update_device_list (device_id now : i32) (record : DeviceListRecord) : sql unit :=
  let devices_json := devices_to_json (dl_devices record) in
  pooled_pg (insert_pg device_id (fun t => set_device_registry
    (<[(dl_user record, device_id) := (mkRegistryRow devices_json (cast_i32 (dl_timestamp record)) (dl_phash record), now)]> (t_device_registry t)) t)).
Definition pg_get_devices (device_id : i32) (user : str) : sql (option DeviceListRecord) :=
  let! row := pooled_pg (select_pg (fun t => fst <$> t_device_registry t !! (user, device_id))) in
  mlift (match row with
         | Some r => let? devices := decoded (devices_from_json (rr_devices_json r)) in
                     Ok (Some (mkDeviceList user devices (rr_timestamp r) (rr_phash r)))
         | None => Ok None
         end).

Definition pg_mark_forget_sender_key (device_id now : i32) (group_jid participant : str) : sql unit :=
  pooled_pg (insert_pg device_id (fun t => set_sender_key_status (<[(group_jid, participant, device_id) := now]> (t_sender_key_status t)) t)).
Definition pg_consume_forget_marks (device_id : i32) (group_jid : str) : sql (list str) :=
  pooled_pg (let! participants := select_pg (marks_of device_id group_jid) in
          delete_pg (drop_marks device_id group_jid) ;; mret participants).


(** ** The trait *)

Definition pg_run (device_id : i32) (c : Call) : sql Reply :=
  match c with
  | PutIdentity a k => reply (fun _ => RDone) (pg_put_identity_for_device a k device_id)
  | LoadIdentity a => reply RBytes (pg_load_identity_for_device a device_id)
  | DeleteIdentity a => reply (fun _ => RDone) (pg_delete_identity_for_device a device_id)
  | GetSession a => reply RBytes (pg_get_session_for_device a device_id)
  | PutSession a s => reply (fun _ => RDone) (pg_put_session_for_device a s device_id)
  | DeleteSession a => reply (fun _ => RDone) (pg_delete_session_for_device a device_id)
  | GetSessionsBatch l => reply RPairs (pg_get_sessions_batch device_id l)
  | PutSessionsBatch l => reply (fun _ => RDone) (pg_put_sessions_batch device_id l)
  | LoadIdentitiesBatch l => reply RPairs (pg_load_identities_batch device_id l)
  | PutIdentitiesBatch l => reply (fun _ => RDone) (pg_put_identities_batch device_id l)
  | StorePreKey id r u => reply (fun _ => RDone) (pg_store_prekey device_id id r u)
  | LoadPreKey id => reply RBytes (pg_load_prekey device_id id)
  | RemovePreKey id => reply (fun _ => RDone) (pg_remove_prekey device_id id)
  | StoreSignedPreKey id r => reply (fun _ => RDone) (pg_store_signed_prekey device_id id r)
  | LoadSignedPreKey id => reply RBytes (pg_load_signed_prekey device_id id)
  | LoadAllSignedPreKeys => reply RRecords (pg_load_all_signed_prekeys device_id)
  | RemoveSignedPreKey id => reply (fun _ => RDone) (pg_remove_signed_prekey device_id id)
  | PutSenderKey a r => reply (fun _ => RDone) (pg_put_sender_key_for_device a r device_id)
  | GetSenderKey a => reply RBytes (pg_get_sender_key_for_device a device_id)
  | DeleteSenderKey a => reply (fun _ => RDone) (pg_delete_sender_key_for_device a device_id)
  | GetSyncKey id => reply RSyncKey (pg_get_app_state_sync_key_for_device id device_id)
  | SetSyncKey id k => reply (fun _ => RDone) (pg_set_app_state_sync_key_for_device id k device_id)
  | GetVersion n => reply RState (pg_get_app_state_version_for_device n device_id)
  | SetVersion n s => reply (fun _ => RDone) (pg_set_app_state_version_for_device n s device_id)
  | PutMutationMacs n v l => reply (fun _ => RDone) (pg_put_app_state_mutation_macs_for_device n v l device_id)
  | GetMutationMac n k => reply RBytes (pg_get_app_state_mutation_mac_for_device n k device_id)
  | DeleteMutationMacs n l => reply (fun _ => RDone) (pg_delete_app_state_mutation_macs_for_device n l device_id)
  | GetSkdmRecipients g => reply RStrings (pg_get_skdm_recipients device_id g)
  | AddSkdmRecipients now g l => reply (fun _ => RDone) (pg_add_skdm_recipients device_id now g l)
  | ClearSkdmRecipients g => reply (fun _ => RDone) (pg_clear_skdm_recipients device_id g)
  | GetLidMapping lid => reply RMapping (pg_get_lid_mapping device_id lid)
  | GetPnMapping phone => reply RMapping (pg_get_pn_mapping device_id phone)
  | PutLidMapping e => reply (fun _ => RDone) (pg_put_lid_mapping device_id e)
  | GetAllLidMappings => reply RMappings (pg_get_all_lid_mappings device_id)
  | SaveBaseKey now a id k => reply (fun _ => RDone) (pg_save_base_key device_id now a id k)
  | HasSameBaseKey a id k => reply RBool (pg_has_same_base_key device_id a id k)
  | DeleteBaseKey a id => reply (fun _ => RDone) (pg_delete_base_key device_id a id)
  | UpdateDeviceList now r => reply (fun _ => RDone) (pg_update_device_list device_id now r)
  | GetDevices u => reply RDevices (pg_get_devices device_id u)
  | MarkForgetSenderKey now g p => reply (fun _ => RDone) (pg_mark_forget_sender_key device_id now g p)
  | ConsumeForgetMarks g => reply RStrings (pg_consume_forget_marks device_id g)
  end.
End Postgres.

(** ** Theory *)

Section Postgres_refines.
Context `{HBC : !Bincode, HJ : !DeviceJson, HTB : !TieBreak} (pool_fault query_fault : nat -> option str) (fk_violation : str) (device_id : i32).
Abbreviation answered := (answers pool_fault query_fault device_id).
Abbreviation pg := (pg_run pool_fault query_fault fk_violation device_id).

Lemma pg_load_identities_answers l : answered (LoadIdentitiesBatch l) (pg (LoadIdentitiesBatch l)).
Proof.
  assert (forall t (x : str * bytes), x ∈ filter (fun r => r.1 ∈ l) (map_to_list (rows device_id (t_identities t)))
            <-> x ∈ omap (fun a => pair a <$> rows device_id (t_identities t) !! a) l) as Hx.
  { intros t [a k]. rewrite list_elem_of_filter, elem_of_map_to_list, list_elem_of_omap. cbn [fst]. split.
    - intros [Ha Hk]. exists a. by rewrite Hk.
    - intros (a' & Ha & (k' & Hk & [= -> ->])%fmap_Some). done. }
  destruct l as [|a l]; cbn [pg_run pg_load_identities_batch].
  - apply (read_answers _ _ _ _ (fun _ => [])); [apply mret_implements| |done]. intros t. by eexists.
  - eapply read_answers; [apply pooled_select| |done]. intros t. eexists. split; [reflexivity|]. exact (Hx t).
Qed.

Lemma pg_put_identities_answers l : answered (PutIdentitiesBatch l) (pg (PutIdentitiesBatch l)).
Proof.
  assert (forall l t, device_data device_id (fold_left (fun t e => set_identities (<[(e.1, device_id) := e.2]> (t_identities t)) t) l t)
      = with_identities (put_all l (rows device_id (t_identities t))) (device_data device_id t)
    /\ forall d, d <> device_id -> device_data d (fold_left (fun t e => set_identities (<[(e.1, device_id) := e.2]> (t_identities t)) t) l t) = device_data d t) as Hall.
  { intros l'. induction l' as [|e l' IH]; intros t; [done|]. cbn [fold_left].
    destruct (IH (set_identities (<[(e.1, device_id) := e.2]> (t_identities t)) t)) as [H1 H2].
    split; [rewrite H1; data_solve|]. intros d Hd. rewrite H2 by done. revert d Hd. data_solve. }
  destruct l as [|e l]; cbn [pg_run pg_put_identities_batch].
  - apply (write_answers _ _ _ _ id); [apply mret_implements|done|done|done].
  - eapply write_answers; [|done|intros t; apply Hall|intros t; apply Hall].
    apply retrying_implements. apply pooled_implements; [done|]. eapply transaction_implements. apply mfor_implements. intros x. by apply insert_implements.
Qed.

Lemma pg_implements : implements_backend pool_fault query_fault device_id pg.
Proof.
  intros c. destruct c;
    first [exact (get_sessions_batch_answers _ _ _ _) | exact (put_sessions_batch_answers _ _ _ (Some fk_violation) _ _) | exact (pg_load_identities_answers _)
          | exact (pg_put_identities_answers _) | exact (sync_key_answers _ _ _ _) | exact (version_answers _ _ _ _)
          | exact (put_macs_answers _ _ _ (Some fk_violation) _ _ _)
          | exact (delete_macs_answers _ _ _ _ _) | exact (add_recipients_answers _ _ _ (Some fk_violation) _ _ _)
          | exact (put_lid_answers _ _ _ (Some fk_violation) _)
          | exact (same_base_key_answers _ _ _ _ _ _) | exact (get_devices_answers _ _ _ _) | exact (consume_marks_answers _ _ _ _) | idtac];
    cbn [pg_run]; answer_simple.
Qed.
End Postgres_refines.

Section Theorems.
Context `{HBC : !Bincode, HJ : !DeviceJson, HTB : !TieBreak}.

(** The PostgreSQL store implements the same specification, with whatever
    failures, violated foreign keys among them: a call that returns has the
    specified reply and effect, a call that fails has done nothing or the first of
    several writes, and no other device is touched. *)
Theorem postgres_refines pool_fault query_fault fk_violation device_id c db :
  let run := pg_run pool_fault query_fault fk_violation device_id in
  match run c db with
  | (Ok r, db') => option_Forall2 reply_equiv (Some r) (spec c (device_data device_id (db_tables db))).1
                   /\ device_data device_id (db_tables db') = (spec c (device_data device_id (db_tables db))).2
  | (Err _, db') => after_failure c (device_data device_id (db_tables db)) (device_data device_id (db_tables db'))
  | _ => False
  end
  /\ (forall d, d <> device_id -> device_data d (db_tables (run c db).2) = device_data d (db_tables db))
  /\ (healthy pool_fault query_fault device_id db -> is_Some (spec c (device_data device_id (db_tables db))).1 ->
      exists r db', run c db = (Ok r, db') /\ healthy pool_fault query_fault device_id db').
Proof. apply backend_call, pg_implements. Qed.

(** C29: The two stores cannot be told apart, up to ties.  Started from the same
    data of a device that exists, with rows that can be decoded, every sequence of
    calls succeeds in both when nothing fails, leaves the same data and gives the
    same replies, lists compared as sets; only where several LIDs of a number have
    the same latest time, which the statements leave open, each store may answer
    with another one of them, at every call anew. *)
Theorem backends_agree pool1 query1 fk1 pool2 query2 fk2 device_id (cs : list (TieBreak * TieBreak * Call)) db1 db2 :
  healthy pool1 query1 device_id db1 -> healthy pool2 query2 device_id db2 ->
  device_data device_id (db_tables db1) = device_data device_id (db_tables db2) -> decodable (device_data device_id (db_tables db1)) ->
  exists rs1 db1' rs2 db2',
    run_calls (fun t => sqlite_run (HTB := t) pool1 query1 fk1 device_id) (map (fun x => (x.1.1, x.2)) cs) db1 = (Ok rs1, db1')
    /\ run_calls (fun t => pg_run (HTB := t) pool2 query2 fk2 device_id) (map (fun x => (x.1.2, x.2)) cs) db2 = (Ok rs2, db2')
    /\ Forall2 reply_agree rs1 rs2 /\ device_data device_id (db_tables db1') = device_data device_id (db_tables db2').
Proof.
  intros Hh1 Hh2 Heq Hd.
  destruct (run_calls_spec _ _ _ _ (map (fun x => (x.1.1, x.2)) cs) _ (fun t => sqlite_implements (HTB := t) pool1 query1 fk1 device_id) Hh1 Hd)
    as (rs1 & db1' & E1 & R1 & D1).
  rewrite Heq in Hd.
  destruct (run_calls_spec _ _ _ _ (map (fun x => (x.1.2, x.2)) cs) _ (fun t => pg_implements (HTB := t) pool2 query2 fk2 device_id) Hh2 Hd)
    as (rs2 & db2' & E2 & R2 & D2).
  rewrite Heq in R1, D1. destruct (spec_calls_ties cs (device_data device_id (db_tables db2))) as [Ed Er].
  exists rs1, db1', rs2, db2'. split_and!; [done|done| |by rewrite D1, D2].
  clear -R1 R2 Er. revert rs1 rs2 R1 R2. induction Er as [|r r' rs rs' Hr _ IH]; intros rs1 rs2 R1 R2; inversion R1; inversion R2; subst; constructor.
  - by eapply reply_agree_equiv.
  - by apply IH.
Qed.

(** The devices are written and read as in SQLite. *)
Lemma pg_device_rows `{HC : !Curve25519, HP : !AdvProto} io device_id d :
  pg_save_device_data_for_device io device_id d = save_device_data_for_device io device_id d
  /\ pg_device_exists io device_id = device_exists io device_id.
Proof. done. Qed.

Lemma pg_row_device_same `{HC : !Curve25519, HP : !AdvProto} r : pg_row_device r = row_device r.
Proof. done. Qed.
End Theorems.

(** ** Witness *)

Definition toy_row : DeviceRow := mkDeviceRow [] [] 0 [] [] [] 0 [] [] None [] 0 0 0 0 None.
Definition toy_tables : Tables := mkTables {[1 := toy_row]} ∅ ∅ ∅ ∅ ∅ ∅ ∅ ∅ ∅ ∅ ∅ ∅ ∅.
Definition toy_mapping (l : string) : LidPnMappingEntry := mkMapping (lit l) (lit "55") 7 7 (lit "usync").
(** The first store takes the first of the latest rows, the second the second. *)
Definition toy_calls : list (TieBreak * TieBreak * Call) :=
  map (pair (fun _ => 0%nat, fun _ => 1%nat))
  [PutSession (lit "a") [1; 2]; GetSession (lit "a"); PutIdentitiesBatch [(lit "b", [3]); (lit "a", [4])]; LoadIdentitiesBatch [lit "b"; lit "a"];
   SetVersion (lit "regular") hash_state_default; GetVersion (lit "regular");
   PutLidMapping (toy_mapping "l1"); PutLidMapping (toy_mapping "l2"); GetPnMapping (lit "55")].
Definition never (_ : nat) : option str := None.

Lemma backends_agree_witness :
  exists rs1 db1' rs2 db2',
    run_calls (fun t => @sqlite_run toy_bincode Registry.toy_json t never never [] 1) (map (fun x => (x.1.1, x.2)) toy_calls) (mkDb toy_tables 0 []) = (Ok rs1, db1')
    /\ run_calls (fun t => @pg_run toy_bincode Registry.toy_json t never never [] 1) (map (fun x => (x.1.2, x.2)) toy_calls) (mkDb toy_tables 5 []) = (Ok rs2, db2')
    /\ Forall2 reply_agree rs1 rs2.
Proof.
  destruct (@backends_agree toy_bincode Registry.toy_json never never [] never never [] 1 toy_calls (mkDb toy_tables 0 []) (mkDb toy_tables 5 []))
    as (rs1 & db1 & rs2 & db2 & E1 & E2 & H & _).
  - split_and!; [reflexivity|reflexivity|]. exists toy_row. vm_compute. reflexivity.
  - split_and!; [reflexivity|reflexivity|]. exists toy_row. vm_compute. reflexivity.
  - reflexivity.
  - split; intros x y Hx; vm_compute in Hx; discriminate.
  - exists rs1, db1, rs2, db2. exact (conj E1 (conj E2 H)).
Defined.

(** A tie can be seen: for a number with two LIDs learnt in the same second the
    stores may answer with different ones. *)
Example tie_differs :
  match run_calls (fun t => @sqlite_run toy_bincode Registry.toy_json t never never [] 1) (map (fun x => (x.1.1, x.2)) toy_calls) (mkDb toy_tables 0 []),
        run_calls (fun t => @pg_run toy_bincode Registry.toy_json t never never [] 1) (map (fun x => (x.1.2, x.2)) toy_calls) (mkDb toy_tables 0 []) with
  | (Ok rs1, _), (Ok rs2, _) => exists e e', last rs1 = Some (RMapping (Some e)) /\ last rs2 = Some (RMapping (Some e')) /\ e <> e'
  | _, _ => False
  end.
Proof. vm_compute. eexists _, _. split; [reflexivity|]. split; [reflexivity|discriminate]. Qed.
