(* ===== verification/Lifecycle.v ===== *)
(** * The life of the connection: [src/client.rs], [src/client/keepalive.rs]

    The run loop with its reconnections and delays, connecting, the message
    loop, disconnecting, the stanzas that decide over the connection
    ([<success>], [<failure>], [<stream:error>]), the tasks that are started
    after a login and the keep-alive task.  The flags of the client are shared
    by all tasks; [exec] is one step of one task, and the theorems are about
    every interleaving of these steps.  A task after a login looks at the
    generation before each of its operations; the sends of an operation are
    steps of their own, which follow without another look.

    A [tokio::sync::Notify] that is signalled with [notify_waiters] reaches the
    tasks that wait at that moment and nobody later. *)

From stdpp Require Import gmap.
From Stdlib Require Import Sorting.Sorted.
From S2P Require Import Prelude RustStd Jid Node Attrs Crypto Curve Framing SessionRatchet Noise Connection Requests Device Persistence KeyServer Backend.

(** ** Reasons: [types/events.rs] *)

Inductive TempBanReason :=
| TB_SentToTooManyPeople | TB_BlockedByUsers | TB_CreatedTooManyGroups | TB_SentTooManySameMessage | TB_BroadcastList
| TB_Unknown (code : i32).

Definition temp_ban_from (code : i32) : TempBanReason :=
  if code =? 101 then TB_SentToTooManyPeople else if code =? 102 then TB_BlockedByUsers
  else if code =? 103 then TB_CreatedTooManyGroups else if code =? 104 then TB_SentTooManySameMessage
  else if code =? 106 then TB_BroadcastList else TB_Unknown code.

Definition temp_ban_code (r : TempBanReason) : i32 :=
  match r with
  | TB_SentToTooManyPeople => 101
  | TB_BlockedByUsers => 102
  | TB_CreatedTooManyGroups => 103
  | TB_SentTooManySameMessage => 104
  | TB_BroadcastList => 106
  | TB_Unknown code => code
  end.

Inductive ConnectFailureReason :=
| CF_Generic | CF_LoggedOut | CF_TempBanned | CF_MainDeviceGone | CF_UnknownLogout | CF_ClientOutdated | CF_BadUserAgent
| CF_CatExpired | CF_CatInvalid | CF_NotFound | CF_ClientUnknown | CF_InternalServerError | CF_Experimental
| CF_ServiceUnavailable | CF_Unknown (code : i32).
#[export] Instance ConnectFailureReason_eq_dec : EqDecision ConnectFailureReason.
Proof. solve_decision. Defined.

Definition connect_failure_from (code : i32) : ConnectFailureReason :=
  if code =? 400 then CF_Generic else if code =? 401 then CF_LoggedOut else if code =? 402 then CF_TempBanned
  else if code =? 403 then CF_MainDeviceGone else if code =? 406 then CF_UnknownLogout else if code =? 405 then CF_ClientOutdated
  else if code =? 409 then CF_BadUserAgent else if code =? 413 then CF_CatExpired else if code =? 414 then CF_CatInvalid
  else if code =? 415 then CF_NotFound else if code =? 418 then CF_ClientUnknown else if code =? 500 then CF_InternalServerError
  else if code =? 501 then CF_Experimental else if code =? 503 then CF_ServiceUnavailable else CF_Unknown code.

Definition connect_failure_code (r : ConnectFailureReason) : i32 :=
  match r with
  | CF_Generic => 400
  | CF_LoggedOut => 401
  | CF_TempBanned => 402
  | CF_MainDeviceGone => 403
  | CF_UnknownLogout => 406
  | CF_ClientOutdated => 405
  | CF_BadUserAgent => 409
  | CF_CatExpired => 413
  | CF_CatInvalid => 414
  | CF_NotFound => 415
  | CF_ClientUnknown => 418
  | CF_InternalServerError => 500
  | CF_Experimental => 501
  | CF_ServiceUnavailable => 503
  | CF_Unknown code => code
  end.

Definition is_logged_out (r : ConnectFailureReason) : bool :=
  match r with CF_LoggedOut | CF_MainDeviceGone | CF_UnknownLogout => true | _ => false end.
Definition should_reconnect (r : ConnectFailureReason) : bool :=
  match r with CF_ServiceUnavailable | CF_InternalServerError => true | _ => false end.

(** The events about the connection; [expire] in seconds. *)
Inductive Event :=
| E_Connected
| E_Disconnected
| E_StreamReplaced
| E_LoggedOut (on_connect : bool) (reason : ConnectFailureReason)
| E_StreamError (code : str) (raw : option Node)
| E_TemporaryBan (code : TempBanReason) (expire : i64)
| E_ClientOutdated
| E_ConnectFailure (reason : ConnectFailureReason) (message : str) (raw : option Node).

(** ** The client's shared state *)

(** A socket: the connection it belongs to, its read key and read counter. *)
Record Socket := mkSocket { sk_conn : nat; sk_read_key : bytes; sk_read_counter : u32 }.

(** The flags of [Client]; a transport and its receiver of events are named by
    the number of the connection.  The time of the last login, which nothing
    reads, and the cache of retried group messages are left out. *)
Record ClientFlags := mkFlags {
  is_logged_in : bool;
  is_connecting : bool;
  is_running : bool;
  expected_disconnect : bool;
  enable_auto_reconnect : bool;
  offline_sync_completed : bool;
  needs_initial_full_sync : bool;
  initial_app_state_keys_received : bool;
  auto_reconnect_errors : u32;
  connection_generation : u64;
  transport : option nat;
  transport_events : option nat;
  noise_socket : option Socket
}.

Definition flags_new : ClientFlags := mkFlags false false false false true false false false 0 0 None None None.

Definition set_logged_in b c := mkFlags b (is_connecting c) (is_running c) (expected_disconnect c) (enable_auto_reconnect c) (offline_sync_completed c) (needs_initial_full_sync c) (initial_app_state_keys_received c) (auto_reconnect_errors c) (connection_generation c) (transport c) (transport_events c) (noise_socket c).
Definition set_connecting b c := mkFlags (is_logged_in c) b (is_running c) (expected_disconnect c) (enable_auto_reconnect c) (offline_sync_completed c) (needs_initial_full_sync c) (initial_app_state_keys_received c) (auto_reconnect_errors c) (connection_generation c) (transport c) (transport_events c) (noise_socket c).
Definition set_running b c := mkFlags (is_logged_in c) (is_connecting c) b (expected_disconnect c) (enable_auto_reconnect c) (offline_sync_completed c) (needs_initial_full_sync c) (initial_app_state_keys_received c) (auto_reconnect_errors c) (connection_generation c) (transport c) (transport_events c) (noise_socket c).
Definition set_expected b c := mkFlags (is_logged_in c) (is_connecting c) (is_running c) b (enable_auto_reconnect c) (offline_sync_completed c) (needs_initial_full_sync c) (initial_app_state_keys_received c) (auto_reconnect_errors c) (connection_generation c) (transport c) (transport_events c) (noise_socket c).
Definition set_auto_reconnect b c := mkFlags (is_logged_in c) (is_connecting c) (is_running c) (expected_disconnect c) b (offline_sync_completed c) (needs_initial_full_sync c) (initial_app_state_keys_received c) (auto_reconnect_errors c) (connection_generation c) (transport c) (transport_events c) (noise_socket c).
Definition set_offline_done b c := mkFlags (is_logged_in c) (is_connecting c) (is_running c) (expected_disconnect c) (enable_auto_reconnect c) b (needs_initial_full_sync c) (initial_app_state_keys_received c) (auto_reconnect_errors c) (connection_generation c) (transport c) (transport_events c) (noise_socket c).
Definition set_full_sync b c := mkFlags (is_logged_in c) (is_connecting c) (is_running c) (expected_disconnect c) (enable_auto_reconnect c) (offline_sync_completed c) b (initial_app_state_keys_received c) (auto_reconnect_errors c) (connection_generation c) (transport c) (transport_events c) (noise_socket c).
Definition set_keys_received b c := mkFlags (is_logged_in c) (is_connecting c) (is_running c) (expected_disconnect c) (enable_auto_reconnect c) (offline_sync_completed c) (needs_initial_full_sync c) b (auto_reconnect_errors c) (connection_generation c) (transport c) (transport_events c) (noise_socket c).
Definition set_errors n c := mkFlags (is_logged_in c) (is_connecting c) (is_running c) (expected_disconnect c) (enable_auto_reconnect c) (offline_sync_completed c) (needs_initial_full_sync c) (initial_app_state_keys_received c) n (connection_generation c) (transport c) (transport_events c) (noise_socket c).
Definition set_generation g c := mkFlags (is_logged_in c) (is_connecting c) (is_running c) (expected_disconnect c) (enable_auto_reconnect c) (offline_sync_completed c) (needs_initial_full_sync c) (initial_app_state_keys_received c) (auto_reconnect_errors c) g (transport c) (transport_events c) (noise_socket c).
Definition set_link t ev s c := mkFlags (is_logged_in c) (is_connecting c) (is_running c) (expected_disconnect c) (enable_auto_reconnect c) (offline_sync_completed c) (needs_initial_full_sync c) (initial_app_state_keys_received c) (auto_reconnect_errors c) (connection_generation c) t ev s.

Definition is_connected (c : ClientFlags) : bool := match noise_socket c with Some _ => true | None => false end.

Definition cleanup_connection_state (c : ClientFlags) : ClientFlags :=
  set_offline_done false (set_link None None None (set_logged_in false c)).

(** ** The tasks *)

(** Where a call of [run] is: at the head of the loop; waiting for the
    transport and the handshake; connected, before the message loop; waiting in
    its [select!]; working through the frames of its decoder; out of the
    message loop; deciding whether to go on; sleeping. *)
Inductive RunPc :=
| R_top | R_dial | R_start | R_select (d : FrameDecoder) | R_frames (d : FrameDecoder) | R_leave | R_decide
| R_sleep (secs : u64) | R_ended.

(** The keep-alive task: sleeping, waiting for the answer to a ping, over. *)
Inductive KeepPc := K_sleep | K_ping | K_done.
Record Keep := mkKeep { k_last_success : i64; k_error_count : u32; k_pc : KeepPc }.

(** What a task of a login sends. *)
Inductive NetOp :=
| N_primary_session | N_active | N_pre_key_count | N_upload_pre_keys | N_available | N_props | N_blocklist | N_privacy | N_digest
| N_collection (i : nat).
#[export] Instance NetOp_eq_dec : EqDecision NetOp.
Proof. solve_decision. Defined.

(** The operations of such a task: each begins with a check of the generation
    and then goes through waits of its own ([establish_primary_phone_session_immediate],
    [set_passive], [upload_pre_keys], [set_available], the announcement of the
    connection, the four joined queries, [fetch_app_state_with_retry]). *)
Inductive PostOp := O_primary | O_active | O_upload | O_presence | O_announce | O_background | O_collection (i : nat).
#[export] Instance PostOp_eq_dec : EqDecision PostOp.
Proof. solve_decision. Defined.

(** The sends of an operation; of a collection, any number (its requests, the
    retries, the requests for keys and for the media connection). *)
Definition op_sends (o : PostOp) : list NetOp :=
  match o with
  | O_primary => [N_primary_session]
  | O_active => [N_active]
  | O_upload => [N_pre_key_count; N_upload_pre_keys]
  | O_presence => [N_available]
  | O_announce => []
  | O_background => [N_props; N_blocklist; N_privacy; N_digest]
  | O_collection i => [N_collection i]
  end.

(** The tasks that a login starts: the steps of the sequence, its queries in the
    background and the synchronisation of the collections.  [P_in o todo]: inside
    the operation [o], with the sends [todo] still to come. *)
Inductive PostPc :=
| P_start | P_name | P_check | P_active | P_offline | P_offline_wait | P_upload | P_presence | P_connected | P_sync | P_sync_wait
| P_background | P_collection (i : nat) | P_in (o : PostOp) (todo : list NetOp) | P_done.
Record Post := mkPost { p_gen : u64; p_force : bool; p_pc : PostPc }.

(** What happened: an attempt to connect, a connection that came up, an event,
    a login with its generation, an operation of a login's task that passed its
    check, something sent by that task over a connection, a transport told to disconnect, a stanza given to a task of its own. *)
Inductive Entry :=
| L_attempt
| L_up (conn : nat)
| L_event (gen : option u64) (e : Event)
| L_login (gen : u64) (conn : option nat)
| L_begin (gen : u64) (o : PostOp)
| L_sent (gen : u64) (conn : option nat) (op : NetOp)
| L_close (conn : nat)
| L_spawned (n : Node).

Record World := mkWorld {
  w_client : ClientFlags; w_device : Device; w_runs : list RunPc; w_keeps : list Keep; w_posts : list Post;
  w_log : list Entry; w_next_conn : nat
}.

Definition with_client (f : ClientFlags -> ClientFlags) (w : World) : World :=
  mkWorld (f (w_client w)) (w_device w) (w_runs w) (w_keeps w) (w_posts w) (w_log w) (w_next_conn w).
Definition on_device (f : Device -> Device) (w : World) : World :=
  mkWorld (w_client w) (f (w_device w)) (w_runs w) (w_keeps w) (w_posts w) (w_log w) (w_next_conn w).
Definition set_run (i : nat) (r : RunPc) (w : World) : World :=
  mkWorld (w_client w) (w_device w) (<[i := r]> (w_runs w)) (w_keeps w) (w_posts w) (w_log w) (w_next_conn w).
Definition set_keep (i : nat) (k : Keep) (w : World) : World :=
  mkWorld (w_client w) (w_device w) (w_runs w) (<[i := k]> (w_keeps w)) (w_posts w) (w_log w) (w_next_conn w).
Definition set_post (i : nat) (p : Post) (w : World) : World :=
  mkWorld (w_client w) (w_device w) (w_runs w) (w_keeps w) (<[i := p]> (w_posts w)) (w_log w) (w_next_conn w).
Definition spawn_run (w : World) : World :=
  mkWorld (w_client w) (w_device w) (w_runs w ++ [R_top]) (w_keeps w) (w_posts w) (w_log w) (w_next_conn w).
Definition spawn_keep (k : Keep) (w : World) : World :=
  mkWorld (w_client w) (w_device w) (w_runs w) (w_keeps w ++ [k]) (w_posts w) (w_log w) (w_next_conn w).
Definition spawn_post (p : Post) (w : World) : World :=
  mkWorld (w_client w) (w_device w) (w_runs w) (w_keeps w) (w_posts w ++ [p]) (w_log w) (w_next_conn w).
Definition record (es : list Entry) (w : World) : World :=
  mkWorld (w_client w) (w_device w) (w_runs w) (w_keeps w) (w_posts w) (w_log w ++ es) (w_next_conn w).

(** [shutdown_notifier.notify_waiters()]: the message loops in their [select!]
    return, the sleeping keep-alive tasks end. *)
Definition notify_shutdown (w : World) : World :=
  mkWorld (w_client w) (w_device w)
    (map (fun r => match r with R_select _ => R_leave | _ => r end) (w_runs w))
    (map (fun k => match k_pc k with K_sleep => mkKeep (k_last_success k) (k_error_count k) K_done | _ => k end) (w_keeps w))
    (w_posts w) (w_log w) (w_next_conn w).

(** ** [disconnect] *)

Definition disconnect (w : World) : World :=
  let w := notify_shutdown (with_client (fun c => set_running false (set_expected true c)) w) in
  let w := match transport (w_client w) with Some t => record [L_close t] w | None => w end in
  with_client cleanup_connection_state w.

(** ** The stanzas that decide over the connection *)

(** [now]: the time, for the device's record *)
Definition handle_success (now : i64) (node : Node) (w : World) : World :=
  let c := w_client w in
  if expected_disconnect c then w
  else if is_logged_in c then w
  else
    let current_generation := wrap 64 (connection_generation c + 1) in
    let w := with_client (fun c => set_errors 0 (set_generation current_generation (set_logged_in true c))) w in
    let w := record [L_login current_generation (sk_conn <$> noise_socket (w_client w))] w in
    let w :=
      match im_get (lit "lid") (attrs node) with
      | Some lid_str =>
          match from_str lid_str with
          | Ok lid => if bool_decide (d_lid (w_device w) = Some lid) then w
                      else on_device (apply_command_to_device now (SetLid (Some lid))) w
          | _ => w
          end
      | None => w
      end in
    spawn_post (mkPost current_generation false P_start) w.

Definition expect_disconnect (w : World) : World := with_client (set_expected true) w.

Definition or_empty (o : option str) : str := match o with Some s => s | None => [] end.

Definition handle_stream_error (node : Node) (w : World) : World :=
  let w := with_client (set_logged_in false) w in
  let code := or_empty (ap_optional_string (lit "code") (ap_new node)).1 in
  let conflict_type :=
    match get_optional_child node (lit "conflict") with
    | Some n => or_empty (ap_optional_string (lit "type") (ap_new n)).1
    | None => []
    end in
  let w :=
    if code =s lit "515" then
      let w := expect_disconnect w in
      match transport (w_client w) with Some t => record [L_close t] w | None => w end
    else if ((code =s lit "401") && (conflict_type =s lit "device_removed")) || (conflict_type =s lit "replaced") then
      let w := with_client (set_auto_reconnect false) (expect_disconnect w) in
      record [L_event None (if conflict_type =s lit "replaced" then E_StreamReplaced else E_LoggedOut false CF_LoggedOut)] w
    else if code =s lit "503" then w
    else record [L_event None (E_StreamError code (Some node))] (expect_disconnect w) in
  notify_shutdown w.

(** [chrono::Duration::try_seconds] of an [i64], by its bound of milliseconds *)
Definition try_seconds (s : i64) : option i64 :=
  if (- ((2 ^ 63 - 1) / 1000) <=? s) && (s <=? (2 ^ 63 - 1) / 1000) then Some s else None.

Definition or_zero (o : option Z) : Z := match o with Some z => z | None => 0 end.

Definition handle_connect_failure (node : Node) (w : World) : World :=
  let w := notify_shutdown (with_client (set_expected true) w) in
  let '(reason_attr, attrs) := ap_optional_u64 (lit "reason") (ap_new node) in
  let reason := connect_failure_from (cast_i32 (or_zero reason_attr)) in
  let w :=
    if should_reconnect reason then with_client (set_expected false) w
    else with_client (set_auto_reconnect false) w in
  if is_logged_out reason then record [L_event None (E_LoggedOut true reason)] w
  else match reason with
       | CF_TempBanned =>
           let '(ban_code, attrs) := ap_optional_u64 (lit "code") attrs in
           let '(expire_secs, attrs) := ap_optional_u64 (lit "expire") attrs in
           let expire := or_zero (try_seconds (cast_i64 (or_zero expire_secs))) in
           record [L_event None (E_TemporaryBan (temp_ban_from (cast_i32 (or_zero ban_code))) expire)] w
       | CF_ClientOutdated => record [L_event None E_ClientOutdated] w
       | _ => record [L_event None (E_ConnectFailure reason (or_empty (ap_optional_string (lit "message") attrs).1) (Some node))] w
       end.

(** ** [keepalive.rs] *)

Definition KEEP_ALIVE_INTERVAL_MIN : u64 := 20000.
Definition KEEP_ALIVE_INTERVAL_MAX : u64 := 30000.
Definition KEEP_ALIVE_MAX_FAIL_TIME : u64 := 180000.
Definition KEEP_ALIVE_RESPONSE_DEADLINE : u64 := 20000.

Definition keepalive_query : InfoQuery := with_timeout KEEP_ALIVE_RESPONSE_DEADLINE (query_get (lit "w:p") server_jid None).

(** The result of [send_keepalive] once the ping was sent. *)
Definition ping_result (answer : outcome ClientIqError Node) : bool :=
  match answer with
  | Err (CI_Socket _) | Err (CI_Disconnected _) => false
  | _ => true
  end.

(** The sleep is over: the task ends or sends its ping. *)
Definition keep_tick (i : nat) (w : World) : option World :=
  match w_keeps w !! i with
  | Some (mkKeep last_success error_count K_sleep) =>
      Some (set_keep i (mkKeep last_success error_count (if is_connected (w_client w) then K_ping else K_done)) w)
  | _ => None
  end.

(** The answer to the ping, at the time [now]. *)
Definition keep_answer (i : nat) (answer : outcome ClientIqError Node) (now : i64) (w : World) : option World :=
  match w_keeps w !! i with
  | Some (mkKeep last_success error_count K_ping) =>
      Some (if ping_result answer then set_keep i (mkKeep now 0 K_sleep) w
            else
              let error_count := wrap 32 (error_count + 1) in
              if enable_auto_reconnect (w_client w) && (KEEP_ALIVE_MAX_FAIL_TIME <? now - last_success) then
                disconnect (set_keep i (mkKeep last_success error_count K_done) w)
              else set_keep i (mkKeep last_success error_count K_sleep) w)
  | _ => None
  end.

(** ** [connect] *)

(** From the call up to the joined futures. *)
Definition connect_begin (i : nat) (w : World) : World :=
  if is_connecting (w_client w) then set_run i R_decide w
  else if is_connected (w_client w) then set_run i R_decide (with_client (set_connecting false) w)
  else set_run i R_dial (record [L_attempt]
         (with_client (fun c => set_offline_done false (set_logged_in false (set_connecting true c))) w)).

(** The version, the transport and the handshake; [Dialed]: the read key. *)
Inductive Dial := VersionFailed | TransportFailed | HandshakeFailed | Dialed (read_key : bytes).

Definition connect_end (i : nat) (o : Dial) (now : i64) (w : World) : World :=
  match o with
  | VersionFailed | TransportFailed | HandshakeFailed => set_run i R_decide (with_client (set_connecting false) w)
  | Dialed read_key =>
      let conn := w_next_conn w in
      let w := mkWorld (set_link (Some conn) (Some conn) (Some (mkSocket conn read_key 0)) (w_client w)) (w_device w) (w_runs w)
                 (w_keeps w) (w_posts w) (w_log w ++ [L_up conn]) (S conn) in
      set_run i R_start (with_client (set_connecting false) (spawn_keep (mkKeep now 0 K_sleep) w))
  end.

(** ** The message loop *)

Section Loop.
Context `{HG : !AesGcm} (zlib : bytes -> option bytes) (zerr : bytes -> str).

(** The receiver is taken. *)
Definition loop_start (i : nat) (w : World) : World :=
  match transport_events (w_client w) with
  | Some _ => set_run i (R_select frame_decoder_new)
                (with_client (fun c => set_link (transport c) None (noise_socket c) c) w)
  | None => set_run i R_leave w
  end.

(** What the receiver gives; [None]: the channel is closed. *)
Definition loop_event (i : nat) (d : FrameDecoder) (ev : option TransportEvent) (w : World) : World :=
  match ev with
  | Some (DataReceived data) => set_run i (R_frames (feed data d)) w
  | Some Disconnected | None =>
      let w := with_client cleanup_connection_state w in
      set_run i R_leave (if expected_disconnect (w_client w) then w else record [L_event None E_Disconnected] w)
  | Some Connected => w
  end.

(** [Client::decrypt_frame] on the socket there is. *)
Definition loop_decrypt (frame : bytes) (w : World) : option Node * World :=
  match noise_socket (w_client w) with
  | None => (None, w)
  | Some s =>
      let '(n, counter) := client_decrypt_frame zlib zerr (Some (sk_read_key s)) frame (sk_read_counter s) in
      (n, with_client (fun c => set_link (transport c) (transport_events c)
                                  (Some (mkSocket (sk_conn s) (sk_read_key s) counter)) c) w)
  end.

Definition is_critical (n : Node) : bool :=
  (tag n =s lit "success") || (tag n =s lit "failure") || (tag n =s lit "stream:error").

(** The handlers of [handlers/basic.rs] for the critical stanzas. *)
Definition handle_critical (now : i64) (n : Node) (w : World) : World :=
  if tag n =s lit "success" then handle_success now n w
  else if tag n =s lit "failure" then handle_connect_failure n w
  else handle_stream_error n w.

Definition loop_node (now : i64) (n : option Node) (w : World) : World :=
  match n with
  | Some n => if is_critical n then handle_critical now n w else record [L_spawned n] w
  | None => w
  end.

(** One turn of the loop over the frames of the decoder. *)
Definition loop_frame (i : nat) (now : i64) (d : FrameDecoder) (w : World) : World :=
  match decode_frame d with
  | (None, d) => set_run i (R_select d) w
  | (Some frame, d) =>
      let '(n, w) := loop_decrypt frame w in
      let w := loop_node now n w in
      set_run i (if expected_disconnect (w_client w) then R_leave else R_frames d) w
  end.

(** ** [run] *)

(** The delay before attempt [n + 1], in seconds. *)
Definition reconnect_delay (error_count : u32) : u64 := Z.min (wrap 32 (error_count * 2)) 30.

Definition run_decide (i : nat) (w : World) : World :=
  let c := w_client w in
  if negb (enable_auto_reconnect c) then set_run i R_ended (with_client (set_running false) w)
  else if expected_disconnect c then set_run i R_top (with_client (set_errors 0) w)
  else set_run i (R_sleep (reconnect_delay (auto_reconnect_errors c)))
         (with_client (set_errors (wrap 32 (auto_reconnect_errors c + 1))) w).

(** The call of [run]. *)
Definition run_call (w : World) : World :=
  if is_running (w_client w) then w else spawn_run (with_client (set_running true) w).

Definition run_top (i : nat) (w : World) : World :=
  if is_running (w_client w) then connect_begin i (with_client (set_expected false) w) else set_run i R_ended w.

(** One step of a call of [run], where it depends on nothing but the state. *)
Definition run_step (i : nat) (now : i64) (w : World) : option World :=
  match w_runs w !! i with
  | Some R_top => Some (run_top i w)
  | Some R_start => Some (loop_start i w)
  | Some (R_frames d) => Some (loop_frame i now d w)
  | Some R_leave => Some (set_run i R_decide (with_client cleanup_connection_state w))
  | Some R_decide => Some (run_decide i w)
  | Some (R_sleep _) => Some (set_run i R_top w)
  | _ => None
  end.

(** ** After the login: the task of [handle_success] *)

Definition DEFAULT_PUSH_NAME : str := lit "WhatsApp Rust".

Definition post_goto (i : nat) (p : Post) (pc : PostPc) (w : World) : World := set_post i (mkPost (p_gen p) (p_force p) pc) w.

(** [check_generation!()] *)
Definition check_generation (i : nat) (p : Post) (k : World -> World) (w : World) : World :=
  if connection_generation (w_client w) =? p_gen p then k w else post_goto i p P_done w.

(** The check is passed and the operation is called; its sends come later,
    after waits of its own and without another check. *)
Definition begin_op (i : nat) (p : Post) (o : PostOp) (w : World) : World :=
  post_goto i p (P_in o (op_sends o)) (record [L_begin (p_gen p) o] w).

(** A send of the operation, over the socket there is.  The four queries of the
    background are joined, so they go out in any order. *)
Definition post_send (i : nat) (k : nat) (w : World) : option World :=
  match w_posts w !! i with
  | Some p =>
      match p_pc p with
      | P_in o todo =>
          if bool_decide (k = 0%nat \/ o = O_background) then
            match todo !! k with
            | Some op =>
                let todo := match o with O_collection _ => todo | _ => delete k todo end in
                Some (post_goto i p (P_in o todo) (record [L_sent (p_gen p) (sk_conn <$> noise_socket (w_client w)) op] w))
            | None => None
            end
          else None
      | _ => None
      end
  | None => None
  end.

(** The operation returns, with or without success and with or without having
    sent all; the announcement starts the queries in the background and
    dispatches the event. *)
Definition post_return (i : nat) (p : Post) (o : PostOp) (w : World) : World :=
  match o with
  | O_primary => post_goto i p P_active w
  | O_active => post_goto i p P_offline w
  | O_upload => post_goto i p P_presence w
  | O_presence => post_goto i p P_connected w
  | O_announce =>
      post_goto i p P_sync (record [L_event (Some (p_gen p)) E_Connected]
        (spawn_post (mkPost (p_gen p) (p_force p) P_background) w))
  | O_background => post_goto i p P_done w
  | O_collection n => post_goto i p (P_collection (S n)) w
  end.

(** The names are those of the five collections, in the order of the array. *)
Definition sync_names : nat := 5.

(** The queries in the background. *)
Definition background_step (i : nat) (p : Post) (w : World) : World :=
  check_generation i p (fun w =>
    if is_connected (w_client w) then begin_op i p O_background w else post_goto i p P_done w) w.

(** The synchronisation of the collections, one at a time. *)
Definition collection_step (i : nat) (p : Post) (n : nat) (w : World) : World :=
  if (n <? sync_names)%nat then check_generation i p (begin_op i p (O_collection n)) w
  else post_goto i p P_done (with_client (set_full_sync false) w).

(** One step: the work between two waits, or the return of an operation.  A
    wait for a notification with a timeout ends at any time. *)
Definition post_step (i : nat) (now : i64) (w : World) : option World :=
  match w_posts w !! i with
  | None => None
  | Some p =>
      match p_pc p with
      | P_start => Some (post_goto i p (match d_push_name (w_device w) with [] => P_name | _ => P_check end) w)
      | P_name =>
          Some (set_post i (mkPost (p_gen p) true P_check)
                  (on_device (apply_command_to_device now (SetPushName DEFAULT_PUSH_NAME)) w))
      | P_check =>
          Some (if is_connected (w_client w) then check_generation i p (begin_op i p O_primary) w else post_goto i p P_done w)
      | P_active => Some (check_generation i p (begin_op i p O_active) w)
      | P_offline => Some (post_goto i p (if offline_sync_completed (w_client w) then P_upload else P_offline_wait) w)
      | P_offline_wait => Some (check_generation i p (post_goto i p P_upload) w)
      | P_upload => Some (check_generation i p (begin_op i p O_upload) w)
      | P_presence =>
          Some (check_generation i p (fun w =>
            if is_connected (w_client w) then begin_op i p O_presence w else post_goto i p P_done w) w)
      | P_connected => Some (check_generation i p (begin_op i p O_announce) w)
      | P_sync =>
          Some (check_generation i p (fun w =>
            if needs_initial_full_sync (w_client w) || p_force p then
              if initial_app_state_keys_received (w_client w)
              then post_goto i p P_done (spawn_post (mkPost (p_gen p) (p_force p) (P_collection 0)) w)
              else post_goto i p P_sync_wait w
            else post_goto i p P_done w) w)
      | P_sync_wait =>
          Some (check_generation i p (fun w =>
            post_goto i p P_done (spawn_post (mkPost (p_gen p) (p_force p) (P_collection 0)) w)) w)
      | P_background => Some (background_step i p w)
      | P_collection n => Some (collection_step i p n w)
      | P_in o _ => Some (post_return i p o w)
      | P_done => None
      end
  end.

(** ** All tasks together *)

(** What the tasks that handle other stanzas, and callers of the client, do to
    the shared state: a call of [disconnect], an [<xmlstreamend>], the end of
    the pairing ([auth/pair.rs]), the end of the offline messages
    ([handlers/ib.rs]), the first share of app-state keys ([message.rs]). *)
Inductive TaskOp := T_disconnect | T_xmlstreamend | T_paired | T_offline_done | T_keys.

Definition task_op (o : TaskOp) (w : World) : World :=
  match o with
  | T_disconnect => disconnect w
  | T_xmlstreamend => notify_shutdown w
  | T_paired => with_client (fun c => set_expected true (set_full_sync true c)) w
  | T_offline_done => with_client (set_offline_done true) w
  | T_keys => with_client (set_keys_received true) w
  end.

Inductive Label :=
| Do_run_call
| Do_run (i : nat) (now : i64)
| Do_dial (i : nat) (o : Dial) (now : i64)
| Do_event (i : nat) (ev : option TransportEvent)
| Do_tick (i : nat)
| Do_answer (i : nat) (answer : outcome ClientIqError Node) (now : i64)
| Do_post (i : nat) (now : i64)
| Do_send (i : nat) (k : nat)
| Do_task (o : TaskOp).

Definition exec (l : Label) (w : World) : option World :=
  match l with
  | Do_run_call => Some (run_call w)
  | Do_run i now => run_step i now w
  | Do_dial i o now => match w_runs w !! i with Some R_dial => Some (connect_end i o now w) | _ => None end
  | Do_event i ev => match w_runs w !! i with Some (R_select d) => Some (loop_event i d ev w) | _ => None end
  | Do_tick i => keep_tick i w
  | Do_answer i answer now => keep_answer i answer now w
  | Do_post i now => post_step i now w
  | Do_send i k => post_send i k w
  | Do_task o => Some (task_op o w)
  end.

Fixpoint execs (ls : list Label) (w : World) : option World :=
  match ls with
  | [] => Some w
  | l :: ls => match exec l w with Some w => execs ls w | None => None end
  end.

Definition world_new (d : Device) : World := mkWorld flags_new d [] [] [] [] 0.

Inductive reachable (d : Device) : World -> Prop :=
| reach_new : reachable d (world_new d)
| reach_exec w l w' : reachable d w -> exec l w = Some w' -> reachable d w'.
End Loop.

(** ** Waiting for the client *)

(** [wait_for_socket] and [wait_for_connected]: the condition holds at the
    call, or after the waiter is registered, or the notification comes before
    the timeout. *)
Definition wait_for_socket (before after : ClientFlags) (notified : bool) : bool :=
  if is_connected before then true else if is_connected after then true else notified.
Definition wait_for_connected (before after : ClientFlags) (notified : bool) : bool :=
  if is_connected before && is_logged_in before then true
  else if is_connected after && is_logged_in after then true else notified.

(** ** Lemmas: the shape of a step *)

(** The generation an entry of the log speaks for. *)
Definition entry_gen (e : Entry) : option u64 :=
  match e with L_login g _ | L_begin g _ | L_sent g _ _ => Some g | L_event g _ => g | _ => None end.

(** The same, of the entries that are made right at a look at the generation. *)
Definition began_gen (e : Entry) : option u64 := match e with L_login g _ | L_begin g _ => Some g | _ => None end.

Definition op_of (op : NetOp) : PostOp :=
  match op with
  | N_primary_session => O_primary
  | N_active => O_active
  | N_pre_key_count | N_upload_pre_keys => O_upload
  | N_available => O_presence
  | N_props | N_blocklist | N_privacy | N_digest => O_background
  | N_collection i => O_collection i
  end.

(** The operation of a login that an entry is the work of. *)
Definition performed (e : Entry) : option (u64 * PostOp) :=
  match e with
  | L_sent g _ op => Some (g, op_of op)
  | L_event (Some g) _ => Some (g, O_announce)
  | _ => None
  end.

(** What a login does at most once: begin an operation, send one of its stanzas
    (but for the collections), announce the connection. *)
Inductive Mark := M_begin (o : PostOp) | M_send (op : NetOp) | M_announce.
#[export] Instance Mark_eq_dec : EqDecision Mark.
Proof. solve_decision. Defined.

Definition send_mark (op : NetOp) : option Mark := match op with N_collection _ => None | _ => Some (M_send op) end.
Definition mark_of (g : u64) (e : Entry) : option Mark :=
  match e with
  | L_begin g' o => if g =? g' then Some (M_begin o) else None
  | L_sent g' _ op => if g =? g' then send_mark op else None
  | L_event (Some g') E_Connected => if g =? g' then Some M_announce else None
  | _ => None
  end.
Definition marks (g : u64) (log : list Entry) : list Mark := omap (mark_of g) log.

(** What a task can still do, with the tasks it will start. *)
Definition op_marks (o : PostOp) : list Mark := M_begin o :: omap send_mark (op_sends o).
Definition collections (n : nat) : list Mark := map (fun i => M_begin (O_collection i)) (seq n (sync_names - n)).
Definition announcing : list Mark := M_announce :: op_marks O_background ++ collections 0.
Definition from_connected : list Mark := M_begin O_announce :: announcing.
Definition from_presence : list Mark := op_marks O_presence ++ from_connected.
Definition from_upload : list Mark := op_marks O_upload ++ from_presence.
Definition from_active : list Mark := op_marks O_active ++ from_upload.
Definition whole : list Mark := op_marks O_primary ++ from_active.

Definition after (o : PostOp) : list Mark :=
  match o with
  | O_primary => from_active
  | O_active => from_upload
  | O_upload => from_presence
  | O_presence => from_connected
  | O_announce => announcing
  | O_background => []
  | O_collection n => collections (S n)
  end.

Definition to_come (pc : PostPc) : list Mark :=
  match pc with
  | P_start | P_name | P_check => whole
  | P_active => from_active
  | P_offline | P_offline_wait | P_upload => from_upload
  | P_presence => from_presence
  | P_connected => from_connected
  | P_sync | P_sync_wait => collections 0
  | P_background => op_marks O_background
  | P_collection n => collections n
  | P_in o todo => omap send_mark todo ++ after o
  | P_done => []
  end.

(** The operation a task is in; what it has left to send is of that operation. *)
Definition inside (pc : PostPc) : option PostOp := match pc with P_in o _ => Some o | _ => None end.
Definition pc_wf (pc : PostPc) : Prop := match pc with P_in o todo => Forall (fun op => op_of op = o) todo | _ => True end.

Definition is_login (e : Entry) : bool := match e with L_login _ _ => true | _ => false end.
Definition is_attempt (e : Entry) : bool := match e with L_attempt => true | _ => false end.

(** What a step of the task [p] logs, and where it and the tasks it starts go. *)
Record post_entry (w : World) (p : Post) (pc : PostPc) (news : list PostPc) (es : list Entry) : Prop := {
  pe_gen : Forall (fun e => entry_gen e = Some (p_gen p) /\ is_login e = false) es;
  pe_began : Forall (fun e => began_gen e = None \/ connection_generation (w_client w) = p_gen p) es;
  pe_performed : Forall (fun e => forall g o, performed e = Some (g, o) -> g = p_gen p /\ inside (p_pc p) = Some o) es;
  pe_inside : forall o, inside pc = Some o -> inside (p_pc p) = Some o \/ L_begin (p_gen p) o ∈ es;
  pe_news : Forall (fun pc => inside pc = None) news;
  pe_wf : pc_wf pc;
  pe_marks : marks (p_gen p) es ++ to_come pc ++ concat (map to_come news) ⊆+ to_come (p_pc p)
}.

(** How a step changes the tasks of logins, the generation and the log. *)
Inductive shape (w w' : World) : Prop :=
| shape_neutral es :
    w_posts w' = w_posts w -> connection_generation (w_client w') = connection_generation (w_client w) ->
    w_log w' = w_log w ++ es -> Forall (fun e => entry_gen e = None) es -> shape w w'
| shape_login conn :
    let g := wrap 64 (connection_generation (w_client w) + 1) in
    w_posts w' = w_posts w ++ [mkPost g false P_start] -> connection_generation (w_client w') = g ->
    w_log w' = w_log w ++ [L_login g conn] -> shape w w'
| shape_post i p f pc news es :
    w_posts w !! i = Some p ->
    w_posts w' = <[i := mkPost (p_gen p) f pc]> (w_posts w) ++ map (mkPost (p_gen p) f) news ->
    connection_generation (w_client w') = connection_generation (w_client w) ->
    w_log w' = w_log w ++ es ->
    (pc_wf (p_pc p) -> post_entry w p pc news es) -> shape w w'.

Lemma neutral_shape w w' es :
  w_posts w' = w_posts w -> connection_generation (w_client w') = connection_generation (w_client w) ->
  w_log w' = w_log w ++ es -> Forall (fun e => entry_gen e = None) es -> shape w w'.
Proof. intros. by eapply shape_neutral. Qed.

(** A step of a run task that keeps the tasks of logins and the generation. *)
Ltac neutral :=
  first [ eapply (neutral_shape _ _ []); [reflexivity|reflexivity|by rewrite app_nil_r|by constructor]
        | eapply (neutral_shape _ _ [_]); [reflexivity|reflexivity|reflexivity|by repeat constructor] ].

Lemma disconnect_shape w : shape w (disconnect w).
Proof. unfold disconnect. cbn. destruct (transport (w_client w)); neutral. Qed.

Lemma success_shape now n w : shape w (handle_success now n w).
Proof.
  unfold handle_success. destruct (expected_disconnect _); [neutral|]. destruct (is_logged_in _); [neutral|].
  eapply shape_login; repeat case_match; reflexivity.
Qed.

Lemma stream_error_shape n w : shape w (handle_stream_error n w).
Proof. unfold handle_stream_error. repeat case_match; neutral. Qed.

Lemma failure_shape n w : shape w (handle_connect_failure n w).
Proof. unfold handle_connect_failure. repeat case_match; neutral. Qed.

(** A step before or after one that leaves these parts alone. *)
Lemma shape_proj w1 w2 w1' w2' :
  (w_posts w1' = w_posts w1 /\ w_log w1' = w_log w1
   /\ connection_generation (w_client w1') = connection_generation (w_client w1)) ->
  (w_posts w2' = w_posts w2 /\ w_log w2' = w_log w2
   /\ connection_generation (w_client w2') = connection_generation (w_client w2)) ->
  shape w1 w2 -> shape w1' w2'.
Proof.
  intros (P1 & L1 & G1) (P2 & L2 & G2) [].
  - eapply (shape_neutral _ _ es); congruence.
  - eapply (shape_login _ _ conn); unfold g in *; congruence.
  - eapply (shape_post _ _ i p f pc news es); rewrite ?P2, ?P1, ?L1, ?L2, ?G1, ?G2; try done.
    intros Hwf. match goal with H : pc_wf _ -> _ |- _ => destruct (H Hwf) end. split; try done. by rewrite G1.
Qed.

Section Shape.
Context `{HG : !AesGcm} (zlib : bytes -> option bytes) (zerr : bytes -> str).

Lemma node_shape now n w : shape w (loop_node now n w).
Proof.
  unfold loop_node, handle_critical. destruct n as [n|]; [|neutral]. destruct (is_critical n); [|neutral].
  destruct (tag n =s lit "success"); [apply success_shape|].
  destruct (tag n =s lit "failure"); [apply failure_shape|apply stream_error_shape].
Qed.

Lemma decrypt_same f w n w' :
  loop_decrypt zlib zerr f w = (n, w') ->
  w_posts w' = w_posts w /\ w_log w' = w_log w /\ w_runs w' = w_runs w /\ w_keeps w' = w_keeps w
  /\ w_next_conn w' = w_next_conn w
  /\ exists s, w_client w' = set_link (transport (w_client w)) (transport_events (w_client w)) s (w_client w).
Proof.
  unfold loop_decrypt. destruct (noise_socket (w_client w)) as [s|] eqn:Hs.
  - destruct (client_decrypt_frame _ _ _ _ _). intros [= _ <-]. split_and!; [done..|]. by eexists.
  - intros [= _ <-]. split_and!; [done..|]. exists None. destruct w as [[]]. cbn in *. by subst.
Qed.

Lemma run_step_shape i now w w' : run_step zlib zerr i now w = Some w' -> shape w w'.
Proof.
  unfold run_step. destruct (w_runs w !! i) as [ [| | | |d| | | |]|]; try done; intros [= <-].
  - unfold run_top, connect_begin. repeat case_match; neutral.
  - unfold loop_start. repeat case_match; neutral.
  - unfold loop_frame. destruct (decode_frame d) as [[frame|] d']; [|neutral].
    destruct (loop_decrypt _ _ _ _) as [n w1] eqn:Hd. apply decrypt_same in Hd as (P & L & _ & _ & _ & s & C).
    eapply (shape_proj w1 (loop_node now n w1)); [|by split_and!|apply node_shape]. split_and!; [done..|by rewrite C].
  - neutral.
  - unfold run_decide. repeat case_match; neutral.
  - neutral.
Qed.

Lemma collections_step n : (n < sync_names)%nat -> collections n = M_begin (O_collection n) :: collections (S n).
Proof. intros H. unfold collections. by replace (sync_names - n)%nat with (S (sync_names - S n)) by lia. Qed.

(** The obligations of [shape_post]. *)
Ltac post_shape p news :=
  eapply (shape_post _ _ _ p _ _ news); cbn;
    [ eassumption
    | rewrite ?app_nil_r; first [reflexivity | by rewrite insert_app_l by (eapply lookup_lt_Some; eassumption)]
    | reflexivity
    | first [reflexivity | symmetry; apply app_nil_r]
    | ].

(** A step that logs nothing and only moves on. *)
Lemma entry_silent w p pc news :
  inside pc = None -> Forall (fun pc => inside pc = None) news ->
  to_come pc ++ concat (map to_come news) ⊆+ to_come (p_pc p) -> post_entry w p pc news [].
Proof. intros Hi Hn Hm. split; try done; try by constructor. - intros o. by rewrite Hi. - by destruct pc. Qed.

Lemma op_sends_of o : Forall (fun op => op_of op = o) (op_sends o).
Proof. destruct o; by repeat constructor. Qed.

(** The begin of an operation, right after the check. *)
Lemma entry_begin w p o :
  connection_generation (w_client w) = p_gen p -> op_marks o ++ after o ⊆+ to_come (p_pc p) ->
  post_entry w p (P_in o (op_sends o)) [] [L_begin (p_gen p) o].
Proof.
  intros Hg Hm. split; try (by repeat constructor).
  - intros o' [= <-]. right. apply list_elem_of_here.
  - apply op_sends_of.
  - cbn. rewrite Z.eqb_refl, app_nil_r. exact Hm.
Qed.

Lemma begin_shape i p o w :
  w_posts w !! i = Some p -> connection_generation (w_client w) = p_gen p ->
  op_marks o ++ after o ⊆+ to_come (p_pc p) -> shape w (begin_op i p o w).
Proof. intros. post_shape p (@nil PostPc). intros _. by apply entry_begin. Qed.

Lemma goto_shape i p pc w :
  w_posts w !! i = Some p -> inside pc = None -> to_come pc ⊆+ to_come (p_pc p) -> shape w (post_goto i p pc w).
Proof. intros. post_shape p (@nil PostPc). intros _. apply entry_silent; [done|constructor|by rewrite app_nil_r]. Qed.

Lemma check_shape i p k w :
  w_posts w !! i = Some p -> (connection_generation (w_client w) = p_gen p -> shape w (k w)) ->
  shape w (check_generation i p k w).
Proof.
  intros Hp Hk. unfold check_generation. destruct (Z.eqb_spec (connection_generation (w_client w)) (p_gen p)); [auto|].
  apply goto_shape; [done|done|apply submseteq_nil_l].
Qed.

(** A task that ends after it has started another. *)
Lemma spawn_shape i p pc pc' w :
  w_posts w !! i = Some p -> inside pc = None -> inside pc' = None -> to_come pc ++ to_come pc' ⊆+ to_come (p_pc p) ->
  shape w (post_goto i p pc (spawn_post (mkPost (p_gen p) (p_force p) pc') w)).
Proof.
  intros Hp H1 H2 Hm. post_shape p [pc']. intros _. apply entry_silent; [done|by constructor|]. cbn. by rewrite app_nil_r.
Qed.

Lemma return_shape i p o todo w :
  w_posts w !! i = Some p -> p_pc p = P_in o todo -> shape w (post_return i p o w).
Proof.
  intros Hp Hpc. destruct o; cbn [post_return];
    try (apply goto_shape; [done|done|rewrite Hpc; cbn [to_come after]; by apply submseteq_inserts_l]).
  post_shape p [P_background]. intros _. split; try (by repeat constructor).
  - constructor; [|constructor]. cbn. rewrite Hpc. naive_solver.
  - rewrite Hpc. cbn [to_come after]. apply submseteq_inserts_l. unfold announcing.
    cbn. rewrite Z.eqb_refl. solve_submseteq.
Qed.

Lemma post_step_shape i now w w' : post_step i now w = Some w' -> shape w w'.
Proof.
  unfold post_step. destruct (w_posts w !! i) as [p|] eqn:Hp; [|done].
  destruct (p_pc p) as [| | | | | | | | | | | |n|o todo|] eqn:Hpc; intros [= <-].
  14: by eapply return_shape.
  all: unfold background_step, collection_step.
  - apply goto_shape; [done|by case_match|rewrite Hpc; by case_match].
  - post_shape p (@nil PostPc). intros _. apply entry_silent; [done|constructor|by rewrite Hpc, app_nil_r].
  - destruct (is_connected _); [|apply goto_shape; [done|done|apply submseteq_nil_l] ].
    apply check_shape; [done|]. intros Hg. apply begin_shape; [done|done|by rewrite Hpc].
  - apply check_shape; [done|]. intros Hg. apply begin_shape; [done|done|by rewrite Hpc].
  - apply goto_shape; [done|by case_match|rewrite Hpc; by case_match].
  - apply check_shape; [done|]. intros Hg. apply goto_shape; [done|done|by rewrite Hpc].
  - apply check_shape; [done|]. intros Hg. apply begin_shape; [done|done|by rewrite Hpc].
  - apply check_shape; [done|]. intros Hg. destruct (is_connected _); [|apply goto_shape; [done|done|apply submseteq_nil_l] ].
    apply begin_shape; [done|done|by rewrite Hpc].
  - apply check_shape; [done|]. intros Hg. apply begin_shape; [done|done|by rewrite Hpc].
  - apply check_shape; [done|]. intros Hg. repeat case_match.
    + apply spawn_shape; [done|done|done|by rewrite Hpc].
    + apply goto_shape; [done|done|by rewrite Hpc].
    + apply goto_shape; [done|done|apply submseteq_nil_l].
  - apply check_shape; [done|]. intros Hg. apply spawn_shape; [done|done|done|by rewrite Hpc].
  - apply check_shape; [done|]. intros Hg. destruct (is_connected _); [|apply goto_shape; [done|done|apply submseteq_nil_l] ].
    apply begin_shape; [done|done|rewrite Hpc; cbn [after]; by rewrite app_nil_r].
  - destruct (Nat.ltb_spec n sync_names).
    + apply check_shape; [done|]. intros Hg. apply begin_shape; [done|done|rewrite Hpc; cbn [to_come after]; by rewrite (collections_step n)].
    + post_shape p (@nil PostPc). intros _. apply entry_silent; [done|constructor|apply submseteq_nil_l].
Qed.

Lemma post_send_shape i k w w' : post_send i k w = Some w' -> shape w w'.
Proof.
  unfold post_send. destruct (w_posts w !! i) as [p|] eqn:Hp; [|done]. destruct (p_pc p) as [| | | | | | | | | | | |n|o todo|] eqn:Hpc; try done.
  case_bool_decide; [|done]. destruct (todo !! k) as [op|] eqn:Hk; [|done]. intros [= <-]. post_shape p (@nil PostPc).
  rewrite Hpc. cbn [pc_wf]. intros Hwf. pose proof (Forall_lookup_1 _ _ _ _ Hwf Hk) as Ho. cbn in Ho.
  assert (todo ≡ₚ op :: delete k todo) as Hd by (by apply delete_Permutation).
  split; try (by repeat constructor).
  - constructor; [|constructor]. cbn. rewrite Hpc. naive_solver.
  - intros o' [= <-]. left. by rewrite Hpc.
  - cbn. case_match; try done; by apply Forall_delete.
  - rewrite Hpc. cbn [to_come map concat]. rewrite app_nil_r, app_assoc. apply submseteq_skips_r.
    assert (marks (p_gen p) [L_sent (p_gen p) (sk_conn <$> noise_socket (w_client w)) op] = omap send_mark [op]) as ->
      by (unfold marks; cbn; by rewrite Z.eqb_refl).
    assert (omap send_mark [op] ++ omap send_mark (delete k todo) ≡ₚ omap send_mark todo) as Hs
      by (rewrite <- omap_app; symmetry; by apply omap_Permutation).
    destruct o; try (by rewrite Hs). by destruct op.
Qed.

Lemma exec_shape l w w' : exec zlib zerr l w = Some w' -> shape w w'.
Proof.
  destruct l as [|i now|i o now|i ev|i|i a now|i now|i k|o]; cbn [exec].
  - intros [= <-]. unfold run_call. case_match; neutral.
  - apply run_step_shape.
  - destruct (w_runs w !! i) as [ []|]; try done. intros [= <-]. destruct o; neutral.
  - destruct (w_runs w !! i) as [ []|]; try done. intros [= <-]. unfold loop_event. repeat case_match; neutral.
  - unfold keep_tick. repeat case_match; try done; intros [= <-]; neutral.
  - unfold keep_answer. destruct (w_keeps w !! i) as [ [ls ec [] ]|]; try done. intros [= <-].
    repeat case_match; try neutral.
    eapply (shape_proj (set_keep i (mkKeep ls (wrap 32 (ec + 1)) K_done) w)); [|by split_and!|apply disconnect_shape]. done.
  - apply post_step_shape.
  - apply post_send_shape.
  - intros [= <-]. destruct o; try neutral. apply disconnect_shape.
Qed.

End Shape.

(** ** Lemmas: counting *)

Definition count {A} (f : A -> bool) (l : list A) : nat := length (List.filter f l).
#[local] Arguments count : simpl never.

Lemma count_app {A} (f : A -> bool) (l k : list A) : count f (l ++ k) = (count f l + count f k)%nat.
Proof. unfold count. by rewrite List.filter_app, length_app. Qed.
Lemma count_cons {A} (f : A -> bool) x (l : list A) : count f (x :: l) = ((if f x then 1 else 0) + count f l)%nat.
Proof. unfold count. cbn. by destruct (f x). Qed.
Lemma count_nil {A} (f : A -> bool) : count f [] = 0%nat.
Proof. done. Qed.
Lemma count_none {A} (f : A -> bool) (l : list A) : Forall (fun x => f x = false) l -> count f l = 0%nat.
Proof. induction 1 as [|x l Hx _ IH]; [done|]. by rewrite count_cons, Hx, IH. Qed.
Lemma count_insert {A} (f : A -> bool) i x y (l : list A) :
  l !! i = Some x ->
  (count f (<[i := y]> l) + (if f x then 1 else 0) = count f l + (if f y then 1 else 0))%nat.
Proof.
  revert i. induction l as [|z l IH]; intros [|i] H; try done.
  - injection H as ->. change (<[0%nat := y]> (x :: l)) with (y :: l). rewrite !count_cons. lia.
  - change (<[S i := y]> (z :: l)) with (z :: <[i := y]> l). rewrite !count_cons. specialize (IH i H). lia.
Qed.

Lemma sorted_snoc (l es : list Z) m :
  StronglySorted Z.le l -> Forall (fun g => g <= m) l -> Forall (fun g => g = m) es -> StronglySorted Z.le (l ++ es).
Proof.
  intros Hs Hl He. induction Hs as [|x l Hs IH Hx].
  - induction He as [|e es -> He IHe]; constructor; [done|]. eapply Forall_impl; [exact He|]. cbn. lia.
  - apply Forall_cons in Hl as [Hxm Hl]. cbn. constructor; [auto|].
    apply Forall_app. split; [done|]. eapply Forall_impl; [exact He|]. cbn. lia.
Qed.

(** ** The invariant of the logins *)

Definition logins (w : World) : nat := count is_login (w_log w).
Definition tasks_of (g : u64) (ps : list Post) : list Mark :=
  concat (map (fun p => if p_gen p =? g then to_come (p_pc p) else []) ps).

(** The work of a login stands after the begin of its operation. *)
Definition backed (log : list Entry) : Prop :=
  forall k e g o, log !! k = Some e -> performed e = Some (g, o) -> exists j, (j < k)%nat /\ log !! j = Some (L_begin g o).

(** As long as the generation has not wrapped: it counts the logins, the tasks
    and the entries of the log are of logins that were; what a login did and
    what its tasks can still do is each of it once; logins and begins are in
    order; and a task inside an operation has begun it. *)
Record login_inv (w : World) : Prop := {
  li_gen : connection_generation (w_client w) = Z.of_nat (logins w);
  li_posts : Forall (fun p => 0 < p_gen p <= connection_generation (w_client w)) (w_posts w);
  li_log : Forall (fun e => forall g, entry_gen e = Some g -> 0 < g <= connection_generation (w_client w)) (w_log w);
  li_once : forall g, marks g (w_log w) ++ tasks_of g (w_posts w) ⊆+ whole;
  li_sorted : StronglySorted Z.le (omap began_gen (w_log w));
  li_wf : Forall (fun p => pc_wf (p_pc p)) (w_posts w);
  li_inside : Forall (fun p => forall o, inside (p_pc p) = Some o -> L_begin (p_gen p) o ∈ w_log w) (w_posts w);
  li_backed : backed (w_log w)
}.

Lemma login_of_gen e : is_login e = true -> entry_gen e <> None.
Proof. by destruct e. Qed.
Lemma performed_gen e g o : performed e = Some (g, o) -> entry_gen e = Some g.
Proof. destruct e as [| |[]| | | | |]; cbn; naive_solver. Qed.
Lemma began_entry e g : began_gen e = Some g -> entry_gen e = Some g.
Proof. by destruct e. Qed.

Lemma marks_app g l k : marks g (l ++ k) = marks g l ++ marks g k.
Proof. apply omap_app. Qed.

(** Entries of other generations carry no mark. *)
Lemma marks_none g es : Forall (fun e => entry_gen e <> Some g) es -> marks g es = [].
Proof.
  induction 1 as [|e es He _ IH]; [done|]. unfold marks in *. cbn [omap list_omap]. fold (omap (mark_of g) es). rewrite IH.
  assert (mark_of g e = None) as ->; [|done].
  destruct e as [| |[g'|] []| | | | |]; cbn in *; try done;
    match goal with |- context [g =? ?x] => destruct (Z.eqb_spec g x) end; congruence.
Qed.

Lemma tasks_app g l k : tasks_of g (l ++ k) = tasks_of g l ++ tasks_of g k.
Proof. unfold tasks_of. by rewrite map_app, concat_app. Qed.

Lemma tasks_none g ps : Forall (fun p => p_gen p <> g) ps -> tasks_of g ps = [].
Proof. induction 1 as [|p ps Hp _ IH]; [done|]. unfold tasks_of in *. cbn. destruct (Z.eqb_spec (p_gen p) g); [done|exact IH]. Qed.

Lemma tasks_same g f news : tasks_of g (map (mkPost g f) news) = concat (map to_come news).
Proof. unfold tasks_of. rewrite map_map. cbn. by rewrite Z.eqb_refl. Qed.

(** One task replaced: the rest stays. *)
Lemma tasks_insert g i p ps :
  ps !! i = Some p -> exists rest, tasks_of g ps ≡ₚ (if p_gen p =? g then to_come (p_pc p) else []) ++ rest
    /\ forall q, tasks_of g (<[i := q]> ps) ≡ₚ (if p_gen q =? g then to_come (p_pc q) else []) ++ rest.
Proof.
  intros Hi. exists (tasks_of g (take i ps ++ drop (S i) ps)). split.
  - rewrite <- (take_drop_middle ps i p) at 1 by done. change (p :: drop (S i) ps) with ([p] ++ drop (S i) ps).
    rewrite !tasks_app. unfold tasks_of at 2. cbn. rewrite app_nil_r. solve_Permutation.
  - intros q. rewrite insert_take_drop by (by eapply lookup_lt_Some).
    change (q :: drop (S i) ps) with ([q] ++ drop (S i) ps).
    rewrite !tasks_app. unfold tasks_of at 2. cbn. rewrite app_nil_r. solve_Permutation.
Qed.

Lemma gens_bounded m es :
  Forall (fun e => forall g, entry_gen e = Some g -> 0 < g <= m) es -> Forall (fun g => g <= m) (omap began_gen es).
Proof.
  induction 1 as [|e es He _ IH]; [constructor|]. cbn. destruct (began_gen e) as [g|] eqn:E; [|done].
  constructor; [|done]. apply began_entry in E. specialize (He g E). lia.
Qed.

Lemma backed_app log es :
  backed log -> Forall (fun e => forall g o, performed e = Some (g, o) -> L_begin g o ∈ log) es -> backed (log ++ es).
Proof.
  intros Hb He k e g o Hk Hp. apply lookup_app_Some in Hk as [Hk|[Hlen Hk] ].
  - destruct (Hb k e g o Hk Hp) as (j & Hj & E). exists j. split; [done|]. by apply lookup_app_l_Some.
  - pose proof (Forall_lookup_1 _ _ _ _ He Hk g o Hp) as Hin. apply list_elem_of_lookup in Hin as (j & Hj).
    exists j. pose proof (lookup_lt_Some _ _ _ Hj). split; [lia|]. by apply lookup_app_l_Some.
Qed.

Lemma inside_app log es ps :
  Forall (fun p => forall o, inside (p_pc p) = Some o -> L_begin (p_gen p) o ∈ log) ps ->
  Forall (fun p => forall o, inside (p_pc p) = Some o -> L_begin (p_gen p) o ∈ log ++ es) ps.
Proof. intros H. eapply Forall_impl; [exact H|]. cbn. intros p Hp o Ho. apply elem_of_app. left. auto. Qed.

Lemma inv_neutral w w' es :
  w_posts w' = w_posts w -> connection_generation (w_client w') = connection_generation (w_client w) ->
  w_log w' = w_log w ++ es -> Forall (fun e => entry_gen e = None) es -> login_inv w -> login_inv w'.
Proof.
  intros Hp Hg Hl He [I1 I2 I3 I4 I5 I6 I7 I8].
  assert (count is_login es = 0%nat) as Hc.
  { apply count_none. eapply Forall_impl; [exact He|]. cbn. intros e Hn. destruct (is_login e) eqn:E; [|done].
    by apply login_of_gen in E. }
  split; unfold logins in *; rewrite ?Hp, ?Hg, ?Hl, ?count_app, ?Hc; try done.
  - by rewrite Nat.add_0_r.
  - apply Forall_app. split; [done|]. eapply Forall_impl; [exact He|]. cbn. congruence.
  - intros g. rewrite marks_app, (marks_none g es), app_nil_r by (eapply Forall_impl; [exact He|]; cbn; congruence). apply I4.
  - rewrite omap_app. replace (omap began_gen es) with (@nil Z); [by rewrite app_nil_r|].
    clear -He. induction He as [|e es H _ IH]; [done|]. cbn. destruct (began_gen e) eqn:E; [|done]. apply began_entry in E. congruence.
  - by apply inside_app.
  - apply backed_app; [done|]. eapply Forall_impl; [exact He|]. cbn. intros e Hn g o E. apply performed_gen in E. congruence.
Qed.

Lemma inv_login w w' conn :
  let g := wrap 64 (connection_generation (w_client w) + 1) in
  w_posts w' = w_posts w ++ [mkPost g false P_start] -> connection_generation (w_client w') = g ->
  w_log w' = w_log w ++ [L_login g conn] -> Z.of_nat (logins w') < 2 ^ 64 -> login_inv w -> login_inv w'.
Proof.
  intros g Hp Hg Hl Hb [I1 I2 I3 I4 I5 I6 I7 I8].
  assert (logins w' = S (logins w)) as Hn by (unfold logins; rewrite Hl, count_app, count_cons, count_nil; cbn; lia).
  assert (g = connection_generation (w_client w) + 1) as Eg by (unfold g; apply wrap_small; rewrite I1; lia).
  assert (Forall (fun e => entry_gen e <> Some g) (w_log w)) as Hno.
  { eapply Forall_impl; [exact I3|]. cbn. intros e He E. specialize (He g E). lia. }
  split; rewrite ?Hp, ?Hg, ?Hl.
  - lia.
  - apply Forall_app. split; [|by apply Forall_singleton; cbn; lia]. eapply Forall_impl; [exact I2|]. cbn. lia.
  - apply Forall_app. split; [|by apply Forall_singleton; cbn; intros ? [= <-]; lia].
    eapply Forall_impl; [exact I3|]. cbn. intros e He g' E. specialize (He g' E). lia.
  - intros g'. rewrite marks_app, tasks_app, app_nil_r. destruct (Z.eqb_spec g g') as [<-|Ng].
    + rewrite (marks_none g (w_log w)) by done.
      rewrite (tasks_none g (w_posts w)) by (eapply Forall_impl; [exact I2|]; cbn; intros; lia).
      unfold tasks_of. cbn. by rewrite Z.eqb_refl.
    + rewrite (tasks_none g' [mkPost g false P_start]) by (by repeat constructor). rewrite app_nil_r. apply I4.
  - rewrite omap_app. apply (sorted_snoc _ _ g); [done| |by repeat constructor].
    eapply Forall_impl; [by apply gens_bounded|]. cbn. lia.
  - apply Forall_app. split; [done|by repeat constructor].
  - apply Forall_app. split; [by apply inside_app|by repeat constructor].
  - apply backed_app; [done|by repeat constructor].
Qed.

Lemma inv_post w w' i p f pc news es :
  w_posts w !! i = Some p ->
  w_posts w' = <[i := mkPost (p_gen p) f pc]> (w_posts w) ++ map (mkPost (p_gen p) f) news ->
  connection_generation (w_client w') = connection_generation (w_client w) ->
  w_log w' = w_log w ++ es ->
  (pc_wf (p_pc p) -> post_entry w p pc news es) -> login_inv w -> login_inv w'.
Proof.
  intros Hi Hp Hg Hl Hpe [I1 I2 I3 I4 I5 I6 I7 I8].
  destruct (Hpe (Forall_lookup_1 _ _ _ _ I6 Hi)) as [E1 E2 E3 E4 E5 E6 E7].
  assert (0 < p_gen p <= connection_generation (w_client w)) as Hpg by (by eapply Forall_lookup_1 in I2).
  pose proof (Forall_lookup_1 _ _ _ _ I7 Hi) as Hin. cbn in Hin.
  assert (count is_login es = 0%nat) as Hc by (apply count_none; eapply Forall_impl; [exact E1|]; by cbn; intros ? []).
  split; unfold logins in *; rewrite ?Hp, ?Hg, ?Hl.
  - by rewrite count_app, Hc, Nat.add_0_r.
  - apply Forall_app. split; [by apply Forall_insert|]. apply Forall_fmap. by apply Forall_true.
  - apply Forall_app. split; [done|]. eapply Forall_impl; [exact E1|]. cbn. intros e [-> _] g [= <-]. done.
  - intros g. specialize (I4 g). destruct (tasks_insert g i p _ Hi) as (rest & H1 & H2).
    rewrite marks_app, tasks_app, (H2 (mkPost (p_gen p) f pc)). rewrite H1 in I4. cbn [p_gen p_pc] in *.
    destruct (Z.eqb_spec (p_gen p) g) as [<-|Ng].
    + rewrite tasks_same. etrans; [|exact I4]. rewrite <- app_assoc. apply submseteq_skips_l.
      etrans; [|apply submseteq_skips_r, E7]. apply Permutation_submseteq. solve_Permutation.
    + rewrite (marks_none g es) by (eapply Forall_impl; [exact E1|]; cbn; intros e [-> _]; congruence).
      rewrite (tasks_none g (map _ _)) by (apply Forall_fmap; by apply Forall_true). by rewrite !app_nil_r.
  - rewrite omap_app. apply (sorted_snoc _ _ (connection_generation (w_client w))); [done|by apply gens_bounded|].
    clear -E1 E2. induction es as [|e es IH]; [constructor|]. apply Forall_cons in E1 as [[H1 _] E1], E2 as [H2 E2]. cbn.
    destruct (began_gen e) eqn:E; [|auto]. destruct H2 as [|H2]; [done|]. apply began_entry in E. constructor; [congruence|auto].
  - apply Forall_app. split; [by apply Forall_insert|]. apply Forall_fmap. eapply Forall_impl; [exact E5|]. by intros [].
  - apply Forall_app. split.
    + apply Forall_insert; [by apply inside_app|]. cbn. intros o Ho. apply elem_of_app. destruct (E4 o Ho) as [H|H]; [left; auto|by right].
    + apply Forall_fmap. eapply Forall_impl; [exact E5|]. cbn. intros q Hq o. by rewrite Hq.
  - apply backed_app; [done|]. eapply Forall_impl; [exact E3|]. cbn. intros e He g o E. destruct (He g o E) as [-> Ho]. auto.
Qed.

Lemma logins_mono w w' : shape w w' -> (logins w <= logins w')%nat.
Proof. unfold logins. intros []; match goal with H : w_log w' = _ |- _ => rewrite H end; rewrite count_app; lia. Qed.

Lemma sorted_lookup {A} (f : A -> option Z) (l : list A) j k x y a b :
  StronglySorted Z.le (omap f l) -> (j < k)%nat -> l !! j = Some x -> l !! k = Some y -> f x = Some a -> f y = Some b -> a <= b.
Proof.
  revert j k. induction l as [|z l IH]; intros j k Hs Hjk Hj Hk Ha Hb; [done|].
  destruct k as [|k]; [lia|]. cbn in Hs, Hk. destruct j as [|j].
  - injection Hj as ->. rewrite Ha in Hs. apply StronglySorted_inv in Hs as [_ Hs]. rewrite Forall_forall in Hs. apply Hs.
    apply list_elem_of_omap. exists y. split; [by eapply list_elem_of_lookup_2|done].
  - cbn in Hj. apply (IH j k); try done; [|lia]. destruct (f z); [by apply StronglySorted_inv in Hs as []|done].
Qed.

Lemma whole_NoDup : NoDup whole.
Proof. apply (bool_decide_unpack _). vm_compute. exact I. Qed.

Section Logins.
Context `{HG : !AesGcm} (zlib : bytes -> option bytes) (zerr : bytes -> str).

Lemma reachable_inv d w : reachable zlib zerr d w -> Z.of_nat (logins w) < 2 ^ 64 -> login_inv w.
Proof.
  induction 1 as [|w l w' Hr IH He]; intros Hb.
  - split; [done|constructor|constructor|intros g; apply submseteq_nil_l|constructor|constructor|constructor|by intros []].
  - apply exec_shape in He. pose proof (logins_mono _ _ He). assert (login_inv w) as Hw by (apply IH; lia).
    destruct He; [by eapply inv_neutral|by eapply inv_login|by eapply inv_post].
Qed.

(** C17: However the tasks interleave, as long as there were fewer than 2^64
    logins: a login begins each of its operations at most once, sends each of
    their stanzas at most once (but for those of the collections) and announces
    the connection at most once; logins and begins of operations come in the
    order of the logins, since each begin follows its look at the generation;
    and what an older login sends or announces after a newer login belongs to an
    operation that it had begun before that login. *)
Theorem logins_in_order d w :
  reachable zlib zerr d w -> Z.of_nat (logins w) < 2 ^ 64 ->
  (forall g, NoDup (marks g (w_log w))) /\ StronglySorted Z.le (omap began_gen (w_log w))
  /\ (forall i k g g' conn e, w_log w !! i = Some (L_login g' conn) -> (i < k)%nat -> w_log w !! k = Some e ->
        entry_gen e = Some g -> g < g' ->
        exists o j, performed e = Some (g, o) /\ (j < i)%nat /\ w_log w !! j = Some (L_begin g o))
  /\ connection_generation (w_client w) = Z.of_nat (logins w).
Proof.
  intros Hr Hb. destruct (reachable_inv d w Hr Hb) as [I1 _ _ I4 I5 _ _ I8]. split_and!; [|done| |done].
  - intros g. destruct (submseteq_Permutation _ _ (I4 g)) as [k Hk]. pose proof whole_NoDup as Hn.
    rewrite Hk, <- app_assoc in Hn. by apply NoDup_app in Hn as [Hn _].
  - intros i k g g' conn e Hi Hik Hk Hg Hlt. destruct (began_gen e) as [b|] eqn:Eb.
    { pose proof (began_entry _ _ Eb). pose proof (sorted_lookup began_gen _ i k _ _ g' b I5 Hik Hi Hk eq_refl Eb). simplify_eq. lia. }
    assert (exists o, performed e = Some (g, o)) as [o Ho] by (destruct e as [| |[]| | | | |]; cbn in *; naive_solver).
    destruct (I8 k e g o Hk Ho) as (j & Hj & E). exists o, j. split_and!; [done| |done].
    destruct (Nat.lt_trichotomy j i) as [|[->|Hij] ]; [done|congruence|].
    pose proof (sorted_lookup began_gen _ i j _ _ g' g I5 Hij Hi E eq_refl eq_refl). lia.
Qed.
End Logins.

(** ** The policy of reconnection *)

(** What a stanza of the server means for the connection. *)
Inductive Verdict := V_reconnect | V_stop | V_stay.

Definition stream_verdict (code conflict : str) : Verdict :=
  if code =s lit "515" then V_reconnect
  else if ((code =s lit "401") && (conflict =s lit "device_removed")) || (conflict =s lit "replaced") then V_stop
  else if code =s lit "503" then V_stay
  else V_reconnect.

Definition failure_verdict (reason : i32) : Verdict :=
  if (reason =? 500) || (reason =? 503) then V_stay else V_stop.

Definition attr_text (key : str) (n : Node) : str := or_empty (im_get key (attrs n)).
Definition failure_code (n : Node) : i32 :=
  match im_get (lit "reason") (attrs n) with
  | Some s => match parse_u64 s with Ok v => cast_i32 v | _ => 0 end
  | None => 0
  end.

Definition verdict (n : Node) : Verdict :=
  if tag n =s lit "failure" then failure_verdict (failure_code n)
  else stream_verdict (attr_text (lit "code") n)
         (match get_optional_child n (lit "conflict") with Some c => attr_text (lit "type") c | None => [] end).

(** ** Lemmas: the effect of these stanzas *)

Definition notified_run (r : RunPc) : RunPc := match r with R_select _ => R_leave | _ => r end.
Definition notified_keep (k : Keep) : Keep :=
  match k_pc k with K_sleep => mkKeep (k_last_success k) (k_error_count k) K_done | _ => k end.

(** [g]: what becomes of the flag of the login. *)
Definition verdict_client (v : Verdict) (c : ClientFlags) : ClientFlags :=
  match v with
  | V_reconnect => set_expected true c
  | V_stop => set_auto_reconnect false (set_expected true c)
  | V_stay => c
  end.

Lemma optional_string_new key n : (ap_optional_string key (ap_new n)).1 = im_get key (attrs n).
Proof. unfold ap_optional_string, ap_get_raw, required. cbn. by destruct (im_get key (attrs n)). Qed.

Lemma optional_u64_new key n :
  or_zero (ap_optional_u64 key (ap_new n)).1
  = match im_get key (attrs n) with Some s => match parse_u64 s with Ok v => v | _ => 0 end | None => 0 end.
Proof.
  unfold ap_optional_u64, get_u64, get_int, ap_get_raw, required, meth_bind, meth_ret. cbn.
  destruct (im_get key (attrs n)) as [s|]; [|done]. by destruct (parse_u64 s).
Qed.

(** One entry in the log, which is not an attempt to connect. *)
Ltac one_entry := eexists [_]; split; [|reflexivity]; reflexivity.

Lemma stream_error_effect n w :
  tag n <> lit "failure" ->
  exists es, count is_attempt es = 0%nat /\ handle_stream_error n w =
    mkWorld (verdict_client (verdict n) (set_logged_in false (w_client w))) (w_device w) (map notified_run (w_runs w))
      (map notified_keep (w_keeps w)) (w_posts w) (w_log w ++ es) (w_next_conn w).
Proof.
  intros Ht. unfold verdict, handle_stream_error, stream_verdict, attr_text. rewrite !optional_string_new.
  destruct (bytes_eqb_spec (tag n) (lit "failure")); [done|].
  assert (match get_optional_child n (lit "conflict") with
          | Some n0 => or_empty (ap_optional_string (lit "type") (ap_new n0)).1 | None => [] end
          = match get_optional_child n (lit "conflict") with
            | Some c => or_empty (im_get (lit "type") (attrs c)) | None => [] end) as ->
    by (destruct (get_optional_child _ _); [|done]; by rewrite optional_string_new).
  destruct (or_empty (im_get (lit "code") (attrs n)) =s lit "515").
  - cbn. destruct (transport (w_client w)); [one_entry|]. exists []. by rewrite app_nil_r.
  - destruct (_ || _); [one_entry|]. destruct (_ =s _); [|one_entry]. exists []. cbn. by rewrite app_nil_r.
Qed.

Lemma failure_from code : should_reconnect (connect_failure_from code) = (code =? 500) || (code =? 503).
Proof. unfold connect_failure_from. repeat case_match; cbn; lia. Qed.

Lemma failure_effect n w :
  tag n = lit "failure" -> expected_disconnect (w_client w) = false ->
  exists es, count is_attempt es = 0%nat /\ handle_connect_failure n w =
    mkWorld (verdict_client (verdict n) (w_client w)) (w_device w) (map notified_run (w_runs w))
      (map notified_keep (w_keeps w)) (w_posts w) (w_log w ++ es) (w_next_conn w).
Proof.
  intros Ht He. unfold verdict, handle_connect_failure. rewrite Ht, bytes_eqb_refl.
  pose proof (optional_u64_new (lit "reason") n) as Hr.
  destruct (ap_optional_u64 (lit "reason") (ap_new n)) as [reason ats]. cbn [fst] in Hr.
  assert (cast_i32 (or_zero reason) = failure_code n) as ->.
  { rewrite Hr. unfold failure_code. destruct (im_get _ _) as [s|]; [|done]. by destruct (parse_u64 s). }
  unfold failure_verdict. rewrite <- failure_from. set (r := connect_failure_from (failure_code n)).
  destruct (should_reconnect r) eqn:Hs; cbn [verdict_client].
  - assert (is_logged_out r = false) as -> by (by destruct r).
    destruct w as [[]]; cbn in He; subst; destruct r; try discriminate Hs; one_entry.
  - destruct (is_logged_out r); [one_entry|]. destruct r; try one_entry.
    destruct (ap_optional_u64 _ ats) as [b ats']. destruct (ap_optional_u64 _ ats') as [e ats'']. one_entry.
Qed.

(** The two kinds of stanza alike: the login is lost only with a stream error. *)
Lemma critical_effect now n w :
  is_critical n = true -> tag n <> lit "success" -> expected_disconnect (w_client w) = false ->
  exists es b, count is_attempt es = 0%nat /\ handle_critical now n w =
    mkWorld (verdict_client (verdict n) (set_logged_in b (w_client w))) (w_device w) (map notified_run (w_runs w))
      (map notified_keep (w_keeps w)) (w_posts w) (w_log w ++ es) (w_next_conn w).
Proof.
  intros Hc Hs He. unfold handle_critical. destruct (bytes_eqb_spec (tag n) (lit "success")); [done|].
  destruct (bytes_eqb_spec (tag n) (lit "failure")) as [Hf|Hf].
  - destruct (failure_effect n w Hf He) as (es & Hz & ->). exists es, (is_logged_in (w_client w)). by destruct w as [[]].
  - destruct (stream_error_effect n w Hf) as (es & Hz & ->). by exists es, false.
Qed.

Section Policy.
Context `{HG : !AesGcm} (zlib : bytes -> option bytes) (zerr : bytes -> str).

(** The turn of the message loop that gets such a stanza. *)
Lemma frame_verdict i now d f d' n w w1 :
  w_runs w !! i = Some (R_frames d) -> decode_frame d = (Some f, d') -> loop_decrypt zlib zerr f w = (Some n, w1) ->
  is_critical n = true -> tag n <> lit "success" -> expected_disconnect (w_client w) = false ->
  exists es b, count is_attempt es = 0%nat /\ run_step zlib zerr i now w = Some
    (set_run i (match verdict n with V_stay => R_frames d' | _ => R_leave end)
      (mkWorld (verdict_client (verdict n) (set_logged_in b (w_client w1))) (w_device w1) (map notified_run (w_runs w))
        (map notified_keep (w_keeps w)) (w_posts w) (w_log w ++ es) (w_next_conn w))).
Proof.
  intros Hi Hd Hn Hc Hs He. unfold run_step. rewrite Hi. unfold loop_frame. rewrite Hd, Hn.
  apply decrypt_same in Hn as (P & L & R & K & X & s & C).
  destruct (critical_effect now n w1 Hc Hs) as (es & b & Hz & E); [by rewrite C|].
  exists es, b. split; [done|]. unfold loop_node. rewrite Hc, E, P, L, R, K, X. do 3 f_equal. rewrite C. cbn. by destruct (verdict n); cbn; rewrite ?He.
Qed.

(** Out of the message loop: the state is cleaned up, and the decision. *)
Lemma leave_steps i now w :
  w_runs w !! i = Some R_leave ->
  execs zlib zerr [Do_run i now; Do_run i now] w
  = Some (run_decide i (set_run i R_decide (with_client cleanup_connection_state w))).
Proof.
  intros Hi. cbn [execs exec]. unfold run_step at 1. rewrite Hi. unfold run_step.
  cbn [w_runs set_run]. by rewrite list_lookup_insert_eq by (cbn; by eapply lookup_lt_Some).
Qed.

(** C16: The policy of reconnection, through the message loop and the run loop:
    a stanza that asks for a new stream leads to a new attempt at once with the
    count of errors reset, one that ends the session stops the run loop and
    turns reconnection off, and one that reports a passing failure of the server
    leaves the message loop where it is, on the same socket, with no keep-alive
    task left asleep. *)
Theorem reconnection_policy i now d f d' n w w1 :
  w_runs w !! i = Some (R_frames d) -> decode_frame d = (Some f, d') -> loop_decrypt zlib zerr f w = (Some n, w1) ->
  is_critical n = true -> tag n <> lit "success" ->
  expected_disconnect (w_client w) = false -> enable_auto_reconnect (w_client w) = true ->
  match verdict n with
  | V_reconnect =>
      exists w', execs zlib zerr [Do_run i now; Do_run i now; Do_run i now] w = Some w' /\ w_runs w' !! i = Some R_top
        /\ auto_reconnect_errors (w_client w') = 0 /\ is_connected (w_client w') = false
        /\ is_running (w_client w') = is_running (w_client w)
  | V_stop =>
      exists w', execs zlib zerr [Do_run i now; Do_run i now; Do_run i now] w = Some w' /\ w_runs w' !! i = Some R_ended
        /\ is_running (w_client w') = false /\ enable_auto_reconnect (w_client w') = false /\ is_connected (w_client w') = false
  | V_stay =>
      exists w', execs zlib zerr [Do_run i now] w = Some w' /\ w_runs w' !! i = Some (R_frames d')
        /\ noise_socket (w_client w') = noise_socket (w_client w1) /\ expected_disconnect (w_client w') = false
        /\ Forall (fun k => k_pc k <> K_sleep) (w_keeps w')
  end.
Proof.
  intros Hi Hd Hn Hc Hs He Ha. destruct (frame_verdict i now d f d' n w w1) as (es & b & _ & E); try done.
  assert (i < length (map notified_run (w_runs w)))%nat as Hlt by (rewrite length_map; by eapply lookup_lt_Some).
  apply decrypt_same in Hn as (_ & _ & _ & _ & _ & s & C).
  destruct (verdict n); cbn [verdict_client] in E.
  1, 2: match type of E with _ = Some ?w2 => pose proof (leave_steps i now w2) as Hl end;
    (eexists; split; [cbn [execs exec]; rewrite E; apply Hl; cbn; by rewrite list_lookup_insert_eq|]);
    unfold run_decide; cbn; rewrite ?C; cbn; rewrite ?Ha; cbn; rewrite !list_lookup_insert_eq by (by rewrite ?length_insert); done.
  eexists. split; [cbn [execs exec]; by rewrite E|]. cbn. rewrite list_lookup_insert_eq, C by done. split_and!; try done.
  apply Forall_fmap, Forall_true. intros k. unfold notified_keep. cbn. by destruct (k_pc k) eqn:Ek; cbn; rewrite ?Ek.
Qed.
End Policy.

(** ** The end of a session is final *)

(** A run task between two attempts: it begins another one without a new decision. *)
Definition between (r : RunPc) : bool := match r with R_top | R_sleep _ => true | _ => false end.

Definition connect_attempts (w : World) : nat := count is_attempt (w_log w).

(** Reconnection is off, and [n] bounds the attempts that were and those that
    run tasks between two attempts can still make. *)
Record halted (n : nat) (w : World) : Prop := {
  h_auto : enable_auto_reconnect (w_client w) = false;
  h_attempts : (connect_attempts w + count between (w_runs w) <= n)%nat
}.

Lemma halted_set_run n i r r' w :
  w_runs w !! i = Some r -> (between r' = true -> between r = true) -> halted n w -> halted n (set_run i r' w).
Proof.
  intros Hi Hb [H1 H2]. split; [done|]. pose proof (count_insert between i r r' _ Hi) as Hc. unfold connect_attempts in *. cbn.
  destruct (between r'), (between r); first [lia | discriminate (Hb eq_refl)].
Qed.
Lemma halted_client n f w :
  halted n w -> enable_auto_reconnect (f (w_client w)) = false -> halted n (with_client f w).
Proof. intros [] Hf. by split. Qed.
Lemma halted_record n es w : halted n w -> count is_attempt es = 0%nat -> halted n (record es w).
Proof. intros [] He. split; [done..|]. unfold connect_attempts in *. cbn. rewrite count_app, He. lia. Qed.
Lemma between_notified rs : count between (map notified_run rs) = count between rs.
Proof. induction rs as [|r rs IH]; [done|]. cbn [map]. rewrite !count_cons, IH. by destruct r. Qed.
Lemma halted_notify n w : halted n w -> halted n (notify_shutdown w).
Proof. intros []. split; [done|]. change (w_runs (notify_shutdown w)) with (map notified_run (w_runs w)). by rewrite between_notified. Qed.
Lemma halted_device n f w : halted n w -> halted n (on_device f w).
Proof. by intros []. Qed.
Lemma halted_spawn_post n q w : halted n w -> halted n (spawn_post q w).
Proof. by intros []. Qed.
Lemma halted_set_post n i q w : halted n w -> halted n (set_post i q w).
Proof. by intros []. Qed.
Lemma halted_set_keep n i k w : halted n w -> halted n (set_keep i k w).
Proof. by intros []. Qed.
Lemma halted_spawn_keep n k w : halted n w -> halted n (spawn_keep k w).
Proof. by intros []. Qed.

(** Through the changes of a step, down to a world that is known to be halted. *)
Ltac halted :=
  repeat first [ assumption | simple eapply halted_set_run; [eassumption|done|] | simple apply halted_record
               | simple apply halted_notify | simple apply halted_device | simple apply halted_spawn_post
               | simple apply halted_set_post | simple apply halted_set_keep | simple apply halted_spawn_keep
               | simple apply halted_client ];
  try reflexivity; try (cbn; eapply h_auto; eassumption).

Lemma halted_disconnect n w : halted n w -> halted n (disconnect w).
Proof.
  intros H. unfold disconnect. cbn. destruct (transport (w_client w)); halted.
Qed.

Lemma halted_node n now x w : halted n w -> halted n (loop_node now x w).
Proof.
  intros H. unfold loop_node, handle_critical. destruct x as [x|]; [|done]. destruct (is_critical x); [|halted].
  destruct (tag x =s lit "success"); [|destruct (tag x =s lit "failure")].
  - unfold handle_success. destruct (expected_disconnect _); [done|]. destruct (is_logged_in _); [done|].
    repeat case_match; halted.
  - unfold handle_connect_failure. repeat case_match; halted.
  - unfold handle_stream_error, expect_disconnect. repeat case_match; halted.
Qed.

(** A stanza leaves the run tasks alone or notifies them. *)
Lemma node_runs now x w :
  w_runs (loop_node now x w) = w_runs w \/ w_runs (loop_node now x w) = map notified_run (w_runs w).
Proof.
  unfold loop_node, handle_critical. destruct x as [x|]; [|auto]. destruct (is_critical x); [|auto].
  destruct (tag x =s lit "success"); [|destruct (tag x =s lit "failure")].
  - unfold handle_success. repeat case_match; cbn; auto.
  - unfold handle_connect_failure. repeat case_match; cbn; by right.
  - unfold handle_stream_error. repeat case_match; cbn; by right.
Qed.

Section Final.
Context `{HG : !AesGcm} (zlib : bytes -> option bytes) (zerr : bytes -> str).

(** An attempt of a run task that was between two. *)
Lemma halted_top n i w : w_runs w !! i = Some R_top -> halted n w -> halted n (run_top i w).
Proof.
  intros Hi H. unfold run_top, connect_begin. cbn. destruct (is_running (w_client w)); [|halted].
  destruct (is_connecting (w_client w)); [halted|]. unfold is_connected. cbn. destruct (noise_socket (w_client w)); [halted|].
  destruct H as [H1 H2]. split; [done|]. pose proof (count_insert between i R_top R_dial _ Hi) as Hc.
  unfold connect_attempts in *. cbn in *. rewrite count_app, count_cons, count_nil. cbn. lia.
Qed.

Lemma halted_run n i now w w' : run_step zlib zerr i now w = Some w' -> halted n w -> halted n w'.
Proof.
  intros E H. revert E. unfold run_step. destruct (w_runs w !! i) as [r|] eqn:Hi; [|done].
  destruct r as [| | | |d| | | |]; try done; intros [= <-].
  - by apply halted_top.
  - unfold loop_start. case_match; halted.
  - unfold loop_frame. destruct (decode_frame d) as [[f|] d']; [|halted].
    destruct (loop_decrypt _ _ _ _) as [x w1] eqn:Hd. apply decrypt_same in Hd as (_ & L & R & _ & _ & s & C).
    assert (halted n (loop_node now x w1)) as Hn.
    { apply halted_node. destruct H as [H1 H2]. split; [by rewrite C|unfold connect_attempts in *; by rewrite L, R]. }
    destruct (node_runs now x w1) as [Hr|Hr].
    + apply (halted_set_run n i (R_frames d)); [by rewrite Hr, R|by case_match|done].
    + apply (halted_set_run n i (R_frames d)); [by rewrite Hr, R, list_lookup_fmap, Hi|by case_match|done].
  - halted.
  - unfold run_decide. rewrite (h_auto _ _ H). cbn [negb]. halted.
  - halted.
Qed.

Lemma halted_post n i now w w' : post_step i now w = Some w' -> halted n w -> halted n w'.
Proof.
  intros E H. unfold post_step, background_step, collection_step, check_generation, begin_op, post_return, post_goto in E.
  repeat case_match; try done; injection E as <-; halted.
Qed.

Lemma halted_exec n l w w' : l <> Do_run_call -> exec zlib zerr l w = Some w' -> halted n w -> halted n w'.
Proof.
  intros Hl E H. destruct l as [|i now|i o now|i ev|i|i a now|i now|i k|o]; cbn [exec] in E; [done| | | | | | | |].
  - by eapply halted_run.
  - destruct (w_runs w !! i) as [r|] eqn:Hi; [|done]. destruct r; try done. injection E as <-. destruct o; cbn; try halted.
    destruct H as [H1 H2]. pose proof (count_insert between i R_dial R_start _ Hi) as Hc. split; [done|].
    unfold connect_attempts in *. cbn in *. rewrite count_app, count_cons, count_nil. cbn. lia.
  - repeat case_match; try done. injection E as <-. unfold loop_event. repeat case_match; halted.
  - unfold keep_tick in E. repeat case_match; try done; injection E as <-; halted.
  - unfold keep_answer in E. repeat case_match; try done; injection E as <-; first [apply halted_disconnect; halted | halted].
  - by eapply halted_post.
  - unfold post_send, post_goto in E. repeat case_match; try done; injection E as <-; halted.
  - injection E as <-. destruct o; cbn; [by apply halted_disconnect|halted..].
Qed.

Lemma halted_execs n ls w w' :
  Forall (fun l => l <> Do_run_call) ls -> execs zlib zerr ls w = Some w' -> halted n w -> halted n w'.
Proof.
  intros Hf. revert w. induction Hf as [|l ls Hl _ IH]; intros w E H; cbn in E; [by injection E as <-|].
  destruct (exec zlib zerr l w) as [w1|] eqn:E1; [|done]. eapply IH; [done|]. by eapply halted_exec.
Qed.

(** C18: The end of a session is final: once the server has said that the device
    was removed or replaced, or refused the connection for good, and until [run]
    is called anew, the tasks make at most one attempt to connect for every other
    call of [run] that was at that moment between two attempts (asleep in its
    back-off or at the head of its loop), whatever the tasks do and in whatever
    order; when there is no such call, which takes a [disconnect] and a second
    [run] during a back-off, there is no attempt at all.  Reconnection stays off. *)
Theorem session_end_is_final i now d f d' n w w1 ls w' :
  w_runs w !! i = Some (R_frames d) -> decode_frame d = (Some f, d') -> loop_decrypt zlib zerr f w = (Some n, w1) ->
  is_critical n = true -> tag n <> lit "success" -> expected_disconnect (w_client w) = false ->
  verdict n = V_stop ->
  Forall (fun l => l <> Do_run_call) ls -> execs zlib zerr (Do_run i now :: ls) w = Some w' ->
  (connect_attempts w' <= connect_attempts w + count between (w_runs w))%nat /\ enable_auto_reconnect (w_client w') = false.
Proof.
  intros Hi Hd Hn Hc Hs He Hv Hls E. destruct (frame_verdict zlib zerr i now d f d' n w w1) as (es & b & Hz & F); try done.
  cbn [execs exec] in E. rewrite F, Hv in E.
  enough (halted (connect_attempts w + count between (w_runs w)) w') as [H1 H2] by (split; [lia|done]).
  eapply halted_execs; [exact Hls|exact E|]. apply (halted_set_run _ i (R_frames d)); [cbn; by rewrite list_lookup_fmap, Hi|done|].
  split; [done|]. unfold connect_attempts. cbn. rewrite count_app, Hz, between_notified. lia.
Qed.
End Final.

(** ** One attempt at a time *)

Definition dialing (r : RunPc) : bool := match r with R_dial => true | _ => false end.
Definition dials (w : World) : nat := count dialing (w_runs w).
Definition dial_ok (w : World) : Prop := dials w = Nat.b2n (is_connecting (w_client w)).

Lemma dials_notified rs : count dialing (map notified_run rs) = count dialing rs.
Proof. induction rs as [|r rs IH]; [done|]. cbn [map]. rewrite !count_cons, IH. by destruct r. Qed.

(** What a step that neither begins nor ends an attempt keeps. *)
Lemma dial_ok_same w w' :
  dials w' = dials w -> is_connecting (w_client w') = is_connecting (w_client w) -> dial_ok w -> dial_ok w'.
Proof. unfold dial_ok. congruence. Qed.

Lemma dials_set_run i r r' w :
  w_runs w !! i = Some r -> dialing r = dialing r' -> dials (set_run i r' w) = dials w.
Proof.
  intros Hi Hr. pose proof (count_insert dialing i r r' _ Hi) as H. unfold dials. cbn. rewrite Hr in H.
  destruct (dialing r'); lia.
Qed.

Lemma disconnect_dial w :
  dials (disconnect w) = dials w /\ is_connecting (w_client (disconnect w)) = is_connecting (w_client w).
Proof.
  unfold disconnect, dials. cbn. destruct (transport (w_client w)); cbn; (split; [apply dials_notified|done]).
Qed.

Lemma node_dial now x w :
  dials (loop_node now x w) = dials w
  /\ is_connecting (w_client (loop_node now x w)) = is_connecting (w_client w)
  /\ (w_runs (loop_node now x w) = w_runs w \/ w_runs (loop_node now x w) = map notified_run (w_runs w)).
Proof.
  unfold loop_node, handle_critical, dials. destruct x as [x|]; [|auto]. destruct (is_critical x); [|auto].
  destruct (tag x =s lit "success"); [|destruct (tag x =s lit "failure")].
  - unfold handle_success. repeat case_match; cbn; auto.
  - unfold handle_connect_failure. repeat case_match; cbn; (split_and!; [apply dials_notified|done|by right]).
  - unfold handle_stream_error. repeat case_match; cbn; (split_and!; [apply dials_notified|done|by right]).
Qed.

Section Dials.
Context `{HG : !AesGcm} (zlib : bytes -> option bytes) (zerr : bytes -> str).

Lemma top_dial i w : w_runs w !! i = Some R_top -> dial_ok w -> dial_ok (run_top i w).
Proof.
  intros Hi Hw. unfold run_top, connect_begin. cbn. destruct (is_running (w_client w)).
  - destruct (is_connecting (w_client w)) eqn:Hc; [|destruct (noise_socket (w_client w)) eqn:Hs].
    + eapply dial_ok_same; [by eapply (dials_set_run _ R_top)|done|done].
    + unfold dial_ok in *. rewrite Hc in Hw. cbn. unfold is_connected. cbn. rewrite Hs.
      rewrite (dials_set_run i R_top) by done. exact Hw.
    + unfold dial_ok, is_connected in *. rewrite Hc in Hw. cbn. rewrite Hs.
      pose proof (count_insert dialing i R_top R_dial _ Hi) as H. unfold dials in *. cbn in *. lia.
  - eapply dial_ok_same; [by eapply (dials_set_run _ R_top)|done|done].
Qed.

Lemma run_dial i now w w' : run_step zlib zerr i now w = Some w' -> dial_ok w -> dial_ok w'.
Proof.
  unfold run_step. intros E Hw. destruct (w_runs w !! i) as [r|] eqn:Hi; [|done].
  destruct r as [| | | |d| | | |]; try done; injection E as <-.
  - by apply top_dial.
  - unfold loop_start. case_match; (eapply dial_ok_same; [by eapply (dials_set_run _ R_start)|done|done]).
  - unfold loop_frame. destruct (decode_frame d) as [[f|] d'].
    2: { eapply dial_ok_same; [by eapply (dials_set_run _ (R_frames d))|done|done]. }
    destruct (loop_decrypt _ _ _ _) as [x w1] eqn:Hd. apply decrypt_same in Hd as (_ & _ & R & _ & _ & s & C).
    destruct (node_dial now x w1) as (N1 & N2 & N3).
    eapply dial_ok_same; [|cbn; by rewrite N2, C|done].
    rewrite (dials_set_run i (R_frames d)); [by rewrite N1; unfold dials; rewrite R| |by case_match].
    destruct N3 as [->| ->]; rewrite R; [done|]. by rewrite list_lookup_fmap, Hi.
  - eapply dial_ok_same; [by eapply (dials_set_run _ R_leave)|done|done].
  - unfold run_decide. repeat case_match; (eapply dial_ok_same; [by eapply (dials_set_run _ R_decide)|done|done]).
  - eapply dial_ok_same; [by eapply (dials_set_run _ (R_sleep secs))|done|done].
Qed.

(** [is_connecting] is held by exactly the call that is connecting: however
    many calls of [run] there are, at most one is between the check and the end
    of its attempt, and the flag is down when none is. *)
Theorem one_attempt_at_a_time d w :
  reachable zlib zerr d w -> dials w = Nat.b2n (is_connecting (w_client w)).
Proof.
  induction 1 as [|w l w' _ IH E]; [done|]. fold (dial_ok w) in IH. fold (dial_ok w').
  destruct l as [|i now|i o now|i ev|i|i a now|i now|i k|o]; cbn [exec] in E.
  - injection E as <-. unfold run_call. case_match; [done|]. unfold dial_ok, dials in *. cbn.
    rewrite count_app, count_cons, count_nil. cbn. lia.
  - by eapply run_dial.
  - destruct (w_runs w !! i) as [ []|] eqn:Hi; try done. injection E as <-.
    assert (forall r, dialing r = false -> dials (set_run i r w) = 0%nat) as Hz.
    { intros r Hr. pose proof (count_insert dialing i R_dial r _ Hi) as H. rewrite Hr in H. unfold dial_ok, dials in *. cbn in *.
      destruct (is_connecting _); cbn in *; lia. }
    destruct o; unfold dial_ok; cbn; by apply Hz.
  - destruct (w_runs w !! i) as [ [| | |d'| | | | |]|] eqn:Hi; try done. injection E as <-. unfold loop_event.
    repeat case_match; 
      (apply (dial_ok_same w); [first [done | etrans; [by eapply (dials_set_run _ (R_select d'))|done] ]|done|exact IH]).
  - unfold keep_tick in E. repeat case_match; try done; injection E as <-; done.
  - unfold keep_answer in E. repeat case_match; try done; injection E as <-; try done.
    eapply dial_ok_same; [apply disconnect_dial|apply disconnect_dial|done].
  - unfold post_step, background_step, collection_step, check_generation, post_return in E.
    repeat case_match; try done; injection E as <-; done.
  - unfold post_send in E. repeat case_match; try done; injection E as <-; done.
  - injection E as <-. destruct o; cbn; try done.
    + eapply dial_ok_same; [apply disconnect_dial|apply disconnect_dial|done].
    + eapply dial_ok_same; [apply dials_notified|done|done].
Qed.
End Dials.

(** ** Delays *)

Section Delays.
Context `{HG : !AesGcm} (zlib : bytes -> option bytes) (zerr : bytes -> str).

(** An attempt that fails, up to the sleep; and with the sleep. *)
Definition failed (now : i64) (o : Dial) : list Label := [Do_run 0 now; Do_dial 0 o now; Do_run 0 now].
Definition failed_slept (x : i64 * Dial) : list Label := failed x.1 x.2 ++ [Do_run 0 x.1].

(** A run task about to connect with nothing in its way, after [n] errors. *)
Record about_to_dial (r : RunPc) (n : Z) (w : World) : Prop := {
  ad_runs : w_runs w = [r];
  ad_running : is_running (w_client w) = true;
  ad_connecting : is_connecting (w_client w) = false;
  ad_socket : noise_socket (w_client w) = None;
  ad_auto : enable_auto_reconnect (w_client w) = true;
  ad_errors : auto_reconnect_errors (w_client w) = n
}.

Definition dial_failed (o : Dial) : Prop := match o with Dialed _ => False | _ => True end.

Lemma execs_app l1 l2 w :
  execs zlib zerr (l1 ++ l2) w = match execs zlib zerr l1 w with Some w => execs zlib zerr l2 w | None => None end.
Proof. revert w. induction l1 as [|l l1 IH]; intros w; [done|]. cbn. by destruct (exec zlib zerr l w). Qed.

Lemma failed_sleeps now o n w :
  dial_failed o -> 0 <= n < 2 ^ 31 -> about_to_dial R_top n w ->
  exists w', execs zlib zerr (failed now o) w = Some w' /\ about_to_dial (R_sleep (Z.min (2 * n) 30)) (n + 1) w'.
Proof.
  intros Ho Hn [Hr H1 H2 H3 H4 H5]. destruct w as [[] dev rs ks ps lg nc]. cbn in *. subst.
  eexists. split.
  - cbn [execs exec failed]. unfold run_step, run_top, connect_begin. cbn -[run_decide].
    assert (forall o', dial_failed o' -> forall w, connect_end 0 o' now w = connect_end 0 TransportFailed now w) as ->
      by (by intros []). all: done || cbn -[run_decide]; reflexivity.
  - unfold run_decide. cbn. split; cbn; try done; unfold reconnect_delay; rewrite !wrap_small by lia; [|done]. do 3 f_equal. lia.
Qed.

(** The delays between attempts that fail: after [k] failures in a row the
    run loop sleeps twice [k] seconds, but never more than thirty. *)
Theorem reconnect_schedule xs now o w :
  Forall (fun x => dial_failed x.2) xs -> dial_failed o -> Z.of_nat (length xs) < 2 ^ 31 -> about_to_dial R_top 0 w ->
  exists w', execs zlib zerr (concat (map failed_slept xs) ++ failed now o) w = Some w'
    /\ w_runs w' = [R_sleep (Z.min (2 * Z.of_nat (length xs)) 30)]
    /\ auto_reconnect_errors (w_client w') = Z.of_nat (length xs) + 1.
Proof.
  intros Hxs Ho. assert (forall n, 0 <= n -> n + Z.of_nat (length xs) < 2 ^ 31 -> about_to_dial R_top n w ->
    exists w', execs zlib zerr (concat (map failed_slept xs) ++ failed now o) w = Some w'
      /\ about_to_dial (R_sleep (Z.min (2 * (n + Z.of_nat (length xs))) 30)) (n + Z.of_nat (length xs) + 1) w') as H.
  { revert w. induction Hxs as [|[t x] xs Hx _ IH]; intros w n Hn Hb Hw; cbn [map concat length] in *.
    - rewrite Z.add_0_r. by apply failed_sleeps; [|lia|].
    - unfold failed_slept at 1. cbn [fst snd].
      destruct (failed_sleeps t x n w Hx) as (w1 & E1 & Hw1); [lia|done|].
      rewrite <- !app_assoc, execs_app, E1. cbn [app execs exec]. unfold run_step. rewrite (ad_runs _ _ _ Hw1). cbn [lookup list_lookup].
      replace (n + Z.of_nat (S (length xs))) with (n + 1 + Z.of_nat (length xs)) by lia.
      apply IH; [lia|lia|]. destruct Hw1. split; try done. cbn. by rewrite ad_runs0. }
  intros Hb Hw. destruct (H 0) as (w' & E & []); [lia|lia|done|]. by exists w'.
Qed.
End Delays.

(** ** Keep-alive *)

Section KeepAlive.
Context `{HG : !AesGcm} (zlib : bytes -> option bytes) (zerr : bytes -> str).

(** An unanswered ping counts as a success: as long as the socket takes the
    pings, a server that answers none of them is never noticed, however long it
    stays silent. *)
Theorem ping_timeouts_unnoticed i times k w :
  w_keeps w !! i = Some k -> k_pc k = K_sleep -> is_connected (w_client w) = true ->
  exists w' k', execs zlib zerr (concat (map (fun now => [Do_tick i; Do_answer i (Err CI_Timeout) now]) times)) w = Some w'
    /\ w_client w' = w_client w /\ w_runs w' = w_runs w /\ w_log w' = w_log w
    /\ w_keeps w' !! i = Some k' /\ k_pc k' = K_sleep.
Proof.
  intros Hk Hp Hc. revert k w Hk Hp Hc. induction times as [|t times IH]; intros [last err pc] w Hk Hp Hc; cbn in Hp; subst pc.
  - by exists w, (mkKeep last err K_sleep).
  - cbn [map concat app execs exec]. unfold keep_tick. rewrite Hk, Hc. unfold keep_answer. cbn [w_keeps set_keep].
    rewrite list_lookup_insert_eq by (by eapply lookup_lt_Some). cbn [ping_result].
    destruct (IH (mkKeep t 0 K_sleep) (set_keep i (mkKeep t 0 K_sleep) (set_keep i (mkKeep last err K_ping) w)))
      as (w' & k' & E & E1 & E2 & E3 & E4 & E5); [|done|done|by exists w', k'].
    cbn. rewrite list_lookup_insert_eq; [done|]. rewrite length_insert. by eapply lookup_lt_Some.
Qed.

Lemma decide_expected i w :
  enable_auto_reconnect (w_client w) = true -> expected_disconnect (w_client w) = true ->
  run_decide i w = set_run i R_top (with_client (set_errors 0) w).
Proof. intros H1 H2. unfold run_decide. by rewrite H1, H2. Qed.
Lemma run_step_top i now w : w_runs w !! i = Some R_top -> run_step zlib zerr i now w = Some (run_top i w).
Proof. intros H. unfold run_step. by rewrite H. Qed.
Lemma top_ended i w : is_running (w_client w) = false -> run_top i w = set_run i R_ended w.
Proof. intros H. unfold run_top. by rewrite H. Qed.

Lemma disconnect_ends d now w :
  w_runs w = [R_select d] -> enable_auto_reconnect (w_client w) = true ->
  exists w', execs zlib zerr [Do_run 0 now; Do_run 0 now; Do_run 0 now] (disconnect w) = Some w'
    /\ w_runs w' = [R_ended] /\ is_running (w_client w') = false /\ is_connected (w_client w') = false.
Proof.
  intros Hr Ha. change [Do_run 0 now; Do_run 0 now; Do_run 0 now] with ([Do_run 0 now; Do_run 0 now] ++ [Do_run 0 now]).
  assert (w_runs (disconnect w) = [R_leave]) as Hl by (unfold disconnect; cbn; case_match; cbn; by rewrite Hr).
  assert (enable_auto_reconnect (w_client (disconnect w)) = true /\ expected_disconnect (w_client (disconnect w)) = true
          /\ is_running (w_client (disconnect w)) = false) as (H1 & H2 & H3) by (unfold disconnect; cbn; by case_match).
  rewrite execs_app, leave_steps by (by rewrite Hl). generalize dependent (disconnect w). clear w Hr Ha. intros w Hl H1 H2 H3.
  rewrite decide_expected by done. eexists. split.
  - cbn [execs exec]. rewrite run_step_top by (cbn; by rewrite Hl). by rewrite top_ended.
  - cbn. by rewrite Hl.
Qed.

(** A keep-alive task that gives up after three minutes of socket errors,
    "forcing reconnect", ends the run loop: it calls [disconnect], which takes
    [is_running] down, and the client does not connect again. *)
Theorem keepalive_failure_stops i e last err d now w :
  w_keeps w !! i = Some (mkKeep last err K_ping) -> w_runs w = [R_select d] ->
  enable_auto_reconnect (w_client w) = true -> now - last > KEEP_ALIVE_MAX_FAIL_TIME ->
  exists w', execs zlib zerr [Do_answer i (Err (CI_Socket e)) now; Do_run 0 now; Do_run 0 now; Do_run 0 now] w = Some w'
    /\ w_runs w' = [R_ended] /\ is_running (w_client w') = false /\ is_connected (w_client w') = false.
Proof.
  intros Hk Hr Ha Ht. cbn [execs exec]. unfold keep_answer. rewrite Hk, Ha. cbn [ping_result andb].
  assert (KEEP_ALIVE_MAX_FAIL_TIME <? now - last = true) as -> by lia.
  by apply (disconnect_ends d now (set_keep i (mkKeep last (wrap 32 (err + 1)) K_done) w)).
Qed.

(** A call of [disconnect] while the run loop is connecting is lost on the
    message loop: the connection comes up afterwards and the loop waits on it,
    though the client is no longer running. *)
Theorem disconnect_while_connecting key now w :
  w_runs w = [R_dial] ->
  exists w', execs zlib zerr [Do_task T_disconnect; Do_dial 0 (Dialed key) now; Do_run 0 now] w = Some w'
    /\ is_running (w_client w') = false /\ is_connected (w_client w') = true
    /\ w_runs w' = [R_select frame_decoder_new].
Proof.
  intros Hr. destruct w as [[] dev rs ks ps lg nc]. cbn in *. subst. unfold disconnect. cbn.
  destruct transport0; (eexists; split; [reflexivity|done]).
Qed.
End KeepAlive.

(** ** Stand-ins and witnesses *)

(** A server that encrypts with the key the client reads with. *)
Definition toy_key : bytes := replicate 32 1.
Definition toy_frames (ctr : u32) (nodes : list Node) : bytes :=
  (@send_nodes toy_gcm bytes wire (Some toy_key) nodes (ctr, [])).2.2.

Definition success_node : Node := mkNode (lit "success") [(lit "lid", lit "7@lid")] None.
Definition stream_error_node (code : str) : Node := mkNode (lit "stream:error") [(lit "code", code)] None.
Definition replaced_node : Node :=
  mkNode (lit "stream:error") [] (Some (NC_Nodes [mkNode (lit "conflict") [(lit "type", lit "replaced")] None])).
Definition failure_node (reason : str) : Node := mkNode (lit "failure") [(lit "reason", reason)] None.

Definition life_device : Device :=
  mkDevice None None 1 (toy_pair 1) (toy_pair 2) (toy_pair 3) 1 [] [] None (lit "Ana") 2 3000 1 0 DEVICE_PROPS None.

Abbreviation toy_execs := (@execs toy_gcm quiet_zlib (fun b => b)).
Abbreviation toy_reachable := (@reachable toy_gcm quiet_zlib (fun b => b) life_device).

(** From nothing to the message loop, and a chunk of stanzas up to the next wait. *)
Definition come_up (key : bytes) : list Label := [Do_run 0 0; Do_dial 0 (Dialed key) 0; Do_run 0 0].
Definition chunk (ctr : u32) (nodes : list Node) : list Label :=
  Do_event 0 (Some (DataReceived (toy_frames ctr nodes))) :: replicate (length nodes) (Do_run 0 0).

Definition world_of (ls : list Label) : World := default_or (world_new life_device) (toy_execs ls (world_new life_device)).

Lemma execs_reachable ls w w' : toy_reachable w -> toy_execs ls w = Some w' -> toy_reachable w'.
Proof.
  revert w. induction ls as [|l ls IH]; intros w Hw; cbn; [by intros [= <-]|].
  destruct (exec _ _ l w) eqn:E; [|done]. apply IH. by econstructor.
Qed.

Lemma toy_reach ls w' : toy_execs ls (world_new life_device) = Some w' -> toy_reachable w'.
Proof. apply execs_reachable. constructor. Qed.

(** The task of a login up to its wait for the offline messages. *)
Definition first_steps : list Label :=
  [Do_post 0 0] ++ concat (replicate 2 [Do_post 0 0; Do_send 0 0; Do_post 0 0]) ++ [Do_post 0 0].

(** A login, then the server asks for a new stream and the client connects again. *)
Definition relogin : list Label :=
  [Do_run_call] ++ come_up toy_key ++ chunk 0 [success_node] ++ [Do_run 0 0] ++ first_steps
  ++ chunk 1 [stream_error_node (lit "515")] ++ replicate 2 (Do_run 0 0) ++ come_up toy_key.

(** The wait is over and the upload of pre-keys is begun. *)
Definition upload_begun : list Label := relogin ++ [Do_post 0 0; Do_post 0 0].

(** The task of a login outlives its connection: the generation is counted
    up by a login, not by a connection, so between a reconnection and the login
    on it the task of the old login passes its check and uploads pre-keys over
    the new connection, on which nobody is logged in. *)
Theorem stale_task_on_new_connection :
  exists w, toy_reachable w /\ logins w = 1%nat /\ is_logged_in (w_client w) = false
    /\ L_login 1 (Some 0%nat) ∈ w_log w /\ L_sent 1 (Some 1%nat) N_upload_pre_keys ∈ w_log w.
Proof.
  exists (world_of (upload_begun ++ [Do_send 0 0; Do_send 0 0])).
  assert (toy_execs (upload_begun ++ [Do_send 0 0; Do_send 0 0]) (world_new life_device)
          = Some (world_of (upload_begun ++ [Do_send 0 0; Do_send 0 0]))) as E by (vm_compute; reflexivity).
  split; [by eapply toy_reach|]. split_and!; [vm_compute; reflexivity..| |];
    apply list_elem_of_lookup; [exists 2%nat|exists 12%nat]; vm_compute; reflexivity.
Qed.

(** And the check does not hold for what the operation sends: an upload that was
    begun before the next login goes out after it, for the old login and over the
    connection of the new one. *)
Theorem old_login_sends_after_new :
  exists w i k, toy_reachable w /\ w_log w !! i = Some (L_login 2 (Some 1%nat)) /\ (i < k)%nat
    /\ w_log w !! k = Some (L_sent 1 (Some 1%nat) N_upload_pre_keys).
Proof.
  exists (world_of (upload_begun ++ chunk 0 [success_node] ++ [Do_send 0 0; Do_send 0 0])), 11%nat, 13%nat.
  assert (toy_execs (upload_begun ++ chunk 0 [success_node] ++ [Do_send 0 0; Do_send 0 0]) (world_new life_device)
          = Some (world_of (upload_begun ++ chunk 0 [success_node] ++ [Do_send 0 0; Do_send 0 0]))) as E by (vm_compute; reflexivity).
  split; [by eapply toy_reach|]. split_and!; [vm_compute; reflexivity|lia|vm_compute; reflexivity].
Qed.

Lemma logins_in_order_witness :
  (forall g, NoDup (marks g (w_log (world_of upload_begun)))) /\ logins (world_of upload_begun) = 1%nat.
Proof.
  destruct (@logins_in_order toy_gcm quiet_zlib (fun b => b) life_device (world_of upload_begun)) as (H & _).
  - apply (toy_reach upload_begun). vm_compute. reflexivity.
  - vm_compute. reflexivity.
  - split; [exact H|vm_compute; reflexivity].
Defined.

(** The loop has got a chunk with one stanza and not yet looked at it. *)
Definition got (n : Node) : World :=
  world_of ([Do_run_call] ++ come_up toy_key ++ [Do_event 0 (Some (DataReceived (toy_frames 0 [n])))]).

Lemma reconnection_policy_witness :
  exists w', toy_execs [Do_run 0 0; Do_run 0 0; Do_run 0 0] (got (stream_error_node (lit "515"))) = Some w'
    /\ w_runs w' !! 0%nat = Some R_top /\ auto_reconnect_errors (w_client w') = 0 /\ is_connected (w_client w') = false
    /\ is_running (w_client w') = true.
Proof.
  refine (@reconnection_policy toy_gcm quiet_zlib (fun b => b) 0 0 _ _ _ (stream_error_node (lit "515"))
    (got (stream_error_node (lit "515"))) _ _ _ _ _ _ _ _);
    [vm_compute; reflexivity|vm_compute; reflexivity|vm_compute; reflexivity|reflexivity|discriminate|reflexivity|reflexivity].
Defined.

Lemma session_end_is_final_witness :
  exists w', toy_execs ([Do_run 0 0] ++ [Do_run 0 0; Do_task T_offline_done; Do_run 0 0]) (got replaced_node) = Some w'
    /\ (connect_attempts w' <= connect_attempts (got replaced_node))%nat.
Proof.
  eexists. split; [vm_compute; reflexivity|].
  refine (Nat.le_trans _ _ _ (proj1 (@session_end_is_final toy_gcm quiet_zlib (fun b => b) 0 0 _ _ _ replaced_node (got replaced_node) _
    [Do_run 0 0; Do_task T_offline_done; Do_run 0 0] _ _ _ _ _ _ _ _ _ _)) _);
    [vm_compute; reflexivity|vm_compute; reflexivity|vm_compute; reflexivity|reflexivity|discriminate|reflexivity
    |reflexivity|repeat constructor; discriminate|vm_compute; reflexivity|apply Nat.leb_le; vm_compute; reflexivity].
Defined.

(** The attempt that is left: a call of [disconnect] while a call of [run] sleeps
    in its back-off, and another [run], leave two run loops; the second one is
    told that it was replaced, and the first, which does not look at
    [enable_auto_reconnect] at the head of its loop, connects again. *)
Definition two_runs : list Label :=
  [Do_run_call; Do_run 0 0; Do_dial 0 TransportFailed 0; Do_run 0 0; Do_task T_disconnect; Do_run_call;
   Do_run 1 0; Do_dial 1 (Dialed toy_key) 0; Do_run 1 0; Do_event 1 (Some (DataReceived (toy_frames 0 [replaced_node])))].
Definition stopped : list Label := two_runs ++ [Do_run 1 0].

Theorem second_run_dials_after_stop :
  exists w w', toy_reachable w /\ enable_auto_reconnect (w_client w) = false /\ w_runs w !! 1%nat = Some R_leave
    /\ toy_execs [Do_run 1 0; Do_run 0 0; Do_run 0 0; Do_dial 0 (Dialed toy_key) 0] w = Some w'
    /\ connect_attempts w' = S (connect_attempts w) /\ is_connected (w_client w') = true.
Proof.
  assert (toy_execs stopped (world_new life_device) = Some (world_of stopped)) as E by (vm_compute; reflexivity).
  exists (world_of stopped). eexists. split; [by eapply toy_reach|].
  split_and!; try (vm_compute; reflexivity).
Qed.

Lemma one_attempt_at_a_time_witness : dials (world_of [Do_run_call; Do_run 0 0]) = 1%nat.
Proof.
  rewrite (@one_attempt_at_a_time toy_gcm quiet_zlib (fun b => b) life_device); [vm_compute; reflexivity|].
  apply (toy_reach [Do_run_call; Do_run 0 0]). vm_compute. reflexivity.
Defined.

Lemma reconnect_schedule_witness :
  exists w', toy_execs (concat (map failed_slept (replicate 20 (0, TransportFailed))) ++ failed 0 HandshakeFailed)
      (world_of [Do_run_call]) = Some w' /\ w_runs w' = [R_sleep 30].
Proof.
  destruct (@reconnect_schedule toy_gcm quiet_zlib (fun b => b) (replicate 20 (0, TransportFailed)) 0 HandshakeFailed
    (world_of [Do_run_call])) as (w' & E & H & _); [by repeat constructor|done|reflexivity|by split|].
  exists w'. split; [exact E|exact H].
Defined.
