(* ===== verification/Mailbox.v ===== *)
(** * Incoming messages of a chat, one after the other: [src/handlers/message.rs]

    Every stanza is handled in a task of its own; the task of a message takes
    the lock of its chat, gets or makes the chat's queue and sends the message
    to it, and a worker per queue handles the messages it receives in order.
    The queues live in a cache whose entries expire ([src/client.rs]); a worker
    whose queue has no sender left works off what it holds, then ends and
    invalidates the entry of its chat.

    The theorems: without an expiry the messages of a chat are handled in the
    order of their enqueuing, one at a time; with expiries nothing is lost or
    doubled, but two workers of a chat can be at work together. *)

From stdpp Require Import gmap.
From S2P Require Import Prelude RustStd.

Section Mailbox.
Context {A : Type}.

(** [mpsc::channel(10000)] *)
Definition QUEUE_CAPACITY : nat := 10000.

(** A worker: its chat, its channel, the message it is handling, and whether it
    has ended. *)
Record Worker := mkWorker { wk_chat : str; wk_queue : list A; wk_current : option A; wk_ended : bool }.

(** The stanzas whose tasks have not yet enqueued them; the cache of queues, by
    the number of the worker; the workers; and what happened: the messages
    enqueued, begun and finished. *)
Record Mail := mkMail {
  m_arrived : list (str * A); m_queues : gmap str nat; m_workers : list Worker;
  m_enqueued : list (str * A); m_begun : list (str * A); m_finished : list (str * A)
}.

Definition mail_new : Mail := mkMail [] ∅ [] [] [] [].

(** The stanza of a message is given to a task. *)
Definition mail_arrive (chat : str) (a : A) (m : Mail) : Mail :=
  mkMail (m_arrived m ++ [(chat, a)]) (m_queues m) (m_workers m) (m_enqueued m) (m_begun m) (m_finished m).

(** [get_with_by_ref]: the queue of the chat, made with its worker if need be. *)
Definition get_queue (chat : str) (m : Mail) : nat * Mail :=
  match m_queues m !! chat with
  | Some k => (k, m)
  | None =>
      let k := length (m_workers m) in
      (k, mkMail (m_arrived m) (<[chat := k]> (m_queues m)) (m_workers m ++ [mkWorker chat [] None false])
            (m_enqueued m) (m_begun m) (m_finished m))
  end.

Definition send_to (k : nat) (a : A) (m : Mail) : Mail :=
  mkMail (m_arrived m) (m_queues m)
    (alter (fun w => mkWorker (wk_chat w) (wk_queue w ++ [a]) (wk_current w) (wk_ended w)) k (m_workers m))
    (m_enqueued m) (m_begun m) (m_finished m).

(** [MessageHandler::handle] of the [i]-th waiting task, under the lock of the
    chat; it waits while the channel is full.  A message without [from] is not
    handled. *)
Definition mail_handle (i : nat) (m : Mail) : option Mail :=
  match m_arrived m !! i with
  | None => None
  | Some (chat, a) =>
      let m := mkMail (delete i (m_arrived m)) (m_queues m) (m_workers m) (m_enqueued m) (m_begun m) (m_finished m) in
      match chat with
      | [] => Some m
      | _ =>
          let '(k, m) := get_queue chat m in
          match m_workers m !! k with
          | Some w =>
              if wk_ended w then Some m
              else if (length (wk_queue w) <? QUEUE_CAPACITY)%nat then
                let m := send_to k a m in
                Some (mkMail (m_arrived m) (m_queues m) (m_workers m) (m_enqueued m ++ [(chat, a)]) (m_begun m) (m_finished m))
              else None
          | None => None
          end
      end
  end.

(** A worker receives a message and begins to handle it. *)
Definition mail_begin (k : nat) (m : Mail) : option Mail :=
  match m_workers m !! k with
  | Some (mkWorker chat (a :: queue) None false) =>
      Some (mkMail (m_arrived m) (m_queues m) (<[k := mkWorker chat queue (Some a) false]> (m_workers m))
              (m_enqueued m) (m_begun m ++ [(chat, a)]) (m_finished m))
  | _ => None
  end.

Definition mail_finish (k : nat) (m : Mail) : option Mail :=
  match m_workers m !! k with
  | Some (mkWorker chat queue (Some a) false) =>
      Some (mkMail (m_arrived m) (m_queues m) (<[k := mkWorker chat queue None false]> (m_workers m))
              (m_enqueued m) (m_begun m) (m_finished m ++ [(chat, a)]))
  | _ => None
  end.

(** The cache drops the entry of a chat. *)
Definition mail_expire (chat : str) (m : Mail) : Mail :=
  mkMail (m_arrived m) (delete chat (m_queues m)) (m_workers m) (m_enqueued m) (m_begun m) (m_finished m).

Definition has_sender (k : nat) (m : Mail) : bool := existsb (fun e => (e.2 =? k)%nat) (map_to_list (m_queues m)).

(** [recv] gives [None]: no sender is left and the channel is empty.  The worker
    invalidates the entry of its chat. *)
Definition mail_end (k : nat) (m : Mail) : option Mail :=
  match m_workers m !! k with
  | Some (mkWorker chat [] None false) =>
      if has_sender k m then None
      else Some (mkMail (m_arrived m) (delete chat (m_queues m)) (<[k := mkWorker chat [] None true]> (m_workers m))
                   (m_enqueued m) (m_begun m) (m_finished m))
  | _ => None
  end.

Inductive MailLabel :=
| M_arrive (chat : str) (a : A) | M_handle (i : nat) | M_begin (k : nat) | M_finish (k : nat) | M_expire (chat : str) | M_end (k : nat).

Definition mail_step (l : MailLabel) (m : Mail) : option Mail :=
  match l with
  | M_arrive chat a => Some (mail_arrive chat a m)
  | M_handle i => mail_handle i m
  | M_begin k => mail_begin k m
  | M_finish k => mail_finish k m
  | M_expire chat => Some (mail_expire chat m)
  | M_end k => mail_end k m
  end.

Fixpoint mail_steps (ls : list MailLabel) (m : Mail) : option Mail :=
  match ls with
  | [] => Some m
  | l :: ls => match mail_step l m with Some m => mail_steps ls m | None => None end
  end.

(** ** Lemmas *)

Implicit Types (m : Mail) (chat : str) (k i : nat).

Definition of_chat (chat : str) (l : list (str * A)) : list A := omap (fun e => if e.1 =s chat then Some e.2 else None) l.
#[local] Arguments of_chat : simpl never.
Definition in_hand (w : Worker) : list A := match wk_current w with Some a => [a] | None => [] end.

Lemma of_chat_app chat l l2 : of_chat chat (l ++ l2) = of_chat chat l ++ of_chat chat l2.
Proof. apply omap_app. Qed.
Lemma of_chat_one chat e : of_chat chat [e] = if e.1 =s chat then [e.2] else [].
Proof. unfold of_chat. cbn. by destruct (e.1 =s chat). Qed.

(** The cache names workers that have not ended, each by its own chat. *)
Definition queues_ok (m : Mail) : Prop :=
  forall (chat : str) k, m_queues m !! chat = Some k ->
    exists w, m_workers m !! k = Some w /\ wk_chat w = chat /\ wk_ended w = false.

Lemma has_sender_spec k m (chat : str) : m_queues m !! chat = Some k -> has_sender k m = true.
Proof.
  intros H. unfold has_sender. apply existsb_exists. exists (chat, k). split; [|by apply Nat.eqb_eq].
  by apply list_elem_of_In, elem_of_map_to_list.
Qed.

Lemma get_queue_ok (chat : str) m k (m' : Mail) :
  queues_ok m -> get_queue chat m = (k, m') ->
  queues_ok m' /\ m_queues m' !! chat = Some k
  /\ exists w, m_workers m' !! k = Some w /\ wk_chat w = chat /\ wk_ended w = false.
Proof.
  intros Hq. unfold get_queue. destruct (m_queues m !! chat) as [k0|] eqn:Hk.
  - intros [= <- <-]. split_and!; [done|done|by apply Hq].
  - intros [= <- <-]. cbn.
    assert ((m_workers m ++ [mkWorker chat [] None false]) !! length (m_workers m) = Some (mkWorker chat [] None false)) as Hn
      by (by rewrite lookup_app_r, Nat.sub_diag).
    split_and!; [|by rewrite lookup_insert_eq|by eexists].
    intros c k. cbn. destruct (decide (c = chat)) as [->|Hc].
    + rewrite lookup_insert_eq. intros [= <-]. by eexists.
    + rewrite lookup_insert_ne by done. intros Hk0. destruct (Hq _ _ Hk0) as (w & Hw & H1 & H2). exists w.
      split; [|done]. by apply lookup_app_l_Some.
Qed.

(** A step of a worker keeps what the cache says of it. *)
Lemma queues_ok_insert (m : Mail) (k : nat) (w w' : Worker) (q : gmap str nat) :
  queues_ok m -> m_workers m !! k = Some w -> wk_chat w' = wk_chat w -> wk_ended w' = false ->
  (forall chat j, q !! chat = Some j -> m_queues m !! chat = Some j) ->
  forall chat j, q !! chat = Some j ->
    exists w0, <[k := w']> (m_workers m) !! j = Some w0 /\ wk_chat w0 = chat /\ wk_ended w0 = false.
Proof.
  intros Hq Hk Hc He Hs chat j Hj. destruct (Hq _ _ (Hs _ _ Hj)) as (w0 & Hw0 & H1 & H2).
  destruct (decide (j = k)) as [->|Hne].
  - exists w'. rewrite list_lookup_insert_eq by (by eapply lookup_lt_Some). split_and!; [done|congruence|done].
  - exists w0. by rewrite list_lookup_insert_ne by done.
Qed.

Lemma alter_insert_worker (f : Worker -> Worker) (k : nat) w (ws : list Worker) : ws !! k = Some w -> alter f k ws = <[k := f w]> ws.
Proof. intros H. apply list_eq. intros j. destruct (decide (j = k)) as [->|Hne].
  - rewrite list_lookup_alter_eq, H, list_lookup_insert_eq; [done|by eapply lookup_lt_Some].
  - by rewrite list_lookup_alter_ne, list_lookup_insert_ne by done.
Qed.

(** What handling a stanza of a chat does, when the cache is sound. *)
Lemma handle_enqueues i m (m' : Mail) (chat : str) a :
  queues_ok m -> m_arrived m !! i = Some (chat, a) -> chat <> [] -> mail_handle i m = Some m' ->
  exists k w m1, get_queue chat (mkMail (delete i (m_arrived m)) (m_queues m) (m_workers m) (m_enqueued m) (m_begun m) (m_finished m)) = (k, m1)
    /\ m_queues m1 !! chat = Some k /\ queues_ok m1 /\ m_workers m1 !! k = Some w /\ wk_chat w = chat /\ wk_ended w = false
    /\ m' = mkMail (m_arrived m1) (m_queues m1)
               (<[k := mkWorker chat (wk_queue w ++ [a]) (wk_current w) false]> (m_workers m1))
               (m_enqueued m1 ++ [(chat, a)]) (m_begun m1) (m_finished m1).
Proof.
  intros Hq Hi Hc. unfold mail_handle. rewrite Hi. destruct chat as [|c0 chat0] eqn:Ec; [done|]. rewrite <- Ec in *. clear Ec.
  set (m0 := mkMail _ _ _ _ _ _). assert (queues_ok m0) as Hq0 by done.
  destruct (get_queue chat m0) as [k m1] eqn:Eg. destruct (get_queue_ok _ _ _ _ Hq0 Eg) as (Hq1 & Hk & w & Hw & H1 & H2).
  rewrite Hw, H2. destruct (_ <? _)%nat; [|done]. intros [= <-]. exists k, w, m1. split_and!; try done.
  unfold send_to. cbn. by rewrite (alter_insert_worker _ _ w), H1, H2.
Qed.

Lemma handle_empty i m (m' : Mail) a : m_arrived m !! i = Some ([], a) -> mail_handle i m = Some m' ->
  m' = mkMail (delete i (m_arrived m)) (m_queues m) (m_workers m) (m_enqueued m) (m_begun m) (m_finished m).
Proof. intros Hi. unfold mail_handle. rewrite Hi. by intros [= <-]. Qed.

Lemma step_queues_ok l m (m' : Mail) : queues_ok m -> mail_step l m = Some m' -> queues_ok m'.
Proof.
  intros Hq. destruct l as [chat a|i|k|k|chat|k]; cbn [mail_step].
  - by intros [= <-].
  - intros E. destruct (m_arrived m !! i) as [[chat a]|] eqn:Hi; [|by unfold mail_handle in E; rewrite Hi in E].
    destruct (decide (chat = [])) as [->|Hne]; [by rewrite (handle_empty _ _ _ _ Hi E)|].
    destruct (handle_enqueues _ _ _ _ _ Hq Hi Hne E) as (k & w & m1 & _ & _ & Hq1 & Hw & H1 & H2 & ->).
    intros c j. cbn. eapply (queues_ok_insert m1 k w); try done.
  - unfold mail_begin. destruct (m_workers m !! k) as [[chat [|a q] [|] [|] ]|] eqn:Hk; try done. intros [= <-].
    intros c j. cbn. by eapply (queues_ok_insert m k _ _ _ Hq Hk).
  - unfold mail_finish. destruct (m_workers m !! k) as [[chat q [a|] [|] ]|] eqn:Hk; try done. intros [= <-].
    intros c j. cbn. by eapply (queues_ok_insert m k _ _ _ Hq Hk).
  - intros [= <-] c j. cbn. rewrite lookup_delete_Some. intros [_ Hj]. by apply Hq.
  - unfold mail_end. destruct (m_workers m !! k) as [[chat [|] [|] [|] ]|] eqn:Hk; try done.
    destruct (has_sender k m) eqn:Hs; [done|]. intros [= <-] c j. cbn. rewrite lookup_delete_Some. intros [_ Hj].
    destruct (decide (j = k)) as [->|Hne]; [by rewrite (has_sender_spec _ _ _ Hj) in Hs|].
    rewrite list_lookup_insert_ne by done. by apply Hq.
Qed.

(** ** Without expiry: one worker per chat *)

Definition worker_of (chat : str) (m : Mail) : option Worker := m_queues m !! chat ≫= fun k => m_workers m !! k.
Definition queue_of (chat : str) (m : Mail) : list A := match worker_of chat m with Some w => wk_queue w | None => [] end.
Definition hand_of (chat : str) (m : Mail) : list A := match worker_of chat m with Some w => in_hand w | None => [] end.

Record fifo (m : Mail) : Prop := {
  f_queues : queues_ok m;
  f_one : forall k w, m_workers m !! k = Some w -> m_queues m !! wk_chat w = Some k;
  f_begun : forall chat, of_chat chat (m_enqueued m) = of_chat chat (m_begun m) ++ queue_of chat m;
  f_finished : forall chat, of_chat chat (m_begun m) = of_chat chat (m_finished m) ++ hand_of chat m
}.

Lemma worker_of_update m k (w w' : Worker) ar en be fi chat :
  queues_ok m -> m_workers m !! k = Some w -> m_queues m !! wk_chat w = Some k ->
  worker_of chat (mkMail ar (m_queues m) (<[k := w']> (m_workers m)) en be fi)
  = if wk_chat w =s chat then Some w' else worker_of chat m.
Proof.
  intros Hq Hk Hc. unfold worker_of. cbn. destruct (bytes_eqb_spec (wk_chat w) chat) as [<-|Hne].
  - rewrite Hc. cbn. by rewrite list_lookup_insert_eq by (by eapply lookup_lt_Some).
  - destruct (m_queues m !! chat) as [j|] eqn:Hj; [|done]. cbn.
    rewrite list_lookup_insert_ne; [done|]. intros ->. destruct (Hq _ _ Hj) as (w0 & Hw0 & H1 & _). congruence.
Qed.

(** The workers keep their places and their chats. *)
Lemma one_insert m k (w w' : Worker) :
  (forall k w, m_workers m !! k = Some w -> m_queues m !! wk_chat w = Some k) ->
  m_workers m !! k = Some w -> wk_chat w' = wk_chat w ->
  forall j w0, <[k := w']> (m_workers m) !! j = Some w0 -> m_queues m !! wk_chat w0 = Some j.
Proof.
  intros H Hk Hc j w0. destruct (decide (j = k)) as [->|Hne].
  - rewrite list_lookup_insert_eq by (by eapply lookup_lt_Some). intros [= <-]. rewrite Hc. by apply H.
  - rewrite list_lookup_insert_ne by done. apply H.
Qed.

Lemma fifo_get_queue chat m k (m' : Mail) : fifo m -> get_queue chat m = (k, m') -> fifo m'.
Proof.
  intros [F1 F2 F3 F4] E. pose proof (get_queue_ok _ _ _ _ F1 E) as (Hq & Hk & _). revert E. unfold get_queue.
  destruct (m_queues m !! chat) as [k0|] eqn:Hk0; [by intros [= <- <-]|]. intros [= <- <-].
  assert (forall c, worker_of c (mkMail (m_arrived m) (<[chat := length (m_workers m)]> (m_queues m))
            (m_workers m ++ [mkWorker chat [] None false]) (m_enqueued m) (m_begun m) (m_finished m))
          = if chat =s c then Some (mkWorker chat [] None false) else worker_of c m) as Hwo.
  { intros c. unfold worker_of. cbn. destruct (bytes_eqb_spec chat c) as [<-|Hne].
    - rewrite lookup_insert_eq. cbn. by rewrite lookup_app_r, Nat.sub_diag.
    - rewrite lookup_insert_ne by done. destruct (m_queues m !! c) as [j|] eqn:Hj; [|done]. cbn.
      destruct (F1 _ _ Hj) as (w0 & Hw0 & _). by rewrite lookup_app_l by (by eapply lookup_lt_Some). }
  assert (worker_of chat m = None) as Hno by (unfold worker_of; by rewrite Hk0).
  split; [done| | |].
  - intros j w0. cbn. rewrite lookup_app_Some. intros [Hw0|[Hlt Hw0] ].
    + specialize (F2 _ _ Hw0). rewrite lookup_insert_ne; [done|]. intros Heq. rewrite <- Heq in F2. congruence.
    + apply list_lookup_singleton_Some in Hw0 as [Hj <-]. cbn. rewrite lookup_insert_eq. f_equal. lia.
  - intros c. unfold queue_of. rewrite Hwo, F3. unfold queue_of. cbn.
    destruct (bytes_eqb_spec chat c) as [<-|]; [by rewrite Hno|done].
  - intros c. unfold hand_of. rewrite Hwo, F4. unfold hand_of. cbn.
    destruct (bytes_eqb_spec chat c) as [<-|]; [by rewrite Hno|done].
Qed.

Definition is_expire (l : MailLabel) : bool := match l with M_expire _ => true | _ => false end.

Lemma fifo_arrived m ar : fifo m -> fifo (mkMail ar (m_queues m) (m_workers m) (m_enqueued m) (m_begun m) (m_finished m)).
Proof. intros []. by split. Qed.

Lemma fifo_handle i m (m' : Mail) : fifo m -> mail_handle i m = Some m' -> fifo m'.
Proof.
  intros F E. destruct (m_arrived m !! i) as [[chat a]|] eqn:Hi; [|by unfold mail_handle in E; rewrite Hi in E].
  destruct (decide (chat = [])) as [->|Hne]; [rewrite (handle_empty _ _ _ _ Hi E); by apply fifo_arrived|].
  destruct (handle_enqueues _ _ _ _ _ (f_queues _ F) Hi Hne E) as (k & w & m1 & Eg & Hk & Hq1 & Hw & H1 & H2 & ->).
  pose proof (fifo_get_queue _ _ _ _ (fifo_arrived _ _ F) Eg) as [F1 F2 F3 F4].
  assert (m_queues m1 !! wk_chat w = Some k) as Hk' by (by rewrite H1).
  assert (worker_of chat m1 = Some w) as Hwo by (unfold worker_of; by rewrite Hk).
  split.
  - intros c j. cbn. by eapply (queues_ok_insert m1 k w).
  - cbn. by eapply (one_insert m1 k w).
  - intros c. unfold queue_of. rewrite (worker_of_update m1 k w) by done. cbn.
    rewrite of_chat_app, of_chat_one, F3, H1. cbn. unfold queue_of.
    destruct (bytes_eqb_spec chat c) as [<-|]; [rewrite Hwo; cbn; by rewrite app_assoc|by rewrite app_nil_r].
  - intros c. unfold hand_of. rewrite (worker_of_update m1 k w) by done. cbn. rewrite F4, H1. unfold hand_of.
    destruct (bytes_eqb_spec chat c) as [<-|]; [by rewrite Hwo|done].
Qed.

Lemma fifo_step l m (m' : Mail) : is_expire l = false -> fifo m -> mail_step l m = Some m' -> fifo m'.
Proof.
  intros Hl F. destruct l as [chat a|i|k|k|chat|k]; cbn [mail_step]; [|by apply fifo_handle| | |done|].
  - intros [= <-]. by apply (fifo_arrived m).
  - unfold mail_begin. destruct (m_workers m !! k) as [[chat [|a q] [|] [|] ]|] eqn:Hk; try done. intros [= <-].
    destruct F as [F1 F2 F3 F4]. pose proof (F2 _ _ Hk) as Hc. cbn in Hc.
    assert (worker_of chat m = Some (mkWorker chat (a :: q) None false)) as Hwo by (unfold worker_of; by rewrite Hc).
    split.
    + intros c j. cbn. by eapply (queues_ok_insert m k _ _ _ F1 Hk).
    + cbn. by eapply (one_insert m k _ _ F2 Hk).
    + intros c. unfold queue_of. rewrite (worker_of_update m k _ _ _ _ _ _ _ F1 Hk Hc). cbn.
      rewrite of_chat_app, of_chat_one, F3. cbn. unfold queue_of.
      destruct (bytes_eqb_spec chat c) as [<-|]; [rewrite Hwo; cbn; by rewrite <- app_assoc|by rewrite app_nil_r].
    + intros c. unfold hand_of. rewrite (worker_of_update m k _ _ _ _ _ _ _ F1 Hk Hc). cbn.
      rewrite of_chat_app, of_chat_one, F4. cbn. unfold hand_of.
      destruct (bytes_eqb_spec chat c) as [<-|]; [rewrite Hwo; cbn; by rewrite app_nil_r|by rewrite app_nil_r].
  - unfold mail_finish. destruct (m_workers m !! k) as [[chat q [a|] [|] ]|] eqn:Hk; try done. intros [= <-].
    destruct F as [F1 F2 F3 F4]. pose proof (F2 _ _ Hk) as Hc. cbn in Hc.
    assert (worker_of chat m = Some (mkWorker chat q (Some a) false)) as Hwo by (unfold worker_of; by rewrite Hc).
    split.
    + intros c j. cbn. by eapply (queues_ok_insert m k _ _ _ F1 Hk).
    + cbn. by eapply (one_insert m k _ _ F2 Hk).
    + intros c. unfold queue_of. rewrite (worker_of_update m k _ _ _ _ _ _ _ F1 Hk Hc). cbn. rewrite F3. unfold queue_of.
      destruct (bytes_eqb_spec chat c) as [<-|]; [by rewrite Hwo|done].
    + intros c. unfold hand_of. rewrite (worker_of_update m k _ _ _ _ _ _ _ F1 Hk Hc). cbn.
      rewrite of_chat_app, of_chat_one, F4. cbn. unfold hand_of.
      destruct (bytes_eqb_spec chat c) as [<-|]; [by rewrite Hwo, app_nil_r|by rewrite app_nil_r].
  - unfold mail_end. destruct (m_workers m !! k) as [[chat [|] [|] [|] ]|] eqn:Hk; try done.
    by rewrite (has_sender_spec k m chat) by (by apply (f_one _ F) in Hk).
Qed.

(** C23: As long as no queue expires, a chat's messages are handled in the order
    in which they were enqueued and one at a time: at any moment those that were
    begun are those that are finished and at most one more, and the rest of
    those enqueued wait in their order. *)
Theorem mailbox_fifo ls m chat :
  Forall (fun l => is_expire l = false) ls -> mail_steps ls mail_new = Some m ->
  exists now queue, of_chat chat (m_enqueued m) = of_chat chat (m_finished m) ++ now ++ queue
    /\ of_chat chat (m_begun m) = of_chat chat (m_finished m) ++ now /\ (length now <= 1)%nat.
Proof.
  intros Hl E. assert (fifo m) as [_ _ F3 F4].
  { assert (fifo mail_new) as H by (by split). revert H E. generalize mail_new. induction Hl as [|l ls Hl _ IH]; intros m0 H E.
    - by injection E as <-.
    - cbn in E. destruct (mail_step l m0) as [m1|] eqn:E1; [|done]. eapply IH; [by eapply fifo_step|done]. }
  exists (hand_of chat m), (queue_of chat m). rewrite F3, F4, <- app_assoc. split_and!; [done|done|].
  unfold hand_of, in_hand. repeat case_match; cbn; lia.
Qed.

(** ** With expiry: nothing is lost *)

Definition holds (chat : str) (w : Worker) : list A := if wk_chat w =s chat then in_hand w ++ wk_queue w else [].
Definition held (chat : str) (m : Mail) : list A := concat (map (holds chat) (m_workers m)).
Definition arrivals (ls : list MailLabel) : list (str * A) :=
  omap (fun l => match l with M_arrive chat a => Some (chat, a) | _ => None end) ls.
(** Where a message of the chat can be. *)
Definition everywhere (chat : str) (m : Mail) : list A :=
  of_chat chat (m_arrived m) ++ held chat m ++ of_chat chat (m_finished m).

Lemma held_insert chat k (w w' : Worker) (ws : list Worker) :
  ws !! k = Some w ->
  concat (map (holds chat) (<[k := w']> ws)) ++ holds chat w ≡ₚ concat (map (holds chat) ws) ++ holds chat w'.
Proof.
  revert k. induction ws as [|w0 ws IH]; intros [|k] H; try done.
  - injection H as ->. cbn. solve_Permutation.
  - cbn. rewrite <- !app_assoc. by rewrite (IH k H).
Qed.

(** A worker whose holdings grow by [x] at the end, or shrink by it at the front. *)
Lemma held_grows chat k (w w' : Worker) (ws : list Worker) x :
  ws !! k = Some w -> holds chat w' ≡ₚ holds chat w ++ x ->
  concat (map (holds chat) (<[k := w']> ws)) ≡ₚ concat (map (holds chat) ws) ++ x.
Proof.
  intros H E. apply (Permutation_app_inv_r (holds chat w)). rewrite held_insert by done. rewrite E. solve_Permutation.
Qed.
Lemma held_shrinks chat k (w w' : Worker) (ws : list Worker) x :
  ws !! k = Some w -> holds chat w ≡ₚ holds chat w' ++ x ->
  concat (map (holds chat) ws) ≡ₚ concat (map (holds chat) (<[k := w']> ws)) ++ x.
Proof.
  intros H E. pose proof (held_insert chat k w w' ws H) as Hi. rewrite E in Hi.
  apply (Permutation_app_inv_r (holds chat w')). rewrite <- Hi. solve_Permutation.
Qed.

Lemma of_chat_perm chat l l2 : l ≡ₚ l2 -> of_chat chat l ≡ₚ of_chat chat l2.
Proof.
  unfold of_chat. by intros ->.
Qed.

Lemma held_get_queue chat c m k (m' : Mail) :
  get_queue c m = (k, m') -> held chat m' = held chat m /\ m_arrived m' = m_arrived m /\ m_finished m' = m_finished m.
Proof.
  unfold get_queue. case_match; intros [= <- <-]; [done|]. unfold held. cbn. rewrite map_app, concat_app. cbn.
  unfold holds at 2. cbn. case_match; by rewrite app_nil_r.
Qed.

Lemma step_everywhere chat l m (m' : Mail) :
  chat <> [] -> queues_ok m -> mail_step l m = Some m' ->
  everywhere chat m' ≡ₚ of_chat chat (arrivals [l]) ++ everywhere chat m.
Proof.
  intros Hne Hq. unfold everywhere. destruct l as [c a|i|k|k|c|k]; cbn [mail_step].
  - intros [= <-]. cbn. rewrite of_chat_app. unfold held. cbn. change (arrivals [M_arrive c a]) with [(c, a)]. solve_Permutation.
  - intros E. change (arrivals [M_handle i]) with (@nil (str * A)). change (of_chat chat []) with (@nil A). cbn [app].
    destruct (m_arrived m !! i) as [[c a]|] eqn:Hi; [|by unfold mail_handle in E; rewrite Hi in E].
    assert (of_chat chat (m_arrived m) ≡ₚ of_chat chat [(c, a)] ++ of_chat chat (delete i (m_arrived m))) as Har.
    { rewrite <- of_chat_app. by apply of_chat_perm, delete_Permutation. }
    rewrite of_chat_one in Har. cbn in Har. rewrite Har. destruct (decide (c = [])) as [->|Hc].
    + rewrite (handle_empty _ _ _ _ Hi E). destruct (bytes_eqb_spec [] chat) as [<-|]; [congruence|reflexivity].
    + destruct (handle_enqueues _ _ _ _ _ Hq Hi Hc E) as (k & w & m1 & Eg & Hk & _ & Hw & H1 & H2 & ->).
      destruct (held_get_queue chat _ _ _ _ Eg) as (G1 & G2 & G3). cbn in G2, G3. cbn. rewrite G2, G3.
      unfold held at 1. cbn. rewrite (held_grows chat k w _ _ (if c =s chat then [a] else [])); [|done|].
      * fold (held chat m1). rewrite G1. unfold held. cbn. solve_Permutation.
      * unfold holds. cbn. rewrite H1. destruct (c =s chat); [|done]. unfold in_hand. cbn. by rewrite app_assoc.
  - change (arrivals [M_begin k]) with (@nil (str * A)). change (of_chat chat []) with (@nil A). cbn [app].
    unfold mail_begin. destruct (m_workers m !! k) as [[c [|a q] [|] [|] ]|] eqn:Hk; try done. intros [= <-]. unfold held. cbn.
    rewrite (held_grows chat k _ _ _ [] Hk); [by rewrite app_nil_r|]. unfold holds. cbn. destruct (c =s chat); [|done]. by rewrite app_nil_r.
  - change (arrivals [M_finish k]) with (@nil (str * A)). change (of_chat chat []) with (@nil A). cbn [app].
    unfold mail_finish. destruct (m_workers m !! k) as [[c q [a|] [|] ]|] eqn:Hk; try done. intros [= <-]. unfold held. cbn.
    rewrite of_chat_app, of_chat_one. cbn.
    rewrite (held_shrinks chat k _ (mkWorker c q None false) _ (if c =s chat then [a] else []) Hk); [solve_Permutation|].
    unfold holds. cbn. destruct (c =s chat); [|done]. solve_Permutation.
  - by intros [= <-].
  - change (arrivals [M_end k]) with (@nil (str * A)). change (of_chat chat []) with (@nil A). cbn [app].
    unfold mail_end. destruct (m_workers m !! k) as [[c [|] [|] [|] ]|] eqn:Hk; try done. case_match; [done|]. intros [= <-].
    unfold held. cbn. rewrite (held_grows chat k _ _ _ [] Hk); [by rewrite app_nil_r|]. unfold holds. cbn. by destruct (c =s chat).
Qed.

(** C22: However queues expire and workers come and go, no message is lost and
    none is handled twice: every message that arrived for a chat is waiting for
    its task, in a queue, in the hands of a worker or finished, exactly once. *)
Theorem mailbox_no_loss ls m chat :
  chat <> [] -> mail_steps ls mail_new = Some m ->
  of_chat chat (arrivals ls) ≡ₚ of_chat chat (m_arrived m) ++ held chat m ++ of_chat chat (m_finished m).
Proof.
  intros Hc E. change (of_chat chat (m_arrived m) ++ held chat m ++ of_chat chat (m_finished m)) with (everywhere chat m).
  assert (queues_ok mail_new) as Hq by done. assert (everywhere chat mail_new = []) as He by done.
  rewrite <- (app_nil_r (of_chat chat (arrivals ls))), <- He. clear He. revert Hq E. generalize mail_new.
  induction ls as [|l ls IH]; intros m0 Hq E; [by injection E as <-|].
  cbn in E. destruct (mail_step l m0) as [m1|] eqn:E1; [|done].
  assert (arrivals (l :: ls) = arrivals [l] ++ arrivals ls) as -> by (unfold arrivals; by destruct l).
  rewrite of_chat_app. rewrite <- (IH m1 (step_queues_ok _ _ _ Hq E1) E).
  rewrite (step_everywhere chat l m0 m1) by done. solve_Permutation.
Qed.
End Mailbox.
Arguments Mail : clear implicits.
Arguments Worker : clear implicits.
Arguments MailLabel : clear implicits.

(** ** Stand-ins and witnesses *)

Definition toy_chat : str := lit "7@g.us".

(** Two messages of a chat, enqueued, the first begun and finished. *)
Definition toy_mail : list (MailLabel nat) :=
  [M_arrive toy_chat 1%nat; M_arrive toy_chat 2%nat; M_handle 0; M_handle 0; M_begin 0; M_finish 0; M_begin 0].

Lemma mailbox_fifo_witness :
  exists m now queue, mail_steps toy_mail mail_new = Some m
    /\ of_chat toy_chat (m_enqueued m) = of_chat toy_chat (m_finished m) ++ now ++ queue /\ (length now <= 1)%nat.
Proof.
  destruct (mail_steps toy_mail mail_new) as [m|] eqn:E; [|vm_compute in E; discriminate].
  destruct (mailbox_fifo toy_mail m toy_chat) as (now & queue & H1 & _ & H2); [by repeat constructor|exact E|].
  exists m, now, queue. split; [reflexivity|]. split; [exact H1|exact H2].
Defined.

(** The queue of the chat expires while its worker is at work. *)
Definition toy_expired : list (MailLabel nat) :=
  [M_arrive toy_chat 1%nat; M_arrive toy_chat 2%nat; M_handle 0; M_begin 0; M_expire toy_chat; M_handle 0; M_begin 1].

Lemma mailbox_no_loss_witness :
  exists m, mail_steps toy_expired mail_new = Some m
    /\ [1%nat; 2%nat] ≡ₚ of_chat toy_chat (m_arrived m) ++ held toy_chat m ++ of_chat toy_chat (m_finished m).
Proof.
  destruct (mail_steps toy_expired mail_new) as [m|] eqn:E; [|vm_compute in E; discriminate].
  exists m. split; [reflexivity|]. apply (mailbox_no_loss toy_expired m toy_chat); [discriminate|exact E].
Defined.

(** The entries expire a fixed time after they were made, not when idle: two
    messages of one chat can be in the hands of two workers at once. *)
Theorem expired_queue_overlaps :
  exists m, mail_steps toy_expired mail_new = Some m
    /\ map wk_chat (m_workers m) = [toy_chat; toy_chat]
    /\ map wk_current (m_workers m) = [Some 1%nat; Some 2%nat].
Proof. eexists. split; [vm_compute; reflexivity|]. vm_compute. done. Qed.

(** The lock orders the tasks as they come to it, which need not be the order in
    which their stanzas arrived: the second message can be handled first. *)
Theorem later_message_first :
  exists m, mail_steps [M_arrive toy_chat 1%nat; M_arrive toy_chat 2%nat; M_handle 1; M_begin 0; M_finish 0; M_handle 0; M_begin 0] mail_new
            = Some m
    /\ of_chat toy_chat (m_begun m) = [2%nat; 1%nat].
Proof. eexists. split; [vm_compute; reflexivity|]. vm_compute. done. Qed.
