(* ===== verification/Handlers.v ===== *)
(** * Stanzas: [src/handlers/], [Client::process_node] of [src/client.rs], and the small requests

    The way of a decrypted stanza: the response to a request, the router and the
    handlers, the deferred acknowledgement; and the stanzas and queries that
    the client builds for presence, chat states, the block list and the steps
    after a login ([src/features/]).  A handler works on the connection
    ([Lifecycle]), the waiters ([Requests]), the device registry ([Registry]),
    the mailboxes ([Mailbox]) and the state of a pairing ([Pairing]), whose end
    is part of the handler; what it sends, dispatches or starts is its output. *)

From stdpp Require Import gmap.
From S2P Require Import Prelude RustStd Jid Node Attrs Crypto Curve Framing SessionRatchet Noise Connection Requests Device Pairing.
From S2P Require Import Persistence KeyServer LidPn Registry Retry Receive Backend Lifecycle Mailbox.

(** ** Requests of the client *)

(** [client.rs]: the queries after a login *)
Definition set_passive (passive : bool) : InfoQuery :=
  query_set (lit "passive") server_jid
    (Some (NC_Nodes [build (builder_new (if passive then lit "passive" else lit "active"))])).

Definition clean_dirty_bits (id type_ : str) (timestamp : option str) : Node :=
  let clean := b_attr (builder_new (lit "clean")) (lit "type") type_ in
  let clean := match timestamp with Some ts => b_attr clean (lit "timestamp") ts | None => clean end in
  build (b_children
    (b_attr (b_attr (b_attr (b_attr (builder_new (lit "iq")) (lit "to") (jid_to_string server_jid)) (lit "type") (lit "set"))
       (lit "xmlns") (lit "urn:xmpp:whatsapp:dirty")) (lit "id") id) [build clean]).

Definition fetch_props : InfoQuery :=
  query_get (lit "w") server_jid
    (Some (NC_Nodes [build (b_attr (b_attr (builder_new (lit "props")) (lit "protocol") (lit "2")) (lit "hash") [])])).
Definition fetch_privacy_settings : InfoQuery :=
  query_get (lit "privacy") server_jid (Some (NC_Nodes [build (builder_new (lit "privacy"))])).
Definition send_digest_key_bundle : InfoQuery :=
  query_get (lit "encrypt") server_jid (Some (NC_Nodes [build (builder_new (lit "digest"))])).

Definition receipt_type_str (t : ReceiptType) : str :=
  match t with
  | RT_HistorySync => lit "hist_sync"
  | RT_Read => lit "read"
  | RT_ReadSelf => lit "read-self"
  | RT_Delivered => lit "delivery"
  | RT_Played => lit "played"
  | RT_PlayedSelf => lit "played-self"
  | RT_Inactive => lit "inactive"
  | RT_PeerMsg => lit "peer_msg"
  | RT_Sender => lit "sender"
  | RT_ServerError => lit "server-error"
  | RT_Retry => lit "retry"
  | RT_Other s => s
  end.

(** The stanza, if one is sent. *)
Definition send_protocol_receipt (d : Device) (id : str) (t : ReceiptType) : option Node :=
  match id with
  | [] => None
  | _ => match d_pn d with
         | Some own_jid => Some (build (b_attrs_all (builder_new (lit "receipt"))
             [(lit "id", id); (lit "type", receipt_type_str t); (lit "to", jid_to_string (to_non_ad own_jid))]))
         | None => None
         end
  end.

(** [features/presence.rs] *)
Inductive PresenceStatus := Available | Unavailable.
Definition presence_str (s : PresenceStatus) : str :=
  match s with Available => lit "available" | Unavailable => lit "unavailable" end.
Definition presence_set (d : Device) (status : PresenceStatus) : outcome str Node :=
  match d_push_name d with
  | [] => Err (lit "Cannot send presence without a push name set")
  | name => Ok (build (b_attr (b_attr (builder_new (lit "presence")) (lit "type") (presence_str status)) (lit "name") name))
  end.

(** [features/chatstate.rs] *)
Inductive ChatStateType := CST_Composing | CST_Recording | CST_Paused.
Definition chat_state_str (s : ChatStateType) : str :=
  match s with CST_Composing => lit "composing" | CST_Recording => lit "recording" | CST_Paused => lit "paused" end.
Definition build_chatstate_node (to : Jid) (state : ChatStateType) : Node :=
  let child :=
    match state with
    | CST_Composing => build (builder_new (lit "composing"))
    | CST_Recording => build (b_attr (builder_new (lit "composing")) (lit "media") (lit "audio"))
    | CST_Paused => build (builder_new (lit "paused"))
    end in
  build (b_children (b_attr (builder_new (lit "chatstate")) (lit "to") (jid_to_string to)) [child]).

(** [features/blocking.rs] *)
Record BlocklistEntry := mkBlocked { bl_jid : Jid; bl_timestamp : option u64 }.
Definition update_blocklist (jid : Jid) (action : str) : InfoQuery :=
  query_set (lit "blocklist") server_jid
    (Some (NC_Nodes [build (b_attr (b_attr (builder_new (lit "item")) (lit "action") action) (lit "jid") (jid_to_string jid))])).
Definition block (jid : Jid) : InfoQuery := update_blocklist jid (lit "block").
Definition unblock (jid : Jid) : InfoQuery := update_blocklist jid (lit "unblock").
Definition get_blocklist : InfoQuery := query_get (lit "blocklist") server_jid None.

Definition blocklist_entry (item : Node) : option BlocklistEntry :=
  match attr_opt item "jid" with
  | Some jid_str =>
      match from_str jid_str with
      | Ok jid => Some (mkBlocked jid (ap_optional_u64 (lit "t") (ap_new item)).1)
      | _ => None
      end
  | None => None
  end.
Definition parse_blocklist_response (node : Node) : list BlocklistEntry :=
  omap blocklist_entry
    (match get_optional_child node (lit "list") with
     | Some l => get_children_by_tag l (lit "item")
     | None => get_children_by_tag node (lit "item")
     end).
Definition is_blocked (blocklist : list BlocklistEntry) (jid : Jid) : bool :=
  existsb (fun e => user (bl_jid e) =s user jid) blocklist.

(** ** Acknowledgements *)

Definition should_ack (node : Node) : bool :=
  ((tag node =s lit "message") || (tag node =s lit "receipt") || (tag node =s lit "notification") || (tag node =s lit "call"))
  && match im_get (lit "id") (attrs node) with Some _ => true | None => false end
  && match im_get (lit "from") (attrs node) with Some _ => true | None => false end.

Definition insert_opt (key : str) (o : option str) (m : index_map str) : index_map str :=
  match o with Some v => im_insert key v m | None => m end.

(** The stanza of [send_ack_for]. *)
Definition ack_for (node : Node) : option Node :=
  match im_get (lit "id") (attrs node) with
  | None => None
  | Some id =>
      match im_get (lit "from") (attrs node) with
      | None => None
      | Some from =>
          let typ := if negb (tag node =s lit "message") then im_get (lit "type") (attrs node) else None in
          let a := im_insert (lit "to") from (im_insert (lit "id") id (im_insert (lit "class") (tag node) [])) in
          let a := insert_opt (lit "participant") (im_get (lit "participant") (attrs node)) a in
          let a := insert_opt (lit "senderName") (im_get (lit "senderName") (attrs node)) a in
          Some (mkNode (lit "ack") (insert_opt (lit "type") typ a) None)
      end
  end.

(** ** The router: [handlers/router.rs], [create_stanza_router] *)

Inductive Handler :=
| H_message | H_receipt | H_iq | H_success | H_failure | H_stream_error | H_ib | H_notification | H_ack | H_chatstate
| H_unimplemented (tags : list str).

Definition handler_tag (h : Handler) : outcome unit str :=
  match h with
  | H_message => Ok (lit "message")
  | H_receipt => Ok (lit "receipt")
  | H_iq => Ok (lit "iq")
  | H_success => Ok (lit "success")
  | H_failure => Ok (lit "failure")
  | H_stream_error => Ok (lit "stream:error")
  | H_ib => Ok (lit "ib")
  | H_notification => Ok (lit "notification")
  | H_ack => Ok (lit "ack")
  | H_chatstate => Ok (lit "chatstate")
  | H_unimplemented [t] => Ok t
  | H_unimplemented _ => Panic
  end.

Abbreviation StanzaRouter := (gmap str Handler).

(** A second handler for a tag is a panic. *)
Definition register (h : Handler) (r : StanzaRouter) : outcome unit StanzaRouter :=
  let? t := handler_tag h in
  match r !! t with Some _ => Panic | None => Ok (<[t := h]> r) end.

Fixpoint register_all (hs : list Handler) (r : StanzaRouter) : outcome unit StanzaRouter :=
  match hs with [] => Ok r | h :: hs => let? r := register h r in register_all hs r end.

Definition client_handlers : list Handler :=
  [H_message; H_receipt; H_iq; H_success; H_failure; H_stream_error; H_ib; H_notification; H_ack; H_chatstate;
   H_unimplemented [lit "call"]; H_unimplemented [lit "presence"] ].
Definition create_stanza_router : outcome unit StanzaRouter := register_all client_handlers ∅.
Definition route (r : StanzaRouter) (node : Node) : option Handler := r !! tag node.

(** ** What a handler puts out *)

Inductive DeviceListUpdateType := DLU_Add | DLU_Remove | DLU_Update.
Inductive ChatPresence := Composing | Paused.
Inductive ChatPresenceMedia := Text | Audio.

Inductive HEvent :=
| HE_OfflineSyncPreview (total app_data_changes messages notifications receipts : i32)
| HE_OfflineSyncCompleted (count : i32)
| HE_ChatPresence (source : MessageSource) (state : ChatPresence) (media : ChatPresenceMedia)
| HE_Notification (n : Node)
| HE_DeviceListUpdate (user : Jid) (update_type : DeviceListUpdateType) (devices : list u32) (hash : option str)
| HE_SelfPushNameUpdated (from_server : bool) (old_name new_name : str)
| HE_Receipt (r : Receipt).

(** A stanza for the socket, where a failure is logged; an event; a task that is
    started; the codes to show one after the other; an event of the pairing; a retry receipt; the log's line for an unknown stanza. *)
Inductive Out :=
| O_send (n : Node)
| O_event (e : HEvent)
| O_upload_pre_keys
| O_clean_dirty (type_ : str) (timestamp : option str)
| O_set_available
| O_qr (codes : list (str * u64))
| O_pairing (e : PairEvent)
| O_pair_code (n : Node)
| O_retry (r : Receipt) (n : Node)
| O_unhandled (t : str).

(** The pairing: the state of a pairing with a code, whether QR codes are being
    shown, and the stored pairs of LID and number. *)
Record HPairing := mkHPairing { hp_code : PairCodeState; hp_rotating : bool; hp_mappings : gmap str LidPnMappingEntry }.

(** What the handlers share. *)
Record HState := mkHState {
  hs_world : World; hs_iq : IqState; hs_reg : RegState; hs_mail : Mail Node; hs_pairing : HPairing
}.

Definition on_world (f : World -> World) (s : HState) : HState :=
  mkHState (f (hs_world s)) (hs_iq s) (hs_reg s) (hs_mail s) (hs_pairing s).
Definition on_reg (f : RegState -> RegState) (s : HState) : HState :=
  mkHState (hs_world s) (hs_iq s) (f (hs_reg s)) (hs_mail s) (hs_pairing s).
Definition on_pairing (f : HPairing -> HPairing) (s : HState) : HState :=
  mkHState (hs_world s) (hs_iq s) (hs_reg s) (hs_mail s) (f (hs_pairing s)).
Definition hs_device (s : HState) : Device := w_device (hs_world s).

(** ** [handlers/ib.rs] *)

Definition set_edge_routing_info (info : option bytes) (d : Device) : Device :=
  mkDevice (d_pn d) (d_lid d) (d_registration_id d) (d_noise_key d) (d_identity_key d) (d_signed_pre_key d)
    (d_signed_pre_key_id d) (d_signed_pre_key_signature d) (d_adv_secret_key d) (d_account d) (d_push_name d)
    (d_app_version_primary d) (d_app_version_secondary d) (d_app_version_tertiary d) (d_app_version_last_fetched_ms d)
    (d_device_props d) info.

(** [optional_u64(key).unwrap_or(0) as i32] *)
Definition attr_i32 (n : Node) (key : string) : i32 := cast_i32 (or_zero (ap_optional_u64 (lit key) (ap_new n)).1).

Definition handle_ib_child (child : Node) (s : HState) : HState * list Out :=
  let t := tag child in
  if t =s lit "dirty" then (s, [O_clean_dirty (attr_string child "type") (attr_opt child "timestamp")])
  else if t =s lit "edge_routing" then
    match get_optional_child child (lit "routing_info") with
    | Some n =>
        match content n with
        | Some (NC_Bytes (b :: bs)) => (on_world (on_device (set_edge_routing_info (Some (b :: bs)))) s, [])
        | _ => (s, [])
        end
    | None => (s, [])
    end
  else if t =s lit "offline_preview" then
    (s, [O_event (HE_OfflineSyncPreview (attr_i32 child "count") (attr_i32 child "appdata") (attr_i32 child "message")
           (attr_i32 child "notification") (attr_i32 child "receipt"))])
  else if t =s lit "offline" then
    (on_world (task_op T_offline_done) s, [O_event (HE_OfflineSyncCompleted (attr_i32 child "count"))])
  else (s, []).

(** One after the other, with their outputs. *)
Fixpoint handle_each {A} (f : A -> HState -> HState * list Out) (l : list A) (s : HState) : HState * list Out :=
  match l with
  | [] => (s, [])
  | x :: l => let '(s, o) := f x s in let '(s, o') := handle_each f l s in (s, o ++ o')
  end.

Definition nodes_of (n : Node) : list Node := match children n with Some cs => cs | None => [] end.

Definition handle_ib (node : Node) (s : HState) : HState * list Out := handle_each handle_ib_child (nodes_of node) s.

(** ** [handlers/chatstate.rs] *)

Definition parse_chatstate (node : Node) : option (ChatPresence * ChatPresenceMedia) :=
  match children node with
  | Some (child :: _) =>
      if tag child =s lit "composing" then
        Some (Composing, match attr_opt child "media" with Some m => if m =s lit "audio" then Audio else Text | None => Text end)
      else if tag child =s lit "paused" then Some (Paused, Text)
      else None
  | _ => None
  end.

Definition handle_chatstate (node : Node) : list Out :=
  let '(from, a) := ap_optional_jid (lit "from") (ap_new node) in
  match from with
  | None => []
  | Some from =>
      let participant := (ap_optional_jid (lit "participant") a).1 in
      match parse_chatstate node with
      | None => []
      | Some (state, media) =>
          let sender := if is_group from then match participant with Some p => p | None => from end else from in
          [O_event (HE_ChatPresence (mkMessageSource from sender false (is_group from) None None None None None) state media)]
      end
  end.

(** ** [handlers/notification.rs] *)

Definition extract_device_ids (node : Node) : list u32 :=
  omap (fun n => wrap 32 <$> (ap_optional_u64 (lit "id") (ap_new n)).1)
    (List.filter (fun n => tag n =s lit "device") (nodes_of node)).

Definition device_change (child : Node) : option (DeviceListUpdateType * option str) :=
  if tag child =s lit "add" then Some (DLU_Add, None)
  else if tag child =s lit "remove" then Some (DLU_Remove, None)
  else if tag child =s lit "update" then Some (DLU_Update, attr_opt child "hash")
  else None.

Definition handle_devices_notification (node : Node) (s : HState) : HState * list Out :=
  match attr_opt_jid node "from" with
  | None => (s, [])
  | Some from_jid =>
      handle_each (fun child s =>
        match device_change child with
        | None => (s, [])
        | Some (update_type, hash) =>
            (on_reg (invalidate_device_cache (user from_jid)) s,
             [O_event (HE_DeviceListUpdate from_jid update_type (extract_device_ids child) hash)])
        end) (nodes_of node) s
  end.

Record AccountSyncDevice := mkSyncDevice { asd_jid : Jid; asd_key_index : option u32 }.
Definition parse_account_sync_device_list (devices_node : Node) : list AccountSyncDevice :=
  omap (fun n => match attr_opt_jid n "jid" with
                 | Some jid => Some (mkSyncDevice jid (wrap 32 <$> (ap_optional_u64 (lit "key-index") (ap_new n)).1))
                 | None => None
                 end)
    (List.filter (fun n => tag n =s lit "device") (nodes_of devices_node)).

Definition is_own_account (d : Device) (from_jid : Jid) : bool :=
  match d_pn d with Some p => is_same_user_as p from_jid | None => false end
  || match d_lid d with Some l => is_same_user_as l from_jid | None => false end.

Section Handlers.
Context `{HJ : !DeviceJson}.
(** The verdict of the store, the second and the milliseconds of now. *)
Context (io : outcome StoreError unit) (now_secs : u64) (now : i64).

Definition handle_account_sync_devices (node devices_node : Node) (s : HState) : HState :=
  match attr_opt_jid node "from" with
  | None => s
  | Some from_jid =>
      if negb (is_own_account (hs_device s) from_jid) then s
      else
        match parse_account_sync_device_list devices_node with
        | [] => s
        | devices =>
            let timestamp := cast_i64 (match (ap_optional_u64 (lit "t") (ap_new node)).1 with Some t => t | None => now_secs end) in
            let device_list := mkDeviceList (user from_jid)
              (map (fun d => mkDeviceInfo (device (asd_jid d)) (asd_key_index d)) devices) timestamp
              (attr_opt devices_node "dhash") in
            on_reg (fun r => (update_device_list io device_list r).2) s
        end
  end.

(** [client.rs] *)
Definition update_push_name_and_notify (new_name : str) (s : HState) : HState * list Out :=
  let old_name := d_push_name (hs_device s) in
  if old_name =s new_name then (s, [])
  else (on_world (on_device (apply_command_to_device now (SetPushName new_name))) s,
        [O_event (HE_SelfPushNameUpdated true old_name new_name); O_set_available]).

Definition handle_notification (node : Node) (s : HState) : HState * list Out :=
  let t := default_or [] (attr_opt node "type") in
  if t =s lit "encrypt" then
    (s, match attr_opt node "from" with Some f => if f =s SERVER_JID then [O_upload_pre_keys] else [] | None => [] end)
  else if t =s lit "server_sync" then (s, [])
  else if t =s lit "account_sync" then
    let '(s, o) := match attr_opt node "pushname" with
                   | Some new_push_name => update_push_name_and_notify new_push_name s
                   | None => (s, [])
                   end in
    (match get_optional_child_by_tag node [lit "devices"] with
     | Some devices_node => handle_account_sync_devices node devices_node s
     | None => s
     end, o)
  else if t =s lit "devices" then handle_devices_notification node s
  else if t =s lit "link_code_companion_reg" then (s, [O_pair_code node])
  else (s, [O_event (HE_Notification node)]).

(** ** [Client::handle_iq] *)

Definition pong_for (node : Node) : Node :=
  let '(from_jid, a) := ap_jid (lit "from") (ap_new node) in
  let id := (ap_string (lit "id") a).1 in
  build (b_attrs_all (builder_new (lit "iq")) [(lit "to", jid_to_string from_jid); (lit "id", id); (lit "type", lit "result")]).

Definition is_ping (node : Node) : bool :=
  match im_get (lit "type") (attrs node) with Some t => t =s lit "get" | None => false end
  && match get_optional_child node (lit "ping") with Some _ => true | None => false end.

Context `{HB : !Base64, HC : !Curve25519, HP : !AdvProto}.
(** Does a stanza go out; the randomness of the signature. *)
Context (send : Node -> bool) (rnd : bytes).

Definition device_state (d : Device) : DeviceState := mkDeviceState (d_identity_key d) (d_noise_key d) (d_adv_secret_key d).

(** The own pair of LID and number is learnt, with the migration of the registry. *)
Definition learn_own (m : str * str) (s : HState) : HState :=
  let r := hs_reg s in
  let '(o, c) := add_lid_pn_mapping io now_secs m.1 m.2 LS_Pairing (mkLidClient (rg_lids r) (hp_mappings (hs_pairing s))) in
  let r := mkRegState (lc_cache c) (rg_cache r) (rg_device_cache r) (rg_table r) in
  let r := match o with Ok true => migrate_device_registry_on_lid_discovery io io m.2 m.1 r | _ => r end in
  on_pairing (fun p => mkHPairing (hp_code p) (hp_rotating p) (lc_table c)) (on_reg (fun _ => r) s).

(** The effects of [handle_pair_success], which runs inside the handler: the
    commands for the device, the pair, the response and, when it went out, the
    flags [needs_initial_full_sync] and [expected_disconnect] and the event. *)
Definition apply_pairing (e : PairEffects) (s : HState) : HState * list Out :=
  let s := on_pairing (fun p => mkHPairing (pe_state e) (hp_rotating p && negb (pe_rotation_stopped e)) (hp_mappings p)) s in
  let s := on_world (on_device (fun d => fold_left (fun d c => apply_command_to_device now c d) (pe_commands e) d)) s in
  let s := fold_left (fun s m => learn_own m s) (pe_mappings e) s in
  let s := on_world (with_client (fun c =>
             let c := if pe_needs_initial_full_sync e then set_full_sync true c else c in
             if pe_expected_disconnect e then set_expected true c else c)) s in
  (s, map O_send (pe_sent e) ++ map O_pairing (pe_events e)).

Definition handle_iq (node : Node) (s : HState) : bool * HState * list Out :=
  if is_ping node then (true, s, [O_send (pong_for node)])
  else match handle_pair_iq (device_state (hs_device s)) node with
       | Some (PA_Device ack codes) =>
           (true, on_pairing (fun p => mkHPairing (hp_code p) true (hp_mappings p)) s,
            match ack with Some n => [O_send n] | None => [] end ++ [O_qr (qr_rotation codes)])
       | Some (PA_Success success_node) =>
           let '(s, o) := apply_pairing
             (handle_pair_success send (device_state (hs_device s)) (hp_rotating (hs_pairing s)) rnd node success_node) s in
           (true, s, o)
       | None => (false, s, [])
       end.

(** ** The handlers behind their tags *)

(** The stanza waits at the mailbox of its chat. *)
Definition mail_in (node : Node) (s : HState) : HState :=
  mkHState (hs_world s) (hs_iq s) (hs_reg s) (mail_arrive (attr_string node "from") node (hs_mail s)) (hs_pairing s).

(** Handled or not, the new state, the outputs.  No handler cancels the
    acknowledgement. *)
Definition handle (h : Handler) (node : Node) (s : HState) : bool * HState * list Out :=
  match h with
  | H_message => match attr_string node "from" with [] => (false, s, []) | _ => (true, mail_in node s, []) end
  | H_receipt => match handle_receipt node with
                 | HandleRetry r n => (true, s, [O_retry r n])
                 | DispatchReceipt r => (true, s, [O_event (HE_Receipt r)])
                 end
  | H_iq => let '(handled, s, o) := handle_iq node s in (true, s, if handled then o else [O_unhandled (lit "iq")])
  | H_success => (true, on_world (handle_success now node) s, [])
  | H_failure => (true, on_world (handle_connect_failure node) s, [])
  | H_stream_error => (true, on_world (handle_stream_error node) s, [])
  | H_ib => let '(s, o) := handle_ib node s in (true, s, o)
  | H_notification => let '(s, o) := handle_notification node s in (true, s, o)
  | H_ack => (true, mkHState (hs_world s) (handle_ack_response node (hs_iq s)).2 (hs_reg s) (hs_mail s) (hs_pairing s), [])
  | H_chatstate => (true, s, handle_chatstate node)
  | H_unimplemented _ => (true, s, [O_unhandled (tag node)])
  end.

Definition dispatch (r : StanzaRouter) (node : Node) (s : HState) : bool * HState * list Out :=
  match route r node with Some h => handle h node s | None => (false, s, []) end.

(** ** [Client::process_node] *)

Definition deferred_ack (node : Node) : list Out :=
  if should_ack node then match ack_for node with Some a => [O_send a] | None => [] end else [].

Definition process_node (r : StanzaRouter) (node : Node) (s : HState) : HState * list Out :=
  if tag node =s lit "xmlstreamend" then (on_world (task_op T_xmlstreamend) s, [])
  else
    let '(response, iq) := process_iq node (hs_iq s) in
    let s := mkHState (hs_world s) iq (hs_reg s) (hs_mail s) (hs_pairing s) in
    if response then (s, [])
    else
      let '(handled, s, o) := dispatch r node s in
      (s, o ++ (if handled then [] else [O_unhandled (tag node)]) ++ deferred_ack node).
End Handlers.

(** ** Lemmas: the router *)

Definition the_router : StanzaRouter := match create_stanza_router with Ok r => r | _ => ∅ end.

(** Every registration succeeds: the tags are distinct. *)
Lemma create_router_ok : create_stanza_router = Ok the_router.
Proof.
  assert (match create_stanza_router with Ok _ => true | _ => false end = true) as H by (vm_compute; reflexivity).
  unfold the_router. by destruct create_stanza_router.
Qed.

(** A handler is found under its own tag. *)
Lemma register_all_tags hs r r' :
  (forall t h, r !! t = Some h -> handler_tag h = Ok t) -> register_all hs r = Ok r' ->
  forall t h, r' !! t = Some h -> handler_tag h = Ok t.
Proof.
  revert r. induction hs as [|h0 hs IH]; intros r Hr; cbn; [by intros [= <-]|].
  unfold register. destruct (handler_tag h0) as [t0| | |] eqn:Ht; try done. cbn.
  destruct (r !! t0) eqn:E; [done|]. cbn. apply IH. intros t h. rewrite lookup_insert_Some.
  intros [ [<- <-]|[_ Hh] ]; [done|by apply Hr].
Qed.

Lemma route_tag node h : route the_router node = Some h -> handler_tag h = Ok (tag node).
Proof.
  apply (register_all_tags client_handlers ∅); [|apply create_router_ok]. intros t h'. by rewrite lookup_empty.
Qed.

(** ** Lemmas: outputs *)

Definition sends (o : list Out) : list Node := omap (fun x => match x with O_send n => Some n | _ => None end) o.
#[local] Arguments sends : simpl never.
Lemma sends_app o o' : sends (o ++ o') = sends o ++ sends o'.
Proof. apply omap_app. Qed.

Lemma each_quiet {A} (f : A -> HState -> HState * list Out) l s :
  (forall x s, sends (f x s).2 = []) -> sends (handle_each f l s).2 = [].
Proof.
  intros Hf. revert s. induction l as [|x l IH]; intros s; [done|]. cbn. specialize (Hf x s).
  destruct (f x s) as [s1 o]. specialize (IH s1). destruct (handle_each f l s1) as [s2 o']. cbn in *. by rewrite sends_app, Hf, IH.
Qed.

(** Compare the literal keys. *)
Ltac same_keys :=
  repeat match goal with |- context [lit ?a =s ?b] =>
    let r := eval vm_compute in (lit a =s b) in
    match r with true => idtac | false => idtac end; change (lit a =s b) with r end; cbn iota.

Section Theory.
Context `{HJ : !DeviceJson} (io : outcome StoreError unit) (now_secs : u64) (now : i64) `{HB : !Base64, HC : !Curve25519, HP : !AdvProto}.
Context (send : Node -> bool) (rnd : bytes).

Lemma ib_quiet node s : sends (handle_ib node s).2 = [].
Proof. apply each_quiet. intros x s'. unfold handle_ib_child. repeat case_match; done. Qed.

Lemma notification_quiet node s : sends (handle_notification io now_secs now node s).2 = [].
Proof.
  unfold handle_notification, update_push_name_and_notify, handle_devices_notification.
  repeat case_match; simplify_eq; try done. cbn. apply each_quiet. intros x s'. by repeat case_match.
Qed.

Definition is_iq_handler (h : Handler) : bool := match h with H_iq => true | _ => false end.

Lemma handle_quiet h node s : is_iq_handler h = false -> sends (handle io now_secs now send rnd h node s).2 = [].
Proof.
  intros Hh. destruct h; try done; cbn [handle].
  - by repeat case_match.
  - by repeat case_match.
  - pose proof (ib_quiet node s). by destruct (handle_ib node s).
  - pose proof (notification_quiet node s). by destruct (handle_notification _ _ _ node s).
  - cbn. unfold handle_chatstate. by repeat case_match.
Qed.

(** A stanza that is neither a response, nor an [iq], nor the end of the stream. *)
Lemma process_other node s :
  tag node <> lit "iq" -> tag node <> lit "xmlstreamend" ->
  process_node io now_secs now send rnd the_router node s
  = let '(handled, s, o) := dispatch io now_secs now send rnd the_router node s in
    (s, o ++ (if handled then [] else [O_unhandled (tag node)]) ++ deferred_ack node).
Proof.
  intros H1 H2. unfold process_node, process_iq. destruct (bytes_eqb_spec (tag node) (lit "xmlstreamend")); [done|].
  destruct (bytes_eqb_spec (tag node) (lit "iq")); [done|]. by destruct s.
Qed.

Lemma route_not_iq node h : tag node <> lit "iq" -> route the_router node = Some h -> is_iq_handler h = false.
Proof.
  intros Hn Hr. apply route_tag in Hr. destruct h; try done. cbn in Hr. injection Hr as Hr. by rewrite <- Hr in Hn.
Qed.

Lemma process_sends node s :
  tag node <> lit "iq" -> tag node <> lit "xmlstreamend" ->
  sends (process_node io now_secs now send rnd the_router node s).2 = sends (deferred_ack node).
Proof.
  intros H1 H2. rewrite process_other by done. unfold dispatch.
  destruct (route the_router node) as [h|] eqn:Hr; [|cbn; by destruct (deferred_ack node)].
  pose proof (handle_quiet h node s (route_not_iq _ _ H1 Hr)) as Hq. destruct (handle _ _ _ _ _ h node s) as [[b s'] o]. cbn in *.
  rewrite !sends_app, Hq. by destruct b.
Qed.

(** ** Acknowledgements *)

Lemma get_insert_opt k k' o m :
  im_get k (insert_opt k' o m) = if k =s k' then match o with Some v => Some v | None => im_get k m end else im_get k m.
Proof. unfold insert_opt. destruct o; [by rewrite im_get_insert|by destruct (k =s k')]. Qed.

(** What an acknowledgement says of the stanza it acknowledges. *)
Record acknowledges (node a : Node) : Prop := {
  ak_tag : tag a = lit "ack";
  ak_class : im_get (lit "class") (attrs a) = Some (tag node);
  ak_id : im_get (lit "id") (attrs a) = im_get (lit "id") (attrs node);
  ak_to : im_get (lit "to") (attrs a) = im_get (lit "from") (attrs node);
  ak_participant : im_get (lit "participant") (attrs a) = im_get (lit "participant") (attrs node);
  ak_type : im_get (lit "type") (attrs a) = if tag node =s lit "message" then None else im_get (lit "type") (attrs node)
}.

Lemma ack_for_spec node a : ack_for node = Some a -> acknowledges node a.
Proof.
  unfold ack_for. destruct (im_get (lit "id") (attrs node)) as [id|] eqn:Hid; [|done].
  destruct (im_get (lit "from") (attrs node)) as [from|] eqn:Hf; [|done]. intros E. apply (inj Some) in E as <-.
  split; cbn [tag attrs]; rewrite ?get_insert_opt, ?im_get_insert; same_keys; try done.
  - by destruct (im_get (lit "participant") (attrs node)).
  - destruct (tag node =s lit "message"); cbn [negb]; [done|]. by destruct (im_get (lit "type") (attrs node)).
Qed.

(** Acknowledgements: whatever the handlers do, processing a message, a
    receipt, a notification or a call that has an id and a sender sends exactly
    one stanza, and it acknowledges that one, back to its sender, with its class,
    id and participant, and with its type unless it is a message; any other
    stanza except an [iq] is answered with nothing. *)
Theorem acknowledged_once node s :
  tag node <> lit "iq" ->
  if should_ack node
  then exists a, sends (process_node io now_secs now send rnd the_router node s).2 = [a] /\ acknowledges node a
  else sends (process_node io now_secs now send rnd the_router node s).2 = [].
Proof.
  intros Hiq. destruct (decide (tag node = lit "xmlstreamend")) as [Hx|Hx].
  - unfold should_ack, process_node. by rewrite Hx.
  - rewrite process_sends by done. unfold deferred_ack. destruct (should_ack node) eqn:Ha; [|done].
    destruct (ack_for node) as [a|] eqn:E; [exists a; split; [done|by apply ack_for_spec]|].
    unfold should_ack in Ha. unfold ack_for in E. by repeat case_match; rewrite ?andb_false_r in Ha.
Qed.

(** ** Handlers and the connection *)












(** The event of a pairing that was completed. *)
Definition is_pair_success (o : Out) : bool := match o with O_pairing (EV_PairSuccess _ _ _ _) => true | _ => false end.












(** ** Device notifications *)

(** Nothing is cached about a contact. *)
Definition uncached (u : str) (r : RegState) : Prop :=
  forall k, k ∈ get_lookup_keys u (rg_lids r) -> rg_cache r !! k = None.

Lemma invalidate_uncached u r : uncached u (invalidate_device_cache u r) /\ rg_lids (invalidate_device_cache u r) = rg_lids r.
Proof.
  assert (rg_lids (invalidate_device_cache u r) = rg_lids r) as Hl by (unfold invalidate_device_cache; by repeat case_match).
  split; [|done]. unfold uncached. rewrite Hl. unfold invalidate_device_cache, get_lookup_keys.
  set (keys := all_keys (resolve_lookup_keys u (rg_lids r))). intros k Hk.
  assert (forall ks (c : gmap str DeviceListRecord), k ∈ ks \/ c !! k = None -> fold_left (fun c k => delete k c) ks c !! k = None) as Hf.
  { induction ks as [|k0 ks IH]; intros c H; cbn; [by destruct H as [H|]; [apply elem_of_nil in H|] |].
    apply IH. destruct (decide (k = k0)) as [->|Hne]; [right; by rewrite lookup_delete_eq|].
    destruct H as [H|H]; [apply elem_of_cons in H as [->|H]; [done|by left]|right; by rewrite lookup_delete_ne]. }
  repeat case_match; apply Hf; by left.
Qed.

Lemma devices_each_uncached u l s :
  let f := fun (child : Node) s =>
    match device_change child with
    | None => (s, [])
    | Some (t, hash) => (on_reg (invalidate_device_cache (user u)) s, [O_event (HE_DeviceListUpdate u t (extract_device_ids child) hash)])
    end in
  (uncached (user u) (hs_reg s) \/ exists child, child ∈ l /\ device_change child <> None) ->
  uncached (user u) (hs_reg (handle_each f l s).1).
Proof.
  cbn zeta. revert s. induction l as [|x l IH]; intros s H; cbn [handle_each].
  - destruct H as [H|(c & Hc & _)]; [done|]. by apply elem_of_nil in Hc.
  - destruct (device_change x) as [[t hash]|] eqn:Ed.
    + specialize (IH (on_reg (invalidate_device_cache (user u)) s)).
      destruct (handle_each _ l _) as [s2 o]. apply IH. left. apply invalidate_uncached.
    + specialize (IH s). destruct (handle_each _ l s) as [s2 o]. apply IH. destruct H as [H|(c & Hc & Hd)]; [by left|].
      apply elem_of_cons in Hc as [->|Hc]; [done|]. right. by exists c.
Qed.

(** A notification that a contact's devices changed leaves nothing cached about
    the contact, under any of its ids. *)
Lemma devices_notification_drops node u s :
  attr_opt node "type" = Some (lit "devices") -> attr_opt_jid node "from" = Some u ->
  (exists child, child ∈ nodes_of node /\ device_change child <> None) ->
  uncached (user u) (hs_reg (handle_notification io now_secs now node s).1).
Proof.
  intros Ht Hf Hc. unfold handle_notification. rewrite Ht. cbn [default_or]. same_keys.
  unfold handle_devices_notification. rewrite Hf. apply devices_each_uncached. by right.
Qed.
End Theory.

(** ** Our own devices *)

Section OwnDevices.
Context `{HJ : !DeviceJson} (now_secs : u64) (now : i64) `{HB : !Base64}.

(** The device list of an [account_sync] notification. *)
Definition synced_devices (devices_node : Node) : list u32 := map (fun d => device (asd_jid d)) (parse_account_sync_device_list devices_node).

(** After a notification about our own account with a list of devices, the
    registry answers from that list, under the phone number and the LID alike:
    device 0 exists, another device exists exactly when it is listed. *)
Theorem own_devices_known node devices_node u s :
  attr_opt node "type" = Some (lit "account_sync") -> attr_opt node "pushname" = None ->
  get_optional_child_by_tag node [lit "devices"] = Some devices_node ->
  attr_opt_jid node "from" = Some u -> is_own_account (hs_device s) u = true -> parse_account_sync_device_list devices_node <> [] ->
  (forall k, k ∈ get_lookup_keys (user u) (rg_lids (hs_reg s)) -> is_Some (rg_cache (hs_reg s) !! k) ->
     k = canonical_key (resolve_lookup_keys (user u) (rg_lids (hs_reg s))) \/ k = user u) ->
  let r := hs_reg (handle_notification (Ok tt) now_secs now node s).1 in
  forall u' d, same_contact (user u) u' (rg_lids r) ->
    (has_device (fun _ => Ok tt) u' d r).1 = (d =? 0) || existsb (fun x => x =? d) (synced_devices devices_node).
Proof.
  intros Ht Hp Hc Hf Ho Hd Hu. unfold handle_notification. rewrite Ht, Hp, Hc. cbn [default_or]. same_keys. cbn [fst].
  unfold handle_account_sync_devices. rewrite Hf, Ho. cbn [negb].
  destruct (parse_account_sync_device_list devices_node) as [|x l] eqn:El; [done|]. rewrite <- El.
  set (record := mkDeviceList _ _ _ _). cbn zeta. cbn [hs_reg on_reg].
  destruct (registry_read_your_writes record (user u) (hs_reg s)) as (r' & E & H); [done|exact Hu|].
  rewrite E. cbn [snd]. intros u' d Hs. rewrite (H r' (rtc_refl _ _) u' d Hs). f_equal. unfold has_id, record, synced_devices. cbn.
  generalize (parse_account_sync_device_list devices_node). clear. induction l as [|y l IH]; [done|]. cbn. by rewrite IH.
Qed.
End OwnDevices.

(** ** Chat states and block lists *)

(** What the other side reads from a chat state. *)
Lemma chatstate_read to st :
  parse_chatstate (build_chatstate_node to st)
  = Some (match st with CST_Composing => (Composing, Text) | CST_Recording => (Composing, Audio) | CST_Paused => (Paused, Text) end).
Proof. by destruct st. Qed.

(** The answer of a server that holds a block list. *)
Definition blocked_item (e : BlocklistEntry) : Node :=
  let b := b_attr (builder_new (lit "item")) (lit "jid") (jid_to_string (bl_jid e)) in
  build (match bl_timestamp e with Some t => b_attr b (lit "t") (show_uint t) | None => b end).
Definition blocklist_answer (l : list BlocklistEntry) : Node :=
  mkNode (lit "iq") [] (Some (NC_Nodes [mkNode (lit "list") [] (Some (NC_Nodes (map blocked_item l)))])).

Definition entry_ok (e : BlocklistEntry) : Prop :=
  jid_wf (bl_jid e) = true /\ match bl_timestamp e with Some t => 0 <= t < 2 ^ 64 | None => True end.

Lemma blocked_item_read e : entry_ok e -> blocklist_entry (blocked_item e) = Some e.
Proof.
  destruct e as [j [t|] ]; intros [Hj Ht]; cbn in Hj, Ht; unfold blocklist_entry, blocked_item, attr_opt.
  - rewrite optional_string_new. cbn [bl_jid bl_timestamp attrs build b_attrs b_attr builder_new]. rewrite !im_get_insert. same_keys.
    rewrite jid_print_parse by done. unfold ap_optional_u64, get_u64, get_int, ap_get_raw, required, meth_bind. cbn [ap_attrs ap_new attrs build b_attrs b_attr builder_new].
    rewrite !im_get_insert. same_keys. unfold meth_ret, parse_u64. rewrite parse_show_uint by lia. done.
  - rewrite optional_string_new. cbn [bl_jid bl_timestamp attrs build b_attrs b_attr builder_new]. rewrite !im_get_insert. same_keys.
    by rewrite jid_print_parse by done.
Qed.

(** The block list survives the wire: reading the server's answer gives
    back the list that the answer was made of, in its order. *)
Theorem blocklist_roundtrip l : Forall entry_ok l -> parse_blocklist_response (blocklist_answer l) = l.
Proof.
  intros H. change (omap blocklist_entry (List.filter (fun c => tag c =s lit "item") (map blocked_item l)) = l).
  induction H as [|e l He _ IH]; [done|]. cbn [map List.filter].
  assert (tag (blocked_item e) = lit "item") as -> by (by destruct e as [j []]). same_keys.
  pose proof (blocked_item_read e He) as Hr. cbn -[blocklist_entry blocked_item]. rewrite Hr. f_equal. exact IH.
Qed.

(** ** Stand-ins and witnesses *)

#[local] Existing Instance toy_base64.

Definition not_pairing : HPairing := mkHPairing PC_Idle false ∅.
Definition toy_hstate : HState := mkHState (world_new life_device) (iq_init 0) toy_registry mail_new not_pairing.
Definition toy_receipt : Node :=
  mkNode (lit "receipt") [(lit "id", lit "A1"); (lit "from", lit "55@s.whatsapp.net"); (lit "type", lit "read")] None.

Lemma acknowledged_once_witness :
  exists a, sends (@process_node Registry.toy_json (Ok tt) 0 0 toy_base64 sum_curve toy_adv (fun _ => true) [] the_router toy_receipt toy_hstate).2 = [a]
    /\ acknowledges toy_receipt a.
Proof. apply (@acknowledged_once Registry.toy_json (Ok tt) 0 0 toy_base64 sum_curve toy_adv (fun _ => true) [] toy_receipt toy_hstate). discriminate. Defined.

(** Our own account, with the phone number of the registry's example. *)
Definition own_device : Device := apply_command_to_device 0 (SetId (Some (pn toy_phone))) life_device.
Definition own_hstate : HState := mkHState (world_new own_device) (iq_init 0) toy_registry mail_new not_pairing.
Definition toy_devices : Node :=
  mkNode (lit "devices") [] (Some (NC_Nodes
    [mkNode (lit "device") [(lit "jid", jid_to_string (pn toy_phone))] None;
     mkNode (lit "device") [(lit "jid", jid_to_string (pn_device toy_phone 7)); (lit "key-index", lit "2")] None])).
Definition toy_account_sync : Node :=
  mkNode (lit "notification") [(lit "type", lit "account_sync"); (lit "from", jid_to_string (pn toy_phone))] (Some (NC_Nodes [toy_devices])).

Lemma own_devices_known_witness :
  (@has_device Registry.toy_json (fun _ => Ok tt) (lit "100") 7
     (hs_reg (@handle_notification Registry.toy_json (Ok tt) 0 0 toy_account_sync own_hstate).1)).1 = true.
Proof.
  rewrite (@own_devices_known Registry.toy_json 0 0 toy_account_sync toy_devices (pn toy_phone) own_hstate);
    [vm_compute; reflexivity|reflexivity|reflexivity|reflexivity|vm_compute; reflexivity|reflexivity|vm_compute; discriminate| |vm_compute; reflexivity].
  intros k _ [r Hr]. cbn in Hr. by rewrite lookup_empty in Hr.
Defined.

Lemma blocklist_roundtrip_witness :
  parse_blocklist_response (blocklist_answer [mkBlocked (pn (lit "55")) (Some 17)]) = [mkBlocked (pn (lit "55")) (Some 17)].
Proof. apply (blocklist_roundtrip [mkBlocked (pn (lit "55")) (Some 17)]). repeat constructor; vm_compute; congruence. Defined.

(** A notification that device 5 of a contact was removed. *)
Definition toy_removal : Node :=
  mkNode (lit "notification") [(lit "type", lit "devices"); (lit "from", jid_to_string (pn toy_phone))]
    (Some (NC_Nodes [mkNode (lit "remove") [] (Some (NC_Nodes [mkNode (lit "device") [(lit "id", lit "5")] None]))])).

(** A removal empties the caches but not the table behind them: the next
    question brings the removed device back from the stored list. *)
Theorem removed_device_still_known :
  let r := (@update_device_list Registry.toy_json (Ok tt) toy_list toy_registry).2 in
  let s := mkHState (world_new life_device) (iq_init 0) r mail_new not_pairing in
  let r' := hs_reg (@handle_notification Registry.toy_json (Ok tt) 0 0 toy_removal s).1 in
  uncached toy_phone r' /\ (@has_device Registry.toy_json (fun _ => Ok tt) toy_phone 5 r').1 = true.
Proof.
  cbn zeta. split; [|vm_compute; reflexivity].
  apply (devices_notification_drops (Ok tt) 0 0 toy_removal (pn toy_phone)); [reflexivity|vm_compute; reflexivity|].
  eexists. split; [by left|]. discriminate.
Qed.

(** A completed pairing: an account signs the identity of the toy device. *)
Definition pairing_identity : bytes :=
  let details := @adv_device_encode toy_adv (mkAdvDevice None None (Some 3) None None) in
  @adv_hmac_encode toy_adv (mkAdvHmac (Some (@adv_signed_encode toy_adv (mkAdvSigned (Some details)
    (Some (pk_bytes (kp_public (toy_pair 4))))
    (Some (@xsign sum_curve [] (sk_bytes (kp_private (toy_pair 4)))
       (account_signature_message false details (pk_bytes (kp_public (toy_pair 2)))))) None))) (Some []) None).
Definition pairing_iq : Node :=
  mkNode (lit "iq") [(lit "id", lit "P1"); (lit "from", SERVER_JID)] (Some (NC_Nodes [mkNode (lit "pair-success") [] (Some (NC_Nodes
    [mkNode (lit "device-identity") [] (Some (NC_Bytes pairing_identity));
     mkNode (lit "device") [(lit "jid", lit "55@s.whatsapp.net"); (lit "lid", lit "7@lid")] None]))])).

(** The stanza that completes a pairing asks for a full synchronisation and
    announces the disconnect, if the response goes out, and else does not. *)
Example pairing_sets_flags ok :
  let '(s, o) := @process_node Registry.toy_json (Ok tt) 0 0 toy_base64 sum_curve toy_adv (fun _ => ok) [] the_router pairing_iq toy_hstate in
  existsb is_pair_success o = ok /\ needs_initial_full_sync (w_client (hs_world s)) = ok
  /\ expected_disconnect (w_client (hs_world s)) = ok /\ d_pn (hs_device s) = Some (pn (lit "55"))
  /\ get_current_lid (lit "55") (rg_lids (hs_reg s)) = Some (lit "7").
Proof. destruct ok; vm_compute; split_and!; reflexivity. Qed.
