(* ===== verification/Json.v ===== *)
(** * JSON values, as [serde_json] has them

    The REST server keeps requests, table rows and webhook payloads as
    [serde_json::Value].  An object is a [serde_json::Map], a [BTreeMap] from
    strings: the list of its entries in the order of the keys. *)

From S2P Require Import Prelude RustStd.

(** A number is an integer, or a float of which the server never looks at the
    value. *)
Inductive Number := N_int (z : Z) | N_float (bits : u64).

Inductive Value :=
| V_Null
| V_Bool (b : bool)
| V_Number (n : Number)
| V_String (s : str)
| V_Array (vs : list Value)
| V_Object (fields : list (str * Value)).

Abbreviation JMap := (list (str * Value)) (only parsing).

(** ** [serde_json::Map] *)

Fixpoint str_ltb (a b : str) : bool :=
  match a, b with
  | _, [] => false
  | [], _ :: _ => true
  | x :: a, y :: b => (x <? y) || ((x =? y) && str_ltb a b)
  end.

Fixpoint obj_get (k : str) (o : JMap) : option Value :=
  match o with
  | [] => None
  | (k', v) :: o => if k =s k' then Some v else obj_get k o
  end.

Fixpoint obj_insert (k : str) (v : Value) (o : JMap) : JMap :=
  match o with
  | [] => [(k, v)]
  | (k', v') :: o' =>
      if k =s k' then (k, v) :: o'
      else if str_ltb k k' then (k, v) :: o else (k', v') :: obj_insert k v o'
  end.

Fixpoint obj_remove (k : str) (o : JMap) : JMap :=
  match o with
  | [] => []
  | (k', v) :: o => if k =s k' then obj_remove k o else (k', v) :: obj_remove k o
  end.

(** The [json!] object of some entries. *)
Definition obj_of (l : list (str * Value)) : JMap := fold_left (fun o kv => obj_insert kv.1 kv.2 o) l [].
Definition json_obj (l : list (string * Value)) : Value := V_Object (obj_of (map (fun kv => (lit kv.1, kv.2)) l)).

(** ** [serde_json::Value] *)

(** [value.get("key")]: [None] on anything but an object *)
Definition v_get (k : string) (v : Value) : option Value :=
  match v with V_Object o => obj_get (lit k) o | _ => None end.

Definition as_str (v : Value) : option str := match v with V_String s => Some s | _ => None end.
Definition as_bool (v : Value) : option bool := match v with V_Bool b => Some b | _ => None end.
Definition as_i64 (v : Value) : option i64 :=
  match v with V_Number (N_int z) => if in_range (- 2 ^ 63) (2 ^ 63 - 1) z then Some z else None | _ => None end.
Definition as_object (v : Value) : option JMap := match v with V_Object o => Some o | _ => None end.
Definition as_array (v : Value) : option (list Value) := match v with V_Array l => Some l | _ => None end.

(** [json!] of an optional string. *)
Definition opt_string (o : option str) : Value := match o with Some s => V_String s | None => V_Null end.

(** [value.get(k).and_then(|v| v.as_str())] and the like *)
Definition get_str (k : string) (v : Value) : option str := v_get k v ≫= as_str.
Definition get_bool (k : string) (v : Value) : option bool := v_get k v ≫= as_bool.

(** [a.or_else(|| b)] *)
Definition or_else {A} (a b : option A) : option A := match a with Some x => Some x | None => b end.
(** [value.get(k).or_else(|| value.get(k'))] *)
Definition v_get_or (k k' : string) (v : Value) : option Value := or_else (v_get k v) (v_get k' v).
(** [o.filter(p)] *)
Definition opt_filter {A} (p : A -> bool) (o : option A) : option A :=
  match o with Some x => if p x then Some x else None | None => None end.

Definition str_is_empty (s : str) : bool := match s with [] => true | _ => false end.

(** [map.get_mut(k)] followed by a change of the value. *)
Fixpoint obj_modify (k : str) (f : Value -> Value) (o : JMap) : JMap :=
  match o with
  | [] => []
  | (k', v) :: o => if k =s k' then (k', f v) :: o else (k', v) :: obj_modify k f o
  end.

(** ** Lemmas *)

Lemma obj_get_insert k k' v o : obj_get k (obj_insert k' v o) = if k =s k' then Some v else obj_get k o.
Proof.
  induction o as [|[k1 v1] o IH]; cbn; [done|].
  destruct (bytes_eqb_spec k' k1) as [->|N]; cbn.
  - by destruct (k =s k1).
  - destruct (str_ltb k' k1); cbn; [done|]. rewrite IH.
    destruct (bytes_eqb_spec k k1) as [->|]; [|done]. by destruct (bytes_eqb_spec k1 k') as [->|].
Qed.

Lemma obj_get_remove k k' o : obj_get k (obj_remove k' o) = if k =s k' then None else obj_get k o.
Proof.
  induction o as [|[k1 v1] o IH]; cbn; [by destruct (k =s k')|].
  destruct (bytes_eqb_spec k' k1) as [->|N]; cbn; rewrite IH.
  - by destruct (k =s k1).
  - destruct (bytes_eqb_spec k k1) as [->|]; [|done]. by destruct (bytes_eqb_spec k1 k') as [->|].
Qed.

Lemma obj_get_modify k k' f o : obj_get k (obj_modify k' f o) = if k =s k' then f <$> obj_get k o else obj_get k o.
Proof.
  induction o as [|[k1 v1] o IH]; cbn; [by destruct (k =s k')|].
  destruct (bytes_eqb_spec k' k1) as [->|N]; cbn.
  - by destruct (k =s k1).
  - rewrite IH. destruct (bytes_eqb_spec k k1) as [->|]; [|done]. by destruct (bytes_eqb_spec k1 k') as [->|].
Qed.

(** Entries of distinct keys are found as they were given. *)
Lemma obj_get_of_gen k l o :
  NoDup (map fst l) ->
  obj_get k (fold_left (fun o kv => obj_insert kv.1 kv.2 o) l o)
  = match obj_get k l with Some v => Some v | None => obj_get k o end.
Proof.
  revert o. induction l as [|[k1 v1] l IH]; intros o Hn; cbn; [done|].
  inversion_clear Hn as [|? ? N1 N2]. rewrite IH by done. rewrite obj_get_insert. cbn [fst snd].
  destruct (bytes_eqb_spec k k1) as [->|]; [|done].
  destruct (obj_get k1 l) eqn:E; [|done]. exfalso. apply N1. clear -E.
  induction l as [|[k2 v2] l IH]; cbn in *; [done|]. destruct (bytes_eqb_spec k1 k2) as [->|]; [by left|right; auto].
Qed.

Lemma obj_get_of k l : NoDup (map fst l) -> obj_get k (obj_of l) = obj_get k l.
Proof. intros Hn. unfold obj_of. rewrite obj_get_of_gen by done. by destruct (obj_get k l). Qed.

#[export] Hint Rewrite obj_get_insert obj_get_remove obj_get_modify : json.

#[global] Instance lit_inj : Inj (=) (=) lit.
Proof.
  intros k. induction k as [|c k IH]; intros [|c' k']; try done. cbn. intros [= E1 E2].
  f_equal; [|by apply IH]. apply (f_equal Z.to_N) in E1. rewrite !N2Z.id in E1.
  by rewrite <- (Ascii.ascii_N_embedding c), E1, Ascii.ascii_N_embedding.
Qed.

Fixpoint assoc_get (k : string) (l : list (string * Value)) : option Value :=
  match l with [] => None | (k', v) :: l => if String.eqb k k' then Some v else assoc_get k l end.

(** The fields of a literal object with distinct keys. *)
Lemma json_obj_get k l : NoDup (map fst l) -> v_get k (json_obj l) = assoc_get k l.
Proof.
  intros Hn. unfold json_obj, v_get. rewrite obj_get_of.
  - clear Hn. induction l as [|[k' v] l IH]; [done|]. cbn [map obj_get assoc_get fst snd]. rewrite IH.
    destruct (String.eqb_spec k k') as [->|N]; [by rewrite bytes_eqb_refl|].
    by destruct (bytes_eqb_spec (lit k) (lit k')) as [E%(inj lit)|].
  - rewrite map_map. cbn. rewrite <- (map_map fst lit). by apply (NoDup_fmap_2 lit).
Qed.

(** The keys of a literal object are distinct. *)
Ltac distinct_keys := apply (bool_decide_unpack _); vm_compute; exact I.
(** Looks up the fields of literal objects. *)
Ltac json_lookup := repeat (rewrite json_obj_get by distinct_keys); cbn [assoc_get String.eqb Ascii.eqb Bool.eqb].
