(* ===== verification/Queue.v ===== *)
(** * The tables of the REST server and its queues

    [src/api_store.rs] gives the server SQL over JSON rows; this file has the
    tables it keeps in it ([storages/postgres-storage/migrations]), what its
    statements do to them, and the two queues of [src/server/queue.rs]: the
    outgoing messages ([api_messages]) and the webhook events
    ([webhook_outbox]).

    A statement whose constraint is violated fails and changes nothing.  Which
    rows a claim skips because they are locked, which it takes of rows of the
    same age and in which order it returns them is up to the data base: a claim
    is given its choice, and [valid_choice] says which choices there are. *)

From stdpp Require Import gmap sorting.
From S2P Require Import Prelude RustStd Json.

(** A [u128], and microseconds. *)
Abbreviation Uuid := Z (only parsing).
Abbreviation Time := Z (only parsing).
Definition seconds (n : Z) : Time := n * 1000000.

(** How identifiers and times are written: the [uuid] crate, the data base and
    [chrono]. *)
Class RowText := {
  uuid_str : Uuid -> str;
  parse_uuid : str -> option Uuid;
  pg_time : Time -> str;
  to_rfc3339 : Time -> str;
  parse_rfc3339 : str -> option Time;
  parse_uuid_str u : parse_uuid (uuid_str u) = Some u;
  parse_pg_time t : parse_rfc3339 (pg_time t) = Some t;
  parse_to_rfc3339 t : parse_rfc3339 (to_rfc3339 t) = Some t
}.

(** ** Tables *)

Record SessionRow := mkSessionRow {
  sr_status : str; sr_webhook_url : option str; sr_webhook_events : option Value; sr_webhook_by_events : bool;
  sr_webhook_base64 : bool; sr_webhook_headers : Value; sr_webhook_enabled : bool; sr_phone_number : option str
}.

Record OutboxRow := mkOutboxRow {
  ob_session : option str; ob_event : str; ob_payload : Value; ob_status : str; ob_attempts : i32;
  ob_next_attempt_at : Time; ob_last_error : option str; ob_created_at : Time
}.

Record MessageRow := mkMessageRow {
  mr_session : str; mr_chat_id : option str; mr_message_type : str; mr_payload : Value; mr_status : str;
  mr_created_at : Time; mr_attempts : i32
}.

(** [db_referenced]: the sessions that rows of the other tables refer to. *)
Record Db := mkDb {
  db_sessions : gmap str SessionRow; db_outbox : gmap Uuid OutboxRow; db_messages : gmap Uuid MessageRow;
  db_presence : gmap (str * str) str; db_referenced : list str
}.

Definition db_empty : Db := mkDb ∅ ∅ ∅ ∅ [].

Definition with_sessions f d := mkDb (f (db_sessions d)) (db_outbox d) (db_messages d) (db_presence d) (db_referenced d).
Definition with_outbox f d := mkDb (db_sessions d) (f (db_outbox d)) (db_messages d) (db_presence d) (db_referenced d).
Definition with_messages f d := mkDb (db_sessions d) (db_outbox d) (f (db_messages d)) (db_presence d) (db_referenced d).
Definition with_presence f d := mkDb (db_sessions d) (db_outbox d) (db_messages d) (f (db_presence d)) (db_referenced d).

(** The foreign key of a session. *)
Definition session_exists (s : str) (d : Db) : bool := bool_decide (is_Some (db_sessions d !! s)).

Definition msg_set_status (s : str) (r : MessageRow) : MessageRow :=
  mkMessageRow (mr_session r) (mr_chat_id r) (mr_message_type r) (mr_payload r) s (mr_created_at r) (mr_attempts r).
Definition ob_set_status (s : str) (r : OutboxRow) : OutboxRow :=
  mkOutboxRow (ob_session r) (ob_event r) (ob_payload r) s (ob_attempts r) (ob_next_attempt_at r) (ob_last_error r) (ob_created_at r).

(** ** Claims *)

(** The candidates of a claim, less the rows other transactions have locked. *)
Definition candidates {R} (p : R -> bool) (locked : list Uuid) (t : gmap Uuid R) : gmap Uuid R :=
  filter (fun ir => p ir.2 = true /\ ir.1 ∉ locked) t.

(** [ORDER BY created_at LIMIT limit FOR UPDATE SKIP LOCKED] may yield these
    rows. *)
Definition valid_choice {R} (created_at : R -> Time) (limit : nat) (cands : gmap Uuid R) (chosen : list Uuid) : bool :=
  bool_decide (NoDup chosen)
  && forallb (fun i => bool_decide (is_Some (cands !! i))) chosen
  && (length chosen =? Nat.min limit (size cands))%nat
  && forallb (fun i =>
       match cands !! i with
       | Some r => bool_decide (map_Forall (fun j r' => j ∈ chosen \/ created_at r <= created_at r') cands)
       | None => false
       end) chosen.

(** [UPDATE ... WHERE id IN claimed] *)
Definition update_all {R} (f : R -> R) (ids : list Uuid) (t : gmap Uuid R) : gmap Uuid R :=
  foldr (fun i t => alter f i t) t ids.

(** The rows a statement returns, as they are afterwards. *)
Definition rows_of {R} (ids : list Uuid) (t : gmap Uuid R) : list (Uuid * R) :=
  omap (fun i => (fun r => (i, r)) <$> t !! i) ids.

(** ** [queue.rs] *)

Inductive QueueStatus := Q_Pending | Q_Processing | Q_Sent | Q_Failed.

Definition queue_status_str (s : QueueStatus) : str :=
  match s with Q_Pending => lit "pending" | Q_Processing => lit "processing" | Q_Sent => lit "sent" | Q_Failed => lit "failed" end.

Definition backoff_seconds (attempts : i32) : i32 :=
  if attempts =? 1 then 5 else if attempts =? 2 then 30 else if attempts =? 3 then 120 else 600.

Section Queues.
Context `{HT : !RowText}.

Record WebhookJob := mkWebhookJob { wj_id : Uuid; wj_session : option str; wj_event : str; wj_payload : Value; wj_attempts : i32 }.

Definition webhook_mark_sent (id : Uuid) (d : Db) : Db :=
  with_outbox (alter (fun r => mkOutboxRow (ob_session r) (ob_event r) (ob_payload r) (lit "sent") (ob_attempts r)
                                 (ob_next_attempt_at r) None (ob_created_at r)) id) d.

Definition webhook_mark_retry (id : Uuid) (attempts : i32) (error : str) (now : Time) (d : Db) : Db :=
  let '(status, delay_seconds) :=
    if 5 <=? attempts then (lit "failed", 600) else (lit "pending", backoff_seconds attempts) in
  with_outbox (alter (fun r => mkOutboxRow (ob_session r) (ob_event r) (ob_payload r) status attempts
                                 (now + seconds delay_seconds) (Some error) (ob_created_at r)) id) d.

(** [Queue::enqueue] of the outbox; [None]: the identifier is taken, or the
    session unknown *)
Definition webhook_queue_enqueue (job : WebhookJob) (now : Time) (d : Db) : option Db :=
  if bool_decide (is_Some (db_outbox d !! wj_id job)) || negb (default true ((fun s => session_exists s d) <$> wj_session job)) then None
  else Some (with_outbox (insert (wj_id job) (mkOutboxRow (wj_session job) (wj_event job) (wj_payload job) (lit "pending")
                                                (wj_attempts job) now None now)) d).

(** [row_to_json(updated)] of a claimed event *)
Definition outbox_json (ir : Uuid * OutboxRow) : Value :=
  json_obj [("id", V_String (uuid_str ir.1)); ("session", opt_string (ob_session ir.2)); ("event", V_String (ob_event ir.2));
            ("payload", ob_payload ir.2); ("attempts", V_Number (N_int (ob_attempts ir.2)))]%string.

(** [row.get("value").cloned().unwrap_or_else(|| row.clone())] *)
Definition row_value (row : Value) : Value := default row (v_get "value" row).

Definition webhook_job_of (row : Value) : option WebhookJob :=
  let value := row_value row in
  let id := get_str "id" value ≫= parse_uuid in
  let event := default [] (get_str "event" value) in
  let session := get_str "session" value in
  let payload := default V_Null (v_get "payload" value) in
  let attempts := cast_i32 (default 0 (v_get "attempts" value ≫= as_i64)) in
  (fun id => mkWebhookJob id session event payload attempts) <$> id.

Definition outbox_due (now : Time) (r : OutboxRow) : bool := (ob_status r =s lit "pending") && (ob_next_attempt_at r <=? now).

(** [WebhookQueue::claim_batch]; [None]: not a choice of the data base *)
Definition webhook_claim_batch (limit : nat) (now : Time) (locked chosen : list Uuid) (d : Db) : option (list WebhookJob * Db) :=
  if valid_choice ob_created_at limit (candidates (outbox_due now) locked (db_outbox d)) chosen then
    let d' := with_outbox (update_all (ob_set_status (lit "processing")) chosen) d in
    Some (omap webhook_job_of (map outbox_json (rows_of chosen (db_outbox d'))), d')
  else None.

Record MessageJob := mkMessageJob {
  mj_id : Uuid; mj_session : str; mj_chat_id : str; mj_message_type : str; mj_payload : Value;
  mj_created_at : option Time; mj_attempts : i32
}.

Definition message_mark_status (id : Uuid) (status : str) (d : Db) : Db :=
  with_messages (alter (msg_set_status status) id) d.

Definition message_json (ir : Uuid * MessageRow) : Value :=
  json_obj [("id", V_String (uuid_str ir.1)); ("session", V_String (mr_session ir.2)); ("chat_id", opt_string (mr_chat_id ir.2));
            ("message_type", V_String (mr_message_type ir.2)); ("payload", mr_payload ir.2);
            ("created_at", V_String (pg_time (mr_created_at ir.2))); ("attempts", V_Number (N_int (mr_attempts ir.2)))]%string.

Definition message_job_of (row : Value) : option MessageJob :=
  let value := row_value row in
  let id := get_str "id" value ≫= parse_uuid in
  let session := default [] (get_str "session" value) in
  let chat_id := default [] (get_str "chat_id" value) in
  let message_type := default [] (get_str "message_type" value) in
  let payload := default V_Null (v_get "payload" value) in
  let created_at := get_str "created_at" value ≫= parse_rfc3339 in
  let attempts := cast_i32 (default 0 (v_get "attempts" value ≫= as_i64)) in
  (fun id => mkMessageJob id session chat_id message_type payload created_at attempts) <$> id.

Definition message_queued (sessions : list str) (r : MessageRow) : bool :=
  (mr_status r =s lit "queued") && existsb (bytes_eqb (mr_session r)) sessions.

(** [MessageQueue::claim_for_sessions] *)
Definition claim_for_sessions (sessions : list str) (limit : nat) (locked chosen : list Uuid) (d : Db) : option (list MessageJob * Db) :=
  match sessions with
  | [] => Some ([], d)
  | _ =>
      if valid_choice mr_created_at limit (candidates (message_queued sessions) locked (db_messages d)) chosen then
        let d' := with_messages (update_all (msg_set_status (lit "processing")) chosen) d in
        Some (omap message_job_of (map message_json (rows_of chosen (db_messages d'))), d')
      else None
  end.

(** ** Lemmas *)

(** The job read back from a claimed row. *)
Definition job_of_row (ir : Uuid * MessageRow) : MessageJob :=
  mkMessageJob ir.1 (mr_session ir.2) (default [] (mr_chat_id ir.2)) (mr_message_type ir.2) (mr_payload ir.2)
    (Some (mr_created_at ir.2)) (mr_attempts ir.2).
Definition job_of_event (ir : Uuid * OutboxRow) : WebhookJob :=
  mkWebhookJob ir.1 (ob_session ir.2) (ob_event ir.2) (ob_payload ir.2) (ob_attempts ir.2).

Lemma as_i64_int z : is_i32 z -> as_i64 (V_Number (N_int z)) = Some z.
Proof. unfold is_i32. intros. cbn. unfold in_range. destruct (Z.leb_spec (- 2 ^ 63) z), (Z.leb_spec z (2 ^ 63 - 1)); cbn; [done|lia..]. Qed.

Lemma update_all_lookup {R} (f : R -> R) ids t i :
  NoDup ids -> update_all f ids t !! i = if bool_decide (i ∈ ids) then f <$> t !! i else t !! i.
Proof.
  unfold update_all. induction ids as [|j ids IH]; intros Hn; cbn [foldr]; [by case_bool_decide; [set_solver|]|].
  inversion_clear Hn as [|? ? Hj Hn']. destruct (decide (i = j)) as [->|N].
  - rewrite lookup_alter_eq, IH by done. rewrite (bool_decide_false (j ∈ ids)) by done. by rewrite bool_decide_true by set_solver.
  - rewrite lookup_alter_ne, IH by done.
    assert (bool_decide (i ∈ ids) = bool_decide (i ∈ j :: ids)) as -> by (apply bool_decide_ext; set_solver). done.
Qed.

Lemma valid_choice_spec {R} (created_at : R -> Time) limit cands chosen :
  valid_choice created_at limit cands chosen = true <->
  NoDup chosen /\ (forall i, i ∈ chosen -> is_Some (cands !! i)) /\ length chosen = Nat.min limit (size cands)
  /\ (forall i r j r', i ∈ chosen -> cands !! i = Some r -> cands !! j = Some r' -> j ∈ chosen \/ created_at r <= created_at r').
Proof.
  unfold valid_choice. rewrite !andb_true_iff, !forallb_forall, bool_decide_eq_true, Nat.eqb_eq. split.
  - intros [[[Hn Hc] Hl] Ho]. split_and!; [done| |done|].
    + intros i Hi. apply list_elem_of_In, Hc, bool_decide_eq_true in Hi. done.
    + intros i r j r' Hi%list_elem_of_In Hr Hj. specialize (Ho i Hi). rewrite Hr, bool_decide_eq_true in Ho. exact (Ho j r' Hj).
  - intros (Hn & Hc & Hl & Ho). split_and!; [done| |done|].
    + intros i Hi%list_elem_of_In. apply bool_decide_eq_true. auto.
    + intros i Hi%list_elem_of_In. destruct (Hc i Hi) as [r Hr]. rewrite Hr, bool_decide_eq_true. intros j r' Hj. eauto.
Qed.

Lemma candidates_lookup {R} (p : R -> bool) locked t i r :
  candidates p locked t !! i = Some r <-> t !! i = Some r /\ p r = true /\ i ∉ locked.
Proof. unfold candidates. rewrite map_lookup_filter_Some. naive_solver. Qed.

Lemma rows_of_ids {R} (ids : list Uuid) (t : gmap Uuid R) :
  (forall i, i ∈ ids -> is_Some (t !! i)) -> map fst (rows_of ids t) = ids.
Proof.
  induction ids as [|i ids IH]; intros H; [done|]. cbn. destruct (H i) as [r Hr]; [set_solver|]. rewrite Hr. cbn.
  f_equal. apply IH. set_solver.
Qed.

Lemma rows_of_elem {R} (ids : list Uuid) (t : gmap Uuid R) i r : (i, r) ∈ rows_of ids t -> i ∈ ids /\ t !! i = Some r.
Proof.
  unfold rows_of. rewrite list_elem_of_omap. intros (j & Hj & E). destruct (t !! j) eqn:Ej; cbn in E; [|done].
  apply (inj Some) in E. by simplify_eq.
Qed.

(** Some choice is always possible: the oldest rows. *)
Definition older {R} (created_at : R -> Time) : relation (Uuid * R) := fun a b => created_at a.2 <= created_at b.2.
#[global] Instance older_dec {R} (created_at : R -> Time) : RelDecision (older created_at).
Proof. intros a b. apply Z.le_dec. Defined.

Definition oldest_first {R} (created_at : R -> Time) (cands : gmap Uuid R) : list (Uuid * R) :=
  merge_sort (older created_at) (map_to_list cands).

Lemma oldest_first_valid {R} (created_at : R -> Time) limit cands :
  valid_choice created_at limit cands (map fst (take limit (oldest_first created_at cands))) = true.
Proof.
  set (le := older created_at).
  assert (oldest_first created_at cands ≡ₚ map_to_list cands) as Hp by apply merge_sort_Permutation.
  assert (StronglySorted le (oldest_first created_at cands)) as Hs.
  { apply StronglySorted_merge_sort; unfold le, older; [intros ???; lia|intros ??; lia]. }
  assert (forall i r, (i, r) ∈ oldest_first created_at cands <-> cands !! i = Some r) as Hin.
  { intros i r. by rewrite Hp, elem_of_map_to_list. }
  set (l := oldest_first created_at cands) in *.
  assert (NoDup (map fst l)) as Hn by (change (map fst l) with (l.*1); rewrite Hp; apply NoDup_fst_map_to_list).
  apply valid_choice_spec. split_and!.
  - change (map fst (take limit l)) with ((take limit l).*1). rewrite fmap_take. by apply (sublist_NoDup _ (l.*1)), sublist_take.
  - intros i Hi. apply list_elem_of_fmap in Hi as ([j r] & -> & Hi). apply subseteq_take in Hi. exists r. by apply Hin.
  - rewrite length_map, length_take, Hp, length_map_to_list. done.
  - intros i r j r' Hi Hr Hj. apply Hin in Hj. rewrite <- (take_drop limit l) in Hj, Hs.
    apply elem_of_app in Hj as [Hj|Hj]; [left; apply list_elem_of_fmap; by exists (j, r')|right].
    apply list_elem_of_fmap in Hi as ([i' ri] & -> & Hi). cbn in Hr.
    assert (cands !! i' = Some ri) as Hri.
    { by apply Hin, (subseteq_take limit). }
    simplify_eq. exact (StronglySorted_app_1_elem_of le _ _ (i', r) (j, r') Hs Hi Hj).
Qed.

(** Attempts are an [INT] column. *)
Definition attempts_ok (d : Db) : Prop :=
  map_Forall (fun _ r => is_i32 (mr_attempts r)) (db_messages d) /\ map_Forall (fun _ r => is_i32 (ob_attempts r)) (db_outbox d).

Lemma row_value_id l : NoDup (map fst l) -> assoc_get "value" l = None -> row_value (json_obj l) = json_obj l.
Proof. intros Hn E. unfold row_value. by rewrite json_obj_get, E. Qed.

Lemma message_job_json ir : is_i32 (mr_attempts ir.2) -> message_job_of (message_json ir) = Some (job_of_row ir).
Proof.
  intros Ha. unfold message_job_of, message_json. rewrite row_value_id by (distinct_keys || done).
  unfold get_str. json_lookup. cbn [mbind option_bind as_str default]. rewrite parse_uuid_str, parse_pg_time, as_i64_int by done. cbn.
  rewrite cast_i32_id by done. unfold job_of_row. by destruct (mr_chat_id ir.2).
Qed.

Lemma webhook_job_json ir : is_i32 (ob_attempts ir.2) -> webhook_job_of (outbox_json ir) = Some (job_of_event ir).
Proof.
  intros Ha. unfold webhook_job_of, outbox_json. rewrite row_value_id by (distinct_keys || done).
  unfold get_str. json_lookup. cbn [mbind option_bind as_str default]. rewrite parse_uuid_str, as_i64_int by done. cbn.
  rewrite cast_i32_id by done. unfold job_of_event. by destruct (ob_session ir.2).
Qed.

Lemma omap_all {A B} (f : A -> option B) (g : A -> B) l : (forall x, x ∈ l -> f x = Some (g x)) -> omap f l = map g l.
Proof. induction l as [|x l IH]; intros H; [done|]. cbn. rewrite H by set_solver. cbn. f_equal. apply IH. set_solver. Qed.

(** The rows a claim has taken, as jobs. *)
Lemma claimed_rows {R J} (set : R -> R) (job_of : Value -> option J) (json : Uuid * R -> Value) (job : Uuid * R -> J)
    created_at p limit locked chosen (t : gmap Uuid R) :
  (forall i r, t !! i = Some r -> job_of (json (i, set r)) = Some (job (i, set r))) ->
  valid_choice created_at limit (candidates p locked t) chosen = true ->
  NoDup chosen /\ (length chosen <= limit)%nat
  /\ exists rows, omap job_of (map json (rows_of chosen (update_all set chosen t))) = map job rows /\ map fst rows = chosen
    /\ forall i r', (i, r') ∈ rows -> exists r, t !! i = Some r /\ p r = true /\ r' = set r.
Proof.
  intros Hjob (Hn & Hc & Hl & _)%valid_choice_spec. split_and!; [done|lia|]. exists (rows_of chosen (update_all set chosen t)).
  assert (forall i, i ∈ chosen -> exists r, t !! i = Some r /\ p r = true /\ update_all set chosen t !! i = Some (set r)) as Hrow.
  { intros i Hi. destruct (Hc i Hi) as [r Hr]. apply candidates_lookup in Hr as (Hr & Hq & _). exists r. split_and!; [done..|].
    by rewrite update_all_lookup, bool_decide_true, Hr. }
  split_and!.
  - assert (forall l, omap job_of (map json l) = omap (fun ir => job_of (json ir)) l) as ->
      by (induction l as [|x l IH]; cbn; [done|by rewrite IH]).
    apply omap_all. intros [i r] [Hi Ht]%rows_of_elem. destruct (Hrow i Hi) as (r0 & H0 & _ & H1). simplify_eq. auto.
  - apply rows_of_ids. intros i Hi. destruct (Hrow i Hi) as (r & _ & _ & H). eauto.
  - intros i r' [Hi Ht]%rows_of_elem. destruct (Hrow i Hi) as (r & H0 & Hp & H1). simplify_eq. eauto.
Qed.

(** What a claim returns and does: every claimed row was waiting for one of the
    sessions and is now being processed, the other rows are as before. *)
Lemma claim_for_sessions_spec sessions limit locked chosen d jobs d' :
  map_Forall (fun _ r => is_i32 (mr_attempts r)) (db_messages d) -> claim_for_sessions sessions limit locked chosen d = Some (jobs, d') -> sessions <> [] ->
  NoDup chosen /\ (length chosen <= limit)%nat /\ map mj_id jobs = chosen
  /\ (forall j, j ∈ jobs -> exists r, db_messages d !! mj_id j = Some r /\ message_queued sessions r = true
        /\ j = job_of_row (mj_id j, msg_set_status (lit "processing") r))
  /\ d' = with_messages (update_all (msg_set_status (lit "processing")) chosen) d.
Proof.
  intros Ha E Hs. unfold claim_for_sessions in E. destruct sessions as [|s0 ss]; [done|].
  destruct (valid_choice _ _ _ _) eqn:V; [|done]. injection E as E <-.
  destruct (claimed_rows (msg_set_status (lit "processing")) message_job_of message_json job_of_row _ _ _ _ _ _
              ltac:(intros i r Hr; apply message_job_json, (Ha i _ Hr)) V) as (Hn & Hl & rows & Hj & Hi & Hr).
  change (omap message_job_of (map message_json (rows_of chosen (update_all (msg_set_status (lit "processing")) chosen (db_messages d)))) = jobs) in E.
  rewrite Hj in E. subst jobs. split_and!; [done|done|by rewrite map_map| |done].
  intros j Hin. apply list_elem_of_fmap in Hin as ([i r'] & -> & Hin). destruct (Hr i r' Hin) as (r & H0 & Hq & ->). by exists r.
Qed.

Lemma webhook_claim_spec limit now locked chosen d jobs d' :
  attempts_ok d -> webhook_claim_batch limit now locked chosen d = Some (jobs, d') ->
  NoDup chosen /\ (length chosen <= limit)%nat /\ map wj_id jobs = chosen
  /\ (forall j, j ∈ jobs -> exists r, db_outbox d !! wj_id j = Some r /\ outbox_due now r = true
        /\ j = job_of_event (wj_id j, ob_set_status (lit "processing") r))
  /\ d' = with_outbox (update_all (ob_set_status (lit "processing")) chosen) d.
Proof.
  intros [_ Ha] E. unfold webhook_claim_batch in E.
  destruct (valid_choice _ _ _ _) eqn:V; [|done]. injection E as E <-.
  destruct (claimed_rows (ob_set_status (lit "processing")) webhook_job_of outbox_json job_of_event _ _ _ _ _ _
              ltac:(intros i r Hr; apply webhook_job_json, (Ha i _ Hr)) V) as (Hn & Hl & rows & Hj & Hi & Hr).
  change (omap webhook_job_of (map outbox_json (rows_of chosen (update_all (ob_set_status (lit "processing")) chosen (db_outbox d)))) = jobs) in E.
  rewrite Hj in E. subst jobs. split_and!; [done|done|by rewrite map_map| |done].
  intros j Hin. apply list_elem_of_fmap in Hin as ([i r'] & -> & Hin). destruct (Hr i r' Hin) as (r & H0 & Hq & ->). by exists r.
Qed.
End Queues.
