(* ===== verification/MessageBuild.v ===== *)
(** * Messages of the REST server: [src/server/messages_worker.rs], building

    A queued message has a type and the JSON body it was posted with; the worker
    turns the two into a message of the protocol, for files after an upload
    ([Media.upload]).  A message is rendered by what the code sets of it.

    The theorems: what is uploaded is what the body has, in a data URL or
    plain, under the media type of the kind of message, and the message
    describes the file as the answer to the upload does; a reply refers to the
    message that was named. *)

From stdpp Require Import gmap.
From S2P Require Import Prelude RustStd Jid Node Attrs Crypto Requests Pairing KeyServer Media Json.

(** ** What is built *)

Record ContextInfo := mkContextInfo { ci_stanza_id : option str; ci_participant : option str; ci_remote_jid : option str }.

(** The fields that the messages with a file share. *)
Record FileFields := mkFileFields {
  ff_mimetype : option str; ff_url : str; ff_direct_path : str; ff_media_key : bytes; ff_file_enc_sha256 : bytes;
  ff_file_sha256 : bytes; ff_file_length : u64; ff_context_info : option ContextInfo
}.

Inductive OutMessage :=
| M_conversation (text : str)
| M_extended_text (text : str) (context_info : ContextInfo)
| M_image (f : FileFields) (caption : option str)
| M_video (f : FileFields) (caption : option str)
| M_audio (f : FileFields) (ptt : bool)
| M_document (f : FileFields) (caption : option str) (file_name : str)
| M_sticker (f : FileFields) (is_animated : option bool).

(** ** Replies and text *)

(** [.map(|s| s.trim()).filter(|s| !s.is_empty())] *)
Definition non_blank (o : option str) : option str := opt_filter (fun s => negb (str_is_empty s)) (trim <$> o).

(** [payload.get("quoted").and_then(|v| v.as_object())] and the message it names *)
Definition quoted_of (payload : Value) : option Value := fmap (M := option) V_Object (v_get "quoted" payload ≫= as_object).
Definition quoted_message_id (payload : Value) : option str := (quoted_of payload ≫= v_get_or "messageId" "message_id") ≫= as_str.

Definition build_reply_context_info (payload : Value) : option ContextInfo :=
  let reply_message_id := non_blank (get_str "reply" payload) in
  let quoted := quoted_of payload in
  match or_else reply_message_id (quoted_message_id payload) with
  | None => None
  | Some stanza_id =>
      let remote_jid :=
        or_else (or_else ((quoted ≫= v_get_or "chatId" "chat_id") ≫= as_str) (get_str "chatId" payload))
          (get_str "chat_id" payload) in
      let participant := (quoted ≫= v_get_or "participant" "sender") ≫= as_str in
      Some (mkContextInfo (Some stanza_id) participant remote_jid)
  end.

Definition build_text_message (payload : Value) : option OutMessage :=
  let text := default [] (get_str "text" payload) in
  if str_is_empty (trim text) then None
  else match build_reply_context_info payload with
       | Some context_info => Some (M_extended_text text context_info)
       | None => Some (M_conversation text)
       end.

(** ** Files *)

Definition COMMA : u8 := 44.
Definition SEMICOLON : u8 := 59.

(** [str::strip_prefix] *)
Definition strip_prefix (p s : str) : option str := if starts_with p s then Some (drop (length p) s) else None.

Definition split_data_url (input : str) : option str * str :=
  match strip_prefix (lit "data:") input with
  | None => (None, input)
  | Some rest =>
      match split_once COMMA rest with
      | None => (None, input)
      | Some (meta, data) =>
          let first := match split_once SEMICOLON meta with Some (m, _) => m | None => meta end in
          ((if str_is_empty first then None else Some first), data)
      end
  end.

Section Files.
Context `{HK : !Hkdf, HS : !Hashes, HA : !AesCbc, HAB : !AesBlock, HB : !Base64}.
Context (b64_url_no_pad : bytes -> str).
Context (send_iq : InfoQuery -> outcome ClientIqError Node) (show_iq_error : ClientIqError -> str).
Context (execute : HttpRequest -> outcome str HttpResponse) (raw_from_json : bytes -> outcome str (str * str)) (now : u64).
Context (show_utf8_error : bytes -> str).

(** The bytes and the media type after the call. *)
Definition extract_media_bytes (payload : Value) (mimetype : option str) : outcome str (bytes * option str) :=
  match get_str "base64" payload, get_str "url" payload with
  | Some b64, _ =>
      let '(from_data_url, raw_b64) := split_data_url b64 in
      let mimetype := or_else mimetype from_data_url in
      omap_ok (fun b => (b, mimetype)) (ok_or (lit "invalid base64") (b64_decode raw_b64))
  | None, Some url =>
      let? response := execute (http_get url) in
      if 300 <=? hp_status_code response
      then Err (lit "download failed with status " ++ show_uint (hp_status_code response))
      else Ok (hp_body response, mimetype)
  | None, None => Err (lit "missing url or base64")
  end.

(** What the five functions share: the file is fetched, uploaded, described. *)
Definition upload_file (t : MediaType) (media_key : bytes) (payload : Value) : comp (option MediaConn) str FileFields :=
  let! (data, mimetype) := mlift (extract_media_bytes payload (get_str "mimetype" payload)) in
  let! up := upload b64_url_no_pad send_iq show_iq_error execute raw_from_json now show_utf8_error media_key data t in
  mret (mkFileFields mimetype (up_url up) (up_direct_path up) (up_media_key up) (up_file_enc_sha256 up) (up_file_sha256 up)
          (up_file_length up) (build_reply_context_info payload)).

Definition build_image_message (media_key : bytes) (payload : Value) : comp (option MediaConn) str OutMessage :=
  let! f := upload_file Image media_key payload in mret (M_image f (get_str "caption" payload)).

Definition build_video_message (media_key : bytes) (payload : Value) : comp (option MediaConn) str OutMessage :=
  let! f := upload_file Video media_key payload in mret (M_video f (get_str "caption" payload)).

Definition build_audio_message (media_key : bytes) (payload : Value) (ptt : bool) : comp (option MediaConn) str OutMessage :=
  let! f := upload_file Audio media_key payload in mret (M_audio f ptt).

Definition build_document_message (media_key : bytes) (payload : Value) : comp (option MediaConn) str OutMessage :=
  let filename := default (lit "file") (v_get_or "filename" "fileName" payload ≫= as_str) in
  let! f := upload_file Document media_key payload in mret (M_document f (get_str "caption" payload) filename).

Definition build_sticker_message (media_key : bytes) (payload : Value) : comp (option MediaConn) str OutMessage :=
  let is_animated := v_get_or "isAnimated" "is_animated" payload ≫= as_bool in
  let! f := upload_file Sticker media_key payload in
  mret (M_sticker (mkFileFields (or_else (ff_mimetype f) (Some (lit "image/webp"))) (ff_url f) (ff_direct_path f) (ff_media_key f)
                     (ff_file_enc_sha256 f) (ff_file_sha256 f) (ff_file_length f) (ff_context_info f)) is_animated).

(** [None]: unknown type, blank text, or a file that could not be sent. *)
Definition build_message (media_key : bytes) (message_type : str) (payload : Value) :
    comp (option MediaConn) str (option OutMessage) :=
  let built (m : comp (option MediaConn) str OutMessage) : comp (option MediaConn) str (option OutMessage) :=
    fun c => match m c with
             | (Ok msg, c) => (Ok (Some msg), c)
             | (Err _, c) => (Ok None, c)
             | (Panic, c) => (Panic, c)
             | (NoFuel, c) => (NoFuel, c)
             end in
  if message_type =s lit "text" then mret (build_text_message payload)
  else if message_type =s lit "image" then built (build_image_message media_key payload)
  else if message_type =s lit "video" then built (build_video_message media_key payload)
  else if message_type =s lit "voice" then built (build_audio_message media_key payload true)
  else if message_type =s lit "audio" then built (build_audio_message media_key payload false)
  else if message_type =s lit "file" then built (build_document_message media_key payload)
  else if message_type =s lit "sticker" then built (build_sticker_message media_key payload)
  else mret None.

(** ** Theorems *)

(** The kind of file a type of message carries. *)
Definition file_kind (message_type : str) : option FileMessage :=
  if message_type =s lit "image" then Some ImageMessage
  else if message_type =s lit "video" then Some VideoMessage
  else if message_type =s lit "voice" then Some AudioMessage
  else if message_type =s lit "audio" then Some AudioMessage
  else if message_type =s lit "file" then Some DocumentMessage
  else if message_type =s lit "sticker" then Some StickerMessage
  else None.

(** The kind of file and the fields of a message with one. *)
Definition file_of (m : OutMessage) : option (FileMessage * FileFields) :=
  match m with
  | M_conversation _ | M_extended_text _ _ => None
  | M_image f _ => Some (ImageMessage, f)
  | M_video f _ => Some (VideoMessage, f)
  | M_audio f _ => Some (AudioMessage, f)
  | M_document f _ _ => Some (DocumentMessage, f)
  | M_sticker f _ => Some (StickerMessage, f)
  end.

Definition described (k : FileMessage) (f : FileFields) : Downloadable :=
  impl_downloadable k (Some (ff_direct_path f)) (Some (ff_media_key f)) (Some (ff_file_enc_sha256 f)) (Some (ff_file_sha256 f))
    (Some (ff_file_length f)).

Definition data_url (mime : str) (data : bytes) : str := lit "data:" ++ mime ++ lit ";base64," ++ b64_encode data.

Lemma strip_prefix_app (p s : str) : strip_prefix p (p ++ s) = Some s.
Proof. unfold strip_prefix. by rewrite starts_with_app, drop_app_length. Qed.

Lemma split_data_url_of mime data : mime <> [] -> str_free COMMA mime = true -> str_free SEMICOLON mime = true ->
  split_data_url (data_url mime data) = (Some mime, b64_encode data).
Proof.
  intros Hm Hc Hs. unfold split_data_url, data_url. rewrite strip_prefix_app.
  replace (mime ++ lit ";base64," ++ b64_encode data) with ((mime ++ lit ";base64") ++ COMMA :: b64_encode data)
    by (by rewrite <- app_assoc).
  rewrite split_once_app by (by rewrite str_free_app, Hc).
  change (lit ";base64") with (SEMICOLON :: lit "base64"). rewrite split_once_app by done. by destruct mime.
Qed.

Abbreviation put := (upload b64_url_no_pad send_iq show_iq_error execute raw_from_json now show_utf8_error).

Lemma upload_file_data t media_key payload mime data c up c' :
  get_str "base64" payload = Some (data_url mime data) -> mime <> [] -> str_free COMMA mime = true -> str_free SEMICOLON mime = true ->
  Forall is_byte data -> put media_key data t c = (Ok up, c') ->
  upload_file t media_key payload c
  = (Ok (mkFileFields (Some (default mime (get_str "mimetype" payload))) (up_url up) (up_direct_path up) (up_media_key up)
           (up_file_enc_sha256 up) (up_file_sha256 up) (up_file_length up) (build_reply_context_info payload)), c').
Proof.
  intros Hb Hm Hc Hs Hd Hu. unfold upload_file, extract_media_bytes. rewrite Hb, split_data_url_of by done.
  rewrite b64_decode_encode by done. unfold mbind', mlift. cbn [ok_or omap_ok obind]. rewrite Hu.
  unfold mret. by destruct (get_str "mimetype" payload).
Qed.

(** A file posted as a data URL is sent: for every type of message that carries
    a file the bytes of the URL are uploaded under the media type of that type,
    and the message describes the file as the answer to the upload does, with
    the media type that was posted or else that of the URL, and as a reply if it
    is one. *)
Theorem posted_file_sent message_type k payload mime data media_key c up c' :
  file_kind message_type = Some k -> get_str "base64" payload = Some (data_url mime data) ->
  mime <> [] -> str_free COMMA mime = true -> str_free SEMICOLON mime = true -> Forall is_byte data ->
  put media_key data (media_type_of k) c = (Ok up, c') ->
  exists m f, build_message media_key message_type payload c = (Ok (Some m), c') /\ file_of m = Some (k, f)
    /\ described k f = downloadable_of up k /\ ff_mimetype f = Some (default mime (get_str "mimetype" payload))
    /\ ff_context_info f = build_reply_context_info payload.
Proof.
  intros Hk Hb Hm Hc Hs Hd Hu. pose proof (fun t H => upload_file_data t media_key payload mime data c up c' Hb Hm Hc Hs Hd H) as Hf.
  revert Hk. unfold file_kind, build_message.
  destruct (bytes_eqb_spec message_type (lit "text")) as [->|_]; [done|].
  repeat (case_streq; [intros Hk; apply (inj Some) in Hk as <-; specialize (Hf _ Hu); cbn [media_type_of] in Hf|]); [..|done].
  all: unfold build_image_message, build_video_message, build_audio_message, build_document_message, build_sticker_message, mbind', mret;
    rewrite Hf; eexists _, _; split_and!; done.
Qed.

(** A text message says what was posted, as a reply if a message is named. *)
Lemma build_text_spec payload text : get_str "text" payload = Some text -> trim text <> [] ->
  build_text_message payload
  = Some (match build_reply_context_info payload with Some ci => M_extended_text text ci | None => M_conversation text end).
Proof. intros Ht Hn. unfold build_text_message. rewrite Ht. change (default [] (Some text)) with text. destruct (trim text); [done|]. cbn [str_is_empty]. by destruct (build_reply_context_info payload). Qed.

(** Building a message never panics when the server, the HTTP client and the
    parser of its answers return. *)
Section Returns.
Hypothesis execute_returns : forall r, returns (execute r).
Hypothesis iq_returns : forall q, returns (send_iq q).
Hypothesis raw_returns : forall b, returns (raw_from_json b).

Lemma refresh_returns force c : returns (refresh_media_conn send_iq now force c).1.
Proof.
  unfold refresh_media_conn. destruct (if force then None else _); [done|]. unfold mbind', mlift. pose proof (iq_returns media_conn_query) as Hr.
  destruct (send_iq media_conn_query) as [resp|e| |]; try done. destruct (get_optional_child resp (lit "media_conn")) as [n|]; [|done]. cbn [ok_or].
  by destruct (ap_string _ _).
Qed.

Lemma upload_returns media_key data t c : returns (put media_key data t c).1.
Proof.
  unfold upload. destruct (encrypted_opens media_key data t) as (enc & E & _). rewrite E. pose proof (refresh_returns false c) as Hr.
  destruct (refresh_media_conn send_iq now false c) as [[conn|e| |] c']; try done. cbn [map_err obind fst].
  destruct (head (mn_hosts conn)) as [h|]; [|done]. cbn [ok_or obind].
  set (req := upload_request _ _ _ _ _). pose proof (execute_returns req) as He. destruct (execute req) as [resp|e| |]; try done. cbn [obind].
  destruct (400 <=? _).
  - unfold body_string. by destruct (utf8_valid (hp_body resp)).
  - pose proof (raw_returns (hp_body resp)). by destruct (raw_from_json (hp_body resp)).
Qed.

Lemma extract_returns payload mimetype : returns (extract_media_bytes payload mimetype).
Proof.
  unfold extract_media_bytes. destruct (get_str "base64" payload) as [b|]; [destruct (split_data_url b); by destruct (b64_decode _)|].
  destruct (get_str "url" payload) as [url|]; [|done]. pose proof (execute_returns (http_get url)) as He. destruct (execute (http_get url)); try done. cbn.
  by case_match.
Qed.

Lemma upload_file_returns t media_key payload c : returns (upload_file t media_key payload c).1.
Proof.
  unfold upload_file, mbind', mlift. pose proof (extract_returns payload (get_str "mimetype" payload)) as He.
  destruct (extract_media_bytes _ _) as [[data m]|e| |]; try done. pose proof (upload_returns media_key data t c) as Hu.
  by destruct (put media_key data t c) as [[up|e| |] c'].
Qed.

Lemma build_message_returns media_key message_type payload c : returns (build_message media_key message_type payload c).1.
Proof.
  pose proof (fun t => upload_file_returns t media_key payload c) as Hf. unfold build_message.
  unfold build_image_message, build_video_message, build_audio_message, build_document_message, build_sticker_message.
  repeat match goal with |- context [if ?a =s ?b then _ else _] => destruct (a =s b) end; try done; unfold mbind';
    match goal with |- context [upload_file ?t media_key payload c] => specialize (Hf t); by destruct (upload_file t media_key payload c) as [[f|e| |] c'] end.
Qed.
End Returns.
End Files.
