(* ===== verification/Webhooks.v ===== *)
(** * Webhooks: [src/server/webhooks.rs], the event settings of [src/server/mod.rs]

    Events are rows of [webhook_outbox].  A worker claims due rows in batches,
    posts each to the webhook of its session and to the global one, and marks
    the row sent, or for another attempt after a delay.

    The worker's statements, requests and looks at the clock are numbered;
    what the data base, the receivers and the clock answer to the [n]-th is a
    parameter.  Between two rounds of the worker the handlers of the server
    enqueue events and change sessions; an insertion during a round does to
    the table what it does after the claim of the round.

    The theorems: an event is attempted at most five times, with the delays of
    the table between attempts; it counts as sent exactly when every receiver
    confirmed it in one attempt; files are kept out of the payloads for
    receivers that do not want them; an event whose marking failed, or that
    was claimed together with one whose configuration could not be read, is
    never touched again. *)

From stdpp Require Import gmap sorting.
From S2P Require Import Prelude RustStd Jid Node Attrs Crypto Requests Pairing KeyServer Media Json Queue MessageBuild.

(** ** [Settings] *)

Record Settings := mkSettings { st_webhook_events : gmap str bool; st_allowed_events : option (list str) }.

Definition env_true (v : str) : bool := (v =s lit "true") || (v =s lit "1").

(** [Settings::new]; [from_json]: [serde_json::from_str::<Vec<String>>] *)
Definition settings_new (from_json : str -> option (list str)) (vars : list (str * str)) : Settings :=
  let allowed := im_get (lit "ALLOWED_EVENTS") vars ≫= from_json in
  let events := fold_left (fun m kv => match strip_prefix (lit "WEBHOOK_EVENTS_") kv.1 with
                                       | Some event => <[event := env_true kv.2]> m
                                       | None => m
                                       end) vars (∅ : gmap str bool) in
  mkSettings events allowed.

Definition is_event_enabled (s : Settings) (event : str) : bool :=
  match st_allowed_events s with
  | Some allowed => if existsb (bytes_eqb event) allowed then default true (st_webhook_events s !! event) else false
  | None => default true (st_webhook_events s !! event)
  end.

Definition toggle_event (event : str) (enabled : bool) (s : Settings) : Settings :=
  mkSettings (<[event := enabled]> (st_webhook_events s)) (st_allowed_events s).

Definition get_events_settings (s : Settings) : Value :=
  json_obj [("APPLICATION_STARTUP", V_Bool (is_event_enabled s (lit "APPLICATION_STARTUP")));
            ("MESSAGES_SET", V_Bool (is_event_enabled s (lit "MESSAGES_SET")))]%string.

(** ** Configurations *)

Record WebhookConfig := mkWebhookConfig {
  wc_enabled : bool; wc_url : str; wc_by_events : bool; wc_base64 : bool; wc_headers : list (str * str); wc_events : option (list str)
}.

Definition event_allowed (events : option (list str)) (event : str) : bool :=
  match events with
  | None => true
  | Some [] => true
  | Some l => existsb (bytes_eqb event) l
  end.

(** [row_to_json] of the webhook columns of a session *)
Definition session_json (r : SessionRow) : Value :=
  json_obj [("webhook_enabled", V_Bool (sr_webhook_enabled r)); ("webhook_url", opt_string (sr_webhook_url r));
            ("webhook_by_events", V_Bool (sr_webhook_by_events r)); ("webhook_base64", V_Bool (sr_webhook_base64 r));
            ("webhook_headers", sr_webhook_headers r); ("webhook_events", default V_Null (sr_webhook_events r))]%string.

(** The configuration of a row, [None] without a URL. *)
Definition config_of (row : Value) : option WebhookConfig :=
  let enabled := default false (get_bool "webhook_enabled" row) in
  let url := default [] (get_str "webhook_url" row) in
  let by_events := default false (get_bool "webhook_by_events" row) in
  let base64 := default false (get_bool "webhook_base64" row) in
  let headers := match v_get "webhook_headers" row ≫= as_object with
                 | Some obj => im_collect (omap (fun kv => (fun v => (kv.1, v)) <$> as_str kv.2) obj)
                 | None => []
                 end in
  let events := fmap (M := option) (omap as_str) (v_get "webhook_events" row ≫= as_array) in
  if str_is_empty url then None else Some (mkWebhookConfig enabled url by_events base64 headers events).

Definition CACHE_TTL : Time := seconds 30.

(** The environment of the process. *)
Definition env_flag (var : str -> option str) (k : string) : bool := default false (env_true <$> var (lit k)).

Definition load_global_webhook (var : str -> option str) (s : Settings) (event : str) : option WebhookConfig :=
  if negb (env_flag var "WEBHOOK_GLOBAL_ENABLED") then None
  else if negb (is_event_enabled s event) then None
  else (fun url => mkWebhookConfig true url (env_flag var "WEBHOOK_GLOBAL_WEBHOOK_BY_EVENTS")
                     (env_flag var "WEBHOOK_GLOBAL_WEBHOOK_BASE64") [] None) <$> var (lit "WEBHOOK_GLOBAL_URL").

(** ** Payloads *)

Definition drop_base64 (v : Value) : Value :=
  match v with V_Object message => V_Object (obj_remove (lit "base64") message) | _ => v end.

Definition strip_entry (entry : Value) : Value :=
  match entry with V_Object o => V_Object (obj_modify (lit "message") drop_base64 o) | _ => entry end.

Definition strip_data (v : Value) : Value :=
  match v with
  | V_Object data =>
      let data := obj_modify (lit "message") drop_base64 data in
      V_Object (obj_modify (lit "messages") (fun v => match v with V_Array es => V_Array (map strip_entry es) | _ => v end) data)
  | _ => v
  end.

Definition enrich_payload (date_time server_url : str) (payload : Value) (destination : str) (base64_enabled : bool) : Value :=
  let obj := default [] (as_object payload) in
  let obj := if base64_enabled then obj else obj_modify (lit "data") strip_data obj in
  let obj := obj_insert (lit "destination") (V_String destination) obj in
  let obj := obj_insert (lit "date_time") (V_String date_time) obj in
  let obj := obj_insert (lit "server_url") (V_String server_url) obj in
  V_Object obj.

(** [trim_end_matches('/')] *)
Fixpoint trim_start_slash (s : str) : str := match s with c :: s' => if c =? 47 then trim_start_slash s' else s | [] => [] end.
Definition trim_end_slash (s : str) : str := rev (trim_start_slash (rev s)).

(** [event.to_lowercase().replace('_', "-")] *)
Definition event_path (lower : str -> str) (event : str) : str := map (fun c => if c =? UNDERSCORE then DASH else c) (lower event).

(** [json!] payload of an event and its insertion, whose failure is ignored *)
Definition event_payload (session : option str) (event : str) (data : Value) : Value :=
  json_obj [("event", V_String event); ("instance", V_String (default [] session)); ("data", data)]%string.

Definition insert_event (id : Uuid) (session : option str) (event : str) (payload : Value) (now : Time) (d : Db) : option Db :=
  if bool_decide (is_Some (db_outbox d !! id)) || negb (default true ((fun s => session_exists s d) <$> session)) then None
  else Some (with_outbox (insert id (mkOutboxRow session event payload (lit "pending") 0 now None now)) d).

Definition enqueue (id : Uuid) (session : option str) (event : str) (data : Value) (now : Time) (d : Db) : Db :=
  default d (insert_event id session event (event_payload session event data) now d).

(** ** The worker *)

(** What it does, in order: the claim of a row and the requests made for it. *)
Inductive WEvent := W_claim (id : Uuid) (t : Time) | W_post (id : Uuid) (req : HttpRequest) (answer : outcome str HttpResponse).

(** [ws_tick]: the number of statements, requests and looks at the clock so
    far. *)
Record WState := mkWState {
  ws_db : Db; ws_cache : gmap str (option WebhookConfig * Time); ws_settings : Settings; ws_tick : nat; ws_log : list WEvent
}.

Definition set_db (d : Db) (s : WState) : WState := mkWState d (ws_cache s) (ws_settings s) (ws_tick s) (ws_log s).
Definition set_cache c (s : WState) : WState := mkWState (ws_db s) c (ws_settings s) (ws_tick s) (ws_log s).
Definition set_settings st (s : WState) : WState := mkWState (ws_db s) (ws_cache s) st (ws_tick s) (ws_log s).
Definition log_event (l : list WEvent) (s : WState) : WState := mkWState (ws_db s) (ws_cache s) (ws_settings s) (ws_tick s) (ws_log s ++ l).
Definition next_tick (s : WState) : WState := mkWState (ws_db s) (ws_cache s) (ws_settings s) (S (ws_tick s)) (ws_log s).

Section Worker.
Context `{HT : !RowText}.
(** The clock, the verdicts of the data base and its choices, the receivers. *)
Context (clock : nat -> Time) (fails : nat -> bool) (locked : nat -> list Uuid).
Context (choose : nat -> gmap Uuid OutboxRow -> list Uuid) (answer : nat -> HttpRequest -> outcome str HttpResponse).
(** The environment of the process, [str::to_lowercase], [serde_json::to_vec]. *)
Context (var : str -> option str) (lower : str -> str) (to_vec : Value -> bytes).

(** A statement: it fails, or changes the tables. *)
Definition execute_stmt (f : Time -> Db -> Db) : comp WState unit unit :=
  fun s => let t := ws_tick s in
           let s := next_tick s in
           if fails t then (Err tt, s) else (Ok tt, set_db (f (clock t) (ws_db s)) s).

(** [let _ = statement] *)
Definition ignore (m : comp WState unit unit) : comp WState unit unit := fun s => (Ok tt, (m s).2).

Definition webhook_claim (limit : nat) : comp WState unit (list WebhookJob) :=
  fun s => let t := ws_tick s in
           let s := next_tick s in
           if fails t then (Err tt, s)
           else match webhook_claim_batch limit (clock t) (locked t)
                        (choose t (candidates (outbox_due (clock t)) (locked t) (db_outbox (ws_db s)))) (ws_db s) with
                | Some (jobs, d) => (Ok jobs, log_event (map (fun j => W_claim (wj_id j) (clock t)) jobs) (set_db d s))
                | None => (NoFuel, s)
                end.

Definition load_instance_webhook (session : str) : comp WState unit (option WebhookConfig) :=
  let query : comp WState unit (option WebhookConfig) :=
    fun s => let t := ws_tick s in
             let s := next_tick s in
             if fails t then (Err tt, s)
             else let cfg := db_sessions (ws_db s) !! session ≫= (fun r => config_of (session_json r)) in
                  (Ok cfg, set_cache (<[session := (cfg, clock t)]> (ws_cache s)) s) in
  fun s => let now := clock (ws_tick s) in
           let s := next_tick s in
           match ws_cache s !! session with
           | Some (cached, ts) => if now - ts <? CACHE_TTL then (Ok cached, s) else query s
           | None => query s
           end.

Definition SERVER_URL_default : str := lit "http://localhost:8080".

(** The request to one receiver. *)
Definition target_url (event : str) (target : WebhookConfig) : str :=
  if wc_by_events target then trim_end_slash (wc_url target) ++ lit "/" ++ event_path lower event else wc_url target.
Definition target_request (now : Time) (event : str) (payload : Value) (target : WebhookConfig) : HttpRequest :=
  let url := target_url event target in
  let enriched := enrich_payload (to_rfc3339 now) (default SERVER_URL_default (var (lit "SERVER_URL"))) payload url (wc_base64 target) in
  let req := with_body (to_vec enriched) (with_header (lit "Content-Type") (lit "application/json") (http_post url)) in
  fold_left (fun req kv => with_header kv.1 kv.2 req) (wc_headers target) req.

(** [Ok(resp) if (200..300).contains(&resp.status_code)], and the error of
    another answer *)
Definition answer_ok (o : outcome str HttpResponse) : bool :=
  match o with Ok resp => in_range 200 299 (hp_status_code resp) | _ => false end.
Definition answer_error (o : outcome str HttpResponse) : str :=
  match o with Ok resp => lit "http " ++ show_uint (hp_status_code resp) | Err e => e | _ => [] end.

(** The loop over the receivers, with [all_ok] and [last_error]. *)
Fixpoint post_all (id : Uuid) (event : str) (payload : Value) (targets : list WebhookConfig) (last_error : option str) (s : WState) :
    option str * WState :=
  match targets with
  | [] => (last_error, s)
  | target :: targets =>
      let t := ws_tick s in
      let req := target_request (clock t) event payload target in
      let o := answer t req in
      let s := log_event [W_post id req o] (next_tick s) in
      post_all id event payload targets (if answer_ok o then last_error else Some (answer_error o)) s
  end.

Definition job_targets (job : WebhookJob) : comp WState unit (list WebhookConfig) :=
  let! own := match wj_session job with
              | Some sess =>
                  let! cfg := load_instance_webhook sess in
                  mret (match cfg with
                        | Some cfg => if wc_enabled cfg && event_allowed (wc_events cfg) (wj_event job) then [cfg] else []
                        | None => []
                        end)
              | None => mret []
              end in
  fun s => (Ok (own ++ match load_global_webhook var (ws_settings s) (wj_event job) with Some cfg => [cfg] | None => [] end), s).

(** One job: an error of the configuration ends the batch. *)
Definition process_job (job : WebhookJob) : comp WState unit unit :=
  let! targets := job_targets job in
  match targets with
  | [] => ignore (execute_stmt (fun _ => webhook_mark_sent (wj_id job)))
  | _ => fun s =>
      let '(last_error, s) := post_all (wj_id job) (wj_event job) (wj_payload job) targets None s in
      match last_error with
      | None => ignore (execute_stmt (fun _ => webhook_mark_sent (wj_id job))) s
      | Some e => ignore (execute_stmt (fun now => webhook_mark_retry (wj_id job) (wj_attempts job + 1) e now)) s
      end
  end.

Definition process_outbox : comp WState unit unit :=
  let! jobs := webhook_claim 25 in mfor process_job jobs.

(** ** The worker among the handlers of the server *)

Inductive WLabel :=
| Do_round
| Do_enqueue (id : Uuid) (session : option str) (event : str) (data : Value)
| Do_session (session : str) (row : SessionRow)
| Do_toggle (event : str) (enabled : bool).

Definition wexec (l : WLabel) (s : WState) : WState :=
  match l with
  | Do_round => (process_outbox s).2
  | Do_enqueue id session event data => set_db (enqueue id session event data (clock (ws_tick s)) (ws_db s)) (next_tick s)
  | Do_session session row => set_db (with_sessions (insert session row) (ws_db s)) s
  | Do_toggle event enabled => set_settings (toggle_event event enabled (ws_settings s)) s
  end.

Definition wexecs (ls : list WLabel) (s : WState) : WState := fold_left (fun s l => wexec l s) ls s.

(** ** Attempts *)

(** The times at which a row was claimed, and the answers since the last. *)
Definition claim_times (i : Uuid) (log : list WEvent) : list Time :=
  omap (fun e => match e with W_claim j t => if j =? i then Some t else None | _ => None end) log.

Definition answers_step (i : Uuid) (acc : list (outcome str HttpResponse)) (e : WEvent) : list (outcome str HttpResponse) :=
  match e with
  | W_claim j _ => if j =? i then [] else acc
  | W_post j _ o => if j =? i then acc ++ [o] else acc
  end.
Definition last_answers (i : Uuid) (log : list WEvent) : list (outcome str HttpResponse) := fold_left (answers_step i) log [].

#[local] Arguments claim_times : simpl never.
#[local] Arguments last_answers : simpl never.

Definition all_confirmed (i : Uuid) (log : list WEvent) : bool := forallb answer_ok (last_answers i log).

(** Between the [k]-th claim and the next is the delay of the [k]-th attempt. *)
Definition spaced (l : list Time) : Prop :=
  forall k t t', l !! k = Some t -> l !! S k = Some t' -> t + seconds (backoff_seconds (Z.of_nat (S k))) <= t'.

(** What a row's columns say of what was done for it. *)
Inductive row_state (i : Uuid) (r : OutboxRow) (log : list WEvent) : Prop :=
| RS_new : ob_status r = lit "pending" -> ob_attempts r = 0 -> claim_times i log = [] -> row_state i r log
| RS_pending n t : ob_status r = lit "pending" -> ob_attempts r = Z.of_nat n -> (1 <= n <= 4)%nat -> length (claim_times i log) = n ->
    last (claim_times i log) = Some t -> t + seconds (backoff_seconds (Z.of_nat n)) <= ob_next_attempt_at r ->
    all_confirmed i log = false -> row_state i r log
| RS_processing n : ob_status r = lit "processing" -> ob_attempts r = Z.of_nat n -> (n <= 4)%nat -> length (claim_times i log) = S n ->
    row_state i r log
| RS_sent n : ob_status r = lit "sent" -> ob_attempts r = Z.of_nat n -> (n <= 4)%nat -> length (claim_times i log) = S n ->
    all_confirmed i log = true -> row_state i r log
| RS_failed : ob_status r = lit "failed" -> ob_attempts r = 5 -> length (claim_times i log) = 5%nat ->
    all_confirmed i log = false -> row_state i r log.

Record outbox_inv (s : WState) : Prop := {
  oi_rows : forall i r, db_outbox (ws_db s) !! i = Some r -> row_state i r (ws_log s);
  oi_none : forall i, db_outbox (ws_db s) !! i = None -> claim_times i (ws_log s) = [];
  oi_spaced : forall i, spaced (claim_times i (ws_log s));
  oi_past : forall i t, t ∈ claim_times i (ws_log s) -> t <= clock (ws_tick s);
  oi_msgs : map_Forall (fun _ r => is_i32 (mr_attempts r)) (db_messages (ws_db s))
}.

(** A job that was claimed and not yet worked on. *)
Definition in_hand (s : WState) (j : WebhookJob) : Prop :=
  exists r, db_outbox (ws_db s) !! wj_id j = Some r /\ ob_status r = lit "processing" /\ ob_attempts r = wj_attempts j
    /\ last_answers (wj_id j) (ws_log s) = [].

Lemma claim_times_app i l l' : claim_times i (l ++ l') = claim_times i l ++ claim_times i l'.
Proof. unfold claim_times. apply omap_app. Qed.

Lemma last_answers_app i l l' : last_answers i (l ++ l') = fold_left (answers_step i) l' (last_answers i l).
Proof. unfold last_answers. apply fold_left_app. Qed.

(** Nothing happened to the table, the log grew by requests for [id]. *)
Record quiet (id : Uuid) (os : list (outcome str HttpResponse)) (s s' : WState) : Prop := {
  q_outbox : db_outbox (ws_db s') = db_outbox (ws_db s);
  q_msgs : db_messages (ws_db s') = db_messages (ws_db s);
  q_times : forall i, claim_times i (ws_log s') = claim_times i (ws_log s);
  q_answers : forall i, last_answers i (ws_log s') = if i =? id then last_answers i (ws_log s) ++ os else last_answers i (ws_log s);
  q_tick : (ws_tick s <= ws_tick s')%nat
}.

Lemma quiet_refl id s : quiet id [] s s.
Proof. split; auto. intros i. case_match; [by rewrite app_nil_r|done]. Qed.

Lemma quiet_trans id os os' s1 s2 s3 : quiet id os s1 s2 -> quiet id os' s2 s3 -> quiet id (os ++ os') s1 s3.
Proof.
  intros [A1 A2 A3 A4 A5] [B1 B2 B3 B4 B5]. split; [congruence|congruence|by intros i; rewrite B3|intros i|lia].
  rewrite B4, A4. destruct (i =? id); [by rewrite app_assoc|done].
Qed.

Lemma post_all_spec id event payload targets last_error s :
  exists os, quiet id os s (post_all id event payload targets last_error s).2
    /\ length os = length targets
    /\ ((post_all id event payload targets last_error s).1 = None <-> last_error = None /\ forallb answer_ok os = true).
Proof.
  revert last_error s. induction targets as [|target targets IH]; intros last_error s; cbn [post_all].
  - exists []. split_and!; [apply quiet_refl|done|]. cbn. naive_solver.
  - set (req := target_request _ _ _ _). set (o := answer _ req). set (s1 := log_event _ _).
    assert (quiet id [o] s s1) as Hq.
    { unfold s1. split; cbn [log_event next_tick ws_log ws_db ws_tick]; [done|done| | |lia].
      - intros i. by rewrite claim_times_app, app_nil_r.
      - intros i. rewrite last_answers_app. cbn [fold_left answers_step]. by rewrite (Z.eqb_sym id i). }
    destruct (IH (if answer_ok o then last_error else Some (answer_error o)) s1) as (os & Hos & Hl & Hi).
    exists (o :: os). split_and!; [exact (quiet_trans _ [o] os _ _ _ Hq Hos)|cbn; by rewrite Hl|].
    rewrite Hi. cbn. destruct (answer_ok o); cbn; naive_solver.
Qed.

Lemma quiet_same id s s' : db_outbox (ws_db s') = db_outbox (ws_db s) -> db_messages (ws_db s') = db_messages (ws_db s) ->
  ws_log s' = ws_log s -> (ws_tick s <= ws_tick s')%nat -> quiet id [] s s'.
Proof. intros E1 E2 E3 Ht. split; [done|done|by rewrite E3|intros i; rewrite E3, app_nil_r; by case_match|done]. Qed.

Lemma load_instance_quiet id session s : quiet id [] s (load_instance_webhook session s).2.
Proof.
  unfold load_instance_webhook. destruct (ws_cache (next_tick s) !! session) as [[cached ts]|];
    [destruct (_ <? CACHE_TTL)|]; [|destruct (fails _)..]; apply quiet_same; cbn; try done; lia.
Qed.

Lemma job_targets_quiet id job s : quiet id [] s (job_targets job s).2.
Proof.
  unfold job_targets. destruct (wj_session job) as [sess|]; [|apply quiet_refl].
  unfold mbind'. pose proof (load_instance_quiet id sess s) as Hq.
  destruct (load_instance_webhook sess s) as [ [] ]; exact Hq.
Qed.

Lemma row_state_log i r l l' : claim_times i l' = claim_times i l -> last_answers i l' = last_answers i l -> row_state i r l -> row_state i r l'.
Proof. intros Et Ea [ ]; [eapply RS_new|eapply RS_pending|eapply RS_processing|eapply RS_sent|eapply RS_failed]; unfold all_confirmed; rewrite ?Et, ?Ea; eauto. Qed.

Lemma row_state_processing i r l l' : ob_status r = lit "processing" -> claim_times i l' = claim_times i l -> row_state i r l -> row_state i r l'.
Proof. intros Hp Et [H|n t H|n H|n H|H]; rewrite Hp in H; try done. eapply RS_processing; rewrite ?Et; eauto. Qed.

Section Runs.
Hypothesis clock_mono : forall a b, (a <= b)%nat -> clock a <= clock b.

Lemma inv_quiet id os s s' : outbox_inv s -> quiet id os s s' ->
  os = [] \/ (exists r, db_outbox (ws_db s) !! id = Some r /\ ob_status r = lit "processing") -> outbox_inv s'.
Proof.
  intros [I1 I2 I3 I4 I5] [Q1 Q2 Q3 Q4 Q5] Hos. split; rewrite ?Q1, ?Q2; try done.
  - intros i r Hr. specialize (I1 i r Hr). destruct (Z.eqb_spec i id) as [->|N].
    + destruct Hos as [->|(r' & Hr' & Hp)]; [|simplify_eq; by apply (row_state_processing _ _ (ws_log s))].
      apply (row_state_log _ _ (ws_log s)); [done| |done]. by rewrite Q4, Z.eqb_refl, app_nil_r.
    + apply (row_state_log _ _ (ws_log s)); [done| |done]. by rewrite Q4, (proj2 (Z.eqb_neq i id)).
  - intros i Hi. rewrite Q3. auto.
  - intros i. rewrite Q3. auto.
  - intros i t. rewrite Q3. intros Ht. specialize (I4 i t Ht). pose proof (clock_mono _ _ Q5). lia.
Qed.

Lemma in_hand_quiet id os s s' j : quiet id os s s' -> os = [] \/ wj_id j <> id -> in_hand s j -> in_hand s' j.
Proof.
  intros [Q1 Q2 Q3 Q4 Q5] Hn (r & H1 & H2 & H3 & H4). exists r. rewrite Q1, Q4, H4. split_and!; try done.
  destruct Hn as [->|N%Z.eqb_neq]; [by case_match|by rewrite N].
Qed.

(** A statement that changes the row of [id] and nothing else. *)
Definition changes_row (id : Uuid) (f : Time -> Db -> Db) (g : Time -> OutboxRow -> OutboxRow) : Prop :=
  forall now d, f now d = with_outbox (alter (g now) id) d.

Lemma inv_marked id f g s r : outbox_inv s -> changes_row id f g -> db_outbox (ws_db s) !! id = Some r ->
  row_state id (g (clock (ws_tick s)) r) (ws_log s) -> outbox_inv (ignore (execute_stmt f) s).2.
Proof.
  intros HI Hf Hr Hnew. unfold ignore, execute_stmt. cbn [ws_tick next_tick snd].
  assert (outbox_inv (next_tick s)) as HI' by (apply (inv_quiet 0 [] s); [done|apply quiet_same; cbn; done || lia|by left]).
  destruct (fails (ws_tick s)); [done|]. destruct HI' as [I1 I2 I3 I4 I5]. rewrite Hf. cbn in *. split; cbn; try done.
  - intros i r'. destruct (decide (i = id)) as [->|N].
    + rewrite lookup_alter_eq, Hr. cbn. intros E. apply (inj Some) in E as <-. done.
    + rewrite lookup_alter_ne by done. auto.
  - intros i. destruct (decide (i = id)) as [->|N]; [rewrite lookup_alter_eq, Hr; done|rewrite lookup_alter_ne by done; auto].
Qed.

Lemma in_hand_marked id f g s j : changes_row id f g -> wj_id j <> id -> in_hand s j -> in_hand (ignore (execute_stmt f) s).2 j.
Proof.
  intros Hf N (r & H1 & H2 & H3 & H4). unfold ignore, execute_stmt. cbn [ws_tick next_tick snd]. exists r.
  destruct (fails (ws_tick s)); cbn; [done|]. rewrite Hf. cbn. by rewrite lookup_alter_ne.
Qed.

Lemma rows_marked id f g s i : changes_row id f g -> i <> id ->
  db_outbox (ws_db (ignore (execute_stmt f) s).2) !! i = db_outbox (ws_db s) !! i.
Proof.
  intros Hf N. unfold ignore, execute_stmt. cbn [ws_tick next_tick snd]. destruct (fails (ws_tick s)); cbn; [done|].
  rewrite Hf. cbn. by rewrite lookup_alter_ne.
Qed.

Lemma mark_sent_changes id : changes_row id (fun _ => webhook_mark_sent id)
  (fun _ r => mkOutboxRow (ob_session r) (ob_event r) (ob_payload r) (lit "sent") (ob_attempts r) (ob_next_attempt_at r) None (ob_created_at r)).
Proof. done. Qed.

Definition retry_row (attempts : i32) (error : str) (now : Time) (r : OutboxRow) : OutboxRow :=
  mkOutboxRow (ob_session r) (ob_event r) (ob_payload r) (if 5 <=? attempts then lit "failed" else lit "pending") attempts
    (now + seconds (if 5 <=? attempts then 600 else backoff_seconds attempts)) (Some error) (ob_created_at r).
Lemma mark_retry_changes id attempts e : changes_row id (fun now => webhook_mark_retry id attempts e now) (retry_row attempts e).
Proof. intros now d. unfold webhook_mark_retry, retry_row. by destruct (5 <=? attempts). Qed.

Lemma processing_inv i r log : row_state i r log -> ob_status r = lit "processing" ->
  exists n, ob_attempts r = Z.of_nat n /\ (n <= 4)%nat /\ length (claim_times i log) = S n.
Proof. intros [H|n t H|n H|n H|H] E; rewrite E in H; try done. eauto. Qed.

Lemma sent_row_state i r log : row_state i r log -> ob_status r = lit "processing" -> all_confirmed i log = true ->
  row_state i (mkOutboxRow (ob_session r) (ob_event r) (ob_payload r) (lit "sent") (ob_attempts r) (ob_next_attempt_at r) None (ob_created_at r)) log.
Proof. intros Hs Hp Hc. destruct (processing_inv _ _ _ Hs Hp) as (n & H1 & H2 & H3). by eapply RS_sent. Qed.

Lemma retry_row_state i r e now log : row_state i r log -> ob_status r = lit "processing" -> all_confirmed i log = false ->
  (forall t, t ∈ claim_times i log -> t <= now) -> row_state i (retry_row (ob_attempts r + 1) e now r) log.
Proof.
  intros Hs Hp Hc Hnow. destruct (processing_inv _ _ _ Hs Hp) as (n & H1 & H2 & H3). unfold retry_row.
  destruct (Z.leb_spec 5 (ob_attempts r + 1)) as [L|L].
  - assert (n = 4)%nat as -> by lia. apply RS_failed; cbn; [done|lia|done|done].
  - destruct (last_is_Some (claim_times i log)) as [_ [t Ht] ]; [by destruct (claim_times i log)|].
    apply (RS_pending _ _ _ (S n) t); cbn; try done; try lia.
    rewrite H1. replace (Z.of_nat n + 1) with (Z.of_nat (S n)) by lia.
    assert (t <= now) by (apply Hnow; apply last_Some in Ht as [l ->]; set_solver). lia.
Qed.

Lemma process_job_spec job s : outbox_inv s -> in_hand s job ->
  let s' := (process_job job s).2 in
  outbox_inv s' /\ (forall j, wj_id j <> wj_id job -> in_hand s j -> in_hand s' j)
  /\ (forall i, i <> wj_id job -> db_outbox (ws_db s') !! i = db_outbox (ws_db s) !! i).
Proof.
  intros HI Hh s'. set (id := wj_id job). pose proof (job_targets_quiet id job s) as Hq.
  assert (exists o s1, job_targets job s = (o, s1)) as (o & s1 & E) by (destruct (job_targets job s); eauto).
  unfold s', process_job, mbind'. rewrite E in Hq |- *. cbn [snd] in Hq.
  assert (outbox_inv s1) as HI1 by (apply (inv_quiet id [] s); auto).
  assert (forall j, in_hand s j -> in_hand s1 j) as Hin1 by (intros j; apply (in_hand_quiet id []); auto).
  assert (forall i, db_outbox (ws_db s1) !! i = db_outbox (ws_db s) !! i) as Hr1 by (intros i; by rewrite (q_outbox _ _ _ _ Hq)).
  destruct (Hin1 _ Hh) as (r & H1 & H2 & H3 & H4). fold id in H1, H4.
  destruct o as [targets|e| |]; [|split_and!; auto..]. fold id. destruct targets as [|tg tgs].
  - split_and!.
    + eapply inv_marked; [done|apply mark_sent_changes|exact H1|]. apply sent_row_state; [by apply HI1|done|]. unfold all_confirmed. by rewrite H4.
    + intros j N Hj. eapply in_hand_marked; [apply mark_sent_changes|done|auto].
    + intros i N. rewrite <- Hr1. eapply rows_marked; [apply mark_sent_changes|done].
  - set (targets := tg :: tgs). destruct (post_all_spec id (wj_event job) (wj_payload job) targets None s1) as (os & Hq2 & _ & Hle).
    fold id. destruct (post_all id (wj_event job) (wj_payload job) targets None s1) as [last_error s2]. cbn [fst snd] in *.
    assert (outbox_inv s2) as HI2 by (apply (inv_quiet id os s1); eauto).
    assert (forall j, wj_id j <> id -> in_hand s j -> in_hand s2 j) as Hin2 by (intros j N Hj; apply (in_hand_quiet id os s1); auto).
    assert (forall i, db_outbox (ws_db s2) !! i = db_outbox (ws_db s) !! i) as Hr2 by (intros i; by rewrite (q_outbox _ _ _ _ Hq2)).
    assert (db_outbox (ws_db s2) !! id = Some r) as H1' by by rewrite Hr2, <- Hr1.
    assert (last_answers id (ws_log s2) = os) as Ha by by rewrite (q_answers _ _ _ _ Hq2), Z.eqb_refl, H4.
    destruct last_error as [e|].
    + assert (all_confirmed id (ws_log s2) = false) as Hc.
      { unfold all_confirmed. rewrite Ha. apply not_true_is_false. intros Ht. by apply (conj eq_refl), Hle in Ht. }
      split_and!.
      * eapply inv_marked; [done|apply mark_retry_changes|exact H1'|]. rewrite <- H3. apply retry_row_state; [by apply HI2|done|done|].
        intros t Ht. by apply (oi_past s2 HI2 id).
      * intros j N Hj. eapply in_hand_marked; [apply mark_retry_changes|done|auto].
      * intros i N. rewrite <- Hr2. eapply rows_marked; [apply mark_retry_changes|done].
    + assert (all_confirmed id (ws_log s2) = true) as Hc by (unfold all_confirmed; rewrite Ha; by apply Hle).
      split_and!.
      * eapply inv_marked; [done|apply mark_sent_changes|exact H1'|]. by apply sent_row_state; [apply HI2| |].
      * intros j N Hj. eapply in_hand_marked; [apply mark_sent_changes|done|auto].
      * intros i N. rewrite <- Hr2. eapply rows_marked; [apply mark_sent_changes|done].
Qed.

Lemma process_jobs_spec jobs s : NoDup (map wj_id jobs) -> outbox_inv s -> Forall (in_hand s) jobs ->
  let s' := (mfor process_job jobs s).2 in
  outbox_inv s' /\ forall i, i ∉ map wj_id jobs -> db_outbox (ws_db s') !! i = db_outbox (ws_db s) !! i.
Proof.
  revert s. induction jobs as [|job jobs IH]; intros s Hn HI Hh; [done|]. cbn [mfor map] in *. unfold mbind'.
  inversion_clear Hn as [|? ? N1 N2]. inversion_clear Hh as [|? ? Hh1 Hh2].
  destruct (process_job_spec job s HI Hh1) as (HI1 & Hin & Hr). destruct (process_job job s) as [o s1]. cbn [snd] in *.
  destruct o; [|split; [done|intros i Hi; apply Hr; set_solver]..].
  destruct (IH s1 N2 HI1) as [HI2 Hr2].
  { rewrite Forall_forall in Hh2 |- *. intros j Hj. apply Hin; [|auto]. intros E. apply N1. rewrite <- E. by apply (list_elem_of_fmap_2 wj_id). }
  split; [done|]. intros i Hi. rewrite Hr2 by set_solver. apply Hr. set_solver.
Qed.

Lemma claims_log_times i (ids : list Uuid) t : NoDup ids ->
  claim_times i (map (fun k => W_claim k t) ids) = if bool_decide (i ∈ ids) then [t] else [].
Proof.
  induction 1 as [|k ids Hk Hn IH]; [done|]. unfold claim_times in *. cbn. rewrite IH. clear IH Hn.
  destruct (Z.eqb_spec k i) as [->|N].
  - rewrite bool_decide_false, bool_decide_true by set_solver. done.
  - by assert (bool_decide (i ∈ k :: ids) = bool_decide (i ∈ ids)) as -> by (apply bool_decide_ext; set_solver).
Qed.

Lemma claims_log_answers i (ids : list Uuid) t acc :
  fold_left (answers_step i) (map (fun k => W_claim k t) ids) acc = if bool_decide (i ∈ ids) then [] else acc.
Proof.
  revert acc. induction ids as [|k ids IH]; intros acc; [done|]. cbn. rewrite IH. destruct (Z.eqb_spec k i) as [->|N].
  - rewrite (bool_decide_true (i ∈ i :: ids)) by set_solver. by case_match.
  - by assert (bool_decide (i ∈ k :: ids) = bool_decide (i ∈ ids)) as -> by (apply bool_decide_ext; set_solver).
Qed.

Lemma spaced_snoc l t : spaced l -> (forall t0, last l = Some t0 -> t0 + seconds (backoff_seconds (Z.of_nat (length l))) <= t) -> spaced (l ++ [t]).
Proof.
  intros Hs Hl k t1 t2 H1 H2. destruct (decide (S k < length l)%nat).
  - rewrite lookup_app_l in H1, H2 by lia. eauto.
  - assert (k < length l)%nat. { apply lookup_lt_Some in H2. rewrite length_app in H2. cbn in H2. lia. }
    assert (S k = length l) as El by lia. rewrite lookup_app_l in H1 by lia. rewrite lookup_app_r, El, Nat.sub_diag in H2 by lia.
    cbn in H2. apply (inj Some) in H2 as <-. rewrite El. apply Hl. rewrite last_lookup. rewrite <- El. done.
Qed.

(** A due row and what its claim makes of it. *)
Lemma due_row_state i r log t : row_state i r log -> spaced (claim_times i log) -> outbox_due t r = true ->
  exists n, ob_attempts r = Z.of_nat n /\ (n <= 4)%nat /\ length (claim_times i log) = n /\ spaced (claim_times i log ++ [t]).
Proof.
  unfold outbox_due. intros Hr Hs [Hp Hd]%andb_prop. apply bytes_eqb_eq in Hp. apply Z.leb_le in Hd.
  destruct Hr as [H1 H2 H3|n t0 H1 H2 H3 H4 H5 H6|n H|n H|H]; try (rewrite Hp in H; done).
  - exists 0%nat. rewrite H3. split_and!; [done|lia|done|]. by intros [|k] ? ? ?.
  - exists n. split_and!; [done|lia|done|]. apply spaced_snoc; [done|]. intros t1. rewrite H5. intros E. apply (inj Some) in E as <-. rewrite H4. lia.
Qed.

Lemma inv_attempts_ok s : outbox_inv s -> attempts_ok (ws_db s).
Proof.
  intros HI. split; [apply HI|]. intros i r Hr. apply (oi_rows s HI) in Hr. unfold is_i32. destruct Hr as [? E|? ? ? E|? ? E|? ? E|? E]; rewrite E; lia.
Qed.

Lemma webhook_claim_inv limit s : outbox_inv s ->
  match webhook_claim limit s with
  | (Ok jobs, s') => NoDup (map wj_id jobs) /\ outbox_inv s' /\ Forall (in_hand s') jobs
      /\ (forall i r, db_outbox (ws_db s) !! i = Some r -> ob_status r <> lit "pending" ->
             i ∉ map wj_id jobs /\ db_outbox (ws_db s') !! i = Some r)
      /\ (forall i, db_outbox (ws_db s) !! i = None -> db_outbox (ws_db s') !! i = None)
  | (_, s') => outbox_inv s' /\ db_outbox (ws_db s') = db_outbox (ws_db s)
  end.
Proof.
  intros HI. unfold webhook_claim. set (now := clock (ws_tick s)). cbn [ws_db next_tick].
  assert (outbox_inv (next_tick s)) as HI' by (apply (inv_quiet 0 [] s); [done|apply quiet_same; cbn; done || lia|by left]).
  destruct (fails (ws_tick s)); [done|]. destruct (webhook_claim_batch _ _ _ _ _) as [[jobs d']|] eqn:E; [|done].
  apply webhook_claim_spec in E as (Hn & _ & Hids & Hjobs & ->); [|by apply inv_attempts_ok].
  set (chosen := choose _ _) in *. clearbody chosen. rewrite Hids. subst chosen. set (ids := map wj_id jobs) in *.
  set (set_p := ob_set_status (lit "processing")).
  assert (forall i, update_all set_p ids (db_outbox (ws_db s)) !! i
                    = if bool_decide (i ∈ ids) then set_p <$> db_outbox (ws_db s) !! i else db_outbox (ws_db s) !! i) as Hup
    by (intros i; by apply update_all_lookup).
  assert (forall i, i ∈ ids -> exists r, db_outbox (ws_db s) !! i = Some r /\ outbox_due now r = true) as Hdue.
  { intros i Hi. apply list_elem_of_fmap in Hi as (j & -> & Hj). destruct (Hjobs j Hj) as (r & H1 & H2 & _). eauto. }
  assert (map (fun j => W_claim (wj_id j) now) jobs = map (fun k => W_claim k now) ids) as -> by (unfold ids; by rewrite map_map).
  destruct HI as [I1 I2 I3 I4 I5]. split_and!; [done| | | |].
  - split; cbn; [| | | |done].
    + intros i r. rewrite Hup. case_bool_decide as Hi.
      * destruct (Hdue i Hi) as (r0 & H0 & Hd). rewrite H0. cbn. intros Er. apply (inj Some) in Er as <-.
        destruct (due_row_state i r0 (ws_log s) now (I1 i r0 H0) (I3 i) Hd) as (n & A1 & A2 & A3 & _).
        apply (RS_processing _ _ _ n); cbn; [done|done|done|]. rewrite claim_times_app, claims_log_times, bool_decide_true by done.
        rewrite length_app. cbn. lia.
      * intros Hr. apply (row_state_log _ _ (ws_log s)); [| |auto].
        -- by rewrite claim_times_app, claims_log_times, bool_decide_false, app_nil_r.
        -- by rewrite last_answers_app, claims_log_answers, bool_decide_false.
    + intros i. rewrite Hup. case_bool_decide as Hi; [destruct (Hdue i Hi) as (r0 & -> & _); done|].
      intros Hr. rewrite claim_times_app, claims_log_times, bool_decide_false, app_nil_r by done. auto.
    + intros i. rewrite claim_times_app, claims_log_times by done. case_bool_decide as Hi; [|by rewrite app_nil_r].
      destruct (Hdue i Hi) as (r0 & H0 & Hd). by destruct (due_row_state i r0 (ws_log s) now (I1 i r0 H0) (I3 i) Hd) as (n & _ & _ & _ & ?).
    + intros i t. rewrite claim_times_app, claims_log_times, elem_of_app by done. pose proof (clock_mono (ws_tick s) (S (ws_tick s)) ltac:(lia)).
      intros [Ht|Ht]; [specialize (I4 i t Ht); lia|]. case_bool_decide; [|set_solver]. apply list_elem_of_singleton in Ht as ->. unfold now. lia.
  - apply Forall_forall. intros j Hj. destruct (Hjobs j Hj) as (r & H1 & H2 & H3).
    assert (wj_id j ∈ ids) as Hi by (by apply (list_elem_of_fmap_2 wj_id)). exists (set_p r). cbn.
    rewrite Hup, bool_decide_true, H1 by done. split_and!; [done|done| |by rewrite last_answers_app, claims_log_answers, bool_decide_true].
    rewrite H3. done.
  - intros i r Hr Hs. assert (i ∉ ids) as Hi.
    { intros Hi. destruct (Hdue i Hi) as (r0 & H0 & Hd). simplify_eq. unfold outbox_due in Hd. apply andb_prop in Hd as [Hd _]. by apply bytes_eqb_eq in Hd. }
    split; [done|]. cbn. by rewrite Hup, bool_decide_false.
  - intros i Hr. cbn. rewrite Hup, Hr. by case_match.
Qed.

(** A round keeps the invariant and every row that is not waiting. *)
Lemma process_outbox_inv s : outbox_inv s ->
  let s' := (process_outbox s).2 in
  outbox_inv s' /\ (forall i r, db_outbox (ws_db s) !! i = Some r -> ob_status r <> lit "pending" -> db_outbox (ws_db s') !! i = Some r).
Proof.
  intros HI. unfold process_outbox, mbind'. pose proof (webhook_claim_inv 25 s HI) as Hc.
  destruct (webhook_claim 25 s) as [o s1]. destruct o as [jobs|e| |]; cbn [snd];
    [|destruct Hc as [H1 H2]; split; [done|]; intros i r Hr _; by rewrite H2..].
  destruct Hc as (Hn & HI1 & Hh & Hkeep & _). destruct (process_jobs_spec jobs s1 Hn HI1 Hh) as [HI2 Hr].
  split; [done|]. intros i r Hi Hs. destruct (Hkeep i r Hi Hs) as [Hni H1]. by rewrite Hr.
Qed.

Lemma enqueue_cases id session event data now d :
  enqueue id session event data now d = d \/
  db_outbox d !! id = None
  /\ enqueue id session event data now d
     = with_outbox (insert id (mkOutboxRow session event (event_payload session event data) (lit "pending") 0 now None now)) d.
Proof.
  unfold enqueue, insert_event. case_bool_decide as Hid; [by left|]. destruct (negb _); [by left|]. right. split; [|done].
  destruct (db_outbox d !! id) eqn:E; [|done]. destruct Hid. eauto.
Qed.

Lemma wexec_inv l s : outbox_inv s -> outbox_inv (wexec l s)
  /\ (forall i r, db_outbox (ws_db s) !! i = Some r -> ob_status r <> lit "pending" -> db_outbox (ws_db (wexec l s)) !! i = Some r).
Proof.
  intros HI. destruct l as [|id session event data|session row|event enabled]; cbn [wexec].
  - by apply process_outbox_inv.
  - assert (outbox_inv (next_tick s)) as HI' by (apply (inv_quiet 0 [] s); [done|apply quiet_same; cbn; done || lia|by left]).
    destruct (enqueue_cases id session event data (clock (ws_tick s)) (ws_db s)) as [->|[Hid ->] ]; [by destruct s|].
    destruct HI' as [I1 I2 I3 I4 I5]. cbn in *. split.
    + split; cbn; try done.
      * intros i r. destruct (decide (i = id)) as [->|N]; [|rewrite lookup_insert_ne by done; auto].
        rewrite lookup_insert_eq. intros E. apply (inj Some) in E as <-. apply RS_new; [done|done|auto].
      * intros i. destruct (decide (i = id)) as [->|N]; [by rewrite lookup_insert_eq|rewrite lookup_insert_ne by done; auto].
    + intros i r Hi _. rewrite lookup_insert_ne; [done|]. intros ->. by rewrite Hid in Hi.
  - destruct HI as [I1 I2 I3 I4 I5]. split; [|done]. by split.
  - destruct HI as [I1 I2 I3 I4 I5]. split; [|done]. by split.
Qed.

Lemma wexecs_inv ls s : outbox_inv s -> outbox_inv (wexecs ls s)
  /\ (forall i r, db_outbox (ws_db s) !! i = Some r -> ob_status r <> lit "pending" -> db_outbox (ws_db (wexecs ls s)) !! i = Some r).
Proof.
  revert s. induction ls as [|l ls IH]; intros s HI; [by split|]. cbn [wexecs fold_left].
  destruct (wexec_inv l s HI) as [HI1 Hk1]. destruct (IH _ HI1) as [HI2 Hk2]. split; [done|]. eauto.
Qed.

Lemma empty_inv s : db_outbox (ws_db s) = ∅ -> db_messages (ws_db s) = ∅ -> ws_log s = [] -> outbox_inv s.
Proof.
  intros E1 E2 E3. split; rewrite ?E1, ?E2, ?E3.
  - intros i r. by rewrite lookup_empty.
  - done.
  - by intros i k t t'.
  - intros i t Ht. by apply not_elem_of_nil in Ht.
  - apply map_Forall_empty.
Qed.

(** C24: In every run of the worker among the other tasks, with any failures, an
    event is attempted at most five times and never sooner than 5, 30, 120 and
    600 seconds after the attempt before; it counts as sent only when every
    receiver confirmed the last attempt, and as failed only after five attempts
    of which the last was not confirmed by all. *)
Theorem webhook_attempts ls s : db_outbox (ws_db s) = ∅ -> db_messages (ws_db s) = ∅ -> ws_log s = [] ->
  let s' := wexecs ls s in
  forall i, (length (claim_times i (ws_log s')) <= 5)%nat /\ spaced (claim_times i (ws_log s'))
    /\ (forall r, db_outbox (ws_db s') !! i = Some r ->
          (ob_status r = lit "sent" -> all_confirmed i (ws_log s') = true)
          /\ (ob_status r = lit "failed" -> length (claim_times i (ws_log s')) = 5%nat /\ all_confirmed i (ws_log s') = false)).
Proof.
  intros E1 E2 E3 s' i. destruct (wexecs_inv ls s (empty_inv s E1 E2 E3)) as [HI _]. fold s' in HI. split_and!.
  - destruct (db_outbox (ws_db s') !! i) as [r|] eqn:Hr; [|rewrite (oi_none s' HI i Hr); cbn; lia].
    destruct (oi_rows s' HI i r Hr) as [? ? ->|? ? ? ? ? ->|? ? ? ? ->|? ? ? ? ->|? ? ->]; cbn; lia.
  - apply (oi_spaced s' HI).
  - intros r Hr. destruct (oi_rows s' HI i r Hr) as [H|n t H|n H|n H ? ? ? Hc|H ? ? Hc]; rewrite H; split; intros Es; done.
Qed.

(** Once an event is no longer waiting it stays as it is: sent and failed are
    final, and so is an event left in processing at the end of a round. *)
Theorem settled_final ls s i r : outbox_inv s -> db_outbox (ws_db s) !! i = Some r -> ob_status r <> lit "pending" ->
  db_outbox (ws_db (wexecs ls s)) !! i = Some r.
Proof. intros HI. by apply wexecs_inv. Qed.

(** ** Delivery *)

Section Delivery.
Hypothesis no_failure : forall n, fails n = false.
Hypothesis confirmed : forall n req, answer_ok (answer n req) = true.

Lemma job_targets_ok job s : exists targets, (job_targets job s).1 = Ok targets.
Proof.
  unfold job_targets, mbind'. destruct (wj_session job) as [sess|]; [|cbn; eauto].
  unfold load_instance_webhook. destruct (ws_cache (next_tick s) !! sess) as [[cached ts]|]; [destruct (_ <? CACHE_TTL)|];
    rewrite ?no_failure; cbn; eauto.
Qed.

Definition row_sent (i : Uuid) (s : WState) : Prop := exists r, db_outbox (ws_db s) !! i = Some r /\ ob_status r = lit "sent".

Lemma mark_sent_sends id s : is_Some (db_outbox (ws_db s) !! id) -> row_sent id (ignore (execute_stmt (fun _ => webhook_mark_sent id)) s).2.
Proof.
  intros [r Hr]. unfold ignore, execute_stmt. cbn [ws_tick next_tick snd]. rewrite no_failure. unfold row_sent. cbn.
  rewrite lookup_alter_eq, Hr. cbn. eauto.
Qed.

Lemma process_job_sends job s : in_hand s job -> (process_job job s).1 = Ok tt /\ row_sent (wj_id job) (process_job job s).2.
Proof.
  intros (r & H1 & _). set (id := wj_id job) in *. pose proof (job_targets_quiet id job s) as Hq. destruct (job_targets_ok job s) as [targets Ht].
  unfold process_job, mbind'. destruct (job_targets job s) as [o s1]. cbn in Ht, Hq. subst o. fold id.
  assert (is_Some (db_outbox (ws_db s1) !! id)) as Hs1 by (rewrite (q_outbox _ _ _ _ Hq); eauto).
  destruct targets as [|tg tgs]; [split; [done|by apply mark_sent_sends]|].
  destruct (post_all_spec id (wj_event job) (wj_payload job) (tg :: tgs) None s1) as (os & Hq2 & _ & Hle).
  assert (forall tgs e s, e = None -> (post_all id (wj_event job) (wj_payload job) tgs e s).1 = None) as Hnone.
  { clear -confirmed. induction tgs as [|t tgs IH]; intros e s He; cbn [post_all]; [done|]. rewrite confirmed. auto. }
  specialize (Hnone (tg :: tgs) None s1 eq_refl).
  destruct (post_all id (wj_event job) (wj_payload job) (tg :: tgs) None s1) as [e s2]. cbn [fst snd] in *. subst e.
  split; [done|]. apply mark_sent_sends. by rewrite (q_outbox _ _ _ _ Hq2).
Qed.

Lemma process_jobs_send jobs s : NoDup (map wj_id jobs) -> outbox_inv s -> Forall (in_hand s) jobs ->
  forall j, j ∈ jobs -> row_sent (wj_id j) (mfor process_job jobs s).2.
Proof.
  revert s. induction jobs as [|job jobs IH]; intros s Hn HI Hh j Hj; [by apply not_elem_of_nil in Hj|]. cbn [mfor]. unfold mbind'.
  inversion_clear Hn as [|? ? N1 N2]. inversion_clear Hh as [|? ? Hh1 Hh2].
  destruct (process_job_spec job s HI Hh1) as (HI1 & Hin & _). destruct (process_job_sends job s Hh1) as [Ho Hsent].
  destruct (process_job job s) as [o s1]. cbn [fst snd] in *. subst o.
  assert (Forall (in_hand s1) jobs) as Hh3.
  { rewrite Forall_forall in Hh2 |- *. intros j' Hj'. apply Hin; [|auto]. intros E. apply N1. rewrite <- E. by apply (list_elem_of_fmap_2 wj_id). }
  apply elem_of_cons in Hj as [->|Hj]; [|by apply IH].
  destruct (process_jobs_spec jobs s1 N2 HI1 Hh3) as [_ Hr]. unfold row_sent. by rewrite Hr.
Qed.

(** While nothing fails and the receivers confirm, one round sends every event
    that is due, up to twenty-five. *)
Theorem round_delivers s i r : outbox_inv s ->
  (forall t c, valid_choice ob_created_at 25 c (choose t c) = true) -> (forall t, locked t = []) ->
  (size (candidates (outbox_due (clock (ws_tick s))) [] (db_outbox (ws_db s))) <= 25)%nat ->
  db_outbox (ws_db s) !! i = Some r -> outbox_due (clock (ws_tick s)) r = true -> row_sent i (process_outbox s).2.
Proof.
  intros HI Hch Hlk Hsz Hr Hd. pose proof (webhook_claim_inv 25 s HI) as Hc. unfold process_outbox, mbind'.
  destruct (webhook_claim 25 s) as [o s1] eqn:E. unfold webhook_claim in E. rewrite no_failure, Hlk in E. cbn [ws_db next_tick] in E.
  set (cands := candidates _ _ _) in *. destruct (webhook_claim_batch _ _ _ _ _) as [[jobs d']|] eqn:Eb; [|].
  - injection E as <- <-. destruct Hc as (Hn & HI1 & Hh & _).
    apply webhook_claim_spec in Eb as (_ & _ & Hids & _); [|by apply inv_attempts_ok].
    pose proof (proj1 (valid_choice_spec _ _ _ _) (Hch (ws_tick s) cands)) as (Hnd & Hin & Hlen & _).
    assert (i ∈ map wj_id jobs) as Hi.
    { rewrite Hids. assert ((list_to_set (choose (ws_tick s) cands) : gset Z) = dom cands) as Heq.
      { apply set_eq, set_subseteq_size_equiv.
        - intros k Hk. apply elem_of_list_to_set in Hk. apply elem_of_dom. auto.
        - rewrite size_list_to_set, size_dom by done. lia. }
      apply (elem_of_list_to_set (C := gset Z)). rewrite Heq. apply elem_of_dom. exists r.
      apply candidates_lookup. split_and!; [done|done|apply not_elem_of_nil]. }
    apply list_elem_of_fmap in Hi as (j & -> & Hj). by apply process_jobs_send.
  - exfalso. unfold webhook_claim_batch in Eb. fold cands in Eb. by rewrite Hch in Eb.
Qed.
End Delivery.
End Runs.
End Worker.

(** ** Payloads *)

Definition get_path (ks : list string) (v : Value) : option Value := fold_left (fun o k => o ≫= v_get k) ks (Some v).

Lemma lit_eqb k k' : (lit k =s lit k') = String.eqb k k'.
Proof.
  destruct (bytes_eqb_spec (lit k) (lit k')) as [E%(inj lit)|N]; [subst; by rewrite String.eqb_refl|].
  symmetry. apply String.eqb_neq. congruence.
Qed.

Lemma v_get_object k o : v_get k (V_Object o) = obj_get (lit k) o.
Proof. done. Qed.

Lemma enrich_get date_time server_url payload destination b k :
  v_get k (enrich_payload date_time server_url payload destination b)
  = if String.eqb k "server_url" then Some (V_String server_url)
    else if String.eqb k "date_time" then Some (V_String date_time)
    else if String.eqb k "destination" then Some (V_String destination)
    else if String.eqb k "data" && negb b then strip_data <$> v_get k payload else v_get k payload.
Proof.
  unfold enrich_payload. rewrite v_get_object, !obj_get_insert, !lit_eqb.
  repeat (case_match; [done|]). assert (obj_get (lit k) (default [] (as_object payload)) = v_get k payload) as E by by destruct payload.
  destruct b; cbn [negb]; [by rewrite andb_false_r|]. rewrite andb_true_r, obj_get_modify, lit_eqb, E. done.
Qed.

Lemma strip_data_get k v : v_get k (strip_data v)
  = if String.eqb k "messages" then (fun v => match v with V_Array es => V_Array (map strip_entry es) | _ => v end) <$> v_get k v
    else if String.eqb k "message" then drop_base64 <$> v_get k v else v_get k v.
Proof.
  destruct v as [| | | | |data]; cbn [strip_data]; try (by repeat case_match).
  rewrite !v_get_object, !obj_get_modify, !lit_eqb. destruct (String.eqb_spec k "messages") as [->|]; [done|]. by case_match.
Qed.

Lemma drop_base64_get k v : v_get k (drop_base64 v) = if String.eqb k "base64" then None else v_get k v.
Proof. destruct v; cbn [drop_base64]; try (by case_match). by rewrite !v_get_object, obj_get_remove, lit_eqb. Qed.

Lemma strip_entry_get k v : v_get k (strip_entry v) = if String.eqb k "message" then drop_base64 <$> v_get k v else v_get k v.
Proof. destruct v; cbn [strip_entry]; try (by case_match). by rewrite !v_get_object, obj_get_modify, lit_eqb. Qed.

(** What a receiver that does not want files is sent has none, neither in the
    message nor in a list of messages, and is otherwise the payload of the event
    with the destination, the time and the address of the server. *)
Theorem payload_without_files date_time server_url payload destination :
  let v := enrich_payload date_time server_url payload destination false in
  get_path ["data"; "message"; "base64"]%string v = None
  /\ (forall es, get_path ["data"; "messages"]%string v = Some (V_Array es) ->
        Forall (fun e => get_path ["message"; "base64"]%string e = None) es)
  /\ (forall k, k <> "base64"%string -> get_path ["data"; "message"; k] v = get_path ["data"; "message"; k] payload)
  /\ (forall k, k <> "message"%string -> k <> "messages"%string -> get_path ["data"; k] v = get_path ["data"; k] payload)
  /\ (forall k, k ∉ ["data"; "destination"; "date_time"; "server_url"]%string -> v_get k v = v_get k payload)
  /\ v_get "destination" v = Some (V_String destination).
Proof.
  intros v. unfold get_path. cbn [fold_left]. unfold v. cbn [mbind option_bind].
  rewrite !enrich_get. cbn [String.eqb Ascii.eqb Bool.eqb andb negb]. split_and!.
  - destruct (v_get "data" payload) as [d|]; [|done]. cbn. rewrite strip_data_get. cbn.
    destruct (v_get "message" d) as [m|]; [|done]. cbn. by rewrite drop_base64_get.
  - destruct (v_get "data" payload) as [d|]; [|done]. cbn. rewrite strip_data_get. cbn.
    destruct (v_get "messages" d) as [ms|]; [|done]. cbn. intros es E. apply (inj Some) in E. destruct ms as [| | | |ms|]; try done.
    injection E as <-. apply Forall_map, Forall_forall. intros e _. rewrite strip_entry_get. cbn.
    destruct (v_get "message" e) as [m|]; [|done]. cbn. by rewrite drop_base64_get.
  - intros k Hk. destruct (v_get "data" payload) as [d|]; [|done]. cbn. rewrite strip_data_get. cbn.
    destruct (v_get "message" d) as [m|]; [|done]. cbn. rewrite drop_base64_get. by rewrite (proj2 (String.eqb_neq _ _) Hk).
  - intros k H1 H2. destruct (v_get "data" payload) as [d|]; [|done]. cbn. rewrite strip_data_get.
    by rewrite (proj2 (String.eqb_neq _ _) H1), (proj2 (String.eqb_neq _ _) H2).
  - intros k Hk. rewrite enrich_get. rewrite !(proj2 (String.eqb_neq _ _)) by set_solver. done.
  - done.
Qed.

(** ** Concrete runs *)

Definition only_char (s : str) : option Z := match s with [u] => Some u | _ => None end.
Definition toy_row_text : RowText :=
  Build_RowText (fun u => [u]) only_char (fun t => [t]) (fun t => [t]) only_char (fun _ => eq_refl) (fun _ => eq_refl) (fun _ => eq_refl).
#[local] Existing Instance toy_row_text.

Definition toy_choose (t : nat) (c : gmap Uuid OutboxRow) : list Uuid := map fst (take 25 (oldest_first ob_created_at c)).
Definition toy_clock (n : nat) : Time := seconds (Z.of_nat n * 1000).
Definition toy_session : SessionRow := mkSessionRow (lit "open") (Some (lit "http://r")) None false false (json_obj []) true None.
Definition toy_start : WState := mkWState (with_sessions (insert (lit "a") toy_session) db_empty) ∅ (mkSettings ∅ None) 0 [].
Definition toy_events : list WLabel := [Do_enqueue 1 (Some (lit "a")) (lit "E") V_Null; Do_enqueue 2 (Some (lit "a")) (lit "E") V_Null].
Definition refuse (n : nat) (req : HttpRequest) : outcome str HttpResponse := Ok (mkHttpResponse 500 []).
Definition confirm (n : nat) (req : HttpRequest) : outcome str HttpResponse := Ok (mkHttpResponse 204 []).
Definition toy_run (fails : nat -> bool) (answer : nat -> HttpRequest -> outcome str HttpResponse) (ls : list WLabel) : WState :=
  wexecs toy_clock fails (fun _ => []) toy_choose answer (fun _ => None) (fun s => s) (fun _ => []) ls toy_start.

Lemma toy_clock_mono a b : (a <= b)%nat -> toy_clock a <= toy_clock b.
Proof. unfold toy_clock, seconds. lia. Qed.

(** A receiver that never confirms: six rounds, five attempts. *)
Lemma webhook_attempts_witness :
  let s := toy_run (fun _ => false) refuse (toy_events ++ [Do_round; Do_round; Do_round; Do_round; Do_round; Do_round]) in
  length (claim_times 1 (ws_log s)) = 5%nat /\ spaced (claim_times 1 (ws_log s))
  /\ (ob_status <$> db_outbox (ws_db s) !! 1) = Some (lit "failed").
Proof.
  split; [vm_compute; reflexivity|]. split; [|vm_compute; reflexivity].
  apply (webhook_attempts toy_clock (fun _ => false) (fun _ => []) toy_choose refuse (fun _ => None) (fun s => s) (fun _ => [])
           toy_clock_mono _ toy_start); reflexivity.
Defined.

Lemma toy_inv fails answer ls : outbox_inv toy_clock (toy_run fails answer ls).
Proof. apply wexecs_inv; [apply toy_clock_mono|]. by apply empty_inv. Qed.

(** The query for the configuration of the first event fails: both are left in
    processing. *)
Definition query_fails (n : nat) : bool := (n =? 4)%nat.

Lemma settled_final_witness :
  let s := toy_run query_fails confirm (toy_events ++ [Do_round]) in
  exists r, db_outbox (ws_db s) !! 2 = Some r /\ ob_status r = lit "processing"
    /\ db_outbox (ws_db (toy_run query_fails confirm (toy_events ++ [Do_round] ++ [Do_round; Do_round]))) !! 2 = Some r.
Proof.
  eexists. split; [vm_compute; reflexivity|]. split; [reflexivity|]. unfold toy_run, wexecs. rewrite app_assoc, fold_left_app.
  apply (settled_final toy_clock query_fails (fun _ => []) toy_choose confirm (fun _ => None) (fun s => s) (fun _ => []) toy_clock_mono [Do_round; Do_round]);
    [apply (toy_inv query_fails confirm)|vm_compute; reflexivity|vm_compute; discriminate].
Defined.

Lemma toy_choose_valid t c : valid_choice ob_created_at 25 c (toy_choose t c) = true.
Proof. apply oldest_first_valid. Qed.

Lemma round_delivers_witness :
  row_sent 2 (process_outbox toy_clock (fun _ => false) (fun _ => []) toy_choose confirm (fun _ => None) (fun s => s) (fun _ => [])
                (toy_run (fun _ => false) confirm toy_events)).2.
Proof.
  eapply round_delivers;
    [apply toy_clock_mono|done|done|apply (toy_inv (fun _ => false) confirm toy_events)|apply toy_choose_valid|done
    |vm_compute; lia|vm_compute; reflexivity|vm_compute; reflexivity].
Defined.
