(* ===== verification/ChatApi.v ===== *)
(** * The REST handlers for messages and sessions

    [src/server/routes/{helpers,sessions}.rs],
    [src/server/routes/chat/{chat_manager,messaging}.rs]: a handler reads the
    JSON body, runs statements on the tables of [Queue] and enqueues events of
    [Webhooks].  Identifiers and times the data base makes are arguments; so is
    the verdict of every statement, apart from the constraints of the tables.

    The theorems: a posted message is queued with the body it was posted with,
    and what the worker then builds from it is what was posted, replies and
    captions included; the configuration of a session is the one its worker
    uses; marking a chat read or a message seen takes queued messages out of
    the queue; a session that ever had an event cannot be deleted. *)

From stdpp Require Import gmap sorting.
From S2P Require Import Prelude RustStd Jid Node Attrs Crypto Requests Pairing KeyServer Media Json Queue MessageBuild Webhooks.

(** ** State and answers *)

Record SessionRuntime := mkSessionRuntime { rt_connection_state : str; rt_qr_code : option str; rt_pair_code : option str; rt_last_seen : option Time }.
Definition runtime_new : SessionRuntime := mkSessionRuntime (lit "disconnected") None None None.

(** [as_notify]: the notifications in the channel of the worker. *)
Record AppState := mkAppState { as_db : Db; as_runtime : gmap str SessionRuntime; as_notify : nat }.

Definition on_db (f : Db -> Db) (s : AppState) : AppState := mkAppState (f (as_db s)) (as_runtime s) (as_notify s).
Definition on_runtime f (s : AppState) : AppState := mkAppState (as_db s) (f (as_runtime s)) (as_notify s).

Record Response := mkResponse { rs_status : Z; rs_body : Value }.
Definition error_response (code : Z) (e : string) : Response := mkResponse code (json_obj [("error", V_String (lit e))]%string).

(** The identifiers and the time of the events a handler enqueues. *)
Record Draw := mkDraw { dr_id : Uuid; dr_event1 : Uuid; dr_event2 : Uuid; dr_now : Time }.

(** ** [helpers.rs] *)

Definition session_from_body (body : Value) : str :=
  default (lit "default") (opt_filter (fun s => negb (str_is_empty s)) (get_str "session" body)).

Definition chat_id_from_body (body : Value) : option str :=
  or_else (v_get_or "chatId" "chat_id" body) (v_get "to" body) ≫= as_str.

Section Api.
Context `{HT : !RowText}.
(** [str::to_lowercase], the text of a data base error *)
Context (lower : str -> str) (db_error : str).

Definition db_error_response : Response :=
  mkResponse 500 (json_obj [("error", V_String (lit "db_error")); ("details", V_String db_error)]%string).

(** ** [chat_manager.rs] *)

(** [INSERT INTO api_messages ... RETURNING] *)
Definition insert_message (fails : bool) (id : Uuid) (now : Time) (session : str) (chat_id : option str) (message_type : str) (payload : Value)
    (status : str) (d : Db) : option (Value * Db) :=
  if fails || bool_decide (is_Some (db_messages d !! id)) || negb (session_exists session d) then None
  else Some (json_obj [("id", V_String (uuid_str id)); ("session", V_String session); ("chat_id", opt_string chat_id);
                       ("message_type", V_String message_type); ("status", V_String status); ("created_at", V_String (pg_time now))]%string,
             with_messages (insert id (mkMessageRow session chat_id message_type payload status now 0)) d).

Definition send_message_type (fails : bool) (dr : Draw) (body : Value) (message_type : str) (send_event : bool) (s : AppState) : Response * AppState :=
  let session := session_from_body body in
  let chat_id := chat_id_from_body body in
  match insert_message fails (dr_id dr) (dr_now dr) session chat_id message_type body (lit "queued") (as_db s) with
  | Some (message, d) =>
      let notify := if (as_notify s <? 1024)%nat then S (as_notify s) else as_notify s in
      let d := enqueue (dr_event1 dr) (Some session) (lit "MESSAGES_QUEUE") (json_obj [("message", message)]%string) (dr_now dr) d in
      let d := if send_event then enqueue (dr_event2 dr) (Some session) (lit "SEND_MESSAGE") (json_obj [("message", message)]%string) (dr_now dr) d else d in
      (mkResponse 200 message, mkAppState d (as_runtime s) notify)
  | None => (db_error_response, s)
  end.

(** The reply a body names is written into its [quoted] object.  The branch of
    a missing [quoted_message_id] is never taken: the reply is one. *)
Definition normalise_reply (body : Value) : Value :=
  match non_blank (get_str "reply" body), body with
  | Some message_id, V_Object updated =>
      let quoted := default [] (v_get "quoted" body ≫= as_object) in
      let quoted := obj_insert (lit "messageId") (V_String message_id) quoted in
      let has_chat_id := bool_decide (is_Some (v_get_or "chatId" "chat_id" (V_Object quoted) ≫= as_str)) in
      let quoted := if has_chat_id then quoted
                    else match get_str "chatId" body with Some chat_id => obj_insert (lit "chatId") (V_String chat_id) quoted | None => quoted end in
      let updated := obj_insert (lit "reply") (V_Bool true) updated in
      V_Object (obj_insert (lit "quoted") (V_Object quoted) updated)
  | _, _ => body
  end.

Definition inferred_media_type (mime : str) : str :=
  if mime =s lit "image/webp" then lit "sticker"
  else if starts_with (lit "image/") mime then lit "image"
  else if starts_with (lit "video/") mime then lit "video"
  else if starts_with (lit "audio/") mime then lit "voice"
  else lit "file".

(** The type of the message, and whether it can have a caption. *)
Definition media_route (media_type : str) : option (str * bool) :=
  if media_type =s lit "image" then Some (lit "image", true)
  else if media_type =s lit "video" then Some (lit "video", true)
  else if (media_type =s lit "voice") || (media_type =s lit "audio") then Some (lit "voice", false)
  else if (media_type =s lit "file") || (media_type =s lit "document") then Some (lit "file", true)
  else if media_type =s lit "sticker" then Some (lit "sticker", false)
  else None.

Definition body_media_type (body : Value) : str :=
  default (lit "image")
    (or_else ((fun s => lower (trim s)) <$> (v_get_or "mediaType" "media_type" body ≫= as_str))
       ((fun s => inferred_media_type (lower (trim s))) <$> get_str "mimetype" body)).

(** What a body is queued as: its type and the payload, or the error. *)
Definition route_message (body : Value) : string + (str * Value) :=
  let body := normalise_reply body in
  let has_media := bool_decide (is_Some (v_get "base64" body)) || bool_decide (is_Some (v_get "url" body)) in
  let text_value := non_blank (get_str "text" body) in
  if has_media then
    match media_route (body_media_type body) with
    | None => inl "invalid_media_type"%string
    | Some (message_type, caption_allowed) =>
        let has_caption := bool_decide (is_Some (non_blank (get_str "caption" body))) in
        match text_value, body with
        | Some text, V_Object updated =>
            if caption_allowed && negb has_caption
            then inr (message_type, V_Object (obj_insert (lit "caption") (V_String text) updated))
            else inr (message_type, body)
        | _, _ => inr (message_type, body)
        end
    end
  else match text_value with
       | Some _ => inr (lit "text", body)
       | None => inl "text_or_media_required"%string
       end.

Definition send_message (fails : bool) (dr : Draw) (body : Value) (s : AppState) : Response * AppState :=
  match route_message body with
  | inl e => (error_response 400 e, s)
  | inr (message_type, body) => send_message_type fails dr body message_type true s
  end.

(** The other posts: their type, and whether [SEND_MESSAGE] is announced. *)
Definition other_posts : list (string * bool) :=
  [("buttons", true); ("list", true); ("poll", true); ("poll_vote", true); ("link_custom_preview", true);
   ("contact_vcard", true); ("location", false); ("forward", false)]%string.
Definition send_other (fails : bool) (dr : Draw) (post : string * bool) (body : Value) : AppState -> Response * AppState :=
  send_message_type fails dr body (lit post.1) post.2.

Definition reply_message (fails : bool) (dr : Draw) (body : Value) (s : AppState) : Response * AppState :=
  match quoted_message_id body, body with
  | Some id, V_Object obj =>
      send_message_type fails dr (V_Object (obj_remove (lit "quoted") (obj_insert (lit "reply") (V_String id) obj))) (lit "text") false s
  | _, _ => send_message_type fails dr body (lit "text") false s
  end.

(** [message_id], a [Uuid] *)
Definition body_message_id (body : Value) : option Uuid := (v_get_or "message_id" "messageId" body ≫= as_str) ≫= parse_uuid.

Definition send_seen (fails : bool) (dr : Draw) (body : Value) (s : AppState) : Response * AppState :=
  let session := session_from_body body in
  match body_message_id body with
  | None => (error_response 400 "message_id_required", s)
  | Some message_id =>
      if fails then (db_error_response, s)
      else
        let s := on_db (with_messages (alter (msg_set_status (lit "seen")) message_id)) s in
        (mkResponse 200 (json_obj [("status", V_String (lit "seen")); ("id", V_String (uuid_str message_id))]%string),
         on_db (enqueue (dr_event1 dr) (Some session) (lit "MESSAGES_UPDATE") (json_obj [("id", V_String (uuid_str message_id))]%string) (dr_now dr)) s)
  end.

Definition set_typing (fails : bool) (dr : Draw) (body : Value) (presence : string) (s : AppState) : Response * AppState :=
  let session := session_from_body body in
  let chat_id := default (lit "self") (chat_id_from_body body) in
  if fails || negb (session_exists session (as_db s)) then (db_error_response, s)
  else
    let s := on_db (with_presence (insert (session, chat_id) (lit presence))) s in
    (mkResponse 200 (json_obj [("status", V_String (lit presence))]%string),
     on_db (enqueue (dr_event1 dr) (Some session) (lit "PRESENCE_UPDATE")
              (json_obj [("chat_id", V_String chat_id); ("presence", V_String (lit presence))]%string) (dr_now dr)) s).

(** [COALESCE(payload, '{}') || jsonb_build_object(field, value)]; concatenating
    to anything but an object makes an array *)
Definition jsonb_patch (field : str) (value payload : Value) : Value :=
  match payload with
  | V_Object o => V_Object (obj_insert field value o)
  | V_Array l => V_Array (l ++ [V_Object [(field, value)]])
  | v => V_Array [v; V_Object [(field, value)]]
  end.
Definition msg_set_payload (p : Value) (r : MessageRow) : MessageRow :=
  mkMessageRow (mr_session r) (mr_chat_id r) (mr_message_type r) p (mr_status r) (mr_created_at r) (mr_attempts r).

Definition update_message_payload (fails : bool) (dr : Draw) (body : Value) (field : string) (s : AppState) : Response * AppState :=
  let session := session_from_body body in
  match body_message_id body with
  | None => (error_response 400 "message_id_required", s)
  | Some message_id =>
      let patch_value := default (V_Bool true) (v_get field body) in
      if fails then (db_error_response, s)
      else
        let s := on_db (with_messages (alter (fun r => msg_set_payload (jsonb_patch (lit field) patch_value (mr_payload r)) r) message_id)) s in
        (mkResponse 200 (json_obj [("status", V_String (lit "updated")); ("id", V_String (uuid_str message_id))]%string),
         on_db (enqueue (dr_event1 dr) (Some session) (lit "MESSAGES_UPDATE")
                  (json_obj [("id", V_String (uuid_str message_id)); ("field", V_String (lit field))]%string) (dr_now dr)) s)
  end.

(** ** [messaging.rs] *)

Definition in_chat (session chat_id : str) (r : MessageRow) : bool := (mr_session r =s session) && bool_decide (mr_chat_id r = Some chat_id).

Definition read_messages (fails : bool) (dr : Draw) (session chat_id : str) (s : AppState) : Response * AppState :=
  if fails then (db_error_response, s)
  else
    let s := on_db (with_messages (fmap (fun r => if in_chat session chat_id r then msg_set_status (lit "read") r else r))) s in
    (mkResponse 200 (json_obj [("status", V_String (lit "read"))]%string),
     on_db (enqueue (dr_event1 dr) (Some session) (lit "MESSAGES_UPDATE") (json_obj [("chat_id", V_String chat_id)]%string) (dr_now dr)) s).

(** ** [sessions.rs] *)

(** The row of a posted configuration. *)
Definition session_row_of (body : Value) : SessionRow :=
  let webhook := default V_Null (v_get "webhook" body) in
  mkSessionRow (lit "open") (get_str "url" webhook) (v_get "events" webhook) (default false (get_bool "webhookByEvents" webhook))
    (default false (get_bool "webhookBase64" webhook)) (default (V_Object []) (v_get "headers" webhook))
    (default true (get_bool "enabled" webhook)) (get_str "phone_number" body).

(** [row]: what the last query reads, if it succeeds *)
Definition create_session (fails : bool) (dr : Draw) (row : option Value) (body : Value) (s : AppState) : Response * AppState :=
  let session := session_from_body body in
  if fails then (db_error_response, s)
  else
    let s := on_db (with_sessions (insert session (session_row_of body))) s in
    let s := on_runtime (fun m => match m !! session with Some _ => m | None => <[session := runtime_new]> m end) s in
    let s := on_db (enqueue (dr_event1 dr) (Some session) (lit "CONNECTION_UPDATE") (json_obj [("status", V_String (lit "open"))]%string) (dr_now dr)) s in
    (mkResponse 201 (default (json_obj [("session", V_String session)]%string) row), s).

Definition sess_set_status (st : str) (r : SessionRow) : SessionRow :=
  mkSessionRow st (sr_webhook_url r) (sr_webhook_events r) (sr_webhook_by_events r) (sr_webhook_base64 r) (sr_webhook_headers r)
    (sr_webhook_enabled r) (sr_phone_number r).
Definition set_connection_state (st : str) (r : SessionRuntime) : SessionRuntime :=
  mkSessionRuntime st (rt_qr_code r) (rt_pair_code r) (rt_last_seen r).

(** [start_session] and [stop_session] *)
Definition change_session (status event_status : string) (fails : bool) (dr : Draw) (session : str) (s : AppState) : Response * AppState :=
  if fails then (db_error_response, s)
  else
    let s := on_db (with_sessions (alter (sess_set_status (lit status)) session)) s in
    let s := on_runtime (alter (set_connection_state (lit status)) session) s in
    (mkResponse 200 (json_obj [("session", V_String session); ("status", V_String (lit status))]%string),
     on_db (enqueue (dr_event1 dr) (Some session) (lit "CONNECTION_UPDATE") (json_obj [("status", V_String (lit event_status))]%string) (dr_now dr)) s).
Definition start_session : bool -> Draw -> str -> AppState -> Response * AppState := change_session "started" "started".
Definition stop_session : bool -> Draw -> str -> AppState -> Response * AppState := change_session "stopped" "close".

(** A row of another table refers to the session. *)
Definition session_referenced (session : str) (d : Db) : bool :=
  bool_decide (~ map_Forall (fun _ r => ob_session r <> Some session) (db_outbox d))
  || bool_decide (~ map_Forall (fun _ r => mr_session r <> session) (db_messages d))
  || bool_decide (~ map_Forall (fun k _ => k.1 <> session) (db_presence d))
  || existsb (bytes_eqb session) (db_referenced d).

Definition delete_session (fails : bool) (dr : Draw) (session : str) (s : AppState) : Response * AppState :=
  if fails || session_referenced session (as_db s) then (db_error_response, s)
  else
    let s := on_db (with_sessions (delete session)) s in
    let s := on_runtime (delete session) s in
    (mkResponse 200 (json_obj [("session", V_String session); ("status", V_String (lit "deleted"))]%string),
     on_db (enqueue (dr_event1 dr) (Some session) (lit "CONNECTION_UPDATE") (json_obj [("status", V_String (lit "close"))]%string) (dr_now dr)) s).

(** ** Bodies *)

Lemma v_get_or_insert k k' k0 v o : String.eqb k k0 = false -> String.eqb k' k0 = false ->
  v_get_or k k' (V_Object (obj_insert (lit k0) v o)) = v_get_or k k' (V_Object o).
Proof. intros E1 E2. unfold v_get_or. by rewrite !v_get_object, !obj_get_insert, !lit_eqb, E1, E2. Qed.

Lemma v_get_insert k k0 v o : v_get k (V_Object (obj_insert (lit k0) v o)) = if String.eqb k k0 then Some v else v_get k (V_Object o).
Proof. by rewrite !v_get_object, obj_get_insert, lit_eqb. Qed.

Lemma v_get_remove k k0 o : v_get k (V_Object (obj_remove (lit k0) o)) = if String.eqb k k0 then None else v_get k (V_Object o).
Proof. by rewrite !v_get_object, obj_get_remove, lit_eqb. Qed.

(** The normalised body differs in [reply] and [quoted] only. *)
Lemma normalise_reply_get k body : k <> "reply"%string -> k <> "quoted"%string -> v_get k (normalise_reply body) = v_get k body.
Proof.
  intros H1 H2. unfold normalise_reply. destruct (non_blank _) as [r|]; [|done]. destruct body as [| | | | |o]; try done.
  by rewrite !v_get_insert, (proj2 (String.eqb_neq _ _) H1), (proj2 (String.eqb_neq _ _) H2).
Qed.

(** The reply the worker finds in a normalised body is the one of the body. *)
Lemma normalise_reply_context body : build_reply_context_info (normalise_reply body) = build_reply_context_info body.
Proof.
  unfold normalise_reply. destruct (non_blank (get_str "reply" body)) as [r|] eqn:Er; [|done].
  destruct body as [| | | | |o]; try done. set (body := V_Object o) in *.
  set (q0 := default [] (v_get "quoted" body ≫= as_object)). set (q1 := obj_insert (lit "messageId") (V_String r) q0).
  set (q := if bool_decide _ then q1 else _). set (body' := V_Object (obj_insert (lit "quoted") _ _)).
  assert (forall k, k <> "quoted"%string -> k <> "reply"%string -> v_get k body' = v_get k body) as Hg.
  { intros k H1 H2. unfold body'. by rewrite !v_get_insert, (proj2 (String.eqb_neq _ _) H1), (proj2 (String.eqb_neq _ _) H2). }
  assert (quoted_of body' = Some (V_Object q)) as Hq by (unfold quoted_of, body'; by rewrite v_get_insert).
  assert (get_str "reply" body' = None) as Hr by (unfold get_str, body'; by rewrite !v_get_insert).
  assert (forall k k', (quoted_of body ≫= v_get_or k k') ≫= as_str = v_get_or k k' (V_Object q0) ≫= as_str) as Hq0.
  { intros k k'. unfold quoted_of, q0. destruct (v_get "quoted" body ≫= as_object) as [x|]; done. }
  unfold build_reply_context_info. rewrite Er, Hr, Hq. unfold get_str. rewrite !Hg by done. cbn [non_blank fmap option_fmap option_map opt_filter or_else].
  assert (quoted_message_id body' = Some r) as ->.
  { unfold quoted_message_id. rewrite Hq. cbn [mbind option_bind]. unfold q. case_bool_decide; [|destruct (get_str "chatId" body)];
      unfold v_get_or; rewrite ?v_get_insert; unfold q1; by rewrite ?v_get_insert. }
  cbn [or_else]. rewrite !Hq0. cbn [mbind option_bind].
  assert (v_get_or "participant" "sender" (V_Object q) = v_get_or "participant" "sender" (V_Object q0)) as ->.
  { unfold q. case_bool_decide; [|destruct (get_str "chatId" body)]; rewrite ?v_get_or_insert by done; unfold q1; by rewrite v_get_or_insert. }
  assert (v_get_or "chatId" "chat_id" (V_Object q1) = v_get_or "chatId" "chat_id" (V_Object q0)) as Hc by (unfold q1; by rewrite v_get_or_insert).
  do 2 f_equal. unfold q. rewrite Hc. case_bool_decide as Hs.
  - by rewrite Hc.
  - assert (v_get_or "chatId" "chat_id" (V_Object q0) ≫= as_str = None) as -> by (by destruct (v_get_or _ _ (V_Object q0) ≫= as_str); [destruct Hs|]).
    unfold get_str. destruct (v_get "chatId" body ≫= as_str) as [c|] eqn:Ec.
    + unfold v_get_or. rewrite v_get_insert. done.
    + rewrite Hc. assert (v_get_or "chatId" "chat_id" (V_Object q0) ≫= as_str = None) as -> by (by destruct (v_get_or _ _ (V_Object q0) ≫= as_str); [destruct Hs|]). done.
Qed.

(** ** Posted messages *)

(** The caption a message of this type is to have. *)
Definition caption_allowed (message_type : str) : bool :=
  (message_type =s lit "image") || (message_type =s lit "video") || (message_type =s lit "file").
Definition wanted_caption (message_type : str) (body : Value) : option str :=
  if caption_allowed message_type && negb (bool_decide (is_Some (non_blank (get_str "caption" body))))
  then or_else (non_blank (get_str "text" body)) (get_str "caption" body) else get_str "caption" body.

Definition has_file (body : Value) : bool := bool_decide (is_Some (v_get "base64" body)) || bool_decide (is_Some (v_get "url" body)).

(** The payload a body is queued with says what the body says. *)
Record says_same (message_type : str) (payload body : Value) : Prop := {
  ss_get : forall k, k ∉ ["reply"; "quoted"; "caption"]%string -> v_get k payload = v_get k body;
  ss_reply : build_reply_context_info payload = build_reply_context_info body;
  ss_caption : get_str "caption" payload = wanted_caption message_type body
}.

Lemma media_route_allowed t ty c : media_route t = Some (ty, c) -> is_Some (file_kind ty) /\ caption_allowed ty = c.
Proof. unfold media_route. repeat case_match; try done; intros E; apply (inj Some) in E; injection E as <- <-; vm_compute; eauto. Qed.

Lemma file_kind_not_text ty : is_Some (file_kind ty) -> ty <> lit "text".
Proof. intros [k Hk] ->. done. Qed.

Lemma context_get payload payload' :
  (forall k, k ∉ ["text"; "caption"]%string -> v_get k payload' = v_get k payload) -> build_reply_context_info payload' = build_reply_context_info payload.
Proof. clear db_error. intros H. unfold build_reply_context_info, quoted_message_id, quoted_of, get_str. by rewrite !H by set_solver. Qed.

Lemma route_says_same body message_type payload : route_message body = inr (message_type, payload) ->
  says_same message_type payload body
  /\ (message_type = lit "text" /\ has_file body = false /\ is_Some (non_blank (get_str "text" body))
      \/ is_Some (file_kind message_type) /\ has_file body = true).
Proof.
  clear db_error. unfold route_message. set (b := normalise_reply body).
  assert (forall k, k ∉ ["reply"; "quoted"]%string -> v_get k b = v_get k body) as Hg by (intros k Hk; apply normalise_reply_get; set_solver).
  assert (build_reply_context_info b = build_reply_context_info body) as Hc by apply normalise_reply_context.
  unfold get_str. rewrite !Hg by set_solver. fold (get_str "text" body) (get_str "caption" body). fold (has_file body).
  destruct (has_file body) eqn:Hf.
  - destruct (media_route (body_media_type b)) as [[ty ca]|] eqn:Hm; [|done]. apply media_route_allowed in Hm as [Hk Hca].
    assert (forall p, (forall k, k <> "caption"%string -> v_get k p = v_get k b) -> get_str "caption" p = wanted_caption ty body ->
              inr (A := string) (ty, p) = inr (message_type, payload) ->
              says_same message_type payload body
              /\ (message_type = lit "text" /\ true = false /\ is_Some (non_blank (get_str "text" body)) \/ is_Some (file_kind message_type) /\ true = true)) as Hp.
    { intros p Hp Hcap E. injection E as <- <-. split; [|by right]. split; [|rewrite <- Hc; apply context_get; intros k Hkk; apply Hp; set_solver|done].
      intros k Hkk. rewrite Hp by set_solver. apply Hg. set_solver. }
    assert (get_str "caption" b = get_str "caption" body) as Hcap by (unfold get_str; by rewrite Hg by set_solver).
    destruct (non_blank (get_str "text" body)) as [text|] eqn:Ht.
    + assert (v_get "text" b <> None) as Htb by (rewrite Hg by set_solver; intros E; unfold get_str in Ht; by rewrite E in Ht).
      destruct b as [| | | | |o] eqn:Eb; try done.
      destruct (ca && _) eqn:Ec.
      * apply Hp; [intros k Hk'; by rewrite v_get_insert, (proj2 (String.eqb_neq _ _) Hk')|].
        unfold get_str. rewrite v_get_insert. unfold wanted_caption. by rewrite Hca, Ec, Ht.
      * apply Hp; [done|]. rewrite Hcap. unfold wanted_caption. by rewrite Hca, Ec.
    + apply Hp; [done|]. rewrite Hcap. unfold wanted_caption. rewrite Ht. by destruct (_ && _).
  - destruct (non_blank (get_str "text" body)) as [text|] eqn:Ht; [|done]. intros E. injection E as <- <-. split; [|left; eauto].
    split; [intros k Hk; apply Hg; set_solver|done|]. unfold get_str. rewrite Hg by set_solver. done.
Qed.

Lemma enqueue_messages id session event data now d : db_messages (enqueue id session event data now d) = db_messages d.
Proof. destruct (enqueue_cases id session event data now d) as [->|[_ ->] ]; done. Qed.

Lemma send_message_type_spec fails dr body ty ev s r s' : send_message_type fails dr body ty ev s = (r, s') ->
  (rs_status r = 200 /\ db_messages (as_db s') = <[dr_id dr := mkMessageRow (session_from_body body) (chat_id_from_body body) ty body (lit "queued") (dr_now dr) 0]> (db_messages (as_db s))
     /\ (0 < as_notify s')%nat)
  \/ (rs_status r = 500 /\ s' = s).
Proof.
  unfold send_message_type, insert_message. destruct (fails || _ || _); [intros E; injection E as <- <-; by right|]. intros E. injection E as <- <-. left.
  split; [done|]. cbn [as_db as_notify]. split; [destruct ev; by rewrite ?enqueue_messages|]. destruct (Nat.ltb_spec (as_notify s) 1024); lia.
Qed.

(** C20: A message that is accepted is queued, once and as it was posted: under its
    session and chat, as a text or as the kind of file that was named or
    inferred, with a payload whose text, file, reply and caption are those of
    the body; a message that is refused leaves nothing behind. *)
Theorem posted_message_queued fails dr body s r s' : send_message fails dr body s = (r, s') ->
  (rs_status r = 200 /\ exists message_type payload,
     db_messages (as_db s') = <[dr_id dr := mkMessageRow (session_from_body body) (chat_id_from_body body) message_type payload (lit "queued") (dr_now dr) 0]>
                                (db_messages (as_db s))
     /\ says_same message_type payload body
     /\ (message_type = lit "text" /\ has_file body = false /\ build_text_message payload = build_text_message body /\ build_text_message body <> None
         \/ is_Some (file_kind message_type) /\ has_file body = true))
  \/ (rs_status r = 500 /\ s' = s) \/ (rs_status r = 400 /\ s' = s).
Proof.
  unfold send_message. destruct (route_message body) as [e|[ty p]] eqn:E; [intros E'; injection E' as <- <-; by right; right|].
  apply route_says_same in E as [Hs Hk]. intros [(H1 & H2 & _)|H]%send_message_type_spec; [left|by right; left]. split; [done|].
  exists ty, p. split_and!; [|done|].
  - rewrite H2. unfold session_from_body, chat_id_from_body, v_get_or, get_str. by rewrite !(ss_get _ _ _ Hs) by set_solver.
  - destruct Hk as [(-> & Hf & t & Ht)|Hk]; [left|by right].
    assert (build_text_message p = build_text_message body) as Eb.
    { unfold build_text_message, get_str. by rewrite (ss_reply _ _ _ Hs), !(ss_get _ _ _ Hs) by set_solver. }
    split_and!; [done|done|done|]. unfold build_text_message. unfold non_blank in Ht. destruct (get_str "text" body) as [text|]; [|done].
    change (default [] (Some text)) with text. cbn [fmap option_fmap option_map opt_filter] in Ht. destruct (str_is_empty (trim text)); [done|].
    by destruct (build_reply_context_info body).
Qed.

(** The posts of [other_posts] are accepted like any other, but of their types
    the worker builds no message. *)
Lemma other_posts_unbuilt `{HK : !Hkdf, HS : !Hashes, HA : !AesCbc, HAB : !AesBlock, HB : !Base64} b64 send_iq show_iq execute raw now show_utf8 post media_key payload c :
  post ∈ other_posts -> build_message b64 send_iq show_iq execute raw now show_utf8 media_key (lit post.1) payload c = (Ok None, c).
Proof. intros Hp. unfold other_posts in Hp. repeat (apply elem_of_cons in Hp as [->|Hp]; [done|]). by apply not_elem_of_nil in Hp. Qed.

(** A reply posted to [reply_message] names the message, and nothing else of the
    quotation is kept. *)
Lemma reply_message_context fails dr body s q : quoted_message_id body = Some q -> trim q <> [] ->
  exists payload, reply_message fails dr body s = send_message_type fails dr payload (lit "text") false s
    /\ build_reply_context_info payload = Some (mkContextInfo (Some (trim q)) None (or_else (get_str "chatId" body) (get_str "chat_id" body)))
    /\ get_str "text" payload = get_str "text" body.
Proof.
  intros Hq Ht. unfold reply_message. rewrite Hq. destruct body as [| | | | |o]; try done. eexists. split; [done|].
  unfold build_reply_context_info, quoted_of, get_str. rewrite !v_get_remove, !v_get_insert. cbn [String.eqb Ascii.eqb Bool.eqb mbind option_bind as_str].
  unfold non_blank. cbn [fmap option_fmap option_map opt_filter]. by destruct (trim q).
Qed.

(** ** Messages that are marked *)

(** Marking a chat read takes every message of it out of the queue: whatever was
    waiting to be sent is read instead, and no session's worker will claim it. *)
Theorem read_unqueues dr session chat_id s r s' i m : read_messages false dr session chat_id s = (r, s') ->
  db_messages (as_db s) !! i = Some m -> in_chat session chat_id m = true ->
  exists m', db_messages (as_db s') !! i = Some m' /\ mr_status m' = lit "read" /\ forall sessions, message_queued sessions m' = false.
Proof.
  intros E Hm Hc. unfold read_messages in E. injection E as _ <-. exists (msg_set_status (lit "read") m). cbn.
  rewrite enqueue_messages. cbn. by rewrite lookup_fmap, Hm; cbn; rewrite Hc.
Qed.

(** ** Sessions *)

(** The configuration a body asks for. *)
Definition posted_config (body : Value) : option WebhookConfig :=
  let webhook := default V_Null (v_get "webhook" body) in
  match get_str "url" webhook with
  | None | Some [] => None
  | Some url =>
      Some (mkWebhookConfig (default true (get_bool "enabled" webhook)) url (default false (get_bool "webhookByEvents" webhook))
              (default false (get_bool "webhookBase64" webhook))
              (match v_get "headers" webhook with Some (V_Object h) => im_collect (omap (fun kv => (fun v => (kv.1, v)) <$> as_str kv.2) h) | _ => [] end)
              (match v_get "events" webhook with Some (V_Array es) => Some (omap as_str es) | _ => None end))
  end.

(** The configuration the webhook worker reads for a session is the one the
    session was created with. *)
Theorem session_config_roundtrip fails dr row body s r s' : create_session fails dr row body s = (r, s') -> rs_status r = 201 ->
  (db_sessions (as_db s') !! session_from_body body ≫= (fun sr => config_of (session_json sr))) = posted_config body.
Proof.
  unfold create_session. destruct fails; [intros E; by injection E as <- <-|]. intros E _. injection E as _ <-.
  assert (forall id sess ev data now d, db_sessions (enqueue id sess ev data now d) = db_sessions d) as Hen.
  { intros id sess ev data now d. destruct (enqueue_cases id sess ev data now d) as [->|[_ ->] ]; done. }
  cbn. rewrite Hen. cbn. rewrite lookup_insert_eq. cbn [mbind option_bind].
  unfold config_of, session_json, session_row_of, posted_config, get_bool, get_str. json_lookup.
  cbn [sr_webhook_enabled sr_webhook_url sr_webhook_by_events sr_webhook_base64 sr_webhook_headers sr_webhook_events mbind option_bind as_bool as_str default opt_string].
  set (w := default V_Null (v_get "webhook" body)).
  destruct (v_get "url" w ≫= as_str) as [[|c u]|]; [done| |done]. cbn.
  destruct (v_get "events" w) as [[| | | |es|]|]; destruct (v_get "headers" w) as [[| | | | |h]|]; done.
Qed.

(** Deleting a session: it fails as long as any row refers to it, and when it
    succeeds the event that announces it is lost, for want of the session. *)
Theorem session_deletion fails dr session s r s' : delete_session fails dr session s = (r, s') ->
  (rs_status r = 500 /\ s' = s)
  \/ (rs_status r = 200 /\ session_referenced session (as_db s) = false /\ as_db s' = with_sessions (delete session) (as_db s)).
Proof.
  unfold delete_session. destruct fails; [intros E; injection E as <- <-; by left|]. cbn [orb].
  destruct (session_referenced session (as_db s)); intros E; injection E as <- <-; [by left|right]. split_and!; [done|done|].
  cbn. unfold enqueue, insert_event, session_exists. cbn. rewrite lookup_delete_eq. rewrite (bool_decide_false (is_Some None)) by (by intros []).
  cbn. by rewrite orb_true_r.
Qed.

(** A session that was created is never deletable: its creation enqueued an
    event that refers to it. *)
Theorem created_session_stays fails dr row body s r s' fails' dr' : create_session fails dr row body s = (r, s') -> rs_status r = 201 ->
  db_outbox (as_db s) !! dr_event1 dr = None ->
  rs_status (delete_session fails' dr' (session_from_body body) s').1 = 500 /\ (delete_session fails' dr' (session_from_body body) s').2 = s'.
Proof.
  unfold create_session. destruct fails; [intros E; by injection E as <- <-|]. intros E _ Hid. injection E as _ <-.
  set (session := session_from_body body). unfold delete_session, session_referenced. cbn. unfold enqueue, insert_event. cbn.
  rewrite Hid, (bool_decide_false (is_Some None)) by (by intros []). unfold session_exists. cbn. rewrite lookup_insert_eq.
  rewrite (bool_decide_true (is_Some (Some _))) by eauto. cbn.
  rewrite (bool_decide_true (~ _)); [by rewrite !orb_true_r|]. intros H. by apply (H (dr_event1 dr) _ (lookup_insert_eq _ _ _)).
Qed.
End Api.

(** ** Concrete requests *)

#[local] Existing Instance toy_row_text.
Definition toy_account : Db := with_sessions (insert (lit "a") toy_session) db_empty.
Definition toy_image : Value :=
  json_obj [("session", V_String (lit "a")); ("chatId", V_String (lit "1@s.whatsapp.net")); ("text", V_String (lit " look ")); ("url", V_String (lit "http://f"));
            ("mimetype", V_String (lit "image/png")); ("reply", V_String (lit "Q"))]%string.

Lemma posted_message_queued_witness :
  exists r s', send_message (fun s => s) [] false (mkDraw 1 2 3 0) toy_image (mkAppState toy_account ∅ 0) = (r, s') /\ rs_status r = 200
    /\ exists payload, mr_payload <$> db_messages (as_db s') !! 1 = Some payload /\ get_str "caption" payload = Some (lit "look")
         /\ ci_stanza_id <$> build_reply_context_info payload = Some (Some (lit "Q")).
Proof.
  destruct (send_message (fun s => s) [] false (mkDraw 1 2 3 0) toy_image (mkAppState toy_account ∅ 0)) as [r s'] eqn:E. exists r, s'.
  split; [reflexivity|]. destruct (posted_message_queued (fun s => s) [] false (mkDraw 1 2 3 0) toy_image (mkAppState toy_account ∅ 0) r s' E)
    as [(H1 & ty & payload & Hm & Hs & Hk)|[[H _]|[H _] ] ]; [|vm_compute in E; injection E as <- _; discriminate..].
  split; [done|]. exists payload. split; [rewrite Hm; cbn [dr_id]; by rewrite lookup_insert_eq|]. split; [|by rewrite (ss_reply _ _ _ Hs)].
  rewrite (ss_caption _ _ _ Hs). destruct Hk as [(-> & Hf & _)|[Hk _] ]; [discriminate|].
  assert (ty = lit "image") as ->; [|reflexivity].
  vm_compute in E. injection E as _ E. apply (f_equal (fun s => mr_message_type <$> db_messages (as_db s) !! 1)) in E. rewrite Hm in E. cbn [dr_id] in E.
  rewrite lookup_insert_eq in E. cbn in E. by injection E as <-.
Defined.

(** A session is created and cannot be deleted. *)
Lemma created_session_stays_witness :
  let s' := (create_session [] false (mkDraw 1 2 3 0) None (json_obj [("session", V_String (lit "a"))]%string) (mkAppState db_empty ∅ 0)).2 in
  rs_status (delete_session [] false (mkDraw 4 5 6 0) (lit "a") s').1 = 500.
Proof.
  eapply (created_session_stays [] false (mkDraw 1 2 3 0) None (json_obj [("session", V_String (lit "a"))]%string) (mkAppState db_empty ∅ 0));
    [reflexivity|reflexivity|reflexivity].
Defined.
