(* ===== verification/MessagesWorker.v ===== *)
(** * The worker that sends queued messages: [src/server/messages_worker.rs]

    The worker claims queued messages of the connected sessions in batches and
    spawns a task per message; a task waits for one of 32 permits, then for the
    lock of its chat, and then builds and sends its message and marks the row.
    After a batch the worker drops the locks that nobody holds.

    The model is a step system: the parts of the worker and of the tasks
    between two suspension points are the steps, in any order, among the
    handlers of [ChatApi], connecting sessions, failing statements and restarts
    of the process.  Building a message is one step: it changes only the
    client's media connection.

    The theorems: no message is ever sent twice; only a message that was sent
    is marked sent; at most 32 are on their way; of the messages of a chat that
    were claimed together one is sent at a time, of others several can be; while
    no statement fails and the process runs, every claimed message is worked
    off. *)

From stdpp Require Import gmap sorting.
From S2P Require Import Prelude RustStd Jid Node Attrs Crypto Requests Pairing KeyServer Media Json Queue MessageBuild Webhooks ChatApi.

Definition MAX_CONCURRENT_SENDS : nat := 32.
Definition SESSION_WAIT_TTL_MINUTES : Z := 10.
Definition BATCH : nat := 50.

(** ** State *)

Inductive TaskPc :=
| T_wait_permit
| T_wait_lock
| T_process
| T_sending (jid : Jid) (msg : OutMessage)
| T_mark (status : str)
| T_done.

(** A task: its message, its chat's lock, and the batch it was claimed in. *)
Record SendTask := mkSendTask { tk_job : MessageJob; tk_lock : nat; tk_batch : nat; tk_pc : TaskPc }.

(** Where the worker is: waiting, spawning the tasks of a batch, dropping locks. *)
Inductive Drainer := D_idle | D_spawn (jobs : list MessageJob) | D_retain (keys : list str).

(** Calls of [client.send_message] and what they returned. *)
Inductive SendEvent := S_begin (id : Uuid) (jid : Jid) (msg : OutMessage) | S_end (id : Uuid) (ok : bool).

(** [mw_clients]: the connected clients with their media connections. *)
Record MWorker := mkMWorker {
  mw_app : AppState; mw_clients : gmap str (option MediaConn); mw_locks : gmap str nat; mw_next_lock : nat; mw_batches : nat;
  mw_tasks : list SendTask; mw_drain : Drainer; mw_log : list SendEvent
}.

Definition set_app a w := mkMWorker a (mw_clients w) (mw_locks w) (mw_next_lock w) (mw_batches w) (mw_tasks w) (mw_drain w) (mw_log w).
Definition set_clients c w := mkMWorker (mw_app w) c (mw_locks w) (mw_next_lock w) (mw_batches w) (mw_tasks w) (mw_drain w) (mw_log w).
Definition set_drain d w := mkMWorker (mw_app w) (mw_clients w) (mw_locks w) (mw_next_lock w) (mw_batches w) (mw_tasks w) d (mw_log w).
Definition set_tasks t w := mkMWorker (mw_app w) (mw_clients w) (mw_locks w) (mw_next_lock w) (mw_batches w) t (mw_drain w) (mw_log w).
Definition log_send e w := mkMWorker (mw_app w) (mw_clients w) (mw_locks w) (mw_next_lock w) (mw_batches w) (mw_tasks w) (mw_drain w) (mw_log w ++ e).
Definition set_pc (pc : TaskPc) (t : SendTask) : SendTask := mkSendTask (tk_job t) (tk_lock t) (tk_batch t) pc.
Definition goto (i : nat) (pc : TaskPc) (w : MWorker) : MWorker := set_tasks (alter (set_pc pc) i (mw_tasks w)) w.

(** The permit and the lock are held to the end of the task. *)
Definition holds_lock (pc : TaskPc) : bool := match pc with T_process | T_sending _ _ | T_mark _ => true | _ => false end.
Definition holds_permit (pc : TaskPc) : bool := match pc with T_wait_lock => true | pc => holds_lock pc end.
Definition permits_used (w : MWorker) : nat := sum_list_with (fun t => if holds_permit (tk_pc t) then 1 else 0)%nat (mw_tasks w).
Definition lock_held (k : nat) (w : MWorker) : bool := existsb (fun t => (tk_lock t =? k)%nat && holds_lock (tk_pc t)) (mw_tasks w).

(** ["{session}:{chat_id}"] *)
Definition chat_key (j : MessageJob) : str := mj_session j ++ lit ":" ++ mj_chat_id j.

Section Worker.
Context `{HT : !RowText, HK : !Hkdf, HS : !Hashes, HA : !AesCbc, HAB : !AesBlock, HB : !Base64}.
Context (b64_url_no_pad : bytes -> str) (send_iq : InfoQuery -> outcome ClientIqError Node) (show_iq_error : ClientIqError -> str).
Context (execute : HttpRequest -> outcome str HttpResponse) (raw_from_json : bytes -> outcome str (str * str)) (http_now : u64).
Context (show_utf8_error : bytes -> str).
Context (lower : str -> str) (db_error : str).

Abbreviation built_by := (build_message b64_url_no_pad send_iq show_iq_error execute raw_from_json http_now show_utf8_error).

(** ** The worker's loop *)

(** [drain_message_batch], up to the claim *)
Definition drain_claim (fails : bool) (locked chosen : list Uuid) (w : MWorker) : option MWorker :=
  match mw_drain w with
  | D_idle =>
      let sessions := map fst (map_to_list (mw_clients w)) in
      match sessions with
      | [] => Some w
      | _ =>
          if fails then Some w
          else match claim_for_sessions sessions BATCH locked chosen (as_db (mw_app w)) with
               | Some (jobs, d) =>
                   let w := set_app (on_db (fun _ => d) (mw_app w)) w in
                   Some (match jobs with
                         | [] => w
                         | _ => mkMWorker (mw_app w) (mw_clients w) (mw_locks w) (mw_next_lock w) (S (mw_batches w)) (mw_tasks w) (D_spawn jobs) (mw_log w)
                         end)
               | None => None
               end
      end
  | _ => None
  end.

(** One turn of the loop over the jobs; the entry of the chat is made if there
    is none. *)
Definition drain_spawn (w : MWorker) : option MWorker :=
  match mw_drain w with
  | D_spawn [] => Some (set_drain (D_retain (map fst (map_to_list (mw_locks w)))) w)
  | D_spawn (job :: jobs) =>
      let '(k, locks, next) := match mw_locks w !! chat_key job with
                               | Some k => (k, mw_locks w, mw_next_lock w)
                               | None => (mw_next_lock w, <[chat_key job := mw_next_lock w]> (mw_locks w), S (mw_next_lock w))
                               end in
      Some (mkMWorker (mw_app w) (mw_clients w) locks next (mw_batches w) (mw_tasks w ++ [mkSendTask job k (mw_batches w) T_wait_permit])
              (D_spawn jobs) (mw_log w))
  | _ => None
  end.

(** [chat_locks.retain(|_, v| v.try_lock().is_err())], an entry at a time *)
Definition drain_retain (w : MWorker) : option MWorker :=
  match mw_drain w with
  | D_retain [] => Some (set_drain D_idle w)
  | D_retain (k :: keys) =>
      let keep := match mw_locks w !! k with Some l => lock_held l w | None => false end in
      Some (mkMWorker (mw_app w) (mw_clients w) (if keep then mw_locks w else delete k (mw_locks w)) (mw_next_lock w) (mw_batches w)
              (mw_tasks w) (D_retain keys) (mw_log w))
  | _ => None
  end.

(** ** Tasks *)

(** The row a task is spawned with. *)
Definition job_row (j : MessageJob) : Value :=
  json_obj [("id", V_String (uuid_str (mj_id j))); ("session", V_String (mj_session j)); ("chat_id", V_String (mj_chat_id j));
            ("message_type", V_String (mj_message_type j)); ("payload", mj_payload j); ("created_at", opt_string (to_rfc3339 <$> mj_created_at j))]%string.

Definition should_fail_missing_session (created_at : option Time) (ttl_minutes : Z) (now : Time) : bool :=
  match created_at with None => false | Some c => seconds (ttl_minutes * 60) <? now - c end.

(** [process_single_message] up to the call that sends or marks: what comes
    next, and the media connections. *)
Definition process_single_message (media_key : bytes) (now : Time) (session : str) (row : Value) (clients : gmap str (option MediaConn)) :
    TaskPc * gmap str (option MediaConn) :=
  let payload := default V_Null (v_get "payload" row) in
  let created_at := get_str "created_at" row ≫= parse_rfc3339 in
  match get_str "id" row, get_str "chat_id" row, get_str "message_type" row with
  | Some id_str, Some chat_id_str, Some message_type =>
      match parse_uuid id_str with
      | None => (T_done, clients)
      | Some uuid =>
          match to_option (from_str chat_id_str) with
          | None => (T_mark (lit "failed"), clients)
          | Some jid =>
              match clients !! session with
              | None => (T_mark (if should_fail_missing_session created_at SESSION_WAIT_TTL_MINUTES now then lit "failed" else lit "queued"), clients)
              | Some conn =>
                  let '(o, conn) := built_by media_key message_type payload conn in
                  let clients := <[session := conn]> clients in
                  match o with
                  | Ok (Some msg) => (T_sending jid msg, clients)
                  | Ok None | Err _ => (T_mark (lit "failed"), clients)
                  | Panic | NoFuel => (T_done, clients)
                  end
              end
          end
      end
  | _, _, _ => (T_done, clients)
  end.

(** What a task is given in a step: the key of an upload, the time, whether the
    message was sent, whether the statement fails. *)
Record Turn := mkTurn { tn_media_key : bytes; tn_now : Time; tn_sent : bool; tn_fails : bool }.

Definition task_step (i : nat) (tn : Turn) (w : MWorker) : option MWorker :=
  match mw_tasks w !! i with
  | None => None
  | Some t =>
      let job := tk_job t in
      match tk_pc t with
      | T_wait_permit => if (permits_used w <? MAX_CONCURRENT_SENDS)%nat then Some (goto i T_wait_lock w) else None
      | T_wait_lock => if lock_held (tk_lock t) w then None else Some (goto i T_process w)
      | T_process =>
          let '(pc, clients) := process_single_message (tn_media_key tn) (tn_now tn) (mj_session job) (job_row job) (mw_clients w) in
          let w := goto i pc (set_clients clients w) in
          Some (match pc with T_sending jid msg => log_send [S_begin (mj_id job) jid msg] w | _ => w end)
      | T_sending _ _ =>
          Some (log_send [S_end (mj_id job) (tn_sent tn)] (goto i (T_mark (if tn_sent tn then lit "sent" else lit "failed")) w))
      | T_mark status =>
          let w := if tn_fails tn then w else set_app (on_db (message_mark_status (mj_id job) status) (mw_app w)) w in
          Some (goto i T_done w)
      | T_done => None
      end
  end.

(** ** Everything together *)

Inductive ApiOp :=
| Op_send (fails : bool) (dr : Draw) (body : Value)
| Op_other (fails : bool) (dr : Draw) (post : string * bool) (body : Value)
| Op_reply (fails : bool) (dr : Draw) (body : Value)
| Op_seen (fails : bool) (dr : Draw) (body : Value)
| Op_typing (fails : bool) (dr : Draw) (body : Value) (presence : string)
| Op_update (fails : bool) (dr : Draw) (body : Value) (field : string)
| Op_read (fails : bool) (dr : Draw) (session chat_id : str)
| Op_create (fails : bool) (dr : Draw) (row : option Value) (body : Value)
| Op_start (fails : bool) (dr : Draw) (session : str)
| Op_stop (fails : bool) (dr : Draw) (session : str)
| Op_delete (fails : bool) (dr : Draw) (session : str).

Definition api_op (o : ApiOp) (s : AppState) : AppState :=
  match o with
  | Op_send f dr body => (send_message lower db_error f dr body s).2
  | Op_other f dr post body => (send_other db_error f dr post body s).2
  | Op_reply f dr body => (reply_message db_error f dr body s).2
  | Op_seen f dr body => (send_seen db_error f dr body s).2
  | Op_typing f dr body p => (set_typing db_error f dr body p s).2
  | Op_update f dr body field => (update_message_payload db_error f dr body field s).2
  | Op_read f dr session chat => (read_messages db_error f dr session chat s).2
  | Op_create f dr row body => (create_session db_error f dr row body s).2
  | Op_start f dr session => (start_session db_error f dr session s).2
  | Op_stop f dr session => (stop_session db_error f dr session s).2
  | Op_delete f dr session => (delete_session db_error f dr session s).2
  end.

Inductive MLabel :=
| L_api (o : ApiOp)
| L_client (session : str)
| L_claim (fails : bool) (locked chosen : list Uuid)
| L_spawn
| L_retain
| L_task (i : nat) (tn : Turn)
| L_restart.

Definition mexec (l : MLabel) (w : MWorker) : option MWorker :=
  match l with
  | L_api o => Some (set_app (api_op o (mw_app w)) w)
  | L_client session => Some (set_clients (<[session := None]> (mw_clients w)) w)
  | L_claim fails locked chosen => drain_claim fails locked chosen w
  | L_spawn => drain_spawn w
  | L_retain => drain_retain w
  | L_task i tn => task_step i tn w
  | L_restart => Some (mkMWorker (mkAppState (as_db (mw_app w)) ∅ 0) ∅ ∅ (mw_next_lock w) (mw_batches w) [] D_idle (mw_log w))
  end.

Fixpoint mexecs (ls : list MLabel) (w : MWorker) : option MWorker :=
  match ls with [] => Some w | l :: ls => mexec l w ≫= mexecs ls end.

Definition worker_new (d : Db) : MWorker := mkMWorker (mkAppState d ∅ 0) ∅ ∅ 0 0 [] D_idle [].

(** ** What the handlers do to the messages *)

Abbreviation messages w := (db_messages (as_db (mw_app w))).

Definition is_queued (r : option MessageRow) : bool := match r with Some r => mr_status r =s lit "queued" | None => false end.

(** A handler may add a queued message; others it leaves, marks or annotates. *)
Record api_change (m m' : gmap Uuid MessageRow) : Prop := {
  ac_new : forall i, m !! i = None -> m' !! i = None \/ exists r, m' !! i = Some r /\ mr_status r = lit "queued";
  ac_old : forall i r, m !! i = Some r -> exists r', m' !! i = Some r' /\ mr_attempts r' = mr_attempts r
    /\ (mr_status r' = mr_status r \/ mr_status r' = lit "seen" \/ mr_status r' = lit "read");
  ac_attempts : map_Forall (fun _ r => is_i32 (mr_attempts r)) m -> map_Forall (fun _ r => is_i32 (mr_attempts r)) m'
}.

Lemma api_change_refl m : api_change m m.
Proof. split; eauto. Qed.

Lemma api_change_map (f : MessageRow -> MessageRow) m : (forall r, mr_attempts (f r) = mr_attempts r
    /\ (mr_status (f r) = mr_status r \/ mr_status (f r) = lit "seen" \/ mr_status (f r) = lit "read")) -> api_change m (f <$> m).
Proof.
  intros Hf. split.
  - intros i Hi. left. by rewrite lookup_fmap, Hi.
  - intros i r Hr. exists (f r). rewrite lookup_fmap, Hr. cbn. destruct (Hf r). auto.
  - intros Ha i r Hr. rewrite lookup_fmap in Hr. destruct (m !! i) as [r0|] eqn:E; [|done]. cbn in Hr. apply (inj Some) in Hr as <-.
    rewrite (proj1 (Hf r0)). by apply (Ha i).
Qed.

Lemma api_change_alter (f : MessageRow -> MessageRow) k m : (forall r, mr_attempts (f r) = mr_attempts r
    /\ (mr_status (f r) = mr_status r \/ mr_status (f r) = lit "seen" \/ mr_status (f r) = lit "read")) -> api_change m (alter f k m).
Proof.
  intros Hf. split.
  - intros i Hi. left. destruct (decide (i = k)) as [->|N]; [by rewrite lookup_alter_eq, Hi|by rewrite lookup_alter_ne].
  - intros i r Hr. destruct (decide (i = k)) as [->|N]; [|rewrite lookup_alter_ne by done; exists r; auto].
    rewrite lookup_alter_eq, Hr. cbn. exists (f r). destruct (Hf r). auto.
  - intros Ha i r Hr. destruct (decide (i = k)) as [->|N]; [|rewrite lookup_alter_ne in Hr by done; by apply (Ha i)].
    rewrite lookup_alter_eq in Hr. destruct (m !! k) as [r0|] eqn:E; [|done]. cbn in Hr. apply (inj Some) in Hr as <-.
    rewrite (proj1 (Hf r0)). by apply (Ha k).
Qed.

Lemma api_change_insert k r m : m !! k = None -> mr_status r = lit "queued" -> mr_attempts r = 0 -> api_change m (<[k := r]> m).
Proof.
  intros Hk Hs Ha. split.
  - intros i Hi. destruct (decide (i = k)) as [->|N]; [rewrite lookup_insert_eq; eauto|rewrite lookup_insert_ne by done; auto].
  - intros i r0 Hr. exists r0. rewrite lookup_insert_ne by (intros ->; by rewrite Hk in Hr). auto.
  - intros HA'. apply map_Forall_insert_2; [rewrite Ha; unfold is_i32; lia|done].
Qed.

Lemma send_type_change fails dr body ty ev s : api_change (db_messages (as_db s)) (db_messages (as_db (send_message_type db_error fails dr body ty ev s).2)).
Proof.
  unfold send_message_type, insert_message. case_bool_decide as Hid; [rewrite orb_true_r; apply api_change_refl|]. rewrite orb_false_r.
  destruct (fails || negb _); [apply api_change_refl|]. cbn. assert (db_messages (as_db s) !! dr_id dr = None) as Hn.
  { destruct (db_messages (as_db s) !! dr_id dr); [destruct Hid; eauto|done]. }
  destruct ev; rewrite ?enqueue_messages; by apply api_change_insert.
Qed.

Lemma api_op_change o s : api_change (db_messages (as_db s)) (db_messages (as_db (api_op o s))).
Proof.
  destruct o; cbn [api_op].
  - unfold send_message. destruct (route_message _ _) as [|[ty p]]; [apply api_change_refl|apply send_type_change].
  - apply send_type_change.
  - unfold reply_message. repeat case_match; apply send_type_change.
  - unfold send_seen. destruct (body_message_id body); [|apply api_change_refl]. destruct fails; [apply api_change_refl|].
    cbn. rewrite enqueue_messages. apply api_change_alter. auto.
  - unfold set_typing. case_match; [apply api_change_refl|]. cbn. rewrite enqueue_messages. apply api_change_refl.
  - unfold update_message_payload. destruct (body_message_id body); [|apply api_change_refl]. destruct fails; [apply api_change_refl|].
    cbn. rewrite enqueue_messages. apply api_change_alter. auto.
  - unfold read_messages. destruct fails; [apply api_change_refl|]. cbn. rewrite enqueue_messages. apply api_change_map.
    intros r. case_match; auto.
  - unfold create_session. destruct fails; [apply api_change_refl|]. cbn. rewrite enqueue_messages. apply api_change_refl.
  - unfold start_session, change_session. destruct fails; [apply api_change_refl|]. cbn. rewrite enqueue_messages. apply api_change_refl.
  - unfold stop_session, change_session. destruct fails; [apply api_change_refl|]. cbn. rewrite enqueue_messages. apply api_change_refl.
  - unfold delete_session. destruct (fails || _); [apply api_change_refl|]. cbn. rewrite enqueue_messages. apply api_change_refl.
Qed.

(** ** No message is sent twice *)

(** Every chance of message [i] to be sent: being queued, being claimed, being
    worked on or put back by a task; and the times it was sent. *)
Definition queued_weight (i : Uuid) (w : MWorker) : nat := if is_queued (messages w !! i) then 1 else 0.
Definition pc_weight (pc : TaskPc) : nat :=
  match pc with
  | T_wait_permit | T_wait_lock | T_process => 1
  | T_mark status => if status =s lit "queued" then 1 else 0
  | T_sending _ _ | T_done => 0
  end.
Definition task_weight (i : Uuid) (t : SendTask) : nat := if mj_id (tk_job t) =? i then pc_weight (tk_pc t) else 0.
Definition job_weight (i : Uuid) (j : MessageJob) : nat := if mj_id j =? i then 1 else 0.
Definition begin_weight (i : Uuid) (e : SendEvent) : nat := match e with S_begin k _ _ => if k =? i then 1 else 0 | S_end _ _ => 0 end.
Definition drain_jobs (d : Drainer) : list MessageJob := match d with D_spawn jobs => jobs | _ => [] end.

Definition total (i : Uuid) (w : MWorker) : nat :=
  (queued_weight i w + sum_list_with (task_weight i) (mw_tasks w) + sum_list_with (job_weight i) (drain_jobs (mw_drain w))
   + sum_list_with (begin_weight i) (mw_log w))%nat.

Record once_inv (w : MWorker) : Prop := {
  on_total : forall i, (total i w <= 1)%nat;
  on_absent : forall i, messages w !! i = None -> total i w = 0%nat;
  on_attempts : map_Forall (fun _ r => is_i32 (mr_attempts r)) (messages w)
}.

(** A step that makes no row and no chance. *)
Record no_gain (w w' : MWorker) : Prop := {
  ng_total : forall i, (total i w' <= total i w)%nat;
  ng_absent : forall i, messages w' !! i = None -> messages w !! i = None;
  ng_attempts : map_Forall (fun _ r => is_i32 (mr_attempts r)) (messages w) -> map_Forall (fun _ r => is_i32 (mr_attempts r)) (messages w')
}.

Lemma once_no_gain w w' : no_gain w w' -> once_inv w -> once_inv w'.
Proof.
  intros [G1 G2 G3] [I1 I2 I3]. split; auto.
  - intros i. specialize (G1 i). specialize (I1 i). lia.
  - intros i Hi. specialize (G1 i). rewrite (I2 i (G2 i Hi)) in G1. lia.
Qed.

(** Same messages: only the chances of tasks, jobs and the log count. *)
Lemma no_gain_same w w' : messages w' = messages w ->
  (forall i, (sum_list_with (task_weight i) (mw_tasks w') + sum_list_with (job_weight i) (drain_jobs (mw_drain w')) + sum_list_with (begin_weight i) (mw_log w')
      <= sum_list_with (task_weight i) (mw_tasks w) + sum_list_with (job_weight i) (drain_jobs (mw_drain w)) + sum_list_with (begin_weight i) (mw_log w))%nat) ->
  no_gain w w'.
Proof. intros E H. split; rewrite ?E; try done. intros i. specialize (H i). unfold total, queued_weight. rewrite E. lia. Qed.

Lemma sum_alter {A} (g : A -> nat) (f : A -> A) (l : list A) i x : l !! i = Some x ->
  (sum_list_with g (alter f i l) + g x = sum_list_with g l + g (f x))%nat.
Proof.
  revert i. induction l as [|y l IH]; intros [|i] Hx; try done.
  - apply (inj Some) in Hx as ->. cbn. lia.
  - cbn in Hx |- *. change (list_alter f i l) with (alter f i l). specialize (IH i Hx). lia.
Qed.

Lemma goto_weight k i pc w t : mw_tasks w !! i = Some t ->
  (sum_list_with (task_weight k) (mw_tasks (goto i pc w)) + task_weight k t
   = sum_list_with (task_weight k) (mw_tasks w) + (if (mj_id (tk_job t) =? k)%Z then pc_weight pc else 0))%nat.
Proof. intros Ht. cbn [goto set_tasks mw_tasks]. rewrite (sum_alter _ _ _ _ _ Ht). done. Qed.

Lemma sum_job_ids k jobs : sum_list_with (job_weight k) jobs = sum_list_with (fun i => if (i =? k)%Z then 1 else 0)%nat (map mj_id jobs).
Proof. induction jobs as [|j jobs IH]; cbn; [done|by rewrite IH]. Qed.

Lemma sum_nodup k (ids : list Uuid) : NoDup ids -> sum_list_with (fun i => if (i =? k)%Z then 1 else 0)%nat ids = if bool_decide (k ∈ ids) then 1%nat else 0%nat.
Proof.
  induction 1 as [|i ids Hi Hn IH]; cbn [sum_list_with]; [done|]. rewrite IH. destruct (Z.eqb_spec i k) as [->|N].
  - rewrite bool_decide_false, bool_decide_true by set_solver. done.
  - by assert (bool_decide (k ∈ i :: ids) = bool_decide (k ∈ ids)) as -> by (apply bool_decide_ext; set_solver).
Qed.

Lemma claim_no_gain fails locked chosen w w' : once_inv w -> drain_claim fails locked chosen w = Some w' -> no_gain w w'.
Proof.
  intros HI. unfold drain_claim. destruct (mw_drain w) eqn:Hd; try done. set (sessions := map fst _).
  assert (no_gain w w) as Hrefl by (apply no_gain_same; [done|intros; lia]).
  destruct sessions as [|s0 ss] eqn:Hs; [intros E; by apply (inj Some) in E as <-|]. rewrite <- Hs.
  destruct fails; [intros E; by apply (inj Some) in E as <-|].
  destruct (claim_for_sessions sessions BATCH locked chosen (as_db (mw_app w))) as [[jobs d]|] eqn:E; [|done].
  apply claim_for_sessions_spec in E as (Hn & _ & Hids & Hrow & ->); [|apply HI|by rewrite Hs]. subst chosen.
  assert (forall i, update_all (msg_set_status (lit "processing")) (map mj_id jobs) (messages w) !! i
     = if bool_decide (i ∈ map mj_id jobs) then msg_set_status (lit "processing") <$> messages w !! i else messages w !! i) as Hup
    by (intros i; by apply update_all_lookup).
  intros E. apply (inj Some) in E. assert (messages w' = update_all (msg_set_status (lit "processing")) (map mj_id jobs) (messages w)
     /\ mw_tasks w' = mw_tasks w /\ drain_jobs (mw_drain w') = jobs /\ mw_log w' = mw_log w) as (E1 & E2 & E3 & E4).
  { subst w'. destruct jobs; cbn; [by rewrite Hd|done]. }
  split.
  - intros i. unfold total, queued_weight. rewrite E1, E2, E3, E4, Hd, Hup, sum_job_ids, sum_nodup by done. cbn [drain_jobs sum_list_with].
    case_bool_decide as Hi; [|lia]. apply list_elem_of_fmap in Hi as (j & -> & Hj). destruct (Hrow j Hj) as (r & Hr & Hq & _).
    rewrite Hr. cbn [is_queued fmap option_fmap option_map msg_set_status mr_status]. unfold message_queued in Hq. apply andb_prop in Hq as [-> _].
    change (lit "processing" =s lit "queued") with false. cbn iota. lia.
  - intros i. rewrite E1, Hup. case_bool_decide; [by intros Hf%fmap_None|done].
  - intros Ha i r. rewrite E1, Hup. case_bool_decide; [|by apply Ha]. destruct (messages w !! i) as [r0|] eqn:Er; [|done].
    intros Er'. apply (inj Some) in Er' as <-. exact (Ha i r0 Er).
Qed.

Lemma spawn_no_gain w w' : drain_spawn w = Some w' -> no_gain w w'.
Proof.
  unfold drain_spawn. destruct (mw_drain w) as [|[|job jobs]|] eqn:Hd; try done.
  - intros E. apply (inj Some) in E as <-. apply no_gain_same; [done|]. intros i. cbn. rewrite Hd. done.
  - destruct (mw_locks w !! chat_key job); intros E; apply (inj Some) in E as <-; (apply no_gain_same; [done|]); intros i;
      rewrite Hd; cbn [mw_tasks mw_drain mw_log drain_jobs]; rewrite sum_list_with_app; cbn [sum_list_with];
      unfold task_weight, job_weight; cbn [tk_job tk_pc pc_weight]; lia.
Qed.

Lemma retain_no_gain w w' : drain_retain w = Some w' -> no_gain w w'.
Proof.
  unfold drain_retain. destruct (mw_drain w) as [| |[|k keys]] eqn:Hd; try done; intros E; apply (inj Some) in E as <-;
    (apply no_gain_same; [done|]); intros i; rewrite Hd; cbn [set_drain mw_tasks mw_drain mw_log drain_jobs]; lia.
Qed.

Lemma goto_no_gain i pc w t : mw_tasks w !! i = Some t -> (pc_weight pc <= pc_weight (tk_pc t))%nat -> no_gain w (goto i pc w).
Proof.
  intros Ht Hw. apply no_gain_same; [done|]. intros k. pose proof (goto_weight k i pc w t Ht) as Hg. cbn [goto set_tasks mw_drain mw_log] in *.
  unfold task_weight at 2 in Hg. destruct (mj_id (tk_job t) =? k); lia.
Qed.

Lemma no_gain_trans w1 w2 w3 : no_gain w1 w2 -> no_gain w2 w3 -> no_gain w1 w3.
Proof. intros [A1 A2 A3] [B1 B2 B3]. split; auto. intros i. specialize (A1 i). specialize (B1 i). lia. Qed.

Lemma mark_no_gain i status w t : mw_tasks w !! i = Some t -> tk_pc t = T_mark status ->
  no_gain w (goto i T_done (set_app (on_db (message_mark_status (mj_id (tk_job t)) status) (mw_app w)) w)).
Proof.
  intros Ht Hpc. set (id := mj_id (tk_job t)). set (w1 := set_app _ w).
  assert (messages w1 = alter (msg_set_status status) id (messages w)) as Hm by done. split.
  - intros k. pose proof (goto_weight k i T_done w1 t Ht) as Hg. cbn [pc_weight] in Hg. unfold total, queued_weight.
    cbn [goto set_tasks mw_app mw_drain mw_log mw_tasks] in *. rewrite Hm. fold id in Hg. unfold task_weight at 2 in Hg. rewrite Hpc in Hg. fold id in Hg. cbn [pc_weight] in Hg.
    change (mw_tasks w1) with (mw_tasks w) in *. change (mw_drain w1) with (mw_drain w). change (mw_log w1) with (mw_log w).
    destruct (Z.eqb_spec id k) as [Ek|N].
    + rewrite <- Ek. rewrite <- Ek in Hg. clear Ek k. rewrite lookup_alter_eq. destruct (messages w !! id) as [r|]; cbn [fmap option_fmap option_map is_queued msg_set_status mr_status] in *;
        [destruct (status =s lit "queued"), (mr_status r =s lit "queued")|]; lia.
    + rewrite lookup_alter_ne by done. lia.
  - intros k. cbn [goto set_tasks mw_app]. rewrite Hm. destruct (decide (k = id)) as [->|N]; [rewrite lookup_alter_eq; by intros Hf%fmap_None|by rewrite lookup_alter_ne].
  - intros Ha. cbn [goto set_tasks mw_app]. rewrite Hm. intros k r. destruct (decide (k = id)) as [->|N]; [|rewrite lookup_alter_ne by done; apply Ha].
    rewrite lookup_alter_eq. destruct (messages w !! id) as [r0|] eqn:Er; [|done]. cbn. intros E. apply (inj Some) in E as <-. exact (Ha id r0 Er).
Qed.

Lemma task_no_gain i tn w w' : task_step i tn w = Some w' -> no_gain w w'.
Proof.
  unfold task_step. destruct (mw_tasks w !! i) as [t|] eqn:Ht; [|done]. destruct (tk_pc t) as [| | |jid msg|status|] eqn:Hpc; try done.
  - case_match; [|done]. intros E. apply (inj Some) in E as <-. apply (goto_no_gain _ _ _ _ Ht). by rewrite Hpc.
  - case_match; [done|]. intros E. apply (inj Some) in E as <-. apply (goto_no_gain _ _ _ _ Ht). by rewrite Hpc.
  - destruct (process_single_message _ _ _ _ _) as [pc clients]. set (w1 := set_clients clients w). intros E. apply (inj Some) in E.
    assert (no_gain w w1) as H1 by (apply no_gain_same; [done|intros; done]). apply (no_gain_trans _ w1); [done|].
    assert (mw_tasks w1 !! i = Some t) as Ht1 by done.
    destruct pc as [| | |jid msg|status|]; subst w'; try (apply (goto_no_gain _ _ _ _ Ht1); rewrite Hpc; cbn [pc_weight]; try case_match; lia).
    apply no_gain_same; [done|]. intros k. pose proof (goto_weight k i (T_sending jid msg) w1 t Ht1) as Hg. unfold task_weight at 2 in Hg. rewrite Hpc in Hg.
    cbn [log_send goto set_tasks mw_drain mw_log mw_tasks pc_weight] in *. rewrite sum_list_with_app. cbn [sum_list_with begin_weight].
    destruct (mj_id (tk_job t) =? k); lia.
  - intros E. apply (inj Some) in E as <-. apply (no_gain_trans _ (goto i (T_mark (if tn_sent tn then lit "sent" else lit "failed")) w)).
    + apply (goto_no_gain _ _ _ _ Ht). rewrite Hpc. by destruct (tn_sent tn).
    + apply no_gain_same; [done|]. intros k. cbn [log_send mw_log mw_tasks mw_drain]. rewrite sum_list_with_app. cbn. lia.
  - destruct (tn_fails tn); intros E; apply (inj Some) in E as <-; [apply (goto_no_gain _ _ _ _ Ht); cbn; lia|by apply mark_no_gain].
Qed.

Lemma api_once o w : once_inv w -> once_inv (set_app (api_op o (mw_app w)) w).
Proof.
  intros [I1 I2 I3]. destruct (api_op_change o (mw_app w)) as [A1 A2 A3]. set (w' := set_app _ w).
  assert (forall i, messages w !! i <> None -> (total i w' <= total i w)%nat) as Hold.
  { intros i Hi. destruct (messages w !! i) as [r|] eqn:Hr; [|done]. destruct (A2 i r Hr) as (r' & Hr' & _ & Hs).
    unfold total, queued_weight. change (messages w') with (db_messages (as_db (api_op o (mw_app w)))). rewrite Hr, Hr'. cbn [is_queued].
    destruct Hs as [->|[->| ->] ]; cbn [w' set_app mw_tasks mw_drain mw_log]; [lia|..];
      [change (lit "seen" =s lit "queued") with false|change (lit "read" =s lit "queued") with false]; cbn iota; lia. }
  split; [| |by apply A3].
  - intros i. destruct (messages w !! i) as [r|] eqn:Hr; [specialize (Hold i); rewrite Hr in Hold; specialize (Hold ltac:(done)); specialize (I1 i); lia|].
    specialize (I2 i Hr). unfold total in *. cbn [w' set_app mw_tasks mw_drain mw_log]. unfold queued_weight. case_match; lia.
  - intros i Hi. destruct (messages w !! i) as [r|] eqn:Hr; [destruct (A2 i r Hr) as (r' & Hr' & _); change (messages w' !! i = Some r') in Hr'; by rewrite Hi in Hr'|].
    specialize (I2 i Hr). unfold total in *. cbn [w' set_app mw_tasks mw_drain mw_log]. unfold queued_weight. rewrite Hi. cbn. lia.
Qed.

Lemma mexec_once l w w' : once_inv w -> mexec l w = Some w' -> once_inv w'.
Proof.
  intros HI. destruct l as [o|session|fails locked chosen| | |i tn|]; cbn [mexec]; intros E.
  - apply (inj Some) in E as <-. by apply api_once.
  - apply (inj Some) in E as <-. apply (once_no_gain w); [|done]. apply no_gain_same; [done|]. intros; done.
  - by apply (once_no_gain w), HI; eapply claim_no_gain.
  - by apply (once_no_gain w), HI; eapply spawn_no_gain.
  - by apply (once_no_gain w), HI; eapply retain_no_gain.
  - by apply (once_no_gain w), HI; eapply task_no_gain.
  - apply (inj Some) in E as <-. apply (once_no_gain w); [|done]. apply no_gain_same; [done|]. intros i. cbn [mw_tasks mw_drain mw_log drain_jobs sum_list_with]. lia.
Qed.

(** Induction over a run. *)
Lemma mexecs_ind (P : MWorker -> Prop) ls w w' : (forall l w w', P w -> mexec l w = Some w' -> P w') -> P w -> mexecs ls w = Some w' -> P w'.
Proof.
  intros Hstep. revert w. induction ls as [|l ls IH]; intros w HP E; [by apply (inj Some) in E as <-|].
  cbn [mexecs] in E. apply bind_Some in E as (w1 & E1 & E2). eauto.
Qed.

Definition begun (log : list SendEvent) : list Uuid := omap (fun e => match e with S_begin i _ _ => Some i | S_end _ _ => None end) log.

Lemma begun_weight i log : sum_list_with (begin_weight i) log = sum_list_with (fun k => if (k =? i)%Z then 1 else 0)%nat (begun log).
Proof. induction log as [|[] log IH]; cbn; [done|by rewrite IH|by rewrite IH]. Qed.

Lemma nodup_of_weights (ids : list Uuid) : (forall i, (sum_list_with (fun k => if (k =? i)%Z then 1 else 0)%nat ids <= 1)%nat) -> NoDup ids.
Proof.
  induction ids as [|k ids IH]; intros H; [constructor|]. constructor.
  - intros Hk. specialize (H k). cbn in H. rewrite Z.eqb_refl in H. clear IH. assert (1 <= sum_list_with (fun k0 => if (k0 =? k)%Z then 1 else 0)%nat ids)%nat; [|lia].
    clear H. induction ids as [|x ids IH]; [by apply not_elem_of_nil in Hk|]. cbn. apply elem_of_cons in Hk as [<-|Hk]; [rewrite Z.eqb_refl; lia|specialize (IH Hk); lia].
  - apply IH. intros i. specialize (H i). cbn in H. lia.
Qed.

Lemma once_inv_new d : map_Forall (fun _ r => is_i32 (mr_attempts r)) (db_messages d) -> once_inv (worker_new d).
Proof.
  intros Ha. split; [| |done].
  - intros i. unfold total, queued_weight. cbn. case_match; lia.
  - intros i Hi. unfold total, queued_weight. cbn in *. by rewrite Hi.
Qed.

(** C10: No message is sent twice, in no order of the tasks and handlers, whichever
    statements fail and however often the process restarts. *)
Theorem sent_at_most_once d ls w : map_Forall (fun _ r => is_i32 (mr_attempts r)) (db_messages d) ->
  mexecs ls (worker_new d) = Some w -> NoDup (begun (mw_log w)).
Proof.
  intros Ha E. assert (once_inv w) as HI.
  { eapply (mexecs_ind once_inv); [intros; by eapply mexec_once|by apply once_inv_new|exact E]. }
  apply nodup_of_weights. intros i. rewrite <- begun_weight. pose proof (on_total w HI i). unfold total in *. lia.
Qed.

(** ** One message of a chat at a time *)

Record lock_inv (w : MWorker) : Prop := {
  li_permits : (permits_used w <= MAX_CONCURRENT_SENDS)%nat;
  li_holder : forall i j t t', mw_tasks w !! i = Some t -> mw_tasks w !! j = Some t' -> holds_lock (tk_pc t) = true -> holds_lock (tk_pc t') = true ->
    tk_lock t = tk_lock t' -> i = j;
  li_batch : forall i j t t', mw_tasks w !! i = Some t -> mw_tasks w !! j = Some t' -> tk_batch t = tk_batch t' ->
    chat_key (tk_job t) = chat_key (tk_job t') -> tk_lock t = tk_lock t';
  li_current : forall jobs i t, mw_drain w = D_spawn jobs -> mw_tasks w !! i = Some t -> tk_batch t = mw_batches w ->
    mw_locks w !! chat_key (tk_job t) = Some (tk_lock t);
  li_batches : forall i t, mw_tasks w !! i = Some t -> (tk_batch t <= mw_batches w)%nat
}.

Lemma task_step_shape i tn w w' : task_step i tn w = Some w' ->
  exists t pc, mw_tasks w !! i = Some t /\ mw_tasks w' = alter (set_pc pc) i (mw_tasks w)
    /\ mw_locks w' = mw_locks w /\ mw_batches w' = mw_batches w /\ mw_drain w' = mw_drain w
    /\ (holds_lock pc = true -> holds_lock (tk_pc t) = true \/ lock_held (tk_lock t) w = false)
    /\ (holds_permit pc = true -> holds_permit (tk_pc t) = true \/ (permits_used w < MAX_CONCURRENT_SENDS)%nat).
Proof.
  unfold task_step. destruct (mw_tasks w !! i) as [t|] eqn:Ht; [|done]. destruct (tk_pc t) as [| | |jid msg|status|] eqn:Hpc; try done.
  - destruct (Nat.ltb_spec (permits_used w) MAX_CONCURRENT_SENDS); [|done]. intros E. apply (inj Some) in E as <-. exists t, T_wait_lock. by split_and!; auto.
  - destruct (lock_held (tk_lock t) w) eqn:Hl; [done|]. intros E. apply (inj Some) in E as <-. exists t, T_process. rewrite Hpc. split_and!; auto.
  - destruct (process_single_message _ _ _ _ _) as [pc clients]. intros E. apply (inj Some) in E as <-. exists t, pc. rewrite Hpc.
    destruct pc; split_and!; auto.
  - intros E. apply (inj Some) in E as <-. exists t. eexists. rewrite Hpc. split_and!; [done|reflexivity|auto..].
  - intros E. apply (inj Some) in E as <-. exists t, T_done. destruct (tn_fails tn); split_and!; auto; done.
Qed.

Lemma lookup_set_pc pc i j (ts : list SendTask) t : alter (set_pc pc) i ts !! j = Some t ->
  exists t0, ts !! j = Some t0 /\ (t = t0 /\ i <> j \/ t = set_pc pc t0 /\ i = j).
Proof.
  destruct (decide (i = j)) as [->|N]; [rewrite list_lookup_alter_eq|rewrite list_lookup_alter_ne by done; eauto].
  destruct (ts !! j) as [t0|]; [|done]. cbn. intros E. apply (inj Some) in E as <-. eauto.
Qed.

Lemma lock_held_false k w j t : lock_held k w = false -> mw_tasks w !! j = Some t -> tk_lock t = k -> holds_lock (tk_pc t) = false.
Proof.
  unfold lock_held. intros Hl Ht <-. apply not_true_is_false. intros Hh. apply not_true_iff_false in Hl. apply Hl, existsb_exists.
  exists t. split; [by apply list_elem_of_In; eapply list_elem_of_lookup_2|]. by rewrite Nat.eqb_refl, Hh.
Qed.

Lemma task_lock_inv i tn w w' : lock_inv w -> task_step i tn w = Some w' -> lock_inv w'.
Proof.
  intros [I1 I2 I3 I4 I5] (t & pc & Ht & E1 & E2 & E3 & E4 & Hh & Hp)%task_step_shape. split; rewrite ?E1, ?E2, ?E3, ?E4.
  - unfold permits_used in *. rewrite E1. pose proof (sum_alter (fun t => if holds_permit (tk_pc t) then 1 else 0)%nat (set_pc pc) _ _ _ Ht) as Hs.
    cbn [set_pc tk_pc] in Hs. destruct (holds_permit pc); [|lia]. destruct (Hp eq_refl) as [Hp'|Hp']; [rewrite Hp' in Hs|]; lia.
  - intros j k u u' (u0 & Hu & Cu)%lookup_set_pc (u0' & Hu' & Cu')%lookup_set_pc H1 H2 Hl.
    assert (forall j0 v v0, mw_tasks w !! j0 = Some v0 -> v = v0 /\ i <> j0 \/ v = set_pc pc v0 /\ i = j0 -> tk_lock v = tk_lock v0) as Hlk
      by (intros ? ? ? _ [[-> _]|[-> _] ]; done).
    rewrite (Hlk j u u0), (Hlk k u' u0') in Hl by done.
    destruct Cu as [[-> Nj]|[-> <-] ], Cu' as [[-> Nk]|[-> <-] ]; [eauto| | |done]; exfalso; cbn in H1, H2; simplify_eq.
    + destruct (Hh H2) as [Hold|Hf]; [by apply Nj; rewrite (I2 _ _ _ _ Hu Ht H1 Hold Hl)|]. by rewrite (lock_held_false _ _ _ _ Hf Hu Hl) in H1.
    + destruct (Hh H1) as [Hold|Hf]; [by apply Nk; rewrite (I2 _ _ _ _ Ht Hu' Hold H2 Hl)|]. by rewrite (lock_held_false _ _ _ _ Hf Hu' (eq_sym Hl)) in H2.
  - intros j k u u' (u0 & Hu & Cu)%lookup_set_pc (u0' & Hu' & Cu')%lookup_set_pc.
    destruct Cu as [[-> _]|[-> _] ], Cu' as [[-> _]|[-> _] ]; cbn; eauto.
  - intros jobs j u Hd (u0 & Hu & [[-> _]|[-> _] ])%lookup_set_pc; cbn; eauto.
  - intros j u (u0 & Hu & [[-> _]|[-> _] ])%lookup_set_pc; cbn; eauto.
Qed.

(** Steps that leave the tasks alone. *)
Lemma lock_inv_same w w' : mw_tasks w' = mw_tasks w -> (mw_batches w <= mw_batches w')%nat ->
  (forall jobs i t, mw_drain w' = D_spawn jobs -> mw_tasks w !! i = Some t -> tk_batch t = mw_batches w' -> mw_locks w' !! chat_key (tk_job t) = Some (tk_lock t)) ->
  lock_inv w -> lock_inv w'.
Proof.
  intros E Hb Hc [I1 I2 I3 I4 I5]. split; unfold permits_used; rewrite ?E; auto. intros i t Ht. specialize (I5 i t Ht). lia.
Qed.

Lemma mexec_lock l w w' : lock_inv w -> mexec l w = Some w' -> lock_inv w'.
Proof.
  intros HI. destruct l as [o|session|fails locked chosen| | |i tn|]; cbn [mexec].
  - intros E. apply (inj Some) in E as <-. apply (lock_inv_same w); [done|done|apply HI|done].
  - intros E. apply (inj Some) in E as <-. apply (lock_inv_same w); [done|done|apply HI|done].
  - unfold drain_claim. destruct (mw_drain w) eqn:Hd; try done. destruct (map fst _) as [|s0 ss]; [intros E; by apply (inj Some) in E as <-|].
    destruct fails; [intros E; by apply (inj Some) in E as <-|]. destruct (claim_for_sessions _ _ _ _ _) as [[jobs d]|]; [|done].
    intros E. apply (inj Some) in E as <-. destruct jobs as [|j jobs]; (apply (lock_inv_same w); [done|cbn; lia| |done]).
    + cbn. by rewrite Hd.
    + cbn. intros js i t _ Ht Hb. pose proof (li_batches w HI i t Ht). lia.
  - unfold drain_spawn. destruct (mw_drain w) as [|[|job jobs]|] eqn:Hd; try done.
    + intros E. apply (inj Some) in E as <-. by apply (lock_inv_same w).
    + intros E. destruct HI as [I1 I2 I3 I4 I5]. set (b := mw_batches w) in *.
      assert (exists k, mw_tasks w' = mw_tasks w ++ [mkSendTask job k b T_wait_permit] /\ mw_locks w' !! chat_key job = Some k
                /\ (forall key l, mw_locks w !! key = Some l -> mw_locks w' !! key = Some l) /\ mw_batches w' = b) as (k & Et & Ek & Hkeep & Eb).
      { destruct (mw_locks w !! chat_key job) as [k|] eqn:Hl; apply (inj Some) in E as <-; [exists k; by split_and!|]. exists (mw_next_lock w).
        split_and!; [done|by cbn; rewrite lookup_insert_eq| |done]. intros key l Hkey. cbn. rewrite lookup_insert_ne; [done|]. intros <-. by rewrite Hl in Hkey. }
      assert (forall i t, mw_tasks w' !! i = Some t -> mw_tasks w !! i = Some t \/ t = mkSendTask job k b T_wait_permit /\ i = length (mw_tasks w)) as Hcase.
      { intros i t. rewrite Et. intros [Hi|[Hi Hs]]%lookup_app_Some; [by left|right]. apply list_lookup_singleton_Some in Hs as [H0 <-]. split; [done|lia]. }
      split.
      * unfold permits_used in *. rewrite Et, sum_list_with_app. cbn. lia.
      * intros i j t t' [Hi|[-> _] ]%Hcase [Hj|[-> _] ]%Hcase; try done. apply (I2 i j t t' Hi Hj).
      * intros i j t t' [Hi|[-> ->] ]%Hcase [Hj|[-> ->] ]%Hcase; cbn; intros H1 H2; [by eapply I3| | |done].
        -- pose proof (Hkeep _ _ (I4 _ i t Hd Hi H1)) as Hk. rewrite H2, Ek in Hk. by apply (inj Some) in Hk.
        -- symmetry in H1, H2. pose proof (Hkeep _ _ (I4 _ j t' Hd Hj H1)) as Hk. rewrite H2, Ek in Hk. by apply (inj Some) in Hk.
      * intros js i t _ [Hi|[-> _] ]%Hcase; [|done]. rewrite Eb. intros Hb. by apply Hkeep, (I4 _ i t Hd).
      * intros i t [Hi|[-> _] ]%Hcase; rewrite Eb; [eauto|done].
  - unfold drain_retain. destruct (mw_drain w) as [| |[|key keys]] eqn:Hd; try done; intros E; apply (inj Some) in E as <-; by apply (lock_inv_same w).
  - by apply task_lock_inv.
  - intros E. apply (inj Some) in E as <-. split; cbn; try done. unfold permits_used. cbn. lia.
Qed.

Lemma lock_inv_new d : lock_inv (worker_new d).
Proof. split; cbn; try done. unfold permits_used. cbn. lia. Qed.

(** C25: At most 32 messages are being worked on at any time, and of the messages of
    a chat that were claimed together at most one. *)
Theorem chat_sends_exclusive d ls w : mexecs ls (worker_new d) = Some w ->
  (permits_used w <= MAX_CONCURRENT_SENDS)%nat
  /\ forall i j t t', mw_tasks w !! i = Some t -> mw_tasks w !! j = Some t' -> i <> j -> chat_key (tk_job t) = chat_key (tk_job t') -> tk_batch t = tk_batch t' ->
       holds_lock (tk_pc t) && holds_lock (tk_pc t') = false.
Proof.
  intros E. assert (lock_inv w) as HI by (eapply (mexecs_ind lock_inv); [intros; by eapply mexec_lock|apply lock_inv_new|exact E]).
  split; [apply HI|]. intros i j t t' Hi Hj N Hc Hb. apply not_true_is_false. intros [H1 H2]%andb_prop.
  apply N. by apply (li_holder w HI i j t t'); try done; apply (li_batch w HI i j t t').
Qed.

(** ** What the marks say *)

Lemma process_outcomes media_key now session row clients :
  match (process_single_message media_key now session row clients).1 with
  | T_sending _ _ | T_done => True
  | T_mark status => status = lit "failed" \/ status = lit "queued"
  | _ => False
  end.
Proof.
  unfold process_single_message. destruct (get_str "id" row) as [id|], (get_str "chat_id" row) as [c|], (get_str "message_type" row) as [ty|]; try done.
  destruct (parse_uuid id); [|done]. destruct (to_option (from_str c)); [|by left]. destruct (clients !! session) as [conn|]; [|cbn; case_match; auto].
  destruct (built_by media_key ty _ conn) as [[[]|e| |] ?]; cbn; auto.
Qed.

(** The row of a task is read as it was written. *)
Lemma process_row media_key now (j : MessageJob) clients :
  process_single_message media_key now (mj_session j) (job_row j) clients
  = match to_option (from_str (mj_chat_id j)) with
    | None => (T_mark (lit "failed"), clients)
    | Some jid =>
        match clients !! mj_session j with
        | None => (T_mark (if should_fail_missing_session (mj_created_at j) SESSION_WAIT_TTL_MINUTES now then lit "failed" else lit "queued"), clients)
        | Some conn =>
            let '(o, conn) := built_by media_key (mj_message_type j) (mj_payload j) conn in
            (match o with
             | Ok (Some msg) => T_sending jid msg
             | Ok None | Err _ => T_mark (lit "failed")
             | Panic | NoFuel => T_done
             end, <[mj_session j := conn]> clients)
        end
    end.
Proof.
  unfold process_single_message, job_row, get_str. json_lookup. cbn [mbind option_bind as_str default]. rewrite parse_uuid_str.
  destruct (to_option (from_str (mj_chat_id j))); [|done]. destruct (clients !! mj_session j); [by destruct (built_by _ _ _ _) as [[[]|[]| |] ?]|].
  destruct (mj_created_at j); cbn; by rewrite ?parse_to_rfc3339.
Qed.

Definition sent_ok (i : Uuid) (log : list SendEvent) : Prop := S_end i true ∈ log /\ exists jid msg, S_begin i jid msg ∈ log.

Definition task_marks (log : list SendEvent) (t : SendTask) : Prop :=
  match tk_pc t with
  | T_mark status => status = lit "sent" /\ sent_ok (mj_id (tk_job t)) log \/ status = lit "failed" \/ status = lit "queued"
  | T_sending jid msg => S_begin (mj_id (tk_job t)) jid msg ∈ log
  | _ => True
  end.

(** The status of a message in the table [m0] that the worker started with. *)
Definition was (status : str) (m0 : gmap Uuid MessageRow) (i : Uuid) : Prop := exists r, m0 !! i = Some r /\ mr_status r = status.

Record mark_inv (m0 : gmap Uuid MessageRow) (w : MWorker) : Prop := {
  mk_rows : forall i r, messages w !! i = Some r -> mr_status r = lit "sent" -> sent_ok i (mw_log w) \/ was (lit "sent") m0 i;
  mk_tasks : Forall (task_marks (mw_log w)) (mw_tasks w)
}.

Lemma sent_ok_app i log e : sent_ok i log -> sent_ok i (log ++ e).
Proof. intros (H1 & jid & msg & H2). split; [|exists jid, msg]; apply elem_of_app; by left. Qed.

Lemma task_marks_app t log e : task_marks log t -> task_marks (log ++ e) t.
Proof.
  unfold task_marks. destruct (tk_pc t); try done.
  - intros H. apply elem_of_app. by left.
  - intros [[-> H]|H]; [left; split; [done|by apply sent_ok_app]|by right].
Qed.

Lemma marks_goto i pc log (ts : list SendTask) t : ts !! i = Some t -> Forall (task_marks log) ts -> task_marks log (set_pc pc t) -> Forall (task_marks log) (alter (set_pc pc) i ts).
Proof.
  rewrite !Forall_lookup. intros Ht Hall Hnew j t' (t0 & Ht0 & [[-> _]|[-> <-] ])%lookup_set_pc; [eauto|]. by simplify_eq.
Qed.

Lemma task_mark_inv m0 i tn w w' : mark_inv m0 w -> task_step i tn w = Some w' -> mark_inv m0 w'.
Proof.
  intros [I1 I2]. unfold task_step. destruct (mw_tasks w !! i) as [t|] eqn:Ht; [|done]. pose proof (Forall_lookup_1 _ _ _ _ I2 Ht) as Hm.
  unfold task_marks in Hm. destruct (tk_pc t) as [| | |jid msg|status|] eqn:Hpc; try done.
  - case_match; [|done]. intros E. apply (inj Some) in E as <-. split; [done|]. by apply (marks_goto _ _ _ _ t).
  - case_match; [done|]. intros E. apply (inj Some) in E as <-. split; [done|]. by apply (marks_goto _ _ _ _ t).
  - pose proof (process_outcomes (tn_media_key tn) (tn_now tn) (mj_session (tk_job t)) (job_row (tk_job t)) (mw_clients w)) as Ho.
    destruct (process_single_message _ _ _ _ _) as [pc clients]. cbn [fst] in Ho. intros E. apply (inj Some) in E as <-.
    destruct pc as [| | |jid msg|status|]; try done.
    + split.
      * intros k r Hr Hs. cbn. destruct (I1 k r Hr Hs); [left; by apply sent_ok_app|by right].
      * cbn. apply (marks_goto _ _ _ _ t); [done|by apply (Forall_impl _ _ _ I2); intros; apply task_marks_app|]. unfold task_marks. cbn. set_solver.
    + split; [done|]. apply (marks_goto _ _ _ _ t); [done|done|]. unfold task_marks. cbn. tauto.
    + split; [done|]. by apply (marks_goto _ _ _ _ t).
  - intros E. apply (inj Some) in E as <-. split.
    + intros k r Hr Hs. cbn. destruct (I1 k r Hr Hs); [left; by apply sent_ok_app|by right].
    + cbn. apply (marks_goto _ _ _ _ t); [done|by apply (Forall_impl _ _ _ I2); intros; apply task_marks_app|]. unfold task_marks. cbn.
      destruct (tn_sent tn); [left|by right; left]. split; [done|]. split; [set_solver|exists jid, msg; set_solver].
  - intros E. apply (inj Some) in E as <-. destruct (tn_fails tn); (split; [|by apply (marks_goto _ _ _ _ t)]); [done|].
    intros k r. cbn. destruct (decide (k = mj_id (tk_job t))) as [->|N]; [|rewrite lookup_alter_ne by done; apply I1].
    rewrite lookup_alter_eq. destruct (messages w !! mj_id (tk_job t)) as [r0|]; [|done]. cbn. intros Er. apply (inj Some) in Er as <-.
    cbn. intros Hs. destruct Hm as [[_ Hm]|[-> | ->] ]; [by left|done|done].
Qed.

Lemma api_statuses o s i r : db_messages (as_db (api_op o s)) !! i = Some r ->
  mr_status r = lit "queued" \/ mr_status r = lit "seen" \/ mr_status r = lit "read"
  \/ exists r0, db_messages (as_db s) !! i = Some r0 /\ mr_status r = mr_status r0.
Proof.
  intros Hr. destruct (api_op_change o s) as [A1 A2 _]. destruct (db_messages (as_db s) !! i) as [r0|] eqn:H0.
  - destruct (A2 i r0 H0) as (r' & Hr' & _ & Hs). simplify_eq. destruct Hs as [->|[->| ->] ]; eauto 10.
  - destruct (A1 i H0) as [Hn|(r' & Hr' & Hs)]; simplify_eq. auto.
Qed.

Lemma claim_statuses fails locked chosen w w' i r : map_Forall (fun _ r => is_i32 (mr_attempts r)) (messages w) ->
  drain_claim fails locked chosen w = Some w' -> messages w' !! i = Some r ->
  messages w !! i = Some r \/ mr_status r = lit "processing" /\ exists j, j ∈ drain_jobs (mw_drain w') /\ mj_id j = i.
Proof.
  intros Ha. unfold drain_claim. destruct (mw_drain w) eqn:Hd; try done. destruct (map fst _) as [|s0 ss] eqn:Hs; [intros E; apply (inj Some) in E as <-; by left|].
  destruct fails; [intros E; apply (inj Some) in E as <-; by left|]. rewrite <- Hs.
  destruct (claim_for_sessions _ _ _ _ _) as [[jobs d]|] eqn:E; [|done].
  apply claim_for_sessions_spec in E as (Hn & _ & Hids & _ & ->); [|done|by rewrite Hs]. subst chosen.
  intros E. apply (inj Some) in E. assert (messages w' = update_all (msg_set_status (lit "processing")) (map mj_id jobs) (messages w)
     /\ drain_jobs (mw_drain w') = jobs) as (E1 & E3) by (subst w'; destruct jobs; cbn; [by rewrite Hd|done]).
  rewrite E1, update_all_lookup, E3 by done. case_bool_decide as Hi; [|by left]. destruct (messages w !! i) as [r0|]; [|done].
  intros Er. apply (inj Some) in Er as <-. right. split; [done|]. apply list_elem_of_fmap in Hi as (j & -> & Hj). eauto.
Qed.

Lemma claim_tasks fails locked chosen w w' : drain_claim fails locked chosen w = Some w' -> mw_tasks w' = mw_tasks w /\ mw_log w' = mw_log w.
Proof.
  unfold drain_claim. destruct (mw_drain w) eqn:Hd; try done. destruct (map fst _) as [|s0 ss] eqn:Hs; [intros E; by apply (inj Some) in E as <-|].
  destruct fails; [intros E; by apply (inj Some) in E as <-|]. destruct (claim_for_sessions _ _ _ _ _) as [[[] d]|]; [..|done]; intros E; by apply (inj Some) in E as <-.
Qed.

Lemma mexec_mark m0 l w w' : once_inv w -> mark_inv m0 w -> mexec l w = Some w' -> mark_inv m0 w'.
Proof.
  intros HO HI. destruct l as [o|session|fails locked chosen| | |i tn|]; cbn [mexec]; intros E.
  - apply (inj Some) in E as <-. split; [|apply HI]. intros i r Hr Hs. cbn in *.
    destruct (api_statuses _ _ _ _ Hr) as [H|[H|[H|(r0 & H0 & H)] ] ]; rewrite Hs in H; try done. by apply (mk_rows m0 w HI i r0).
  - apply (inj Some) in E as <-. by destruct HI.
  - destruct (claim_tasks _ _ _ _ _ E) as [Et El]. split; rewrite ?Et, ?El; [|apply HI]. intros i r Hr Hs.
    destruct (claim_statuses _ _ _ _ _ _ _ (on_attempts w HO) E Hr) as [H|[H _] ]; [by apply (mk_rows m0 w HI i r)|by rewrite Hs in H].
  - unfold drain_spawn in E. destruct (mw_drain w) as [|[|job jobs]|]; try done; [apply (inj Some) in E as <-; by destruct HI|].
    destruct HI as [I1 I2]. destruct (mw_locks w !! chat_key job); apply (inj Some) in E as <-; (split; [done|]); cbn; apply Forall_app_2; try done; by apply Forall_singleton.
  - unfold drain_retain in E. destruct (mw_drain w) as [| |[|k keys]]; try done; apply (inj Some) in E as <-; by destruct HI.
  - by eapply task_mark_inv.
  - apply (inj Some) in E as <-. split; [apply HI|by constructor].
Qed.

Lemma mark_inv_new d : mark_inv (db_messages d) (worker_new d).
Proof. split; [|by constructor]. intros k x Hx Hs. right. by exists x. Qed.

(** A message that was not marked sent at the start is marked only when the
    client sent it. *)
Theorem sent_mark_true ls w d i r : map_Forall (fun _ r => is_i32 (mr_attempts r)) (db_messages d) ->
  mexecs ls (worker_new d) = Some w -> messages w !! i = Some r -> mr_status r = lit "sent" ->
  sent_ok i (mw_log w) \/ was (lit "sent") (db_messages d) i.
Proof.
  intros Hd E. assert (once_inv w /\ mark_inv (db_messages d) w) as [_ HI].
  { eapply (mexecs_ind (fun w => once_inv w /\ mark_inv (db_messages d) w)); [|split|exact E].
    - intros l w1 w2 [A B] E1. split; [by eapply mexec_once|by eapply mexec_mark].
    - by apply once_inv_new.
    - apply mark_inv_new. }
  apply (mk_rows _ w HI).
Qed.

(** ** Claimed messages are worked off *)

(** No statement of a task fails, and the process does not restart. *)
Definition undisturbed (l : MLabel) : Prop := match l with L_task _ tn => tn_fails tn = false | L_restart => False | _ => True end.

Definition in_work (i : Uuid) (w : MWorker) : Prop :=
  (exists j, j ∈ drain_jobs (mw_drain w) /\ mj_id j = i) \/ (exists t, t ∈ mw_tasks w /\ mj_id (tk_job t) = i /\ tk_pc t <> T_done).

(** Every message in processing is with the worker or a task, unless it was left
    in processing by an earlier run. *)
Definition work_inv (m0 : gmap Uuid MessageRow) (w : MWorker) : Prop :=
  forall i r, messages w !! i = Some r -> mr_status r = lit "processing" -> in_work i w \/ was (lit "processing") m0 i.

Lemma in_work_goto k i pc w t : mw_tasks w !! i = Some t -> pc <> T_done -> in_work k w ->
  in_work k (set_tasks (alter (set_pc pc) i (mw_tasks w)) w).
Proof.
  intros Ht Hpc [H|(u & Hu & Hid & Hd)]; [by left|right]. apply list_elem_of_lookup in Hu as [j Hj]. destruct (decide (i = j)) as [->|N].
  - simplify_eq. exists (set_pc pc t). split_and!; [|done|done]. apply (list_elem_of_lookup_2 _ j). cbn. by rewrite list_lookup_alter_eq, Ht.
  - exists u. split_and!; [|done|done]. apply (list_elem_of_lookup_2 _ j). cbn. by rewrite list_lookup_alter_ne.
Qed.

Lemma in_work_other k i pc w t : mw_tasks w !! i = Some t -> mj_id (tk_job t) <> k -> in_work k w ->
  in_work k (set_tasks (alter (set_pc pc) i (mw_tasks w)) w).
Proof.
  intros Ht Hk [H|(u & Hu & Hid & Hd)]; [by left|right]. apply list_elem_of_lookup in Hu as [j Hj]. exists u. split_and!; [|done|done].
  apply (list_elem_of_lookup_2 _ j). cbn. rewrite list_lookup_alter_ne; [done|]. intros ->. by simplify_eq.
Qed.

Lemma in_work_same k w w' : mw_tasks w' = mw_tasks w -> drain_jobs (mw_drain w') = drain_jobs (mw_drain w) -> in_work k w -> in_work k w'.
Proof. unfold in_work. by intros -> ->. Qed.

Section Undisturbed.
Hypothesis build_returns : forall media_key ty payload c, returns (built_by media_key ty payload c).1.

Lemma process_not_done media_key now (j : MessageJob) clients : (process_single_message media_key now (mj_session j) (job_row j) clients).1 <> T_done.
Proof.
  rewrite process_row. destruct (to_option _); [|done]. destruct (clients !! mj_session j) as [conn|]; [|done].
  pose proof (build_returns media_key (mj_message_type j) (mj_payload j) conn) as Hr. by destruct (built_by _ _ _ _) as [[[]|e| |] ?].
Qed.

(** A step that keeps the messages and every message in work. *)
Lemma work_inv_same m0 w w' : messages w' = messages w -> (forall i, in_work i w -> in_work i w') -> work_inv m0 w -> work_inv m0 w'.
Proof. intros Em Hk HI i r. rewrite Em. intros Hr Hs. destruct (HI i r Hr Hs) as [H|H]; [left; by apply Hk|by right]. Qed.

Lemma task_work_inv m0 i tn w w' : mark_inv m0 w -> work_inv m0 w -> tn_fails tn = false -> task_step i tn w = Some w' -> work_inv m0 w'.
Proof.
  intros HM HI Hf. unfold task_step. destruct (mw_tasks w !! i) as [t|] eqn:Ht; [|done].
  pose proof (Forall_lookup_1 _ _ _ _ (mk_tasks m0 w HM) Ht) as Hm. unfold task_marks in Hm.
  destruct (tk_pc t) as [| | |jid msg|status|] eqn:Hpc; try done.
  - case_match; [|done]. intros E. apply (inj Some) in E as <-. apply (work_inv_same m0 w); [done| |done]. intros k. by apply (in_work_goto _ _ _ _ t).
  - case_match; [done|]. intros E. apply (inj Some) in E as <-. apply (work_inv_same m0 w); [done| |done]. intros k. by apply (in_work_goto _ _ _ _ t).
  - pose proof (process_not_done (tn_media_key tn) (tn_now tn) (tk_job t) (mw_clients w)) as Hp.
    destruct (process_single_message _ _ _ _ _) as [pc clients]. cbn in Hp. intros E. apply (inj Some) in E as <-.
    apply (work_inv_same m0 w); [by destruct pc| |done]. intros k Hk.
    apply (in_work_same _ (goto i pc w)); [by destruct pc|by destruct pc|]. by apply (in_work_goto _ _ _ _ t).
  - intros E. apply (inj Some) in E as <-. apply (work_inv_same m0 w); [done| |done]. intros k Hk.
    eapply in_work_same; [..|eapply (in_work_goto k i _ w t Ht)]; [reflexivity|reflexivity|done|done].
  - rewrite Hf. intros E. apply (inj Some) in E as <-. intros k r Hr Hs. cbn in Hr.
    destruct (decide (k = mj_id (tk_job t))) as [->|N].
    + exfalso. rewrite lookup_alter_eq in Hr. destruct (messages w !! mj_id (tk_job t)) as [r0|]; [|done]. cbn in Hr. apply (inj Some) in Hr as <-.
      cbn in Hs. destruct Hm as [[-> _]|[-> | ->] ]; done.
    + rewrite lookup_alter_ne in Hr by done. destruct (HI k r Hr Hs) as [H|H]; [left|by right].
      eapply in_work_same; [..|eapply (in_work_other k i T_done w t Ht)]; [reflexivity|reflexivity|congruence|done].
Qed.

(** Without jobs to spawn, what is in work is with a task. *)
Lemma in_work_idle i w w' : drain_jobs (mw_drain w) = [] -> mw_tasks w' = mw_tasks w -> in_work i w -> in_work i w'.
Proof. intros Hd Et [(j & Hj & _)|H]; [rewrite Hd in Hj; by apply not_elem_of_nil in Hj|right; by rewrite Et]. Qed.

Lemma in_work_spawned i job jobs k n w w' :
  mw_drain w = D_spawn (job :: jobs) -> mw_drain w' = D_spawn jobs -> mw_tasks w' = mw_tasks w ++ [mkSendTask job k n T_wait_permit] ->
  in_work i w -> in_work i w'.
Proof.
  intros Hd Hd' Et [(j & Hj & Hi)|(t & Ht1 & Ht)]; [|right; exists t; rewrite Et; set_solver].
  rewrite Hd in Hj. apply elem_of_cons in Hj as [->|Hj]; [|left; exists j; by rewrite Hd'].
  right. eexists. rewrite Et. split; [apply elem_of_app; right; by apply list_elem_of_singleton|done].
Qed.

Lemma mexec_work m0 l w w' : once_inv w -> mark_inv m0 w -> work_inv m0 w -> undisturbed l -> mexec l w = Some w' -> work_inv m0 w'.
Proof.
  intros HO HM HI Hu. destruct l as [o|session|fails locked chosen| | |i tn|]; cbn [mexec]; try done; intros E.
  - apply (inj Some) in E as <-. intros i r Hr Hs. cbn in Hr.
    destruct (api_statuses _ _ _ _ Hr) as [H|[H|[H|(r0 & H0 & H)] ] ]; rewrite Hs in H; try done. by apply (HI i r0).
  - by apply (inj Some) in E as <-.
  - destruct (claim_tasks _ _ _ _ _ E) as [Et _]. intros i r Hr Hs.
    destruct (claim_statuses _ _ _ _ _ _ _ (on_attempts w HO) E Hr) as [H|[_ H] ]; [|by left; left].
    destruct (HI i r H Hs) as [H1|H1]; [left|by right]. eapply in_work_idle; [|done|exact H1].
    unfold drain_claim in E. by destruct (mw_drain w).
  - unfold drain_spawn in E. destruct (mw_drain w) as [|[|job jobs]|] eqn:Hd; try done.
    + apply (inj Some) in E as <-. apply (work_inv_same m0 w); [done| |done]. intros k. apply in_work_idle; [by rewrite Hd|done].
    + destruct (mw_locks w !! chat_key job); apply (inj Some) in E as <-; (apply (work_inv_same m0 w); [done| |done]);
        intros k; by eapply in_work_spawned.
  - unfold drain_retain in E. destruct (mw_drain w) as [| |[|k keys]] eqn:Hd; try done; apply (inj Some) in E as <-;
      (apply (work_inv_same m0 w); [done| |done]); intros j; apply in_work_idle; try done; by rewrite Hd.
  - by eapply task_work_inv.
Qed.

(** C26: A run of the process on any table, also one with messages that were sent
    before or left in processing by an earlier run, in which no statement of a
    task fails and the process does not restart (and the building of a message
    returns, which its parts from outside could prevent): at every moment a
    message in processing that was not so at the start is in the hands of the
    worker's loop or of a task that has not ended; hence, when these have ended,
    no message is in processing but those the run found so. *)
Theorem messages_settle ls w d : map_Forall (fun _ r => is_i32 (mr_attempts r)) (db_messages d) ->
  Forall undisturbed ls -> mexecs ls (worker_new d) = Some w ->
  (forall i r, messages w !! i = Some r -> mr_status r = lit "processing" -> in_work i w \/ was (lit "processing") (db_messages d) i)
  /\ (drain_jobs (mw_drain w) = [] -> Forall (fun t => tk_pc t = T_done) (mw_tasks w) ->
      forall i r, messages w !! i = Some r -> mr_status r = lit "processing" -> was (lit "processing") (db_messages d) i).
Proof.
  intros Hd Hu E. assert (once_inv w /\ mark_inv (db_messages d) w /\ work_inv (db_messages d) w) as (_ & _ & HI).
  { assert (once_inv (worker_new d) /\ mark_inv (db_messages d) (worker_new d) /\ work_inv (db_messages d) (worker_new d)) as H0.
    { split_and!; [by apply once_inv_new|apply mark_inv_new|]. intros k x Hx Hs. right. by exists x. }
    revert H0 E. generalize (worker_new d). induction Hu as [|l ls Hl Hls IH]; intros w0 H0 E; [by apply (inj Some) in E as <-|].
    cbn [mexecs] in E. apply bind_Some in E as (w1 & E1 & E2). apply (IH w1); [|done]. destruct H0 as (A & B & C).
    split_and!; [by eapply mexec_once|by eapply mexec_mark|by eapply mexec_work]. }
  split; [exact HI|]. intros Hidle Hdone i r Hr Hs.
  destruct (HI i r Hr Hs) as [[(j & Hj & _)|(t & Ht & _ & Hn)]|H]; [rewrite Hidle in Hj; by apply not_elem_of_nil in Hj| |done].
  rewrite Forall_forall in Hdone. by destruct (Hn (Hdone t Ht)).
Qed.
End Undisturbed.

(** ** From the request to the client *)

Lemma mexecs_app ls ls' w : mexecs (ls ++ ls') w = mexecs ls w ≫= mexecs ls'.
Proof. revert w. induction ls as [|l ls IH]; intros w; [done|]. cbn. destruct (mexec l w); [apply IH|done]. Qed.

(** Nothing of the session waits in the table. *)
Definition none_queued (session : str) (m : gmap Uuid MessageRow) : Prop :=
  map_Forall (fun _ r => is_i32 (mr_attempts r) /\ (mr_session r = session -> mr_status r <> lit "queued")) m.

(** A claim of the only message that waits. *)
Lemma claim_only session d id r m : db_messages d = <[id := r]> m -> none_queued session m -> mr_status r = lit "queued" -> mr_session r = session -> mr_attempts r = 0 ->
  exists d', claim_for_sessions [session] BATCH [] [id] d = Some ([job_of_row (id, msg_set_status (lit "processing") r)], d')
    /\ db_messages d' !! id = Some (msg_set_status (lit "processing") r).
Proof.
  intros Hd Hm Hs Hse Ha.
  assert (forall k x, <[id := r]> m !! k = Some x -> is_i32 (mr_attempts x) /\ (message_queued [session] x = true -> k = id)) as Hall.
  { intros k x [[<- <-]|[Hk Hx] ]%lookup_insert_Some; [split; [rewrite Ha; unfold is_i32; lia|done]|].
    destruct (Hm k x Hx) as [Hi Hn]. split; [done|]. unfold message_queued. intros Hq. exfalso. cbn [existsb] in Hq. rewrite orb_false_r in Hq.
    apply andb_prop in Hq as [H1 H2]. destruct (bytes_eqb_spec (mr_status x) (lit "queued")); [|done].
    by destruct (bytes_eqb_spec (mr_session x) session) as [Hx1|]; [apply Hn in Hx1|]. }
  destruct (claim_for_sessions [session] BATCH [] [id] d) as [[jobs d']|] eqn:E.
  - apply claim_for_sessions_spec in E as (_ & _ & Hids & Hrow & ->); [|rewrite Hd; intros k x Hx; by apply (Hall k)|done].
    destruct jobs as [|j [|]]; try done. injection Hids as Hj. destruct (Hrow j ltac:(set_solver)) as (r0 & H0 & _ & ->).
    rewrite Hj, Hd, lookup_insert_eq in H0. apply (inj Some) in H0 as <-. rewrite Hj. eexists. split; [done|]. cbn. rewrite Hd.
    by rewrite lookup_alter_eq, lookup_insert_eq.
  - exfalso. unfold claim_for_sessions in E. destruct (valid_choice _ _ _ _) eqn:V; [done|]. apply not_true_iff_false in V. apply V, valid_choice_spec.
    assert (candidates (message_queued [session]) [] (db_messages d) = {[id := r]}) as ->.
    { apply map_eq. intros k. apply option_eq. intros x. rewrite candidates_lookup, Hd, lookup_singleton_Some. split.
      - intros (Hx & Hq & _). destruct (Hall k x Hx) as [_ Hk]. specialize (Hk Hq). subst k. rewrite lookup_insert_eq in Hx. by apply (inj Some) in Hx.
      - intros [<- <-]. rewrite lookup_insert_eq. split; [done|]. split; [|apply not_elem_of_nil]. unfold message_queued. rewrite Hs, Hse. cbn. by rewrite bytes_eqb_refl. }
    split_and!; [apply NoDup_singleton| |by rewrite map_size_singleton|].
    + intros k ->%list_elem_of_singleton. rewrite lookup_singleton_eq. eauto.
    + intros k x j x' _ _ [-> _]%lookup_singleton_Some. left. set_solver.
Qed.

(** The state in which only the session of a posted message is connected. *)
Definition worker_at (s : AppState) (session : str) : MWorker := mkMWorker s {[session := None]} ∅ 0 0 [] D_idle [].

Definition delivery (dr : Draw) (body : Value) (tn : Turn) : list MLabel :=
  [L_api (Op_send false dr body); L_claim false [] [dr_id dr]; L_spawn; L_spawn; L_task 0 tn; L_task 0 tn; L_task 0 tn; L_task 0 tn; L_task 0 tn].

(** C7: The way of a posted text when nothing comes between.  The worker is idle,
    without tasks, the session of the message is the one that is connected, no
    other message of that session waits in the table (whatever else is in it) and
    the new id is not in use; then the request, the next claim and the steps of
    the task that is spawned, with no failing statement and a client that sends,
    store the text, hand it to the session's client as it was posted, addressed
    to the chat, and mark the row as sent. *)
Theorem posted_text_sent dr body s tn session chat jid msg :
  none_queued session (db_messages (as_db s)) -> db_messages (as_db s) !! dr_id dr = None ->
  session_from_body body = session -> session_exists session (as_db s) = true ->
  chat_id_from_body body = Some chat -> from_str chat = Ok jid ->
  has_file body = false -> build_text_message body = Some msg -> tn_fails tn = false -> tn_sent tn = true ->
  exists w r, mexecs (delivery dr body tn) (worker_at s session) = Some w
    /\ mw_log w = [S_begin (dr_id dr) jid msg; S_end (dr_id dr) true]
    /\ messages w !! dr_id dr = Some r /\ mr_status r = lit "sent".
Proof.
  intros Hm Hfresh Hse Hex Hc Hj Hf Hb Htf Hts. set (id := dr_id dr).
  destruct (send_message lower db_error false dr body s) as [resp s1] eqn:Es.
  assert (exists payload, db_messages (as_db s1) = <[id := mkMessageRow session (Some chat) (lit "text") payload (lit "queued") (dr_now dr) 0]> (db_messages (as_db s))
            /\ build_text_message payload = Some msg) as (payload & Hd & Hp).
  { unfold send_message in Es. destruct (route_message lower body) as [e|[ty p]] eqn:Er.
    - exfalso. revert Er. unfold route_message. assert (forall k, k ∉ ["reply"; "quoted"]%string -> v_get k (normalise_reply body) = v_get k body) as Hg
        by (intros k Hk; apply normalise_reply_get; set_solver).
      unfold get_str. rewrite !Hg by set_solver. fold (has_file body) (get_str "text" body). rewrite Hf. unfold build_text_message in Hb.
      unfold non_blank. destruct (get_str "text" body) as [text|]; [|done]. change (default [] (Some text)) with text in Hb. cbn [fmap option_fmap option_map opt_filter].
      by destruct (str_is_empty (trim text)).
    - apply route_says_same in Er as [Hs [(-> & _ & _)|[_ Hf'] ] ]; [|by rewrite Hf in Hf'].
      assert (session_from_body p = session /\ chat_id_from_body p = Some chat) as [E1 E2].
      { rewrite <- Hse, <- Hc. unfold session_from_body, chat_id_from_body, v_get_or, get_str. by rewrite !(ss_get _ _ _ Hs) by set_solver. }
      apply send_message_type_spec in Es as Es'. destruct Es' as [(_ & Hmsg & _)|[H5 _] ].
      + exists p. rewrite Hmsg, E1, E2. split; [done|]. rewrite <- Hb. unfold build_text_message, get_str. by rewrite (ss_reply _ _ _ Hs), !(ss_get _ _ _ Hs) by set_solver.
      + exfalso. unfold send_message_type, insert_message in Es. rewrite E1, Hex, Hfresh in Es. rewrite (bool_decide_false (is_Some None)) in Es by (by intros []).
        cbn in Es. by injection Es as <- _. }
  destruct (claim_only session (as_db s1) id _ _ Hd Hm eq_refl eq_refl eq_refl) as (d' & Hcl & Hd').
  set (job := job_of_row _) in Hcl.
  set (w1 := worker_at s1 session). set (w2 := mkMWorker (on_db (fun _ => d') s1) {[session := None]} ∅ 0 1 [] (D_spawn [job]) []).
  set (w3 := mkMWorker (on_db (fun _ => d') s1) {[session := None]} {[chat_key job := 0%nat]} 1 1 [mkSendTask job 0 1 T_wait_permit] (D_spawn []) []).
  set (w4 := set_drain (D_retain [chat_key job]) w3). set (w7 := log_send [S_begin id jid msg] (set_tasks [mkSendTask job 0 1 (T_sending jid msg)] w4)).
  set (w9 := log_send [S_begin id jid msg; S_end id true] (set_app (on_db (message_mark_status id (lit "sent")) (mw_app w4)) (set_tasks [mkSendTask job 0 1 T_done] w4))).
  assert (mexec (L_api (Op_send false dr body)) (worker_at s session) = Some w1) as E1 by (cbn; by rewrite Es).
  assert (mexec (L_claim false [] [id]) w1 = Some w2) as E2.
  { cbn [mexec]. unfold drain_claim, w1, worker_at. cbn [mw_drain mw_clients mw_app]. rewrite map_to_list_singleton. cbn [map fst]. by rewrite Hcl. }
  assert (mexec L_spawn w2 = Some w3) as E3 by done.
  assert (mexec L_spawn w3 = Some w4) as E4
    by (unfold mexec, drain_spawn, w3; cbn [mw_drain mw_locks]; by rewrite map_to_list_singleton).
  assert (process_single_message (tn_media_key tn) (tn_now tn) (mj_session job) (job_row job) {[session := None]} = (T_sending jid msg, {[session := None]})) as Epr.
  { rewrite process_row. change (mj_chat_id job) with chat. change (mj_session job) with session. change (mj_message_type job) with (lit "text").
    change (mj_payload job) with payload. rewrite Hj. cbn [to_option]. rewrite lookup_singleton_eq. unfold build_message. rewrite bytes_eqb_refl. unfold mret. rewrite Hp.
    by rewrite insert_singleton_eq. }
  assert (mexecs (replicate 3 (L_task 0 tn)) w4 = Some w7) as E7.
  { cbn [replicate mexecs mexec]. assert (task_step 0 tn w4 = Some (set_tasks [mkSendTask job 0 1 T_wait_lock] w4)) as -> by done. cbn [mbind option_bind].
    assert (task_step 0 tn (set_tasks [mkSendTask job 0 1 T_wait_lock] w4) = Some (set_tasks [mkSendTask job 0 1 T_process] w4)) as -> by done. cbn [mbind option_bind].
    unfold task_step. cbn [set_tasks mw_tasks lookup list_lookup tk_pc tk_job mw_clients w4 set_drain w3]. rewrite Epr. done. }
  assert (mexecs (replicate 2 (L_task 0 tn)) w7 = Some w9) as E9.
  { cbn [replicate mexecs mexec]. unfold task_step at 1. cbn. rewrite Hts. unfold task_step. cbn. rewrite Htf. done. }
  exists w9, (mkMessageRow session (Some chat) (lit "text") payload (lit "sent") (dr_now dr) 0). split_and!; [|done| |done].
  - change (delivery dr body tn) with ([L_api (Op_send false dr body); L_claim false [] [id]; L_spawn; L_spawn] ++ replicate 3 (L_task 0 tn) ++ replicate 2 (L_task 0 tn)).
    rewrite mexecs_app. assert (mexecs [L_api (Op_send false dr body); L_claim false [] [id]; L_spawn; L_spawn] (worker_at s session) = Some w4) as ->
      by (cbn [mexecs]; rewrite E1; cbn [mbind option_bind]; rewrite E2; cbn [mbind option_bind]; rewrite E3; cbn [mbind option_bind]; by rewrite E4).
    cbn [mbind option_bind]. rewrite mexecs_app, E7. exact E9.
  - cbn. by rewrite lookup_alter_eq, Hd'.
Qed.
End Worker.

(** ** Concrete runs *)

#[local] Existing Instances toy_row_text toy_hkdf toy_hashes id_aes id_block toy_base64.

Definition toy_iq (q : InfoQuery) : outcome ClientIqError Node := Err (CI_ServerError 0 []).
Definition toy_get (r : HttpRequest) : outcome str HttpResponse := Err [].
Definition toy_raw (b : bytes) : outcome str (str * str) := Err [].
Abbreviation toy_mexecs := (mexecs (fun b => b) toy_iq (fun _ => []) toy_get toy_raw 0 (fun _ => []) (fun s => s) []).

Abbreviation rows w := (db_messages (as_db (mw_app w))).

Definition toy_open : SessionRow := mkSessionRow (lit "open") None None false false (V_Object []) true None.
Definition toy_db : Db := with_sessions (insert (lit "a") toy_open) db_empty.
Definition toy_draw (n : Z) : Draw := mkDraw n (n * 100 + 1) (n * 100 + 2) (seconds n).
Definition toy_text (t : string) : Value :=
  json_obj [("session", V_String (lit "a")); ("chatId", V_String (lit "1@s.whatsapp.net")); ("text", V_String (lit t)); ("reply", V_String (lit "Q"))]%string.
Definition toy_turn : Turn := mkTurn [] 0 true false.
Definition toy_post (n : Z) : MLabel := L_api (Op_send false (toy_draw n) (toy_text "hello")).
Definition task_n (i n : nat) : list MLabel := replicate n (L_task i toy_turn).

(** Two messages of a chat, claimed together and sent one after the other. *)
Definition toy_two : list MLabel :=
  [L_client (lit "a"); toy_post 1; toy_post 2; L_claim false [] [1; 2]; L_spawn; L_spawn; L_spawn] ++ task_n 1 5 ++ task_n 0 5.

Lemma sent_at_most_once_witness : exists w, toy_mexecs toy_two (worker_new toy_db) = Some w /\ begun (mw_log w) = [2; 1] /\ NoDup (begun (mw_log w)).
Proof.
  eexists. split; [vm_compute; reflexivity|]. split; [reflexivity|].
  eapply (sent_at_most_once (fun b => b) toy_iq (fun _ => []) toy_get toy_raw 0 (fun _ => []) (fun s => s) [] toy_db toy_two);
    [apply map_Forall_empty|vm_compute; reflexivity].
Defined.

Lemma sent_mark_true_witness : exists w r, toy_mexecs toy_two (worker_new toy_db) = Some w /\ (rows w) !! 1 = Some r
  /\ (sent_ok 1 (mw_log w) \/ was (lit "sent") (db_messages toy_db) 1).
Proof.
  eexists _, _. split; [vm_compute; reflexivity|]. split; [vm_compute; reflexivity|].
  eapply (sent_mark_true (fun b => b) toy_iq (fun _ => []) toy_get toy_raw 0 (fun _ => []) (fun s => s) [] toy_two _ toy_db 1);
    [apply map_Forall_empty|vm_compute; reflexivity|vm_compute; reflexivity|reflexivity].
Defined.

Lemma chat_sends_exclusive_witness :
  exists w t t', toy_mexecs (take 11 toy_two) (worker_new toy_db) = Some w /\ mw_tasks w !! 0%nat = Some t /\ mw_tasks w !! 1%nat = Some t'
    /\ holds_lock (tk_pc t') = true /\ holds_lock (tk_pc t) && holds_lock (tk_pc t') = false.
Proof.
  eexists _, _, _. split; [vm_compute; reflexivity|]. split; [vm_compute; reflexivity|]. split; [vm_compute; reflexivity|]. split; [reflexivity|].
  eapply (fun w E => proj2 (chat_sends_exclusive (fun b => b) toy_iq (fun _ => []) toy_get toy_raw 0 (fun _ => []) (fun s => s) [] toy_db (take 11 toy_two) w E) 0%nat 1%nat);
    [vm_compute; reflexivity|reflexivity|reflexivity|discriminate|reflexivity|reflexivity].
Defined.

Lemma toy_build_returns media_key ty payload c :
  returns (build_message (fun b => b) toy_iq (fun _ => []) toy_get toy_raw 0 (fun _ => []) media_key ty payload c).1.
Proof. by apply build_message_returns. Qed.

(** A table with a message of an earlier run that was left in processing. *)
Definition toy_left : Db :=
  with_messages (insert 9 (mkMessageRow (lit "a") (Some (lit "1@s.whatsapp.net")) (lit "text") V_Null (lit "processing") 0 1)) toy_db.

Lemma messages_settle_witness : exists w, toy_mexecs toy_two (worker_new toy_left) = Some w /\ size (rows w) = 3%nat
  /\ forall i r, rows w !! i = Some r -> mr_status r = lit "processing" -> was (lit "processing") (db_messages toy_left) i.
Proof.
  eexists. split; [vm_compute; reflexivity|]. split; [reflexivity|].
  refine (proj2 (messages_settle (fun b => b) toy_iq (fun _ => []) toy_get toy_raw 0 (fun _ => []) (fun s => s) [] toy_build_returns toy_two _ toy_left _ _ _) _ _);
    [apply map_Forall_singleton; unfold is_i32; cbn; lia|repeat constructor|vm_compute; reflexivity|reflexivity|repeat constructor].
Defined.

Lemma posted_text_sent_witness : exists w r,
  toy_mexecs (delivery (toy_draw 1) (toy_text "hello") toy_turn) (worker_at (mkAppState toy_left ∅ 0) (lit "a")) = Some w
  /\ (rows w) !! 1 = Some r /\ mr_status r = lit "sent".
Proof.
  edestruct (posted_text_sent (fun b => b) toy_iq (fun _ => []) toy_get toy_raw 0 (fun _ => []) (fun s => s) [] (toy_draw 1) (toy_text "hello")
               (mkAppState toy_left ∅ 0) toy_turn (lit "a") (lit "1@s.whatsapp.net")) as (w & r & H1 & _ & H2 & H3);
    [apply map_Forall_singleton; split; [unfold is_i32; cbn; lia|discriminate]|reflexivity|reflexivity|reflexivity|reflexivity
    |vm_compute; reflexivity|reflexivity|vm_compute; reflexivity|reflexivity|reflexivity|].
  exists w, r. auto.
Defined.

(** Messages of a chat that were not claimed together: the lock of the first was
    dropped before its task took it, so the second gets another one, and both
    are being sent at once; the later one can even be sent first. *)
Definition toy_overlap : list MLabel :=
  [L_client (lit "a"); toy_post 1; L_claim false [] [1]; L_spawn; L_spawn; L_retain; L_retain; toy_post 2; L_claim false [] [2]; L_spawn; L_spawn]
  ++ task_n 1 3 ++ task_n 0 3.

Theorem chat_sends_overlap : exists w t t', toy_mexecs toy_overlap (worker_new toy_db) = Some w
  /\ mw_tasks w = [t; t'] /\ chat_key (tk_job t) = chat_key (tk_job t')
  /\ holds_lock (tk_pc t) && holds_lock (tk_pc t') = true /\ begun (mw_log w) = [2; 1].
Proof. eexists _, _, _. split; [vm_compute; reflexivity|]. repeat split; reflexivity. Qed.
