(* ===== verification/ServerAuth.v ===== *)
(** * Who may use the REST server: [src/server/mod.rs]

    When a password is set, a request needs it in a header, or the cookie that
    the login page sets, except for a few paths.

    The theorems: a request passes exactly when its path is one of eleven, its
    Cookie header has, by a grammar of that header, the login's cookie with the
    digest of the password in hexadecimal, or one of two headers has a password
    of that digest; the cookie of a login passes, whenever it is presented; a
    cookie without a value before it hides it. *)

From S2P Require Import Prelude RustStd Curve Jid Node Attrs Crypto KeyServer MessageBuild.

(** ** Headers *)

(** The headers of a request by their lower-case names; [HeaderValue::to_str]
    takes visible ASCII. *)
Abbreviation Headers := (index_map bytes) (only parsing).
Definition is_visible (c : u8) : bool := in_range 32 126 c || (c =? 9).
Definition header_str (name : string) (h : Headers) : option str :=
  match im_get (lit name) h with Some v => if forallb is_visible v then Some v else None | None => None end.

Definition EQUALS : u8 := 61.

(** [cookie.split(';')] *)
Fixpoint split_on (c : u8) (s : str) : list str :=
  match s with
  | [] => [[]]
  | x :: s => match split_on c s with
              | p :: ps => if x =? c then [] :: p :: ps else (x :: p) :: ps
              | [] => [[x]]
              end
  end.

(** A part without a value makes the whole search fail. *)
Fixpoint find_cookie (name : str) (parts : list str) : option str :=
  match parts with
  | [] => None
  | part :: parts =>
      match split_once EQUALS (trim part) with
      | None => None
      | Some (key, value) => if trim key =s name then Some (trim value) else find_cookie name parts
      end
  end.

Definition get_cookie (h : Headers) (name : string) : option str :=
  match header_str "cookie" h with Some cookie => find_cookie (lit name) (split_on SEMICOLON cookie) | None => None end.

(** ** Digests *)

Definition constant_time_eq_bytes (a b : bytes) : bool := fold_left (fun diff xy => Z.lor diff (Z.lxor xy.1 xy.2)) (zip a b) 0 =? 0.

Definition hex_digit (n : Z) : u8 := if n <? 10 then 48 + n else 87 + n.
Definition hex_32 (value : bytes) : str := flat_map (fun b => [hex_digit (b / 16); hex_digit (b mod 16)]) value.

(** [u8::from_str_radix(s, 16)] on two characters *)
Definition parse_hex_u8 (a b : u8) : option u8 :=
  if a =? PLUS then hex_value b
  else match hex_value a, hex_value b with Some x, Some y => Some (x * 16 + y) | _, _ => None end.

Fixpoint parse_hex_pairs (s : str) : option bytes :=
  match s with
  | a :: b :: s => match parse_hex_u8 a b, parse_hex_pairs s with Some x, Some xs => Some (x :: xs) | _, _ => None end
  | _ => Some []
  end.

(** On ASCII, as header values are: elsewhere the slices could cut a character. *)
Definition parse_hex_32 (value : str) : option bytes := if (length value =? 64)%nat then parse_hex_pairs value else None.

Section Auth.
Context `{HS : !Hashes}.

Definition hash_password (value : str) : bytes := sha Sha256 value.

(** ** The middleware *)

Definition open_paths : list string :=
  ["/auth/login"; "/auth/logout"; "/healthz"; "/readyz"; "/health"; "/ping"; "/metrics"; "/openapi.json"; "/docs/openapi.json"; "/swagger"; "/docs/swagger"]%string.

Definition is_open (path : str) : bool := existsb (fun p => path =s lit p) open_paths.

(** [true]: the request goes on to its handler; [false]: 401 and the login page *)
Definition auth_middleware (expected : option bytes) (path : str) (h : Headers) : bool :=
  match expected with
  | None => true
  | Some expected_hash =>
      if is_open path then true
      else
        let by_cookie := match get_cookie h "chatwarp_auth" with
                         | Some cookie => match parse_hex_32 cookie with Some c => constant_time_eq_bytes c expected_hash | None => false end
                         | None => false
                         end in
        if by_cookie then true
        else
          let header_password := header_str "x-chatwarp-password" h in
          let bearer_password := match header_str "authorization" h with Some v => strip_prefix (lit "Bearer ") v | None => None end in
          match (match header_password with Some p => Some p | None => bearer_password end) with
          | Some p => constant_time_eq_bytes (hash_password p) expected_hash
          | None => false
          end
  end.

(** ** Login *)

Inductive LoginAnswer := Login_open | Login_ok (set_cookie : str) | Login_refused.

Definition login_cookie (expected_hash : bytes) (session_ttl_seconds : u64) : str :=
  lit "chatwarp_auth=" ++ hex_32 expected_hash ++ lit "; Max-Age=" ++ show_uint session_ttl_seconds ++ lit "; HttpOnly; SameSite=Lax; Path=/".

Definition login_handler (expected : option bytes) (session_ttl_seconds : u64) (password : str) : LoginAnswer :=
  match expected with
  | None => Login_open
  | Some expected_hash =>
      if constant_time_eq_bytes (hash_password password) expected_hash then Login_ok (login_cookie expected_hash session_ttl_seconds)
      else Login_refused
  end.

Definition logout_cookie : str := lit "chatwarp_auth=; Max-Age=0; HttpOnly; SameSite=Lax; Path=/".

(** What a browser sends back of a cookie that was set. *)
Definition cookie_pair (set_cookie : str) : str := match split_once SEMICOLON set_cookie with Some (p, _) => p | None => set_cookie end.

(** ** Lemmas *)

Lemma constant_time_eq_spec a b : length a = length b -> constant_time_eq_bytes a b = true <-> a = b.
Proof.
  intros Hl. unfold constant_time_eq_bytes.
  assert (forall acc, fold_left (fun diff xy => Z.lor diff (Z.lxor xy.1 xy.2)) (zip a b) acc = 0 <-> acc = 0 /\ a = b) as H.
  { revert b Hl. induction a as [|x a IH]; intros [|y b] Hl acc; try done; cbn; [naive_solver|].
    rewrite IH by (by injection Hl). cbn. rewrite Z.lor_eq_0_iff, Z.lxor_eq_0_iff. naive_solver. }
  rewrite Z.eqb_eq, H. naive_solver.
Qed.

Lemma parse_hex_pairs_length s v : parse_hex_pairs s = Some v -> (length v = length s / 2)%nat.
Proof.
  revert v. induction s as [s IH] using (induction_ltof1 _ (@length Z)); unfold ltof in IH. intros v. destruct s as [|a [|b s]]; cbn [parse_hex_pairs].
  - intros E. by apply (inj Some) in E as <-.
  - intros E. by apply (inj Some) in E as <-.
  - destruct (parse_hex_u8 a b); [|done]. destruct (parse_hex_pairs s) as [xs|] eqn:E; [|done]. intros E'. apply (inj Some) in E' as <-.
    apply IH in E; [|cbn; lia]. cbn [length]. rewrite E. change (S (S (length s))) with (1 * 2 + length s)%nat. by rewrite (Nat.div_add_l 1 2 (length s)) by lia.
Qed.

Lemma parse_hex_32_length s v : parse_hex_32 s = Some v -> length v = 32%nat.
Proof. unfold parse_hex_32. destruct (Nat.eqb_spec (length s) 64) as [E|]; [|done]. intros H. by rewrite (parse_hex_pairs_length _ _ H), E. Qed.

Lemma hex_value_digit n : 0 <= n < 16 -> hex_value (hex_digit n) = Some n /\ hex_digit n <> PLUS /\ 33 <= hex_digit n <= 126.
Proof.
  intros Hn. assert (n ∈ map Z.of_nat (seq 0 16)) as Hin.
  { apply list_elem_of_fmap. exists (Z.to_nat n). split; [lia|]. apply elem_of_seq. lia. }
  clear Hn. cbn in Hin. repeat (apply elem_of_cons in Hin as [->|Hin]; [vm_compute; repeat split; congruence|]). by apply not_elem_of_nil in Hin.
Qed.

Lemma parse_hex_32_roundtrip v : Forall is_byte v -> length v = 32%nat -> parse_hex_32 (hex_32 v) = Some v.
Proof.
  intros Hv Hl. unfold parse_hex_32. assert (length (hex_32 v) = 2 * length v)%nat as ->
    by (clear; induction v as [|b v IH]; [done|]; cbn [hex_32 flat_map app length]; fold (hex_32 v); lia). rewrite Hl. cbn [Nat.eqb Nat.mul Nat.add].
  clear Hl. induction Hv as [|b v Hb Hv IH]; [done|]. cbn [hex_32 flat_map app parse_hex_pairs]. fold (hex_32 v). rewrite IH. unfold is_byte in Hb.
  destruct (hex_value_digit (b / 16)) as (E1 & N1 & _); [split; [apply Z.div_pos; lia|apply Z.div_lt_upper_bound; lia]|].
  destruct (hex_value_digit (b mod 16)) as (E2 & _); [apply Z.mod_pos_bound; lia|].
  unfold parse_hex_u8. rewrite (proj2 (Z.eqb_neq _ _) N1), E1, E2. do 2 f_equal. pose proof (Z.div_mod b 16). lia.
Qed.

(** Text of visible characters without blanks. *)
Definition solid (s : str) : Prop := Forall (fun c => 33 <= c <= 126) s.

Lemma solid_of s : forallb (in_range 33 126) s = true -> solid s.
Proof.
  intros H. apply Forall_forall. intros c Hc%list_elem_of_In. rewrite forallb_forall in H. apply H in Hc. unfold in_range in Hc.
  apply andb_prop in Hc as [H1%Z.leb_le H2%Z.leb_le]. done.
Qed.

Definition blank_first (w : bytes) : bool := match w with x :: _ => (x <? 33) || (126 <? x) | [] => false end.

Lemma trim_with_solid fuel seqs s : forallb blank_first seqs = true -> solid s -> trim_with fuel seqs s = s.
Proof.
  intros Hw Hs. destruct fuel as [|fuel]; [done|]. cbn [trim_with]. assert (List.find (fun w => starts_with w s) seqs = None) as ->; [|done].
  induction seqs as [|w seqs IH]; [done|]. cbn [forallb] in Hw. apply andb_prop in Hw as [Hx Hw]. cbn [List.find]. destruct w as [|x w]; [done|].
  destruct Hs as [|c s Hc Hs]; cbn [starts_with]; [by apply IH|]. cbn [blank_first] in Hx.
  destruct (Z.eqb_spec x c) as [->|]; cbn [andb]; [|by apply IH]. apply orb_prop in Hx as [Hx%Z.ltb_lt|Hx%Z.ltb_lt]; lia.
Qed.

Lemma trim_solid s : solid s -> trim s = s.
Proof.
  intros Hs. unfold trim. rewrite (trim_with_solid _ white_space s) by done.
  rewrite (trim_with_solid _ (map (@rev Z) white_space) (rev s)); [apply rev_involutive|done|by apply Forall_rev].
Qed.

Lemma split_on_free c s : str_free c s = true -> split_on c s = [s].
Proof.
  induction s as [|x s IH]; [done|]. unfold str_free in *. cbn [forallb split_on]. intros [H1 H2]%andb_prop. rewrite IH by done.
  apply negb_true_iff in H1. by rewrite (Z.eqb_sym x c), H1.
Qed.

Lemma split_on_app c a b : str_free c a = true -> split_on c (a ++ c :: b) = a :: split_on c b.
Proof.
  induction a as [|x a IH]; unfold str_free in *; cbn [forallb app].
  - intros _. cbn [split_on]. rewrite Z.eqb_refl. destruct (split_on c b) eqn:E; [|done]. destruct b as [|y b]; [done|]. cbn in E. by destruct (split_on c b) as [|? ?]; [|destruct (y =? c)].
  - intros [H1 H2]%andb_prop. cbn [split_on]. rewrite IH by done. apply negb_true_iff in H1. by rewrite (Z.eqb_sym x c), H1.
Qed.

Lemma hex_32_solid v : Forall is_byte v -> solid (hex_32 v) /\ str_free SEMICOLON (hex_32 v) = true.
Proof.
  induction 1 as [|b v Hb Hv [IH1 IH2] ]; [by split; [constructor|]|]. unfold is_byte in Hb. cbn [hex_32 flat_map]. fold (hex_32 v).
  assert (forall n, 0 <= n < 16 -> 33 <= hex_digit n <= 126 /\ (SEMICOLON =? hex_digit n) = false) as Hd.
  { intros n Hn. destruct (hex_value_digit n Hn) as (E & _ & H). split; [done|]. apply Z.eqb_neq. intros E'. by rewrite <- E' in E. }
  assert (0 <= b / 16 < 16) as H1 by (split; [apply Z.div_pos; lia|apply Z.div_lt_upper_bound; lia]).
  assert (0 <= b mod 16 < 16) as H2 by (apply Z.mod_pos_bound; lia).
  destruct (Hd _ H1) as [A1 A2], (Hd _ H2) as [B1 B2]. split; [constructor; [done|]; by constructor|].
  unfold str_free in *. cbn [app forallb]. by rewrite A2, B2, IH2.
Qed.

(** ** What a request must carry, by the text of its headers *)

(** Text of visible ASCII, its blanks, and text without blanks at its ends. *)
Definition visible (c : Z) : Prop := 32 <= c <= 126 \/ c = 9.
Definition blank (c : Z) : bool := (c =? 32) || (c =? 9).
Definition blanks (s : str) : Prop := Forall (fun c => blank c = true) s.
Definition tight (s : str) : Prop := (forall c t, s = c :: t -> blank c = false) /\ (forall c t, s = t ++ [c] -> blank c = false).

(** A cookie of the header: a name and a value around an equals sign, the first
    one, each with blanks on both sides. *)
Definition assigns (part name value : str) : Prop :=
  exists w1 w2 w3 w4, part = w1 ++ name ++ w2 ++ [EQUALS] ++ w3 ++ value ++ w4
    /\ blanks w1 /\ blanks w2 /\ blanks w3 /\ blanks w4 /\ EQUALS ∉ name /\ tight name /\ tight value.

(** The parts of the header, with semicolons between them. *)
Fixpoint semicolons (parts : list str) : str :=
  match parts with
  | [] => []
  | [p] => p
  | p :: ps => p ++ [SEMICOLON] ++ semicolons ps
  end.

(** The value of the first cookie of that name, where every part before it is a
    cookie of another name. *)
Definition first_cookie (header name value : str) : Prop :=
  exists before part after, header = semicolons (before ++ part :: after)
    /\ Forall (fun p => SEMICOLON ∉ p) (before ++ part :: after)
    /\ Forall (fun p => exists n v, assigns p n v /\ n <> name) before
    /\ assigns part name value.

(** Hexadecimal digits, and bytes written with two of them; a plus sign and a
    digit are read as that digit. *)
Definition is_hex (c : Z) (n : nat) : Prop := lit "0123456789abcdef" !! n = Some c \/ lit "0123456789ABCDEF" !! n = Some c.
Definition hex_byte (b c1 c2 : Z) : Prop :=
  (exists x y, is_hex c1 x /\ is_hex c2 y /\ b = 16 * Z.of_nat x + Z.of_nat y)
  \/ (lit "+" = [c1] /\ exists y, is_hex c2 y /\ b = Z.of_nat y).
Inductive hex_text : bytes -> str -> Prop :=
| hex_nil : hex_text [] []
| hex_cons b bs c1 c2 s : hex_byte b c1 c2 -> hex_text bs s -> hex_text (b :: bs) (c1 :: c2 :: s).

(** A header that can be read as text. *)
Definition has_header (h : Headers) (name : string) (v : str) : Prop := im_get (lit name) h = Some v /\ Forall visible v.

(** The two places of a password; the second counts without a readable first. *)
Definition presents (h : Headers) (p : str) : Prop :=
  has_header h "x-chatwarp-password" p
  \/ (~ exists q, has_header h "x-chatwarp-password" q) /\ has_header h "authorization" (lit "Bearer " ++ p).

(** ** Lemmas: blanks *)

Lemma visible_spec c : is_visible c = true <-> visible c.
Proof. unfold is_visible, visible, in_range. rewrite orb_true_iff, andb_true_iff, !Z.leb_le, Z.eqb_eq. done. Qed.

Lemma all_visible s : forallb is_visible s = true <-> Forall visible s.
Proof.
  rewrite forallb_forall, Forall_forall. split; intros H c Hc; apply visible_spec, H; by apply list_elem_of_In.
Qed.

Lemma header_str_spec name h v : header_str name h = Some v <-> has_header h name v.
Proof.
  unfold header_str, has_header. rewrite <- all_visible. destruct (im_get (lit name) h) as [u|]; [|naive_solver].
  destruct (forallb is_visible u) eqn:E; (split; [intros H|intros [H Hv]]); simplify_eq; try done; congruence.
Qed.

Fixpoint lstrip (s : str) : str := match s with c :: t => if blank c then lstrip t else s | [] => [] end.
Definition rstrip (s : str) : str := rev (lstrip (rev s)).

Lemma lstrip_split s : exists w, blanks w /\ s = w ++ lstrip s.
Proof.
  induction s as [|c s (w & Hw & E)]; [by exists []; split; [constructor|]|]. cbn [lstrip]. destruct (blank c) eqn:Hc.
  - exists (c :: w). split; [by constructor|]. cbn. by rewrite <- E.
  - exists []. split; [constructor|done].
Qed.
Lemma lstrip_head s c t : lstrip s = c :: t -> blank c = false.
Proof. induction s as [|x s IH]; [done|]. cbn. destruct (blank x) eqn:E; [done|]. by intros [= <- _]. Qed.
Lemma lstrip_blanks w s : blanks w -> lstrip (w ++ s) = lstrip s.
Proof. induction 1 as [|c w Hc _ IH]; [done|]. cbn. by rewrite Hc. Qed.
Lemma lstrip_tight s : (forall c t, s = c :: t -> blank c = false) -> lstrip s = s.
Proof. destruct s as [|c s]; [done|]. intros H. cbn. by rewrite (H c s eq_refl). Qed.
Lemma lstrip_stop x c y : blank c = false -> lstrip (x ++ c :: y) = lstrip x ++ c :: y.
Proof. intros Hc. induction x as [|z x IH]; cbn; [by rewrite Hc|]. by destruct (blank z). Qed.
Lemma rstrip_split s : exists w, blanks w /\ s = rstrip s ++ w.
Proof.
  destruct (lstrip_split (rev s)) as (w & Hw & E). exists (rev w). split; [by apply Forall_rev|].
  unfold rstrip. rewrite <- rev_app_distr, <- E. by rewrite rev_involutive.
Qed.
Lemma rstrip_stop x c y : blank c = false -> rstrip (x ++ c :: y) = x ++ c :: rstrip y.
Proof.
  intros Hc. unfold rstrip. rewrite rev_app_distr. cbn [rev]. rewrite <- app_assoc. cbn [app]. rewrite lstrip_stop by done.
  rewrite rev_app_distr. cbn [rev]. rewrite rev_involutive, <- app_assoc. done.
Qed.

(** [trim] on visible text: blanks are spaces and tabs. *)
Lemma find_white seqs c s :
  forallb (fun w => match w with [x] => true | x :: _ => 126 <? x | [] => false end) seqs = true -> visible c ->
  (forall x, [x] ∈ seqs -> visible x -> blank x = true) ->
  match List.find (fun w => starts_with w (c :: s)) seqs with
  | Some w => w = [c] /\ blank c = true
  | None => [c] ∉ seqs
  end.
Proof.
  intros Hs Hc Hb. induction seqs as [|w seqs IH]; [apply not_elem_of_nil|]. cbn [forallb] in Hs. apply andb_prop in Hs as [Hw Hs].
  specialize (IH Hs). cbn [List.find]. destruct w as [|x w]; [done|]. cbn [starts_with].
  destruct (Z.eqb_spec x c) as [->|Hne]; cbn [andb].
  - destruct w as [|y w]; [split; [done|apply Hb; [apply list_elem_of_here|done] ]|]. apply Z.ltb_lt in Hw. unfold visible in Hc. lia.
  - assert (forall x0, [x0] ∈ seqs -> visible x0 -> blank x0 = true) as Hb' by (intros; apply Hb; [by apply list_elem_of_further|done]).
    specialize (IH Hb'). destruct (List.find _ seqs); [done|]. intros [E|Hin]%elem_of_cons; [by injection E as E _|done].
Qed.

Lemma trim_with_visible seqs fuel s :
  forallb (fun w => match w with [x] => true | x :: _ => 126 <? x | [] => false end) seqs = true ->
  (forall x, [x] ∈ seqs -> visible x -> blank x = true) -> [32] ∈ seqs -> [9] ∈ seqs ->
  Forall visible s -> (length s <= fuel)%nat -> trim_with fuel seqs s = lstrip s.
Proof.
  intros Hs Hb H32 H9 Hv. revert fuel. induction Hv as [|c s Hc Hv IH]; intros [|fuel] Hf; cbn in Hf; try lia; cbn [trim_with]; try done.
  - destruct (List.find _ seqs) as [w|] eqn:E; [|done]. apply List.find_some in E as [Hin Hw].
    rewrite forallb_forall in Hs. specialize (Hs w Hin). by destruct w.
  - pose proof (find_white seqs c s Hs Hc Hb) as Hw. destruct (List.find _ seqs) as [w|].
    + destruct Hw as [-> Hbc]. cbn [length drop lstrip]. rewrite Hbc. apply IH. lia.
    + cbn [lstrip]. destruct (blank c) eqn:Hbc; [|done]. unfold blank in Hbc. apply orb_prop in Hbc as [->%Z.eqb_eq| ->%Z.eqb_eq]; done.
Qed.

Lemma white_visible seqs x : seqs = white_space \/ seqs = map (@rev Z) white_space -> [x] ∈ seqs -> visible x -> blank x = true.
Proof.
  intros Hs Hin Hv. assert (x ∈ [9; 10; 11; 12; 13; 32]) as Hx.
  { destruct Hs as [-> | ->]; apply list_elem_of_In in Hin; vm_compute in Hin;
      repeat (destruct Hin as [Hin|Hin]; [first [discriminate Hin | injection Hin as <-; set_solver]|]); done. }
  unfold visible in Hv. repeat (apply elem_of_cons in Hx as [->|Hx]; [first [reflexivity | lia]|]). by apply not_elem_of_nil in Hx.
Qed.

Lemma lstrip_Forall (P : Z -> Prop) s : Forall P s -> Forall P (lstrip s).
Proof. induction 1 as [|c s Hc Hs IH]; [constructor|]. cbn. destruct (blank c); [done|by constructor]. Qed.

Lemma trim_visible s : Forall visible s -> trim s = rstrip (lstrip s).
Proof.
  intros Hv. assert (forall l : list bytes, [32] ∈ l /\ [9] ∈ l <-> existsb (fun w => w =s [32]) l && existsb (fun w => w =s [9]) l = true) as Hin.
  { intros l. rewrite andb_true_iff, !existsb_exists. split.
    - intros [H1 H2]. split; [exists [32]|exists [9] ]; (split; [by apply list_elem_of_In|reflexivity]).
    - intros [(w1 & H1 & E1) (w2 & H2 & E2)]. destruct (bytes_eqb_spec w1 [32]) as [->|]; [|done]. destruct (bytes_eqb_spec w2 [9]) as [->|]; [|done].
      split; by apply list_elem_of_In. }
  unfold trim, rstrip. rewrite (trim_with_visible white_space).
  - f_equal. apply (trim_with_visible (map (@rev Z) white_space)).
    + vm_compute. reflexivity.
    + intros x. apply white_visible. by right.
    + apply (Hin (map (@rev Z) white_space)). vm_compute. reflexivity.
    + apply (Hin (map (@rev Z) white_space)). vm_compute. reflexivity.
    + by apply Forall_rev, lstrip_Forall.
    + by rewrite length_rev.
  - vm_compute. reflexivity.
  - intros x. apply white_visible. by left.
  - apply (Hin white_space). vm_compute. reflexivity.
  - apply (Hin white_space). vm_compute. reflexivity.
  - done.
  - done.
Qed.

(** What is left when the blanks at both ends are taken away. *)
Lemma strip_spec s t : rstrip (lstrip s) = t <-> exists w1 w2, s = w1 ++ t ++ w2 /\ blanks w1 /\ blanks w2 /\ tight t.
Proof.
  split.
  - intros <-. destruct (lstrip_split s) as (w1 & H1 & E1), (rstrip_split (lstrip s)) as (w2 & H2 & E2).
    exists w1, w2. split_and!; [by rewrite <- E2|done|done|]. split.
    + intros c t E. rewrite E in E2. by eapply lstrip_head.
    + intros c t E. apply (f_equal (@rev Z)) in E. unfold rstrip in E. rewrite rev_involutive, rev_app_distr in E. exact (lstrip_head _ _ _ E).
  - intros (w1 & w2 & -> & H1 & H2 & [T1 T2]). rewrite lstrip_blanks by done. destruct t as [|c t].
    + cbn. assert (lstrip w2 = []) as -> by (rewrite <- (app_nil_r w2); by rewrite lstrip_blanks). done.
    + rewrite lstrip_tight by (intros c' t'; cbn; intros [= <- _]; by eapply T1). unfold rstrip. rewrite rev_app_distr, lstrip_blanks by (by apply Forall_rev).
      rewrite lstrip_tight; [apply rev_involutive|]. intros c' t' E. apply (f_equal (@rev Z)) in E. rewrite rev_involutive in E. by eapply T2.
Qed.

(** ** Lemmas: cookies *)

Lemma str_free_elem c s : str_free c s = true <-> c ∉ s.
Proof.
  unfold str_free. rewrite forallb_forall. split.
  - intros H Hc%list_elem_of_In. specialize (H c Hc). cbn in H. by rewrite Z.eqb_refl in H.
  - intros H x Hx%list_elem_of_In. apply negb_true_iff, Z.eqb_neq. by intros <-.
Qed.

Lemma blanks_no_equals w : blanks w -> EQUALS ∉ w.
Proof. intros Hw Hin. pose proof (proj1 (Forall_forall _ _) Hw _ Hin) as H. done. Qed.

Lemma strip_rstrip y : rstrip (lstrip (rstrip y)) = rstrip (lstrip y).
Proof.
  symmetry. apply strip_spec. destruct (rstrip_split y) as (w & Hw & E).
  destruct (proj1 (strip_spec (rstrip y) _) eq_refl) as (w1 & w2 & E' & H1 & H2 & Ht). exists w1, (w2 ++ w).
  split_and!; [|done|by apply Forall_app_2|done]. rewrite E at 1. rewrite E' at 1. by rewrite <- !app_assoc.
Qed.

Lemma cookie_part x y : EQUALS ∉ x -> Forall visible (x ++ EQUALS :: y) ->
  exists k v, split_once EQUALS (trim (x ++ EQUALS :: y)) = Some (k, v) /\ trim k = rstrip (lstrip x) /\ trim v = rstrip (lstrip y).
Proof.
  intros Hx Hv. exists (lstrip x), (rstrip y). apply Forall_app in Hv as Hv'. destruct Hv' as [Vx Vy]. apply Forall_cons in Vy as [_ Vy].
  rewrite trim_visible, lstrip_stop, rstrip_stop by done. split_and!.
  - apply split_once_app, str_free_elem. intros Hin. apply Hx. destruct (lstrip_split x) as (w & _ & ->). apply elem_of_app. by right.
  - rewrite trim_visible by (by apply lstrip_Forall). by rewrite (lstrip_tight (lstrip x)) by apply lstrip_head.
  - rewrite trim_visible by (by apply Forall_rev, lstrip_Forall, Forall_rev). apply strip_rstrip.
Qed.

Lemma assigns_spec part name value : Forall visible part ->
  assigns part name value <-> exists k v, split_once EQUALS (trim part) = Some (k, v) /\ trim k = name /\ trim v = value.
Proof.
  intros Hp. split.
  - intros (w1 & w2 & w3 & w4 & E & H1 & H2 & H3 & H4 & Hn & Tn & Tv).
    assert (part = (w1 ++ name ++ w2) ++ EQUALS :: (w3 ++ value ++ w4)) as E' by (rewrite E; cbn [app]; by rewrite <- !app_assoc).
    rewrite E' in Hp |- *. destruct (cookie_part (w1 ++ name ++ w2) (w3 ++ value ++ w4)) as (k & v & Es & Ek & Ev); [|done|].
    + rewrite !elem_of_app. intros [Hin|[Hin|Hin] ]; [by apply (blanks_no_equals w1)|done|by apply (blanks_no_equals w2)].
    + exists k, v. rewrite Ek, Ev. split_and!; [done|apply strip_spec; by exists w1, w2|apply strip_spec; by exists w3, w4].
  - intros (k & v & Es & Ek & Ev). apply split_once_Some in Es as [E Hk]. rewrite trim_visible in E by done.
    apply strip_spec in E as (u1 & u2 & E & U1 & U2 & _).
    assert (Forall visible k /\ Forall visible v) as [Vk Vv].
    { rewrite E in Hp. apply Forall_app in Hp as [_ Hp]. apply Forall_app in Hp as [Hp _]. apply Forall_app in Hp as [Hk' Hv].
      by apply Forall_cons in Hv as [_ Hv]. }
    rewrite trim_visible in Ek, Ev by done. apply strip_spec in Ek as (a1 & a2 & -> & A1 & A2 & Tn), Ev as (b1 & b2 & -> & B1 & B2 & Tv).
    exists (u1 ++ a1), a2, b1, (b2 ++ u2). split_and!; try done; try by apply Forall_app_2.
    + rewrite E. cbn [app]. by rewrite <- !app_assoc, <- app_comm_cons, <- !app_assoc.
    + apply str_free_elem in Hk. intros Hin. apply Hk. rewrite !elem_of_app. auto.
Qed.

Lemma find_cookie_spec name parts value : Forall (Forall visible) parts ->
  find_cookie name parts = Some value
  <-> exists before part after, parts = before ++ part :: after
        /\ Forall (fun p => exists n v, assigns p n v /\ n <> name) before /\ assigns part name value.
Proof.
  induction 1 as [|part parts Hp Hps IH]; cbn [find_cookie].
  - split; [done|]. by intros ([] & ? & ? & ? & _).
  - assert (forall n v, assigns part n v <-> exists k u, split_once EQUALS (trim part) = Some (k, u) /\ trim k = n /\ trim u = v) as Ha
      by (intros; by apply assigns_spec).
    destruct (split_once EQUALS (trim part)) as [[k u]|].
    + destruct (bytes_eqb_spec (trim k) name) as [Ek|Nk].
      * split; [intros [= <-]; exists [], part, parts; split_and!; [done|constructor|apply Ha; by exists k, u]|].
        intros ([|p before] & q & after & E & Hb & Hq); injection E as <- E.
        -- apply Ha in Hq as (k' & u' & [= <- <-] & _ & <-). done.
        -- apply Forall_cons in Hb as [(n & v & Hn & Nn) _]. apply Ha in Hn as (k' & u' & [= <- <-] & <- & _). done.
      * rewrite IH. split.
        -- intros (before & q & after & -> & Hb & Hq). exists (part :: before), q, after. split_and!; [done| |done].
           constructor; [|done]. exists (trim k), (trim u). split; [apply Ha; by exists k, u|done].
        -- intros ([|p before] & q & after & E & Hb & Hq); injection E as <- E.
           ++ apply Ha in Hq as (k' & u' & [= <- <-] & E1 & _). done.
           ++ apply Forall_cons in Hb as [_ Hb]. by exists before, q, after.
    + split; [done|]. intros ([|p before] & q & after & E & Hb & Hq); injection E as <- E.
      * by apply Ha in Hq as (k' & u' & ? & _).
      * apply Forall_cons in Hb as [(n & v & Hn & _) _]. by apply Ha in Hn as (k' & u' & ? & _).
Qed.

Lemma split_semicolons v : semicolons (split_on SEMICOLON v) = v /\ Forall (fun p => SEMICOLON ∉ p) (split_on SEMICOLON v)
  /\ split_on SEMICOLON v <> [].
Proof.
  induction v as [|c v (IH1 & IH2 & IH3)]; [split_and!; [done|repeat constructor; apply not_elem_of_nil|done]|].
  cbn [split_on]. destruct (split_on SEMICOLON v) as [|p ps]; [done|]. apply Forall_cons in IH2 as [Hp Hps].
  destruct (Z.eqb_spec c SEMICOLON) as [->|Hc].
  - split_and!; [|constructor; [apply not_elem_of_nil|by constructor]|done].
    change (semicolons ([] :: p :: ps)) with (SEMICOLON :: semicolons (p :: ps)). by rewrite IH1.
  - split_and!; [|constructor; [intros [E|Hin]%elem_of_cons; [congruence|done]|done]|done].
    rewrite <- IH1. by destruct ps.
Qed.

Lemma split_of_semicolons ps : ps <> [] -> Forall (fun p => SEMICOLON ∉ p) ps -> split_on SEMICOLON (semicolons ps) = ps.
Proof.
  induction ps as [|p [|q ps] IH]; intros Hn Hf; [done| |].
  - apply Forall_cons in Hf as [Hp _]. by apply split_on_free, str_free_elem.
  - apply Forall_cons in Hf as [Hp Hf]. change (semicolons (p :: q :: ps)) with (p ++ SEMICOLON :: semicolons (q :: ps)).
    rewrite split_on_app by (by apply str_free_elem). by rewrite IH.
Qed.

Lemma semicolons_visible ps : Forall visible (semicolons ps) -> Forall (Forall visible) ps.
Proof.
  induction ps as [|p [|q ps] IH]; intros H; [constructor|by repeat constructor|].
  change (semicolons (p :: q :: ps)) with (p ++ SEMICOLON :: semicolons (q :: ps)) in H. apply Forall_app in H as [Hp H].
  apply Forall_cons in H as [_ H]. constructor; [done|by apply IH].
Qed.

Lemma first_cookie_spec header name value : Forall visible header ->
  find_cookie name (split_on SEMICOLON header) = Some value <-> first_cookie header name value.
Proof.
  intros Hv. destruct (split_semicolons header) as (E & Hf & Hne). rewrite find_cookie_spec by (apply semicolons_visible; by rewrite E). split.
  - intros (before & part & after & Es & Hb & Hp). exists before, part, after. rewrite Es in E, Hf. done.
  - intros (before & part & after & Es & Hb & Ho & Hp). exists before, part, after. split_and!; [|done|done].
    rewrite Es. apply split_of_semicolons; [by destruct before|done].
Qed.

(** ** Lemmas: hexadecimal *)

Lemma hex_value_spec c z : hex_value c = Some z <-> exists n, is_hex c n /\ z = Z.of_nat n.
Proof.
  split.
  - unfold hex_value, is_ascii_digit, in_range. intros H.
    assert (exists n, (n < 16)%nat /\ z = Z.of_nat n /\ (c = 48 + z /\ z < 10 \/ c = 87 + z /\ 10 <= z \/ c = 55 + z /\ 10 <= z)) as (n & Hn & -> & Hc).
    { exists (Z.to_nat z). repeat case_match; try done; injection H as <-; repeat match goal with H : _ && _ = true |- _ => apply andb_prop in H as [?%Z.leb_le ?%Z.leb_le] end; lia. }
    exists n. split; [|done]. unfold is_hex.
    do 16 (destruct n as [|n]; [destruct Hc as [[-> ?]|[[-> ?]|[-> ?] ] ]; first [lia | left; reflexivity | right; reflexivity]|]). lia.
  - intros (n & H & ->). unfold is_hex in H.
    do 16 (destruct n as [|n]; [destruct H as [H|H]; vm_compute in H; injection H as <-; reflexivity|]).
    by destruct H as [H|H]; rewrite lookup_ge_None_2 in H by (vm_compute; lia).
Qed.

Lemma hex_byte_spec b c1 c2 : parse_hex_u8 c1 c2 = Some b <-> hex_byte b c1 c2.
Proof.
  unfold parse_hex_u8, hex_byte. assert (lit "+" = [c1] <-> c1 = PLUS) as -> by (change (lit "+") with [PLUS]; split; [by intros [= ->]|by intros ->]).
  destruct (Z.eqb_spec c1 PLUS) as [->|Hp].
  - rewrite hex_value_spec. split; [by right|]. intros [(x & y & Hx & _)|[_ H] ]; [|done].
    assert (hex_value PLUS = Some (Z.of_nat x)) as E by (apply hex_value_spec; by exists x). done.
  - destruct (hex_value c1) as [x|] eqn:E1.
    + apply hex_value_spec in E1 as E1'. destruct E1' as (n & Hn & ->). destruct (hex_value c2) as [y|] eqn:E2.
      * apply hex_value_spec in E2 as E2'. destruct E2' as (m & Hm & ->). split.
        -- intros [= <-]. left. exists n, m. split_and!; [done|done|lia].
        -- intros [(x' & y' & Hx & Hy & ->)|[? _] ]; [|done].
           assert (hex_value c1 = Some (Z.of_nat x')) as F1 by (apply hex_value_spec; by exists x').
           assert (hex_value c2 = Some (Z.of_nat y')) as F2 by (apply hex_value_spec; by exists y'). f_equal. rewrite E1 in F1. rewrite E2 in F2. injection F1 as F1. injection F2 as F2. lia.
      * split; [done|]. intros [(x' & y' & Hx & Hy & _)|[? _] ]; [|done].
        assert (hex_value c2 = Some (Z.of_nat y')) as F2 by (apply hex_value_spec; by exists y'). congruence.
    + split; [done|]. intros [(x' & y' & Hx & Hy & _)|[? _] ]; [|done].
      assert (hex_value c1 = Some (Z.of_nat x')) as F1 by (apply hex_value_spec; by exists x'). congruence.
Qed.

Lemma hex_text_spec v s : hex_text v s <-> length s = (2 * length v)%nat /\ parse_hex_pairs s = Some v.
Proof.
  split.
  - induction 1 as [|b bs c1 c2 s Hb _ [IH1 IH2] ]; [done|]. split; [cbn; lia|]. cbn [parse_hex_pairs].
    apply hex_byte_spec in Hb as ->. by rewrite IH2.
  - revert s. induction v as [|b v IH]; intros [|c1 [|c2 s]] [Hl H]; cbn in Hl; try lia; [constructor|].
    cbn [parse_hex_pairs] in H. destruct (parse_hex_u8 c1 c2) as [x|] eqn:Ex; [|done]. destruct (parse_hex_pairs s) as [xs|] eqn:Es; [|done].
    injection H as -> ->. constructor; [by apply hex_byte_spec|]. apply IH. split; [lia|done].
Qed.

Lemma hex_32_spec s v : parse_hex_32 s = Some v <-> hex_text v s /\ length v = 32%nat.
Proof.
  rewrite hex_text_spec. unfold parse_hex_32. split.
  - intros H. pose proof (parse_hex_32_length s v H) as Hl. destruct (Nat.eqb_spec (length s) 64) as [E|]; [|done]. by rewrite Hl.
  - intros [[Hs H] Hl]. by rewrite Hs, Hl.
Qed.

(** ** Theorems *)

Lemma starts_with_drop p v : starts_with p v = true -> v = p ++ drop (length p) v.
Proof.
  revert v. induction p as [|x p IH]; intros [|y v]; cbn; try done. intros [->%Z.eqb_eq H]%andb_prop. by rewrite <- IH.
Qed.

Lemma presents_spec h p :
  match header_str "x-chatwarp-password" h with
  | Some q => Some q
  | None => match header_str "authorization" h with Some v => strip_prefix (lit "Bearer ") v | None => None end
  end = Some p <-> presents h p.
Proof.
  unfold presents. destruct (header_str "x-chatwarp-password" h) as [q|] eqn:E.
  - apply header_str_spec in E as Hq. split.
    + intros [= <-]. by left.
    + intros [Hp|[Hn _] ]; [|by destruct Hn; exists q]. apply header_str_spec in Hp. congruence.
  - assert (~ exists q, has_header h "x-chatwarp-password" q) as Hn by (intros [q Hq%header_str_spec]; congruence).
    assert (forall v, strip_prefix (lit "Bearer ") v = Some p <-> v = lit "Bearer " ++ p) as Hs.
    { intros v. split; [|intros ->; apply strip_prefix_app]. unfold strip_prefix. destruct (starts_with (lit "Bearer ") v) eqn:Ev; [|done].
      intros [= <-]. exact (starts_with_drop _ _ Ev). }
    split.
    + destruct (header_str "authorization" h) as [v|] eqn:Ev; [|done]. intros ->%Hs. right. split; [done|by apply header_str_spec].
    + intros [Hp|[_ Hp] ]; [by destruct Hn; exists p|]. apply header_str_spec in Hp as ->. by apply Hs.
Qed.

Lemma cookie_passes expected h : length expected = 32%nat ->
  match get_cookie h "chatwarp_auth" with
  | Some cookie => match parse_hex_32 cookie with Some c => constant_time_eq_bytes c expected | None => false end
  | None => false
  end = true
  <-> exists header hex, has_header h "cookie" header /\ first_cookie header (lit "chatwarp_auth") hex /\ hex_text expected hex.
Proof.
  intros Hl. unfold get_cookie. destruct (header_str "cookie" h) as [header|] eqn:Eh.
  - apply header_str_spec in Eh as [H1 H2]. split.
    + destruct (find_cookie _ _) as [hex|] eqn:Ef; [|done]. apply first_cookie_spec in Ef; [|done].
      destruct (parse_hex_32 hex) as [v|] eqn:Ev; [|done]. apply hex_32_spec in Ev as [Ev El].
      rewrite constant_time_eq_spec by congruence. intros ->. by exists header, hex.
    + intros (header' & hex & [H3 _] & Hf & Hx). assert (header' = header) as -> by congruence.
      apply first_cookie_spec in Hf as ->; [|done]. rewrite (proj2 (hex_32_spec hex expected)) by done. by apply constant_time_eq_spec.
  - split; [done|]. intros (header' & hex & Hh%header_str_spec & _). congruence.
Qed.

(** A cookie that is right lets the request pass. *)
Lemma cookie_enough expected path h cookie :
  get_cookie h "chatwarp_auth" = Some cookie -> parse_hex_32 cookie = Some expected -> auth_middleware (Some expected) path h = true.
Proof.
  intros H1 H2. unfold auth_middleware. destruct (is_open path); [done|]. rewrite H1, H2.
  by rewrite (proj2 (constant_time_eq_spec expected expected eq_refl) eq_refl).
Qed.

(** C19: Who passes when a password is set, by the text of the request.  Its path
    is one of eleven; or its Cookie header, read as parts between semicolons,
    has a part that gives [chatwarp_auth] the digest of the password, written in
    hexadecimal, with only cookies of other names before it; or the header for
    the password has one of that digest, or, where that header is missing or not
    readable, the Authorization header has it after the word Bearer.  No other
    request passes. *)
Theorem auth_exact expected path h : length expected = 32%nat ->
  auth_middleware (Some expected) path h = true <->
  path ∈ map lit ["/auth/login"; "/auth/logout"; "/healthz"; "/readyz"; "/health"; "/ping"; "/metrics"; "/openapi.json";
                  "/docs/openapi.json"; "/swagger"; "/docs/swagger"]%string
  \/ (exists header hex, has_header h "cookie" header /\ first_cookie header (lit "chatwarp_auth") hex /\ hex_text expected hex)
  \/ (exists p, presents h p /\ sha Sha256 p = expected).
Proof.
  intros Hl. rewrite <- cookie_passes by done. unfold auth_middleware.
  assert (is_open path = true <-> path ∈ map lit open_paths) as Ho.
  { unfold is_open. rewrite existsb_exists, list_elem_of_fmap. split.
    - intros (x & Hx%list_elem_of_In & E). exists x. split; [|done]. by destruct (bytes_eqb_spec path (lit x)).
    - intros (x & -> & Hx%list_elem_of_In). exists x. split; [done|apply bytes_eqb_refl]. }
  change (map lit _) with (map lit open_paths). rewrite <- Ho.
  assert (forall p, presents h p -> (constant_time_eq_bytes (hash_password p) expected = true <-> sha Sha256 p = expected)) as Hp
    by (intros p _; apply constant_time_eq_spec; unfold hash_password; by rewrite sha_length, Hl).
  pose proof (presents_spec h) as Hpr. cbv zeta.
  destruct (is_open path); [naive_solver|].
  match goal with |- (if ?a then true else match ?o with _ => _ end) = true <-> _ => set (by_cookie := a); set (given := o) in *  end.
  destruct by_cookie; [naive_solver|]. destruct given as [p|].
  - rewrite (Hp p) by (by apply Hpr). split; [intros E; right; right; exists p; by rewrite <- Hpr|].
    intros [?|[?|(q & Hq & E)] ]; [done|done|]. apply Hpr in Hq. by injection Hq as ->.
  - split; [done|]. intros [?|[?|(q & Hq & E)] ]; [done|done|]. by apply Hpr in Hq.
Qed.


(** A login with the password sets a cookie with which every request passes; it
    is the digest of the password, and passes as long as the password stays. *)
Theorem login_passes expected ttl password path h : length expected = 32%nat -> Forall is_byte expected ->
  hash_password password = expected -> exists c, login_handler (Some expected) ttl password = Login_ok c
    /\ (header_str "cookie" h = Some (cookie_pair c) -> auth_middleware (Some expected) path h = true).
Proof.
  intros Hl Hb Hp. exists (login_cookie expected ttl). unfold login_handler. split.
  - assert (constant_time_eq_bytes (hash_password password) expected = true) as -> by (by apply constant_time_eq_spec; rewrite Hp). done.
  - intros Hh. destruct (hex_32_solid expected Hb) as [Hs Hf].
    assert (cookie_pair (login_cookie expected ttl) = lit "chatwarp_auth" ++ EQUALS :: hex_32 expected) as Hc.
    { assert (login_cookie expected ttl = (lit "chatwarp_auth" ++ EQUALS :: hex_32 expected)
                ++ SEMICOLON :: (lit " Max-Age=" ++ show_uint ttl ++ lit "; HttpOnly; SameSite=Lax; Path=/")) as E by (rewrite <- app_assoc; reflexivity).
      unfold cookie_pair. rewrite E.
      rewrite split_once_app; [done|]. rewrite str_free_app. cbn. exact Hf. }
    apply (cookie_enough _ _ _ (hex_32 expected)); [|by apply parse_hex_32_roundtrip].
    unfold get_cookie. rewrite Hh, Hc.
    assert (solid (lit "chatwarp_auth" ++ EQUALS :: hex_32 expected)) as Hsol.
    { apply Forall_app_2; [by apply solid_of|constructor; [done|done] ]. }
    rewrite split_on_free by (rewrite str_free_app; cbn; exact Hf). cbn [find_cookie]. rewrite trim_solid, split_once_app by done.
    rewrite trim_solid by (by apply solid_of). rewrite bytes_eqb_refl. by rewrite trim_solid.
Qed.

(** A cookie without a value in front of it hides the cookie of the login. *)
Theorem valueless_cookie_hides flag rest h : str_free SEMICOLON flag = true -> split_once EQUALS (trim flag) = None ->
  header_str "cookie" h = Some (flag ++ SEMICOLON :: rest) -> get_cookie h "chatwarp_auth" = None.
Proof. intros Hf He Hh. unfold get_cookie. rewrite Hh, split_on_app by done. cbn. by rewrite He. Qed.
End Auth.

(** ** A concrete login *)

#[local] Existing Instance toy_hashes.
Definition toy_expected : bytes := hash_password (lit "secret").

Lemma auth_exact_witness : auth_middleware (Some toy_expected) (lit "/chats") [(lit "authorization", lit "Bearer secret")] = true
  /\ auth_middleware (Some toy_expected) (lit "/ping") [] = true.
Proof.
  split; (apply auth_exact; [reflexivity|]); [right; right|left; vm_compute; do 5 apply list_elem_of_further; apply list_elem_of_here].
  exists (lit "secret"). split; [|reflexivity]. right. split; [by intros (q & ? & _)|]. split; [reflexivity|].
  apply all_visible. reflexivity.
Defined.

(** A cookie header with the login's cookie among others, in capitals and with blanks. *)
Example auth_by_cookie :
  auth_middleware (Some (replicate 32 171)) (lit "/chats")
    [(lit "cookie", lit "theme=dark;  chatwarp_auth = " ++ concat (replicate 32 (lit "Ab")) ++ lit " ; x")] = true
  /\ auth_middleware (Some (replicate 32 171)) (lit "/chats")
       [(lit "cookie", lit "x; chatwarp_auth=" ++ concat (replicate 32 (lit "ab")))] = false.
Proof. split; vm_compute; reflexivity. Qed.
