(* ===== verification/ClientSync.v ===== *)
(** * The client's synchronisation of the account's state: [src/client.rs]

    [process_app_state_sync_task] asks for a collection, hands the answer to the
    processor of [AppStateSync], asks for keys, announces the mutations and
    stores the version; [fetch_app_state_with_retry] repeats it.  The client's
    download of the snapshot, its requests and the clock are arguments; the
    sending of a key request and the events are recorded.

    The theorems: a successful task leaves the collection consistent, unless a
    snapshot comes on top of stored MACs; the
    mutations are announced in order and the push name ends as the last one
    set; the retry makes at most six attempts; but it never waits for a key,
    because it looks for another text than the one a missing key gives, and keys
    are asked for only where none is missing. *)

From stdpp Require Import gmap.
From S2P Require Import Prelude RustStd Jid Node Attrs Crypto LtHash AppState AppStateSync Curve Noise Device Requests KeyServer.

Definition APP_STATE_RETRY_MAX_ATTEMPTS : u32 := 6.

(** [str::contains] *)
Fixpoint str_contains (p s : str) : bool :=
  starts_with p s || match s with [] => false | _ :: s' => str_contains p s' end.

(** ** Texts of errors *)

Inductive SyncTaskError := TE_iq (e : ClientIqError) | TE_sync (e : SyncError).

(** The texts of [enum AppStateError] *)
Definition app_state_error_text (e : AppStateError) : str :=
  lit match e with
      | MissingPreviousSetValueOperation => "missing value MAC of previous SET operation"
      | MismatchingLTHash => "mismatching LTHash"
      | MismatchingPatchMAC => "mismatching patch MAC"
      | MismatchingContentMAC => "mismatching content MAC"
      | MismatchingIndexMAC => "mismatching index MAC"
      | KeyNotFound => "didn't find app state key"
      | MissingValueBlob => "missing value blob in record"
      | ValueBlobTooShort => "value blob too short (need at least 48 bytes for IV + MAC)"
      | DecryptionFailed => "decryption failed"
      | DecodeFailed => "failed to decode protobuf"
      | MissingIndexMAC => "missing index MAC in record"
      | MissingKeyId => "missing key ID in record"
      | SnapshotMACMismatch => "snapshot MAC mismatch"
      | PatchSnapshotMACMismatch => "patch snapshot MAC mismatch"
      | PatchMACMismatch => "patch MAC mismatch"
      end.

(** ** Mutations and what they lead to *)

(** The fields of [wa::SyncActionValue] that are looked at; the actions are
    handed on as they are. *)
Record SyncActionValue (Act : Type) := mkActionValue {
  av_timestamp : option i64; av_push_name_setting : option (option str); av_mute_action : option Act; av_pin_action : option Act;
  av_archive_chat_action : option Act; av_contact_action : option Act; av_mark_chat_as_read_action : option Act
}.
Arguments mkActionValue {Act} _ _ _ _ _ _ _.
Arguments av_timestamp {Act} _.
Arguments av_push_name_setting {Act} _.
Arguments av_mute_action {Act} _.
Arguments av_pin_action {Act} _.
Arguments av_archive_chat_action {Act} _.
Arguments av_contact_action {Act} _.
Arguments av_mark_chat_as_read_action {Act} _.

Inductive UpdateKind := MuteUpdate | PinUpdate | ArchiveUpdate | ContactUpdate | MarkChatAsReadUpdate.

(** What leaves the client: events, key requests, the pauses of the retry. *)
Inductive SyncEffect (Act : Type) :=
| E_push_name (from_server : bool) (old_name new_name : str)
| E_update (kind : UpdateKind) (jid : Jid) (timestamp : i64) (action : Act) (from_full_sync : bool)
| E_key_request (to : Jid) (key_ids : list bytes)
| E_wait_keys (seconds : u64)
| E_sleep (millis : u64).
Arguments E_push_name {Act} _ _ _.
Arguments E_update {Act} _ _ _ _ _.
Arguments E_key_request {Act} _ _.
Arguments E_wait_keys {Act} _.
Arguments E_sleep {Act} _.

(** [sc_key_requests]: [app_state_key_requests], with times in seconds *)
Record SyncClient (B Act : Type) := mkSyncClient {
  sc_proc : AppStateProcessor B; sc_key_requests : gmap str Z; sc_device : Device; sc_log : list (SyncEffect Act)
}.
Arguments mkSyncClient {B Act} _ _ _ _.
Arguments sc_proc {B Act} _.
Arguments sc_key_requests {B Act} _.
Arguments sc_device {B Act} _.
Arguments sc_log {B Act} _.

(** The store's keys: reading one shows them, the writes of the processor keep
    them. *)
Class AppSyncKeys (B : Type) `{HB : !AppSyncStore B} := {
  view_key : B -> bytes -> option bytes;
  get_sync_key_ok : forall k b v, get_sync_key k b = Ok v -> v = view_key b k;
  set_version_keys : forall n st b o b', store_set_version n st b = (o, b') -> view_key b' = view_key b;
  put_macs_keys : forall n v l b o b', put_mutation_macs n v l b = (o, b') -> view_key b' = view_key b;
  delete_macs_keys : forall n l b o b', delete_mutation_macs n l b = (o, b') -> view_key b' = view_key b
}.

Section ClientSync.
Context `{HK : !Hkdf, HS : !Hashes, HA : !AesCbc, HX : !Hex}.
Context {B : Type} `{HB : !AppSyncStore B}.
Context {Act : Type} (decode_action : bytes -> option (SyncActionData (SyncActionValue Act))).
Context (json_strings : bytes -> option (list str)) (b64 : bytes -> str).
Context {X : Type} (decode_ref : bytes -> option X) (decode_patch : bytes -> option SyncdPatch) (decode_snapshot : bytes -> option SyncdSnapshot).
(** The texts of errors made elsewhere: requests, attributes, storage, prost *)
Context (show_iq_error : ClientIqError -> str) (show_binary_error : BinaryError -> str) (show_decode_error : str).
(** [chrono::DateTime::from_timestamp_millis] as milliseconds *)
Context (from_timestamp_millis : i64 -> option i64).

Abbreviation client := (SyncClient B Act).
Abbreviation value := (SyncActionValue Act).

Definition sync_error_text (e : SyncError) : str :=
  match e with
  | SE_missing_collection => lit "missing sync/collection"
  | SE_attrs e => show_binary_error e
  | SE_bad_patch => lit "failed to unmarshal patch: " ++ show_decode_error
  | SE_store (StoreFailed msg) => msg
  | SE_key_not_found => lit "app state key not found"
  | SE_app_state e => app_state_error_text e
  | SE_fetch => []
  end.

Definition task_error_text (e : SyncTaskError) : str :=
  match e with TE_iq e => show_iq_error e | TE_sync e => sync_error_text e end.

(** What a run of the task meets: the answer to its request, downloads, times
    (a monotonic clock in seconds, the wall clock in milliseconds). *)
Record SyncEnv := mkSyncEnv { se_send_iq : InfoQuery -> outcome ClientIqError Node; se_download : X -> option bytes; se_instant : Z; se_now : i64 }.

Definition log_effect (e : SyncEffect Act) (s : client) : client := mkSyncClient (sc_proc s) (sc_key_requests s) (sc_device s) (sc_log s ++ [e]).
Definition on_device (f : Device -> Device) (s : client) : client := mkSyncClient (sc_proc s) (sc_key_requests s) (f (sc_device s)) (sc_log s).
Definition with_requests (m : gmap str Z) (s : client) : client := mkSyncClient (sc_proc s) m (sc_device s) (sc_log s).

(** A computation of the processor, in the client. *)
Definition in_proc {A} (m : comp (AppStateProcessor B) SyncError A) : comp client SyncTaskError A :=
  fun s => let '(o, p) := m (sc_proc s) in (map_err TE_sync o, mkSyncClient p (sc_key_requests s) (sc_device s) (sc_log s)).

(** ** [dispatch_app_state_mutation] *)

Definition mutation_jid (m : Mutation value) : Jid :=
  match mu_index m with
  | _ :: second :: _ => match from_str second with Ok j => j | _ => default_jid end
  | _ => default_jid
  end.

(** The action of a mutation that is only announced. *)
Definition update_of (kind : str) (v : value) : option (UpdateKind * Act) :=
  if kind =s lit "mute" then (fun a => (MuteUpdate, a)) <$> av_mute_action v
  else if (kind =s lit "pin") || (kind =s lit "pin_v1") then (fun a => (PinUpdate, a)) <$> av_pin_action v
  else if kind =s lit "archive" then (fun a => (ArchiveUpdate, a)) <$> av_archive_chat_action v
  else if kind =s lit "contact" then (fun a => (ContactUpdate, a)) <$> av_contact_action v
  else if (kind =s lit "mark_chat_as_read") || (kind =s lit "markChatAsRead") then (fun a => (MarkChatAsReadUpdate, a)) <$> av_mark_chat_as_read_action v
  else None.

Definition dispatch_app_state_mutation (now : i64) (full_sync : bool) (m : Mutation value) (s : client) : client :=
  match mu_operation m, mu_index m with
  | OpSet, kind :: _ =>
      let ts := default 0 (mu_action_value m ≫= av_timestamp) in
      let time := default now (from_timestamp_millis ts) in
      if kind =s lit "setting_pushName" then
        match mu_action_value m ≫= av_push_name_setting with
        | Some (Some new_name) =>
            let old := d_push_name (sc_device s) in
            if negb (old =s new_name) then
              log_effect (E_push_name true old new_name) (on_device (apply_command_to_device now (SetPushName new_name)) s)
            else s
        | _ => s
        end
      else match mu_action_value m ≫= update_of kind with
           | Some (k, act) => log_effect (E_update k (mutation_jid m) time act full_sync) s
           | None => s
           end
  | _, _ => s
  end.

(** ** Key requests *)

(** [request_app_state_keys]; the message is sent by [send_message_impl], whose
    failure is only logged *)
Definition request_app_state_keys (raw_key_ids : list bytes) (s : client) : client :=
  match raw_key_ids with
  | [] => s
  | _ => match d_pn (sc_device s) with Some own_jid => log_effect (E_key_request own_jid raw_key_ids) s | None => s end
  end.

(** The ids that were not asked for within a day, and the table with them. *)
Fixpoint due_requests (now : Z) (missing : list bytes) (guard : gmap str Z) : list bytes * gmap str Z :=
  match missing with
  | [] => ([], guard)
  | key_id :: missing =>
      let hex_id := hex_encode key_id in
      let should := match guard !! hex_id with Some t => 24 * 3600 <? now - t | None => true end in
      if should then
        let '(to_request, guard) := due_requests now missing (<[hex_id := now]> guard) in (key_id :: to_request, guard)
      else due_requests now missing guard
  end.

Definition request_missing (now : Z) (missing : list bytes) (s : client) : client :=
  match missing with
  | [] => s
  | _ =>
      let '(to_request, guard) := due_requests now missing (sc_key_requests s) in
      let s := with_requests guard s in
      match to_request with [] => s | _ => request_app_state_keys to_request s end
  end.

(** ** [process_app_state_sync_task] *)

Definition sync_query (name : WAPatchName) (want_snapshot : bool) (version : u64) : InfoQuery :=
  let collection := b_attr (b_attr (builder_new (lit "collection")) (lit "name") (patch_name_as_str name))
                      (lit "return_snapshot") (if want_snapshot then lit "true" else lit "false") in
  let collection := if want_snapshot then collection else b_attr collection (lit "version") (show_uint version) in
  query_set (lit "w:sync:app:state") server_jid
    (Some (NC_Nodes [build (b_children (builder_new (lit "sync")) [build collection])])).

(** The snapshot is downloaded before the answer is processed. *)
Definition pre_download (env : SyncEnv) (resp : Node) : option bytes :=
  match parse_patch_list decode_ref decode_patch resp with
  | Ok pl => pl_snapshot_ref pl ≫= se_download env
  | _ => None
  end.

Definition process_app_state_sync_task (env : SyncEnv) (name : WAPatchName) (full_sync : bool) : comp client SyncTaskError unit :=
  let! state := in_proc (read_store (get_version (patch_name_as_str name))) in
  let full_sync := if hs_version state =? 0 then true else full_sync in
  let! resp := mlift (map_err TE_iq (se_send_iq env (sync_query name full_sync (hs_version state)))) in
  let pre_downloaded_snapshot := pre_download env resp in
  let! (mutations, new_state, list) :=
    in_proc (decode_patch_list decode_action json_strings b64 decode_ref decode_patch decode_snapshot (fun _ => pre_downloaded_snapshot) resp true) in
  let! missing := (fun s => match get_missing_key_ids list (sc_proc s) with
                            | (Ok v, p) => (Ok v, mkSyncClient p (sc_key_requests s) (sc_device s) (sc_log s))
                            | (_, p) => (Ok [], mkSyncClient p (sc_key_requests s) (sc_device s) (sc_log s))
                            end) in
  (fun s => (Ok tt, request_missing (se_instant env) missing s)) ;;
  (fun s => (Ok tt, fold_left (fun s m => dispatch_app_state_mutation (se_now env) full_sync m s) mutations s)) ;;
  in_proc (write_store (store_set_version (patch_name_as_str name) new_state)).

(** ** [fetch_app_state_with_retry] *)

(** What an attempt meets: its environment, what the other tasks did to the
    client since the last one, and whether keys had arrived when it failed. *)
Record Attempt := mkAttempt {
  at_env : SyncEnv; at_others : AppStateProcessor B * gmap str Z * Device -> AppStateProcessor B * gmap str Z * Device; at_keys_received : bool
}.

Definition others_act (a : Attempt) (s : client) : client :=
  let '(p, r, d) := at_others a (sc_proc s, sc_key_requests s, sc_device s) in mkSyncClient p r d (sc_log s).

Fixpoint fetch_app_state_with_retry (fuel : nat) (attempts : u32 -> Attempt) (name : WAPatchName) (attempt : u32) (s : client) :
    outcome SyncTaskError unit * client :=
  match fuel with
  | O => (NoFuel, s)
  | S fuel =>
      let attempt := attempt + 1 in
      let a := attempts attempt in
      match process_app_state_sync_task (at_env a) name true (others_act a s) with
      | (Err e, s) =>
          let es := task_error_text e in
          if str_contains (lit "app state key not found") es && (attempt =? 1) then
            fetch_app_state_with_retry fuel attempts name attempt (if at_keys_received a then s else log_effect (E_wait_keys 10) s)
          else if str_contains (lit "database is locked") es && (attempt <? APP_STATE_RETRY_MAX_ATTEMPTS) then
            fetch_app_state_with_retry fuel attempts name attempt (log_effect (E_sleep (200 * attempt + 150)) s)
          else (Err e, s)
      | r => r
      end
  end.

(** ** Announcing mutations *)

(** The push name a mutation sets. *)
Definition set_name (m : Mutation value) : option str :=
  match mu_operation m, mu_index m with
  | OpSet, kind :: _ => if kind =s lit "setting_pushName" then match mu_action_value m ≫= av_push_name_setting with Some n => n | None => None end else None
  | _, _ => None
  end.

Definition is_update (e : SyncEffect Act) : bool := match e with E_update _ _ _ _ _ => true | _ => false end.
Definition is_request (e : SyncEffect Act) : bool := match e with E_key_request _ _ => true | _ => false end.
Definition is_pause (e : SyncEffect Act) : bool := match e with E_wait_keys _ | E_sleep _ => true | _ => false end.

Abbreviation dispatch_all now full := (fold_left (fun s m => dispatch_app_state_mutation now full m s)).

Lemma dispatch_one now full m (s : client) : let s' := dispatch_app_state_mutation now full m s in
  sc_proc s' = sc_proc s /\ sc_key_requests s' = sc_key_requests s
  /\ d_push_name (sc_device s') = default (d_push_name (sc_device s)) (set_name m)
  /\ exists l, sc_log s' = sc_log s ++ l /\ Forall (fun e => is_request e = false /\ is_pause e = false) l.
Proof.
  cbn zeta. unfold dispatch_app_state_mutation, set_name.
  assert (forall t : client, t = s -> sc_proc t = sc_proc s /\ sc_key_requests t = sc_key_requests s /\ d_push_name (sc_device t) = d_push_name (sc_device s)
    /\ exists l, sc_log t = sc_log s ++ l /\ Forall (fun e => is_request e = false /\ is_pause e = false) l) as Hsame.
  { intros t ->. split_and!; [done..|]. exists []. by rewrite app_nil_r. }
  destruct (mu_operation m); [|by apply Hsame]. destruct (mu_index m) as [|kind ix]; [by apply Hsame|].
  destruct (kind =s lit "setting_pushName").
  - destruct (mu_action_value m ≫= av_push_name_setting) as [[name|]|]; cbn; [|by apply Hsame..].
    destruct (bytes_eqb_spec (d_push_name (sc_device s)) name) as [E|E]; cbn.
    + rewrite <- E. by apply Hsame.
    + split_and!; [done|done|by destruct (sc_device s)|]. eexists. split; [done|]. by repeat constructor.
  - cbn. destruct (mu_action_value m ≫= update_of kind) as [[k a]|]; [|by apply Hsame].
    split_and!; [done..|]. eexists. split; [done|]. by repeat constructor.
Qed.

Lemma dispatch_many now full ms (s : client) : let s' := dispatch_all now full ms s in
  sc_proc s' = sc_proc s /\ sc_key_requests s' = sc_key_requests s
  /\ d_push_name (sc_device s') = default (d_push_name (sc_device s)) (last (omap set_name ms))
  /\ exists l, sc_log s' = sc_log s ++ l /\ Forall (fun e => is_request e = false /\ is_pause e = false) l.
Proof.
  cbn zeta. revert s. induction ms as [|m ms IH]; intros s; cbn [fold_left].
  - split_and!; [done..|]. exists []. by rewrite app_nil_r.
  - destruct (dispatch_one now full m s) as (E1 & E2 & E3 & l & El & Hl), (IH (dispatch_app_state_mutation now full m s)) as (F1 & F2 & F3 & l' & Fl & Hl').
    split_and!; [congruence..| |exists (l ++ l'); by rewrite Fl, El, app_assoc; split; [|apply Forall_app_2] ].
    rewrite F3, E3. cbn. destruct (set_name m) as [n|]; cbn; [|done].
    destruct (omap set_name ms) as [|x xs] eqn:Ex; [done|]. rewrite (last_cons_cons n x xs). cbn. by destruct (last (x :: xs)) eqn:El'; [|apply last_None in El'].
Qed.

(** ** The task *)

Lemma in_proc_inv {A} (m : comp (AppStateProcessor B) SyncError A) (s : client) o s' : in_proc m s = (o, s') ->
  exists o' p, m (sc_proc s) = (o', p) /\ o = map_err TE_sync o' /\ s' = mkSyncClient p (sc_key_requests s) (sc_device s) (sc_log s).
Proof. unfold in_proc. destruct (m (sc_proc s)) as [o' p]. intros E. injection E as <- <-. eauto. Qed.

Lemma request_missing_fields now missing (s : client) : let s' := request_missing now missing s in
  sc_proc s' = sc_proc s /\ sc_device s' = sc_device s /\ exists l, sc_log s' = sc_log s ++ l /\ Forall (fun e => is_pause e = false) l.
Proof.
  cbn zeta. unfold request_missing. assert (exists l, sc_log s = sc_log s ++ l /\ Forall (fun e => is_pause e = false) l) as Hnil.
  { exists []. by rewrite app_nil_r. }
  destruct missing as [|k ks]; [done|]. destruct (due_requests now _ _) as [[|r rs] g]; [done|].
  unfold request_app_state_keys. destruct (d_pn _); [|done]. split_and!; [done|done|]. eexists. split; [done|]. by repeat constructor.
Qed.

(** The parts of a successful run. *)
Lemma task_parts env name full (s s' : client) : process_app_state_sync_task env name full s = (Ok tt, s') ->
  exists state resp mus st pl p missing p1 s2,
    get_version (patch_name_as_str name) (backend (sc_proc s)) = Ok state
    /\ se_send_iq env (sync_query name (if hs_version state =? 0 then true else full) (hs_version state)) = Ok resp
    /\ decode_patch_list decode_action json_strings b64 decode_ref decode_patch decode_snapshot (fun _ => pre_download env resp) resp true (sc_proc s)
         = (Ok (mus, st, pl), p)
    /\ missing = match get_missing_key_ids pl p with (Ok v, _) => v | _ => [] end /\ p1 = (get_missing_key_ids pl p).2
    /\ s2 = dispatch_all (se_now env) (if hs_version state =? 0 then true else full) mus
              (request_missing (se_instant env) missing (mkSyncClient p1 (sc_key_requests s) (sc_device s) (sc_log s)))
    /\ write_store (store_set_version (patch_name_as_str name) st) p1 = (Ok tt, sc_proc s')
    /\ sc_device s' = sc_device s2 /\ sc_log s' = sc_log s2 /\ sc_key_requests s' = sc_key_requests s2.
Proof.
  unfold process_app_state_sync_task. intros (state & s1 & H1 & H)%mbind'_inv.
  apply in_proc_inv in H1 as (o1 & q1 & R1 & E1 & ->). symmetry in E1. apply map_err_Ok in E1 as ->. apply read_store_inv in R1 as [R1 ->].
  apply mbind'_inv in H as (resp & s1 & H1 & H). injection H1 as H1%map_err_Ok <-.
  apply mbind'_inv in H as ([[mus st] pl] & s1 & H2 & H). apply in_proc_inv in H2 as (o2 & p & R2 & E2 & ->). symmetry in E2. apply map_err_Ok in E2 as ->.
  apply mbind'_inv in H as (missing & s1 & H3 & H). apply mbind'_inv in H as (u & s2 & H4 & H). injection H4 as _ <-.
  apply mbind'_inv in H as (u' & s3 & H5 & H). injection H5 as _ <-. apply in_proc_inv in H as (o3 & q3 & R3 & E3 & ->). symmetry in E3. apply map_err_Ok in E3 as ->.
  cbn [sc_proc] in H3.
  destruct (get_missing_key_ids pl p) as [om pm] eqn:Em. assert (s1 = mkSyncClient pm (sc_key_requests s) (sc_device s) (sc_log s)
    /\ missing = match om with Ok v => v | _ => [] end) as [-> ->] by (cbn in H3; destruct om; by injection H3 as <- <-).
  exists state, resp, mus, st, pl, p, (match om with Ok v => v | _ => [] end), pm. eexists. rewrite Em. split_and!; try reflexivity; try done. cbn [sc_proc snd].
  destruct (dispatch_many (se_now env) (if hs_version state =? 0 then true else full) mus (request_missing (se_instant env)
    (match om with Ok v => v | _ => [] end) (mkSyncClient pm (sc_key_requests s) (sc_device s) (sc_log s)))) as (Ep & _).
  cbn zeta in Ep. rewrite Ep in R3.
  rewrite (proj1 (request_missing_fields (se_instant env) _ (mkSyncClient pm (sc_key_requests s) (sc_device s) (sc_log s)))) in R3. done.
Qed.

Lemma missing_ids_state (ids : list bytes) (p : AppStateProcessor B) : (missing_ids ids p).2 = p.
Proof.
  induction ids as [|k ids IH]; [done|]. cbn [missing_ids]. unfold mbind', read_store. destruct (get_sync_key k (backend p)) as [v|e| |]; try done.
  cbn. by destruct (missing_ids ids p) as [[]]; cbn in *; subst.
Qed.

(** The answer of the server, as it is processed. *)
Definition answered (env : SyncEnv) (resp : Node) (pl : PatchList X) : Prop :=
  exists pl0, parse_patch_list decode_ref decode_patch resp = Ok pl0
    /\ pl = mkPatchList (pl_name pl0) (pl_has_more_patches pl0) (pl_patches pl0)
              ((pl_snapshot_ref pl0 ≫= se_download env) ≫= decode_snapshot) (pl_snapshot_ref pl0).

Lemma parsed_snapshot resp (pl : PatchList X) : parse_patch_list decode_ref decode_patch resp = Ok pl -> pl_snapshot pl = None.
Proof.
  unfold parse_patch_list. intros H. apply obind_Ok in H as (c & _ & H). destruct (ap_string _ _) as [n ag]. destruct (ap_optional_bool _ _) as [h ag'].
  apply obind_Ok in H as (u & _ & H). apply obind_Ok in H as (ps & _ & H). by injection H as <-.
Qed.

Lemma decode_answered env resp o p p' :
  decode_patch_list decode_action json_strings b64 decode_ref decode_patch decode_snapshot (fun _ => pre_download env resp) resp true p = (Ok o, p') ->
  exists pl, answered env resp pl /\ process_patch_list decode_action json_strings b64 pl true p = (Ok o, p').
Proof.
  unfold decode_patch_list. intros (pl0 & p1 & H1 & H)%mbind'_inv. injection H1 as H1 <-. eexists. split; [by exists pl0|].
  rewrite <- H. f_equal. f_equal. rewrite (parsed_snapshot _ _ H1). destruct (pl_snapshot_ref pl0) as [ext|] eqn:Er; [|done].
  unfold pre_download. rewrite H1, Er. cbn. by destruct (se_download env ext).
Qed.

(** C33: Synchronising a collection keeps it consistent, when the server answers for
    the collection that was asked for, with regular patches, and either sends no
    snapshot and the stored hash was the LTHash of the stored MACs, or sends a
    snapshot whose records have different indices and no MACs were stored for the
    collection before (those of an earlier state are not removed, which is the
    case [snapshot_keeps_old_macs] breaks on): after a successful run the stored
    hash of the collection is the LTHash of its stored MACs, and no other
    collection has changed. *)
Theorem sync_task_consistent env name full (s s' : client) :
  process_app_state_sync_task env name full s = (Ok tt, s') ->
  (forall q resp pl, se_send_iq env q = Ok resp -> answered env resp pl ->
     pl_name pl = name /\ Forall (fun patch => regular (patch_mutations patch)) (pl_patches pl)
     /\ match pl_snapshot pl with
        | None => hs_hash (view_state (backend (sc_proc s)) (patch_name_as_str name)) = lt_hash (view_macs (backend (sc_proc s)) (patch_name_as_str name))
        | Some snapshot => view_macs (backend (sc_proc s)) (patch_name_as_str name) = ∅
            /\ List.NoDup (map (fun r => match index_blob r with Some b => b | None => [] end) (snap_records snapshot))
        end) ->
  exists state, persisted (patch_name_as_str name) state (backend (sc_proc s)) (backend (sc_proc s')).
Proof.
  intros (state & resp & mus & st & pl & p & missing & p1 & s2 & _ & Hiq & Hdec & _ & -> & _ & Hw & _)%task_parts Hans.
  apply decode_answered in Hdec as (pl' & Ha & Hp). destruct (Hans _ _ _ Hiq Ha) as (Hn & Hreg & Hstart).
  rewrite <- Hn in Hstart. apply process_patch_list_consistent in Hp as [Hp ->]; [|done|done]. rewrite Hn in Hp. exists st.
  unfold get_missing_key_ids in Hw. rewrite missing_ids_state in Hw.
  eapply persisted_trans; [done|]. destruct Hp as (Hs & Hh & _). apply write_store_inv in Hw as [ [Hs3 Hm3]%set_version_ok _]. split_and!.
  - by rewrite Hs3, bytes_eqb_refl.
  - by rewrite Hm3.
  - intros n' N. rewrite Hs3, Hm3. by rewrite (proj2 (bytes_eqb_neq (patch_name_as_str name) n')) by congruence.
Qed.

(** A run makes no pauses, and one that fails before its last write announces
    and requests nothing. *)
Lemma task_log env name full (s s' : client) o : process_app_state_sync_task env name full s = (o, s') ->
  exists l, sc_log s' = sc_log s ++ l /\ Forall (fun e => is_pause e = false) l
    /\ ((forall e, o <> Err (TE_sync (SE_store e))) -> (forall u, o <> Ok u) -> returns o -> l = []).
Proof.
  unfold process_app_state_sync_task. assert (exists l, sc_log s = sc_log s ++ l /\ Forall (fun e => is_pause e = false) l /\ l = []) as (l0 & E0 & F0 & Z0).
  { exists []. by rewrite app_nil_r. }
  unfold mbind' at 1. destruct (in_proc (read_store _) s) as [o1 s1] eqn:H1. apply in_proc_inv in H1 as (o1' & p1 & R1 & -> & ->).
  destruct o1' as [state|e| |]; cbn [map_err]; [|intros E; injection E as <- <-; by exists l0..].
  unfold mbind' at 1, mlift. destruct (map_err TE_iq _) as [resp|e| |]; [|intros E; injection E as <- <-; by exists l0..].
  unfold mbind' at 1. destruct (in_proc (decode_patch_list _ _ _ _ _ _ _ _ _) _) as [o2 s2] eqn:H2. apply in_proc_inv in H2 as (o2' & p2 & R2 & -> & ->).
  destruct o2' as [ [ [mus st] pl]|e| |]; cbn [map_err]; [|intros E; injection E as <- <-; by exists l0..].
  unfold mbind' at 1. cbn [sc_proc].
  destruct (get_missing_key_ids pl p2) as [om p3]. set (s3 := mkSyncClient p3 (sc_key_requests s) (sc_device s) (sc_log s)).
  assert (forall missing, exists l, sc_log (dispatch_all (se_now env) (if hs_version state =? 0 then true else full) mus (request_missing (se_instant env) missing s3)) = sc_log s ++ l
    /\ Forall (fun e => is_pause e = false) l) as Hl.
  { intros missing. destruct (request_missing_fields (se_instant env) missing s3) as (_ & _ & l1 & E1 & F1).
    destruct (dispatch_many (se_now env) (if hs_version state =? 0 then true else full) mus (request_missing (se_instant env) missing s3)) as (_ & _ & _ & l2 & E2 & F2).
    cbn zeta in *. exists (l1 ++ l2). rewrite E2, E1, app_assoc. split; [done|]. apply Forall_app_2; [done|]. eapply Forall_impl; [done|]. by intros e []. }
  set (miss := match om with Ok v => v | _ => [] end).
  intros H. assert (in_proc (write_store (store_set_version (patch_name_as_str name) st))
    (dispatch_all (se_now env) (if hs_version state =? 0 then true else full) mus (request_missing (se_instant env) miss s3)) = (o, s')) as H'
    by (unfold miss; by destruct om).
  clear H. apply in_proc_inv in H' as (o3 & p4 & R3 & -> & ->). destruct (Hl miss) as (l & El & Fl). exists l. split_and!; [done|done|].
  intros N1 N2 N3. unfold write_store in R3. destruct (store_set_version _ _ _) as [o4 b4]. injection R3 as <- _.
  destruct o4 as [u|e| |]; cbn in *; [by destruct (N2 u)|by destruct (N1 e)|done|done].
Qed.

(** ** Missing keys *)

(** An error that is not about a missing key in the words the retry looks for. *)
Definition not_key_error (e : SyncError) : Prop := e <> SE_key_not_found.

Lemma mbind'_err {S E A C} (m : comp S E A) (k : A -> comp S E C) s e s' (P : E -> Prop) :
  mbind' m k s = (Err e, s') -> (forall e s', m s = (Err e, s') -> P e) -> (forall a s1, m s = (Ok a, s1) -> k a s1 = (Err e, s') -> P e) -> P e.
Proof. unfold mbind'. destruct (m s) as [ [a|e1| |] s1]; try done; [eauto|]. intros H. injection H as <- <-. eauto. Qed.

Lemma read_store_err {A} (r : B -> outcome StoreError A) p e p' : read_store r p = (Err e, p') -> not_key_error e.
Proof. unfold read_store. destruct (r (backend p)); cbn; try done. intros E. by injection E as <- _. Qed.

Lemma write_store_err {A} (w : comp B StoreError A) p e p' : write_store w p = (Err e, p') -> not_key_error e.
Proof. unfold write_store. destruct (w (backend p)) as [ [] b]; cbn; try done. intros E. by injection E as <- _. Qed.

Lemma mlift_err {S A} (o : outcome AppStateError A) (s : S) e s' : mlift (map_err SE_app_state o) s = (Err e, s') -> not_key_error e.
Proof. unfold mlift. destruct o; cbn; try done. intros E. by injection E as <- _. Qed.

Lemma persist_err name st removed added (p : AppStateProcessor B) e p' : persist name st removed added p = (Err e, p') -> not_key_error e.
Proof.
  unfold persist. intros H. eapply mbind'_err in H; [done|intros; by eapply write_store_err|]. intros _ p1 _ H1.
  eapply mbind'_err in H1; [done| |]; [destruct removed; [done|intros; by eapply write_store_err]|]. intros _ p2 _ H2.
  destruct added; [done|by eapply write_store_err].
Qed.

Lemma fetch_prev_err name ks db (p : AppStateProcessor B) e p' : fetch_prev name ks db p = (Err e, p') -> not_key_error e.
Proof.
  revert db p. induction ks as [|k ks IH]; intros db p; [done|]. cbn [fetch_prev]. intros H.
  eapply mbind'_err in H; [done|intros; by eapply read_store_err|]. intros v p1 _ H1. by apply IH in H1.
Qed.

Lemma snapshot_step_err name vm sn (p : AppStateProcessor B) e p' :
  process_snapshot_step decode_action json_strings b64 name vm sn p = (Err e, p') -> not_key_error e.
Proof.
  unfold process_snapshot_step. destruct (process_snapshot _ _ _ _ _ _ _) as [o st]. intros H.
  eapply mbind'_err in H; [done|intros; by eapply mlift_err|]. intros r p1 _ H1.
  eapply mbind'_err in H1; [done|intros; by eapply persist_err|]. done.
Qed.

Lemma patch_step_err name vm st patch (p : AppStateProcessor B) e p' :
  process_patch_step decode_action json_strings b64 name vm st patch p = (Err e, p') -> not_key_error e.
Proof.
  unfold process_patch_step. intros H. eapply mbind'_err in H; [done|intros; by eapply fetch_prev_err|]. intros db p1 _ H1.
  destruct (process_patch _ _ _ _ _ _ _ _) as [o st']. eapply mbind'_err in H1; [done|intros; by eapply mlift_err|]. intros r p2 _ H2.
  eapply mbind'_err in H2; [done|intros; by eapply persist_err|]. done.
Qed.

Lemma patches_err name vm patches st (p : AppStateProcessor B) e p' :
  process_patches decode_action json_strings b64 name vm st patches p = (Err e, p') -> not_key_error e.
Proof.
  revert st p e p'. induction patches as [|patch patches IH]; intros st p e p'; [done|]. cbn [process_patches]. intros H.
  eapply mbind'_err in H; [done|intros; by eapply patch_step_err|]. intros [mus st1] p1 _ H1.
  eapply mbind'_err in H1; [done|intros; by eapply IH|]. by intros [mus' st2] p2 _ H2.
Qed.

Lemma prefetch_ok (pl : PatchList X) (p : AppStateProcessor B) : exists p', prefetch_keys b64 pl p = (Ok tt, p').
Proof.
  unfold prefetch_keys. generalize (collect_key_ids_from_patch_list (pl_snapshot pl) (pl_patches pl)). intros l. revert p.
  induction l as [|k l IH]; intros p; [by exists p|]. rewrite mfor_cons. unfold mbind'. apply IH.
Qed.

Lemma decode_err download resp (p : AppStateProcessor B) e p' :
  decode_patch_list decode_action json_strings b64 decode_ref decode_patch decode_snapshot download resp true p = (Err e, p') -> not_key_error e.
Proof.
  assert (forall children e, decode_patches decode_patch children = Err e -> not_key_error e) as Hps.
  { intros cs. induction cs as [|c cs IH]; [done|]. intros e0. cbn [decode_patches].
    destruct (if tag c =s lit "patch" then content c else None) as [ [] |]; try apply IH.
    destruct (decode_patch _); [|intros E; by injection E as <-]. destruct (decode_patches _ _) as [|e1| |]; cbn; try done.
    intros E. injection E as <-. by apply IH. }
  unfold decode_patch_list. intros H. eapply mbind'_err in H; [done| |].
  - intros e0 p0 Hl. unfold mlift in Hl. injection Hl as Hl _. unfold parse_patch_list in Hl.
    destruct (get_optional_child_by_tag _ _) as [c|]; cbn [ok_or obind] in Hl; [|by injection Hl as <-]. destruct (ap_string _ _) as [n ag]. destruct (ap_optional_bool _ _) as [h ag'].
    destruct (ap_finish ag'); cbn [map_err obind] in Hl; try done; [|by injection Hl as <-].
    destruct (get_optional_child _ (lit "patches")) as [pn|]; [|done]. destruct (children pn) as [cs|]; [|done].
    destruct (decode_patches decode_patch cs) eqn:Ed; cbn in Hl; try done. injection Hl as <-. by eapply Hps.
  - intros pl p1 _ H1. unfold process_patch_list in H1. destruct (prefetch_ok (mkPatchList (pl_name pl) (pl_has_more_patches pl) (pl_patches pl)
      (match pl_snapshot pl, pl_snapshot_ref pl with None, Some ext => match download ext with Some data => decode_snapshot data | None => None end | sn, _ => sn end)
      (pl_snapshot_ref pl)) p1) as [p2 E2]. unfold mbind' at 1 in H1. rewrite E2 in H1. cbn [pl_name pl_patches pl_snapshot] in H1.
    eapply mbind'_err in H1; [done|intros; by eapply read_store_err|]. intros st p3 _ H3.
    eapply mbind'_err in H3; [done| |].
    + intros e0 p0. case_match; [intros; by eapply snapshot_step_err|done].
    + intros [mus st1] p4 _ H4. eapply mbind'_err in H4; [done|intros; by eapply patches_err|]. intros [mus' st2] p5 _ H5.
      eapply mbind'_err in H5; [done| |]; [|done]. intros e0 p0. repeat case_match; try done; intros; by eapply write_store_err.
Qed.

Lemma task_err env name full (s s' : client) e : process_app_state_sync_task env name full s = (Err (TE_sync e), s') -> not_key_error e.
Proof.
  unfold process_app_state_sync_task. set (P := fun e : SyncTaskError => match e with TE_sync e => not_key_error e | _ => True end).
  assert (forall A (m : comp _ _ A) (s : client) e s', (forall p e p', m p = (Err e, p') -> not_key_error e) -> in_proc m s = (Err e, s') -> P e) as Hp.
  { intros A m s0 e0 s1 Hm Hi. apply in_proc_inv in Hi as (o & p & R & Eo & _). destruct o as [|e1| |]; cbn in Eo; try done. injection Eo as ->. by apply (Hm _ _ _ R). }
  intros H. change (P (TE_sync e)). eapply mbind'_err; [exact H|intros; eapply Hp; [|done]; apply read_store_err|]. intros st s1 _ H1.
  eapply mbind'_err; [exact H1| |]; [intros e0 s0 Hq; unfold mlift in Hq; destruct (se_send_iq _ _); cbn in Hq; try done; by injection Hq as <- _|].
  intros resp s2 _ H2. eapply mbind'_err; [exact H2|intros; eapply Hp; [|done]; apply decode_err|]. intros [ [mus st'] pl] s3 _ H3.
  eapply mbind'_err; [exact H3|intros e0 s0; cbn beta; by destruct (get_missing_key_ids pl (sc_proc s3)) as [ [] ]|]. intros missing s4 _ H4.
  eapply mbind'_err; [exact H4|done|]. intros [] s5 _ H5. eapply mbind'_err; [exact H5|done|]. intros [] s6 _ H6.
  eapply Hp; [|exact H6]. apply write_store_err.
Qed.

(** The retry waits for keys only on an error in certain words, and no error about
    a missing key has them: only the text of a failed request, of the storage, of
    a bad attribute or of an undecodable patch could. *)
Theorem key_wait_cause env name full (s s' : client) e : process_app_state_sync_task env name full s = (Err e, s') ->
  str_contains (lit "app state key not found") (task_error_text e) = true ->
  (exists e', e = TE_iq e') \/ (exists msg, e = TE_sync (SE_store (StoreFailed msg))) \/ (exists b, e = TE_sync (SE_attrs b)) \/ e = TE_sync SE_bad_patch.
Proof.
  intros H Hc. destruct e as [e|e]; [eauto|]. right. apply task_err in H. destruct e as [| | |[msg]| |e|]; eauto; exfalso; [|by apply H| |].
  - vm_compute in Hc. done.
  - destruct e; vm_compute in Hc; done.
  - vm_compute in Hc. done.
Qed.

(** So a run that fails for want of a key is not repeated: nothing is waited for,
    and the key is not requested. *)
Theorem missing_key_not_awaited fuel attempts name (s s' : client) :
  process_app_state_sync_task (at_env (attempts 1)) name true (others_act (attempts 1) s) = (Err (TE_sync (SE_app_state KeyNotFound)), s') ->
  fetch_app_state_with_retry (S fuel) attempts name 0 s = (Err (TE_sync (SE_app_state KeyNotFound)), s') /\ sc_log s' = sc_log s.
Proof.
  intros H. split; [cbn [fetch_app_state_with_retry]; change (0 + 1) with 1; rewrite H; done|].
  destruct (task_log _ _ _ _ _ _ H) as (l & El & _ & Hl). rewrite El, Hl; try done. rewrite app_nil_r.
  unfold others_act. by destruct (at_others _ _) as [ [] ].
Qed.

(** ** The retry *)

Definition pauses (s : client) : list (SyncEffect Act) := List.filter is_pause (sc_log s).
Definition slept (e : SyncEffect Act) : Z := match e with E_sleep ms => ms | E_wait_keys sec => sec * 1000 | _ => 0 end.

Definition total (l : list (SyncEffect Act)) : Z := foldr (fun e acc => slept e + acc) 0 l.

Lemma pauses_app l l' : total (l ++ l') = total l + total l'.
Proof. induction l as [|x l IH]; [done|]. cbn. fold (total (l ++ l')) (total l). lia. Qed.

Lemma pauses_task env name full (s s' : client) o : process_app_state_sync_task env name full s = (o, s') -> pauses s' = pauses s.
Proof.
  intros (l & El & Fl & _)%task_log. unfold pauses. rewrite El, List.filter_app. replace (List.filter is_pause l) with (@nil (SyncEffect Act)); [by rewrite app_nil_r|].
  clear El. induction Fl as [|e l He _ IH]; cbn; [done|by rewrite He].
Qed.

Lemma pauses_others a (s : client) : pauses (others_act a s) = pauses s.
Proof. unfold others_act. by destruct (at_others _ _) as [ [] ]. Qed.

Lemma pauses_log e (s : client) : is_pause e = true -> pauses (log_effect e s) = pauses s ++ [e].
Proof. intros He. unfold pauses. cbn. rewrite List.filter_app. cbn. by rewrite He. Qed.

(** After the first attempt the pauses are those for a locked data base. *)
Lemma fetch_later n attempts name (s : client) : (n <= 4)%nat ->
  let k := Z.of_nat (5 - n) in
  (forall fuel, (S n <= fuel)%nat -> fetch_app_state_with_retry fuel attempts name k s = fetch_app_state_with_retry (S n) attempts name k s)
  /\ exists l, pauses (fetch_app_state_with_retry (S n) attempts name k s).2 = pauses s ++ l /\ (length l <= n)%nat
       /\ total l <= 3750 - 150 * k - 100 * k * (k + 1).
Proof.
  revert s. induction n as [|n IH]; intros s Hn k.
  - split.
    + intros [|fuel] Hf; [lia|]. cbn [fetch_app_state_with_retry]. destruct (process_app_state_sync_task _ _ _ _) as [ [u|e| |] s1]; try done.
      change (k + 1 =? 1) with false. rewrite andb_false_r. change (k + 1 <? APP_STATE_RETRY_MAX_ATTEMPTS) with false. by rewrite andb_false_r.
    + exists []. rewrite app_nil_r. split_and!; [|done|done]. cbn [fetch_app_state_with_retry].
      destruct (process_app_state_sync_task _ _ _ _) as [o s1] eqn:Et. apply pauses_task in Et. rewrite pauses_others in Et.
      destruct o as [u|e| |]; try done. change (k + 1 =? 1) with false. rewrite andb_false_r. change (k + 1 <? APP_STATE_RETRY_MAX_ATTEMPTS) with false. by rewrite andb_false_r.
  - assert (Z.of_nat (5 - n) = k + 1) as Ek by lia. assert ((k + 1 =? 1) = false) as E1 by lia. specialize (fun s => IH s ltac:(lia)). rewrite Ek in IH. cbn zeta in IH.
    assert (forall s, pauses (others_act (attempts (k + 1)) s) = pauses s) as Ho by (intros; apply pauses_others).
    split.
    + intros [|fuel] Hf; [lia|]. cbn [fetch_app_state_with_retry]. destruct (process_app_state_sync_task _ _ _ _) as [ [u|e| |] s1]; try done.
      rewrite E1, andb_false_r. destruct (_ && _); [|done]. apply IH. lia.
    + cbn [fetch_app_state_with_retry]. destruct (process_app_state_sync_task _ _ _ _) as [o s1] eqn:Et. apply pauses_task in Et. rewrite pauses_others in Et.
      assert (exists l, pauses s1 = pauses s ++ l /\ (length l <= S n)%nat /\ total l <= 3750 - 150 * k - 100 * k * (k + 1)) as Hend.
      { exists []. rewrite app_nil_r. split_and!; [done|cbn; lia|cbn; nia]. }
      destruct o as [u|e| |]; try exact Hend. rewrite E1, andb_false_r. destruct (_ && _); [|exact Hend].
      destruct (IH (log_effect (E_sleep (200 * (k + 1) + 150)) s1)) as (_ & l & El & Hl & Ht). rewrite pauses_log, Et in El by done.
      exists (E_sleep (200 * (k + 1) + 150) :: l). split_and!; [by rewrite <- (app_assoc (pauses s) [_] l) in El|cbn; lia|]. cbn [total foldr slept]. fold (total l). nia.
Qed.

(** The retry ends: it makes at most six attempts, with at most five pauses that
    last no longer than 13.4 seconds together. *)
Theorem fetch_retry_bounded attempts name (s : client) :
  (forall fuel, (6 <= fuel)%nat -> fetch_app_state_with_retry fuel attempts name 0 s = fetch_app_state_with_retry 6 attempts name 0 s)
  /\ exists l, pauses (fetch_app_state_with_retry 6 attempts name 0 s).2 = pauses s ++ l /\ (length l <= 5)%nat /\ total l <= 13400.
Proof.
  pose proof (fun s => fetch_later 4 attempts name s ltac:(lia)) as IH. change (Z.of_nat (5 - 4)) with 1 in IH. cbn zeta in IH. split.
  - intros [|fuel] Hf; [lia|]. remember 5%nat as five eqn:E5. cbn [fetch_app_state_with_retry]. change (0 + 1) with 1.
    destruct (process_app_state_sync_task _ _ _ _) as [ [u|e| |] s1]; try done.
    destruct (_ && (1 =? 1)); [apply IH; lia|]. destruct (_ && _); [apply IH; lia|done].
  - remember 5%nat as five eqn:E5. cbn [fetch_app_state_with_retry]. change (0 + 1) with 1.
    destruct (process_app_state_sync_task _ _ _ _) as [o s1] eqn:Et. apply pauses_task in Et. rewrite pauses_others in Et.
    assert (exists l, pauses s1 = pauses s ++ l /\ (length l <= five)%nat /\ total l <= 13400) as Hend.
    { exists []. rewrite app_nil_r. split_and!; [done|cbn; lia|done]. }
    assert (forall s2 l0, pauses s2 = pauses s ++ l0 -> (length l0 <= 1)%nat -> total l0 <= 10000 ->
      exists l, pauses (fetch_app_state_with_retry five attempts name 1 s2).2 = pauses s ++ l /\ (length l <= five)%nat /\ total l <= 13400) as Hmore.
    { intros s2 l0 E0 H0 T0. subst five. destruct (IH s2) as (_ & l & El & Hl & Ht). exists (l0 ++ l). rewrite El, E0, app_assoc, length_app. split_and!; [done|lia|].
      rewrite pauses_app. lia. }
    destruct o as [u|e| |]; try exact Hend. destruct (_ && (1 =? 1)).
    + destruct (at_keys_received _); [apply (Hmore s1 []); [by rewrite app_nil_r|cbn; lia|done]|].
      apply (Hmore _ [E_wait_keys 10]); [by rewrite pauses_log, Et|done|done].
    + destruct (_ && _); [|exact Hend]. apply (Hmore _ [E_sleep (200 * 1 + 150)]); [by rewrite pauses_log, Et|done|done].
Qed.

(** ** Which keys are requested *)

Section Keys.
Context {HKS : AppSyncKeys B} (b64_inj : Inj eq eq b64).

(** The cached keys are stored. *)
Definition cache_backed (p : AppStateProcessor B) : Prop :=
  forall k, is_Some (key_cache p !! b64 k) -> is_Some (view_key (backend p) k).

(** Only the collections differ. *)
Definition same_keys (p p' : AppStateProcessor B) : Prop := key_cache p' = key_cache p /\ view_key (backend p') = view_key (backend p).

Lemma same_keys_trans p1 p2 p3 : same_keys p1 p2 -> same_keys p2 p3 -> same_keys p1 p3.
Proof. intros [? ?] [? ?]. split; congruence. Qed.

Lemma get_key_backed k p : cache_backed p -> cache_backed (get_app_state_key b64 k p).2.
Proof.
  intros Hc. unfold get_app_state_key. destruct (key_cache p !! b64 k) eqn:Ek; [done|].
  unfold mbind', read_store. destruct (get_sync_key k (backend p)) as [ [d|]|e| |] eqn:Eg; cbn; try done.
  intros k' Hk'. cbn in *. destruct (decide (k' = k)) as [->|N]; [by rewrite <- (get_sync_key_ok _ _ _ Eg)|].
  rewrite lookup_insert_ne in Hk' by (intros E; by apply N, (inj b64)). by apply Hc.
Qed.

Lemma prefetch_backed (pl : PatchList X) p u p' : prefetch_keys b64 pl p = (Ok u, p') -> cache_backed p -> cache_backed p'.
Proof.
  unfold prefetch_keys. generalize (collect_key_ids_from_patch_list (pl_snapshot pl) (pl_patches pl)). intros l. revert p.
  induction l as [|k l IH]; intros p; [by intros E; injection E as _ <-|]. rewrite mfor_cons. intros Hm Hc.
  apply mbind'_inv in Hm as (a & s1 & H1 & H2). injection H1 as _ <-. apply (IH _ H2). by apply get_key_backed.
Qed.

Lemma write_same {A} (w : comp B StoreError A) p a p' :
  (forall b o b', w b = (o, b') -> view_key b' = view_key b) -> write_store w p = (Ok a, p') -> same_keys p p'.
Proof. intros Hw [H Hc]%write_store_inv. split; [done|]. by eapply Hw. Qed.

Lemma persist_same name st removed added p u p' : persist name st removed added p = (Ok u, p') -> same_keys p p'.
Proof.
  unfold persist. intros (u1 & p1 & H1 & H)%mbind'_inv. apply mbind'_inv in H as (u2 & p2 & H2 & H3).
  eapply same_keys_trans; [eapply write_same; [apply set_version_keys|done]|]. eapply same_keys_trans with p2.
  - destruct removed; [by injection H2 as _ <-|]. eapply write_same; [apply delete_macs_keys|done].
  - destruct added; [by injection H3 as _ <-|]. eapply write_same; [apply put_macs_keys|done].
Qed.

(** What is processed had its keys. *)
Lemma snapshot_keys cache sn name st r st' :
  process_snapshot decode_action json_strings (cached_keys b64 cache) sn true name st = (Ok r, st') ->
  (forall k, key_id_of (snap_key_id sn) = Some k -> is_Some (snap_mac sn) -> is_Some (cache !! b64 k))
  /\ forall rec k, rec ∈ snap_records sn -> key_id_of (rec_key_id rec) = Some k -> is_Some (cache !! b64 k).
Proof.
  unfold process_snapshot. destruct (update_hash_from_records _ _); try done. intros E. injection E as E _.
  apply obind_Ok in E as (u & E1 & E2). split.
  - intros k Hk [mac Hm]. rewrite Hm, Hk in E1. unfold cached_keys in E1. destruct (cache !! b64 k); [eauto|done].
  - apply obind_Ok in E2 as ([mus macs] & E2 & _). revert mus macs E2. generalize (snap_records sn) as rs.
    intros rs. induction rs as [|r0 rs IH]; intros mus macs; [by intros _ rec k Hin%not_elem_of_nil|]. cbn [decode_snapshot_records]. intros E2.
    apply obind_Ok in E2 as (kid & Hk & E2). apply obind_Ok in E2 as (ks & Hks & E2). apply obind_Ok in E2 as (mu & _ & E2).
    apply obind_Ok in E2 as ([mus' macs'] & E2 & _). intros rec k [->|Hin]%elem_of_cons Hr; [|by eapply IH].
    rewrite Hr in Hk. injection Hk as <-. unfold cached_keys in Hks. destruct (cache !! b64 k); [eauto|done].
Qed.

Lemma patch_keys cache prev patch name st r st' k :
  process_patch decode_action json_strings (cached_keys b64 cache) prev patch true name st = (Ok r, st') ->
  key_id_of (patch_key_id patch) = Some k -> is_Some (cache !! b64 k).
Proof.
  unfold process_patch. intros H Hk. rewrite Hk in H. destruct (update_hash _ _ _) as [ [u|e| |] st1]; try done. injection H as H _.
  apply obind_Ok in H as (u' & H & _). unfold cached_keys in H. destruct (cache !! b64 k); [eauto|done].
Qed.

Lemma snapshot_step_same name sn p r p' : process_snapshot_step decode_action json_strings b64 name true sn p = (Ok r, p') ->
  same_keys p p' /\ exists o st, process_snapshot decode_action json_strings (cached_keys b64 (key_cache p)) sn true name hash_state_default = (Ok o, st).
Proof.
  unfold process_snapshot_step. destruct (process_snapshot _ _ _ _ _ _ _) as [o st]. intros (res & p1 & H1 & H)%mbind'_inv. injection H1 as H1%map_err_Ok <-.
  apply mbind'_inv in H as (u & p2 & H2 & H). injection H as _ <-. split; [by eapply persist_same|]. subst o. eauto.
Qed.

Lemma patch_step_same name st patch p r p' : process_patch_step decode_action json_strings b64 name true st patch p = (Ok r, p') ->
  same_keys p p' /\ forall k, key_id_of (patch_key_id patch) = Some k -> is_Some (key_cache p !! b64 k).
Proof.
  unfold process_patch_step. intros (db & p1 & H1 & H)%mbind'_inv. apply (fetch_prev_spec _ _ ∅) in H1 as [-> _]; [|done].
  destruct (process_patch _ _ _ _ _ _ _ _) as [o st'] eqn:Ep. apply mbind'_inv in H as (res & p2 & H2 & H). injection H2 as H2%map_err_Ok <-. subst o.
  apply mbind'_inv in H as (u & p3 & H3 & H). injection H as _ <-. split; [by eapply persist_same|]. intros k Hk. by eapply patch_keys.
Qed.

Lemma patches_same name patches st p r p' : process_patches decode_action json_strings b64 name true st patches p = (Ok r, p') ->
  same_keys p p' /\ forall patch k, patch ∈ patches -> key_id_of (patch_key_id patch) = Some k -> is_Some (key_cache p !! b64 k).
Proof.
  revert st p r p'. induction patches as [|pa patches IH]; intros st p r p'; cbn [process_patches].
  - intros H. injection H as _ <-. split; [done|]. by intros patch k Hin%not_elem_of_nil.
  - intros ([mus st1] & p1 & [ [Hc Hv] Hk]%patch_step_same & H)%mbind'_inv. apply mbind'_inv in H as ([mus' st2] & p2 & [ [Hc2 Hv2] Hk2]%IH & H). injection H as _ <-.
    split; [split; congruence|]. intros patch k [->|Hin]%elem_of_cons Hp; [by apply Hk|]. rewrite <- Hc. by eapply Hk2.
Qed.

(** After a list was processed every key it names is stored, but for that of a
    snapshot without a MAC. *)
Lemma processed_keys (pl : PatchList X) p o p' : cache_backed p -> process_patch_list decode_action json_strings b64 pl true p = (Ok o, p') ->
  (forall sn, pl_snapshot pl = Some sn -> key_id_of (snap_key_id sn) <> None -> is_Some (snap_mac sn)) ->
  cache_backed p' /\ forall k, k ∈ collect_key_ids_from_patch_list (pl_snapshot pl) (pl_patches pl) -> is_Some (view_key (backend p') k).
Proof.
  intros Hc. unfold process_patch_list. intros (u & p1 & H1 & H)%mbind'_inv Hmac. pose proof (prefetch_backed _ _ _ _ H1 Hc) as Hc1. clear H1.
  apply mbind'_inv in H as (st & p2 & [_ ->]%read_store_inv & H). apply mbind'_inv in H as ([mus st1] & p3 & H3 & H).
  apply mbind'_inv in H as ([mus' st2] & p4 & [S4 K4]%patches_same & H). apply mbind'_inv in H as (u' & p5 & H5 & H). injection H as _ <-.
  assert (same_keys p4 p5) as S5.
  { destruct (pl_patches pl), (pl_snapshot pl); try (by injection H5 as _ <-). eapply write_same; [apply set_version_keys|done]. }
  assert (same_keys p1 p3 /\ forall sn, pl_snapshot pl = Some sn -> exists o st, process_snapshot decode_action json_strings (cached_keys b64 (key_cache p1)) sn true
    (patch_name_as_str (pl_name pl)) hash_state_default = (Ok o, st)) as [S3 K3].
  { destruct (pl_snapshot pl) as [sn|]; [|injection H3 as _ _ <-; done]. apply snapshot_step_same in H3 as [? H3]. split; [done|]. intros sn' E. by injection E as <-. }
  assert (same_keys p1 p5) as [Sc Sv] by (eapply same_keys_trans; [done|by eapply same_keys_trans]).
  split; [intros k; rewrite Sc, Sv; apply Hc1|]. intros k Hk. rewrite Sv. apply Hc1.
  apply collect_key_ids_spec in Hk as [(sn & Es & Hk)|(patch & Hin & Hk)].
  - destruct (K3 sn Es) as (o' & st' & Ho). apply snapshot_keys in Ho as [Ka Kb]. destruct Hk as [Hk|(rec & Hin & Hk)]; [|by eapply Kb].
    apply Ka; [done|]. apply (Hmac sn Es). by rewrite Hk.
  - destruct S3 as [<- _]. by eapply K4.
Qed.

Lemma missing_none ids (p p' : AppStateProcessor B) v : (forall k, k ∈ ids -> is_Some (view_key (backend p) k)) -> missing_ids ids p = (Ok v, p') -> v = [].
Proof.
  revert v p'. induction ids as [|k ids IH]; intros v p' Hk; cbn [missing_ids]; [intros E; by injection E as <- _|].
  intros (d & p1 & [Hd ->]%read_store_inv & H)%mbind'_inv. apply mbind'_inv in H as (rest & p2 & H2 & H). injection H as <- _.
  apply get_sync_key_ok in Hd. destruct (Hk k) as [x Hx]; [by left|]. rewrite Hx in Hd. subst d. eapply IH; [|done]. intros k' Hk'. apply Hk. by right.
Qed.

(** Keys are never asked for: a run that gets as far as asking found every key it
    needed, since it stopped at the first one it did not have. *)
Theorem synced_requests_no_key env name full (s s' : client) : cache_backed (sc_proc s) ->
  process_app_state_sync_task env name full s = (Ok tt, s') ->
  (forall q resp pl sn, se_send_iq env q = Ok resp -> answered env resp pl -> pl_snapshot pl = Some sn -> key_id_of (snap_key_id sn) <> None -> is_Some (snap_mac sn)) ->
  sc_key_requests s' = sc_key_requests s /\ exists l, sc_log s' = sc_log s ++ l /\ Forall (fun e => is_request e = false) l.
Proof.
  intros Hc (state & resp & mus & st & pl & p & missing & p1 & s2 & _ & Hiq & Hdec & Hm & -> & -> & _ & _ & El & Er)%task_parts Hmac.
  apply decode_answered in Hdec as (pl' & Ha & Hp). assert (pl' = pl) as ->.
  { unfold process_patch_list in Hp. apply mbind'_inv in Hp as (? & ? & _ & Hp). apply mbind'_inv in Hp as (? & ? & _ & Hp). apply mbind'_inv in Hp as ([] & ? & _ & Hp).
    apply mbind'_inv in Hp as ([] & ? & _ & Hp). apply mbind'_inv in Hp as (? & ? & _ & Hp). by injection Hp as _ _ <- _. }
  destruct (processed_keys _ _ _ _ Hc Hp) as [_ Hk]; [intros sn; by eapply Hmac|].
  assert (missing = []) as ->.
  { subst missing. unfold get_missing_key_ids. destruct (missing_ids _ _) as [ [v|e| |] q] eqn:Eq; try done. by eapply missing_none. }
  match type of El with context [dispatch_all ?a ?b ?c ?d] => destruct (dispatch_many a b c d) as (_ & Er2 & _ & l & El2 & Fl) end.
  cbn zeta in *. rewrite El, El2, Er, Er2. cbn. split; [done|]. exists l. split; [done|]. eapply Forall_impl; [done|]. by intros e [].
Qed.
End Keys.
End ClientSync.

(** ** A synchronisation to evaluate the model on *)

#[export] Instance MemStore_keys : AppSyncKeys MemStore.
Proof.
  refine {| view_key b k := mem_keys b !! k |}.
  - intros k b v E. by injection E as <-.
  - intros n st b o b' E. by injection E as _ <-.
  - intros n v l b o b' E. by injection E as _ <-.
  - intros n l b o b' E. by injection E as _ <-.
Defined.

#[local] Existing Instances toy_hkdf toy_hashes toy_aes.
#[local] Existing Instance plain_hex.

Definition toy_own : Device :=
  let k := mkKeyPair (mkPublicKey []) (mkPrivateKey []) in
  mkDevice (Some (jid_new (lit "1") SERVER_JID)) None 1 k k k 1 [] [] None (lit "me") 0 0 0 0 (mkDeviceProps None None None None None) None.

(** The answer: the patch of [Sample], under the name it has on the wire. *)
Definition toy_answer : Node :=
  build (b_children (builder_new (lit "iq")) [build (b_children (builder_new (lit "sync"))
    [build (b_children (b_attr (builder_new (lit "collection")) (lit "name") (lit "regular"))
       [build (b_children (builder_new (lit "patches")) [build (b_bytes (builder_new (lit "patch")) [1])])])])]).

Definition toy_action (pt : bytes) : option (SyncActionData (SyncActionValue unit)) := Some (mkActionData None None).
Definition toy_decode_patch (raw : bytes) : option SyncdPatch := Some Sample.patch.
Definition toy_env : SyncEnv (X := unit) := mkSyncEnv (fun _ => Ok toy_answer) (fun _ => None) 0 0.
Definition toy_start (b : MemStore) : SyncClient MemStore unit := mkSyncClient (processor_new b) ∅ toy_own [].

Definition toy_task (b : MemStore) :=
  process_app_state_sync_task toy_action Sample.json (fun b => b) (fun _ => None) toy_decode_patch (fun _ => None) (fun t => Some t) toy_env Regular false (toy_start b).

Lemma toy_answered q resp pl : se_send_iq toy_env q = Ok resp -> answered (fun _ => None) toy_decode_patch (fun _ => None) toy_env resp pl ->
  pl = mkPatchList Regular false [Sample.patch] None None.
Proof. cbn. intros E. injection E as <-. intros (pl0 & Hp & ->). vm_compute in Hp. injection Hp as <-. reflexivity. Qed.

Lemma sync_task_consistent_witness : exists state, persisted (lit "regular") state sample_store (backend (sc_proc (toy_task sample_store).2)).
Proof.
  apply (sync_task_consistent toy_action Sample.json (fun b => b) (fun _ => None) toy_decode_patch (fun _ => None) (fun t => Some t) toy_env Regular false
           (toy_start sample_store)); [vm_compute; reflexivity|].
  intros q resp pl Hq ->%(toy_answered _ _ _ Hq). split_and!; [done| |vm_compute; reflexivity].
  apply Forall_cons_2; [exact Sample.mutations_regular|apply Forall_nil_2].
Defined.

Lemma synced_requests_no_key_witness : sc_key_requests (toy_task sample_store).2 = ∅
  /\ exists l, sc_log (toy_task sample_store).2 = [] ++ l /\ Forall (fun e => is_request e = false) l.
Proof.
  apply (synced_requests_no_key toy_action Sample.json (fun b => b) (fun _ => None) toy_decode_patch (fun _ => None) (fun t => Some t)
           ltac:(by intros x y E) toy_env Regular false (toy_start sample_store)).
  - intros k [x Hx]. cbn in Hx. by rewrite lookup_empty in Hx.
  - vm_compute. reflexivity.
  - intros q resp pl sn Hq ->%(toy_answered _ _ _ Hq). done.
Defined.

(** The same account without the key. *)
Definition toy_keyless : MemStore := mkMemStore (mem_states sample_store) (mem_macs sample_store) ∅.
Definition toy_attempts (n : u32) : Attempt (B := MemStore) (X := unit) := mkAttempt toy_env (fun x => x) false.

Lemma missing_key_not_awaited_witness :
  fetch_app_state_with_retry toy_action Sample.json (fun b => b) (fun _ => None) toy_decode_patch (fun _ => None) (fun _ => []) (fun _ => []) [] (fun t => Some t)
    6 toy_attempts Regular 0 (toy_start toy_keyless)
  = (Err (TE_sync (SE_app_state KeyNotFound)), (toy_task toy_keyless).2) /\ sc_log (toy_task toy_keyless).2 = [].
Proof. apply missing_key_not_awaited. vm_compute. reflexivity. Defined.
