(* ===== verification/Gcm.v ===== *)
(** * AES-256 in counter mode and GCM: [warp_core/libsignal/src/crypto/{aes_ctr,aes_gcm}.rs]

    The two streaming ciphers of the Signal crate.  The block cipher, the counter
    mode and GHASH are those of the RustCrypto crates, classes here; the buffering
    of GHASH, the layout of the counter blocks and the tag are the code's.

    The theorems: however a message is cut, encryption and the tag are those of
    the one-shot definition of GCM; decryption inverts it and accepts exactly its
    tag; the ciphers panic exactly when the key stream is used up. *)

From S2P Require Import Prelude RustStd Crypto Media.

Definition TAG_SIZE : nat := 16.
Definition NONCE_SIZE : nat := 12.
(** [Aes256Ctr32::NONCE_SIZE] *)
Definition CTR_NONCE_SIZE : nat := 16 - 4.

(** [aes::Aes256] as a block cipher and [ctr::Ctr32BE] over it: the key stream
    is the encryption of the initial block with its last four bytes counted up
    modulo 2^32; it ends at [keystream_end], where applying it panics. *)
Class AesCtr32 := {
  aes_encrypt_block : bytes -> bytes -> bytes;
  aes_encrypt_length : forall key b, length b = 16%nat -> length (aes_encrypt_block key b) = 16%nat;
  keystream_byte : bytes -> bytes -> Z -> u8;
  keystream_blocks : forall key iv i, length iv = 16%nat -> 0 <= i ->
    map (fun j => keystream_byte key iv (16 * i + Z.of_nat j)) (seq 0 16)
    = aes_encrypt_block key (take 12 iv ++ u32_to_be_bytes (wrap 32 (foldl (fun acc b => acc * 256 + b) 0 (drop 12 iv) + i)));
  keystream_end : Z
}.

(** [ghash::GHash]: blocks are absorbed one after the other. *)
Class Ghash := {
  GHash : Type;
  ghash_new : bytes -> GHash;
  ghash_block : GHash -> bytes -> GHash;
  ghash_finalize : GHash -> bytes;
  ghash_length : forall g, length (ghash_finalize g) = 16%nat
}.

(** Zeros up to a multiple of the block size. *)
Definition pad_block (l : bytes) : bytes := match l with [] => [] | _ => l ++ replicate (16 - length l) 0 end.
Definition padded_to_blocks (l : bytes) : list bytes :=
  let '(bs, r) := as_chunks BLOCK l in bs ++ match r with [] => [] | _ => [pad_block r] end.

Section Gcm.
Context `{HA : !AesCtr32, HG : !Ghash}.

(** ** [Aes256Ctr32] *)

Record Aes256Ctr32 := mkCtr { ct_key : bytes; ct_iv : bytes; ct_pos : Z }.

Definition ctr_new (key nonce : bytes) (init_ctr : u32) : outcome CryptoError Aes256Ctr32 :=
  if negb (length nonce =? CTR_NONCE_SIZE)%nat then Err InvalidNonceSize
  else Ok (mkCtr key (nonce ++ replicate 4 0) (16 * init_ctr)).

(** [Aes256::new_from_slice] *)
Definition aes_from_slice (key : bytes) : outcome CryptoError bytes := if (length key =? 32)%nat then Ok key else Err InvalidKeySize.

Definition ctr_from_key (key nonce : bytes) (init_ctr : u32) : outcome CryptoError Aes256Ctr32 :=
  let? aes := aes_from_slice key in ctr_new aes nonce init_ctr.

Definition keystream (key iv : bytes) (pos : Z) (n : nat) : bytes := map (fun j => keystream_byte key iv (pos + Z.of_nat j)) (seq 0 n).

(** [process]: the buffer it leaves *)
Definition ctr_process {E} (buf : bytes) : comp Aes256Ctr32 E bytes :=
  fun c =>
    if keystream_end <? ct_pos c + Z.of_nat (length buf) then (Panic, c)
    else (Ok (xor_bytes buf (keystream (ct_key c) (ct_iv c) (ct_pos c) (length buf))), mkCtr (ct_key c) (ct_iv c) (ct_pos c + Z.of_nat (length buf))).

(** ** [GcmGhash] *)

Record GcmGhash := mkGcmGhash {
  gg_ghash : GHash; gg_pad : bytes; gg_msg_buf : bytes; gg_msg_buf_offset : usize; gg_ad_len : usize; gg_msg_len : usize
}.

Definition ghash_update (blocks : list bytes) (g : GHash) : GHash := fold_left ghash_block blocks g.
Definition ghash_update_padded (data : bytes) (g : GHash) : GHash := ghash_update (padded_to_blocks data) g.

Definition gcm_ghash_new (h ghash_pad associated_data : bytes) : GcmGhash :=
  mkGcmGhash (ghash_update_padded associated_data (ghash_new h)) ghash_pad (replicate TAG_SIZE 0) 0 (length associated_data) 0.

(** [copy_from_slice] into a part of the buffer *)
Definition buf_write (at_ : nat) (data buf : bytes) : bytes := take at_ buf ++ data ++ drop (at_ + length data) buf.

(** The part of [update] for an empty buffer. *)
Definition ghash_update_aligned (msg : bytes) (g : GcmGhash) : GcmGhash :=
  let full_blocks := (length msg / 16)%nat in
  let leftover := (length msg - 16 * full_blocks)%nat in
  let ghash := if (0 <? full_blocks)%nat then ghash_update (as_chunks BLOCK (take (16 * full_blocks) msg)).1 (gg_ghash g) else gg_ghash g in
  mkGcmGhash ghash (gg_pad g) (buf_write 0 (drop (full_blocks * 16) msg) (gg_msg_buf g)) leftover (gg_ad_len g) (gg_msg_len g + length msg).

(** [update]; its recursive call is with an empty buffer *)
Definition gcm_ghash_update (msg : bytes) (g : GcmGhash) : GcmGhash :=
  if (0 <? gg_msg_buf_offset g)%nat then
    let taking := Nat.min (length msg) (TAG_SIZE - gg_msg_buf_offset g) in
    let buf := buf_write (gg_msg_buf_offset g) (take taking msg) (gg_msg_buf g) in
    let offset := (gg_msg_buf_offset g + taking)%nat in
    let msg_len := (gg_msg_len g + taking)%nat in
    if (offset =? TAG_SIZE)%nat then
      ghash_update_aligned (drop taking msg) (mkGcmGhash (ghash_update [buf] (gg_ghash g)) (gg_pad g) buf 0 (gg_ad_len g) msg_len)
    else mkGcmGhash (gg_ghash g) (gg_pad g) buf offset (gg_ad_len g) msg_len
  else ghash_update_aligned msg g.

(** The lengths in bits, which wrap. *)
Definition length_block (ad_len msg_len : usize) : bytes :=
  u64_to_be_bytes (wrap 64 (8 * Z.of_nat ad_len)) ++ u64_to_be_bytes (wrap 64 (8 * Z.of_nat msg_len)).

Definition gcm_ghash_finalize (g : GcmGhash) : bytes :=
  let ghash := if (0 <? gg_msg_buf_offset g)%nat then ghash_update_padded (take (gg_msg_buf_offset g) (gg_msg_buf g)) (gg_ghash g) else gg_ghash g in
  let ghash := ghash_update [length_block (gg_ad_len g) (gg_msg_len g)] ghash in
  xor_bytes (ghash_finalize ghash) (gg_pad g).

(** ** Encryption and decryption *)

(** Both objects are a counter and a hash. *)
Record Aes256Gcm := mkGcm { gcm_ctr : Aes256Ctr32; gcm_ghash : GcmGhash }.

(** [setup_gcm], which both constructors are *)
Definition setup_gcm (key nonce associated_data : bytes) : outcome CryptoError Aes256Gcm :=
  if negb (length nonce =? NONCE_SIZE)%nat then Err InvalidNonceSize
  else
    let? aes256 := aes_from_slice key in
    let h := aes_encrypt_block aes256 (replicate TAG_SIZE 0) in
    let? ctr := ctr_new aes256 nonce 1 in
    match ctr_process (replicate 16 0) ctr with
    | (Ok ghash_pad, ctr) => Ok (mkGcm ctr (gcm_ghash_new h ghash_pad associated_data))
    | (Err e, _) => Err e
    | (Panic, _) => Panic
    | (NoFuel, _) => NoFuel
    end.

Definition gcm_encrypt (buf : bytes) : comp Aes256Gcm CryptoError bytes :=
  fun s =>
    let '(o, ctr) := ctr_process buf (gcm_ctr s) in
    match o with
    | Ok out => (Ok out, mkGcm ctr (gcm_ghash_update out (gcm_ghash s)))
    | o => (o, mkGcm ctr (gcm_ghash s))
    end.

Definition compute_tag (s : Aes256Gcm) : bytes := gcm_ghash_finalize (gcm_ghash s).

Definition gcm_decrypt (buf : bytes) : comp Aes256Gcm CryptoError bytes :=
  fun s =>
    let ghash := gcm_ghash_update buf (gcm_ghash s) in
    let '(o, ctr) := ctr_process buf (gcm_ctr s) in (o, mkGcm ctr ghash).

Definition verify_tag (tag : bytes) (s : Aes256Gcm) : outcome CryptoError unit :=
  if negb (length tag =? TAG_SIZE)%nat then Err InvalidTag
  else if negb (tag =s gcm_ghash_finalize (gcm_ghash s)) then Err InvalidTag else Ok tt.

(** A buffer after the other. *)
Fixpoint in_pieces (f : bytes -> comp Aes256Gcm CryptoError bytes) (pieces : list bytes) : comp Aes256Gcm CryptoError bytes :=
  match pieces with
  | [] => mret []
  | b :: pieces => let! x := f b in let! xs := in_pieces f pieces in mret (x ++ xs)
  end.
(** ** What the buffered hash has absorbed *)

Definition absorbed (g0 : GHash) (pad : bytes) (ad_len : nat) (m : bytes) (g : GcmGhash) : Prop :=
  exists bs r, whole bs /\ (length r < BLOCK)%nat /\ m = mjoin bs ++ r
    /\ gg_ghash g = ghash_update bs g0 /\ gg_pad g = pad /\ gg_ad_len g = ad_len /\ gg_msg_len g = length m
    /\ gg_msg_buf_offset g = length r /\ length (gg_msg_buf g) = TAG_SIZE /\ take (length r) (gg_msg_buf g) = r.

Lemma ghash_update_app bs bs' g : ghash_update (bs ++ bs') g = ghash_update bs' (ghash_update bs g).
Proof. apply fold_left_app. Qed.

Lemma mjoin_app' (a b : list bytes) : mjoin (a ++ b) = mjoin a ++ mjoin b.
Proof. induction a as [|x a IH]; [done|]. change (x ++ mjoin (a ++ b) = (x ++ mjoin a) ++ mjoin b). by rewrite IH, app_assoc. Qed.

Lemma buf_write_length at_ data buf : (at_ + length data <= length buf)%nat -> length (buf_write at_ data buf) = length buf.
Proof. intros H. unfold buf_write. rewrite !length_app, length_take, length_drop. lia. Qed.

Lemma buf_write_take at_ data buf : (at_ + length data <= length buf)%nat -> take (at_ + length data) (buf_write at_ data buf) = take at_ buf ++ data.
Proof.
  intros H. unfold buf_write. rewrite app_assoc, take_app_le by (rewrite length_app, length_take; lia).
  apply take_ge. rewrite length_app, length_take. lia.
Qed.

Lemma aligned_absorbed g0 pad adl m msg g : absorbed g0 pad adl m g -> gg_msg_buf_offset g = 0%nat -> absorbed g0 pad adl (m ++ msg) (ghash_update_aligned msg g).
Proof.
  intros (bs & r & Hw & Hr & -> & E1 & E2 & E3 & E4 & E5 & E6 & E7) H0. rewrite H0 in E5. destruct r; [|done]. rewrite app_nil_r in *. clear E7 E5 Hr.
  destruct (blocks_of msg) as (bs' & r' & Hw' & Hr' & ->). exists (bs ++ bs'), r'.
  pose proof (whole_length bs' Hw') as Hl. unfold ghash_update_aligned.
  assert ((length (mjoin bs' ++ r') / 16)%nat = length bs') as ->.
  { rewrite length_app, Hl. unfold BLOCK in *. rewrite Nat.mul_comm, Nat.div_add_l by lia. rewrite Nat.div_small by lia. lia. }
  assert (length (mjoin bs' ++ r') - 16 * length bs' = length r')%nat as -> by (rewrite length_app, Hl; unfold BLOCK; lia).
  assert (16 * length bs' = length (mjoin bs'))%nat as Hm by (rewrite Hl; unfold BLOCK; lia). rewrite (Nat.mul_comm _ 16), Hm, take_app_length, drop_app_length.
  rewrite as_chunks_whole_nil by done. cbn [gg_ghash gg_pad gg_ad_len gg_msg_len gg_msg_buf_offset gg_msg_buf].
  unfold BLOCK, TAG_SIZE in *. split_and!; try done.
  - by apply Forall_app_2.
  - by rewrite mjoin_app', app_assoc.
  - rewrite E1, ghash_update_app. by destruct bs'.
  - rewrite E4, !length_app. lia.
  - by rewrite buf_write_length; [|lia].
  - change (length r') with (0 + length r')%nat. by rewrite buf_write_take; [|lia].
Qed.

Lemma update_absorbed g0 pad adl m msg g : absorbed g0 pad adl m g -> absorbed g0 pad adl (m ++ msg) (gcm_ghash_update msg g).
Proof.
  intros Ha. unfold gcm_ghash_update. destruct (Nat.ltb_spec 0 (gg_msg_buf_offset g)) as [Hp|Hp]; [|by apply aligned_absorbed; [|lia] ].
  destruct Ha as (bs & r & Hw & Hr & -> & E1 & E2 & E3 & E4 & E5 & E6 & E7). rewrite E5 in *. unfold BLOCK, TAG_SIZE in *.
  set (taking := Nat.min (length msg) (16 - length r)). assert (length (take taking msg) = taking) as Ht by (rewrite length_take; lia).
  set (buf := buf_write _ _ _). assert (length buf = 16%nat) as Hb by (unfold buf; rewrite buf_write_length; lia).
  assert (take (length r + taking) buf = r ++ take taking msg) as Hbuf.
  { unfold buf. rewrite <- Ht at 1. rewrite buf_write_take by lia. by rewrite E7. }
  destruct (Nat.eqb_spec (length r + taking) 16) as [E|E].
  - replace ((mjoin bs ++ r) ++ msg) with (((mjoin bs ++ r) ++ take taking msg) ++ drop taking msg) by (by rewrite <- app_assoc, take_drop).
    apply aligned_absorbed; [|done]. exists (bs ++ [buf]), []. rewrite E, take_ge in Hbuf by lia. cbn [gg_ghash gg_pad gg_ad_len gg_msg_len gg_msg_buf_offset gg_msg_buf].
    split_and!; try done.
    + apply Forall_app_2; [done|]. by apply Forall_singleton.
    + unfold BLOCK. cbn. lia.
    + rewrite mjoin_app', app_nil_r, <- app_assoc, Hbuf. by cbn; rewrite app_nil_r.
    + by rewrite E1, ghash_update_app.
    + rewrite E4, !length_app. lia.
  - assert (taking = length msg) as Et by lia. exists bs, (r ++ msg). clearbody buf. rewrite (take_ge msg) in Hbuf by lia. rewrite Et in *.
    cbn [gg_ghash gg_pad gg_ad_len gg_msg_len gg_msg_buf_offset gg_msg_buf]. rewrite !length_app in *. unfold BLOCK. split_and!; try done; try lia.
    by rewrite app_assoc.
Qed.

Lemma padded_blocks_whole bs r : whole bs -> (length r < BLOCK)%nat -> padded_to_blocks (mjoin bs ++ r) = bs ++ padded_to_blocks r.
Proof.
  intros Hw Hr. unfold padded_to_blocks. rewrite as_chunks_whole by done.
  pose proof (as_chunks_whole [] r (Forall_nil_2 _) Hr) as E. change (mjoin [] ++ r) with r in E. by rewrite E.
Qed.

Lemma finalize_absorbed g0 pad adl m g : absorbed g0 pad adl m g ->
  gcm_ghash_finalize g = xor_bytes (ghash_finalize (ghash_update (padded_to_blocks m ++ [length_block adl (length m)]) g0)) pad.
Proof.
  intros (bs & r & Hw & Hr & -> & E1 & E2 & E3 & E4 & E5 & E6 & E7). unfold gcm_ghash_finalize. rewrite E1, E2, E3, E4, E5, E7.
  rewrite padded_blocks_whole by done. rewrite !ghash_update_app. f_equal. f_equal. f_equal. by destruct r.
Qed.

(** ** The one-shot definition *)

(** The key stream of counter mode from block [from] on. *)
Definition gctr (key nonce : bytes) (from : Z) (n : nat) : bytes :=
  take n (mjoin (map (fun i => aes_encrypt_block key (nonce ++ u32_to_be_bytes (wrap 32 (from + Z.of_nat i)))) (seq 0 (S (n / 16))))).

Definition gcm_ciphertext (key nonce p : bytes) : bytes := xor_bytes p (gctr key nonce 2 (length p)).

Definition gcm_tag (key nonce ad c : bytes) : bytes :=
  xor_bytes (ghash_finalize (ghash_update (padded_to_blocks ad ++ padded_to_blocks c ++ [length_block (length ad) (length c)])
                               (ghash_new (aes_encrypt_block key (replicate 16 0)))))
    (gctr key nonce 1 16).

Lemma keystream_app key iv pos n m : keystream key iv pos (n + m) = keystream key iv pos n ++ keystream key iv (pos + Z.of_nat n) m.
Proof.
  unfold keystream. rewrite seq_app, map_app. f_equal. rewrite Nat.add_0_l. rewrite <- (Nat.add_0_r n) at 1. rewrite <- fmap_add_seq.
  change (fmap (M := list)) with (@map nat nat). rewrite map_map. apply map_ext. intros j. f_equal. lia.
Qed.

Lemma ctr_stream_length key iv pos n : length (keystream key iv pos n) = n.
Proof. unfold keystream. by rewrite length_map, length_seq. Qed.

Lemma keystream_gctr key nonce from n : length nonce = 12%nat -> 0 <= from -> keystream key (nonce ++ replicate 4 0) (16 * from) n = gctr key nonce from n.
Proof.
  intros Hn Hf. assert (forall k, keystream key (nonce ++ replicate 4 0) (16 * from) (16 * k)
    = mjoin (map (fun i => aes_encrypt_block key (nonce ++ u32_to_be_bytes (wrap 32 (from + Z.of_nat i)))) (seq 0 k))) as Hk.
  { induction k as [|k IH]; [done|]. rewrite Nat.mul_succ_r, keystream_app, IH, seq_S, map_app, mjoin_app'. f_equal. cbn [map]. rewrite Nat.add_0_l. change (mjoin [?x]) with (x ++ []). rewrite app_nil_r.
    pose proof (keystream_blocks key (nonce ++ replicate 4 0) (from + Z.of_nat k) ltac:(rewrite length_app, Hn; done) ltac:(lia)) as E.
    rewrite take_app_le, drop_app_le, take_ge, drop_ge in E by lia. match type of E with ?l = _ => remember l as L eqn:EL end. cbn in E. change ((((0 * 256 + 0) * 256 + 0) * 256 + 0) * 256 + 0 + (from + Z.of_nat k)) with (from + Z.of_nat k) in E. rewrite <- E, EL.
    unfold keystream. apply map_ext. intros j. f_equal. lia. }
  unfold gctr. rewrite <- Hk. replace (16 * S (n / 16))%nat with (n + (16 * S (n / 16) - n))%nat by (pose proof (Nat.div_mod_eq n 16); pose proof (Nat.mod_upper_bound n 16); lia).
  rewrite keystream_app, take_app_le by (by rewrite ctr_stream_length). by rewrite take_ge by (by rewrite ctr_stream_length).
Qed.

(** ** Streaming *)

(** The state after the ciphertext [c]. *)
Definition gcm_at (key nonce ad c : bytes) (s : Aes256Gcm) : Prop :=
  gcm_ctr s = mkCtr key (nonce ++ replicate 4 0) (32 + Z.of_nat (length c))
  /\ absorbed (ghash_update (padded_to_blocks ad) (ghash_new (aes_encrypt_block key (replicate 16 0)))) (gctr key nonce 1 16) (length ad) c (gcm_ghash s).

Lemma setup_at key nonce ad : length key = 32%nat -> length nonce = 12%nat -> 32 <= keystream_end ->
  exists s, setup_gcm key nonce ad = Ok s /\ gcm_at key nonce ad [] s.
Proof.
  intros Hk Hn He. unfold setup_gcm, aes_from_slice, ctr_new, ctr_process. rewrite Hk, Hn. cbn [Nat.eqb negb NONCE_SIZE CTR_NONCE_SIZE Nat.sub obind ct_pos].
  destruct (Z.ltb_spec keystream_end (16 * 1 + Z.of_nat (length (replicate 16 0)))) as [H|H]; [rewrite length_replicate in H; lia|].
  eexists. split; [done|]. split; [done|]. exists [], []. cbn [gcm_ghash gcm_ghash_new gg_ghash gg_pad gg_ad_len gg_msg_len gg_msg_buf_offset gg_msg_buf].
  cbn [ct_key ct_iv ct_pos]. rewrite length_replicate, keystream_gctr by (done || lia). split_and!; try done; try (unfold BLOCK; cbn; lia). { by apply Forall_nil_2. }
  assert (length (gctr key nonce 1 16) = 16%nat) as Hl by (rewrite <- keystream_gctr by (done || lia); apply ctr_stream_length).
  revert Hl. generalize (gctr key nonce 1 16). clear. intros l Hl. unfold xor_bytes. rewrite <- Hl at 1. clear Hl. induction l as [|x l IH]; [done|]. cbn. by rewrite IH, Z.lxor_0_l.
Qed.

Lemma xor_bytes_app a b ks ks' : length a = length ks -> xor_bytes (a ++ b) (ks ++ ks') = xor_bytes a ks ++ xor_bytes b ks'.
Proof. intros H. unfold xor_bytes. by apply zip_with_app. Qed.

Lemma xor_bytes_length a b : length a = length b -> length (xor_bytes a b) = length a.
Proof. intros H. unfold xor_bytes. rewrite length_zip_with. lia. Qed.

Lemma xor_bytes_twice a b : length a = length b -> xor_bytes (xor_bytes a b) b = a.
Proof.
  revert b. induction a as [|x a IH]; intros [|y b] H; try done. cbn in *. injection H as H. unfold xor_bytes in IH. rewrite IH by done.
  by rewrite Z.lxor_assoc, Z.lxor_nilpotent, Z.lxor_0_r.
Qed.

(** Where a run of pieces from position [n] on ends: the bytes, or the panic. *)
Definition ctr_from (key nonce : bytes) (n : nat) (p : bytes) : bytes := xor_bytes p (keystream key (nonce ++ replicate 4 0) (32 + Z.of_nat n) (length p)).

Lemma ctr_from_app key nonce n p q : ctr_from key nonce n (p ++ q) = ctr_from key nonce n p ++ ctr_from key nonce (n + length p) q.
Proof.
  unfold ctr_from. rewrite length_app, keystream_app, xor_bytes_app by (by rewrite ctr_stream_length). do 3 f_equal. lia.
Qed.

Lemma ctr_from_length key nonce n p : length (ctr_from key nonce n p) = length p.
Proof. unfold ctr_from. apply xor_bytes_length. by rewrite ctr_stream_length. Qed.

Lemma ctr_from_twice key nonce n p : ctr_from key nonce n (ctr_from key nonce n p) = p.
Proof.
  unfold ctr_from at 1. rewrite ctr_from_length. apply xor_bytes_twice. by rewrite ctr_stream_length.
Qed.

Lemma ctr_from_start key nonce p : length nonce = 12%nat -> ctr_from key nonce 0 p = gcm_ciphertext key nonce p.
Proof. intros Hn. unfold ctr_from, gcm_ciphertext. by rewrite <- keystream_gctr by (done || lia). Qed.

Lemma piece_at key nonce ad c b s : gcm_at key nonce ad c s -> 32 + Z.of_nat (length c) + Z.of_nat (length b) <= keystream_end ->
  (exists s', gcm_encrypt b s = (Ok (ctr_from key nonce (length c) b), s') /\ gcm_at key nonce ad (c ++ ctr_from key nonce (length c) b) s')
  /\ (exists s', gcm_decrypt b s = (Ok (ctr_from key nonce (length c) b), s') /\ gcm_at key nonce ad (c ++ b) s').
Proof.
  intros [Ec Ha] He. unfold gcm_encrypt, gcm_decrypt, ctr_process. rewrite Ec. cbn [ct_pos ct_key ct_iv].
  destruct (Z.ltb_spec keystream_end (32 + Z.of_nat (length c) + Z.of_nat (length b))); [lia|]. split; eexists; (split; [reflexivity|]); (split; cbn [gcm_ctr gcm_ghash]).
  - rewrite length_app, ctr_from_length. f_equal. lia.
  - by apply update_absorbed.
  - rewrite length_app. f_equal. lia.
  - by apply update_absorbed.
Qed.

Lemma pieces_at key nonce ad pieces c s : gcm_at key nonce ad c s -> 32 + Z.of_nat (length c) + Z.of_nat (length (mjoin pieces)) <= keystream_end ->
  (exists s', in_pieces gcm_encrypt pieces s = (Ok (ctr_from key nonce (length c) (mjoin pieces)), s')
      /\ gcm_at key nonce ad (c ++ ctr_from key nonce (length c) (mjoin pieces)) s')
  /\ (exists s', in_pieces gcm_decrypt pieces s = (Ok (ctr_from key nonce (length c) (mjoin pieces)), s') /\ gcm_at key nonce ad (c ++ mjoin pieces) s').
Proof.
  revert c s. induction pieces as [|b pieces IH]; intros c s Ha He.
  - split; exists s; cbn [in_pieces]; change (mjoin []) with (@nil Z); unfold ctr_from, xor_bytes; cbn; by rewrite app_nil_r.
  - change (mjoin (b :: pieces)) with (b ++ mjoin pieces) in *. rewrite length_app in He. rewrite ctr_from_app.
    destruct (piece_at key nonce ad c b s Ha ltac:(lia)) as [(s1 & E1 & H1) (s2 & E2 & H2)]. split.
    + destruct (IH _ _ H1) as [(s' & E & H) _]; [rewrite length_app, ctr_from_length; lia|]. exists s'. cbn [in_pieces].
      rewrite length_app, ctr_from_length in E. rewrite (mbind'_Ok _ _ _ _ _ E1), (mbind'_Ok _ _ _ _ _ E). split; [done|].
      by rewrite length_app, ctr_from_length, <- app_assoc in H.
    + destruct (IH _ _ H2) as [_ (s' & E & H)]; [rewrite length_app; lia|]. exists s'. cbn [in_pieces].
      rewrite length_app in E. rewrite (mbind'_Ok _ _ _ _ _ E2), (mbind'_Ok _ _ _ _ _ E). split; [done|]. by rewrite <- app_assoc in H.
Qed.

Lemma tag_at key nonce ad c s : gcm_at key nonce ad c s -> gcm_ghash_finalize (gcm_ghash s) = gcm_tag key nonce ad c.
Proof. intros [_ Ha]. rewrite (finalize_absorbed _ _ _ _ _ Ha). unfold gcm_tag. by rewrite (ghash_update_app (padded_to_blocks ad)). Qed.

(** However a message is cut into buffers, encrypting it gives the ciphertext and
    the tag of GCM. *)
Lemma gcm_encrypts key nonce ad pieces : length key = 32%nat -> length nonce = 12%nat -> 32 + Z.of_nat (length (mjoin pieces)) <= keystream_end ->
  exists s s', setup_gcm key nonce ad = Ok s
    /\ in_pieces gcm_encrypt pieces s = (Ok (gcm_ciphertext key nonce (mjoin pieces)), s')
    /\ compute_tag s' = gcm_tag key nonce ad (gcm_ciphertext key nonce (mjoin pieces)).
Proof.
  intros Hk Hn He. destruct (setup_at key nonce ad Hk Hn ltac:(lia)) as (s & Es & Ha).
  destruct (pieces_at key nonce ad pieces [] s Ha) as [(s' & E & H) _]; [cbn; lia|]. exists s, s'. cbn [length app] in *.
  rewrite ctr_from_start in * by done. split_and!; [done|done|]. by apply tag_at.
Qed.

(** Decryption inverts it, however the ciphertext is cut, and accepts exactly the
    tag of GCM. *)
Lemma gcm_decrypts key nonce ad p pieces tag : length key = 32%nat -> length nonce = 12%nat -> 32 + Z.of_nat (length p) <= keystream_end ->
  mjoin pieces = gcm_ciphertext key nonce p ->
  exists s s', setup_gcm key nonce ad = Ok s /\ in_pieces gcm_decrypt pieces s = (Ok p, s')
    /\ (verify_tag tag s' = Ok tt <-> tag = gcm_tag key nonce ad (gcm_ciphertext key nonce p)).
Proof.
  intros Hk Hn He Hp. destruct (setup_at key nonce ad Hk Hn ltac:(lia)) as (s & Es & Ha).
  assert (length (mjoin pieces) = length p) as Hl by (rewrite Hp, <- ctr_from_start by done; apply ctr_from_length).
  destruct (pieces_at key nonce ad pieces [] s Ha) as [_ (s' & E & H)]; [cbn; lia|]. exists s, s'. cbn [length app] in *.
  rewrite Hp, <- ctr_from_start, ctr_from_twice in E by done. split_and!; [done|done|].
  apply tag_at in H. rewrite Hp in H. unfold verify_tag. rewrite H. set (t := gcm_tag _ _ _ _).
  assert (length t = 16%nat) as Ht.
  { unfold t, gcm_tag. rewrite xor_bytes_length; [apply ghash_length|]. by rewrite ghash_length, <- keystream_gctr, ctr_stream_length by (done || lia). }
  split.
  - destruct (negb _) eqn:E1; [done|]. destruct (negb (tag =s t)) eqn:E2; [done|]. intros _. apply negb_false_iff in E2. by apply bytes_eqb_eq.
  - intros ->. by rewrite Ht, bytes_eqb_refl.
Qed.

(** C38: The streaming GCM is GCM.  For a key of 32 and a nonce of 12 bytes and a
    message that fits into the key stream of the counter mode, whatever the
    associated data: however the message is cut into buffers, [encrypt] on them
    one after the other gives, put together, the ciphertext of the one-shot
    definition and [compute_tag] its tag; and however that ciphertext is cut on
    the other side, [decrypt] gives the message back and [verify_tag] accepts
    exactly that tag.  The block cipher, its counter mode and GHASH are the
    crates', for any of which this holds. *)
Theorem gcm_stream_equiv key nonce ad pieces pieces' :
  length key = 32%nat -> length nonce = 12%nat -> 32 + Z.of_nat (length (mjoin pieces)) <= keystream_end ->
  let c := gcm_ciphertext key nonce (mjoin pieces) in
  mjoin pieces' = c ->
  exists s, setup_gcm key nonce ad = Ok s
    /\ (exists s', in_pieces gcm_encrypt pieces s = (Ok c, s') /\ compute_tag s' = gcm_tag key nonce ad c)
    /\ (exists s', in_pieces gcm_decrypt pieces' s = (Ok (mjoin pieces), s')
          /\ forall tag, verify_tag tag s' = Ok tt <-> tag = gcm_tag key nonce ad c).
Proof.
  intros Hk Hn He c Hc. destruct (gcm_encrypts key nonce ad pieces Hk Hn He) as (s & s1 & Es & E1 & Ht).
  exists s. split; [done|]. split; [by exists s1|].
  destruct (gcm_decrypts key nonce ad (mjoin pieces) pieces' [] Hk Hn He Hc) as (s0 & s2 & Es' & E2 & _).
  rewrite Es in Es'. injection Es' as <-.
  exists s2. split; [done|]. intros tag.
  destruct (gcm_decrypts key nonce ad (mjoin pieces) pieces' tag Hk Hn He Hc) as (s0 & s3 & Es' & E3 & Hv).
  rewrite Es in Es'. injection Es' as <-. rewrite E2 in E3. by injection E3 as <-.
Qed.

(** A message that is too long for the key stream panics before anything of the
    buffer that exceeds it is changed. *)
Theorem gcm_overlong_panics key nonce ad c b s : gcm_at key nonce ad c s -> keystream_end < 32 + Z.of_nat (length c) + Z.of_nat (length b) ->
  (gcm_encrypt b s).1 = Panic /\ (gcm_decrypt b s).1 = Panic.
Proof.
  intros [Ec _] He. unfold gcm_encrypt, gcm_decrypt, ctr_process. rewrite Ec. cbn [ct_pos].
  destruct (Z.ltb_spec keystream_end (32 + Z.of_nat (length c) + Z.of_nat (length b))); [done|lia].
Qed.
End Gcm.

(** ** Ciphers to evaluate the model on *)

Definition toy_ctr_block (iv : bytes) (i : Z) : bytes := take 12 iv ++ u32_to_be_bytes (wrap 32 (foldl (fun acc b => acc * 256 + b) 0 (drop 12 iv) + i)).

Lemma nth_seq (l : bytes) : map (fun j => nth j l 0) (seq 0 (length l)) = l.
Proof. induction l as [|x l IH]; [done|]. cbn [length seq map nth]. f_equal. by rewrite <- List.seq_shift, map_map. Qed.

#[local] Instance toy_ctr32 : AesCtr32.
Proof.
  refine {| aes_encrypt_block key b := b; keystream_byte key iv p := nth (Z.to_nat (p mod 16)) (toy_ctr_block iv (p / 16)) 0; keystream_end := 2 ^ 36 |}; [done|].
  intros key iv i Hiv Hi. assert (length (toy_ctr_block iv i) = 16%nat) as Hl by (unfold toy_ctr_block; rewrite length_app, length_take, Hiv; done).
  transitivity (map (fun j => nth j (toy_ctr_block iv i) 0) (seq 0 16)).
  - apply map_ext_in. intros j [_ Hj]%in_seq. rewrite Z.mul_comm, Z.div_add_l, Z.div_small, Z.add_0_r by lia.
    rewrite Z.add_comm, Z.mod_add, Z.mod_small, Nat2Z.id by lia. done.
  - rewrite <- Hl. apply nth_seq.
Defined.

#[local] Instance toy_ghash : Ghash.
Proof. refine {| GHash := bytes; ghash_new h := h; ghash_block := xor_bytes; ghash_finalize g := take 16 (g ++ replicate 16 0) |}. intros g. rewrite length_take, length_app, length_replicate. lia. Defined.

Definition toy_key : bytes := replicate 32 7.
Definition toy_nonce : bytes := replicate 12 1.

Lemma gcm_stream_equiv_witness :
  exists s, setup_gcm toy_key toy_nonce [9] = Ok s
    /\ (exists s', in_pieces gcm_encrypt [[1; 2; 3]; replicate 20 4; []] s = (Ok (gcm_ciphertext toy_key toy_nonce ([1; 2; 3] ++ replicate 20 4)), s')
          /\ compute_tag s' = gcm_tag toy_key toy_nonce [9] (gcm_ciphertext toy_key toy_nonce ([1; 2; 3] ++ replicate 20 4)))
    /\ (exists s', in_pieces gcm_decrypt [gcm_ciphertext toy_key toy_nonce ([1; 2; 3] ++ replicate 20 4)] s = (Ok ([1; 2; 3] ++ replicate 20 4), s')
          /\ forall tag, verify_tag tag s' = Ok tt <-> tag = gcm_tag toy_key toy_nonce [9] (gcm_ciphertext toy_key toy_nonce ([1; 2; 3] ++ replicate 20 4))).
Proof.
  apply (gcm_stream_equiv toy_key toy_nonce [9] [[1; 2; 3]; replicate 20 4; []] [gcm_ciphertext toy_key toy_nonce ([1; 2; 3] ++ replicate 20 4)]);
    [done|done|vm_compute; discriminate|reflexivity].
Defined.
