(* ===== verification/HistorySync.v ===== *)
(** * History synchronisation: [warp_core/src/history_sync.rs], [src/history_sync.rs]

    The history of the account comes as one compressed protobuf message.  It is
    read field by field while it is decompressed: conversations are handed on as
    bytes, the account's push name is picked out, everything else is skipped.  The
    reader of the [protobuf] crate is the class [CodedInput]; decompression is an
    argument, the bytes it yields and whether it fails after them.
    [LazyConversation] of [types/events.rs] is what an event carries.

    The theorems: reading ends on every input, without a panic; of a well-formed
    history every conversation is handed on, in order, and the push name is the
    first entry of the account; what comes before a failure was already announced;
    what a lazy conversation shows depends on which of its accessors came first. *)

From S2P Require Import Prelude RustStd Jid Node Attrs Crypto LtHash AppState AppStateSync Curve Noise Device Requests ReportingToken.

(** ** [protobuf::CodedInputStream] *)

Inductive ProtobufError := PB_error (msg : str).

(** A base-128 varint, as [ReportingToken] writes it. *)
Definition varint (v : u64) : bytes := match encode_varint_to_buf v with Ok b => b | _ => [] end.

(** A stream over what is left of the data, with a mark whether the source fails
    at its end.  Reads that succeed consume what they read. *)
Class CodedInput := {
  Cis : Type;
  cis_new : bytes -> bool -> Cis;
  cis_left : Cis -> nat;
  read_raw_tag_or_eof : comp Cis ProtobufError (option u32);
  read_bytes : comp Cis ProtobufError bytes;
  read_raw_varint32 : comp Cis ProtobufError u32;
  read_raw_varint64 : comp Cis ProtobufError u64;
  read_raw_little_endian64 : comp Cis ProtobufError u64;
  read_raw_little_endian32 : comp Cis ProtobufError u32;
  skip_raw_bytes : u32 -> comp Cis ProtobufError unit;
  cis_left_new : forall d f, cis_left (cis_new d f) = length d;
  tag_progress : forall c t c', read_raw_tag_or_eof c = (Ok (Some t), c') -> (cis_left c' < cis_left c)%nat;
  bytes_progress : forall c b c', read_bytes c = (Ok b, c') -> (cis_left c' <= cis_left c)%nat;
  varint32_progress : forall c v c', read_raw_varint32 c = (Ok v, c') -> (cis_left c' <= cis_left c)%nat;
  varint64_progress : forall c v c', read_raw_varint64 c = (Ok v, c') -> (cis_left c' <= cis_left c)%nat;
  le64_progress : forall c v c', read_raw_little_endian64 c = (Ok v, c') -> (cis_left c' <= cis_left c)%nat;
  le32_progress : forall c v c', read_raw_little_endian32 c = (Ok v, c') -> (cis_left c' <= cis_left c)%nat;
  skip_progress : forall n c u c', skip_raw_bytes n c = (Ok u, c') -> (cis_left c' <= cis_left c)%nat;
  tag_returns : forall c, returns (read_raw_tag_or_eof c).1;
  bytes_returns : forall c, returns (read_bytes c).1;
  varint32_returns : forall c, returns (read_raw_varint32 c).1;
  varint64_returns : forall c, returns (read_raw_varint64 c).1;
  le64_returns : forall c, returns (read_raw_little_endian64 c).1;
  le32_returns : forall c, returns (read_raw_little_endian32 c).1;
  skip_returns : forall n c, returns (skip_raw_bytes n c).1;
  tag_read : forall t r f, 8 <= t < 2 ^ 32 -> read_raw_tag_or_eof (cis_new (varint t ++ r) f) = (Ok (Some t), cis_new r f);
  tag_eof : read_raw_tag_or_eof (cis_new [] false) = (Ok None, cis_new [] false);
  tag_broken : exists e, (read_raw_tag_or_eof (cis_new [] true)).1 = Err e;
  bytes_read : forall b r f, Z.of_nat (length b) < 2 ^ 31 -> read_bytes (cis_new (varint (Z.of_nat (length b)) ++ b ++ r) f) = (Ok b, cis_new r f);
  varint32_read : forall v r f, 0 <= v < 2 ^ 32 -> read_raw_varint32 (cis_new (varint v ++ r) f) = (Ok v, cis_new r f);
  varint64_read : forall v r f, 0 <= v < 2 ^ 64 -> read_raw_varint64 (cis_new (varint v ++ r) f) = (Ok v, cis_new r f);
  le64_read : forall b r f, length b = 8%nat -> exists v, read_raw_little_endian64 (cis_new (b ++ r) f) = (Ok v, cis_new r f);
  le32_read : forall b r f, length b = 4%nat -> exists v, read_raw_little_endian32 (cis_new (b ++ r) f) = (Ok v, cis_new r f);
  skip_read : forall b r f, Z.of_nat (length b) < 2 ^ 31 -> skip_raw_bytes (Z.of_nat (length b)) (cis_new (b ++ r) f) = (Ok tt, cis_new r f)
}.

(** ** [process_history_sync] *)

(** The first two are never made: the reader reports what the decompressor says. *)
Inductive HistorySyncError := DecompressionError (e : str) | ProtobufDecodeError (e : str) | StreamingProtobufError (e : ProtobufError).

Record HistorySyncResult := mkResult { own_pushname : option str; conversations_processed : usize }.

Module wire_type.
Definition VARINT : u32 := 0.
Definition FIXED64 : u32 := 1.
Definition LENGTH_DELIMITED : u32 := 2.
Definition FIXED32 : u32 := 5.
End wire_type.

Section History.
Context `{HC : !CodedInput}.
(** [wa::Pushname::decode]: the id and the name *)
Context (decode_pushname : bytes -> option (option str * option str)).

(** The stream, the result so far and the conversations handed to the callback. *)
Record HistState := mkHist { hs_cis : Cis; hs_result : HistorySyncResult; hs_called : list bytes }.

Definition on_cis {A} (m : comp Cis ProtobufError A) : comp HistState HistorySyncError A :=
  fun s => let '(o, c) := m (hs_cis s) in (map_err StreamingProtobufError o, mkHist c (hs_result s) (hs_called s)).

Definition skip_field_by_wire_type (wire : u32) : comp HistState HistorySyncError unit :=
  if wire =? wire_type.VARINT then on_cis read_raw_varint64 ;; mret tt
  else if wire =? wire_type.FIXED64 then on_cis read_raw_little_endian64 ;; mret tt
  else if wire =? wire_type.LENGTH_DELIMITED then let! len := on_cis read_raw_varint32 in on_cis (skip_raw_bytes len)
  else if wire =? wire_type.FIXED32 then on_cis read_raw_little_endian32 ;; mret tt
  else mret tt.

(** The push name of the account, if the entry is the account's. *)
Definition own_entry (own_user : option str) (raw : bytes) : option str :=
  match decode_pushname raw with
  | Some (Some id, name) => if bool_decide (Some id = own_user) then name else None
  | _ => None
  end.

(** [named]: a push name was found before *)
Definition field_action (own_user : option str) (callback named : bool) (tag : u32) : comp HistState HistorySyncError unit :=
  let field_number := Z.shiftr tag 3 in
  let wire_type_raw := Z.land tag 7 in
  if (field_number =? 2) && (wire_type_raw =? wire_type.LENGTH_DELIMITED) then
    if callback then
      let! raw_bytes := on_cis read_bytes in
      fun s => (Ok tt, mkHist (hs_cis s) (mkResult (own_pushname (hs_result s)) (S (conversations_processed (hs_result s)))) (hs_called s ++ [raw_bytes]))
    else let! len := on_cis read_raw_varint32 in on_cis (skip_raw_bytes len)
  else if (field_number =? 7) && bool_decide (is_Some own_user) && negb named && (wire_type_raw =? wire_type.LENGTH_DELIMITED) then
    let! raw_bytes := on_cis read_bytes in
    fun s => match own_entry own_user raw_bytes with
             | Some name => (Ok tt, mkHist (hs_cis s) (mkResult (Some name) (conversations_processed (hs_result s))) (hs_called s))
             | None => (Ok tt, s)
             end
  else skip_field_by_wire_type wire_type_raw.

Definition history_field (own_user : option str) (callback : bool) (tag : u32) : comp HistState HistorySyncError unit :=
  fun s => field_action own_user callback (bool_decide (is_Some (own_pushname (hs_result s)))) tag s.

Fixpoint history_loop (fuel : nat) (own_user : option str) (callback : bool) : comp HistState HistorySyncError unit :=
  match fuel with
  | O => mnofuel
  | S fuel =>
      let! tag := on_cis read_raw_tag_or_eof in
      match tag with
      | None => mret tt
      | Some tag => history_field own_user callback tag ;; history_loop fuel own_user callback
      end
  end.

(** [inflated]: what the decompressor yields, and whether it fails then.  The
    result, and the calls of the callback. *)
Definition process_history_sync (inflated : bytes * bool) (own_user : option str) (callback : bool) :
    outcome HistorySyncError HistorySyncResult * list bytes :=
  let s := mkHist (cis_new inflated.1 inflated.2) (mkResult None 0) [] in
  match history_loop (S (length inflated.1)) own_user callback s with
  | (Ok _, s) => (Ok (hs_result s), hs_called s)
  | (Err e, s) => (Err e, hs_called s)
  | (Panic, s) => (Panic, hs_called s)
  | (NoFuel, s) => (NoFuel, hs_called s)
  end.

(** ** [src/history_sync.rs] *)

Inductive HistoryEffect :=
| HE_receipt (message_id : str)
| HE_joined_group (raw : bytes)
| HE_push_name (from_server : bool) (old_name new_name : str)
| HE_set_available.

(** [update_push_name_and_notify] on the device; the presence is sent by a task of its own *)
Definition notify_push_name (now : i64) (new_name : str) (d : Device) : Device * list HistoryEffect :=
  let old_name := d_push_name d in
  if old_name =s new_name then (d, [])
  else (apply_command_to_device now (SetPushName new_name) d, [HE_push_name true old_name new_name; HE_set_available]).

(** [payload]: the payload of the notification, or else what downloading it
    gave.  Conversations pass through a channel and are announced in order. *)
Definition process_history_sync_task (inflate : bytes -> bytes * bool) (now : i64) (has_listeners : bool) (message_id : str)
    (inline_payload : option bytes) (downloaded : option bytes) (d : Device) : Device * list HistoryEffect :=
  let receipt := HE_receipt message_id in
  match (match inline_payload with Some p => Some p | None => downloaded end) with
  | None => (d, [receipt])
  | Some compressed_data =>
      let own_user := (fun j => user (to_non_ad j)) <$> d_pn d in
      let '(result, called) := process_history_sync (inflate compressed_data) own_user has_listeners in
      let events := receipt :: map HE_joined_group called in
      match result with
      | Ok r =>
          match own_pushname r with
          | Some new_name => let '(d, es) := notify_push_name now new_name d in (d, events ++ es)
          | None => (d, events)
          end
      | _ => (d, events)
      end
  end.
(** ** Reading ends *)

Lemma on_cis_ok {A} (m : comp Cis ProtobufError A) s a s' : on_cis m s = (Ok a, s') -> exists c, m (hs_cis s) = (Ok a, c) /\ s' = mkHist c (hs_result s) (hs_called s).
Proof. unfold on_cis. destruct (m (hs_cis s)) as [ [x|e| |] c]; try done. intros E. injection E as <- <-. eauto. Qed.

Lemma on_cis_returns {A} (m : comp Cis ProtobufError A) s : returns (m (hs_cis s)).1 -> returns (on_cis m s).1.
Proof. unfold on_cis. by destruct (m (hs_cis s)) as [ []]. Qed.

Lemma bind_returns {S E A C} (m : comp S E A) (k : A -> comp S E C) s : returns (m s).1 -> (forall a s', m s = (Ok a, s') -> returns (k a s').1) -> returns (mbind' m k s).1.
Proof. unfold mbind'. destruct (m s) as [ [a|e| |] s']; cbn; eauto. Qed.

(** A step that returns and does not go back. *)
Definition forward {A} (m : comp HistState HistorySyncError A) : Prop :=
  forall s, returns (m s).1 /\ forall a s', m s = (Ok a, s') -> (cis_left (hs_cis s') <= cis_left (hs_cis s))%nat.

Lemma forward_ret {A} (a : A) : forward (mret a).
Proof. intros s. split; [done|]. intros b s' E. injection E as _ <-. lia. Qed.

Lemma forward_bind {A C} (m : comp HistState HistorySyncError A) (k : A -> comp HistState HistorySyncError C) : forward m -> (forall a, forward (k a)) -> forward (mbind' m k).
Proof.
  intros Hm Hk s. split; [apply bind_returns; [apply Hm|intros; apply Hk]|]. unfold mbind'. intros a s' E. destruct (m s) as [ [x|e| |] s1] eqn:E1; try done.
  pose proof (proj2 (Hm s) _ _ E1). pose proof (proj2 (Hk x s1) _ _ E). lia.
Qed.

Lemma forward_cis {A} (m : comp Cis ProtobufError A) : (forall c, returns (m c).1) -> (forall c a c', m c = (Ok a, c') -> (cis_left c' <= cis_left c)%nat) -> forward (on_cis m).
Proof. intros Hr Hp s. split; [by apply on_cis_returns|]. intros a s' (c & E & ->)%on_cis_ok. by eapply Hp. Qed.

Lemma forward_pure {A} (f : HistState -> outcome HistorySyncError A * HistState) : (forall s, exists a, (f s).1 = Ok a /\ hs_cis (f s).2 = hs_cis s) -> forward f.
Proof. intros Hf s. destruct (Hf s) as (a & E1 & E2). rewrite E1. split; [done|]. intros b s' E. rewrite E in E2. cbn in E2. rewrite E2. lia. Qed.

#[local] Hint Resolve forward_ret forward_bind forward_cis bytes_returns bytes_progress varint32_returns varint32_progress varint64_returns varint64_progress : core.
#[local] Hint Resolve le64_returns le64_progress le32_returns le32_progress skip_returns skip_progress : core.

Lemma skip_forward wire : forward (skip_field_by_wire_type wire).
Proof. unfold skip_field_by_wire_type. repeat case_match; eauto 7. Qed.

Lemma field_forward own_user callback tag : forward (history_field own_user callback tag).
Proof.
  intros s. unfold history_field. generalize (bool_decide (is_Some (own_pushname (hs_result s)))) as named. intros named. revert s.
  change (forward (field_action own_user callback named tag)). unfold field_action. destruct (_ && (Z.land tag 7 =? _)).
  - destruct callback; [|eauto 7]. apply forward_bind; [eauto|]. intros raw. apply forward_pure. intros t. by exists tt.
  - destruct (_ && _ && _ && _); [|apply skip_forward]. apply forward_bind; [eauto|]. intros raw. apply forward_pure. intros t. exists tt. by destruct (own_entry _ _).
Qed.

Lemma loop_returns own_user callback fuel s : (cis_left (hs_cis s) < fuel)%nat -> returns (history_loop fuel own_user callback s).1.
Proof.
  revert s. induction fuel as [|fuel IH]; intros s Hf; [lia|]. cbn [history_loop]. apply bind_returns; [apply on_cis_returns, tag_returns|].
  intros [tag|] s1 (c & E & ->)%on_cis_ok; [|done]. apply tag_progress in E. apply bind_returns; [apply field_forward|].
  intros [] s2 E2. apply IH. pose proof (proj2 (field_forward own_user callback tag _) _ _ E2) as H. cbn in H. lia.
Qed.

(** Reading a history ends with a result or an error on every input. *)
Theorem history_returns inflated own_user callback : returns (process_history_sync inflated own_user callback).1.
Proof.
  unfold process_history_sync. pose proof (loop_returns own_user callback (S (length inflated.1)) (mkHist (cis_new inflated.1 inflated.2) (mkResult None 0) [])) as H.
  cbn [hs_cis] in H. rewrite cis_left_new in H. specialize (H ltac:(lia)). by destruct (history_loop _ _ _ _) as [ [] s].
Qed.
(** ** What is read of a well-formed history *)

Inductive WireValue := W_varint (v : u64) | W_fixed64 (b : bytes) | W_len (b : bytes) | W_fixed32 (b : bytes).
Record HistoryField := mkField { hf_number : u32; hf_value : WireValue }.

Definition wire_of (w : WireValue) : u32 :=
  match w with W_varint _ => wire_type.VARINT | W_fixed64 _ => wire_type.FIXED64 | W_len _ => wire_type.LENGTH_DELIMITED | W_fixed32 _ => wire_type.FIXED32 end.
Definition encode_value (w : WireValue) : bytes :=
  match w with W_varint v => varint v | W_fixed64 b | W_fixed32 b => b | W_len b => varint (Z.of_nat (length b)) ++ b end.
Definition encode_field (f : HistoryField) : bytes := varint (hf_number f * 8 + wire_of (hf_value f)) ++ encode_value (hf_value f).
Definition encode_history (fs : list HistoryField) : bytes := flat_map encode_field fs.

Definition field_wf (f : HistoryField) : Prop :=
  1 <= hf_number f < 2 ^ 29
  /\ match hf_value f with
     | W_varint v => 0 <= v < 2 ^ 64
     | W_fixed64 b => length b = 8%nat
     | W_len b => Z.of_nat (length b) < 2 ^ 31
     | W_fixed32 b => length b = 4%nat
     end.

Definition field_conversation (f : HistoryField) : option bytes :=
  match hf_value f with W_len b => if hf_number f =? 2 then Some b else None | _ => None end.
Definition field_own_name (own_user : option str) (f : HistoryField) : option str :=
  match hf_value f, own_user with W_len b, Some _ => if hf_number f =? 7 then own_entry own_user b else None | _, _ => None end.

Definition conversations (fs : list HistoryField) : list bytes := omap field_conversation fs.

Lemma tag_parts n w : 1 <= n < 2 ^ 29 -> 0 <= w < 8 -> Z.shiftr (n * 8 + w) 3 = n /\ Z.land (n * 8 + w) 7 = w.
Proof.
  intros Hn Hw. rewrite Z.shiftr_div_pow2 by lia. change 7 with (Z.ones 3). rewrite Z.land_ones by lia. change (2 ^ 3) with 8.
  split; [rewrite Z.div_add_l, Z.div_small by lia; lia|]. rewrite Z.add_comm, Z.mod_add, Z.mod_small by lia. done.
Qed.

Lemma on_cis_step {A} (m : comp Cis ProtobufError A) c a c' res cs : m c = (Ok a, c') -> on_cis m (mkHist c res cs) = (Ok a, mkHist c' res cs).
Proof. intros E. unfold on_cis. cbn. by rewrite E. Qed.

Lemma skip_step f rest broken res cs : field_wf f ->
  skip_field_by_wire_type (wire_of (hf_value f)) (mkHist (cis_new (encode_value (hf_value f) ++ rest) broken) res cs) = (Ok tt, mkHist (cis_new rest broken) res cs).
Proof.
  intros [_ Hv]. unfold skip_field_by_wire_type. destruct (hf_value f) as [v|b|b|b]; cbn [wire_of encode_value].
  - change (wire_type.VARINT =? wire_type.VARINT) with true. cbn match. by rewrite (mbind'_Ok _ _ _ _ _ (on_cis_step _ _ _ _ _ _ (varint64_read _ _ _ Hv))).
  - destruct (le64_read b rest broken Hv) as [v E]. change (wire_type.FIXED64 =? wire_type.VARINT) with false. change (wire_type.FIXED64 =? wire_type.FIXED64) with true. cbn match.
    by rewrite (mbind'_Ok _ _ _ _ _ (on_cis_step _ _ _ _ _ _ E)).
  - change (wire_type.LENGTH_DELIMITED =? wire_type.VARINT) with false. change (wire_type.LENGTH_DELIMITED =? wire_type.FIXED64) with false.
    change (wire_type.LENGTH_DELIMITED =? wire_type.LENGTH_DELIMITED) with true. cbn match. rewrite <- app_assoc.
    rewrite (mbind'_Ok _ _ _ _ _ (on_cis_step _ _ _ _ _ _ (varint32_read (Z.of_nat (length b)) (b ++ rest) broken ltac:(lia)))). by apply on_cis_step, skip_read.
  - destruct (le32_read b rest broken Hv) as [v E]. change (wire_type.FIXED32 =? wire_type.VARINT) with false. change (wire_type.FIXED32 =? wire_type.FIXED64) with false.
    change (wire_type.FIXED32 =? wire_type.LENGTH_DELIMITED) with false. change (wire_type.FIXED32 =? wire_type.FIXED32) with true. cbn match.
    by rewrite (mbind'_Ok _ _ _ _ _ (on_cis_step _ _ _ _ _ _ E)).
Qed.

(** The effect of a field on the result and the calls. *)
Definition after_field (own_user : option str) (callback : bool) (f : HistoryField) (r : HistorySyncResult) : HistorySyncResult :=
  mkResult (match own_pushname r with Some n => Some n | None => field_own_name own_user f end)
    (if callback then conversations_processed r + length (conversations [f]) else conversations_processed r)%nat.

Lemma field_step own_user callback f rest broken res cs : field_wf f ->
  history_field own_user callback (hf_number f * 8 + wire_of (hf_value f)) (mkHist (cis_new (encode_value (hf_value f) ++ rest) broken) res cs)
  = (Ok tt, mkHist (cis_new rest broken) (after_field own_user callback f res) (cs ++ if callback then conversations [f] else [])).
Proof.
  intros Hf. pose proof Hf as [Hn Hv]. unfold history_field, field_action.
  destruct (tag_parts (hf_number f) (wire_of (hf_value f)) Hn) as [-> ->]; [by destruct (hf_value f)|].
  assert (conversations [f] = [] \/ callback = false -> field_own_name own_user f = None \/ own_pushname res <> None ->
    skip_field_by_wire_type (wire_of (hf_value f)) (mkHist (cis_new (encode_value (hf_value f) ++ rest) broken) res cs)
    = (Ok tt, mkHist (cis_new rest broken) (after_field own_user callback f res) (cs ++ if callback then conversations [f] else []))) as Hskip.
  { intros Hc Ho. rewrite skip_step by done. assert (after_field own_user callback f res = res) as ->.
    { destruct res as [nm k]. unfold after_field. cbn in *. f_equal; [destruct nm; [done|by destruct Ho as [->|Ho] ]|].
      destruct callback; [|done]. destruct Hc as [->|Hc]; [cbn; lia|done]. }
    do 2 f_equal. destruct callback; [destruct Hc as [->|Hc]; [|done] |]; by rewrite app_nil_r. }
  destruct (wire_of (hf_value f) =? wire_type.LENGTH_DELIMITED) eqn:Ew.
  2: { rewrite !andb_false_r. apply Hskip; left; unfold conversations, field_conversation, field_own_name; cbn; by destruct (hf_value f). }
  unfold after_field, conversations, field_conversation, field_own_name in *. destruct (hf_value f) as [v|b|b|b] eqn:Ev; try done. clear Ew.
  cbn [omap list_omap wire_of encode_value] in *. rewrite Ev in *. rewrite !andb_true_r. rewrite <- app_assoc in *. cbn [hs_result own_pushname] in *.
  destruct (Z.eqb_spec (hf_number f) 2) as [E2|E2].
  - rewrite E2 in *. cbn match in *. destruct callback.
    + rewrite (mbind'_Ok _ _ _ _ _ (on_cis_step _ _ _ _ _ _ (bytes_read _ _ _ Hv))). destruct res as [nm k]. cbn. rewrite Nat.add_1_r. by destruct nm, own_user.
    + rewrite <- Hskip; [done|by right|left; by destruct own_user].
  - destruct (Z.eqb_spec (hf_number f) 7) as [E7|E7]; cbn [andb].
    + destruct own_user as [u|]; [|apply Hskip; auto]. rewrite (bool_decide_true (is_Some (Some u))) by eauto. cbn [andb].
      destruct (own_pushname res) as [n|] eqn:En; [rewrite (bool_decide_true (is_Some (Some n))) by eauto; apply Hskip; [auto|by right] |].
      rewrite (bool_decide_false (is_Some None)) by (by intros []). cbn [negb].
      rewrite (mbind'_Ok _ _ _ _ _ (on_cis_step _ _ _ _ _ _ (bytes_read _ _ _ Hv))). cbn. destruct res as [nm k]. cbn in *. subst nm.
      destruct (own_entry _ _), callback; cbn; by rewrite ?app_nil_r, ?Nat.add_0_r.
    + apply Hskip; [auto|]. left. by destruct own_user.
Qed.

Lemma varint_nonempty v r : 8 <= v < 2 ^ 32 -> (length r < length (varint v ++ r))%nat.
Proof.
  intros Hv. pose proof (tag_read v r false Hv) as E. apply tag_progress in E. by rewrite !cis_left_new in E.
Qed.

(** The loop comes to the end of the fields. *)
Lemma loop_history own_user callback broken fs fuel res cs : Forall field_wf fs -> (length (encode_history fs) < fuel)%nat ->
  exists fuel', history_loop fuel own_user callback (mkHist (cis_new (encode_history fs) broken) res cs)
    = history_loop (S fuel') own_user callback (mkHist (cis_new [] broken) (fold_left (fun r f => after_field own_user callback f r) fs res)
        (cs ++ if callback then conversations fs else [])).
Proof.
  intros Hwf. revert fuel res cs. induction Hwf as [|f fs Hf Hwf IH]; intros fuel res cs Hl; (destruct fuel as [|fuel]; [cbn in Hl; lia|]).
  - exists fuel. cbn [fold_left]. destruct callback; by rewrite app_nil_r.
  - change (encode_history (f :: fs)) with (encode_field f ++ encode_history fs) in *. unfold encode_field in *. rewrite <- !app_assoc in *.
    assert (8 <= hf_number f * 8 + wire_of (hf_value f) < 2 ^ 32) as Ht
      by (destruct Hf as [Hn _]; destruct (hf_value f); unfold wire_of, wire_type.VARINT, wire_type.FIXED64, wire_type.LENGTH_DELIMITED, wire_type.FIXED32; lia).
    edestruct IH as [fuel' E]; [|exists fuel'; cbn [history_loop]; rewrite (mbind'_Ok _ _ _ _ _ (on_cis_step _ _ _ _ _ _ (tag_read _ _ _ Ht)));
      rewrite (mbind'_Ok _ _ _ _ _ (field_step own_user callback f _ broken res cs Hf)); rewrite E].
    + pose proof (varint_nonempty _ (encode_value (hf_value f) ++ encode_history fs) Ht). rewrite !length_app in *. lia.
    + cbn [fold_left]. do 2 f_equal. rewrite <- app_assoc. f_equal. destruct callback; [|done]. unfold conversations. cbn. by destruct (field_conversation f).
Qed.

Lemma fold_after own_user callback fs res : fold_left (fun r f => after_field own_user callback f r) fs res
  = mkResult (match own_pushname res with Some n => Some n | None => head (omap (field_own_name own_user) fs) end)
      (if callback then conversations_processed res + length (conversations fs) else conversations_processed res)%nat.
Proof.
  revert res. induction fs as [|f fs IH]; intros [nm k]; cbn [fold_left].
  - cbn. destruct nm, callback; f_equal; lia.
  - rewrite IH. cbn. destruct nm; [|destruct (field_own_name own_user f)]; f_equal; destruct callback; try done; unfold conversations; cbn; destruct (field_conversation f); cbn; lia.
Qed.

Lemma history_read own_user callback broken fs : Forall field_wf fs ->
  let '(r, called) := process_history_sync (encode_history fs, broken) own_user callback in
  called = (if callback then conversations fs else [])
  /\ if broken then exists e, r = Err e
     else r = Ok (mkResult (head (omap (field_own_name own_user) fs)) (if callback then length (conversations fs) else 0)).
Proof.
  intros Hwf. unfold process_history_sync. cbn [fst snd].
  destruct (loop_history own_user callback broken fs (S (length (encode_history fs))) (mkResult None 0) [] Hwf) as [fuel ->]; [lia|].
  rewrite fold_after. cbn [history_loop]. destruct broken.
  - destruct tag_broken as [e He]. unfold mbind' at 1, on_cis. cbn [hs_cis hs_called hs_result app]. destruct (read_raw_tag_or_eof _) as [o c]. cbn in He. subst o. cbn. eauto.
  - rewrite (mbind'_Ok _ _ _ _ _ (on_cis_step _ _ _ _ _ _ tag_eof)). done.
Qed.

(** Of a well-formed history every conversation is handed on, in order and as it
    was written, and the push name is that of the first entry that is the
    account's own; without a listener the conversations are passed over.  When
    the data breaks off between two fields, what came before was handed on. *)
Theorem history_complete own_user callback broken fs : Forall field_wf fs ->
  let '(r, called) := process_history_sync (encode_history fs, broken) own_user callback in
  called = (if callback then conversations fs else [])
  /\ if broken then exists e, r = Err e
     else r = Ok (mkResult (head (omap (field_own_name own_user) fs)) (if callback then length (conversations fs) else 0)).
Proof. apply history_read. Qed.

(** The task: the receipt goes out first, then every conversation is announced in
    order; at the end the push name of the account is what the history says, with
    an event and a presence if it is another one. *)
Theorem history_task_announces inflate now message_id inline downloaded fs d : Forall field_wf fs ->
  (exists data, (match inline with Some p => Some p | None => downloaded end) = Some data /\ inflate data = (encode_history fs, false)) ->
  let '(d', es) := process_history_sync_task inflate now true message_id inline downloaded d in
  let found := head (omap (field_own_name ((fun j => user (to_non_ad j)) <$> d_pn d)) fs) in
  d_push_name d' = default (d_push_name d) found
  /\ es = HE_receipt message_id :: map HE_joined_group (conversations fs)
          ++ match found with
             | Some n => if d_push_name d =s n then [] else [HE_push_name true (d_push_name d) n; HE_set_available]
             | None => []
             end.
Proof.
  intros Hwf (data & Ed & Ei). unfold process_history_sync_task. rewrite Ed, Ei.
  pose proof (history_read ((fun j => user (to_non_ad j)) <$> d_pn d) true false fs Hwf) as H. destruct (process_history_sync _ _ _) as [r called]. destruct H as [-> ->].
  cbn [own_pushname]. destruct (head _) as [n|]; [|by split; [|rewrite app_nil_r] ]. unfold notify_push_name.
  destruct (bytes_eqb_spec (d_push_name d) n) as [E|E]; (split; [by destruct d|done]).
Qed.
End History.

(** ** [LazyConversation] *)

Section Lazy.
(** [wa::Conversation]: its id, its messages, and the rest *)
Context {M R : Type}.
Record Conversation := mkConversation { cv_id : str; cv_messages : list M; cv_rest : R }.
Context (decode_conversation : bytes -> option Conversation) (default_rest : R).

Record LazyConversation := mkLazy { lc_raw_bytes : bytes; lc_parsed : option Conversation }.

Definition lazy_from_bytes (raw : bytes) : LazyConversation := mkLazy raw None.

(** [get_or_init] of the shared cell *)
Definition get_or_init {E} (init : outcome E Conversation) : comp LazyConversation E Conversation :=
  fun l => match lc_parsed l with
           | Some c => (Ok c, l)
           | None => match init with
                     | Ok c => (Ok c, mkLazy (lc_raw_bytes l) (Some c))
                     | o => (o, l)
                     end
           end.

Definition lazy_get {E} : comp LazyConversation E (option Conversation) :=
  fun l =>
    (let! conv := get_or_init (Ok (default (mkConversation [] [] default_rest) (decode_conversation (lc_raw_bytes l)))) in
     mret (match cv_id conv with [] => None | _ => Some conv end)) l.

Definition lazy_conversation {E} : comp LazyConversation E Conversation :=
  fun l =>
    get_or_init (match decode_conversation (lc_raw_bytes l) with
                 | Some conv => Ok (mkConversation (cv_id conv) [] (cv_rest conv))
                 | None => Panic
                 end) l.

Definition is_parsed (l : LazyConversation) : bool := bool_decide (is_Some (lc_parsed l)).
Definition raw_size (l : LazyConversation) : usize := length (lc_raw_bytes l).

(** What the accessors show depends on which came first: messages are there only
    if [get] was, and bytes that do not decode make [conversation] panic unless
    [get] was called before. *)
Theorem lazy_first_access_decides raw :
  let fresh := lazy_from_bytes raw in
  let after_get := (lazy_get (E := unit) fresh).2 in
  let after_conversation := (lazy_conversation (E := unit) fresh).2 in
  match decode_conversation raw with
  | Some c =>
      (lazy_conversation (E := unit) after_get).1 = Ok c
      /\ (lazy_conversation (E := unit) fresh).1 = Ok (mkConversation (cv_id c) [] (cv_rest c))
      /\ (cv_id c <> [] -> (lazy_get (E := unit) fresh).1 = Ok (Some c)
          /\ (lazy_get (E := unit) after_conversation).1 = Ok (Some (mkConversation (cv_id c) [] (cv_rest c))))
  | None =>
      (lazy_conversation (E := unit) fresh).1 = Panic
      /\ (lazy_get (E := unit) fresh).1 = Ok None
      /\ (lazy_conversation (E := unit) after_get).1 = Ok (mkConversation [] [] default_rest)
  end.
Proof.
  unfold lazy_get, lazy_conversation, get_or_init, lazy_from_bytes, mbind'. cbn. destruct (decode_conversation raw) as [c|]; cbn; [|done].
  split_and!; [done|done|]. intros Hne. by destruct (cv_id c).
Qed.
End Lazy.

(** ** A reader to evaluate the model on *)

Lemma decode_varint_from_bounds data i value sh v n : decode_varint_from data i value sh = Some (v, n) -> (i < n <= i + length data)%nat.
Proof.
  revert i value sh. induction data as [|b data IH]; intros i value sh; [done|]. cbn [decode_varint_from length]. case_match; [intros E; injection E as _ <-; lia|].
  case_match; [done|]. intros Hb%IH. lia.
Qed.

Definition toy_error {A} : outcome ProtobufError A := Err (PB_error []).

(** Reads a number of at most [limit]. *)
Definition toy_number (limit : Z) : comp (bytes * bool) ProtobufError Z :=
  fun c => match decode_varint c.1 with
           | Some (v, n) => if v <? limit then (Ok v, (drop n c.1, c.2)) else (toy_error, c)
           | None => (toy_error, c)
           end.
Definition toy_take (n : Z) : comp (bytes * bool) ProtobufError bytes :=
  fun c => if n <=? Z.of_nat (length c.1) then (Ok (take (Z.to_nat n) c.1), (drop (Z.to_nat n) c.1, c.2)) else (toy_error, c).

Lemma toy_number_read limit v r f : 0 <= v < limit -> limit <= 2 ^ 64 -> toy_number limit (varint v ++ r, f) = (Ok v, (r, f)).
Proof.
  intros Hv Hl. unfold toy_number, varint. destruct (varint_roundtrip v r ltac:(lia)) as (b & -> & _ & E). cbn [fst snd]. rewrite E, (proj2 (Z.ltb_lt v limit)) by lia.
  by rewrite drop_app_length.
Qed.

Lemma toy_number_forward limit c v c' : toy_number limit c = (Ok v, c') -> (length c'.1 < length c.1)%nat.
Proof.
  unfold toy_number, decode_varint. destruct (decode_varint_from c.1 0 0 0) as [ [w n]|] eqn:E; [|done]. apply decode_varint_from_bounds in E.
  case_match; [|done]. intros E1. injection E1 as _ <-. cbn. rewrite length_drop. lia.
Qed.

Lemma toy_number_returns limit c : returns (toy_number limit c).1.
Proof. unfold toy_number. by repeat case_match. Qed.

Lemma toy_take_read b r f : toy_take (Z.of_nat (length b)) (b ++ r, f) = (Ok b, (r, f)).
Proof. unfold toy_take. cbn [fst snd]. rewrite (proj2 (Z.leb_le _ _)) by (rewrite length_app; lia). by rewrite Nat2Z.id, take_app_length, drop_app_length. Qed.

Lemma toy_take_forward n c b c' : toy_take n c = (Ok b, c') -> (length c'.1 <= length c.1)%nat.
Proof. unfold toy_take. case_match; [|done]. intros E1. injection E1 as _ <-. cbn. rewrite length_drop. lia. Qed.

Lemma toy_take_returns n c : returns (toy_take n c).1.
Proof. unfold toy_take. by case_match. Qed.

Definition toy_tag : comp (bytes * bool) ProtobufError (option u32) :=
  fun c => match c with
           | ([], false) => (Ok None, c)
           | ([], true) => (toy_error, c)
           | _ => (let! t := toy_number (2 ^ 32) in mret (Some t)) c
           end.

Lemma toy_tag_some c t c' : toy_tag c = (Ok (Some t), c') -> toy_number (2 ^ 32) c = (Ok t, c').
Proof.
  unfold toy_tag. destruct c as [ [|x data] f]; [by destruct f|]. unfold mbind'. destruct (toy_number _ _) as [ [v| | |] c1]; try done. intros E. by injection E as <- <-.
Qed.

#[local] Instance toy_coded : CodedInput.
Proof.
  refine {| Cis := bytes * bool; cis_new d f := (d, f); cis_left c := length c.1;
            read_raw_tag_or_eof := toy_tag;
            read_bytes := (let! n := toy_number (2 ^ 32) in toy_take n);
            read_raw_varint32 := toy_number (2 ^ 32); read_raw_varint64 := toy_number (2 ^ 64);
            read_raw_little_endian64 := (let! b := toy_take 8 in mret (Z.of_nat (length b)));
            read_raw_little_endian32 := (let! b := toy_take 4 in mret (Z.of_nat (length b)));
            skip_raw_bytes n := (toy_take n ;; mret tt) |}.
  all: assert (forall limit c v c', toy_number limit c = (Ok v, c') -> (length c'.1 < length c.1)%nat) as Hn by apply toy_number_forward.
  all: assert (forall n c v c', toy_take n c = (Ok v, c') -> (length c'.1 <= length c.1)%nat) as Ht by apply toy_take_forward.
  - done.
  - intros c t c' E%toy_tag_some. by apply Hn in E.
  - intros c b c' (n & c1 & E1%Hn & E2%Ht)%mbind'_inv. lia.
  - intros c v c' E%Hn. lia.
  - intros c v c' E%Hn. lia.
  - intros c v c' (n & c1 & E1%Ht & E2)%mbind'_inv. by injection E2 as _ <-.
  - intros c v c' (n & c1 & E1%Ht & E2)%mbind'_inv. by injection E2 as _ <-.
  - intros n c v c' (b & c1 & E1%Ht & E2)%mbind'_inv. by injection E2 as _ <-.
  - intros [ [|x data] [] ]; try done; apply bind_returns; try done; apply toy_number_returns.
  - intros c. apply bind_returns; [apply toy_number_returns|]. intros; apply toy_take_returns.
  - intros c. apply toy_number_returns.
  - intros c. apply toy_number_returns.
  - intros c. apply bind_returns; [apply toy_take_returns|done].
  - intros c. apply bind_returns; [apply toy_take_returns|done].
  - intros n c. apply bind_returns; [apply toy_take_returns|done].
  - intros t r f H. unfold toy_tag. pose proof (toy_number_read (2 ^ 32) t r f ltac:(lia) ltac:(lia)) as E.
    destruct (varint t ++ r) as [|x data] eqn:Ed; [|by rewrite (mbind'_Ok _ _ _ _ _ E)]. exfalso. apply toy_number_forward in E. cbn in E. lia.
  - done.
  - by eexists.
  - intros b r f H. rewrite (mbind'_Ok _ _ _ _ _ (toy_number_read (2 ^ 32) (Z.of_nat (length b)) (b ++ r) f ltac:(lia) ltac:(lia))). apply toy_take_read.
  - intros v r f H. by apply toy_number_read.
  - intros v r f H. by apply toy_number_read.
  - intros b r f H. exists 8. change 8 with (Z.of_nat 8). rewrite <- H. by rewrite (mbind'_Ok _ _ _ _ _ (toy_take_read b r f)).
  - intros b r f H. exists 4. change 4 with (Z.of_nat 4). rewrite <- H. by rewrite (mbind'_Ok _ _ _ _ _ (toy_take_read b r f)).
  - intros b r f H. by rewrite (mbind'_Ok _ _ _ _ _ (toy_take_read b r f)).
Defined.

(** Two conversations, a number between them and the account's push name. *)
Definition toy_fields : list HistoryField :=
  [mkField 2 (W_len [1; 2]); mkField 3 (W_varint 300); mkField 7 (W_len [9]); mkField 2 (W_len []); mkField 5 (W_fixed32 [0; 0; 0; 0])].
Definition toy_pushname (raw : bytes) : option (option str * option str) := Some (Some (lit "1"), Some raw).
Definition toy_account : Device :=
  let k := mkKeyPair (mkPublicKey []) (mkPrivateKey []) in
  mkDevice (Some (jid_new (lit "1") SERVER_JID)) None 1 k k k 1 [] [] None (lit "me") 0 0 0 0 (mkDeviceProps None None None None None) None.

Lemma toy_fields_wf : Forall field_wf toy_fields.
Proof. repeat constructor; cbn; lia. Qed.

Lemma history_complete_witness :
  let '(r, called) := process_history_sync toy_pushname (encode_history toy_fields, false) (Some (lit "1")) true in
  called = [[1; 2]; []] /\ r = Ok (mkResult (Some [9]) 2).
Proof. pose proof (history_complete toy_pushname (Some (lit "1")) true false toy_fields toy_fields_wf) as H. vm_compute in H |- *. exact H. Defined.

Lemma history_task_announces_witness :
  let '(d', es) := process_history_sync_task toy_pushname (fun z => (z, false)) 0 true (lit "m") None (Some (encode_history toy_fields)) toy_account in
  d_push_name d' = [9] /\ es = [HE_receipt (lit "m"); HE_joined_group [1; 2]; HE_joined_group []; HE_push_name true (lit "me") [9]; HE_set_available].
Proof.
  pose proof (history_task_announces toy_pushname (fun z => (z, false)) 0 (lit "m") None (Some (encode_history toy_fields)) toy_fields toy_account toy_fields_wf
                (ex_intro _ _ (conj eq_refl eq_refl))) as H. vm_compute in H |- *. exact H.
Defined.
