(* ===== verification/Contacts.v ===== *)
(** * Contacts and queries: [src/features/{contacts,mex}.rs]

    Asking the server about numbers and users, profile pictures, and the GraphQL
    queries of [mex].  The request goes through an argument, the client's
    [send_iq]; serde's reading of the GraphQL answer is an argument too.

    The theorems: what the server lists is what is returned, user by user; what a
    query asks; when a picture is absent and when it is an error; which errors of
    a GraphQL answer are fatal.  The status of a contact does not survive the
    wire: text arrives as bytes and only a string is taken. *)

From S2P Require Import Prelude RustStd Jid Node Attrs Codec Crypto Curve Requests KeyServer Receive Usync Json.

Inductive ContactError := CE_iq (e : ClientIqError) | CE_text (text : str).

Record IsOnWhatsAppResult := mkIsOn { io_jid : Jid; io_is_registered : bool }.
Record ContactInfo := mkContactInfo {
  co_jid : Jid; co_lid : option Jid; co_is_registered : bool; co_is_business : bool; co_status : option str; co_picture_id : option u64
}.
Record ProfilePicture := mkPicture { pp_id : str; pp_url : str; pp_direct_path : option str }.
Record UserInfo := mkUserInfo { ui_jid : Jid; ui_lid : option Jid; ui_status : option str; ui_picture_id : option str; ui_is_business : bool }.

(** ** Queries *)

(** A node without attributes and children. *)
Definition leaf (t : string) : Node := build (builder_new (lit t)).
Definition parent (t : string) (cs : list Node) : Node := build (b_children (builder_new (lit t)) cs).

Definition phone_node (phone : str) : Node :=
  let phone_content := if starts_with [PLUS] phone then phone else PLUS :: phone in
  parent "user" [build (b_string_content (builder_new (lit "contact")) phone_content)].

Definition contact_usync (request_id : str) (mode context : string) (query users : list Node) : InfoQuery :=
  let usync_node :=
    build (b_children (b_attr (b_attr (b_attr (b_attr (b_attr (builder_new (lit "usync")) (lit "sid") request_id) (lit "mode") (lit mode)) (lit "last") (lit "true"))
                         (lit "index") (lit "0")) (lit "context") (lit context)) [parent "query" query; parent "list" users]) in
  query_get (lit "usync") server_jid (Some (NC_Nodes [usync_node])).

Definition picture_query (jid : Jid) (preview : bool) : InfoQuery :=
  let picture_type := if preview then lit "preview" else lit "image" in
  let picture_node := build (b_attr (b_attr (builder_new (lit "picture")) (lit "type") picture_type) (lit "query") (lit "url")) in
  with_target jid (query_get (lit "w:profile:picture") server_jid (Some (NC_Nodes [picture_node]))).

(** ** Answers *)

Definition answer_list (node : Node) : outcome ContactError (list Node) :=
  let? usync := ok_or (CE_text (lit "Response missing <usync> node")) (get_optional_child node (lit "usync")) in
  let? list := ok_or (CE_text (lit "Response missing <list> node")) (get_optional_child usync (lit "list")) in
  Ok (get_children_by_tag list (lit "user")).

(** The user a node is about; others are passed over. *)
Definition user_jid_of (user_node : Node) : option Jid := attr_opt user_node "jid" ≫= fun s => to_option (from_str s).

Definition registered (user_node : Node) : bool :=
  match get_optional_child user_node (lit "contact") with
  | Some c => match attr_opt c "type" with Some t => t =s lit "in" | None => false end
  | None => false
  end.

Definition lid_of (user_node : Node) : option Jid :=
  get_optional_child user_node (lit "lid") ≫= fun n => attr_opt n "val" ≫= fun v => to_option (from_str v).

Definition status_of (user_node : Node) : option str :=
  get_optional_child user_node (lit "status") ≫= fun n =>
    match get_optional_child n (lit "error"), content n with
    | None, Some (NC_String s) => match s with [] => None | _ => Some s end
    | _, _ => None
    end.

(** The picture node, unless it holds an error. *)
Definition picture_of (user_node : Node) : option Node :=
  get_optional_child user_node (lit "picture") ≫= fun n => match get_optional_child n (lit "error") with Some _ => None | None => Some n end.

Definition is_business (user_node : Node) : bool := bool_decide (is_Some (get_optional_child user_node (lit "business"))).

Definition parse_is_on_whatsapp_response (node : Node) : outcome ContactError (list IsOnWhatsAppResult) :=
  let? users := answer_list node in
  Ok (omap (fun u => (fun jid => mkIsOn jid (registered u)) <$> user_jid_of u) users).

Definition contact_info_of (u : Node) : option ContactInfo :=
  (fun jid => mkContactInfo jid (lid_of u) (registered u) (is_business u) (status_of u)
                (picture_of u ≫= fun n => (ap_optional_u64 (lit "id") (ap_new n)).1)) <$> user_jid_of u.

Definition parse_contact_info_response (node : Node) : outcome ContactError (list ContactInfo) :=
  let? users := answer_list node in Ok (omap contact_info_of users).

Definition parse_profile_picture_response (node : Node) : outcome ContactError (option ProfilePicture) :=
  match get_optional_child node (lit "picture") with
  | None => Ok None
  | Some picture_node =>
      match get_optional_child picture_node (lit "error") with
      | Some error_node =>
          let code := default (lit "0") (attr_opt error_node "code") in
          if (code =s lit "404") || (code =s lit "401") then Ok None
          else
            let text := default (lit "unknown error") (attr_opt error_node "text") in
            Err (CE_text (lit "Profile picture error " ++ code ++ lit ": " ++ text))
      | None =>
          let id := default [] (attr_opt picture_node "id") in
          let? url := ok_or (CE_text (lit "Picture response missing 'url' attribute")) (attr_opt picture_node "url") in
          Ok (Some (mkPicture id url (attr_opt picture_node "direct_path")))
      end
  end.

(** [HashMap::insert] *)
Fixpoint jid_insert {A} (j : Jid) (a : A) (m : list (Jid * A)) : list (Jid * A) :=
  match m with
  | [] => [(j, a)]
  | (j', a') :: m => if bool_decide (j = j') then (j, a) :: m else (j', a') :: jid_insert j a m
  end.
Fixpoint jid_lookup {A} (j : Jid) (m : list (Jid * A)) : option A :=
  match m with [] => None | (j', a) :: m => if bool_decide (j = j') then Some a else jid_lookup j m end.

Definition user_info_of (u : Node) : option UserInfo :=
  (fun jid => mkUserInfo jid (lid_of u) (status_of u) (picture_of u ≫= fun n => attr_opt n "id") (is_business u)) <$> user_jid_of u.

Definition parse_user_info_response (node : Node) : outcome ContactError (list (Jid * UserInfo)) :=
  let? users := answer_list node in
  Ok (fold_left (fun m i => jid_insert (ui_jid i) i m) (omap user_info_of users) []).

(** ** [Contacts] *)

Section Contacts.
Context (send_iq : InfoQuery -> outcome ClientIqError Node).

Definition is_on_whatsapp (request_id : str) (phones : list str) : outcome ContactError (list IsOnWhatsAppResult) :=
  match phones with
  | [] => Ok []
  | _ =>
      let? response_node := map_err CE_iq (send_iq (contact_usync request_id "query" "interactive" [leaf "contact"] (map phone_node phones))) in
      parse_is_on_whatsapp_response response_node
  end.

Definition get_info (request_id : str) (phones : list str) : outcome ContactError (list ContactInfo) :=
  match phones with
  | [] => Ok []
  | _ =>
      let? response_node := map_err CE_iq (send_iq (contact_usync request_id "query" "interactive"
                              [leaf "contact"; leaf "lid"; leaf "status"; leaf "picture"; leaf "business"] (map phone_node phones))) in
      parse_contact_info_response response_node
  end.

Definition get_profile_picture (jid : Jid) (preview : bool) : outcome ContactError (option ProfilePicture) :=
  let? response_node := map_err CE_iq (send_iq (picture_query jid preview)) in parse_profile_picture_response response_node.

Definition get_user_info (request_id : str) (jids : list Jid) : outcome ContactError (list (Jid * UserInfo)) :=
  match jids with
  | [] => Ok []
  | _ =>
      let? response_node := map_err CE_iq (send_iq (contact_usync request_id "full" "background"
                              [parent "business" [leaf "verified_name"]; leaf "status"; leaf "picture";
                               build (b_attr (builder_new (lit "devices")) (lit "version") (lit "2")); leaf "lid"]
                              (map (fun j => build (b_attr (builder_new (lit "user")) (lit "jid") (jid_to_string (to_non_ad j)))) jids))) in
      parse_user_info_response response_node
  end.
End Contacts.

(** ** [mex.rs] *)

Record MexErrorExtensions := mkExtensions { ex_error_code : option i32; ex_is_summary : option bool; ex_is_retryable : option bool; ex_severity : option str }.
Record MexGraphQLError := mkMexGraphQLError { ge_message : str; ge_extensions : option MexErrorExtensions }.
Record MexResponse := mkMexResponse { mr_data : option Value; mr_errors : option (list MexGraphQLError) }.

Inductive MexError :=
| PayloadParsing (text : str)
| ExtensionError (code : i32) (message : str)
| MexRequestFailed (e : ClientIqError)
| MexJson (text : str).

Definition error_code (e : MexGraphQLError) : option i32 := ge_extensions e ≫= ex_error_code.
Definition is_fatal (e : MexGraphQLError) : bool :=
  match ge_extensions e with Some ext => bool_decide (ex_is_summary ext = Some true) | None => false end.
Definition has_data (r : MexResponse) : bool := bool_decide (is_Some (mr_data r)).
Definition has_errors (r : MexResponse) : bool := match mr_errors r with Some (_ :: _) => true | _ => false end.
Definition fatal_error (r : MexResponse) : option MexGraphQLError := mr_errors r ≫= List.find is_fatal.

Section Mex.
(** [serde_json::to_vec] of a value, [serde_json::from_slice::<MexResponse>] *)
Context (json_to_vec : Value -> outcome str bytes) (json_response : bytes -> outcome str MexResponse).
Context (send_iq : InfoQuery -> outcome ClientIqError Node).

Definition mex_parse_response (node : Node) : outcome MexError MexResponse :=
  let? result_node := ok_or (PayloadParsing (lit "Missing <result> node")) (get_optional_child node (lit "result")) in
  match content result_node with
  | Some (NC_Bytes result_bytes) =>
      let? response := map_err MexJson (json_response result_bytes) in
      match fatal_error response with
      | Some fatal => Err (ExtensionError (default 500 (error_code fatal)) (ge_message fatal))
      | None => Ok response
      end
  | _ => Err (PayloadParsing (lit "Result not binary"))
  end.

(** [execute], which [query] and [mutate] are *)
Definition mex_execute (doc_id : str) (variables : Value) : outcome MexError MexResponse :=
  let? payload_bytes := map_err MexJson (json_to_vec (json_obj [("variables"%string, variables)])) in
  let query_node := build (b_bytes (b_attr (builder_new (lit "query")) (lit "query_id") doc_id) payload_bytes) in
  let? response_node := map_err MexRequestFailed (send_iq (query_get (lit "w:mex") server_jid (Some (NC_Nodes [query_node])))) in
  mex_parse_response response_node.
End Mex.

(** ** What the server says *)

Definition opt_node {A} (o : option A) (f : A -> Node) : list Node := match o with Some a => [f a] | None => [] end.

Definition contact_answer (c : ContactInfo) : Node :=
  build (b_children (b_attr (builder_new (lit "user")) (lit "jid") (jid_to_string (co_jid c)))
    ([build (b_attr (builder_new (lit "contact")) (lit "type") (if co_is_registered c then lit "in" else lit "out"))]
     ++ opt_node (co_lid c) (fun l => build (b_attr (builder_new (lit "lid")) (lit "val") (jid_to_string l)))
     ++ opt_node (co_status c) (fun s => build (b_string_content (builder_new (lit "status")) s))
     ++ opt_node (co_picture_id c) (fun i => build (b_attr (builder_new (lit "picture")) (lit "id") (show_uint i)))
     ++ if co_is_business c then [leaf "business"] else [])).

Definition usync_answer (users : list Node) : Node := parent "iq" [parent "usync" [parent "list" users]].

Definition contact_wf (c : ContactInfo) : Prop :=
  jid_wf (co_jid c) = true /\ (forall l, co_lid c = Some l -> jid_wf l = true) /\ co_status c <> Some []
  /\ (forall i, co_picture_id c = Some i -> 0 <= i < 2 ^ 64).

Lemma answer_list_ok {A} (f : A -> Node) l : (forall a, tag (f a) = lit "user") -> answer_list (usync_answer (map f l)) = Ok (map f l).
Proof.
  intros Hu. change (answer_list (usync_answer (map f l))) with (Ok (E := ContactError) (List.filter (fun c => tag c =s lit "user") (map f l))).
  by rewrite filter_map_all.
Qed.

Lemma optional_u64_read key n : (ap_optional_u64 key (ap_new n)).1 = im_get key (attrs n) ≫= fun s => to_option (parse_u64 s).
Proof.
  unfold ap_optional_u64, get_u64, get_int, meth_bind, ap_get_raw, required, meth_bind. cbn [ap_new ap_attrs]. destruct (im_get key (attrs n)) as [s|]; [|done]. cbn.
  by destruct (parse_u64 s).
Qed.

Lemma contact_info_answer c : contact_wf c -> contact_info_of (contact_answer c) = Some c.
Proof.
  intros (Hj & Hl & Hs & Hp). unfold contact_info_of.
  assert (user_jid_of (contact_answer c) = Some (co_jid c)) as -> by (unfold user_jid_of; change (attr_opt _ "jid") with (Some (jid_to_string (co_jid c))); cbn; by rewrite jid_print_parse).
  assert (registered (contact_answer c) = co_is_registered c) as -> by (by destruct c as [? ? []]).
  assert (is_business (contact_answer c) = co_is_business c) as -> by (destruct c as [? [] ? [] [] []]; reflexivity).
  assert (lid_of (contact_answer c) = co_lid c) as ->.
  { destruct c as [j [l|] r b [s|] [i|] ]; cbn [co_lid] in Hl; try (destruct b; reflexivity); (transitivity (to_option (from_str (jid_to_string l))); [reflexivity|]);
      by rewrite jid_print_parse by (by apply Hl). }
  assert (status_of (contact_answer c) = co_status c) as ->.
  { destruct c as [j [l|] r b [ [|x s]|] [i|] ]; cbn in Hs; try done; destruct b; reflexivity. }
  cbn. f_equal. destruct c as [j l r b s p]. f_equal. cbn [co_picture_id] in *.
  destruct p as [i|]; [|destruct l, s, b; reflexivity].
  transitivity ((ap_optional_u64 (lit "id") (ap_new (build (b_attr (builder_new (lit "picture")) (lit "id") (show_uint i))))).1);
    [destruct l, s; reflexivity|]. rewrite optional_u64_read. change (im_get _ _) with (Some (show_uint i)). cbn [mbind option_bind]. unfold parse_u64. by rewrite parse_show_uint by (specialize (Hp i eq_refl); lia).
Qed.

Lemma omap_map_all {A B C} (f : B -> option C) (g : A -> B) (h : A -> C) l : Forall (fun a => f (g a) = Some (h a)) l -> omap f (map g l) = map h l.
Proof.
  induction 1 as [|a l Ha _ IH]; [done|]. change (omap f (map g (a :: l))) with (match f (g a) with Some y => y :: omap f (map g l) | None => omap f (map g l) end).
  by rewrite Ha, IH.
Qed.

(** What the server lists is what is returned, user by user: whether the number
    is registered, its LID, status, picture and kind. *)
Theorem contacts_answered send_iq request_id phones cs : phones <> [] -> Forall contact_wf cs -> (forall q, send_iq q = Ok (usync_answer (map contact_answer cs))) ->
  get_info send_iq request_id phones = Ok cs
  /\ is_on_whatsapp send_iq request_id phones = Ok (map (fun c => mkIsOn (co_jid c) (co_is_registered c)) cs).
Proof.
  intros Hp Hwf Hq. unfold get_info, is_on_whatsapp. destruct phones as [|p ps]; [done|]. rewrite !Hq. cbn [map_err obind].
  unfold parse_contact_info_response, parse_is_on_whatsapp_response. rewrite answer_list_ok by done. cbn [obind]. split; f_equal.
  - rewrite (omap_map_all _ _ id), map_id; [done|]. eapply Forall_impl; [exact Hwf|]. apply contact_info_answer.
  - apply omap_map_all. eapply Forall_impl; [exact Hwf|]. intros c Hc. pose proof (contact_info_answer c Hc) as E. unfold contact_info_of in E.
    destruct (user_jid_of (contact_answer c)) as [j|]; [|done]. apply (inj Some) in E.
    pose proof (f_equal co_jid E) as E1. pose proof (f_equal co_is_registered E) as E2. cbn [co_jid co_is_registered] in E1, E2. by rewrite <- E1, <- E2.
Qed.

(** ** The status on the wire *)

(** A status of ordinary text (no word of the dictionary, no digits, no JID) is
    sent as bytes; the client that reads the answer finds no status. *)
Theorem status_lost_on_the_wire j s : is_raw s = true -> s <> [] ->
  let u := contact_answer (mkContactInfo j None true false (Some s) None) in
  status_of u = Some s /\ status_of (to_owned (wire_node u)) = None.
Proof.
  intros Hr Hs u. split; [by destruct s|].
  assert (get_optional_child (to_owned (wire_node u)) (lit "status") = Some (mkNode (lit "status") [] (Some (NC_Bytes s)))) as E.
  { change u with (mkNode (lit "user") [(lit "jid", jid_to_string j)]
      (Some (NC_Nodes [mkNode (lit "contact") [(lit "type", lit "in")] None; mkNode (lit "status") [] (Some (NC_String s))]))).
    cbn [wire_node wire_content map]. rewrite Hr. cbn [to_owned content_to_owned map get_optional_child children content List.find tag].
    assert (wire_str (lit "contact") = lit "contact") as -> by (vm_compute; reflexivity). assert (wire_str (lit "status") = lit "status") as -> by (vm_compute; reflexivity).
    reflexivity. }
  unfold status_of. rewrite E. reflexivity.
Qed.

(** ** The map of users, and fatal errors *)

Lemma jid_lookup_insert {A} j j' (a : A) m : jid_lookup j (jid_insert j' a m) = if bool_decide (j = j') then Some a else jid_lookup j m.
Proof.
  induction m as [|[k b] m IH]; cbn; [done|]. destruct (decide (j' = k)) as [->|N].
  - rewrite (bool_decide_true (k = k)) by done. cbn. by destruct (bool_decide (j = k)).
  - rewrite (bool_decide_false (j' = k)) by done. cbn. rewrite IH. repeat case_bool_decide; congruence.
Qed.

(** Of several entries for a user the last one is kept. *)
Theorem user_info_last node users j : answer_list node = Ok users ->
  exists m, parse_user_info_response node = Ok m /\ jid_lookup j m = last (List.filter (fun i => bool_decide (j = ui_jid i)) (omap user_info_of users)).
Proof.
  intros E. unfold parse_user_info_response. rewrite E. cbn [obind]. eexists. split; [done|]. generalize (omap user_info_of users) as infos. intros infos.
  induction infos as [|i infos IH] using rev_ind; [done|]. rewrite fold_left_app, List.filter_app. cbn. rewrite jid_lookup_insert.
  case_bool_decide; cbn; [by rewrite last_snoc|by rewrite app_nil_r].
Qed.

(** An answer is returned only if none of its errors is fatal; otherwise the first
    fatal one is the error, with its code or 500. *)
Theorem mex_fatal_errors json_response node r : mex_parse_response json_response node = r ->
  match r with
  | Ok response => forall es e, mr_errors response = Some es -> e ∈ es -> is_fatal e = false
  | Err (ExtensionError code message) => exists response es es' e, mr_errors response = Some (es ++ e :: es')
      /\ Forall (fun e => is_fatal e = false) es /\ is_fatal e = true /\ code = default 500 (error_code e) /\ message = ge_message e
  | _ => True
  end.
Proof.
  intros <-. unfold mex_parse_response. destruct (get_optional_child _ _) as [n|]; cbn [ok_or obind]; [|done].
  destruct (content n) as [ [b|s|l]|]; try done. destruct (json_response b) as [response|e| |]; cbn [map_err obind]; try done.
  unfold fatal_error. destruct (mr_errors response) as [es|] eqn:Ee; cbn [mbind option_bind]; [|intros es e E; by rewrite Ee in E].
  destruct (List.find is_fatal es) as [e|] eqn:Ef.
  - exists response. rewrite Ee. clear Ee. assert (exists es1 es2, es = es1 ++ e :: es2 /\ Forall (fun e => is_fatal e = false) es1 /\ is_fatal e = true) as (es1 & es2 & -> & H1 & H2).
    { induction es as [|x es IH]; [done|]. cbn in Ef. destruct (is_fatal x) eqn:Ex; [injection Ef as ->; by exists [], es|].
      destruct (IH Ef) as (es1 & es2 & -> & H1 & H2). exists (x :: es1), es2. split_and!; [done|by constructor|done]. }
    exists es1, es2, e. done.
  - intros es' e E Hin. rewrite Ee in E. injection E as <-. apply (List.find_none _ _ Ef). by apply list_elem_of_In.
Qed.

(** ** Answers to evaluate the model on *)

Definition toy_contacts : list ContactInfo :=
  [mkContactInfo (jid_new (lit "1") DEFAULT_USER_SERVER) (Some (jid_new (lit "77") (lit "lid"))) true true (Some (lit "hi")) (Some 5);
   mkContactInfo (jid_new (lit "2") DEFAULT_USER_SERVER) None false false None None].
Definition toy_contact_iq (q : InfoQuery) : outcome ClientIqError Node := Ok (usync_answer (map contact_answer toy_contacts)).

Lemma contacts_answered_witness : get_info toy_contact_iq (lit "r") [lit "1"; lit "2"] = Ok toy_contacts
  /\ is_on_whatsapp toy_contact_iq (lit "r") [lit "1"; lit "2"]
     = Ok [mkIsOn (jid_new (lit "1") DEFAULT_USER_SERVER) true; mkIsOn (jid_new (lit "2") DEFAULT_USER_SERVER) false].
Proof.
  apply (contacts_answered toy_contact_iq (lit "r") [lit "1"; lit "2"] toy_contacts); [done| |done].
  apply Forall_cons_2; [|apply Forall_cons_2; [|apply Forall_nil_2] ]; (split_and!; [reflexivity| |discriminate|]; intros x E; try discriminate E; injection E as <-); [reflexivity|lia].
Defined.

Lemma status_lost_on_the_wire_witness :
  let u := contact_answer (mkContactInfo (jid_new (lit "1") DEFAULT_USER_SERVER) None true false (Some (lit "Hey there!")) None) in
  status_of u = Some (lit "Hey there!") /\ status_of (to_owned (wire_node u)) = None.
Proof. apply (status_lost_on_the_wire (jid_new (lit "1") DEFAULT_USER_SERVER) (lit "Hey there!")); [vm_compute; reflexivity|done]. Defined.
