(* ===== verification/Version.v ===== *)
(** * The version the client announces: [warp_core/src/version.rs], [src/version.rs]

    The version is read out of a script of the web client, at most once a day, or
    set by the user.  The HTTP client is an argument.

    The theorems: the revision in a script is found; a version is fetched exactly
    when none was within a day; a version the user set counts as fetched, so it
    stays for a day when the user no longer sets it. *)

From S2P Require Import Prelude RustStd Jid Node Attrs Crypto Curve Device Media ClientSync.

Definition REVISION_KEY : str := lit "client_revision".
Definition ASSETS_KEY : str := lit "assets-manifest-".
Definition SW_URL : str := lit "https://web.whatsapp.com/sw.js".

(** [str::find] of a pattern *)
Fixpoint find_str (p s : str) : option usize :=
  if starts_with p s then Some 0%nat
  else match s with [] => None | _ :: s' => S <$> find_str p s' end.

Definition not_digit (c : u8) : bool := negb (is_ascii_digit c).

(** The number after the first occurrence of the key, with anything but digits
    between. *)
Definition revision_in (s : str) : option u32 :=
  find_str REVISION_KEY s ≫= fun start_index =>
    let suffix := drop (start_index + length REVISION_KEY) s in
    find_pos is_ascii_digit suffix ≫= fun first_digit_index =>
      let number_slice := drop first_digit_index suffix in
      let end_of_number_index := default (length number_slice) (find_pos not_digit number_slice) in
      to_option (parse_u32 (take end_of_number_index number_slice)).

(** The fallback: a manifest that is not a canary. *)
Definition manifest_in (s : str) : bool :=
  match find_str ASSETS_KEY s with
  | Some start_index =>
      let suffix := drop (start_index + length ASSETS_KEY) s in
      match find_pos not_digit suffix with
      | Some end_index => negb (str_contains (lit "wa" ++ take end_index suffix ++ lit ".canary") s)
      | None => false
      end
  | None => false
  end.

Definition parse_sw_js (s : str) : option (u32 * u32 * u32) :=
  match revision_in s with
  | Some revision => Some (2, 3000, revision)
  | None => if manifest_in s then Some (2, 3000, 0) else None
  end.

Section Version.
Context (execute : HttpRequest -> outcome str HttpResponse) (show_utf8_error : bytes -> str).
(** [chrono::DateTime::from_timestamp_millis], as milliseconds *)
Context (from_timestamp_millis : i64 -> option i64).

Definition version_request : HttpRequest :=
  with_header (lit "user-agent") (lit "Mozilla/5.0 (X11; Linux x86_64) AppleWebKit/537.36 (KHTML, like Gecko) Chrome/131.0.0.0 Safari/537.36")
    (with_header (lit "sec-fetch-site") (lit "none") (http_get SW_URL)).

Definition fetch_latest_app_version : outcome str (u32 * u32 * u32) :=
  let? response := map_err (fun e => lit "HTTP request to " ++ SW_URL ++ lit " failed: " ++ e) (execute version_request) in
  let? body_str := map_err (fun e => lit "Failed to decode response body: " ++ e) (body_string show_utf8_error response) in
  ok_or (lit "Could not find 'client_revision' version in sw.js response") (parse_sw_js body_str).

Definition HOURS_24 : Z := 24 * 3600 * 1000.

Definition needs_fetch (now : i64) (d : Device) : bool :=
  let last_fetched_ms := d_app_version_last_fetched_ms d in
  if last_fetched_ms =? 0 then true
  else match from_timestamp_millis last_fetched_ms with
       | Some last_fetched => HOURS_24 <? now - last_fetched
       | None => true
       end.

Definition resolve_and_update_version (now : i64) (override_version : option (u32 * u32 * u32)) : comp Device str unit :=
  fun d =>
    match override_version with
    | Some v => (Ok tt, apply_command_to_device now (SetAppVersion v) d)
    | None =>
        if needs_fetch now d then
          match map_err (fun e => lit "Failed to fetch latest WhatsApp version: " ++ e) fetch_latest_app_version with
          | Ok v => (Ok tt, apply_command_to_device now (SetAppVersion v) d)
          | Err e => (Err e, d)
          | Panic => (Panic, d)
          | NoFuel => (NoFuel, d)
          end
        else (Ok tt, d)
    end.

Definition app_version (d : Device) : u32 * u32 * u32 := (d_app_version_primary d, d_app_version_secondary d, d_app_version_tertiary d).

(** ** Finding the revision *)

Lemma find_str_app p pre s : (forall i, (i < length pre)%nat -> starts_with p (drop i (pre ++ p ++ s)) = false) -> find_str p (pre ++ p ++ s) = Some (length pre).
Proof.
  induction pre as [|x pre IH]; intros Hn.
  - cbn [app length]. destruct (p ++ s) as [|y l] eqn:E; cbn [find_str]; rewrite <- E, starts_with_app; done.
  - change (find_str p ((x :: pre) ++ p ++ s)) with (if starts_with p (drop 0 ((x :: pre) ++ p ++ s)) then Some 0%nat else S <$> find_str p (pre ++ p ++ s)).
    rewrite (Hn 0%nat) by (cbn; lia). rewrite IH; [done|]. intros i Hi. apply (Hn (S i)). cbn. lia.
Qed.

(** A script that holds the key, then something without digits, then a number: the
    number is the revision. *)
Theorem revision_found pre sep n rest : 0 <= n < 2 ^ 32 ->
  (forall i, (i < length pre)%nat -> starts_with REVISION_KEY (drop i (pre ++ REVISION_KEY ++ sep ++ show_uint n ++ rest)) = false) ->
  Forall (fun c => is_ascii_digit c = false) sep -> (forall c, head rest = Some c -> is_ascii_digit c = false) ->
  parse_sw_js (pre ++ REVISION_KEY ++ sep ++ show_uint n ++ rest) = Some (2, 3000, n).
Proof.
  intros Hn Hpre Hsep Hrest. unfold parse_sw_js. assert (revision_in (pre ++ REVISION_KEY ++ sep ++ show_uint n ++ rest) = Some n) as ->; [|done].
  unfold revision_in. rewrite find_str_app by done. cbn [mbind option_bind].
  rewrite (app_assoc pre), <- length_app, drop_app_length. pose proof (show_uint_digits n ltac:(lia)) as Hd.
  destruct (show_uint n) as [|x ds] eqn:Es; [by destruct (show_uint_nonempty n)|]. cbn [app].
  rewrite find_pos_app_r; [|done|by apply Forall_inv in Hd]. cbn [mbind option_bind]. rewrite drop_app_length.
  change (x :: ds ++ rest) with ((x :: ds) ++ rest). rewrite <- Es in *.
  assert (default (length (show_uint n ++ rest)) (find_pos not_digit (show_uint n ++ rest)) = length (show_uint n)) as ->.
  { assert (Forall (fun c => not_digit c = false) (show_uint n)) as Hnd by (eapply Forall_impl; [exact Hd|]; unfold not_digit; by intros c ->).
    destruct rest as [|r rest]; [rewrite app_nil_r; by rewrite (proj2 (find_pos_None _ _) Hnd)|].
    rewrite find_pos_app_r; [done|done|]. unfold not_digit. by rewrite Hrest. }
  rewrite take_app_length. unfold parse_u32. by rewrite parse_show_uint by lia.
Qed.

(** ** When a version is fetched *)

(** A version is looked up exactly when the last one is older than a day or there
    is none; then the one that was found is stored, with the time; a failure
    changes nothing. *)
Theorem version_policy now d : (forall t, from_timestamp_millis t = Some t) ->
  let '(o, d') := resolve_and_update_version now None d in
  let stale := (d_app_version_last_fetched_ms d =? 0) || (HOURS_24 <? now - d_app_version_last_fetched_ms d) in
  (stale = false -> o = Ok tt /\ d' = d)
  /\ (stale = true -> forall v, fetch_latest_app_version = Ok v -> o = Ok tt /\ app_version d' = v /\ d_app_version_last_fetched_ms d' = now)
  /\ (stale = true -> forall e, fetch_latest_app_version = Err e -> (exists e', o = Err e') /\ d' = d).
Proof.
  intros Ht. unfold resolve_and_update_version, needs_fetch. rewrite Ht. destruct (d_app_version_last_fetched_ms d =? 0); cbn [orb];
    [|destruct (HOURS_24 <? now - d_app_version_last_fetched_ms d)].
  all: try (destruct fetch_latest_app_version as [v'|e'| |] eqn:E; cbn [map_err]; split_and!; try done;
    [intros _ v Ev; injection Ev as <-; destruct v' as [ [] ?], d; done|intros _ e Ee; split; [eauto|done] ]).
  done.
Qed.

(** A version the user set counts as fetched: within a day of setting it the
    client keeps it, though it is no longer set. *)
Theorem override_outlives now now' v d : (forall t, from_timestamp_millis t = Some t) -> now <> 0 -> now' - now <= HOURS_24 ->
  exists d1, resolve_and_update_version now (Some v) d = (Ok tt, d1) /\ app_version d1 = v
    /\ resolve_and_update_version now' None d1 = (Ok tt, d1).
Proof.
  intros Ht Hn Hd. unfold resolve_and_update_version. eexists. split; [reflexivity|]. destruct v as [ [p s] t], d. split; [done|].
  unfold needs_fetch. cbn. rewrite Ht. destruct (Z.eqb_spec now 0); [done|].
  destruct (Z.ltb_spec HOURS_24 (now' - now)); [lia|done].
Qed.
End Version.

Lemma revision_found_witness : parse_sw_js (lit "x={client_revision:" ++ lit "1026131876" ++ lit "}") = Some (2, 3000, 1026131876).
Proof.
  apply (revision_found (lit "x={") (lit ":") 1026131876 (lit "}")); [lia| |by repeat constructor|intros c E; by injection E as <-].
  intros i Hi. do 3 (destruct i as [|i]; [reflexivity|]). cbn in Hi. lia.
Defined.
