(* ===== verification/ServiceId.v ===== *)
(** * Service identifiers: [warp_core/libsignal/src/core/address.rs]

    An account or phone-number identity, its two binary forms and its text.  A
    UUID is its sixteen bytes; its text is that of the [uuid] crate, a class.

    The theorems: each form reads back; the short binary form is canonical, no
    other bytes read as an identifier; an identifier is taken for a kind only if
    it is of that kind. *)

From S2P Require Import Prelude RustStd Crypto Curve.

Inductive ServiceIdKind := Kind_Aci | Kind_Pni.
#[export] Instance ServiceIdKind_eq_dec : EqDecision ServiceIdKind.
Proof. solve_decision. Defined.

Definition kind_to_u8 (k : ServiceIdKind) : u8 := match k with Kind_Aci => 0 | Kind_Pni => 1 end.
Definition kind_try_from (b : u8) : option ServiceIdKind := if b =? 0 then Some Kind_Aci else if b =? 1 then Some Kind_Pni else None.
Definition kind_to_string (k : ServiceIdKind) : str := match k with Kind_Aci => lit "ACI" | Kind_Pni => lit "PNI" end.

Record WrongKindOfServiceIdError := mkWrongKind { wk_expected : ServiceIdKind; wk_actual : ServiceIdKind }.

(** [SpecificServiceId<KIND>] is its UUID; the kind is in the type. *)
Inductive ServiceId := Aci (uuid : bytes) | Pni (uuid : bytes).

(** [uuid::Uuid]: its text in the hyphenated form, and parsing *)
Class UuidText := {
  uuid_to_string : bytes -> str;
  uuid_try_parse : str -> option bytes;
  uuid_to_string_length : forall u, length u = 16%nat -> length (uuid_to_string u) = 36%nat;
  uuid_text_roundtrip : forall u, length u = 16%nat -> Forall is_byte u -> uuid_try_parse (uuid_to_string u) = Some u;
  uuid_text_hex : forall u, length u = 16%nat -> starts_with (lit "PNI:") (uuid_to_string u) = false;
  uuid_parse_length : forall s u, uuid_try_parse s = Some u -> length u = 16%nat
}.

Section ServiceIds.
Context `{HU : !UuidText}.

Definition kind (s : ServiceId) : ServiceIdKind := match s with Aci _ => Kind_Aci | Pni _ => Kind_Pni end.
Definition raw_uuid (s : ServiceId) : bytes := match s with Aci u | Pni u => u end.

Definition service_id_fixed_width_binary (s : ServiceId) : bytes := kind_to_u8 (kind s) :: raw_uuid s.
Definition service_id_binary (s : ServiceId) : bytes :=
  match s with Aci u => u | _ => service_id_fixed_width_binary s end.
Definition service_id_string (s : ServiceId) : str :=
  match s with Aci u => uuid_to_string u | _ => kind_to_string (kind s) ++ lit ":" ++ uuid_to_string (raw_uuid s) end.

(** [Uuid::from_slice] *)
Definition uuid_from_slice (b : bytes) : option bytes := if (length b =? 16)%nat then Some b else None.

(** On seventeen bytes *)
Definition parse_from_service_id_fixed_width_binary (b : bytes) : option ServiceId :=
  match b with
  | [] => None
  | k :: rest => uuid_from_slice rest ≫= fun uuid => kind_try_from k ≫= fun k => Some (match k with Kind_Aci => Aci uuid | Kind_Pni => Pni uuid end)
  end.

Definition parse_from_service_id_binary (b : bytes) : option ServiceId :=
  if (length b =? 16)%nat then Aci <$> uuid_from_slice b
  else if (length b =? 17)%nat then
    parse_from_service_id_fixed_width_binary b ≫= fun result => if bool_decide (kind result = Kind_Aci) then None else Some result
  else None.

Definition try_parse_hyphenated (input : str) : option bytes := if negb (length input =? 36)%nat then None else uuid_try_parse input.

Definition parse_from_service_id_string (input : str) : option ServiceId :=
  if starts_with (lit "PNI:") input then Pni <$> try_parse_hyphenated (drop 4 input) else Aci <$> try_parse_hyphenated input.

Definition service_to_protocol_address (s : ServiceId) (device_id : u32) : ProtocolAddress := mkProtocolAddress (service_id_string s) device_id.

(** [SpecificServiceId::<KIND>::try_from] and the parsers of a kind *)
Definition specific_try_from (k : ServiceIdKind) (s : ServiceId) : outcome WrongKindOfServiceIdError bytes :=
  if kind_to_u8 (kind s) =? kind_to_u8 k then Ok (raw_uuid s) else Err (mkWrongKind k (kind s)).
Definition specific (k : ServiceIdKind) (uuid : bytes) : ServiceId := match k with Kind_Aci => Aci uuid | Kind_Pni => Pni uuid end.
Definition specific_parse_binary (k : ServiceIdKind) (b : bytes) : option bytes := parse_from_service_id_binary b ≫= fun s => to_option (specific_try_from k s).
Definition specific_parse_fixed (k : ServiceIdKind) (b : bytes) : option bytes := parse_from_service_id_fixed_width_binary b ≫= fun s => to_option (specific_try_from k s).
Definition specific_parse_string (k : ServiceIdKind) (t : str) : option bytes := parse_from_service_id_string t ≫= fun s => to_option (specific_try_from k s).

(** ** Theory *)

Lemma from_slice_Some b u : uuid_from_slice b = Some u <-> b = u /\ length u = 16%nat.
Proof. unfold uuid_from_slice. destruct (Nat.eqb_spec (length b) 16); [split; [intros E; by injection E as ->|by intros [-> _] ]|]. split; [done|]. intros [-> ?]. done. Qed.

Lemma fixed_parse b s : parse_from_service_id_fixed_width_binary b = Some s <-> b = service_id_fixed_width_binary s /\ length (raw_uuid s) = 16%nat.
Proof.
  unfold parse_from_service_id_fixed_width_binary, service_id_fixed_width_binary. destruct b as [|k rest]; [by split; [|intros [] ]|]. split.
  - intros E. apply bind_Some in E as (u & [-> Hu]%from_slice_Some & E). apply bind_Some in E as (k' & Hk & E). apply (inj Some) in E as <-.
    unfold kind_try_from in Hk. destruct (Z.eqb_spec k 0) as [->|]; [by injection Hk as <-|]. destruct (Z.eqb_spec k 1) as [->|]; [by injection Hk as <-|done].
  - intros [E Hu]. injection E as -> ->. rewrite (proj2 (from_slice_Some (raw_uuid s) (raw_uuid s))) by done. by destruct s.
Qed.

(** The binary forms: each identifier with a UUID of sixteen bytes reads back from
    both, and bytes read as an identifier are its form. *)
Theorem service_id_binary_canonical b s :
  (parse_from_service_id_binary b = Some s <-> b = service_id_binary s /\ length (raw_uuid s) = 16%nat)
  /\ (parse_from_service_id_fixed_width_binary b = Some s <-> b = service_id_fixed_width_binary s /\ length (raw_uuid s) = 16%nat).
Proof.
  split; [|apply fixed_parse]. unfold parse_from_service_id_binary. destruct (Nat.eqb_spec (length b) 16) as [E16|N16].
  - split.
    + intros E. apply fmap_Some in E as (u & [-> Hu]%from_slice_Some & ->). done.
    + intros [-> Hu]. destruct s as [u|u]; [|cbn in *; lia]. cbn in *. by rewrite (proj2 (from_slice_Some u u)).
  - destruct (Nat.eqb_spec (length b) 17) as [E17|N17].
    + split.
      * intros E. apply bind_Some in E as (r & [-> Hu]%fixed_parse & E). case_bool_decide as Hk; [done|]. apply (inj Some) in E as <-. by destruct r.
      * intros [-> Hu]. destruct s as [u|u]; [done|]. change (service_id_binary (Pni u)) with (service_id_fixed_width_binary (Pni u)).
        by rewrite (proj2 (fixed_parse (service_id_fixed_width_binary (Pni u)) (Pni u))).
    + split; [done|]. intros [-> Hu]. destruct s; cbn in *; lia.
Qed.

(** The text reads back. *)
Theorem service_id_string_roundtrip s : length (raw_uuid s) = 16%nat -> Forall is_byte (raw_uuid s) -> parse_from_service_id_string (service_id_string s) = Some s.
Proof.
  intros Hl Hb. unfold parse_from_service_id_string, try_parse_hyphenated. destruct s as [u|u]; cbn [service_id_string kind raw_uuid kind_to_string] in *.
  - by rewrite uuid_text_hex, uuid_to_string_length, uuid_text_roundtrip.
  - change (lit "PNI" ++ lit ":" ++ uuid_to_string u) with (lit "PNI:" ++ uuid_to_string u). change (starts_with (lit "PNI:") (lit "PNI:" ++ uuid_to_string u)) with true.
    cbn match. change (drop 4 (lit "PNI:" ++ uuid_to_string u)) with (uuid_to_string u). by rewrite uuid_to_string_length, uuid_text_roundtrip.
Qed.

(** A parser of one kind accepts exactly the identifiers of its kind. *)
Theorem specific_of_kind k b u : specific_parse_binary k b = Some u <-> b = service_id_binary (specific k u) /\ length u = 16%nat.
Proof.
  unfold specific_parse_binary. split.
  - intros E. apply bind_Some in E as (s & [-> Hl]%(proj1 (service_id_binary_canonical b s)) & E). unfold specific_try_from in E.
    destruct s as [v|v], k; cbn in E; try done; apply (inj Some) in E as <-; done.
  - intros [-> Hl]. rewrite (proj2 (proj1 (service_id_binary_canonical (service_id_binary (specific k u)) (specific k u)))) by (by destruct k). by destruct k.
Qed.
End ServiceIds.

(** ** A text of UUIDs to evaluate the model on *)

#[local] Instance toy_uuid : UuidText.
Proof.
  refine {| uuid_to_string u := replicate 20 48 ++ u; uuid_try_parse s := if (length s =? 36)%nat then Some (drop 20 s) else None |}.
  - intros u Hu. rewrite length_app, Hu. done.
  - intros u Hu _. rewrite length_app, Hu. done.
  - done.
  - intros s u. destruct (Nat.eqb_spec (length s) 36); [|done]. intros E. injection E as <-. rewrite length_drop. lia.
Defined.

Lemma service_id_string_roundtrip_witness : parse_from_service_id_string (service_id_string (Pni (replicate 16 7))) = Some (Pni (replicate 16 7)).
Proof. apply service_id_string_roundtrip; [done|]. repeat constructor; unfold is_byte; lia. Defined.
