(* ===== verification/Inbound.v ===== *)
(** * What the server makes of the client's events

    [src/main.rs]: the handler of events that keeps the state of the instance,
    enqueues the webhook events of [Webhooks] and answers pings, and its reading
    of the command line; [src/models/message_model.rs]; the accessors of
    [warp_core/src/proto_helpers.rs] it reads messages with.  A message is
    rendered by the fields these files read or set
    ([waproto/src/whatsapp.rs]).

    The theorems: which wrappers [get_base_message] removes; what the event of a
    received message says of it, up to the request a receiver is sent; that
    wrapped files are announced as an empty text; that no answer to a ping is a
    ping; the state shown for the instance; and that without a row for the
    session no event is kept. *)

From stdpp Require Import gmap sorting.
From S2P Require Import Prelude RustStd Jid Node Attrs Crypto Requests Pairing KeyServer Retry Handlers Media Json Queue MessageBuild Webhooks.

(** ** Messages *)

(** The fields the five messages with a file share. *)
Record FilePart := mkFilePart {
  fp_url : option str; fp_mimetype : option str; fp_file_length : option u64; fp_direct_path : option str; fp_media_key : option bytes;
  fp_file_enc_sha256 : option bytes; fp_file_sha256 : option bytes
}.

Record ImageMsg := mkImageMsg { im_file : FilePart; im_caption : option str }.
Record VideoMsg := mkVideoMsg {
  vm_file : FilePart; vm_caption : option str; vm_gif_playback : option bool; vm_height : option u32; vm_width : option u32;
  vm_seconds : option u32; vm_gif_attribution : option i32
}.
Record AudioMsg := mkAudioMsg { am_file : FilePart; am_ptt : option bool }.
Record DocumentMsg := mkDocumentMsg { dm_file : FilePart; dm_caption : option str; dm_file_name : option str }.
Record StickerMsg := mkStickerMsg { sm_file : FilePart; sm_is_animated : option bool }.

Record WaMessageKey := mkWaMessageKey { wk_remote_jid : option str; wk_id : option str; wk_from_me : option bool; wk_key_participant : option str }.
Record ReactionMsg := mkReactionMsg { rm_key : option WaMessageKey; rm_text : option str; rm_sender_timestamp_ms : option i64 }.

Record QuoteInfo (M : Type) := mkQuoteInfo { qi_stanza_id : option str; qi_participant : option str; qi_quoted_message : option M }.
Record ExtendedText (M : Type) := mkExtendedText { et_text : option str; et_context_info : option (QuoteInfo M) }.
Arguments mkQuoteInfo {M}. Arguments mkExtendedText {M}. Arguments et_text {M}. Arguments et_context_info {M}.

(** A wrapper is there without a message in it, too. *)
Inductive Message := mkMessage {
  m_conversation : option str; m_extended_text_message : option (ExtendedText Message); m_image_message : option ImageMsg;
  m_video_message : option VideoMsg; m_audio_message : option AudioMsg; m_document_message : option DocumentMsg;
  m_sticker_message : option StickerMsg; m_reaction_message : option ReactionMsg;
  m_device_sent_message : option (option Message); m_ephemeral_message : option (option Message);
  m_view_once_message : option (option Message); m_view_once_message_v2 : option (option Message);
  m_document_with_caption_message : option (option Message); m_edited_message : option (option Message)
}.

(** [wa::Message::default()] with one field set *)
Definition msg_default : Message := mkMessage None None None None None None None None None None None None None None.
Definition msg_conversation (t : str) : Message := mkMessage (Some t) None None None None None None None None None None None None None.
Definition msg_extended (e : ExtendedText Message) : Message := mkMessage None (Some e) None None None None None None None None None None None None.
Definition msg_image (i : ImageMsg) : Message := mkMessage None None (Some i) None None None None None None None None None None None.
Definition msg_video (v : VideoMsg) : Message := mkMessage None None None (Some v) None None None None None None None None None None.
Definition msg_reaction (r : ReactionMsg) : Message := mkMessage None None None None None None None (Some r) None None None None None None.

(** ** [proto_helpers.rs] *)

(** The wrappers, in the order in which they are looked for. *)
Inductive Wrapper := W_device_sent | W_ephemeral | W_view_once | W_view_once_v2 | W_document_with_caption | W_edited.

Definition wrapped_in (w : Wrapper) (m : Message) : option (option Message) :=
  match w with
  | W_device_sent => m_device_sent_message m
  | W_ephemeral => m_ephemeral_message m
  | W_view_once => m_view_once_message m
  | W_view_once_v2 => m_view_once_message_v2 m
  | W_document_with_caption => m_document_with_caption_message m
  | W_edited => m_edited_message m
  end.

(** [if let Some(msg) = current.w.as_ref().and_then(|m| m.message.as_ref())] *)
Definition unwrap (current : Message) (w : Wrapper) : Message :=
  match wrapped_in w current with Some (Some msg) => msg | _ => current end.

Definition get_base_message (m : Message) : Message :=
  let current := unwrap m W_device_sent in
  let current := unwrap current W_ephemeral in
  let current := unwrap current W_view_once in
  let current := unwrap current W_view_once_v2 in
  let current := unwrap current W_document_with_caption in
  unwrap current W_edited.

Definition is_ephemeral (m : Message) : bool := bool_decide (is_Some (m_ephemeral_message m)).
Definition is_view_once (m : Message) : bool := bool_decide (is_Some (m_view_once_message m)) || bool_decide (is_Some (m_view_once_message_v2 m)).

Definition get_caption (m : Message) : option str :=
  let base := get_base_message m in
  match m_image_message base, m_video_message base, m_document_message base with
  | Some i, _, _ => im_caption i
  | None, Some v, _ => vm_caption v
  | None, None, Some d => dm_caption d
  | None, None, None => None
  end.

Definition text_content (m : Message) : option str :=
  let base := get_base_message m in
  match opt_filter (fun t => negb (str_is_empty t)) (m_conversation base) with
  | Some text => Some text
  | None => m_extended_text_message base ≫= et_text
  end.

(** ** [message_model.rs] *)

Record IncomingMessageMetadata := mkIncoming { md_sender_jid : str; md_remote_jid : str; md_is_from_me : bool; md_text_content : str }.

Definition metadata_from_message (message : Message) (info : MessageInfo) : IncomingMessageMetadata :=
  mkIncoming (jid_to_string (ms_sender (mi_source info))) (jid_to_string (ms_chat (mi_source info))) (ms_is_from_me (mi_source info))
    (default [] (text_content message)).

(** ** Pings *)

(** [dyn MediaPing] *)
Inductive MediaPing := Ping_image (i : ImageMsg) | Ping_video (v : VideoMsg).

Definition ping_media_type (p : MediaPing) : MediaType := match p with Ping_image _ => Image | Ping_video _ => Video end.
Definition file_downloadable (k : FileMessage) (f : FilePart) : Downloadable :=
  impl_downloadable k (fp_direct_path f) (fp_media_key f) (fp_file_enc_sha256 f) (fp_file_sha256 f) (fp_file_length f).
Definition ping_downloadable (p : MediaPing) : Downloadable :=
  match p with Ping_image i => file_downloadable ImageMessage (im_file i) | Ping_video v => file_downloadable VideoMessage (vm_file v) end.

Definition uploaded_part (mimetype : option str) (up : UploadResponse) : FilePart :=
  mkFilePart (Some (up_url up)) mimetype (Some (up_file_length up)) (Some (up_direct_path up)) (Some (up_media_key up))
    (Some (up_file_enc_sha256 up)) (Some (up_file_sha256 up)).

Definition build_pong_reply (p : MediaPing) (up : UploadResponse) : Message :=
  match p with
  | Ping_image i => msg_image (mkImageMsg (uploaded_part (fp_mimetype (im_file i)) up) (Some (lit "pong")))
  | Ping_video v => msg_video (mkVideoMsg (uploaded_part (fp_mimetype (vm_file v)) up) (Some (lit "pong")) (vm_gif_playback v) (vm_height v)
                                 (vm_width v) (vm_seconds v) (vm_gif_attribution v))
  end.

Definition says_ping (caption : option str) : bool := match caption with Some c => c =s lit "ping" | None => false end.

Definition get_pingable_media (m : Message) : option MediaPing :=
  let base := get_base_message m in
  or_else (Ping_image <$> opt_filter (fun i => says_ping (im_caption i)) (m_image_message base))
          (Ping_video <$> opt_filter (fun v => says_ping (vm_caption v)) (m_video_message base)).

(** U+1F3D3 *)
Definition paddle : str := [240; 159; 143; 147].

Definition ping_reaction (now_ms : i64) (info : MessageInfo) : Message :=
  let src := mi_source info in
  let key := mkWaMessageKey (Some (jid_to_string (ms_chat src))) (Some (mi_id info)) (Some (ms_is_from_me src))
               (if ms_is_group src then Some (jid_to_string (ms_sender src)) else None) in
  msg_reaction (mkReactionMsg (Some key) (Some paddle) (Some now_ms)).

Definition text_pong (duration_str participant_jid : str) (message : Message) (info : MessageInfo) : Message :=
  let context_info := mkQuoteInfo (Some (mi_id info)) (Some participant_jid) (Some message) in
  msg_extended (mkExtendedText (Some (paddle ++ lit " Pong!" ++ [10; 96] ++ duration_str ++ [96])) (Some context_info)).

(** ** [parse_arg] *)

Fixpoint parse_arg_in (long short : str) (args : list str) : option str :=
  match args with
  | [] => None
  | arg :: args =>
      if (arg =s long) || (arg =s short) then head args
      else match strip_prefix (long ++ lit "=") arg with
           | Some value => Some value
           | None => parse_arg_in long short args
           end
  end.
Definition parse_arg (args : list str) (long short : str) : option str := parse_arg_in long short (drop 1 args).

(** ** The description of a message *)

Definition put (k : string) (v : option Value) (o : JMap) : JMap := match v with Some v => obj_insert (lit k) v o | None => o end.
Definition number (n : Z) : Value := V_Number (N_int n).

(** What is read of a message with a file: its type, the fields after the
    media type, and the file itself. *)
Record FileEntry := mkFileEntry { fe_type : string; fe_file : FilePart; fe_more : list (string * option Value); fe_download : Downloadable }.

Definition file_entry (m : Message) : option FileEntry :=
  match m_image_message m, m_video_message m, m_audio_message m, m_document_message m, m_sticker_message m with
  | Some i, _, _, _, _ =>
      Some (mkFileEntry "image" (im_file i) [("text", V_String <$> im_caption i); ("fileLength", number <$> fp_file_length (im_file i))]%string
              (file_downloadable ImageMessage (im_file i)))
  | None, Some v, _, _, _ =>
      Some (mkFileEntry "video" (vm_file v) [("text", V_String <$> vm_caption v); ("fileLength", number <$> fp_file_length (vm_file v))]%string
              (file_downloadable VideoMessage (vm_file v)))
  | None, None, Some a, _, _ =>
      Some (mkFileEntry "voice" (am_file a) [("fileLength", number <$> fp_file_length (am_file a)); ("ptt", V_Bool <$> am_ptt a)]%string
              (file_downloadable AudioMessage (am_file a)))
  | None, None, None, Some d, _ =>
      Some (mkFileEntry "file" (dm_file d)
              [("text", V_String <$> dm_caption d); ("filename", V_String <$> dm_file_name d); ("fileLength", number <$> fp_file_length (dm_file d))]%string
              (file_downloadable DocumentMessage (dm_file d)))
  | None, None, None, None, Some s =>
      Some (mkFileEntry "sticker" (sm_file s) [("fileLength", number <$> fp_file_length (sm_file s)); ("isAnimated", V_Bool <$> sm_is_animated s)]%string
              (file_downloadable StickerMessage (sm_file s)))
  | None, None, None, None, None => None
  end.

Section Events.
Context `{HK : !Hkdf, HS : !Hashes, HA : !AesCbc, HAB : !AesBlock, HB : !Base64, HT : !RowText}.
Context (b64_url_no_pad : bytes -> str).
Context (send_iq : InfoQuery -> outcome ClientIqError Node) (show_iq_error : ClientIqError -> str).
Context (http : HttpRequest -> outcome str HttpResponse) (raw_from_json : bytes -> outcome str (str * str)) (now : u64).
Context (show_utf8_error : bytes -> str).
(** The clock and the verdicts of the data base, and the environment, as in
    [Webhooks]. *)
Context (clock : nat -> Time) (fails : nat -> bool) (var : str -> option str).

(** A download returns while the HTTP client does; a failed one leaves the file
    out. *)
Definition media_download (d : Downloadable) : comp (option MediaConn) str bytes :=
  download b64_url_no_pad send_iq show_iq_error http now d.

Definition default_mime (mimetype : option str) : str := default (lit "application/octet-stream") mimetype.

Definition message_payload (base64_enabled : bool) (text : str) (m : Message) (c : option MediaConn) : Value * option MediaConn :=
  match file_entry m with
  | Some e =>
      let message := obj_insert (lit "messageType") (V_String (lit (fe_type e))) [] in
      let message := put "url" (V_String <$> fp_url (fe_file e)) message in
      let message := put "mimetype" (V_String <$> fp_mimetype (fe_file e)) message in
      let message := fold_left (fun o kv => put kv.1 kv.2 o) (fe_more e) message in
      if base64_enabled then
        match media_download (fe_download e) c with
        | (Ok b, c) => (V_Object (obj_insert (lit "base64") (V_String (data_url (default_mime (fp_mimetype (fe_file e))) b)) message), c)
        | (_, c) => (V_Object message, c)
        end
      else (V_Object message, c)
  | None => (json_obj [("messageType", V_String (lit "conversation")); ("text", V_String text)]%string, c)
  end.

Definition key_item (info : MessageInfo) (md : IncomingMessageMetadata) : JMap :=
  let key := obj_insert (lit "remoteJid") (V_String (md_remote_jid md)) [] in
  let key := obj_insert (lit "fromMe") (V_Bool (md_is_from_me md)) key in
  let key := obj_insert (lit "MessageId") (V_String (mi_id info)) key in
  let key := obj_insert (lit "participant") (if md_is_from_me md then V_Null else V_String (md_sender_jid md)) key in
  if str_is_empty (mi_push_name info) then key else obj_insert (lit "senderName") (V_String (mi_push_name info)) key.

Definition message_item (info : MessageInfo) (md : IncomingMessageMetadata) (payload : Value) : Value :=
  V_Object (obj_insert (lit "message") payload (obj_insert (lit "key") (V_Object (key_item info md)) [])).

Definition upsert_data (item : Value) : Value :=
  json_obj [("messages", V_Array [item]); ("type", V_String (lit "notify"))]%string.

(** The background task: whether files are wanted, the description, the event. *)
Definition wants_base64 (cfg : outcome unit (option WebhookConfig)) : bool :=
  match cfg with
  | Ok (Some cfg) =>
      if wc_enabled cfg && wc_base64 cfg then true
      else env_flag var "WEBHOOK_GLOBAL_ENABLED" && env_flag var "WEBHOOK_GLOBAL_WEBHOOK_BASE64"
  | _ => env_flag var "WEBHOOK_GLOBAL_ENABLED" && env_flag var "WEBHOOK_GLOBAL_WEBHOOK_BASE64"
  end.

Definition enqueue_now (id : Uuid) (session event : str) (data : Value) (s : WState) : WState :=
  set_db (enqueue id (Some session) event data (clock (ws_tick s)) (ws_db s)) (next_tick s).

Definition announce_message (id : Uuid) (session : str) (m : Message) (info : MessageInfo) (sc : WState * option MediaConn) : WState * option MediaConn :=
  let '(s, c) := sc in
  let md := metadata_from_message m info in
  let '(cfg, s) := load_instance_webhook clock fails session s in
  let '(payload, c) := message_payload (wants_base64 cfg) (md_text_content md) m c in
  (enqueue_now id session (lit "MESSAGES_UPSERT") (upsert_data (message_item info md payload)) s, c).

(** ** [handle_media_ping]: the messages it sends to the chat *)

Definition handle_media_ping (media_key : bytes) (p : MediaPing) : option MediaConn -> list Message * option MediaConn :=
  fun c =>
    match download_to_file b64_url_no_pad send_iq show_iq_error http now (ping_downloadable p) [] c with
    | (Ok data, c) =>
        match upload b64_url_no_pad send_iq show_iq_error http raw_from_json now show_utf8_error media_key data (ping_media_type p) c with
        | (Ok up, c) => ([build_pong_reply p up], c)
        | (_, c) => ([msg_conversation (lit "Failed to re-upload the media.")], c)
        end
    | (_, c) => ([msg_conversation (lit "Failed to download your media.")], c)
    end.

(** ** The handler *)

(** What a handler writes of its instance, each under a lock of its own. *)
Record InstanceState := mkInstance { in_qr_code : option str; in_qr_count : u32; in_connection_state : str }.
Definition instance_new : InstanceState := mkInstance None 0 (lit "disconnected").

Inductive BotEvent :=
| Ev_pairing_qr_code (code : str) (timeout : u64)
| Ev_pairing_code (code : str)
| Ev_message (m : Message) (info : MessageInfo)
| Ev_connected
| Ev_receipt
| Ev_chat_presence (source : MessageSource) (state : ChatPresence) (media : ChatPresenceMedia)
| Ev_logged_out
| Ev_other.

Inductive InstanceWrite := Set_qr (code : option str) | Set_state (state : string) | Count_qr.
Definition apply_write (i : InstanceState) (w : InstanceWrite) : InstanceState :=
  match w with
  | Set_qr code => mkInstance code (in_qr_count i) (in_connection_state i)
  | Set_state state => mkInstance (in_qr_code i) (in_qr_count i) (lit state)
  | Count_qr => mkInstance (in_qr_code i) (wrap 32 (in_qr_count i + 1)) (in_connection_state i)
  end.
Definition instance_writes (e : BotEvent) : list InstanceWrite :=
  match e with
  | Ev_pairing_qr_code code _ => [Set_qr (Some code); Set_state "qr_pending"; Count_qr]
  | Ev_connected => [Set_qr None; Set_state "connected"]
  | Ev_logged_out => [Set_state "disconnected"]
  | _ => []
  end.
Definition run_writes (ws : list InstanceWrite) (i : InstanceState) : InstanceState := fold_left apply_write ws i.

(** What the handler starts or sends: the two tasks for a message, the sessions
    warmed after a login, messages sent in place or by a task. *)
Inductive Action :=
| A_warm_sender (jid : Jid)
| A_announce (m : Message) (info : MessageInfo)
| A_send (chat : Jid) (m : Message)
| A_send_task (chat : Jid) (m : Message)
| A_warm_sessions.

Record BotState := mkBotState {
  bs_instances : gmap str InstanceState; bs_hooks : WState; bs_api_events : list (str * str * Value); bs_conn : option MediaConn; bs_actions : list Action
}.

Definition on_instance (name : str) (f : InstanceState -> InstanceState) (b : BotState) : BotState :=
  mkBotState (alter f name (bs_instances b)) (bs_hooks b) (bs_api_events b) (bs_conn b) (bs_actions b).
Definition on_hooks (f : WState -> WState) (b : BotState) : BotState :=
  mkBotState (bs_instances b) (f (bs_hooks b)) (bs_api_events b) (bs_conn b) (bs_actions b).
Definition act (a : list Action) (b : BotState) : BotState :=
  mkBotState (bs_instances b) (bs_hooks b) (bs_api_events b) (bs_conn b) (bs_actions b ++ a).

(** What one event draws: the identifier of the row, the time, a key, how long
    answering took, the account's own number. *)
Record Drawn := mkDrawn { dw_id : Uuid; dw_now_ms : i64; dw_media_key : bytes; dw_duration : str; dw_pn : option Jid }.

Definition on_media_ping (dr : Drawn) (m : Message) (chat : Jid) (b : BotState) : BotState :=
  match get_pingable_media m with
  | Some p =>
      let '(ms, c) := handle_media_ping (dw_media_key dr) p (bs_conn b) in
      act (map (A_send chat) ms) (mkBotState (bs_instances b) (bs_hooks b) (bs_api_events b) c (bs_actions b))
  | None => b
  end.

Definition on_text_ping (dr : Drawn) (m : Message) (info : MessageInfo) (b : BotState) : BotState :=
  if says_ping (text_content m) then
    let participant_jid := if ms_is_from_me (mi_source info) then jid_to_string (default default_jid (dw_pn dr)) else jid_to_string (ms_sender (mi_source info)) in
    act [A_send_task (ms_chat (mi_source info)) (ping_reaction (dw_now_ms dr) info);
         A_send (ms_chat (mi_source info)) (text_pong (dw_duration dr) participant_jid m info)] b
  else b.

Definition on_message (dr : Drawn) (m : Message) (info : MessageInfo) (b : BotState) : BotState :=
  let src := mi_source info in
  let b := if negb (ms_is_from_me src) && negb (ms_is_group src) then act [A_warm_sender (to_non_ad (ms_sender src))] b else b in
  let b := act [A_announce m info] b in
  on_text_ping dr m info (on_media_ping dr m (ms_chat src) b).

Definition presence_payload (dr : Drawn) (source : MessageSource) (state : ChatPresence) (media : ChatPresenceMedia) : Value :=
  json_obj [("chatId", V_String (jid_to_string (ms_chat source))); ("sender", V_String (jid_to_string (ms_sender source)));
            ("state", V_String (lit (match state with Composing => "composing" | Paused => "paused" end)));
            ("media", V_String (lit (match media with Handlers.Audio => "audio" | Handlers.Text => "" end)));
            ("isGroup", V_Bool (ms_is_group source)); ("timestamp", number (dw_now_ms dr))]%string.

(** [INSERT INTO api_events], whose failure is ignored *)
Definition insert_api_event (session event : str) (payload : Value) (b : BotState) : BotState :=
  let t := ws_tick (bs_hooks b) in
  let b := on_hooks next_tick b in
  if fails t || negb (session_exists session (ws_db (bs_hooks b))) then b
  else mkBotState (bs_instances b)
         (set_db (mkDb (db_sessions (ws_db (bs_hooks b))) (db_outbox (ws_db (bs_hooks b))) (db_messages (ws_db (bs_hooks b)))
                    (db_presence (ws_db (bs_hooks b))) (session :: db_referenced (ws_db (bs_hooks b)))) (bs_hooks b))
         (bs_api_events b ++ [(session, event, payload)]) (bs_conn b) (bs_actions b).

Definition on_event (name : str) (dr : Drawn) (e : BotEvent) (b : BotState) : BotState :=
  match e with
  | Ev_pairing_qr_code code timeout =>
      let b := on_instance name (run_writes (instance_writes e)) b in
      on_hooks (enqueue_now (dw_id dr) name (lit "QRCODE_UPDATED") (json_obj [("qrcode", V_String code); ("timeout", number timeout)]%string)) b
  | Ev_message m info => on_message dr m info b
  | Ev_connected =>
      let b := on_instance name (run_writes (instance_writes e)) b in
      let b := on_hooks (enqueue_now (dw_id dr) name (lit "CONNECTION_UPDATE")
                           (json_obj [("action", V_String (lit "update")); ("state", V_String (lit "open"))]%string)) b in
      act [A_warm_sessions] b
  | Ev_chat_presence source state media =>
      let payload := presence_payload dr source state media in
      insert_api_event name (lit "CHAT_PRESENCE") payload (on_hooks (enqueue_now (dw_id dr) name (lit "CHAT_PRESENCE") payload) b)
  | Ev_logged_out =>
      let b := on_instance name (run_writes (instance_writes e)) b in
      on_hooks (enqueue_now (dw_id dr) name (lit "CONNECTION_UPDATE")
                  (json_obj [("action", V_String (lit "update")); ("state", V_String (lit "close")); ("reason", V_String (lit "loggedOut"))]%string)) b
  | Ev_pairing_code _ | Ev_receipt | Ev_other => b
  end.

(** Events one after the other.  [BotEventHandler::handle_event] gives each a task
    of its own, so that the writes of two may also mix ([interleaving]). *)
Definition on_events (name : str) (es : list (Drawn * BotEvent)) (b : BotState) : BotState :=
  fold_left (fun b de => on_event name de.1 de.2 b) es b.
End Events.

Inductive interleaving {A} : list (list A) -> list A -> Prop :=
| il_done ls : Forall (fun l => l = []) ls -> interleaving ls []
| il_step ls1 x l ls2 r : interleaving (ls1 ++ l :: ls2) r -> interleaving (ls1 ++ (x :: l) :: ls2) (x :: r).

(** ** Wrappers *)

Definition rank (w : Wrapper) : nat :=
  match w with
  | W_device_sent => 0 | W_ephemeral => 1 | W_view_once => 2 | W_view_once_v2 => 3 | W_document_with_caption => 4 | W_edited => 5
  end.
Definition all_wrappers : list Wrapper := [W_device_sent; W_ephemeral; W_view_once; W_view_once_v2; W_document_with_caption; W_edited].

(** A message that is nothing but a wrapper of another. *)
Definition wrap_in (w : Wrapper) (m : Message) : Message :=
  let at_ w' := if (rank w =? rank w')%nat then Some (Some m) else None in
  mkMessage None None None None None None None None (at_ W_device_sent) (at_ W_ephemeral) (at_ W_view_once) (at_ W_view_once_v2)
    (at_ W_document_with_caption) (at_ W_edited).
Definition wrap_all (ws : list Wrapper) (m : Message) : Message := foldr wrap_in m ws.

(** A message without wrapped ones. *)
Definition core (m : Message) : Prop := forall w, unwrap m w = m.

(** The wrappers that are left: those after the ones in increasing order from
    the [k]-th on. *)
Fixpoint stripped (k : nat) (ws : list Wrapper) : list Wrapper :=
  match ws with
  | [] => []
  | w :: ws' => if (k <=? rank w)%nat then stripped (S (rank w)) ws' else ws
  end.

Lemma unwrap_wrap w w' m : unwrap (wrap_in w m) w' = if (rank w =? rank w')%nat then m else wrap_in w m.
Proof. by destruct w, w'. Qed.

Lemma base_from k ws m : core m -> (k <= 6)%nat -> fold_left unwrap (drop k all_wrappers) (wrap_all ws m) = wrap_all (stripped k ws) m.
Proof.
  intros Hc. remember (6 - k)%nat as n eqn:En. revert k ws En. induction n as [|n IH]; intros k ws En Hk.
  - assert (k = 6%nat) as -> by lia. destruct ws as [|w ws]; [done|]. cbn [stripped]. by destruct w.
  - assert (exists w, drop k all_wrappers = w :: drop (S k) all_wrappers /\ rank w = k) as (w & -> & Hw).
    { destruct k as [|[|[|[|[|[|k]]]]]]; [..|lia]; eexists; (split; [reflexivity|done]). }
    cbn [fold_left]. destruct ws as [|w0 ws]; cbn [wrap_all foldr stripped].
    + rewrite Hc. apply (IH (S k) []); lia.
    + rewrite unwrap_wrap, Hw. destruct (Nat.eqb_spec (rank w0) k) as [->|N].
      * rewrite Nat.leb_refl. apply IH; lia.
      * change (wrap_in w0 (foldr wrap_in m ws)) with (wrap_all (w0 :: ws) m). rewrite IH by lia. cbn [stripped].
        destruct (Nat.leb_spec k (rank w0)), (Nat.leb_spec (S k) (rank w0)); try lia; done.
Qed.

Lemma stripped_sorted k ws : stripped k ws = [] <-> StronglySorted (fun w w' => rank w < rank w')%nat ws /\ Forall (fun w => k <= rank w)%nat ws.
Proof.
  revert k. induction ws as [|w ws IH]; intros k; cbn [stripped]; [split; [repeat constructor|done]|]. destruct (Nat.leb_spec k (rank w)) as [Hk|Hk].
  - rewrite IH. split.
    + intros [H1 H2]. split; constructor; try done. eapply Forall_impl; [done|]. cbn. lia.
    + intros [H1 H2]. inversion_clear H1 as [|? ? H3 H4]. split; [done|]. eapply Forall_impl; [done|]. cbn. lia.
  - split; [done|]. intros [_ H]. inversion_clear H. lia.
Qed.

(** Wrapped in [ws], outermost first, a message is unwrapped as far as the
    wrappers come in the order in which they are looked for; it is reached
    exactly if all of them do, each at most once. *)
Theorem base_message_exact ws m : core m ->
  get_base_message (wrap_all ws m) = wrap_all (stripped 0 ws) m
  /\ (stripped 0 ws = [] <-> StronglySorted (fun w w' => rank w < rank w')%nat ws).
Proof.
  intros Hc. split; [exact (base_from 0 ws m Hc ltac:(lia))|]. rewrite stripped_sorted. split; [by intros [? _]|].
  intros H. split; [done|]. apply Forall_forall. intros. lia.
Qed.

Lemma base_message_exact_witness :
  get_base_message (wrap_all [W_ephemeral; W_view_once] (msg_conversation (lit "a"))) = msg_conversation (lit "a")
  /\ get_base_message (wrap_all [W_edited; W_ephemeral] (msg_conversation (lit "a"))) = wrap_all [W_ephemeral] (msg_conversation (lit "a")).
Proof.
  assert (core (msg_conversation (lit "a"))) as Hc by by intros [].
  split; [rewrite (proj1 (base_message_exact [W_ephemeral; W_view_once] _ Hc))|rewrite (proj1 (base_message_exact [W_edited; W_ephemeral] _ Hc))]; reflexivity.
Defined.

(** ** The command line *)

Definition is_flag (long short arg : str) : Prop := arg = long \/ arg = short \/ is_Some (strip_prefix (long ++ lit "=") arg).

Lemma parse_arg_skip long short pre rest : Forall (fun a => ~ is_flag long short a) pre ->
  parse_arg_in long short (pre ++ rest) = parse_arg_in long short rest.
Proof.
  induction 1 as [|a pre Ha Hp IH]; [done|]. cbn [app parse_arg_in]. unfold is_flag in Ha.
  destruct (bytes_eqb_spec a long), (bytes_eqb_spec a short); cbn [orb]; try naive_solver.
  destruct (strip_prefix _ a); [naive_solver|done].
Qed.

(** The value of a flag: of its first occurrence after the program's name, in any
    of the three forms; a flag at the end has none. *)
Theorem parse_arg_forms long short prog pre v rest : Forall (fun a => ~ is_flag long short a) pre -> (length short <= length long)%nat ->
  parse_arg (prog :: pre ++ long :: v :: rest) long short = Some v
  /\ parse_arg (prog :: pre ++ short :: v :: rest) long short = Some v
  /\ parse_arg (prog :: pre ++ (long ++ lit "=" ++ v) :: rest) long short = Some v
  /\ parse_arg (prog :: pre ++ [long]) long short = None
  /\ parse_arg (prog :: pre) long short = None.
Proof.
  intros Hp Hl. unfold parse_arg. cbn [drop skipn]. rewrite !drop_0, !parse_arg_skip by done. cbn [parse_arg_in].
  rewrite !bytes_eqb_refl, orb_true_r. cbn [orb head]. split_and!; try done.
  - rewrite (proj2 (bytes_eqb_neq _ long)), (proj2 (bytes_eqb_neq _ short)); [|intros E..]; cbn [orb].
    + by rewrite app_assoc, strip_prefix_app.
    + apply (f_equal length) in E. rewrite !length_app in E. cbn in E. lia.
    + apply (f_equal length) in E. rewrite !length_app in E. cbn in E. lia.
  - pose proof (parse_arg_skip long short pre [] Hp) as H. by rewrite app_nil_r in H.
Qed.

Lemma parse_arg_forms_witness : parse_arg (map lit ["warp"; "x"; "-p"; "15551234567"; "y"]%string) (lit "--phone") (lit "-p") = Some (lit "15551234567").
Proof.
  apply (parse_arg_forms (lit "--phone") (lit "-p") (lit "warp") [lit "x"] (lit "15551234567") [lit "y"]); [|vm_compute; lia].
  constructor; [|done]. intros [H|[H|[v H]]]; vm_compute in H; done.
Defined.

(** ** Fields of objects *)

Lemma put_get k k' v o : obj_get (lit k) (put k' v o) = if String.eqb k k' then or_else v (obj_get (lit k) o) else obj_get (lit k) o.
Proof. destruct v as [v|]; cbn [put or_else]; [|by case_match]. rewrite obj_get_insert, lit_eqb. done. Qed.

Fixpoint last_put (k : string) (l : list (string * option Value)) : option Value :=
  match l with
  | [] => None
  | (k', v) :: l => or_else (last_put k l) (if String.eqb k k' then v else None)
  end.

Lemma puts_get k l o : obj_get (lit k) (fold_left (fun o kv => put kv.1 kv.2 o) l o) = or_else (last_put k l) (obj_get (lit k) o).
Proof.
  revert o. induction l as [|[k' v] l IH]; intros o; [done|]. cbn [fold_left last_put fst snd]. rewrite IH, put_get.
  destruct (last_put k l); [done|]. cbn [or_else]. by destruct (String.eqb k k').
Qed.

(** What the event says of a message with a file, apart from its bytes. *)
Definition announced_field (e : FileEntry) (k : string) : option Value :=
  last_put k (("messageType", Some (V_String (lit (fe_type e)))) :: ("url", V_String <$> fp_url (fe_file e))
              :: ("mimetype", V_String <$> fp_mimetype (fe_file e)) :: fe_more e)%string.

Lemma more_no_base64 m e : file_entry m = Some e -> last_put "base64" (fe_more e) = None.
Proof. unfold file_entry. intros H. repeat case_match; simplify_eq; done. Qed.

Section Announcing.
Context `{HK : !Hkdf, HS : !Hashes, HA : !AesCbc, HAB : !AesBlock, HB : !Base64, HT : !RowText}.
Context (b64_url_no_pad : bytes -> str).
Context (send_iq : InfoQuery -> outcome ClientIqError Node) (show_iq_error : ClientIqError -> str).
Context (http : HttpRequest -> outcome str HttpResponse) (raw_from_json : bytes -> outcome str (str * str)) (now : u64).
Context (show_utf8_error : bytes -> str).
Context (clock : nat -> Time) (fails : nat -> bool) (var : str -> option str).
Let payload_of := message_payload b64_url_no_pad send_iq show_iq_error http now.
Let fetch := media_download b64_url_no_pad send_iq show_iq_error http now.
Let announce := announce_message b64_url_no_pad send_iq show_iq_error http now clock fails var.

(** The file of a message as a data URL. *)
Definition file_url (e : FileEntry) (c : option MediaConn) : option Value :=
  match (fetch (fe_download e) c).1 with Ok b => Some (V_String (data_url (default_mime (fp_mimetype (fe_file e))) b)) | _ => None end.

(** The field [k] of the description of [m]; [b]: with its file *)
Definition entry_field (b : bool) (m : Message) (c : option MediaConn) (k : string) : option Value :=
  match file_entry m with
  | None => assoc_get k [("messageType", V_String (lit "conversation")); ("text", V_String (default [] (text_content m)))]%string
  | Some e => if String.eqb k "base64" then (if b then file_url e c else None) else announced_field e k
  end.

Lemma payload_get b m c k : v_get k (payload_of b (default [] (text_content m)) m c).1 = entry_field b m c k.
Proof.
  unfold payload_of, message_payload, entry_field, file_url. destruct (file_entry m) as [e|] eqn:E; [|cbn [fst]; by json_lookup].
  set (o := fold_left _ _ _).
  assert (forall k, obj_get (lit k) o = if String.eqb k "base64" then None else announced_field e k) as Ho.
  { intros k'. unfold o, announced_field. rewrite puts_get, !put_get, obj_get_insert, lit_eqb. cbn [last_put obj_get].
    destruct (String.eqb_spec k' "base64") as [->|]; [by rewrite (more_no_base64 m)|].
    destruct (last_put k' (fe_more e)); cbn [or_else]; [done|].
    destruct (String.eqb_spec k' "mimetype") as [->|]; [by destruct (fp_mimetype (fe_file e))|].
    destruct (String.eqb_spec k' "url") as [->|]; [by destruct (fp_url (fe_file e))|]. by destruct (String.eqb k' "messageType"). }
  destruct b; [|cbn [fst]; rewrite v_get_object; apply Ho]. unfold fetch. destruct (media_download _ _ _ _ _ _ _) as [[b| | |] c']; cbn [fst];
    rewrite v_get_object, ?obj_get_insert, ?lit_eqb, Ho; by destruct (String.eqb k "base64").
Qed.

Lemma payload_object b t m c : exists o, (payload_of b t m c).1 = V_Object o.
Proof.
  unfold payload_of, message_payload. destruct (file_entry m) as [e|]; [|cbn; eauto]. destruct b; [|cbn; eauto].
  destruct (media_download _ _ _ _ _ _ _) as [[]]; cbn; eauto.
Qed.

Lemma load_keeps_db session s : ws_db (load_instance_webhook clock fails session s).2 = ws_db s.
Proof. unfold load_instance_webhook. cbn. repeat case_match; done. Qed.

Lemma key_item_get info md k : v_get k (V_Object (key_item info md))
  = if String.eqb k "senderName" then (if str_is_empty (mi_push_name info) then None else Some (V_String (mi_push_name info)))
    else assoc_get k [("remoteJid", V_String (md_remote_jid md)); ("fromMe", V_Bool (md_is_from_me md)); ("MessageId", V_String (mi_id info));
                      ("participant", if md_is_from_me md then V_Null else V_String (md_sender_jid md))]%string.
Proof.
  unfold key_item. rewrite v_get_object. destruct (str_is_empty (mi_push_name info)); rewrite !obj_get_insert, !lit_eqb; cbn [assoc_get obj_get].
  all: destruct (String.eqb_spec k "senderName") as [->|]; [done|]; destruct (String.eqb_spec k "participant") as [->|]; [done|];
    destruct (String.eqb_spec k "MessageId") as [->|]; [done|]; destruct (String.eqb_spec k "fromMe") as [->|]; done.
Qed.

Lemma message_item_get info md payload k : v_get k (message_item info md payload)
  = if String.eqb k "message" then Some payload else if String.eqb k "key" then Some (V_Object (key_item info md)) else None.
Proof. unfold message_item. by rewrite v_get_object, !obj_get_insert, !lit_eqb. Qed.

(** The entry as a receiver is sent it. *)
Definition entry_sent (files : bool) (item : Value) : Value := if files then item else strip_entry item.

Lemma entry_key files info md payload k : get_path ["key"; k]%string (entry_sent files (message_item info md payload)) = v_get k (V_Object (key_item info md)).
Proof.
  unfold get_path, entry_sent. cbn [fold_left mbind option_bind]. destruct files; rewrite ?strip_entry_get; cbn [String.eqb Ascii.eqb Bool.eqb];
    by rewrite message_item_get.
Qed.

Lemma entry_message files info md payload k : get_path ["message"; k]%string (entry_sent files (message_item info md payload))
  = if String.eqb k "base64" && negb files then None else v_get k payload.
Proof.
  unfold get_path, entry_sent. cbn [fold_left mbind option_bind]. destruct files; rewrite ?strip_entry_get; cbn [String.eqb Ascii.eqb Bool.eqb];
    rewrite message_item_get; cbn [String.eqb Ascii.eqb Bool.eqb fmap option_fmap option_map mbind option_bind negb].
  - by rewrite andb_false_r.
  - by rewrite andb_true_r, drop_base64_get.
Qed.

Lemma entry_field_without m c b k : (if String.eqb k "base64" then None else entry_field b m c k) = entry_field false m c k.
Proof. unfold entry_field. destruct (String.eqb_spec k "base64") as [->|]; by destruct (file_entry m). Qed.

Lemma messages_sent date_time server_url session destination files item :
  get_path ["data"; "messages"]%string
    (enrich_payload date_time server_url (event_payload (Some session) (lit "MESSAGES_UPSERT") (upsert_data item)) destination files)
  = Some (V_Array [entry_sent files item]).
Proof.
  unfold get_path. cbn [fold_left mbind option_bind]. rewrite enrich_get. unfold event_payload. cbn [String.eqb Ascii.eqb Bool.eqb andb negb].
  destruct files; cbn [negb]; json_lookup; cbn [fmap option_fmap option_map mbind option_bind].
  - unfold upsert_data. by json_lookup.
  - rewrite strip_data_get. cbn [String.eqb Ascii.eqb Bool.eqb]. unfold upsert_data. json_lookup. done.
Qed.

(** The event of a received message, and what a receiver is sent of it: one entry,
    with the chat, the sender, the identifier and the fields of the message; the
    file only if the receiver wants files and it was fetched. *)
Theorem received_message_announced id session m info s c :
  session_exists session (ws_db s) = true -> db_outbox (ws_db s) !! id = None ->
  let b := wants_base64 var (load_instance_webhook clock fails session s).1 in
  exists r, db_outbox (ws_db (announce id session m info (s, c)).1) = <[id := r]> (db_outbox (ws_db s))
    /\ ob_session r = Some session /\ ob_event r = lit "MESSAGES_UPSERT" /\ ob_status r = lit "pending" /\ ob_attempts r = 0
    /\ forall date_time server_url destination files, exists entry,
         get_path ["data"; "messages"]%string (enrich_payload date_time server_url (ob_payload r) destination files) = Some (V_Array [entry])
         /\ get_path ["key"; "remoteJid"]%string entry = Some (V_String (jid_to_string (ms_chat (mi_source info))))
         /\ get_path ["key"; "fromMe"]%string entry = Some (V_Bool (ms_is_from_me (mi_source info)))
         /\ get_path ["key"; "MessageId"]%string entry = Some (V_String (mi_id info))
         /\ get_path ["key"; "participant"]%string entry
            = Some (if ms_is_from_me (mi_source info) then V_Null else V_String (jid_to_string (ms_sender (mi_source info))))
         /\ forall k, get_path ["message"; k] entry = entry_field (b && files) m c k.
Proof.
  intros Hs Hid b. unfold announce, announce_message. pose proof (load_keeps_db session s) as Hdb. subst b.
  destruct (load_instance_webhook clock fails session s) as [cfg s1]. cbn [fst snd] in *.
  set (b := wants_base64 var cfg). set (md := metadata_from_message m info).
  pose proof (payload_get b m c) as Hp. pose proof (payload_object b (md_text_content md) m c) as [o Ho]. unfold payload_of in *.
  change (default [] (text_content m)) with (md_text_content md) in Hp.
  destruct (message_payload _ _ _ _ _ _ _ _ _) as [payload c1]. cbn [fst] in *. subst payload.
  unfold enqueue_now, enqueue, insert_event. cbn [ws_db set_db]. rewrite Hdb, Hid. cbn [default fmap option_fmap option_map from_option]. rewrite Hs. cbn [negb].
  rewrite bool_decide_eq_false_2 by (by intros [? ?]). cbn [orb default from_option db_outbox with_outbox].
  eexists. split; [reflexivity|]. cbn [ob_session ob_event ob_status ob_attempts ob_payload]. split_and!; try done.
  intros date_time server_url destination files.
  exists (entry_sent files (message_item info md (V_Object o))). rewrite messages_sent, !entry_key, !key_item_get. split_and!; try done.
  intros k. rewrite entry_message, Hp. destruct files; cbn [negb]; rewrite ?andb_true_r, ?andb_false_r; [done|apply entry_field_without].
Qed.

Lemma wrapped_no_file ws m : ws <> [] -> file_entry (wrap_all ws m) = None.
Proof. destruct ws as [|w ws]; [done|]. by destruct w. Qed.

(** A file that comes wrapped, as every file of a chat with disappearing messages
    does, is announced as a text, and the text is empty. *)
Theorem wrapped_file_hidden ws m e b c : ws <> [] -> core m -> stripped 0 ws = [] -> file_entry m = Some e -> text_content m = None ->
  v_get "messageType" (payload_of b (default [] (text_content m)) m c).1 = Some (V_String (lit (fe_type e)))
  /\ forall k, v_get k (payload_of b (default [] (text_content (wrap_all ws m))) (wrap_all ws m) c).1
               = assoc_get k [("messageType", V_String (lit "conversation")); ("text", V_String [])]%string.
Proof.
  intros Hw Hc Hs He Ht. split.
  { rewrite payload_get. unfold entry_field, announced_field. rewrite He. cbn. revert He. unfold file_entry. intros H. repeat case_match; simplify_eq; done. }
  intros k. rewrite payload_get. unfold entry_field. rewrite wrapped_no_file by done. unfold text_content in *.
  rewrite (base_from 0 ws m Hc ltac:(lia) : get_base_message (wrap_all ws m) = _), Hs. cbn [wrap_all foldr].
  assert (get_base_message m = m) as E by (exact (base_from 0 [] m Hc ltac:(lia))). rewrite E in Ht. by rewrite Ht.
Qed.
End Announcing.

(** ** Answers to pings *)

Definition no_ping (m : Message) : Prop := get_pingable_media m = None /\ says_ping (text_content m) = false.

(** A message an action sends is no ping. *)
Definition sends_no_ping (a : Action) : Prop := match a with A_send _ m | A_send_task _ m => no_ping m | _ => True end.

Section Handling.
Context `{HK : !Hkdf, HS : !Hashes, HA : !AesCbc, HAB : !AesBlock, HB : !Base64, HT : !RowText}.
Context (b64_url_no_pad : bytes -> str).
Context (send_iq : InfoQuery -> outcome ClientIqError Node) (show_iq_error : ClientIqError -> str).
Context (http : HttpRequest -> outcome str HttpResponse) (raw_from_json : bytes -> outcome str (str * str)) (now : u64).
Context (show_utf8_error : bytes -> str).
Context (clock : nat -> Time) (fails : nat -> bool) (var : str -> option str).
Let message_handler := on_message b64_url_no_pad send_iq show_iq_error http raw_from_json now show_utf8_error.
Let handler := on_event b64_url_no_pad send_iq show_iq_error http raw_from_json now show_utf8_error clock fails.
Let handlers := on_events b64_url_no_pad send_iq show_iq_error http raw_from_json now show_utf8_error clock fails.
Let announce := announce_message b64_url_no_pad send_iq show_iq_error http now clock fails var.

Lemma ping_answer key p c : exists m' c', handle_media_ping b64_url_no_pad send_iq show_iq_error http raw_from_json now show_utf8_error key p c = ([m'], c')
  /\ no_ping m'.
Proof.
  unfold handle_media_ping. destruct (download_to_file _ _ _ _ _ _ _ _) as [[d| | |] c1]; try by (eexists _, _; split; [reflexivity|]).
  destruct (upload _ _ _ _ _ _ _ _ _ _ _) as [[up| | |] c2]; eexists _, _; (split; [reflexivity|]); try done. by destruct p.
Qed.

(** Whatever is received, the answers are no pings, so that two servers do not
    answer each other for ever; the answers go to the chat of the message, and
    there are three at most. *)
Theorem pongs_end dr m info b : exists l, bs_actions (message_handler dr m info b) = bs_actions b ++ l
  /\ Forall sends_no_ping l
  /\ Forall (fun a => match a with A_send chat _ | A_send_task chat _ => chat = ms_chat (mi_source info) | _ => True end) l
  /\ (length (List.filter (fun a => match a with A_send _ _ | A_send_task _ _ => true | _ => false end) l) <= 3)%nat.
Proof.
  unfold message_handler, on_message, on_media_ping, on_text_ping.
  assert (forall d p mm, no_ping (text_pong d p mm info)) as H1 by done.
  assert (no_ping (ping_reaction (dw_now_ms dr) info)) as H2 by done.
  destruct (get_pingable_media m) as [p|].
  - match goal with |- context [handle_media_ping _ _ _ _ _ _ _ ?k p ?c] => destruct (ping_answer k p c) as (m' & c' & -> & H3) end.
    destruct (negb _ && negb _), (says_ping _); cbn [act bs_actions map]; rewrite <- ?app_assoc; cbn [app]; (eexists; split; [done || (symmetry; apply app_nil_r)|]);
      rewrite !Forall_cons, Forall_nil; (split_and!; try done; cbn; try lia; auto).
  - destruct (negb _ && negb _), (says_ping _); cbn [act bs_actions map]; rewrite <- ?app_assoc; cbn [app]; (eexists; split; [done || (symmetry; apply app_nil_r)|]);
      rewrite !Forall_cons, Forall_nil; (split_and!; try done; cbn; try lia; auto).
Qed.

(** ** The state of the instance *)

(** One after the other, the handlers keep an instance that is shown as connected
    without a code. *)
Definition shown (i : InstanceState) : Prop := in_connection_state i = lit "connected" -> in_qr_code i = None.

Lemma on_event_instances name dr e b : bs_instances (handler name dr e b) = alter (run_writes (instance_writes e)) name (bs_instances b).
Proof.
  destruct e as [code t|code|m info| | |src st md| |]; try done; cbn [instance_writes]; try (symmetry; apply alter_id; by intros).
  - rewrite alter_id by by intros. unfold handler. cbn [on_event]. unfold on_message, on_media_ping, on_text_ping. repeat case_match; done.
  - rewrite alter_id by by intros. unfold handler. cbn [on_event]. unfold insert_api_event. by repeat case_match.
Qed.

Theorem connected_without_code name es b : map_Forall (fun _ => shown) (bs_instances b) -> map_Forall (fun _ => shown) (bs_instances (handlers name es b)).
Proof.
  unfold handlers, on_events. revert b. induction es as [|[dr e] es IH]; intros b H; [done|]. cbn [fold_left fst snd]. apply IH.
  change (on_event _ _ _ _ _ _ _ _ _ name dr e b) with (handler name dr e b). rewrite on_event_instances. intros n i Hi.
  apply lookup_alter_Some in Hi as [(-> & i0 & Hi0 & ->)|[_ Hi]]; [|by apply (H n)]. specialize (H _ _ Hi0).
  destruct e; try done; by intros.
Qed.

(** ** Sessions that are not registered *)

Lemma enqueue_unknown id name event data s : session_exists name (ws_db s) = false -> ws_db (enqueue_now clock id name event data s) = ws_db s.
Proof.
  intros Hs. unfold enqueue_now, enqueue, insert_event. cbn [ws_db set_db default fmap option_fmap option_map from_option]. rewrite Hs. cbn [negb].
  by rewrite orb_true_r.
Qed.

(** As long as there is no row for the session, and the program makes none, nothing
    of what happens is kept: neither events nor messages, and no error says so. *)
Theorem unregistered_keeps_nothing name es b : session_exists name (ws_db (bs_hooks b)) = false ->
  ws_db (bs_hooks (handlers name es b)) = ws_db (bs_hooks b) /\ bs_api_events (handlers name es b) = bs_api_events b
  /\ forall id m info c, ws_db (announce id name m info (bs_hooks (handlers name es b), c)).1 = ws_db (bs_hooks b).
Proof.
  intros Hs. assert (forall dr e b, session_exists name (ws_db (bs_hooks b)) = false ->
    ws_db (bs_hooks (handler name dr e b)) = ws_db (bs_hooks b) /\ bs_api_events (handler name dr e b) = bs_api_events b) as Hstep.
  { clear. intros dr e b Hs. unfold handler. destruct e as [code t|code|m info| | |src st md| |]; try done; cbn [on_event].
    - split; [by apply (enqueue_unknown _ name)|done].
    - unfold on_message, on_media_ping, on_text_ping. by repeat case_match.
    - split; [by apply (enqueue_unknown _ name)|done].
    - unfold insert_api_event. cbn [bs_hooks on_hooks ws_db next_tick]. rewrite (enqueue_unknown _ name) by done. rewrite Hs. cbn [negb].
      rewrite orb_true_r. split; [|done]. cbn [bs_hooks on_hooks ws_db next_tick]. by apply (enqueue_unknown _ name).
    - split; [by apply (enqueue_unknown _ name)|done]. }
  assert (ws_db (bs_hooks (handlers name es b)) = ws_db (bs_hooks b) /\ bs_api_events (handlers name es b) = bs_api_events b) as [H1 H2].
  { unfold handlers, on_events. revert b Hs. induction es as [|[dr e] es IH]; intros b Hs; [done|]. cbn [fold_left fst snd].
    destruct (Hstep dr e b Hs) as [E1 E2]. rewrite <- E1 in Hs. destruct (IH _ Hs) as [E3 E4]. split; [by rewrite <- E1|by rewrite <- E2]. }
  split_and!; [done|done|]. intros id m info c. unfold announce, announce_message.
  pose proof (load_keeps_db clock fails name (bs_hooks (handlers name es b))) as Hl.
  destruct (load_instance_webhook _ _ _ _) as [cfg s1]. cbn [snd] in Hl. destruct (message_payload _ _ _ _ _ _ _ _ _) as [p c1]. cbn [fst].
  rewrite (enqueue_unknown _ name), Hl by (rewrite Hl, H1; done). done.
Qed.
End Handling.

(** ** Events handled at once *)

Definition is_qr (e : BotEvent) : bool := match e with Ev_pairing_qr_code _ _ => true | _ => false end.
Definition is_count (w : InstanceWrite) : bool := match w with Count_qr => true | _ => false end.

Lemma interleaving_perm {A} (ls : list (list A)) r : interleaving ls r -> r ≡ₚ mjoin ls.
Proof.
  induction 1 as [ls H|ls1 x l ls2 r H IH].
  - induction H as [|l ls -> _ IH]; [done|]. by rewrite <- IH.
  - rewrite IH, !join_app. cbn [mjoin list_join app]. rewrite Permutation_middle. done.
Qed.

Lemma count_writes ws i : 0 <= in_qr_count i < 2 ^ 32 ->
  in_qr_count (run_writes ws i) = wrap 32 (in_qr_count i + Z.of_nat (length (List.filter is_count ws))).
Proof.
  unfold run_writes. revert i. induction ws as [|w ws IH]; intros i Hi; cbn [fold_left List.filter].
  - cbn [length]. rewrite Z.add_0_r. unfold wrap. by rewrite Z.mod_small.
  - rewrite IH by (destruct w; cbn; [done..|apply Z.mod_pos_bound; lia]). destruct w; cbn [apply_write is_count in_qr_count]; [done..|]. cbn [length].
    unfold wrap. rewrite Zplus_mod_idemp_l. f_equal. lia.
Qed.

Lemma filter_perm_length {A} (p : A -> bool) l l' : l ≡ₚ l' -> length (List.filter p l) = length (List.filter p l').
Proof. induction 1 as [|x l l' _ IH|x y l|l1 l2 l3 _ IH1 _ IH2]; cbn; [done|destruct (p x); cbn; congruence|by destruct (p x), (p y)|congruence]. Qed.

(** However the writes of the handlers mix, the counter ends at the number of
    codes there were. *)
Theorem qr_codes_counted es ws i : interleaving (map instance_writes es) ws -> 0 <= in_qr_count i < 2 ^ 32 ->
  in_qr_count (run_writes ws i) = wrap 32 (in_qr_count i + Z.of_nat (length (List.filter is_qr es))).
Proof.
  intros H%interleaving_perm Hi. rewrite count_writes by done. do 3 f_equal. rewrite (filter_perm_length _ _ _ H). clear.
  induction es as [|e es IH]; [done|]. change (mjoin (map instance_writes (e :: es))) with (instance_writes e ++ mjoin (map instance_writes es)).
  rewrite List.filter_app, length_app, IH. by destruct e.
Qed.

(** The rest of the state depends on how they mix: a code that came before the
    login can be shown for an instance that is connected. *)
Theorem code_of_connected : exists ws, interleaving (map instance_writes [Ev_pairing_qr_code (lit "2@x") 60; Ev_connected]) ws
  /\ in_connection_state (run_writes ws instance_new) = lit "connected" /\ in_qr_code (run_writes ws instance_new) = Some (lit "2@x").
Proof.
  exists [Set_qr None; Set_qr (Some (lit "2@x")); Set_state "qr_pending"; Count_qr; Set_state "connected"]. split; [|done].
  apply (il_step [_] _ _ []). apply (il_step [] _ _ [_]). apply (il_step [] _ _ [_]). apply (il_step [] _ _ [_]). apply (il_step [_] _ _ []).
  apply il_done. by repeat constructor.
Qed.

(** ** Concrete runs *)

#[local] Existing Instances toy_row_text toy_hkdf toy_hashes id_aes id_block toy_base64.

Definition sample_image : ImageMsg :=
  mkImageMsg (mkFilePart (Some (lit "u")) (Some (lit "image/png")) (Some 3) None None None None) (Some (lit "look")).
Definition sample_info : MessageInfo :=
  mkMessageInfo (source_of (mkJid (lit "1") (lit "s.whatsapp.net") 0 0 0) (mkJid (lit "1") (lit "s.whatsapp.net") 0 2 0)) (lit "ID") (lit "Ann") 5 [].
Definition toy_no_iq (q : InfoQuery) : outcome ClientIqError Node := Panic.
Definition toy_refuse (r : HttpRequest) : outcome str HttpResponse := Err [].
Definition toy_announced (s : WState) : WState :=
  (announce_message (fun b => b) toy_no_iq (fun _ => []) toy_refuse 0 toy_clock (fun _ => false) (fun _ => None) 7 (lit "a") (msg_image sample_image) sample_info (s, None)).1.

Lemma received_message_announced_witness :
  exists r, db_outbox (ws_db (toy_announced toy_start)) !! 7 = Some r /\ ob_event r = lit "MESSAGES_UPSERT" /\
  exists entry, get_path ["data"; "messages"]%string (enrich_payload [] [] (ob_payload r) [] true) = Some (V_Array [entry])
    /\ get_path ["message"; "text"]%string entry = Some (V_String (lit "look")).
Proof.
  destruct (received_message_announced (fun b => b) toy_no_iq (fun _ => []) toy_refuse 0 toy_clock (fun _ => false) (fun _ => None)
              7 (lit "a") (msg_image sample_image) sample_info toy_start None) as (r & Ho & _ & He & _ & _ & Hp); [vm_compute; reflexivity|vm_compute; reflexivity|].
  destruct (Hp [] [] [] true) as (entry & Hm & _ & _ & _ & _ & Hk).
  exists r. split_and!; [unfold toy_announced; rewrite Ho; apply lookup_insert_eq|done|]. exists entry. split; [done|]. by rewrite Hk.
Defined.

(** An image of a chat with disappearing messages. *)
Lemma wrapped_file_hidden_witness :
  v_get "text" (message_payload (fun b => b) toy_no_iq (fun _ => []) toy_refuse 0 false
                  (default [] (text_content (wrap_all [W_ephemeral] (msg_image sample_image)))) (wrap_all [W_ephemeral] (msg_image sample_image)) None).1
  = Some (V_String []).
Proof.
  refine (proj2 (wrapped_file_hidden (fun b => b) toy_no_iq (fun _ => []) toy_refuse 0 [W_ephemeral] (msg_image sample_image) _ false None _ _ _ _ _) "text"%string);
    [done|by intros []|reflexivity|reflexivity|reflexivity].
Defined.

Definition toy_bot : BotState := mkBotState {[lit "default" := instance_new]} toy_start [] None [].
Definition toy_drawn : Drawn := mkDrawn 9 0 [] [] None.
Definition toy_handlers (es : list BotEvent) : BotState :=
  on_events (fun b => b) toy_no_iq (fun _ => []) toy_refuse (fun _ => Err []) 0 (fun _ => []) toy_clock (fun _ => false) (lit "default")
    (map (pair toy_drawn) es) toy_bot.

Lemma connected_without_code_witness :
  map_Forall (fun _ => shown) (bs_instances (toy_handlers [Ev_pairing_qr_code (lit "2@x") 60; Ev_connected]))
  /\ bs_instances (toy_handlers [Ev_pairing_qr_code (lit "2@x") 60; Ev_connected]) !! lit "default" = Some (mkInstance None 1 (lit "connected")).
Proof.
  split; [|vm_compute; reflexivity].
  apply (connected_without_code (fun b => b) toy_no_iq (fun _ => []) toy_refuse (fun _ => Err []) 0 (fun _ => []) toy_clock (fun _ => false)).
  intros n i Hi. cbn [toy_bot bs_instances] in Hi. apply lookup_singleton_Some in Hi as [_ <-]. done.
Defined.

(** The program's own session, before it was created by a request. *)
Lemma unregistered_keeps_nothing_witness :
  ws_db (bs_hooks (toy_handlers [Ev_pairing_qr_code (lit "2@x") 60; Ev_connected; Ev_logged_out])) = ws_db toy_start.
Proof.
  apply (unregistered_keeps_nothing (fun b => b) toy_no_iq (fun _ => []) toy_refuse (fun _ => Err []) 0 (fun _ => []) toy_clock (fun _ => false) (fun _ => None)
           (lit "default") (map (pair toy_drawn) [Ev_pairing_qr_code (lit "2@x") 60; Ev_connected; Ev_logged_out]) toy_bot).
  vm_compute. reflexivity.
Defined.

Lemma qr_codes_counted_witness : in_qr_count (run_writes [Set_qr (Some []); Set_state "qr_pending"; Count_qr] instance_new) = 1.
Proof.
  rewrite (qr_codes_counted [Ev_pairing_qr_code [] 60] [Set_qr (Some []); Set_state "qr_pending"; Count_qr] instance_new); [reflexivity| |vm_compute; split; congruence].
  do 3 apply (il_step [] _ _ []). apply il_done. by repeat constructor.
Defined.
