(* ===== verification/Routes.v ===== *)
(** * The other REST handlers

    [src/server/routes/{groups,labels,contacts,presence,profile,status,channels,
    keys,apps,calls,events,media,auth/mod}.rs]: handlers that run one statement on
    a table of their own, and most of them enqueue an event of [Webhooks].  The
    tables are those of [storages/postgres-storage/migrations]; every row belongs
    to a session that exists, which the data base enforces.

    The theorems: a request that is refused or fails changes nothing, one that
    succeeds touches only its session and enqueues at most one event; rows
    always belong to existing sessions, so that a session with rows stays; what
    is created is read back; removing participants keeps those that were to be
    removed; the listing of the API keys shows the keys; no code is ever shown for
    a session; stored events cannot be read. *)

From stdpp Require Import gmap sorting.
From S2P Require Import Prelude RustStd Jid Node Attrs Crypto Requests Pairing Json Queue Webhooks ChatApi.

(** ** Tables *)

Record GroupRow := mkGroupRow { gr_subject : option str; gr_participants : option Value; gr_created_at : Time }.
Record LabelRow := mkLabelRow { lr_name : option str; lr_color : option str }.
Record ProfileRow := mkProfileRow { pr_name : option str; pr_status : option str; pr_picture_url : option str; pr_updated_at : Time }.
Record StatusRow := mkStatusRow { su_session : str; su_type : str; su_payload : Value; su_created_at : Time }.
Record ChannelRow := mkChannelRow { ch_title : option str; ch_followed : bool; ch_metadata : option Value }.
Record AppRow := mkAppRow { ar_name : option str; ar_config : Value; ar_created_at : Time }.
Record KeyRow := mkKeyRow { kr_label : option str; kr_key_hash : str; kr_created_at : Time; kr_revoked_at : option Time }.
Record EventRow := mkEventRow { er_session : str; er_event : str; er_payload : Value; er_created_at : Time }.
Record ContactRow := mkContactRow { co_name : option str; co_exists : bool; co_picture : option str; co_updated_at : Time }.

(** [ap_codes]: the columns [qr_code] and [pair_code] of [api_sessions] *)
Record Api := mkApi {
  ap_app : AppState; ap_groups : gmap (str * str) GroupRow; ap_labels : gmap (str * str) LabelRow; ap_label_chats : gset (str * str * str);
  ap_profiles : gmap str ProfileRow; ap_status : gmap Uuid StatusRow; ap_channels : gmap (str * str) ChannelRow; ap_apps : gmap Uuid AppRow;
  ap_keys : gmap Uuid KeyRow; ap_events : gmap Uuid EventRow; ap_contacts : gmap (str * str) ContactRow; ap_codes : gmap str (option str * option str)
}.

Definition put_app f (a : Api) : Api := mkApi (f (ap_app a)) (ap_groups a) (ap_labels a) (ap_label_chats a) (ap_profiles a) (ap_status a) (ap_channels a) (ap_apps a) (ap_keys a) (ap_events a) (ap_contacts a) (ap_codes a).
Definition set_groups f (a : Api) : Api := mkApi (ap_app a) (f (ap_groups a)) (ap_labels a) (ap_label_chats a) (ap_profiles a) (ap_status a) (ap_channels a) (ap_apps a) (ap_keys a) (ap_events a) (ap_contacts a) (ap_codes a).
Definition set_labels f (a : Api) : Api := mkApi (ap_app a) (ap_groups a) (f (ap_labels a)) (ap_label_chats a) (ap_profiles a) (ap_status a) (ap_channels a) (ap_apps a) (ap_keys a) (ap_events a) (ap_contacts a) (ap_codes a).
Definition set_label_chats f (a : Api) : Api := mkApi (ap_app a) (ap_groups a) (ap_labels a) (f (ap_label_chats a)) (ap_profiles a) (ap_status a) (ap_channels a) (ap_apps a) (ap_keys a) (ap_events a) (ap_contacts a) (ap_codes a).
Definition set_profiles f (a : Api) : Api := mkApi (ap_app a) (ap_groups a) (ap_labels a) (ap_label_chats a) (f (ap_profiles a)) (ap_status a) (ap_channels a) (ap_apps a) (ap_keys a) (ap_events a) (ap_contacts a) (ap_codes a).
Definition set_status f (a : Api) : Api := mkApi (ap_app a) (ap_groups a) (ap_labels a) (ap_label_chats a) (ap_profiles a) (f (ap_status a)) (ap_channels a) (ap_apps a) (ap_keys a) (ap_events a) (ap_contacts a) (ap_codes a).
Definition set_channels f (a : Api) : Api := mkApi (ap_app a) (ap_groups a) (ap_labels a) (ap_label_chats a) (ap_profiles a) (ap_status a) (f (ap_channels a)) (ap_apps a) (ap_keys a) (ap_events a) (ap_contacts a) (ap_codes a).
Definition set_apps f (a : Api) : Api := mkApi (ap_app a) (ap_groups a) (ap_labels a) (ap_label_chats a) (ap_profiles a) (ap_status a) (ap_channels a) (f (ap_apps a)) (ap_keys a) (ap_events a) (ap_contacts a) (ap_codes a).
Definition set_keys f (a : Api) : Api := mkApi (ap_app a) (ap_groups a) (ap_labels a) (ap_label_chats a) (ap_profiles a) (ap_status a) (ap_channels a) (ap_apps a) (f (ap_keys a)) (ap_events a) (ap_contacts a) (ap_codes a).
Definition set_events f (a : Api) : Api := mkApi (ap_app a) (ap_groups a) (ap_labels a) (ap_label_chats a) (ap_profiles a) (ap_status a) (ap_channels a) (ap_apps a) (ap_keys a) (f (ap_events a)) (ap_contacts a) (ap_codes a).
Definition set_codes f (a : Api) : Api := mkApi (ap_app a) (ap_groups a) (ap_labels a) (ap_label_chats a) (ap_profiles a) (ap_status a) (ap_channels a) (ap_apps a) (ap_keys a) (ap_events a) (ap_contacts a) (f (ap_codes a)).

Definition ap_db (a : Api) : Db := as_db (ap_app a).

(** The sessions the rows of these tables refer to. *)
Definition references (a : Api) : list str :=
  map (fun kv => kv.1.1) (map_to_list (ap_groups a)) ++ map (fun kv => kv.1.1) (map_to_list (ap_labels a))
  ++ map (fun k => k.1.1) (elements (ap_label_chats a)) ++ map fst (map_to_list (ap_profiles a))
  ++ map (fun kv => su_session kv.2) (map_to_list (ap_status a)) ++ map (fun kv => kv.1.1) (map_to_list (ap_channels a))
  ++ map (fun kv => er_session kv.2) (map_to_list (ap_events a)) ++ map (fun kv => kv.1.1) (map_to_list (ap_contacts a)).

(** ** Statements and answers *)

Section Routes.
Context `{HT : !RowText, HS : !Hashes, HX : !Hex}.
Context (db_error : str).

Abbreviation handler := (Api -> Response * Api) (only parsing).

(** A statement for a session, [None] when a constraint fails. *)
Definition for_session (session : str) (f : Api -> Api) (a : Api) : option Api := if session_exists session (ap_db a) then Some (f a) else None.

(** What most handlers do: the statement, or [db_error]; the event, if there is
    one; the answer. *)
Definition statement (fails : bool) (stmt : Api -> option Api) (event : Api -> Api) (answer : Value) : handler :=
  fun a => match (if fails then None else stmt a) with
           | Some a => (mkResponse 200 answer, event a)
           | None => (db_error_response db_error, a)
           end.
Definition announce_event (dr : Draw) (session : str) (event : string) (data : Value) : Api -> Api :=
  put_app (on_db (enqueue (dr_event1 dr) (Some session) (lit event) data (dr_now dr))).

Definition ok_status (s : string) : Value := json_obj [("status", V_String (lit s))]%string.
Definition id_value (id : str) : Value := json_obj [("id", V_String id)]%string.

(** [body.get("id")...unwrap_or_else(|| Uuid::new_v4().to_string())] *)
Definition body_id (dr : Draw) (body : Value) : str := default (uuid_str (dr_id dr)) (get_str "id" body).

(** [rows.pop().unwrap_or_else(|| json!({}))] of a query by key *)
Definition one_row (fails : bool) (row : Api -> option Value) (none : Value) : handler :=
  fun a => if fails then (db_error_response db_error, a) else (mkResponse 200 (default none (row a)), a).

(** ** [groups.rs] *)

Definition create_group (fails : bool) (dr : Draw) (session : str) (body : Value) : handler :=
  let id := body_id dr body in
  let subject := get_str "subject" body in
  let participants := v_get "participants" body in
  statement fails
    (for_session session (set_groups (fun t =>
       <[(session, id) := mkGroupRow subject participants (match t !! (session, id) with Some r => gr_created_at r | None => dr_now dr end)]> t)))
    (announce_event dr session "GROUPS_UPSERT" (id_value id)) (id_value id).

Definition join_group : bool -> Draw -> str -> Value -> handler := create_group.

Definition opt_value (o : option Value) : Value := default V_Null o.
Definition group_json (session id : str) (r : GroupRow) : Value :=
  json_obj [("session", V_String session); ("id", V_String id); ("subject", opt_string (gr_subject r)); ("participants", opt_value (gr_participants r));
            ("created_at", V_String (pg_time (gr_created_at r)))]%string.
Definition get_group (fails : bool) (session id : str) : handler :=
  one_row fails (fun a => group_json session id <$> ap_groups a !! (session, id)) (V_Object []).

Definition participants (fails : bool) (session id : str) : handler :=
  one_row fails (fun a => (fun r => json_obj [("participants", opt_value (gr_participants r))]%string) <$> ap_groups a !! (session, id))
    (json_obj [("participants", V_Array [])]%string).

Definition with_participants (p : Value) (r : GroupRow) : GroupRow := mkGroupRow (gr_subject r) (Some p) (gr_created_at r).

Definition leave_group (fails : bool) (dr : Draw) (session id : str) : handler :=
  statement fails (fun a => Some (set_groups (alter (with_participants (V_Array [])) (session, id)) a))
    (announce_event dr session "GROUP_PARTICIPANTS_UPDATE" (id_value id)) (ok_status "left").

Definition update_participants (fails : bool) (dr : Draw) (session id : str) (body : Value) : handler :=
  let participants := default (V_Array []) (v_get "participants" body) in
  statement fails (fun a => Some (set_groups (alter (with_participants participants) (session, id)) a))
    (announce_event dr session "GROUP_PARTICIPANTS_UPDATE" (id_value id)) (ok_status "updated").
Definition add_participants : bool -> Draw -> str -> str -> Value -> handler := update_participants.
Definition remove_participants : bool -> Draw -> str -> str -> Value -> handler := update_participants.

Definition invite_code (dr : Draw) : handler := fun a => (mkResponse 200 (json_obj [("invite_code", V_String (uuid_str (dr_id dr)))]%string), a).

(** ** [labels.rs] *)

Definition create_label (fails : bool) (dr : Draw) (session : str) (body : Value) : handler :=
  let id := body_id dr body in
  statement fails (for_session session (set_labels (insert (session, id) (mkLabelRow (get_str "name" body) (get_str "color" body)))))
    (announce_event dr session "LABELS_EDIT" (id_value id)) (id_value id).

Definition apply_label (fails : bool) (dr : Draw) (session chat_id : str) (body : Value) : handler :=
  match v_get_or "label_id" "labelId" body ≫= as_str with
  | None => fun a => (error_response 400 "label_id_required", a)
  | Some label_id =>
      statement fails (for_session session (set_label_chats (fun t => {[(session, label_id, chat_id)]} ∪ t)))
        (announce_event dr session "LABELS_ASSOCIATION" (json_obj [("label_id", V_String label_id); ("chat_id", V_String chat_id)]%string)) (ok_status "ok")
  end.

(** ** [presence.rs] *)

Definition store_presence (fails : bool) (dr : Draw) (session chat_id presence : str) (answer : Value) : handler :=
  statement fails (for_session session (put_app (on_db (with_presence (insert (session, chat_id) presence)))))
    (announce_event dr session "PRESENCE_UPDATE" (json_obj [("chat_id", V_String chat_id); ("presence", V_String presence)]%string)) answer.

Definition set_presence (fails : bool) (dr : Draw) (session : str) (body : Value) : handler :=
  store_presence fails dr session (default (lit "self") (get_str "chatId" body)) (default (lit "available") (get_str "presence" body)) (ok_status "ok").
Definition subscribe (fails : bool) (dr : Draw) (session chat_id : str) : handler :=
  store_presence fails dr session chat_id (lit "subscribed") (ok_status "subscribed").

(** ** [profile.rs] *)

Inductive ProfileField := PF_name | PF_status | PF_picture_url.
Definition field_name (f : ProfileField) : string := match f with PF_name => "name" | PF_status => "status" | PF_picture_url => "picture_url" end.
Definition set_profile_field (f : ProfileField) (v : str) (now : Time) (r : ProfileRow) : ProfileRow :=
  match f with
  | PF_name => mkProfileRow (Some v) (pr_status r) (pr_picture_url r) now
  | PF_status => mkProfileRow (pr_name r) (Some v) (pr_picture_url r) now
  | PF_picture_url => mkProfileRow (pr_name r) (pr_status r) (Some v) now
  end.
Definition update_profile_field (fails : bool) (dr : Draw) (session : str) (field : ProfileField) (body : Value) : handler :=
  let value := default [] (get_str "value" body) in
  statement fails
    (for_session session (set_profiles (fun t =>
       <[session := set_profile_field field value (dr_now dr) (default (mkProfileRow None None None (dr_now dr)) (t !! session))]> t)))
    (fun a => a) (json_obj [("session", V_String session); (field_name field, V_String value)]%string).
Definition profile_json (session : str) (r : ProfileRow) : Value :=
  json_obj [("session", V_String session); ("name", opt_string (pr_name r)); ("status", opt_string (pr_status r));
            ("picture_url", opt_string (pr_picture_url r)); ("updated_at", V_String (pg_time (pr_updated_at r)))]%string.
Definition get_profile (fails : bool) (session : str) : handler :=
  one_row fails (fun a => profile_json session <$> ap_profiles a !! session) (V_Object []).

(** ** [status.rs] *)

Definition create_status (fails : bool) (dr : Draw) (session : str) (status_type : string) (payload : Value) : handler :=
  statement (fails) (fun a => if bool_decide (is_Some (ap_status a !! dr_id dr)) then None
                              else for_session session (set_status (insert (dr_id dr) (mkStatusRow session (lit status_type) payload (dr_now dr)))) a)
    (announce_event dr session "MESSAGES_UPSERT" (json_obj [("status_type", V_String (lit status_type)); ("payload", payload)]%string)) (ok_status "ok").

(** With an identifier, the statement compares a [UUID] column with a text
    parameter, which PostgreSQL refuses. *)
Definition status_delete (fails : bool) (dr : Draw) (session : str) (body : Value) : handler :=
  statement fails
    (fun a => match get_str "id" body with
              | Some _ => None
              | None => Some (set_status (filter (fun kv => su_session kv.2 <> session)) a)
              end)
    (announce_event dr session "MESSAGES_DELETE" (json_obj [("session", V_String session)]%string)) (ok_status "deleted").

(** ** [channels.rs], [apps.rs] *)

Definition follow_channel (fails : bool) (session id : str) : handler :=
  statement fails
    (for_session session (set_channels (fun t =>
       <[(session, id) := match t !! (session, id) with
                          | Some r => mkChannelRow (ch_title r) true (ch_metadata r)
                          | None => mkChannelRow None true None
                          end]> t)))
    (fun a => a) (ok_status "followed").

Definition create_app (fails : bool) (dr : Draw) (body : Value) : handler :=
  statement fails (fun a => if bool_decide (is_Some (ap_apps a !! dr_id dr)) then None
                            else Some (set_apps (insert (dr_id dr) (mkAppRow (get_str "name" body) (default (V_Object []) (v_get "config" body)) (dr_now dr))) a))
    (fun a => a) (ok_status "created").

(** ** [keys.rs] *)

Definition hash_key (key : str) : str := hex_encode (sha Sha256 key).

(** The key is the text of the identifier of its row. *)
Definition create_key (fails : bool) (dr : Draw) (body : Value) : handler :=
  let raw_key := uuid_str (dr_id dr) in
  statement fails
    (fun a => let id := default (dr_event1 dr) (parse_uuid raw_key) in
              if bool_decide (is_Some (ap_keys a !! id)) then None
              else Some (set_keys (insert id (mkKeyRow (get_str "label" body) (hash_key raw_key) (dr_now dr) None)) a))
    (fun a => a) (json_obj [("key", V_String raw_key)]%string).

Definition key_json (ir : Uuid * KeyRow) : Value :=
  json_obj [("id", V_String (uuid_str ir.1)); ("label", opt_string (kr_label ir.2)); ("key_hash", V_String (kr_key_hash ir.2));
            ("created_at", V_String (pg_time (kr_created_at ir.2))); ("revoked_at", opt_string (pg_time <$> kr_revoked_at ir.2))]%string.
(** [order]: the rows as the data base sorts them *)
Definition list_keys (fails : bool) (order : gmap Uuid KeyRow -> list (Uuid * KeyRow)) : handler :=
  fun a => if fails then (db_error_response db_error, a) else (mkResponse 200 (V_Array (map key_json (order (ap_keys a)))), a).

Definition revoke_key (fails : bool) (dr : Draw) (id : str) : handler :=
  match parse_uuid id with
  | None => fun a => (error_response 400 "invalid_id", a)
  | Some id =>
      statement fails (fun a => Some (set_keys (alter (fun r => mkKeyRow (kr_label r) (kr_key_hash r) (kr_created_at r) (Some (dr_now dr))) id) a))
        (fun a => a) (ok_status "revoked")
  end.

(** ** [calls.rs], [events.rs], [media.rs] *)

Definition store_event (dr : Draw) (session event : str) (payload : Value) (a : Api) : option Api :=
  if bool_decide (is_Some (ap_events a !! dr_id dr)) then None
  else for_session session (set_events (insert (dr_id dr) (mkEventRow session event payload (dr_now dr)))) a.

Definition reject_call (fails : bool) (dr : Draw) (session : str) (body : Value) : handler :=
  statement fails (store_event dr session (lit "CALL") body) (announce_event dr session "CALL" body) (ok_status "rejected").

Definition post_event (fails : bool) (dr : Draw) (session : str) (body : Value) : handler :=
  let event := default (lit "APPLICATION_STARTUP") (get_str "event" body) in
  statement fails (store_event dr session event body)
    (put_app (on_db (enqueue (dr_event1 dr) (Some session) event body (dr_now dr)))) (ok_status "ok").

Definition convert_media (fails : bool) (dr : Draw) (session : str) (media_type : string) (payload : Value) : handler :=
  statement fails (store_event dr session (lit "MEDIA_CONVERT_" ++ to_uppercase (lit media_type)) payload) (fun a => a) (ok_status "queued").

Definition stored_events (session : str) (event_type : option str) (a : Api) : list (Uuid * EventRow) :=
  List.filter (fun ir => (er_session ir.2 =s session) && match event_type with Some t => er_event ir.2 =s t | None => true end) (map_to_list (ap_events a)).

(** [LIMIT limit OFFSET offset]; negative ones fail.  The rows are read as rows with
    a column [value], which the query does not have, so that any row is an
    error. *)
Definition get_events (fails : bool) (session : str) (event_type : option str) (limit offset : i32) : handler :=
  fun a => let page := take (Z.to_nat limit) (drop (Z.to_nat offset) (stored_events session event_type a)) in
           if fails || (limit <? 0) || (offset <? 0) || negb (length page =? 0)%nat then (db_error_response db_error, a)
           else (mkResponse 200 (json_obj [("events", V_Array [])]%string), a).

(** ** [contacts.rs] *)

Definition contact_json (session id : str) (r : ContactRow) : Value :=
  json_obj [("session", V_String session); ("id", V_String id); ("name", opt_string (co_name r)); ("exists", V_Bool (co_exists r));
            ("profile_picture_url", opt_string (co_picture r)); ("updated_at", V_String (pg_time (co_updated_at r)))]%string.
Definition check_exists (fails : bool) (params : list (str * str)) : handler :=
  let session := default (lit "default") (im_get (lit "session") params) in
  match or_else (im_get (lit "id") params) (im_get (lit "phone") params) with
  | None => fun a => (error_response 400 "id_required", a)
  | Some id => one_row fails (fun a => contact_json session id <$> ap_contacts a !! (session, id))
                 (json_obj [("session", V_String session); ("id", V_String id); ("exists", V_Bool false)]%string)
  end.
Definition profile_picture (fails : bool) (params : list (str * str)) : handler :=
  let session := default (lit "default") (im_get (lit "session") params) in
  let id := default [] (im_get (lit "id") params) in
  if str_is_empty id then fun a => (error_response 400 "id_required", a)
  else one_row fails (fun a => contact_json session id <$> ap_contacts a !! (session, id)) (V_Object []).

(** ** [auth/mod.rs] *)

Definition get_qr (fails : bool) (dr : Draw) (session : str) : handler :=
  fun a => match as_runtime (ap_app a) !! session ≫= rt_qr_code with
           | Some qr_code =>
               let a := if fails then a else set_codes (fun t => match db_sessions (ap_db a) !! session with
                                                                 | Some _ => <[session := (Some qr_code, (default (None, None) (t !! session)).2)]> t
                                                                 | None => t
                                                                 end) a in
               (mkResponse 200 (json_obj [("session", V_String session); ("qr", V_String qr_code)]%string),
                announce_event dr session "QRCODE_UPDATED" (json_obj [("qr", V_String qr_code)]%string) a)
           | None => (error_response 404 "qr_not_available", a)
           end.

Definition set_pair_code (code : str) (r : SessionRuntime) : SessionRuntime :=
  mkSessionRuntime (rt_connection_state r) (rt_qr_code r) (Some code) (rt_last_seen r).

(** [code]: what [generate_code] draws *)
Definition request_code (fails : bool) (code session : str) : handler :=
  fun a =>
    let a := if fails then a else set_codes (fun t => match db_sessions (ap_db a) !! session with
                                                      | Some _ => <[session := ((default (None, None) (t !! session)).1, Some code)]> t
                                                      | None => t
                                                      end) a in
    (mkResponse 200 (json_obj [("session", V_String session); ("code", V_String code)]%string),
     put_app (on_runtime (fun m => <[session := set_pair_code code (default runtime_new (m !! session))]> m)) a).

(** ** Requests *)

Inductive Request :=
| R_create_group (session : str) (body : Value) | R_join_group (session : str) (body : Value) | R_get_group (session id : str)
| R_participants (session id : str) | R_leave_group (session id : str) | R_add_participants (session id : str) (body : Value)
| R_remove_participants (session id : str) (body : Value) | R_create_label (session : str) (body : Value) | R_apply_label (session chat_id : str) (body : Value)
| R_set_presence (session : str) (body : Value) | R_subscribe (session chat_id : str) | R_profile (session : str) (field : ProfileField) (body : Value)
| R_status (session : str) (status_type : string) (body : Value) | R_status_delete (session : str) (body : Value) | R_follow_channel (session id : str)
| R_create_app (body : Value) | R_create_key (body : Value) | R_revoke_key (id : str) | R_reject_call (session : str) (body : Value)
| R_post_event (session : str) (body : Value) | R_convert_media (session : str) (media_type : string) (body : Value)
| R_get_qr (session : str) | R_request_code (session code : str)
| R_create_session (row : option Value) (body : Value) | R_start_session (session : str) | R_stop_session (session : str) | R_delete_session (session : str).

(** The session handlers of [ChatApi], which see the references of these
    tables. *)
Definition with_referenced (l : list str) (d : Db) : Db := mkDb (db_sessions d) (db_outbox d) (db_messages d) (db_presence d) l.
Definition on_app (h : AppState -> Response * AppState) : handler :=
  fun a => let '(r, app) := h (on_db (with_referenced (references a)) (ap_app a)) in
           (r, put_app (fun _ => on_db (with_referenced (db_referenced (ap_db a))) app) a).
Definition route_delete_session (fails : bool) (dr : Draw) (session : str) : handler :=
  fun a => let '(r, a) := on_app (delete_session db_error fails dr session) a in
           (r, if rs_status r =? 200 then set_codes (delete session) a else a).

Definition serve (fails : bool) (dr : Draw) (r : Request) : handler :=
  match r with
  | R_create_group s b => create_group fails dr s b
  | R_join_group s b => join_group fails dr s b
  | R_get_group s i => get_group fails s i
  | R_participants s i => participants fails s i
  | R_leave_group s i => leave_group fails dr s i
  | R_add_participants s i b => add_participants fails dr s i b
  | R_remove_participants s i b => remove_participants fails dr s i b
  | R_create_label s b => create_label fails dr s b
  | R_apply_label s c b => apply_label fails dr s c b
  | R_set_presence s b => set_presence fails dr s b
  | R_subscribe s c => subscribe fails dr s c
  | R_profile s f b => update_profile_field fails dr s f b
  | R_status s t b => create_status fails dr s t b
  | R_status_delete s b => status_delete fails dr s b
  | R_follow_channel s i => follow_channel fails s i
  | R_create_app b => create_app fails dr b
  | R_create_key b => create_key fails dr b
  | R_revoke_key i => revoke_key fails dr i
  | R_reject_call s b => reject_call fails dr s b
  | R_post_event s b => post_event fails dr s b
  | R_convert_media s t b => convert_media fails dr s t b
  | R_get_qr s => get_qr fails dr s
  | R_request_code s c => request_code fails c s
  | R_create_session row b => on_app (create_session db_error fails dr row b)
  | R_start_session s => on_app (start_session db_error fails dr s)
  | R_stop_session s => on_app (stop_session db_error fails dr s)
  | R_delete_session s => route_delete_session fails dr s
  end.

(** Requests one after the other, each with the verdict of its statement and what it
    draws. *)
Definition serve_all (rs : list (bool * Draw * Request)) (a : Api) : Api := fold_left (fun a r => (serve r.1.1 r.1.2 r.2 a).2) rs a.

(** ** Requests that fail, and what the others touch *)

Lemma statement_refused fails stmt event answer a : 400 <= rs_status (statement fails stmt event answer a).1 -> (statement fails stmt event answer a).2 = a.
Proof. unfold statement. destruct (if fails then None else stmt a); [cbn; lia|done]. Qed.

Lemma reset_app a : put_app (fun _ => on_db (with_referenced (db_referenced (ap_db a))) (on_db (with_referenced (references a)) (ap_app a))) a = a.
Proof. by destruct a as [[[] ? ?] ? ? ? ? ? ? ? ? ? ? ?]. Qed.

(** A request that is refused or fails has changed nothing. *)
Theorem refused_changes_nothing fails dr r a : 400 <= rs_status (serve fails dr r a).1 -> (serve fails dr r a).2 = a.
Proof.
  destruct r as [s b|s b|s i|s i|s i|s i b|s i b|s b|s c b|s b|s c|s f b|s t b|s b|s i|b|b|i|s b|s b|s t b|s|s c|row b|s|s|s]; cbn [serve];
    unfold join_group, add_participants, remove_participants, create_group, get_group, participants, leave_group, update_participants, create_label,
      apply_label, set_presence, subscribe, store_presence, update_profile_field, create_status, status_delete, follow_channel, create_app, create_key,
      revoke_key, reject_call, post_event, convert_media; try apply statement_refused.
  - unfold one_row. by destruct fails.
  - unfold one_row. by destruct fails.
  - destruct (_ ≫= _); [apply statement_refused|done].
  - destruct (parse_uuid i); [apply statement_refused|done].
  - unfold get_qr. destruct (_ ≫= _); cbn; [lia|done].
  - unfold request_code. cbn. lia.
  - unfold on_app, create_session. destruct fails; cbn -[reset_app on_db put_app]; [intros _; apply reset_app|lia].
  - unfold on_app, start_session, change_session. destruct fails; cbn -[reset_app on_db put_app]; [intros _; apply reset_app|lia].
  - unfold on_app, stop_session, change_session. destruct fails; cbn -[reset_app on_db put_app]; [intros _; apply reset_app|lia].
  - unfold route_delete_session, on_app, delete_session. destruct (fails || _); cbn -[reset_app on_db put_app Z.eqb]; [intros _; apply reset_app|lia].
Qed.

(** ** Rows belong to sessions *)

Record owned (a : Api) (s : str -> Prop) : Prop := {
  ow_groups : forall k r, ap_groups a !! k = Some r -> s k.1;
  ow_labels : forall k r, ap_labels a !! k = Some r -> s k.1;
  ow_label_chats : forall k, k ∈ ap_label_chats a -> s k.1.1;
  ow_profiles : forall k r, ap_profiles a !! k = Some r -> s k;
  ow_status : forall k r, ap_status a !! k = Some r -> s (su_session r);
  ow_channels : forall k r, ap_channels a !! k = Some r -> s k.1;
  ow_events : forall k r, ap_events a !! k = Some r -> s (er_session r);
  ow_contacts : forall k r, ap_contacts a !! k = Some r -> s k.1;
  ow_presence : forall k r, db_presence (ap_db a) !! k = Some r -> s k.1;
  ow_outbox : forall k r n, db_outbox (ap_db a) !! k = Some r -> ob_session r = Some n -> s n;
  ow_messages : forall k r, db_messages (ap_db a) !! k = Some r -> s (mr_session r)
}.

(** Every row belongs to a session that there is. *)
Definition integrity (a : Api) : Prop := owned a (fun n => is_Some (db_sessions (ap_db a) !! n)).

Lemma enqueue_outcome id n event data now d : enqueue id (Some n) event data now d = d
  \/ is_Some (db_sessions d !! n) /\ db_outbox d !! id = None
     /\ enqueue id (Some n) event data now d
        = with_outbox (insert id (mkOutboxRow (Some n) event (event_payload (Some n) event data) (lit "pending") 0 now None now)) d.
Proof.
  unfold enqueue, insert_event, session_exists. cbn [fmap option_fmap option_map default from_option].
  case_bool_decide as H1; cbn [orb default from_option]; [by left|]. case_bool_decide as H2; cbn [negb default from_option]; [|by left].
  right. split_and!; [done| |done]. by apply eq_None_not_Some.
Qed.

Lemma enqueue_integrity id n event data now a : integrity a -> integrity (put_app (on_db (enqueue id (Some n) event data now)) a).
Proof.
  intros H. destruct (enqueue_outcome id n event data now (ap_db a)) as [E|(Hn & _ & E)].
  - unfold integrity, ap_db, put_app, on_db in *. cbn in *. unfold ap_db in E. rewrite E. by destruct H.
  - unfold integrity, ap_db, put_app, on_db in *. cbn in *. unfold ap_db in E, Hn. rewrite E. destruct H. split; cbn; try done.
    intros k r n' [ [_ <-]|[_ Hr] ]%lookup_insert_Some Hs; [cbn in Hs; by simplify_eq|eauto].
Qed.

Lemma statement_integrity fails stmt event answer a : integrity a -> (forall a', stmt a = Some a' -> integrity a') ->
  (forall a', integrity a' -> integrity (event a')) -> integrity (statement fails stmt event answer a).2.
Proof. intros H Hs He. unfold statement. destruct fails; [done|]. destruct (stmt a) as [a'|]; cbn; auto. Qed.

Lemma for_session_Some n f a a' : for_session n f a = Some a' -> is_Some (db_sessions (ap_db a) !! n) /\ a' = f a.
Proof. unfold for_session, session_exists. case_bool_decide; [|done]. by intros [= <-]. Qed.

Ltac new_row := intros ?; intros; repeat match goal with
  | H : <[_ := _]> _ !! _ = Some _ |- _ => apply lookup_insert_Some in H as [ [<- <-]|[_ H] ]
  | H : alter _ _ _ !! _ = Some _ |- _ => apply lookup_alter_Some in H as [ (-> & ? & H & ->)|[_ H] ]
  end; cbn in *; eauto.

(** A session that is not referred to has no rows. *)
Lemma unreferenced n a : session_referenced n (with_referenced (references a) (ap_db a)) = false -> owned a (fun m => m <> n).
Proof.
  intros H. unfold session_referenced in H. rewrite !orb_false_iff in H. destruct H as [ [ [H1 H2] H3] H4].
  apply bool_decide_eq_false_1, dec_stable in H1, H2, H3. cbn in H1, H2, H3, H4.
  assert (forall m, m ∈ references a -> m <> n) as Hr.
  { intros m Hm ->. enough (existsb (bytes_eqb n) (references a) = true) by congruence. apply existsb_exists. exists n.
    split; [by apply list_elem_of_In|apply bytes_eqb_refl]. }
  unfold references in Hr.
  assert (forall B C (f : B -> C) l x, x ∈ l -> f x ∈ map f l) as Hin by (intros B C f l x; apply (list_elem_of_fmap_2 f)).
  repeat setoid_rewrite elem_of_app in Hr.
  split.
  - intros k r Hk%elem_of_map_to_list. apply Hr. pose proof (Hin _ _ (fun kv : str * str * GroupRow => kv.1.1) _ _ Hk). tauto.
  - intros k r Hk%elem_of_map_to_list. apply Hr. pose proof (Hin _ _ (fun kv : str * str * LabelRow => kv.1.1) _ _ Hk). tauto.
  - intros k Hk%elem_of_elements. apply Hr. pose proof (Hin _ _ (fun k : str * str * str => k.1.1) _ _ Hk). tauto.
  - intros k r Hk%elem_of_map_to_list. apply Hr. pose proof (Hin _ _ fst _ _ Hk). tauto.
  - intros k r Hk%elem_of_map_to_list. apply Hr. pose proof (Hin _ _ (fun kv : Uuid * StatusRow => su_session kv.2) _ _ Hk). tauto.
  - intros k r Hk%elem_of_map_to_list. apply Hr. pose proof (Hin _ _ (fun kv : str * str * ChannelRow => kv.1.1) _ _ Hk). tauto.
  - intros k r Hk%elem_of_map_to_list. apply Hr. pose proof (Hin _ _ (fun kv : Uuid * EventRow => er_session kv.2) _ _ Hk). tauto.
  - intros k r Hk%elem_of_map_to_list. apply Hr. pose proof (Hin _ _ (fun kv : str * str * ContactRow => kv.1.1) _ _ Hk). tauto.
  - intros k r Hk. by apply (H3 k r).
  - intros k r m Hk Hm ->. by apply (H1 k r).
  - intros k r Hk. by apply (H2 k r).
Qed.

Lemma owned_impl a (p q : str -> Prop) : (forall n, p n -> q n) -> owned a p -> owned a q.
Proof. intros Hpq []. split; eauto. Qed.

(** Another state of the sessions' handlers, whose rows are looked after. *)
Lemma app_integrity a app (p : str -> Prop) : owned a p -> (forall n, p n -> is_Some (db_sessions (as_db app) !! n)) ->
  db_presence (as_db app) = db_presence (ap_db a) -> db_messages (as_db app) = db_messages (ap_db a) ->
  (forall k r n, db_outbox (as_db app) !! k = Some r -> ob_session r = Some n -> is_Some (db_sessions (as_db app) !! n)) ->
  integrity (put_app (fun _ => app) a).
Proof.
  intros [] Hs Hp Hm Ho. split; unfold put_app; unfold ap_db at 1; cbn; rewrite ?Hp, ?Hm; eauto.
Qed.

Lemma enqueue_db id n event data now d : db_sessions (enqueue id (Some n) event data now d) = db_sessions d
  /\ db_presence (enqueue id (Some n) event data now d) = db_presence d /\ db_messages (enqueue id (Some n) event data now d) = db_messages d
  /\ forall k r m, db_outbox (enqueue id (Some n) event data now d) !! k = Some r -> ob_session r = Some m ->
       (exists r', db_outbox d !! k = Some r' /\ ob_session r' = Some m) \/ is_Some (db_sessions d !! m).
Proof.
  destruct (enqueue_outcome id n event data now d) as [->|(Hn & _ & ->)]; (split_and!; [done..|]); cbn; [eauto|].
  intros k r m [ [_ <-]|[_ Hr] ]%lookup_insert_Some Hs; [cbn in Hs; simplify_eq; by right|eauto].
Qed.

Ltac same_rows H := destruct H; split; cbn; try done; by new_row.

Ltac after_enqueue := match goal with
  |- context [enqueue ?i (Some ?m) ?e ?v ?t ?d] =>
    destruct (enqueue_db i m e v t d) as (E1 & E2 & E3 & E4); rewrite ?E1, ?E2, ?E3; clear E1 E2 E3; cbn [db_sessions db_presence db_messages with_sessions]
  end.

Lemma session_integrity fails dr r a : integrity a ->
  match r with R_create_session _ _ | R_start_session _ | R_stop_session _ | R_delete_session _ => True | _ => False end -> integrity (serve fails dr r a).2.
Proof.
  intros H Hr. pose proof (ow_outbox _ _ H) as Ho.
  assert (forall n st ev, integrity (on_app (change_session db_error st ev fails dr n) a).2) as Hc.
  { intros n st ev. unfold on_app, change_session. destruct fails; cbn [fst snd]; [by rewrite reset_app|].
    assert (forall k, is_Some (db_sessions (ap_db a) !! k) -> is_Some (alter (sess_set_status (lit st)) n (db_sessions (ap_db a)) !! k)) as Hk.
    { intros k [x Hx]. destruct (decide (k = n)) as [->|]; [rewrite lookup_alter_eq, Hx; by eexists|rewrite lookup_alter_ne by congruence; by eexists]. }
    eapply app_integrity; [exact H|..]; cbn -[enqueue references]; after_enqueue; [exact Hk|done|done|].
    intros k r0 m H1 H2. destruct (E4 k r0 m H1 H2) as [(r' & H3 & H5)|?]; [|done]. cbn in H3. eauto. }
  destruct r; try done; cbn [serve]; try apply Hc.
  - unfold on_app, create_session. destruct fails; cbn [fst snd]; [by rewrite reset_app|].
    assert (forall k, is_Some (db_sessions (ap_db a) !! k) -> is_Some (<[session_from_body body := session_row_of body]> (db_sessions (ap_db a)) !! k)) as Hk.
    { intros k Hx. destruct (decide (k = session_from_body body)) as [->|]; [rewrite lookup_insert_eq; by eexists|by rewrite lookup_insert_ne by congruence]. }
    eapply app_integrity; [exact H|..]; cbn -[enqueue references]; after_enqueue; [exact Hk|done|done|].
    intros k r0 m H1 H2. destruct (E4 k r0 m H1 H2) as [(r' & H3 & H5)|?]; [|done]. cbn in H3. eauto.
  - unfold route_delete_session, on_app, delete_session. destruct (fails || session_referenced session _) eqn:E; cbn [fst snd rs_status db_error_response].
    + rewrite reset_app. done.
    + apply orb_false_iff in E as [_ E%unreferenced]. 
      enough (forall a', integrity a' -> integrity (set_codes (delete session) a')) as Hcodes.
      { change (200 =? 200) with true. cbn [negb]. apply Hcodes.
        apply (app_integrity a _ (fun n => is_Some (db_sessions (ap_db a) !! n) /\ n <> session)); cbn -[enqueue references]; try after_enqueue; [|..|done|done|].
        - destruct H, E. split; eauto.
        - intros n [Hx Hn]. by rewrite lookup_delete_ne by congruence.
        - intros k r0 m H1 H2. destruct (E4 k r0 m H1 H2) as [(r' & H3 & H5)|?]; [|done]. cbn in H3. rewrite lookup_delete_ne; [eauto|].
          intros <-. by apply (ow_outbox _ _ E k r' _ H3 H5). }
      intros a' []. by split.
Qed.

Lemma route_integrity fails dr r a : integrity a -> integrity (serve fails dr r a).2.
Proof.
  intros H. pose proof (fun n ev data a' Ha => enqueue_integrity (dr_event1 dr) n ev data (dr_now dr) a' Ha) as He.
  destruct r as [s b|s b|s i|s i|s i|s i b|s i b|s b|s c b|s b|s c|s f b|s t b|s b|s i|b|b|i|s b|s b|s t b|s|s c|row b|s|s|s];
    try (by apply session_integrity); cbn [serve];
    unfold join_group, add_participants, remove_participants, create_group, get_group, participants, leave_group, update_participants, create_label,
      apply_label, set_presence, subscribe, store_presence, update_profile_field, create_status, status_delete, follow_channel, create_app, create_key,
      revoke_key, reject_call, post_event, convert_media, announce_event, store_event, one_row; try (by destruct fails).
  all: try match goal with
    | |- context [match v_get_or ?x ?y ?v ≫= as_str with _ => _ end] => destruct (v_get_or x y v ≫= as_str); [|done]
    | |- context [match parse_uuid ?v with _ => _ end] => destruct (parse_uuid v); [|done]
    end.
  all: try (apply statement_integrity; [done| |by auto]; intros a'); try (case_bool_decide; [done|]);
    try (intros [Hs ->]%for_session_Some || intros [= <-]; same_rows H).
  - intros [Hs ->]%for_session_Some. destruct H. split; cbn; try done. intros k [ ->%elem_of_singleton|Hk]%elem_of_union; [done|auto].
  - destruct (get_str "id" b); [done|]. intros [= <-]. destruct H. split; cbn; try done. intros k r [Hk _]%map_lookup_filter_Some. eauto.
  - unfold get_qr. destruct (_ ≫= _); [|done]. cbn [snd]. apply enqueue_integrity. destruct fails; [done|]. by destruct H.
  - unfold request_code. cbn [snd]. destruct fails; destruct H; by split.
Qed.

(** Whatever is requested, of whatever session, rows belong to sessions that there
    are; so a session with rows stays. *)
Theorem rows_belong rs a : integrity a -> integrity (serve_all rs a).
Proof.
  unfold serve_all. revert a. induction rs as [|r rs IH]; intros a H; [done|]. cbn [fold_left]. by apply IH, route_integrity.
Qed.

(** ** Sessions are separate *)

Definition request_session (r : Request) : option str :=
  match r with
  | R_create_group s _ | R_join_group s _ | R_get_group s _ | R_participants s _ | R_leave_group s _ | R_add_participants s _ _
  | R_remove_participants s _ _ | R_create_label s _ | R_apply_label s _ _ | R_set_presence s _ | R_subscribe s _ | R_profile s _ _ | R_status s _ _
  | R_status_delete s _ | R_follow_channel s _ | R_reject_call s _ | R_post_event s _ | R_convert_media s _ _ | R_get_qr s | R_request_code s _
  | R_start_session s | R_stop_session s | R_delete_session s => Some s
  | R_create_session _ b => Some (session_from_body b)
  | R_create_app _ | R_create_key _ | R_revoke_key _ => None
  end.

(** All there is of the session [n] is the same. *)
Record same_session (n : str) (a a' : Api) : Prop := {
  sm_groups : forall i, ap_groups a' !! (n, i) = ap_groups a !! (n, i);
  sm_labels : forall i, ap_labels a' !! (n, i) = ap_labels a !! (n, i);
  sm_label_chats : forall l c, (n, l, c) ∈ ap_label_chats a' <-> (n, l, c) ∈ ap_label_chats a;
  sm_profiles : ap_profiles a' !! n = ap_profiles a !! n;
  sm_status : forall k r, su_session r = n -> ap_status a' !! k = Some r <-> ap_status a !! k = Some r;
  sm_channels : forall i, ap_channels a' !! (n, i) = ap_channels a !! (n, i);
  sm_events : forall k r, er_session r = n -> ap_events a' !! k = Some r <-> ap_events a !! k = Some r;
  sm_codes : ap_codes a' !! n = ap_codes a !! n;
  sm_runtime : as_runtime (ap_app a') !! n = as_runtime (ap_app a) !! n;
  sm_sessions : db_sessions (ap_db a') !! n = db_sessions (ap_db a) !! n;
  sm_presence : forall c, db_presence (ap_db a') !! (n, c) = db_presence (ap_db a) !! (n, c);
  sm_outbox : forall k r, ob_session r = Some n -> db_outbox (ap_db a') !! k = Some r <-> db_outbox (ap_db a) !! k = Some r
}.

#[global] Instance same_session_refl n : Reflexive (same_session n).
Proof. by split. Qed.

#[global] Instance same_session_trans n : Transitive (same_session n).
Proof.
  intros a b c H1 H2. split.
  - intros i. by rewrite (sm_groups _ _ _ H2), (sm_groups _ _ _ H1).
  - intros i. by rewrite (sm_labels _ _ _ H2), (sm_labels _ _ _ H1).
  - intros l ch. by rewrite (sm_label_chats _ _ _ H2), (sm_label_chats _ _ _ H1).
  - by rewrite (sm_profiles _ _ _ H2), (sm_profiles _ _ _ H1).
  - intros k r Hr. by rewrite (sm_status _ _ _ H2 k r Hr), (sm_status _ _ _ H1 k r Hr).
  - intros i. by rewrite (sm_channels _ _ _ H2), (sm_channels _ _ _ H1).
  - intros k r Hr. by rewrite (sm_events _ _ _ H2 k r Hr), (sm_events _ _ _ H1 k r Hr).
  - by rewrite (sm_codes _ _ _ H2), (sm_codes _ _ _ H1).
  - by rewrite (sm_runtime _ _ _ H2), (sm_runtime _ _ _ H1).
  - by rewrite (sm_sessions _ _ _ H2), (sm_sessions _ _ _ H1).
  - intros ch. by rewrite (sm_presence _ _ _ H2), (sm_presence _ _ _ H1).
  - intros k r Hr. by rewrite (sm_outbox _ _ _ H2 k r Hr), (sm_outbox _ _ _ H1 k r Hr).
Qed.

(** A row with another session is new under a fresh key. *)
Lemma fresh_row {R} (own : R -> str) (n : str) (t : gmap Uuid R) id row k r : t !! id = None -> own row <> n -> own r = n ->
  <[id := row]> t !! k = Some r <-> t !! k = Some r.
Proof.
  intros Hf Hr Hn. destruct (decide (id = k)) as [<-|]; [|by rewrite lookup_insert_ne by done]. rewrite lookup_insert_eq, Hf. naive_solver.
Qed.

Lemma enqueue_same n m id event data now a : m <> n -> same_session n a (put_app (on_db (enqueue id (Some m) event data now)) a).
Proof.
  intros Hm. destruct (enqueue_outcome id m event data now (ap_db a)) as [E|(_ & Hf & E)].
  - split; unfold ap_db, put_app, on_db in *; cbn in *; rewrite ?E; done.
  - split; unfold ap_db, put_app, on_db in *; cbn in *; rewrite ?E; try done. intros k r Hr. cbn.
    destruct (decide (id = k)) as [<-|]; [|by rewrite lookup_insert_ne by done]. rewrite lookup_insert_eq, Hf. naive_solver.
Qed.

Lemma statement_same n fails stmt event answer a : (forall a', stmt a = Some a' -> same_session n a a') -> (forall a', same_session n a' (event a')) ->
  same_session n a (statement fails stmt event answer a).2.
Proof. intros Hs He. unfold statement. destruct fails; [done|]. destruct (stmt a) as [a'|]; cbn; [|done]. etrans; [by apply Hs|done]. Qed.

Ltac other_key := intros; cbn; rewrite ?lookup_insert_ne, ?lookup_alter_ne by congruence; done.

Lemma on_app_same n h a : (let app := (h (on_db (with_referenced (references a)) (ap_app a))).2 in
    as_runtime app !! n = as_runtime (ap_app a) !! n /\ db_sessions (as_db app) !! n = db_sessions (ap_db a) !! n
    /\ (forall c, db_presence (as_db app) !! (n, c) = db_presence (ap_db a) !! (n, c))
    /\ forall k r, ob_session r = Some n -> db_outbox (as_db app) !! k = Some r <-> db_outbox (ap_db a) !! k = Some r) ->
  same_session n a (on_app h a).2.
Proof. unfold on_app. destruct (h _) as [r app]. cbn [snd]. intros (H1 & H2 & H3 & H4). by split. Qed.

Lemma enqueue_other n m id event data now d : m <> n -> (forall k r, ob_session r = Some n ->
  db_outbox (enqueue id (Some m) event data now d) !! k = Some r <-> db_outbox d !! k = Some r).
Proof.
  intros Hm k r Hr. destruct (enqueue_outcome id m event data now d) as [->|(_ & Hf & ->)]; [done|]. cbn.
  destruct (decide (id = k)) as [<-|]; [|by rewrite lookup_insert_ne by done]. rewrite lookup_insert_eq, Hf. naive_solver.
Qed.

Ltac enqueued := match goal with |- context [enqueue ?i (Some ?m) ?e ?v ?t ?d] => destruct (enqueue_db i m e v t d) as (E1 & E2 & E3 & _) end.

Lemma session_route_same n fails dr r a : request_session r <> Some n ->
  match r with R_create_session _ _ | R_start_session _ | R_stop_session _ | R_delete_session _ => True | _ => False end ->
  same_session n a (serve fails dr r a).2.
Proof.
  intros Hn Hr. assert (forall m st ev, m <> n -> same_session n a (on_app (change_session db_error st ev fails dr m) a).2) as Hc.
  { intros m st ev Hm. apply on_app_same. unfold change_session. destruct fails; [done|]. cbn -[enqueue references]. split_and!.
    - by rewrite lookup_alter_ne.
    - enqueued. rewrite E1. cbn. by rewrite lookup_alter_ne.
    - intros c. enqueued. by rewrite E2.
    - intros k x Hk. by rewrite (enqueue_other n) by done. }
  destruct r; try done; cbn [serve request_session] in *; try (apply Hc; congruence).
  - apply on_app_same. unfold create_session. destruct fails; [done|]. cbn -[enqueue references]. split_and!.
    + case_match; [done|]. rewrite lookup_insert_ne by congruence. done.
    + enqueued. rewrite E1. cbn. rewrite lookup_insert_ne by congruence. done.
    + intros c. enqueued. by rewrite E2.
    + intros k x Hk. by rewrite (enqueue_other n) by congruence.
  - unfold route_delete_session. enough (same_session n a (on_app (delete_session db_error fails dr session) a).2) as H.
    { destruct (on_app _ a) as [resp a']. cbn [snd] in *. destruct (rs_status resp =? 200); [|done]. etrans; [done|]. split; try done. cbn.
      by rewrite lookup_delete_ne by congruence. }
    apply on_app_same. unfold delete_session. destruct (fails || _); [done|]. cbn -[enqueue references]. split_and!.
    + by rewrite lookup_delete_ne by congruence.
    + enqueued. rewrite E1. cbn. by rewrite lookup_delete_ne by congruence.
    + intros c. enqueued. by rewrite E2.
    + intros k x Hk. by rewrite (enqueue_other n) by congruence.
Qed.

(** A request leaves everything of the other sessions as it is. *)
Theorem requests_separate fails dr r a n : request_session r <> Some n -> same_session n a (serve fails dr r a).2.
Proof.
  intros Hn. pose proof (fun m ev data a' => enqueue_same n m (dr_event1 dr) ev data (dr_now dr) a') as He.
  destruct r as [s b|s b|s i|s i|s i|s i b|s i b|s b|s c b|s b|s c|s f b|s t b|s b|s i|b|b|i|s b|s b|s t b|s|s c|row b|s|s|s];
    try (by apply session_route_same); cbn [serve request_session] in *;
    unfold join_group, add_participants, remove_participants, create_group, get_group, participants, leave_group, update_participants, create_label,
      apply_label, set_presence, subscribe, store_presence, update_profile_field, create_status, status_delete, follow_channel, create_app, create_key,
      revoke_key, reject_call, post_event, convert_media, announce_event, store_event, one_row; try (by destruct fails).
  all: try match goal with
    | |- context [match v_get_or ?x ?y ?v ≫= as_str with _ => _ end] => destruct (v_get_or x y v ≫= as_str); [|done]
    | |- context [match parse_uuid ?v with _ => _ end] => destruct (parse_uuid v); [|done]
    end.
  all: try (apply statement_same; [intros a'|intros ?; first [apply He; congruence|done] ]).
  all: try (case_bool_decide as Hfresh; [done|apply eq_None_not_Some in Hfresh]).
  all: try (intros [Hs ->]%for_session_Some || intros [= <-]; split; try done; by other_key).
  all: try (intros [Hs ->]%for_session_Some; split; try done; intros k r Hr; first [apply (fresh_row su_session n)|apply (fresh_row er_session n)]; cbn; congruence).
  - intros [Hs ->]%for_session_Some. split; try done. intros l' c'. cbn. rewrite elem_of_union, elem_of_singleton. naive_solver.
  - destruct (get_str "id" b); [done|]. intros [= <-]. split; try done. intros k r Hr. cbn. rewrite map_lookup_filter_Some. cbn. naive_solver.
  - unfold get_qr. destruct (_ ≫= rt_qr_code); [|done]. cbn [snd]. etrans; [|apply He; congruence]. destruct fails; [done|]. split; try done. cbn.
    case_match; [by rewrite lookup_insert_ne by congruence|done].
  - unfold request_code. cbn [snd]. split; destruct fails; try done; cbn; try (by rewrite lookup_insert_ne by congruence).
    case_match; [by rewrite lookup_insert_ne by congruence|done].
Qed.

(** ** Groups *)

(** A created group is read back as it was posted, under the identifier of the
    answer, whether a session joins or creates it. *)
Theorem group_reads_back dr session body a : is_Some (db_sessions (ap_db a) !! session) ->
  let '(resp, a') := create_group false dr session body a in
  exists id, resp = mkResponse 200 (id_value id) /\ (forall i, get_str "id" body = Some i -> id = i)
    /\ get_str "subject" (rs_body (get_group false session id a').1) = get_str "subject" body
    /\ (rs_body (participants false session id a').1 = json_obj [("participants", opt_value (v_get "participants" body))]%string)
    /\ forall i, i <> id -> (get_group false session i a').1 = (get_group false session i a).1.
Proof.
  intros Hs. unfold create_group, statement, for_session, session_exists. rewrite bool_decide_eq_true_2 by done.
  exists (body_id dr body). split_and!.
  - done.
  - intros i Hi. unfold body_id. by rewrite Hi.
  - unfold get_group, one_row. cbn -[group_json]. rewrite lookup_insert_eq. cbn -[group_json]. unfold group_json, get_str. json_lookup. cbn.
    by destruct (v_get "subject" body) as [ [] |].
  - unfold participants, one_row. cbn. by rewrite lookup_insert_eq.
  - intros i Hi. unfold get_group, one_row. cbn -[group_json]. by rewrite lookup_insert_ne by congruence.
Qed.

(** Removing participants is adding them: afterwards the group has exactly those
    that were to be removed. *)
Theorem removed_participants_stay dr session id body l r a : ap_groups a !! (session, id) = Some r -> v_get "participants" body = Some l ->
  let a' := (remove_participants false dr session id body a).2 in
  rs_body (participants false session id a').1 = json_obj [("participants", l)]%string /\ a' = (add_participants false dr session id body a).2.
Proof.
  intros Hr Hl. unfold remove_participants, add_participants, update_participants, participants, one_row, statement, announce_event. cbn -[enqueue].
  rewrite lookup_alter_eq, Hr, Hl. done.
Qed.

(** ** Keys *)

(** Only the hash of a key is meant to be stored, but its row has the key for an
    identifier, and the listing shows it. *)
Theorem listed_keys_are_keys dr body order a : (forall t, order t ≡ₚ map_to_list t) -> ap_keys a !! dr_id dr = None ->
  let '(resp, a') := create_key false dr body a in
  exists key shown, get_str "key" (rs_body resp) = Some key /\ rs_body (list_keys false order a').1 = V_Array shown
    /\ exists v, v ∈ shown /\ get_str "id" v = Some key /\ get_str "key_hash" v = Some (hash_key key).
Proof.
  intros Ho Hf. unfold create_key, statement. rewrite parse_uuid_str. change (default (dr_event1 dr) (Some (dr_id dr))) with (dr_id dr). cbn zeta. rewrite bool_decide_eq_false_2 by (rewrite Hf; by intros [? ?]).
  exists (uuid_str (dr_id dr)). eexists. split_and!; [by unfold get_str; cbn [rs_body]; json_lookup|reflexivity|].
  exists (key_json (dr_id dr, mkKeyRow (get_str "label" body) (hash_key (uuid_str (dr_id dr))) (dr_now dr) None)).
  split; [|unfold key_json, get_str; split; by json_lookup]. cbn. apply (list_elem_of_fmap_2 key_json). rewrite Ho.
  apply elem_of_map_to_list. apply lookup_insert_eq.
Qed.

(** ** Events *)

(** An event that was stored cannot be read: any page with an event in it is
    answered with an error. *)
Theorem events_unreadable dr session body a limit : is_Some (db_sessions (ap_db a) !! session) -> ap_events a !! dr_id dr = None -> 1 <= limit ->
  let '(resp, a') := post_event false dr session body a in
  rs_status resp = 200 /\ get_events false session None limit 0 a' = (db_error_response db_error, a').
Proof.
  intros Hs Hf Hl. unfold post_event, statement, store_event, for_session, session_exists. rewrite (bool_decide_eq_false_2 (is_Some (ap_events _ !! _))) by (rewrite Hf; by intros [? ?]).
  rewrite bool_decide_eq_true_2 by done. split; [done|]. unfold get_events. set (a' := put_app _ _).
  assert (exists x l, stored_events session None a' = x :: l) as (x & l & ->).
  { unfold stored_events. set (row := mkEventRow session (default (lit "APPLICATION_STARTUP") (get_str "event" body)) body (dr_now dr)).
    assert ((dr_id dr, row) ∈ List.filter (fun ir => (er_session ir.2 =s session) && true) (map_to_list (ap_events a'))) as Hin.
    { apply list_elem_of_In, filter_In. split; [|cbn; by rewrite bytes_eqb_refl]. apply list_elem_of_In, elem_of_map_to_list. cbn. by rewrite lookup_insert_eq. }
    destruct (List.filter _ _) as [|x l]; [by apply not_elem_of_nil in Hin|eauto]. }
  rewrite drop_0. replace (Z.to_nat limit) with (S (Z.to_nat (limit - 1))) by lia. cbn [take length Nat.eqb negb orb]. by rewrite orb_true_r.
Qed.

(** ** Codes *)

Definition no_codes (a : Api) : Prop := map_Forall (fun _ r => rt_qr_code r = None) (as_runtime (ap_app a)).

Lemma statement_runtime fails stmt event answer a : (forall a', stmt a = Some a' -> as_runtime (ap_app a') = as_runtime (ap_app a)) ->
  (forall a', as_runtime (ap_app (event a')) = as_runtime (ap_app a')) -> as_runtime (ap_app (statement fails stmt event answer a).2) = as_runtime (ap_app a).
Proof. intros Hs He. unfold statement. destruct fails; [done|]. destruct (stmt a) as [a'|]; cbn; [|done]. rewrite He. auto. Qed.

Lemma serve_no_codes fails dr r a : no_codes a -> no_codes (serve fails dr r a).2.
Proof.
  intros H. unfold no_codes in *.
  destruct r as [s b|s b|s i|s i|s i|s i b|s i b|s b|s c b|s b|s c|s f b|s t b|s b|s i|b|b|i|s b|s b|s t b|s|s c|row b|s|s|s]; cbn [serve];
    unfold join_group, add_participants, remove_participants, create_group, get_group, participants, leave_group, update_participants, create_label,
      apply_label, set_presence, subscribe, store_presence, update_profile_field, create_status, status_delete, follow_channel, create_app, create_key,
      revoke_key, reject_call, post_event, convert_media, announce_event, store_event, one_row; try (by destruct fails).
  all: try match goal with
    | |- context [match v_get_or ?x ?y ?v ≫= as_str with _ => _ end] => destruct (v_get_or x y v ≫= as_str); [|done]
    | |- context [match parse_uuid ?v with _ => _ end] => destruct (parse_uuid v); [|done]
    end.
  all: try (rewrite statement_runtime; [done|intros a'; try (case_bool_decide; [done|]); intros [_ ->]%for_session_Some || (repeat case_match; intros [= <-]); done|done]).
  - unfold get_qr. destruct (_ ≫= rt_qr_code); [|done]. by destruct fails.
  - unfold request_code. cbn. intros k r. rewrite lookup_insert_Some. intros [ [<- <-]|[_ Hk] ]; [|destruct fails; by apply (H k)].
    cbn. destruct fails; cbn; destruct (as_runtime (ap_app a) !! s) as [x|] eqn:E; cbn; try done; by apply (H s).
  - unfold on_app, create_session. destruct fails; cbn; [done|]. intros k r. case_match; [apply H|]. intros [ [<- <-]|[_ Hk] ]%lookup_insert_Some; [done|by apply (H k)].
  - unfold on_app, start_session, change_session. destruct fails; cbn; [done|]. intros k r [ (-> & x & Hx & ->)|[_ Hk] ]%lookup_alter_Some; [exact (H _ _ Hx)|by apply (H k)].
  - unfold on_app, stop_session, change_session. destruct fails; cbn; [done|]. intros k r [ (-> & x & Hx & ->)|[_ Hk] ]%lookup_alter_Some; [exact (H _ _ Hx)|by apply (H k)].
  - unfold route_delete_session, on_app, delete_session. destruct (fails || _); cbn [fst snd rs_status]; [done|]. change (200 =? 200) with true.
    intros k r Hk. apply (lookup_delete_Some (as_runtime (ap_app a)) s k r) in Hk as [_ Hk]. by apply (H k).
Qed.

(** No request ever puts a code where the answer for the code of a session looks for
    it, so that answer is always that there is none. *)
Theorem qr_never_available rs a fails dr session : no_codes a ->
  get_qr fails dr session (serve_all rs a) = (error_response 404 "qr_not_available", serve_all rs a).
Proof.
  intros H. assert (no_codes (serve_all rs a)) as Hn.
  { unfold serve_all. revert a H. induction rs as [|r rs IH]; intros a H; [done|]. cbn [fold_left]. by apply IH, serve_no_codes. }
  unfold get_qr. destruct (as_runtime _ !! session) as [x|] eqn:E; cbn; [|done]. by rewrite (Hn _ _ E).
Qed.
End Routes.

(** ** Concrete runs *)

#[local] Existing Instances toy_row_text toy_hashes plain_hex.

Definition api_empty : Api := mkApi (mkAppState db_empty ∅ 0) ∅ ∅ ∅ ∅ ∅ ∅ ∅ ∅ ∅ ∅ ∅.
Definition draw (i : Uuid) : Draw := mkDraw i (i + 1) (i + 2) 0.
Definition body_of (l : list (string * Value)) : Value := json_obj l.
Definition with_session : Api := serve_all [] [(false, draw 1, R_create_session None (body_of [("session", V_String (lit "a"))]%string))] api_empty.
Definition group_body : Value :=
  body_of [("id", V_String (lit "g")); ("subject", V_String (lit "Team")); ("participants", V_Array [V_String (lit "x"); V_String (lit "y")])]%string.
Definition removal : Value := body_of [("participants", V_Array [V_String (lit "y")])]%string.
Definition with_group : Api := serve_all [] [(false, draw 4, R_create_group (lit "a") group_body)] with_session.

(** A group in an unknown session. *)
Lemma refused_changes_nothing_witness : (serve [] false (draw 4) (R_create_group (lit "b") group_body) with_session).2 = with_session.
Proof. apply (refused_changes_nothing [] false (draw 4) (R_create_group (lit "b") group_body) with_session). vm_compute. discriminate. Defined.

Lemma rows_belong_witness : integrity (serve_all [] [(false, draw 4, R_create_group (lit "a") group_body); (false, draw 8, R_delete_session (lit "a"))] api_empty).
Proof. apply rows_belong. unfold integrity. split; cbn; intros; simplify_map_eq; set_solver. Defined.

Lemma requests_separate_witness : same_session (lit "a") with_group (serve [] false (draw 8) (R_status_delete (lit "b") (body_of [])) with_group).2.
Proof. apply (requests_separate [] false (draw 8) (R_status_delete (lit "b") (body_of [])) with_group (lit "a")). discriminate. Defined.

Lemma group_reads_back_witness :
  let '(resp, a') := create_group [] false (draw 4) (lit "a") group_body with_session in
  exists id, resp = mkResponse 200 (id_value id) /\ (forall i, get_str "id" group_body = Some i -> id = i)
    /\ get_str "subject" (rs_body (get_group [] false (lit "a") id a').1) = get_str "subject" group_body
    /\ (rs_body (participants [] false (lit "a") id a').1 = json_obj [("participants", opt_value (v_get "participants" group_body))]%string)
    /\ forall i, i <> id -> (get_group [] false (lit "a") i a').1 = (get_group [] false (lit "a") i with_session).1.
Proof. apply (group_reads_back [] (draw 4) (lit "a") group_body with_session). vm_compute. by eexists. Defined.

Lemma removed_participants_stay_witness :
  rs_body (participants [] false (lit "a") (lit "g") (remove_participants [] false (draw 8) (lit "a") (lit "g") removal with_group).2).1
  = json_obj [("participants", V_Array [V_String (lit "y")])]%string.
Proof.
  apply (removed_participants_stay [] (draw 8) (lit "a") (lit "g") removal (V_Array [V_String (lit "y")])
           (mkGroupRow (Some (lit "Team")) (Some (V_Array [V_String (lit "x"); V_String (lit "y")])) 0) with_group); vm_compute; reflexivity.
Defined.

Lemma listed_keys_are_keys_witness :
  let '(resp, a') := create_key [] false (draw 4) (body_of []) with_session in
  exists key shown, get_str "key" (rs_body resp) = Some key /\ rs_body (list_keys [] false map_to_list a').1 = V_Array shown
    /\ exists v, v ∈ shown /\ get_str "id" v = Some key /\ get_str "key_hash" v = Some (hash_key key).
Proof. apply (listed_keys_are_keys [] (draw 4) (body_of []) map_to_list with_session); [done|vm_compute; reflexivity]. Defined.

Lemma events_unreadable_witness :
  let '(resp, a') := post_event [] false (draw 4) (lit "a") (body_of []) with_session in
  rs_status resp = 200 /\ get_events [] false (lit "a") None 50 0 a' = (db_error_response [], a').
Proof. apply (events_unreadable [] (draw 4) (lit "a") (body_of []) with_session 50); [vm_compute; by eexists|vm_compute; reflexivity|lia]. Defined.

Lemma qr_never_available_witness : (get_qr false (draw 8) (lit "a") with_group).1 = error_response 404 "qr_not_available".
Proof.
  unfold with_group. rewrite (qr_never_available [] [(false, draw 4, R_create_group (lit "a") group_body)] with_session false (draw 8) (lit "a")); [done|].
  intros k r. vm_compute. intros Hk. repeat match goal with H : context [match ?x with _ => _ end] |- _ => destruct x end; by simplify_eq.
Defined.
